(* ===== verification/_CoqProject ===== *)
-Q . S2P
Prelude.v
Machine.v
Collections.v
Primitives.v
FixedDecimal.v
Codec.v
Concrete.v
KeyRate.v
Exposure.v
Portfolio.v
Performance.v
ResearchGraph.v
GraphOrder.v
GraphWiring.v
GraphConstruction.v
RunJournal.v
Runtime.v
GraphExec.v
Digits.v
DecimalValue.v
Position.v
Coverage.v
Amount.v
Bar.v
Book.v
Execution.v
Subject.v
Constraints.v
Ledger.v
Calibration.v
Writer.v
Policy.v
SimulationResult.v
AppErrors.v
BarReplay.v
Causality.v
Settlement.v
PolicyCalibration.v
DataHealth.v
PortfolioRisk.v
FixedConversion.v
PortfolioMetrics.v
Access.v
Cursor.v
Evidence.v
NativeIdentity.v
NativeEnvelope.v
NativeExec.v
NativeDataflow.v
NativeReplay.v
MarketData.v
BarIngest.v
BarImport.v
BarSnapshot.v
SnapshotRows.v
SnapshotReading.v
BondAnalytics.v
Wire.v
CouponTax.v
RatesBond.v
RatesEvidence.v
RatesProof.v
RatesExecution.v
MaterializedInput.v
NativeRegistry.v
NativeNodes.v
MarketObjects.v
Fingerprints.v
Governance.v
FuturesDelivery.v
DeliveryBasket.v
Worker.v
WorkerLoop.v
