(* ===== verification/Prelude.v ===== *)
(** * ficant: the research core, modelled and verified

    ficant is a research platform for fixed income written in Rust. Its domain crate
    ([crates/ficant-domain]) holds validated, content-addressed objects; the runtime crate
    ([crates/ficant-runtime]) keeps the journal of a run and replays it; the application crate
    ([crates/ficant-application]) holds the use cases that compose them behind ports. This library is a
    shallow embedding of the deterministic core of these crates: constructors and operations are
    functions to [Result], state is passed explicitly, and the definitions are executable.

    ** Common ground

    - [Prelude]: [Result] and the [?] operator, loops with [?], tactics that take a successful or failed
      computation apart, hint databases, generic list lemmas.
    - [Machine]: machine integers as [Z] with range tests and [checked_*] operations, bytes, big-endian
      conversions, UTF-8 strings. [Collections]: orders as a class with laws, stable sorting, [BTreeMap]
      and [BTreeSet] as strictly sorted lists. [Digits]: decimal text of integers.
    - [Codec]: the framed byte strings behind content hashes, with the lemma that frames determine their
      values; [Writer]: the same for the writer of the replay objects, whose fields can be read back.
    - [Concrete]: executable instances of the third-party parameters, used by the witnesses only.

    ** Domain objects ([crates/ficant-domain/src])

    - [Primitives] ([lib.rs], [primitives/]): error codes, ids, versions, hashes, lineage, market time.
    - [FixedDecimal] ([primitives/fixed_decimal.rs]) and [DecimalValue] ([primitives/decimal.rs]):
      the two decimal types. The rounding routines are shown equal to a declarative rounding of the exact
      quotient, and to fail exactly when it does not fit.
    - [KeyRate] and [Exposure] ([research/exposure.rs]): sensitivities of positions, position exposures
      and their totals. [Position], [Coverage], [DataHealth] ([research/position_snapshot.rs],
      [coverage.rs], [data_health.rs]): snapshots, what part of them a result is computed from, and the
      report on their quality.
    - [Portfolio], [Performance] ([portfolio/mod.rs], [portfolio/performance.rs]): the catalog and the
      daily time-weighted series, compared with an exact recurrence.
    - [ResearchGraph], [GraphOrder], [GraphWiring], [GraphConstruction] ([research/research_graph.rs]):
      node contracts, the order of execution (Kahn's algorithm), the wiring, and the constructor as a
      whole: what an accepted graph satisfies, and that its digest identifies it.
    - [RunJournal] ([research/run_journal.rs], [experiment_run.rs]): journal events and the life of a run.
    - [Bar] ([market/bar.rs]), [Subject] ([subject.rs], [constraint.rs]), [MarketData] ([market/unit.rs],
      [market/calendar.rs], [market/data_source.rs], [research/data_snapshot.rs]): units, calendars, data
      sources and snapshots.
    - [BondAnalytics] ([analytics.rs], [use_cases/bond_analytics.rs]): terms, calendars, inputs and results of
      a bond analysis, and the calculation that accepts only a result of its own input.
    - [MarketObjects] ([market/*.rs]): instruments with their bonds and futures contracts, observed facts, curve
      snapshots. [Fingerprints] ([application/src/ports/fingerprint.rs], [definitions.rs], [facts.rs]): the bytes
      behind their hashes, and that a hash identifies its definition or fact.

    ** Journal and graph execution ([crates/ficant-runtime/src])

    - [Runtime] ([journal.rs], [replay.rs], [digest.rs]): idempotent, optimistic appends to a hash chain
      and the replay of a journal into the final state of its run. The reachable journals are those made
      by any sequence of calls ([SharedRunJournal] puts a lock around each call).
    - [GraphExec] ([graph_execution.rs]): the state machine that replays a journal against the frozen
      order of a graph, up to resumption after an interruption at any point.

    ** Replay of a policy ([domain/src/replay], [application/src/use_cases])

    - [Amount], [Book], [Execution], [Constraints], [Ledger], [Calibration], [Policy],
      [SimulationResult] ([replay/*.rs]): exact amounts, one execution attempt in one bar, constraint
      checks that reduce or refuse it, the ledger that books it, the policies and the results.
    - [BarReplay], [Settlement] ([use_cases/bar_replay.rs]): the loop over the bar grid, and what holds
      of one step when attempt, check and ledger are composed. [Causality]: two replays side by side, on data
      that agree up to a time. [PolicyCalibration] ([use_cases/policy_calibration.rs]): the choice among
      candidates that each replay.

    ** Native execution ([crates/ficant-runtime/src/native_execution.rs])

    - [NativeIdentity]: what a result may depend on (inputs, rule packs, snapshots, environment, seed,
      implementations, code) frozen into one digest. [NativeEnvelope]: the bytes in which the outputs of a
      node are stored, and their decoder. [NativeExec]: execution of one node and of a graph; the node
      implementations ([NativeNode]) are arguments. [NativeDataflow]: the result is the unique solution
      of the dataflow equations of the graph. [NativeReplay]: what the digest of a result binds, and the
      comparison of two results. [Evidence]: the formal evidence kept with an output.

    ** Market data ([crates/ficant-data/src])

    - [BarIngest], [BarImport] ([bar_canonical.rs], [mapping.rs], [bar_source.rs]): bars of a source read with its
      mapping, rejected or kept, sorted and turned into rows. [BarSnapshot] ([bar_snapshot.rs]): publication and
      verified reading of a snapshot. [SnapshotRows], [SnapshotReading]: the columns of a batch, and what holds
      of a snapshot that is written and read. A record batch is represented by its rows.

    ** Bond analysis ([crates/ficant-api/src/rates.rs] and the crates it calls)

    - [CouponTax] ([ports/tax_rule_parser.rs], [use_cases/tax_rule.rs], [market/market_rule_pack.rs],
      [crates/ficant-tax-pack]): coupon tax treatments, the rule packs they are selected from, and net coupons.
    - [Wire] ([crates/ficant-contracts], the messages of this service): records with the fields of the messages.
      [RatesBond], [RatesProof], [RatesExecution] ([rates.rs]): decimals and units on the wire, the proof that a
      request, the materialized input and the consumed inputs agree, the two calculations before and after tax.
      [RatesEvidence] ([use_cases/rates_materialization.rs]): evidence of inputs and its fingerprint.
    - [MaterializedInput], [NativeRegistry], [NativeNodes] ([crates/ficant-native-nodes]): the codec of the private
      port, the built-in contracts and the registry of trusted nodes, and the two nodes, which are executors in the
      sense of [NativeExec].

    ** Governance and futures delivery

    - [Governance] ([governance.rs], [ports/governance.rs], [ports/definitions.rs]): who may change a definition, with
      which justification, and the record every change leaves.
    - [FuturesDelivery] ([futures_delivery.rs], [crates/ficant-cgb-futures-pack]): rules of delivery, deliverable
      bonds, inputs and results. [DeliveryBasket] ([use_cases/futures_delivery.rs]): the basket of a contract made
      from registered definitions and the quotes of a snapshot, and the cheapest bond. A rule pack of delivery,
      unlike one of taxes, need not be verified.

    ** Worker ([binaries/ficant-worker/src/lib.rs])

    - [Worker]: configuration from the environment, attestations, derived ids, the check of a claimed task.
      [WorkerLoop]: the select loop of one claimed task over replies of the backend, timers and time in any order, and
      the loop that claims tasks. The two clock readings at the start of a task give one instant.

    ** Application ([crates/ficant-application/src])

    - [AppErrors] ([error.rs]): errors of the use cases. [Access] ([ports/access.rs], [ports/mod.rs]):
      principals, roles, scopes, idempotency keys. [Cursor] ([ports/cursor.rs]): page cursors sealed with
      authenticated encryption, rotation of keys. [FixedConversion]: how the use cases convert between the
      decimal types. [PortfolioRisk] ([domain/src/portfolio]): the content hash of an exposure.
      [PortfolioMetrics] ([use_cases/portfolio_aggregation.rs]): sums, weighted averages, key-rate
      summaries and classifications of a portfolio.

    ** What the theorems show

    - Refinement of exact mathematics: rounding of fixed decimals, sensitivities as one rounded fraction,
      performance against an exact recurrence, amounts and constraint measures against rationals.
    - Invariants: journals stay append-only hash chains; accepted graphs are acyclic and fully wired;
      ledger steps balance and profit telescopes; a run moves through its states only as allowed.
    - Safety: what a replay has done up to a time depends only on bars that ended by then, and on whether
      any follow; constraints hold on the book after settlement, nodes run in dependency order, and two objects
      of one hash are the same or their own encodings collide under SHA-256.
    - Termination and liveness: topological sorting terminates and fails exactly on cycles; an interrupted
      run can always be resumed; the result of a replay loop is always accepted.
    - Round trips of payloads, encodings and texts; bounds and overflow as the exact range in which an
      operation succeeds; errors as the exact conditions under which each is returned.
    - Protocols: a claimed task reports its outcome at most once and in every order of events ends within its
      deadlines; a worker stops only for the causes that are named.

    ** Fuel and measures

    Loops over collections are structural. Euclid's loop ([KeyRate.gcd_loop]) has fuel 258, because a
    remainder halves in two turns and the numbers are below 2^128; Kahn's loop ([ResearchGraph.drain]) has
    one turn for each node and one more; printing an integer has its binary logarithm plus one; removing
    trailing zeros has the length of the text, or the scale; binary search has the length of the slice;
    the decoder of output envelopes has one turn for each byte and one more, because every output takes
    bytes. Each bound is proved to be enough ([greatest_common_divisor_spec],
    [topological_order_complete], [print_nat_spec], [binary_search_by_spec], [decode_outputs_fuel] and others).

    ** Parameters

    Code outside the repository is a class of operations, and what the modelled code relies on is a second
    class of laws or a hypothesis: SHA-256 ([Sha256], [Sha256Laws]), ULIDs ([UlidCrate], [UlidCrateLaws]), the time library
    ([Chrono], [ChronoLaws], [ChronoShort], [ChronoClock], [ChronoDays], [ChronoDelta],
    [ChronoDeltaLaws]), the decimal library ([RustDecimal], [RustDecimalLaws], [DecimalArith],
    [DecimalArithLaws], [DecimalText]: operations are exact when the exact result fits 96 bits and 28
    places, nothing is said otherwise), the native coupon and accrual source ([BondCarry]), the cipher of
    page cursors ([Aead], [AeadLaws]: opening is the inverse of sealing under the same key, nonce and
    additional data, and sealing adds the tag; a ciphertext valid for two scopes is exhibited, not
    excluded). Texts and columns of times are [ChronoLocal], [ChronoColumns], [ChronoColumnsLaws], [ChronoText] and
    [ChronoParse]; the files of a snapshot are [SnapshotFormats] and [SnapshotFormatsLaws]; Protobuf is
    [InputEncoder], [BondInputFormats], [NodeMessages] and [TaxPackMessages], which encode or decode one message
    each; the sources of a build and its version are [NativeBuild] and [WorkerBuild]; the environment variables of a
    worker are [Environment]; the engine that computes the numbers of a bond is [BondAnalyticsEngine]. Texts of times of day are [ChronoTime]
    and [ChronoTimeLaws], the addition of months to a date is [ChronoMonths], the bytes of a ULID are [UlidBytes], the
    payload of a delivery rule pack is [DeliveryPackMessages]; what a basket is read from is [BasketPorts]. Data ports,
    evaluators of a replay, the backend of a worker and the native nodes of a graph are arguments, as in the source.
    Hashing is never assumed to be injective: identity theorems end in "or a collision", and where the length of a
    digest is assumed, the two colliding texts are named, because some collision exists then anyway.

    ** Not modelled

    Storage ([ficant-storage]: SQL, object storage, Arrow files) and the production backend of the worker, whose
    meaning is that of a database; the RPC surface ([ficant-api] but for the bond analysis) and its generated messages
    ([ficant-contracts]), but for those of [Wire]; the C++ kernel and its bindings ([ficant-kernel-sys],
    [ficant-fixed-income-native]); the server and bootstrap binaries, the Python SDK and the web client: I/O, generated
    code or foreign code. Formal evidence in the metadata of a bond result is the bytes of its message. Of market
    data, the mapping of NDJSON fields and the ingestion of quotes; of the rates service, the analyses of curves, carry and hedges, the artifact
    in which a delivery basket is published, and the reads that materialize facts. Use cases other than those above mostly move data between ports. The manifest
    lists each part with its reason. *)

From Stdlib Require Import ZArith Lia.
From stdpp Require Import base list option strings numbers sorting sets.
Open Scope Z_scope.

(** ** Results and the [?] operator *)

(** Rust's [Result<A, E>]; the error type comes first so that [Result E] is a monad. *)
Inductive Result (E A : Type) : Type :=
| Ok (a : A)
| Err (e : E).
Arguments Ok {E A} a.
Arguments Err {E A} e.

(** The [?] operator: [x ← m; k] continues with the value of [m] or returns its error. *)
#[export] Instance Result_ret E : MRet (Result E) := fun _ a => Ok a.
#[export] Instance Result_bind E : MBind (Result E) := fun _ _ k m =>
  match m with Ok a => k a | Err e => Err e end.
#[export] Instance Result_fmap E : FMap (Result E) := fun _ _ f m =>
  match m with Ok a => Ok (f a) | Err e => Err e end.

#[export] Instance Result_eq_dec {E A} `{EqDecision E, EqDecision A} : EqDecision (Result E A).
Proof. solve_decision. Defined.

(** [Option::ok_or]. *)
Definition ok_or {E A} (o : option A) (e : E) : Result E A :=
  match o with Some a => Ok a | None => Err e end.

(** [Result::map_err]. *)
Definition map_err {E F A} (f : E -> F) (m : Result E A) : Result F A :=
  match m with Ok a => Ok a | Err e => Err (f e) end.

(** [Result::is_ok]. *)
Definition is_ok {E A} (m : Result E A) : bool :=
  match m with Ok _ => true | Err _ => false end.

(** [if cond { return Err(e) }]. *)
Definition fail_if {E} (cond : bool) (e : E) : Result E unit :=
  if cond then Err e else Ok tt.

(** [Iterator::try_fold] and a [for] loop whose body uses [?]. *)
Fixpoint try_fold {E A S} (f : S -> A -> Result E S) (acc : S) (l : list A) : Result E S :=
  match l with
  | [] => Ok acc
  | a :: l' => s ← f acc a; try_fold f s l'
  end.

(** [Iterator::collect] into a [Result]: the first error wins. *)
Fixpoint try_map {E A B} (f : A -> Result E B) (l : list A) : Result E (list B) :=
  match l with
  | [] => Ok []
  | a :: l => b ← f a; bs ← try_map f l; Ok (b :: bs)
  end.

(** ** Adjacent pairs: [slice::windows(2)] *)

Fixpoint windows2_any {A} (p : A -> A -> bool) (l : list A) : bool :=
  match l with
  | x :: ((y :: _) as l') => p x y || windows2_any p l'
  | _ => false
  end.

Definition windows2_all {A} (p : A -> A -> bool) (l : list A) : bool :=
  negb (windows2_any (fun x y => negb (p x y)) l).

(** ** Automation *)

Create HintDb ficant.
Create Rewrite HintDb ficant_rw.

Lemma bind_Ok {E A B} (m : Result E A) (k : A -> Result E B) b :
  (m ≫= k) = Ok b <-> exists a, m = Ok a /\ k a = Ok b.
Proof. destruct m; cbn; [|split; [done|by intros (? & ? & ?)]]. split; [eauto|by intros (? & [= ->] & ?)]. Qed.

(** A validation step [check?;] passes, or its error is the result. *)
Lemma guard_Ok {E B} (m : Result E unit) (k : Result E B) b :
  (m ≫= fun _ => k) = Ok b <-> m = Ok tt /\ k = Ok b.
Proof. destruct m as [[]|]; cbn; naive_solver. Qed.

Lemma Ok_inj {E A} (a b : A) : @Ok E A a = Ok b <-> a = b.
Proof. naive_solver. Qed.

Lemma and_cong_l (P Q R : Prop) : (P -> (Q <-> R)) -> (P /\ Q <-> P /\ R).
Proof. tauto. Qed.

Lemma ok_or_Ok {E A} (o : option A) (e : E) a : ok_or o e = Ok a <-> o = Some a.
Proof. destruct o; cbn; naive_solver. Qed.

Lemma map_err_Ok {E F A} (f : E -> F) (m : Result E A) a : map_err f m = Ok a <-> m = Ok a.
Proof. destruct m; cbn; naive_solver. Qed.

Lemma fail_if_Ok {E} b (e : E) u : fail_if b e = Ok u <-> b = false.
Proof. destruct b, u; cbn; naive_solver. Qed.

(** Splits a successful computation into the successes of its steps. *)
Ltac res_step :=
  match goal with
  | H : (_ ≫= _) = Ok _ |- _ =>
      apply bind_Ok in H; destruct H as (? & ? & H)
  | H : ok_or _ _ = Ok _ |- _ => apply ok_or_Ok in H
  | H : map_err _ _ = Ok _ |- _ => apply map_err_Ok in H
  | H : fail_if _ _ = Ok _ |- _ => apply fail_if_Ok in H
  | H : Ok _ = Ok _ |- _ => injection H as H
  | H : Err _ = Ok _ |- _ => discriminate H
  | H : Some _ = None |- _ => discriminate H
  | H : None = Some _ |- _ => discriminate H
  | H : (if ?b then Err _ else _) = Ok _ |- _ =>
      let E := fresh "E" in destruct b eqn:E; [discriminate H|]
  | H : (if ?b then _ else Err _) = Ok _ |- _ =>
      let E := fresh "E" in destruct b eqn:E; [|discriminate H]
  end.
Ltac res_simp := repeat res_step; simplify_eq.

(** Walks down a failed computation: either its first step failed, or a later one did. *)
Lemma bind_Err {E A B} (m : Result E A) (k : A -> Result E B) e :
  (m ≫= k) = Err e <-> m = Err e \/ exists a, m = Ok a /\ k a = Err e.
Proof. destruct m; cbn; naive_solver. Qed.

Ltac err_split H :=
  repeat lazymatch type of H with
  | (_ ≫= _) = Err _ =>
      apply bind_Err in H; destruct H as [H|(? & ? & H)]; [..|cbv beta zeta in H]
  | (if ?b then _ else _) = Err _ => destruct b
  | (let '(_, _) := ?p in _) = Err _ => destruct p
  | Ok _ = Err _ => discriminate H
  end.

(** Turns boolean tests in the context into propositions. *)
Ltac breflect :=
  repeat match goal with
  | H : (_ || _) = false |- _ => apply orb_false_iff in H; destruct H
  | H : (_ && _) = true |- _ => apply andb_true_iff in H; destruct H
  | H : negb _ = false |- _ => apply negb_false_iff in H
  | H : negb _ = true |- _ => apply negb_true_iff in H
  | H : (_ <? _) = true |- _ => apply Z.ltb_lt in H
  | H : (_ <? _) = false |- _ => apply Z.ltb_ge in H
  | H : (_ <=? _) = true |- _ => apply Z.leb_le in H
  | H : (_ <=? _) = false |- _ => apply Z.leb_gt in H
  | H : (_ =? _) = true |- _ => apply Z.eqb_eq in H
  | H : (_ =? _) = false |- _ => apply Z.eqb_neq in H
  | H : bool_decide _ = true |- _ => apply bool_decide_eq_true in H
  | H : bool_decide _ = false |- _ => apply bool_decide_eq_false in H
  end.

(** ** Generic list lemmas *)

(** The value of a result, for evaluating concrete runs: a result that is not an error is its value. *)
Definition ok_of {E A} (d : A) (r : Result E A) : A := match r with Ok a => a | Err _ => d end.

Lemma ok_of_eq {E A} (d : A) (r : Result E A) x : r = Ok x -> x = ok_of d r.
Proof. by intros ->. Qed.
Lemma ok_intro {E A} (d : A) (r : Result E A) : is_ok r = true -> r = Ok (ok_of d r).
Proof. by destruct r. Qed.

Lemma try_fold_app {E A S} (f : S -> A -> Result E S) s l1 l2 :
  try_fold f s (l1 ++ l2) = (s' ← try_fold f s l1; try_fold f s' l2).
Proof. revert s; induction l1 as [|a l1 IH]; intros s; cbn; [done|]. destruct (f s a); cbn; auto. Qed.

(** Invariant rule for a fallible loop. *)
Lemma try_fold_inv {E A S} (P : S -> Prop) (f : S -> A -> Result E S) s l s' :
  P s -> (forall s a s', a ∈ l -> P s -> f s a = Ok s' -> P s') ->
  try_fold f s l = Ok s' -> P s'.
Proof.
  revert s; induction l as [|a l IH]; intros s HP Hf H; cbn in H; res_simp; [done|].
  eapply IH; [|intros; eapply Hf; eauto; set_solver|done].
  eapply Hf; eauto; set_solver.
Qed.

Lemma try_map_Ok {E A B} (f : A -> Result E B) l bs :
  try_map f l = Ok bs <-> Forall2 (fun a b => f a = Ok b) l bs.
Proof.
  revert bs. induction l as [|a l IH]; intros bs; cbn.
  - rewrite Ok_inj. split; [intros <-; constructor|by inversion 1].
  - rewrite bind_Ok. setoid_rewrite bind_Ok. setoid_rewrite IH. setoid_rewrite Ok_inj. split.
    + intros (b & Hb & bs' & Hbs & <-). by constructor.
    + inversion 1; subst. eauto 6.
Qed.

(** A map whose results are a function of the elements. *)
Lemma try_map_pure {E A B} (f : A -> Result E B) (P : A -> Prop) (g : A -> B) l bs :
  Forall (fun a => forall b, f a = Ok b <-> P a /\ b = g a) l -> try_map f l = Ok bs <-> Forall P l /\ bs = map g l.
Proof.
  intros HF. revert bs. induction HF as [|a l Ha _ IH]; intros bs; cbn.
  { split; [by intros [= <-]|by intros [_ ->]]. }
  rewrite bind_Ok. setoid_rewrite bind_Ok. setoid_rewrite Ha. setoid_rewrite IH. split.
  - intros (b & [? ->] & bs' & [? ->] & [= <-]). split; [by constructor|done].
  - intros [Hf ->]. inversion_clear Hf. eauto 10.
Qed.

Lemma existsb_false_Forall {A} (p : A -> bool) l : existsb p l = false <-> Forall (fun x => p x = false) l.
Proof.
  induction l as [|x l IH]; cbn; [done|]. by rewrite orb_false_iff, IH, Forall_cons.
Qed.

Lemma windows2_any_false {A} (p : A -> A -> bool) l :
  windows2_any p l = false <->
  forall i x y, l !! i = Some x -> l !! S i = Some y -> p x y = false.
Proof.
  induction l as [|x [|y l] IH].
  - split; [intros _ i ?? H; by rewrite lookup_nil in H|done].
  - split; [intros _ [|i] ?? ? H; cbn in H; by rewrite ?lookup_nil in H|done].
  - change (windows2_any p (x :: y :: l)) with (p x y || windows2_any p (y :: l)).
    rewrite orb_false_iff, IH. split.
    + intros [Hxy Hl] [|i] a b Ha Hb; cbn in Ha, Hb; [by simplify_eq|].
      apply (Hl i a b); done.
    + intros H; split; [by apply (H 0%nat)|]. intros i a b Ha Hb. by apply (H (S i)).
Qed.

Lemma windows2_all_true {A} (p : A -> A -> bool) l :
  windows2_all p l = true <->
  forall i x y, l !! i = Some x -> l !! S i = Some y -> p x y = true.
Proof.
  unfold windows2_all. rewrite negb_true_iff, windows2_any_false.
  split; intros H i x y Hx Hy; specialize (H i x y Hx Hy).
  - by apply negb_false_iff in H.
  - by rewrite H.
Qed.

(** A filter that keeps everything, and one that keeps nothing. *)
Lemma filter_all {A} (f : A -> bool) l : (forall x, x ∈ l -> f x = true) -> List.filter f l = l.
Proof.
  induction l as [|x l IH]; intros Hf; [done|]. cbn. rewrite Hf by left. f_equal. apply IH. intros y Hy. apply Hf. by right.
Qed.

Lemma filter_none {A} (f : A -> bool) l : (forall x, x ∈ l -> f x = false) -> List.filter f l = [].
Proof.
  induction l as [|x l IH]; intros Hf; [done|]. cbn. rewrite Hf by left. apply IH. intros y Hy. apply Hf. by right.
Qed.
