(* ===== verification/Machine.v ===== *)
(** * Machine integers and byte strings

    The part of Rust's core library the modelled code computes with: integers of a fixed width as
    [Z] with their range tests, [checked_*] operations returning [option], the wrapping meaning of
    the plain operators on [u128], truncating signed division, big-endian conversions and UTF-8
    strings as sequences of bytes. *)

From Stdlib Require Import ZArith Lia.
From Stdlib Require Import Strings.Byte Strings.String.
From stdpp Require Import base list option strings numbers.
From S2P Require Import Prelude.
Open Scope Z_scope.

(** ** Ranges *)

Definition in_range (lo hi z : Z) : bool := (lo <=? z) && (z <? hi).

Definition in_u8 : Z -> bool := in_range 0 (2 ^ 8).
Definition in_u16 : Z -> bool := in_range 0 (2 ^ 16).
Definition in_u32 : Z -> bool := in_range 0 (2 ^ 32).
Definition in_i32 : Z -> bool := in_range (- 2 ^ 31) (2 ^ 31).
Definition in_u64 : Z -> bool := in_range 0 (2 ^ 64).
Definition in_i64 : Z -> bool := in_range (- 2 ^ 63) (2 ^ 63).
Definition in_u128 : Z -> bool := in_range 0 (2 ^ 128).
Definition in_i128 : Z -> bool := in_range (- 2 ^ 127) (2 ^ 127).

Definition i128_MIN : Z := - 2 ^ 127.
Definition u32_MAX : Z := 2 ^ 32 - 1.
Definition u64_MAX : Z := 2 ^ 64 - 1.

(** A result that must lie in a range: the common shape of [checked_add], [checked_sub],
    [checked_mul], [checked_neg] and [try_from]. *)
Definition checked (ok : Z -> bool) (z : Z) : option Z := if ok z then Some z else None.

Definition i128_checked_add (a b : Z) : option Z := checked in_i128 (a + b).
Definition i128_checked_sub (a b : Z) : option Z := checked in_i128 (a - b).
Definition i128_checked_mul (a b : Z) : option Z := checked in_i128 (a * b).
Definition i128_checked_neg (a : Z) : option Z := checked in_i128 (- a).
Definition i128_try_from (a : Z) : option Z := checked in_i128 a.
Definition u128_checked_add (a b : Z) : option Z := checked in_u128 (a + b).
Definition u128_checked_mul (a b : Z) : option Z := checked in_u128 (a * b).
Definition u64_checked_add (a b : Z) : option Z := checked in_u64 (a + b).
Definition u64_checked_sub (a b : Z) : option Z := checked in_u64 (a - b).
Definition u64_try_from (a : Z) : option Z := checked in_u64 a.

(** The plain operators on [u128] wrap modulo [2^128] (and panic when overflow checks are on). *)
Definition u128_add (a b : Z) : Z := (a + b) mod 2 ^ 128.
Definition u128_sub (a b : Z) : Z := (a - b) mod 2 ^ 128.

(** [i128::unsigned_abs]. *)
Definition unsigned_abs (a : Z) : Z := Z.abs a.

(** Signed [/] and [%] truncate toward zero. *)
Definition i128_div (a b : Z) : Z := Z.quot a b.
Definition i128_rem (a b : Z) : Z := Z.rem a b.

Lemma in_range_spec lo hi z : in_range lo hi z = true <-> lo <= z < hi.
Proof. unfold in_range. rewrite andb_true_iff, Z.leb_le, Z.ltb_lt. lia. Qed.

Lemma in_range_false lo hi z : in_range lo hi z = false <-> z < lo \/ hi <= z.
Proof. unfold in_range. rewrite andb_false_iff, Z.leb_gt, Z.ltb_ge. lia. Qed.

Lemma checked_Some ok z r : checked ok z = Some r <-> ok z = true /\ r = z.
Proof. unfold checked. destruct (ok z); [|naive_solver]. split; [by intros [= ->]|by intros [_ ->]]. Qed.

Lemma checked_None ok z : checked ok z = None <-> ok z = false.
Proof. unfold checked. destruct (ok z); naive_solver. Qed.

Lemma u128_add_small a b : in_u128 (a + b) = true -> u128_add a b = a + b.
Proof. intros H%in_range_spec. apply Z.mod_small. lia. Qed.

Lemma u128_sub_small a b : in_u128 (a - b) = true -> u128_sub a b = a - b.
Proof. intros H%in_range_spec. apply Z.mod_small. lia. Qed.

#[export] Hint Rewrite checked_Some checked_None : ficant_rw.

(** Unfolds range tests of the context and of the goal into linear arithmetic. *)
Ltac ranges :=
  repeat match goal with
  | H : in_u8 _ = _ |- _ => unfold in_u8 in H
  | H : in_u16 _ = _ |- _ => unfold in_u16 in H
  | H : in_u32 _ = _ |- _ => unfold in_u32 in H
  | H : in_i32 _ = _ |- _ => unfold in_i32 in H
  | H : in_u64 _ = _ |- _ => unfold in_u64 in H
  | H : in_i64 _ = _ |- _ => unfold in_i64 in H
  | H : in_u128 _ = _ |- _ => unfold in_u128 in H
  | H : in_i128 _ = _ |- _ => unfold in_i128 in H
  | |- in_u8 _ = _ => unfold in_u8
  | |- in_u16 _ = _ => unfold in_u16
  | |- in_u32 _ = _ => unfold in_u32
  | |- in_i32 _ = _ => unfold in_i32
  | |- in_u64 _ = _ => unfold in_u64
  | |- in_i64 _ = _ => unfold in_i64
  | |- in_u128 _ = _ => unfold in_u128
  | |- in_i128 _ = _ => unfold in_i128
  | H : in_range _ _ _ = true |- _ => apply in_range_spec in H
  | H : in_range _ _ _ = false |- _ => apply in_range_false in H
  | H : checked _ _ = Some _ |- _ => apply checked_Some in H; destruct H as [H ->]
  | H : checked _ _ = None |- _ => apply checked_None in H
  | |- in_range _ _ _ = true => apply in_range_spec
  | |- in_range _ _ _ = false => apply in_range_false
  end.

(** ** Bytes *)

Abbreviation byte := Byte.byte.

#[export] Instance byte_eq_dec : EqDecision byte := Byte.byte_eq_dec.

Definition Z_of_byte (b : byte) : Z := Z.of_N (Byte.to_N b).

Definition byte_of_Z (z : Z) : byte :=
  match Byte.of_N (Z.to_N (z mod 256)) with Some b => b | None => x00 end.

Lemma Z_of_byte_range b : 0 <= Z_of_byte b < 256.
Proof. unfold Z_of_byte. pose proof (Byte.to_N_bounded b). lia. Qed.

Lemma Z_of_byte_of_Z z : Z_of_byte (byte_of_Z z) = z mod 256.
Proof.
  unfold Z_of_byte, byte_of_Z. pose proof (Z.mod_pos_bound z 256 ltac:(lia)) as Hb.
  destruct (Byte.of_N (Z.to_N (z mod 256))) as [b|] eqn:E.
  - apply Byte.to_of_N in E. rewrite E. lia.
  - apply Byte.of_N_None_iff in E. lia.
Qed.

(** [to_be_bytes] of an [n]-byte integer; a negative value appears in two's complement. *)
Fixpoint to_be_bytes (n : nat) (z : Z) : list byte :=
  match n with
  | O => []
  | S n' => byte_of_Z (z / 256 ^ Z.of_nat n') :: to_be_bytes n' z
  end.

(** [from_be_bytes], unsigned. *)
Definition from_be_bytes (l : list byte) : Z :=
  foldl (fun acc b => acc * 256 + Z_of_byte b) 0 l.

Lemma length_to_be_bytes n z : List.length (to_be_bytes n z) = n.
Proof. induction n; cbn; auto. Qed.

Lemma from_be_bytes_acc l acc :
  foldl (fun acc b => acc * 256 + Z_of_byte b) acc l
  = acc * 256 ^ Z.of_nat (List.length l) + from_be_bytes l.
Proof.
  unfold from_be_bytes. revert acc; induction l as [|b l IH]; intros acc; cbn [foldl List.length].
  - cbn. lia.
  - rewrite IH, (IH (0 * 256 + Z_of_byte b)).
    rewrite Nat2Z.inj_succ, Z.pow_succ_r by lia. lia.
Qed.

Lemma from_to_be_bytes n z : from_be_bytes (to_be_bytes n z) = z mod 256 ^ Z.of_nat n.
Proof.
  induction n as [|n IH]; [cbn; by rewrite Z.mod_1_r|].
  cbn [to_be_bytes]. unfold from_be_bytes. cbn [foldl].
  rewrite from_be_bytes_acc, length_to_be_bytes, IH, Z_of_byte_of_Z.
  rewrite Nat2Z.inj_succ, Z.pow_succ_r by lia.
  assert (Hp : 0 < 256 ^ Z.of_nat n) by (apply Z.pow_pos_nonneg; lia).
  rewrite (Z.mul_comm 256), (Z.rem_mul_r z) by lia. lia.
Qed.

Lemma from_be_bytes_range l : 0 <= from_be_bytes l < 256 ^ Z.of_nat (List.length l).
Proof.
  induction l as [|b l IH]; [cbn; lia|].
  unfold from_be_bytes; cbn [foldl]. rewrite from_be_bytes_acc. cbn [List.length].
  rewrite Nat2Z.inj_succ, Z.pow_succ_r by lia.
  pose proof (Z_of_byte_range b). nia.
Qed.

#[global] Arguments to_be_bytes : simpl never.

(** Encoding is injective on any interval no longer than the width. *)
Lemma to_be_bytes_inj n lo a b :
  lo <= a < lo + 256 ^ Z.of_nat n -> lo <= b < lo + 256 ^ Z.of_nat n ->
  to_be_bytes n a = to_be_bytes n b -> a = b.
Proof.
  intros Ha Hb H%(f_equal from_be_bytes). rewrite !from_to_be_bytes in H.
  assert (Hp : 0 < 256 ^ Z.of_nat n) by (apply Z.pow_pos_nonneg; lia).
  pose proof (Z.div_mod a (256 ^ Z.of_nat n) ltac:(lia)).
  pose proof (Z.div_mod b (256 ^ Z.of_nat n) ltac:(lia)).
  assert (a / 256 ^ Z.of_nat n = b / 256 ^ Z.of_nat n); nia.
Qed.

Lemma u64_be_inj a b :
  in_u64 a = true -> in_u64 b = true -> to_be_bytes 8 a = to_be_bytes 8 b -> a = b.
Proof. intros Ha Hb. ranges. apply (to_be_bytes_inj 8 0); cbn; lia. Qed.

Lemma u32_be_inj a b :
  in_u32 a = true -> in_u32 b = true -> to_be_bytes 4 a = to_be_bytes 4 b -> a = b.
Proof. intros Ha Hb. ranges. apply (to_be_bytes_inj 4 0); cbn; lia. Qed.

Lemma i32_be_inj a b :
  in_i32 a = true -> in_i32 b = true -> to_be_bytes 4 a = to_be_bytes 4 b -> a = b.
Proof. intros Ha Hb. ranges. apply (to_be_bytes_inj 4 (- 2 ^ 31)); cbn; lia. Qed.

Lemma i64_be_inj a b :
  in_i64 a = true -> in_i64 b = true -> to_be_bytes 8 a = to_be_bytes 8 b -> a = b.
Proof. intros Ha Hb. ranges. apply (to_be_bytes_inj 8 (- 2 ^ 63)); cbn; lia. Qed.

Lemma i128_be_inj a b :
  in_i128 a = true -> in_i128 b = true -> to_be_bytes 16 a = to_be_bytes 16 b -> a = b.
Proof. intros Ha Hb. ranges. apply (to_be_bytes_inj 16 (- 2 ^ 127)); cbn; lia. Qed.

(** ** Strings: UTF-8 bytes *)

(** [str::as_bytes]. *)
Definition as_bytes (s : string) : list byte := list_byte_of_string s.

(** [str::len], in bytes. *)
Definition str_len (s : string) : Z := Z.of_nat (String.length s).

Lemma as_bytes_inj s t : as_bytes s = as_bytes t -> s = t.
Proof.
  intros H%(f_equal string_of_list_byte). unfold as_bytes in H.
  by rewrite !string_of_list_byte_of_string in H.
Qed.

Lemma length_as_bytes s : List.length (as_bytes s) = String.length s.
Proof.
  unfold as_bytes, list_byte_of_string. rewrite List.length_map.
  induction s; cbn; auto.
Qed.

Definition is_ascii_lowercase (b : byte) : bool := in_range 97 123 (Z_of_byte b).
Definition is_ascii_uppercase (b : byte) : bool := in_range 65 91 (Z_of_byte b).
Definition is_ascii_digit (b : byte) : bool := in_range 48 58 (Z_of_byte b).
Definition is_ascii_byte (b : byte) : bool := in_range 0 128 (Z_of_byte b).

(** The UTF-8 encodings of the code points with the Unicode property [White_Space], which
    [str::trim] removes at both ends. *)
Definition white_space : list (list byte) :=
  [[x09]; [x0a]; [x0b]; [x0c]; [x0d]; [x20]; [xc2; x85]; [xc2; xa0]; [xe1; x9a; x80];
   [xe2; x80; x80]; [xe2; x80; x81]; [xe2; x80; x82]; [xe2; x80; x83]; [xe2; x80; x84];
   [xe2; x80; x85]; [xe2; x80; x86]; [xe2; x80; x87]; [xe2; x80; x88]; [xe2; x80; x89];
   [xe2; x80; x8a]; [xe2; x80; xa8]; [xe2; x80; xa9]; [xe2; x80; xaf]; [xe2; x81; x9f];
   [xe3; x80; x80]].

Fixpoint strip_prefix (p l : list byte) : option (list byte) :=
  match p, l with
  | [], _ => Some l
  | a :: p', b :: l' => if Byte.eqb a b then strip_prefix p' l' else None
  | _ :: _, [] => None
  end.

Fixpoint strip_any (ps : list (list byte)) (l : list byte) : option (list byte) :=
  match ps with
  | [] => None
  | p :: ps' => match strip_prefix p l with Some r => Some r | None => strip_any ps' l end
  end.

(** Removes whole characters of [ps] from the front; the length of [l] is enough fuel because
    each removal shortens it. *)
Fixpoint strip_all (fuel : nat) (ps : list (list byte)) (l : list byte) : list byte :=
  match fuel with
  | O => l
  | S fuel' => match strip_any ps l with Some r => strip_all fuel' ps r | None => l end
  end.

Definition trim_start_bytes (l : list byte) : list byte :=
  strip_all (List.length l) white_space l.
Definition trim_end_bytes (l : list byte) : list byte :=
  rev (strip_all (List.length l) (map (@rev byte) white_space) (rev l)).

(** [str::trim]. *)
Definition trim (s : string) : string :=
  string_of_list_byte (trim_end_bytes (trim_start_bytes (as_bytes s))).

(** The test [s.trim().is_empty() || s != s.trim()] that many constructors use. *)
Definition blank_or_padded (s : string) : bool :=
  bool_decide (trim s = EmptyString) || negb (bool_decide (s = trim s)).

Example trim_example : trim " a b "%string = "a b"%string.
Proof. reflexivity. Qed.

Example blank_or_padded_examples :
  (blank_or_padded "ok", blank_or_padded "", blank_or_padded " x")%string = (false, true, true).
Proof. reflexivity. Qed.

(** ** Conversions from bytes *)

Lemma byte_of_Z_of_byte b : byte_of_Z (Z_of_byte b) = b.
Proof.
  unfold byte_of_Z, Z_of_byte. pose proof (Byte.to_N_bounded b).
  rewrite Z.mod_small by lia. rewrite N2Z.id, Byte.of_to_N. done.
Qed.

Lemma to_be_bytes_mod n m z :
  (n <= m)%nat -> to_be_bytes n (z mod 256 ^ Z.of_nat m) = to_be_bytes n z.
Proof.
  intros Hnm. induction n as [|n IH]; [done|]. unfold to_be_bytes; fold to_be_bytes.
  rewrite IH by lia. f_equal.
  assert (Hp : 0 < 256 ^ Z.of_nat n) by (apply Z.pow_pos_nonneg; lia).
  assert (Hm : 256 ^ Z.of_nat m = 256 ^ Z.of_nat n * (256 * 256 ^ Z.of_nat (m - S n))).
  { rewrite <- Z.pow_succ_r, <- Z.pow_add_r by lia. f_equal. lia. }
  assert (Hq : 0 < 256 ^ Z.of_nat (m - S n)) by (apply Z.pow_pos_nonneg; lia).
  unfold byte_of_Z. rewrite Hm, Z.rem_mul_r by lia.
  rewrite (Z.mul_comm (256 ^ Z.of_nat n)), Z.add_comm, Z.div_add_l by lia.
  rewrite (Z.div_small (z mod _)) by (apply Z.mod_pos_bound; lia). rewrite Z.add_0_r.
  rewrite <- (Znumtheory.Zmod_div_mod 256 (256 * 256 ^ Z.of_nat (m - S n))); [done|lia|lia|].
  by exists (256 ^ Z.of_nat (m - S n)); lia.
Qed.

Lemma to_from_be_bytes l : to_be_bytes (List.length l) (from_be_bytes l) = l.
Proof.
  induction l as [|b l IH]; [done|]. cbn [List.length].
  pose proof (from_be_bytes_range l) as Hr. pose proof (Z_of_byte_range b) as Hb.
  assert (E : from_be_bytes (b :: l) = Z_of_byte b * 256 ^ Z.of_nat (List.length l) + from_be_bytes l).
  { unfold from_be_bytes at 1. cbn [foldl]. rewrite from_be_bytes_acc. done. }
  unfold to_be_bytes; fold to_be_bytes. rewrite E. f_equal.
  - rewrite Z.div_add_l, Z.div_small, Z.add_0_r by lia. apply byte_of_Z_of_byte.
  - rewrite <- (to_be_bytes_mod _ (List.length l)) by lia.
    rewrite Z.add_comm, Z.mod_add, Z.mod_small by lia. exact IH.
Qed.

(** UTF-8 as in RFC 3629: the test of [str::from_utf8]. *)
Definition byte_in (lo hi : Z) (b : byte) : bool := (lo <=? Z_of_byte b) && (Z_of_byte b <=? hi).

Fixpoint utf8_valid (l : list byte) : bool :=
  match l with
  | [] => true
  | b0 :: l1 =>
      if byte_in 0 127 b0 then utf8_valid l1
      else if byte_in 194 223 b0 then
        match l1 with b1 :: l2 => byte_in 128 191 b1 && utf8_valid l2 | [] => false end
      else if byte_in 224 239 b0 then
        match l1 with
        | b1 :: b2 :: l3 =>
            byte_in (if Z_of_byte b0 =? 224 then 160 else 128) (if Z_of_byte b0 =? 237 then 159 else 191) b1
            && byte_in 128 191 b2 && utf8_valid l3
        | _ => false
        end
      else if byte_in 240 244 b0 then
        match l1 with
        | b1 :: b2 :: b3 :: l4 =>
            byte_in (if Z_of_byte b0 =? 240 then 144 else 128) (if Z_of_byte b0 =? 244 then 143 else 191) b1
            && byte_in 128 191 b2 && byte_in 128 191 b3 && utf8_valid l4
        | _ => false
        end
      else false
  end.

Lemma ascii_utf8_valid l : forallb is_ascii_byte l = true -> utf8_valid l = true.
Proof.
  induction l as [|b l IH]; cbn; [done|]. intros [Hb Hl]%andb_true_iff.
  unfold is_ascii_byte in Hb. apply in_range_spec in Hb. unfold byte_in.
  destruct (Z.leb_spec 0 (Z_of_byte b)), (Z.leb_spec (Z_of_byte b) 127); try lia. by apply IH.
Qed.
