(* ===== verification/Collections.v ===== *)
(** * Ordered collections of the Rust standard library

    Derived orderings as a class with laws, the stable sort of slices, and [BTreeMap]/[BTreeSet] as
    strictly sorted association lists, whose order of iteration is the order of the list. *)

From Stdlib Require Import ZArith Lia Strings.Ascii Strings.String.
From stdpp Require Import base list option strings numbers sorting sets.
From S2P Require Import Prelude Machine.
Open Scope Z_scope.

(** ** Total orders: the trait [Ord] *)

Class Ord (A : Type) : Type := cmp : A -> A -> comparison.

Class OrdLaws (A : Type) `{Ord A} : Prop := {
  cmp_eq : forall a b : A, cmp a b = Eq <-> a = b;
  cmp_opp : forall a b : A, cmp b a = CompOpp (cmp a b);
  cmp_lt_trans : forall a b c : A, cmp a b = Lt -> cmp b c = Lt -> cmp a c = Lt
}.

Definition ltb {A} `{Ord A} (a b : A) : bool := match cmp a b with Lt => true | _ => false end.
Definition leb {A} `{Ord A} (a b : A) : bool := match cmp a b with Gt => false | _ => true end.
Definition geb {A} `{Ord A} (a b : A) : bool := match cmp a b with Lt => false | _ => true end.

#[export] Instance Z_ord : Ord Z := Z.compare.
#[export] Instance Z_ord_laws : OrdLaws Z.
Proof.
  split; unfold cmp, Z_ord; [apply Z.compare_eq_iff|intros; apply Z.compare_antisym|].
  intros a b c. rewrite !Z.compare_lt_iff. lia.
Qed.

(** The derived order of a pair of fields compares them in turn. *)
Definition lex (c1 c2 : comparison) : comparison := match c1 with Eq => c2 | _ => c1 end.

#[export] Instance pair_ord {A B} `{Ord A, Ord B} : Ord (A * B) :=
  fun x y => lex (cmp x.1 y.1) (cmp x.2 y.2).
#[export] Instance pair_ord_laws {A B} `{OrdLaws A, OrdLaws B} : OrdLaws (A * B).
Proof.
  split; unfold cmp, pair_ord, lex.
  - intros [a b] [a' b']; cbn. destruct (cmp a a') eqn:E; [|split; [done|]..].
    + apply cmp_eq in E as ->. rewrite cmp_eq. split; [by intros ->|by intros [= ->]].
    + intros [= -> ->]. by rewrite (proj2 (cmp_eq a' a') eq_refl) in E.
    + intros [= -> ->]. by rewrite (proj2 (cmp_eq a' a') eq_refl) in E.
  - intros [a b] [a' b']; cbn. rewrite (cmp_opp a a'). destruct (cmp a a'); cbn; [apply cmp_opp|done..].
  - intros [a b] [a' b'] [a'' b'']; cbn. destruct (cmp a a') eqn:E1; [..|done].
    + apply cmp_eq in E1 as ->. destruct (cmp a' a''); [apply cmp_lt_trans|done..].
    + intros _. destruct (cmp a' a'') eqn:E2; [..|done].
      * apply cmp_eq in E2 as <-. by rewrite E1.
      * by rewrite (cmp_lt_trans a a' a'' E1 E2).
Qed.

(** [None] comes before every value. *)
#[export] Instance option_ord {A} `{Ord A} : Ord (option A) := fun a b =>
  match a, b with
  | None, None => Eq
  | None, Some _ => Lt
  | Some _, None => Gt
  | Some a, Some b => cmp a b
  end.
#[export] Instance option_ord_laws {A} `{OrdLaws A} : OrdLaws (option A).
Proof.
  split.
  - intros [a|] [b|]; cbn; try done. rewrite cmp_eq. split; congruence.
  - intros [a|] [b|]; cbn; try done. apply cmp_opp.
  - intros [a|] [b|] [c|]; cbn; try done. apply cmp_lt_trans.
Qed.

(** The order of lists (slices, strings) is lexicographic. *)
Fixpoint list_cmp {A} `{Ord A} (l m : list A) : comparison :=
  match l, m with
  | [], [] => Eq
  | [], _ :: _ => Lt
  | _ :: _, [] => Gt
  | a :: l', b :: m' => lex (cmp a b) (list_cmp l' m')
  end.
#[export] Instance list_ord {A} `{Ord A} : Ord (list A) := list_cmp.
#[export] Instance list_ord_laws {A} `{OrdLaws A} : OrdLaws (list A).
Proof.
  split; unfold cmp, list_ord.
  - intros l; induction l as [|a l IH]; intros [|b m]; cbn; try done.
    unfold lex. destruct (cmp a b) eqn:E; [|split; [done|]..].
    + apply cmp_eq in E as ->. rewrite IH. split; [by intros ->|by intros [= ->]].
    + intros [= -> _]. by rewrite (proj2 (cmp_eq b b) eq_refl) in E.
    + intros [= -> _]. by rewrite (proj2 (cmp_eq b b) eq_refl) in E.
  - intros l; induction l as [|a l IH]; intros [|b m]; cbn; try done.
    rewrite (cmp_opp a b), IH. by destruct (cmp a b).
  - intros l; induction l as [|a l IH]; intros [|b m] [|c n]; cbn; try done.
    unfold lex. destruct (cmp a b) eqn:E1; [..|done].
    + apply cmp_eq in E1 as ->. destruct (cmp b c); [apply IH|done..].
    + intros _. destruct (cmp b c) eqn:E2; [..|done].
      * apply cmp_eq in E2 as <-. by rewrite E1.
      * by rewrite (cmp_lt_trans a b c E1 E2).
Qed.

(** An order transported along an injection; records derive theirs this way. *)
Lemma ord_laws_via {A B} `{OrdLaws B} (f : A -> B) (O : Ord A) :
  (forall x y, f x = f y -> x = y) -> (forall x y, @cmp A O x y = cmp (f x) (f y)) -> OrdLaws A.
Proof.
  intros Hinj Hf. split; intros *; rewrite ?Hf.
  - rewrite cmp_eq. split; [apply Hinj|by intros ->].
  - apply cmp_opp.
  - apply cmp_lt_trans.
Qed.

Lemma Z_of_byte_inj a b : Z_of_byte a = Z_of_byte b -> a = b.
Proof.
  unfold Z_of_byte. intros E%N2Z.inj. apply (f_equal Byte.of_N) in E.
  rewrite !Byte.of_to_N in E. by injection E.
Qed.

#[export] Instance byte_ord : Ord byte := fun a b => cmp (Z_of_byte a) (Z_of_byte b).
#[export] Instance byte_ord_laws : OrdLaws byte.
Proof. by apply (ord_laws_via Z_of_byte _ Z_of_byte_inj). Qed.

(** Rust compares strings by their bytes. *)
#[export] Instance string_ord : Ord string := fun s t => cmp (as_bytes s) (as_bytes t).
#[export] Instance string_ord_laws : OrdLaws string.
Proof. by apply (ord_laws_via as_bytes _ as_bytes_inj). Qed.

Section order_facts.
Context {A : Type} `{OrdLaws A}.

Lemma cmp_refl (a : A) : cmp a a = Eq.
Proof. by apply cmp_eq. Qed.

Lemma ltb_spec a b : ltb a b = true <-> cmp a b = Lt.
Proof. unfold ltb. by destruct (cmp a b). Qed.

Lemma cmp_gt_lt (a b : A) : cmp a b = Gt <-> cmp b a = Lt.
Proof. rewrite (cmp_opp a b). by destruct (cmp a b). Qed.

Lemma cmp_lt_irrefl (a : A) : cmp a a <> Lt.
Proof. by rewrite cmp_refl. Qed.

Lemma geb_leb a b : geb a b = leb b a.
Proof. unfold geb, leb. rewrite (cmp_opp b a). by destruct (cmp b a). Qed.

Lemma leb_ltb a b : leb a b = negb (ltb b a).
Proof. unfold leb, ltb. rewrite (cmp_opp a b). by destruct (cmp a b). Qed.

Lemma geb_spec a b : geb a b = negb (ltb a b).
Proof. unfold geb, ltb. by destruct (cmp a b). Qed.

Lemma leb_spec a b : leb a b = true <-> a = b \/ cmp a b = Lt.
Proof. unfold leb. rewrite <- cmp_eq. destruct (cmp a b); split; try done; [by left|by right|by intros []]. Qed.

Lemma leb_trans a b c : leb a b = true -> leb b c = true -> leb a c = true.
Proof.
  rewrite !leb_spec. intros [->|Hab] [->|Hbc]; auto. right. by eapply cmp_lt_trans.
Qed.

End order_facts.

(** ** Stable sorting of slices *)

Fixpoint insert_by {A} (c : A -> A -> comparison) (x : A) (l : list A) : list A :=
  match l with
  | [] => [x]
  | y :: l' => match c x y with Gt => y :: insert_by c x l' | _ => x :: y :: l' end
  end.

(** [slice::sort_by]: stable, because an element is inserted before the equal ones that follow it. *)
Definition sort_by {A} (c : A -> A -> comparison) (l : list A) : list A := foldr (insert_by c) [] l.

(** [slice::sort] of an [Ord] type and [sort_by_key]. *)
Definition sort {A} `{Ord A} : list A -> list A := sort_by cmp.
Definition sort_by_key {A K} `{Ord K} (key : A -> K) : list A -> list A :=
  sort_by (fun x y => cmp (key x) (key y)).

(** [Vec::dedup]: removes consecutive repetitions. *)
Fixpoint dedup {A} `{EqDecision A} (l : list A) : list A :=
  match l with
  | x :: ((y :: _) as l') => if decide (x = y) then dedup l' else x :: dedup l'
  | _ => l
  end.

(** [slice::binary_search_by]: the half of the slice that can hold the key is kept until one element is
    left. Every turn but the last at least halves the size rounded up, so the length is enough fuel. *)
Fixpoint search_loop {A K} `{Ord K} (key : A -> K) (fuel : nat) (l : list A) (k : K) (base size : nat) : nat :=
  match fuel with
  | O => base
  | S fuel' =>
      if (size <=? 1)%nat then base else
      let half := (size / 2)%nat in
      let mid := (base + half)%nat in
      let base' := match l !! mid with
                   | Some found => match cmp (key found) k with Gt => base | _ => mid end
                   | None => base
                   end in
      search_loop key fuel' l k base' (size - half)
  end.

(** The element found, or [None] where the search fails. *)
Definition binary_search_by {A K} `{Ord K} (key : A -> K) (l : list A) (k : K) : option A :=
  match l with
  | [] => None
  | _ => match l !! search_loop key (List.length l) l k 0 (List.length l) with
         | Some found => match cmp (key found) k with Eq => Some found | _ => None end
         | None => None
         end
  end.

(** [slice::binary_search(..).is_ok()]. *)
Definition binary_search {A} `{Ord A} (l : list A) (k : A) : bool :=
  match binary_search_by (fun x => x) l k with Some _ => true | None => false end.

Section sort_facts.
Context {A K : Type} `{OrdLaws K} (key : A -> K).

Let le (x y : A) : Prop := cmp (key x) (key y) <> Gt.
Let lt (x y : A) : Prop := cmp (key x) (key y) = Lt.

Lemma insert_by_perm c (x : A) l : insert_by c x l ≡ₚ x :: l.
Proof.
  induction l as [|y l IH]; cbn; [done|]. destruct (c x y); [done..|].
  rewrite IH. apply Permutation_swap.
Qed.

Lemma sort_by_perm c (l : list A) : sort_by c l ≡ₚ l.
Proof. induction l as [|x l IH]; cbn; [done|]. by rewrite insert_by_perm, IH. Qed.

Lemma key_le_trans (x y z : A) : le x y -> le y z -> le x z.
Proof.
  unfold le. intros H1 H2. destruct (cmp (key x) (key y)) eqn:E1; [..|done].
  - apply cmp_eq in E1. by rewrite E1.
  - destruct (cmp (key y) (key z)) eqn:E2; [..|done].
    + apply cmp_eq in E2. rewrite <- E2. by rewrite E1.
    + by rewrite (cmp_lt_trans _ _ _ E1 E2).
Qed.

Lemma insert_by_sorted (x : A) l :
  StronglySorted le l -> StronglySorted le (insert_by (fun x y => cmp (key x) (key y)) x l).
Proof.
  induction 1 as [|y l Hl IH Hy]; cbn; [by repeat constructor|].
  destruct (cmp (key x) (key y)) eqn:E.
  1, 2: constructor; [by constructor|]; constructor; [unfold le; by rewrite E|];
    eapply Forall_impl; [exact Hy|]; intros z; apply key_le_trans; unfold le; by rewrite E.
  constructor; [done|]. rewrite insert_by_perm. constructor; [|done].
  unfold le. rewrite cmp_opp, E. done.
Qed.

Lemma sort_by_key_sorted (l : list A) : StronglySorted le (sort_by_key key l).
Proof. induction l; cbn; [constructor|by apply insert_by_sorted]. Qed.

(** A sorted slice without equal neighbours is strictly sorted. *)
Lemma sorted_strict (same : A -> A -> bool) (l : list A) :
  (forall x y, same x y = false -> key x <> key y) ->
  StronglySorted le l -> windows2_any same l = false -> StronglySorted lt l.
Proof.
  intros Hsame. induction 1 as [|x l Hl IH Hx]; intros Hw; [constructor|].
  assert (Hl' : StronglySorted lt l).
  { apply IH. destruct l; [done|]. cbn in Hw. apply orb_false_iff in Hw as [_ Hw]. done. }
  constructor; [done|]. destruct l as [|y l]; [constructor|].
  cbn in Hw. apply orb_false_iff in Hw as [Hw _].
  assert (Hxy : lt x y).
  { unfold lt. inversion_clear Hx as [|? ? Hle _]. unfold le in Hle.
    destruct (cmp (key x) (key y)) eqn:E; [|done..]. apply cmp_eq in E. by apply Hsame in Hw. }
  constructor; [done|]. inversion_clear Hl' as [|? ? _ Hy].
  eapply Forall_impl; [exact Hy|]. intros z. by apply cmp_lt_trans.
Qed.

Lemma strict_NoDup (l : list A) : StronglySorted lt l -> NoDup (key <$> l).
Proof.
  induction 1 as [|x l Hl IH Hx]; cbn; [constructor|]. constructor; [|done].
  intros (y & Hy & Hin)%list_elem_of_fmap. rewrite Forall_forall in Hx.
  specialize (Hx y Hin). unfold lt in Hx. rewrite Hy in Hx. by apply cmp_lt_irrefl in Hx.
Qed.

Lemma lt_antisymm : AntiSymm (=) lt.
Proof. intros x y Hxy Hyx. unfold lt in *. rewrite cmp_opp, Hxy in Hyx. done. Qed.

(** Two sorted arrangements of one list have equal neighbours together, and agree when they have none. *)
Lemma sorted_perm_agree (same : A -> A -> bool) (l m : list A) :
  (forall x y, same x y = true <-> key x = key y) -> StronglySorted le l -> StronglySorted le m -> l ≡ₚ m ->
  windows2_any same l = windows2_any same m /\ (windows2_any same l = false -> l = m).
Proof.
  intros Hsame. assert (Hne : forall x y, same x y = false -> key x <> key y).
  { intros x y Hf Hk. apply Hsame in Hk. congruence. }
  assert (Hfalse : forall l m, l ≡ₚ m -> StronglySorted le l -> windows2_any same l = false -> windows2_any same m = false).
  { clear l m. intros l m Hp Sl Hl. apply windows2_any_false. intros i x y Hx Hy.
    destruct (same x y) eqn:E; [exfalso|done]. apply Hsame in E.
    assert (Hnd : NoDup (key <$> m)) by (rewrite <- Hp; by apply strict_NoDup, (sorted_strict same)).
    assert (i = S i); [|lia].
    apply (NoDup_lookup _ i (S i) (key x) Hnd); rewrite list_lookup_fmap; [by rewrite Hx|by rewrite Hy, E]. }
  intros Sl Sm Hp. split.
  - destruct (windows2_any same l) eqn:El, (windows2_any same m) eqn:Em; try done.
    + symmetry in Hp. apply (Hfalse _ _ Hp Sm) in Em. congruence.
    + apply (Hfalse _ _ Hp Sl) in El. congruence.
  - intros El. pose proof (Hfalse _ _ Hp Sl El) as Em.
    apply (@StronglySorted_unique _ lt lt_antisymm); [by apply (sorted_strict same)..|done].
Qed.

(** Sorting, then refusing equal neighbours: the outcome does not depend on the order of the input. *)
Lemma canonical_sort_perm (same : A -> A -> bool) (l m : list A) :
  (forall x y, same x y = true <-> key x = key y) -> l ≡ₚ m ->
  windows2_any same (sort_by_key key l) = windows2_any same (sort_by_key key m) /\
  (windows2_any same (sort_by_key key l) = false -> sort_by_key key l = sort_by_key key m).
Proof.
  intros Hsame Hp. apply sorted_perm_agree; [done|apply sort_by_key_sorted..|].
  unfold sort_by_key. by rewrite !sort_by_perm.
Qed.

Lemma strict_lookup (l : list A) i j x y :
  StronglySorted lt l -> l !! i = Some x -> l !! j = Some y -> (i < j)%nat -> lt x y.
Proof.
  intros Hl. revert i j. induction Hl as [|a l Hl IH Ha]; intros i j Hx Hy Hij; [by rewrite lookup_nil in Hx|].
  destruct j as [|j]; [lia|]. cbn in Hy. destruct i as [|i]; cbn in Hx; [|by apply (IH i j); [..|lia]].
  injection Hx as <-. rewrite list.Forall_forall in Ha. apply Ha, list_elem_of_lookup. by exists j.
Qed.

(** The loop keeps the position of the key between [base] and [base + size]. *)
Lemma search_loop_finds fuel (l : list A) x i base size :
  StronglySorted lt l -> l !! i = Some x -> (base <= i < base + size)%nat -> (base + size <= List.length l)%nat ->
  (size <= fuel)%nat -> search_loop key fuel l (key x) base size = i.
Proof.
  intros Hl Hi. revert base size. induction fuel as [|fuel IH]; intros base size Hb Hlen Hf; [lia|]. cbn -[Nat.div Nat.leb].
  destruct (Nat.leb_spec size 1); [lia|]. pose proof (Nat.div_mod size 2 ltac:(lia)) as Hd.
  pose proof (Nat.mod_upper_bound size 2 ltac:(lia)). set (half := (size / 2)%nat) in *.
  destruct (l !! (base + half)%nat) as [y|] eqn:Ey; [|apply lookup_ge_None in Ey; lia].
  destruct (Nat.lt_ge_cases i (base + half)) as [Hlt|Hge].
  - pose proof (strict_lookup l i (base + half)%nat x y Hl Hi Ey Hlt) as Hxy. unfold lt in Hxy.
    rewrite (cmp_opp (key x) (key y)), Hxy. cbn [CompOpp]. apply IH; lia.
  - assert (Hne : cmp (key y) (key x) <> Gt).
    { destruct (Nat.eq_dec i (base + half)%nat) as [->|]; [assert (y = x) as -> by congruence; by rewrite cmp_refl|].
      assert (Hyx : lt y x) by (apply (strict_lookup l (base + half)%nat i); [done..|lia]). unfold lt in Hyx. by rewrite Hyx. }
    destruct (cmp (key y) (key x)); [..|done]; apply IH; lia.
Qed.

(** In a strictly sorted slice the search finds the element of a key. *)
Lemma binary_search_by_spec (l : list A) k x :
  StronglySorted lt l -> binary_search_by key l k = Some x <-> x ∈ l /\ key x = k.
Proof.
  intros Hl. unfold binary_search_by. destruct l as [|a l']; [split; [done|by intros [?%elem_of_nil _]]|].
  remember (a :: l') as l eqn:E. split.
  - destruct (l !! _) as [y|] eqn:Ey; [|done]. destruct (cmp (key y) k) eqn:Ec; [|done..]. apply cmp_eq in Ec as <-.
    intros [= <-]. split; [|done]. apply list_elem_of_lookup. eauto.
  - intros [[i Hi]%list_elem_of_lookup <-]. pose proof (lookup_lt_Some _ _ _ Hi).
    rewrite (search_loop_finds _ l x i) by (done || lia). by rewrite Hi, cmp_refl.
Qed.

Lemma binary_search_by_None (l : list A) k : StronglySorted lt l -> binary_search_by key l k = None <-> k ∉ map key l.
Proof.
  intros Hl. destruct (binary_search_by key l k) as [x|] eqn:E; split; try done.
  - intros Hn. apply (binary_search_by_spec l k x Hl) in E as [Hx <-]. exfalso. by apply Hn, (list_elem_of_fmap_2 key).
  - intros _ (x & -> & Hx)%list_elem_of_fmap. by rewrite (proj2 (binary_search_by_spec l (key x) x Hl)) in E.
Qed.

End sort_facts.

Lemma binary_search_spec {A} `{OrdLaws A} (l : list A) k :
  StronglySorted (fun x y => cmp x y = Lt) l -> binary_search l k = true <-> k ∈ l.
Proof.
  intros Hl. unfold binary_search. destruct (binary_search_by _ l k) as [x|] eqn:E; split; try done.
  - intros _. by apply binary_search_by_spec in E as [Hx <-].
  - intros Hk. by rewrite (proj2 (binary_search_by_spec (fun x => x) l k k Hl)) in E.
Qed.

(** ** [BTreeMap] and [BTreeSet] *)

Section btree.
Context {K : Type} `{Ord K}.

Section map.
Context {V : Type}.

Fixpoint btree_get (k : K) (m : list (K * V)) : option V :=
  match m with
  | [] => None
  | (k', v) :: m' => match cmp k k' with Eq => Some v | _ => btree_get k m' end
  end.

Fixpoint btree_insert (k : K) (v : V) (m : list (K * V)) : list (K * V) :=
  match m with
  | [] => [(k, v)]
  | (k', v') :: m' =>
      match cmp k k' with
      | Lt => (k, v) :: m
      | Eq => (k, v) :: m'
      | Gt => (k', v') :: btree_insert k v m'
      end
  end.

Fixpoint btree_remove (k : K) (m : list (K * V)) : list (K * V) :=
  match m with
  | [] => []
  | (k', v') :: m' =>
      match cmp k k' with Eq => btree_remove k m' | _ => (k', v') :: btree_remove k m' end
  end.

(** [Iterator::collect] into a map: a later pair replaces an earlier one. *)
Definition btree_collect (l : list (K * V)) : list (K * V) :=
  foldl (fun m kv => btree_insert kv.1 kv.2 m) [] l.

Definition btree_keys (m : list (K * V)) : list K := m.*1.
Definition btree_values (m : list (K * V)) : list V := m.*2.

(** Keys in strictly increasing order. *)
Definition btree_wf (m : list (K * V)) : Prop := StronglySorted (fun a b => cmp a b = Lt) (m.*1).

End map.

Fixpoint bset_insert (k : K) (s : list K) : list K :=
  match s with
  | [] => [k]
  | k' :: s' =>
      match cmp k k' with Lt => k :: s | Eq => s | Gt => k' :: bset_insert k s' end
  end.

Fixpoint bset_contains (k : K) (s : list K) : bool :=
  match s with [] => false | k' :: s' => match cmp k k' with Eq => true | _ => bset_contains k s' end end.

Definition bset_wf (s : list K) : Prop := StronglySorted (fun a b => cmp a b = Lt) s.

Definition bset_collect (l : list K) : list K := foldl (fun s k => bset_insert k s) [] l.

End btree.

Abbreviation BTreeMap K V := (list (K * V)) (only parsing).
Abbreviation BTreeSet K := (list K) (only parsing).

Section btree_facts.
Context {K : Type} `{OrdLaws K}.

Lemma btree_get_insert_eq {V} (k : K) (v : V) m : btree_get k (btree_insert k v m) = Some v.
Proof.
  induction m as [|[k' v'] m IH]; cbn; [by rewrite cmp_refl|].
  destruct (cmp k k') eqn:E; cbn; [by rewrite cmp_refl..|]. by rewrite E.
Qed.

Lemma btree_get_insert_ne {V} (k j : K) (v : V) m :
  j <> k -> btree_get j (btree_insert k v m) = btree_get j m.
Proof.
  intros Hne. assert (Hjk : cmp j k <> Eq) by (by rewrite cmp_eq).
  induction m as [|[k' v'] m IH]; cbn; [by destruct (cmp j k)|].
  destruct (cmp k k') eqn:E; cbn.
  - apply cmp_eq in E as ->. by destruct (cmp j k').
  - by destruct (cmp j k).
  - by rewrite IH.
Qed.

Lemma btree_get_remove_eq {V} (k : K) (m : BTreeMap K V) : btree_get k (btree_remove k m) = None.
Proof.
  induction m as [|[k' v'] m IH]; cbn; [done|]. destruct (cmp k k') eqn:E; cbn; [done|..]; by rewrite E.
Qed.

Lemma btree_get_remove_ne {V} (k j : K) (m : BTreeMap K V) :
  j <> k -> btree_get j (btree_remove k m) = btree_get j m.
Proof.
  intros Hne. induction m as [|[k' v'] m IH]; cbn; [done|].
  destruct (cmp k k') eqn:E; cbn; rewrite ?IH; [|done..].
  apply cmp_eq in E as ->. destruct (cmp j k') eqn:E'; [|done..]. by apply cmp_eq in E'.
Qed.

Lemma btree_get_elem {V} (k : K) (v : V) m : btree_get k m = Some v -> (k, v) ∈ m.
Proof.
  induction m as [|[k' v'] m IH]; cbn; [done|]. destruct (cmp k k') eqn:E; [|set_solver..].
  apply cmp_eq in E as ->. intros [= ->]. set_solver.
Qed.

Lemma btree_get_None {V} (k : K) (m : BTreeMap K V) : btree_get k m = None <-> k ∉ m.*1.
Proof.
  induction m as [|[k' v'] m IH]; cbn; [set_solver|].
  rewrite not_elem_of_cons, <- IH. destruct (cmp k k') eqn:E.
  - apply cmp_eq in E as ->. naive_solver.
  - split; [|naive_solver]. intros Hg. split; [|done]. intros ->. by rewrite cmp_refl in E.
  - split; [|naive_solver]. intros Hg. split; [|done]. intros ->. by rewrite cmp_refl in E.
Qed.

Lemma btree_elem_get {V} (k : K) (v : V) m : btree_wf m -> (k, v) ∈ m -> btree_get k m = Some v.
Proof.
  unfold btree_wf. induction m as [|[k' v'] m IH]; cbn; [set_solver|].
  intros Hwf Hin. inversion_clear Hwf as [|? ? Hm Hk'].
  apply elem_of_cons in Hin as [[= -> ->]|Hin]; [by rewrite cmp_refl|].
  rewrite Forall_forall in Hk'. assert (Hlt : cmp k' k = Lt).
  { apply Hk', list_elem_of_fmap. by exists (k, v). }
  rewrite cmp_opp, Hlt. cbn. by apply IH.
Qed.

Lemma btree_insert_keys {V} (k : K) (v : V) m j :
  j ∈ (btree_insert k v m).*1 <-> j = k \/ j ∈ m.*1.
Proof.
  induction m as [|[k' v'] m IH]; cbn; [set_solver|].
  destruct (cmp k k') eqn:E; cbn; rewrite ?elem_of_cons.
  - apply cmp_eq in E as ->. naive_solver.
  - naive_solver.
  - rewrite IH. naive_solver.
Qed.

Lemma btree_insert_wf {V} (k : K) (v : V) m : btree_wf m -> btree_wf (btree_insert k v m).
Proof.
  unfold btree_wf. induction m as [|[k' v'] m IH]; cbn; intros Hwf; [by repeat constructor|].
  inversion_clear Hwf as [|? ? Hm Hk']. destruct (cmp k k') eqn:E; cbn.
  - apply cmp_eq in E as ->. by constructor.
  - constructor; [by constructor|]. constructor; [done|].
    eapply Forall_impl; [exact Hk'|]. intros j. by apply cmp_lt_trans.
  - constructor; [auto|]. rewrite Forall_forall in *. intros j [->|Hj]%btree_insert_keys; [|auto].
    by apply cmp_gt_lt.
Qed.

Lemma btree_remove_wf {V} (k : K) (m : BTreeMap K V) : btree_wf m -> btree_wf (btree_remove k m).
Proof.
  unfold btree_wf. induction m as [|[k' v'] m IH]; cbn; intros Hwf; [constructor|].
  inversion_clear Hwf as [|? ? Hm Hk'].
  assert (Hsub : forall j, j ∈ (btree_remove k m).*1 -> j ∈ m.*1).
  { clear. induction m as [|[k' v'] m IH]; cbn; [done|]. intros j.
    destruct (cmp k k'); cbn; rewrite ?elem_of_cons; naive_solver. }
  destruct (cmp k k'); cbn; [auto|..]; (constructor; [auto|]);
    rewrite Forall_forall in *; auto.
Qed.

Lemma btree_collect_wf {V} (l : list (K * V)) : btree_wf (btree_collect l).
Proof.
  unfold btree_collect. assert (Hnil : btree_wf ([] : BTreeMap K V)) by constructor.
  revert Hnil. generalize ([] : BTreeMap K V). induction l as [|[k v] l IH]; cbn; intros m Hm; [done|].
  apply IH. by apply btree_insert_wf.
Qed.

(** Collecting pairs that are already in strict order changes nothing. *)
Lemma btree_insert_last {V} (k : K) (v : V) m :
  Forall (fun j => cmp j k = Lt) m.*1 -> btree_insert k v m = m ++ [(k, v)].
Proof.
  induction m as [|[k' v'] m IH]; cbn; intros Hm; [done|]. inversion_clear Hm as [|? ? Hk' Hm'].
  rewrite cmp_opp, Hk'. cbn. by rewrite IH.
Qed.

Lemma btree_collect_sorted {V} (l : list (K * V)) : btree_wf l -> btree_collect l = l.
Proof.
  unfold btree_collect.
  assert (Hgen : forall acc : BTreeMap K V, btree_wf (acc ++ l) ->
    foldl (fun m kv => btree_insert kv.1 kv.2 m) acc l = acc ++ l).
  { induction l as [|[k v] l IH]; intros acc Hwf; cbn; [by rewrite app_nil_r|].
    rewrite btree_insert_last.
    - rewrite IH; rewrite <- (assoc_L (++)); done.
    - unfold btree_wf in Hwf. rewrite fmap_app in Hwf. cbn in Hwf.
      apply Forall_forall. intros j Hj. apply (StronglySorted_app_1_elem_of _ _ _ j k Hwf Hj). by left. }
  exact (Hgen []).
Qed.

Lemma bset_insert_elem (k j : K) s : j ∈ bset_insert k s <-> j = k \/ j ∈ s.
Proof.
  induction s as [|k' s IH]; cbn; [set_solver|].
  destruct (cmp k k') eqn:E; rewrite ?elem_of_cons, ?IH; [|naive_solver..].
  apply cmp_eq in E as ->. naive_solver.
Qed.

Lemma bset_insert_wf (k : K) s : bset_wf s -> bset_wf (bset_insert k s).
Proof.
  unfold bset_wf. induction s as [|k' s IH]; cbn; intros Hwf; [by repeat constructor|].
  inversion_clear Hwf as [|? ? Hs Hk']. destruct (cmp k k') eqn:E.
  - by constructor.
  - constructor; [by constructor|]. constructor; [done|].
    eapply Forall_impl; [exact Hk'|]. intros j. by apply cmp_lt_trans.
  - constructor; [auto|]. rewrite Forall_forall in *. intros j [->|Hj]%bset_insert_elem; [|auto].
    by apply cmp_gt_lt.
Qed.

Lemma bset_collect_acc (l s : list K) :
  bset_wf s -> bset_wf (foldl (fun s k => bset_insert k s) s l) /\
  forall j, j ∈ foldl (fun s k => bset_insert k s) s l <-> j ∈ l \/ j ∈ s.
Proof.
  revert s. induction l as [|k l IH]; intros s Hs; cbn; [split; [done|set_solver]|].
  destruct (IH (bset_insert k s) (bset_insert_wf k s Hs)) as [Hwf Hin]. split; [done|].
  intros j. rewrite Hin, bset_insert_elem, elem_of_cons. tauto.
Qed.

Lemma bset_collect_wf (l : list K) : bset_wf (bset_collect l).
Proof. apply bset_collect_acc. constructor. Qed.

Lemma bset_collect_elem (l : list K) j : j ∈ bset_collect l <-> j ∈ l.
Proof.
  destruct (bset_collect_acc l []) as [_ H']; [constructor|]. unfold bset_collect.
  rewrite H'. set_solver.
Qed.

Lemma bset_contains_spec (k : K) s : bset_contains k s = true <-> k ∈ s.
Proof.
  induction s as [|k' s IH]; cbn; [set_solver|]. rewrite elem_of_cons, <- IH.
  destruct (cmp k k') eqn:E.
  - apply cmp_eq in E as ->. naive_solver.
  - split; [by right|]. intros [->|?]; [by rewrite cmp_refl in E|done].
  - split; [by right|]. intros [->|?]; [by rewrite cmp_refl in E|done].
Qed.

Lemma strict_sorted_NoDup (s : list K) : bset_wf s -> NoDup s.
Proof.
  induction 1 as [|k s Hs IH Hk]; constructor; [|done].
  rewrite Forall_forall in Hk. intros Hin. by apply (cmp_lt_irrefl k), Hk.
Qed.

End btree_facts.

#[export] Hint Resolve btree_insert_wf btree_remove_wf btree_collect_wf bset_insert_wf : ficant.
#[export] Hint Rewrite @btree_get_insert_eq @btree_get_remove_eq : ficant_rw.
