(* ===== verification/Primitives.v ===== *)
(** * Domain primitives

    [crates/ficant-domain/src/lib.rs] and [src/primitives/]: error codes, identifiers, versions,
    content hashes, lineage references, units and market time.

    Code of third-party crates appears as parameters: SHA-256 ([sha2]), the ULID codec ([ulid]) and
    time zones with date formatting ([chrono], [chrono_tz]) are classes of operations, and what the
    modelled code relies on is a second class of laws. A UTC instant is the pair of the second and
    the nanosecond within it, and a calendar date the triple year, month, day; both are ordered
    lexicographically. *)

From Stdlib Require Import ZArith Lia Strings.String.
From stdpp Require Import base list option strings numbers.
From S2P Require Import Prelude Machine Collections.
Open Scope Z_scope.

(** ** Error codes *)

Inductive DomainErrorCode :=
| InvalidId
| InvalidUnit
| InvalidEffectiveTime
| VersionConflict
| ContentHashMismatch
| BrokenLineage
| InvalidStateTransition
| JournalSequenceConflict
| InvalidValue.

#[export] Instance DomainErrorCode_eq_dec : EqDecision DomainErrorCode.
Proof. solve_decision. Defined.

Abbreviation DomainResult := (Result DomainErrorCode).

(** ** Identifiers *)

(** The [ulid] crate: parsing and the canonical text of a parsed value. *)
Class UlidCrate : Type := {
  UlidValue : Type;
  ulid_parse : string -> option UlidValue;
  ulid_to_string : UlidValue -> string
}.

Record Ulid := mk_ulid { ulid_str : string }.

#[export] Instance Ulid_eq_dec : EqDecision Ulid.
Proof. solve_decision. Defined.
#[export] Instance Ulid_ord : Ord Ulid := fun a b => cmp (ulid_str a) (ulid_str b).
#[export] Instance Ulid_ord_laws : OrdLaws Ulid.
Proof. by apply (ord_laws_via ulid_str); [intros [] []; cbn; congruence|]. Qed.

(** [str::is_ascii]. *)
Definition is_ascii (s : string) : bool := forallb is_ascii_byte (as_bytes s).

Definition ulid_new `{UlidCrate} (value : string) : DomainResult Ulid :=
  parsed ← ok_or (ulid_parse value) InvalidId;
  if negb (str_len value =? 26) || negb (is_ascii value)
     || negb (bool_decide (ulid_to_string parsed = value))
  then Err InvalidId
  else Ok (mk_ulid value).

(** Identifiers only come from [ulid_new], so each is its own canonical text. *)
Definition wf_ulid `{UlidCrate} (u : Ulid) : Prop := ulid_new (ulid_str u) = Ok u.

Lemma wf_ulid_len `{UlidCrate} u : wf_ulid u -> String.length (ulid_str u) = 26%nat.
Proof. unfold wf_ulid, ulid_new, str_len. intros. res_simp. breflect. lia. Qed.

Record OwnerRef := { tenant_id : Ulid; owner_id : Ulid }.

#[export] Instance OwnerRef_eq_dec : EqDecision OwnerRef.
Proof. solve_decision. Defined.

(** ** Versions *)

Record Version := mk_version { version_get : Z }.

#[export] Instance Version_eq_dec : EqDecision Version.
Proof. solve_decision. Defined.
#[export] Instance Version_ord : Ord Version := fun a b => cmp (version_get a) (version_get b).
#[export] Instance Version_ord_laws : OrdLaws Version.
Proof. by apply (ord_laws_via version_get); [intros [] []; cbn; congruence|]. Qed.

Definition version_new (value : Z) : DomainResult Version :=
  if value =? 0 then Err VersionConflict else Ok (mk_version value).

(** A version holds a positive [u64]. *)
Definition wf_version (v : Version) : Prop := 1 <= version_get v < 2 ^ 64.

Record VersionRef := { vr_id : Ulid; vr_version : Version }.

#[export] Instance VersionRef_eq_dec : EqDecision VersionRef.
Proof. solve_decision. Defined.
#[export] Instance VersionRef_ord : Ord VersionRef := fun a b =>
  lex (cmp (vr_id a) (vr_id b)) (cmp (vr_version a) (vr_version b)).
#[export] Instance VersionRef_ord_laws : OrdLaws VersionRef.
Proof.
  by apply (ord_laws_via (fun r => (vr_id r, vr_version r))); [intros [] []; cbn; congruence|].
Qed.

Definition ensure_next_version (current_identity : Ulid) (current_version : Version)
    (candidate_identity : Ulid) (candidate_version : Version) : DomainResult unit :=
  expected_version ← ok_or (u64_checked_add (version_get current_version) 1) VersionConflict;
  if negb (bool_decide (current_identity = candidate_identity))
     || negb (version_get candidate_version =? expected_version)
  then Err VersionConflict
  else Ok tt.

(** ** Content hashes *)

(** The [sha2] crate. *)
Class Sha256 : Type := sha256 : list byte -> list byte.
Class Sha256Laws `{Sha256} : Prop := sha256_length : forall bs, List.length (sha256 bs) = 32%nat.

Record ContentHash := mk_hash { hash_bytes : list byte }.

#[export] Instance ContentHash_eq_dec : EqDecision ContentHash.
Proof. solve_decision. Defined.
#[export] Instance ContentHash_ord : Ord ContentHash := fun a b => cmp (hash_bytes a) (hash_bytes b).
#[export] Instance ContentHash_ord_laws : OrdLaws ContentHash.
Proof. by apply (ord_laws_via hash_bytes); [intros [] []; cbn; congruence|]. Qed.

Lemma hash_eq g h : hash_bytes g = hash_bytes h -> g = h.
Proof. destruct g, h. cbn. by intros ->. Qed.

Definition wf_hash (h : ContentHash) : Prop := List.length (hash_bytes h) = 32%nat.

Definition hash_from_bytes (bytes : list byte) : DomainResult ContentHash :=
  if (List.length bytes =? 32)%nat then Ok (mk_hash bytes) else Err ContentHashMismatch.

Definition digest `{Sha256} (bytes : list byte) : ContentHash := mk_hash (sha256 bytes).

Definition hash_verify `{Sha256} (self : ContentHash) (bytes : list byte) : DomainResult unit :=
  if negb (bool_decide (digest bytes = self)) then Err ContentHashMismatch else Ok tt.

Lemma wf_digest `{Sha256Laws} bs : wf_hash (digest bs).
Proof. apply sha256_length. Qed.

#[export] Hint Resolve wf_digest : ficant.

(** Two different messages with one digest. Integrity theorems conclude "equal, or here is a
    collision", which needs no assumption about SHA-256. *)
Definition collides `{Sha256} (x y : list byte) : Prop := x <> y /\ sha256 x = sha256 y.
Definition collision `{Sha256} : Prop := exists x y, collides x y.

(** Where the length of hashes is known, a collision exists by counting, so a statement has to name the two texts. *)
Lemma digest_collides `{Sha256} x y : digest x = digest y -> x = y \/ collides x y.
Proof. intros [= E]. destruct (decide (x = y)); [by left|by right]. Qed.

Lemma digest_inj `{Sha256} x y : digest x = digest y -> x = y \/ collision.
Proof.
  intros [E|E]%digest_collides; [by left|]. right. by exists x, y.
Qed.

(** ** Lineage references *)

Record LineageRef := {
  object_id : Ulid;
  lr_version : option Version;
  lr_content_hash : option ContentHash
}.

#[export] Instance LineageRef_eq_dec : EqDecision LineageRef.
Proof. solve_decision. Defined.

#[export] Instance LineageRef_ord : Ord LineageRef := fun a b =>
  cmp (object_id a, (lr_version a, lr_content_hash a)) (object_id b, (lr_version b, lr_content_hash b)).
#[export] Instance LineageRef_ord_laws : OrdLaws LineageRef.
Proof.
  apply (ord_laws_via (fun a => (object_id a, (lr_version a, lr_content_hash a)))); [|done].
  intros [] [] [= -> -> ->]. done.
Qed.

Definition lineage_new (object_id : Ulid) (version : option Version)
    (content_hash : option ContentHash) : DomainResult LineageRef :=
  match version, content_hash with
  | None, None => Err BrokenLineage
  | _, _ => Ok {| object_id := object_id; lr_version := version; lr_content_hash := content_hash |}
  end.

Definition lineage_versioned (object_id : Ulid) (version : Version) : LineageRef :=
  {| object_id := object_id; lr_version := Some version; lr_content_hash := None |}.

Definition lineage_content_addressed (object_id : Ulid) (content_hash : ContentHash) : LineageRef :=
  {| object_id := object_id; lr_version := None; lr_content_hash := Some content_hash |}.

(** ** Units *)

Record UnitRef := { unit_id : Ulid; unit_version : Version }.

#[export] Instance UnitRef_eq_dec : EqDecision UnitRef.
Proof. solve_decision. Defined.

(** ** Time *)

(** [DateTime<Utc>]: seconds since the epoch and nanoseconds within the second. *)
Record DateTime := { timestamp : Z; timestamp_subsec_nanos : Z }.

#[export] Instance DateTime_eq_dec : EqDecision DateTime.
Proof. solve_decision. Defined.
#[export] Instance DateTime_ord : Ord DateTime := fun a b =>
  lex (cmp (timestamp a) (timestamp b)) (cmp (timestamp_subsec_nanos a) (timestamp_subsec_nanos b)).
#[export] Instance DateTime_ord_laws : OrdLaws DateTime.
Proof.
  by apply (ord_laws_via (fun t => (timestamp t, timestamp_subsec_nanos t)));
    [intros [] []; cbn; congruence|].
Qed.

(** The seconds of an instant fit an [i64] and its nanoseconds a [u32]. *)
Definition wf_datetime (t : DateTime) : Prop :=
  in_i64 (timestamp t) = true /\ in_u32 (timestamp_subsec_nanos t) = true.

(** [NaiveDate]. *)
Record NaiveDate := { nd_year : Z; nd_month : Z; nd_day : Z }.

#[export] Instance NaiveDate_eq_dec : EqDecision NaiveDate.
Proof. solve_decision. Defined.
#[export] Instance NaiveDate_ord : Ord NaiveDate := fun a b =>
  lex (cmp (nd_year a) (nd_year b)) (lex (cmp (nd_month a) (nd_month b)) (cmp (nd_day a) (nd_day b))).
#[export] Instance NaiveDate_ord_laws : OrdLaws NaiveDate.
Proof.
  by apply (ord_laws_via (fun d => (nd_year d, (nd_month d, nd_day d))));
    [intros [] []; cbn; congruence|].
Qed.

Definition wf_date (d : NaiveDate) : Prop :=
  in_i32 (nd_year d) = true /\ 1 <= nd_month d <= 12 /\ 1 <= nd_day d <= 31.

(** Time zones of [chrono_tz] and [Display] of [NaiveDate]. *)
Class Chrono : Type := {
  Tz : Type;
  tz_parse : string -> option Tz;
  tz_name : Tz -> string;
  tz_local_date : Tz -> DateTime -> NaiveDate;
  date_to_string : NaiveDate -> string
}.

(** Distinct dates print differently. *)
Class ChronoLaws `{Chrono} : Prop :=
  date_to_string_inj : forall d d', wf_date d -> wf_date d' ->
    date_to_string d = date_to_string d' -> d = d'.

Record MarketTime := {
  instant : DateTime;
  market_timezone : string;
  local_trading_date : NaiveDate
}.

#[export] Instance MarketTime_eq_dec : EqDecision MarketTime.
Proof. solve_decision. Defined.

Definition market_time_new `{Chrono} (instant : DateTime) (market_timezone : string)
    (local_trading_date : NaiveDate) : DomainResult MarketTime :=
  timezone ← ok_or (tz_parse market_timezone) InvalidEffectiveTime;
  if negb (bool_decide (tz_local_date timezone instant = local_trading_date))
  then Err InvalidEffectiveTime
  else Ok {| instant := instant; market_timezone := tz_name timezone;
             local_trading_date := local_trading_date |}.

(** A Rust string holds at most [isize::MAX] bytes. *)
Definition wf_str (s : string) : Prop := str_len s < 2 ^ 63.

Definition wf_time (t : MarketTime) : Prop :=
  wf_datetime (instant t) /\ wf_date (local_trading_date t) /\ wf_str (market_timezone t).

Record EffectivePeriod := { ep_from : MarketTime; ep_to : MarketTime }.

Definition effective_period_new (from to : MarketTime) : DomainResult EffectivePeriod :=
  if geb (instant from) (instant to) then Err InvalidEffectiveTime
  else Ok {| ep_from := from; ep_to := to |}.
