(* ===== verification/FixedDecimal.v ===== *)
(** * Fixed-scale decimals

    [crates/ficant-domain/src/primitives/fixed_decimal.rs]: an [i128] counting units of [10^-12],
    with exact addition, exact multiplication, and multiplication and division that round half to
    even. The rounding operations are compared with a declarative specification of rounding. *)

From Stdlib Require Import ZArith Lia Znumtheory.
From stdpp Require Import base list option numbers.
From S2P Require Import Prelude Machine Collections Primitives.
Open Scope Z_scope.

(** ** Specification of rounding *)

(** [q] is the quotient [n / d] rounded to the nearest integer, ties to even. *)
Definition is_round_half_even (n d q : Z) : Prop :=
  2 * Z.abs (n - q * d) <= Z.abs d /\
  (2 * Z.abs (n - q * d) = Z.abs d -> Z.even q = true).

Lemma is_round_half_even_unique n d q1 q2 :
  d <> 0 -> is_round_half_even n d q1 -> is_round_half_even n d q2 -> q1 = q2.
Proof.
  intros Hd [H1 E1] [H2 E2].
  destruct (Z.eq_dec q1 q2) as [|Hne]; [done|exfalso].
  assert (Hdiff : Z.abs ((q1 - q2) * d) <= Z.abs d) by lia.
  rewrite Z.abs_mul in Hdiff.
  assert (Z.abs (q1 - q2) = 1) as Habs by nia.
  assert (Z.even q1 = true) as Ev1 by (apply E1; nia).
  assert (Z.even q2 = true) as Ev2 by (apply E2; nia).
  apply Z.even_spec in Ev1 as [k1 ->]. apply Z.even_spec in Ev2 as [k2 ->]. lia.
Qed.

Lemma is_round_half_even_sign n d q (s t : bool) :
  is_round_half_even n d q <->
  is_round_half_even (if s then - n else n) (if t then - d else d)
    (if xorb s t then - q else q).
Proof.
  unfold is_round_half_even.
  assert (forall x, Z.even (- x) = Z.even x) as He by apply Z.even_opp.
  destruct s, t; cbn; rewrite ?He, ?Z.abs_opp;
    repeat match goal with
    | |- context [Z.abs (?a - ?b * ?c)] =>
        lazymatch a with
        | - n => first [replace (Z.abs (a - b * c)) with (Z.abs (n - q * d)) by lia]
        | n => lazymatch b with - q => replace (Z.abs (a - b * c)) with (Z.abs (n - q * d)) by lia end
        end
    end; tauto.
Qed.

(** Scaling numerator and denominator alike does not change the rounded quotient. *)
Lemma is_round_half_even_scale k n d q :
  0 < k -> is_round_half_even (k * n) (k * d) q <-> is_round_half_even n d q.
Proof.
  intros Hk. unfold is_round_half_even.
  replace (k * n - q * (k * d)) with (k * (n - q * d)) by ring.
  rewrite !Z.abs_mul, (Z.abs_eq k) by lia.
  split; intros [H E]; (split; [nia|intros Heq; apply E; nia]).
Qed.

(** Rounding a non-negative quotient from its floor and remainder, as the code does it. *)
Lemma is_round_half_even_floor n d m r :
  0 < d -> n = m * d + r -> 0 <= r < d -> 0 <= m ->
  is_round_half_even n d
    (if (d - r <? r) || ((r =? d - r) && (m mod 2 =? 1)) then m + 1 else m).
Proof.
  intros Hd -> Hr Hm. unfold is_round_half_even.
  assert (Hodd : (m mod 2 =? 1) = Z.odd m).
  { rewrite Zmod_odd. by destruct (Z.odd m). }
  rewrite Hodd.
  destruct (Z.ltb_spec (d - r) r); cbn.
  { replace (m * d + r - (m + 1) * d) with (- (d - r)) by ring.
    rewrite Z.abs_opp, !Z.abs_eq by lia. lia. }
  destruct (Z.eqb_spec r (d - r)); cbn.
  - destruct (Z.odd m) eqn:Eo; cbn.
    + replace (m * d + r - (m + 1) * d) with (- (d - r)) by ring.
      rewrite Z.abs_opp, !Z.abs_eq by lia. split; [lia|]. intros _.
      rewrite Z.even_add. rewrite <- Z.negb_odd, Eo. done.
    + replace (m * d + r - m * d) with r by ring. rewrite !Z.abs_eq by lia.
      split; [lia|]. intros _. rewrite <- Z.negb_odd, Eo. done.
  - replace (m * d + r - m * d) with r by ring. rewrite !Z.abs_eq by lia. lia.
Qed.

(** ** The type and its operations *)

Definition DECIMAL_SCALE : nat := 12.
Definition FIXED_DECIMAL_FACTOR : Z := 1000000000000.

Record FixedDecimal := from_scaled { scaled : Z }.

#[export] Instance FixedDecimal_eq_dec : EqDecision FixedDecimal.
Proof. solve_decision. Defined.

(** Every [FixedDecimal] holds an [i128]. *)
Definition wf_fixed (x : FixedDecimal) : Prop := in_i128 (scaled x) = true.

Definition ZERO : FixedDecimal := from_scaled 0.
Definition ONE : FixedDecimal := from_scaled FIXED_DECIMAL_FACTOR.

Definition is_positive (x : FixedDecimal) : bool := 0 <? scaled x.
Definition is_non_negative (x : FixedDecimal) : bool := 0 <=? scaled x.

Definition fixed_of_option (o : option Z) : DomainResult FixedDecimal :=
  ok_or (from_scaled <$> o) InvalidValue.

Definition checked_add (self other : FixedDecimal) : DomainResult FixedDecimal :=
  fixed_of_option (i128_checked_add (scaled self) (scaled other)).

Definition checked_sub (self other : FixedDecimal) : DomainResult FixedDecimal :=
  fixed_of_option (i128_checked_sub (scaled self) (scaled other)).

Definition checked_mul (self other : FixedDecimal) : DomainResult FixedDecimal :=
  product ← ok_or (i128_checked_mul (scaled self) (scaled other)) InvalidValue;
  if negb (i128_rem product FIXED_DECIMAL_FACTOR =? 0) then Err InvalidValue
  else Ok (from_scaled (i128_div product FIXED_DECIMAL_FACTOR)).

Definition checked_mul_integer (self : FixedDecimal) (multiplier : Z) : DomainResult FixedDecimal :=
  fixed_of_option (i128_checked_mul (scaled self) multiplier).

Definition signed_magnitude (magnitude : Z) (negative : bool) : DomainResult Z :=
  if negb negative then ok_or (i128_try_from magnitude) InvalidValue
  else if magnitude =? unsigned_abs i128_MIN then Ok i128_MIN
  else ok_or (i128_try_from magnitude ≫= i128_checked_neg) InvalidValue.

Definition checked_mul_round_ties_even (self other : FixedDecimal) : DomainResult FixedDecimal :=
  let negative := negb (eqb (scaled self <? 0) (scaled other <? 0)) in
  product ← ok_or (u128_checked_mul (unsigned_abs (scaled self)) (unsigned_abs (scaled other)))
              InvalidValue;
  let divisor := FIXED_DECIMAL_FACTOR in
  let magnitude := product / divisor in
  let remainder := product mod divisor in
  let distance_to_divisor := u128_sub divisor remainder in
  magnitude ←
    (if (distance_to_divisor <? remainder)
        || ((remainder =? distance_to_divisor) && (magnitude mod 2 =? 1))
     then ok_or (u128_checked_add magnitude 1) InvalidValue
     else Ok magnitude);
  from_scaled <$> signed_magnitude magnitude negative.

(** One iteration of the loop of [decimal_digit]; the state is [(digit, accumulated)]. *)
Definition decimal_digit_step (remainder denominator : Z) (st : Z * Z) : Z * Z :=
  let '(digit, accumulated) := st in
  let complement := u128_sub denominator remainder in
  if complement <=? accumulated then (digit + 1, u128_sub accumulated complement)
  else (digit, u128_add accumulated remainder).

Definition decimal_digit (remainder denominator : Z) : Z * Z :=
  Nat.iter 10 (decimal_digit_step remainder denominator) (0, 0).

(** One iteration of the long division; the state is [(fractional, remainder)]. *)
Definition long_division_step (denominator : Z) (st : Z * Z) (_ : nat) : DomainResult (Z * Z) :=
  let '(fractional, remainder) := st in
  let '(digit, next_remainder) := decimal_digit remainder denominator in
  fractional ← ok_or (u128_checked_mul fractional 10 ≫= fun value => u128_checked_add value digit)
                 InvalidValue;
  Ok (fractional, next_remainder).

Definition checked_div_round_ties_even (self divisor : FixedDecimal) : DomainResult FixedDecimal :=
  if scaled divisor =? 0 then Err InvalidValue else
  let negative := negb (eqb (scaled self <? 0) (scaled divisor <? 0)) in
  let numerator := unsigned_abs (scaled self) in
  let denominator := unsigned_abs (scaled divisor) in
  let factor := FIXED_DECIMAL_FACTOR in
  let integer := numerator / denominator in
  let remainder := numerator mod denominator in
  magnitude ← ok_or (u128_checked_mul integer factor) InvalidValue;
  '(fractional, remainder) ←
    try_fold (long_division_step denominator) (0, remainder) (seq 0 DECIMAL_SCALE);
  magnitude ← ok_or (u128_checked_add magnitude fractional) InvalidValue;
  let distance_to_denominator := u128_sub denominator remainder in
  let round_up := (distance_to_denominator <? remainder)
    || ((remainder =? distance_to_denominator) && (magnitude mod 2 =? 1)) in
  magnitude ← (if round_up then ok_or (u128_checked_add magnitude 1) InvalidValue else Ok magnitude);
  from_scaled <$> signed_magnitude magnitude negative.

Example div_one_third :
  checked_div_round_ties_even ONE (from_scaled 3000000000000) = Ok (from_scaled 333333333333).
Proof. reflexivity. Qed.
Example div_tie_to_even :
  checked_div_round_ties_even (from_scaled (-5)) (from_scaled 2000000000000) = Ok (from_scaled (-2)).
Proof. reflexivity. Qed.

(** ** Lemmas *)

Lemma fixed_of_option_Ok o x : fixed_of_option o = Ok x <-> o = Some (scaled x).
Proof.
  unfold fixed_of_option. rewrite ok_or_Ok, fmap_Some. destruct x as [z]; cbn.
  split; [by intros (? & -> & [= ->])|intros ->; eauto].
Qed.

Lemma checked_add_Ok a b c :
  checked_add a b = Ok c <-> in_i128 (scaled a + scaled b) = true /\ scaled c = scaled a + scaled b.
Proof. unfold checked_add, i128_checked_add. by rewrite fixed_of_option_Ok, checked_Some. Qed.

Lemma checked_sub_Ok a b c :
  checked_sub a b = Ok c <-> in_i128 (scaled a - scaled b) = true /\ scaled c = scaled a - scaled b.
Proof. unfold checked_sub, i128_checked_sub. by rewrite fixed_of_option_Ok, checked_Some. Qed.

Lemma checked_add_wf a b c : checked_add a b = Ok c -> wf_fixed c.
Proof. rewrite checked_add_Ok. unfold wf_fixed. by intros [H ->]. Qed.

Lemma checked_sub_wf a b c : checked_sub a b = Ok c -> wf_fixed c.
Proof. rewrite checked_sub_Ok. unfold wf_fixed. by intros [H ->]. Qed.

#[export] Hint Resolve checked_add_wf checked_sub_wf : ficant.

(** A magnitude and a sign give the [i128] they denote, when there is one. *)
Lemma signed_magnitude_spec m (neg : bool) z :
  0 <= m ->
  signed_magnitude m neg = Ok z <-> z = (if neg then - m else m) /\ in_i128 z = true.
Proof.
  intros Hm. unfold signed_magnitude, i128_try_from, i128_checked_neg.
  destruct neg; cbn.
  - change (unsigned_abs i128_MIN) with (2 ^ 127). unfold i128_MIN.
    destruct (Z.eqb_spec m (2 ^ 127)) as [->|Hne].
    + split; [intros [= <-]; done|by intros [-> _]].
    + rewrite ok_or_Ok. unfold checked, in_i128. destruct (in_range _ _ m) eqn:E; cbn.
      * ranges. destruct (in_range _ _ (- m)) eqn:E'; cbn; ranges; [|lia].
        split; [intros [= <-]; split; [lia|]; ranges; lia|intros [-> _]; done].
      * split; [done|]. intros [-> H]. ranges. lia.
  - rewrite ok_or_Ok. unfold checked, in_i128. destruct (in_range _ _ m) eqn:E; cbn.
    + split; [intros [= <-]; done|by intros [-> _]].
    + split; [done|]. intros [-> H]. congruence.
Qed.

(** The loop of [decimal_digit] keeps [digit * denominator + accumulated = k * remainder] and
    never wraps. *)
Lemma decimal_digit_iter r d k :
  0 <= r < d -> d <= 2 ^ 127 ->
  let '(digit, acc) := Nat.iter k (decimal_digit_step r d) (0, 0) in
  digit * d + acc = Z.of_nat k * r /\ 0 <= acc < d /\ 0 <= digit.
Proof.
  intros Hr Hd. induction k as [|k IH]; [cbn; lia|].
  rewrite Nat.iter_succ. destruct (Nat.iter k _ _) as [digit acc].
  destruct IH as (Heq & Hacc & Hdig). unfold decimal_digit_step. cbv zeta.
  rewrite (u128_sub_small d r) by (ranges; lia).
  destruct (Z.leb_spec (d - r) acc); cbv beta iota.
  - rewrite u128_sub_small by (ranges; lia). nia.
  - rewrite u128_add_small by (ranges; lia). nia.
Qed.

Lemma decimal_digit_spec r d :
  0 <= r < d -> d <= 2 ^ 127 -> decimal_digit r d = (10 * r / d, (10 * r) mod d).
Proof.
  intros Hr Hd. unfold decimal_digit. pose proof (decimal_digit_iter r d 10 Hr Hd) as H.
  destruct (Nat.iter 10 _ _) as [digit acc]. destruct H as (Heq & Hacc & _).
  change (Z.of_nat 10) with 10 in Heq.
  f_equal; [apply (Z.div_unique _ _ _ acc)|apply (Z.mod_unique _ _ digit)]; lia.
Qed.

(** Twelve rounds of long division produce twelve exact decimal digits. *)
Lemma long_division_spec d r0 :
  0 <= r0 < d -> d <= 2 ^ 127 -> forall k, (k <= 12)%nat ->
  exists f r, try_fold (long_division_step d) (0, r0) (seq 0 k) = Ok (f, r) /\
    f * d + r = r0 * 10 ^ Z.of_nat k /\ 0 <= r < d /\ 0 <= f < 10 ^ Z.of_nat k.
Proof.
  intros Hr0 Hd. induction k as [|k IH]; intros Hk.
  { exists 0, r0. split; [done|]. cbn. lia. }
  destruct IH as (f & r & Hrun & Heq & Hr & Hf); [lia|].
  rewrite seq_S, try_fold_app, Hrun. cbn -[decimal_digit].
  rewrite decimal_digit_spec by lia.
  pose proof (Z.div_mod (10 * r) d ltac:(lia)) as Hdm.
  pose proof (Z.mod_pos_bound (10 * r) d ltac:(lia)).
  assert (0 <= 10 * r / d < 10).
  { split; [apply Z.div_pos; lia|apply Z.div_lt_upper_bound; lia]. }
  assert (Hpow : 10 ^ Z.of_nat k <= 10 ^ 11) by (apply Z.pow_le_mono_r; lia).
  assert (Hpk : 10 ^ Z.of_nat (S k) = 10 * 10 ^ Z.of_nat k).
  { rewrite Nat2Z.inj_succ, Z.pow_succ_r; lia. }
  unfold u128_checked_mul, u128_checked_add, checked.
  replace (in_u128 (f * 10)) with true by (symmetry; ranges; lia). cbn -[Z.mul Z.add Z.div Z.modulo Z.pow].
  replace (in_u128 (f * 10 + 10 * r / d)) with true by (symmetry; ranges; lia).
  exists (f * 10 + 10 * r / d), ((10 * r) mod d). cbn -[Z.mul Z.add Z.div Z.modulo Z.pow].
  split; [done|]. nia.
Qed.

(** The common tail of the two rounding operations. *)
Definition rounded (d m r : Z) : Z :=
  if (d - r <? r) || ((r =? d - r) && (m mod 2 =? 1)) then m + 1 else m.

Definition negative_product (a b : Z) : bool := negb (eqb (a <? 0) (b <? 0)).

Lemma rounded_bounds d m r : m <= rounded d m r <= m + 1.
Proof. unfold rounded. destruct (_ || _); lia. Qed.

(** Rounding the magnitude and restoring the sign rounds the signed quotient. *)
Lemma rounded_signed n d m r :
  d <> 0 -> Z.abs n = m * Z.abs d + r -> 0 <= r < Z.abs d -> 0 <= m ->
  is_round_half_even n d
    (if negative_product n d then - rounded (Z.abs d) m r else rounded (Z.abs d) m r).
Proof.
  intros Hd Hn Hr Hm.
  pose proof (is_round_half_even_floor (Z.abs n) (Z.abs d) m r ltac:(lia) Hn Hr Hm) as H.
  fold (rounded (Z.abs d) m r) in H.
  apply (is_round_half_even_sign _ _ _ (n <? 0) (d <? 0)).
  unfold negative_product. destruct (Z.ltb_spec n 0), (Z.ltb_spec d 0); cbn;
    rewrite ?Z.opp_involutive; rewrite ?(Z.abs_neq n), ?(Z.abs_eq n), ?(Z.abs_neq d), ?(Z.abs_eq d) in H by lia;
    rewrite ?(Z.abs_neq d), ?(Z.abs_eq d) by lia; exact H.
Qed.

Lemma finish_rounding M (neg : bool) q :
  0 <= M ->
  (from_scaled <$> signed_magnitude M neg = Ok q <->
   scaled q = (if neg then - M else M) /\ wf_fixed q).
Proof.
  intros HM. unfold wf_fixed. destruct q as [z]; cbn.
  rewrite <- signed_magnitude_spec by done.
  destruct (signed_magnitude M neg); cbn; [|done].
  split; [by intros [= ->]|by intros [= ->]].
Qed.

Lemma finish_rounding_Err M (neg : bool) e :
  from_scaled <$> signed_magnitude M neg = Err e -> e = InvalidValue.
Proof.
  unfold signed_magnitude. destruct neg; cbn; [destruct (_ =? _); cbn; [done|]|];
    destruct (i128_try_from M); cbn; try (by intros [= <-]); try done.
  destruct (i128_checked_neg _); cbn; [done|by intros [= <-]].
Qed.

Lemma negative_product_scale a b :
  negative_product (a * FIXED_DECIMAL_FACTOR) b = negative_product a b.
Proof.
  unfold negative_product, FIXED_DECIMAL_FACTOR. do 2 f_equal.
  destruct (Z.ltb_spec (a * 1000000000000) 0), (Z.ltb_spec a 0); try done; lia.
Qed.

(** What the long division computes, with its overflow tests collected. *)
Lemma checked_div_unfold a b :
  wf_fixed a -> wf_fixed b -> scaled b <> 0 ->
  let d := Z.abs (scaled b) in
  let n := Z.abs (scaled a) * FIXED_DECIMAL_FACTOR in
  let M := rounded d (n / d) (n mod d) in
  checked_div_round_ties_even a b =
  if in_u128 (Z.abs (scaled a) / d * FIXED_DECIMAL_FACTOR) && in_u128 (n / d) && in_u128 M
  then from_scaled <$> signed_magnitude M (negative_product (scaled a) (scaled b))
  else Err InvalidValue.
Proof.
  intros Ha Hb Hb0 d n M. unfold wf_fixed in *. ranges.
  unfold checked_div_round_ties_even. rewrite (proj2 (Z.eqb_neq _ _) Hb0).
  unfold unsigned_abs. fold d. cbv zeta.
  assert (Hd : 0 < d <= 2 ^ 127) by (unfold d; lia).
  set (num := Z.abs (scaled a)) in *.
  pose proof (Z.div_mod num d ltac:(lia)) as Hdm.
  pose proof (Z.mod_pos_bound num d ltac:(lia)) as Hmb.
  assert (0 <= num / d) by (apply Z.div_pos; lia).
  unfold u128_checked_mul at 1, checked at 1.
  destruct (in_u128 (num / d * FIXED_DECIMAL_FACTOR)) eqn:E1; [|done]. cbn [ok_or mbind Result_bind].
  change DECIMAL_SCALE with 12%nat.
  destruct (long_division_spec d (num mod d) Hmb ltac:(lia) 12 ltac:(lia))
    as (f & r & -> & Heq & Hr & Hf).
  change (10 ^ Z.of_nat 12) with FIXED_DECIMAL_FACTOR in *.
  assert (Hq : n / d = num / d * FIXED_DECIMAL_FACTOR + f)
    by (symmetry; apply (Z.div_unique _ _ _ r); unfold n; nia).
  assert (Hrm : n mod d = r) by (symmetry; apply (Z.mod_unique _ _ (n / d)); unfold n in *; nia).
  unfold M. rewrite Hq, Hrm. cbn [mbind Result_bind].
  unfold u128_checked_add, checked.
  destruct (in_u128 (num / d * FIXED_DECIMAL_FACTOR + f)) eqn:E2; [|done]. cbn [ok_or mbind Result_bind].
  rewrite u128_sub_small by (ranges; lia).
  unfold rounded. destruct ((d - r <? r) || _); cbn [ok_or mbind Result_bind].
  - destruct (in_u128 (num / d * FIXED_DECIMAL_FACTOR + f + 1)); done.
  - rewrite E2. done.
Qed.

(** The long division against the specification of rounding. *)
Lemma checked_div_spec a b q :
  wf_fixed a -> wf_fixed b ->
  (checked_div_round_ties_even a b = Ok q <->
   scaled b <> 0 /\ wf_fixed q /\
   is_round_half_even (scaled a * FIXED_DECIMAL_FACTOR) (scaled b) (scaled q)) /\
  (is_ok (checked_div_round_ties_even a b) = false ->
   checked_div_round_ties_even a b = Err InvalidValue).
Proof.
  intros Ha Hb. destruct (Z.eq_dec (scaled b) 0) as [Hb0|Hb0].
  { unfold checked_div_round_ties_even. rewrite Hb0. cbn. split; [split; [done|by intros [? _]]|done]. }
  pose proof (checked_div_unfold a b Ha Hb Hb0) as E. cbv zeta in E.
  set (d := Z.abs (scaled b)) in *.
  set (n := Z.abs (scaled a) * FIXED_DECIMAL_FACTOR) in *.
  set (M := rounded d (n / d) (n mod d)) in *.
  assert (0 < d) by (unfold d; lia).
  assert (Hn0 : 0 <= n) by (unfold n, FIXED_DECIMAL_FACTOR; lia).
  assert (Hm0 : 0 <= n / d) by (apply Z.div_pos; lia).
  pose proof (rounded_bounds d (n / d) (n mod d)) as HM. fold M in HM.
  assert (HR : is_round_half_even (scaled a * FIXED_DECIMAL_FACTOR) (scaled b)
                 (if negative_product (scaled a) (scaled b) then - M else M)).
  { rewrite <- negative_product_scale. apply rounded_signed; [done| | |done].
    - rewrite Z.abs_mul. fold d. change (Z.abs FIXED_DECIMAL_FACTOR) with FIXED_DECIMAL_FACTOR.
      fold n. pose proof (Z.div_mod n d ltac:(lia)). lia.
    - apply Z.mod_pos_bound. lia. }
  rewrite E. split.
  - split.
    + intros Hq. destruct (_ && _) in Hq; [|done].
      apply finish_rounding in Hq as [Hq Hwf]; [|lia]. rewrite Hq. done.
    + intros (_ & Hwf & Hq).
      pose proof (is_round_half_even_unique _ _ _ _ Hb0 Hq HR) as Hqeq.
      assert (HMq : M = Z.abs (scaled q)) by (destruct (negative_product _ _); lia).
      unfold wf_fixed in *. ranges.
      assert (Hint : Z.abs (scaled a) / d * FIXED_DECIMAL_FACTOR <= n / d).
      { apply Z.div_le_lower_bound; [lia|]. unfold n.
        pose proof (Z.mul_div_le (Z.abs (scaled a)) d ltac:(lia)). unfold FIXED_DECIMAL_FACTOR in *. nia. }
      assert (0 <= Z.abs (scaled a) / d) by (apply Z.div_pos; lia).
      assert (Htests : in_u128 (Z.abs (scaled a) / d * FIXED_DECIMAL_FACTOR) && in_u128 (n / d) && in_u128 M = true).
      { rewrite !andb_true_iff. repeat split; ranges; unfold FIXED_DECIMAL_FACTOR in *; lia. }
      rewrite Htests. apply finish_rounding; [lia|]. split; [done|]. unfold wf_fixed. ranges. lia.
  - destruct (_ && _ && _); [|done].
    destruct (from_scaled <$> signed_magnitude M _) as [|e] eqn:E'; [done|].
    by apply finish_rounding_Err in E' as ->.
Qed.

Lemma checked_div_Ok a b q :
  wf_fixed a -> wf_fixed b -> checked_div_round_ties_even a b = Ok q ->
  wf_fixed q /\ is_round_half_even (scaled a * FIXED_DECIMAL_FACTOR) (scaled b) (scaled q).
Proof. intros Ha Hb H. by apply checked_div_spec in H as (_ & ? & ?). Qed.

(** Exact multiplication succeeds exactly on products that need no rounding. *)
Lemma checked_mul_Ok a b c :
  checked_mul a b = Ok c <->
  in_i128 (scaled a * scaled b) = true /\ scaled a * scaled b = scaled c * FIXED_DECIMAL_FACTOR.
Proof.
  unfold checked_mul, i128_checked_mul, checked, i128_rem, i128_div. destruct c as [z]; cbn.
  set (p := scaled a * scaled b).
  destruct (in_i128 p) eqn:E; cbn; [|naive_solver].
  pose proof (Z.quot_rem' p FIXED_DECIMAL_FACTOR) as Hqr.
  destruct (Z.eqb_spec (Z.rem p FIXED_DECIMAL_FACTOR) 0) as [H0|H0]; cbn.
  - split; [intros [= <-]; split; [done|lia]|intros [_ Hz]; do 2 f_equal].
    rewrite Hz. apply Z.quot_mul. done.
  - split; [done|]. intros [_ Hz]. exfalso. apply H0. rewrite Hz. apply Z.rem_mul. done.
Qed.

Lemma checked_mul_wf a b c : checked_mul a b = Ok c -> wf_fixed c.
Proof.
  intros [H E]%checked_mul_Ok. unfold wf_fixed. rewrite E in H. ranges.
  unfold FIXED_DECIMAL_FACTOR in *. lia.
Qed.

Lemma checked_mul_Err a b e : checked_mul a b = Err e -> e = InvalidValue.
Proof.
  unfold checked_mul. destruct (i128_checked_mul _ _); cbn; [|by intros [= <-]].
  destruct (negb _); [by intros [= <-]|done].
Qed.

#[export] Hint Resolve checked_mul_wf : ficant.

(** The sign computed from the operands is the sign of the product, up to the sign of zero. *)
Lemma negative_product_mul a b M :
  (a * b = 0 -> M = 0) ->
  (if negative_product (a * b) FIXED_DECIMAL_FACTOR then - M else M)
  = (if negative_product a b then - M else M).
Proof.
  intros H0. unfold negative_product. change (FIXED_DECIMAL_FACTOR <? 0) with false.
  destruct (Z.ltb_spec (a * b) 0), (Z.ltb_spec a 0), (Z.ltb_spec b 0); cbn; nia.
Qed.

(** The magnitude of a rounded product, with the overflow tests collected. *)
Lemma checked_mul_round_unfold a b :
  let p := Z.abs (scaled a * scaled b) in
  let M := rounded FIXED_DECIMAL_FACTOR (p / FIXED_DECIMAL_FACTOR) (p mod FIXED_DECIMAL_FACTOR) in
  checked_mul_round_ties_even a b =
  if in_u128 p then from_scaled <$> signed_magnitude M (negative_product (scaled a) (scaled b))
  else Err InvalidValue.
Proof.
  intros p M. unfold checked_mul_round_ties_even, unsigned_abs, u128_checked_mul, checked.
  rewrite <- Z.abs_mul. fold p. cbv zeta. destruct (in_u128 p) eqn:E; [|done].
  cbn [ok_or mbind Result_bind]. ranges.
  pose proof (Z.mod_pos_bound p FIXED_DECIMAL_FACTOR ltac:(done)).
  pose proof (Z.div_mod p FIXED_DECIMAL_FACTOR ltac:(done)).
  rewrite u128_sub_small by (ranges; unfold FIXED_DECIMAL_FACTOR in *; lia).
  unfold M, rounded, u128_checked_add, checked. destruct (_ || _); [|done].
  replace (in_u128 (p / FIXED_DECIMAL_FACTOR + 1)) with true; [done|].
  symmetry. ranges. unfold FIXED_DECIMAL_FACTOR in *. lia.
Qed.

(** The rounded product against the specification of rounding. *)
Lemma checked_mul_round_spec a b q :
  (checked_mul_round_ties_even a b = Ok q <->
   Z.abs (scaled a * scaled b) < 2 ^ 128 /\
   is_round_half_even (scaled a * scaled b) FIXED_DECIMAL_FACTOR (scaled q)) /\
  (checked_mul_round_ties_even a b = Ok q -> wf_fixed q) /\
  (2 ^ 128 <= Z.abs (scaled a * scaled b) ->
   checked_mul_round_ties_even a b = Err InvalidValue).
Proof.
  rewrite checked_mul_round_unfold. cbv zeta. set (p := scaled a * scaled b).
  pose proof (Z.mod_pos_bound (Z.abs p) FIXED_DECIMAL_FACTOR ltac:(done)) as Hr.
  pose proof (Z.div_mod (Z.abs p) FIXED_DECIMAL_FACTOR ltac:(done)) as Hdm.
  assert (Hm : 0 <= Z.abs p / FIXED_DECIMAL_FACTOR) by (apply Z.div_pos; [lia|done]).
  set (m := Z.abs p / FIXED_DECIMAL_FACTOR) in *. set (r := Z.abs p mod FIXED_DECIMAL_FACTOR) in *.
  pose proof (rounded_bounds FIXED_DECIMAL_FACTOR m r) as HM.
  assert (HR : is_round_half_even p FIXED_DECIMAL_FACTOR
     (if negative_product (scaled a) (scaled b)
      then - rounded FIXED_DECIMAL_FACTOR m r else rounded FIXED_DECIMAL_FACTOR m r)).
  { rewrite <- negative_product_mul.
    - apply (rounded_signed p FIXED_DECIMAL_FACTOR); [done|unfold FIXED_DECIMAL_FACTOR in *; lia|done|lia].
    - fold p. intros Hp. unfold m, r. rewrite Hp. done. }
  destruct (in_u128 (Z.abs p)) eqn:E; ranges; [|repeat split; try done; intros; lia].
  rewrite finish_rounding by lia.
  assert (Hwf : forall q, scaled q = (if negative_product (scaled a) (scaled b)
      then - rounded FIXED_DECIMAL_FACTOR m r else rounded FIXED_DECIMAL_FACTOR m r) -> wf_fixed q).
  { intros q' Hq'. unfold wf_fixed. rewrite Hq'. ranges. unfold FIXED_DECIMAL_FACTOR in *.
    destruct (negative_product _ _); lia. }
  split; [split|split; [by intros [_ ?]|intros; lia]].
  - intros [-> _]. split; [lia|done].
  - intros [_ Hq]. pose proof (is_round_half_even_unique p FIXED_DECIMAL_FACTOR _ _ ltac:(done) Hq HR) as Hqe.
    split; [done|by apply Hwf].
Qed.

Lemma checked_mul_round_Ok a b q :
  checked_mul_round_ties_even a b = Ok q ->
  wf_fixed q /\ is_round_half_even (scaled a * scaled b) FIXED_DECIMAL_FACTOR (scaled q).
Proof.
  intros H. destruct (checked_mul_round_spec a b q) as (Hiff & Hwf & _).
  split; [auto|by apply Hiff].
Qed.

(** The only error of the fixed-decimal operations is [InvalidValue]. *)
Lemma fixed_of_option_Err o e : fixed_of_option o = Err e -> e = InvalidValue.
Proof. unfold fixed_of_option. destruct o; cbn; [done|by intros [= <-]]. Qed.

Lemma checked_add_Err a b e : checked_add a b = Err e -> e = InvalidValue.
Proof. apply fixed_of_option_Err. Qed.

Lemma checked_sub_Err a b e : checked_sub a b = Err e -> e = InvalidValue.
Proof. apply fixed_of_option_Err. Qed.

Lemma checked_div_Err a b e :
  wf_fixed a -> wf_fixed b -> checked_div_round_ties_even a b = Err e -> e = InvalidValue.
Proof.
  intros Ha Hb E. destruct (checked_div_spec a b ZERO Ha Hb) as [_ H]. rewrite E in H.
  by injection (H eq_refl).
Qed.

Lemma checked_mul_round_Err a b e : checked_mul_round_ties_even a b = Err e -> e = InvalidValue.
Proof.
  intros E. destruct (Z_lt_ge_dec (Z.abs (scaled a * scaled b)) (2 ^ 128)) as [Hlt|Hge].
  - rewrite checked_mul_round_unfold in E. cbv zeta in E.
    destruct (in_u128 _); [by apply finish_rounding_Err in E|by injection E].
  - destruct (checked_mul_round_spec a b ZERO) as (_ & _ & H). rewrite H in E by lia. by injection E.
Qed.

#[export] Hint Resolve checked_mul_round_Ok checked_div_Ok : ficant.

(** ** Properties *)

(** C13. Division of fixed decimals: for any two [i128] operands the long division succeeds
    exactly when the divisor is non-zero and the quotient, rounded to twelve decimals half to even,
    fits in an [i128]; the value is that rounded quotient and the only error is [InvalidValue].
    No intermediate overflow rejects a representable result. *)
Theorem checked_div_correct (a b q : FixedDecimal) :
  wf_fixed a -> wf_fixed b ->
  (checked_div_round_ties_even a b = Ok q <->
   scaled b <> 0 /\ wf_fixed q /\
   is_round_half_even (scaled a * FIXED_DECIMAL_FACTOR) (scaled b) (scaled q)) /\
  (is_ok (checked_div_round_ties_even a b) = false ->
   checked_div_round_ties_even a b = Err InvalidValue).
Proof. apply checked_div_spec. Qed.

Lemma checked_div_correct_witness :
  checked_div_round_ties_even (from_scaled (-7)) (from_scaled 2000000000000)
    = Ok (from_scaled (-4)) /\
  is_round_half_even (-7 * FIXED_DECIMAL_FACTOR) 2000000000000 (-4).
Proof.
  pose proof (checked_div_correct (from_scaled (-7)) (from_scaled 2000000000000) (from_scaled (-4))
    eq_refl eq_refl) as [H _].
  assert (E : checked_div_round_ties_even (from_scaled (-7)) (from_scaled 2000000000000)
    = Ok (from_scaled (-4))) by reflexivity.
  split; [exact E|]. apply H in E as (_ & _ & E). exact E.
Defined.

(** Rounded multiplication: it succeeds exactly when the unsigned product of the two
    magnitudes fits in a [u128], and then returns the product rounded to twelve decimals half to
    even, always an [i128]; otherwise it fails with [InvalidValue]. *)
Theorem checked_mul_round_correct (a b q : FixedDecimal) :
  (checked_mul_round_ties_even a b = Ok q <->
   Z.abs (scaled a * scaled b) < 2 ^ 128 /\
   is_round_half_even (scaled a * scaled b) FIXED_DECIMAL_FACTOR (scaled q)) /\
  (checked_mul_round_ties_even a b = Ok q -> wf_fixed q) /\
  (2 ^ 128 <= Z.abs (scaled a * scaled b) ->
   checked_mul_round_ties_even a b = Err InvalidValue).
Proof. apply checked_mul_round_spec. Qed.

Lemma checked_mul_round_correct_witness :
  is_round_half_even (1500000000000 * 3) FIXED_DECIMAL_FACTOR 4 /\
  checked_mul_round_ties_even (from_scaled (2 ^ 126)) (from_scaled 4) = Err InvalidValue.
Proof.
  split.
  - apply (proj1 (checked_mul_round_correct (from_scaled 1500000000000) (from_scaled 3)
      (from_scaled 4))). reflexivity.
  - apply (proj2 (proj2 (checked_mul_round_correct (from_scaled (2 ^ 126)) (from_scaled 4) ZERO))).
    cbn. lia.
Defined.
