(* ===== verification/Codec.v ===== *)
(** * Canonical encodings

    The domain objects are identified by the SHA-256 digest of a canonical byte string. Several
    modules carry the same private helper ([append], [field]): a value preceded by its length as
    eight big-endian bytes. This file models the helper and the encoders of references and times
    shared by them, and proves that a sequence of framed values determines its values. *)

From Stdlib Require Import ZArith Lia Strings.String.
From stdpp Require Import base list option strings numbers.
From S2P Require Import Prelude Machine Collections Primitives.
Open Scope Z_scope.

(** The bytes [append] adds for one value. *)
Definition frame (value : list byte) : list byte :=
  to_be_bytes 8 (Z.of_nat (List.length value)) ++ value.

(** Successive calls of [append] on an empty buffer. *)
Definition framed (values : list (list byte)) : list byte := flat_map frame values.

(** A byte string that fits in memory. *)
Definition short (value : list byte) : Prop := Z.of_nat (List.length value) < 2 ^ 64.

Lemma framed_app l1 l2 : framed (l1 ++ l2) = framed l1 ++ framed l2.
Proof. apply flat_map_app. Qed.

Lemma frame_inj v w r1 r2 :
  short v -> short w -> frame v ++ r1 = frame w ++ r2 -> v = w /\ r1 = r2.
Proof.
  unfold frame, short. intros Hv Hw E. rewrite <- !(assoc_L (++)) in E.
  apply app_inj_1 in E as [El Er]; [|by rewrite !length_to_be_bytes].
  apply u64_be_inj in El; [|ranges; lia..]. apply app_inj_1 in Er; [done|lia].
Qed.

Lemma framed_inj l1 l2 :
  Forall short l1 -> Forall short l2 -> framed l1 = framed l2 -> l1 = l2.
Proof.
  revert l2. induction l1 as [|v l1 IH]; intros [|w l2] H1 H2 E; [done|exfalso..|].
  - apply (f_equal (@List.length _)) in E. cbn [framed flat_map] in E.
    unfold frame in E. rewrite !length_app, length_to_be_bytes in E. cbn in E. lia.
  - apply (f_equal (@List.length _)) in E. cbn [framed flat_map] in E.
    unfold frame in E. rewrite !length_app, length_to_be_bytes in E. cbn in E. lia.
  - inversion_clear H1. inversion_clear H2. cbn [framed flat_map] in E.
    apply frame_inj in E as [-> E]; [|done..]. f_equal. by apply IH.
Qed.

(** ** Field lists of the shared objects *)

Definition owner_fields (owner : OwnerRef) : list (list byte) :=
  [as_bytes (ulid_str (tenant_id owner)); as_bytes (ulid_str (owner_id owner))].

Definition version_ref_fields (reference : VersionRef) : list (list byte) :=
  [as_bytes (ulid_str (vr_id reference)); to_be_bytes 8 (version_get (vr_version reference))].

Definition exact_ref_fields (reference : LineageRef) : list (list byte) :=
  [as_bytes (ulid_str (object_id reference));
   to_be_bytes 8 (match lr_version reference with Some v => version_get v | None => 0 end);
   match lr_content_hash reference with Some h => hash_bytes h | None => [] end].

Definition market_time_fields `{Chrono} (value : MarketTime) : list (list byte) :=
  [to_be_bytes 8 (timestamp (instant value));
   to_be_bytes 4 (timestamp_subsec_nanos (instant value));
   as_bytes (market_timezone value);
   as_bytes (date_to_string (local_trading_date value))].

Definition unit_fields (value : UnitRef) : list (list byte) :=
  [as_bytes (ulid_str (unit_id value)); to_be_bytes 8 (version_get (unit_version value))].

(** ** Well-formedness of the objects that reach an encoder *)

Definition wf_owner `{UlidCrate} (o : OwnerRef) : Prop := wf_ulid (tenant_id o) /\ wf_ulid (owner_id o).
Definition wf_vref `{UlidCrate} (r : VersionRef) : Prop := wf_ulid (vr_id r) /\ wf_version (vr_version r).
Definition wf_unit `{UlidCrate} (u : UnitRef) : Prop := wf_ulid (unit_id u) /\ wf_version (unit_version u).
Definition wf_lineage `{UlidCrate} (r : LineageRef) : Prop :=
  wf_ulid (object_id r) /\ from_option wf_version True (lr_version r)
  /\ from_option wf_hash True (lr_content_hash r).

(** Printed dates are short strings. *)
Class ChronoShort `{Chrono} : Prop := date_to_string_short : forall d, wf_str (date_to_string d).

(** Splits a [Forall] over an explicit list, without touching the element predicate. *)
Ltac split_forall :=
  repeat lazymatch goal with
  | |- Forall _ [] => exact (List.Forall_nil _)
  | |- Forall _ (_ :: _) => apply List.Forall_cons
  | |- Forall _ (_ ++ _) => apply Forall_app_2
  end.

(** The [i]-th fields of two equal field lists are equal. *)
Ltac field_at i E := exact (f_equal (fun l => default [] (l !! i)) E).

Section encoders.
Context `{UlidCrate} `{ChronoLaws} `{!ChronoShort}.

Lemma short_str s : wf_str s -> short (as_bytes s).
Proof. unfold wf_str, short, str_len. rewrite length_as_bytes. lia. Qed.

Lemma short_ulid u : wf_ulid u -> short (as_bytes (ulid_str u)).
Proof. intros Hu%wf_ulid_len. unfold short. rewrite length_as_bytes. lia. Qed.

Lemma short_be n z : (n <= 16)%nat -> short (to_be_bytes n z).
Proof. unfold short. rewrite length_to_be_bytes. lia. Qed.

Lemma short_hash h : wf_hash h -> short (hash_bytes h).
Proof. unfold wf_hash, short. lia. Qed.

Lemma short_byte b : short [b].
Proof. unfold short. cbn. lia. Qed.

Lemma short_owner o : wf_owner o -> Forall short (owner_fields o).
Proof. intros []. unfold owner_fields. split_forall; by apply short_ulid. Qed.

Lemma short_vref r : wf_vref r -> Forall short (version_ref_fields r).
Proof. intros []. unfold version_ref_fields, unit_fields. split_forall; [by apply short_ulid|apply short_be; lia]. Qed.

Lemma short_unit u : wf_unit u -> Forall short (unit_fields u).
Proof. intros []. unfold version_ref_fields, unit_fields. split_forall; [by apply short_ulid|apply short_be; lia]. Qed.

Lemma short_exact_ref r : wf_lineage r -> Forall short (exact_ref_fields r).
Proof.
  intros (? & ? & Hh). unfold exact_ref_fields. split_forall; [by apply short_ulid|apply short_be; lia|].
  destruct (lr_content_hash r); [by apply short_hash|unfold short; cbn; lia].
Qed.

Lemma short_time t : wf_time t -> Forall short (market_time_fields t).
Proof.
  intros (? & ? & ?). unfold market_time_fields. split_forall; try (apply short_be; lia); apply short_str; [done|].
  apply date_to_string_short.
Qed.

Lemma ulid_bytes_inj u v : as_bytes (ulid_str u) = as_bytes (ulid_str v) -> u = v.
Proof. intros E%as_bytes_inj. destruct u, v; cbn in *; congruence. Qed.

Lemma version_bytes_inj v w :
  wf_version v -> wf_version w ->
  to_be_bytes 8 (version_get v) = to_be_bytes 8 (version_get w) -> v = w.
Proof.
  unfold wf_version. intros ? ? E%u64_be_inj; [|ranges; lia..]. destruct v, w; cbn in *; congruence.
Qed.

Lemma owner_fields_inj o p : owner_fields o = owner_fields p -> o = p.
Proof. destruct o, p. intros [= ?%ulid_bytes_inj ?%ulid_bytes_inj]. cbn in *. congruence. Qed.

Lemma version_ref_fields_inj r s :
  wf_vref r -> wf_vref s -> version_ref_fields r = version_ref_fields s -> r = s.
Proof.
  intros [] [] E. unfold version_ref_fields in E.
  assert (vr_id r = vr_id s) by (apply ulid_bytes_inj; field_at 0%nat E).
  assert (vr_version r = vr_version s) by (apply version_bytes_inj; [done..|field_at 1%nat E]).
  destruct r, s; cbn in *; congruence.
Qed.

Lemma unit_fields_inj u v : wf_unit u -> wf_unit v -> unit_fields u = unit_fields v -> u = v.
Proof.
  intros [] [] E. unfold unit_fields in E.
  assert (unit_id u = unit_id v) by (apply ulid_bytes_inj; field_at 0%nat E).
  assert (unit_version u = unit_version v) by (apply version_bytes_inj; [done..|field_at 1%nat E]).
  destruct u, v; cbn in *; congruence.
Qed.

(** An absent version is written as zero, which no version is. *)
Lemma optional_version_inj (v w : option Version) :
  from_option wf_version True v -> from_option wf_version True w ->
  to_be_bytes 8 (match v with Some v => version_get v | None => 0 end)
  = to_be_bytes 8 (match w with Some v => version_get v | None => 0 end) -> v = w.
Proof.
  intros Hv Hw E%u64_be_inj; destruct v as [[]|], w as [[]|]; unfold wf_version in *; cbn in *;
    try (ranges; lia); try lia; congruence.
Qed.

(** An absent hash is written as the empty string, which no hash is. *)
Lemma optional_hash_inj (h k : option ContentHash) :
  from_option wf_hash True h -> from_option wf_hash True k ->
  match h with Some h => hash_bytes h | None => [] end
  = match k with Some h => hash_bytes h | None => [] end -> h = k.
Proof.
  intros Hh Hk E. destruct h as [[]|], k as [[]|]; unfold wf_hash in *; cbn in *; subst; try done.
Qed.

Lemma exact_ref_fields_inj r s :
  wf_lineage r -> wf_lineage s -> exact_ref_fields r = exact_ref_fields s -> r = s.
Proof.
  intros (? & ? & ?) (? & ? & ?) E. unfold exact_ref_fields in E.
  assert (E0 : object_id r = object_id s) by (apply ulid_bytes_inj; field_at 0%nat E).
  assert (E1 : lr_version r = lr_version s) by (apply optional_version_inj; [done..|field_at 1%nat E]).
  assert (E2 : lr_content_hash r = lr_content_hash s)
    by (apply optional_hash_inj; [done..|field_at 2%nat E]).
  destruct r, s; cbn in *; congruence.
Qed.

Lemma market_time_fields_inj t u :
  wf_time t -> wf_time u -> market_time_fields t = market_time_fields u -> t = u.
Proof.
  intros ((? & ?) & ? & ?) ((? & ?) & ? & ?) E. unfold market_time_fields in E.
  assert (E0 : timestamp (instant t) = timestamp (instant u))
    by (apply i64_be_inj; [done..|field_at 0%nat E]).
  assert (E1 : timestamp_subsec_nanos (instant t) = timestamp_subsec_nanos (instant u))
    by (apply u32_be_inj; [done..|field_at 1%nat E]).
  assert (E2 : market_timezone t = market_timezone u)
    by (apply as_bytes_inj; field_at 2%nat E).
  assert (E3 : local_trading_date t = local_trading_date u)
    by (apply date_to_string_inj; [done..|]; apply as_bytes_inj;
        field_at 3%nat E).
  destruct t as [[] ? ?], u as [[] ? ?]; cbn in *; congruence.
Qed.

End encoders.

#[export] Hint Resolve short_str short_ulid short_hash short_byte short_owner short_vref short_unit
  short_exact_ref short_time : ficant.
#[export] Hint Extern 1 (short (to_be_bytes _ _)) => apply short_be; lia : ficant.

(** ** Repeated records of fields *)

(** Records of [n] fields each, written one after another, are read back one by one. *)
Lemma flat_map_fields_inj {A} (P : A -> Prop) (f : A -> list (list byte)) (n : nat) l1 l2 :
  (0 < n)%nat -> (forall a, List.length (f a) = n) ->
  (forall a b, P a -> P b -> f a = f b -> a = b) ->
  Forall P l1 -> Forall P l2 -> flat_map f l1 = flat_map f l2 -> l1 = l2.
Proof.
  intros Hn Hlen Hinj Hl1. revert l2. induction Hl1 as [|a l1 Ha Hl1 IH]; intros l2 Hl2 E.
  - destruct l2 as [|b l2]; [done|]. apply (f_equal (@List.length _)) in E. cbn in E.
    rewrite length_app, Hlen in E. lia.
  - destruct Hl2 as [|b l2 Hb Hl2].
    { apply (f_equal (@List.length _)) in E. cbn in E. rewrite length_app, Hlen in E. lia. }
    cbn in E. apply app_inj_1 in E as [E1 E2]; [|by rewrite !Hlen].
    f_equal; [by apply Hinj|by apply IH].
Qed.

Lemma Forall_flat_map_short {A} (P : A -> Prop) (f : A -> list (list byte)) l :
  (forall a, P a -> Forall short (f a)) -> Forall P l -> Forall short (flat_map f l).
Proof. intros Hf. induction 1; cbn; [constructor|apply Forall_app_2; auto]. Qed.

(** ** Content-addressed objects

    The interface of the objects whose identity is the digest of their canonical fields. Equality of
    two verified objects then only needs the equality of their addresses. *)

Class Canonical (A : Type) : Type := {
  address : A -> ContentHash;
  canonical_fields : A -> list (list byte);
  canonical_wf : A -> Prop;
  canonical_short : forall a, canonical_wf a -> Forall short (canonical_fields a);
  canonical_inj : forall a b, canonical_wf a -> canonical_wf b ->
    address a = address b -> canonical_fields a = canonical_fields b -> a = b
}.

(** The address is the digest of the framed fields. *)
Definition addressed `{Sha256} `{Canonical A} (a : A) : Prop :=
  address a = digest (framed (canonical_fields a)).

Lemma address_identifies `{Sha256} `{Canonical A} (a b : A) :
  addressed a -> addressed b -> canonical_wf a -> canonical_wf b ->
  address a = address b -> a = b \/ collision.
Proof.
  unfold addressed. intros Ha Hb Wa Wb E. pose proof E as E'. rewrite Ha, Hb in E'.
  apply digest_inj in E' as [E'|]; [left|by right].
  apply framed_inj in E'; [|by apply canonical_short..]. by apply canonical_inj.
Qed.

(** Splits an equation between concatenations of field lists of known lengths. *)
Ltac split_fields E :=
  repeat (let F := fresh "F" in
    apply app_inj_1 in E; [destruct E as [F E]|reflexivity]).

Lemma field_cons_inj (x y : list byte) (l m : list (list byte)) : x :: l = y :: m -> x = y /\ l = m.
Proof. by intros [= -> ->]. Qed.

Lemma list_singleton_inj A (x y : A) : [x] = [y] -> x = y.
Proof. by intros [= ->]. Qed.

(** Equal field lists of shared objects come from equal objects. *)
Ltac inj_fields :=
  repeat match goal with
  | H : @nil (list byte) = [] |- _ => clear H
  | H : @cons (list byte) _ _ = _ :: _ |- _ =>
      let F := fresh "F" in apply field_cons_inj in H; destruct H as [F H]
  | H : [byte_of_Z _] = [byte_of_Z _] |- _ => apply (list_singleton_inj byte) in H
  | H : owner_fields _ = owner_fields _ |- _ => apply owner_fields_inj in H
  | H : version_ref_fields _ = version_ref_fields _ |- _ =>
      apply version_ref_fields_inj in H; [|assumption..]
  | H : unit_fields _ = unit_fields _ |- _ => apply unit_fields_inj in H; [|assumption..]
  | H : exact_ref_fields _ = exact_ref_fields _ |- _ => apply exact_ref_fields_inj in H; [|assumption..]
  | H : market_time_fields _ = market_time_fields _ |- _ =>
      apply market_time_fields_inj in H; [|assumption..]
  | H : as_bytes (ulid_str _) = as_bytes (ulid_str _) |- _ => apply ulid_bytes_inj in H
  | H : as_bytes _ = as_bytes _ |- _ => apply as_bytes_inj in H
  | H : to_be_bytes 8 _ = to_be_bytes 8 _ |- _ => apply u64_be_inj in H; [|assumption..]
  | H : to_be_bytes 16 _ = to_be_bytes 16 _ |- _ => apply i128_be_inj in H; [|assumption..]
  end.

(** Every field of an explicit concatenation is short. *)
Ltac shorts :=
  repeat lazymatch goal with
  | |- Forall _ (_ ++ _) => apply Forall_app_2
  | |- Forall _ (_ :: _) => apply List.Forall_cons
  | |- Forall _ [] => exact (List.Forall_nil _)
  end;
  first [ apply short_be; lia | apply short_byte | apply short_ulid; assumption
        | apply short_hash; assumption | apply short_str; assumption
        | apply short_owner; assumption | apply short_vref; assumption
        | apply short_unit; assumption | apply short_exact_ref; assumption
        | apply short_time; assumption | idtac ].

(** ** Self-delimiting encoders

    An encoder is self-delimiting on [P] when the bytes that follow a value never change how it is
    read back. Such encoders compose by concatenation and by counted repetition. *)

Definition self_delimiting {A} (P : A -> Prop) (enc : A -> list byte) : Prop :=
  forall a b r s, P a -> P b -> enc a ++ r = enc b ++ s -> a = b /\ r = s.

(** [push_str]: a string preceded by its length. *)
Definition push_str (value : string) : list byte := frame (as_bytes value).
(** [push_u64]. *)
Definition push_u64 (value : Z) : list byte := to_be_bytes 8 value.

(** A counted sequence. *)
Definition push_seq {A} (enc : A -> list byte) (l : list A) : list byte :=
  push_u64 (Z.of_nat (List.length l)) ++ flat_map enc l.

Lemma self_delimiting_inj {A} (P : A -> Prop) enc a b :
  self_delimiting P enc -> P a -> P b -> enc a = enc b -> a = b.
Proof. intros H Ha Hb E. apply (H a b [] []); [done..|by rewrite E]. Qed.

Lemma sd_fixed {A} (P : A -> Prop) (enc : A -> list byte) (n : nat) :
  (forall a, P a -> List.length (enc a) = n) -> (forall a b, P a -> P b -> enc a = enc b -> a = b) ->
  self_delimiting P enc.
Proof.
  intros Hlen Hinj a b r s Ha Hb E. apply app_inj_1 in E as [E ->]; [|by rewrite !Hlen].
  split; [by apply Hinj|done].
Qed.

Lemma sd_str : self_delimiting wf_str push_str.
Proof.
  intros a b r s Ha Hb E. apply frame_inj in E as [E ->]; [|unfold wf_str, short, str_len in *; rewrite length_as_bytes; lia..].
  by apply as_bytes_inj in E.
Qed.

Lemma sd_u64 : self_delimiting (fun z => in_u64 z = true) push_u64.
Proof. apply (sd_fixed _ _ 8); [intros; apply length_to_be_bytes|apply u64_be_inj]. Qed.

Lemma sd_hash : self_delimiting wf_hash hash_bytes.
Proof. apply (sd_fixed _ _ 32); [done|]. by intros [] [] _ _ [= ->]. Qed.

Lemma sd_seq {A} (P : A -> Prop) (enc : A -> list byte) :
  self_delimiting P enc ->
  self_delimiting (fun l => Forall P l /\ Z.of_nat (List.length l) < 2 ^ 64) (push_seq enc).
Proof.
  intros He a b r s [Ha La] [Hb Lb] E. unfold push_seq in E. rewrite <- !(assoc_L (++)) in E.
  apply sd_u64 in E as [El E]; [|ranges; lia..]. clear La Lb.
  revert b Hb El E. induction Ha as [|x a Hx Ha IH]; intros b Hb El E.
  - destruct b; [done|cbn in El; lia].
  - destruct Hb as [|y b Hy Hb]; [cbn in El; lia|]. cbn [flat_map] in E.
    rewrite <- !(assoc_L (++)) in E. apply He in E as [-> E]; [|done..].
    destruct (IH b Hb) as [-> ->]; [cbn in El; lia|done|done].
Qed.
