(* ===== verification/Concrete.v ===== *)
(** * Concrete instances of the third-party parameters

    Small executable stand-ins for the ULID codec, SHA-256 and the time-zone library. The theorems
    hold for every instance; these ones let the witnesses evaluate them on concrete inputs and show
    that the laws assumed of the parameters are satisfiable. *)

From Stdlib Require Import ZArith Lia Strings.String.
From Stdlib Require Import Strings.Byte.
From stdpp Require Import base list option strings numbers.
From S2P Require Import Prelude Machine Collections Primitives Codec.
Open Scope Z_scope.

(** Upper-case letters and digits, 26 of them, each its own canonical text. *)
Definition sample_ulid_crate : UlidCrate := {|
  UlidValue := string;
  ulid_parse := fun s =>
    if forallb (fun b => is_ascii_digit b || is_ascii_uppercase b) (as_bytes s) then Some s else None;
  ulid_to_string := fun s => s
|}.

(** The length and the first bytes of the message, padded to 32 bytes. *)
Definition sample_sha256 : Sha256 := fun bs =>
  take 32 (to_be_bytes 8 (Z.of_nat (List.length bs)) ++ bs ++ repeat x00 32).

Lemma sample_sha256_laws : @Sha256Laws sample_sha256.
Proof.
  intros bs. unfold sha256, sample_sha256.
  rewrite length_take, !length_app, length_to_be_bytes, repeat_length. lia.
Qed.

(** One time zone, and dates written with fixed widths. *)
Definition sample_chrono : Chrono := {|
  Tz := string;
  tz_parse := fun s => if bool_decide (s = "UTC"%string) then Some s else None;
  tz_name := fun s => s;
  tz_local_date := fun _ _ => {| nd_year := 2026; nd_month := 1; nd_day := 5 |};
  date_to_string := fun d => string_of_list_byte
    (to_be_bytes 4 (nd_year d) ++ to_be_bytes 4 (nd_month d) ++ to_be_bytes 4 (nd_day d))
|}.

Lemma sample_chrono_laws : @ChronoLaws sample_chrono.
Proof.
  intros [y m d] [y' m' d'] (Hy & Hm & Hd) (Hy' & Hm' & Hd') E. cbn in *.
  apply (f_equal list_byte_of_string) in E. rewrite !list_byte_of_string_of_list_byte in E.
  apply app_inj_1 in E as [E1 E]; [|done]. apply app_inj_1 in E as [E2 E3]; [|done].
  apply i32_be_inj in E1; [|done..]. apply u32_be_inj in E2, E3; [congruence|ranges; lia..].
Qed.

Lemma sample_chrono_short : @ChronoShort sample_chrono.
Proof.
  intros d. unfold wf_str, str_len. rewrite <- length_as_bytes. unfold as_bytes.
  cbn [date_to_string sample_chrono]. rewrite list_byte_of_string_of_list_byte, !length_app, !length_to_be_bytes.
  cbn. lia.
Qed.

Definition sample_id (s : string) : Ulid := mk_ulid ("01ARZ3NDEKTSV4RRFFQ69G5FA" ++ s).
Definition sample_hash (b : byte) : ContentHash := mk_hash (repeat b 32).
Definition sample_unit : UnitRef := {| unit_id := sample_id "U"; unit_version := mk_version 1 |}.
Definition sample_vref (s : string) : VersionRef := {| vr_id := sample_id s; vr_version := mk_version 1 |}.
Definition sample_lineage : LineageRef := lineage_versioned (sample_id "L") (mk_version 3).
Definition sample_owner : OwnerRef := {| tenant_id := sample_id "T"; owner_id := sample_id "O" |}.

Definition sample_time (seconds : Z) : MarketTime := {|
  instant := {| timestamp := seconds; timestamp_subsec_nanos := 0 |};
  market_timezone := "UTC";
  local_trading_date := {| nd_year := 2026; nd_month := 1; nd_day := 5 |}
|}.
