(* ===== verification/KeyRate.v ===== *)
(** * Key-rate exposures

    [crates/ficant-domain/src/research/exposure.rs]: directional DV01 of a price bump, its scaling
    to bond and futures positions, and the aggregation of positions into factor totals. The bond
    formula is one rational expression, reduced by cross-cancellation before any multiplication and
    rounded once; the futures formulas are exact or fail. *)

From Stdlib Require Import ZArith Lia Znumtheory Strings.String.
From stdpp Require Import base list option strings numbers.
From S2P Require Import Prelude Machine Collections Primitives FixedDecimal Codec.
Open Scope Z_scope.

(** [SensitivityDirection] of [research/factor_topology.rs]. *)
Inductive SensitivityDirection := Central | Up | Down.

(** ** Directional sensitivities *)

(** The price difference of a direction, [match direction { ... }] in both formulas. *)
Definition directional_difference (base up down : FixedDecimal) (direction : SensitivityDirection)
    : DomainResult FixedDecimal :=
  match direction with
  | Central => checked_sub down up
  | Up => checked_sub base up
  | Down => checked_sub down base
  end.

Definition key_rate_dv01 (base up down bump_bp : FixedDecimal) (direction : SensitivityDirection)
    : DomainResult FixedDecimal :=
  if negb (is_positive bump_bp) then Err InvalidValue else
  numerator ← directional_difference base up down direction;
  divisor ← match direction with
            | Central => ok_or (i128_checked_mul (scaled bump_bp) 2) InvalidValue
            | Up | Down => Ok (scaled bump_bp)
            end;
  scaled_numerator ← ok_or (i128_checked_mul (scaled numerator) FIXED_DECIMAL_FACTOR) InvalidValue;
  if (divisor =? 0) || negb (i128_rem scaled_numerator divisor =? 0) then Err InvalidValue
  else Ok (from_scaled (i128_div scaled_numerator divisor)).

(** [while right != 0 { (left, right) = (right, left % right) }]. The product of the two values
    halves with every iteration, so 258 iterations are enough for two [u128]. *)
Fixpoint gcd_loop (fuel : nat) (left right : Z) : Z :=
  match fuel with
  | O => left
  | S fuel' => if right =? 0 then left else gcd_loop fuel' right (left mod right)
  end.

Definition greatest_common_divisor (left right : Z) : Z := Z.max (gcd_loop 258 left right) 1.

(** The inner loop of [cross_cancel]: one numerator against every denominator. *)
Fixpoint cancel_row (numerator : Z) (denominators : list Z) : Z * list Z :=
  match denominators with
  | [] => (numerator, [])
  | denominator :: rest =>
      let divisor := greatest_common_divisor numerator denominator in
      let '(numerator', rest') := cancel_row (numerator / divisor) rest in
      (numerator', denominator / divisor :: rest')
  end.

Fixpoint cross_cancel (numerators denominators : list Z) : list Z * list Z :=
  match numerators with
  | [] => ([], denominators)
  | numerator :: rest =>
      let '(numerator', denominators') := cancel_row numerator denominators in
      let '(rest', denominators'') := cross_cancel rest denominators' in
      (numerator' :: rest', denominators'')
  end.

Definition checked_product (values : list Z) : DomainResult Z :=
  try_fold (fun product value => ok_or (u128_checked_mul product value) InvalidValue) 1 values.

(** [exposure.rs] has its own copy of [signed_magnitude]. *)
Definition exposure_signed_magnitude (magnitude : Z) (negative : bool) : DomainResult Z :=
  if negative && (magnitude =? unsigned_abs i128_MIN) then Ok i128_MIN else
  magnitude ← ok_or (i128_try_from magnitude) InvalidValue;
  if negative then ok_or (i128_checked_neg magnitude) InvalidValue else Ok magnitude.

Definition bump_sides (direction : SensitivityDirection) : Z :=
  match direction with Central => 2 | Up | Down => 1 end.

Definition bond_position_key_rate_dv01 (base up down bump_bp : FixedDecimal)
    (direction : SensitivityDirection) (signed_quantity registered_face : FixedDecimal)
    : DomainResult FixedDecimal :=
  if negb (is_positive bump_bp) || negb (is_positive registered_face) then Err InvalidValue else
  difference ← directional_difference base up down direction;
  if bool_decide (difference = ZERO) || bool_decide (signed_quantity = ZERO) then Ok ZERO else
  let negative := negb (eqb (scaled difference <? 0) (scaled signed_quantity <? 0)) in
  let '(numerators, denominators) :=
    cross_cancel
      [unsigned_abs (scaled difference); unsigned_abs (scaled signed_quantity)]
      [bump_sides direction; unsigned_abs (scaled bump_bp); unsigned_abs (scaled registered_face)] in
  numerator ← checked_product numerators;
  denominator ← checked_product denominators;
  numerator ← exposure_signed_magnitude numerator negative;
  denominator ← ok_or (i128_try_from denominator) InvalidValue;
  checked_div_round_ties_even (from_scaled numerator) (from_scaled denominator).

Definition exact_div (numerator denominator : FixedDecimal) : DomainResult FixedDecimal :=
  if scaled denominator =? 0 then Err InvalidValue else
  scaled' ← ok_or (i128_checked_mul (scaled numerator) FIXED_DECIMAL_FACTOR) InvalidValue;
  if negb (i128_rem scaled' (scaled denominator) =? 0) then Err InvalidValue
  else Ok (from_scaled (i128_div scaled' (scaled denominator))).

Definition scale_futures_key_rate_dv01 (ctd_registered_face_krd registered_face face_quote_basis : FixedDecimal)
    (contract_size_in_quote_units : Z) (conversion_factor : FixedDecimal)
    (signed_contract_count : Z) : DomainResult FixedDecimal :=
  if negb (is_positive registered_face) || negb (is_positive face_quote_basis)
     || (contract_size_in_quote_units =? 0) || negb (is_positive conversion_factor)
     || (signed_contract_count =? 0)
  then Err InvalidValue else
  product ← checked_mul ctd_registered_face_krd face_quote_basis;
  quote_krd ← exact_div product registered_face;
  contract_size ← fixed_of_option (i128_checked_mul contract_size_in_quote_units FIXED_DECIMAL_FACTOR);
  product ← checked_mul quote_krd contract_size;
  one_contract ← exact_div product conversion_factor;
  count ← fixed_of_option (i128_checked_mul signed_contract_count FIXED_DECIMAL_FACTOR);
  checked_mul one_contract count.

Example bond_position_example :
  bond_position_key_rate_dv01 ZERO (from_scaled 99000000000000) (from_scaled 101000000000000)
    ONE Central (from_scaled 3000000000000) (from_scaled 7000000000000)
  = Ok (from_scaled 428571428571).
Proof. vm_compute. reflexivity. Qed.

(** ** Greatest common divisor and cancellation *)

(** The loop computes the greatest common divisor when the fuel covers the product's bits. *)
Lemma gcd_loop_sorted fuel l r :
  0 <= r <= l -> l * r < 2 ^ Z.of_nat fuel -> gcd_loop (S fuel) l r = Z.gcd l r.
Proof.
  revert l r. induction fuel as [|fuel IH]; intros l r Hr Hp.
  - assert (r = 0) as -> by (cbn in Hp; nia). cbn. rewrite Z.gcd_0_r. lia.
  - cbn [gcd_loop]. destruct (Z.eqb_spec r 0) as [->|Hr0].
    { rewrite Z.gcd_0_r. lia. }
    pose proof (Z.mod_pos_bound l r ltac:(lia)). pose proof (Z.div_mod l r ltac:(lia)).
    assert (1 <= l / r) by (apply Z.div_le_lower_bound; lia).
    change (gcd_loop (S fuel) r (l mod r) = Z.gcd l r).
    rewrite IH; [by rewrite (Z.gcd_comm r), Z.gcd_mod by lia; rewrite Z.gcd_comm|lia|].
    rewrite Nat2Z.inj_succ, Z.pow_succ_r in Hp by lia. nia.
Qed.

Lemma gcd_loop_S fuel l r :
  gcd_loop (S fuel) l r = if r =? 0 then l else gcd_loop fuel r (l mod r).
Proof. reflexivity. Qed.

Lemma gcd_loop_spec l r :
  0 <= l < 2 ^ 128 -> 0 <= r < 2 ^ 128 -> gcd_loop 258 l r = Z.gcd l r.
Proof.
  intros Hl Hr.
  assert (Hp : l * r < 2 ^ 128 * 2 ^ 128) by nia. rewrite <- Z.pow_add_r in Hp by lia.
  destruct (Z_le_gt_dec r l) as [Hle|Hgt].
  - apply gcd_loop_sorted; [lia|]. eapply Z.lt_le_trans; [exact Hp|].
    apply Z.pow_le_mono_r; lia.
  - rewrite gcd_loop_S. destruct (Z.eqb_spec r 0); [lia|]. rewrite Z.mod_small by lia.
    rewrite gcd_loop_sorted; [apply Z.gcd_comm|lia|]. rewrite Z.mul_comm.
    eapply Z.lt_le_trans; [exact Hp|]. apply Z.pow_le_mono_r; lia.
Qed.

Lemma greatest_common_divisor_spec l r :
  0 < l < 2 ^ 128 -> 0 < r < 2 ^ 128 -> greatest_common_divisor l r = Z.gcd l r.
Proof.
  intros. unfold greatest_common_divisor. rewrite gcd_loop_spec by lia.
  assert (Z.gcd l r <> 0) by (intros ?%Z.gcd_eq_0_l; lia). pose proof (Z.gcd_nonneg l r). lia.
Qed.

Definition zprod (l : list Z) : Z := foldr Z.mul 1 l.

(** Positive values of type [u128]. *)
Definition positive_u128 (z : Z) : Prop := 0 < z < 2 ^ 128.

Lemma zprod_pos l : Forall positive_u128 l -> 0 < zprod l.
Proof. induction 1 as [|x l [Hx _] _ IH]; cbn [zprod foldr]; [lia|]. by apply Z.mul_pos_pos. Qed.

(** Dividing two positive integers by their greatest common divisor. *)
Lemma cancel_gcd n d :
  positive_u128 n -> positive_u128 d ->
  let g := Z.gcd n d in
  exists n' d', n = g * n' /\ d = g * d' /\ n / g = n' /\ d / g = d' /\ 0 < g /\
    positive_u128 n' /\ positive_u128 d' /\ rel_prime n' d'.
Proof.
  intros Hn Hd g. unfold positive_u128 in *.
  assert (Hg : 0 < g).
  { pose proof (Z.gcd_nonneg n d). assert (g <> 0) by (intros ?%Z.gcd_eq_0_l; lia). lia. }
  destruct (Z.gcd_divide_l n d) as [n' En]. destruct (Z.gcd_divide_r n d) as [d' Ed]. fold g in En, Ed.
  exists n', d'. assert (n / g = n') by (rewrite En; apply Z.div_mul; lia).
  assert (d / g = d') by (rewrite Ed; apply Z.div_mul; lia).
  repeat split; try lia; try nia.
  1, 2: apply Z.divide_1_l.
  intros x Hx1 Hx2. assert (Hxg : (x * g | g)).
  { unfold g at 2. apply Z.gcd_greatest; [rewrite En|rewrite Ed]; by apply Z.mul_divide_mono_r. }
  destruct Hxg as [y Hy]. exists y. nia.
Qed.

Lemma coprime_sym a b : rel_prime a b -> rel_prime b a.
Proof. by rewrite <- !Zgcd_1_rel_prime, Z.gcd_comm. Qed.

Lemma rel_prime_divides a b c : rel_prime a b -> (c | b) -> rel_prime a c.
Proof. intros. apply coprime_sym, (rel_prime_div b a c); [by apply coprime_sym|done]. Qed.

Lemma cancel_row_spec n ds n' ds' :
  positive_u128 n -> Forall positive_u128 ds -> cancel_row n ds = (n', ds') ->
  exists k, 0 < k /\ n = k * n' /\ zprod ds = k * zprod ds' /\ positive_u128 n' /\
    Forall positive_u128 ds' /\ Forall (rel_prime n') ds' /\ Forall2 Z.divide ds' ds.
Proof.
  intros Hn Hds. revert n n' ds' Hn. induction Hds as [|d ds Hd Hds IH]; intros n n' ds' Hn E.
  { injection E as <- <-. exists 1. cbn [zprod foldr].
    split; [lia|]. split; [lia|]. split; [lia|]. split; [exact Hn|].
    split; [constructor|]. split; constructor. }
  cbn in E. rewrite greatest_common_divisor_spec in E by done.
  destruct (cancel_gcd n d Hn Hd) as (n1 & d1 & En & Ed & Qn & Qd & Hg & Hn1 & Hd1 & Hrp).
  rewrite Qn, Qd in E. destruct (cancel_row n1 ds) as [n2 ds2] eqn:Er. injection E as <- <-.
  destruct (IH _ _ _ Hn1 Er) as (k & Hk & E1 & E2 & Hn2 & Hds2 & Hrp2 & Hdiv).
  exists (Z.gcd n d * k). cbn [zprod foldr]. fold (zprod ds) (zprod ds2).
  split; [nia|]. split; [nia|]. split; [rewrite E2, Ed at 1; ring|].
  split; [done|]. split; [by constructor|]. split.
  - constructor; [|done]. apply coprime_sym, (rel_prime_divides _ n1);
      [by apply coprime_sym|]. exists k. lia.
  - constructor; [|done]. exists (Z.gcd n d). lia.
Qed.

Lemma cross_cancel_spec ns ds ns' ds' :
  Forall positive_u128 ns -> Forall positive_u128 ds -> cross_cancel ns ds = (ns', ds') ->
  exists k, 0 < k /\ zprod ns = k * zprod ns' /\ zprod ds = k * zprod ds' /\
    Forall positive_u128 ns' /\ Forall positive_u128 ds' /\
    Forall (fun n => Forall (rel_prime n) ds') ns' /\ Forall2 Z.divide ds' ds.
Proof.
  intros Hns. revert ds ns' ds'. induction Hns as [|n ns Hn Hns IH]; intros ds ns' ds' Hds E.
  { injection E as <- <-. exists 1. cbn [zprod foldr]. fold (zprod ds).
    split; [lia|]. split; [lia|]. split; [lia|]. split; [constructor|].
    split; [exact Hds|]. split; [constructor|]. clear. induction ds; constructor; [apply Z.divide_refl|done]. }
  cbn in E. destruct (cancel_row n ds) as [n1 ds1] eqn:Er.
  destruct (cancel_row_spec _ _ _ _ Hn Hds Er) as (k & Hk & E1 & E2 & Hn1 & Hds1 & Hrp & Hdiv).
  destruct (cross_cancel ns ds1) as [ns2 ds2] eqn:Ec. injection E as <- <-.
  destruct (IH _ _ _ Hds1 Ec) as (k' & Hk' & E1' & E2' & Hns2 & Hds2 & Hrp2 & Hdiv2).
  exists (k * k'). cbn [zprod foldr]. fold (zprod ns) (zprod ns2).
  split; [nia|]. split; [rewrite E1, E1'; ring|]. split; [rewrite E2, E2'; ring|].
  split; [by constructor|]. split; [done|]. split.
  - constructor; [|done]. clear -Hrp Hdiv2. revert Hrp.
    induction Hdiv2; intros Hrp; constructor; inversion_clear Hrp; [by eapply rel_prime_divides|auto].
  - clear -Hdiv Hdiv2. revert ds Hdiv. induction Hdiv2; intros ds Hdiv; [done|].
    inversion_clear Hdiv; constructor; [by etransitivity|auto].
Qed.

Lemma zprod_coprime ns ds : Forall (fun n => Forall (rel_prime n) ds) ns -> rel_prime (zprod ns) (zprod ds).
Proof.
  induction 1 as [|n ns Hn _ IH]; cbn; [apply rel_prime_1|].
  apply coprime_sym, rel_prime_mult; apply coprime_sym; [|done].
  clear -Hn. induction Hn; cbn; [apply coprime_sym, rel_prime_1|by apply rel_prime_mult].
Qed.

(** A fraction in lowest terms is the fraction divided by the greatest common divisor. *)
Lemma lowest_terms k n d n' d' :
  0 < k -> n = k * n' -> d = k * d' -> rel_prime n' d' -> 0 < n' -> 0 < d' ->
  n' = n / Z.gcd n d /\ d' = d / Z.gcd n d.
Proof.
  intros Hk -> -> Hrp Hn Hd.
  rewrite Z.gcd_mul_mono_l_nonneg by lia.
  apply Zgcd_1_rel_prime in Hrp. rewrite Hrp, Z.mul_1_r.
  rewrite !(Z.mul_comm k), !Z.div_mul by lia. done.
Qed.

(** ** The rational formula of a bond position *)

Lemma checked_product_from acc l p :
  0 < acc < 2 ^ 128 -> Forall positive_u128 l ->
  try_fold (fun product value => ok_or (u128_checked_mul product value) InvalidValue) acc l = Ok p
  <-> p = acc * zprod l /\ p < 2 ^ 128.
Proof.
  intros Hacc Hl. revert acc Hacc. induction Hl as [|x l Hx Hl IH]; intros acc Hacc.
  - cbn [try_fold zprod foldr]. rewrite Z.mul_1_r.
    split; [intros [= <-]; split; [done|lia]|by intros [-> _]].
  - cbn [try_fold zprod foldr]. fold (zprod l). pose proof (zprod_pos l Hl). unfold positive_u128 in Hx.
    unfold u128_checked_mul, checked. destruct (in_u128 (acc * x)) eqn:E; cbn; ranges.
    + rewrite IH by nia. rewrite Z.mul_assoc. done.
    + split; [done|]. intros [-> Hlt]. assert (acc * x * 1 <= acc * x * zprod l) by nia. nia.
Qed.

Lemma checked_product_Ok l p :
  Forall positive_u128 l -> checked_product l = Ok p <-> p = zprod l /\ p < 2 ^ 128.
Proof. intros Hl. rewrite <- (Z.mul_1_l (zprod l)). by apply checked_product_from. Qed.

Lemma exposure_signed_magnitude_eq m neg :
  0 <= m -> exposure_signed_magnitude m neg = signed_magnitude m neg.
Proof.
  intros Hm. unfold exposure_signed_magnitude, signed_magnitude.
  destruct neg; cbn; [destruct (m =? _); [done|]|];
    unfold i128_try_from, checked; destruct (in_i128 m); cbn; done.
Qed.

(** The scaled price difference of a direction. *)
Definition signed_difference (base up down : FixedDecimal) (direction : SensitivityDirection) : Z :=
  match direction with
  | Central => scaled down - scaled up
  | Up => scaled base - scaled up
  | Down => scaled down - scaled base
  end.

Lemma directional_difference_Ok base up down direction d :
  directional_difference base up down direction = Ok d <->
  in_i128 (signed_difference base up down direction) = true /\
  scaled d = signed_difference base up down direction.
Proof. destruct direction; apply checked_sub_Ok. Qed.

(** Numerator and denominator of the bond formula, over [FIXED_DECIMAL_FACTOR]. *)
Definition bond_numerator (base up down : FixedDecimal) (direction : SensitivityDirection)
    (signed_quantity : FixedDecimal) : Z :=
  signed_difference base up down direction * scaled signed_quantity.

Definition bond_denominator (bump_bp registered_face : FixedDecimal)
    (direction : SensitivityDirection) : Z :=
  bump_sides direction * scaled bump_bp * scaled registered_face.

(** What is left of the formula after the guards: cancel, multiply, restore the sign, round. *)
Definition rounded_fraction (ns ds : list Z) (negative : bool) : DomainResult FixedDecimal :=
  let '(numerators, denominators) := cross_cancel ns ds in
  numerator ← checked_product numerators;
  denominator ← checked_product denominators;
  numerator ← exposure_signed_magnitude numerator negative;
  denominator ← ok_or (i128_try_from denominator) InvalidValue;
  checked_div_round_ties_even (from_scaled numerator) (from_scaled denominator).

Lemma rounded_fraction_spec ns ds (negative : bool) n v :
  Forall positive_u128 ns -> Forall positive_u128 ds ->
  n = (if negative then - zprod ns else zprod ns) ->
  let d := zprod ds in
  rounded_fraction ns ds negative = Ok v <->
  in_i128 (n / Z.gcd n d) = true /\ in_i128 (d / Z.gcd n d) = true /\ wf_fixed v /\
  is_round_half_even (n * FIXED_DECIMAL_FACTOR) d (scaled v).
Proof.
  intros Hns Hds Hn d. unfold rounded_fraction. destruct (cross_cancel ns ds) as [ns' ds'] eqn:Ec.
  destruct (cross_cancel_spec _ _ _ _ Hns Hds Ec) as (k & Hk & En & Ed & Hns' & Hds' & Hrp & _).
  apply zprod_coprime in Hrp. pose proof (zprod_pos _ Hns'). pose proof (zprod_pos _ Hds').
  set (n' := if negative then - zprod ns' else zprod ns').
  assert (En' : n = k * n') by (subst n n'; destruct negative; lia).
  assert (Hg : Z.gcd n d = k).
  { rewrite Hn. unfold d. apply Zgcd_1_rel_prime in Hrp.
    destruct negative; rewrite ?Z.gcd_opp_l, En, Ed, Z.gcd_mul_mono_l_nonneg, Hrp; lia. }
  assert (Q1 : n / k = n') by (rewrite En', Z.mul_comm; apply Z.div_mul; lia).
  assert (Q2 : d / k = zprod ds') by (unfold d; rewrite Ed, Z.mul_comm; apply Z.div_mul; lia).
  rewrite Hg, Q1, Q2, En'. unfold d. rewrite Ed.
  replace (k * n' * FIXED_DECIMAL_FACTOR) with (k * (n' * FIXED_DECIMAL_FACTOR)) by ring.
  rewrite is_round_half_even_scale by done.
  assert (Hrange : in_i128 n' = true -> zprod ns' < 2 ^ 128).
  { unfold n'. intros. destruct negative; ranges; lia. }
  split.
  - intros Hrun. repeat res_step. repeat match goal with
      | H : checked_product _ = Ok _ |- _ => apply checked_product_Ok in H as [-> ?]; [|done]
      | H : exposure_signed_magnitude _ _ = Ok _ |- _ =>
          rewrite exposure_signed_magnitude_eq in H by lia;
          apply signed_magnitude_spec in H as [-> ?]; [|lia]
      end.
    match goal with H : i128_try_from _ = Some _ |- _ => apply checked_Some in H as [? ->] end.
    apply checked_div_spec in Hrun as (_ & ? & ?); [done|done..].
  - intros (R1 & R2 & Hv & Hround).
    assert (P1 : checked_product ns' = Ok (zprod ns')) by (apply checked_product_Ok; auto).
    assert (P2 : checked_product ds' = Ok (zprod ds')).
    { apply checked_product_Ok; [done|]. split; [done|]. ranges. lia. }
    rewrite P1. cbn. rewrite P2. cbn. rewrite exposure_signed_magnitude_eq by lia.
    assert (P3 : signed_magnitude (zprod ns') negative = Ok n') by (apply signed_magnitude_spec; [lia|done]).
    rewrite P3. cbn. unfold i128_try_from, checked. rewrite R2. cbn.
    apply checked_div_spec; [done..|]. cbn. split; [lia|done].
Qed.

Lemma bond_position_spec base up down bump_bp direction signed_quantity registered_face v :
  wf_fixed signed_quantity -> wf_fixed bump_bp -> wf_fixed registered_face ->
  let n := bond_numerator base up down direction signed_quantity in
  let d := bond_denominator bump_bp registered_face direction in
  bond_position_key_rate_dv01 base up down bump_bp direction signed_quantity registered_face = Ok v <->
  0 < scaled bump_bp /\ 0 < scaled registered_face /\
  in_i128 (signed_difference base up down direction) = true /\
  in_i128 (n / Z.gcd n d) = true /\ in_i128 (d / Z.gcd n d) = true /\
  wf_fixed v /\ is_round_half_even (n * FIXED_DECIMAL_FACTOR) d (scaled v).
Proof.
  intros Hq Hb Hf n d. unfold wf_fixed in Hq, Hb, Hf. unfold bond_position_key_rate_dv01.
  unfold is_positive. destruct (Z.ltb_spec 0 (scaled bump_bp)) as [Hb0|]; cbn; [|split; [done|lia]].
  destruct (Z.ltb_spec 0 (scaled registered_face)) as [Hf0|]; cbn; [|split; [done|lia]].
  assert (Hd : 0 < d) by (unfold d, bond_denominator, bump_sides; destruct direction; nia).
  destruct (in_i128 (signed_difference base up down direction)) eqn:Hdiff.
  2: { destruct (directional_difference base up down direction) as [x|] eqn:E; cbn; [|naive_solver].
       apply directional_difference_Ok in E as [E _]. congruence. }
  destruct (directional_difference base up down direction) as [x|] eqn:E; cbn.
  2: { exfalso. assert (E' : directional_difference base up down direction
         = Ok (from_scaled (signed_difference base up down direction)))
         by (by apply directional_difference_Ok). congruence. }
  apply directional_difference_Ok in E as [_ E].
  destruct (bool_decide (x = ZERO) || bool_decide (signed_quantity = ZERO)) eqn:Ez.

  - assert (Hn : n = 0).
    { unfold n, bond_numerator. apply orb_true_iff in Ez as [Ez%bool_decide_eq_true|Ez%bool_decide_eq_true];
        rewrite <- ?E, Ez; cbn; lia. }
    rewrite Hn, Z.gcd_0_l, Z.abs_eq, Z.div_same, Z.div_0_l by lia.
    assert (Hr0 : is_round_half_even (0 * FIXED_DECIMAL_FACTOR) d (scaled ZERO)).
    { unfold is_round_half_even. cbn. split; [lia|done]. }
    split; [intros [= <-]; done|]. intros (_ & _ & _ & _ & _ & _ & Hr).
    pose proof (is_round_half_even_unique (0 * FIXED_DECIMAL_FACTOR) d _ _ ltac:(lia) Hr Hr0) as Ev.
    destruct v as [v]. cbn in Ev. by subst v.
  - apply orb_false_iff in Ez as [Ex%bool_decide_eq_false Eq%bool_decide_eq_false].
    assert (scaled x <> 0) by (intros Ex0; apply Ex; destruct x; cbn in Ex0; by subst).
    assert (scaled signed_quantity <> 0)
      by (intros Ex0; apply Eq; destruct signed_quantity; cbn in Ex0; by subst).
    pose proof (rounded_fraction_spec
      [unsigned_abs (scaled x); unsigned_abs (scaled signed_quantity)]
      [bump_sides direction; unsigned_abs (scaled bump_bp); unsigned_abs (scaled registered_face)]
      (negative_product (scaled x) (scaled signed_quantity)) n v) as HR.
    unfold rounded_fraction, negative_product in HR. rewrite HR; clear HR.
    + unfold zprod, unsigned_abs. cbn [foldr]. rewrite !(Z.abs_eq (scaled _)) by lia.
      replace (bump_sides direction * (scaled bump_bp * (scaled registered_face * 1))) with d
        by (unfold d, bond_denominator; ring). tauto.
    + split_forall; unfold positive_u128, unsigned_abs; rewrite <- ?E in Hdiff; ranges; lia.
    + split_forall; unfold positive_u128, unsigned_abs; [destruct direction; cbn; lia|..]; ranges; lia.
    + unfold n, bond_numerator, zprod, unsigned_abs. cbn [foldr]. rewrite <- E.
      destruct (Z.ltb_spec (scaled x) 0), (Z.ltb_spec (scaled signed_quantity) 0); cbn; nia.
Qed.

(** ** The exact formulas *)

Lemma quot_exact n d :
  d <> 0 -> forall z, (negb (Z.rem n d =? 0) = false /\ z = Z.quot n d) <-> z * d = n.
Proof.
  intros Hd z. pose proof (Z.quot_rem' n d) as E. rewrite negb_false_iff, Z.eqb_eq. split.
  - intros [Hr ->]. lia.
  - intros <-. rewrite Z.rem_mul, Z.quot_mul by done. done.
Qed.

(** Exact division succeeds exactly on representable quotients with a representable scaled dividend. *)
Lemma exact_div_Ok a b c :
  exact_div a b = Ok c <->
  scaled b <> 0 /\ in_i128 (scaled a * FIXED_DECIMAL_FACTOR) = true /\
  scaled c * scaled b = scaled a * FIXED_DECIMAL_FACTOR.
Proof.
  unfold exact_div, i128_checked_mul, checked, i128_rem, i128_div. destruct c as [z]; cbn.
  destruct (Z.eqb_spec (scaled b) 0) as [|Hb]; [naive_solver|].
  destruct (in_i128 (scaled a * _)) eqn:E; cbn; [|naive_solver].
  rewrite <- (quot_exact _ _ Hb). destruct (negb _); [naive_solver|].
  split; [by intros [= <-]|intros (_ & _ & _ & ->); done].
Qed.

Lemma key_rate_dv01_spec base up down bump_bp direction v :
  wf_fixed bump_bp ->
  key_rate_dv01 base up down bump_bp direction = Ok v <->
  let d := signed_difference base up down direction in
  let divisor := bump_sides direction * scaled bump_bp in
  0 < scaled bump_bp /\ in_i128 d = true /\ in_i128 divisor = true /\
  in_i128 (d * FIXED_DECIMAL_FACTOR) = true /\ scaled v * divisor = d * FIXED_DECIMAL_FACTOR.
Proof.
  intros Hb. cbv zeta. unfold key_rate_dv01, is_positive.
  destruct (Z.ltb_spec 0 (scaled bump_bp)) as [Hb0|]; cbn; [|split; [done|lia]].
  set (divisor := bump_sides direction * scaled bump_bp).
  assert (E2 : forall z, match direction with
            | Central => ok_or (i128_checked_mul (scaled bump_bp) 2) InvalidValue
            | Up | Down => Ok (scaled bump_bp) end = Ok z <-> in_i128 divisor = true /\ z = divisor).
  { intros z. unfold divisor, bump_sides. destruct direction; rewrite ?Z.mul_1_l, ?(Z.mul_comm 2).
    - unfold i128_checked_mul. rewrite ok_or_Ok. apply checked_Some.
    - unfold wf_fixed in Hb. rewrite Hb. split; [by intros [= <-]|by intros [_ ->]].
    - unfold wf_fixed in Hb. rewrite Hb. split; [by intros [= <-]|by intros [_ ->]]. }
  assert (Hdv : divisor <> 0) by (unfold divisor, bump_sides; destruct direction; lia).
  rewrite bind_Ok. setoid_rewrite bind_Ok. setoid_rewrite bind_Ok.
  setoid_rewrite directional_difference_Ok. setoid_rewrite E2.
  unfold i128_checked_mul, i128_rem, i128_div. setoid_rewrite ok_or_Ok. setoid_rewrite checked_Some.
  rewrite <- (quot_exact _ _ Hdv). split.
  - intros (x & [H1 E1] & ? & [H3 ->] & ? & [H4 ->] & Hrun).
    rewrite <- E1 in *. destruct v as [v]. cbn. apply Z.eqb_neq in Hdv. rewrite Hdv in Hrun. cbn in Hrun.
    destruct (negb _); [done|]. injection Hrun as ->. done.
  - intros (_ & H1 & H3 & H4 & Hr & Hv). exists (from_scaled (signed_difference base up down direction)).
    split; [done|]. exists divisor. split; [done|]. eexists. split; [done|]. cbn.
    apply Z.eqb_neq in Hdv. rewrite Hdv. cbn. rewrite Hr. destruct v; cbn in Hv; by subst.
Qed.

Lemma scale_futures_spec krd face basis size cf count v :
  in_u32 size = true -> in_i64 count = true ->
  scale_futures_key_rate_dv01 krd face basis size cf count = Ok v <->
  0 < scaled face /\ 0 < scaled basis /\ size <> 0 /\ 0 < scaled cf /\ count <> 0 /\
  exists quote one,
    in_i128 (scaled krd * scaled basis) = true /\
    quote * scaled face = scaled krd * scaled basis /\
    (exists p, scaled krd * scaled basis = p * FIXED_DECIMAL_FACTOR) /\
    in_i128 (quote * (size * FIXED_DECIMAL_FACTOR)) = true /\
    one * scaled cf = quote * size * FIXED_DECIMAL_FACTOR /\
    in_i128 (one * (count * FIXED_DECIMAL_FACTOR)) = true /\
    scaled v = one * count.
Proof.
  intros Hs Hc. unfold scale_futures_key_rate_dv01, is_positive.
  destruct (Z.ltb_spec 0 (scaled face)) as [Hf|]; cbn; [|split; [done|lia]].
  destruct (Z.ltb_spec 0 (scaled basis)) as [Hb|]; cbn; [|split; [done|lia]].
  destruct (Z.eqb_spec size 0) as [|Hs0]; cbn; [split; [done|lia]|].
  destruct (Z.ltb_spec 0 (scaled cf)) as [Hf'|]; cbn; [|split; [done|lia]].
  destruct (Z.eqb_spec count 0) as [|Hc0]; cbn; [split; [done|lia]|].
  assert (HS : fixed_of_option (i128_checked_mul size FIXED_DECIMAL_FACTOR)
               = Ok (from_scaled (size * FIXED_DECIMAL_FACTOR))).
  { apply fixed_of_option_Ok, checked_Some. split; [|done]. unfold FIXED_DECIMAL_FACTOR. ranges. lia. }
  assert (HC : fixed_of_option (i128_checked_mul count FIXED_DECIMAL_FACTOR)
               = Ok (from_scaled (count * FIXED_DECIMAL_FACTOR))).
  { apply fixed_of_option_Ok, checked_Some. split; [|done]. unfold FIXED_DECIMAL_FACTOR. ranges. lia. }
  split.
  - intros H. apply bind_Ok in H as (p & [P1 P2]%checked_mul_Ok & H).
    apply bind_Ok in H as (quote & (_ & _ & Q)%exact_div_Ok & H). rewrite HS in H. cbn in H.
    apply bind_Ok in H as (q & [R1 R2]%checked_mul_Ok & H). cbn in R1, R2.
    apply bind_Ok in H as (one & (_ & _ & U)%exact_div_Ok & H). rewrite HC in H. cbn in H.
    apply checked_mul_Ok in H as [V1 V2]. cbn in V1, V2.
    do 5 (split; [done|]). exists (scaled quote), (scaled one). unfold FIXED_DECIMAL_FACTOR in *.
    split; [done|]. split; [lia|]. split; [by exists (scaled p)|]. split; [done|].
    split; [lia|]. split; [done|]. lia.
  - intros (_ & _ & _ & _ & _ & quote & one & P1 & Q & [p P2] & R1 & U & V1 & V2).
    assert (E1 : checked_mul krd basis = Ok (from_scaled p)) by (by apply checked_mul_Ok).
    assert (E2 : exact_div (from_scaled p) face = Ok (from_scaled quote)).
    { apply exact_div_Ok. cbn. split; [lia|]. rewrite <- P2. split; [done|lia]. }
    assert (E3 : checked_mul (from_scaled quote) (from_scaled (size * FIXED_DECIMAL_FACTOR))
                 = Ok (from_scaled (quote * size))) by (apply checked_mul_Ok; cbn; split; [done|lia]).
    assert (E4 : exact_div (from_scaled (quote * size)) cf = Ok (from_scaled one)).
    { apply exact_div_Ok. cbn. split; [lia|]. split; [rewrite <- Z.mul_assoc; done|lia]. }
    rewrite E1. cbn. rewrite E2. cbn. rewrite HS. cbn. rewrite E3. cbn. rewrite E4. cbn. rewrite HC. cbn.
    apply checked_mul_Ok. cbn. split; [done|lia].
Qed.

(** ** Properties *)

(** C5. The DV01 of a bond position: with [n = price difference * quantity] and
    [d = sides * bump * face], it succeeds exactly when bump and face are positive, the price
    difference is representable, and the fraction [n / d] in lowest terms has a representable
    numerator and denominator and a representable rounded value; the result is [n / d] at the fixed
    scale, rounded once, half to even. Cancellation before multiplication means no other overflow
    rejects a position. *)
Theorem bond_position_key_rate_dv01_correct
    base up down bump_bp direction signed_quantity registered_face v :
  wf_fixed signed_quantity -> wf_fixed bump_bp -> wf_fixed registered_face ->
  let n := bond_numerator base up down direction signed_quantity in
  let d := bond_denominator bump_bp registered_face direction in
  bond_position_key_rate_dv01 base up down bump_bp direction signed_quantity registered_face = Ok v <->
  0 < scaled bump_bp /\ 0 < scaled registered_face /\
  in_i128 (signed_difference base up down direction) = true /\
  in_i128 (n / Z.gcd n d) = true /\ in_i128 (d / Z.gcd n d) = true /\
  wf_fixed v /\ is_round_half_even (n * FIXED_DECIMAL_FACTOR) d (scaled v).
Proof. apply bond_position_spec. Qed.

Lemma bond_position_key_rate_dv01_correct_witness :
  is_round_half_even (2000000000000 * 3000000000000 * FIXED_DECIMAL_FACTOR)
    (2 * 1000000000000 * 7000000000000) 428571428571.
Proof.
  apply (bond_position_key_rate_dv01_correct ZERO (from_scaled 99000000000000)
    (from_scaled 101000000000000) ONE Central (from_scaled 3000000000000)
    (from_scaled 7000000000000) (from_scaled 428571428571) eq_refl eq_refl eq_refl).
  vm_compute. reflexivity.
Defined.

(** The DV01 of a price difference is exact: it succeeds exactly when the bump is positive,
    the difference, the divisor and the scaled numerator are representable and the quotient has no
    digit beyond the twelfth decimal, and then it is that quotient. *)
Theorem key_rate_dv01_exact base up down bump_bp direction v :
  wf_fixed bump_bp ->
  key_rate_dv01 base up down bump_bp direction = Ok v <->
  let d := signed_difference base up down direction in
  let divisor := bump_sides direction * scaled bump_bp in
  0 < scaled bump_bp /\ in_i128 d = true /\ in_i128 divisor = true /\
  in_i128 (d * FIXED_DECIMAL_FACTOR) = true /\ scaled v * divisor = d * FIXED_DECIMAL_FACTOR.
Proof. apply key_rate_dv01_spec. Qed.

Lemma key_rate_dv01_exact_witness :
  key_rate_dv01 ZERO (from_scaled 99000000000000) (from_scaled 101000000000000)
    (from_scaled 10000000000000) Central = Ok (from_scaled 100000000000).
Proof. apply (key_rate_dv01_exact ZERO _ _ (from_scaled 10000000000000) Central); vm_compute; auto. Defined.

(** Scaling a CTD key-rate exposure to a futures position is exact: it succeeds exactly when
    the guards hold and every intermediate (quote exposure, one contract, position) is exact and
    representable, and the result is [krd * basis / face * size / factor * count]. *)
Theorem scale_futures_key_rate_dv01_exact krd face basis size cf count v :
  in_u32 size = true -> in_i64 count = true ->
  scale_futures_key_rate_dv01 krd face basis size cf count = Ok v <->
  0 < scaled face /\ 0 < scaled basis /\ size <> 0 /\ 0 < scaled cf /\ count <> 0 /\
  exists quote one,
    in_i128 (scaled krd * scaled basis) = true /\
    quote * scaled face = scaled krd * scaled basis /\
    (exists p, scaled krd * scaled basis = p * FIXED_DECIMAL_FACTOR) /\
    in_i128 (quote * (size * FIXED_DECIMAL_FACTOR)) = true /\
    one * scaled cf = quote * size * FIXED_DECIMAL_FACTOR /\
    in_i128 (one * (count * FIXED_DECIMAL_FACTOR)) = true /\
    scaled v = one * count.
Proof. apply scale_futures_spec. Qed.

Lemma scale_futures_key_rate_dv01_exact_witness :
  0 < scaled (from_scaled 100000000000000).
Proof.
  apply (scale_futures_key_rate_dv01_exact (from_scaled 50000000000) (from_scaled 100000000000000)
    (from_scaled 100000000000000) 10000 (from_scaled 500000000000) (-3)
    (from_scaled (-3000000000000000)) eq_refl eq_refl).
  vm_compute. reflexivity.
Defined.
