(* ===== verification/Exposure.v ===== *)
(** * Position exposures and their totals

    The records of [crates/ficant-domain/src/research/exposure.rs] built on the sensitivities of
    [KeyRate]: price-source summaries, factor exposures, content-addressed position exposures, and
    the sum of positions into totals per factor. *)

From Stdlib Require Import ZArith Lia Strings.String.
From Stdlib Require Import Strings.Byte.
From stdpp Require Import base list option strings numbers.
From S2P Require Import Prelude Machine Collections Primitives FixedDecimal Codec Concrete.
Open Scope Z_scope.

(** ** Price sources *)

(** [PriceSourceType] of [market/data_source.rs], in its derived order. *)
Inductive PriceSourceType := RealTrade | ActiveQuote | ModelValuation | CurveInterpolation.

#[export] Instance PriceSourceType_eq_dec : EqDecision PriceSourceType.
Proof. solve_decision. Defined.

Definition price_source_type_code (source_type : PriceSourceType) : Z :=
  match source_type with
  | RealTrade => 1
  | ActiveQuote => 2
  | ModelValuation => 3
  | CurveInterpolation => 4
  end.

#[export] Instance PriceSourceType_ord : Ord PriceSourceType := fun a b =>
  cmp (price_source_type_code a) (price_source_type_code b).
#[export] Instance PriceSourceType_ord_laws : OrdLaws PriceSourceType.
Proof. by apply (ord_laws_via price_source_type_code); [intros [] []|]. Qed.

Record PriceSourceCount := { source_type : PriceSourceType; record_count : Z }.

Definition price_source_count_new (source_type : PriceSourceType) (record_count : Z)
    : DomainResult PriceSourceCount :=
  if record_count =? 0 then Err InvalidValue
  else Ok {| source_type := source_type; record_count := record_count |}.

Record PriceSourceSummary := { counts : list PriceSourceCount }.

Definition price_source_summary_new (counts : list PriceSourceCount)
    : DomainResult PriceSourceSummary :=
  if bool_decide (counts = [])
     || windows2_any (fun a b => geb (source_type a) (source_type b)) counts
  then Err InvalidValue
  else Ok {| counts := counts |}.

Definition mixed (self : PriceSourceSummary) : bool := (1 <? List.length (counts self))%nat.

(** ** Factor exposures *)

Record FactorDv01 := {
  factor_id : string;
  factor_definition_hash : ContentHash;
  dv01_value : FixedDecimal;
  dv01_unit : UnitRef
}.

#[export] Instance FactorDv01_eq_dec : EqDecision FactorDv01.
Proof. solve_decision. Defined.

Definition factor_dv01_new (factor_id : string) (factor_definition_hash : ContentHash)
    (value : FixedDecimal) (unit : UnitRef) : DomainResult FactorDv01 :=
  if blank_or_padded factor_id then Err InvalidId
  else Ok {| factor_id := factor_id; factor_definition_hash := factor_definition_hash;
             dv01_value := value; dv01_unit := unit |}.

(** ** Position exposures *)

Record PositionKeyRateExposure := {
  position_id : Ulid;
  instrument : VersionRef;
  exposures : list FactorDv01;
  input_evidence_hashes : list ContentHash;
  content_hash : ContentHash;
  lineage : list LineageRef
}.

Definition exposure_fields (exposure : FactorDv01) : list (list byte) :=
  [as_bytes (factor_id exposure); hash_bytes (factor_definition_hash exposure);
   to_be_bytes 16 (scaled (dv01_value exposure));
   as_bytes (ulid_str (unit_id (dv01_unit exposure)));
   to_be_bytes 8 (version_get (unit_version (dv01_unit exposure)))].

(** The values [hash_position] appends, in order. *)
Definition position_fields (position_id : Ulid) (instrument : VersionRef)
    (exposures : list FactorDv01) (input_evidence_hashes : list ContentHash)
    (lineage : list LineageRef) : list (list byte) :=
  [as_bytes (ulid_str position_id); as_bytes (ulid_str (vr_id instrument));
   to_be_bytes 8 (version_get (vr_version instrument))]
  ++ flat_map exposure_fields exposures
  ++ map hash_bytes input_evidence_hashes
  ++ flat_map exact_ref_fields lineage.

Definition hash_position `{Sha256} (position_id : Ulid) (instrument : VersionRef)
    (exposures : list FactorDv01) (input_evidence_hashes : list ContentHash)
    (lineage : list LineageRef) : ContentHash :=
  digest (framed (position_fields position_id instrument exposures input_evidence_hashes lineage)).

Definition position_key_rate_exposure_new `{Sha256} (position_id : Ulid) (instrument : VersionRef)
    (exposures : list FactorDv01) (input_evidence_hashes : list ContentHash)
    (lineage : list LineageRef) : DomainResult PositionKeyRateExposure :=
  if bool_decide (exposures = []) || bool_decide (input_evidence_hashes = [])
     || bool_decide (lineage = [])
     || windows2_any (fun a b => geb (factor_id a) (factor_id b)) exposures
     || windows2_any geb input_evidence_hashes
     || existsb (fun value =>
          negb (bool_decide (Some (dv01_unit value) = dv01_unit <$> head exposures))) exposures
  then Err BrokenLineage
  else Ok {| position_id := position_id; instrument := instrument; exposures := exposures;
             input_evidence_hashes := input_evidence_hashes;
             content_hash := hash_position position_id instrument exposures input_evidence_hashes
                               lineage;
             lineage := lineage |}.

(** ** Totals *)

(** The inner loop over [totals.iter_mut().zip(&position.exposures)]. *)
Fixpoint add_exposures (totals values : list FactorDv01) : DomainResult (list FactorDv01) :=
  match totals, values with
  | total :: totals', value :: values' =>
      if negb (bool_decide (factor_id total = factor_id value))
         || negb (bool_decide (factor_definition_hash total = factor_definition_hash value))
         || negb (bool_decide (dv01_unit total = dv01_unit value))
      then Err BrokenLineage else
      sum ← checked_add (dv01_value total) (dv01_value value);
      rest ← add_exposures totals' values';
      Ok ({| factor_id := factor_id total; factor_definition_hash := factor_definition_hash total;
             dv01_value := sum; dv01_unit := dv01_unit total |} :: rest)
  | _, _ => Ok totals
  end.

Definition aggregate_bond_key_rate_exposures (positions : list PositionKeyRateExposure)
    : DomainResult (list FactorDv01) :=
  first ← ok_or (head positions) InvalidValue;
  try_fold (fun totals position =>
      if negb (List.length (exposures position) =? List.length totals)%nat then Err BrokenLineage
      else add_exposures totals (exposures position))
    (exposures first) (tail positions).

(** ** Lemmas *)

(** What identifies a factor: everything but its value. *)
Definition factor_key (e : FactorDv01) : string * ContentHash * UnitRef :=
  (factor_id e, factor_definition_hash e, dv01_unit e).

Definition scaled_values (es : list FactorDv01) : list Z := map (fun e => scaled (dv01_value e)) es.

Lemma add_exposures_Ok ts es rs :
  List.length es = List.length ts ->
  add_exposures ts es = Ok rs <->
  map factor_key es = map factor_key ts /\ map factor_key rs = map factor_key ts /\
  scaled_values rs = zip_with Z.add (scaled_values ts) (scaled_values es) /\
  Forall (fun z => in_i128 z = true) (scaled_values rs).
Proof.
  revert es rs. induction ts as [|t ts IH]; intros [|e es] rs Hlen; try discriminate Hlen.
  { cbn. split; [by intros [= <-]|]. intros (_ & E & _). by destruct rs. }
  cbn in Hlen. injection Hlen as Hlen. cbn [add_exposures].
  destruct (decide (factor_key e = factor_key t)) as [Ek|Ek].
  2: { split; [|intros (E & _); cbn in E; congruence]. intros H. exfalso. apply Ek. res_simp. breflect.
       unfold factor_key. congruence. }
  pose proof Ek as Ek'; injection Ek' as K1 K2 K3. rewrite !bool_decide_true by done. cbn [negb orb].
  rewrite bind_Ok. setoid_rewrite bind_Ok. split.
  - intros (s & [Hin Hs]%checked_add_Ok & r & Hr & [= <-]). apply IH in Hr as (E1 & E2 & E3 & E4); [|done].
    cbn. fold (scaled_values r) (scaled_values ts) (scaled_values es). rewrite E1, E2, E3, Hs, Ek.
    do 3 (split; [done|]). constructor; [done|]. by rewrite <- E3.
  - intros (E1 & E2 & E3 & E4). destruct rs as [|r rs]; [done|]. cbn in E1, E2, E3, E4.
    injection E1 as E1. unfold factor_key in E2 at 1 3. cbn in E2. injection E2 as F1 F2 F3 E2.
    injection E3 as V E3. apply List.Forall_cons_iff in E4 as [Hin E4].
    exists (dv01_value r). split; [apply checked_add_Ok; split; congruence|].
    exists rs. split; [by apply IH|]. destruct r, t; cbn in *; congruence.
Qed.

(** The same factors with other values. *)
Lemma revalue (ts : list FactorDv01) vs :
  List.length vs = List.length ts ->
  exists us, map factor_key us = map factor_key ts /\ scaled_values us = vs.
Proof.
  revert vs. induction ts as [|t ts IH]; intros [|v vs] E; try discriminate E; [by exists []|].
  injection E as E. destruct (IH vs E) as (us & E1 & E2).
  exists ({| factor_id := factor_id t; factor_definition_hash := factor_definition_hash t;
             dv01_value := from_scaled v; dv01_unit := dv01_unit t |} :: us).
  cbn. rewrite E1. unfold scaled_values in E2. by rewrite E2.
Qed.

(** The running sums of the columns of a table of exposures. *)
Definition column_sums (first : list Z) (rest : list (list Z)) : list Z :=
  foldl (zip_with Z.add) first rest.

Lemma aggregate_loop_Ok ts ps totals :
  try_fold (fun totals position =>
      if negb (List.length (exposures position) =? List.length totals)%nat then Err BrokenLineage
      else add_exposures totals (exposures position)) ts ps = Ok totals <->
  Forall (fun p => map factor_key (exposures p) = map factor_key ts) ps /\
  map factor_key totals = map factor_key ts /\
  scaled_values totals
    = column_sums (scaled_values ts) (map (fun p => scaled_values (exposures p)) ps) /\
  (forall k, (0 < k <= List.length ps)%nat ->
     Forall (fun z => in_i128 z = true)
       (column_sums (scaled_values ts) (take k (map (fun p => scaled_values (exposures p)) ps)))).
Proof.
  revert ts. induction ps as [|p ps IH]; intros ts.
  { cbn. split; [intros [= <-]; do 3 (split; [done|]); lia|]. intros (_ & E1 & E2 & _). f_equal.
    revert totals E1 E2. induction ts as [|t ts IH]; intros [|u us] E1 E2; try done.
    cbn in E1, E2. injection E1 as F1 F2 F3 E1. injection E2 as V E2. f_equal; [|by apply IH].
    destruct t as [? ? [] ?], u as [? ? [] ?]. cbn in *. congruence. }
  cbn [try_fold]. rewrite bind_Ok. setoid_rewrite IH. clear IH.
  destruct (Nat.eqb_spec (List.length (exposures p)) (List.length ts)) as [Hlen|Hlen]; cbn [negb].
  2: { split; [by intros (? & ? & _)|]. intros (Hk & _). exfalso. apply Hlen.
       apply List.Forall_cons_iff in Hk as [Hk _]. apply (f_equal (@List.length _)) in Hk.
       by rewrite !List.length_map in Hk. }
  setoid_rewrite add_exposures_Ok; [|done].
  change (map (fun p => scaled_values (exposures p)) (p :: ps))
    with (scaled_values (exposures p) :: map (fun p => scaled_values (exposures p)) ps).
  change (column_sums ?a (?b :: ?l)) with (column_sums (zip_with Z.add a b) l). split.
  - intros (ts' & (E1 & E2 & E3 & E4) & F1 & F2 & F3 & F4). rewrite E2 in F1, F2. rewrite E3 in F3, F4, E4.
    split; [by constructor|]. split; [done|]. split; [done|].
    intros [|k] Hk; [lia|]. cbn in Hk |- *. destruct k as [|k]; [done|]. apply F4. lia.
  - intros (F1 & F2 & F3 & F4). apply List.Forall_cons_iff in F1 as [E1 F1].
    pose proof (F4 1%nat ltac:(cbn; lia)) as E4. cbn in E4.
    destruct (revalue ts (zip_with Z.add (scaled_values ts) (scaled_values (exposures p)))) as (us & U1 & U2).
    { rewrite length_zip_with. unfold scaled_values. rewrite !List.length_map. lia. }
    exists us. rewrite U1, U2. split; [done|]. split; [done|]. split; [done|]. split; [done|].
    intros k Hk. apply (F4 (S k)). cbn. lia.
Qed.

(** ** Content addresses *)

Definition wf_factor `{UlidCrate} (e : FactorDv01) : Prop :=
  wf_str (factor_id e) /\ wf_hash (factor_definition_hash e) /\ wf_fixed (dv01_value e)
  /\ wf_unit (dv01_unit e).

(** The fields of a position whose parts are well-formed; the constructor refuses empty lists. *)
Definition wf_position `{UlidCrate} (p : PositionKeyRateExposure) : Prop :=
  wf_ulid (position_id p) /\ wf_vref (instrument p) /\ Forall wf_factor (exposures p)
  /\ Forall wf_hash (input_evidence_hashes p) /\ Forall wf_lineage (lineage p).

Section hashing.
Context `{UlidCrate} `{Sha256}.

Lemma short_factor e : wf_factor e -> Forall short (exposure_fields e).
Proof.
  intros (? & ? & ? & ? & ?). unfold exposure_fields.
  split_forall; [by apply short_str|by apply short_hash|apply short_be; lia|by apply short_ulid|apply short_be; lia].
Qed.

Lemma exposure_fields_inj e f : wf_factor e -> wf_factor f -> exposure_fields e = exposure_fields f -> e = f.
Proof.
  intros (_ & _ & ? & ?) (_ & _ & ? & ?) E.
  assert (E0 : factor_id e = factor_id f) by (apply as_bytes_inj; field_at 0%nat E).
  assert (E1 : hash_bytes (factor_definition_hash e) = hash_bytes (factor_definition_hash f))
    by (field_at 1%nat E).
  assert (E2 : scaled (dv01_value e) = scaled (dv01_value f))
    by (apply i128_be_inj; [done..|field_at 2%nat E]).
  assert (E3 : dv01_unit e = dv01_unit f)
    by (apply unit_fields_inj; [done..|exact (f_equal (drop 3) E)]).
  destruct e as [? [] [] ?], f as [? [] [] ?]; cbn in *; congruence.
Qed.

(** What follows the exposures never has sixteen bytes in third place, where an exposure has its
    value. *)
Definition no_exposure (l : list (list byte)) : Prop := forall v, l !! 2%nat = Some v -> List.length v <> 16%nat.

Lemma no_exposure_tail hs refs :
  hs <> [] -> Forall wf_hash hs -> Forall wf_lineage refs ->
  no_exposure (map hash_bytes hs ++ flat_map exact_ref_fields refs).
Proof.
  intros Hne Hhs Hrefs v. unfold wf_hash in Hhs.
  destruct Hhs as [|h1 hs H1 Hhs]; [done|]. destruct Hhs as [|h2 hs H2 Hhs].
  - destruct Hrefs as [|r refs Hr _]; [done|]. cbn. intros Hv%(inj Some). rewrite <- Hv, length_to_be_bytes. lia.
  - destruct Hhs as [|h3 hs H3 _].
    + destruct Hrefs as [|r refs [Hr _] _]; [done|]. cbn. intros [= <-].
      rewrite length_as_bytes, wf_ulid_len by done. lia.
    + cbn. intros [= <-]. lia.
Qed.

Lemma exposures_fields_inj es fs tl tl' :
  Forall wf_factor es -> Forall wf_factor fs -> no_exposure tl -> no_exposure tl' ->
  flat_map exposure_fields es ++ tl = flat_map exposure_fields fs ++ tl' -> es = fs /\ tl = tl'.
Proof.
  intros Hes. revert fs. induction Hes as [|e es He Hes IH]; intros fs Hfs Ht Ht' E.
  - destruct Hfs as [|f fs Hf Hfs]; [done|]. exfalso. cbn in E, Ht. rewrite E in Ht.
    apply (Ht _ eq_refl), length_to_be_bytes.
  - destruct Hfs as [|f fs Hf Hfs].
    { exfalso. cbn in E, Ht'. rewrite <- E in Ht'. apply (Ht' _ eq_refl), length_to_be_bytes. }
    cbn [flat_map] in E. rewrite <- !(assoc_L (++)) in E. apply app_inj_1 in E as [E1 E2]; [|done].
    destruct (IH fs Hfs Ht Ht' E2) as [-> ->]. split; [|done]. f_equal. by apply exposure_fields_inj.
Qed.

Lemma hashes_fields_inj hs ks refs refs' :
  Forall wf_hash hs -> Forall wf_hash ks -> Forall wf_lineage refs -> Forall wf_lineage refs' ->
  map hash_bytes hs ++ flat_map exact_ref_fields refs
  = map hash_bytes ks ++ flat_map exact_ref_fields refs' -> hs = ks /\ refs = refs'.
Proof.
  intros Hhs. revert ks. induction Hhs as [|h hs Hh Hhs IH]; intros ks Hks Hr Hr' E.
  - destruct Hks as [|k ks Hk Hks].
    + split; [done|]. apply (flat_map_fields_inj wf_lineage exact_ref_fields 3); try done; [lia|].
      apply exact_ref_fields_inj.
    + exfalso. destruct Hr as [|r refs [Hu _] _]; [done|]. cbn in E. injection E as E _.
      apply (f_equal (@List.length _)) in E. rewrite length_as_bytes, wf_ulid_len in E by done.
      unfold wf_hash in Hk. lia.
  - destruct Hks as [|k ks Hk Hks].
    + exfalso. destruct Hr' as [|r refs' [Hu _] _]; [done|]. cbn in E. injection E as E _.
      apply (f_equal (@List.length _)) in E. rewrite length_as_bytes, wf_ulid_len in E by done.
      unfold wf_hash in Hh. lia.
    + cbn in E. injection E as E1 E2. destruct (IH ks Hks Hr Hr' E2) as [-> ->].
      destruct h, k; cbn in *; by subst.
Qed.

Lemma short_position p :
  wf_position p -> Forall short (position_fields (position_id p) (instrument p) (exposures p)
    (input_evidence_hashes p) (lineage p)).
Proof.
  intros (? & [] & ? & Hhs & ?). unfold position_fields. apply Forall_app_2.
  { split_forall; [by apply short_ulid|by apply short_ulid|apply short_be; lia]. }
  apply Forall_app_2; [by apply (Forall_flat_map_short wf_factor); [apply short_factor|]|].
  apply Forall_app_2; [|by apply (Forall_flat_map_short wf_lineage); [apply short_exact_ref|]].
  clear -Hhs. induction Hhs; cbn; constructor; [by apply short_hash|done].
Qed.

Lemma position_fields_inj p q :
  wf_position p -> wf_position q -> input_evidence_hashes p <> [] -> input_evidence_hashes q <> [] ->
  position_fields (position_id p) (instrument p) (exposures p) (input_evidence_hashes p) (lineage p)
  = position_fields (position_id q) (instrument q) (exposures q) (input_evidence_hashes q) (lineage q) ->
  position_id p = position_id q /\ instrument p = instrument q /\ exposures p = exposures q
  /\ input_evidence_hashes p = input_evidence_hashes q /\ lineage p = lineage q.
Proof.
  intros (? & ? & ? & ? & ?) (? & ? & ? & ? & ?) Hp Hq E.
  assert (E0 : position_id p = position_id q) by (apply ulid_bytes_inj; field_at 0%nat E).
  assert (E1 : instrument p = instrument q)
    by (apply version_ref_fields_inj; [done..|exact (f_equal (fun l => take 2 (drop 1 l)) E)]).
  pose proof (f_equal (drop 3) E) as E2. unfold position_fields in E2.
  rewrite !drop_app_length' in E2 by done.
  apply exposures_fields_inj in E2 as [E2 E3]; [|done..|by apply no_exposure_tail|by apply no_exposure_tail].
  apply hashes_fields_inj in E3 as [E3 E4]; [done|done..].
Qed.

End hashing.

(** The constructor stores its arguments, and equal hashes mean equal arguments. *)
Lemma position_hash_spec `{UlidCrate} `{Sha256} id inst es hs refs p id' inst' es' hs' refs' q :
  position_key_rate_exposure_new id inst es hs refs = Ok p ->
  position_key_rate_exposure_new id' inst' es' hs' refs' = Ok q ->
  wf_position p -> wf_position q ->
  content_hash p = content_hash q -> p = q \/ collision.
Proof.
  unfold position_key_rate_exposure_new. intros Hp Hq Wp Wq. res_simp. breflect.
  cbn. intros E. unfold hash_position in E. apply digest_inj in E as [E|]; [left|by right].
  apply framed_inj in E; [|exact (short_position _ Wp)|exact (short_position _ Wq)].
  eapply (position_fields_inj _ _ Wp Wq) in E as (E1 & E2 & E3 & E4 & E5); [|done..].
  cbn in E1, E2, E3, E4, E5. by subst.
Qed.

(** ** Properties *)

(** Totals of bond exposures: aggregation succeeds exactly when there is a position, every
    position has the factors of the first one in the same order (identifier, definition hash and
    unit), and every running sum is representable; the totals keep the factors and hold the sums
    over the positions. An empty portfolio is an [InvalidValue]. *)
Theorem aggregate_bond_key_rate_exposures_correct :
  aggregate_bond_key_rate_exposures [] = Err InvalidValue /\
  forall (p : PositionKeyRateExposure) ps totals,
    aggregate_bond_key_rate_exposures (p :: ps) = Ok totals <->
    Forall (fun q => map factor_key (exposures q) = map factor_key (exposures p)) ps /\
    map factor_key totals = map factor_key (exposures p) /\
    scaled_values totals
      = column_sums (scaled_values (exposures p)) (map (fun q => scaled_values (exposures q)) ps) /\
    (forall k, (0 < k <= List.length ps)%nat ->
       Forall (fun z => in_i128 z = true)
         (column_sums (scaled_values (exposures p))
            (take k (map (fun q => scaled_values (exposures q)) ps)))).
Proof. split; [done|]. intros p ps totals. apply aggregate_loop_Ok. Qed.

(** The content hash of a position identifies it: two accepted, well-formed positions with the
    same content hash have the same position, instrument, exposures, evidence and lineage, or their
    encodings are a SHA-256 collision. The encoder writes no element counts, so this rests on the
    widths of the fields telling the three lists apart. *)
Theorem position_content_hash_identifies `{UlidCrate} `{Sha256} id inst es hs refs p id' inst' es' hs' refs' q :
  position_key_rate_exposure_new id inst es hs refs = Ok p ->
  position_key_rate_exposure_new id' inst' es' hs' refs' = Ok q ->
  wf_position p -> wf_position q ->
  content_hash p = content_hash q -> p = q \/ collision.
Proof. apply position_hash_spec. Qed.

Lemma position_content_hash_identifies_witness :
  let e := {| factor_id := "f"; factor_definition_hash := sample_hash x01;
              dv01_value := ONE; dv01_unit := sample_unit |} in
  exists p, @position_key_rate_exposure_new sample_sha256 (sample_id "P") (sample_vref "I") [e]
      [sample_hash x02] [sample_lineage] = Ok p /\ (p = p \/ @collision sample_sha256).
Proof.
  intros e. eexists. split; [reflexivity|].
  eapply (@position_content_hash_identifies sample_ulid_crate sample_sha256
    (sample_id "P") (sample_vref "I") [e] [sample_hash x02] [sample_lineage] _
    (sample_id "P") (sample_vref "I") [e] [sample_hash x02] [sample_lineage]); try reflexivity.
  all: unfold wf_position; cbn; repeat split; split_forall; repeat split; vm_compute; congruence.
Defined.
