(* ===== verification/Portfolio.v ===== *)
(** * The portfolio catalog

    [crates/ficant-domain/src/portfolio/mod.rs]: books, groups, portfolios, benchmarks and metric
    conventions. Each constructor validates its input, recomputes the canonical digest and refuses an
    input whose content hash differs; the accepted value copies the input field by field, so a type
    and its [...Input] share one record here. *)

From Stdlib Require Import ZArith Lia Strings.String.
From Stdlib Require Import Strings.Byte.
From stdpp Require Import base list option strings numbers.
From S2P Require Import Prelude Machine Collections Primitives Codec Concrete.
Open Scope Z_scope.

(** ** Codes and bindings *)

Inductive PortfolioStatus := Active | Suspended | Closed.

Definition status_code (self : PortfolioStatus) : Z :=
  match self with Active => 1 | Suspended => 2 | Closed => 3 end.

Inductive PortfolioMetricWeighting :=
| Unspecified
| MarketValue
| MarketValueTimesModifiedDuration
| Notional.

#[export] Instance PortfolioMetricWeighting_eq_dec : EqDecision PortfolioMetricWeighting.
Proof. solve_decision. Defined.

Definition weighting_code (self : PortfolioMetricWeighting) : Z :=
  match self with
  | Unspecified => 0
  | MarketValue => 1
  | MarketValueTimesModifiedDuration => 2
  | Notional => 3
  end.

Inductive PortfolioDecimalRounding := UnspecifiedRounding | TiesToEven.

#[export] Instance PortfolioDecimalRounding_eq_dec : EqDecision PortfolioDecimalRounding.
Proof. solve_decision. Defined.

Definition rounding_code (self : PortfolioDecimalRounding) : Z :=
  match self with UnspecifiedRounding => 0 | TiesToEven => 1 end.

Record PortfolioSnapshotBinding := {
  snapshot_id : Ulid;
  snapshot_content_hash : ContentHash;
  observed_at : MarketTime;
  visible_at : MarketTime
}.

Definition snapshot_binding_new (snapshot_id : Ulid) (content_hash : ContentHash)
    (observed_at visible_at : MarketTime) : DomainResult PortfolioSnapshotBinding :=
  if ltb (instant visible_at) (instant observed_at) then Err InvalidEffectiveTime
  else Ok {| snapshot_id := snapshot_id; snapshot_content_hash := content_hash;
             observed_at := observed_at; visible_at := visible_at |}.

(** [BenchmarkRef], [PortfolioMetricConventionRef] and [PortfolioPerformanceConventionRef]: an exact
    version with its content hash. *)
Record HashedRef := { reference : VersionRef; reference_hash : ContentHash }.

(** ** Shared validation *)

Definition code_byte (byte : byte) : bool :=
  is_ascii_uppercase byte || is_ascii_digit byte || Byte.eqb byte x2d || Byte.eqb byte x5f
  || Byte.eqb byte x2e.

Definition validate_code (value : string) : DomainResult unit :=
  fail_if (bool_decide (value = EmptyString) || negb (bool_decide (value = trim value))
     || (64 <? str_len value) || negb (is_ascii value)
     || negb (forallb code_byte (as_bytes value))) InvalidValue.

Definition validate_display_name (value : string) : DomainResult unit :=
  fail_if (bool_decide (value = EmptyString) || negb (bool_decide (value = trim value))
     || (256 <? str_len value)) InvalidValue.

Definition validate_effective_period (from to : MarketTime) : DomainResult unit :=
  fail_if (geb (instant from) (instant to)) InvalidEffectiveTime.

Definition require_exact_ref (reference : LineageRef) : DomainResult unit :=
  fail_if (bool_decide (lr_version reference = None) || bool_decide (lr_content_hash reference = None))
    BrokenLineage.

Definition verify_content_hash `{Sha256} (expected : ContentHash) (canonical : list byte)
    : DomainResult unit :=
  fail_if (negb (bool_decide (expected = digest canonical))) ContentHashMismatch.

Definition snapshot_binding_fields `{Chrono} (b : PortfolioSnapshotBinding) : list (list byte) :=
  [as_bytes (ulid_str (snapshot_id b)); hash_bytes (snapshot_content_hash b)]
  ++ market_time_fields (observed_at b) ++ market_time_fields (visible_at b).

Definition hashed_ref_fields (r : HashedRef) : list (list byte) :=
  version_ref_fields (reference r) ++ [hash_bytes (reference_hash r)].

Definition wf_binding `{UlidCrate} (b : PortfolioSnapshotBinding) : Prop :=
  wf_ulid (snapshot_id b) /\ wf_hash (snapshot_content_hash b) /\ wf_time (observed_at b)
  /\ wf_time (visible_at b).

Definition wf_hashed_ref `{UlidCrate} (r : HashedRef) : Prop :=
  wf_vref (reference r) /\ wf_hash (reference_hash r).

Section shared.
Context `{UlidCrate} `{ChronoLaws} `{!ChronoShort}.

Lemma short_binding b : wf_binding b -> Forall short (snapshot_binding_fields b).
Proof. intros (? & ? & ? & ?). unfold snapshot_binding_fields. shorts. Qed.

Lemma short_hashed_ref r : wf_hashed_ref r -> Forall short (hashed_ref_fields r).
Proof. intros []. unfold hashed_ref_fields. shorts. Qed.

Lemma snapshot_binding_fields_inj b c :
  wf_binding b -> wf_binding c -> snapshot_binding_fields b = snapshot_binding_fields c -> b = c.
Proof.
  intros (? & ? & ? & ?) (? & ? & ? & ?) E. unfold snapshot_binding_fields in E.
  assert (E0 : snapshot_id b = snapshot_id c) by (apply ulid_bytes_inj; field_at 0%nat E).
  assert (E1 : hash_bytes (snapshot_content_hash b) = hash_bytes (snapshot_content_hash c))
    by (field_at 1%nat E).
  split_fields E. inj_fields. destruct b as [? [] ? ?], c as [? [] ? ?]; cbn in *; congruence.
Qed.

Lemma hashed_ref_fields_inj r s :
  wf_hashed_ref r -> wf_hashed_ref s -> hashed_ref_fields r = hashed_ref_fields s -> r = s.
Proof.
  intros [] [] E. unfold hashed_ref_fields in E. split_fields E. inj_fields.
  destruct r as [? []], s as [? []]; cbn in *; congruence.
Qed.

End shared.

#[export] Hint Resolve short_binding short_hashed_ref : ficant.

(** One byte per code, and no two constructors share one. *)
Lemma status_code_inj a b : byte_of_Z (status_code a) = byte_of_Z (status_code b) -> a = b.
Proof. by destruct a, b. Qed.

Lemma weighting_code_inj a b : byte_of_Z (weighting_code a) = byte_of_Z (weighting_code b) -> a = b.
Proof. by destruct a, b. Qed.

Lemma rounding_code_inj a b : byte_of_Z (rounding_code a) = byte_of_Z (rounding_code b) -> a = b.
Proof. by destruct a, b. Qed.

Ltac inj_catalog :=
  inj_fields; repeat match goal with
  | H : snapshot_binding_fields _ = snapshot_binding_fields _ |- _ =>
      apply snapshot_binding_fields_inj in H; [|assumption..]
  | H : hashed_ref_fields _ = hashed_ref_fields _ |- _ =>
      apply hashed_ref_fields_inj in H; [|assumption..]
  | H : byte_of_Z (status_code _) = _ |- _ => apply status_code_inj in H
  | H : byte_of_Z (weighting_code _) = _ |- _ => apply weighting_code_inj in H
  | H : byte_of_Z (rounding_code _) = _ |- _ => apply rounding_code_inj in H
  end.

Ltac shorts_catalog :=
  shorts; first [apply short_binding; assumption | apply short_hashed_ref; assumption | idtac].

Lemma verify_content_hash_Ok `{Sha256} h bs u :
  verify_content_hash h bs = Ok u <-> h = digest bs.
Proof. unfold verify_content_hash. by rewrite fail_if_Ok, negb_false_iff, bool_decide_eq_true. Qed.

(** ** Books *)

Module Book.

Record Book := {
  book : VersionRef;
  owner : OwnerRef;
  subject_ref : VersionRef;
  code : string;
  display_name : string;
  status : PortfolioStatus;
  effective_from : MarketTime;
  effective_to : MarketTime;
  content_hash : ContentHash
}.
Definition BookInput : Type := Book.

Definition book_fields `{Chrono} (input : BookInput) : list (list byte) :=
  version_ref_fields (book input) ++ owner_fields (owner input)
  ++ version_ref_fields (subject_ref input)
  ++ [as_bytes (code input); as_bytes (display_name input); [byte_of_Z (status_code (status input))]]
  ++ market_time_fields (effective_from input) ++ market_time_fields (effective_to input).

Definition canonical_book `{Chrono} (input : BookInput) : list byte := framed (book_fields input).

Definition book_new `{Sha256} `{Chrono} (input : BookInput) : DomainResult Book :=
  _ ← validate_code (code input);
  _ ← validate_display_name (display_name input);
  _ ← validate_effective_period (effective_from input) (effective_to input);
  _ ← verify_content_hash (content_hash input) (canonical_book input);
  Ok input.

Definition wf_book `{UlidCrate} (b : Book) : Prop :=
  wf_vref (book b) /\ wf_owner (owner b) /\ wf_vref (subject_ref b) /\ wf_str (code b)
  /\ wf_str (display_name b) /\ wf_time (effective_from b) /\ wf_time (effective_to b).

Section canonical.
Context `{UlidCrate} `{ChronoLaws} `{!ChronoShort}.

Lemma book_fields_short b : wf_book b -> Forall short (book_fields b).
Proof. intros (? & ? & ? & ? & ? & ? & ?). unfold book_fields. shorts_catalog. Qed.

Lemma book_fields_inj a b :
  wf_book a -> wf_book b -> content_hash a = content_hash b -> book_fields a = book_fields b -> a = b.
Proof.
  intros (? & ? & ? & ? & ? & ? & ?) (? & ? & ? & ? & ? & ? & ?) ? E.
  unfold book_fields in E. split_fields E. inj_catalog.
  destruct a, b; cbn in *; congruence.
Qed.

#[export] Instance book_canonical : Canonical Book := {|
  address := content_hash; canonical_fields := book_fields; canonical_wf := wf_book;
  canonical_short := book_fields_short; canonical_inj := book_fields_inj
|}.

End canonical.

Lemma book_new_Ok `{Sha256} `{Chrono} input b :
  book_new input = Ok b <->
  b = input /\ validate_code (code input) = Ok tt /\ validate_display_name (display_name input) = Ok tt
  /\ validate_effective_period (effective_from input) (effective_to input) = Ok tt
  /\ content_hash input = digest (canonical_book input).
Proof.
  unfold book_new. rewrite !guard_Ok, verify_content_hash_Ok, Ok_inj. naive_solver.
Qed.

(** The content hash of an accepted book identifies it. *)
Lemma book_address_identifies `{UlidCrate} `{Sha256} `{ChronoLaws} `{!ChronoShort} i j a b :
  book_new i = Ok a -> book_new j = Ok b -> wf_book a -> wf_book b ->
  content_hash a = content_hash b -> a = b \/ collision.
Proof.
  rewrite !book_new_Ok. intros (-> & _ & _ & _ & Ea) (-> & _ & _ & _ & Eb) Wa Wb E.
  by apply address_identifies.
Qed.

End Book.

(** ** Benchmarks *)

Module Benchmark.

Record Benchmark := {
  benchmark : VersionRef;
  owner : OwnerRef;
  subject_ref : VersionRef;
  code : string;
  display_name : string;
  position_snapshot : PortfolioSnapshotBinding;
  effective_from : MarketTime;
  effective_to : MarketTime;
  content_hash : ContentHash
}.
Definition BenchmarkInput : Type := Benchmark.

Definition benchmark_fields `{Chrono} (input : BenchmarkInput) : list (list byte) :=
  version_ref_fields (benchmark input) ++ owner_fields (owner input)
  ++ version_ref_fields (subject_ref input)
  ++ [as_bytes (code input); as_bytes (display_name input)]
  ++ snapshot_binding_fields (position_snapshot input)
  ++ market_time_fields (effective_from input) ++ market_time_fields (effective_to input).

Definition canonical_benchmark `{Chrono} (input : BenchmarkInput) : list byte :=
  framed (benchmark_fields input).

Definition benchmark_new `{Sha256} `{Chrono} (input : BenchmarkInput) : DomainResult Benchmark :=
  _ ← validate_code (code input);
  _ ← validate_display_name (display_name input);
  _ ← validate_effective_period (effective_from input) (effective_to input);
  _ ← verify_content_hash (content_hash input) (canonical_benchmark input);
  Ok input.

Definition wf_benchmark `{UlidCrate} (b : Benchmark) : Prop :=
  wf_vref (benchmark b) /\ wf_owner (owner b) /\ wf_vref (subject_ref b) /\ wf_str (code b)
  /\ wf_str (display_name b) /\ wf_binding (position_snapshot b)
  /\ wf_time (effective_from b) /\ wf_time (effective_to b).

Section canonical.
Context `{UlidCrate} `{ChronoLaws} `{!ChronoShort}.

Lemma benchmark_fields_short b : wf_benchmark b -> Forall short (benchmark_fields b).
Proof. intros (? & ? & ? & ? & ? & ? & ? & ?). unfold benchmark_fields. shorts_catalog. Qed.

Lemma benchmark_fields_inj a b :
  wf_benchmark a -> wf_benchmark b -> content_hash a = content_hash b ->
  benchmark_fields a = benchmark_fields b -> a = b.
Proof.
  intros (? & ? & ? & ? & ? & ? & ? & ?) (? & ? & ? & ? & ? & ? & ? & ?) ? E.
  unfold benchmark_fields in E. split_fields E. inj_catalog. destruct a, b; cbn in *; congruence.
Qed.

#[export] Instance benchmark_canonical : Canonical Benchmark := {|
  address := content_hash; canonical_fields := benchmark_fields; canonical_wf := wf_benchmark;
  canonical_short := benchmark_fields_short; canonical_inj := benchmark_fields_inj
|}.

End canonical.

Lemma benchmark_new_Ok `{Sha256} `{Chrono} input b :
  benchmark_new input = Ok b <->
  b = input /\ validate_code (code input) = Ok tt /\ validate_display_name (display_name input) = Ok tt
  /\ validate_effective_period (effective_from input) (effective_to input) = Ok tt
  /\ content_hash input = digest (canonical_benchmark input).
Proof. unfold benchmark_new. rewrite !guard_Ok, verify_content_hash_Ok, Ok_inj. naive_solver. Qed.

End Benchmark.

(** ** Groups *)

Module Group.

Record PortfolioGroup := {
  group : VersionRef;
  owner : OwnerRef;
  subject_ref : VersionRef;
  book : LineageRef;
  parent_group : option LineageRef;
  code : string;
  display_name : string;
  status : PortfolioStatus;
  effective_from : MarketTime;
  effective_to : MarketTime;
  content_hash : ContentHash
}.
Definition PortfolioGroupInput : Type := PortfolioGroup.

Definition parent_fields (parent : option LineageRef) : list (list byte) :=
  match parent with
  | Some parent => [[byte_of_Z 1]] ++ exact_ref_fields parent
  | None => [[byte_of_Z 0]]
  end.

Definition group_fields `{Chrono} (input : PortfolioGroupInput) : list (list byte) :=
  version_ref_fields (group input) ++ owner_fields (owner input)
  ++ version_ref_fields (subject_ref input) ++ exact_ref_fields (book input)
  ++ parent_fields (parent_group input)
  ++ [as_bytes (code input); as_bytes (display_name input); [byte_of_Z (status_code (status input))]]
  ++ market_time_fields (effective_from input) ++ market_time_fields (effective_to input).

Definition canonical_group `{Chrono} (input : PortfolioGroupInput) : list byte :=
  framed (group_fields input).

Definition group_new `{Sha256} `{Chrono} (input : PortfolioGroupInput) : DomainResult PortfolioGroup :=
  _ ← validate_code (code input);
  _ ← validate_display_name (display_name input);
  _ ← validate_effective_period (effective_from input) (effective_to input);
  _ ← require_exact_ref (book input);
  _ ← match parent_group input with
      | Some parent =>
          _ ← require_exact_ref parent;
          fail_if (bool_decide (object_id parent = vr_id (group input))) BrokenLineage
      | None => Ok tt
      end;
  _ ← verify_content_hash (content_hash input) (canonical_group input);
  Ok input.

Definition wf_group `{UlidCrate} (b : PortfolioGroup) : Prop :=
  wf_vref (group b) /\ wf_owner (owner b) /\ wf_vref (subject_ref b) /\ wf_lineage (book b)
  /\ from_option wf_lineage True (parent_group b) /\ wf_str (code b) /\ wf_str (display_name b)
  /\ wf_time (effective_from b) /\ wf_time (effective_to b).

Section canonical.
Context `{UlidCrate} `{ChronoLaws} `{!ChronoShort}.

Lemma short_parent p : from_option wf_lineage True p -> Forall short (parent_fields p).
Proof. destruct p as [p|]; cbn [from_option]; intros; unfold parent_fields; shorts. Qed.

Lemma group_fields_short b : wf_group b -> Forall short (group_fields b).
Proof.
  intros (? & ? & ? & ? & ? & ? & ? & ? & ?). unfold group_fields. shorts_catalog. by apply short_parent.
Qed.

(** The flag byte before an optional parent tells its presence. *)
Lemma parent_fields_inj p q l m :
  from_option wf_lineage True p -> from_option wf_lineage True q ->
  parent_fields p ++ l = parent_fields q ++ m -> p = q /\ l = m.
Proof.
  destruct p as [p|], q as [q|]; cbn [from_option]; intros ? ? E; unfold parent_fields in E;
    rewrite <- ?(assoc_L (++)) in E; (apply app_inj_1 in E; [destruct E as [F E]|reflexivity]); try done.
  apply app_inj_1 in E as [E ->]; [|done]. by apply exact_ref_fields_inj in E as ->.
Qed.

Lemma group_fields_inj a b :
  wf_group a -> wf_group b -> content_hash a = content_hash b -> group_fields a = group_fields b -> a = b.
Proof.
  intros (? & ? & ? & ? & ? & ? & ? & ? & ?) (? & ? & ? & ? & ? & ? & ? & ? & ?) ? E.
  unfold group_fields in E. do 4 (let F := fresh "F" in
    apply app_inj_1 in E; [destruct E as [F E]|reflexivity]).
  apply parent_fields_inj in E as [? E]; [|done..].
  split_fields E. inj_catalog. destruct a, b; cbn in *; congruence.
Qed.

#[export] Instance group_canonical : Canonical PortfolioGroup := {|
  address := content_hash; canonical_fields := group_fields; canonical_wf := wf_group;
  canonical_short := group_fields_short; canonical_inj := group_fields_inj
|}.

End canonical.

Lemma group_new_Ok `{Sha256} `{Chrono} input b :
  group_new input = Ok b <->
  b = input /\ validate_code (code input) = Ok tt /\ validate_display_name (display_name input) = Ok tt
  /\ validate_effective_period (effective_from input) (effective_to input) = Ok tt
  /\ require_exact_ref (book input) = Ok tt
  /\ (forall p, parent_group input = Some p ->
        require_exact_ref p = Ok tt /\ object_id p <> vr_id (group input))
  /\ content_hash input = digest (canonical_group input).
Proof.
  unfold group_new. rewrite !guard_Ok, verify_content_hash_Ok, Ok_inj.
  destruct (parent_group input) as [p|]; [|naive_solver].
  rewrite guard_Ok, fail_if_Ok, bool_decide_eq_false. naive_solver.
Qed.

End Group.

(** ** Portfolios *)

Module Portfolio.

Record Portfolio := {
  portfolio : VersionRef;
  owner : OwnerRef;
  subject_ref : VersionRef;
  book : LineageRef;
  group : LineageRef;
  code : string;
  display_name : string;
  status : PortfolioStatus;
  position_snapshot : PortfolioSnapshotBinding;
  benchmark : HashedRef;
  metric_convention : HashedRef;
  effective_from : MarketTime;
  effective_to : MarketTime;
  content_hash : ContentHash
}.
Definition PortfolioInput : Type := Portfolio.

Definition portfolio_fields `{Chrono} (input : PortfolioInput) : list (list byte) :=
  version_ref_fields (portfolio input) ++ owner_fields (owner input)
  ++ version_ref_fields (subject_ref input)
  ++ exact_ref_fields (book input) ++ exact_ref_fields (group input)
  ++ [as_bytes (code input); as_bytes (display_name input); [byte_of_Z (status_code (status input))]]
  ++ snapshot_binding_fields (position_snapshot input)
  ++ hashed_ref_fields (benchmark input) ++ hashed_ref_fields (metric_convention input)
  ++ market_time_fields (effective_from input) ++ market_time_fields (effective_to input).

Definition canonical_portfolio `{Chrono} (input : PortfolioInput) : list byte :=
  framed (portfolio_fields input).

Definition portfolio_new `{Sha256} `{Chrono} (input : PortfolioInput) : DomainResult Portfolio :=
  _ ← validate_code (code input);
  _ ← validate_display_name (display_name input);
  _ ← validate_effective_period (effective_from input) (effective_to input);
  _ ← require_exact_ref (book input);
  _ ← require_exact_ref (group input);
  _ ← verify_content_hash (content_hash input) (canonical_portfolio input);
  Ok input.

Definition wf_portfolio `{UlidCrate} (b : Portfolio) : Prop :=
  wf_vref (portfolio b) /\ wf_owner (owner b) /\ wf_vref (subject_ref b) /\ wf_lineage (book b)
  /\ wf_lineage (group b) /\ wf_str (code b) /\ wf_str (display_name b)
  /\ wf_binding (position_snapshot b) /\ wf_hashed_ref (benchmark b)
  /\ wf_hashed_ref (metric_convention b) /\ wf_time (effective_from b) /\ wf_time (effective_to b).

Section canonical.
Context `{UlidCrate} `{ChronoLaws} `{!ChronoShort}.

Lemma portfolio_fields_short b : wf_portfolio b -> Forall short (portfolio_fields b).
Proof.
  intros (? & ? & ? & ? & ? & ? & ? & ? & ? & ? & ? & ?). unfold portfolio_fields. shorts_catalog.
Qed.

Lemma portfolio_fields_inj a b :
  wf_portfolio a -> wf_portfolio b -> content_hash a = content_hash b ->
  portfolio_fields a = portfolio_fields b -> a = b.
Proof.
  intros (? & ? & ? & ? & ? & ? & ? & ? & ? & ? & ? & ?)
    (? & ? & ? & ? & ? & ? & ? & ? & ? & ? & ? & ?) ? E.
  unfold portfolio_fields in E. split_fields E. inj_catalog. destruct a, b; cbn in *; congruence.
Qed.

#[export] Instance portfolio_canonical : Canonical Portfolio := {|
  address := content_hash; canonical_fields := portfolio_fields; canonical_wf := wf_portfolio;
  canonical_short := portfolio_fields_short; canonical_inj := portfolio_fields_inj
|}.

End canonical.

Lemma portfolio_new_Ok `{Sha256} `{Chrono} input b :
  portfolio_new input = Ok b <->
  b = input /\ validate_code (code input) = Ok tt /\ validate_display_name (display_name input) = Ok tt
  /\ validate_effective_period (effective_from input) (effective_to input) = Ok tt
  /\ require_exact_ref (book input) = Ok tt /\ require_exact_ref (group input) = Ok tt
  /\ content_hash input = digest (canonical_portfolio input).
Proof. unfold portfolio_new. rewrite !guard_Ok, verify_content_hash_Ok, Ok_inj. naive_solver. Qed.

Lemma portfolio_address_identifies `{UlidCrate} `{Sha256} `{ChronoLaws} `{!ChronoShort} i j a b :
  portfolio_new i = Ok a -> portfolio_new j = Ok b -> wf_portfolio a -> wf_portfolio b ->
  content_hash a = content_hash b -> a = b \/ collision.
Proof.
  rewrite !portfolio_new_Ok. intros (-> & _ & _ & _ & _ & _ & Ea) (-> & _ & _ & _ & _ & _ & Eb) Wa Wb E.
  by apply address_identifies.
Qed.

End Portfolio.

(** ** Metric conventions *)

Module MetricConvention.

Definition PORTFOLIO_METRIC_CONVENTION_SCHEMA_V1 : string := "ficant.portfolio-metric-convention.v1".

Record PortfolioMetricConvention := {
  convention : VersionRef;
  owner : OwnerRef;
  schema_id : string;
  ytm_weighting : PortfolioMetricWeighting;
  duration_weighting : PortfolioMetricWeighting;
  convexity_weighting : PortfolioMetricWeighting;
  coupon_weighting : PortfolioMetricWeighting;
  remaining_life_weighting : PortfolioMetricWeighting;
  rounding : PortfolioDecimalRounding;
  freshness_limit_seconds : Z;
  effective_from : MarketTime;
  effective_to : MarketTime;
  content_hash : ContentHash
}.
Definition PortfolioMetricConventionInput : Type := PortfolioMetricConvention.

Definition weighting_fields (input : PortfolioMetricConventionInput) : list (list byte) :=
  map (fun weighting => [byte_of_Z (weighting_code weighting)])
    [ytm_weighting input; duration_weighting input; convexity_weighting input;
     coupon_weighting input; remaining_life_weighting input].

Definition convention_fields `{Chrono} (input : PortfolioMetricConventionInput) : list (list byte) :=
  version_ref_fields (convention input) ++ owner_fields (owner input)
  ++ [as_bytes (schema_id input)] ++ weighting_fields input
  ++ [[byte_of_Z (rounding_code (rounding input))]; to_be_bytes 8 (freshness_limit_seconds input)]
  ++ market_time_fields (effective_from input) ++ market_time_fields (effective_to input).

Definition canonical_convention `{Chrono} (input : PortfolioMetricConventionInput) : list byte :=
  framed (convention_fields input).

Definition metric_convention_new `{Sha256} `{Chrono} (input : PortfolioMetricConventionInput)
    : DomainResult PortfolioMetricConvention :=
  _ ← validate_effective_period (effective_from input) (effective_to input);
  _ ← fail_if
        (negb (bool_decide (schema_id input = PORTFOLIO_METRIC_CONVENTION_SCHEMA_V1))
         || negb (bool_decide (ytm_weighting input = MarketValueTimesModifiedDuration))
         || negb (bool_decide (duration_weighting input = MarketValue))
         || negb (bool_decide (convexity_weighting input = MarketValue))
         || negb (bool_decide (coupon_weighting input = Notional))
         || negb (bool_decide (remaining_life_weighting input = Notional))
         || negb (bool_decide (rounding input = TiesToEven))
         || (freshness_limit_seconds input =? 0)) InvalidValue;
  _ ← verify_content_hash (content_hash input) (canonical_convention input);
  Ok input.

Definition wf_convention `{UlidCrate} (b : PortfolioMetricConvention) : Prop :=
  wf_vref (convention b) /\ wf_owner (owner b) /\ wf_str (schema_id b)
  /\ in_u64 (freshness_limit_seconds b) = true /\ wf_time (effective_from b) /\ wf_time (effective_to b).

Section canonical.
Context `{UlidCrate} `{ChronoLaws} `{!ChronoShort}.

Lemma convention_fields_short b : wf_convention b -> Forall short (convention_fields b).
Proof.
  intros (? & ? & ? & ? & ? & ?). unfold convention_fields, weighting_fields. cbn [map]. shorts_catalog.
Qed.

Lemma convention_fields_inj a b :
  wf_convention a -> wf_convention b -> content_hash a = content_hash b ->
  convention_fields a = convention_fields b -> a = b.
Proof.
  intros (? & ? & ? & ? & ? & ?) (? & ? & ? & ? & ? & ?) ? E.
  unfold convention_fields, weighting_fields in E. cbn [map] in E. split_fields E. inj_catalog.
  destruct a, b; cbn in *; congruence.
Qed.

#[export] Instance convention_canonical : Canonical PortfolioMetricConvention := {|
  address := content_hash; canonical_fields := convention_fields; canonical_wf := wf_convention;
  canonical_short := convention_fields_short; canonical_inj := convention_fields_inj
|}.

End canonical.

Lemma metric_convention_new_Ok `{Sha256} `{Chrono} input b :
  metric_convention_new input = Ok b <->
  b = input /\ validate_effective_period (effective_from input) (effective_to input) = Ok tt
  /\ schema_id input = PORTFOLIO_METRIC_CONVENTION_SCHEMA_V1
  /\ ytm_weighting input = MarketValueTimesModifiedDuration
  /\ duration_weighting input = MarketValue /\ convexity_weighting input = MarketValue
  /\ coupon_weighting input = Notional /\ remaining_life_weighting input = Notional
  /\ rounding input = TiesToEven /\ freshness_limit_seconds input <> 0
  /\ content_hash input = digest (canonical_convention input).
Proof.
  unfold metric_convention_new. rewrite !guard_Ok, verify_content_hash_Ok, Ok_inj, fail_if_Ok.
  rewrite !orb_false_iff, !negb_false_iff, !bool_decide_eq_true, Z.eqb_neq. naive_solver.
Qed.

End MetricConvention.

(** ** Properties *)

Module Catalog.

Definition sample_binding : PortfolioSnapshotBinding := {|
  snapshot_id := sample_id "S"; snapshot_content_hash := sample_hash x05;
  observed_at := sample_time 10; visible_at := sample_time 20
|}.

Definition sample_exact_ref (s : string) : LineageRef := {|
  object_id := sample_id s; lr_version := Some (mk_version 1);
  lr_content_hash := Some (sample_hash x06)
|}.

Definition sample_hashed_ref : HashedRef := {|
  reference := sample_vref "R"; reference_hash := sample_hash x07
|}.

Definition sample_portfolio_with (h : ContentHash) : Portfolio.Portfolio := {|
  Portfolio.portfolio := sample_vref "P"; Portfolio.owner := sample_owner;
  Portfolio.subject_ref := sample_vref "J"; Portfolio.book := sample_exact_ref "B";
  Portfolio.group := sample_exact_ref "G"; Portfolio.code := "RATES-1";
  Portfolio.display_name := "Rates one"; Portfolio.status := Active;
  Portfolio.position_snapshot := sample_binding; Portfolio.benchmark := sample_hashed_ref;
  Portfolio.metric_convention := sample_hashed_ref; Portfolio.effective_from := sample_time 0;
  Portfolio.effective_to := sample_time 100; Portfolio.content_hash := h
|}.

(** The hash does not enter the fields, so hashing and storing the result gives a valid input. *)
Definition sample_portfolio : Portfolio.Portfolio :=
  sample_portfolio_with (@digest sample_sha256
    (@Portfolio.canonical_portfolio sample_chrono (sample_portfolio_with (sample_hash x00)))).

Definition sample_group_with (h : ContentHash) : Group.PortfolioGroup := {|
  Group.group := sample_vref "G"; Group.owner := sample_owner; Group.subject_ref := sample_vref "J";
  Group.book := sample_exact_ref "B"; Group.parent_group := Some (sample_exact_ref "H");
  Group.code := "DESK.A"; Group.display_name := "Desk A"; Group.status := Suspended;
  Group.effective_from := sample_time 0; Group.effective_to := sample_time 100;
  Group.content_hash := h
|}.

Definition sample_group : Group.PortfolioGroup :=
  sample_group_with (@digest sample_sha256
    (@Group.canonical_group sample_chrono (sample_group_with (sample_hash x00)))).

Example sample_portfolio_accepted :
  is_ok (@Portfolio.portfolio_new sample_sha256 sample_chrono sample_portfolio) = true.
Proof. vm_compute. reflexivity. Qed.

(** The content hash of a portfolio identifies it: two accepted, well-formed portfolios with
    the same content hash agree on every field (identity, owner, subject, exact book and group, code,
    name, status, snapshot, benchmark, convention and period), or exhibit a SHA-256 collision. *)
Theorem portfolio_content_hash_identifies `{UlidCrate} `{Sha256} `{ChronoLaws} `{!ChronoShort} i j a b :
  Portfolio.portfolio_new i = Ok a -> Portfolio.portfolio_new j = Ok b ->
  Portfolio.wf_portfolio a -> Portfolio.wf_portfolio b ->
  Portfolio.content_hash a = Portfolio.content_hash b -> a = b \/ collision.
Proof. apply Portfolio.portfolio_address_identifies. Qed.

Lemma sample_time_wf z : in_i64 z = true -> wf_time (sample_time z).
Proof.
  intros Hz. unfold wf_time, wf_datetime, wf_date, wf_str. cbn. repeat (split; [done || lia|]). done.
Qed.

Lemma sample_portfolio_wf : @Portfolio.wf_portfolio sample_ulid_crate sample_portfolio.
Proof.
  unfold Portfolio.wf_portfolio. cbn [sample_portfolio sample_portfolio_with Portfolio.portfolio
    Portfolio.owner Portfolio.subject_ref Portfolio.book Portfolio.group Portfolio.code
    Portfolio.display_name Portfolio.position_snapshot Portfolio.benchmark
    Portfolio.metric_convention Portfolio.effective_from Portfolio.effective_to].
  split; [by split|]. split; [by split|]. split; [by split|]. split; [by split|].
  split; [by split|]. split; [done|]. split; [done|].
  split; [split; [done|split; [done|split; by apply sample_time_wf]]|].
  split; [split; [by split|done]|]. split; [split; [by split|done]|].
  split; by apply sample_time_wf.
Qed.

Lemma portfolio_content_hash_identifies_witness :
  sample_portfolio = sample_portfolio \/ @collision sample_sha256.
Proof.
  apply (@portfolio_content_hash_identifies sample_ulid_crate sample_sha256 sample_chrono
    sample_chrono_laws sample_chrono_short sample_portfolio sample_portfolio).
  - vm_compute. reflexivity.
  - vm_compute. reflexivity.
  - apply sample_portfolio_wf.
  - apply sample_portfolio_wf.
  - reflexivity.
Defined.

(** Acceptance of a portfolio group: the constructor returns its input exactly when code, name
    and period are valid, the book and the optional parent are exact references, the group is not
    its own parent, and the content hash is the digest of the canonical bytes. *)
Theorem group_new_correct `{Sha256} `{Chrono} input b :
  Group.group_new input = Ok b <->
  b = input /\ validate_code (Group.code input) = Ok tt
  /\ validate_display_name (Group.display_name input) = Ok tt
  /\ cmp (instant (Group.effective_from input)) (instant (Group.effective_to input)) = Lt
  /\ (lr_version (Group.book input) <> None /\ lr_content_hash (Group.book input) <> None)
  /\ (forall p, Group.parent_group input = Some p ->
        lr_version p <> None /\ lr_content_hash p <> None /\ object_id p <> vr_id (Group.group input))
  /\ Group.content_hash input = digest (Group.canonical_group input).
Proof.
  rewrite Group.group_new_Ok. unfold validate_effective_period, require_exact_ref.
  rewrite !fail_if_Ok, geb_spec, negb_false_iff, ltb_spec, orb_false_iff, !bool_decide_eq_false.
  setoid_rewrite fail_if_Ok. setoid_rewrite orb_false_iff. setoid_rewrite bool_decide_eq_false.
  naive_solver.
Qed.

End Catalog.
