(* ===== verification/Performance.v ===== *)
(** * Portfolio performance

    [crates/ficant-domain/src/portfolio/performance.rs]: performance conventions, valuation and
    benchmark-level snapshots, and the daily time-weighted return series. *)

From Stdlib Require Import ZArith Lia Strings.String.
From Stdlib Require Import Strings.Byte.
From stdpp Require Import base list option strings numbers.
From S2P Require Import Prelude Machine Collections Primitives FixedDecimal Codec Concrete Portfolio.
Open Scope Z_scope.

(** ** Conventions *)

Module PerformanceConvention.

Definition PORTFOLIO_PERFORMANCE_CONVENTION_SCHEMA_V1 : string :=
  "ficant.portfolio-performance-convention.v1".

Inductive PortfolioPerformanceReturnMethod := DailyTimeWeighted.
Inductive PortfolioExternalFlowTiming := EndOfDay.
Inductive PortfolioValuationFrequency := CalendarSessionClose.

Definition return_method_code (self : PortfolioPerformanceReturnMethod) : Z :=
  match self with DailyTimeWeighted => 1 end.
Definition flow_timing_code (self : PortfolioExternalFlowTiming) : Z :=
  match self with EndOfDay => 1 end.
Definition valuation_frequency_code (self : PortfolioValuationFrequency) : Z :=
  match self with CalendarSessionClose => 1 end.

Record PortfolioPerformanceConvention := {
  convention : VersionRef;
  owner : OwnerRef;
  schema_id : string;
  calendar : LineageRef;
  return_method : PortfolioPerformanceReturnMethod;
  flow_timing : PortfolioExternalFlowTiming;
  valuation_frequency : PortfolioValuationFrequency;
  rounding : PortfolioDecimalRounding;
  effective_from : MarketTime;
  effective_to : MarketTime;
  content_hash : ContentHash
}.
Definition PortfolioPerformanceConventionInput : Type := PortfolioPerformanceConvention.

Definition performance_convention_fields `{Chrono} (input : PortfolioPerformanceConventionInput)
    : list (list byte) :=
  version_ref_fields (convention input) ++ owner_fields (owner input)
  ++ [as_bytes (schema_id input)] ++ exact_ref_fields (calendar input)
  ++ [[byte_of_Z (return_method_code (return_method input))];
      [byte_of_Z (flow_timing_code (flow_timing input))];
      [byte_of_Z (valuation_frequency_code (valuation_frequency input))];
      [byte_of_Z (rounding_code (rounding input))]]
  ++ market_time_fields (effective_from input) ++ market_time_fields (effective_to input).

Definition canonical_performance_convention `{Chrono} (input : PortfolioPerformanceConventionInput)
    : list byte := framed (performance_convention_fields input).

(** The tests of [return_method], [flow_timing] and [valuation_frequency] against their only values
    are always passed. *)
Definition performance_convention_new `{Sha256} `{Chrono} (input : PortfolioPerformanceConventionInput)
    : DomainResult PortfolioPerformanceConvention :=
  _ ← validate_effective_period (effective_from input) (effective_to input);
  _ ← require_exact_ref (calendar input);
  _ ← fail_if
        (negb (bool_decide (schema_id input = PORTFOLIO_PERFORMANCE_CONVENTION_SCHEMA_V1))
         || match return_method input with DailyTimeWeighted => false end
         || match flow_timing input with EndOfDay => false end
         || match valuation_frequency input with CalendarSessionClose => false end
         || negb (bool_decide (rounding input = TiesToEven))) InvalidValue;
  _ ← verify_content_hash (content_hash input) (canonical_performance_convention input);
  Ok input.

End PerformanceConvention.

(** ** Valuation snapshots *)

Module Valuation.

Record PortfolioValuationSnapshot := {
  snapshot_id : Ulid;
  owner : OwnerRef;
  subject_ref : VersionRef;
  portfolio : LineageRef;
  position_snapshot : PortfolioSnapshotBinding;
  performance_convention : HashedRef;
  valuation_at : MarketTime;
  visible_at : MarketTime;
  currency_unit : UnitRef;
  gross_assets : FixedDecimal;
  liabilities : FixedDecimal;
  net_asset_value : FixedDecimal;
  net_external_flow : FixedDecimal;
  content_hash : ContentHash
}.
Definition PortfolioValuationSnapshotInput : Type := PortfolioValuationSnapshot.

Definition amount_fields (amounts : list FixedDecimal) : list (list byte) :=
  map (fun value => to_be_bytes 16 (scaled value)) amounts.

Definition valuation_fields `{Chrono} (input : PortfolioValuationSnapshotInput) : list (list byte) :=
  [as_bytes (ulid_str (snapshot_id input))] ++ owner_fields (owner input)
  ++ version_ref_fields (subject_ref input) ++ exact_ref_fields (portfolio input)
  ++ snapshot_binding_fields (position_snapshot input)
  ++ hashed_ref_fields (performance_convention input)
  ++ market_time_fields (valuation_at input) ++ market_time_fields (visible_at input)
  ++ unit_fields (currency_unit input)
  ++ amount_fields [gross_assets input; liabilities input; net_asset_value input;
                    net_external_flow input].

Definition canonical_valuation_snapshot `{Chrono} (input : PortfolioValuationSnapshotInput)
    : list byte := framed (valuation_fields input).

(** The guards of the constructor in the order of evaluation; the subtraction is the last one. *)
Definition valuation_new `{Sha256} `{Chrono} (input : PortfolioValuationSnapshotInput)
    : DomainResult PortfolioValuationSnapshot :=
  _ ← require_exact_ref (portfolio input);
  if ltb (instant (visible_at input)) (instant (valuation_at input))
     || ltb (instant (valuation_at input)) (instant (observed_at (position_snapshot input)))
     || ltb (instant (visible_at input)) (instant (Portfolio.visible_at (position_snapshot input)))
     || negb (is_non_negative (gross_assets input)) || negb (is_non_negative (liabilities input))
     || negb (is_positive (net_asset_value input))
  then Err InvalidValue else
  net ← checked_sub (gross_assets input) (liabilities input);
  if negb (bool_decide (net = net_asset_value input)) then Err InvalidValue else
  _ ← verify_content_hash (content_hash input) (canonical_valuation_snapshot input);
  Ok input.

Definition wf_valuation `{UlidCrate} (v : PortfolioValuationSnapshot) : Prop :=
  wf_ulid (snapshot_id v) /\ wf_owner (owner v) /\ wf_vref (subject_ref v)
  /\ wf_lineage (portfolio v) /\ wf_binding (position_snapshot v)
  /\ wf_hashed_ref (performance_convention v) /\ wf_time (valuation_at v) /\ wf_time (visible_at v)
  /\ wf_unit (currency_unit v) /\ wf_fixed (gross_assets v) /\ wf_fixed (liabilities v)
  /\ wf_fixed (net_asset_value v) /\ wf_fixed (net_external_flow v).

Section canonical.
Context `{UlidCrate} `{ChronoLaws} `{!ChronoShort}.

Lemma valuation_fields_short v : wf_valuation v -> Forall short (valuation_fields v).
Proof.
  intros (? & ? & ? & ? & ? & ? & ? & ? & ? & ? & ? & ? & ?).
  unfold valuation_fields, amount_fields. cbn [map]. shorts_catalog.
Qed.

Lemma valuation_fields_inj v w :
  wf_valuation v -> wf_valuation w -> content_hash v = content_hash w ->
  valuation_fields v = valuation_fields w -> v = w.
Proof.
  intros (? & ? & ? & ? & ? & ? & ? & ? & ? & ? & ? & ? & ?)
    (? & ? & ? & ? & ? & ? & ? & ? & ? & ? & ? & ? & ?) ? E.
  unfold valuation_fields, amount_fields in E. cbn [map] in E. split_fields E. inj_catalog.
  destruct v as [? ? ? ? ? ? ? ? ? [] [] [] [] ?], w as [? ? ? ? ? ? ? ? ? [] [] [] [] ?].
  cbn in *; congruence.
Qed.

#[export] Instance valuation_canonical : Canonical PortfolioValuationSnapshot := {|
  address := content_hash; canonical_fields := valuation_fields; canonical_wf := wf_valuation;
  canonical_short := valuation_fields_short; canonical_inj := valuation_fields_inj
|}.

End canonical.

Lemma valuation_new_Ok `{Sha256} `{Chrono} input v :
  valuation_new input = Ok v <->
  v = input /\ require_exact_ref (portfolio input) = Ok tt
  /\ ltb (instant (visible_at input)) (instant (valuation_at input)) = false
  /\ ltb (instant (valuation_at input)) (instant (observed_at (position_snapshot input))) = false
  /\ ltb (instant (visible_at input)) (instant (Portfolio.visible_at (position_snapshot input))) = false
  /\ 0 <= scaled (gross_assets input) /\ 0 <= scaled (liabilities input)
  /\ 0 < scaled (net_asset_value input)
  /\ in_i128 (scaled (gross_assets input) - scaled (liabilities input)) = true
  /\ scaled (net_asset_value input) = scaled (gross_assets input) - scaled (liabilities input)
  /\ content_hash input = digest (canonical_valuation_snapshot input).
Proof.
  unfold valuation_new. rewrite guard_Ok.
  set (c1 := ltb (instant (visible_at input)) _). set (c2 := ltb (instant (valuation_at input)) _).
  set (c3 := ltb (instant (visible_at input)) (instant (Portfolio.visible_at _))).
  split.
  - intros [? Hrun]. repeat res_step. breflect. unfold is_non_negative, is_positive in *. breflect.
    repeat match goal with
    | H : verify_content_hash _ _ = Ok _ |- _ => apply verify_content_hash_Ok in H
    | H : checked_sub _ _ = Ok _ |- _ => apply checked_sub_Ok in H as [? ?]
    end. subst. naive_solver.
  - intros (-> & ? & -> & -> & -> & ? & ? & ? & ? & Hnet & ?). split; [done|].
    unfold is_non_negative, is_positive. rewrite !(proj2 (Z.leb_le _ _)), (proj2 (Z.ltb_lt _ _)) by done.
    cbn [negb orb]. rewrite (proj2 (checked_sub_Ok _ _ (net_asset_value input))) by done. cbn.
    rewrite bool_decide_true by done. cbn. rewrite guard_Ok, verify_content_hash_Ok. done.
Qed.

Lemma valuation_address_identifies `{UlidCrate} `{Sha256} `{ChronoLaws} `{!ChronoShort} i j v w :
  valuation_new i = Ok v -> valuation_new j = Ok w -> wf_valuation v -> wf_valuation w ->
  content_hash v = content_hash w -> v = w \/ collision.
Proof.
  rewrite !valuation_new_Ok.
  intros (-> & _ & _ & _ & _ & _ & _ & _ & _ & _ & Ev) (-> & _ & _ & _ & _ & _ & _ & _ & _ & _ & Ew) Wv Ww E.
  by apply address_identifies.
Qed.

End Valuation.

(** ** Benchmark levels *)

Module BenchmarkLevel.

Record BenchmarkLevelSnapshot := {
  snapshot_id : Ulid;
  owner : OwnerRef;
  subject_ref : VersionRef;
  benchmark : LineageRef;
  valuation_at : MarketTime;
  visible_at : MarketTime;
  level_unit : UnitRef;
  level : FixedDecimal;
  content_hash : ContentHash
}.
Definition BenchmarkLevelSnapshotInput : Type := BenchmarkLevelSnapshot.

Definition benchmark_level_fields `{Chrono} (input : BenchmarkLevelSnapshotInput) : list (list byte) :=
  [as_bytes (ulid_str (snapshot_id input))] ++ owner_fields (owner input)
  ++ version_ref_fields (subject_ref input) ++ exact_ref_fields (benchmark input)
  ++ market_time_fields (valuation_at input) ++ market_time_fields (visible_at input)
  ++ unit_fields (level_unit input) ++ [to_be_bytes 16 (scaled (level input))].

Definition canonical_benchmark_level `{Chrono} (input : BenchmarkLevelSnapshotInput) : list byte :=
  framed (benchmark_level_fields input).

Definition benchmark_level_new `{Sha256} `{Chrono} (input : BenchmarkLevelSnapshotInput)
    : DomainResult BenchmarkLevelSnapshot :=
  _ ← require_exact_ref (benchmark input);
  _ ← fail_if (ltb (instant (visible_at input)) (instant (valuation_at input))
               || negb (is_positive (level input))) InvalidValue;
  _ ← verify_content_hash (content_hash input) (canonical_benchmark_level input);
  Ok input.

Definition wf_benchmark_level `{UlidCrate} (v : BenchmarkLevelSnapshot) : Prop :=
  wf_ulid (snapshot_id v) /\ wf_owner (owner v) /\ wf_vref (subject_ref v)
  /\ wf_lineage (benchmark v) /\ wf_time (valuation_at v) /\ wf_time (visible_at v)
  /\ wf_unit (level_unit v) /\ wf_fixed (level v).

Section canonical.
Context `{UlidCrate} `{ChronoLaws} `{!ChronoShort}.

Lemma benchmark_level_fields_short v : wf_benchmark_level v -> Forall short (benchmark_level_fields v).
Proof.
  intros (? & ? & ? & ? & ? & ? & ? & ?). unfold benchmark_level_fields. shorts_catalog.
Qed.

Lemma benchmark_level_fields_inj v w :
  wf_benchmark_level v -> wf_benchmark_level w -> content_hash v = content_hash w ->
  benchmark_level_fields v = benchmark_level_fields w -> v = w.
Proof.
  intros (? & ? & ? & ? & ? & ? & ? & ?) (? & ? & ? & ? & ? & ? & ? & ?) ? E.
  unfold benchmark_level_fields in E. split_fields E. inj_catalog.
  destruct v as [? ? ? ? ? ? ? [] ?], w as [? ? ? ? ? ? ? [] ?]. cbn in *; congruence.
Qed.

#[export] Instance benchmark_level_canonical : Canonical BenchmarkLevelSnapshot := {|
  address := content_hash; canonical_fields := benchmark_level_fields;
  canonical_wf := wf_benchmark_level; canonical_short := benchmark_level_fields_short;
  canonical_inj := benchmark_level_fields_inj
|}.

End canonical.

End BenchmarkLevel.

(** ** The daily return series *)

Module Daily.

Record PortfolioSessionAggregate := {
  valuation_at : MarketTime;
  net_asset_value : FixedDecimal;
  net_external_flow : FixedDecimal
}.

Definition session_aggregate_new (valuation_at : MarketTime)
    (net_asset_value net_external_flow : FixedDecimal) : DomainResult PortfolioSessionAggregate :=
  if negb (is_positive net_asset_value) then Err InvalidValue
  else Ok {| valuation_at := valuation_at; net_asset_value := net_asset_value;
             net_external_flow := net_external_flow |}.

Record BenchmarkSessionLevel := { level_at : MarketTime; level : FixedDecimal }.

Definition benchmark_session_level_new (valuation_at : MarketTime) (level : FixedDecimal)
    : DomainResult BenchmarkSessionLevel :=
  if negb (is_positive level) then Err InvalidValue
  else Ok {| level_at := valuation_at; level := level |}.

Record PortfolioDailyPerformancePoint := {
  point_at : MarketTime;
  opening_nav : FixedDecimal;
  ending_nav : FixedDecimal;
  point_flow : FixedDecimal;
  economic_pnl : FixedDecimal;
  daily_return : FixedDecimal;
  benchmark_return : FixedDecimal;
  active_return : FixedDecimal;
  cumulative_return : FixedDecimal;
  benchmark_cumulative_return : FixedDecimal;
  active_cumulative_return : FixedDecimal
}.

(** One round of the first loop, at [index]. *)
Definition misaligned (portfolio : list PortfolioSessionAggregate)
    (benchmark : list BenchmarkSessionLevel) (index : nat) : bool :=
  negb (bool_decide (valuation_at <$> portfolio !! index = level_at <$> benchmark !! index))
  || ((0 <? index)%nat
      && match portfolio !! pred index, portfolio !! index with
         | Some previous, Some current =>
             geb (instant (valuation_at previous)) (instant (valuation_at current))
         | _, _ => false
         end).

(** The values computed for one session: the point and the two cumulative factors after it. *)
Definition daily_point (cumulative_factor benchmark_cumulative_factor : FixedDecimal)
    (previous current : PortfolioSessionAggregate)
    (benchmark_previous benchmark_current : BenchmarkSessionLevel)
    : DomainResult (PortfolioDailyPerformancePoint * FixedDecimal * FixedDecimal) :=
  let opening_nav := net_asset_value previous in
  let ending_nav := net_asset_value current in
  let flow := net_external_flow current in
  before_flow ← checked_sub ending_nav flow;
  economic_pnl ← checked_sub before_flow opening_nav;
  daily_return ← checked_div_round_ties_even economic_pnl opening_nav;
  daily_factor ← checked_add ONE daily_return;
  if negb (is_positive daily_factor) then Err InvalidValue else
  let opening_level := level benchmark_previous in
  benchmark_pnl ← checked_sub (level benchmark_current) opening_level;
  benchmark_return ← checked_div_round_ties_even benchmark_pnl opening_level;
  benchmark_factor ← checked_add ONE benchmark_return;
  if negb (is_positive benchmark_factor) then Err InvalidValue else
  cumulative_factor ← checked_mul_round_ties_even cumulative_factor daily_factor;
  benchmark_cumulative_factor ←
    checked_mul_round_ties_even benchmark_cumulative_factor benchmark_factor;
  cumulative_return ← checked_sub cumulative_factor ONE;
  benchmark_cumulative_return ← checked_sub benchmark_cumulative_factor ONE;
  active_return ← checked_sub daily_return benchmark_return;
  active_cumulative_return ← checked_sub cumulative_return benchmark_cumulative_return;
  Ok ({| point_at := valuation_at current; opening_nav := opening_nav; ending_nav := ending_nav;
         point_flow := flow; economic_pnl := economic_pnl; daily_return := daily_return;
         benchmark_return := benchmark_return; active_return := active_return;
         cumulative_return := cumulative_return;
         benchmark_cumulative_return := benchmark_cumulative_return;
         active_cumulative_return := active_cumulative_return |},
      cumulative_factor, benchmark_cumulative_factor).

(** The second loop: [previous] and [benchmark_previous] are the elements at [index - 1]. *)
Fixpoint daily_loop (cumulative_factor benchmark_cumulative_factor : FixedDecimal)
    (previous : PortfolioSessionAggregate) (benchmark_previous : BenchmarkSessionLevel)
    (portfolio : list PortfolioSessionAggregate) (benchmark : list BenchmarkSessionLevel)
    : DomainResult (list PortfolioDailyPerformancePoint) :=
  match portfolio, benchmark with
  | current :: portfolio', benchmark_current :: benchmark' =>
      '(point, cumulative_factor', benchmark_cumulative_factor') ←
        daily_point cumulative_factor benchmark_cumulative_factor previous current
          benchmark_previous benchmark_current;
      points ← daily_loop cumulative_factor' benchmark_cumulative_factor' current
                 benchmark_current portfolio' benchmark';
      Ok (point :: points)
  | _, _ => Ok []
  end.

Definition calculate_daily_performance (portfolio : list PortfolioSessionAggregate)
    (benchmark : list BenchmarkSessionLevel) : DomainResult (list PortfolioDailyPerformancePoint) :=
  if (List.length portfolio <? 2)%nat
     || negb (List.length portfolio =? List.length benchmark)%nat then Err InvalidValue else
  if existsb (misaligned portfolio benchmark) (seq 0 (List.length portfolio))
  then Err InvalidEffectiveTime else
  match portfolio, benchmark with
  | opening :: portfolio', opening_level :: benchmark' =>
      daily_loop ONE ONE opening opening_level portfolio' benchmark'
  | _, _ => Ok []
  end.

(** *** Specification *)

(** The factor of a return: one plus the return, at the fixed scale. *)
Definition factor_of (r : FixedDecimal) : Z := FIXED_DECIMAL_FACTOR + scaled r.

(** What a point says about its session, given the cumulative factors before ([c], [bc]) and after
    it ([c'], [bc']). *)
Record point_spec (c bc : Z) (previous current : PortfolioSessionAggregate)
    (benchmark_previous benchmark_current : BenchmarkSessionLevel)
    (p : PortfolioDailyPerformancePoint) (c' bc' : Z) : Prop := {
  spec_at : point_at p = valuation_at current;
  spec_opening : opening_nav p = net_asset_value previous;
  spec_ending : ending_nav p = net_asset_value current;
  spec_flow : point_flow p = net_external_flow current;
  spec_pnl : scaled (economic_pnl p)
    = scaled (net_asset_value current) - scaled (net_external_flow current)
      - scaled (net_asset_value previous);
  spec_daily : is_round_half_even (scaled (economic_pnl p) * FIXED_DECIMAL_FACTOR)
    (scaled (net_asset_value previous)) (scaled (daily_return p));
  spec_benchmark : is_round_half_even
    ((scaled (level benchmark_current) - scaled (level benchmark_previous)) * FIXED_DECIMAL_FACTOR)
    (scaled (level benchmark_previous)) (scaled (benchmark_return p));
  spec_active : scaled (active_return p) = scaled (daily_return p) - scaled (benchmark_return p);
  spec_factor : 0 < factor_of (daily_return p) /\ 0 < factor_of (benchmark_return p);
  spec_cumulative : is_round_half_even (c * factor_of (daily_return p)) FIXED_DECIMAL_FACTOR c';
  spec_benchmark_cumulative :
    is_round_half_even (bc * factor_of (benchmark_return p)) FIXED_DECIMAL_FACTOR bc';
  spec_cumulative_return : factor_of (cumulative_return p) = c';
  spec_benchmark_cumulative_return : factor_of (benchmark_cumulative_return p) = bc';
  spec_active_cumulative : scaled (active_cumulative_return p)
    = scaled (cumulative_return p) - scaled (benchmark_cumulative_return p)
}.

(** Sessions hold an [i128] and the constructors only accept positive values. *)
Definition wf_session (s : PortfolioSessionAggregate) : Prop :=
  wf_fixed (net_asset_value s) /\ wf_fixed (net_external_flow s) /\ 0 < scaled (net_asset_value s).

Definition wf_level (s : BenchmarkSessionLevel) : Prop := wf_fixed (level s) /\ 0 < scaled (level s).

Lemma daily_point_spec c bc p q bp bq pt c' bc' :
  wf_session p -> wf_session q -> wf_level bp -> wf_level bq ->
  daily_point c bc p q bp bq = Ok (pt, c', bc') ->
  point_spec (scaled c) (scaled bc) p q bp bq pt (scaled c') (scaled bc').
Proof.
  intros (Hp & _ & Hp0) (Hq & _ & _) (Hbp & Hbp0) _ H. unfold daily_point in H. repeat res_step. breflect.
  subst pt c' bc'.
  repeat match goal with
  | H : checked_div_round_ties_even ?a ?b = Ok ?q |- _ =>
      apply checked_div_Ok in H as [? ?]; [|eauto using checked_sub_wf|done]
  | H : checked_mul_round_ties_even _ _ = Ok _ |- _ => apply checked_mul_round_Ok in H as [? ?]
  end.
  repeat match goal with
  | H : checked_sub _ _ = Ok _ |- _ => apply checked_sub_Ok in H as [_ H]
  | H : checked_add _ _ = Ok _ |- _ => apply checked_add_Ok in H as [_ H]
  end.
  unfold is_positive in *. breflect. unfold ONE in *. cbn [scaled] in *.
  split; unfold factor_of; cbn; try done; try lia; congruence.
Qed.

(** The whole series: a point for every session but the first, each relating two neighbouring
    sessions and two neighbouring cumulative factors. *)
Definition series_spec (portfolio : list PortfolioSessionAggregate)
    (benchmark : list BenchmarkSessionLevel) (points : list PortfolioDailyPerformancePoint)
    (factors benchmark_factors : list Z) : Prop :=
  S (List.length points) = List.length portfolio /\
  factors !! 0%nat = Some FIXED_DECIMAL_FACTOR /\ benchmark_factors !! 0%nat = Some FIXED_DECIMAL_FACTOR /\
  forall i pt, points !! i = Some pt ->
    exists p q bp bq c c' bc bc',
      portfolio !! i = Some p /\ portfolio !! S i = Some q /\
      benchmark !! i = Some bp /\ benchmark !! S i = Some bq /\
      factors !! i = Some c /\ factors !! S i = Some c' /\
      benchmark_factors !! i = Some bc /\ benchmark_factors !! S i = Some bc' /\
      point_spec c bc p q bp bq pt c' bc'.

Lemma daily_loop_spec c bc p bp ps bs points :
  wf_session p -> wf_level bp -> Forall wf_session ps -> Forall wf_level bs ->
  List.length ps = List.length bs ->
  daily_loop c bc p bp ps bs = Ok points ->
  List.length points = List.length ps /\
  exists cs bcs, forall i pt, points !! i = Some pt ->
    exists q r bq br d d' bd bd',
      (p :: ps) !! i = Some q /\ ps !! i = Some r /\ (bp :: bs) !! i = Some bq /\ bs !! i = Some br /\
      (scaled c :: cs) !! i = Some d /\ cs !! i = Some d' /\
      (scaled bc :: bcs) !! i = Some bd /\ bcs !! i = Some bd' /\
      point_spec d bd q r bq br pt d' bd'.
Proof.
  intros Hp Hbp Hps. revert c bc p bp bs points Hp Hbp.
  induction Hps as [|q ps Hq Hps IH]; intros c bc p bp bs points Hp Hbp Hbs Hlen H.
  { cbn in H. injection H as <-. split; [done|]. by exists [], []. }
  destruct Hbs as [|bq bs Hbq Hbs]; [done|]. cbn [daily_loop] in H.
  apply bind_Ok in H as ([[pt c'] bc'] & Hpt & H). apply bind_Ok in H as (rest & Hrest & H).
  injection H as <-. injection Hlen as Hlen.
  destruct (IH _ _ _ _ _ _ Hq Hbq Hbs Hlen Hrest) as (Hl & cs & bcs & Hall).
  split; [cbn; by rewrite Hl|]. exists (scaled c' :: cs), (scaled bc' :: bcs).
  intros [|i] pt' Hi; [|by apply Hall]. injection Hi as <-.
  exists p, q, bp, bq, (scaled c), (scaled c'), (scaled bc), (scaled bc').
  do 8 (split; [done|]). by apply daily_point_spec.
Qed.

(** The first loop accepts aligned sessions at increasing instants. *)
Definition aligned (portfolio : list PortfolioSessionAggregate)
    (benchmark : list BenchmarkSessionLevel) : Prop :=
  valuation_at <$> portfolio = level_at <$> benchmark /\
  forall i p q, portfolio !! i = Some p -> portfolio !! S i = Some q ->
    cmp (instant (valuation_at p)) (instant (valuation_at q)) = Lt.

Lemma aligned_spec ps bs :
  List.length ps = List.length bs ->
  existsb (misaligned ps bs) (seq 0 (List.length ps)) = false <-> aligned ps bs.
Proof.
  intros Hlen. rewrite <- not_true_iff_false, existsb_exists. unfold aligned. split.
  - intros Hno.
    assert (Hok : forall i, (i < List.length ps)%nat -> misaligned ps bs i = false).
    { intros i Hi. apply not_true_iff_false. intros Ht. apply Hno. exists i. split; [|done].
      apply in_seq. lia. }
    split.
    + apply list_eq. intros i. rewrite !list_lookup_fmap.
      destruct (decide (i < List.length ps)%nat) as [Hi|Hi].
      * specialize (Hok i Hi). unfold misaligned in Hok. apply orb_false_iff in Hok as [Hok _].
        by apply negb_false_iff, bool_decide_eq_true in Hok.
      * rewrite !lookup_ge_None_2 by lia. done.
    + intros i p q Hi Hsi. pose proof (lookup_lt_Some _ _ _ Hsi) as Hlt. specialize (Hok (S i) Hlt).
      unfold misaligned in Hok. apply orb_false_iff in Hok as [_ Hok]. cbn [pred] in Hok.
      rewrite Hi, Hsi in Hok. cbn in Hok. rewrite geb_spec in Hok.
      apply negb_false_iff, ltb_spec in Hok. done.
  - intros [Hat Hord] (i & Hin & Hm). apply in_seq in Hin. unfold misaligned in Hm.
    apply orb_true_iff in Hm as [Hm|Hm].
    + apply negb_true_iff, bool_decide_eq_false in Hm. apply Hm. rewrite <- !list_lookup_fmap. by rewrite Hat.
    + apply andb_true_iff in Hm as [Hpos Hm]. destruct i as [|i]; [done|]. cbn [pred] in Hm.
      destruct (ps !! i) as [p|] eqn:Hi; [|done]. destruct (ps !! S i) as [q|] eqn:Hsi; [|done].
      rewrite geb_spec in Hm. apply negb_true_iff in Hm.
      rewrite (proj2 (ltb_spec _ _) (Hord i p q Hi Hsi)) in Hm. done.
Qed.

Lemma calculate_spec ps bs points :
  Forall wf_session ps -> Forall wf_level bs ->
  calculate_daily_performance ps bs = Ok points ->
  (2 <= List.length ps)%nat /\ List.length ps = List.length bs /\ aligned ps bs /\
  exists factors benchmark_factors, series_spec ps bs points factors benchmark_factors.
Proof.
  unfold calculate_daily_performance. intros Hps Hbs H. res_step. breflect.
  match goal with
  | H : (_ <? _)%nat = false |- _ => apply Nat.ltb_ge in H
  end.
  match goal with
  | H : (_ =? _)%nat = true |- _ => apply Nat.eqb_eq in H
  end.
  res_step. match goal with H : existsb _ _ = false |- _ => apply aligned_spec in H; [|done] end.
  do 3 (split; [done|]).
  destruct Hps as [|p ps Hp Hps]; [cbn in *; lia|]. destruct Hbs as [|bp bs Hbp Hbs]; [done|].
  apply daily_loop_spec in H as (Hl & cs & bcs & Hall); [|done..|cbn in *; lia].
  exists (FIXED_DECIMAL_FACTOR :: cs), (FIXED_DECIMAL_FACTOR :: bcs).
  split; [cbn; by rewrite Hl|]. split; [done|]. split; [done|]. intros i pt Hi.
  destruct (Hall i pt Hi) as (q & r & bq & br & d & d' & bd & bd' & H').
  exists q, r, bq, br, d, d', bd, bd'. exact H'.
Qed.

Definition total (values : list FixedDecimal) : Z := foldr Z.add 0 (map scaled values).

Lemma last_shift {A} (x y : A) l : List.last (x :: l) y = List.last l x.
Proof. revert x y. induction l as [|z l IH]; intros x y; [done|]. cbn in *. by rewrite (IH z x), <- (IH z y). Qed.

Lemma daily_loop_total c bc p bp ps bs points :
  List.length ps = List.length bs -> daily_loop c bc p bp ps bs = Ok points ->
  total (map economic_pnl points)
  = scaled (net_asset_value (List.last ps p)) - scaled (net_asset_value p)
    - total (map net_external_flow ps).
Proof.
  revert c bc p bp bs points. induction ps as [|q ps IH]; intros c bc p bp [|bq bs] points Hlen H; try done.
  { injection H as <-. cbn. lia. }
  cbn [daily_loop] in H.
  apply bind_Ok in H as ([[pt c'] bc'] & Hpt & H). apply bind_Ok in H as (rest & Hrest & H).
  injection H as <-. injection Hlen as Hlen. apply IH in Hrest; [|done].
  assert (Hpnl : scaled (economic_pnl pt)
    = scaled (net_asset_value q) - scaled (net_external_flow q) - scaled (net_asset_value p)).
  { unfold daily_point in Hpt. repeat res_step. subst pt. cbn.
    repeat match goal with H : checked_sub _ _ = Ok _ |- _ => apply checked_sub_Ok in H as [_ H] end.
    congruence. }
  unfold total in *. cbn. rewrite Hrest, Hpnl.
  change (match ps with [] => q | _ :: _ => List.last ps p end) with (List.last (q :: ps) p).
  rewrite last_shift. lia.
Qed.

(** Every computation on fixed decimals fails with [InvalidValue] only. *)
Lemma daily_point_Err c bc p q bp bq e :
  wf_session p -> wf_level bp -> daily_point c bc p q bp bq = Err e -> e = InvalidValue.
Proof.
  intros (Hp & _ & _) (Hbp & _) H. unfold daily_point in H. cbv zeta in H.
  err_split H; eauto using checked_sub_Err, checked_add_Err, checked_mul_round_Err, checked_div_Err, checked_sub_wf.
  all: by injection H.
Qed.

Lemma daily_loop_Err c bc p bp ps bs e :
  wf_session p -> wf_level bp -> Forall wf_session ps -> Forall wf_level bs ->
  daily_loop c bc p bp ps bs = Err e -> e = InvalidValue.
Proof.
  intros Hp Hbp Hps. revert c bc p bp bs Hp Hbp.
  induction Hps as [|q ps Hq Hps IH]; intros c bc p bp bs Hp Hbp Hbs H; [done|].
  destruct Hbs as [|bq bs Hbq Hbs]; [done|]. cbn [daily_loop] in H.
  apply bind_Err in H as [H|([[pt c'] bc'] & _ & H)]; [exact (daily_point_Err _ _ _ _ _ _ _ Hp Hbp H)|].
  apply bind_Err in H as [H|(? & _ & H)]; [exact (IH _ _ _ _ _ Hq Hbq Hbs H)|done].
Qed.

(** *** Examples and properties *)

Definition sample_sessions : list PortfolioSessionAggregate :=
  [{| valuation_at := sample_time 0; net_asset_value := from_scaled 100000000000000;
      net_external_flow := ZERO |};
   {| valuation_at := sample_time 86400; net_asset_value := from_scaled 111000000000000;
      net_external_flow := from_scaled 10000000000000 |};
   {| valuation_at := sample_time 172800; net_asset_value := from_scaled 109000000000000;
      net_external_flow := from_scaled (-3000000000000) |}].

Definition sample_levels : list BenchmarkSessionLevel :=
  [{| level_at := sample_time 0; level := from_scaled 100000000000000 |};
   {| level_at := sample_time 86400; level := from_scaled 102000000000000 |};
   {| level_at := sample_time 172800; level := from_scaled 103000000000000 |}].

Example sample_performance :
  (fun points => (map economic_pnl points, map daily_return points, map cumulative_return points))
    <$> calculate_daily_performance sample_sessions sample_levels
  = Ok ([from_scaled 1000000000000; from_scaled 1000000000000],
        [from_scaled 10000000000; from_scaled 9009009009],
        [from_scaled 10000000000; from_scaled 19099099099]).
Proof. vm_compute. reflexivity. Qed.

Lemma sample_sessions_wf : Forall wf_session sample_sessions.
Proof. unfold sample_sessions. split_forall; (split; [done|split; [done|cbn; lia]]). Qed.

Lemma sample_levels_wf : Forall wf_level sample_levels.
Proof. unfold sample_levels. split_forall; (split; [done|cbn; lia]). Qed.

(** C14. The daily series: a successful run has at least two aligned sessions at strictly increasing
    instants and returns one point per session after the first. Every point has the opening and
    ending values of its two sessions, the exact profit [ending - flow - opening], the daily and
    benchmark returns as rounded quotients with positive growth factors, the exact active returns, and
    cumulative factors that start at one and are each the rounded product of the previous one with
    the growth factor of the day. *)
Theorem calculate_daily_performance_correct ps bs points :
  Forall wf_session ps -> Forall wf_level bs ->
  calculate_daily_performance ps bs = Ok points ->
  (2 <= List.length ps)%nat /\ List.length ps = List.length bs /\ aligned ps bs /\
  exists factors benchmark_factors, series_spec ps bs points factors benchmark_factors.
Proof. apply calculate_spec. Qed.

Lemma calculate_daily_performance_correct_witness :
  exists points, calculate_daily_performance sample_sessions sample_levels = Ok points /\
  exists factors benchmark_factors, series_spec sample_sessions sample_levels points factors benchmark_factors.
Proof.
  eexists. split; [vm_compute; reflexivity|].
  eapply calculate_daily_performance_correct; [apply sample_sessions_wf|apply sample_levels_wf|].
  vm_compute. reflexivity.
Defined.

(** Conservation: the profits of the points add up to the change of net asset value less the
    external flows of the sessions after the first. *)
Theorem calculate_daily_performance_conserves p ps bs points :
  calculate_daily_performance (p :: ps) bs = Ok points ->
  total (map economic_pnl points)
  = scaled (net_asset_value (List.last ps p)) - scaled (net_asset_value p)
    - total (map net_external_flow ps).
Proof.
  unfold calculate_daily_performance. intros H. res_step. breflect. res_step.
  match goal with H : (_ =? _)%nat = true |- _ => apply Nat.eqb_eq in H end.
  destruct bs as [|bp bs]; [done|]. apply daily_loop_total in H; [done|cbn in *; lia].
Qed.

Lemma calculate_daily_performance_conserves_witness :
  exists points, calculate_daily_performance sample_sessions sample_levels = Ok points /\
  total (map economic_pnl points) = 109000000000000 - 100000000000000 - 7000000000000.
Proof.
  eexists. split; [vm_compute; reflexivity|].
  rewrite (calculate_daily_performance_conserves (nth 0 sample_sessions
    {| valuation_at := sample_time 0; net_asset_value := ZERO; net_external_flow := ZERO |})
    (tail sample_sessions) sample_levels); vm_compute; reflexivity.
Defined.

(** Errors of the daily series: series of different lengths or with fewer than two sessions
    are an [InvalidValue]; series of the right lengths that are not aligned are an
    [InvalidEffectiveTime]; aligned series either succeed or overflow with [InvalidValue]. *)
Theorem calculate_daily_performance_errors ps bs e :
  Forall wf_session ps -> Forall wf_level bs ->
  calculate_daily_performance ps bs = Err e ->
  if decide (2 <= List.length ps /\ List.length ps = List.length bs)%nat
  then (e = InvalidEffectiveTime /\ ~ aligned ps bs) \/ (e = InvalidValue /\ aligned ps bs)
  else e = InvalidValue.
Proof.
  intros Hps Hbs. unfold calculate_daily_performance.
  destruct (Nat.ltb_spec (List.length ps) 2); cbn [orb].
  { intros [= <-]. rewrite decide_False by lia. done. }
  destruct (Nat.eqb_spec (List.length ps) (List.length bs)) as [Hlen|Hlen]; cbn [negb].
  2: { intros [= <-]. by rewrite decide_False by lia. }
  rewrite decide_True by lia. pose proof (aligned_spec ps bs Hlen) as Hal.
  destruct (existsb _ _); intros He.
  { injection He as <-. left. split; [done|]. rewrite <- Hal. done. }
  right. split; [|by apply Hal]. destruct Hps as [|p ps Hp Hps]; [done|].
  destruct Hbs as [|bp bs Hbp Hbs]; [done|]. by eapply daily_loop_Err.
Qed.

Lemma calculate_daily_performance_errors_witness :
  calculate_daily_performance sample_sessions (tail sample_levels ++ [nth 0 sample_levels
    {| level_at := sample_time 0; level := ZERO |}]) = Err InvalidEffectiveTime /\
  ~ aligned sample_sessions (tail sample_levels ++ [nth 0 sample_levels
    {| level_at := sample_time 0; level := ZERO |}]).
Proof.
  set (bs := tail sample_levels ++ _).
  assert (E : calculate_daily_performance sample_sessions bs = Err InvalidEffectiveTime)
    by (vm_compute; reflexivity).
  split; [exact E|].
  destruct (calculate_daily_performance_errors sample_sessions bs InvalidEffectiveTime
    sample_sessions_wf ltac:(cbn; split_forall; (split; [done|cbn; lia])) E) as [[_ Hn]|[Hn _]];
    [exact Hn|discriminate Hn].
Defined.

End Daily.
