(* ===== verification/ResearchGraph.v ===== *)
(** * Research graphs

    [crates/ficant-domain/src/research/research_graph.rs]: typed node contracts, graphs of nodes with
    edges and external inputs, their validation, and their canonical digests. The order of execution
    is verified in [GraphOrder]. *)

From Stdlib Require Import ZArith Lia Strings.String.
From Stdlib Require Import Strings.Byte.
From stdpp Require Import base list option strings numbers sorting.
From S2P Require Import Prelude Machine Collections Primitives Codec Concrete.
Open Scope Z_scope.

(** ** Contracts *)

Inductive DeterminismClass := Deterministic | Seeded.
Inductive FilesystemPermission := NoFilesystem | TemporaryOnly.

Record NodePermissions := {
  network : bool;
  database : bool;
  filesystem : FilesystemPermission
}.

Record ResourceLimits := { cpu_cores : Z; memory_mb : Z; timeout_seconds : Z }.

Definition resource_limits_new (cpu_cores memory_mb timeout_seconds : Z) : DomainResult ResourceLimits :=
  if (cpu_cores =? 0) || (memory_mb =? 0) || (timeout_seconds =? 0) then Err InvalidValue
  else Ok {| cpu_cores := cpu_cores; memory_mb := memory_mb; timeout_seconds := timeout_seconds |}.

Definition symbol_alphanumeric (byte : byte) : bool := is_ascii_lowercase byte || is_ascii_digit byte.

Definition symbol_byte (byte : byte) : bool :=
  symbol_alphanumeric byte || Byte.eqb byte x2e || Byte.eqb byte x5f || Byte.eqb byte x2d.

(** Options tested with [is_some_and]. *)
Definition is_some_and {A} (o : option A) (p : A -> bool) : bool :=
  match o with Some a => p a | None => false end.

Definition ensure_symbol (value : string) : DomainResult unit :=
  fail_if
    (bool_decide (value = EmptyString) || (128 <? str_len value)
     || negb (is_some_and (hd_error (as_bytes value)) symbol_alphanumeric)
     || negb (is_some_and (list.last (as_bytes value)) symbol_alphanumeric)
     || negb (forallb symbol_byte (as_bytes value))) InvalidValue.

Record TypedValue := { type_id : string; type_version : Version; schema_hash : ContentHash }.

#[export] Instance TypedValue_eq_dec : EqDecision TypedValue.
Proof. solve_decision. Defined.

Definition typed_value_new (type_id : string) (type_version : Version) (schema_hash : ContentHash)
    : DomainResult TypedValue :=
  _ ← ensure_symbol type_id;
  Ok {| type_id := type_id; type_version := type_version; schema_hash := schema_hash |}.

Record PortType := { port_name : string; port_value_type : TypedValue }.

Definition port_type_new (port_name : string) (value_type : TypedValue) : DomainResult PortType :=
  _ ← ensure_symbol port_name;
  Ok {| port_name := port_name; port_value_type := value_type |}.

Record ResearchNodeContract := {
  contract_id : string;
  contract_version : Version;
  input_types : list PortType;
  output_types : list PortType;
  state_schema : ContentHash;
  parameter_schema : ContentHash;
  determinism_class : DeterminismClass;
  permissions : NodePermissions;
  resource_limits : ResourceLimits;
  required_invariants : list string;
  contract_digest : ContentHash
}.

Definition push_typed_value (value : TypedValue) : list byte :=
  push_str (type_id value) ++ push_u64 (version_get (type_version value))
  ++ hash_bytes (schema_hash value).

Definition push_port (port : PortType) : list byte :=
  push_str (port_name port) ++ push_typed_value (port_value_type port).

Definition push_ports (ports : list PortType) : list byte := push_seq push_port ports.

Definition determinism_code (c : DeterminismClass) : Z :=
  match c with Deterministic => 1 | Seeded => 2 end.
Definition filesystem_code (p : FilesystemPermission) : Z :=
  match p with NoFilesystem => 1 | TemporaryOnly => 2 end.
Definition bool_code (b : bool) : Z := if b then 1 else 0.

Definition contract_canonical_bytes (self : ResearchNodeContract) : list byte :=
  as_bytes "ficant/research-node-contract/v1"
  ++ push_str (contract_id self) ++ push_u64 (version_get (contract_version self))
  ++ push_ports (input_types self) ++ push_ports (output_types self)
  ++ hash_bytes (state_schema self) ++ hash_bytes (parameter_schema self)
  ++ [byte_of_Z (determinism_code (determinism_class self));
      byte_of_Z (bool_code (network (permissions self)));
      byte_of_Z (bool_code (database (permissions self)));
      byte_of_Z (filesystem_code (filesystem (permissions self)))]
  ++ to_be_bytes 2 (cpu_cores (resource_limits self))
  ++ to_be_bytes 4 (memory_mb (resource_limits self))
  ++ to_be_bytes 4 (timeout_seconds (resource_limits self))
  ++ push_seq push_str (required_invariants self).

(** Sorts, and refuses two equal names next to each other. *)
Definition canonical_ports (ports : list PortType) : DomainResult (list PortType) :=
  let ports := sort_by_key port_name ports in
  if windows2_any (fun a b => bool_decide (port_name a = port_name b)) ports then Err InvalidValue
  else Ok ports.

Definition canonical_symbols (values : list string) : DomainResult (list string) :=
  _ ← try_fold (fun _ value => ensure_symbol value) tt values;
  let values := sort values in
  if windows2_any (fun a b => bool_decide (a = b)) values then Err InvalidValue else Ok values.

(** The input of the constructor has the same fields as the contract, but for the digest, which is
    ignored here. *)
Definition research_node_contract_new `{Sha256} (input : ResearchNodeContract)
    : DomainResult ResearchNodeContract :=
  _ ← ensure_symbol (contract_id input);
  if bool_decide (output_types input = []) || bool_decide (required_invariants input = [])
  then Err InvalidValue else
  inputs ← canonical_ports (input_types input);
  outputs ← canonical_ports (output_types input);
  invariants ← canonical_symbols (required_invariants input);
  let with_digest d := {|
    contract_id := contract_id input; contract_version := contract_version input;
    input_types := inputs; output_types := outputs; state_schema := state_schema input;
    parameter_schema := parameter_schema input; determinism_class := determinism_class input;
    permissions := permissions input; resource_limits := resource_limits input;
    required_invariants := invariants; contract_digest := d |} in
  Ok (with_digest (digest (contract_canonical_bytes (with_digest (digest (as_bytes "uninitialized")))))).

(** ** Nodes, edges and external inputs *)

Record ResearchNode := {
  node_id : Ulid;
  contract : ResearchNodeContract;
  parameters_hash : ContentHash
}.

Record ResearchEdge := { from_node : Ulid; from_port : string; to_node : Ulid; to_port : string }.

#[export] Instance ResearchEdge_eq_dec : EqDecision ResearchEdge.
Proof. solve_decision. Defined.

(** The derived order compares the fields in turn. *)
Definition edge_key (e : ResearchEdge) : Ulid * (string * (Ulid * string)) :=
  (from_node e, (from_port e, (to_node e, to_port e))).
#[export] Instance ResearchEdge_ord : Ord ResearchEdge := fun a b => cmp (edge_key a) (edge_key b).

Definition research_edge_new (from_node : Ulid) (from_port : string) (to_node : Ulid)
    (to_port : string) : DomainResult ResearchEdge :=
  _ ← ensure_symbol from_port;
  _ ← ensure_symbol to_port;
  if bool_decide (from_node = to_node) then Err InvalidValue
  else Ok {| from_node := from_node; from_port := from_port; to_node := to_node; to_port := to_port |}.

Record GraphExternalInput := { input_id : string; input_value_type : TypedValue }.

Definition graph_external_input_new (input_id : string) (value_type : TypedValue)
    : DomainResult GraphExternalInput :=
  _ ← ensure_symbol input_id;
  Ok {| input_id := input_id; input_value_type := value_type |}.

Record GraphExternalInputBinding := {
  binding_input_id : string;
  binding_to_node : Ulid;
  binding_to_port : string
}.

#[export] Instance GraphExternalInputBinding_eq_dec : EqDecision GraphExternalInputBinding.
Proof. solve_decision. Defined.

Definition binding_key (b : GraphExternalInputBinding) : string * (Ulid * string) :=
  (binding_input_id b, (binding_to_node b, binding_to_port b)).
#[export] Instance GraphExternalInputBinding_ord : Ord GraphExternalInputBinding :=
  fun a b => cmp (binding_key a) (binding_key b).

Definition graph_external_input_binding_new (input_id : string) (to_node : Ulid) (to_port : string)
    : DomainResult GraphExternalInputBinding :=
  _ ← ensure_symbol input_id;
  _ ← ensure_symbol to_port;
  Ok {| binding_input_id := input_id; binding_to_node := to_node; binding_to_port := to_port |}.

(** ** Graphs *)

Record ResearchGraph := {
  graph_id : Ulid;
  graph_version : Version;
  graph_owner : OwnerRef;
  nodes : list ResearchNode;
  edges : list ResearchEdge;
  external_inputs : list GraphExternalInput;
  external_input_bindings : list GraphExternalInputBinding;
  topological_order_field : list Ulid;
  graph_digest : ContentHash
}.

Definition port (ports : list PortType) (name : string) : DomainResult PortType :=
  ok_or (binary_search_by port_name ports name) BrokenLineage.

(** The set of bound inputs: [BTreeSet::insert] returns whether the value is new. *)
Abbreviation Bindings := (BTreeSet (Ulid * string)).

Definition insert_new (binding : Ulid * string) (bindings : Bindings) : DomainResult Bindings :=
  if bset_contains binding bindings then Err InvalidValue else Ok (bset_insert binding bindings).

Definition bind_edge (node_map : BTreeMap Ulid ResearchNode) (bindings : Bindings) (edge : ResearchEdge)
    : DomainResult Bindings :=
  source ← ok_or (btree_get (from_node edge) node_map) BrokenLineage;
  target ← ok_or (btree_get (to_node edge) node_map) BrokenLineage;
  output ← port (output_types (contract source)) (from_port edge);
  input ← port (input_types (contract target)) (to_port edge);
  if negb (bool_decide (port_value_type output = port_value_type input)) then Err InvalidValue
  else insert_new (to_node edge, to_port edge) bindings.

Definition bind_external (node_map : BTreeMap Ulid ResearchNode)
    (declarations : BTreeMap string GraphExternalInput) (st : Bindings * BTreeSet string)
    (binding : GraphExternalInputBinding) : DomainResult (Bindings * BTreeSet string) :=
  let '(bindings, used_external_inputs) := st in
  declaration ← ok_or (btree_get (binding_input_id binding) declarations) BrokenLineage;
  target ← ok_or (btree_get (binding_to_node binding) node_map) BrokenLineage;
  input ← port (input_types (contract target)) (binding_to_port binding);
  if negb (bool_decide (input_value_type declaration = port_value_type input)) then Err InvalidValue else
  bindings ← insert_new (binding_to_node binding, binding_to_port binding) bindings;
  Ok (bindings, bset_insert (binding_input_id binding) used_external_inputs).

(** Every input port of every node is bound. *)
Definition inputs_bound (node_map : BTreeMap Ulid ResearchNode) (bindings : Bindings) : bool :=
  forallb (fun node =>
    forallb (fun input => bset_contains (node_id node, port_name input) bindings)
      (input_types (contract node))) (btree_values node_map).

Definition validate_bindings (node_map : BTreeMap Ulid ResearchNode) (edges : list ResearchEdge)
    (external_inputs : list GraphExternalInput)
    (external_input_bindings : list GraphExternalInputBinding) : DomainResult unit :=
  bindings ← try_fold (bind_edge node_map) [] edges;
  let declarations := btree_collect (map (fun input => (input_id input, input)) external_inputs) in
  '(bindings, used_external_inputs) ←
    try_fold (bind_external node_map declarations) (bindings, []) external_input_bindings;
  if negb (List.length used_external_inputs =? List.length external_inputs)%nat then Err BrokenLineage
  else if negb (inputs_bound node_map bindings) then Err BrokenLineage
  else Ok tt.

(** *** Order of execution *)

(** The counting loop over the edges; [usize] has 64 bits. *)
Definition count_edge (st : BTreeMap Ulid Z * BTreeMap Ulid (list Ulid)) (edge : ResearchEdge)
    : DomainResult (BTreeMap Ulid Z * BTreeMap Ulid (list Ulid)) :=
  let '(indegree, outgoing) := st in
  value ← ok_or (btree_get (to_node edge) indegree) BrokenLineage;
  value ← ok_or (u64_checked_add value 1) InvalidValue;
  Ok (btree_insert (to_node edge) value indegree,
      btree_insert (from_node edge)
        (default [] (btree_get (from_node edge) outgoing) ++ [to_node edge]) outgoing).

(** One target of the node taken from the ready set. *)
Definition release (st : BTreeMap Ulid Z * BTreeSet Ulid) (target : Ulid)
    : DomainResult (BTreeMap Ulid Z * BTreeSet Ulid) :=
  let '(indegree, ready) := st in
  degree ← ok_or (btree_get target indegree) BrokenLineage;
  degree ← ok_or (u64_checked_sub degree 1) InvalidValue;
  Ok (btree_insert target degree indegree, if degree =? 0 then bset_insert target ready else ready).

(** [while let Some(node_id) = ready.pop_first()]: every node enters the ready set at most once, so
    one more iteration than there are nodes is enough fuel. *)
Fixpoint drain (fuel : nat) (outgoing : BTreeMap Ulid (list Ulid)) (indegree : BTreeMap Ulid Z)
    (ready : BTreeSet Ulid) (order : list Ulid) : DomainResult (list Ulid) :=
  match fuel with
  | O => Ok order
  | S fuel' =>
      match ready with
      | [] => Ok order
      | node_id :: ready =>
          '(indegree, ready) ←
            try_fold release (indegree, ready) (default [] (btree_get node_id outgoing));
          drain fuel' outgoing indegree ready (order ++ [node_id])
      end
  end.

Definition topological_order (node_ids : list Ulid) (edges : list ResearchEdge)
    : DomainResult (list Ulid) :=
  '(indegree, outgoing) ←
    try_fold count_edge (btree_collect (map (fun node_id => (node_id, 0)) node_ids), []) edges;
  let ready := bset_collect (map fst (filter (fun entry => entry.2 = 0) indegree)) in
  order ← drain (S (List.length node_ids)) outgoing indegree ready [];
  if negb (List.length order =? List.length node_ids)%nat then Err InvalidValue else Ok order.

(** *** Canonical bytes and construction *)

Definition push_node (node : ResearchNode) : list byte :=
  push_str (ulid_str (node_id node)) ++ hash_bytes (contract_digest (contract node))
  ++ hash_bytes (parameters_hash node).

Definition push_edge (edge : ResearchEdge) : list byte :=
  push_str (ulid_str (from_node edge)) ++ push_str (from_port edge)
  ++ push_str (ulid_str (to_node edge)) ++ push_str (to_port edge).

Definition push_external_input (input : GraphExternalInput) : list byte :=
  push_str (input_id input) ++ push_typed_value (input_value_type input).

Definition push_binding (binding : GraphExternalInputBinding) : list byte :=
  push_str (binding_input_id binding) ++ push_str (ulid_str (binding_to_node binding))
  ++ push_str (binding_to_port binding).

Definition graph_canonical_bytes (self : ResearchGraph) : list byte :=
  as_bytes "ficant/research-graph/v1"
  ++ push_str (ulid_str (graph_id self)) ++ push_u64 (version_get (graph_version self))
  ++ push_str (ulid_str (tenant_id (graph_owner self)))
  ++ push_str (ulid_str (owner_id (graph_owner self)))
  ++ push_seq push_node (nodes self) ++ push_seq push_edge (edges self)
  ++ push_seq push_external_input (external_inputs self)
  ++ push_seq push_binding (external_input_bindings self).

Record ResearchGraphInput := {
  in_graph_id : Ulid;
  in_version : Version;
  in_owner : OwnerRef;
  in_nodes : list ResearchNode;
  in_edges : list ResearchEdge
}.

Definition research_graph_new_with_external_inputs `{Sha256} (input : ResearchGraphInput)
    (external_inputs : list GraphExternalInput)
    (external_input_bindings : list GraphExternalInputBinding) : DomainResult ResearchGraph :=
  if bool_decide (in_nodes input = []) then Err InvalidValue else
  let nodes := sort_by_key node_id (in_nodes input) in
  if windows2_any (fun a b => bool_decide (node_id a = node_id b)) nodes then Err InvalidValue else
  let node_map := btree_collect (map (fun node => (node_id node, node)) nodes) in
  let edges := sort_by_key edge_key (in_edges input) in
  if windows2_any (fun a b => bool_decide (a = b)) edges then Err InvalidValue else
  let external_inputs := sort_by_key input_id external_inputs in
  if windows2_any (fun a b => bool_decide (input_id a = input_id b)) external_inputs
  then Err InvalidValue else
  let external_input_bindings := sort_by_key binding_key external_input_bindings in
  if windows2_any (fun a b => bool_decide (a = b)) external_input_bindings then Err InvalidValue else
  _ ← validate_bindings node_map edges external_inputs external_input_bindings;
  order ← topological_order (btree_keys node_map) edges;
  let with_digest d := {|
    graph_id := in_graph_id input; graph_version := in_version input; graph_owner := in_owner input;
    nodes := nodes; edges := edges; external_inputs := external_inputs;
    external_input_bindings := external_input_bindings; topological_order_field := order;
    graph_digest := d |} in
  Ok (with_digest (digest (graph_canonical_bytes (with_digest (digest (as_bytes "uninitialized")))))).

Definition research_graph_new `{Sha256} (input : ResearchGraphInput) : DomainResult ResearchGraph :=
  research_graph_new_with_external_inputs input [] [].
