(* ===== verification/GraphOrder.v ===== *)
(** * The order of execution of a research graph

    [topological_order] of [research_graph.rs] is Kahn's algorithm on ordered maps. It returns a
    permutation of the nodes in which every edge points forward, and fails exactly on the graphs that
    have a cycle; the loop over the ready set always ends within the fuel of the model. *)

From Stdlib Require Import ZArith Lia Strings.String.
From stdpp Require Import base list option strings numbers sorting relations.
From S2P Require Import Prelude Machine Collections Primitives Codec Concrete ResearchGraph.
Open Scope Z_scope.

(** ** Counting *)

Definition occurrences (m : Ulid) (l : list Ulid) : Z := Z.of_nat (List.length (filter (eq m) l)).

Lemma occurrences_nil m : occurrences m [] = 0.
Proof. done. Qed.

Lemma occurrences_cons m x l : occurrences m (x :: l) = (if decide (m = x) then 1 else 0) + occurrences m l.
Proof. unfold occurrences. rewrite filter_cons. destruct (decide (m = x)); cbn [List.length]; lia. Qed.

Lemma occurrences_nonneg m l : 0 <= occurrences m l.
Proof. unfold occurrences. lia. Qed.

Lemma occurrences_zero m l : occurrences m l = 0 <-> m ∉ l.
Proof.
  induction l as [|x l IH]; [split; [set_solver|done]|]. rewrite occurrences_cons, not_elem_of_cons.
  pose proof (occurrences_nonneg m l). destruct (decide (m = x)); [split; [lia|naive_solver]|].
  rewrite <- IH. split; [intros; split; [done|lia]|intros [_ ?]; lia].
Qed.

Lemma occurrences_length m l : occurrences m l <= Z.of_nat (List.length l).
Proof. unfold occurrences. pose proof (length_filter (eq m) l). lia. Qed.

(** The targets of the edges selected by a predicate on their sources. *)
Definition targets (p : Ulid -> Prop) `{!forall x, Decision (p x)} (edges : list ResearchEdge) : list Ulid :=
  map to_node (filter (fun e => p (from_node e)) edges).

(** Marking one more source as done removes its edges from the count. *)
Lemma occurrences_targets_done m n (o : list Ulid) edges :
  n ∉ o ->
  occurrences m (targets (fun x => x ∉ o) edges)
  = occurrences m (targets (fun x => x ∉ o ++ [n]) edges) + occurrences m (targets (eq n) edges).
Proof.
  intros Hn. unfold targets. induction edges as [|e edges IH]; [done|].
  rewrite !filter_cons. destruct (decide (n = from_node e)) as [<-|Hne].
  - rewrite decide_True by done. rewrite decide_False by set_solver. cbn [map].
    rewrite !occurrences_cons. lia.
  - destruct (decide (from_node e ∉ o)) as [Ho|Ho].
    + rewrite decide_True by set_solver. cbn [map]. rewrite !occurrences_cons. lia.
    + rewrite decide_False by set_solver. exact IH.
Qed.

(** ** Reachability *)

Definition edge_rel (edges : list ResearchEdge) (a b : Ulid) : Prop :=
  exists e, e ∈ edges /\ from_node e = a /\ to_node e = b.

(** A non-empty path from a node to itself. *)
Definition cyclic (edges : list ResearchEdge) : Prop := exists a, tc (edge_rel edges) a a.

Definition chain {A} (R : A -> A -> Prop) (l : list A) : Prop :=
  forall i x y, l !! i = Some x -> l !! S i = Some y -> R x y.

Lemma chain_tc {A} (R : A -> A -> Prop) l i j x y :
  chain R l -> l !! i = Some x -> l !! j = Some y -> (i < j)%nat -> tc R x y.
Proof.
  intros Hc Hi. revert y. induction j as [|j IH]; intros y Hj Hlt; [lia|].
  destruct (decide (i = j)) as [->|Hne]; [by apply tc_once, (Hc j)|].
  destruct (lookup_lt_is_Some_2 l j) as [z Hz]; [apply lookup_lt_Some in Hj; lia|].
  eapply tc_r; [apply (IH z Hz); lia|by apply (Hc j)].
Qed.

Lemma not_NoDup_repeats {A} `{EqDecision A} (l : list A) :
  ~ NoDup l -> exists i j x, (i < j)%nat /\ l !! i = Some x /\ l !! j = Some x.
Proof.
  induction l as [|x l IH]; intros Hn; [by destruct Hn; constructor|].
  destruct (decide (x ∈ l)) as [Hin|Hin].
  - apply list_elem_of_lookup in Hin as [j Hj]. exists 0%nat, (S j), x. split; [lia|done].
  - destruct IH as (i & j & y & Hlt & Hi & Hj); [intros Hl; apply Hn; by constructor|].
    exists (S i), (S j), y. split; [lia|done].
Qed.

(** Where every element has a predecessor, going back long enough repeats an element. *)
Lemma predecessors_cycle {A} `{EqDecision A} (R : A -> A -> Prop) (l : list A) :
  l <> [] -> (forall x, x ∈ l -> exists y, y ∈ l /\ R y x) -> exists x, tc R x x.
Proof.
  intros Hne Hp.
  assert (Hchain : forall k, exists c, List.length c = S k /\ chain R c /\ forall x, x ∈ c -> x ∈ l).
  { induction k as [|k (c & Hlen & Hc & Hin)].
    - destruct l as [|x l]; [done|]. exists [x]. split; [done|]. split; [|set_solver].
      intros [|i] ? ? _ H; cbn in H; by rewrite ?lookup_nil in H.
    - destruct c as [|x c]; [done|]. destruct (Hp x) as (y & Hy & Hyx); [apply Hin; set_solver|].
      exists (y :: x :: c). split; [cbn in *; lia|]. split; [|set_solver].
      intros [|i] a b Ha Hb; [cbn in Ha, Hb; by simplify_eq|by apply (Hc i)]. }
  destruct (Hchain (List.length l)) as (c & Hlen & Hc & Hin).
  destruct (not_NoDup_repeats c) as (i & j & x & Hlt & Hi & Hj).
  - intros Hnd. assert (Hsub : c ⊆+ l) by (by apply NoDup_submseteq).
    apply submseteq_length in Hsub. lia.
  - exists x. exact (chain_tc R c i j x x Hc Hi Hj Hlt).
Qed.

(** ** The maps of the algorithm *)

Section kahn.
Context (node_ids : list Ulid) (edges : list ResearchEdge).

(** What [validate_bindings] establishes before the order is computed, and the bound memory puts on
    the number of edges. *)
Definition edges_between_nodes : Prop :=
  forall e, e ∈ edges -> from_node e ∈ node_ids /\ to_node e ∈ node_ids.

Hypothesis Hwf : bset_wf node_ids.
Hypothesis Hedges : edges_between_nodes.
Hypothesis Hsize : Z.of_nat (List.length edges) < 2 ^ 64.

(** An in-degree map holds the value of [f] at every node and nothing else. *)
Definition holds (indegree : BTreeMap Ulid Z) (f : Ulid -> Z) : Prop :=
  forall m, btree_get m indegree = if decide (m ∈ node_ids) then Some (f m) else None.

Definition add_at (t : Ulid) (k : Z) (f : Ulid -> Z) (m : Ulid) : Z :=
  if decide (m = t) then f m + k else f m.

Lemma holds_insert indegree f t k :
  t ∈ node_ids -> holds indegree f -> holds (btree_insert t (f t + k) indegree) (add_at t k f).
Proof.
  intros Ht Hf m. unfold add_at. destruct (decide (m = t)) as [->|Hne].
  - rewrite btree_get_insert_eq, decide_True by done. done.
  - rewrite btree_get_insert_ne by done. apply Hf.
Qed.

Lemma holds_ext indegree f g :
  (forall m, m ∈ node_ids -> f m = g m) -> holds indegree f -> holds indegree g.
Proof. intros E Hf m. rewrite Hf. destruct (decide _); [f_equal; by apply E|done]. Qed.

Lemma holds_zero : holds (btree_collect (map (fun node_id => (node_id, 0)) node_ids)) (fun _ => 0).
Proof.
  clear Hwf Hedges Hsize. intros m. unfold btree_collect.
  assert (Hgen : forall l (acc : BTreeMap Ulid Z),
    (forall v, btree_get m acc = Some v -> v = 0) ->
    btree_get m (foldl (fun acc kv => btree_insert kv.1 kv.2 acc) acc (map (fun id => (id, 0)) l))
    = if decide (m ∈ l) then Some 0 else btree_get m acc).
  { induction l as [|x l IH]; intros acc Hacc; cbn [map foldl fst snd].
    - by rewrite decide_False by set_solver.
    - destruct (decide (m = x)) as [<-|Hne].
      + rewrite IH by (intros v; rewrite btree_get_insert_eq; congruence).
        rewrite btree_get_insert_eq. rewrite (decide_True (P := m ∈ m :: l)) by set_solver.
        by destruct (decide (m ∈ l)).
      + rewrite IH by (intros v; rewrite btree_get_insert_ne by done; auto).
        rewrite btree_get_insert_ne by done.
        destruct (decide (m ∈ l)); [by rewrite decide_True by set_solver|].
        by rewrite decide_False by set_solver. }
  rewrite Hgen by done. done.
Qed.

(** The loop over the edges counts the edges into every node and lists those out of it. *)
Lemma count_loop es indegree outgoing f :
  (forall e, e ∈ es -> to_node e ∈ node_ids) ->
  holds indegree f -> (forall m, m ∈ node_ids -> 0 <= f m /\ f m + Z.of_nat (List.length es) < 2 ^ 64) ->
  exists indegree' outgoing',
    try_fold count_edge (indegree, outgoing) es = Ok (indegree', outgoing') /\
    (btree_wf indegree -> btree_wf indegree') /\
    holds indegree' (fun m => f m + occurrences m (map to_node es)) /\
    forall n, default [] (btree_get n outgoing')
      = default [] (btree_get n outgoing) ++ targets (eq n) es.
Proof.
  revert indegree outgoing f. induction es as [|e es IH]; intros indegree outgoing f He Hf Hb.
  { exists indegree, outgoing. split; [done|]. split; [done|]. split.
    - refine (holds_ext _ _ _ _ Hf). intros m _. cbn [map]. rewrite occurrences_nil. lia.
    - intros n. by rewrite app_nil_r. }
  assert (Ht : to_node e ∈ node_ids) by (apply He; set_solver).
  pose proof (Hb _ Ht) as [Hb0 Hb1]. cbn [List.length] in Hb1.
  assert (Hstep : count_edge (indegree, outgoing) e = Ok
    (btree_insert (to_node e) (f (to_node e) + 1) indegree,
     btree_insert (from_node e) (default [] (btree_get (from_node e) outgoing) ++ [to_node e]) outgoing)).
  { unfold count_edge. rewrite Hf, decide_True by done. cbn. unfold u64_checked_add, checked.
    by replace (in_u64 (f (to_node e) + 1)) with true by (symmetry; ranges; lia). }
  cbn [try_fold]. rewrite Hstep. cbn.
  edestruct (IH (btree_insert (to_node e) (f (to_node e) + 1) indegree)
    (btree_insert (from_node e) (default [] (btree_get (from_node e) outgoing) ++ [to_node e]) outgoing)
    (add_at (to_node e) 1 f)) as (indegree' & outgoing' & Hrun & Hwf' & Hf' & Hout).
  - intros e' He'. apply He. set_solver.
  - by apply holds_insert.
  - intros m Hm. pose proof (Hb m Hm) as [? Hbm]. cbn [List.length] in Hbm. unfold add_at.
    destruct (decide _); lia.
  - exists indegree', outgoing'. split; [exact Hrun|]. split; [intros; by apply Hwf', btree_insert_wf|].
    split.
    + refine (holds_ext _ _ _ _ Hf'). intros m _. cbn [map]. rewrite occurrences_cons. unfold add_at.
      destruct (decide (m = to_node e)); lia.
    + intros n. rewrite Hout. unfold targets.
      destruct (decide (n = from_node e)) as [->|Hne].
      * rewrite btree_get_insert_eq. cbn [default from_option id map]. by rewrite <- (assoc_L (++)).
      * by rewrite btree_get_insert_ne.
Qed.

(** Releasing the targets of a node lowers their in-degrees, and those that reach zero become ready. *)
Lemma release_loop ts indegree ready f :
  (forall t, t ∈ ts -> t ∈ node_ids) -> holds indegree f -> bset_wf ready ->
  (forall m, m ∈ node_ids -> occurrences m ts <= f m < 2 ^ 64) ->
  exists indegree' ready',
    try_fold release (indegree, ready) ts = Ok (indegree', ready') /\ bset_wf ready' /\
    holds indegree' (fun m => f m - occurrences m ts) /\
    forall m, m ∈ ready' <-> m ∈ ready \/ (m ∈ ts /\ f m = occurrences m ts).
Proof.
  revert indegree ready f. induction ts as [|t ts IH]; intros indegree ready f Ht Hf Hr Hb.
  { exists indegree, ready. split; [done|]. split; [done|]. split; [|set_solver].
    refine (holds_ext _ _ _ _ Hf). intros m _. cbn [map]. rewrite occurrences_nil. lia. }
  assert (Htn : t ∈ node_ids) by (apply Ht; set_solver).
  pose proof (Hb t Htn) as Hbt. rewrite occurrences_cons, decide_True in Hbt by done.
  pose proof (occurrences_nonneg t ts).
  assert (Hstep : release (indegree, ready) t = Ok
    (btree_insert t (f t - 1) indegree, if f t - 1 =? 0 then bset_insert t ready else ready)).
  { unfold release. rewrite Hf, decide_True by done. cbn. unfold u64_checked_sub, checked.
    by replace (in_u64 (f t - 1)) with true by (symmetry; ranges; lia). }
  cbn [try_fold]. rewrite Hstep. cbn.
  edestruct (IH (btree_insert t (f t - 1) indegree)
    (if f t - 1 =? 0 then bset_insert t ready else ready) (add_at t (-1) f))
    as (indegree' & ready' & Hrun & Hwf' & Hf' & Hready).
  - intros t' ?. apply Ht. set_solver.
  - by apply holds_insert.
  - destruct (_ =? _); [by apply bset_insert_wf|done].
  - intros m Hm. pose proof (Hb m Hm) as Hbm. rewrite occurrences_cons in Hbm. unfold add_at.
    destruct (decide (m = t)); lia.
  - exists indegree', ready'. split; [exact Hrun|]. split; [done|]. split.
    + refine (holds_ext _ _ _ _ Hf'). intros m _. rewrite occurrences_cons. unfold add_at.
      destruct (decide (m = t)); lia.
    + intros m. rewrite Hready, elem_of_cons, occurrences_cons. unfold add_at.
      assert (Hz : m ∈ (if f t - 1 =? 0 then bset_insert t ready else ready)
        <-> m ∈ ready \/ (m = t /\ f t = 1)).
      { destruct (Z.eqb_spec (f t - 1) 0); [rewrite bset_insert_elem; naive_solver lia|naive_solver lia]. }
      rewrite Hz. destruct (decide (m = t)) as [->|Hne]; [|naive_solver].
      pose proof (occurrences_zero t ts). destruct (decide (t ∈ ts)); naive_solver lia.
Qed.

(** ** The main loop *)

(** [o] is the order so far and [r] the ready set. *)
Record drain_inv (indegree : BTreeMap Ulid Z) (r o : list Ulid) : Prop := {
  inv_NoDup : NoDup (o ++ r);
  inv_sub : forall m, m ∈ o ++ r -> m ∈ node_ids;
  inv_ready : bset_wf r;
  inv_count : holds indegree (fun m => occurrences m (targets (fun x => x ∉ o) edges));
  inv_zero : forall m, m ∈ node_ids ->
    m ∈ o ++ r <-> occurrences m (targets (fun x => x ∉ o) edges) = 0;
  inv_order : forall o1 m o2, o = o1 ++ m :: o2 ->
    forall e, e ∈ edges -> to_node e = m -> from_node e ∈ o1
}.

Lemma targets_in (p : Ulid -> Prop) `{!forall x, Decision (p x)} t :
  t ∈ targets p edges <-> exists e, e ∈ edges /\ p (from_node e) /\ to_node e = t.
Proof.
  unfold targets. rewrite list_elem_of_fmap. setoid_rewrite list_elem_of_filter. naive_solver.
Qed.

Lemma targets_bound (p : Ulid -> Prop) `{!forall x, Decision (p x)} m :
  0 <= occurrences m (targets p edges) < 2 ^ 64.
Proof.
  pose proof (occurrences_nonneg m (targets p edges)). pose proof (occurrences_length m (targets p edges)) as Hl.
  unfold targets in Hl at 2. rewrite length_map in Hl.
  pose proof (length_filter (fun e => p (from_node e)) edges). lia.
Qed.

(** One iteration of the loop preserves the invariant. *)
Lemma drain_step indegree n r o :
  drain_inv indegree (n :: r) o ->
  exists indegree' r', try_fold release (indegree, r) (targets (eq n) edges) = Ok (indegree', r') /\
    drain_inv indegree' r' (o ++ [n]).
Proof.
  intros [Hnd Hsub Hr Hc Hz Ho].
  assert (Hno : n ∉ o) by (apply NoDup_app in Hnd as (_ & Hd & _); intros Hin; apply (Hd n Hin); set_solver).
  assert (Hrwf : bset_wf r) by (by inversion Hr).
  edestruct (release_loop (targets (eq n) edges) indegree r) as (indegree' & r' & Hrun & Hwf' & Hf' & Hr').
  - intros t (e & He & _ & <-)%targets_in. by apply Hedges.
  - exact Hc.
  - done.
  - intros m _. pose proof (occurrences_targets_done m n o edges Hno) as E.
    pose proof (targets_bound (fun x => x ∉ o) m).
    pose proof (occurrences_nonneg m (targets (fun x => x ∉ o ++ [n]) edges)). lia.
  - exists indegree', r'. split; [exact Hrun|].
    assert (Hnew : forall m, m ∈ targets (eq n) edges -> m ∉ o ++ n :: r).
    { intros m Hm Hin. pose proof (Hsub m Hin) as Hmn. apply (Hz m Hmn) in Hin.
      rewrite (occurrences_targets_done m n o edges Hno) in Hin.
      pose proof (occurrences_nonneg m (targets (fun x => x ∉ o ++ [n]) edges)).
      pose proof (occurrences_nonneg m (targets (eq n) edges)).
      assert (occurrences m (targets (eq n) edges) = 0) as Hzero by lia. by apply occurrences_zero in Hzero. }
    split.
    + rewrite <- (assoc_L (++)). apply NoDup_app in Hnd as (Ho1 & Hd & Hnr).
      apply NoDup_app. split; [done|]. cbn. split.
      * intros x Hx [->|[Hin|[Hin _]]%Hr']%elem_of_cons; [done| |].
        -- apply (Hd x Hx). set_solver.
        -- apply (Hnew x Hin). set_solver.
      * constructor; [|by apply strict_sorted_NoDup].
        intros [Hin|[Hin _]]%Hr'; [by inversion Hnr|]. apply (Hnew n Hin). set_solver.
    + intros m. rewrite <- (assoc_L (++)), elem_of_app. cbn. rewrite elem_of_cons, Hr'.
      intros [Hm|[->|[Hm|[(e & He & _ & <-)%targets_in _]]]]; [| | |by apply Hedges]; apply Hsub; set_solver.
    + done.
    + refine (holds_ext _ _ _ _ Hf'). intros m _. rewrite (occurrences_targets_done m n o edges Hno). lia.
    + intros m Hm. rewrite <- (assoc_L (++)), elem_of_app. cbn. rewrite elem_of_cons, Hr'.
      pose proof (occurrences_targets_done m n o edges Hno) as E. pose proof (Hz m Hm) as Hzm.
      rewrite elem_of_app, elem_of_cons in Hzm.
      pose proof (occurrences_nonneg m (targets (fun x => x ∉ o ++ [n]) edges)).
      pose proof (occurrences_nonneg m (targets (eq n) edges)).
      pose proof (occurrences_zero m (targets (eq n) edges)) as Hoz. split.
      * intros [Hm'|[Hm'|[Hm'|[_ Hm']]]]; [..|lia];
          (assert (occurrences m (targets (fun x => x ∉ o) edges) = 0) by (apply Hzm; tauto)); lia.
      * intros Hm'. destruct (decide (m ∈ targets (eq n) edges)) as [Hin|Hin]; [|apply Hoz in Hin].
        -- right. right. right. split; [done|lia].
        -- assert (Hm0 : occurrences m (targets (fun x => x ∉ o) edges) = 0) by lia. apply Hzm in Hm0. tauto.
    + intros o1 m o2 Eo e He Hto. destruct o2 as [|x o2 _] using rev_ind.
      * apply app_inj_tail in Eo as [-> <-].
        assert (Hn0 : occurrences n (targets (fun x => x ∉ o1) edges) = 0).
        { apply Hz; [apply Hsub|]; set_solver. }
        apply occurrences_zero in Hn0. destruct (decide (from_node e ∈ o1)); [done|].
        exfalso. apply Hn0, targets_in. by exists e.
      * rewrite app_comm_cons, (assoc_L (++)) in Eo. apply app_inj_tail in Eo as [-> _].
        by eapply Ho.
Qed.

(** The loop ends before the fuel does, in a state with nothing ready. *)
Lemma drain_spec outgoing : (forall n, default [] (btree_get n outgoing) = targets (eq n) edges) ->
  forall fuel indegree r o,
  (List.length node_ids < fuel + List.length o)%nat -> drain_inv indegree r o ->
  exists o' indegree', drain fuel outgoing indegree r o = Ok o' /\ drain_inv indegree' [] o'.
Proof.
  intros Hout. induction fuel as [|fuel IH]; intros indegree r o Hfuel Hinv.
  - exfalso. assert (Hs : o ++ r ⊆+ node_ids) by (apply NoDup_submseteq; [apply Hinv|apply Hinv]).
    apply submseteq_length in Hs. rewrite length_app in Hs. lia.
  - cbn [drain]. destruct r as [|n r]; [by exists o, indegree|].
    destruct (drain_step _ _ _ _ Hinv) as (indegree' & r' & Hrun & Hinv').
    rewrite Hout, Hrun. cbn. apply IH; [|done]. rewrite length_app. cbn. lia.
Qed.

Lemma topological_order_unfold :
  exists o indegree, drain_inv indegree [] o /\
    topological_order node_ids edges
    = if negb (List.length o =? List.length node_ids)%nat then Err InvalidValue else Ok o.
Proof.
  edestruct (count_loop edges (btree_collect (map (fun node_id => (node_id, 0)) node_ids)) []
    (fun _ => 0)) as (indegree & outgoing & Hrun & Hiwf & Hf & Hout).
  - intros e He. by apply Hedges.
  - apply holds_zero.
  - intros m _. lia.
  - pose proof (Hiwf (btree_collect_wf _)) as Hiwf'.
    set (ready := bset_collect (map fst (filter (fun entry => entry.2 = 0) indegree))).
    assert (Hall : targets (fun x => x ∉ []) edges = map to_node edges).
    { unfold targets. f_equal. clear. induction edges as [|e es IH]; [done|].
      rewrite filter_cons, decide_True by set_solver. by rewrite IH. }
    assert (Hready : forall m, m ∈ ready <-> m ∈ node_ids /\ occurrences m (map to_node edges) = 0).
    { intros m. unfold ready. rewrite bset_collect_elem, list_elem_of_fmap. split.
      - intros ([m' d] & -> & [Hd Hin]%list_elem_of_filter). cbn in *. subst d.
        apply btree_elem_get in Hin; [|done]. rewrite Hf in Hin.
        destruct (decide (m' ∈ node_ids)); [|done]. split; [done|]. by injection Hin.
      - intros [Hm H0]. exists (m, 0). split; [done|]. apply list_elem_of_filter. split; [done|].
        apply btree_get_elem. rewrite Hf, decide_True by done. f_equal. lia. }
    edestruct (drain_spec outgoing) with (fuel := S (List.length node_ids)) (indegree := indegree)
      (r := ready) (o := @nil Ulid) as (o & indegree' & Hd & Hinv).
    + intros n. by rewrite Hout.
    + cbn. lia.
    + split; cbn [app].
      * apply strict_sorted_NoDup, bset_collect_wf.
      * intros m Hm. by apply Hready in Hm as [? _].
      * apply bset_collect_wf.
      * rewrite Hall. refine (holds_ext _ _ _ _ Hf). intros; lia.
      * intros m Hm. rewrite Hall, Hready. naive_solver.
      * intros o1 m o2 Eo. by destruct o1.
    + exists o, indegree'. split; [done|]. unfold topological_order. rewrite Hrun. cbn -[drain bset_collect filter].
      fold ready. rewrite Hd. done.
Qed.

(** ** Correctness and completeness *)

Definition precedes (o : list Ulid) (a b : Ulid) : Prop :=
  exists i j, o !! i = Some a /\ o !! j = Some b /\ (i < j)%nat.

Lemma order_spec o :
  topological_order node_ids edges = Ok o ->
  o ≡ₚ node_ids /\ forall e, e ∈ edges -> precedes o (from_node e) (to_node e).
Proof.
  destruct topological_order_unfold as (o' & indegree & Hinv & ->).
  destruct (Nat.eqb_spec (List.length o') (List.length node_ids)) as [Hlen|]; cbn [negb]; [|done].
  intros [= <-]. destruct Hinv as [Hnd Hsub _ _ _ Ho]. rewrite app_nil_r in Hnd.
  assert (Hperm : o' ≡ₚ node_ids).
  { apply submseteq_length_Permutation; [|lia]. apply NoDup_submseteq; [done|].
    intros m Hm. apply Hsub. by rewrite app_nil_r. }
  split; [done|]. intros e He. destruct (Hedges e He) as [_ Hto]. rewrite <- Hperm in Hto.
  apply list_elem_of_split in Hto as (o1 & o2 & Eo).
  pose proof (Ho o1 _ o2 Eo e He eq_refl) as Hin. apply list_elem_of_lookup in Hin as [i Hi].
  exists i, (List.length o1). rewrite Eo. split; [by apply lookup_app_l_Some|].
  split; [by rewrite list_lookup_middle|by eapply lookup_lt_Some].
Qed.

Lemma precedes_tc o : NoDup o -> (forall e, e ∈ edges -> precedes o (from_node e) (to_node e)) ->
  forall a b, tc (edge_rel edges) a b -> precedes o a b.
Proof.
  intros Hnd Ho a b. induction 1 as [a b (e & He & <- & <-)|a b c (e & He & <- & <-) _ IH]; [by apply Ho|].
  destruct (Ho e He) as (i & j & Hi & Hj & Hlt). destruct IH as (k & l & Hk & Hl & Hlt').
  exists i, l. split; [done|]. split; [done|]. pose proof (NoDup_lookup _ _ _ _ Hnd Hj Hk). lia.
Qed.

Lemma order_acyclic o : topological_order node_ids edges = Ok o -> ~ cyclic edges.
Proof.
  intros [Hp Ho]%order_spec [a Ha].
  assert (Hnd : NoDup o) by (rewrite Hp; by apply strict_sorted_NoDup).
  apply (precedes_tc o Hnd Ho) in Ha as (i & j & Hi & Hj & Hlt).
  pose proof (NoDup_lookup _ _ _ _ Hnd Hi Hj). lia.
Qed.

Lemma order_cyclic e : topological_order node_ids edges = Err e -> e = InvalidValue /\ cyclic edges.
Proof.
  destruct topological_order_unfold as (o & indegree & Hinv & ->).
  destruct (Nat.eqb_spec (List.length o) (List.length node_ids)) as [|Hlen]; cbn [negb]; [done|].
  intros [= <-]. split; [done|]. destruct Hinv as [Hnd Hsub _ _ Hz _]. rewrite app_nil_r in Hnd.
  assert (Hrest : forall m, m ∈ filter (fun m => m ∉ o) node_ids <-> m ∈ node_ids /\ m ∉ o).
  { intros m. rewrite list_elem_of_filter. tauto. }
  apply (predecessors_cycle _ (filter (fun m => m ∉ o) node_ids)).
  - intros Hnil. apply Hlen. apply Permutation_length, NoDup_Permutation; [done|by apply strict_sorted_NoDup|].
    intros m. split; [intros; apply Hsub; by rewrite app_nil_r|]. intros Hm.
    destruct (decide (m ∈ o)) as [|Hno]; [done|]. exfalso.
    assert (Hin : m ∈ filter (fun m => m ∉ o) node_ids) by (by apply Hrest). rewrite Hnil in Hin. set_solver.
  - intros m [Hm Hno]%Hrest.
    assert (Hnz : ~ occurrences m (targets (fun x => x ∉ o) edges) = 0).
    { intros H0. apply Hz in H0; [|done]. rewrite app_nil_r in H0. done. }
    rewrite occurrences_zero in Hnz.
    destruct (decide (m ∈ targets (fun x => x ∉ o) edges)) as [Hin|]; [|done].
    apply targets_in in Hin as (ed & Hed & Hfrom & <-).
    exists (from_node ed). split; [|by exists ed]. apply Hrest. split; [by apply Hedges|done].
Qed.

End kahn.

(** ** Properties *)

(** A computed order is an order of execution: it lists every node of the graph exactly once,
    and the source of every edge comes before its target. *)
Theorem topological_order_sound node_ids edges o :
  bset_wf node_ids -> edges_between_nodes node_ids edges -> Z.of_nat (List.length edges) < 2 ^ 64 ->
  topological_order node_ids edges = Ok o ->
  o ≡ₚ node_ids /\ forall e, e ∈ edges -> precedes o (from_node e) (to_node e).
Proof. intros Hwf Hed Hsz. by apply order_spec. Qed.

(** C3. Cycle detection is exact and the loop terminates: on edges between nodes the computation
    fails, with [InvalidValue], exactly when some node reaches itself. *)
Theorem topological_order_complete node_ids edges :
  bset_wf node_ids -> edges_between_nodes node_ids edges -> Z.of_nat (List.length edges) < 2 ^ 64 ->
  (topological_order node_ids edges = Err InvalidValue <-> cyclic edges) /\
  ((exists o, topological_order node_ids edges = Ok o) <-> ~ cyclic edges).
Proof.
  intros Hwf Hed Hsz. pose proof (order_acyclic node_ids edges Hwf Hed Hsz) as Ha.
  pose proof (order_cyclic node_ids edges Hwf Hed Hsz) as Hc.
  destruct (topological_order node_ids edges) as [o|e]; split; split.
  - done.
  - intros Hcy. exfalso. by apply (Ha o).
  - intros _. by apply (Ha o).
  - by exists o.
  - intros _. by apply (Hc e).
  - intros _. by destruct (Hc e eq_refl) as [-> _].
  - by intros [? ?].
  - intros Hn. exfalso. by apply Hn, (Hc e).
Qed.

Definition sample_edge (a b : string) : ResearchEdge :=
  {| from_node := sample_id a; from_port := "out"; to_node := sample_id b; to_port := "in" |}.

Definition sample_nodes : list Ulid := [sample_id "A"; sample_id "B"; sample_id "C"; sample_id "D"].
Definition sample_edges : list ResearchEdge :=
  [sample_edge "D" "B"; sample_edge "B" "A"; sample_edge "D" "C"; sample_edge "C" "A"].

Lemma sample_edges_between : edges_between_nodes sample_nodes sample_edges.
Proof.
  intros e He. unfold sample_edges in He. rewrite !elem_of_cons in He.
  destruct He as [->|[->|[->|[->|He]]]]; [..|by apply elem_of_nil in He];
    split; unfold sample_nodes, sample_edge; cbn; set_solver.
Qed.

Lemma sample_nodes_wf : bset_wf sample_nodes.
Proof. unfold bset_wf, sample_nodes. repeat constructor. Qed.

Lemma topological_order_sound_witness :
  topological_order sample_nodes sample_edges
    = Ok [sample_id "D"; sample_id "B"; sample_id "C"; sample_id "A"] /\
  precedes [sample_id "D"; sample_id "B"; sample_id "C"; sample_id "A"] (sample_id "C") (sample_id "A").
Proof.
  assert (E : topological_order sample_nodes sample_edges
    = Ok [sample_id "D"; sample_id "B"; sample_id "C"; sample_id "A"]) by (vm_compute; reflexivity).
  split; [exact E|].
  apply (proj2 (topological_order_sound _ _ _ sample_nodes_wf sample_edges_between eq_refl E)
    (sample_edge "C" "A")).
  unfold sample_edges. set_solver.
Defined.

Lemma topological_order_complete_witness : ~ cyclic sample_edges.
Proof.
  apply (topological_order_complete sample_nodes sample_edges sample_nodes_wf sample_edges_between eq_refl).
  eexists. vm_compute. reflexivity.
Defined.

Example cycle_example :
  topological_order [sample_id "A"; sample_id "B"] [sample_edge "A" "B"; sample_edge "B" "A"]
  = Err InvalidValue.
Proof. vm_compute. reflexivity. Qed.
