(* ===== verification/GraphWiring.v ===== *)
(** * The wiring and identity of a research graph

    What [ResearchGraph::new_with_external_inputs] guarantees of an accepted graph: every input port
    is bound exactly once and with its own type, the result does not depend on the order in which
    nodes and edges are given, and the digest identifies the graph. *)

From Stdlib Require Import ZArith Lia Strings.String.
From Stdlib Require Import Strings.Byte.
From stdpp Require Import base list option strings numbers sorting sets.
From S2P Require Import Prelude Machine Collections Primitives Codec Concrete ResearchGraph.
Open Scope Z_scope.

(** ** Bindings *)

Definition edge_target (e : ResearchEdge) : Ulid * string := (to_node e, to_port e).
Definition external_target (b : GraphExternalInputBinding) : Ulid * string :=
  (binding_to_node b, binding_to_port b).

(** An edge joins an output port to an input port of the same type. *)
Definition edge_typed (node_map : BTreeMap Ulid ResearchNode) (e : ResearchEdge) : Prop :=
  exists source target output input,
    btree_get (from_node e) node_map = Some source /\ btree_get (to_node e) node_map = Some target /\
    port (output_types (contract source)) (from_port e) = Ok output /\
    port (input_types (contract target)) (to_port e) = Ok input /\
    port_value_type output = port_value_type input.

Definition external_typed (node_map : BTreeMap Ulid ResearchNode)
    (declarations : BTreeMap string GraphExternalInput) (b : GraphExternalInputBinding) : Prop :=
  exists declaration target input,
    btree_get (binding_input_id b) declarations = Some declaration /\
    btree_get (binding_to_node b) node_map = Some target /\
    port (input_types (contract target)) (binding_to_port b) = Ok input /\
    input_value_type declaration = port_value_type input.

Definition insert_all {K} `{Ord K} (s l : list K) : list K := foldl (fun s k => bset_insert k s) s l.

Lemma insert_all_elem {K} `{OrdLaws K} (s l : list K) j : j ∈ insert_all s l <-> j ∈ l \/ j ∈ s.
Proof.
  revert s. induction l as [|k l IH]; intros s; [cbn; set_solver|].
  change (insert_all s (k :: l)) with (insert_all (bset_insert k s) l).
  rewrite IH, bset_insert_elem, elem_of_cons. tauto.
Qed.

Lemma insert_all_wf {K} `{OrdLaws K} (s l : list K) : bset_wf s -> bset_wf (insert_all s l).
Proof. intros Hs. by apply bset_collect_acc. Qed.

Lemma insert_new_Ok b s s' : insert_new b s = Ok s' <-> b ∉ s /\ s' = bset_insert b s.
Proof.
  unfold insert_new. pose proof (bset_contains_spec b s) as Hc.
  destruct (bset_contains b s); split; [done| |intros [= <-]|intros [_ ->]; done].
  - intros [Hn _]. exfalso. apply Hn. by apply Hc.
  - split; [|done]. intros Hin. by apply Hc in Hin.
Qed.

Lemma bind_edge_Ok node_map s e s' :
  bind_edge node_map s e = Ok s' <->
  edge_typed node_map e /\ edge_target e ∉ s /\ s' = bset_insert (edge_target e) s.
Proof.
  unfold bind_edge, edge_typed. split.
  - intros E. do 4 (apply bind_Ok in E as (? & ? & E)). repeat res_step. breflect.
    apply insert_new_Ok in E. naive_solver.
  - intros ((source & target & output & input & E1 & E2 & E3 & E4 & E5) & Hs).
    rewrite E1, E2. cbn. rewrite E3. cbn. rewrite E4. cbn. rewrite bool_decide_true by done. cbn.
    by apply insert_new_Ok.
Qed.

Lemma bind_edges_Ok node_map s es s' :
  try_fold (bind_edge node_map) s es = Ok s' <->
  Forall (edge_typed node_map) es /\ NoDup (map edge_target es) /\
  (forall x, x ∈ map edge_target es -> x ∉ s) /\ s' = insert_all s (map edge_target es).
Proof.
  revert s. induction es as [|e es IH]; intros s; cbn [try_fold map].
  { split; [intros [= <-]; split; [constructor|split; [constructor|split; [set_solver|done]]]|].
    by intros (_ & _ & _ & ->). }
  rewrite bind_Ok. setoid_rewrite bind_edge_Ok. setoid_rewrite IH. split.
  - intros (s1 & (Ht & Hn & ->) & Hes & Hnd & Hdis & ->).
    split; [by constructor|]. split.
    { constructor; [|done]. intros Hin. apply (Hdis _ Hin), bset_insert_elem. by left. }
    split; [|done]. intros x [->|Hx]%elem_of_cons; [done|].
    intros Hin. apply (Hdis x Hx), bset_insert_elem. by right.
  - intros (Hes & Hnd & Hdis & ->). inversion_clear Hes. inversion_clear Hnd.
    exists (bset_insert (edge_target e) s). split; [split; [done|split; [apply Hdis; set_solver|done]]|].
    split; [done|]. split; [done|]. split; [|done].
    intros x Hx [->|Hin]%bset_insert_elem; [done|]. by apply (Hdis x); [set_solver|].
Qed.

Lemma bind_external_Ok node_map declarations s u b s' u' :
  bind_external node_map declarations (s, u) b = Ok (s', u') <->
  external_typed node_map declarations b /\ external_target b ∉ s
  /\ s' = bset_insert (external_target b) s /\ u' = bset_insert (binding_input_id b) u.
Proof.
  unfold bind_external, external_typed. split.
  - intros E. do 3 (apply bind_Ok in E as (? & ? & E)). repeat res_step. breflect.
    match goal with H : insert_new _ _ = Ok _ |- _ => apply insert_new_Ok in H end. naive_solver.
  - intros ((declaration & target & input & E1 & E2 & E3 & E4) & Hs & -> & ->).
    rewrite E1, E2. cbn. rewrite E3. cbn. rewrite bool_decide_true by done. cbn.
    change (binding_to_node b, binding_to_port b) with (external_target b).
    by rewrite (proj2 (insert_new_Ok (external_target b) s (bset_insert (external_target b) s))).
Qed.

Lemma bind_externals_Ok node_map declarations s u bs s' u' :
  try_fold (bind_external node_map declarations) (s, u) bs = Ok (s', u') <->
  Forall (external_typed node_map declarations) bs /\ NoDup (map external_target bs) /\
  (forall x, x ∈ map external_target bs -> x ∉ s) /\ s' = insert_all s (map external_target bs) /\
  u' = insert_all u (map binding_input_id bs).
Proof.
  revert s u. induction bs as [|b bs IH]; intros s u; cbn [try_fold map].
  { split; [intros [= <- <-]; split; [constructor|split; [constructor|split; [set_solver|done]]]|].
    by intros (_ & _ & _ & -> & ->). }
  rewrite bind_Ok. split.
  - intros ([s1 u1] & (Ht & Hn & -> & ->)%bind_external_Ok & (Hes & Hnd & Hdis & -> & ->)%IH).
    split; [by constructor|]. split.
    { constructor; [|done]. intros Hin. apply (Hdis _ Hin), bset_insert_elem. by left. }
    split; [|done]. intros x [->|Hx]%elem_of_cons; [done|].
    intros Hin. apply (Hdis x Hx), bset_insert_elem. by right.
  - intros (Hes & Hnd & Hdis & -> & ->). inversion_clear Hes. inversion_clear Hnd.
    exists (bset_insert (external_target b) s, bset_insert (binding_input_id b) u).
    split; [apply bind_external_Ok; split; [done|split; [apply Hdis; set_solver|done]]|].
    apply IH. split; [done|]. split; [done|]. split; [|done].
    intros x Hx [->|Hin]%bset_insert_elem; [done|]. by apply (Hdis x); [set_solver|].
Qed.

(** ** The specification of a wired graph *)

Definition declared (external_inputs : list GraphExternalInput) : BTreeMap string GraphExternalInput :=
  btree_collect (map (fun input => (input_id input, input)) external_inputs).

Definition all_targets (edges : list ResearchEdge) (bindings : list GraphExternalInputBinding)
    : list (Ulid * string) := map edge_target edges ++ map external_target bindings.

(** Edges and external bindings are typed, no input port is bound twice, none is left unbound, and
    every external input is used. *)
Record well_wired (node_map : BTreeMap Ulid ResearchNode) (edges : list ResearchEdge)
    (external_inputs : list GraphExternalInput) (bindings : list GraphExternalInputBinding) : Prop := {
  ww_edges : Forall (edge_typed node_map) edges;
  ww_bindings : Forall (external_typed node_map (declared external_inputs)) bindings;
  ww_once : NoDup (all_targets edges bindings);
  ww_bound : forall node input, node ∈ btree_values node_map -> input ∈ input_types (contract node) ->
    (node_id node, port_name input) ∈ all_targets edges bindings;
  ww_used : forall input, input ∈ external_inputs -> input_id input ∈ map binding_input_id bindings
}.

Lemma inputs_bound_true node_map bindings :
  inputs_bound node_map bindings = true <->
  forall node input, node ∈ btree_values node_map -> input ∈ input_types (contract node) ->
    (node_id node, port_name input) ∈ bindings.
Proof.
  unfold inputs_bound. rewrite forallb_forall. setoid_rewrite <- list_elem_of_In.
  split; intros Hall node.
  - intros input Hn Hi. specialize (Hall node Hn). rewrite forallb_forall in Hall.
    by apply bset_contains_spec, Hall, list_elem_of_In.
  - intros Hn. apply forallb_forall. intros input Hi%list_elem_of_In.
    by apply bset_contains_spec, Hall.
Qed.

Lemma declared_get external_inputs id i :
  btree_get id (declared external_inputs) = Some i -> id ∈ map input_id external_inputs.
Proof.
  intros H. destruct (decide (id ∈ map input_id external_inputs)) as [|Hn]; [done|]. exfalso.
  assert (Hnone : btree_get id (declared external_inputs) = None); [|congruence].
  unfold declared, btree_collect. clear H.
  assert (Hnil : btree_get id ([] : BTreeMap string GraphExternalInput) = None) by done.
  revert Hnil. generalize ([] : BTreeMap string GraphExternalInput).
  induction external_inputs as [|x l IH]; intros acc Hacc; cbn in *; [done|].
  apply IH; [set_solver|]. rewrite btree_get_insert_ne by set_solver. done.
Qed.

(** All declared inputs are used exactly when as many identifiers are used as declared. *)
Lemma used_all external_inputs bindings node_map :
  NoDup (map input_id external_inputs) ->
  Forall (external_typed node_map (declared external_inputs)) bindings ->
  List.length (insert_all [] (map binding_input_id bindings)) = List.length external_inputs <->
  forall input, input ∈ external_inputs -> input_id input ∈ map binding_input_id bindings.
Proof.
  intros Hnd Hbs. set (used := insert_all [] (map binding_input_id bindings)).
  assert (Hu : forall id, id ∈ used <-> id ∈ map binding_input_id bindings).
  { intros id. unfold used. rewrite insert_all_elem. set_solver. }
  assert (Hund : NoDup used) by (apply strict_sorted_NoDup, insert_all_wf; constructor).
  assert (Hsub : used ⊆+ map input_id external_inputs).
  { apply NoDup_submseteq; [done|]. intros id (b & -> & Hb)%Hu%list_elem_of_fmap.
    rewrite Forall_forall in Hbs. destruct (Hbs b Hb) as (d & _ & _ & Hd & _). by eapply declared_get. }
  rewrite <- (length_map input_id external_inputs). split.
  - intros Hlen input Hin. apply Hu. apply submseteq_length_Permutation in Hsub as ->; [|lia].
    apply list_elem_of_fmap. by exists input.
  - intros Hall. apply Permutation_length, NoDup_Permutation; [done|done|]. intros id. split.
    + intros Hin. by apply (elem_of_submseteq used).
    + intros (i & -> & Hi)%list_elem_of_fmap. apply Hu, Hall, Hi.
Qed.

Lemma validate_bindings_Ok node_map edges external_inputs bindings :
  NoDup (map input_id external_inputs) ->
  validate_bindings node_map edges external_inputs bindings = Ok tt <->
  well_wired node_map edges external_inputs bindings.
Proof.
  intros Hnd. unfold validate_bindings. fold (declared external_inputs). split.
  - intros E. apply bind_Ok in E as (s & (He & Hed & _ & ->)%bind_edges_Ok & E).
    apply bind_Ok in E as ([s' u'] & (Hb & Hbd & Hdis & -> & ->)%bind_externals_Ok & E).
    res_step. res_step. breflect.
    apply Nat.eqb_eq in E0. pose proof (proj1 (inputs_bound_true _ _) E1) as Hin.
    split; [done|done| | |].
    + apply NoDup_app. split; [done|]. split; [|done]. intros x Hx Hx'. apply (Hdis x Hx').
      apply insert_all_elem. by left.
    + intros node input Hn Hi. specialize (Hin node input Hn Hi). rewrite !insert_all_elem in Hin.
      unfold all_targets. set_solver.
    + by eapply used_all.
  - intros [He Hb Hod Hbd Hu]. unfold all_targets in *. apply NoDup_app in Hod as (Hed & Hdis & Hbnd).
    set (s := insert_all [] (map edge_target edges)).
    rewrite (proj2 (bind_edges_Ok node_map [] edges s))
      by (split; [done|split; [done|split; [set_solver|done]]]).
    cbn [mbind Result_bind].
    rewrite (proj2 (bind_externals_Ok node_map (declared external_inputs) s [] bindings
      (insert_all s (map external_target bindings)) (insert_all [] (map binding_input_id bindings)))).
    2: { split; [done|]. split; [done|]. split; [|done]. intros x Hx Hx'.
         apply insert_all_elem in Hx' as [Hx'|Hx']; [by apply (Hdis x)|set_solver]. }
    cbn [mbind Result_bind]. rewrite (proj2 (used_all external_inputs bindings node_map Hnd Hb)) by done.
    rewrite Nat.eqb_refl. cbn [negb].
    rewrite (proj2 (inputs_bound_true _ _)); [done|]. intros node input Hn Hi.
    unfold s. rewrite !insert_all_elem. specialize (Hbd node input Hn Hi). set_solver.
Qed.
