(* ===== verification/GraphConstruction.v ===== *)
(** * Construction of research graphs

    The constructor [ResearchGraph::new_with_external_inputs] as a whole: what it guarantees of an
    accepted graph, its independence of the order of the input, and the identity given by the digest. *)

From Stdlib Require Import ZArith Lia Strings.String.
From Stdlib Require Import Strings.Byte.
From stdpp Require Import base list option strings numbers sorting sets.
From S2P Require Import Prelude Machine Collections Primitives Codec Concrete ResearchGraph GraphOrder.
From S2P Require Import GraphWiring.
Open Scope Z_scope.

Lemma edge_key_inj a b : edge_key a = edge_key b -> a = b.
Proof. destruct a, b. unfold edge_key. cbn. by intros [= -> -> -> ->]. Qed.

Lemma binding_key_inj a b : binding_key a = binding_key b -> a = b.
Proof. destruct a, b. unfold binding_key. cbn. by intros [= -> -> ->]. Qed.

(** The four tests for repetitions compare the sorting keys. *)
Lemma same_node a b : bool_decide (node_id a = node_id b) = true <-> node_id a = node_id b.
Proof. apply bool_decide_eq_true. Qed.

Lemma same_edge (a b : ResearchEdge) : bool_decide (a = b) = true <-> edge_key a = edge_key b.
Proof. rewrite bool_decide_eq_true. split; [by intros ->|apply edge_key_inj]. Qed.

Lemma same_input a b : bool_decide (input_id a = input_id b) = true <-> input_id a = input_id b.
Proof. apply bool_decide_eq_true. Qed.

Lemma same_binding (a b : GraphExternalInputBinding) :
  bool_decide (a = b) = true <-> binding_key a = binding_key b.
Proof. rewrite bool_decide_eq_true. split; [by intros ->|apply binding_key_inj]. Qed.

(** ** Independence of the input order *)

Lemma new_perm `{Sha256} i j xs ys bs cs :
  in_graph_id i = in_graph_id j -> in_version i = in_version j -> in_owner i = in_owner j ->
  in_nodes i ≡ₚ in_nodes j -> in_edges i ≡ₚ in_edges j -> xs ≡ₚ ys -> bs ≡ₚ cs ->
  research_graph_new_with_external_inputs i xs bs = research_graph_new_with_external_inputs j ys cs.
Proof.
  destruct i as [id ver own ns es], j as [id' ver' own' ns' es']; cbn.
  intros <- <- <- Hn He Hx Hb. unfold research_graph_new_with_external_inputs.
  cbn [in_nodes in_edges in_graph_id in_version in_owner]. cbv zeta.
  destruct (canonical_sort_perm node_id _ ns ns' same_node Hn) as [Dn En].
  destruct (canonical_sort_perm edge_key _ es es' same_edge He) as [De Ee].
  destruct (canonical_sort_perm input_id _ xs ys same_input Hx) as [Dx Ex].
  destruct (canonical_sort_perm binding_key _ bs cs same_binding Hb) as [Db Eb].
  assert (Hnil : bool_decide (ns = []) = bool_decide (ns' = [])).
  { apply bool_decide_ext. split; intros ->; [by apply Permutation_nil_l in Hn|by apply Permutation_nil_r in Hn]. }
  rewrite Hnil, <- Dn, <- De, <- Dx, <- Db. clear Hnil Dn De Dx Db.
  destruct (bool_decide _); [done|].
  destruct (windows2_any _ (sort_by_key node_id ns)); [done|]. rewrite <- (En eq_refl).
  destruct (windows2_any _ (sort_by_key edge_key es)); [done|]. rewrite <- (Ee eq_refl).
  destruct (windows2_any _ (sort_by_key input_id xs)); [done|]. rewrite <- (Ex eq_refl).
  destruct (windows2_any _ (sort_by_key binding_key bs)); [done|]. by rewrite <- (Eb eq_refl).
Qed.

(** ** What acceptance guarantees *)

Definition node_map_of (ns : list ResearchNode) : BTreeMap Ulid ResearchNode :=
  map (fun node => (node_id node, node)) ns.

Lemma node_map_keys ns : btree_keys (node_map_of ns) = node_id <$> ns.
Proof. unfold btree_keys, node_map_of. induction ns as [|n ns IH]; cbn; [done|by rewrite <- IH]. Qed.

Lemma node_map_values ns : btree_values (node_map_of ns) = ns.
Proof. unfold btree_values, node_map_of. induction ns as [|n ns IH]; cbn; [done|]. by f_equal. Qed.

Lemma StronglySorted_keys {A K} `{Ord K} (key : A -> K) (l : list A) :
  StronglySorted (fun x y => cmp (key x) (key y) = Lt) l ->
  StronglySorted (fun a b => cmp a b = Lt) (key <$> l).
Proof.
  induction 1 as [|x l Hl IH Hx]; cbn; constructor; [done|]. apply Forall_fmap.
  eapply Forall_impl; [exact Hx|done].
Qed.

Lemma strictly_sorted {A K} `{OrdLaws K} (key : A -> K) (same : A -> A -> bool) (l : list A) :
  (forall x y, same x y = true <-> key x = key y) ->
  windows2_any same (sort_by_key key l) = false ->
  StronglySorted (fun a b => cmp a b = Lt) (key <$> sort_by_key key l).
Proof.
  intros Hsame Hw. apply StronglySorted_keys, (sorted_strict key same); [|apply sort_by_key_sorted|done].
  intros x y Hf Hk. apply Hsame in Hk. congruence.
Qed.

(** An accepted graph: its lists are the inputs in canonical order without repetitions, it is
    well wired, and its order is an order of execution. *)
Record valid_graph (i : ResearchGraphInput) (xs : list GraphExternalInput)
    (bs : list GraphExternalInputBinding) (g : ResearchGraph) : Prop := {
  valid_nodes : nodes g ≡ₚ in_nodes i;
  valid_edges : edges g ≡ₚ in_edges i;
  valid_inputs : external_inputs g ≡ₚ xs;
  valid_bindings : external_input_bindings g ≡ₚ bs;
  valid_nonempty : nodes g <> [];
  valid_ids : bset_wf (node_id <$> nodes g);
  valid_input_ids : NoDup (input_id <$> external_inputs g);
  valid_wired : well_wired (node_map_of (nodes g)) (edges g) (external_inputs g) (external_input_bindings g);
  valid_order : topological_order (node_id <$> nodes g) (edges g) = Ok (topological_order_field g)
}.

Lemma new_valid `{Sha256} i xs bs g :
  research_graph_new_with_external_inputs i xs bs = Ok g ->
  valid_graph i xs bs g /\ graph_id g = in_graph_id i /\ graph_version g = in_version i
  /\ graph_owner g = in_owner i /\ graph_digest g = digest (graph_canonical_bytes g).
Proof.
  unfold research_graph_new_with_external_inputs. intros E.
  destruct (bool_decide (in_nodes i = [])) eqn:Hnil; [discriminate E|].
  destruct (windows2_any _ (sort_by_key node_id _)) eqn:Dn; [discriminate E|].
  destruct (windows2_any _ (sort_by_key edge_key _)) eqn:De; [discriminate E|].
  destruct (windows2_any _ (sort_by_key input_id _)) eqn:Dx; [discriminate E|].
  destruct (windows2_any _ (sort_by_key binding_key _)) eqn:Db; [discriminate E|].
  apply bool_decide_eq_false in Hnil.
  pose proof (strictly_sorted node_id _ _ same_node Dn) as Sn.
  pose proof (strictly_sorted input_id _ _ same_input Dx) as Sx.
  set (ns := sort_by_key node_id (in_nodes i)) in *.
  assert (Hmap : btree_collect (map (fun node => (node_id node, node)) ns) = node_map_of ns).
  { apply (btree_collect_sorted (node_map_of ns)). pose proof Sn as Sm.
    rewrite <- node_map_keys in Sm. exact Sm. }
  rewrite Hmap, node_map_keys in E.
  apply bind_Ok in E as ([] & Hv & E). apply bind_Ok in E as (o & Ho & E). injection E as <-.
  apply strict_sorted_NoDup in Sx as Sx'.
  apply validate_bindings_Ok in Hv; [|exact Sx'].
  split; [|done]. split; cbn; try (unfold ns, sort_by_key; by rewrite sort_by_perm); try done.
  intros Hns. apply Hnil. assert (Hp : ns ≡ₚ in_nodes i) by (unfold ns, sort_by_key; by rewrite sort_by_perm).
  rewrite Hns in Hp. by apply Permutation_nil_l in Hp.
Qed.

(** ** Identity of the digest *)

Definition wf_typed_value (v : TypedValue) : Prop :=
  wf_str (type_id v) /\ wf_version (type_version v) /\ wf_hash (schema_hash v).
Definition wf_port (p : PortType) : Prop := wf_str (port_name p) /\ wf_typed_value (port_value_type p).

(** Lists hold less than [2^64] elements. *)
Definition wf_list {A} (P : A -> Prop) (l : list A) : Prop :=
  Forall P l /\ Z.of_nat (List.length l) < 2 ^ 64.

Definition wf_contract (c : ResearchNodeContract) : Prop :=
  wf_str (contract_id c) /\ wf_version (contract_version c) /\ wf_list wf_port (input_types c)
  /\ wf_list wf_port (output_types c) /\ wf_hash (state_schema c) /\ wf_hash (parameter_schema c)
  /\ in_u16 (cpu_cores (resource_limits c)) = true /\ in_u32 (memory_mb (resource_limits c)) = true
  /\ in_u32 (timeout_seconds (resource_limits c)) = true /\ wf_list wf_str (required_invariants c).

Lemma version_in_u64 v : wf_version v -> in_u64 (version_get v) = true.
Proof. unfold wf_version. intros. ranges. lia. Qed.

(** Reads one self-delimiting field off both sides of an equation. *)
Ltac sd_step lem E :=
  let F := fresh "F" in
  rewrite <- ?(assoc_L (++)) in E; apply lem in E; [destruct E as [F E]|..].

Lemma version_eq v w : version_get v = version_get w -> v = w.
Proof. destruct v, w. cbn. congruence. Qed.

Lemma sd_typed_value : self_delimiting wf_typed_value push_typed_value.
Proof.
  intros a b r s (Ha1 & Ha2 & Ha3) (Hb1 & Hb2 & Hb3) E. unfold push_typed_value in E.
  sd_step sd_str E; [|done..]. sd_step sd_u64 E; [|by apply version_in_u64..]. sd_step sd_hash E; [|done..].
  apply version_eq in F0. destruct a, b; cbn in *; subst; done.
Qed.

Lemma sd_port : self_delimiting wf_port push_port.
Proof.
  intros a b r s (Ha1 & Ha2) (Hb1 & Hb2) E. unfold push_port in E.
  sd_step sd_str E; [|done..]. sd_step sd_typed_value E; [|done..].
  destruct a, b; cbn in *; subst; done.
Qed.

Lemma sd_u32 : self_delimiting (fun z => in_u32 z = true) (to_be_bytes 4).
Proof. apply (sd_fixed _ _ 4); [intros; apply length_to_be_bytes|apply u32_be_inj]. Qed.

Lemma sd_u16 : self_delimiting (fun z => in_u16 z = true) (to_be_bytes 2).
Proof.
  apply (sd_fixed _ _ 2); [intros; apply length_to_be_bytes|].
  intros a b Ha Hb. ranges. apply (to_be_bytes_inj 2 0); cbn; lia.
Qed.

Lemma flags_inj d n b f d' n' b' f' r s :
  [byte_of_Z (determinism_code d); byte_of_Z (bool_code n); byte_of_Z (bool_code b);
   byte_of_Z (filesystem_code f)] ++ r
  = [byte_of_Z (determinism_code d'); byte_of_Z (bool_code n'); byte_of_Z (bool_code b');
     byte_of_Z (filesystem_code f')] ++ s ->
  (d = d' /\ n = n' /\ b = b' /\ f = f') /\ r = s.
Proof. intros E. destruct d, n, b, f, d', n', b', f'; try done; by injection E as ->. Qed.

Lemma contract_bytes_inj c d :
  wf_contract c -> wf_contract d -> contract_digest c = contract_digest d ->
  contract_canonical_bytes c = contract_canonical_bytes d -> c = d.
Proof.
  intros (C1 & C2 & C3 & C4 & C5 & C6 & C7 & C8 & C9 & C10) (D1 & D2 & D3 & D4 & D5 & D6 & D7 & D8 & D9 & D10)
    Ed E.
  unfold contract_canonical_bytes in E. apply app_inv_head in E.
  sd_step sd_str E; [|done..]. sd_step sd_u64 E; [|by apply version_in_u64..].
  sd_step (sd_seq _ _ sd_port) E; [|done..]. sd_step (sd_seq _ _ sd_port) E; [|done..].
  sd_step sd_hash E; [|done..]. sd_step sd_hash E; [|done..].
  apply flags_inj in E as [(G1 & G2 & G3 & G4) E].
  sd_step sd_u16 E; [|done..]. sd_step sd_u32 E; [|done..]. sd_step sd_u32 E; [|done..].
  apply (self_delimiting_inj _ _ _ _ (sd_seq _ _ sd_str)) in E; [|done..].
  apply version_eq in F0.
  destruct c as [? ? ? ? ? ? ? [] [] ? ?], d as [? ? ? ? ? ? ? [] [] ? ?]. cbn in *. subst. done.
Qed.

(** The constructor of contracts stores the digest of the bytes. *)
Definition contract_addressed `{Sha256} (c : ResearchNodeContract) : Prop :=
  contract_digest c = digest (contract_canonical_bytes c).

Lemma contract_new_addressed `{Sha256} i c : research_node_contract_new i = Ok c -> contract_addressed c.
Proof.
  unfold research_node_contract_new. intros E. repeat res_step. by subst c.
Qed.

Lemma contract_identifies `{Sha256} c d :
  contract_addressed c -> contract_addressed d -> wf_contract c -> wf_contract d ->
  contract_digest c = contract_digest d -> c = d \/ collides (contract_canonical_bytes c) (contract_canonical_bytes d).
Proof.
  unfold contract_addressed. intros Hc Hd Wc Wd E. pose proof E as E'. rewrite Hc, Hd in E'.
  apply digest_collides in E' as [E'|]; [left|by right]. by apply contract_bytes_inj.
Qed.

Section graph_digest.
Context `{UlidCrate} `{Sha256}.

Definition wf_node (n : ResearchNode) : Prop :=
  wf_ulid (node_id n) /\ wf_contract (contract n) /\ contract_addressed (contract n)
  /\ wf_hash (contract_digest (contract n)) /\ wf_hash (parameters_hash n).
Definition wf_edge (e : ResearchEdge) : Prop :=
  wf_ulid (from_node e) /\ wf_str (from_port e) /\ wf_ulid (to_node e) /\ wf_str (to_port e).
Definition wf_external_input (i : GraphExternalInput) : Prop :=
  wf_str (input_id i) /\ wf_typed_value (input_value_type i).
Definition wf_external_binding (b : GraphExternalInputBinding) : Prop :=
  wf_str (binding_input_id b) /\ wf_ulid (binding_to_node b) /\ wf_str (binding_to_port b).

Definition wf_graph (g : ResearchGraph) : Prop :=
  wf_ulid (graph_id g) /\ wf_version (graph_version g) /\ wf_owner (graph_owner g)
  /\ wf_list wf_node (nodes g) /\ wf_list wf_edge (edges g)
  /\ wf_list wf_external_input (external_inputs g)
  /\ wf_list wf_external_binding (external_input_bindings g).

Lemma ulid_wf_str u : wf_ulid u -> wf_str (ulid_str u).
Proof. intros Hu%wf_ulid_len. unfold wf_str, str_len. lia. Qed.

Lemma ulid_eq u v : ulid_str u = ulid_str v -> u = v.
Proof. destruct u, v. cbn. congruence. Qed.

(** What the bytes of a node determine: everything, with the contract by its digest. *)
Definition node_key (n : ResearchNode) : Ulid * ContentHash * ContentHash :=
  (node_id n, contract_digest (contract n), parameters_hash n).

Definition push_node_key (k : Ulid * ContentHash * ContentHash) : list byte :=
  push_str (ulid_str k.1.1) ++ hash_bytes k.1.2 ++ hash_bytes k.2.

Lemma push_nodes_keys ns : push_seq push_node ns = push_seq push_node_key (map node_key ns).
Proof. unfold push_seq. rewrite length_map. f_equal. induction ns as [|n ns IH]; cbn; [done|by rewrite IH]. Qed.

Lemma sd_node_key :
  self_delimiting (fun k => wf_ulid k.1.1 /\ wf_hash k.1.2 /\ wf_hash k.2) push_node_key.
Proof.
  intros [[a1 a2] a3] [[b1 b2] b3] r s (A1 & A2 & A3) (B1 & B2 & B3) E. unfold push_node_key in E. cbn in *.
  sd_step sd_str E; [|by apply ulid_wf_str..]. sd_step sd_hash E; [|done..]. sd_step sd_hash E; [|done..].
  apply ulid_eq in F. by subst.
Qed.

Lemma sd_edge : self_delimiting wf_edge push_edge.
Proof.
  intros a b r s (A1 & A2 & A3 & A4) (B1 & B2 & B3 & B4) E. unfold push_edge in E.
  sd_step sd_str E; [|by apply ulid_wf_str..]. sd_step sd_str E; [|done..].
  sd_step sd_str E; [|by apply ulid_wf_str..]. sd_step sd_str E; [|done..].
  apply ulid_eq in F, F1. destruct a, b; cbn in *; by subst.
Qed.

Lemma sd_external_input : self_delimiting wf_external_input push_external_input.
Proof.
  intros a b r s (A1 & A2) (B1 & B2) E. unfold push_external_input in E.
  sd_step sd_str E; [|done..]. sd_step sd_typed_value E; [|done..]. destruct a, b; cbn in *; by subst.
Qed.

Lemma sd_binding : self_delimiting wf_external_binding push_binding.
Proof.
  intros a b r s (A1 & A2 & A3) (B1 & B2 & B3) E. unfold push_binding in E.
  sd_step sd_str E; [|done..]. sd_step sd_str E; [|by apply ulid_wf_str..]. sd_step sd_str E; [|done..].
  apply ulid_eq in F0. destruct a, b; cbn in *; by subst.
Qed.

(** Nodes with equal keys are equal, up to a collision of their contracts. *)
Lemma node_keys_identify ns ms :
  Forall wf_node ns -> Forall wf_node ms -> map node_key ns = map node_key ms -> ns = ms \/ collision.
Proof.
  intros Hns. revert ms. induction Hns as [|n ns Hn Hns IH]; intros [|m ms] Hms E; try done; [by left|].
  apply List.Forall_cons_iff in Hms as [Hm Hms]. cbn in E. injection E as E1 E2 E3 E.
  destruct (IH ms Hms E) as [->|]; [|by right].
  destruct Hn as (_ & Wn & An & _ & _), Hm as (_ & Wm & Am & _ & _).
  destruct (contract_identifies _ _ An Am Wn Wm E2) as [Ec|]; [left|right; by eexists _, _].
  destruct n, m; cbn in *; by subst.
Qed.

Lemma graph_bytes_inj g h :
  wf_graph g -> wf_graph h -> graph_canonical_bytes g = graph_canonical_bytes h ->
  collision \/
  (graph_id g = graph_id h /\ graph_version g = graph_version h /\ graph_owner g = graph_owner h
   /\ nodes g = nodes h /\ edges g = edges h /\ external_inputs g = external_inputs h
   /\ external_input_bindings g = external_input_bindings h).
Proof.
  intros (G1 & G2 & [G3 G4] & [G5 L5] & G6 & G7 & G8) (K1 & K2 & [K3 K4] & [K5 M5] & K6 & K7 & K8) E.
  unfold graph_canonical_bytes in E. apply app_inv_head in E. rewrite !push_nodes_keys in E.
  sd_step sd_str E; [|by apply ulid_wf_str..]. sd_step sd_u64 E; [|by apply version_in_u64..].
  sd_step sd_str E; [|by apply ulid_wf_str..]. sd_step sd_str E; [|by apply ulid_wf_str..].
  assert (Hkeys : forall l, Forall wf_node l -> Z.of_nat (List.length l) < 2 ^ 64 ->
    Forall (fun k => wf_ulid k.1.1 /\ wf_hash k.1.2 /\ wf_hash k.2) (map node_key l)
    /\ Z.of_nat (List.length (map node_key l)) < 2 ^ 64).
  { intros l Hl Hlen. rewrite length_map. split; [|done]. apply Forall_fmap.
    eapply Forall_impl; [exact Hl|]. by intros n (? & ? & ? & ? & ?). }
  sd_step (sd_seq _ _ sd_node_key) E; [|by apply Hkeys..].
  sd_step (sd_seq _ _ sd_edge) E; [|done..]. sd_step (sd_seq _ _ sd_external_input) E; [|done..].
  apply (self_delimiting_inj _ _ _ _ (sd_seq _ _ sd_binding)) in E; [|done..].
  apply node_keys_identify in F3 as [F3|]; [right|by left|done|done].
  apply ulid_eq in F, F1, F2. apply version_eq in F0.
  split; [done|]. split; [done|]. split; [|done].
  destruct (graph_owner g), (graph_owner h); cbn in *; by subst.
Qed.

Lemma graph_digest_spec i xs bs g j ys cs h :
  research_graph_new_with_external_inputs i xs bs = Ok g ->
  research_graph_new_with_external_inputs j ys cs = Ok h ->
  wf_graph g -> wf_graph h -> graph_digest g = graph_digest h -> g = h \/ collision.
Proof.
  intros (Vg & _ & _ & _ & Dg)%new_valid (Vh & _ & _ & _ & Dh)%new_valid Wg Wh E.
  pose proof E as E'. rewrite Dg, Dh in E'. apply digest_inj in E' as [E'|]; [|by right].
  apply graph_bytes_inj in E' as [|(E1 & E2 & E3 & E4 & E5 & E6 & E7)]; [by right|left|done|done].
  pose proof (valid_order _ _ _ _ Vg) as Og. pose proof (valid_order _ _ _ _ Vh) as Oh.
  rewrite E4, E5, Oh in Og. injection Og as Og. destruct g, h; cbn in *; by subst.
Qed.

End graph_digest.

Lemma wired_between g i xs bs : valid_graph i xs bs g -> edges_between_nodes (node_id <$> nodes g) (edges g).
Proof.
  intros V e He. destruct (valid_wired _ _ _ _ V) as [Hed _ _ _ _]. rewrite Forall_forall in Hed.
  destruct (Hed e He) as (source & target & _ & _ & Hs & Ht & _).
  apply btree_get_elem in Hs, Ht. rewrite <- node_map_keys. unfold btree_keys.
  split; apply list_elem_of_fmap; [by exists (from_node e, source)|by exists (to_node e, target)].
Qed.

(** ** Examples and properties *)

Definition sample_type (s : string) : TypedValue :=
  {| type_id := s; type_version := mk_version 1; schema_hash := sample_hash x03 |}.

Definition sample_contract_input (id : string) (ins outs : list PortType) : ResearchNodeContract := {|
  contract_id := id; contract_version := mk_version 1; input_types := ins; output_types := outs;
  state_schema := sample_hash x01; parameter_schema := sample_hash x02;
  determinism_class := Deterministic;
  permissions := {| network := false; database := false; filesystem := NoFilesystem |};
  resource_limits := {| cpu_cores := 1; memory_mb := 64; timeout_seconds := 10 |};
  required_invariants := ["no-lookahead"%string]; contract_digest := sample_hash x00
|}.

Definition sample_contract (id : string) (ins outs : list PortType) : ResearchNodeContract :=
  match @research_node_contract_new sample_sha256 (sample_contract_input id ins outs) with
  | Ok c => c
  | Err _ => sample_contract_input id ins outs
  end.

Definition sample_port (name : string) : PortType :=
  {| port_name := name; port_value_type := sample_type "curve" |}.

Definition sample_graph_input : ResearchGraphInput := {|
  in_graph_id := sample_id "G"; in_version := mk_version 1; in_owner := sample_owner;
  in_nodes :=
    [{| node_id := sample_id "B"; parameters_hash := sample_hash x05;
        contract := sample_contract "price" [sample_port "in"] [sample_port "out"] |};
     {| node_id := sample_id "A"; parameters_hash := sample_hash x04;
        contract := sample_contract "load" [sample_port "raw"] [sample_port "out"] |}];
  in_edges := [sample_edge "A" "B"]
|}.
Definition sample_externals : list GraphExternalInput :=
  [{| input_id := "snapshot"; input_value_type := sample_type "curve" |}].
Definition sample_external_bindings : list GraphExternalInputBinding :=
  [{| binding_input_id := "snapshot"; binding_to_node := sample_id "A"; binding_to_port := "raw" |}].

Definition sample_graph : DomainResult ResearchGraph :=
  @research_graph_new_with_external_inputs sample_sha256 sample_graph_input sample_externals
    sample_external_bindings.

Example sample_graph_order :
  topological_order_field <$> sample_graph = Ok [sample_id "A"; sample_id "B"].
Proof. vm_compute. reflexivity. Qed.

(** C6. An accepted graph is well formed: it has exactly the given nodes, edges, inputs and bindings,
    with no node given twice; every edge and external binding joins ports of one type, every input
    port of every node is bound by exactly one of them, every external input is used; and its stored
    order lists every node once, each after the sources of its inputs. *)
Theorem research_graph_new_valid `{Sha256} i xs bs g :
  Z.of_nat (List.length (in_edges i)) < 2 ^ 64 ->
  research_graph_new_with_external_inputs i xs bs = Ok g ->
  nodes g ≡ₚ in_nodes i /\ edges g ≡ₚ in_edges i /\ external_inputs g ≡ₚ xs
  /\ external_input_bindings g ≡ₚ bs /\ NoDup (node_id <$> nodes g)
  /\ well_wired (node_map_of (nodes g)) (edges g) (external_inputs g) (external_input_bindings g)
  /\ topological_order_field g ≡ₚ (node_id <$> nodes g)
  /\ (forall e, e ∈ edges g -> precedes (topological_order_field g) (from_node e) (to_node e)).
Proof.
  intros Hsz (V & _)%new_valid.
  pose proof (order_spec _ _ (valid_ids _ _ _ _ V) (wired_between g i xs bs V)) as Ho.
  destruct V as [? ? ? ? _ Hids _ ? Hord]. destruct (Ho ltac:(by rewrite valid_edges0) _ Hord).
  do 4 (split; [done|]). split; [by apply strict_sorted_NoDup|]. by split.
Qed.

Lemma research_graph_new_valid_witness :
  exists g, sample_graph = Ok g /\ precedes (topological_order_field g) (sample_id "A") (sample_id "B").
Proof.
  destruct sample_graph as [g|e] eqn:E; [|vm_compute in E; discriminate E].
  exists g. split; [reflexivity|].
  destruct (@research_graph_new_valid sample_sha256 sample_graph_input sample_externals
    sample_external_bindings g eq_refl E) as (_ & He & _ & _ & _ & _ & _ & Hp).
  apply (Hp (sample_edge "A" "B")). rewrite He. left.
Defined.

(** The same graph with its lists written in another order. *)
Record reordered (i j : ResearchGraphInput) : Prop := {
  reordered_graph_id : in_graph_id i = in_graph_id j;
  reordered_version : in_version i = in_version j;
  reordered_owner : in_owner i = in_owner j;
  reordered_nodes : in_nodes i ≡ₚ in_nodes j;
  reordered_edges : in_edges i ≡ₚ in_edges j
}.

(** Graph construction is canonical: giving the nodes, edges, external inputs and bindings in
    another order gives the same result, the same error included. *)
Theorem research_graph_new_canonical `{Sha256} i j xs ys bs cs :
  reordered i j -> xs ≡ₚ ys -> bs ≡ₚ cs ->
  research_graph_new_with_external_inputs i xs bs = research_graph_new_with_external_inputs j ys cs.
Proof. intros []. by apply new_perm. Qed.

Lemma research_graph_new_canonical_witness :
  @research_graph_new_with_external_inputs sample_sha256
    {| in_graph_id := sample_id "G"; in_version := mk_version 1; in_owner := sample_owner;
       in_nodes := rev (in_nodes sample_graph_input); in_edges := in_edges sample_graph_input |}
    sample_externals sample_external_bindings
  = sample_graph.
Proof.
  apply (@research_graph_new_canonical sample_sha256); [|reflexivity..].
  split; try reflexivity. apply Permutation_sym, Permutation_rev.
Defined.

(** The digest of a research graph identifies it: two accepted graphs with the same digest are
    the same graph, contracts and order of execution included, or exhibit a SHA-256 collision. *)
Theorem research_graph_digest_identifies `{UlidCrate} `{Sha256} i xs bs g j ys cs h :
  research_graph_new_with_external_inputs i xs bs = Ok g ->
  research_graph_new_with_external_inputs j ys cs = Ok h ->
  wf_graph g -> wf_graph h -> graph_digest g = graph_digest h -> g = h \/ collision.
Proof. apply graph_digest_spec. Qed.

Lemma sample_port_wf name : wf_str name -> Forall wf_port [sample_port name].
Proof. intros Hn. split_forall. split; [exact Hn|]. split; [done|]. by split; cbn. Qed.

Lemma sample_contract_wf id i :
  wf_str id -> wf_str i ->
  @research_node_contract_new sample_sha256 (sample_contract_input id [sample_port i] [sample_port "out"])
    = Ok (sample_contract id [sample_port i] [sample_port "out"]) ->
  input_types (sample_contract id [sample_port i] [sample_port "out"]) = [sample_port i] ->
  @contract_addressed sample_sha256 (sample_contract id [sample_port i] [sample_port "out"]) /\
  wf_contract (sample_contract id [sample_port i] [sample_port "out"]) /\
  wf_hash (contract_digest (sample_contract id [sample_port i] [sample_port "out"])).
Proof.
  intros Hid Hi E Ein. pose proof (@contract_new_addressed sample_sha256 _ _ E) as Ha.
  split; [exact Ha|]. set (c := sample_contract _ _ _) in *.
  unfold research_node_contract_new in E. cbn [contract_id contract_version input_types output_types
    state_schema parameter_schema determinism_class permissions resource_limits required_invariants
    sample_contract_input] in E.
  repeat res_step. split; [|rewrite Ha; apply (@wf_digest sample_sha256 sample_sha256_laws)].
  match goal with H : canonical_ports [sample_port "out"] = Ok ?o |- _ =>
    vm_compute in H; injection H as <- end.
  match goal with H : canonical_symbols _ = Ok ?o |- _ => vm_compute in H; injection H as <- end.
  rewrite <- E in Ein |- *. cbn [input_types] in Ein. unfold wf_contract.
  cbn [contract_id contract_version input_types output_types state_schema parameter_schema
    resource_limits required_invariants cpu_cores memory_mb timeout_seconds]. rewrite Ein.
  split; [done|]. split; [done|]. split; [split; [by apply sample_port_wf|done]|].
  split; [split; [by apply sample_port_wf|done]|]. do 5 (split; [done|]). split; [split_forall|]; done.
Qed.

Lemma sample_graph_wf g : sample_graph = Ok g -> @wf_graph sample_ulid_crate sample_sha256 g.
Proof.
  intros E. apply (@new_valid sample_sha256) in E as ([Vn Ve Vx Vb _ _ _ _ _] & E1 & E2 & E3 & _).
  unfold wf_graph. rewrite E1, E2, E3. unfold wf_list. rewrite Vn, Ve, Vx, Vb.
  split; [done|]. split; [done|]. split; [by split|].
  pose proof (sample_contract_wf "price" "in" eq_refl eq_refl ltac:(vm_compute; reflexivity)
    ltac:(vm_compute; reflexivity)) as (C1 & C2 & C3).
  pose proof (sample_contract_wf "load" "raw" eq_refl eq_refl ltac:(vm_compute; reflexivity)
    ltac:(vm_compute; reflexivity)) as (D1 & D2 & D3).
  split; [split; [|done]|split; [split; [|done]|split; (split; [|done])]].
  - cbn [sample_graph_input in_nodes]. split_forall.
    + split; [done|]. split; [exact C2|]. split; [exact C1|]. split; [exact C3|done].
    + split; [done|]. split; [exact D2|]. split; [exact D1|]. split; [exact D3|done].
  - cbn [sample_graph_input in_edges]. split_forall. unfold wf_edge. cbn. done.
  - unfold sample_externals. split_forall. split; [done|]. split; [done|]. by split; cbn.
  - unfold sample_external_bindings. split_forall. unfold wf_external_binding. cbn. done.
Qed.

Lemma research_graph_digest_identifies_witness :
  exists g, sample_graph = Ok g /\ (g = g \/ @collision sample_sha256).
Proof.
  destruct sample_graph as [g|e] eqn:E; [|vm_compute in E; discriminate E].
  exists g. split; [reflexivity|].
  exact (@research_graph_digest_identifies sample_ulid_crate sample_sha256 _ _ _ g _ _ _ g E E
    (sample_graph_wf g E) (sample_graph_wf g E) eq_refl).
Defined.
