(* ===== verification/RunJournal.v ===== *)
(** * Run journal events

    [crates/ficant-domain/src/research/run_journal.rs]: one event of the append-only journal of a
    run, its canonical bytes and hash, and the check that one event follows another.
    [RunState] and [ExperimentRun] of [experiment_run.rs] are modelled here as well. *)

From Stdlib Require Import ZArith Lia Strings.String.
From Stdlib Require Import Strings.Byte.
From stdpp Require Import base list option strings numbers.
From S2P Require Import Prelude Machine Collections Primitives Codec Concrete.
Open Scope Z_scope.

(** ** Events *)

Inductive JournalEventType :=
| RunCreated
| RunStarted
| RunSucceeded
| RunFailed
| RunCancelled
| ArtifactPublished
| SignalSetPublished
| NodeStarted
| NodeSucceeded
| NodeFailed
| NodeCheckpointed.

#[export] Instance JournalEventType_eq_dec : EqDecision JournalEventType.
Proof. solve_decision. Defined.

Definition event_type_code (self : JournalEventType) : Z :=
  match self with
  | RunCreated => 1
  | RunStarted => 2
  | RunSucceeded => 3
  | RunFailed => 4
  | RunCancelled => 5
  | ArtifactPublished => 6
  | SignalSetPublished => 7
  | NodeStarted => 8
  | NodeSucceeded => 9
  | NodeFailed => 10
  | NodeCheckpointed => 11
  end.

Definition CANONICAL_MAGIC : list byte := as_bytes "FJRN".
Definition CANONICAL_VERSION : Z := 1.

Record RunJournalInput := {
  journal_event_id : Ulid;
  run_id : Ulid;
  sequence : Z;
  event_type : JournalEventType;
  occurred_at : MarketTime;
  payload_type : string;
  payload_schema : string;
  payload : list byte;
  prev_hash : option ContentHash
}.

Definition journal_validate (self : RunJournalInput) : DomainResult unit :=
  if (sequence self =? 0)
     || ((sequence self =? 1) && negb (bool_decide (prev_hash self = None)))
     || ((1 <? sequence self) && bool_decide (prev_hash self = None))
  then Err JournalSequenceConflict
  else fail_if (blank_or_padded (payload_type self) || blank_or_padded (payload_schema self)
     || bool_decide (payload self = [])) InvalidValue.

Definition append_field (tag : Z) (value : list byte) : list byte := byte_of_Z tag :: frame value.

(** Year as four bytes, then month and day as one byte each. *)
Definition date_bytes (d : NaiveDate) : list byte :=
  to_be_bytes 4 (nd_year d) ++ [byte_of_Z (nd_month d); byte_of_Z (nd_day d)].

Definition previous_bytes (prev : option ContentHash) : list byte :=
  match prev with Some hash => byte_of_Z 1 :: hash_bytes hash | None => [byte_of_Z 0] end.

Definition journal_canonical_bytes (self : RunJournalInput) : list byte :=
  CANONICAL_MAGIC ++ to_be_bytes 2 CANONICAL_VERSION
  ++ append_field 1 (as_bytes (ulid_str (journal_event_id self)))
  ++ append_field 2 (as_bytes (ulid_str (run_id self)))
  ++ append_field 3 (to_be_bytes 8 (sequence self))
  ++ append_field 4 [byte_of_Z (event_type_code (event_type self))]
  ++ append_field 5 (to_be_bytes 8 (timestamp (instant (occurred_at self))))
  ++ append_field 6 (to_be_bytes 4 (timestamp_subsec_nanos (instant (occurred_at self))))
  ++ append_field 7 (as_bytes (market_timezone (occurred_at self)))
  ++ append_field 8 (date_bytes (local_trading_date (occurred_at self)))
  ++ append_field 9 (as_bytes (payload_type self))
  ++ append_field 10 (as_bytes (payload_schema self))
  ++ append_field 11 (payload self)
  ++ append_field 12 (previous_bytes (prev_hash self)).

Definition journal_canonical_hash `{Sha256} (self : RunJournalInput) : DomainResult ContentHash :=
  _ ← journal_validate self;
  Ok (digest (journal_canonical_bytes self)).

(** The fields of a [RunJournal] are those of its input and the hash. *)
Record RunJournal := { event_input : RunJournalInput; event_hash : ContentHash }.

Definition run_journal_new `{Sha256} (input : RunJournalInput) (claimed_hash : ContentHash)
    : DomainResult RunJournal :=
  canonical_hash ← journal_canonical_hash input;
  if negb (bool_decide (canonical_hash = claimed_hash)) then Err ContentHashMismatch
  else Ok {| event_input := input; event_hash := canonical_hash |}.

Definition verify_canonical `{Sha256} (self : RunJournal) : DomainResult unit :=
  canonical_hash ← journal_canonical_hash (event_input self);
  if negb (bool_decide (canonical_hash = event_hash self)) then Err ContentHashMismatch else Ok tt.

Definition validate_after `{Sha256} (self previous : RunJournal) : DomainResult unit :=
  _ ← verify_canonical self;
  _ ← verify_canonical previous;
  if negb (bool_decide (run_id (event_input self) = run_id (event_input previous)))
     || negb (bool_decide (u64_checked_add (sequence (event_input previous)) 1
                           = Some (sequence (event_input self))))
  then Err JournalSequenceConflict
  else if negb (bool_decide (prev_hash (event_input self) = Some (event_hash previous)))
  then Err ContentHashMismatch
  else fail_if (ltb (instant (occurred_at (event_input self)))
                    (instant (occurred_at (event_input previous)))) InvalidEffectiveTime.

(** ** Canonical bytes determine the event *)

Definition wf_event `{UlidCrate} (i : RunJournalInput) : Prop :=
  wf_ulid (journal_event_id i) /\ wf_ulid (run_id i) /\ in_u64 (sequence i) = true
  /\ wf_time (occurred_at i) /\ wf_str (payload_type i) /\ wf_str (payload_schema i)
  /\ short (payload i) /\ from_option wf_hash True (prev_hash i).

Lemma append_field_inj t v w r s :
  short v -> short w -> append_field t v ++ r = append_field t w ++ s -> v = w /\ r = s.
Proof. intros Hv Hw E. apply (f_equal tail) in E. exact (frame_inj _ _ _ _ Hv Hw E). Qed.

Lemma event_type_code_inj a b : byte_of_Z (event_type_code a) = byte_of_Z (event_type_code b) -> a = b.
Proof. by destruct a, b. Qed.

Lemma date_bytes_inj d e : wf_date d -> wf_date e -> date_bytes d = date_bytes e -> d = e.
Proof.
  intros (Hy & Hm & Hd) (Hy' & Hm' & Hd') E. unfold date_bytes in E.
  apply app_inj_1 in E as [E1 E2]; [|done]. apply i32_be_inj in E1; [|done..].
  injection E2 as E2 E3. apply (f_equal Z_of_byte) in E2, E3. rewrite !Z_of_byte_of_Z in E2, E3.
  rewrite !Z.mod_small in E2, E3 by lia. destruct d, e; cbn in *; congruence.
Qed.

Lemma previous_bytes_inj p q : previous_bytes p = previous_bytes q -> p = q.
Proof. destruct p as [[]|], q as [[]|]; cbn; try done. by intros [= ->]. Qed.

Lemma short_date d : short (date_bytes d).
Proof. unfold short, date_bytes. rewrite length_app, length_to_be_bytes. cbn. lia. Qed.

Lemma short_previous `{UlidCrate} p : from_option wf_hash True p -> short (previous_bytes p).
Proof. unfold wf_hash, short. destruct p; cbn; lia. Qed.

Ltac field_step E :=
  let F := fresh "F" in
  apply append_field_inj in E; [destruct E as [F E]|..].

Lemma journal_bytes_inj `{UlidCrate} i j :
  wf_event i -> wf_event j -> journal_canonical_bytes i = journal_canonical_bytes j -> i = j.
Proof.
  intros (I1 & I2 & I3 & ((It1 & It2) & It3 & It4) & I5 & I6 & I7 & I8)
    (J1 & J2 & J3 & ((Jt1 & Jt2) & Jt3 & Jt4) & J5 & J6 & J7 & J8) E.
  unfold journal_canonical_bytes in E. apply app_inv_head, app_inv_head in E.
  field_step E; [|by apply short_ulid..]. field_step E; [|by apply short_ulid..].
  field_step E; [|by apply short_be; lia..]. field_step E; [|by apply short_byte..].
  field_step E; [|by apply short_be; lia..]. field_step E; [|by apply short_be; lia..].
  field_step E; [|by apply short_str..]. field_step E; [|by apply short_date..].
  field_step E; [|by apply short_str..]. field_step E; [|by apply short_str..].
  field_step E; [|done..].
  rewrite <- (app_nil_r (append_field 12 _)) in E. rewrite <- (app_nil_r (append_field 12 (previous_bytes (prev_hash j)))) in E.
  field_step E; [|by apply short_previous..].
  apply ulid_bytes_inj in F, F0. apply u64_be_inj in F1; [|done..].
  apply (list_singleton_inj byte), event_type_code_inj in F2.
  apply i64_be_inj in F3; [|done..]. apply u32_be_inj in F4; [|done..]. apply as_bytes_inj in F5.
  apply date_bytes_inj in F6; [|done..]. apply as_bytes_inj in F7, F8. apply previous_bytes_inj in F10.
  destruct i as [? ? ? ? [[] ? ?] ? ? ? ?], j as [? ? ? ? [[] ? ?] ? ? ? ?]. cbn in *. congruence.
Qed.

(** ** Verified events *)

(** The hash of the event is the digest of its valid content. *)
Definition verified `{Sha256} (e : RunJournal) : Prop :=
  journal_validate (event_input e) = Ok tt /\ event_hash e = digest (journal_canonical_bytes (event_input e)).

Lemma verify_canonical_Ok `{Sha256} e u : verify_canonical e = Ok u <-> verified e.
Proof.
  unfold verify_canonical, journal_canonical_hash, verified. destruct u.
  destruct (journal_validate (event_input e)) as [[]|]; cbn; [|naive_solver].
  case_bool_decide as E; cbn; [split; [by rewrite <- E|done]|naive_solver].
Qed.

Lemma run_journal_new_Ok `{Sha256} i h e :
  run_journal_new i h = Ok e <-> event_input e = i /\ event_hash e = h /\ verified e.
Proof.
  unfold run_journal_new, journal_canonical_hash, verified.
  destruct (journal_validate i) as [[]|] eqn:Ev; cbn.
  - case_bool_decide as E; cbn; [|naive_solver].
    split; [intros [= <-]; cbn; by subst|]. destruct e; cbn. intros (-> & -> & _ & ->). done.
  - split; [done|]. intros (<- & _ & Hv & _). congruence.
Qed.

(** What it means for one verified event to follow another. *)
Record follows (e previous : RunJournal) : Prop := {
  follows_run : run_id (event_input e) = run_id (event_input previous);
  follows_sequence : sequence (event_input e) = sequence (event_input previous) + 1;
  follows_range : in_u64 (sequence (event_input e)) = true;
  follows_hash : prev_hash (event_input e) = Some (event_hash previous);
  follows_time : cmp (instant (occurred_at (event_input e))) (instant (occurred_at (event_input previous))) <> Lt
}.

Lemma validate_after_Ok `{Sha256} e p u :
  validate_after e p = Ok u <-> verified e /\ verified p /\ follows e p.
Proof.
  destruct u. unfold validate_after. rewrite guard_Ok, verify_canonical_Ok, guard_Ok, verify_canonical_Ok.
  unfold u64_checked_add.
  assert (Hf : (if negb (bool_decide (run_id (event_input e) = run_id (event_input p)))
     || negb (bool_decide (checked in_u64 (sequence (event_input p) + 1) = Some (sequence (event_input e))))
    then Err JournalSequenceConflict
    else if negb (bool_decide (prev_hash (event_input e) = Some (event_hash p)))
    then Err ContentHashMismatch
    else fail_if (ltb (instant (occurred_at (event_input e)))
                    (instant (occurred_at (event_input p)))) InvalidEffectiveTime) = Ok tt <-> follows e p).
  { split.
    - intros E. repeat res_step. breflect.
      match goal with H : checked _ _ = Some _ |- _ => apply checked_Some in H as [? ?] end.
      split; try done; [congruence|]. intros Hlt. apply ltb_spec in Hlt. congruence.
    - intros [F1 F2 F3 F4 F5]. rewrite F1, F4, F2, !bool_decide_true by (try done; apply checked_Some; rewrite <- F2; done).
      cbn. apply fail_if_Ok. apply not_true_iff_false. rewrite ltb_spec. done. }
  tauto.
Qed.

(** Two verified, well-formed events with one hash are one event, or a collision. *)
Lemma event_hash_identifies `{UlidCrate} `{Sha256} e f :
  verified e -> verified f -> wf_event (event_input e) -> wf_event (event_input f) ->
  event_hash e = event_hash f -> e = f \/ collision.
Proof.
  intros [_ Ee] [_ Ef] We Wf E. pose proof E as E'. rewrite Ee, Ef in E'.
  apply digest_inj in E' as [E'|]; [left|by right]. apply journal_bytes_inj in E'; [|done..].
  destruct e, f; cbn in *; congruence.
Qed.

(** ** Experiment runs *)

Inductive RunState := Created | Running | Succeeded | Failed | Cancelled.

#[export] Instance RunState_eq_dec : EqDecision RunState.
Proof. solve_decision. Defined.

Module ExperimentRun.

Record ExperimentRunInput := {
  in_experiment_run_id : Ulid;
  in_owner : OwnerRef;
  in_data_snapshot : LineageRef;
  in_universe_snapshot : LineageRef;
  in_rule_packs : list VersionRef;
  in_runtime_image_digest : ContentHash;
  in_parameters_hash : ContentHash;
  in_seed : Z
}.

Record ExperimentRun := {
  experiment_run_id : Ulid;
  owner : OwnerRef;
  data_snapshot : LineageRef;
  universe_snapshot : LineageRef;
  rule_packs : list VersionRef;
  runtime_image_digest : ContentHash;
  parameters_hash : ContentHash;
  seed : Z;
  state : RunState;
  revision : Z;
  lineage : list LineageRef
}.

Definition experiment_run_new (input : ExperimentRunInput) : DomainResult ExperimentRun :=
  if bool_decide (in_rule_packs input = []) then Err BrokenLineage
  else Ok {|
    experiment_run_id := in_experiment_run_id input; owner := in_owner input;
    data_snapshot := in_data_snapshot input; universe_snapshot := in_universe_snapshot input;
    rule_packs := in_rule_packs input; runtime_image_digest := in_runtime_image_digest input;
    parameters_hash := in_parameters_hash input; seed := in_seed input; state := Created; revision := 1;
    lineage := [in_data_snapshot input; in_universe_snapshot input]
      ++ map (fun reference => lineage_versioned (vr_id reference) (vr_version reference))
           (in_rule_packs input) |}.

Definition with_state (self : ExperimentRun) (next : RunState) (revision : Z) : ExperimentRun := {|
  experiment_run_id := experiment_run_id self; owner := owner self;
  data_snapshot := data_snapshot self; universe_snapshot := universe_snapshot self;
  rule_packs := rule_packs self; runtime_image_digest := runtime_image_digest self;
  parameters_hash := parameters_hash self; seed := seed self; state := next; revision := revision;
  lineage := lineage self |}.

Definition allowed (current next : RunState) : bool :=
  match current, next with
  | Created, Running => true
  | Running, (Succeeded | Failed | Cancelled) => true
  | _, _ => false
  end.

Definition transition (self : ExperimentRun) (next : RunState) (expected_revision : Z)
    : DomainResult ExperimentRun :=
  if negb (expected_revision =? revision self) then Err VersionConflict else
  if negb (allowed (state self) next) then Err InvalidStateTransition else
  revision ← ok_or (u64_checked_add (revision self) 1) VersionConflict;
  Ok (with_state self next revision).

(** A run and the requests made of it: a refused request leaves the run as it was. *)
Definition request (self : ExperimentRun) (r : RunState * Z) : ExperimentRun :=
  match transition self r.1 r.2 with Ok self' => self' | Err _ => self end.

Definition terminal (s : RunState) : bool :=
  match s with Succeeded | Failed | Cancelled => true | Created | Running => false end.

(** The revision counts the accepted transitions, and the state fixes how many there were. *)
Definition run_inv (self : ExperimentRun) : Prop :=
  revision self = match state self with Created => 1 | Running => 2 | _ => 3 end.

Lemma transition_Ok self next expected self' :
  transition self next expected = Ok self' <->
  expected = revision self /\ allowed (state self) next = true
  /\ in_u64 (revision self + 1) = true /\ self' = with_state self next (revision self + 1).
Proof.
  unfold transition, u64_checked_add, checked.
  destruct (Z.eqb_spec expected (revision self)) as [->|]; cbn; [|naive_solver].
  destruct (allowed (state self) next); cbn; [|naive_solver].
  destruct (in_u64 (revision self + 1)); cbn; naive_solver.
Qed.

Lemma request_inv self r : run_inv self -> run_inv (request self r).
Proof.
  unfold request. destruct (transition self r.1 r.2) as [self'|] eqn:E; [|done].
  apply transition_Ok in E as (_ & Ha & _ & ->). unfold run_inv. cbn.
  destruct (state self), r.1; cbn in *; try done; lia.
Qed.

Lemma request_terminal self r : terminal (state self) = true -> request self r = self.
Proof.
  unfold request, transition. intros Ht. destruct (negb (_ =? _)); [done|].
  by destruct (state self), r.1.
Qed.

Lemma new_inv input run : experiment_run_new input = Ok run -> run_inv run /\ state run = Created.
Proof. unfold experiment_run_new. intros. res_simp. by cbn. Qed.

Lemma foldl_request_inv self rs : run_inv self -> run_inv (foldl request self rs).
Proof. revert self. induction rs as [|r rs IH]; intros self H; cbn; [done|]. by apply IH, request_inv. Qed.

Lemma foldl_request_terminal self rs : terminal (state self) = true -> foldl request self rs = self.
Proof. intros Ht. induction rs as [|r rs IH]; cbn; [done|]. by rewrite request_terminal. Qed.

(** The life of a run: whatever transitions are requested, in whatever order and with whatever
    expected revisions, the revision is 1 while the run is created, 2 while it is running and 3 once
    it has ended; an ended run never changes again; and of two requests that expect the same
    revision, at most the first accepted one takes effect. *)
Theorem experiment_run_lifecycle input run rs :
  experiment_run_new input = Ok run ->
  run_inv (foldl request run rs) /\
  (terminal (state (foldl request run rs)) = true ->
   forall rs', foldl request run (rs ++ rs') = foldl request run rs) /\
  (forall next next' expected run', transition (foldl request run rs) next expected = Ok run' ->
   transition run' next' expected = Err VersionConflict).
Proof.
  intros [Hi _]%new_inv. split; [by apply foldl_request_inv|]. split.
  - intros Ht rs'. rewrite foldl_app. by apply foldl_request_terminal.
  - intros next next' expected run' (-> & _ & _ & ->)%transition_Ok. unfold transition. cbn.
    destruct (Z.eqb_spec (revision (foldl request run rs)) (revision (foldl request run rs) + 1)); [lia|done].
Qed.

Definition sample_run_input : ExperimentRunInput := {|
  in_experiment_run_id := sample_id "R"; in_owner := sample_owner; in_data_snapshot := sample_lineage;
  in_universe_snapshot := sample_lineage; in_rule_packs := [sample_vref "P"];
  in_runtime_image_digest := sample_hash x01; in_parameters_hash := sample_hash x02; in_seed := 7
|}.

Lemma experiment_run_lifecycle_witness :
  exists run, experiment_run_new sample_run_input = Ok run /\
  run_inv (foldl request run [(Running, 1); (Failed, 1); (Succeeded, 2); (Running, 3)]) /\
  state (foldl request run [(Running, 1); (Failed, 1); (Succeeded, 2); (Running, 3)]) = Succeeded.
Proof.
  eexists. split; [reflexivity|]. split; [|vm_compute; reflexivity].
  eapply (experiment_run_lifecycle sample_run_input). reflexivity.
Defined.

End ExperimentRun.
