(* ===== verification/Runtime.v ===== *)
(** * The journal runtime

    [crates/ficant-runtime/src/journal.rs], [replay.rs] and [digest.rs]: the per-run append-only
    journal with idempotent, optimistic appends, and the replay of a journal into the final state of
    its run. [SharedRunJournal] wraps the journal in a mutex, so concurrent appends are some sequence
    of the appends modelled here. *)

From Stdlib Require Import ZArith Lia Strings.String.
From Stdlib Require Import Strings.Byte.
From stdpp Require Import base list option strings numbers sets.
From S2P Require Import Prelude Machine Collections Primitives Codec Concrete RunJournal.
Open Scope Z_scope.

(** ** Errors and keys *)

Inductive RuntimeError :=
| Domain (error : DomainErrorCode)
| IdempotencyConflict
| ConcurrencyConflict (expected actual : Z)
| RunIdentityConflict.

#[export] Instance RuntimeError_eq_dec : EqDecision RuntimeError.
Proof. solve_decision. Defined.

Abbreviation RuntimeResult := (Result RuntimeError).

Record IdempotencyKey := mk_key { key_str : string }.

#[export] Instance IdempotencyKey_eq_dec : EqDecision IdempotencyKey.
Proof. solve_decision. Defined.
#[export] Instance IdempotencyKey_ord : Ord IdempotencyKey := fun a b => cmp (key_str a) (key_str b).
#[export] Instance IdempotencyKey_ord_laws : OrdLaws IdempotencyKey.
Proof. by apply (ord_laws_via key_str); [intros [] []; cbn; congruence|]. Qed.

Definition idempotency_key_new (value : string) : RuntimeResult IdempotencyKey :=
  if blank_or_padded value then Err (Domain InvalidValue) else Ok (mk_key value).

(** ** The journal *)

Record JournalAppend := { append_input : RunJournalInput; claimed_hash : ContentHash }.

Record AppendResult := { result_event : RunJournal; inserted : bool }.

Record PerRunJournal := {
  journal_run_id : Ulid;
  events : list RunJournal;
  idempotency : BTreeMap IdempotencyKey RunJournal
}.

Definition journal_new (run_id : Ulid) : PerRunJournal :=
  {| journal_run_id := run_id; events := []; idempotency := [] |}.

(** The last event, as [slice::last]. *)
Definition last_event (l : list RunJournal) : option RunJournal := list.last l.

(** [append] changes the journal only after its last check, so a failed call returns no new state. *)
Definition append `{Sha256} (self : PerRunJournal) (idempotency_key : IdempotencyKey)
    (expected_next_sequence : Z) (command : JournalAppend)
    : RuntimeResult (AppendResult * PerRunJournal) :=
  event ← map_err Domain (run_journal_new (append_input command) (claimed_hash command));
  match btree_get idempotency_key (idempotency self) with
  | Some existing =>
      if bool_decide (event_hash existing = event_hash event)
      then Ok ({| result_event := existing; inserted := false |}, self)
      else Err IdempotencyConflict
  | None =>
      length ← ok_or (u64_try_from (Z.of_nat (List.length (events self)))) (Domain JournalSequenceConflict);
      actual_next_sequence ← ok_or (u64_checked_add length 1) (Domain JournalSequenceConflict);
      if negb (expected_next_sequence =? actual_next_sequence)
      then Err (ConcurrencyConflict expected_next_sequence actual_next_sequence)
      else if negb (bool_decide (run_id (event_input event) = journal_run_id self))
      then Err RunIdentityConflict
      else if negb (sequence (event_input event) =? actual_next_sequence)
      then Err (Domain JournalSequenceConflict)
      else
        _ ← match last_event (events self) with
            | Some previous => map_err Domain (validate_after event previous)
            | None => Ok tt
            end;
        Ok ({| result_event := event; inserted := true |},
            {| journal_run_id := journal_run_id self; events := events self ++ [event];
               idempotency := btree_insert idempotency_key event (idempotency self) |})
  end.

(** ** Replay *)

Definition verify_canonical_event `{Sha256} (event : RunJournal) : RuntimeResult unit :=
  canonical_hash ← map_err Domain (journal_canonical_hash (event_input event));
  fail_if (negb (bool_decide (canonical_hash = event_hash event))) (Domain ContentHashMismatch).

Definition sequence_conflict : RuntimeError := Domain JournalSequenceConflict.
Definition invalid_transition : RuntimeError := Domain InvalidStateTransition.

(** The checks of one event at its position, in [replay] and in [replay_graph_execution]. *)
Definition verify_journal_position `{Sha256} (event : RunJournal) (previous : option RunJournal)
    (id : Ulid) (index : nat) : RuntimeResult unit :=
  _ ← verify_canonical_event event;
  if negb (bool_decide (run_id (event_input event) = id)) then Err RunIdentityConflict else
  index ← ok_or (u64_try_from (Z.of_nat index)) sequence_conflict;
  expected ← ok_or (u64_checked_add index 1) sequence_conflict;
  if negb (sequence (event_input event) =? expected) then Err sequence_conflict else
  match previous with
  | Some previous => map_err Domain (validate_after event previous)
  | None => Ok tt
  end.

Definition replay_transition (current : option RunState) (event_type : JournalEventType)
    : RuntimeResult RunState :=
  match current, event_type with
  | None, RunCreated => Ok Created
  | Some Created, RunStarted => Ok Running
  | Some Running, (ArtifactPublished | SignalSetPublished) => Ok Running
  | Some Running, RunSucceeded => Ok Succeeded
  | Some Running, RunFailed => Ok Failed
  | Some Running, RunCancelled => Ok Cancelled
  | _, _ => Err invalid_transition
  end.

Definition state_code (state : RunState) : Z :=
  match state with Created => 1 | Running => 2 | Succeeded => 3 | Failed => 4 | Cancelled => 5 end.

Definition replay_bytes (run_id : Ulid) (events : list RunJournal) (terminal_state : RunState)
    : list byte :=
  as_bytes "FRPL" ++ to_be_bytes 2 1
  ++ append_field 1 (as_bytes (ulid_str run_id))
  ++ append_field 2 (to_be_bytes 8 (Z.of_nat (List.length events)))
  ++ flat_map (fun event => append_field 3 (hash_bytes (event_hash event))) events
  ++ append_field 4 [byte_of_Z (state_code terminal_state)].

(** [events[0]] exists where this is called. *)
Definition replay_digest `{Sha256} (first : RunJournal) (events : list RunJournal)
    (terminal_state : RunState) : ContentHash :=
  digest (replay_bytes (run_id (event_input first)) events terminal_state).

Record ReplayResult := {
  replay_run_id : Ulid;
  terminal_state : RunState;
  event_count : nat;
  replay_result_digest : ContentHash
}.

(** The loop over [events.iter().enumerate()]; [pre] are the events already accepted, and [step] is
    the transition on the state it keeps. *)
Fixpoint journal_loop `{Sha256} {S} (step : S -> RunJournal -> RuntimeResult S) (id : Ulid)
    (pre : list RunJournal) (state : S) (rest : list RunJournal) : RuntimeResult S :=
  match rest with
  | [] => Ok state
  | event :: rest =>
      _ ← verify_journal_position event (last_event pre) id (List.length pre);
      state ← step state event;
      journal_loop step id (pre ++ [event]) state rest
  end.

Definition replay_step (state : option RunState) (event : RunJournal) : RuntimeResult (option RunState) :=
  Some <$> replay_transition state (event_type (event_input event)).

Definition is_terminal (state : RunState) : bool :=
  match state with Succeeded | Failed | Cancelled => true | Created | Running => false end.

Definition replay `{Sha256} (events : list RunJournal) : RuntimeResult ReplayResult :=
  first ← ok_or (hd_error events) invalid_transition;
  let id := run_id (event_input first) in
  state ← journal_loop replay_step id [] None events;
  terminal_state ← ok_or state invalid_transition;
  if negb (is_terminal terminal_state) then Err invalid_transition
  else Ok {| replay_run_id := id; terminal_state := terminal_state;
             event_count := List.length events;
             replay_result_digest := replay_digest first events terminal_state |}.

(** ** Valid chains *)

Section chains.
Context `{Sha256}.

(** Events of one run, numbered from one, each verified and following the one before. *)
Record valid_chain (id : Ulid) (l : list RunJournal) : Prop := {
  chain_events : forall i e, l !! i = Some e ->
    verified e /\ run_id (event_input e) = id /\ sequence (event_input e) = Z.of_nat i + 1;
  chain_follows : forall i p e, l !! i = Some p -> l !! S i = Some e -> follows e p
}.

Lemma valid_chain_nil id : valid_chain id [].
Proof. split; intros *; by rewrite !lookup_nil. Qed.

Lemma valid_chain_snoc id l e :
  valid_chain id (l ++ [e]) <->
  valid_chain id l /\ verified e /\ run_id (event_input e) = id
  /\ sequence (event_input e) = Z.of_nat (List.length l) + 1
  /\ (forall p, last_event l = Some p -> follows e p).
Proof.
  split.
  - intros [He Hf]. split; [split|].
    + intros i x Hi. apply He. by apply lookup_app_l_Some.
    + intros i p x Hi Hsi. by apply (Hf i); apply lookup_app_l_Some.
    + destruct (He (List.length l) e) as (? & ? & ?); [by rewrite list_lookup_middle|].
      do 3 (split; [done|]). unfold last_event. intros p Hp. rewrite last_lookup in Hp.
      destruct l as [|x l]; [done|]. apply (Hf (pred (List.length (x :: l)))).
      * by apply lookup_app_l_Some.
      * by rewrite Nat.succ_pred, list_lookup_middle by done.
  - intros ([He Hf] & Hv & Hr & Hs & Hl). split.
    + intros i x [Hi|[Hle Hi]]%lookup_app_Some; [by apply He|].
      apply list_lookup_singleton_Some in Hi as [Hi <-].
      replace i with (List.length l) by lia. done.
    + intros i p x Hp Hx. apply lookup_app_Some in Hx as [Hx|[Hle Hx]].
      * apply lookup_app_Some in Hp as [Hp|[Hle' _]]; [by apply (Hf i)|].
        apply lookup_lt_Some in Hx. lia.
      * apply list_lookup_singleton_Some in Hx as [Hx <-]. apply Hl. unfold last_event.
        rewrite last_lookup. apply lookup_app_Some in Hp as [Hp|[Hle' _]]; [|lia].
        by replace (pred (List.length l)) with i by lia.
Qed.

Lemma verify_canonical_event_Ok e u : verify_canonical_event e = Ok u <-> verified e.
Proof.
  destruct u. unfold verify_canonical_event, journal_canonical_hash, verified.
  destruct (journal_validate (event_input e)) as [[]|]; cbn; [|naive_solver].
  case_bool_decide as E; cbn; [split; [by rewrite <- E|done]|naive_solver].
Qed.

(** The checks of a position are exactly what extends a valid chain. *)
Lemma verify_position_Ok id pre e u :
  valid_chain id pre -> Z.of_nat (List.length pre) + 1 < 2 ^ 64 ->
  verify_journal_position e (last_event pre) id (List.length pre) = Ok u <-> valid_chain id (pre ++ [e]).
Proof.
  intros Hpre Hlen. destruct u. rewrite valid_chain_snoc.
  unfold verify_journal_position, u64_try_from, u64_checked_add, checked.
  rewrite guard_Ok, verify_canonical_event_Ok.
  replace (in_u64 (Z.of_nat (List.length pre))) with true by (symmetry; ranges; lia). cbn.
  replace (in_u64 (Z.of_nat (List.length pre) + 1)) with true by (symmetry; ranges; lia). cbn.
  case_bool_decide as Er; cbn; [|naive_solver].
  destruct (Z.eqb_spec (sequence (event_input e)) (Z.of_nat (List.length pre) + 1)) as [Es|]; cbn; [|naive_solver].
  destruct (last_event pre) as [p|] eqn:El; [|naive_solver].
  rewrite map_err_Ok, validate_after_Ok. split.
  - intros (? & ? & _ & Hf). split; [done|]. do 3 (split; [done|]). by intros ? [= <-].
  - intros (_ & Hv & _ & _ & Hf). split; [done|]. split; [done|]. split; [|by apply Hf].
    unfold last_event in El. rewrite last_lookup in El.
    by destruct (chain_events _ _ Hpre _ _ El).
Qed.

End chains.

(** ** The journal invariant *)

Section journal.
Context `{Sha256}.

(** The events form a valid chain, and the idempotency map records each of them under exactly one key: its
    keys are distinct, and its values are the events in another order. *)
Record journal_inv (j : PerRunJournal) : Prop := {
  inv_chain : valid_chain (journal_run_id j) (events j);
  inv_keys : btree_wf (idempotency j);
  inv_recorded : (idempotency j).*2 ≡ₚ events j
}.

Lemma journal_new_inv id : journal_inv (journal_new id).
Proof. split; cbn; [apply valid_chain_nil|constructor|done]. Qed.

Lemma btree_insert_values {V} (k : IdempotencyKey) (v : V) m :
  btree_get k m = None -> (btree_insert k v m).*2 ≡ₚ m.*2 ++ [v].
Proof.
  induction m as [|[k' v'] m IH]; cbn; [done|]. destruct (cmp k k'); cbn; [done| |].
  - intros _. exact (Permutation_cons_append (v' :: m.*2) v).
  - intros Hn. by rewrite IH.
Qed.

(** What a successful append is: a repetition of a recorded one, or an extension of the chain. *)
Lemma append_Ok j key expected cmd r j' :
  journal_inv j -> Z.of_nat (List.length (events j)) + 1 < 2 ^ 64 ->
  append j key expected cmd = Ok (r, j') <->
  exists e, run_journal_new (append_input cmd) (claimed_hash cmd) = Ok e /\
  match btree_get key (idempotency j) with
  | Some existing => event_hash existing = event_hash e /\ j' = j
      /\ r = {| result_event := existing; inserted := false |}
  | None => expected = Z.of_nat (List.length (events j)) + 1
      /\ valid_chain (journal_run_id j) (events j ++ [e])
      /\ r = {| result_event := e; inserted := true |}
      /\ j' = {| journal_run_id := journal_run_id j; events := events j ++ [e];
                 idempotency := btree_insert key e (idempotency j) |}
  end.
Proof.
  intros Hj Hlen. unfold append. rewrite bind_Ok. setoid_rewrite map_err_Ok.
  apply exist_proper. intros e. apply and_cong_l. intros He.
  destruct (btree_get key (idempotency j)) as [existing|].
  { case_bool_decide; naive_solver. }
  unfold u64_try_from, u64_checked_add, checked.
  replace (in_u64 (Z.of_nat (List.length (events j)))) with true by (symmetry; ranges; lia). cbn.
  replace (in_u64 (Z.of_nat (List.length (events j)) + 1)) with true by (symmetry; ranges; lia). cbn.
  rewrite valid_chain_snoc.
  destruct (Z.eqb_spec expected (Z.of_nat (List.length (events j)) + 1)) as [->|]; cbn; [|naive_solver].
  case_bool_decide as Er; cbn; [|naive_solver].
  destruct (Z.eqb_spec (sequence (event_input e)) (Z.of_nat (List.length (events j)) + 1)) as [Es|]; cbn; [|naive_solver].
  apply run_journal_new_Ok in He as (_ & _ & Hv). rewrite guard_Ok.
  assert (Hprev : (match last_event (events j) with
            | Some previous => map_err Domain (validate_after e previous)
            | None => Ok tt end = Ok tt) <-> (forall p, last_event (events j) = Some p -> follows e p)).
  { destruct (last_event (events j)) as [p|] eqn:El; [|naive_solver].
    rewrite map_err_Ok, validate_after_Ok. split.
    - intros (_ & _ & Hf) ? [= <-]. done.
    - intros Hf. split; [done|]. split; [|by apply Hf]. unfold last_event in El. rewrite last_lookup in El.
      by destruct (chain_events _ _ (inv_chain _ Hj) _ _ El). }
  rewrite Hprev. split.
  - intros [? [= <- <-]]. split; [done|]. split; [|done]. split; [apply Hj|done].
  - intros (_ & (_ & _ & _ & _ & ?) & -> & ->). done.
Qed.

Lemma append_inv j key expected cmd r j' :
  journal_inv j -> Z.of_nat (List.length (events j)) + 1 < 2 ^ 64 ->
  append j key expected cmd = Ok (r, j') -> journal_inv j' /\ journal_run_id j' = journal_run_id j.
Proof.
  intros Hj Hlen Ha. apply append_Ok in Ha as (e & _ & He); [|done..].
  destruct (btree_get key (idempotency j)) as [existing|] eqn:Ek; [by destruct He as (_ & -> & _)|].
  destruct He as (_ & Hc & _ & ->). split; [|done]. destruct Hj as [_ Hk Hr]. split; cbn.
  - done.
  - by apply btree_insert_wf.
  - by rewrite btree_insert_values, Hr.
Qed.

(** One call on the shared journal: an error leaves the journal as it was. *)
Definition call (j : PerRunJournal) (c : IdempotencyKey * Z * JournalAppend) : PerRunJournal :=
  match append j c.1.1 c.1.2 c.2 with Ok (_, j') => j' | Err _ => j end.

Lemma call_length j c :
  (List.length (events (call j c)) <= S (List.length (events j)))%nat.
Proof.
  unfold call, append. destruct (map_err Domain _) as [e|]; cbn; [|lia].
  destruct (btree_get _ _); [case_bool_decide; cbn; lia|].
  destruct (u64_try_from _); cbn; [|lia]. destruct (u64_checked_add _ _); cbn; [|lia].
  destruct (negb _); cbn; [lia|]. destruct (negb _); cbn; [lia|]. destruct (negb _); cbn; [lia|].
  destruct (last_event _); [destruct (map_err Domain _); cbn; [|lia]|cbn];
    rewrite length_app; cbn; lia.
Qed.

(** Any interleaving of calls, one after the other under the lock. *)
Lemma calls_inv j cs :
  journal_inv j -> Z.of_nat (List.length (events j)) + Z.of_nat (List.length cs) < 2 ^ 64 ->
  journal_inv (foldl call j cs) /\ journal_run_id (foldl call j cs) = journal_run_id j /\
  (exists new, events (foldl call j cs) = events j ++ new) /\
  (forall k e, btree_get k (idempotency j) = Some e -> btree_get k (idempotency (foldl call j cs)) = Some e) /\
  (List.length (events (foldl call j cs)) <= List.length (events j) + List.length cs)%nat.
Proof.
  revert j. induction cs as [|c cs IH]; intros j Hj Hlen; cbn [foldl].
  { split; [done|]. split; [done|]. split; [exists []; by rewrite app_nil_r|]. split; [done|cbn; lia]. }
  cbn [List.length] in Hlen. pose proof (call_length j c) as Hc.
  assert (Hstep : journal_inv (call j c) /\ journal_run_id (call j c) = journal_run_id j
    /\ (exists new, events (call j c) = events j ++ new)
    /\ (forall k e, btree_get k (idempotency j) = Some e -> btree_get k (idempotency (call j c)) = Some e)).
  { unfold call. destruct (append j c.1.1 c.1.2 c.2) as [[r j']|] eqn:E.
    2: { split; [done|]. split; [done|]. split; [exists []; by rewrite app_nil_r|done]. }
    destruct (append_inv _ _ _ _ _ _ Hj ltac:(lia) E) as [Hj' Hid].
    split; [done|]. split; [done|]. apply append_Ok in E as (e & _ & He); [|done|lia].
    destruct (btree_get c.1.1 (idempotency j)) as [x|] eqn:Ek.
    - destruct He as (_ & -> & _). split; [exists []; by rewrite app_nil_r|done].
    - destruct He as (_ & _ & _ & ->). split; [by exists [e]|]. cbn. intros k y Hy.
      rewrite btree_get_insert_ne; [done|]. intros ->. congruence. }
  destruct Hstep as (Hj' & Hid & [new1 E1] & Hk).
  destruct (IH (call j c) Hj' ltac:(lia)) as (Hi & Hid' & [new2 E2] & Hk' & Hl).
  split; [done|]. split; [congruence|]. split.
  - exists (new1 ++ new2). by rewrite E2, E1, <- (assoc_L (++)).
  - split; [auto|]. cbn. lia.
Qed.

(** What one call records: its event under its key, unless the key has one already. *)
Lemma call_records j c k e :
  journal_inv j -> Z.of_nat (List.length (events j)) + 1 < 2 ^ 64 ->
  btree_get k (idempotency (call j c)) = Some e ->
  btree_get k (idempotency j) = Some e
  \/ c.1.1 = k /\ run_journal_new (append_input c.2) (claimed_hash c.2) = Ok e
     /\ append j c.1.1 c.1.2 c.2 = Ok ({| result_event := e; inserted := true |}, call j c).
Proof.
  intros Hj Hlen. unfold call. destruct (append j c.1.1 c.1.2 c.2) as [[r j']|] eqn:E; [|by left].
  apply append_Ok in E as (x & Hx & He); [|done..].
  destruct (btree_get c.1.1 (idempotency j)) as [y|] eqn:Ek; [destruct He as (_ & -> & _); by left|].
  destruct He as (_ & _ & -> & ->). cbn. destruct (decide (k = c.1.1)) as [->|Hne].
  - rewrite btree_get_insert_eq. intros [= <-]. by right.
  - rewrite btree_get_insert_ne by done. by left.
Qed.

(** A key is recorded with an event exactly when one of the calls with that key inserted it. *)
Lemma calls_record id cs k e :
  Z.of_nat (List.length cs) < 2 ^ 64 ->
  btree_get k (idempotency (foldl call (journal_new id) cs)) = Some e <->
  exists before c after j, cs = before ++ c :: after /\ c.1.1 = k
    /\ run_journal_new (append_input c.2) (claimed_hash c.2) = Ok e
    /\ append (foldl call (journal_new id) before) c.1.1 c.1.2 c.2 = Ok ({| result_event := e; inserted := true |}, j).
Proof.
  induction cs as [|c cs IH] using rev_ind; intros Hlen.
  { cbn. split; [done|]. intros (before & c & after & j & E & _). by destruct before. }
  rewrite length_app in Hlen. cbn in Hlen.
  destruct (calls_inv (journal_new id) cs (journal_new_inv id) ltac:(cbn; lia)) as (Hj & _ & _ & _ & Hl). cbn in Hl.
  rewrite foldl_app. cbn [foldl]. split.
  - intros [Hk|(Hk & Hn & Ha)]%call_records; [| |done|lia].
    + apply IH in Hk as (before & d & after & j & -> & Hd); [|lia]. exists before, d, (after ++ [c]), j.
      by rewrite <- (assoc_L (++)).
    + exists cs, c, [], (call (foldl call (journal_new id) cs) c). done.
  - intros (before & d & after & j & E & Hk & Hn & Ha). destruct after as [|x after _] using rev_ind.
    + apply app_inj_tail in E as [<- ->].
      revert Hj Hl Ha. generalize (foldl call (journal_new id) cs). intros j0 Hj Hl Ha. unfold call. rewrite Ha.
      apply append_Ok in Ha as (y & Hy & He); [|done|lia]. rewrite Hn in Hy. injection Hy as <-.
      destruct (btree_get d.1.1 _); [by destruct He as (_ & _ & [=])|]. destruct He as (_ & _ & _ & ->). cbn.
      subst k. apply btree_get_insert_eq.
    + rewrite app_comm_cons, (assoc_L (++)) in E. apply app_inj_tail in E as [-> ->].
      destruct (calls_inv (foldl call (journal_new id) (before ++ d :: after)) [x] Hj ltac:(cbn in *; lia)) as (_ & _ & _ & Hp & _).
      apply Hp, IH; [lia|]. by exists before, d, after, j.
Qed.

(** ** Tamper evidence *)

(** The hash of the last event authenticates the whole history before it. *)
Lemma chain_identified `{UlidCrate} id id' l m e f :
  valid_chain id (l ++ [e]) -> valid_chain id' (m ++ [f]) ->
  Forall (fun x => wf_event (event_input x)) (l ++ [e]) ->
  Forall (fun x => wf_event (event_input x)) (m ++ [f]) ->
  event_hash e = event_hash f -> l ++ [e] = m ++ [f] \/ collision.
Proof.
  revert m e f. induction l as [|x l IH] using rev_ind; intros m e f Hl Hm Wl Wm Eh.
  all: apply Forall_app in Wl as [Wl We]; apply Forall_app in Wm as [Wm Wf].
  all: inversion_clear We as [|? ? We' _]; inversion_clear Wf as [|? ? Wf' _].
  all: apply valid_chain_snoc in Hl as (Hl & Ve & Re & Se & Fe).
  all: apply valid_chain_snoc in Hm as (Hm & Vf & Rf & Sf & Ff).
  all: destruct (event_hash_identifies _ _ Ve Vf We' Wf' Eh) as [->|]; [|by right].
  - rewrite Se in Sf. destruct m; [by left|cbn in Sf; lia].
  - rewrite Se in Sf. rewrite length_app in Sf. destruct m as [|y m _] using rev_ind; [cbn in Sf; lia|].
    assert (Fx : follows f x) by (apply Fe; unfold last_event; by rewrite last_snoc).
    assert (Fy : follows f y) by (apply Ff; unfold last_event; by rewrite last_snoc).
    pose proof (follows_hash _ _ Fx) as Hx. pose proof (follows_hash _ _ Fy) as Hy.
    rewrite Hx in Hy. injection Hy as Hy.
    destruct (IH m x y Hl Hm Wl Wm Hy) as [E|]; [left|by right]. by rewrite E.
Qed.

End journal.

(** ** Replay of a chain *)

Definition event_types (l : list RunJournal) : list JournalEventType :=
  map (fun e => event_type (event_input e)) l.

(** The state machine of the run alone. *)
Definition lifecycle (state : option RunState) (types : list JournalEventType)
    : RuntimeResult (option RunState) :=
  try_fold (fun s t => Some <$> replay_transition s t) state types.

Lemma lifecycle_steps state rest : try_fold replay_step state rest = lifecycle state (event_types rest).
Proof.
  revert state. induction rest as [|e rest IH]; intros state; [done|].
  cbn [event_types map try_fold]. unfold lifecycle. cbn [try_fold].
  change (replay_step state e) with (Some <$> replay_transition state (event_type (event_input e))).
  destruct (replay_transition _ _); cbn [fmap Result_fmap mbind Result_bind]; [apply IH|done].
Qed.

Section loop.
Context `{Sha256} {S : Type} (step : S -> RunJournal -> RuntimeResult S).

Lemma valid_chain_take id l m : valid_chain id l -> valid_chain id (take m l).
Proof.
  intros [He Hf]. split.
  - intros i x [? _]%lookup_take_Some. by apply He.
  - intros i p x [? _]%lookup_take_Some [? _]%lookup_take_Some. by eapply Hf.
Qed.

(** On a valid chain the loop is the state machine, errors included. *)
Lemma journal_loop_chain id pre state rest :
  valid_chain id (pre ++ rest) -> Z.of_nat (List.length (pre ++ rest)) < 2 ^ 64 ->
  journal_loop step id pre state rest = try_fold step state rest.
Proof.
  revert pre state. induction rest as [|e rest IH]; intros pre state Hc Hlen; [done|].
  pose proof (valid_chain_take _ _ (List.length pre) Hc) as H0. rewrite take_app_length in H0.
  pose proof (valid_chain_take _ _ (1 + List.length pre) Hc) as H1.
  assert (E1 : take (1 + List.length pre) (pre ++ e :: rest) = pre ++ [e]).
  { rewrite take_app_ge by lia. by replace (1 + List.length pre - List.length pre)%nat with 1%nat by lia. }
  rewrite E1 in H1. cbn [journal_loop try_fold].
  rewrite length_app in Hlen. cbn in Hlen.
  rewrite (proj2 (verify_position_Ok id pre e tt H0 ltac:(lia)) H1). cbn [mbind Result_bind].
  destruct (step state e) as [s|]; cbn; [|done].
  apply IH; [by rewrite <- (assoc_L (++))|]. rewrite !length_app. cbn. lia.
Qed.

Lemma journal_loop_Ok id pre state rest state' :
  valid_chain id pre -> Z.of_nat (List.length (pre ++ rest)) < 2 ^ 64 ->
  journal_loop step id pre state rest = Ok state' <->
  valid_chain id (pre ++ rest) /\ try_fold step state rest = Ok state'.
Proof.
  intros Hpre Hlen. split.
  - intros E. assert (Hc : valid_chain id (pre ++ rest)).
    { revert pre state Hpre Hlen E. induction rest as [|e rest IH]; intros pre state Hpre Hlen E.
      - by rewrite app_nil_r.
      - cbn [journal_loop] in E. rewrite length_app in Hlen. cbn in Hlen.
        apply bind_Ok in E as (? & Hv & E). apply bind_Ok in E as (s & _ & E).
        apply verify_position_Ok in Hv; [|done|lia].
        rewrite cons_middle, (assoc_L (++)). apply (IH _ s); [done| |done].
        rewrite !length_app. cbn. lia. }
    split; [done|]. by rewrite <- (journal_loop_chain id pre).
  - intros [Hc E]. by rewrite journal_loop_chain.
Qed.

End loop.

Section replay.
Context `{Sha256}.

Definition publication (t : JournalEventType) : Prop := t = ArtifactPublished \/ t = SignalSetPublished.

(** The event that ends a run in a state. *)
Definition ending (s : RunState) : option JournalEventType :=
  match s with
  | Succeeded => Some RunSucceeded
  | Failed => Some RunFailed
  | Cancelled => Some RunCancelled
  | Created | Running => None
  end.

Lemma lifecycle_cons st t types :
  lifecycle st (t :: types) = (s ← replay_transition st t; lifecycle (Some s) types).
Proof. unfold lifecycle. cbn [try_fold]. by destruct (replay_transition st t). Qed.

Lemma lifecycle_ended s types s' :
  is_terminal s = true -> lifecycle (Some s) types = Ok s' -> types = [] /\ s' = Some s.
Proof. destruct types as [|t types]; [by intros _ [= <-]|]. by destruct s, t. Qed.

Lemma lifecycle_running types s :
  is_terminal s = true ->
  lifecycle (Some Running) types = Ok (Some s) <->
  exists pubs t, types = pubs ++ [t] /\ Forall publication pubs /\ ending s = Some t.
Proof.
  intros Hs. induction types as [|t types IH].
  { split; [intros [= <-]; done|]. by intros ([|? ?] & ? & ? & _). }
  split.
  - intros E. rewrite lifecycle_cons in E.
    destruct t; cbn [replay_transition] in E; try discriminate E; cbn [mbind Result_bind] in E;
      try (apply lifecycle_ended in E as [-> [= ->]]; [|done]; eexists [], _; split; [reflexivity|split; [constructor|done]]).
    + apply IH in E as (pubs & t & -> & Hp & He). exists (ArtifactPublished :: pubs), t.
      split; [done|]. split; [|done]. constructor; [by left|done].
    + apply IH in E as (pubs & t & -> & Hp & He). exists (SignalSetPublished :: pubs), t.
      split; [done|]. split; [|done]. constructor; [by right|done].
  - intros ([|p pubs] & t' & E & Hp & He).
    + injection E as -> ->. by destruct s; try discriminate He; injection He as <-.
    + injection E as -> ->. apply List.Forall_cons_iff in Hp as [Hp Hps].
      assert (Hrest : lifecycle (Some Running) (pubs ++ [t']) = Ok (Some s)) by (apply IH; eauto).
      by destruct Hp as [-> | ->].
Qed.

(** The journals a replay accepts, by their event types. *)
Lemma lifecycle_language types s :
  is_terminal s = true ->
  lifecycle None types = Ok (Some s) <->
  exists pubs t, types = [RunCreated; RunStarted] ++ pubs ++ [t] /\ Forall publication pubs
    /\ ending s = Some t.
Proof.
  intros Hs. split.
  - destruct types as [|t1 types]; [done|]. destruct t1; try done. destruct types as [|t2 types].
    { intros [= <-]. done. }
    destruct t2; try done. intros E. change (lifecycle (Some Running) types = Ok (Some s)) in E.
    apply lifecycle_running in E as (pubs & t & -> & ?); [|done]. by exists pubs, t.
  - intros (pubs & t & -> & Hp & He). change (lifecycle (Some Running) (pubs ++ [t]) = Ok (Some s)).
    apply lifecycle_running; [done|]. by exists pubs, t.
Qed.

Lemma replay_Ok first rest r :
  Z.of_nat (List.length (first :: rest)) < 2 ^ 64 ->
  replay (first :: rest) = Ok r <->
  let id := run_id (event_input first) in
  valid_chain id (first :: rest) /\
  exists s, lifecycle None (event_types (first :: rest)) = Ok (Some s) /\ is_terminal s = true /\
    r = {| replay_run_id := id; terminal_state := s; event_count := List.length (first :: rest);
           replay_result_digest := replay_digest first (first :: rest) s |}.
Proof.
  intros Hlen. unfold replay. cbn [hd_error ok_or mbind Result_bind]. cbv zeta.
  rewrite bind_Ok. setoid_rewrite (journal_loop_Ok replay_step _ [] None (first :: rest) _ (valid_chain_nil _) Hlen).
  setoid_rewrite lifecycle_steps.
  cbn [app]. split.
  - intros (st & [Hc Hl] & E). split; [done|]. destruct st as [s|]; [|done]. cbn in E.
    destruct (is_terminal s) eqn:Et; [|done]. injection E as <-. by exists s.
  - intros (Hc & s & Hl & Ht & ->). exists (Some s). split; [done|]. cbn. by rewrite Ht.
Qed.

Lemma replay_chain_Err first rest e :
  valid_chain (run_id (event_input first)) (first :: rest) ->
  Z.of_nat (List.length (first :: rest)) < 2 ^ 64 ->
  replay (first :: rest) = Err e -> e = invalid_transition.
Proof.
  intros Hc Hlen. unfold replay. cbn [hd_error ok_or mbind Result_bind]. cbv zeta.
  rewrite journal_loop_chain, lifecycle_steps by done.
  assert (Hlife : forall st types e, lifecycle st types = Err e -> e = invalid_transition).
  { clear. intros st types. revert st. induction types as [|t types IH]; intros st e; [done|].
    rewrite lifecycle_cons. intros [E|(s & _ & E)]%bind_Err; [|exact (IH _ _ E)].
    destruct st as [[]|], t; cbn in E; congruence. }
  intros [E|(st & _ & E)]%bind_Err; [exact (Hlife _ _ _ E)|].
  destruct st as [s|]; cbn in E; [|congruence]. destruct (is_terminal s); cbn in E; congruence.
Qed.

End replay.

(** ** Examples *)

Definition sample_event (n : Z) (t : JournalEventType) (prev : option ContentHash) : RunJournalInput := {|
  journal_event_id := sample_id "E"; run_id := sample_id "R"; sequence := n; event_type := t;
  occurred_at := sample_time (1000 + n); payload_type := "run"; payload_schema := "run.v1";
  payload := [x01]; prev_hash := prev
|}.

Definition sample_command (i : RunJournalInput) : JournalAppend := {|
  append_input := i; claimed_hash := @digest sample_sha256 (journal_canonical_bytes i)
|}.

(** The calls of a run that is created, started and succeeds, with a retry and a stale writer. *)
Definition sample_calls : list (IdempotencyKey * Z * JournalAppend) :=
  let e1 := sample_event 1 RunCreated None in
  let h1 := claimed_hash (sample_command e1) in
  let e2 := sample_event 2 RunStarted (Some h1) in
  let h2 := claimed_hash (sample_command e2) in
  let e3 := sample_event 3 RunSucceeded (Some h2) in
  [(mk_key "a", 1, sample_command e1); (mk_key "b", 1, sample_command e2);
   (mk_key "b", 2, sample_command e2); (mk_key "a", 9, sample_command e1);
   (mk_key "c", 3, sample_command e3)].

Definition sample_journal : PerRunJournal :=
  foldl (@call sample_sha256) (journal_new (sample_id "R")) sample_calls.

Example sample_journal_replays :
  terminal_state <$> @replay sample_sha256 (events sample_journal) = Ok Succeeded.
Proof. vm_compute. reflexivity. Qed.

(** ** Properties *)

(** C4. The journal is an append-only hash chain: after any interleaving of calls on an empty
    journal, its events belong to the run, are numbered from one without gaps, are each the canonical
    content of their hash, and each carries the hash of the one before at a time no earlier. The
    idempotency map records every event under exactly one key, and a key with an event exactly when one
    of the calls with that key inserted the event, which is the one its command describes. Further calls
    only extend the events and never change a recorded key. *)
Theorem journal_append_only `{Sha256} id cs ds :
  Z.of_nat (List.length cs) + Z.of_nat (List.length ds) < 2 ^ 64 ->
  let j := foldl call (journal_new id) cs in
  let j' := foldl call (journal_new id) (cs ++ ds) in
  valid_chain id (events j) /\
  (idempotency j).*2 ≡ₚ events j /\ btree_wf (idempotency j) /\
  (forall k e, btree_get k (idempotency j) = Some e <->
     exists before c after k', cs = before ++ c :: after /\ c.1.1 = k
       /\ run_journal_new (append_input c.2) (claimed_hash c.2) = Ok e
       /\ append (foldl call (journal_new id) before) c.1.1 c.1.2 c.2 = Ok ({| result_event := e; inserted := true |}, k')) /\
  (exists new, events j' = events j ++ new) /\
  (forall k e, btree_get k (idempotency j) = Some e -> btree_get k (idempotency j') = Some e).
Proof.
  intros Hlen j j'.
  destruct (calls_inv (journal_new id) cs (journal_new_inv id) ltac:(cbn; lia)) as (Hj & Hid & _ & _ & Hl).
  fold j in Hj, Hid, Hl. cbn in Hl. unfold j'. rewrite foldl_app. fold j.
  destruct (calls_inv j ds Hj ltac:(lia)) as (_ & _ & Hnew & Hk & _).
  destruct Hj as [Hc Hw Hr]. rewrite Hid in Hc. do 3 (split; [done|]). split; [|done].
  intros k e. apply calls_record. lia.
Qed.

Lemma journal_append_only_witness : @valid_chain sample_sha256 (sample_id "R") (events sample_journal).
Proof.
  exact (proj1 (@journal_append_only sample_sha256 (sample_id "R") sample_calls [] eq_refl)).
Defined.

(** Appends are idempotent and optimistic: on a reachable journal a call succeeds exactly when
    its hash is the canonical one and either its key is recorded with that hash, in which case the
    recorded event is returned and nothing changes, or its key is new, the expected sequence is the
    next one and the event extends the chain, which it then does. *)
Theorem journal_append_correct `{Sha256} j key expected cmd r j' :
  journal_inv j -> Z.of_nat (List.length (events j)) + 1 < 2 ^ 64 ->
  append j key expected cmd = Ok (r, j') <->
  exists e, run_journal_new (append_input cmd) (claimed_hash cmd) = Ok e /\
  match btree_get key (idempotency j) with
  | Some existing => event_hash existing = event_hash e /\ j' = j
      /\ r = {| result_event := existing; inserted := false |}
  | None => expected = Z.of_nat (List.length (events j)) + 1
      /\ valid_chain (journal_run_id j) (events j ++ [e])
      /\ r = {| result_event := e; inserted := true |}
      /\ j' = {| journal_run_id := journal_run_id j; events := events j ++ [e];
                 idempotency := btree_insert key e (idempotency j) |}
  end.
Proof. apply append_Ok. Qed.

Lemma journal_append_correct_witness :
  exists e, @valid_chain sample_sha256 (sample_id "R") [e].
Proof.
  destruct (@append sample_sha256 (journal_new (sample_id "R")) (mk_key "a") 1
    (sample_command (sample_event 1 RunCreated None))) as [[r j']|] eqn:E;
    [|vm_compute in E; discriminate E].
  apply (@journal_append_correct sample_sha256 (journal_new (sample_id "R")) (mk_key "a") 1
    (sample_command (sample_event 1 RunCreated None)) r j'
    (@journal_new_inv sample_sha256 (sample_id "R")) eq_refl) in E.
  destruct E as (e & _ & _ & Hc & _). exists e. exact Hc.
Defined.

(** C23. Tamper evidence: two valid chains of well-formed events whose last events have the same
    hash are the same list of events from the first to the last, or exhibit a SHA-256 collision. *)
Theorem journal_head_authenticates_history `{UlidCrate} `{Sha256} id id' l m e f :
  valid_chain id (l ++ [e]) -> valid_chain id' (m ++ [f]) ->
  Forall (fun x => wf_event (event_input x)) (l ++ [e]) ->
  Forall (fun x => wf_event (event_input x)) (m ++ [f]) ->
  event_hash e = event_hash f -> l ++ [e] = m ++ [f] \/ collision.
Proof. apply chain_identified. Qed.

Lemma sample_event_wf n t p :
  in_u64 n = true -> in_i64 (1000 + n) = true -> from_option wf_hash True p ->
  @wf_event sample_ulid_crate (sample_event n t p).
Proof.
  intros Hn Hi Hp. unfold wf_event, wf_time, wf_datetime, wf_date. cbn.
  split; [done|]. split; [done|]. split; [done|]. split; [|done].
  split; [done|]. split; [|done]. split; [done|lia].
Qed.

Lemma journal_head_authenticates_history_witness :
  exists e, @valid_chain sample_sha256 (sample_id "R") ([] ++ [e]) /\
  ([] ++ [e] = [] ++ [e] \/ @collision sample_sha256).
Proof.
  pose (i := sample_event 1 RunCreated None).
  pose (e := {| event_input := i; event_hash := @digest sample_sha256 (journal_canonical_bytes i) |}).
  assert (Hc : @valid_chain sample_sha256 (sample_id "R") ([] ++ [e])).
  { apply (@valid_chain_snoc sample_sha256). split; [apply valid_chain_nil|].
    split; [split; [vm_compute; reflexivity|reflexivity]|]. split; [reflexivity|].
    split; [reflexivity|discriminate]. }
  exists e. split; [exact Hc|].
  apply (@journal_head_authenticates_history sample_ulid_crate sample_sha256 (sample_id "R")
    (sample_id "R") [] [] e e Hc Hc).
  - split_forall. by apply sample_event_wf.
  - split_forall. by apply sample_event_wf.
  - reflexivity.
Defined.

(** C15. Replay accepts exactly the journals of ended runs: a chain that is valid, and whose events
    are a creation, a start, any publications and one ending event; it reports the state of that
    ending, the number of events and their digest. *)
Theorem replay_correct `{Sha256} first rest r :
  Z.of_nat (List.length (first :: rest)) < 2 ^ 64 ->
  replay (first :: rest) = Ok r <->
  valid_chain (run_id (event_input first)) (first :: rest) /\
  exists s pubs t, event_types (first :: rest) = [RunCreated; RunStarted] ++ pubs ++ [t]
    /\ Forall publication pubs /\ ending s = Some t
    /\ r = {| replay_run_id := run_id (event_input first); terminal_state := s;
              event_count := List.length (first :: rest);
              replay_result_digest := replay_digest first (first :: rest) s |}.
Proof.
  intros Hlen. rewrite (replay_Ok first rest r Hlen). cbv zeta. apply and_cong_l. intros Hc.
  split.
  - intros (s & Hl & Ht & ->). apply lifecycle_language in Hl as (pubs & t & E & Hp & He); [|done].
    by exists s, pubs, t.
  - intros (s & pubs & t & E & Hp & He & ->). exists s.
    assert (Ht : is_terminal s = true) by (by destruct s).
    split; [|done]. apply lifecycle_language; [done|]. by exists pubs, t.
Qed.

Lemma replay_correct_witness :
  match events sample_journal with
  | first :: rest => @valid_chain sample_sha256 (run_id (event_input first)) (first :: rest)
  | [] => False
  end.
Proof.
  destruct (events sample_journal) as [|first rest] eqn:E; [vm_compute in E; discriminate E|].
  destruct (@replay sample_sha256 (first :: rest)) as [r|] eqn:R.
  - assert (Hl : Z.of_nat (List.length (first :: rest)) < 2 ^ 64)
      by (rewrite <- E; vm_compute; reflexivity).
    exact (proj1 (proj1 (@replay_correct sample_sha256 first rest r Hl) R)).
  - rewrite <- E in R. vm_compute in R. discriminate R.
Defined.

(** A journal built by appends never replays with an integrity error: whatever calls were made,
    replaying its events succeeds or fails with [InvalidStateTransition], because the events do not
    form a complete run. *)
Theorem journal_replays `{Sha256} id cs e :
  Z.of_nat (List.length cs) < 2 ^ 64 ->
  replay (events (foldl call (journal_new id) cs)) = Err e -> e = Domain InvalidStateTransition.
Proof.
  intros Hlen. destruct (calls_inv (journal_new id) cs (journal_new_inv id) ltac:(cbn; lia))
    as (Hj & _ & _ & _ & Hl).
  pose proof (inv_chain _ Hj) as Hc. destruct (events (foldl call (journal_new id) cs)) as [|first rest].
  { unfold replay. cbn. by intros [= <-]. }
  apply replay_chain_Err; [|cbn in *; lia].
  destruct (chain_events _ _ Hc 0%nat first eq_refl) as (_ & -> & _). done.
Qed.

Lemma journal_replays_witness :
  @replay sample_sha256 (events (foldl (@call sample_sha256) (journal_new (sample_id "R")) (take 1 sample_calls)))
  = Err (Domain InvalidStateTransition).
Proof.
  destruct (@replay sample_sha256 (events (foldl (@call sample_sha256) (journal_new (sample_id "R"))
    (take 1 sample_calls)))) as [r|e] eqn:E; [vm_compute in E; discriminate E|].
  f_equal. exact (@journal_replays sample_sha256 (sample_id "R") (take 1 sample_calls) e eq_refl E).
Defined.
