(* ===== verification/GraphExec.v ===== *)
(** * Replay of a graph execution

    [crates/ficant-runtime/src/graph_execution.rs]: the payload of node events, and the state machine
    that replays a journal prefix against the frozen order of a research graph, to find which nodes
    are complete and which must be rerun. *)

From Stdlib Require Import ZArith Lia Strings.String.
From Stdlib Require Import Strings.Byte.
From stdpp Require Import base list option strings numbers sets.
From S2P Require Import Prelude Machine Collections Primitives Codec Concrete RunJournal Runtime.
From S2P Require Import ResearchGraph GraphOrder GraphWiring GraphConstruction.
Open Scope Z_scope.

(** ** Node events *)

Definition PAYLOAD_TYPE : string := "ficant.graph-node-event".
Definition PAYLOAD_SCHEMA : string := "ficant.graph-node-event.v1".
Definition MAGIC : list byte := as_bytes "FGNE".
Definition VERSION : Z := 1.

Record GraphNodeEvent := {
  event_node_id : Ulid;
  attempt : Z;
  evidence_hash : option ContentHash
}.

Definition invalid_value : RuntimeError := Domain InvalidValue.

Definition graph_node_event_new (node_id : Ulid) (attempt : Z) (evidence_hash : option ContentHash)
    : DomainResult GraphNodeEvent :=
  if attempt =? 0 then Err InvalidValue
  else Ok {| event_node_id := node_id; attempt := attempt; evidence_hash := evidence_hash |}.

Definition started (node_id : Ulid) (attempt : Z) : DomainResult GraphNodeEvent :=
  graph_node_event_new node_id attempt None.

Definition evidenced (node_id : Ulid) (attempt : Z) (evidence_hash : ContentHash)
    : DomainResult GraphNodeEvent := graph_node_event_new node_id attempt (Some evidence_hash).

Definition encode (self : GraphNodeEvent) : list byte :=
  MAGIC ++ to_be_bytes 2 VERSION ++ as_bytes (ulid_str (event_node_id self))
  ++ to_be_bytes 4 (attempt self)
  ++ match evidence_hash self with
     | Some hash => byte_of_Z 1 :: hash_bytes hash
     | None => [byte_of_Z 0]
     end.

(** [&payload[from..to]]. *)
Definition slice (from to : nat) (l : list byte) : list byte := take (to - from) (drop from l).

(** The event types that carry a node payload. *)
Definition node_event (t : JournalEventType) : bool :=
  match t with NodeStarted | NodeSucceeded | NodeFailed | NodeCheckpointed => true | _ => false end.

Definition is_started (t : JournalEventType) : bool :=
  match t with NodeStarted => true | _ => false end.

Definition is_some {A} (o : option A) : bool := match o with Some _ => true | None => false end.

Definition decode `{UlidCrate} (event : RunJournal) : RuntimeResult GraphNodeEvent :=
  let input := event_input event in
  if negb (bool_decide (payload_type input = PAYLOAD_TYPE))
     || negb (bool_decide (payload_schema input = PAYLOAD_SCHEMA))
  then Err invalid_value else
  let payload := payload input in
  if (List.length payload <? 37)%nat || negb (bool_decide (slice 0 4 payload = MAGIC))
     || negb (bool_decide (slice 4 6 payload = to_be_bytes 2 VERSION))
  then Err invalid_value else
  _ ← fail_if (negb (utf8_valid (slice 6 32 payload))) invalid_value;
  node_id ← map_err Domain (ulid_new (string_of_list_byte (slice 6 32 payload)));
  hash ←
    match Z_of_byte (nth 36 payload x00) with
    | 0 => if (List.length payload =? 37)%nat then Ok None else Err invalid_value
    | 1 => if (List.length payload =? 69)%nat
           then map_err Domain (Some <$> hash_from_bytes (slice 37 69 payload))
           else Err invalid_value
    | _ => Err invalid_value
    end;
  result ← map_err Domain (graph_node_event_new node_id (from_be_bytes (slice 32 36 payload)) hash);
  let expects_evidence := negb (is_started (event_type input)) in
  if negb (node_event (event_type input))
     || negb (eqb expects_evidence (is_some (evidence_hash result)))
  then Err invalid_value
  else Ok result.

(** ** The state machine *)

Record GraphCheckpoint := {
  checkpoint_node_id : Ulid;
  checkpoint_attempt : Z;
  output_hash : ContentHash;
  journal_sequence : Z;
  journal_hash : ContentHash
}.

Record GraphReplayResult := {
  result_run_id : Ulid;
  result_run_state : RunState;
  result_completed_nodes : list Ulid;
  resume_node : option Ulid;
  result_last_checkpoint : option GraphCheckpoint;
  result_event_count : nat
}.

Inductive Phase :=
| Initial
| PhaseCreated
| Ready (index : nat)
| Active (index : nat) (attempt : Z)
| AwaitingCheckpoint (index : nat) (attempt : Z) (hash : ContentHash)
| PhaseNodeFailed
| Terminal (state : RunState).

(** The variables of the loop of [replay_graph_execution]. *)
Record Progress := {
  phase : Phase;
  completed_nodes : list Ulid;
  last_checkpoint : option GraphCheckpoint
}.

Definition require_node (payload : GraphNodeEvent) (order : list Ulid) (index : nat) (at_attempt : Z)
    : RuntimeResult unit :=
  fail_if (negb (bool_decide (order !! index = Some (event_node_id payload)))
           || negb (attempt payload =? at_attempt)) invalid_transition.

Definition require_node_identity (payload : GraphNodeEvent) (order : list Ulid) (index : nat)
    : RuntimeResult unit :=
  fail_if (negb (bool_decide (order !! index = Some (event_node_id payload)))) invalid_transition.

(** The arms that only change the phase. *)
Definition to_phase (self : Progress) (p : Phase) : Progress :=
  {| phase := p; completed_nodes := completed_nodes self; last_checkpoint := last_checkpoint self |}.

Definition transition `{UlidCrate} (order : list Ulid) (self : Progress) (event : RunJournal)
    : RuntimeResult Progress :=
  match phase self, event_type (event_input event) with
  | Initial, RunCreated => Ok (to_phase self PhaseCreated)
  | PhaseCreated, RunStarted => Ok (to_phase self (Ready 0))
  | Ready index, NodeStarted =>
      payload ← decode event;
      _ ← require_node_identity payload order index;
      Ok (to_phase self (Active index (attempt payload)))
  | (Active index current | AwaitingCheckpoint index current _), NodeStarted =>
      payload ← decode event;
      _ ← require_node_identity payload order index;
      if attempt payload <=? current then Err invalid_transition
      else Ok (to_phase self (Active index (attempt payload)))
  | Active index current, NodeSucceeded =>
      payload ← decode event;
      _ ← require_node payload order index current;
      hash ← ok_or (evidence_hash payload) invalid_value;
      Ok (to_phase self (AwaitingCheckpoint index current hash))
  | AwaitingCheckpoint index current hash, NodeCheckpointed =>
      payload ← decode event;
      _ ← require_node payload order index current;
      if negb (bool_decide (evidence_hash payload = Some hash)) then Err invalid_value else
      node_id ← ok_or (order !! index) invalid_transition;
      Ok {| phase := Ready (index + 1);
            completed_nodes := completed_nodes self ++ [node_id];
            last_checkpoint := Some {|
              checkpoint_node_id := node_id; checkpoint_attempt := current; output_hash := hash;
              journal_sequence := sequence (event_input event); journal_hash := event_hash event |} |}
  | Active index current, NodeFailed =>
      payload ← decode event;
      _ ← require_node payload order index current;
      Ok (to_phase self PhaseNodeFailed)
  | Ready index, RunSucceeded =>
      if (index =? List.length order)%nat then Ok (to_phase self (Terminal Succeeded))
      else Err invalid_transition
  | PhaseNodeFailed, RunFailed => Ok (to_phase self (Terminal Failed))
  | (Ready _ | Active _ _ | AwaitingCheckpoint _ _ _), RunCancelled =>
      Ok (to_phase self (Terminal Cancelled))
  | _, _ => Err invalid_transition
  end.

Definition initial_progress : Progress :=
  {| phase := Initial; completed_nodes := []; last_checkpoint := None |}.

(** The run state and the node to resume at, from the last phase. *)
Definition phase_result (order : list Ulid) (p : Phase) : RuntimeResult (RunState * option Ulid) :=
  match p with
  | Initial => Err invalid_transition
  | PhaseCreated => Ok (Created, None)
  | Ready index => Ok (Running, order !! index)
  | Active index _ | AwaitingCheckpoint index _ _ => Ok (Running, order !! index)
  | PhaseNodeFailed => Ok (Running, None)
  | Terminal state => Ok (state, None)
  end.

Definition replay_graph_execution `{UlidCrate} `{Sha256} (graph : ResearchGraph)
    (events : list RunJournal) : RuntimeResult GraphReplayResult :=
  first ← ok_or (hd_error events) invalid_transition;
  let id := run_id (event_input first) in
  let order := topological_order_field graph in
  final ← journal_loop (transition order) id [] initial_progress events;
  state_and_resume ← phase_result order (phase final);
  Ok {| result_run_id := id; result_run_state := state_and_resume.1;
        result_completed_nodes := completed_nodes final; resume_node := state_and_resume.2;
        result_last_checkpoint := last_checkpoint final; result_event_count := List.length events |}.

(** ** The codec of node events *)

Lemma slice_split from to l : (from <= to)%nat -> drop from l = slice from to l ++ drop to l.
Proof.
  intros Hle. unfold slice. rewrite <- (take_drop (to - from) (drop from l)) at 1.
  rewrite drop_drop. by replace (from + (to - from))%nat with to by lia.
Qed.

Lemma slice_app from to a b c :
  List.length a = from -> List.length b = (to - from)%nat -> slice from to (a ++ b ++ c) = b.
Proof. intros <- Hb. unfold slice. by rewrite drop_app_length, <- Hb, take_app_length. Qed.

Lemma slice_length from to l :
  (to <= List.length l)%nat -> List.length (slice from to l) = (to - from)%nat.
Proof. intros Hl. unfold slice. rewrite length_take, length_drop. lia. Qed.

Lemma drop_nth k l : (k < List.length l)%nat -> drop k l = nth k l x00 :: drop (S k) l.
Proof.
  revert k. induction l as [|x l IH]; intros k Hk; cbn in Hk; [lia|].
  destruct k as [|k]; cbn; [done|]. apply IH. lia.
Qed.

(** The fixed layout of a payload: magic, version, node, attempt, flag and evidence. *)
Lemma payload_layout l :
  (37 <= List.length l)%nat ->
  l = slice 0 4 l ++ slice 4 6 l ++ slice 6 32 l ++ slice 32 36 l ++ nth 36 l x00 :: drop 37 l.
Proof.
  intros Hl. rewrite <- drop_nth by lia. rewrite <- !slice_split by lia. done.
Qed.

Definition wf_node_event `{UlidCrate} (p : GraphNodeEvent) : Prop :=
  wf_ulid (event_node_id p) /\ in_u32 (attempt p) = true /\ attempt p <> 0
  /\ from_option wf_hash True (evidence_hash p).

(** The node events that a journal event of a type may carry. *)
Definition carries (t : JournalEventType) (p : GraphNodeEvent) : Prop :=
  node_event t = true /\ is_some (evidence_hash p) = negb (is_started t).

Lemma graph_node_event_new_Ok n a h p :
  graph_node_event_new n a h = Ok p <->
  a <> 0 /\ p = {| event_node_id := n; attempt := a; evidence_hash := h |}.
Proof. unfold graph_node_event_new. destruct (Z.eqb_spec a 0); naive_solver. Qed.

Lemma to_from_be_bytes_len n l : List.length l = n -> to_be_bytes n (from_be_bytes l) = l.
Proof. intros <-. apply to_from_be_bytes. Qed.

Lemma from_be_bytes_u32 l : List.length l = 4%nat -> in_u32 (from_be_bytes l) = true.
Proof. intros Hl. pose proof (from_be_bytes_range l) as Hr. rewrite Hl in Hr. ranges. lia. Qed.

Lemma evidence_field_Ok l o :
  match Z_of_byte (nth 36 l x00) with
  | 0 => if (List.length l =? 37)%nat then Ok None else Err invalid_value
  | 1 => if (List.length l =? 69)%nat
         then map_err Domain (Some <$> hash_from_bytes (slice 37 69 l))
         else Err invalid_value
  | _ => Err invalid_value
  end = Ok o -> (37 <= List.length l)%nat ->
  nth 36 l x00 :: drop 37 l =
    match o with Some hash => byte_of_Z 1 :: hash_bytes hash | None => [byte_of_Z 0] end
  /\ from_option wf_hash True o.
Proof.
  intros E Hl. rewrite <- (byte_of_Z_of_byte (nth 36 l x00)).
  destruct (Z_of_byte (nth 36 l x00)) as [|[| |]|]; try discriminate E.
  - destruct (Nat.eqb_spec (List.length l) 37); [|discriminate E]. injection E as <-.
    rewrite drop_ge by lia. done.
  - destruct (Nat.eqb_spec (List.length l) 69) as [H69|]; [|discriminate E].
    apply map_err_Ok in E. unfold hash_from_bytes in E.
    assert (Hs : slice 37 69 l = drop 37 l) by (unfold slice; rewrite take_ge; [done|rewrite length_drop; lia]).
    rewrite Hs in E. destruct (_ : bool) eqn:Eb in E; cbn in E; [|discriminate E].
    injection E as <-. cbn. split; [done|]. unfold wf_hash. cbn. rewrite length_drop. lia.
Qed.

Lemma layout_slices a b c d x t :
  List.length a = 4%nat -> List.length b = 2%nat -> List.length c = 26%nat -> List.length d = 4%nat ->
  let l := a ++ b ++ c ++ d ++ x :: t in
  slice 0 4 l = a /\ slice 4 6 l = b /\ slice 6 32 l = c /\ slice 32 36 l = d /\ nth 36 l x00 = x
  /\ drop 37 l = t /\ List.length l = (37 + List.length t)%nat.
Proof.
  intros Ha Hb Hc Hd l.
  assert (Hl : List.length l = (37 + List.length t)%nat).
  { unfold l. rewrite !length_app, Ha, Hb, Hc, Hd. cbn. lia. }
  assert (Ed : drop 36 l = x :: t).
  { unfold l. rewrite !(assoc_L (++)). apply drop_app_length'. by rewrite !length_app, Ha, Hb, Hc, Hd. }
  split; [by apply (slice_app 0 4 [])|]. split; [by apply slice_app|].
  split. { unfold l. rewrite (assoc_L (++)). apply slice_app; [|done]. by rewrite length_app, Ha, Hb. }
  split. { replace l with ((a ++ b ++ c) ++ d ++ x :: t) by (unfold l; by rewrite <- !(assoc_L (++))).
           apply slice_app; [|done]. by rewrite !length_app, Ha, Hb, Hc. }
  rewrite drop_nth in Ed by lia. by injection Ed as -> ->.
Qed.

Lemma decode_sound `{UlidCrate} event p :
  decode event = Ok p ->
  payload_type (event_input event) = PAYLOAD_TYPE /\ payload_schema (event_input event) = PAYLOAD_SCHEMA
  /\ payload (event_input event) = encode p /\ wf_node_event p
  /\ carries (event_type (event_input event)) p.
Proof.
  unfold decode. cbv zeta. set (l := payload (event_input event)). intros E.
  case_bool_decide as Et; [|discriminate E]. case_bool_decide as Es; [|discriminate E]. cbn [negb orb] in E.
  destruct (Nat.ltb_spec (List.length l) 37) as [|Hl]; [discriminate E|].
  case_bool_decide as Em; [|discriminate E]. case_bool_decide as Ev; [|discriminate E]. cbn [negb orb] in E.
  apply bind_Ok in E as (? & Hu & E). apply bind_Ok in E as (n & Hn & E).
  apply bind_Ok in E as (h & Hh & E). apply bind_Ok in E as (r & Hr & E).
  apply map_err_Ok in Hn, Hr. apply graph_node_event_new_Ok in Hr as [Ha ->]. cbn [evidence_hash] in E.
  destruct (node_event _) eqn:En; [|discriminate E].
  destruct (eqb _ _) eqn:Eb; [|discriminate E]. injection E as <-. apply eqb_prop in Eb.
  destruct (evidence_field_Ok _ _ Hh Hl) as [Hf Hw].
  assert (Hid : as_bytes (ulid_str n) = slice 6 32 l /\ wf_ulid n).
  { unfold wf_ulid. pose proof Hn as Hn'. unfold ulid_new in Hn'. apply bind_Ok in Hn' as (? & _ & Hn').
    destruct (_ || _); [discriminate Hn'|]. injection Hn' as <-.
    split; [|exact Hn]. apply list_byte_of_string_of_list_byte. }
  destruct Hid as [Hid Hwn].
  split; [done|]. split; [done|]. split; [|split].
  - unfold encode. cbn [event_node_id attempt evidence_hash]. rewrite <- Hf, <- Em, <- Ev, Hid.
    rewrite (to_from_be_bytes_len 4) by (apply slice_length; lia). by apply payload_layout.
  - split; [done|]. split; [|done]. apply from_be_bytes_u32. apply slice_length. lia.
  - by split.
Qed.

Lemma decode_complete `{UlidCrate} event p :
  payload_type (event_input event) = PAYLOAD_TYPE /\ payload_schema (event_input event) = PAYLOAD_SCHEMA
  /\ payload (event_input event) = encode p /\ wf_node_event p
  /\ carries (event_type (event_input event)) p ->
  decode event = Ok p.
Proof.
  unfold decode. cbv zeta. set (l := payload (event_input event)).
  intros (-> & -> & El & (Hn & Hr & Ha & Hw) & Hne & Hev). do 2 rewrite bool_decide_eq_true_2 by done.
  cbn [negb orb]. rewrite El. destruct p as [n a h]. cbn in Hn, Hr, Ha, Hw, Hev.
  pose proof (wf_ulid_len n Hn) as Hlen. rewrite <- length_as_bytes in Hlen.
  set (tail := match h with Some hash => hash_bytes hash | None => [] end).
  assert (Ep : encode {| event_node_id := n; attempt := a; evidence_hash := h |}
    = MAGIC ++ to_be_bytes 2 VERSION ++ as_bytes (ulid_str n) ++ to_be_bytes 4 a
      ++ byte_of_Z (if is_some h then 1 else 0) :: tail) by (by destruct h).
  rewrite Ep. destruct (layout_slices MAGIC (to_be_bytes 2 VERSION) (as_bytes (ulid_str n)) (to_be_bytes 4 a)
    (byte_of_Z (if is_some h then 1 else 0)) tail) as (-> & -> & -> & -> & -> & Hd & ->);
    [done|by rewrite length_to_be_bytes|done|by rewrite length_to_be_bytes|].
  destruct (Nat.ltb_spec (37 + List.length tail) 37); [lia|].
  do 2 rewrite bool_decide_eq_true_2 by done. cbn [negb orb].
  assert (Hc : ulid_new (ulid_str n) = Ok n) by done.
  rewrite ascii_utf8_valid by (unfold ulid_new in Hc; res_simp; breflect; done).
  cbn [negb fail_if mbind Result_bind].
  assert (Hs : string_of_list_byte (as_bytes (ulid_str n)) = ulid_str n) by apply string_of_list_byte_of_string.
  rewrite Hs, Hc. unfold slice. rewrite Hd. rewrite from_to_be_bytes, Z.mod_small by (ranges; cbn; lia).
  cbn [map_err mbind Result_bind].
  destruct h as [h|]; cbn in Hw; unfold tail; cbn [is_some] in Hev |- *.
  - unfold wf_hash in Hw. change (Z_of_byte (byte_of_Z 1)) with 1. cbn iota.
    rewrite Hw. cbn [Nat.add Nat.eqb]. rewrite take_ge by lia.
    unfold hash_from_bytes. rewrite Hw. cbn. unfold graph_node_event_new.
    destruct (Z.eqb_spec a 0); [done|]. cbn. rewrite Hne, <- Hev. by destruct h.
  - change (Z_of_byte (byte_of_Z 0)) with 0. cbn. unfold graph_node_event_new.
    destruct (Z.eqb_spec a 0); [done|]. cbn. by rewrite Hne, <- Hev.
Qed.

Lemma decode_Ok `{UlidCrate} event p :
  decode event = Ok p <->
  payload_type (event_input event) = PAYLOAD_TYPE /\ payload_schema (event_input event) = PAYLOAD_SCHEMA
  /\ payload (event_input event) = encode p /\ wf_node_event p
  /\ carries (event_type (event_input event)) p.
Proof. split; [apply decode_sound|apply decode_complete]. Qed.

(** ** The state machine as a relation *)

Section steps.
Context `{UlidCrate}.
Variable order : list Ulid.

(** An event of a type that carries a node event. *)
Definition says (e : RunJournal) (t : JournalEventType) (p : GraphNodeEvent) : Prop :=
  event_type (event_input e) = t /\ decode e = Ok p.

Definition start_of (n : Ulid) (a : Z) : GraphNodeEvent :=
  {| event_node_id := n; attempt := a; evidence_hash := None |}.
Definition evidence_of (n : Ulid) (a : Z) (h : ContentHash) : GraphNodeEvent :=
  {| event_node_id := n; attempt := a; evidence_hash := Some h |}.

(** The phases in which attempt [a] of the node at an index may start. *)
Definition startable (p : Phase) (index : nat) (a : Z) : Prop :=
  match p with
  | Ready i => index = i
  | Active i b | AwaitingCheckpoint i b _ => index = i /\ b < a
  | _ => False
  end.

Definition interruptible (p : Phase) : Prop :=
  match p with Ready _ | Active _ _ | AwaitingCheckpoint _ _ _ => True | _ => False end.

Inductive graph_step (st : Progress) (e : RunJournal) : Progress -> Prop :=
| step_created :
    phase st = Initial -> event_type (event_input e) = RunCreated ->
    graph_step st e (to_phase st PhaseCreated)
| step_started :
    phase st = PhaseCreated -> event_type (event_input e) = RunStarted ->
    graph_step st e (to_phase st (Ready 0))
| step_node_started index n a :
    startable (phase st) index a -> order !! index = Some n -> says e NodeStarted (start_of n a) ->
    graph_step st e (to_phase st (Active index a))
| step_node_succeeded index n a h :
    phase st = Active index a -> order !! index = Some n -> says e NodeSucceeded (evidence_of n a h) ->
    graph_step st e (to_phase st (AwaitingCheckpoint index a h))
| step_node_checkpointed index n a h :
    phase st = AwaitingCheckpoint index a h -> order !! index = Some n ->
    says e NodeCheckpointed (evidence_of n a h) ->
    graph_step st e {| phase := Ready (index + 1); completed_nodes := completed_nodes st ++ [n];
      last_checkpoint := Some {| checkpoint_node_id := n; checkpoint_attempt := a; output_hash := h;
        journal_sequence := sequence (event_input e); journal_hash := event_hash e |} |}
| step_node_failed index n a h :
    phase st = Active index a -> order !! index = Some n -> says e NodeFailed (evidence_of n a h) ->
    graph_step st e (to_phase st PhaseNodeFailed)
| step_run_succeeded :
    phase st = Ready (List.length order) -> event_type (event_input e) = RunSucceeded ->
    graph_step st e (to_phase st (Terminal Succeeded))
| step_run_failed :
    phase st = PhaseNodeFailed -> event_type (event_input e) = RunFailed ->
    graph_step st e (to_phase st (Terminal Failed))
| step_run_cancelled :
    interruptible (phase st) -> event_type (event_input e) = RunCancelled ->
    graph_step st e (to_phase st (Terminal Cancelled)).

Lemma says_start e p : event_type (event_input e) = NodeStarted -> decode e = Ok p ->
  says e NodeStarted (start_of (event_node_id p) (attempt p)).
Proof.
  intros Et Hd. split; [done|]. rewrite Hd. apply decode_Ok in Hd as (_ & _ & _ & _ & _ & Hc).
  rewrite Et in Hc. destruct p as [n a [h|]]; [done|reflexivity].
Qed.

Lemma says_evidence e t p : event_type (event_input e) = t -> t <> NodeStarted -> decode e = Ok p ->
  exists h, evidence_hash p = Some h /\ says e t (evidence_of (event_node_id p) (attempt p) h).
Proof.
  intros Et Hne Hd. pose proof Hd as Hd'. apply decode_Ok in Hd' as (_ & _ & _ & _ & _ & Hc).
  rewrite Et in Hc. destruct p as [n a [h|]]; [by exists h|]. by destruct t.
Qed.

Lemma require_node_Ok p index a u :
  require_node p order index a = Ok u <-> order !! index = Some (event_node_id p) /\ attempt p = a.
Proof.
  unfold require_node. rewrite fail_if_Ok, orb_false_iff, !negb_false_iff, bool_decide_eq_true, Z.eqb_eq. done.
Qed.

Lemma require_node_identity_Ok p index u :
  require_node_identity p order index = Ok u <-> order !! index = Some (event_node_id p).
Proof. unfold require_node_identity. by rewrite fail_if_Ok, negb_false_iff, bool_decide_eq_true. Qed.

Ltac node_evidence Et Hd :=
  let h := fresh "h" in let Eh := fresh "Eh" in let Hs := fresh "Hs" in
  destruct (says_evidence _ _ _ Et ltac:(discriminate) Hd) as (h & Eh & Hs).

Lemma node_started_step st e index st' p :
  event_type (event_input e) = NodeStarted -> decode e = Ok p ->
  order !! index = Some (event_node_id p) -> startable (phase st) index (attempt p) ->
  st' = to_phase st (Active index (attempt p)) -> graph_step st e st'.
Proof. intros Et Hd Ho Hs ->. by apply (step_node_started _ _ _ (event_node_id p)), says_start. Qed.

Lemma transition_sound st e st' : transition order st e = Ok st' -> graph_step st e st'.
Proof.
  unfold transition. destruct (phase st) as [| |i|i b|i b h0| |] eqn:Ep, (event_type (event_input e)) eqn:Et;
    try discriminate; intros E.
  - injection E as <-. by apply step_created.
  - injection E as <-. by apply step_started.
  - destruct (Nat.eqb_spec i (List.length order)) as [->|]; [|discriminate E]. injection E as <-.
    by apply step_run_succeeded.
  - injection E as <-. apply step_run_cancelled; [by rewrite Ep|done].
  - apply bind_Ok in E as (p & Hd & E). apply bind_Ok in E as (u & Hr & E). apply require_node_identity_Ok in Hr.
    injection E as <-. apply (node_started_step _ _ i _ p Et Hd Hr); [by rewrite Ep|done].
  - injection E as <-. apply step_run_cancelled; [by rewrite Ep|done].
  - apply bind_Ok in E as (p & Hd & E). apply bind_Ok in E as (u & Hr & E). apply require_node_identity_Ok in Hr.
    destruct (Z.leb_spec (attempt p) b); [discriminate E|]. injection E as <-.
    apply (node_started_step _ _ i _ p Et Hd Hr); [by rewrite Ep|done].
  - apply bind_Ok in E as (p & Hd & E). apply bind_Ok in E as (u & [Hr <-]%require_node_Ok & E).
    node_evidence Et Hd. rewrite Eh in E. cbn in E. injection E as <-. by apply (step_node_succeeded _ _ _ (event_node_id p)).
  - apply bind_Ok in E as (p & Hd & E). apply bind_Ok in E as (u & [Hr <-]%require_node_Ok & E).
    node_evidence Et Hd. injection E as <-. by apply (step_node_failed _ _ i (event_node_id p) (attempt p) h).
  - injection E as <-. apply step_run_cancelled; [by rewrite Ep|done].
  - apply bind_Ok in E as (p & Hd & E). apply bind_Ok in E as (u & Hr & E). apply require_node_identity_Ok in Hr.
    destruct (Z.leb_spec (attempt p) b); [discriminate E|]. injection E as <-.
    apply (node_started_step _ _ i _ p Et Hd Hr); [by rewrite Ep|done].
  - apply bind_Ok in E as (p & Hd & E). apply bind_Ok in E as (u & [Hr <-]%require_node_Ok & E).
    node_evidence Et Hd. case_bool_decide as Eo; [|discriminate E]. cbn [negb] in E. rewrite Hr in E. cbn in E.
    injection E as <-. rewrite Eh in Eo. injection Eo as ->. by apply (step_node_checkpointed _ _ i).
  - injection E as <-. by apply step_run_failed.
Qed.

Lemma transition_complete st e st' : graph_step st e st' -> transition order st e = Ok st'.
Proof.
  destruct 1 as [Ep Et|Ep Et|i n a Ep Ho [Et Hd]|i n a h Ep Ho [Et Hd]|i n a h Ep Ho [Et Hd]
    |i n a h Ep Ho [Et Hd]|Ep Et|Ep Et|Ep Et]; unfold transition; rewrite ?Ep, Et.
  - done.
  - done.
  - assert (Hid : require_node_identity (start_of n a) order i = Ok tt) by (by apply require_node_identity_Ok).
    destruct (phase st) as [| |j|j b|j b h0| |]; try done; cbn in Ep.
    + subst j. rewrite Hd. cbn [mbind Result_bind]. by rewrite Hid.
    + destruct Ep as [-> Hlt]. rewrite Hd. cbn [mbind Result_bind]. rewrite Hid. cbn.
      by destruct (Z.leb_spec a b); [lia|].
    + destruct Ep as [-> Hlt]. rewrite Hd. cbn [mbind Result_bind]. rewrite Hid. cbn.
      by destruct (Z.leb_spec a b); [lia|].
  - rewrite Hd. cbn [mbind Result_bind]. by rewrite (proj2 (require_node_Ok (evidence_of n a h) i a tt)).
  - rewrite Hd. cbn [mbind Result_bind]. rewrite (proj2 (require_node_Ok (evidence_of n a h) i a tt)) by done.
    cbn. rewrite bool_decide_eq_true_2 by done. cbn. by rewrite Ho.
  - rewrite Hd. cbn [mbind Result_bind]. by rewrite (proj2 (require_node_Ok (evidence_of n a h) i a tt)).
  - by rewrite Nat.eqb_refl.
  - done.
  - by destruct (phase st).
Qed.

Lemma graph_transition_Ok st e st' : transition order st e = Ok st' <-> graph_step st e st'.
Proof. split; [apply transition_sound|apply transition_complete]. Qed.

(** Runs of the relation: the journals it accepts. *)
Inductive graph_run : list RunJournal -> Progress -> Prop :=
| run_nil : graph_run [] initial_progress
| run_snoc pre st e st' : graph_run pre st -> graph_step st e st' -> graph_run (pre ++ [e]) st'.

Lemma graph_run_fold pre st : try_fold (transition order) initial_progress pre = Ok st <-> graph_run pre st.
Proof.
  revert st. induction pre as [|e pre IH] using rev_ind; intros st.
  - split; [intros [= <-]; constructor|]. intros Hr. inversion Hr as [|pre' ? e ? ? ? E]; [done|].
    by destruct pre'.
  - rewrite try_fold_app, bind_Ok. split.
    + intros (st0 & Hr%IH & E). cbn in E. apply bind_Ok in E as (? & Hs & [= ->]).
      apply graph_transition_Ok in Hs. by apply (run_snoc pre st0).
    + intros Hr. inversion Hr as [E|pre' st0 e' ? Hr' Hs E]; [by destruct pre|].
      apply app_inj_tail in E as [-> ->]. exists st0. split; [by apply IH|]. cbn.
      by rewrite (proj2 (graph_transition_Ok _ _ _) Hs).
Qed.

(** ** What a run has committed *)

(** A committed node: three consecutive events start an attempt, report its output and checkpoint
    the same output; [e] is the checkpoint. *)
Definition committed (pre : list RunJournal) (n : Ulid) (a : Z) (h : ContentHash) (e : RunJournal) : Prop :=
  exists l1 e1 e2 l2, pre = l1 ++ [e1; e2; e] ++ l2 /\ says e1 NodeStarted (start_of n a)
    /\ says e2 NodeSucceeded (evidence_of n a h) /\ says e NodeCheckpointed (evidence_of n a h).

Lemma committed_snoc pre n a h e x : committed pre n a h e -> committed (pre ++ [x]) n a h e.
Proof.
  intros (l1 & e1 & e2 & l2 & -> & Hs). exists l1, e1, e2, (l2 ++ [x]).
  by rewrite <- !(assoc_L (++)).
Qed.

Definition checkpoints (pre : list RunJournal) : nat :=
  List.length (filter (fun e => event_type (event_input e) = NodeCheckpointed) pre).

Lemma checkpoints_snoc pre e :
  checkpoints (pre ++ [e])
  = (checkpoints pre + if decide (event_type (event_input e) = NodeCheckpointed) then 1 else 0)%nat.
Proof.
  unfold checkpoints. rewrite filter_app, length_app, filter_cons.
  by destruct (decide (event_type (event_input e) = NodeCheckpointed)).
Qed.

(** How the phase reflects the last events; [k] is the number of completed nodes. *)
Definition phase_inv (pre : list RunJournal) (p : Phase) (k : nat) : Prop :=
  match p with
  | Initial | PhaseCreated => k = 0%nat
  | Ready index => index = k
  | Active index a => index = k /\ exists n l e1, order !! index = Some n /\ pre = l ++ [e1]
      /\ says e1 NodeStarted (start_of n a)
  | AwaitingCheckpoint index a h => index = k /\ exists n l e1 e2, order !! index = Some n
      /\ pre = l ++ [e1; e2] /\ says e1 NodeStarted (start_of n a)
      /\ says e2 NodeSucceeded (evidence_of n a h)
  | PhaseNodeFailed => exists n a h l e1 e2, order !! k = Some n /\ pre = l ++ [e1; e2]
      /\ says e1 NodeStarted (start_of n a) /\ says e2 NodeFailed (evidence_of n a h)
  | Terminal Succeeded => k = List.length order
  | Terminal Failed => exists n, order !! k = Some n
  | Terminal Cancelled => True
  | Terminal _ => False
  end.

Definition checkpoint_inv (pre : list RunJournal) (nodes : list Ulid) (o : option GraphCheckpoint) : Prop :=
  match o with
  | None => nodes = []
  | Some c => list.last nodes = Some (checkpoint_node_id c) /\ exists e,
      committed pre (checkpoint_node_id c) (checkpoint_attempt c) (output_hash c) e
      /\ journal_sequence c = sequence (event_input e) /\ journal_hash c = event_hash e
  end.

Record run_inv (pre : list RunJournal) (st : Progress) : Prop := {
  inv_prefix : completed_nodes st = take (List.length (completed_nodes st)) order;
  inv_phase : phase_inv pre (phase st) (List.length (completed_nodes st));
  inv_committed : forall n, n ∈ completed_nodes st -> exists a h e, committed pre n a h e;
  inv_count : List.length (completed_nodes st) = checkpoints pre;
  inv_checkpoint : checkpoint_inv pre (completed_nodes st) (last_checkpoint st)
}.

(** A step that only changes the phase keeps everything but the phase. *)
Lemma run_inv_to_phase pre st e p :
  run_inv pre st -> event_type (event_input e) <> NodeCheckpointed ->
  phase_inv (pre ++ [e]) p (List.length (completed_nodes st)) -> run_inv (pre ++ [e]) (to_phase st p).
Proof.
  intros [Hp _ Hc Hn Hk] Hne Hph. split; cbn [to_phase completed_nodes phase last_checkpoint].
  - done.
  - done.
  - intros n Hin. destruct (Hc n Hin) as (a & h & x & Hx). exists a, h, x. by apply committed_snoc.
  - rewrite checkpoints_snoc, decide_False by done. lia.
  - destruct (last_checkpoint st) as [c|]; [|done]. destruct Hk as (Hl & x & Hx & Hs). split; [done|].
    exists x. split; [by apply committed_snoc|done].
Qed.

Lemma run_inv_checkpoint pre st e n a h :
  run_inv pre st -> phase st = AwaitingCheckpoint (List.length (completed_nodes st)) a h ->
  order !! List.length (completed_nodes st) = Some n -> says e NodeCheckpointed (evidence_of n a h) ->
  run_inv (pre ++ [e]) {| phase := Ready (List.length (completed_nodes st) + 1);
    completed_nodes := completed_nodes st ++ [n];
    last_checkpoint := Some {| checkpoint_node_id := n; checkpoint_attempt := a; output_hash := h;
      journal_sequence := sequence (event_input e); journal_hash := event_hash e |} |}.
Proof.
  intros [Hp Hph Hc Hn Hk] Ep Ho Hs. rewrite Ep in Hph. destruct Hph as (_ & m & l & e1 & e2 & Hm & -> & H1 & H2).
  rewrite Ho in Hm. injection Hm as <-.
  assert (Hcom : committed ((l ++ [e1; e2]) ++ [e]) n a h e).
  { exists l, e1, e2, []. rewrite app_nil_r, <- (assoc_L (++)). done. }
  split; cbn [completed_nodes phase last_checkpoint].
  - rewrite length_app. cbn [List.length]. rewrite Nat.add_1_r, (take_S_r _ _ n) by done. by rewrite <- Hp.
  - rewrite length_app. done.
  - intros m [Hin|Hin]%elem_of_app.
    + destruct (Hc m Hin) as (b & k & x & Hx). exists b, k, x. by apply committed_snoc.
    + apply list_elem_of_singleton in Hin as ->. by exists a, h, e.
  - rewrite checkpoints_snoc, decide_True by apply Hs. rewrite length_app. cbn. lia.
  - cbn. split; [by rewrite last_snoc|]. by exists e.
Qed.

Lemma graph_run_inv pre st : graph_run pre st -> run_inv pre st.
Proof.
  induction 1 as [|pre st e st' Hr IH Hs]; [by split; try (intros n Hn; by apply not_elem_of_nil in Hn)|].
  pose proof IH as [_ Hph _ _ _].
  destruct Hs as [Ep Et|Ep Et|i n a Ep Ho Hd|i n a h Ep Ho Hd|i n a h Ep Ho Hd|i n a h Ep Ho Hd|Ep Et|Ep Et|Ep Et].
  all: try (rewrite Ep in Hph; cbn in Hph).
  - by apply run_inv_to_phase; [|by rewrite Et|].
  - by apply run_inv_to_phase; [|by rewrite Et|].
  - apply run_inv_to_phase; [done|by rewrite (proj1 Hd)|].
    assert (i = List.length (completed_nodes st)) as ->.
    { destruct (phase st); try done; cbn in *; [congruence| |]; destruct Ep, Hph; congruence. }
    split; [done|]. by exists n, pre, e.
  - destruct Hph as (-> & m & l & e1 & Hm & -> & H1). rewrite Ho in Hm. injection Hm as <-.
    apply run_inv_to_phase; [done|by rewrite (proj1 Hd)|]. split; [done|]. exists n, l, e1, e.
    by rewrite <- (assoc_L (++)).
  - destruct Hph as (-> & _). by apply run_inv_checkpoint.
  - destruct Hph as (-> & m & l & e1 & Hm & -> & H1). rewrite Ho in Hm. injection Hm as <-.
    apply run_inv_to_phase; [done|by rewrite (proj1 Hd)|]. exists n, a, h, l, e1, e.
    by rewrite <- (assoc_L (++)).
  - apply run_inv_to_phase; [done|by rewrite Et|done].
  - destruct Hph as (n & a & h & l & e1 & e2 & Ho & _). apply run_inv_to_phase; [done|by rewrite Et|by exists n].
  - apply run_inv_to_phase; [done|by rewrite Et|done].
Qed.

(** ** The attempts of a node *)

(** The attempts of a node that a journal starts, and the highest of them; 0 when there is none. *)
Definition started_attempt (n : Ulid) (e : RunJournal) : option Z :=
  if is_started (event_type (event_input e)) then
    match decode e with Ok p => if bool_decide (event_node_id p = n) then Some (attempt p) else None | Err _ => None end
  else None.
Definition starts (n : Ulid) (pre : list RunJournal) : list Z := omap (started_attempt n) pre.
Definition last_attempt (n : Ulid) (pre : list RunJournal) : Z := foldl Z.max 0 (starts n pre).

Lemma starts_snoc n pre e : starts n (pre ++ [e]) = starts n pre ++ option_list (started_attempt n e).
Proof. unfold starts. rewrite omap_app. cbn. by destruct (started_attempt n e). Qed.

Lemma started_attempt_other n e : event_type (event_input e) <> NodeStarted -> started_attempt n e = None.
Proof. unfold started_attempt. by destruct (event_type _). Qed.

Lemma started_attempt_says m e n a :
  says e NodeStarted (start_of n a) -> started_attempt m e = if bool_decide (n = m) then Some a else None.
Proof. intros [Et Hd]. unfold started_attempt. by rewrite Et, Hd. Qed.

Lemma says_attempt e n a : says e NodeStarted (start_of n a) -> 0 < a < 2 ^ 32.
Proof. intros [_ (_ & _ & _ & (_ & Ha & Hn & _) & _)%decode_Ok]. cbn in Ha, Hn. ranges. lia. Qed.

(** The first index whose node, like those after it, has not been started. *)
Definition untouched (p : Phase) : nat :=
  match p with
  | Initial | PhaseCreated => 0
  | Ready index => index
  | Active index _ | AwaitingCheckpoint index _ _ => S index
  | PhaseNodeFailed | Terminal _ => List.length order
  end.

Record attempts_inv (pre : list RunJournal) (st : Progress) : Prop := {
  inv_untouched : forall j m, (untouched (phase st) <= j)%nat -> order !! j = Some m -> starts m pre = [];
  inv_attempt : match phase st with
                | Active index a | AwaitingCheckpoint index a _ =>
                    forall n, order !! index = Some n -> last_attempt n pre = a
                | _ => True
                end
}.

(** An event that starts no node. *)
Lemma attempts_inv_other pre st st' e :
  attempts_inv pre st -> event_type (event_input e) <> NodeStarted ->
  (forall j m, (untouched (phase st') <= j)%nat -> order !! j = Some m -> (untouched (phase st) <= j)%nat) ->
  match phase st' with
  | Active index a | AwaitingCheckpoint index a _ => phase st = Active index a
  | _ => True
  end -> attempts_inv (pre ++ [e]) st'.
Proof.
  intros [Hu Ha] Et Hle Hph.
  assert (Hs : forall m, starts m (pre ++ [e]) = starts m pre).
  { intros m. by rewrite starts_snoc, started_attempt_other, app_nil_r. }
  split.
  - intros j m Hj Hm. rewrite Hs. by eapply Hu; [eapply Hle|].
  - unfold last_attempt. destruct (phase st'); try done; rewrite Hph in Ha; intros n Hn; rewrite Hs; by apply Ha.
Qed.

Lemma attempts_run pre st : NoDup order -> graph_run pre st -> attempts_inv pre st.
Proof.
  intros Hnd. induction 1 as [|pre st e st' Hr IH Hs]; [by split|].
  destruct Hs as [Ep Et|Ep Et|i n a Ep Ho Hd|i n a h Ep Ho Hd|i n a h Ep Ho Hd|i n a h Ep Ho Hd|Ep Et|Ep Et|Ep Et].
  3: {
    assert (Hi : (untouched (phase st) <= S i)%nat /\ last_attempt n pre < a).
    { pose proof (says_attempt _ _ _ Hd) as Hpos. destruct IH as [Hu Ha]. unfold last_attempt in *.
      destruct (phase st) as [| |j|j b|j b h| |]; try done; cbn in Ep, Hu |- *.
      - subst j. rewrite (Hu i n) by (done || lia). cbn. lia.
      - destruct Ep as [-> Hlt]. rewrite (Ha n Ho). lia.
      - destruct Ep as [-> Hlt]. rewrite (Ha n Ho). lia. }
    destruct IH as [Hu Ha]. split; cbn [phase to_phase untouched].
    - intros j m Hj Hm. rewrite starts_snoc, (started_attempt_says _ _ _ _ Hd), bool_decide_eq_false_2, app_nil_r.
      + apply (Hu j m); [lia|done].
      + intros <-. pose proof (NoDup_lookup _ _ _ _ Hnd Ho Hm). lia.
    - intros m Hm. rewrite Ho in Hm. injection Hm as <-. unfold last_attempt in *.
      rewrite starts_snoc, (started_attempt_says _ _ _ _ Hd), bool_decide_eq_true_2, foldl_app by done. cbn. lia.
  }
  all: apply (attempts_inv_other pre st); [done|first [by rewrite Et|by rewrite (proj1 Hd)]| |done || by rewrite Ep].
  all: cbn [phase to_phase untouched]; intros j m Hj Hm; rewrite ?Ep; cbn; try lia.
  all: apply lookup_lt_Some in Hm; lia.
Qed.

(** Where a run may be resumed, the attempt decides whether the node may start. *)
Lemma attempts_start pre st so n e a :
  NoDup order -> graph_run pre st -> phase_result order (phase st) = Ok so -> so.2 = Some n ->
  says e NodeStarted (start_of n a) ->
  exists i, order !! i = Some n /\
    transition order st e = if a <=? last_attempt n pre then Err invalid_transition else Ok (to_phase st (Active i a)).
Proof.
  intros Hnd Hr E Hn Hs. pose proof (says_attempt _ _ _ Hs) as Hpos. destruct (attempts_run _ _ Hnd Hr) as [Hu Ha].
  assert (Hgo : forall i, order !! i = Some n -> require_node_identity (start_of n a) order i = Ok tt)
    by (intros i Hi; by apply require_node_identity_Ok).
  destruct Hs as [Et Hd]. unfold transition. rewrite Et.
  destruct (phase st) as [| |i|i b|i b h| |s] eqn:Ep; cbn in E; try discriminate E; injection E as <-; cbn in Hn; try discriminate Hn;
    exists i; (split; [done|]); rewrite Hd; cbn [mbind Result_bind]; rewrite Hgo by done; cbn.
  - unfold last_attempt. rewrite (Hu i n) by (done || cbn; lia). cbn. by destruct (Z.leb_spec a 0); [lia|].
  - by rewrite (Ha n Hn).
  - by rewrite (Ha n Hn).
Qed.

Lemma last_attempt_range pre n : 0 <= last_attempt n pre < 2 ^ 32.
Proof.
  unfold last_attempt. induction pre as [|e pre IH] using rev_ind; [done|]. rewrite starts_snoc, foldl_app.
  destruct (started_attempt n e) as [a|] eqn:Ea; cbn; [|done]. unfold started_attempt in Ea.
  destruct (is_started _); [|done]. destruct (decode e) as [p|] eqn:Ed; [|done]. case_bool_decide; [|done]. injection Ea as <-.
  apply decode_Ok in Ed as (_ & _ & _ & (_ & Ha & _) & _). ranges. lia.
Qed.
End steps.

(** The event that starts an attempt of a node after a journal. *)
Definition restart_event `{Sha256} (journal : list RunJournal) (run : Ulid) (n : Ulid) (a : Z) (id : Ulid) (at_time : MarketTime) : RunJournal :=
  let i := {| journal_event_id := id; run_id := run; sequence := Z.of_nat (List.length journal) + 1; event_type := NodeStarted;
              occurred_at := at_time; payload_type := PAYLOAD_TYPE; payload_schema := PAYLOAD_SCHEMA; payload := encode (start_of n a);
              prev_hash := event_hash <$> last_event journal |} in
  {| event_input := i; event_hash := digest (journal_canonical_bytes i) |}.

Lemma restart_event_says `{UlidCrate} `{Sha256} journal run n a id at_time :
  wf_ulid n -> 0 < a < 2 ^ 32 -> says (restart_event journal run n a id at_time) NodeStarted (start_of n a).
Proof.
  intros Hn Ha. split; [done|]. apply decode_Ok. do 3 (split; [done|]). split; [|done]. split; [done|]. split; [ranges; cbn; lia|].
  split; [cbn; lia|done].
Qed.

Lemma restart_event_chain `{Sha256} journal run n a id at_time p :
  valid_chain run journal -> Z.of_nat (List.length journal) + 1 < 2 ^ 64 -> last_event journal = Some p ->
  cmp (instant at_time) (instant (occurred_at (event_input p))) <> Lt ->
  valid_chain run (journal ++ [restart_event journal run n a id at_time]).
Proof.
  intros Hc Hlen Hp Ht. apply valid_chain_snoc. split; [done|]. unfold last_event in Hp. pose proof Hp as Hlast.
  rewrite last_lookup in Hp. pose proof (lookup_lt_Some _ _ _ Hp) as Hlt. destruct (chain_events _ _ Hc _ _ Hp) as (Hv & Hr & Hs).
  split.
  - split; [|done]. unfold journal_validate, restart_event, last_event. cbn. rewrite Hlast. cbn.
    destruct (Z.eqb_spec (Z.of_nat (List.length journal) + 1) 0); [lia|].
    destruct (Z.eqb_spec (Z.of_nat (List.length journal) + 1) 1); [lia|]. cbn. rewrite andb_false_r. done.
  - split; [done|]. split; [done|]. unfold last_event. intros q Hq. rewrite Hlast in Hq. injection Hq as <-.
    split; cbn; [done| | |by unfold last_event; rewrite Hlast|done].
    + rewrite Hs. lia.
    + ranges. lia.
Qed.

(** ** Replay *)

Section replay.
Context `{UlidCrate} `{Sha256}.

Lemma replay_graph_Ok g first rest r :
  Z.of_nat (List.length (first :: rest)) < 2 ^ 64 ->
  replay_graph_execution g (first :: rest) = Ok r <->
  let order := topological_order_field g in
  valid_chain (run_id (event_input first)) (first :: rest) /\
  exists st so, graph_run order (first :: rest) st /\ phase_result order (phase st) = Ok so /\
    r = {| result_run_id := run_id (event_input first); result_run_state := so.1;
           result_completed_nodes := completed_nodes st; resume_node := so.2;
           result_last_checkpoint := last_checkpoint st;
           result_event_count := List.length (first :: rest) |}.
Proof.
  intros Hlen. unfold replay_graph_execution. cbn [hd_error ok_or mbind Result_bind]. cbv zeta.
  set (order := topological_order_field g). rewrite bind_Ok.
  setoid_rewrite (journal_loop_Ok (transition order) _ [] _ (first :: rest) _ (valid_chain_nil _) Hlen).
  setoid_rewrite graph_run_fold. cbn [app]. split.
  - intros (st & [Hc Hr] & E). apply bind_Ok in E as (so & Hso & [= <-]). split; [done|]. by exists st, so.
  - intros (Hc & st & so & Hr & Hso & ->). exists st. split; [done|]. by rewrite Hso.
Qed.

Lemma graph_step_not_initial order st e st' : graph_step order st e st' -> phase st' <> Initial.
Proof. by destruct 1. Qed.

Lemma phase_result_total order p : p <> Initial -> exists so, phase_result order p = Ok so.
Proof. destruct p; cbn; eauto; done. Qed.

Lemma graph_run_result order pre e st :
  graph_run order (pre ++ [e]) st -> exists so, phase_result order (phase st) = Ok so.
Proof.
  intros Hr. inversion Hr as [E|pre' st0 e' ? _ Hs E]; [by destruct pre|].
  eapply phase_result_total, graph_step_not_initial; eauto.
Qed.

Lemma graph_step_extends order st e st' :
  graph_step order st e st' -> exists new, completed_nodes st' = completed_nodes st ++ new.
Proof. destruct 1; cbn; try (exists []; by rewrite app_nil_r). by eexists. Qed.

(** Every prefix of an accepted journal is accepted, with fewer nodes complete. *)
Lemma graph_run_prefix order l1 l2 st :
  graph_run order (l1 ++ l2) st ->
  exists st1, graph_run order l1 st1 /\ exists new, completed_nodes st = completed_nodes st1 ++ new.
Proof.
  revert st. induction l2 as [|e l2 IH] using rev_ind; intros st.
  - rewrite app_nil_r. intros Hr. exists st. split; [done|]. exists []. by rewrite app_nil_r.
  - rewrite (assoc_L (++)). intros Hr. inversion Hr as [E|pre st0 e' ? Hr' Hs E]; [by destruct (l1 ++ l2)|].
    apply app_inj_tail in E as [-> ->]. destruct (IH _ Hr') as (st1 & H1 & new1 & E1).
    apply graph_step_extends in Hs as [new2 E2]. exists st1. split; [done|].
    exists (new1 ++ new2). by rewrite E2, E1, (assoc_L (++)).
Qed.

(** The node a replay resumes at is the one after the completed nodes. *)
Lemma resume_spec order pre st so n :
  run_inv order pre st -> phase_result order (phase st) = Ok so -> so.2 = Some n ->
  so.1 = Running /\ order !! List.length (completed_nodes st) = Some n.
Proof.
  intros [_ Hph _ _ _] E. destruct (phase st) as [| |i|i b|i b h| |s]; cbn in *; try discriminate E;
    injection E as <-; cbn; intros Hn; try discriminate Hn.
  - by subst i.
  - by destruct Hph as [-> _].
  - by destruct Hph as [-> _].
Qed.

(** An accepted journal with one more event is one more transition. *)
Lemma replay_graph_snoc g first rest e st :
  let order := topological_order_field g in
  let run := run_id (event_input first) in
  graph_run order (first :: rest) st -> valid_chain run (first :: rest ++ [e]) ->
  Z.of_nat (List.length (first :: rest)) + 1 < 2 ^ 64 ->
  replay_graph_execution g (first :: rest ++ [e]) =
    (final ← transition order st e; so ← phase_result order (phase final);
     Ok {| result_run_id := run; result_run_state := so.1; result_completed_nodes := completed_nodes final; resume_node := so.2;
           result_last_checkpoint := last_checkpoint final; result_event_count := List.length (first :: rest ++ [e]) |}).
Proof.
  intros order run Hr Hc Hlen. unfold replay_graph_execution. cbn [hd_error ok_or mbind Result_bind]. fold order run.
  rewrite (journal_loop_chain (transition order) run [] initial_progress (first :: rest ++ [e])) by (done || cbn in *; rewrite length_app; cbn; lia).
  change (first :: rest ++ [e]) with ((first :: rest) ++ [e]). rewrite try_fold_app.
  rewrite (proj2 (graph_run_fold order (first :: rest) st) Hr). cbn [mbind Result_bind try_fold].
  by destruct (transition order st e).
Qed.

(** The order of an accepted graph names each node once. *)
Lemma graph_order_NoDup i xs bs g :
  Z.of_nat (List.length (in_edges i)) < 2 ^ 64 -> research_graph_new_with_external_inputs i xs bs = Ok g ->
  NoDup (topological_order_field g).
Proof.
  intros Hsz (V & _)%new_valid.
  destruct (order_spec _ _ (valid_ids _ _ _ _ V) (wired_between g i xs bs V)
    ltac:(by rewrite (valid_edges _ _ _ _ V)) _ (valid_order _ _ _ _ V)) as [Hperm _].
  rewrite Hperm. apply strict_sorted_NoDup, V.
Qed.

Lemma precedes_in_take o k a b :
  NoDup o -> precedes o a b -> b ∈ take (S k) o -> a ∈ take k o.
Proof.
  intros Hnd (i & j & Hi & Hj & Hlt) Hb. apply list_elem_of_lookup in Hb as [j' [Hj' Hk]%lookup_take_Some].
  pose proof (NoDup_lookup _ _ _ _ Hnd Hj Hj'). subst j'.
  apply list_elem_of_lookup. exists i. apply lookup_take_Some. split; [done|lia].
Qed.

End replay.

(** ** Examples *)

(** Adds an event to a chain, with its position, predecessor and hash. *)
Definition sample_add (l : list RunJournal) (t : JournalEventType) (ty schema : string) (bytes : list byte)
    : list RunJournal :=
  let i := {| journal_event_id := sample_id "E"; run_id := sample_id "R";
    sequence := Z.of_nat (List.length l) + 1; event_type := t; occurred_at := sample_time 1000;
    payload_type := ty; payload_schema := schema; payload := bytes;
    prev_hash := event_hash <$> last_event l |} in
  l ++ [{| event_input := i; event_hash := @digest sample_sha256 (journal_canonical_bytes i) |}].

Definition sample_run_event (l : list RunJournal) (t : JournalEventType) : list RunJournal :=
  sample_add l t "run" "run.v1" [x01].
Definition sample_node_event (l : list RunJournal) (t : JournalEventType) (p : GraphNodeEvent) : list RunJournal :=
  sample_add l t PAYLOAD_TYPE PAYLOAD_SCHEMA (encode p).

(** Node A fails over to a second attempt and is committed; node B is interrupted. *)
Definition sample_first_events : list RunJournal :=
  let l := sample_run_event [] RunCreated in
  let l := sample_run_event l RunStarted in
  let l := sample_node_event l NodeStarted (start_of (sample_id "A") 1) in
  let l := sample_node_event l NodeStarted (start_of (sample_id "A") 2) in
  sample_node_event l NodeSucceeded (evidence_of (sample_id "A") 2 (sample_hash x07)).

Definition sample_interrupted : list RunJournal :=
  let l := sample_node_event sample_first_events NodeCheckpointed
    (evidence_of (sample_id "A") 2 (sample_hash x07)) in
  sample_node_event l NodeStarted (start_of (sample_id "B") 1).

Definition sample_complete : list RunJournal :=
  let l := sample_node_event sample_interrupted NodeSucceeded
    (evidence_of (sample_id "B") 1 (sample_hash x08)) in
  let l := sample_node_event l NodeCheckpointed (evidence_of (sample_id "B") 1 (sample_hash x08)) in
  sample_run_event l RunSucceeded.

Definition sample_exec_graph : ResearchGraph :=
  match sample_graph with Ok g => g | Err _ => {| graph_id := sample_id "G"; graph_version := mk_version 1;
    graph_owner := sample_owner; nodes := []; edges := []; external_inputs := [];
    external_input_bindings := []; topological_order_field := []; graph_digest := sample_hash x00 |} end.

Definition sample_replay (l : list RunJournal) : RuntimeResult GraphReplayResult :=
  @replay_graph_execution sample_ulid_crate sample_sha256 sample_exec_graph l.

Lemma sample_exec_graph_new : sample_graph = Ok sample_exec_graph.
Proof.
  unfold sample_exec_graph. destruct sample_graph as [g|e] eqn:E; [done|]. vm_compute in E. discriminate E.
Qed.

(** A sample journal, in the shape of the theorems, with its replay. *)
Lemma sample_replayed l :
  is_ok (sample_replay l) = true -> Z.of_nat (List.length l) < 100 ->
  exists first rest r, l = first :: rest /\ sample_replay (first :: rest) = Ok r
    /\ Z.of_nat (List.length (first :: rest)) < 100.
Proof.
  intros Hok Hlen. destruct l as [|first rest]; [done|].
  destruct (sample_replay (first :: rest)) as [r|e] eqn:E; [|done]. by exists first, rest, r.
Qed.

Example sample_replays :
  ((fun r => (result_run_state r, result_completed_nodes r, resume_node r)) <$> sample_replay sample_first_events,
   (fun r => (result_run_state r, result_completed_nodes r, resume_node r)) <$> sample_replay sample_interrupted,
   (fun r => (result_run_state r, result_completed_nodes r, resume_node r)) <$> sample_replay sample_complete)
  = (Ok (Running, [], Some (sample_id "A")),
     Ok (Running, [sample_id "A"], Some (sample_id "B")),
     Ok (Succeeded, [sample_id "A"; sample_id "B"], None)).
Proof. vm_compute. reflexivity. Qed.

(** ** Properties *)

(** Node payloads decode exactly from their encodings: decoding an event gives a node event
    when the payload is its encoding under the expected type and schema, its node is a ULID, its
    attempt is a positive 32-bit number, and it carries evidence exactly when the event is not a
    start. *)
Theorem node_event_roundtrip `{UlidCrate} event p :
  decode event = Ok p <->
  payload_type (event_input event) = PAYLOAD_TYPE /\ payload_schema (event_input event) = PAYLOAD_SCHEMA
  /\ payload (event_input event) = encode p /\ wf_node_event p
  /\ carries (event_type (event_input event)) p.
Proof. apply decode_Ok. Qed.

(** C2. Replay of a graph run reports exactly what the journal commits: the chain is valid; the
    completed nodes are the first nodes of the frozen order, one for each checkpoint event, and each
    of them has an attempt that started, succeeded and was checkpointed with the same output in three
    consecutive events; the last checkpoint is the one of the last completed node, at its journal
    position; a succeeded run has completed every node; and a node to resume at is the first that is
    not complete, of a running run. *)
Theorem replay_graph_correct `{UlidCrate} `{Sha256} g first rest r :
  Z.of_nat (List.length (first :: rest)) < 2 ^ 64 ->
  replay_graph_execution g (first :: rest) = Ok r ->
  let order := topological_order_field g in
  let nodes := result_completed_nodes r in
  valid_chain (run_id (event_input first)) (first :: rest)
  /\ nodes = take (List.length nodes) order /\ List.length nodes = checkpoints (first :: rest)
  /\ (forall n, n ∈ nodes -> exists a h e, committed (first :: rest) n a h e)
  /\ checkpoint_inv (first :: rest) nodes (result_last_checkpoint r)
  /\ (result_run_state r = Succeeded -> nodes = order)
  /\ (forall n, resume_node r = Some n ->
        result_run_state r = Running /\ order !! List.length nodes = Some n).
Proof.
  intros Hlen E. apply replay_graph_Ok in E as (Hc & st & so & Hr & Hso & ->); [|done]. cbv zeta.
  cbn [result_completed_nodes result_run_state resume_node result_last_checkpoint].
  pose proof (graph_run_inv _ _ _ Hr) as Hi. pose proof Hi as [Hp Hph Hcom Hcnt Hck].
  split; [done|]. split; [done|]. split; [done|]. split; [done|]. split; [done|]. split.
  - intros Hs. rewrite Hp. apply take_ge.
    destruct (phase st) as [| | | | | |[]]; cbn in Hso, Hph; try discriminate Hso; injection Hso as <-; try done; lia.
  - intros n Hn. by apply (resume_spec _ _ _ _ _ Hi Hso).
Qed.


Lemma replay_graph_correct_witness :
  exists r, sample_replay sample_interrupted = Ok r
    /\ List.length (result_completed_nodes r) = checkpoints sample_interrupted.
Proof.
  destruct (sample_replayed sample_interrupted) as (first & rest & r & -> & E & Hl);
    [vm_compute; reflexivity|vm_compute; reflexivity|].
  exists r. split; [exact E|].
  destruct (@replay_graph_correct sample_ulid_crate sample_sha256 sample_exec_graph first rest r
    ltac:(lia) E) as (_ & _ & H & _). exact H.
Defined.

(** Committed work survives: every non-empty prefix of a journal that replays also replays, and
    the nodes it reports complete are the first of those the whole journal reports. *)
Theorem replay_graph_prefix `{UlidCrate} `{Sha256} g first l1 l2 r :
  Z.of_nat (List.length (first :: l1 ++ l2)) < 2 ^ 64 ->
  replay_graph_execution g (first :: l1 ++ l2) = Ok r ->
  exists r1 new, replay_graph_execution g (first :: l1) = Ok r1
    /\ result_completed_nodes r = result_completed_nodes r1 ++ new.
Proof.
  intros Hlen E. apply replay_graph_Ok in E as (Hc & st & so & Hr & _ & ->); [|done].
  destruct (graph_run_prefix _ (first :: l1) l2 _ Hr) as (st1 & Hr1 & new & En).
  destruct (exists_last (l := first :: l1)) as (pre & e & Epre); [done|].
  pose proof Hr1 as Hr1'. rewrite Epre in Hr1'. apply graph_run_result in Hr1' as [so1 Hso1].
  eexists _, new. split; [apply replay_graph_Ok|].
  - cbn in Hlen |- *. rewrite length_app in Hlen. lia.
  - split; [|exists st1, so1; split; [done|]; split; [done|reflexivity]].
    pose proof (valid_chain_take _ _ (List.length (first :: l1)) Hc) as Ht.
    change (first :: l1 ++ l2) with ((first :: l1) ++ l2) in Ht. by rewrite take_app_length in Ht.
  - cbn. done.
Qed.


Lemma replay_graph_prefix_witness :
  exists r1, sample_replay (take 5 sample_complete) = Ok r1.
Proof.
  destruct (sample_replayed sample_complete) as (first & rest & r & -> & E & Hl);
    [vm_compute; reflexivity|vm_compute; reflexivity|].
  rewrite <- (take_drop 4 rest) in E, Hl.
  destruct (@replay_graph_prefix sample_ulid_crate sample_sha256 sample_exec_graph first (take 4 rest)
    (drop 4 rest) r ltac:(lia) E) as (r1 & _ & E1 & _).
  exists r1. exact E1.
Defined.

(** Nodes run in dependency order: in the replay of a run of an accepted graph, every source of
    an input of a completed node, and of the node to resume at, is itself complete. *)
Theorem replay_graph_dependencies `{UlidCrate} `{Sha256} i xs bs g first rest r e :
  Z.of_nat (List.length (in_edges i)) < 2 ^ 64 -> Z.of_nat (List.length (first :: rest)) < 2 ^ 64 ->
  research_graph_new_with_external_inputs i xs bs = Ok g ->
  replay_graph_execution g (first :: rest) = Ok r ->
  e ∈ edges g -> to_node e ∈ result_completed_nodes r \/ resume_node r = Some (to_node e) ->
  from_node e ∈ result_completed_nodes r.
Proof.
  intros Hsz Hlen (V & _)%new_valid E He Hto.
  destruct (order_spec _ _ (valid_ids _ _ _ _ V) (wired_between g i xs bs V)
    ltac:(by rewrite (valid_edges _ _ _ _ V)) _ (valid_order _ _ _ _ V)) as [Hperm Hprec].
  assert (Hnd : NoDup (topological_order_field g)).
  { rewrite Hperm. apply strict_sorted_NoDup, V. }
  apply replay_graph_Ok in E as (_ & st & so & Hr & Hso & ->); [|done].
  cbn [result_completed_nodes resume_node] in *. pose proof (graph_run_inv _ _ _ Hr) as Hi.
  rewrite (inv_prefix _ _ _ Hi). apply (precedes_in_take _ _ _ (to_node e) Hnd (Hprec e He)).
  destruct Hto as [Hin|Hres].
  - rewrite (inv_prefix _ _ _ Hi) in Hin. apply list_elem_of_lookup in Hin as [j [Hj Hlt]%lookup_take_Some].
    apply list_elem_of_lookup. exists j. apply lookup_take_Some. split; [done|lia].
  - destruct (resume_spec _ _ _ _ _ Hi Hso Hres) as (_ & Ho). apply list_elem_of_lookup.
    exists (List.length (completed_nodes st)). apply lookup_take_Some. split; [done|lia].
Qed.


Lemma replay_graph_dependencies_witness :
  exists r, sample_replay sample_interrupted = Ok r /\ resume_node r = Some (sample_id "B")
    /\ sample_id "A" ∈ result_completed_nodes r.
Proof.
  assert (Hb : resume_node <$> sample_replay sample_interrupted = Ok (Some (sample_id "B")))
    by (vm_compute; reflexivity).
  destruct (sample_replayed sample_interrupted) as (first & rest & r & Es & E & Hl);
    [vm_compute; reflexivity|vm_compute; reflexivity|].
  rewrite Es, E in Hb. rewrite Es. injection Hb as Hb. exists r. split; [exact E|]. split; [exact Hb|].
  apply (@replay_graph_dependencies sample_ulid_crate sample_sha256 sample_graph_input sample_externals
    sample_external_bindings sample_exec_graph first rest r (sample_edge "A" "B")).
  - vm_compute. reflexivity.
  - lia.
  - exact sample_exec_graph_new.
  - exact E.
  - vm_compute. left.
  - right. exact Hb.
Defined.

(** C24. An interrupted run can be resumed: when replay of the run of an accepted graph names a node to
    resume at, the start of the node at an attempt above every attempt of it that the journal starts
    extends the journal, and the extended journal replays, with the same nodes complete, the same last
    checkpoint, the run still running and the same node to resume at. A start at an attempt that is not
    above is refused as an invalid transition. So resumption is possible until the attempts of the node,
    which are 32-bit numbers, are used up. *)
Theorem replay_graph_resumes `{UlidCrate} `{Sha256} i xs bs g first rest r n id at_time p :
  Z.of_nat (List.length (in_edges i)) < 2 ^ 64 -> Z.of_nat (List.length (first :: rest)) + 1 < 2 ^ 64 ->
  research_graph_new_with_external_inputs i xs bs = Ok g ->
  replay_graph_execution g (first :: rest) = Ok r -> resume_node r = Some n -> wf_ulid n ->
  last_event (first :: rest) = Some p -> cmp (instant at_time) (instant (occurred_at (event_input p))) <> Lt ->
  let run := run_id (event_input first) in
  0 <= last_attempt n (first :: rest) < 2 ^ 32 /\
  forall a, 0 < a < 2 ^ 32 ->
    let e := restart_event (first :: rest) run n a id at_time in
    valid_chain run (first :: rest ++ [e]) /\
    (last_attempt n (first :: rest) < a ->
       exists r', replay_graph_execution g (first :: rest ++ [e]) = Ok r'
         /\ result_completed_nodes r' = result_completed_nodes r /\ result_last_checkpoint r' = result_last_checkpoint r
         /\ result_run_state r' = Running /\ resume_node r' = Some n) /\
    (a <= last_attempt n (first :: rest) -> replay_graph_execution g (first :: rest ++ [e]) = Err invalid_transition).
Proof.
  intros Hsz Hlen Hg E Hn Hw Hp Ht run. pose proof (graph_order_NoDup _ _ _ _ Hsz Hg) as Hnd.
  apply replay_graph_Ok in E as (Hc & st & so & Hr & Hso & ->); [|cbn in *; lia].
  cbn [result_completed_nodes resume_node result_last_checkpoint] in *. split; [apply last_attempt_range|].
  intros a Ha. set (e := restart_event (first :: rest) run n a id at_time). pose proof (restart_event_says (first :: rest) run n a id at_time Hw Ha) as Hs.
  assert (Hc' : valid_chain run (first :: rest ++ [e])) by (by apply (restart_event_chain (first :: rest) run n a id at_time p)).
  split; [done|]. destruct (attempts_start _ _ _ _ _ _ _ Hnd Hr Hso Hn Hs) as (k & Hk & Et). fold e in Et.
  rewrite (replay_graph_snoc g first rest e st) by (done || cbn in *; lia). rewrite Et. split; intros Hle.
  - destruct (Z.leb_spec a (last_attempt n (first :: rest))); [lia|]. eexists. split; [reflexivity|]. cbn. done.
  - by destruct (Z.leb_spec a (last_attempt n (first :: rest))); [|lia].
Qed.

Lemma replay_graph_resumes_witness :
  exists first rest r', sample_interrupted = first :: rest
    /\ sample_replay (first :: rest ++ [@restart_event sample_sha256 (first :: rest) (run_id (event_input first)) (sample_id "B") 2 (sample_id "E")
                                         (sample_time 2000)]) = Ok r'
    /\ resume_node r' = Some (sample_id "B").
Proof.
  assert (Hb : resume_node <$> sample_replay sample_interrupted = Ok (Some (sample_id "B")))
    by (vm_compute; reflexivity).
  assert (Ha : @last_attempt sample_ulid_crate (sample_id "B") sample_interrupted = 1) by (vm_compute; reflexivity).
  assert (Hp : exists p, last_event sample_interrupted = Some p /\ bool_decide (cmp (instant (sample_time 2000)) (instant (occurred_at (event_input p))) = Lt) = false).
  { destruct (last_event sample_interrupted) as [p|] eqn:El; [|vm_compute in El; discriminate El].
    exists p. split; [reflexivity|]. apply (f_equal (option_map (fun p => occurred_at (event_input p)))) in El. cbn [option_map] in El.
    assert (Ho : occurred_at (event_input p) = sample_time 1000) by (vm_compute in El; vm_compute; congruence). rewrite Ho. vm_compute. reflexivity. }
  destruct Hp as (p & Hp & Ht). apply bool_decide_eq_false in Ht.
  destruct (sample_replayed sample_interrupted) as (first & rest & r & Es & E & Hl);
    [vm_compute; reflexivity|vm_compute; reflexivity|].
  rewrite Es in Hb, Ha, Hp. rewrite E in Hb. injection Hb as Hb.
  destruct (@replay_graph_resumes sample_ulid_crate sample_sha256 sample_graph_input sample_externals sample_external_bindings sample_exec_graph
    first rest r (sample_id "B") (sample_id "E") (sample_time 2000) p ltac:(vm_compute; reflexivity) ltac:(lia) sample_exec_graph_new E Hb
    ltac:(vm_compute; reflexivity) Hp Ht) as (_ & H).
  destruct (H 2 ltac:(lia)) as (_ & H2 & _). destruct H2 as (r' & E' & _ & _ & _ & Hr'); [lia|].
  exists first, rest, r'. split; [exact Es|]. split; [exact E'|exact Hr'].
Defined.
