(* ===== verification/Digits.v ===== *)
(** * Decimal text of integers

    The digits of integers as bytes: printing as [to_string], parsing as [str::parse::<i128>], and
    the lemmas that make one the inverse of the other. *)

From Stdlib Require Import ZArith Lia Strings.String.
From Stdlib Require Import Strings.Byte.
From stdpp Require Import base list option strings numbers.
From S2P Require Import Prelude Machine.
Open Scope Z_scope.

Definition ZERO : byte := x30.
Definition MINUS : byte := x2d.
Definition PLUS : byte := x2b.

Definition digit_val (b : byte) : Z := Z_of_byte b - 48.
Definition digit_byte (d : Z) : byte := byte_of_Z (48 + d).

Definition digits_val (l : list byte) : Z := foldl (fun acc b => acc * 10 + digit_val b) 0 l.

Definition all_digits (l : list byte) : bool := forallb is_ascii_digit l.

(** [str::parse::<i128>]: an optional sign and at least one digit, in range. *)
Definition parse_i128 (s : string) : option Z :=
  let bytes := as_bytes s in
  let '(negative, digits) :=
    match bytes with
    | b :: rest => if Byte.eqb b MINUS then (true, rest)
                   else if Byte.eqb b PLUS then (false, rest) else (false, bytes)
    | [] => (false, bytes)
    end in
  if bool_decide (digits = []) || negb (all_digits digits) then None
  else checked in_i128 (if negative then - digits_val digits else digits_val digits).

(** The digits of a natural number, most significant first; a number has fewer digits than bits, so
    that one more than its binary logarithm is enough fuel. *)
Fixpoint print_digits (fuel : nat) (z : Z) : list byte :=
  match fuel with
  | O => []
  | S fuel' => if z <? 10 then [digit_byte z] else print_digits fuel' (z / 10) ++ [digit_byte (z mod 10)]
  end.

Definition print_nat (z : Z) : list byte := print_digits (S (Z.to_nat (Z.log2 z))) z.

(** [i128::to_string], [u64::to_string] and so on. *)
Definition to_string (z : Z) : string :=
  string_of_list_byte (if z <? 0 then MINUS :: print_nat (- z) else print_nat z).

Example to_string_examples :
  (to_string 0, to_string 1204, to_string (-73), parse_i128 "+007", parse_i128 "-", parse_i128 "1.5")%string
  = ("0", "1204", "-73", Some 7, None, None)%string.
Proof. reflexivity. Qed.

(** ** Values of digit lists *)

Lemma digit_val_range b : is_ascii_digit b = true -> 0 <= digit_val b < 10.
Proof. unfold is_ascii_digit. rewrite in_range_spec. unfold digit_val. lia. Qed.

Lemma digit_byte_val d : 0 <= d < 10 -> digit_val (digit_byte d) = d.
Proof. intros Hd. unfold digit_val, digit_byte. rewrite Z_of_byte_of_Z, Z.mod_small; lia. Qed.

Lemma digit_byte_digit d : 0 <= d < 10 -> is_ascii_digit (digit_byte d) = true.
Proof.
  intros Hd. unfold is_ascii_digit. rewrite in_range_spec. unfold digit_byte.
  rewrite Z_of_byte_of_Z, Z.mod_small; lia.
Qed.

Lemma digit_val_inj a b : digit_val a = digit_val b -> a = b.
Proof.
  unfold digit_val. intros E. rewrite <- (byte_of_Z_of_byte a), <- (byte_of_Z_of_byte b). f_equal. lia.
Qed.

Lemma digits_val_snoc l b : digits_val (l ++ [b]) = digits_val l * 10 + digit_val b.
Proof. unfold digits_val. by rewrite foldl_app. Qed.

Lemma digits_val_zero l : digits_val (ZERO :: l) = digits_val l.
Proof. done. Qed.

Lemma all_digits_app l m : all_digits (l ++ m) = true <-> all_digits l = true /\ all_digits m = true.
Proof. unfold all_digits. by rewrite forallb_app, andb_true_iff. Qed.

Lemma all_digits_snoc l b : all_digits (l ++ [b]) = true <-> all_digits l = true /\ is_ascii_digit b = true.
Proof. rewrite all_digits_app. cbn. by rewrite andb_true_r. Qed.

Lemma digits_val_range l : all_digits l = true -> 0 <= digits_val l < 10 ^ Z.of_nat (List.length l).
Proof.
  induction l as [|b l IH] using rev_ind; [done|]. rewrite all_digits_snoc, digits_val_snoc, length_app.
  intros [Hl%IH Hb%digit_val_range]. cbn [List.length]. rewrite Nat2Z.inj_add, Z.pow_add_r by lia. lia.
Qed.

(** The first digit is not a zero. *)
Definition leading (l : list byte) : Prop := match l with [] => True | b :: _ => b <> ZERO end.

Lemma leading_app l m : l <> [] -> leading (l ++ m) <-> leading l.
Proof. by destruct l. Qed.

Lemma leading_zero l : all_digits l = true -> leading l -> digits_val l = 0 -> l = [].
Proof.
  induction l as [|b l IH] using rev_ind; [done|]. rewrite all_digits_snoc, digits_val_snoc.
  intros [Hl Hb%digit_val_range] Hlead E. pose proof (digits_val_range l Hl) as Hr.
  destruct l as [|c l].
  - cbn in Hlead, E. destruct Hlead. apply digit_val_inj. change (digit_val ZERO) with 0. lia.
  - rewrite leading_app in Hlead by done. discriminate IH; [done..|]. lia.
Qed.

(** Digits without a leading zero are determined by their value. *)
Lemma digits_val_inj l m :
  all_digits l = true -> all_digits m = true -> leading l -> leading m ->
  digits_val l = digits_val m -> l = m.
Proof.
  revert m. induction l as [|b l IH] using rev_ind; intros m Dl Dm Ll Lm E.
  { symmetry. by apply leading_zero. }
  destruct m as [|c m _] using rev_ind; [by apply leading_zero in E|].
  rewrite all_digits_snoc in Dl, Dm. destruct Dl as [Dl Db], Dm as [Dm Dc].
  rewrite !digits_val_snoc in E. pose proof (digit_val_range b Db). pose proof (digit_val_range c Dc).
  assert (Ev : digits_val l = digits_val m) by lia. assert (Ed : b = c) by (apply digit_val_inj; lia).
  subst c. f_equal. destruct l as [|x l], m as [|y m]; [done| | |].
  - symmetry. apply leading_zero; [done|done|by rewrite <- Ev].
  - by apply leading_zero.
  - by apply IH.
Qed.

(** ** Printing *)

Lemma print_digits_spec fuel z :
  0 <= z < 2 ^ Z.of_nat fuel -> (0 < fuel)%nat ->
  all_digits (print_digits fuel z) = true /\ digits_val (print_digits fuel z) = z
  /\ print_digits fuel z <> [] /\ (0 < z -> leading (print_digits fuel z)).
Proof.
  revert z. induction fuel as [|fuel IH]; intros z Hz Hf; [lia|]. cbn [print_digits].
  destruct (Z.ltb_spec z 10) as [Hlt|Hge].
  - split; [cbn; by rewrite digit_byte_digit by lia|]. split; [cbn; by rewrite digit_byte_val by lia|].
    split; [done|]. intros Hp E. apply (f_equal digit_val) in E. rewrite digit_byte_val in E by lia.
    change (digit_val ZERO) with 0 in E. lia.
  - pose proof (Z.div_mod z 10 ltac:(lia)) as Hd. pose proof (Z.mod_pos_bound z 10 ltac:(lia)) as Hm.
    assert (Hq : 0 < z / 10) by (apply Z.div_str_pos; lia).
    rewrite Nat2Z.inj_succ, Z.pow_succ_r in Hz by lia.
    destruct fuel as [|fuel]; [cbn in Hz; lia|].
    destruct (IH (z / 10)) as (H1 & H2 & H3 & H4); [|lia|].
    { split; [lia|]. apply Z.div_lt_upper_bound; lia. }
    rewrite all_digits_snoc, digits_val_snoc, H2, digit_byte_val by lia.
    split; [split; [done|by apply digit_byte_digit]|]. split; [lia|].
    split; [by intros [? ?]%app_nil|]. intros _. apply leading_app; auto.
Qed.

Lemma print_nat_spec z :
  0 <= z -> all_digits (print_nat z) = true /\ digits_val (print_nat z) = z
  /\ print_nat z <> [] /\ (0 < z -> leading (print_nat z)).
Proof.
  intros Hz. apply print_digits_spec; [|lia]. split; [done|].
  destruct (Z.eq_dec z 0) as [->|]; [done|].
  rewrite Nat2Z.inj_succ, Z2Nat.id by apply Z.log2_nonneg. apply Z.log2_spec. lia.
Qed.

Lemma digit_not_sign b : is_ascii_digit b = true -> Byte.eqb b MINUS = false /\ Byte.eqb b PLUS = false.
Proof. destruct b; cbn; intros; done. Qed.

Lemma as_bytes_of_bytes l : as_bytes (string_of_list_byte l) = l.
Proof. apply list_byte_of_string_of_list_byte. Qed.

Lemma of_as_bytes s : string_of_list_byte (as_bytes s) = s.
Proof. apply string_of_list_byte_of_string. Qed.

(** Text of a sign and digits, the form in which the code writes integers. *)
Definition signed_text (negative : bool) (digits : list byte) : string :=
  string_of_list_byte (if negative then MINUS :: digits else digits).

Lemma parse_signed_text negative l :
  all_digits l = true -> l <> [] ->
  parse_i128 (signed_text negative l) = checked in_i128 (if negative then - digits_val l else digits_val l).
Proof.
  intros Hd Hne. unfold parse_i128, signed_text. rewrite as_bytes_of_bytes.
  destruct negative.
  - change (Byte.eqb MINUS MINUS) with true. cbn iota.
    rewrite bool_decide_eq_false_2 by done. by rewrite Hd.
  - destruct l as [|b l]; [done|]. pose proof Hd as Hd'. cbn in Hd'. apply andb_true_iff in Hd' as [Hb _].
    destruct (digit_not_sign b Hb) as [-> ->]. rewrite bool_decide_eq_false_2 by done. by rewrite Hd.
Qed.

Lemma to_string_text z :
  exists l, to_string z = signed_text (z <? 0) l /\ all_digits l = true /\ l <> []
    /\ digits_val l = Z.abs z /\ (z <> 0 -> leading l).
Proof.
  exists (print_nat (Z.abs z)). destruct (print_nat_spec (Z.abs z)) as (H1 & H2 & H3 & H4); [lia|].
  split; [|split; [done|split; [done|split; [done|intros; apply H4; lia]]]].
  unfold to_string, signed_text. destruct (Z.ltb_spec z 0); do 2 f_equal; [by rewrite Z.abs_neq by lia|by rewrite Z.abs_eq by lia].
Qed.

Lemma parse_to_string z : in_i128 z = true -> parse_i128 (to_string z) = Some z.
Proof.
  intros Hz. destruct (to_string_text z) as (l & -> & Hd & Hne & Hv & _).
  rewrite parse_signed_text by done. rewrite Hv.
  replace (if z <? 0 then - Z.abs z else Z.abs z) with z by (destruct (Z.ltb_spec z 0); lia).
  unfold checked. by rewrite Hz.
Qed.

Lemma to_string_inj y z : in_i128 y = true -> in_i128 z = true -> to_string y = to_string z -> y = z.
Proof.
  intros Hy%parse_to_string Hz%parse_to_string E. rewrite E, Hz in Hy. by injection Hy.
Qed.

(** The text that printing gives has the fewest digits. *)
Lemma to_string_digits z n :
  0 <= n -> z <> 0 -> Z.abs z < 10 ^ n -> exists l, to_string z = signed_text (z <? 0) l
    /\ all_digits l = true /\ leading l /\ l <> [] /\ digits_val l = Z.abs z /\ Z.of_nat (List.length l) <= n.
Proof.
  intros Hn0 Hz Hn. destruct (to_string_text z) as (l & E & Hd & Hne & Hv & Hl). exists l.
  split; [done|]. split; [done|]. split; [by apply Hl|]. split; [done|]. split; [done|].
  destruct (Z_le_gt_dec (Z.of_nat (List.length l)) n) as [|Hgt]; [done|]. exfalso.
  destruct l as [|b l]; [done|]. specialize (Hl Hz). cbn in Hl.
  assert (Hb : 10 ^ Z.of_nat (List.length l) <= digits_val (b :: l)).
  { assert (Hc : forall m acc, foldl (fun a c => a * 10 + digit_val c) acc m
      = acc * 10 ^ Z.of_nat (List.length m) + digits_val m).
    { clear. intros m. induction m as [|c m IH] using rev_ind; intros acc; [cbn; unfold digits_val; cbn; lia|].
      rewrite foldl_app, digits_val_snoc. cbn [foldl]. rewrite IH, length_app. cbn [List.length].
      rewrite Nat2Z.inj_add, Z.pow_add_r by lia. lia. }
    unfold digits_val. cbn [foldl]. rewrite Hc. cbn in Hd. apply andb_true_iff in Hd as [Hb Hd].
    pose proof (digits_val_range l Hd). pose proof (digit_val_range b Hb) as Hr.
    assert (digit_val b <> 0) by (intros E0; apply Hl, digit_val_inj; done).
    assert (0 < 10 ^ Z.of_nat (List.length l)) by (apply Z.pow_pos_nonneg; lia). nia. }
  rewrite Hv in Hb. cbn [List.length] in Hgt.
  pose proof (Z.pow_le_mono_r 10 n (Z.of_nat (List.length l)) ltac:(lia) ltac:(lia)). lia.
Qed.
