(* ===== verification/DecimalValue.v ===== *)
(** * Decimal values with a unit

    [crates/ficant-domain/src/primitives/decimal.rs]: [DecimalValue], a decimal of at most 28 digits
    and 28 decimal places kept as text in a normal form, with its addition and comparison, which go
    through the [rust_decimal] crate. *)

From Stdlib Require Import ZArith Lia Strings.String.
From Stdlib Require Import Strings.Byte.
From stdpp Require Import base list option strings numbers.
From S2P Require Import Prelude Machine Collections Primitives Codec Concrete Digits.
Open Scope Z_scope.

(** ** The [rust_decimal] crate *)

Class RustDecimal : Type := {
  Decimal : Type;
  from_i128_with_scale : Z -> Z -> Decimal;
  decimal_checked_add : Decimal -> Decimal -> option Decimal;
  mantissa : Decimal -> Z;
  decimal_scale : Decimal -> Z;
  decimal_cmp : Decimal -> Decimal -> comparison
}.

(** A coefficient at a scale, in units of the 28th decimal place. *)
Definition in_units (m s : Z) : Z := m * 10 ^ (28 - s).

(** The documented range of a decimal: a 96-bit coefficient and at most 28 decimal places. *)
Definition decimal_range (m s : Z) : Prop := Z.abs m < 2 ^ 96 /\ 0 <= s <= 28.

(** Decimals are made exactly; addition is exact, at no larger a scale, while both operands and the sum fit
    at the larger scale; comparison is by value. *)
Class RustDecimalLaws `{RustDecimal} : Prop := {
  decimal_made m s :
    decimal_range m s -> mantissa (from_i128_with_scale m s) = m /\ decimal_scale (from_i128_with_scale m s) = s;
  decimal_added m1 s1 m2 s2 (s := Z.max s1 s2) (x := m1 * 10 ^ (s - s1)) (y := m2 * 10 ^ (s - s2)) :
    decimal_range m1 s1 -> decimal_range m2 s2 ->
    Z.abs x < 2 ^ 96 -> Z.abs y < 2 ^ 96 -> Z.abs (x + y) < 2 ^ 96 ->
    exists c, decimal_checked_add (from_i128_with_scale m1 s1) (from_i128_with_scale m2 s2) = Some c
      /\ decimal_range (mantissa c) (decimal_scale c) /\ decimal_scale c <= s
      /\ in_units (mantissa c) (decimal_scale c) = in_units (x + y) s;
  decimal_compared m1 s1 m2 s2 :
    decimal_range m1 s1 -> decimal_range m2 s2 ->
    decimal_cmp (from_i128_with_scale m1 s1) (from_i128_with_scale m2 s2)
      = Z.compare (in_units m1 s1) (in_units m2 s2)
}.

(** ** Values *)

Record DecimalValue := { coefficient : string; scale : Z; value_unit : UnitRef }.

#[export] Instance DecimalValue_eq_dec : EqDecision DecimalValue.
Proof. solve_decision. Defined.

Definition MAX_PRECISION : Z := 28.
Definition MAX_SCALE : Z := 28.

(** [strip_prefix('-')], or else [strip_prefix('+')]. *)
Definition split_sign (bytes : list byte) : bool * list byte :=
  match bytes with
  | b :: rest => if Byte.eqb b MINUS then (true, rest)
                 else if Byte.eqb b PLUS then (false, rest) else (false, bytes)
  | [] => (false, bytes)
  end.

(** [trim_start_matches('0')]. *)
Fixpoint trim_zeros (l : list byte) : list byte :=
  match l with
  | b :: l' => if Byte.eqb b ZERO then trim_zeros l' else l
  | [] => []
  end.

(** [while normalized_scale > 0 && digits.ends_with('0')]. *)
Fixpoint pop_zeros (normalized_scale : nat) (digits : list byte) : list byte * nat :=
  match normalized_scale with
  | O => (digits, O)
  | S n => if bool_decide (list.last digits = Some ZERO) then pop_zeros n (removelast digits)
           else (digits, normalized_scale)
  end.

(** [if digits.is_empty() { digits.push('0') }]. *)
Definition or_zero (digits : list byte) : list byte :=
  match digits with [] => [ZERO] | _ => digits end.

Definition decimal_value_new (coefficient : string) (scale : Z) (unit : UnitRef) : DomainResult DecimalValue :=
  let '(negative, unsigned) := split_sign (as_bytes coefficient) in
  if bool_decide (unsigned = []) || negb (all_digits unsigned)
     || (MAX_PRECISION <? Z.of_nat (List.length unsigned)) || (MAX_SCALE <? scale)
  then Err InvalidValue else
  let '(digits, normalized_scale) := pop_zeros (Z.to_nat scale) (or_zero (trim_zeros unsigned)) in
  let digits := or_zero digits in
  let coefficient := signed_text (negative && negb (bool_decide (digits = [ZERO]))) digits in
  _ ← ok_or (parse_i128 coefficient) InvalidValue;
  Ok {| coefficient := coefficient; scale := Z.of_nat normalized_scale; value_unit := unit |}.

Definition decimal_is_positive (self : DecimalValue) : bool :=
  match parse_i128 (coefficient self) with Some z => 0 <? z | None => false end.

(** [as_decimal]: the coefficient of a validated value parses, or the call panics. *)
Definition as_decimal `{RustDecimal} (self : DecimalValue) : Decimal :=
  from_i128_with_scale (default 0 (parse_i128 (coefficient self))) (scale self).

Definition decimal_value_checked_add `{RustDecimal} (self other : DecimalValue) : DomainResult DecimalValue :=
  if negb (bool_decide (value_unit self = value_unit other)) then Err InvalidUnit else
  sum ← ok_or (decimal_checked_add (as_decimal self) (as_decimal other)) InvalidValue;
  decimal_value_new (to_string (mantissa sum)) (decimal_scale sum) (value_unit self).

Definition decimal_value_compare `{RustDecimal} (self other : DecimalValue) : DomainResult comparison :=
  if negb (bool_decide (value_unit self = value_unit other)) then Err InvalidUnit
  else Ok (decimal_cmp (as_decimal self) (as_decimal other)).

Example decimal_value_example (u : UnitRef) :
  decimal_value_new "+0001000" 3 u = Ok {| coefficient := "1"; scale := 0; value_unit := u |}
  /\ decimal_value_new "1.25" 2 u = Err InvalidValue
  /\ decimal_value_new "-10500" 4 u = Ok {| coefficient := "-105"; scale := 2; value_unit := u |}.
Proof. repeat split. Qed.

(** ** Normal form *)

(** The value of a decimal, in units of the 28th decimal place. *)
Definition value (d : DecimalValue) : Z := in_units (default 0 (parse_i128 (coefficient d))) (scale d).

(** Values as the constructor leaves them: at most 28 digits without leading zeros, and no trailing
    zero in the decimal places; zero is written as the digit 0. *)
Definition wf_decimal (d : DecimalValue) : Prop :=
  exists negative digits, coefficient d = signed_text negative digits
    /\ all_digits digits = true /\ digits <> [] /\ Z.of_nat (List.length digits) <= 28
    /\ 0 <= scale d <= 28
    /\ ((digits = [ZERO] /\ negative = false)
        \/ (leading digits /\ (scale d = 0 \/ list.last digits <> Some ZERO))).

Lemma byte_eqb_eq a b : Byte.eqb a b = true <-> a = b.
Proof. split; [apply Byte.byte_dec_bl|by intros ->; apply Byte.byte_dec_lb]. Qed.

Lemma trim_zeros_spec l :
  all_digits l = true ->
  all_digits (trim_zeros l) = true /\ digits_val (trim_zeros l) = digits_val l
  /\ leading (trim_zeros l) /\ (List.length (trim_zeros l) <= List.length l)%nat.
Proof.
  induction l as [|b l IH]; [done|]. cbn [trim_zeros]. intros Hd. destruct (Byte.eqb b ZERO) eqn:Eb.
  - apply byte_eqb_eq in Eb as ->. destruct (IH Hd) as (? & ? & ? & ?).
    rewrite digits_val_zero. cbn [List.length]. auto.
  - split; [done|]. split; [done|]. split; [|done]. intros ->. done.
Qed.

Lemma pop_zeros_spec n l l' n' :
  all_digits l = true -> pop_zeros n l = (l', n') ->
  all_digits l' = true /\ (n' <= n)%nat /\ digits_val l = digits_val l' * 10 ^ Z.of_nat (n - n')
  /\ (leading l -> leading l') /\ (n' = 0%nat \/ list.last l' <> Some ZERO)
  /\ (List.length l' <= List.length l)%nat.
Proof.
  revert l. induction n as [|n IH]; intros l Hd E; cbn [pop_zeros] in E.
  { injection E as <- <-. cbn. split; [done|]. split; [done|]. split; [lia|]. auto. }
  destruct (bool_decide _) eqn:Eb; [|apply bool_decide_eq_false in Eb; injection E as <- <-;
    rewrite Nat.sub_diag, Z.mul_1_r; auto 10].
  apply bool_decide_eq_true in Eb. destruct l as [|b l _] using rev_ind; [done|].
  rewrite last_snoc in Eb. injection Eb as ->. rewrite removelast_last in E.
  rewrite all_digits_snoc in Hd. destruct Hd as [Hd _].
  destruct (IH _ Hd E) as (H1 & H2 & H3 & H4 & H5 & H6). split; [done|]. split; [lia|]. split; [|split; [|split]].
  - rewrite digits_val_snoc, H3. change (digit_val ZERO) with 0.
    replace (S n - n')%nat with (S (n - n')) by lia. rewrite Nat2Z.inj_succ, Z.pow_succ_r by lia. lia.
  - destruct l; [intros _; by apply H4|exact H4].
  - done.
  - rewrite length_app. cbn. lia.
Qed.

Lemma normal_digits l s digits n :
  all_digits l = true -> l <> [] -> 0 <= s ->
  pop_zeros (Z.to_nat s) (or_zero (trim_zeros l)) = (digits, n) ->
  all_digits (or_zero digits) = true /\ (List.length (or_zero digits) <= List.length l)%nat
  /\ Z.of_nat n <= s /\ digits_val l = digits_val (or_zero digits) * 10 ^ (s - Z.of_nat n)
  /\ (or_zero digits = [ZERO] \/ (leading (or_zero digits) /\ (n = 0%nat \/ list.last (or_zero digits) <> Some ZERO))).
Proof.
  intros Hd Hne Hs E. destruct (trim_zeros_spec l Hd) as (T1 & T2 & T3 & T4).
  assert (Hl1 : (1 <= List.length l)%nat) by (destruct l; [done|cbn; lia]).
  destruct (trim_zeros l) as [|b t] eqn:Et.
  - cbn [or_zero] in E. destruct (pop_zeros_spec _ [ZERO] _ _ eq_refl E) as (P1 & P2 & P3 & P4 & P5 & P6).
    assert (Ez : or_zero digits = [ZERO]).
    { destruct (Z.to_nat s) as [|m]; cbn in E; [by injection E as <- <-|].
      destruct m; cbn in E; by injection E as <- <-. }
    rewrite Ez. split; [done|]. split; [done|]. split; [lia|]. split; [|by left].
    rewrite <- T2. change (digits_val [ZERO]) with 0. by rewrite Z.mul_0_l.
  - cbn [or_zero] in E. destruct (pop_zeros_spec _ _ _ _ T1 E) as (P1 & P2 & P3 & P4 & P5 & P6).
    destruct digits as [|d digits].
    { change (digits_val []) with 0 in P3. rewrite Z.mul_0_l in P3.
      by apply leading_zero in P3. }
    cbn [or_zero]. split; [done|]. split; [lia|]. split; [lia|]. split; [|right; split; [by apply P4|done]].
    rewrite <- T2, P3. do 2 f_equal. lia.
Qed.

Lemma split_sign_parse s negative unsigned :
  split_sign (as_bytes s) = (negative, unsigned) -> unsigned <> [] -> all_digits unsigned = true ->
  parse_i128 s = checked in_i128 (if negative then - digits_val unsigned else digits_val unsigned).
Proof.
  unfold parse_i128, split_sign. intros E Hne Hd. rewrite E. rewrite bool_decide_eq_false_2 by done. by rewrite Hd.
Qed.

Lemma small_in_i128 z n : Z.abs z < 10 ^ n -> n <= 28 -> in_i128 z = true.
Proof.
  intros Hz Hn. pose proof (Z.pow_le_mono_r 10 n 28 ltac:(lia) Hn). ranges. change (10 ^ 28) with 10000000000000000000000000000 in *. lia.
Qed.

Lemma in_units_shift z s n : 0 <= n <= s -> s <= 28 -> in_units (z * 10 ^ (s - n)) s = in_units z n.
Proof.
  intros Hn Hs. unfold in_units. rewrite <- Z.mul_assoc, <- Z.pow_add_r by lia. do 2 f_equal. lia.
Qed.

Lemma decimal_value_new_Ok s sc u d :
  0 <= sc -> decimal_value_new s sc u = Ok d ->
  exists z, parse_i128 s = Some z /\ Z.abs z < 10 ^ 28 /\ value d = in_units z sc
    /\ value_unit d = u /\ scale d <= sc <= 28 /\ wf_decimal d.
Proof.
  intros Hsc. unfold decimal_value_new. destruct (split_sign (as_bytes s)) as [negative unsigned] eqn:Es.
  destruct (_ || _) eqn:Eg; [done|]. breflect. rename H into Hne, H2 into Hd, H1 into Hlen, H0 into Hs28.
  destruct (pop_zeros _ _) as [digits n] eqn:Ep. unfold MAX_PRECISION, MAX_SCALE in *.
  destruct (normal_digits unsigned sc digits n Hd Hne Hsc Ep) as (N1 & N2 & N3 & N4 & N5).
  set (ds := or_zero digits) in *. set (sign := negative && negb (bool_decide (ds = [ZERO]))).
  assert (Hdne : ds <> []) by (unfold ds; by destruct digits).
  rewrite (parse_signed_text sign ds N1 Hdne). intros E. apply bind_Ok in E as (z' & Hz' & [= <-]).
  apply ok_or_Ok in Hz'. pose proof (digits_val_range unsigned Hd) as Hr.
  pose proof (Z.pow_le_mono_r 10 (Z.of_nat (List.length unsigned)) 28 ltac:(lia) Hlen) as Hp.
  set (z := if negative then - digits_val unsigned else digits_val unsigned).
  assert (Hz : Z.abs z < 10 ^ 28) by (unfold z; destruct negative; lia).
  exists z. split; [|split; [done|]].
  { rewrite (split_sign_parse _ _ _ Es) by done. unfold checked. by rewrite (small_in_i128 _ 28) by (unfold z in Hz; lia). }
  assert (Ez : z = (if sign then - digits_val ds else digits_val ds) * 10 ^ (sc - Z.of_nat n)).
  { unfold z, sign. rewrite N4. destruct negative; cbn [andb]; [|done].
    case_bool_decide as Ed; cbn [negb]; [rewrite Ed; change (digits_val [ZERO]) with 0|]; lia. }
  split; [|split; [done|split; [cbn; lia|]]].
  - unfold value. cbn [coefficient scale]. rewrite (parse_signed_text sign ds N1 Hdne), Hz'.
    apply checked_Some in Hz' as [_ ->]. rewrite Ez. symmetry. apply in_units_shift; lia.
  - exists sign, ds. cbn [coefficient scale]. do 3 (split; [done|]). split; [lia|]. split; [lia|].
    destruct N5 as [N5|[N5 N6]]; [left; split; [done|]|right; split; [done|]].
    + unfold sign. rewrite bool_decide_eq_true_2 by done. by destruct negative.
    + destruct N6; [left; lia|by right].
Qed.

(** A normal value: its sign, digits and integer coefficient. *)
Lemma wf_decimal_parse d :
  wf_decimal d -> exists negative digits, coefficient d = signed_text negative digits
    /\ all_digits digits = true /\ digits <> [] /\ Z.of_nat (List.length digits) <= 28 /\ 0 <= scale d <= 28
    /\ parse_i128 (coefficient d) = Some (if negative then - digits_val digits else digits_val digits)
    /\ 0 <= digits_val digits < 10 ^ 28
    /\ ((digits = [ZERO] /\ negative = false)
        \/ (leading digits /\ (scale d = 0 \/ list.last digits <> Some ZERO))).
Proof.
  intros (negative & digits & E & Hd & Hne & Hlen & Hs & Hn). exists negative, digits.
  pose proof (digits_val_range digits Hd) as Hr.
  pose proof (Z.pow_le_mono_r 10 (Z.of_nat (List.length digits)) 28 ltac:(lia) Hlen) as Hp.
  do 5 (split; [done|]). split; [|split; [lia|done]].
  rewrite E, parse_signed_text by done. unfold checked.
  by rewrite (small_in_i128 _ 28) by (destruct negative; lia).
Qed.

Lemma last_digit_zero l : all_digits l = true -> l <> [] -> digits_val l mod 10 = 0 -> list.last l = Some ZERO.
Proof.
  destruct l as [|b l _] using rev_ind; [done|]. rewrite all_digits_snoc, digits_val_snoc, last_snoc.
  intros [_ Hb%digit_val_range] _ E. f_equal. apply digit_val_inj. change (digit_val ZERO) with 0.
  rewrite Z.add_comm, Z.mod_add, Z.mod_small in E by lia. done.
Qed.

(** Two non-zero normal coefficients with one value have one scale: the larger scale would leave a
    trailing zero. *)
Lemma normal_scale x y l s t :
  0 <= s <= 28 -> 0 <= t <= 28 -> s < t -> in_units x s = in_units y t ->
  all_digits l = true -> l <> [] -> Z.abs y = digits_val l -> list.last l = Some ZERO.
Proof.
  intros Hs Ht Hlt E Hd Hne Hy. apply last_digit_zero; [done|done|].
  assert (Ey : y = x * 10 ^ (t - s)).
  { unfold in_units in E. replace (28 - s) with ((t - s) + (28 - t)) in E by lia.
    rewrite Z.pow_add_r, Z.mul_assoc in E by lia. apply Z.mul_cancel_r in E; [done|].
    apply Z.pow_nonzero; lia. }
  rewrite <- Hy, Ey. replace (t - s) with (Z.succ (t - s - 1)) by lia. rewrite Z.pow_succ_r by lia.
  rewrite Z.mul_assoc, (Z.mul_comm _ 10), <- Z.mul_assoc, Z.abs_mul. rewrite Z.mul_comm. apply Z.mod_mul. lia.
Qed.

Lemma decimal_canonical d e :
  wf_decimal d -> wf_decimal e -> value_unit d = value_unit e -> value d = value e -> value d <> 0 -> d = e.
Proof.
  intros Hd He Hu Hv Hz.
  destruct (wf_decimal_parse d Hd) as (m & l & Cd & Dl & Nl & _ & Sd & Pd & Vl & Fd).
  destruct (wf_decimal_parse e He) as (n & k & Ce & Dk & Nk & _ & Se & Pe & Vk & Fe).
  assert (Hze : value e <> 0) by congruence. unfold value in Hv, Hz, Hze. rewrite Pd in Hv, Hz. rewrite Pe in Hv, Hze.
  cbn [from_option id] in Hv, Hz, Hze.
  assert (Hlead : forall neg x s, in_units (if neg : bool then - digits_val x else digits_val x) s <> 0 -> x <> [ZERO]).
  { intros neg x s Hx ->. change (digits_val [ZERO]) with 0 in Hx. by destruct neg. }
  destruct Fd as [[F _]|[Ll Zl]]; [by apply Hlead in Hz|].
  destruct Fe as [[F _]|[Lk Zk]]; [by apply Hlead in Hze|].
  assert (Hs : scale d = scale e).
  { destruct (Z.lt_trichotomy (scale d) (scale e)) as [Hlt|[|Hlt]]; [|done|].
    - destruct Zk as [|Zk]; [lia|]. destruct Zk.
      refine (normal_scale _ _ k _ _ Sd Se Hlt Hv Dk Nk _). destruct n; lia.
    - destruct Zl as [|Zl]; [lia|]. destruct Zl.
      refine (normal_scale _ _ l _ _ Se Sd Hlt (eq_sym Hv) Dl Nl _). destruct m; lia. }
  rewrite Hs in Hv, Hz. unfold in_units in Hv. apply Z.mul_cancel_r in Hv; [|apply Z.pow_nonzero; lia].
  assert (Hp : digits_val k <> 0) by (intros E; rewrite E in Hze; by destruct n).
  assert (digits_val l = digits_val k /\ m = n) as [Evl ->] by (destruct m, n; first [exfalso; lia|split; [lia|done]]).
  assert (l = k) as -> by by apply digits_val_inj.
  destruct d, e; cbn in *. congruence.
Qed.

Lemma new_signed_text n l sc u :
  all_digits l = true -> l <> [] -> Z.of_nat (List.length l) <= 28 -> 0 <= sc <= 28 ->
  exists d, decimal_value_new (signed_text n l) sc u = Ok d.
Proof.
  intros Hd Hne Hlen Hsc. unfold decimal_value_new.
  assert (Hsplit : split_sign (as_bytes (signed_text n l)) = (n, l)).
  { unfold signed_text. rewrite as_bytes_of_bytes. destruct n; [done|].
    destruct l as [|b l]; [done|]. cbn in Hd. apply andb_true_iff in Hd as [Hb _].
    cbn [split_sign]. by destruct (digit_not_sign b Hb) as [-> ->]. }
  rewrite Hsplit, bool_decide_eq_false_2, Hd by done. unfold MAX_PRECISION, MAX_SCALE.
  destruct (Z.ltb_spec 28 (Z.of_nat (List.length l))); [lia|]. destruct (Z.ltb_spec 28 sc); [lia|].
  cbn [negb orb]. destruct (pop_zeros _ _) as [digits k] eqn:Ep.
  destruct (normal_digits l sc digits k Hd Hne ltac:(lia) Ep) as (N1 & N2 & _).
  assert (Hdne : or_zero digits <> []) by by destruct digits.
  rewrite parse_signed_text by done. unfold checked. pose proof (digits_val_range _ N1) as Hr.
  pose proof (Z.pow_le_mono_r 10 (Z.of_nat (List.length (or_zero digits))) 28 ltac:(lia) ltac:(lia)).
  set (sign := n && _). rewrite (small_in_i128 _ 28) by (destruct sign; lia). by eexists.
Qed.

Lemma decimal_value_new_total z sc u :
  Z.abs z < 10 ^ 28 -> 0 <= sc <= 28 -> exists d, decimal_value_new (to_string z) sc u = Ok d.
Proof.
  intros Hz Hsc. destruct (Z.eq_dec z 0) as [->|Hne].
  - by apply (new_signed_text false [ZERO]).
  - destruct (to_string_digits z 28 ltac:(lia) Hne Hz) as (l & -> & ? & ? & ? & ? & ?).
    by apply new_signed_text.
Qed.

Lemma decimal_renew d :
  wf_decimal d -> value d <> 0 \/ scale d = 0 ->
  decimal_value_new (coefficient d) (scale d) (value_unit d) = Ok d.
Proof.
  intros Hwf Hz. destruct (wf_decimal_parse d Hwf) as (n & l & Cd & Dl & Nl & Ll & Sd & Pd & Vl & Fd).
  destruct Fd as [[-> ->]|Fd].
  - destruct Hz as [Hz|Hz].
    { unfold value in Hz. by rewrite Pd in Hz. }
    destruct d as [c s u]. cbn in Cd, Hz. by subst c s.
  - destruct (new_signed_text n l (scale d) (value_unit d) Dl Nl Ll Sd) as [e E]. rewrite <- Cd in E. rewrite E.
    destruct (decimal_value_new_Ok _ _ _ _ (proj1 Sd) E) as (z & Pz & _ & Ve & Ue & Se & We).
    f_equal. symmetry. apply decimal_canonical; try done.
    + rewrite Ve. unfold value. by rewrite Pz.
    + unfold value. rewrite Pd. cbn [from_option id]. unfold in_units. intros E0.
      apply Z.mul_eq_0_l in E0; [|apply Z.pow_nonzero; lia]. apply Nl, leading_zero; [done|tauto|]. destruct n; lia.
Qed.

(** ** Addition and comparison *)

Lemma wf_as_decimal d :
  wf_decimal d -> exists m, parse_i128 (coefficient d) = Some m /\ Z.abs m < 10 ^ 28
    /\ decimal_range m (scale d) /\ value d = in_units m (scale d).
Proof.
  intros Hd. destruct (wf_decimal_parse d Hd) as (n & l & _ & _ & _ & _ & Sd & Pd & Vl & _).
  exists (if n then - digits_val l else digits_val l). split; [done|].
  assert (Hb : Z.abs (if n then - digits_val l else digits_val l) < 10 ^ 28) by (destruct n; lia).
  split; [done|]. split; [|unfold value; by rewrite Pd]. split; [|done].
  change (10 ^ 28) with 10000000000000000000000000000 in *. change (2 ^ 96) with 79228162514264337593543950336. lia.
Qed.

(** The coefficient of a value at a scale no smaller than its own. *)
Definition aligned (d : DecimalValue) (s : Z) : Z :=
  default 0 (parse_i128 (coefficient d)) * 10 ^ (s - scale d).

(** Two values and their sum fit the decimal type at the larger of the two scales. *)
Definition add_fits (a b : DecimalValue) : Prop :=
  let s := Z.max (scale a) (scale b) in
  Z.abs (aligned a s) < 2 ^ 96 /\ Z.abs (aligned b s) < 2 ^ 96 /\ Z.abs (aligned a s + aligned b s) < 10 ^ 28.

Lemma in_units_bound m s n t :
  0 <= s <= t -> t <= 28 -> in_units m s = in_units n t -> Z.abs n < 10 ^ 28 -> Z.abs m < 10 ^ 28.
Proof.
  intros Hs Ht E Hn. unfold in_units in E. replace (28 - s) with ((t - s) + (28 - t)) in E by lia.
  rewrite Z.pow_add_r, Z.mul_assoc in E by lia. apply Z.mul_cancel_r in E; [|apply Z.pow_nonzero; lia].
  rewrite <- E, Z.abs_mul in Hn. assert (0 < 10 ^ (t - s)) by (apply Z.pow_pos_nonneg; lia). nia.
Qed.

Lemma parse_to_string_small z : Z.abs z < 10 ^ 28 -> parse_i128 (to_string z) = Some z.
Proof. intros Hz. apply parse_to_string. by apply (small_in_i128 _ 28). Qed.

Section arithmetic.
Context `{RustDecimalLaws}.

Lemma checked_add_units a b :
  value_unit a <> value_unit b -> decimal_value_checked_add a b = Err InvalidUnit.
Proof. intros Hu. unfold decimal_value_checked_add. by rewrite bool_decide_eq_false_2 by done. Qed.

Lemma checked_add_exact a b :
  wf_decimal a -> wf_decimal b -> value_unit a = value_unit b -> add_fits a b ->
  exists r, decimal_value_checked_add a b = Ok r /\ wf_decimal r /\ value_unit r = value_unit a
    /\ scale r <= Z.max (scale a) (scale b) /\ value r = value a + value b.
Proof.
  intros Wa Wb Hu Hfit.
  destruct (wf_as_decimal a Wa) as (m & Pm & Bm & Rm & Vm).
  destruct (wf_as_decimal b Wb) as (n & Pn & Bn & Rn & Vn).
  unfold add_fits, aligned in Hfit. rewrite Pm, Pn in Hfit. cbn [from_option id] in Hfit. destruct Hfit as (F1 & F2 & F3).
  set (s := Z.max (scale a) (scale b)) in *.
  assert (F4 : Z.abs (m * 10 ^ (s - scale a) + n * 10 ^ (s - scale b)) < 2 ^ 96).
  { change (10 ^ 28) with 10000000000000000000000000000 in F3.
    change (2 ^ 96) with 79228162514264337593543950336. lia. }
  destruct (decimal_added m (scale a) n (scale b) Rm Rn F1 F2 F4) as (c & Ec & [Rc Sc] & Hle & Vc).
  unfold decimal_value_checked_add, as_decimal. rewrite bool_decide_eq_true_2 by done.
  rewrite Pm, Pn. cbn [negb from_option id]. rewrite Ec. cbn [ok_or mbind Result_bind].
  destruct Rm as [_ Sa], Rn as [_ Sb]. fold s in Hle, Vc.
  assert (Bc : Z.abs (mantissa c) < 10 ^ 28).
  { refine (in_units_bound _ (decimal_scale c) _ s _ _ Vc F3); lia. }
  destruct (decimal_value_new_total (mantissa c) (decimal_scale c) (value_unit a) Bc Sc) as [r Er].
  exists r. split; [done|]. destruct (decimal_value_new_Ok _ _ _ _ (proj1 Sc) Er) as (z & Pz & _ & Vr & Ur & Sr & Wr).
  rewrite parse_to_string_small in Pz by done. injection Pz as <-.
  split; [done|]. split; [done|]. split; [lia|]. rewrite Vr, Vc, Vm, Vn. unfold in_units.
  rewrite Z.mul_add_distr_r, <- !Z.mul_assoc, <- !Z.pow_add_r by lia. do 2 f_equal; do 2 f_equal; lia.
Qed.

Lemma compare_exact a b :
  wf_decimal a -> wf_decimal b ->
  decimal_value_compare a b
  = if decide (value_unit a = value_unit b) then Ok (Z.compare (value a) (value b)) else Err InvalidUnit.
Proof.
  intros Wa Wb. destruct (wf_as_decimal a Wa) as (m & Pm & _ & Rm & ->).
  destruct (wf_as_decimal b Wb) as (n & Pn & _ & Rn & ->).
  unfold decimal_value_compare, as_decimal. rewrite Pm, Pn. cbn [from_option id].
  rewrite decimal_compared by done. destruct (decide _) as [E|E].
  - by rewrite bool_decide_eq_true_2.
  - by rewrite bool_decide_eq_false_2.
Qed.
End arithmetic.

(** ** Examples and properties *)

(** Decimals as coefficients and scales, added at the larger scale. *)
Definition sample_decimal : RustDecimal := {|
  Decimal := Z * Z;
  from_i128_with_scale := fun m s => (m, s);
  decimal_checked_add := fun a b =>
    let s := Z.max a.2 b.2 in
    let sum := a.1 * 10 ^ (s - a.2) + b.1 * 10 ^ (s - b.2) in
    if Z.abs sum <? 2 ^ 96 then Some (sum, s) else None;
  mantissa := fst;
  decimal_scale := snd;
  decimal_cmp := fun a b => Z.compare (in_units a.1 a.2) (in_units b.1 b.2)
|}.

Lemma sample_decimal_laws : @RustDecimalLaws sample_decimal.
Proof.
  split.
  - done.
  - intros m1 s1 m2 s2 s x y [_ H1] [_ H2] _ _ Hsum. exists (x + y, s).
    cbn. fold s x y. destruct (Z.ltb_spec (Z.abs (x + y)) (2 ^ 96)); [|lia].
    split; [done|]. split; [split; [done|lia]|]. split; [lia|done].
  - done.
Qed.

Definition sample_value (s : string) (sc : Z) : DecimalValue :=
  match decimal_value_new s sc sample_unit with
  | Ok d => d
  | Err _ => {| coefficient := s; scale := sc; value_unit := sample_unit |}
  end.

Lemma sample_value_wf s sc :
  0 <= sc -> is_ok (decimal_value_new s sc sample_unit) = true -> wf_decimal (sample_value s sc).
Proof.
  intros Hsc. unfold sample_value. destruct (decimal_value_new s sc sample_unit) as [d|] eqn:E; [|done].
  intros _. apply decimal_value_new_Ok in E as (z & _ & _ & _ & _ & _ & Hd); done.
Qed.

(** A decimal value keeps the number it is made from: accepted text is an optional sign and at
    most 28 digits, the value is the integer it denotes at the given scale, and it is stored in
    normal form at a scale no larger. Every integer of at most 28 digits is accepted at every scale up
    to 28. *)
Theorem decimal_value_new_correct s sc u :
  0 <= sc ->
  (forall d, decimal_value_new s sc u = Ok d ->
   exists z, parse_i128 s = Some z /\ Z.abs z < 10 ^ 28 /\ value d = in_units z sc
     /\ value_unit d = u /\ scale d <= sc <= 28 /\ wf_decimal d) /\
  (forall z, Z.abs z < 10 ^ 28 -> sc <= 28 -> exists d, decimal_value_new (to_string z) sc u = Ok d).
Proof.
  intros Hsc. split; [intros d; by apply decimal_value_new_Ok|].
  intros z Hz Hle. by apply decimal_value_new_total.
Qed.

Lemma decimal_value_new_correct_witness : value (sample_value "-10500" 4) = in_units (-10500) 4.
Proof.
  destruct (proj1 (decimal_value_new_correct "-10500" 4 sample_unit ltac:(lia)) (sample_value "-10500" 4) eq_refl)
    as (z & Ez & _ & Hv & _).
  change (parse_i128 "-10500") with (Some (-10500)) in Ez. injection Ez as <-. exact Hv.
Defined.

(** The normal form is canonical: non-zero values with the same unit and the same number are the same value, text and scale included; making
    a value again from its own text and scale gives it back. *)
Theorem decimal_value_canonical d e :
  wf_decimal d -> wf_decimal e -> value_unit d = value_unit e -> value d = value e -> value d <> 0 ->
  d = e /\ decimal_value_new (coefficient d) (scale d) (value_unit d) = Ok d.
Proof. intros. split; [by apply decimal_canonical|]. apply decimal_renew; [done|by left]. Qed.

Lemma decimal_value_canonical_witness : sample_value "+0250" 3 = sample_value "25" 2.
Proof.
  apply (decimal_value_canonical (sample_value "+0250" 3) (sample_value "25" 2)).
  - by apply sample_value_wf.
  - by apply sample_value_wf.
  - reflexivity.
  - vm_compute. reflexivity.
  - vm_compute. discriminate.
Defined.

(** Addition is exact or refused: values of different units are refused with [InvalidUnit], and
    values of one unit whose sum has at most 28 digits at the larger scale add to exactly the sum. *)
Theorem decimal_value_checked_add_correct `{RustDecimalLaws} a b :
  wf_decimal a -> wf_decimal b ->
  (value_unit a <> value_unit b -> decimal_value_checked_add a b = Err InvalidUnit) /\
  (value_unit a = value_unit b -> add_fits a b ->
   exists r, decimal_value_checked_add a b = Ok r /\ wf_decimal r /\ value_unit r = value_unit a
     /\ scale r <= Z.max (scale a) (scale b) /\ value r = value a + value b).
Proof. intros. split; [apply checked_add_units|by apply checked_add_exact]. Qed.

Lemma decimal_value_checked_add_correct_witness :
  exists r, @decimal_value_checked_add sample_decimal (sample_value "125" 2) (sample_value "-75" 2) = Ok r
    /\ value r = in_units 50 2.
Proof.
  destruct (proj2 (@decimal_value_checked_add_correct sample_decimal sample_decimal_laws
    (sample_value "125" 2) (sample_value "-75" 2) ltac:(by apply sample_value_wf) ltac:(by apply sample_value_wf))
    eq_refl) as (r & E & _ & _ & _ & Hv).
  - vm_compute. repeat split.
  - exists r. split; [exact E|]. rewrite Hv. vm_compute. reflexivity.
Defined.

(** Zero has no normal scale: each construction from text takes one decimal place away, so the value
    made from "0" at scale 2 is not given back by its own text and scale. *)
Lemma zero_scale_drifts u :
  decimal_value_new "0" 2 u = Ok {| coefficient := "0"; scale := 1; value_unit := u |} /\
  decimal_value_new "0" 1 u = Ok {| coefficient := "0"; scale := 0; value_unit := u |}.
Proof. split; reflexivity. Qed.
