(* ===== verification/Position.v ===== *)
(** * Position snapshots

    [crates/ficant-domain/src/research/position_snapshot.rs]: positions with their accounting
    classification and holding form, and content-addressed snapshots of them. *)

From Stdlib Require Import ZArith Lia Strings.String.
From Stdlib Require Import Strings.Byte.
From stdpp Require Import base list option strings numbers.
From S2P Require Import Prelude Machine Collections Primitives Codec Concrete Digits DecimalValue.
Open Scope Z_scope.

(** ** Positions *)

Inductive AccountingClassificationState := Classified | NotApplicable | Unknown.
Inductive AccountingBook := Ac | Fvoci | Fvtpl.
Inductive PositionHoldingForm := Owned | RepoSold | ReverseRepoCollateral.

#[export] Instance AccountingClassificationState_eq_dec : EqDecision AccountingClassificationState.
Proof. solve_decision. Defined.
#[export] Instance AccountingBook_eq_dec : EqDecision AccountingBook.
Proof. solve_decision. Defined.
#[export] Instance PositionHoldingForm_eq_dec : EqDecision PositionHoldingForm.
Proof. solve_decision. Defined.

Record AccountingClassification := {
  classification_state : AccountingClassificationState;
  classification_book : option AccountingBook
}.

Definition is_classified (s : AccountingClassificationState) : bool :=
  match s with Classified => true | NotApplicable | Unknown => false end.

Definition accounting_classification_new (state : AccountingClassificationState)
    (book : option AccountingBook) : DomainResult AccountingClassification :=
  if negb (eqb (is_classified state) (match book with Some _ => true | None => false end))
  then Err InvalidValue
  else Ok {| classification_state := state; classification_book := book |}.

Record Position := {
  position_id : Ulid;
  instrument_ref : VersionRef;
  quantity : DecimalValue;
  economic_value : DecimalValue;
  economic_pnl : DecimalValue;
  accounting_pnl : DecimalValue;
  capital_requirement : DecimalValue;
  accounting_classification : AccountingClassification;
  holding_form : PositionHoldingForm
}.

(** [PositionInput] has the fields of [Position]. *)
Definition PositionInput : Type := Position.

Definition position_new (input : PositionInput) : DomainResult Position :=
  if negb (bool_decide (value_unit (economic_value input) = value_unit (economic_pnl input)))
     || negb (bool_decide (value_unit (economic_pnl input) = value_unit (accounting_pnl input)))
     || negb (bool_decide (value_unit (accounting_pnl input) = value_unit (capital_requirement input)))
  then Err InvalidUnit
  else Ok input.

Definition includes_position_exposure (self : Position) : bool :=
  match holding_form self with ReverseRepoCollateral => false | Owned | RepoSold => true end.

Definition includes_available_liquidity (self : Position) : bool :=
  match holding_form self with Owned => true | RepoSold | ReverseRepoCollateral => false end.

(** ** Snapshots *)

Record PositionSnapshot := {
  snapshot_id : Ulid;
  snapshot_owner : OwnerRef;
  subject_ref : VersionRef;
  observed_at : MarketTime;
  visible_at : MarketTime;
  snapshot_hash : ContentHash;
  snapshot_lineage : list LineageRef;
  positions : list Position
}.

Definition PositionSnapshotInput : Type := PositionSnapshot.

(** [timestamp_nanos_opt().unwrap_or_default()]: nanoseconds since the epoch, or zero when they do
    not fit 64 bits. *)
Definition nanos_or_zero (t : DateTime) : Z :=
  default 0 (checked in_i64 (timestamp t * 1000000000 + timestamp_subsec_nanos t)).

Definition text (s : string) : list byte := as_bytes s.
Definition number (z : Z) : list byte := as_bytes (to_string z).

Definition time_text_fields `{Chrono} (t : MarketTime) : list (list byte) :=
  [number (nanos_or_zero (instant t)); text (market_timezone t);
   text (date_to_string (local_trading_date t))].

Definition lineage_text_fields (l : LineageRef) : list (list byte) :=
  [text (ulid_str (object_id l));
   match lr_version l with Some v => number (version_get v) | None => [] end;
   match lr_content_hash l with Some h => hash_bytes h | None => [] end].

Definition amount_fields (v : DecimalValue) : list (list byte) :=
  [text (coefficient v); number (scale v); text (ulid_str (unit_id (value_unit v)));
   number (version_get (unit_version (value_unit v)))].

(** The [Debug] text of the classification and the holding form. *)
Definition state_debug (s : AccountingClassificationState) : string :=
  match s with Classified => "Classified" | NotApplicable => "NotApplicable" | Unknown => "Unknown" end.
Definition book_debug (b : option AccountingBook) : string :=
  match b with
  | Some Ac => "Some(Ac)" | Some Fvoci => "Some(Fvoci)" | Some Fvtpl => "Some(Fvtpl)" | None => "None"
  end.
Definition holding_debug (h : PositionHoldingForm) : string :=
  match h with
  | Owned => "Owned" | RepoSold => "RepoSold" | ReverseRepoCollateral => "ReverseRepoCollateral"
  end.

Definition debug_text (p : Position) : string :=
  state_debug (classification_state (accounting_classification p))
  ++ book_debug (classification_book (accounting_classification p)) ++ holding_debug (holding_form p).

Definition position_fields (p : Position) : list (list byte) :=
  [text (ulid_str (position_id p)); text (ulid_str (vr_id (instrument_ref p)));
   number (version_get (vr_version (instrument_ref p)))]
  ++ amount_fields (quantity p) ++ amount_fields (economic_value p) ++ amount_fields (economic_pnl p)
  ++ amount_fields (accounting_pnl p) ++ amount_fields (capital_requirement p)
  ++ [text (debug_text p)].

Definition snapshot_fields `{Chrono} (s : PositionSnapshot) : list (list byte) :=
  [text (ulid_str (snapshot_id s)); text (ulid_str (tenant_id (snapshot_owner s)));
   text (ulid_str (owner_id (snapshot_owner s))); text (ulid_str (vr_id (subject_ref s)));
   number (version_get (vr_version (subject_ref s)))]
  ++ time_text_fields (observed_at s) ++ time_text_fields (visible_at s)
  ++ flat_map lineage_text_fields (snapshot_lineage s) ++ flat_map position_fields (positions s).

(** [canonical_bytes] and [canonical_payload]. *)
Definition canonical_payload `{Chrono} (s : PositionSnapshot) : list byte := framed (snapshot_fields s).

Definition snapshot_hash_for `{Chrono} `{Sha256} (input : PositionSnapshotInput) : ContentHash :=
  digest (canonical_payload input).

Definition position_snapshot_new `{Chrono} `{Sha256} (input : PositionSnapshotInput)
    : DomainResult PositionSnapshot :=
  if ltb (instant (visible_at input)) (instant (observed_at input)) then Err InvalidEffectiveTime else
  if bool_decide (snapshot_lineage input = []) then Err BrokenLineage else
  if windows2_any (fun a b => geb (position_id a) (position_id b)) (positions input) then Err InvalidValue else
  if negb (bool_decide (snapshot_hash input = digest (canonical_payload input)))
  then Err ContentHashMismatch
  else Ok input.

(** ** The canonical payload determines the snapshot *)

Definition wf_amount `{UlidCrate} (v : DecimalValue) : Prop :=
  wf_str (coefficient v) /\ in_u32 (scale v) = true /\ wf_unit (value_unit v).

Definition wf_position `{UlidCrate} (p : Position) : Prop :=
  wf_ulid (position_id p) /\ wf_vref (instrument_ref p) /\ wf_amount (quantity p)
  /\ wf_amount (economic_value p) /\ wf_amount (economic_pnl p) /\ wf_amount (accounting_pnl p)
  /\ wf_amount (capital_requirement p).

(** A time whose nanoseconds since the epoch fit 64 bits, which is so from 1677 to 2262. *)
Definition near_time (t : MarketTime) : Prop :=
  wf_time t /\ 0 <= timestamp_subsec_nanos (instant t) < 1000000000
  /\ in_i64 (timestamp (instant t) * 1000000000 + timestamp_subsec_nanos (instant t)) = true.

Definition wf_snapshot `{UlidCrate} (s : PositionSnapshot) : Prop :=
  wf_ulid (snapshot_id s) /\ wf_owner (snapshot_owner s) /\ wf_vref (subject_ref s)
  /\ near_time (observed_at s) /\ near_time (visible_at s)
  /\ Forall wf_lineage (snapshot_lineage s) /\ Forall wf_position (positions s).

Lemma number_inj y z : in_i128 y = true -> in_i128 z = true -> number y = number z -> y = z.
Proof. intros Hy Hz E%as_bytes_inj. by apply to_string_inj. Qed.

Lemma u64_i128 z : in_u64 z = true -> in_i128 z = true.
Proof. intros Hz. ranges. lia. Qed.
Lemma u32_i128 z : in_u32 z = true -> in_i128 z = true.
Proof. intros Hz. ranges. lia. Qed.
Lemma i64_i128 z : in_i64 z = true -> in_i128 z = true.
Proof. intros Hz. ranges. lia. Qed.
Lemma version_i128 v : wf_version v -> in_i128 (version_get v) = true.
Proof. unfold wf_version. intros Hv. ranges. lia. Qed.

Lemma number_length z : in_i128 z = true -> (List.length (number z) <= 40)%nat.
Proof.
  intros Hz. unfold number. destruct (Z.eq_dec z 0) as [->|Hne]; [cbn; lia|].
  destruct (to_string_digits z 39 ltac:(lia) Hne) as (l & -> & _ & _ & _ & _ & Hl).
  { ranges. change (10 ^ 39) with 1000000000000000000000000000000000000000. lia. }
  unfold signed_text. rewrite as_bytes_of_bytes. destruct (z <? 0); cbn; lia.
Qed.

Lemma short_number z : in_i128 z = true -> short (number z).
Proof. intros Hz%number_length. unfold short. lia. Qed.

Lemma nanos_inj t u : near_time t -> near_time u ->
  number (nanos_or_zero (instant t)) = number (nanos_or_zero (instant u)) -> instant t = instant u.
Proof.
  intros (_ & Ht & It) (_ & Hu & Iu). unfold nanos_or_zero, checked. rewrite It, Iu. cbn [from_option id].
  intros E%number_inj; [|by apply i64_i128..]. destruct (instant t) as [a b], (instant u) as [c d]. cbn in *.
  assert (a = c) by lia. assert (b = d) by lia. congruence.
Qed.

Section payload.
Context `{UlidCrate} `{ChronoLaws} `{!ChronoShort}.

Lemma time_text_fields_inj t u :
  near_time t -> near_time u -> time_text_fields t = time_text_fields u -> t = u.
Proof.
  intros Ht Hu E. unfold time_text_fields, text in E. inj_fields.
  apply nanos_inj in F; [|done..]. destruct Ht as [(_ & Dt & _) _], Hu as [(_ & Du & _) _].
  apply date_to_string_inj in F1; [|done..]. destruct t, u; cbn in *; congruence.
Qed.

Lemma optional_version_text_inj (v w : option Version) :
  from_option wf_version True v -> from_option wf_version True w ->
  match v with Some v => number (version_get v) | None => [] end
  = match w with Some v => number (version_get v) | None => [] end -> v = w.
Proof.
  assert (Hne : forall z, number z <> []).
  { intros z E. destruct (to_string_text z) as (l & Ez & _ & Hl & _). unfold number in E. rewrite Ez in E.
    unfold signed_text in E. rewrite as_bytes_of_bytes in E. by destruct (z <? 0), l. }
  intros Hv Hw E. destruct v as [v|], w as [w|]; [|by apply Hne in E|by symmetry in E; apply Hne in E|done].
  apply number_inj in E; [|by apply version_i128..]. destruct v, w; cbn in E; congruence.
Qed.

Lemma lineage_text_fields_inj l m :
  wf_lineage l -> wf_lineage m -> lineage_text_fields l = lineage_text_fields m -> l = m.
Proof.
  intros (? & ? & ?) (? & ? & ?) E. unfold lineage_text_fields, text in E. inj_fields.
  apply optional_version_text_inj in F0; [|done..]. apply optional_hash_inj in F1; [|done..].
  destruct l, m; cbn in *; congruence.
Qed.

Lemma version_number_inj v w : wf_version v -> wf_version w -> number (version_get v) = number (version_get w) -> v = w.
Proof. intros Hv Hw E%number_inj; [|by apply version_i128..]. destruct v, w; cbn in E; congruence. Qed.

Lemma amount_fields_inj v w : wf_amount v -> wf_amount w -> amount_fields v = amount_fields w -> v = w.
Proof.
  intros (_ & Sv & _ & Vv) (_ & Sw & _ & Vw) E. unfold amount_fields, text in E. inj_fields.
  apply number_inj in F0; [|by apply u32_i128..]. apply version_number_inj in F2; [|done..].
  destruct v as [? ? []], w as [? ? []]; cbn in *; congruence.
Qed.

Lemma debug_text_inj p q : debug_text p = debug_text q ->
  accounting_classification p = accounting_classification q /\ holding_form p = holding_form q.
Proof.
  unfold debug_text. destruct (accounting_classification p) as [s b], (accounting_classification q) as [t c].
  cbn [classification_state classification_book].
  destruct s, b as [[]|], (holding_form p), t, c as [[]|], (holding_form q); intros E;
    first [discriminate E|by split].
Qed.

Lemma snapshot_position_fields_inj p q : wf_position p -> wf_position q -> position_fields p = position_fields q -> p = q.
Proof.
  intros (_ & [_ Pv] & P1 & P2 & P3 & P4 & P5) (_ & [_ Qv] & Q1 & Q2 & Q3 & Q4 & Q5) E.
  unfold position_fields, text in E.
  apply (app_inj_1 [_; _; _] [_; _; _]) in E as [E0 E]; [|done]. split_fields E.
  inj_fields. apply version_number_inj in F7; [|done..].
  apply amount_fields_inj in F, F0, F1, F2, F3; try assumption.
  apply debug_text_inj in F4 as [? ?].
  destruct p as [? [? ?] ? ? ? ? ? ? ?], q as [? [? ?] ? ? ? ? ? ? ?]; cbn in *; congruence.
Qed.
End payload.

(** ** Content addressing *)

(** Two repeated sections written one after the other, whose records cannot be confused. *)
Lemma two_sections_inj {A B} (P : A -> Prop) (Q : B -> Prop) (f : A -> list (list byte))
    (g : B -> list (list byte)) (n k : nat) l1 l2 m1 m2 :
  (forall a, List.length (f a) = n) -> (forall b, List.length (g b) = k) -> (0 < k)%nat ->
  (forall a b, P a -> P b -> f a = f b -> a = b) -> (forall a b, Q a -> Q b -> g a = g b -> a = b) ->
  (forall a b r s, P a -> Q b -> f a ++ r <> g b ++ s) -> (0 < n)%nat ->
  Forall P l1 -> Forall P l2 -> Forall Q m1 -> Forall Q m2 ->
  flat_map f l1 ++ flat_map g m1 = flat_map f l2 ++ flat_map g m2 -> l1 = l2 /\ m1 = m2.
Proof.
  intros Hf Hg Hk If Ig Hfg Hn Hl1. revert l2.
  assert (Hskip : forall a l m m', P a -> Forall Q m' -> flat_map f (a :: l) ++ flat_map g m <> flat_map g m').
  { intros a l m m' Ha Hm' E. cbn in E. rewrite <- (assoc_L (++)) in E. destruct Hm' as [|b m' Hb _].
    - apply (f_equal (@List.length _)) in E. cbn in E. rewrite length_app, Hf in E. lia.
    - by apply (Hfg a b) in E. }
  induction Hl1 as [|a l1 Ha Hl1 IH]; intros l2 Hl2 Hm1 Hm2 E.
  - destruct Hl2 as [|b l2 Hb Hl2]; [|symmetry in E; by apply Hskip in E].
    split; [done|]. cbn in E. by apply (flat_map_fields_inj Q g k) in E.
  - destruct Hl2 as [|b l2 Hb Hl2]; [by apply Hskip in E|].
    cbn in E. rewrite <- !(assoc_L (++)) in E. apply app_inj_1 in E as [E1 E2]; [|by rewrite !Hf].
    apply If in E1 as ->; [|done..]. by destruct (IH l2 Hl2 Hm1 Hm2 E2) as [-> ->].
Qed.

Lemma version_number_short v : wf_version v -> (List.length (number (version_get v)) <= 20)%nat.
Proof.
  unfold wf_version. intros Hv. unfold number.
  destruct (to_string_digits (version_get v) 20 ltac:(lia) ltac:(lia)) as (l & -> & _ & _ & _ & _ & Hl).
  { change (10 ^ 20) with 100000000000000000000. lia. }
  unfold signed_text. rewrite as_bytes_of_bytes. destruct (Z.ltb_spec (version_get v) 0); cbn; lia.
Qed.

Section snapshots.
Context `{UlidCrate} `{ChronoLaws} `{!ChronoShort}.

(** The second field of a lineage is a version number, the second of a position a ULID. *)
Lemma lineage_not_position l p r s :
  wf_lineage l -> wf_position p -> lineage_text_fields l ++ r <> position_fields p ++ s.
Proof.
  intros (_ & Hv & _) (_ & [Hi _] & _) E. apply (f_equal (fun x => default [] (x !! 1%nat))) in E.
  change (match lr_version l with Some v => number (version_get v) | None => [] end
    = as_bytes (ulid_str (vr_id (instrument_ref p)))) in E.
  apply (f_equal (@List.length _)) in E. rewrite length_as_bytes, (wf_ulid_len _ Hi) in E.
  destruct (lr_version l) as [v|]; cbn in Hv, E; [|lia]. apply version_number_short in Hv. lia.
Qed.

Lemma snapshot_fields_inj s t :
  wf_snapshot s -> wf_snapshot t -> snapshot_hash s = snapshot_hash t ->
  snapshot_fields s = snapshot_fields t -> s = t.
Proof.
  intros (_ & So & [_ Sv] & So1 & Sv1 & Sl & Sp) (_ & To & [_ Tv] & To1 & Tv1 & Tl & Tp) Eh E.
  unfold snapshot_fields, text in E.
  apply (app_inj_1 [_; _; _; _; _] [_; _; _; _; _]) in E as [E0 E]; [|done]. split_fields E.
  apply two_sections_inj with (P := wf_lineage) (Q := wf_position) (n := 3%nat) (k := 24%nat) in E as [El Ep];
    try done; [| |apply lineage_text_fields_inj|apply snapshot_position_fields_inj|apply lineage_not_position|lia].
  - inj_fields. apply version_number_inj in F5; [|done..].
    apply time_text_fields_inj in F, F0; try assumption.
    destruct s as [? [? ?] [? ?] ? ? ? ? ?], t as [? [? ?] [? ?] ? ? ? ? ?]; cbn in *; congruence.
  - lia.
Qed.

Lemma short_amount v : wf_amount v -> Forall short (amount_fields v).
Proof.
  intros (Hc & Hs & Hu & Hv). unfold amount_fields, text. split_forall.
  - by apply short_str.
  - by apply short_number, u32_i128.
  - by apply short_ulid.
  - by apply short_number, version_i128.
Qed.

Lemma short_snapshot_position p : wf_position p -> Forall short (position_fields p).
Proof.
  intros (Hi & [Hr Hv] & A1 & A2 & A3 & A4 & A5). unfold position_fields, text.
  split_forall; try (by apply short_ulid); try (by apply short_amount); try (by apply short_number, version_i128).
  apply short_str. unfold wf_str, str_len, debug_text.
  destruct (accounting_classification p) as [[] [[]|]], (holding_form p); vm_compute; reflexivity.
Qed.

Lemma short_lineage_text l : wf_lineage l -> Forall short (lineage_text_fields l).
Proof.
  intros (Hi & Hv & Hh). unfold lineage_text_fields, text. split_forall; [by apply short_ulid| |].
  - destruct (lr_version l); [by apply short_number, version_i128|unfold short; cbn; lia].
  - destruct (lr_content_hash l); [by apply short_hash|unfold short; cbn; lia].
Qed.

Lemma short_time_text t : near_time t -> Forall short (time_text_fields t).
Proof.
  intros ((_ & _ & Hz) & _ & Hn). unfold time_text_fields, text. split_forall.
  - apply short_number. unfold nanos_or_zero, checked. rewrite Hn. by apply i64_i128.
  - by apply short_str.
  - apply short_str, date_to_string_short.
Qed.

Lemma snapshot_fields_short s : wf_snapshot s -> Forall short (snapshot_fields s).
Proof.
  intros (Hi & [Ht Ho] & [Hr Hv] & Hob & Hvi & Hl & Hp). unfold snapshot_fields, text.
  split_forall; try (by apply short_ulid); try (by apply short_time_text).
  - by apply short_number, version_i128.
  - by apply (Forall_flat_map_short wf_lineage); [apply short_lineage_text|].
  - by apply (Forall_flat_map_short wf_position); [apply short_snapshot_position|].
Qed.

#[export] Instance snapshot_canonical : Canonical PositionSnapshot := {|
  address := snapshot_hash; canonical_fields := snapshot_fields; canonical_wf := wf_snapshot;
  canonical_short := snapshot_fields_short; canonical_inj := snapshot_fields_inj
|}.

End snapshots.

Lemma position_snapshot_new_Ok `{Sha256} `{Chrono} i s :
  position_snapshot_new i = Ok s <->
  s = i /\ cmp (instant (visible_at i)) (instant (observed_at i)) <> Lt /\ snapshot_lineage i <> []
  /\ (forall k a b, positions i !! k = Some a -> positions i !! S k = Some b ->
        cmp (position_id a) (position_id b) = Lt)
  /\ snapshot_hash i = digest (canonical_payload i).
Proof.
  unfold position_snapshot_new.
  destruct (ltb _ _) eqn:Et; [rewrite ltb_spec in Et; naive_solver|].
  apply not_true_iff_false in Et. rewrite ltb_spec in Et.
  case_bool_decide as El; [naive_solver|].
  assert (Hw : windows2_any (fun a b => geb (position_id a) (position_id b)) (positions i) = false <->
    forall k a b, positions i !! k = Some a -> positions i !! S k = Some b ->
      cmp (position_id a) (position_id b) = Lt).
  { rewrite windows2_any_false. setoid_rewrite geb_spec. setoid_rewrite negb_false_iff. setoid_rewrite ltb_spec. done. }
  rewrite <- Hw. destruct (windows2_any _ _); [naive_solver|].
  case_bool_decide; cbn; naive_solver.
Qed.

(** ** Examples and properties *)

Definition sample_position (id : string) (state : AccountingClassificationState) (amount : string) : Position := {|
  position_id := sample_id id; instrument_ref := sample_vref "I";
  quantity := sample_value "100" 0; economic_value := sample_value amount 2;
  economic_pnl := sample_value "1" 2; accounting_pnl := sample_value "2" 2;
  capital_requirement := sample_value "3" 2;
  accounting_classification := {| classification_state := state; classification_book :=
    match state with Classified => Some Fvoci | _ => None end |};
  holding_form := Owned
|}.

Definition sample_snapshot_with (h : ContentHash) (ps : list Position) : PositionSnapshot := {|
  snapshot_id := sample_id "N"; snapshot_owner := sample_owner; subject_ref := sample_vref "S";
  observed_at := sample_time 1000; visible_at := sample_time 1010; snapshot_hash := h;
  snapshot_lineage := [sample_lineage]; positions := ps
|}.

(** A snapshot with its own content hash. *)
Definition sample_snapshot (ps : list Position) : PositionSnapshot :=
  sample_snapshot_with
    (@digest sample_sha256 (@canonical_payload sample_chrono (sample_snapshot_with (sample_hash x00) ps))) ps.

Definition sample_positions : list Position :=
  [sample_position "A" Unknown "-2500"; sample_position "B" Classified "1050"; sample_position "C" NotApplicable "400"].

Example sample_snapshot_accepted :
  is_ok (@position_snapshot_new sample_chrono sample_sha256 (sample_snapshot sample_positions)) = true
  /\ is_ok (@position_snapshot_new sample_chrono sample_sha256 (sample_snapshot (rev sample_positions))) = false.
Proof. vm_compute. split; reflexivity. Qed.

(** The content hash of a position snapshot identifies it: two accepted, well-formed snapshots
    with the same content hash agree on every field, down to the amounts, units and classification of
    every position, or exhibit a SHA-256 collision. Well-formed includes that both times fit a 64-bit
    count of nanoseconds. *)
Theorem position_snapshot_hash_identifies `{UlidCrate} `{Sha256} `{ChronoLaws} `{!ChronoShort} i j s t :
  position_snapshot_new i = Ok s -> position_snapshot_new j = Ok t ->
  wf_snapshot s -> wf_snapshot t -> snapshot_hash s = snapshot_hash t -> s = t \/ collision.
Proof.
  rewrite !position_snapshot_new_Ok. intros (-> & _ & _ & _ & Es) (-> & _ & _ & _ & Et) Ws Wt E.
  by apply address_identifies.
Qed.

Lemma sample_amount_wf s sc : wf_str s -> is_ok (decimal_value_new s sc sample_unit) = true -> 0 <= sc ->
  wf_str (coefficient (sample_value s sc)) -> @wf_amount sample_ulid_crate (sample_value s sc).
Proof.
  intros Hs Hok Hsc Hc. destruct (sample_value_wf s sc Hsc Hok) as (n & l & _ & _ & _ & _ & Hr & _).
  split; [done|]. split; [ranges; lia|]. unfold sample_value.
  destruct (decimal_value_new s sc sample_unit) as [d|] eqn:E; [|done].
  apply decimal_value_new_Ok in E as (_ & _ & _ & _ & -> & _); [by split|done].
Qed.

Lemma sample_positions_wf : Forall (@wf_position sample_ulid_crate) sample_positions.
Proof.
  unfold sample_positions. split_forall; (split; [done|]; split; [by split|];
    repeat split; try (by apply sample_amount_wf); try done; vm_compute; try reflexivity; try discriminate).
Qed.

Lemma sample_near_time n : 0 <= n < 2000000 -> near_time (sample_time n).
Proof.
  intros Hn. split; [|split; [cbn; lia|cbn; ranges; lia]]. split; [split; [cbn; ranges; lia|done]|].
  split; [done|done].
Qed.

Lemma sample_snapshot_wf : @wf_snapshot sample_ulid_crate (sample_snapshot sample_positions).
Proof.
  split; [done|]. split; [by split|]. split; [by split|].
  split; [by apply sample_near_time|]. split; [by apply sample_near_time|].
  split; [|exact sample_positions_wf]. cbn [snapshot_lineage sample_snapshot sample_snapshot_with].
  split_forall. by split.
Qed.

Lemma position_snapshot_hash_identifies_witness :
  sample_snapshot sample_positions = sample_snapshot sample_positions \/ @collision sample_sha256.
Proof.
  apply (@position_snapshot_hash_identifies sample_ulid_crate sample_sha256 sample_chrono sample_chrono_laws
    sample_chrono_short (sample_snapshot sample_positions) (sample_snapshot sample_positions)).
  - vm_compute. reflexivity.
  - vm_compute. reflexivity.
  - apply sample_snapshot_wf.
  - apply sample_snapshot_wf.
  - reflexivity.
Defined.

(** The condition on the times is needed: all times too far from the epoch are written as zero, so
    snapshots observed at different such times have the same canonical payload. *)
Lemma far_times_share_payload `{Chrono} s (t u : DateTime) :
  in_i64 (timestamp t * 1000000000 + timestamp_subsec_nanos t) = false ->
  in_i64 (timestamp u * 1000000000 + timestamp_subsec_nanos u) = false ->
  let at_instant x := {| snapshot_id := snapshot_id s; snapshot_owner := snapshot_owner s;
    subject_ref := subject_ref s; observed_at := {| instant := x;
      market_timezone := market_timezone (observed_at s); local_trading_date := local_trading_date (observed_at s) |};
    visible_at := visible_at s; snapshot_hash := snapshot_hash s;
    snapshot_lineage := snapshot_lineage s; positions := positions s |} in
  canonical_payload (at_instant t) = canonical_payload (at_instant u).
Proof.
  intros Ht Hu. cbn. unfold canonical_payload, snapshot_fields, time_text_fields. cbn.
  unfold nanos_or_zero, checked. by rewrite Ht, Hu.
Qed.
