(* ===== verification/Coverage.v ===== *)
(** * Coverage declarations

    [crates/ficant-domain/src/research/coverage.rs]: what part of the imported positions a result is
    computed from, by count and by gross economic value per unit, and the price sources behind it. *)

From Stdlib Require Import ZArith Lia Strings.String.
From Stdlib Require Import Strings.Byte.
From stdpp Require Import base list option strings numbers sorting sets.
From S2P Require Import Prelude Machine Collections Primitives Codec Concrete Digits DecimalValue Exposure.
From S2P Require Import Position.
Open Scope Z_scope.

#[export] Instance UnitRef_ord : Ord UnitRef := fun a b =>
  cmp (unit_id a, version_get (unit_version a)) (unit_id b, version_get (unit_version b)).
#[export] Instance UnitRef_ord_laws : OrdLaws UnitRef.
Proof.
  apply (ord_laws_via (fun u => (unit_id u, version_get (unit_version u)))).
  - by intros [? []] [? []]; cbn; intros [= -> ->].
  - done.
Qed.

(** The capability that a snapshot was verified to be empty. *)
Record VerifiedEmptyPositionSnapshot := { empty_snapshot_hash : ContentHash }.

Record CoverageDeclaration := {
  imported_position_count : Z;
  participating_position_count : Z;
  imported_gross_economic_value_by_unit : list DecimalValue;
  participating_gross_economic_value_by_unit : list DecimalValue;
  missing_critical_field_record_count : Z;
  source_confidence : option PriceSourceSummary;
  distinct_external_data_source_version_count : Z
}.

Definition for_verified_empty (_verified : VerifiedEmptyPositionSnapshot) : CoverageDeclaration := {|
  imported_position_count := 0;
  participating_position_count := 0;
  imported_gross_economic_value_by_unit := [];
  participating_gross_economic_value_by_unit := [];
  missing_critical_field_record_count := 0;
  source_confidence := None;
  distinct_external_data_source_version_count := 0
|}.

Definition is_curve (t : PriceSourceType) : bool :=
  match t with CurveInterpolation => true | _ => false end.

(** The records that do not come from curve interpolation. *)
Definition external_records (summary : PriceSourceSummary) : DomainResult Z :=
  try_fold (fun total count => ok_or (u64_checked_add total (record_count count)) InvalidValue) 0
    (List.filter (fun count => negb (is_curve (source_type count))) (counts summary)).

Definition validate_source_confidence (source_confidence : option PriceSourceSummary)
    (distinct_external_data_source_version_count : Z) : DomainResult unit :=
  match source_confidence with
  | None => fail_if (negb (distinct_external_data_source_version_count =? 0)) InvalidValue
  | Some summary =>
      external_record_count ← external_records summary;
      if external_record_count =? 0
      then fail_if (negb (distinct_external_data_source_version_count =? 0)) InvalidValue
      else fail_if ((distinct_external_data_source_version_count =? 0)
                    || (external_record_count <? distinct_external_data_source_version_count)) InvalidValue
  end.

(** [i128::checked_abs]. *)
Definition i128_checked_abs (z : Z) : option Z := checked in_i128 (Z.abs z).

Definition gross (value : DecimalValue) : DomainResult DecimalValue :=
  parsed ← ok_or (parse_i128 (coefficient value)) InvalidValue;
  coefficient ← ok_or (i128_checked_abs parsed) InvalidValue;
  decimal_value_new (to_string coefficient) (scale value) (value_unit value).

Section coverage.
Context `{RustDecimal}.

(** One position of the aggregation loop. *)
Definition add_gross (totals : BTreeMap UnitRef DecimalValue) (position : Position)
    : DomainResult (BTreeMap UnitRef DecimalValue) :=
  value ← gross (economic_value position);
  match btree_get (value_unit value) totals with
  | Some total =>
      sum ← decimal_value_checked_add total value;
      Ok (btree_insert (value_unit value) sum totals)
  | None => Ok (btree_insert (value_unit value) value totals)
  end.

Definition aggregate_gross (positions : list Position) : DomainResult (list DecimalValue) :=
  totals ← try_fold add_gross [] positions;
  if bool_decide (totals = []) then Err InvalidValue else Ok (btree_values totals).

(** A participating total is compared with the imported total of its unit. *)
Definition check_participating (imported : list DecimalValue) (participating_value : DecimalValue)
    : DomainResult unit :=
  imported_value ← ok_or (find (fun value =>
    bool_decide (value_unit value = value_unit participating_value)) imported) InvalidUnit;
  ordering ← decimal_value_compare participating_value imported_value;
  fail_if (match ordering with Gt => true | _ => false end) InvalidValue.

Definition for_complete_positions (imported : list Position) (participating_position_ids : list Ulid)
    (source_confidence : option PriceSourceSummary)
    (distinct_external_data_source_version_count : Z) : DomainResult CoverageDeclaration :=
  if bool_decide (imported = []) || bool_decide (participating_position_ids = [])
     || windows2_any geb participating_position_ids
  then Err InvalidValue else
  let participating_ids := bset_collect participating_position_ids in
  let participating :=
    List.filter (fun position => bset_contains (position_id position) participating_ids) imported in
  if negb (List.length participating =? List.length participating_position_ids)%nat
  then Err InvalidValue else
  _ ← validate_source_confidence source_confidence distinct_external_data_source_version_count;
  imported_position_count ← ok_or (u64_try_from (Z.of_nat (List.length imported))) InvalidValue;
  participating_position_count ←
    ok_or (u64_try_from (Z.of_nat (List.length participating))) InvalidValue;
  imported_gross ← aggregate_gross imported;
  participating_gross ← aggregate_gross participating;
  _ ← try_fold (fun _ value => check_participating imported_gross value) tt participating_gross;
  Ok {| imported_position_count := imported_position_count;
        participating_position_count := participating_position_count;
        imported_gross_economic_value_by_unit := imported_gross;
        participating_gross_economic_value_by_unit := participating_gross;
        missing_critical_field_record_count := 0;
        source_confidence := source_confidence;
        distinct_external_data_source_version_count := distinct_external_data_source_version_count |}.
End coverage.

(** ** Canonical bytes *)

Definition total_fields (v : DecimalValue) : list (list byte) :=
  [as_bytes (coefficient v); to_be_bytes 4 (scale v)] ++ unit_fields (value_unit v).

Definition source_fields (source_confidence : option PriceSourceSummary) : list (list byte) :=
  match source_confidence with
  | Some summary =>
      [byte_of_Z 1] ::
      flat_map (fun count => [[byte_of_Z (price_source_type_code (source_type count))];
                              to_be_bytes 8 (record_count count)]) (counts summary)
      ++ [[byte_of_Z (if mixed summary then 1 else 0)]]
  | None => [[byte_of_Z 0]]
  end.

Definition coverage_fields (self : CoverageDeclaration) : list (list byte) :=
  [to_be_bytes 8 (imported_position_count self); to_be_bytes 8 (participating_position_count self)]
  ++ flat_map total_fields (imported_gross_economic_value_by_unit self)
  ++ flat_map total_fields (participating_gross_economic_value_by_unit self)
  ++ [to_be_bytes 8 (missing_critical_field_record_count self)]
  ++ source_fields (source_confidence self)
  ++ [to_be_bytes 8 (distinct_external_data_source_version_count self)].

Definition coverage_canonical_bytes (self : CoverageDeclaration) : list byte :=
  framed (coverage_fields self).

(** ** Gross totals *)

Lemma in_units_abs z s : s <= 28 -> in_units (Z.abs z) s = Z.abs (in_units z s).
Proof.
  intros Hs. unfold in_units. rewrite Z.abs_mul, (Z.abs_eq (10 ^ _)); [done|]. apply Z.pow_nonneg. lia.
Qed.

Lemma gross_exact d :
  wf_decimal d -> exists g, gross d = Ok g /\ wf_decimal g /\ value_unit g = value_unit d
    /\ value g = Z.abs (value d) /\ scale g <= scale d.
Proof.
  intros Hd. destruct (wf_as_decimal d Hd) as (m & Pm & Bm & [_ Sm] & Vm).
  unfold gross, i128_checked_abs, checked. rewrite Pm. cbn [ok_or mbind Result_bind].
  rewrite (small_in_i128 _ 28) by lia. cbn [ok_or mbind Result_bind].
  destruct (decimal_value_new_total (Z.abs m) (scale d) (value_unit d) ltac:(lia) Sm) as [g Eg].
  exists g. split; [done|].
  destruct (decimal_value_new_Ok _ _ _ _ (proj1 Sm) Eg) as (z & Pz & _ & Vg & Ug & Sg & Wg).
  rewrite parse_to_string_small in Pz by lia. injection Pz as <-.
  split; [done|]. split; [done|]. split; [|lia]. by rewrite Vg, Vm, in_units_abs by lia.
Qed.

Definition economic_unit (p : Position) : UnitRef := value_unit (economic_value p).
Definition gross_of (p : Position) : Z := Z.abs (value (economic_value p)).

(** The reference total: the sum of the absolute economic values in a unit. *)
Fixpoint unit_gross (u : UnitRef) (ps : list Position) : Z :=
  match ps with
  | [] => 0
  | p :: ps => (if bool_decide (economic_unit p = u) then gross_of p else 0) + unit_gross u ps
  end.

Fixpoint total_gross (ps : list Position) : Z :=
  match ps with [] => 0 | p :: ps => gross_of p + total_gross ps end.

(** The values have at most [s] decimal places and their absolute values sum to a 28-digit number at
    that scale. *)
Record gross_fits (s : Z) (ps : list Position) : Prop := {
  fits_scale : 0 <= s <= 28;
  fits_values : Forall (fun p => wf_decimal (economic_value p) /\ scale (economic_value p) <= s) ps;
  fits_total : total_gross ps < 10 ^ 28 * 10 ^ (28 - s)
}.

Lemma gross_of_nonneg p : 0 <= gross_of p.
Proof. apply Z.abs_nonneg. Qed.

Lemma unit_gross_app u l m : unit_gross u (l ++ m) = unit_gross u l + unit_gross u m.
Proof. induction l as [|p l IH]; cbn; lia. Qed.

Lemma total_gross_app l m : total_gross (l ++ m) = total_gross l + total_gross m.
Proof. induction l as [|p l IH]; cbn; lia. Qed.

Lemma total_gross_nonneg l : 0 <= total_gross l.
Proof. induction l as [|p l IH]; cbn; [lia|]. pose proof (gross_of_nonneg p). lia. Qed.

Lemma unit_gross_range u l : 0 <= unit_gross u l <= total_gross l.
Proof.
  induction l as [|p l IH]; cbn; [lia|]. pose proof (gross_of_nonneg p). case_bool_decide; lia.
Qed.

Lemma unit_gross_none u l : u ∉ economic_unit <$> l -> unit_gross u l = 0.
Proof.
  induction l as [|p l IH]; cbn; [done|]. rewrite not_elem_of_cons. intros [Hu Hl].
  rewrite bool_decide_eq_false_2 by congruence. rewrite IH by done. lia.
Qed.

Lemma unit_gross_filter u f l : unit_gross u (List.filter f l) <= unit_gross u l.
Proof.
  induction l as [|p l IH]; cbn; [lia|]. pose proof (gross_of_nonneg p).
  destruct (f p); cbn; case_bool_decide; lia.
Qed.

Lemma total_gross_filter f l : total_gross (List.filter f l) <= total_gross l.
Proof.
  induction l as [|p l IH]; cbn; [lia|]. pose proof (gross_of_nonneg p). destruct (f p); cbn; lia.
Qed.

Lemma gross_fits_filter s f l : gross_fits s l -> gross_fits s (List.filter f l).
Proof.
  intros [Hs Hv Ht]. split; [done| |pose proof (total_gross_filter f l); lia].
  rewrite Forall_forall in *. intros p Hp. apply Hv. apply list_elem_of_In, filter_In in Hp as [Hp _].
  by apply list_elem_of_In.
Qed.

(** Non-negative values whose sum is small enough add exactly. *)
Lemma value_aligned d t : wf_decimal d -> scale d <= t <= 28 -> value d = aligned d t * 10 ^ (28 - t).
Proof.
  intros Hd Ht. destruct (wf_as_decimal d Hd) as (m & Pm & _ & _ & ->). unfold aligned, in_units.
  rewrite Pm. cbn [from_option id]. rewrite <- Z.mul_assoc, <- Z.pow_add_r by lia. do 2 f_equal. lia.
Qed.

Lemma add_fits_small a b s :
  wf_decimal a -> wf_decimal b -> scale a <= s <= 28 -> scale b <= s -> 0 <= value a -> 0 <= value b ->
  value a + value b < 10 ^ 28 * 10 ^ (28 - s) -> add_fits a b.
Proof.
  intros Wa Wb Sa Sb Va Vb Hsum. unfold add_fits. set (t := Z.max (scale a) (scale b)). cbv zeta.
  assert (Ht : 0 < 10 ^ (28 - t)) by (apply Z.pow_pos_nonneg; lia).
  rewrite (value_aligned a t) in Va, Hsum by (done || lia).
  rewrite (value_aligned b t) in Vb, Hsum by (done || lia).
  pose proof (Z.pow_le_mono_r 10 (28 - s) (28 - t) ltac:(lia) ltac:(lia)) as Hp.
  assert (H28 : 10 ^ 28 < 2 ^ 96) by reflexivity.
  assert (Hlt : aligned a t + aligned b t < 10 ^ 28) by nia.
  assert (0 <= aligned a t) by nia. assert (0 <= aligned b t) by nia. lia.
Qed.

(** The totals after some positions: one exact total for each unit that occurs. *)
Record totals_inv (s : Z) (ps : list Position) (m : BTreeMap UnitRef DecimalValue) : Prop := {
  totals_wf : btree_wf m;
  totals_value u d : btree_get u m = Some d ->
    wf_decimal d /\ value_unit d = u /\ scale d <= s /\ value d = unit_gross u ps;
  totals_units u : (exists d, btree_get u m = Some d) <-> u ∈ economic_unit <$> ps
}.

Section totals.
Context `{RustDecimalLaws}.

Lemma add_gross_exact s ps m p :
  gross_fits s (ps ++ [p]) -> totals_inv s ps m ->
  exists m', add_gross m p = Ok m' /\ totals_inv s (ps ++ [p]) m'.
Proof.
  intros [Hs Hv Ht] [Mw Mv Mu]. apply Forall_app in Hv as [_ Hv]. inversion_clear Hv as [|? ? [Wp Sp] _].
  destruct (gross_exact (economic_value p) Wp) as (g & Eg & Wg & Ug & Vg & Sg).
  unfold add_gross. rewrite Eg. cbn [mbind Result_bind].
  change (value_unit (economic_value p)) with (economic_unit p) in Ug. rewrite Ug.
  set (u := economic_unit p) in *.
  assert (Hstep : exists d, (match btree_get u m with
      | Some total => sum ← decimal_value_checked_add total g; Ok (btree_insert u sum m)
      | None => Ok (btree_insert u g m) end) = Ok (btree_insert u d m)
    /\ wf_decimal d /\ value_unit d = u /\ scale d <= s /\ value d = unit_gross u (ps ++ [p])).
  { rewrite unit_gross_app. cbn [unit_gross]. rewrite bool_decide_eq_true_2 by done. rewrite Z.add_0_r.
    destruct (btree_get u m) as [t|] eqn:Et.
    - destruct (Mv u t Et) as (Wt & Ut & St & Vt).
      pose proof (unit_gross_range u ps) as Hr. rewrite total_gross_app in Ht. cbn [total_gross] in Ht.
      unfold gross_of in Ht |- *.
      destruct (checked_add_exact t g) as (r & Er & Wr & Ur & Sr & Vr); [done|done|congruence|..].
      { apply (add_fits_small t g s); lia || done. }
      exists r. rewrite Er. split; [done|]. split; [done|]. split; [congruence|]. split; lia.
    - exists g. split; [done|]. split; [done|]. split; [done|]. split; [lia|].
      rewrite unit_gross_none; [done|]. intros Hin. apply Mu in Hin as [? ?]. congruence. }
  destruct Hstep as (d & -> & Wd & Ud & Sd & Vd). exists (btree_insert u d m). split; [done|]. split.
  - by apply btree_insert_wf.
  - intros u' d'. destruct (decide (u' = u)) as [->|Hne].
    + rewrite btree_get_insert_eq. intros [= <-]. done.
    + rewrite btree_get_insert_ne by done. intros E. destruct (Mv u' d' E) as (? & ? & ? & ->).
      do 3 (split; [done|]). rewrite unit_gross_app. cbn [unit_gross].
      rewrite bool_decide_eq_false_2 by (intros E'; by apply Hne). lia.
  - intros u'. rewrite fmap_app, elem_of_app, <- Mu. cbn. rewrite list_elem_of_singleton.
    destruct (decide (u' = u)) as [->|Hne].
    + rewrite btree_get_insert_eq. split; [by right|by eexists].
    + rewrite btree_get_insert_ne by done. split; [by left|]. by intros [?|?].
Qed.

Lemma add_gross_all s ps qs m :
  gross_fits s (ps ++ qs) -> totals_inv s ps m ->
  exists m', try_fold add_gross m qs = Ok m' /\ totals_inv s (ps ++ qs) m'.
Proof.
  revert ps m. induction qs as [|p qs IH]; intros ps m Hf Hm; cbn [try_fold].
  - exists m. by rewrite app_nil_r.
  - rewrite cons_middle, (assoc_L (++)) in Hf |- *.
    destruct (add_gross_exact s ps m p) as (m1 & E1 & H1); [|done|].
    { destruct Hf as [? Hv Ht]. rewrite total_gross_app in Ht. pose proof (total_gross_nonneg qs).
      split; [done|by apply Forall_app in Hv as [? _]|lia]. }
    rewrite E1. cbn [mbind Result_bind]. by apply IH.
Qed.

Lemma totals_keys s ps m : totals_inv s ps m -> m.*1 = value_unit <$> btree_values m.
Proof.
  intros [Mw Mv _]. unfold btree_values.
  assert (Hu : Forall (fun kd => kd.1 = value_unit kd.2) m).
  { apply Forall_forall. intros [u d] Hin. apply btree_elem_get in Hin; [|done]. by destruct (Mv u d Hin) as (_ & <- & _). }
  clear Mw Mv. induction Hu as [|[u d] m E _ IH]; cbn in *; [done|]. by rewrite <- IH, <- E.
Qed.

(** What the totals of some positions are. *)
Record gross_totals (s : Z) (ps : list Position) (totals : list DecimalValue) : Prop := {
  gross_sorted : StronglySorted (fun a b => cmp a b = Lt) (value_unit <$> totals);
  gross_units u : u ∈ value_unit <$> totals <-> u ∈ economic_unit <$> ps;
  gross_values d : d ∈ totals -> wf_decimal d /\ scale d <= s /\ value d = unit_gross (value_unit d) ps
}.

Lemma aggregate_gross_exact s ps :
  ps <> [] -> gross_fits s ps -> exists totals, aggregate_gross ps = Ok totals /\ gross_totals s ps totals.
Proof.
  intros Hne Hf. destruct (add_gross_all s [] ps [] Hf) as (m & E & Hm).
  { split; [constructor|done|]. intros u. cbn. split; [by intros [? ?]|set_solver]. }
  cbn [app] in Hm. pose proof (totals_keys s ps m Hm) as Hk. destruct Hm as [Mw Mv Mu].
  exists (btree_values m). unfold aggregate_gross. rewrite E. cbn [mbind Result_bind]. split.
  - rewrite bool_decide_eq_false_2; [done|]. intros ->. destruct ps as [|p ps]; [done|].
    destruct (proj2 (Mu (economic_unit p))) as [? ?]; [cbn; by left|done].
  - split; rewrite <- ?Hk; [exact Mw| |].
    + intros u. rewrite <- Mu. split.
      * intros Hin. apply list_elem_of_fmap in Hin as ([u' d] & -> & Hin). exists d. by apply btree_elem_get.
      * intros [d Hd]. apply btree_get_elem in Hd. apply list_elem_of_fmap. by exists (u, d).
    + intros d Hin. apply list_elem_of_fmap in Hin as ([u d'] & -> & Hin). cbn.
      apply btree_elem_get in Hin; [|done]. by destruct (Mv u d' Hin) as (? & <- & ? & ?).
Qed.
End totals.

(** ** Participating positions *)

(** Adjacent elements in strict order make a strictly sorted list. *)
Lemma windows_geb_strict {K} `{OrdLaws K} (l : list K) : windows2_any geb l = false <-> bset_wf l.
Proof.
  rewrite windows2_any_false. setoid_rewrite geb_spec. setoid_rewrite negb_false_iff. setoid_rewrite ltb_spec.
  split.
  - intros Hw. apply Sorted_StronglySorted; [intros a b c; apply cmp_lt_trans|].
    induction l as [|x l IH]; [constructor|]. constructor.
    + apply IH. intros i a b Ha Hb. by apply (Hw (S i)).
    + destruct l as [|y l]; constructor. by apply (Hw 0%nat).
  - intros Hs i a b Ha Hb. revert i Ha Hb. induction Hs as [|x l Hs IH Hx]; intros [|i] Ha Hb; try done.
    + injection Ha as <-. rewrite Forall_forall in Hx. apply Hx. by apply (list_elem_of_lookup_2 _ 0%nat).
    + by apply (IH i).
Qed.

Definition participating_of (ids : list Ulid) (imported : list Position) : list Position :=
  List.filter (fun position => bset_contains (position_id position) (bset_collect ids)) imported.

Lemma elem_of_participating ids imported p :
  p ∈ participating_of ids imported <-> p ∈ imported /\ position_id p ∈ ids.
Proof.
  unfold participating_of. rewrite !list_elem_of_In, filter_In, bset_contains_spec, bset_collect_elem.
  by rewrite !list_elem_of_In.
Qed.

Lemma participating_NoDup ids imported :
  NoDup (position_id <$> imported) -> NoDup (position_id <$> participating_of ids imported).
Proof.
  unfold participating_of. induction imported as [|p ps IH]; cbn; [done|].
  inversion_clear 1 as [|? ? Hp Hps]. destruct (bset_contains _ _); [|by apply IH]. cbn. constructor; [|by apply IH].
  intros Hin. apply Hp. apply list_elem_of_fmap in Hin as (q & E & Hq). apply list_elem_of_fmap. exists q.
  split; [done|]. apply list_elem_of_In, filter_In in Hq as [Hq _]. by apply list_elem_of_In.
Qed.

Lemma participating_length ids imported :
  NoDup (position_id <$> imported) -> bset_wf ids ->
  List.length (participating_of ids imported) = List.length ids <->
  forall i, i ∈ ids -> i ∈ position_id <$> imported.
Proof.
  intros Hn Hids%strict_sorted_NoDup. pose proof (participating_NoDup ids imported Hn) as Hp.
  assert (Hsub : forall i, i ∈ position_id <$> participating_of ids imported <-> i ∈ position_id <$> imported /\ i ∈ ids).
  { intros i. rewrite !list_elem_of_fmap. setoid_rewrite elem_of_participating. naive_solver. }
  rewrite <- (length_fmap position_id). split.
  - intros Hlen i Hi.
    assert (Hperm : position_id <$> participating_of ids imported ≡ₚ ids).
    { apply submseteq_length_Permutation; [|lia]. apply NoDup_submseteq; [done|]. intros j Hj. by apply Hsub in Hj as [_ ?]. }
    rewrite <- Hperm in Hi. by apply Hsub in Hi as [? _].
  - intros Hall. apply Permutation_length, NoDup_Permutation; [done|done|]. intros i. rewrite Hsub. naive_solver.
Qed.

Section complete.
Context `{RustDecimalLaws}.

Lemma try_fold_checks {E A} (f : A -> Result E unit) l :
  (forall a, a ∈ l -> f a = Ok tt) -> try_fold (fun _ a => f a) tt l = Ok tt.
Proof.
  induction l as [|a l IH]; intros Hf; cbn; [done|]. rewrite Hf by by left. cbn. apply IH. set_solver.
Qed.

(** The totals of some of the positions never exceed the totals of all of them. *)
Lemma check_participating_passes s ids imported ti tp d :
  gross_totals s imported ti -> gross_totals s (participating_of ids imported) tp -> d ∈ tp ->
  check_participating ti d = Ok tt.
Proof.
  intros Ti Tp Hd. destruct (gross_values _ _ _ Tp d Hd) as (Wd & _ & Vd).
  assert (Hu : value_unit d ∈ value_unit <$> ti).
  { apply (gross_units _ _ _ Ti).
    assert (Hin : value_unit d ∈ value_unit <$> tp) by (apply list_elem_of_fmap; by exists d).
    apply (gross_units _ _ _ Tp), list_elem_of_fmap in Hin as (p & E & Hp).
    apply elem_of_participating in Hp as [Hp _]. apply list_elem_of_fmap. by exists p. }
  unfold check_participating. destruct (find _ ti) as [t|] eqn:Ef.
  - apply find_some in Ef as [Ht Eu]. apply bool_decide_eq_true in Eu. apply list_elem_of_In in Ht.
    destruct (gross_values _ _ _ Ti t Ht) as (Wt & _ & Vt). cbn [ok_or mbind Result_bind].
    rewrite compare_exact, decide_True by (done || congruence). cbn [mbind Result_bind].
    apply fail_if_Ok. destruct (Z.compare_spec (value d) (value t)); [done|done|].
    pose proof (unit_gross_filter (value_unit d)
      (fun position => bset_contains (position_id position) (bset_collect ids)) imported).
    unfold participating_of in Vd. rewrite Eu in Vt. lia.
  - apply list_elem_of_fmap in Hu as (t & Eu & Ht). apply list_elem_of_In in Ht.
    apply (find_none _ _ Ef) in Ht. by rewrite bool_decide_eq_false in Ht.
Qed.

Lemma for_complete_spec s imported ids confidence n d :
  gross_fits s imported -> NoDup (position_id <$> imported) -> Z.of_nat (List.length imported) < 2 ^ 64 ->
  for_complete_positions imported ids confidence n = Ok d <->
  imported <> [] /\ ids <> [] /\ bset_wf ids /\ (forall i, i ∈ ids -> i ∈ position_id <$> imported)
  /\ validate_source_confidence confidence n = Ok tt
  /\ exists ti tp, aggregate_gross imported = Ok ti /\ gross_totals s imported ti
     /\ aggregate_gross (participating_of ids imported) = Ok tp
     /\ gross_totals s (participating_of ids imported) tp
     /\ d = {| imported_position_count := Z.of_nat (List.length imported);
               participating_position_count := Z.of_nat (List.length ids);
               imported_gross_economic_value_by_unit := ti;
               participating_gross_economic_value_by_unit := tp;
               missing_critical_field_record_count := 0;
               source_confidence := confidence;
               distinct_external_data_source_version_count := n |}.
Proof.
  intros Hf Hn Hlen. unfold for_complete_positions. cbv zeta. fold (participating_of ids imported).
  case_bool_decide as Ei; [cbn; naive_solver|]. case_bool_decide as Ep; [cbn; naive_solver|]. cbn [orb].
  destruct (windows2_any geb ids) eqn:Ew.
  { split; [done|]. intros (_ & _ & Hs & _). apply windows_geb_strict in Hs. congruence. }
  pose proof Ew as Hw. rewrite windows_geb_strict in Hw. pose proof (participating_length ids imported Hn Hw) as Hpl.
  destruct (Nat.eqb_spec (List.length (participating_of ids imported)) (List.length ids)) as [El|El]; cbn [negb].
  2: { split; [done|]. intros (_ & _ & _ & Hall & _). by apply Hpl in Hall. }
  pose proof (proj1 Hpl El) as Hall. rewrite guard_Ok.
  assert (Hple : (List.length (participating_of ids imported) <= List.length imported)%nat)
    by apply filter_length_le.
  destruct (aggregate_gross_exact s imported Ei Hf) as (ti & Eti & Hti).
  assert (Hpne : participating_of ids imported <> []) by (intros E; rewrite E in El; by destruct ids).
  destruct (aggregate_gross_exact s (participating_of ids imported) Hpne) as (tp & Etp & Htp).
  { by apply gross_fits_filter. }
  unfold u64_try_from, checked.
  replace (in_u64 (Z.of_nat (List.length imported))) with true by (symmetry; ranges; lia).
  replace (in_u64 (Z.of_nat (List.length (participating_of ids imported)))) with true
    by (symmetry; ranges; lia).
  cbn [ok_or mbind Result_bind]. rewrite Eti, Etp. cbn [mbind Result_bind].
  rewrite try_fold_checks by (intros x Hx; by apply (check_participating_passes s ids imported ti tp)).
  cbn [mbind Result_bind]. rewrite El. split.
  - intros [Hc [= <-]]. do 5 (split; [done|]). by exists ti, tp.
  - intros (_ & _ & _ & _ & Hc & ti' & tp' & [= <-] & _ & [= <-] & _ & ->). done.
Qed.
End complete.

(** ** The canonical bytes determine the declaration *)

Definition wf_total `{UlidCrate} (d : DecimalValue) : Prop := wf_decimal d /\ wf_unit (value_unit d).

Definition wf_source_count (c : PriceSourceCount) : Prop := in_u64 (record_count c) = true.

(** The declarations of the two constructors: totals in the order of their units, those of the
    participating positions for units that are imported, and no critical omission. *)
Record valid_coverage `{UlidCrate} (c : CoverageDeclaration) : Prop := {
  valid_imported_count : in_u64 (imported_position_count c) = true;
  valid_participating_count : in_u64 (participating_position_count c) = true;
  valid_imported : Forall wf_total (imported_gross_economic_value_by_unit c);
  valid_participating : Forall wf_total (participating_gross_economic_value_by_unit c);
  valid_imported_order :
    StronglySorted (fun a b => cmp a b = Lt) (value_unit <$> imported_gross_economic_value_by_unit c);
  valid_participating_units u :
    u ∈ value_unit <$> participating_gross_economic_value_by_unit c ->
    u ∈ value_unit <$> imported_gross_economic_value_by_unit c;
  valid_participating_empty :
    participating_gross_economic_value_by_unit c = [] -> imported_gross_economic_value_by_unit c = [];
  valid_missing : missing_critical_field_record_count c = 0;
  valid_sources : from_option (fun s => Forall wf_source_count (counts s)) True (source_confidence c);
  valid_versions : in_u64 (distinct_external_data_source_version_count c) = true
}.

Lemma wf_decimal_text d :
  wf_decimal d -> exists b l, as_bytes (coefficient d) = b :: l /\ b <> x00 /\ (List.length l <= 28)%nat.
Proof.
  intros (n & l & E & Hd & Hne & Hlen & _). rewrite E. unfold signed_text. rewrite as_bytes_of_bytes.
  destruct n; [by exists MINUS, l; repeat split; [|lia]|]. destruct l as [|b l]; [done|].
  exists b, l. cbn in Hd, Hlen. apply andb_true_iff in Hd as [Hb _]. split; [done|]. split; [by intros ->|lia].
Qed.

Lemma wf_decimal_amount d : wf_decimal d -> wf_str (coefficient d) /\ in_u32 (scale d) = true.
Proof.
  intros Hd. destruct (wf_decimal_text d Hd) as (b & l & E & _ & Hlen).
  destruct Hd as (_ & _ & _ & _ & _ & _ & Hs & _). split; [|ranges; lia].
  unfold wf_str, str_len. rewrite <- length_as_bytes, E. cbn. lia.
Qed.

Section bytes.
Context `{UlidCrate} `{ChronoLaws} `{!ChronoShort}.

Lemma total_fields_inj v w : wf_total v -> wf_total w -> total_fields v = total_fields w -> v = w.
Proof.
  intros [Wv Uv] [Ww Uw] E. destruct (wf_decimal_amount v Wv) as [_ Sv], (wf_decimal_amount w Ww) as [_ Sw].
  unfold total_fields in E. apply (app_inj_1 [_; _] [_; _]) in E as [E0 E]; [|done]. inj_fields.
  apply u32_be_inj in F0; [|done..].
  destruct v, w; cbn in *; congruence.
Qed.

(** The text of a total is not the zero count that follows the totals. *)
Lemma total_not_missing v r s : wf_total v -> total_fields v ++ r <> to_be_bytes 8 0 :: s.
Proof.
  intros [Wv _] E. destruct (wf_decimal_text v Wv) as (b & l & Eb & Hb & _).
  unfold total_fields in E. cbn [app] in E. rewrite Eb in E. injection E as E _. done.
Qed.

(** Totals of imported and participating positions, one after the other, are told apart by the order
    of their units: the first participating unit is among the imported ones. *)
Lemma totals_boundary (l m l' m' : list DecimalValue) :
  (forall u, u ∈ value_unit <$> m -> u ∈ value_unit <$> l) -> (m = [] -> l = []) ->
  StronglySorted (fun a b : UnitRef => cmp a b = Lt) (value_unit <$> l') ->
  l ++ m = l' ++ m' -> (List.length l' <= List.length l)%nat.
Proof.
  intros Hu Hm Hs E. destruct (Nat.le_gt_cases (List.length l') (List.length l)) as [|Hlt]; [done|]. exfalso.
  assert (Ex : exists x xs, l' = l ++ x :: xs /\ m = x :: xs ++ m').
  { apply (f_equal (drop (List.length l))) in E as Ed. apply (f_equal (take (List.length l))) in E as Et.
    rewrite take_app_length, take_app_le in Et by lia. rewrite drop_app_length, drop_app_le in Ed by lia.
    destruct (drop (List.length l) l') as [|x xs] eqn:Edl.
    - apply (f_equal (@List.length _)) in Edl. rewrite length_drop in Edl. cbn in Edl. lia.
    - exists x, xs. split; [|done]. rewrite <- (take_drop (List.length l) l'), <- Et. by rewrite Edl. }
  destruct Ex as (x & xs & -> & ->). rewrite fmap_app in Hs.
  assert (Hx : value_unit x ∈ value_unit <$> l) by (apply Hu; cbn; by left).
  apply (cmp_lt_irrefl (value_unit x)).
  apply (StronglySorted_app_1_elem_of _ _ _ _ _ Hs Hx). cbn. by left.
Qed.

Lemma totals_split (c d : CoverageDeclaration) r s :
  valid_coverage c -> valid_coverage d ->
  flat_map total_fields (imported_gross_economic_value_by_unit c)
    ++ flat_map total_fields (participating_gross_economic_value_by_unit c) ++ to_be_bytes 8 0 :: r
  = flat_map total_fields (imported_gross_economic_value_by_unit d)
    ++ flat_map total_fields (participating_gross_economic_value_by_unit d) ++ to_be_bytes 8 0 :: s ->
  imported_gross_economic_value_by_unit c = imported_gross_economic_value_by_unit d
  /\ participating_gross_economic_value_by_unit c = participating_gross_economic_value_by_unit d /\ r = s.
Proof.
  intros Vc Vd. rewrite !(assoc_L (++)), <- !flat_map_app.
  set (l := imported_gross_economic_value_by_unit c ++ _). set (m := imported_gross_economic_value_by_unit d ++ _).
  assert (Wl : Forall wf_total l) by (apply Forall_app_2; apply Vc).
  assert (Wm : Forall wf_total m) by (apply Forall_app_2; apply Vd).
  intros E. assert (Hlm : l = m /\ r = s).
  { clearbody l m. assert (Hcons : forall x xs, flat_map total_fields (x :: xs)
      = total_fields x ++ flat_map total_fields xs) by done.
    revert m Wm E. induction Wl as [|x l Hx Wl IH]; intros [|y m] Wm E; rewrite ?Hcons, <- ?(assoc_L (++)) in E.
    - by injection E as ->.
    - inversion_clear Wm as [|? ? Hy Wm']. symmetry in E. by apply total_not_missing in E.
    - by apply total_not_missing in E.
    - inversion_clear Wm as [|? ? Hy Wm'].
      apply app_inj_1 in E as [Exy E]; [|done]. apply total_fields_inj in Exy as ->; [|done..].
      by destruct (IH m Wm' E) as [-> ->]. }
  destruct Hlm as [Elm ->]. unfold l, m in Elm.
  pose proof (totals_boundary _ _ _ _ (valid_participating_units _ Vc) (valid_participating_empty _ Vc)
    (valid_imported_order _ Vd) Elm) as L1.
  pose proof (totals_boundary _ _ _ _ (valid_participating_units _ Vd) (valid_participating_empty _ Vd)
    (valid_imported_order _ Vc) (eq_sym Elm)) as L2.
  apply app_inj_1 in Elm as [? ?]; [done|lia].
Qed.

Lemma source_fields_inj p q m n :
  from_option (fun s => Forall wf_source_count (counts s)) True p ->
  from_option (fun s => Forall wf_source_count (counts s)) True q ->
  in_u64 m = true -> in_u64 n = true ->
  source_fields p ++ [to_be_bytes 8 m] = source_fields q ++ [to_be_bytes 8 n] -> p = q /\ m = n.
Proof.
  intros Wp Wq Wm Wn E. unfold source_fields in E. destruct p as [p|], q as [q|]; cbn [from_option] in Wp, Wq.
  - cbn [app] in E. apply field_cons_inj in E as [_ E]. rewrite <- !(assoc_L (++)) in E.
    apply app_inj_2 in E as [E1 E2]; [|done]. cbn [app] in E2.
    apply field_cons_inj in E2 as [_ E2]. apply field_cons_inj in E2 as [E2 _].
    apply u64_be_inj in E2 as ->; [|done..].
    apply (flat_map_fields_inj wf_source_count _ 2) in E1; [|lia|done| |done|done].
    + destruct p, q. cbn in E1. by subst.
    + intros a b Wa Wb E. apply field_cons_inj in E as [E3 E]. apply field_cons_inj in E as [E4 _].
      apply u64_be_inj in E4; [|done..]. destruct a as [[] ?], b as [[] ?]; cbn in E4; subst; first [discriminate E3|done].
  - cbn [app] in E. apply field_cons_inj in E as [E _]. discriminate E.
  - cbn [app] in E. apply field_cons_inj in E as [E _]. discriminate E.
  - cbn [app] in E. apply field_cons_inj in E as [_ E]. apply field_cons_inj in E as [E _].
    by apply u64_be_inj in E as ->.
Qed.

Lemma coverage_fields_inj c d :
  valid_coverage c -> valid_coverage d -> coverage_fields c = coverage_fields d -> c = d.
Proof.
  intros Vc Vd E. unfold coverage_fields in E.
  apply (app_inj_1 [_; _] [_; _]) in E as [E0 E]; [|done].
  rewrite (valid_missing _ Vc), (valid_missing _ Vd) in E. cbn [app] in E.
  apply totals_split in E as (E1 & E2 & E); [|done..].
  apply source_fields_inj in E as [E3 E4]; [|apply Vc|apply Vd|apply Vc|apply Vd].
  destruct Vc, Vd. inj_fields. destruct c, d; cbn in *; congruence.
Qed.

Lemma coverage_fields_short c : valid_coverage c -> Forall short (coverage_fields c).
Proof.
  intros V. assert (Ht : forall d, wf_total d -> Forall short (total_fields d)).
  { intros d [Wd Ud]. destruct (wf_decimal_amount d Wd) as [Hs _]. unfold total_fields.
    split_forall; [by apply short_str|apply short_be; lia|by apply short_unit]. }
  unfold coverage_fields. split_forall; try (apply short_be; lia).
  - apply (Forall_flat_map_short wf_total); [done|apply V].
  - apply (Forall_flat_map_short wf_total); [done|apply V].
  - unfold source_fields. destruct (source_confidence c) as [s|]; [|split_forall; apply short_byte].
    split_forall; [apply short_byte| |apply short_byte].
    apply (Forall_flat_map_short (fun _ => True)); [|by apply Forall_true].
    intros a _. split_forall; [apply short_byte|apply short_be; lia].
Qed.

Lemma coverage_bytes_inj c d :
  valid_coverage c -> valid_coverage d -> coverage_canonical_bytes c = coverage_canonical_bytes d -> c = d.
Proof.
  intros Vc Vd E. apply framed_inj in E; [|by apply coverage_fields_short..]. by apply coverage_fields_inj.
Qed.
End bytes.

Lemma for_complete_valid `{UlidCrate} `{RustDecimalLaws} s imported ids confidence n d :
  gross_fits s imported -> NoDup (position_id <$> imported) -> Z.of_nat (List.length imported) < 2 ^ 64 ->
  Forall (fun p => wf_unit (economic_unit p)) imported ->
  from_option (fun s => Forall wf_source_count (counts s)) True confidence -> in_u64 n = true ->
  for_complete_positions imported ids confidence n = Ok d -> valid_coverage d.
Proof.
  intros Hf Hn Hlen Hu Hc Hv E. apply (for_complete_spec s) in E; [|done..].
  destruct E as (Hi & Hids & Hw & Hsub & _ & ti & tp & _ & Ti & Etp & Tp & ->).
  assert (Hle : (List.length ids <= List.length imported)%nat).
  { rewrite <- (proj2 (participating_length ids imported Hn Hw) Hsub). apply filter_length_le. }
  assert (Hunits : forall ps ts, gross_totals s ps ts -> (forall p, p ∈ ps -> p ∈ imported) -> Forall wf_total ts).
  { intros ps ts T Hps. apply Forall_forall. intros t Ht. split; [by apply (gross_values _ _ _ T)|].
    assert (Hin : value_unit t ∈ value_unit <$> ts) by (apply list_elem_of_fmap; by exists t).
    apply (gross_units _ _ _ T), list_elem_of_fmap in Hin as (p & -> & Hp). rewrite Forall_forall in Hu. auto. }
  split; cbn; try done.
  - ranges. lia.
  - ranges. lia.
  - by apply (Hunits imported).
  - apply (Hunits _ _ Tp). intros p Hp. by apply elem_of_participating in Hp as [? _].
  - apply Ti.
  - intros u Hin. apply (gross_units _ _ _ Ti). apply (gross_units _ _ _ Tp), list_elem_of_fmap in Hin as (p & -> & Hp).
    apply elem_of_participating in Hp as [Hp _]. apply list_elem_of_fmap. by exists p.
  - intros ->. unfold aggregate_gross in Etp. apply bind_Ok in Etp as (m & Em & Etp).
    case_bool_decide as Hm; [discriminate Etp|]. injection Etp as Etp. by destruct m.
Qed.

(** ** Examples and properties *)

Definition sample_coverage (ids : list Ulid) : DomainResult CoverageDeclaration :=
  @for_complete_positions sample_decimal sample_positions ids None 0.

Example sample_coverage_totals :
  (fun c => (imported_position_count c, participating_position_count c,
     coefficient <$> imported_gross_economic_value_by_unit c,
     coefficient <$> participating_gross_economic_value_by_unit c))
    <$> sample_coverage [sample_id "A"; sample_id "C"]
  = Ok (3, 2, ["395"%string], ["29"%string])
  /\ sample_coverage [sample_id "C"; sample_id "A"] = Err InvalidValue
  /\ sample_coverage [sample_id "A"; sample_id "E"] = Err InvalidValue.
Proof. vm_compute. repeat split. Qed.

Lemma sample_gross_fits : gross_fits 2 sample_positions.
Proof.
  split; [lia| |vm_compute; reflexivity].
  unfold sample_positions. split_forall; (split; [by apply sample_value_wf|vm_compute; discriminate]).
Qed.

Lemma sample_positions_nodup : NoDup (position_id <$> sample_positions).
Proof.
  change (position_id <$> sample_positions) with (sample_id <$> ["A"; "B"; "C"]).
  repeat (apply NoDup_cons; split; [rewrite ?not_elem_of_cons; repeat split; try (intros H; discriminate H); apply not_elem_of_nil|]).
  apply NoDup_nil_2.
Qed.

(** Gross totals are exact: when the economic values fit 28 digits together, aggregation succeeds
    with one total for each unit that occurs, in the order of the units, and the total of a unit is
    exactly the sum of the absolute economic values in that unit. *)
Theorem aggregate_gross_correct `{RustDecimalLaws} s ps :
  ps <> [] -> gross_fits s ps -> exists totals, aggregate_gross ps = Ok totals /\ gross_totals s ps totals.
Proof. apply aggregate_gross_exact. Qed.

Lemma aggregate_gross_correct_witness :
  exists totals, @aggregate_gross sample_decimal sample_positions = Ok totals
    /\ gross_totals 2 sample_positions totals.
Proof.
  apply (@aggregate_gross_correct sample_decimal sample_decimal_laws); [discriminate|exact sample_gross_fits].
Defined.

(** A complete declaration is made exactly for a non-empty subset: positions with distinct ids
    whose values fit together are declared when the participating ids are non-empty, strictly sorted
    and imported, and the source summary is consistent; the declaration then has the counts and the
    exact totals of both sets. The comparison of participating with imported totals never refuses. *)
Theorem for_complete_positions_correct `{RustDecimalLaws} s imported ids confidence n d :
  gross_fits s imported -> NoDup (position_id <$> imported) -> Z.of_nat (List.length imported) < 2 ^ 64 ->
  for_complete_positions imported ids confidence n = Ok d <->
  imported <> [] /\ ids <> [] /\ bset_wf ids /\ (forall i, i ∈ ids -> i ∈ position_id <$> imported)
  /\ validate_source_confidence confidence n = Ok tt
  /\ exists ti tp, aggregate_gross imported = Ok ti /\ gross_totals s imported ti
     /\ aggregate_gross (participating_of ids imported) = Ok tp
     /\ gross_totals s (participating_of ids imported) tp
     /\ d = {| imported_position_count := Z.of_nat (List.length imported);
               participating_position_count := Z.of_nat (List.length ids);
               imported_gross_economic_value_by_unit := ti;
               participating_gross_economic_value_by_unit := tp;
               missing_critical_field_record_count := 0;
               source_confidence := confidence;
               distinct_external_data_source_version_count := n |}.
Proof. apply for_complete_spec. Qed.

Lemma for_complete_positions_correct_witness :
  exists d, sample_coverage [sample_id "B"] = Ok d /\ participating_position_count d = 1.
Proof.
  destruct (sample_coverage [sample_id "B"]) as [d|e] eqn:E; [|vm_compute in E; discriminate E].
  exists d. split; [reflexivity|].
  destruct (proj1 (@for_complete_positions_correct sample_decimal sample_decimal_laws 2 sample_positions
    [sample_id "B"] None 0 d sample_gross_fits sample_positions_nodup eq_refl) E)
    as (_ & _ & _ & _ & _ & ti & tp & _ & _ & _ & _ & ->).
  reflexivity.
Defined.

(** Declarations are well formed: the declaration of an empty snapshot and every declaration made
    for positions with distinct ids and valid units whose values fit together are valid, that is, the
    counts fit 64 bits, the totals are normal values in the order of their units, participating units
    are imported, and no critical omission is recorded. *)
Theorem coverage_well_formed `{UlidCrate} `{RustDecimalLaws} v s imported ids confidence n d :
  gross_fits s imported -> NoDup (position_id <$> imported) -> Z.of_nat (List.length imported) < 2 ^ 64 ->
  Forall (fun p => wf_unit (economic_unit p)) imported ->
  from_option (fun s => Forall wf_source_count (counts s)) True confidence -> in_u64 n = true ->
  for_complete_positions imported ids confidence n = Ok d ->
  valid_coverage d /\ valid_coverage (for_verified_empty v).
Proof.
  intros Hf Hn Hlen Hu Hc Hv E. split; [exact (for_complete_valid s imported ids confidence n d Hf Hn Hlen Hu Hc Hv E)|].
  split; cbn; try done; constructor.
Qed.

Lemma coverage_well_formed_witness :
  exists d, sample_coverage [sample_id "A"; sample_id "C"] = Ok d /\ @valid_coverage sample_ulid_crate d.
Proof.
  destruct (sample_coverage [sample_id "A"; sample_id "C"]) as [d|e] eqn:E; [|vm_compute in E; discriminate E].
  exists d. split; [reflexivity|].
  apply (@coverage_well_formed sample_ulid_crate sample_decimal sample_decimal_laws
    {| empty_snapshot_hash := sample_hash x00 |} 2 sample_positions [sample_id "A"; sample_id "C"] None 0 d
    sample_gross_fits sample_positions_nodup eq_refl); [|exact I|reflexivity|exact E].
  assert (Hu : Forall (fun p => economic_unit p = sample_unit) sample_positions)
    by (unfold sample_positions; split_forall; vm_compute; reflexivity).
  eapply Forall_impl; [exact Hu|]. clear. intros p Ep. unfold wf_unit. rewrite Ep. by split.
Defined.

(** The canonical bytes of a coverage declaration determine it, although the totals of imported
    and participating positions are written one after the other without a separator: valid
    declarations with the same bytes are the same declaration. *)
Theorem coverage_bytes_identify `{UlidCrate} c d :
  valid_coverage c -> valid_coverage d -> coverage_canonical_bytes c = coverage_canonical_bytes d -> c = d.
Proof. apply coverage_bytes_inj. Qed.

Lemma coverage_bytes_identify_witness :
  for_verified_empty {| empty_snapshot_hash := sample_hash x00 |}
  = for_verified_empty {| empty_snapshot_hash := sample_hash x01 |}.
Proof.
  assert (V : forall v, @valid_coverage sample_ulid_crate (for_verified_empty v))
    by (intros v; split; cbn; try done; constructor).
  apply (@coverage_bytes_identify sample_ulid_crate); [apply V|apply V|reflexivity].
Defined.
