(* ===== verification/Amount.v ===== *)
(** * Exact amounts of a replay

    The [Decimal] of the [rust_decimal] crate as the replay uses it, and [ReplayAmount] of
    [crates/ficant-domain/src/replay/mod.rs].

    The operators of [Decimal] are exact whenever the exact result is a decimal (a 96-bit coefficient
    with at most 28 decimal places); otherwise they round or panic. The laws say only the first part:
    an operation whose exact result [fits] gives it. Arithmetic is reasoned about through small
    expressions: [dexact e] says that the value of every operation in [e] fits, and then the decimal
    the code computes has the rational value of [e] ([deval_exact]). *)

From Stdlib Require Import ZArith Lia QArith Qabs Qminmax Lqa Strings.String.
From stdpp Require Import base list option strings numbers.
From S2P Require Import Prelude Machine Collections Primitives FixedDecimal Digits DecimalValue.
Open Scope Z_scope.

(** ** Arithmetic of [Decimal] *)

Class DecimalArith `{RustDecimal} : Type := {
  decimal_add : Decimal -> Decimal -> Decimal;
  decimal_sub : Decimal -> Decimal -> Decimal;
  decimal_mul : Decimal -> Decimal -> Decimal;
  decimal_div : Decimal -> Decimal -> Decimal;
  decimal_neg : Decimal -> Decimal;
  decimal_abs : Decimal -> Decimal;
  decimal_max : Decimal -> Decimal -> Decimal;
  decimal_min : Decimal -> Decimal -> Decimal;
  decimal_normalize : Decimal -> Decimal;
  is_sign_negative : Decimal -> bool;
  round_to_zero : Z -> Decimal -> Decimal;
  round_nearest_even : Z -> Decimal -> Decimal;
  decimal_parse : string -> option Decimal;
  decimal_to_string : Decimal -> string
}.

Declare Scope dec_scope.
Delimit Scope dec_scope with dec.
Infix "+" := decimal_add : dec_scope.
Infix "-" := decimal_sub : dec_scope.
Infix "*" := decimal_mul : dec_scope.
Infix "/" := decimal_div : dec_scope.
Notation "- x" := (decimal_neg x) : dec_scope.

Section constants.
Context `{DecimalArith}.

(** [Decimal::from] of an integer, and the constants of the crate. *)
Definition decimal_of_Z (z : Z) : Decimal := from_i128_with_scale z 0.
Definition ZERO_DECIMAL : Decimal := decimal_of_Z 0.
Definition ONE_DECIMAL : Decimal := decimal_of_Z 1.
Definition TWO_DECIMAL : Decimal := decimal_of_Z 2.
Definition ONE_HUNDRED : Decimal := decimal_of_Z 100.
Definition BASIS_POINTS : Decimal := decimal_of_Z 10000.

(** [PartialOrd] and [PartialEq] compare values. *)
Definition decimal_ltb (a b : Decimal) : bool := match decimal_cmp a b with Lt => true | _ => false end.
Definition decimal_leb (a b : Decimal) : bool := match decimal_cmp a b with Gt => false | _ => true end.
Definition decimal_eqb (a b : Decimal) : bool := match decimal_cmp a b with Eq => true | _ => false end.
Definition decimal_is_zero (a : Decimal) : bool := mantissa a =? 0.

(** [Iterator::sum]. *)
Definition decimal_sum (l : list Decimal) : Decimal := foldl decimal_add ZERO_DECIMAL l.

End constants.

(** ** [ReplayAmount]

    A newtype of [Decimal]; every constructor stores the normalised value. *)

Section amount.
Context `{DecimalArith}.

Definition ReplayAmount : Type := Decimal.

Definition from_decimal (value : Decimal) : ReplayAmount := decimal_normalize value.
Definition amount_zero : ReplayAmount := ZERO_DECIMAL.
Definition amount_parse (text : string) : DomainResult ReplayAmount :=
  match decimal_parse text with Some value => Ok (decimal_normalize value) | None => Err InvalidValue end.
Definition amount_is_zero (self : ReplayAmount) : bool := decimal_is_zero self.
Definition amount_plus (self other : ReplayAmount) : ReplayAmount := from_decimal (self + other)%dec.
Definition amount_minus (self other : ReplayAmount) : ReplayAmount := from_decimal (self - other)%dec.
Definition amount_abs (self : ReplayAmount) : ReplayAmount := decimal_abs self.
Definition amount_canonical (self : ReplayAmount) : string := decimal_to_string (decimal_normalize self).
Definition amount_from_fixed (value : FixedDecimal) : ReplayAmount :=
  from_decimal (from_i128_with_scale (scaled value) (Z.of_nat DECIMAL_SCALE)).
(** [ReplayAmount::of]: the coefficient of a validated value parses. *)
Definition amount_of (value : DecimalValue) : ReplayAmount := decimal_normalize (as_decimal value).

End amount.

(** ** Values and laws *)

Section values.
Context `{DecimalArith}.
Local Open Scope Q_scope.

(** The number a decimal stands for. *)
Definition dval (d : Decimal) : Q := Qmake (mantissa d) (Z.to_pos (10 ^ decimal_scale d)).

(** The rationals that are decimals: a 96-bit coefficient and at most 28 decimal places. *)
Definition fits (q : Q) : Prop :=
  exists m s, decimal_range m s /\ q == inject_Z m / inject_Z (10 ^ s).

End values.

Class DecimalArithLaws `{DecimalArith} : Prop := {
  dval_made m s : decimal_range m s -> (dval (from_i128_with_scale m s) == inject_Z m / inject_Z (10 ^ s))%Q;
  dval_add a b : fits (dval a + dval b) -> (dval (a + b)%dec == dval a + dval b)%Q;
  dval_sub a b : fits (dval a - dval b) -> (dval (a - b)%dec == dval a - dval b)%Q;
  dval_mul a b : fits (dval a * dval b) -> (dval (a * b)%dec == dval a * dval b)%Q;
  dval_div a b :
    ~ (dval b == 0)%Q -> fits (dval a / dval b) -> (dval (a / b)%dec == dval a / dval b)%Q;
  dval_neg a : (dval (- a)%dec == - dval a)%Q;
  dval_abs a : (dval (decimal_abs a) == Qabs (dval a))%Q;
  dval_max a b : (dval (decimal_max a b) == Qmax (dval a) (dval b))%Q;
  dval_min a b : (dval (decimal_min a b) == Qmin (dval a) (dval b))%Q;
  dval_normalize a : (dval (decimal_normalize a) == dval a)%Q;
  normalize_unique a b : (dval a == dval b)%Q -> decimal_normalize a = decimal_normalize b;
  dval_cmp a b : decimal_cmp a b = Qcompare (dval a) (dval b);
  dval_negative a : ~ (dval a == 0)%Q -> is_sign_negative a = true <-> (dval a < 0)%Q;
  (** Rounding toward zero keeps [n] decimal places and drops less than one unit of the last. *)
  dval_to_zero n a :
    0 <= n <= 28 -> (0 <= dval a)%Q ->
    (dval (round_to_zero n a) <= dval a < dval (round_to_zero n a) + 1 / inject_Z (10 ^ n))%Q /\
    exists k, (dval (round_to_zero n a) == inject_Z k / inject_Z (10 ^ n))%Q
}.

Section lemmas.
Context `{DecimalArithLaws}.
Local Open Scope Q_scope.

Lemma pow10_pos n : (0 <= n)%Z -> 0 < inject_Z (10 ^ n).
Proof. intros Hn. change 0 with (inject_Z 0). rewrite <- Zlt_Qlt. by apply Z.pow_pos_nonneg. Qed.

Lemma dval_of_Z z : (Z.abs z < 2 ^ 96)%Z -> dval (decimal_of_Z z) == inject_Z z.
Proof.
  intros Hz. unfold decimal_of_Z. rewrite dval_made by (split; [done|lia]).
  change (inject_Z (10 ^ 0)) with 1. field.
Qed.

Lemma dval_zero : dval ZERO_DECIMAL == 0.
Proof. apply (dval_of_Z 0). done. Qed.
Lemma dval_one : dval ONE_DECIMAL == 1.
Proof. apply (dval_of_Z 1). done. Qed.
Lemma dval_two : dval TWO_DECIMAL == 2.
Proof. apply (dval_of_Z 2). done. Qed.
Lemma dval_hundred : dval ONE_HUNDRED == 100.
Proof. apply (dval_of_Z 100). done. Qed.
Lemma dval_basis_points : dval BASIS_POINTS == 10000.
Proof. apply (dval_of_Z 10000). done. Qed.

Lemma decimal_is_zero_spec a : decimal_is_zero a = true <-> dval a == 0.
Proof.
  unfold decimal_is_zero, dval, Qeq. cbn. rewrite Z.eqb_eq. lia.
Qed.

Lemma decimal_is_zero_false a : decimal_is_zero a = false <-> ~ dval a == 0.
Proof. rewrite <- decimal_is_zero_spec. destruct (decimal_is_zero a); naive_solver. Qed.

Lemma decimal_ltb_spec a b : decimal_ltb a b = true <-> dval a < dval b.
Proof. unfold decimal_ltb. rewrite dval_cmp, Qlt_alt. destruct (_ ?= _); naive_solver. Qed.

Lemma decimal_ltb_false a b : decimal_ltb a b = false <-> dval b <= dval a.
Proof. rewrite <- not_true_iff_false, decimal_ltb_spec. split; [apply Qnot_lt_le|apply Qle_not_lt]. Qed.

Lemma decimal_leb_spec a b : decimal_leb a b = true <-> dval a <= dval b.
Proof. unfold decimal_leb. rewrite dval_cmp, Qle_alt. destruct (_ ?= _); naive_solver. Qed.

Lemma decimal_eqb_spec a b : decimal_eqb a b = true <-> dval a == dval b.
Proof. unfold decimal_eqb. rewrite dval_cmp, Qeq_alt. destruct (_ ?= _); naive_solver. Qed.

Lemma dval_from_decimal a : dval (from_decimal a) == dval a.
Proof. apply dval_normalize. Qed.

Lemma from_decimal_is_zero a : decimal_is_zero (from_decimal a) = decimal_is_zero a.
Proof.
  apply eq_true_iff_eq. rewrite !decimal_is_zero_spec. by rewrite dval_from_decimal.
Qed.

Lemma from_decimal_eq a b : dval a == dval b -> from_decimal a = from_decimal b.
Proof. apply normalize_unique. Qed.

#[global] Instance fits_proper : Proper (Qeq ==> iff) fits.
Proof.
  intros p q E. unfold fits. split; intros (m & s & Hr & Hq); exists m, s; (split; [done|]).
  - by rewrite <- E.
  - by rewrite E.
Qed.

(** *** Expressions *)

Inductive dexpr :=
| Dlit (d : Decimal)
| Dadd (a b : dexpr)
| Dsub (a b : dexpr)
| Dmul (a b : dexpr)
| Ddiv (a b : dexpr)
| Dneg (a : dexpr).

(** What the code computes. *)
Fixpoint deval (e : dexpr) : Decimal :=
  match e with
  | Dlit d => d
  | Dadd a b => (deval a + deval b)%dec
  | Dsub a b => (deval a - deval b)%dec
  | Dmul a b => (deval a * deval b)%dec
  | Ddiv a b => (deval a / deval b)%dec
  | Dneg a => (- deval a)%dec
  end.

(** The value it stands for. *)
Fixpoint dq (e : dexpr) : Q :=
  match e with
  | Dlit d => dval d
  | Dadd a b => dq a + dq b
  | Dsub a b => dq a - dq b
  | Dmul a b => dq a * dq b
  | Ddiv a b => dq a / dq b
  | Dneg a => - dq a
  end.

(** Every operation has a representable result. *)
Fixpoint dexact (e : dexpr) : Prop :=
  match e with
  | Dlit _ => True
  | Dadd a b | Dsub a b | Dmul a b => dexact a /\ dexact b /\ fits (dq e)
  | Ddiv a b => dexact a /\ dexact b /\ ~ dq b == 0 /\ fits (dq e)
  | Dneg a => dexact a
  end.

Lemma deval_exact e : dexact e -> dval (deval e) == dq e.
Proof.
  induction e as [d|a IHa b IHb|a IHa b IHb|a IHa b IHb|a IHa b IHb|a IHa]; cbn; intros He; [reflexivity|..].
  1-3: destruct He as (Ha & Hb & Hf); specialize (IHa Ha); specialize (IHb Hb).
  - rewrite dval_add; rewrite IHa, IHb; done.
  - rewrite dval_sub; rewrite IHa, IHb; done.
  - rewrite dval_mul; rewrite IHa, IHb; done.
  - destruct He as (Ha & Hb & Hz & Hf); specialize (IHa Ha); specialize (IHb Hb).
    rewrite dval_div; rewrite ?IHa, ?IHb; done.
  - rewrite dval_neg, IHa; done.
Qed.

(** *** Sums *)

Definition qsum (l : list Q) : Q := foldr Qplus 0 l.

(** Every partial sum of [foldl] from [acc] is representable. *)
Fixpoint sum_exact (acc : Q) (l : list Q) : Prop :=
  match l with [] => True | q :: l => fits (acc + q) /\ sum_exact (acc + q) l end.

#[global] Instance sum_exact_proper l : Proper (Qeq ==> iff) (fun acc => sum_exact acc l).
Proof.
  induction l as [|q l IH]; intros a b E; cbn; [done|].
  assert (E' : a + q == b + q) by (rewrite E; reflexivity). rewrite (fits_proper _ _ E').
  apply and_iff_compat_l. by apply IH.
Qed.

Lemma decimal_fold_exact acc l :
  sum_exact (dval acc) (dval <$> l) -> dval (foldl decimal_add acc l) == dval acc + qsum (dval <$> l).
Proof.
  revert acc. induction l as [|x l IH]; intros acc; cbn; intros Hs; [ring|].
  destruct Hs as [Hf Hs]. rewrite IH.
  - rewrite dval_add by done. unfold qsum. cbn. ring.
  - pose proof (sum_exact_proper (dval <$> l) _ _ (dval_add acc x Hf)) as Hp. by apply Hp.
Qed.

Lemma decimal_sum_exact l : sum_exact 0 (dval <$> l) -> dval (decimal_sum l) == qsum (dval <$> l).
Proof.
  intros Hs. unfold decimal_sum. rewrite decimal_fold_exact.
  - rewrite dval_zero. ring.
  - pose proof (sum_exact_proper (dval <$> l) _ _ dval_zero) as Hp. by apply Hp.
Qed.

(** A test for representable numbers of at most 12 decimal places. *)
Definition fitsb (q : Q) : bool :=
  ((Qnum q * 10 ^ 12) mod Zpos (Qden q) =? 0)%Z && (Z.abs ((Qnum q * 10 ^ 12) / Zpos (Qden q)) <? 2 ^ 96)%Z.

Lemma fitsb_sound q : fitsb q = true -> fits q.
Proof.
  unfold fitsb. rewrite andb_true_iff, Z.eqb_eq, Z.ltb_lt. intros [Hm Hb].
  exists ((Qnum q * 10 ^ 12) / Zpos (Qden q))%Z, 12%Z. split; [split; [done|lia]|].
  pose proof (Z.div_mod (Qnum q * 10 ^ 12) (Zpos (Qden q)) ltac:(done)) as E. rewrite Hm, Z.add_0_r in E.
  set (k := ((Qnum q * 10 ^ 12) / Zpos (Qden q))%Z) in *. change (10 ^ 12)%Z with 1000000000000%Z in *.
  unfold Qdiv, Qinv, Qmult, Qeq, inject_Z. cbn. lia.
Qed.

End lemmas.

Arguments dexpr {_}.
Arguments Dlit {_}.
Declare Scope dexpr_scope.
Delimit Scope dexpr_scope with dx.
Bind Scope dexpr_scope with dexpr.
Notation "$ d" := (Dlit d) (at level 1, format "$ d") : dexpr_scope.
Infix "+" := Dadd : dexpr_scope.
Infix "-" := Dsub : dexpr_scope.
Infix "*" := Dmul : dexpr_scope.
Infix "/" := Ddiv : dexpr_scope.
Notation "- e" := (Dneg e) : dexpr_scope.

(** ** An instance

    A coefficient with a scale that may grow without bound; it satisfies the laws of both classes. *)

Fixpoint strip_scale (m : Z) (s : nat) : Z * nat :=
  match s with
  | O => (m, O)
  | S s' => if m mod 10 =? 0 then strip_scale (m / 10) s' else (m, s)
  end.

Definition scaled_up (a : Z * nat) (s : nat) : Z := a.1 * 10 ^ Z.of_nat (s - a.2).

Definition sample_rust_decimal : RustDecimal := {|
  Decimal := Z * nat;
  from_i128_with_scale := fun m s => (m, Z.to_nat s);
  decimal_checked_add := fun a b =>
    let s := Nat.max a.2 b.2 in
    let sum := scaled_up a s + scaled_up b s in
    if Z.abs sum <? 2 ^ 96 then Some (sum, s) else None;
  mantissa := fst;
  decimal_scale := fun a => Z.of_nat a.2;
  decimal_cmp := fun a b => Z.compare (a.1 * 10 ^ Z.of_nat b.2) (b.1 * 10 ^ Z.of_nat a.2)
|}.

Definition sample_lt (a b : Z * nat) : bool := a.1 * 10 ^ Z.of_nat b.2 <? b.1 * 10 ^ Z.of_nat a.2.
Definition sample_plus (a b : Z * nat) : Z * nat :=
  let s := Nat.max a.2 b.2 in (scaled_up a s + scaled_up b s, s).
Definition sample_times (a b : Z * nat) : Z * nat := (a.1 * b.1, (a.2 + b.2)%nat).
(** Division keeps 28 decimal places. *)
Definition sample_over (a b : Z * nat) : Z * nat :=
  ((a.1 * 10 ^ Z.of_nat (28 + b.2)) / (b.1 * 10 ^ Z.of_nat a.2), 28%nat).
Definition sample_opp (a : Z * nat) : Z * nat := (- a.1, a.2).
Definition sample_to_zero (n : Z) (a : Z * nat) : Z * nat :=
  if Z.of_nat a.2 <=? n then a else (Z.quot a.1 (10 ^ (Z.of_nat a.2 - n)), Z.to_nat n).
Definition sample_to_even (n : Z) (a : Z * nat) : Z * nat :=
  if Z.of_nat a.2 <=? n then a else
  let unit := 10 ^ (Z.of_nat a.2 - n) in
  let q := a.1 / unit in
  let r := a.1 mod unit in
  (if (2 * r <? unit) || ((2 * r =? unit) && Z.even q) then q else q + 1, Z.to_nat n).

Definition sample_arith : @DecimalArith sample_rust_decimal :=
  @Build_DecimalArith sample_rust_decimal sample_plus (fun a b => sample_plus a (sample_opp b))
    sample_times sample_over sample_opp (fun a => (Z.abs a.1, a.2))
    (fun a b => if sample_lt a b then b else a) (fun a b => if sample_lt b a then b else a)
    (fun a => strip_scale a.1 a.2) (fun a => a.1 <? 0) sample_to_zero sample_to_even
    (fun s => (fun z => (z, 0%nat)) <$> parse_i128 s)
    (fun a => (to_string a.1 ++ "e-" ++ to_string (Z.of_nat a.2))%string).

Section sample.
Local Open Scope Q_scope.
Local Existing Instance sample_rust_decimal.
Local Existing Instance sample_arith.

Definition p10 (n : nat) : Q := inject_Z (10 ^ Z.of_nat n).

Lemma p10_pos n : 0 < p10 n.
Proof. apply pow10_pos. lia. Qed.
Lemma p10_nz n : ~ p10 n == 0.
Proof. pose proof (p10_pos n). lra. Qed.
Lemma p10_add n m : p10 (n + m) == p10 n * p10 m.
Proof. unfold p10. rewrite Nat2Z.inj_add, Z.pow_add_r, inject_Z_mult by lia. reflexivity. Qed.

Lemma sample_val (a : Z * nat) : dval a == inject_Z a.1 / p10 a.2.
Proof.
  unfold dval, p10. rewrite Qmake_Qdiv. cbn [mantissa decimal_scale sample_rust_decimal].
  rewrite Z2Pos.id by (apply Z.pow_pos_nonneg; lia). reflexivity.
Qed.

Lemma scaled_up_val (a : Z * nat) s : (a.2 <= s)%nat -> inject_Z (scaled_up a s) == dval a * p10 s.
Proof.
  intros Hs. rewrite sample_val. unfold scaled_up. rewrite inject_Z_mult. fold (p10 (s - a.2)).
  replace s with (a.2 + (s - a.2))%nat at 2 by lia. rewrite p10_add. field. apply p10_nz.
Qed.

Lemma sample_plus_val a b : dval (sample_plus a b) == dval a + dval b.
Proof.
  unfold sample_plus. rewrite sample_val. cbn [fst snd]. rewrite inject_Z_plus, !scaled_up_val by lia.
  field. apply p10_nz.
Qed.

Lemma sample_opp_val a : dval (sample_opp a) == - dval a.
Proof. rewrite !sample_val. cbn. rewrite inject_Z_opp. field. apply p10_nz. Qed.

Lemma sample_times_val a b : dval (sample_times a b) == dval a * dval b.
Proof. rewrite !sample_val. cbn. rewrite inject_Z_mult, p10_add. field. split; apply p10_nz. Qed.

(** The decimals are the multiples of the 28th place, up to size. *)
Lemma fits_multiple q : fits q -> exists k, q == inject_Z k / p10 28.
Proof.
  intros (m & s & [_ Hs] & E). exists (m * 10 ^ Z.of_nat (28 - Z.to_nat s))%Z. rewrite E, inject_Z_mult.
  fold (p10 (28 - Z.to_nat s)). replace (10 ^ s)%Z with (10 ^ Z.of_nat (Z.to_nat s))%Z by (f_equal; lia).
  fold (p10 (Z.to_nat s)). replace 28%nat with (Z.to_nat s + (28 - Z.to_nat s))%nat at 2 by lia.
  rewrite p10_add. field. split; apply p10_nz.
Qed.

Lemma inject_Z_eq x y : inject_Z x == inject_Z y -> x = y.
Proof. unfold Qeq. cbn. lia. Qed.

Lemma sample_over_val a b : ~ dval b == 0 -> fits (dval a / dval b) -> dval (sample_over a b) == dval a / dval b.
Proof.
  intros Hb (k & Hk)%fits_multiple. rewrite Hk, sample_val. cbn [fst snd sample_over].
  rewrite !sample_val in Hk. rewrite sample_val in Hb.
  assert (Hb1 : ~ inject_Z b.1 == 0) by (intros E; apply Hb; rewrite E; field; apply p10_nz).
  assert (E : (a.1 * 10 ^ Z.of_nat (28 + b.2) = k * (b.1 * 10 ^ Z.of_nat a.2))%Z).
  { apply inject_Z_eq. rewrite !inject_Z_mult. fold (p10 (28 + b.2)) (p10 a.2). rewrite p10_add.
    assert (Hc : inject_Z a.1 * p10 b.2 * p10 28 == inject_Z k * (inject_Z b.1 * p10 a.2)).
    { assert (inject_Z a.1 * p10 b.2 * p10 28 == (inject_Z a.1 / p10 a.2 / (inject_Z b.1 / p10 b.2)) * (inject_Z b.1 * p10 a.2 * p10 28)) as -> by (field; repeat split; try apply p10_nz; done).
      rewrite Hk. field. apply p10_nz. }
    rewrite <- Hc. ring. }
  rewrite E, Z.div_mul; [reflexivity|].
  assert (b.1 <> 0%Z) by (intros E0; apply Hb1; by rewrite E0).
  pose proof (Z.pow_pos_nonneg 10 (Z.of_nat a.2) ltac:(lia) ltac:(lia)). nia.
Qed.

Lemma sample_lt_val a b : sample_lt a b = true <-> dval a < dval b.
Proof.
  unfold sample_lt, dval, Qlt. cbn [Qnum Qden mantissa decimal_scale sample_rust_decimal].
  rewrite !Z2Pos.id by (apply Z.pow_pos_nonneg; lia). apply Z.ltb_lt.
Qed.

(** Stripping zeros keeps the value and ends in a coefficient that has none, or at scale 0. *)
Lemma strip_scale_val m s : dval (strip_scale m s) == dval (m, s).
Proof.
  revert m. induction s as [|s IH]; intros m; cbn [strip_scale]; [reflexivity|].
  destruct (Z.eqb_spec (m mod 10) 0) as [E|]; [|reflexivity].
  rewrite IH, !sample_val. cbn [fst snd]. pose proof (Z.div_mod m 10 ltac:(lia)) as Hm. rewrite E, Z.add_0_r in Hm.
  rewrite Hm at 2. rewrite inject_Z_mult. replace (S s) with (1 + s)%nat by lia. rewrite p10_add.
  change (p10 1) with (inject_Z 10). field. apply p10_nz.
Qed.

Lemma strip_scale_stop m s m' s' : strip_scale m s = (m', s') -> s' = 0%nat \/ (m' mod 10)%Z <> 0%Z.
Proof.
  revert m. induction s as [|s IH]; intros m; cbn [strip_scale]; [intros [= <- <-]; by left|].
  destruct (Z.eqb_spec (m mod 10) 0); [apply IH|]. intros [= <- <-]. by right.
Qed.

(** Equal values at two scales: the coefficient at the larger scale ends in a zero. *)
Lemma larger_scale_zero m s n t : (s < t)%nat -> dval (m, s) == dval (n, t) -> (n mod 10)%Z = 0%Z.
Proof.
  intros Hlt E. rewrite !sample_val in E. cbn [fst snd] in E.
  assert (En : inject_Z n == inject_Z m * p10 (t - s)).
  { assert (inject_Z n == inject_Z n / p10 t * p10 t) as -> by (field; apply p10_nz). rewrite <- E.
    replace t with (s + (t - s))%nat at 1 by lia. rewrite p10_add. field. apply p10_nz. }
  unfold p10 in En. rewrite <- inject_Z_mult in En. apply inject_Z_eq in En. rewrite En.
  replace (Z.of_nat (t - s)) with (Z.succ (Z.of_nat (t - s) - 1)) by lia. rewrite Z.pow_succ_r by lia.
  rewrite Z.mul_assoc, (Z.mul_comm m), <- Z.mul_assoc, Z.mul_comm. apply Z.mod_mul. lia.
Qed.

Lemma strip_scale_unique a b : dval a == dval b -> strip_scale a.1 a.2 = strip_scale b.1 b.2.
Proof.
  destruct a as [m s], b as [n t]. cbn [fst snd]. intros E.
  rewrite <- (strip_scale_val m s), <- (strip_scale_val n t) in E.
  destruct (strip_scale m s) as [m' s'] eqn:E1, (strip_scale n t) as [n' t'] eqn:E2.
  apply strip_scale_stop in E1, E2.
  destruct (Nat.lt_trichotomy s' t') as [Hlt|[->|Hlt]].
  - pose proof (larger_scale_zero _ _ _ _ Hlt E). destruct E2; [lia|done].
  - f_equal. rewrite !sample_val in E. cbn [fst snd] in E. apply inject_Z_eq.
    assert (inject_Z m' == inject_Z m' / p10 t' * p10 t') as -> by (field; apply p10_nz).
    rewrite E. field. apply p10_nz.
  - symmetry in E. pose proof (larger_scale_zero _ _ _ _ Hlt E). destruct E1; [lia|done].
Qed.

Lemma sample_to_zero_val n a :
  (0 <= n <= 28)%Z -> 0 <= dval a ->
  dval (sample_to_zero n a) <= dval a < dval (sample_to_zero n a) + 1 / inject_Z (10 ^ n)
  /\ exists k, dval (sample_to_zero n a) == inject_Z k / inject_Z (10 ^ n).
Proof.
  intros Hn Ha. replace n with (Z.of_nat (Z.to_nat n)) by lia. set (k := Z.to_nat n). fold (p10 k).
  destruct a as [m s]. unfold sample_to_zero. cbn [fst snd]. destruct (Z.leb_spec (Z.of_nat s) (Z.of_nat k)) as [Hs|Hs].
  - split; [split; [lra|]|].
    + assert (1 / p10 k == / p10 k) as -> by (field; apply p10_nz).
      pose proof (Qinv_lt_0_compat _ (p10_pos k)). lra.
    + exists (m * 10 ^ Z.of_nat (k - s))%Z. rewrite sample_val. cbn [fst snd]. rewrite inject_Z_mult. fold (p10 (k - s)).
      replace k with (s + (k - s))%nat at 2 by lia. rewrite p10_add. field. split; apply p10_nz.
  - rewrite Nat2Z.id. rewrite <- Nat2Z.inj_sub by lia. set (d := (s - k)%nat).
    assert (Hm : (0 <= m)%Z).
    { rewrite sample_val in Ha. cbn [fst snd] in Ha. apply Z.nlt_ge. intros Hneg.
      assert (Hlt : inject_Z m < 0) by (change 0 with (inject_Z 0); by rewrite <- Zlt_Qlt).
      assert (inject_Z m / p10 s * p10 s == inject_Z m) by (field; apply p10_nz).
      pose proof (Qmult_le_0_compat _ _ Ha (Qlt_le_weak _ _ (p10_pos s))). lra. }
    pose proof (Z.pow_pos_nonneg 10 (Z.of_nat d) ltac:(lia) ltac:(lia)) as Hd.
    rewrite Z.quot_div_nonneg by lia. set (q := (m / 10 ^ Z.of_nat d)%Z).
    pose proof (Z.div_mod m (10 ^ Z.of_nat d) ltac:(lia)) as Em. fold q in Em.
    pose proof (Z.mod_pos_bound m (10 ^ Z.of_nat d) Hd) as [R0 R1]. set (r := (m mod 10 ^ Z.of_nat d)%Z) in *.
    assert (Ev : dval (m, s) == inject_Z q / p10 k + inject_Z r / p10 s).
    { rewrite sample_val. cbn [fst snd]. rewrite Em, inject_Z_plus, inject_Z_mult. fold (p10 d).
      replace s with (k + d)%nat by lia. rewrite p10_add. field. split; apply p10_nz. }
    rewrite Ev. assert (dval (q, k) == inject_Z q / p10 k) as -> by apply (sample_val (q, k)). split; [|exists q; apply (sample_val (q, k))].
    assert (B0 : 0 <= inject_Z r / p10 s).
    { apply Qle_shift_div_l; [apply p10_pos|]. rewrite Qmult_0_l. change 0 with (inject_Z 0). by rewrite <- Zle_Qle. }
    assert (B1 : inject_Z r / p10 s < 1 / p10 k).
    { apply Qlt_shift_div_r; [apply p10_pos|]. replace s with (k + d)%nat by lia. rewrite p10_add.
      assert (1 / p10 k * (p10 k * p10 d) == p10 d) as -> by (field; apply p10_nz).
      unfold p10. by rewrite <- Zlt_Qlt. }
    split; lra.
Qed.

Lemma sample_arith_laws : @DecimalArithLaws sample_rust_decimal sample_arith.
Proof.
  split.
  - intros m s [_ Hs]. rewrite sample_val. cbn [fst snd from_i128_with_scale sample_rust_decimal].
    unfold p10. rewrite Z2Nat.id by lia. reflexivity.
  - intros a b _. apply sample_plus_val.
  - intros a b _. cbn. rewrite sample_plus_val, sample_opp_val. reflexivity.
  - intros a b _. apply sample_times_val.
  - intros a b. apply sample_over_val.
  - apply sample_opp_val.
  - intros [m s]. reflexivity.
  - intros a b. cbn. pose proof (sample_lt_val a b) as [L1 L2]. destruct (sample_lt a b).
    + specialize (L1 eq_refl). rewrite Q.max_r; [reflexivity|lra].
    + rewrite Q.max_l; [reflexivity|]. apply Qnot_lt_le. intros F. by specialize (L2 F).
  - intros a b. cbn. pose proof (sample_lt_val b a) as [L1 L2]. destruct (sample_lt b a).
    + specialize (L1 eq_refl). rewrite Q.min_r; [reflexivity|lra].
    + rewrite Q.min_l; [reflexivity|]. apply Qnot_lt_le. intros F. by specialize (L2 F).
  - intros [m s]. apply strip_scale_val.
  - apply strip_scale_unique.
  - intros a b. unfold dval, Qcompare. cbn [Qnum Qden mantissa decimal_scale sample_rust_decimal decimal_cmp].
    by rewrite !Z2Pos.id by (apply Z.pow_pos_nonneg; lia).
  - intros a _. unfold dval, Qlt. cbn. rewrite Z.ltb_lt. lia.
  - intros n a. apply sample_to_zero_val.
Qed.
End sample.
