(* ===== verification/Bar.v ===== *)
(** * Canonical bars

    [crates/ficant-domain/src/market/bar.rs]: one instrument, one settlement type and one frequency
    over one half-open interval of time. [bar_new] is [Bar::new]; local clock times and differences of
    instants come from [chrono] and are parameters. *)

From Stdlib Require Import ZArith Lia Strings.String.
From Stdlib Require Import Strings.Byte.
From stdpp Require Import base list option strings numbers.
From S2P Require Import Prelude Machine Collections Primitives Codec Concrete Digits DecimalValue.
Open Scope Z_scope.

Inductive BarFrequency := M1 | M5 | M15 | M30 | H1 | D1.

#[export] Instance BarFrequency_eq_dec : EqDecision BarFrequency.
Proof. solve_decision. Defined.

Definition all_frequencies : list BarFrequency := [M1; M5; M15; M30; H1; D1].

Definition frequency_code (self : BarFrequency) : string :=
  match self with
  | M1 => "M1" | M5 => "M5" | M15 => "M15" | M30 => "M30" | H1 => "H1" | D1 => "D1"
  end.

Definition frequency_from_code (code : string) : option BarFrequency :=
  find (fun value => bool_decide (frequency_code value = code)) all_frequencies.

(** Minutes of an intraday interval; [None] for the daily session bar. *)
Definition interval_minutes (self : BarFrequency) : option Z :=
  match self with
  | M1 => Some 1 | M5 => Some 5 | M15 => Some 15 | M30 => Some 30 | H1 => Some 60 | D1 => None
  end.

Inductive BarSettlement := T0 | T1 | Unspecified.

#[export] Instance BarSettlement_eq_dec : EqDecision BarSettlement.
Proof. solve_decision. Defined.

Definition all_settlements : list BarSettlement := [T0; T1; Unspecified].

Definition settlement_code (self : BarSettlement) : string :=
  match self with T0 => "T0" | T1 => "T1" | Unspecified => "UNSPECIFIED" end.

Definition settlement_from_code (code : string) : option BarSettlement :=
  find (fun value => bool_decide (settlement_code value = code)) all_settlements.

Inductive BarRuleViolation :=
| MisalignedInterval
| InconsistentOhlc
| NegativeVolume
| ObservedAfterVisible
| InvalidBarValue.

Abbreviation BarResult := (Result BarRuleViolation).

Record BarPrices := { open : DecimalValue; high : DecimalValue; low : DecimalValue; close : DecimalValue }.

Record BarInput := {
  source_record_id : string;
  instrument : VersionRef;
  frequency : BarFrequency;
  settlement : BarSettlement;
  bar_timezone : string;
  bar_trading_date : NaiveDate;
  bar_start : DateTime;
  bar_end : DateTime;
  visible_at : DateTime;
  prices : option BarPrices;
  volume : DecimalValue;
  turnover : option DecimalValue;
  trade_count : option Z;
  vwap : option DecimalValue;
  close_yield : option DecimalValue
}.

(** A bar is an input that [Bar::new] accepted. *)
Abbreviation Bar := BarInput.

#[export] Instance BarPrices_eq_dec : EqDecision BarPrices.
Proof. solve_decision. Defined.
#[export] Instance BarInput_eq_dec : EqDecision BarInput.
Proof. solve_decision. Defined.

(** Local clock times of an instant, and the nanoseconds from one instant to another. *)
Class ChronoClock `{Chrono} : Type := {
  local_hour : Tz -> DateTime -> Z;
  local_minute : Tz -> DateTime -> Z;
  local_second : Tz -> DateTime -> Z;
  local_nanosecond : Tz -> DateTime -> Z;
  nanos_between : DateTime -> DateTime -> Z
}.

(** [is_negative] and [is_zero] look at the text of the coefficient. *)
Definition is_negative (value : DecimalValue) : bool :=
  bool_decide (hd_error (as_bytes (coefficient value)) = Some MINUS).
Definition is_zero (value : DecimalValue) : bool := bool_decide (coefficient value = "0"%string).

Definition validate_interval `{ChronoClock} (input : BarInput) (timezone : Tz) : BarResult unit :=
  if geb (bar_start input) (bar_end input) then Err MisalignedInterval else
  if negb (bool_decide (tz_local_date timezone (bar_start input) = bar_trading_date input))
  then Err MisalignedInterval else
  match interval_minutes (frequency input) with
  | Some minutes =>
      let local_start := bar_start input in
      fail_if (negb (nanos_between (bar_start input) (bar_end input) =? minutes * 60 * 1000000000)
               || negb (local_second timezone local_start =? 0)
               || negb (local_nanosecond timezone local_start =? 0)
               || negb ((local_hour timezone local_start * 60 + local_minute timezone local_start)
                          mod minutes =? 0)) MisalignedInterval
  | None =>
      fail_if (negb (bool_decide (tz_local_date timezone (bar_end input) = bar_trading_date input)))
        MisalignedInterval
  end.

Definition validate_amounts (input : BarInput) : BarResult unit :=
  fail_if (is_negative (volume input) || from_option is_negative false (turnover input)) NegativeVolume.

Definition not_above `{RustDecimal} (lesser greater : DecimalValue) : BarResult bool :=
  ordering ← map_err (fun _ => InvalidBarValue) (decimal_value_compare lesser greater);
  Ok (match ordering with Gt => false | _ => true end).

(** [!not_above(a, b)? || ...]: the comparisons run left to right and stop at the first that fails. *)
Fixpoint all_not_above `{RustDecimal} (pairs : list (DecimalValue * DecimalValue)) : BarResult bool :=
  match pairs with
  | [] => Ok true
  | (lesser, greater) :: pairs =>
      holds ← not_above lesser greater;
      if holds : bool then all_not_above pairs else Ok false
  end.

Definition validate_prices `{RustDecimal} (prices : BarPrices) (input : BarInput) : BarResult unit :=
  let unit := value_unit (open prices) in
  let all := [open prices; high prices; low prices; close prices] in
  if existsb (fun value => negb (bool_decide (value_unit value = unit)) || is_negative value) all
     || from_option (fun vwap => negb (bool_decide (value_unit vwap = unit))) false (vwap input)
  then Err InconsistentOhlc else
  ordered ← all_not_above [(low prices, open prices); (low prices, close prices);
                           (open prices, high prices); (close prices, high prices)];
  _ ← fail_if (negb ordered) InconsistentOhlc;
  match vwap input with
  | Some vwap =>
      within ← all_not_above [(low prices, vwap); (vwap, high prices)];
      fail_if (negb within) InconsistentOhlc
  | None => Ok tt
  end.

Definition bar_new `{ChronoClock} `{RustDecimal} (input : BarInput) : BarResult Bar :=
  if blank_or_padded (source_record_id input) then Err InvalidBarValue else
  timezone ← ok_or (tz_parse (bar_timezone input)) InvalidBarValue;
  _ ← validate_interval input timezone;
  if ltb (visible_at input) (bar_end input) then Err ObservedAfterVisible else
  _ ← validate_amounts input;
  _ ← match prices input with
      | Some prices => validate_prices prices input
      | None => fail_if (negb (is_zero (volume input)) || bool_decide (is_Some (vwap input))
                         || bool_decide (is_Some (close_yield input))) InconsistentOhlc
      end;
  Ok input.

(** ** Codes *)

Lemma frequency_code_roundtrip f : frequency_from_code (frequency_code f) = Some f.
Proof. by destruct f. Qed.

Lemma settlement_code_roundtrip s : settlement_from_code (settlement_code s) = Some s.
Proof. by destruct s. Qed.

(** ** What the constructor accepts *)

(** The values of a bar come from [DecimalValue::new]. *)
Record wf_bar (b : BarInput) : Prop := {
  wf_volume : wf_decimal (volume b);
  wf_turnover : from_option wf_decimal True (turnover b);
  wf_prices : from_option (fun p => wf_decimal (open p) /\ wf_decimal (high p)
                                    /\ wf_decimal (low p) /\ wf_decimal (close p)) True (prices b);
  wf_vwap : from_option wf_decimal True (vwap b)
}.

(** The interval matches the frequency and lies on the grid of the local trading day. *)
Definition aligned_interval `{ChronoClock} (tz : Tz) (b : BarInput) : Prop :=
  cmp (bar_start b) (bar_end b) = Lt /\ tz_local_date tz (bar_start b) = bar_trading_date b
  /\ match interval_minutes (frequency b) with
     | Some minutes =>
         nanos_between (bar_start b) (bar_end b) = minutes * 60 * 1000000000
         /\ local_second tz (bar_start b) = 0 /\ local_nanosecond tz (bar_start b) = 0
         /\ (local_hour tz (bar_start b) * 60 + local_minute tz (bar_start b)) mod minutes = 0
     | None => tz_local_date tz (bar_end b) = bar_trading_date b
     end.

(** One unit, nothing negative, and low and high bound everything. *)
Definition consistent_prices (p : BarPrices) (vwap : option DecimalValue) : Prop :=
  let inside v := value_unit v = value_unit (open p) /\ value (low p) <= value v <= value (high p) in
  value_unit (high p) = value_unit (open p) /\ value_unit (low p) = value_unit (open p)
  /\ 0 <= value (low p) /\ inside (open p) /\ inside (close p) /\ from_option inside True vwap.

Record canonical_bar `{ChronoClock} (b : BarInput) : Prop := {
  canonical_record : blank_or_padded (source_record_id b) = false;
  canonical_interval : exists tz, tz_parse (bar_timezone b) = Some tz /\ aligned_interval tz b;
  canonical_visible : cmp (visible_at b) (bar_end b) <> Lt;
  canonical_volume : 0 <= value (volume b);
  canonical_turnover : from_option (fun t => 0 <= value t) True (turnover b);
  canonical_prices :
    match prices b with
    | Some p => consistent_prices p (vwap b)
    | None => value (volume b) = 0 /\ vwap b = None /\ close_yield b = None
    end
}.

Lemma hd_signed_text negative l :
  all_digits l = true -> l <> [] ->
  bool_decide (hd_error (as_bytes (signed_text negative l)) = Some MINUS) = negative.
Proof.
  intros Hd Hne. unfold signed_text. destruct l as [|b l]; [done|]. rewrite as_bytes_of_bytes.
  destruct negative; [by apply bool_decide_eq_true_2|]. apply bool_decide_eq_false_2. cbn.
  intros [= ->]. cbn in Hd. discriminate Hd.
Qed.

(** The sign and the zero test of a normal value read its text. *)
Lemma wf_decimal_sign d :
  wf_decimal d -> exists (negative : bool) (n : Z), value d = (if negative then - n else n) /\ 0 <= n
    /\ is_negative d = negative /\ (negative = true -> 0 < n) /\ (is_zero d = true <-> n = 0).
Proof.
  intros Hd. destruct (wf_decimal_parse d Hd) as (neg & l & Ec & Dl & Nl & _ & Hs & Hp & Hr & Hz).
  exists neg, (in_units (digits_val l) (scale d)). unfold value. rewrite Hp. cbn [from_option id].
  pose proof (Z.pow_pos_nonneg 10 (28 - scale d) ltac:(lia) ltac:(lia)) as Hpow.
  split; [unfold in_units; destruct neg; lia|]. split; [unfold in_units; nia|].
  split; [unfold is_negative; rewrite Ec; by apply hd_signed_text|].
  assert (Hpos : leading l -> 0 < digits_val l).
  { intros Hl. destruct (Z.eq_dec (digits_val l) 0) as [E|]; [|lia]. destruct Nl. by apply leading_zero. }
  split.
  - intros ->. destruct Hz as [[_ F]|[Hl _]]; [discriminate F|]. specialize (Hpos Hl). unfold in_units. nia.
  - unfold is_zero. rewrite bool_decide_eq_true, Ec. destruct Hz as [[-> ->]|[Hl _]]; [done|].
    specialize (Hpos Hl). split; [|unfold in_units; nia].
    intros E. exfalso. assert (Ep : parse_i128 (signed_text neg l) = Some 0) by (rewrite E; reflexivity).
    rewrite <- Ec, Hp in Ep. injection Ep. destruct neg; lia.
Qed.

Lemma is_negative_spec d : wf_decimal d -> is_negative d = true <-> value d < 0.
Proof.
  intros Hd. destruct (wf_decimal_sign d Hd) as (neg & n & -> & Hn & -> & Hneg & _).
  destruct neg; [specialize (Hneg eq_refl)|]; split; (done || lia).
Qed.

Lemma is_negative_false d : wf_decimal d -> is_negative d = false <-> 0 <= value d.
Proof. intros Hd. rewrite <- not_true_iff_false, is_negative_spec by done. lia. Qed.

Lemma is_zero_spec d : wf_decimal d -> is_zero d = true <-> value d = 0.
Proof.
  intros Hd. destruct (wf_decimal_sign d Hd) as (neg & n & -> & Hn & _ & _ & ->). destruct neg; lia.
Qed.


Section laws.
Context `{ChronoClock} `{RustDecimalLaws}.

Lemma validate_interval_Ok b tz u : validate_interval b tz = Ok u <-> aligned_interval tz b.
Proof.
  destruct u. unfold validate_interval, aligned_interval. rewrite geb_spec.
  pose proof (ltb_spec (bar_start b) (bar_end b)) as Hlt.
  destruct (ltb (bar_start b) (bar_end b)); cbn [negb]; [|naive_solver].
  case_bool_decide as Hd; cbn [negb]; [|naive_solver].
  destruct (interval_minutes (frequency b)) as [minutes|]; rewrite fail_if_Ok.
  - rewrite !orb_false_iff, !negb_false_iff, !Z.eqb_eq. naive_solver.
  - rewrite negb_false_iff, bool_decide_eq_true. naive_solver.
Qed.

Lemma validate_amounts_Ok b u :
  wf_bar b -> validate_amounts b = Ok u <->
  0 <= value (volume b) /\ from_option (fun t => 0 <= value t) True (turnover b).
Proof.
  intros [Wv Wt _ _]. unfold validate_amounts. rewrite fail_if_Ok, orb_false_iff, is_negative_false by done.
  destruct (turnover b) as [t|]; cbn in *; [by rewrite is_negative_false|naive_solver].
Qed.

Lemma all_not_above_same_unit u ps :
  Forall (fun ab => wf_decimal ab.1 /\ wf_decimal ab.2 /\ value_unit ab.1 = u /\ value_unit ab.2 = u) ps ->
  all_not_above ps = Ok (forallb (fun ab => value ab.1 <=? value ab.2) ps).
Proof.
  induction 1 as [|[a c] ps (Wa & Wc & Ua & Uc) _ IH]; cbn in *; [done|].
  unfold not_above. rewrite compare_exact by done. rewrite decide_True by congruence. cbn.
  unfold Z.leb. destruct (value a ?= value c); cbn; [apply IH|apply IH|done].
Qed.

Lemma validate_prices_Ok p b u :
  wf_bar b -> prices b = Some p -> validate_prices p b = Ok u <-> consistent_prices p (vwap b).
Proof.
  intros [_ _ Wp Wv] Hp. rewrite Hp in Wp. cbn in Wp. destruct Wp as (Wo & Wh & Wl & Wc), u.
  unfold validate_prices, consistent_prices. cbv zeta. destruct (existsb _ _ || _) eqn:E.
  - split; [done|]. intros (Uh & Ul & Nl & (_ & Bo) & (Uc & Bc) & Iv). exfalso. revert E.
    apply not_true_iff_false, orb_false_iff. split.
    + cbn. rewrite Uh, Ul, Uc, bool_decide_eq_true_2 by done. cbn.
      rewrite (proj2 (is_negative_false _ Wo)), (proj2 (is_negative_false _ Wh)),
        (proj2 (is_negative_false _ Wl)), (proj2 (is_negative_false _ Wc)) by lia. done.
    + destruct (vwap b) as [v|]; cbn in *; [|done]. destruct Iv as [-> _]. by rewrite bool_decide_eq_true_2.
  - apply orb_false_iff in E as [E Ev]. cbn in E. rewrite !orb_false_iff, !negb_false_iff, !bool_decide_eq_true in E.
    destruct E as ([_ No%is_negative_false] & [Uh Nh%is_negative_false] & [Ul Nl%is_negative_false]
                   & [Uc Nc%is_negative_false] & _); [|done..].
    rewrite (all_not_above_same_unit (value_unit (open p))) by (repeat constructor; cbn; auto).
    cbn [mbind Result_bind]. rewrite guard_Ok, fail_if_Ok, negb_false_iff. cbn [forallb fst snd].
    rewrite !andb_true_iff, !Z.leb_le. destruct (vwap b) as [v|]; cbn in Wv, Ev; cbn [from_option].
    + apply negb_false_iff, bool_decide_eq_true in Ev.
      rewrite (all_not_above_same_unit (value_unit (open p))) by (repeat constructor; cbn; auto).
      cbn [mbind Result_bind]. rewrite fail_if_Ok, negb_false_iff. cbn [forallb fst snd].
      rewrite !andb_true_iff, !Z.leb_le. naive_solver lia.
    + naive_solver lia.
Qed.

(** [Bar::new] accepts exactly the canonical bars, and keeps them as they are. *)
Lemma bar_new_Ok b b' : wf_bar b -> bar_new b = Ok b' <-> b' = b /\ canonical_bar b.
Proof.
  intros W. unfold bar_new. destruct (blank_or_padded (source_record_id b)) eqn:Er.
  { split; [done|]. intros [_ [Hr _ _ _ _ _]]. by rewrite Hr in Er. }
  rewrite bind_Ok. setoid_rewrite ok_or_Ok. setoid_rewrite guard_Ok. setoid_rewrite validate_interval_Ok.
  destruct (ltb (visible_at b) (bar_end b)) eqn:Ev.
  { apply ltb_spec in Ev. split; [naive_solver|]. by intros [_ [_ _ F _ _ _]]. }
  assert (Hv : cmp (visible_at b) (bar_end b) <> Lt) by (intros F; apply ltb_spec in F; congruence).
  setoid_rewrite guard_Ok. setoid_rewrite (validate_amounts_Ok b tt W). setoid_rewrite guard_Ok.
  assert (Hprices : (match prices b with
     | Some p => validate_prices p b
     | None => fail_if (negb (is_zero (volume b)) || bool_decide (is_Some (vwap b))
                        || bool_decide (is_Some (close_yield b))) InconsistentOhlc
     end = Ok tt) <-> match prices b with
     | Some p => consistent_prices p (vwap b)
     | None => value (volume b) = 0 /\ vwap b = None /\ close_yield b = None end).
  { destruct (prices b) as [p|] eqn:Ep; [by apply validate_prices_Ok|].
    rewrite fail_if_Ok, !orb_false_iff, negb_false_iff, is_zero_spec, !bool_decide_eq_false by apply W.
    rewrite <- !eq_None_not_Some. naive_solver. }
  setoid_rewrite Hprices. setoid_rewrite Ok_inj. split.
  - intros (tz & Htz & Ha & [Hvol Hturn] & Hp & ->). split; [done|]. split; try done. by exists tz.
  - intros [-> [_ (tz & Htz & Ha) _ Hvol Hturn Hp]]. by exists tz.
Qed.

End laws.
