(* ===== verification/Book.v ===== *)
(** * Simulated book and target exposures

    [SimulatedBook] and [TargetExposure] of [crates/ficant-domain/src/replay/mod.rs]: the positions
    and the cash a replay simulates, and the face amount a policy wants to hold. *)

From Stdlib Require Import ZArith Lia QArith Qabs Lqa.
From stdpp Require Import base list option strings numbers sorting sets.
From S2P Require Import Prelude Machine Collections Primitives DecimalValue Amount.
Open Scope Z_scope.

Section book.
Context `{DecimalArith}.

Definition TargetExposure : Type := BTreeMap VersionRef ReplayAmount.

Definition target_set (self : TargetExposure) (instrument : VersionRef) (face : ReplayAmount) : TargetExposure :=
  btree_insert instrument face self.
Definition target_get (self : TargetExposure) (instrument : VersionRef) : option ReplayAmount :=
  btree_get instrument self.

Record SimulatedBook := { positions : BTreeMap VersionRef ReplayAmount; cash : ReplayAmount }.

Definition empty_book : SimulatedBook := {| positions := []; cash := amount_zero |}.

Definition book_position (self : SimulatedBook) (instrument : VersionRef) : ReplayAmount :=
  default amount_zero (btree_get instrument (positions self)).

Definition add_position (self : SimulatedBook) (instrument : VersionRef) (face : Decimal) : SimulatedBook :=
  let position := (book_position self instrument + face)%dec in
  {| positions := if decimal_is_zero position then btree_remove instrument (positions self)
                  else btree_insert instrument (decimal_normalize position) (positions self);
     cash := cash self |}.

Definition add_cash (self : SimulatedBook) (amount : Decimal) : SimulatedBook :=
  {| positions := positions self; cash := decimal_normalize (cash self + amount)%dec |}.

(** The book as it will be once every pending trade executes. *)
Definition with_pending (self : SimulatedBook) (intents : list (VersionRef * ReplayAmount)) : SimulatedBook :=
  foldl (fun projected intent => add_position projected intent.1 intent.2) self intents.

(** Face to trade per instrument to move from the book to the target. *)
Definition deltas_toward (self : SimulatedBook) (target : TargetExposure) : list (VersionRef * ReplayAmount) :=
  omap (fun entry =>
    let delta := (entry.2 - book_position self entry.1)%dec in
    if decimal_is_zero delta then None else Some (entry.1, decimal_normalize delta)) target.

End book.

Section facts.
Context `{DecimalArithLaws}.

(** Books as the operations leave them: positions in the order of their instruments, none of them
    zero. *)
Definition wf_book (b : SimulatedBook) : Prop :=
  btree_wf (positions b) /\ Forall (fun p => ~ dval p.2 == 0)%Q (positions b).

Lemma empty_book_wf : wf_book empty_book.
Proof. split; constructor. Qed.

Lemma btree_insert_elem {K V} `{OrdLaws K} (k : K) (v : V) m j w :
  (j, w) ∈ btree_insert k v m -> (j = k /\ w = v) \/ (j, w) ∈ m.
Proof.
  induction m as [|[k' v'] m IH]; cbn; [rewrite list_elem_of_singleton; naive_solver|].
  destruct (cmp k k'); rewrite ?elem_of_cons; naive_solver.
Qed.

Lemma btree_remove_elem {K V} `{OrdLaws K} (k : K) (m : BTreeMap K V) x :
  x ∈ btree_remove k m -> x ∈ m.
Proof.
  induction m as [|[k' v'] m IH]; cbn; [done|].
  destruct (cmp k k'); rewrite ?elem_of_cons; naive_solver.
Qed.

Lemma add_position_wf b i f : wf_book b -> wf_book (add_position b i f).
Proof.
  intros [Hw Hz]. unfold add_position. cbn zeta. destruct (decimal_is_zero _) eqn:E; split; cbn.
  - by apply btree_remove_wf.
  - rewrite list.Forall_forall in Hz |- *. intros x Hx. by apply Hz, (btree_remove_elem i).
  - by apply btree_insert_wf.
  - rewrite list.Forall_forall in Hz |- *. intros [j w] [[-> ->]|Hin]%btree_insert_elem; [|by apply (Hz _ Hin)]. cbn.
    rewrite dval_normalize. by apply decimal_is_zero_false.
Qed.

Lemma add_cash_wf b a : wf_book b -> wf_book (add_cash b a).
Proof. done. Qed.

(** A position moves by the face added to it, and no other position moves. *)
Lemma book_position_add b i f :
  fits (dval (book_position b i) + dval f)%Q ->
  (dval (book_position (add_position b i f) i) == dval (book_position b i) + dval f)%Q.
Proof.
  intros Hf. unfold book_position at 1, add_position. cbn [positions]. cbv zeta.
  destruct (decimal_is_zero _) eqn:E.
  - rewrite btree_get_remove_eq. cbn. apply decimal_is_zero_spec in E. rewrite dval_add in E by done.
    rewrite E. apply dval_zero.
  - rewrite btree_get_insert_eq. cbn. rewrite dval_normalize. by rewrite dval_add.
Qed.

Lemma book_position_add_ne b i j f :
  i <> j -> book_position (add_position b i f) j = book_position b j.
Proof.
  intros Hne. unfold book_position, add_position. cbn [positions]. cbv zeta. destruct (decimal_is_zero _).
  - by rewrite btree_get_remove_ne.
  - by rewrite btree_get_insert_ne.
Qed.

Lemma cash_add_position b i f : cash (add_position b i f) = cash b.
Proof. done. Qed.

(** Settling every delta reaches the target, and leaves the instruments it does not name alone. *)
Lemma deltas_reach b t i :
  btree_wf t ->
  (forall j f, (j, f) ∈ t -> fits (dval f) /\ fits (dval f - dval (book_position b j)))%Q ->
  (dval (book_position (with_pending b (deltas_toward b t)) i)
   == match target_get t i with Some f => dval f | None => dval (book_position b i) end)%Q.
Proof.
  intros Hw Hf. unfold deltas_toward, with_pending.
  (* The positions that the remaining entries read are still those of [b]. *)
  enough (Hgen : forall b', (forall j, j ∈ t.*1 -> book_position b' j = book_position b j) ->
    (dval (book_position (foldl (fun p x => add_position p x.1 x.2) b'
       (omap (fun entry => let delta := (entry.2 - book_position b entry.1)%dec in
         if decimal_is_zero delta then None else Some (entry.1, decimal_normalize delta)) t)) i)
     == match target_get t i with Some f => dval f | None => dval (book_position b' i) end)%Q).
  { rewrite Hgen by done. reflexivity. }
  unfold target_get. induction t as [|[k f] t IH]; intros b' Hb; cbn; [reflexivity|].
  cbn in Hw. apply StronglySorted_inv in Hw as [Hw Hlt].
  assert (Hk : k ∉ t.*1).
  { intros Hin. rewrite list.Forall_forall in Hlt. by apply (cmp_lt_irrefl k), Hlt. }
  destruct (Hf k f ltac:(left)) as [Hff Hfd].
  assert (Hf' : forall j g, (j, g) ∈ t -> fits (dval g) /\ fits (dval g - dval (book_position b j))%Q)
    by (intros; apply Hf; by right).
  pose proof (dval_sub _ _ Hfd) as Ed. destruct (decimal_is_zero _) eqn:E; cbn [foldl].
  - rewrite IH by (done || (intros; apply Hb; by right)). apply decimal_is_zero_spec in E. rewrite Ed in E.
    destruct (cmp i k) eqn:Eik; try reflexivity. apply cmp_eq in Eik as ->.
    rewrite (proj2 (btree_get_None k t)) by done. rewrite Hb by left. lra.
  - rewrite IH; [|done..|].
    + destruct (cmp i k) eqn:Eik.
      * apply cmp_eq in Eik as ->. rewrite (proj2 (btree_get_None k t)) by done. cbn [fst snd].
        rewrite book_position_add; rewrite dval_normalize, Ed, Hb by left; [ring|].
        eapply fits_proper; [|exact Hff]. ring.
      * cbn [fst snd]. rewrite book_position_add_ne; [reflexivity|]. intros ->. by rewrite cmp_refl in Eik.
      * cbn [fst snd]. rewrite book_position_add_ne; [reflexivity|]. intros ->. by rewrite cmp_refl in Eik.
    + intros j Hj. cbn [fst snd]. rewrite book_position_add_ne by (intros ->; done). apply Hb. by right.
Qed.

End facts.
