(* ===== verification/Execution.v ===== *)
(** * Simulated execution

    [crates/ficant-domain/src/replay/execution.rs]: the rules of an execution, one attempt in one bar
    under the participation cap, and how a constraint decision changes an attempt. The outcome of a
    constraint check ([ConstraintOutcome] of [replay/constraints.rs]) is declared here because an
    attempt carries it. *)

From Stdlib Require Import ZArith Lia QArith Qabs Qminmax Lqa Strings.String.
From stdpp Require Import base list option strings numbers.
From S2P Require Import Prelude Machine Collections Primitives DecimalValue Amount Bar Exposure.
Open Scope Z_scope.

Inductive RemainderHandling := Cancel | Carry.

#[export] Instance RemainderHandling_eq_dec : EqDecision RemainderHandling.
Proof. solve_decision. Defined.

Definition remainder_handling_code (self : RemainderHandling) : string :=
  match self with Cancel => "CANCEL" | Carry => "CARRY" end.

Inductive FillPriceBasis := Vwap | Close.

Definition basis_code (self : FillPriceBasis) : string :=
  match self with Vwap => "VWAP" | Close => "CLOSE" end.

Inductive NoFillReason := NoPriceInBar | NoLaterBar | ParticipationCap | Constraint.

#[export] Instance NoFillReason_eq_dec : EqDecision NoFillReason.
Proof. solve_decision. Defined.

Definition no_fill_code (self : NoFillReason) : string :=
  match self with
  | NoPriceInBar => "NO_PRICE_IN_BAR"
  | NoLaterBar => "NO_LATER_BAR"
  | ParticipationCap => "PARTICIPATION_CAP"
  | Constraint => "CONSTRAINT"
  end.

Inductive RemainderOutcome := Cancelled | Carried.

#[export] Instance RemainderOutcome_eq_dec : EqDecision RemainderOutcome.
Proof. solve_decision. Defined.

Definition remainder_outcome_code (self : RemainderOutcome) : string :=
  match self with Cancelled => "CANCELLED" | Carried => "CARRIED" end.

Inductive ConstraintAction := Rejected | Reduced.

#[export] Instance ConstraintAction_eq_dec : EqDecision ConstraintAction.
Proof. solve_decision. Defined.

Definition constraint_action_code (self : ConstraintAction) : string :=
  match self with Rejected => "REJECTED" | Reduced => "REDUCED" end.

Section execution.
Context `{DecimalArith}.

Record ExecutionRules := { participation_cap : ReplayAmount; remainder_handling : RemainderHandling }.

Definition execution_rules_new (participation_cap : ReplayAmount) (remainder : RemainderHandling)
    : DomainResult ExecutionRules :=
  if decimal_leb participation_cap ZERO_DECIMAL || decimal_ltb ONE_DECIMAL participation_cap
  then Err InvalidValue
  else Ok {| participation_cap := participation_cap; remainder_handling := remainder |}.

Record Remainder := {
  remainder_quantity : ReplayAmount;
  remainder_reason : NoFillReason;
  remainder_outcome : RemainderOutcome
}.

Record ConstraintOutcome := {
  unconstrained : ReplayAmount;
  triggered : list string;
  constraint_action : ConstraintAction
}.

Record SimulatedFill := {
  fill_decision_time : DateTime;
  fill_instrument : VersionRef;
  requested : ReplayAmount;
  quantity : ReplayAmount;
  fill_limit : option ReplayAmount;
  effective_at : DateTime;
  execution_bar : option string;
  price : option ReplayAmount;
  basis : option FillPriceBasis;
  price_source : PriceSourceType;
  no_fill : option NoFillReason;
  remainder : option Remainder;
  fill_constraint : option ConstraintOutcome
}.

Definition filled (self : SimulatedFill) : bool :=
  match no_fill self with None => true | Some _ => false end.

Definition signed_like (sign_of magnitude : Decimal) : Decimal :=
  if is_sign_negative sign_of then (- magnitude)%dec else magnitude.

(** The price a bar executes at: its VWAP, else its close. *)
Definition priced_in (bar : Bar) : option (ReplayAmount * FillPriceBasis) :=
  match vwap bar, prices bar with
  | Some vwap, _ => Some (amount_of vwap, Vwap)
  | None, Some prices => Some (amount_of (close prices), Close)
  | None, None => None
  end.

(** The face a bar can still absorb. *)
Definition limit_in (bar : Bar) (used : ReplayAmount) (rules : ExecutionRules) : Decimal :=
  decimal_max (amount_of (volume bar) * participation_cap rules - used)%dec ZERO_DECIMAL.

Definition attempt_in_bar (decision_time : DateTime) (instrument : VersionRef) (remaining : ReplayAmount)
    (bar : Bar) (used : ReplayAmount) (rules : ExecutionRules) (price_source : PriceSourceType)
    : SimulatedFill :=
  let priced := priced_in bar in
  let limit := limit_in bar used rules in
  let executed := match priced with
                  | Some _ => signed_like remaining (decimal_min (decimal_abs remaining) limit)
                  | None => ZERO_DECIMAL
                  end in
  let left := (remaining - executed)%dec in
  let shortfall_reason := match priced with Some _ => ParticipationCap | None => NoPriceInBar end in
  let outcome := match remainder_handling rules with Cancel => Cancelled | Carry => Carried end in
  {| fill_decision_time := decision_time; fill_instrument := instrument;
     requested := from_decimal remaining; quantity := from_decimal executed;
     fill_limit := Some (from_decimal limit); effective_at := bar_end bar;
     execution_bar := Some (source_record_id bar);
     price := fst <$> priced; basis := snd <$> priced; price_source := price_source;
     no_fill := if decimal_is_zero executed then Some shortfall_reason else None;
     remainder := if decimal_is_zero left then None
                  else Some {| remainder_quantity := from_decimal left;
                               remainder_reason := shortfall_reason; remainder_outcome := outcome |};
     fill_constraint := None |}.

Definition no_later_bar (decision_time : DateTime) (instrument : VersionRef) (remaining : ReplayAmount)
    (effective_at : DateTime) (price_source : PriceSourceType) : SimulatedFill :=
  {| fill_decision_time := decision_time; fill_instrument := instrument; requested := remaining;
     quantity := amount_zero; fill_limit := None; effective_at := effective_at; execution_bar := None;
     price := None; basis := None; price_source := price_source; no_fill := Some NoLaterBar;
     remainder := Some {| remainder_quantity := remaining; remainder_reason := NoLaterBar;
                          remainder_outcome := Cancelled |};
     fill_constraint := None |}.

(** The attempt executes [allowed] instead, and whatever it no longer executes is cancelled. *)
Definition constrain (self : SimulatedFill) (allowed : ReplayAmount) (outcome : ConstraintOutcome)
    : SimulatedFill :=
  let left := amount_minus (requested self) allowed in
  {| fill_decision_time := fill_decision_time self; fill_instrument := fill_instrument self;
     requested := requested self; quantity := allowed; fill_limit := fill_limit self;
     effective_at := effective_at self; execution_bar := execution_bar self; price := price self;
     basis := basis self; price_source := price_source self;
     no_fill := if amount_is_zero allowed then Some Constraint else None;
     remainder := if amount_is_zero left then None
                  else Some {| remainder_quantity := left; remainder_reason := Constraint;
                               remainder_outcome := Cancelled |};
     fill_constraint := Some outcome |}.

End execution.

(** ** What an attempt does *)

Section facts.
Context `{DecimalArithLaws}.
Local Open Scope Q_scope.

(** [x] lies between zero and [r]. *)
Definition toward (r x : Q) : Prop := (0 <= x <= r) \/ (r <= x <= 0).

Lemma toward_abs r x : toward r x -> Qabs x <= Qabs r.
Proof. intros [[? ?]|[? ?]]; rewrite ?Qabs_pos, ?Qabs_neg by lra; lra. Qed.

Lemma toward_trans r x y : toward r x -> toward x y -> toward r y.
Proof. intros [[? ?]|[? ?]] [[? ?]|[? ?]]; first [left; lra|right; lra]. Qed.

#[global] Instance toward_proper : Proper (Qeq ==> Qeq ==> iff) toward.
Proof. intros r s E x y F. unfold toward. by rewrite E, F. Qed.

(** The sign of one number on the magnitude of another. *)
Lemma signed_like_val r m :
  0 <= dval m <= Qabs (dval r) ->
  toward (dval r) (dval (signed_like r m)) /\ Qabs (dval (signed_like r m)) == dval m.
Proof.
  intros [H0m Hm]. unfold signed_like. destruct (Qeq_dec (dval r) 0) as [Ez|Ez].
  - rewrite Ez in Hm. change (Qabs 0) with 0 in Hm. assert (Em : dval m == 0) by lra.
    destruct (is_sign_negative r); [rewrite dval_neg|]; rewrite Ez, Em; split; try reflexivity; left; lra.
  - pose proof (dval_negative r Ez) as [N1 N2]. destruct (is_sign_negative r).
    + specialize (N1 eq_refl). rewrite Qabs_neg in Hm by lra. rewrite dval_neg. split; [right; lra|].
      rewrite Qabs_neg by lra. ring.
    + assert (0 <= dval r) by (apply Qnot_lt_le; intros F; by specialize (N2 F)).
      rewrite Qabs_pos in Hm by lra. split; [left; lra|]. by rewrite Qabs_pos by lra.
Qed.

(** The capacity of a bar after what earlier attempts used, when it is computed exactly. *)
Definition capacity (bar : Bar) (used : ReplayAmount) (rules : ExecutionRules) : Q :=
  Qmax (dval (amount_of (volume bar)) * dval (participation_cap rules) - dval used) 0.

Definition limit_exact (bar : Bar) (used : ReplayAmount) (rules : ExecutionRules) : Prop :=
  dexact ($(amount_of (volume bar)) * $(participation_cap rules) - $used)%dx.

Lemma limit_in_val bar used rules :
  limit_exact bar used rules -> dval (limit_in bar used rules) == capacity bar used rules.
Proof.
  intros He%deval_exact. unfold limit_in, capacity. rewrite dval_max, dval_zero.
  cbn [deval dq] in He. by rewrite He.
Qed.

Lemma capacity_nonneg bar used rules : 0 <= capacity bar used rules.
Proof. apply Q.le_max_r. Qed.

Lemma Qabs_nz x : Qabs x == 0 <-> x == 0.
Proof.
  split; [|intros ->; reflexivity]. intros E. pose proof (Qle_Qabs x). pose proof (Qle_Qabs (- x)) as Hn.
  rewrite Qabs_opp in Hn. lra.
Qed.

(** What a fill says about the trade it comes from: it executes part of what was requested, in its
    direction; what is left is the remainder, and is absent exactly when nothing is left; and it is
    marked unfilled exactly when it executes nothing. *)
Record fill_accounts (f : SimulatedFill) : Prop := {
  accounts_toward : toward (dval (requested f)) (dval (quantity f));
  accounts_remainder :
    match remainder f with
    | Some r => dval (remainder_quantity r) == dval (requested f) - dval (quantity f)
                /\ ~ dval (remainder_quantity r) == 0
    | None => dval (quantity f) == dval (requested f)
    end;
  accounts_no_fill : no_fill f = None <-> ~ dval (quantity f) == 0
}.

(** What an attempt executes: as much as was asked for and the bar can still absorb. *)
Lemma attempt_quantity t i r bar used rules src :
  limit_exact bar used rules ->
  let q := quantity (attempt_in_bar t i r bar used rules src) in
  toward (dval r) (dval q)
  /\ Qabs (dval q) == match priced_in bar with Some _ => Qmin (Qabs (dval r)) (capacity bar used rules) | None => 0 end.
Proof.
  intros Hl. pose proof (limit_in_val _ _ _ Hl) as El. pose proof (capacity_nonneg bar used rules) as Hc.
  set (executed := match priced_in bar with
                   | Some _ => signed_like r (decimal_min (decimal_abs r) (limit_in bar used rules))
                   | None => ZERO_DECIMAL end).
  assert (He : toward (dval r) (dval executed) /\ Qabs (dval executed)
     == match priced_in bar with Some _ => Qmin (Qabs (dval r)) (capacity bar used rules) | None => 0 end).
  { unfold executed. destruct (priced_in bar).
    - assert (Em : dval (decimal_min (decimal_abs r) (limit_in bar used rules))
                   == Qmin (Qabs (dval r)) (capacity bar used rules)) by (rewrite dval_min, dval_abs, El; reflexivity).
      rewrite <- Em. apply signed_like_val. rewrite Em. split.
      + apply Q.min_glb; [apply Qabs_nonneg|done].
      + apply Q.le_min_l.
    - rewrite dval_zero. split; [|reflexivity]. unfold toward. destruct (Qlt_le_dec (dval r) 0); [right|left]; lra. }
  cbv zeta. cbn [attempt_in_bar quantity]. fold executed. by rewrite dval_from_decimal.
Qed.

Lemma attempt_accounts t i r bar used rules src (f := attempt_in_bar t i r bar used rules src) :
  limit_exact bar used rules -> fits (dval r - dval (quantity f)) ->
  fill_accounts f
  /\ Qabs (dval (quantity f))
     == match priced_in bar with Some _ => Qmin (Qabs (dval r)) (capacity bar used rules) | None => 0 end.
Proof.
  intros Hl Hf. pose proof (attempt_quantity t i r bar used rules src Hl) as [Ht Ha]. cbv zeta in Ht, Ha. fold f in Ht, Ha.
  split; [|exact Ha]. clear Ha. unfold f in *. cbn [attempt_in_bar quantity] in *.
  set (executed := match priced_in bar with
                   | Some _ => signed_like r (decimal_min (decimal_abs r) (limit_in bar used rules))
                   | None => ZERO_DECIMAL end) in *.
  rewrite dval_from_decimal in Hf, Ht.
  pose proof (dval_sub r executed Hf) as Es.
  split; cbn [attempt_in_bar requested quantity remainder no_fill]; fold executed.
  - by rewrite !dval_from_decimal.
  - destruct (decimal_is_zero (r - executed)%dec) eqn:E.
    + apply decimal_is_zero_spec in E. rewrite !dval_from_decimal. lra.
    + apply decimal_is_zero_false in E. cbn [remainder_quantity]. rewrite !dval_from_decimal. by split.
  - rewrite dval_from_decimal. destruct (decimal_is_zero executed) eqn:E.
    + apply decimal_is_zero_spec in E. split; [done|]. by intros [].
    + by apply decimal_is_zero_false in E.
Qed.

Lemma constrain_accounts f allowed o :
  toward (dval (requested f)) (dval allowed) -> fits (dval (requested f) - dval allowed) ->
  fill_accounts (constrain f allowed o).
Proof.
  intros Ht Hf. pose proof (dval_sub _ _ Hf) as Es. unfold constrain, amount_minus, amount_is_zero.
  split; cbn [requested quantity remainder no_fill]; [done| |].
  - rewrite from_decimal_is_zero. destruct (decimal_is_zero (requested f - allowed)%dec) eqn:E.
    + apply decimal_is_zero_spec in E. lra.
    + apply decimal_is_zero_false in E. cbn [remainder_quantity]. rewrite dval_from_decimal. split; [done|]. exact E.
  - destruct (decimal_is_zero allowed) eqn:E.
    + apply decimal_is_zero_spec in E. split; [done|]. by intros [].
    + by apply decimal_is_zero_false in E.
Qed.

Lemma no_later_accounts t i r at_ src : fill_accounts (no_later_bar t i r at_ src) \/ dval r == 0.
Proof.
  destruct (Qeq_dec (dval r) 0) as [|Hr]; [by right|left]. split; cbn.
  - rewrite dval_zero. unfold toward. destruct (Qlt_le_dec (dval r) 0); [right|left]; lra.
  - rewrite dval_zero. split; [ring|done].
  - split; [done|]. intros []. apply dval_zero.
Qed.

End facts.
