(* ===== verification/Subject.v ===== *)
(** * Subjects and their constraint sets

    [crates/ficant-domain/src/subject.rs] and [constraint.rs]: who a computation is for, what the
    subject may access, the limits its state snapshot carries, and the constraint set of a
    regulatory rule pack, which [constraint_set_bind] joins with those limits. *)

From Stdlib Require Import ZArith Lia Strings.String.
From stdpp Require Import base list option strings numbers sorting sets.
From S2P Require Import Prelude Machine Collections Primitives DecimalValue Bar.
Open Scope Z_scope.

(** ** Subjects *)

Definition require_text (value : string) : DomainResult unit :=
  if blank_or_padded value then Err InvalidValue else Ok tt.

Definition canonical_codes (values : list string) : DomainResult (list string) :=
  _ ← try_fold (fun _ value => require_text value) tt values;
  Ok (dedup (sort values)).

Record Subject := { subject_id : Ulid; subject_name : string; subject_owner : option OwnerRef }.

Definition subject_build (subject_id : Ulid) (display_name : string) (owner : option OwnerRef)
    : DomainResult Subject :=
  _ ← require_text display_name;
  if 256 <? str_len display_name then Err InvalidValue
  else Ok {| subject_id := subject_id; subject_name := display_name; subject_owner := owner |}.

Definition subject_new (subject_id : Ulid) (display_name : string) : DomainResult Subject :=
  subject_build subject_id display_name None.
Definition subject_new_owned (subject_id : Ulid) (owner : OwnerRef) (display_name : string)
    : DomainResult Subject :=
  subject_build subject_id display_name (Some owner).

Record AccessSet := { market_codes : list string; tool_codes : list string }.

Definition access_set_new (markets tools : list string) : DomainResult AccessSet :=
  market_codes ← canonical_codes markets;
  tool_codes ← canonical_codes tools;
  Ok {| market_codes := market_codes; tool_codes := tool_codes |}.

Inductive FundingTier := DrAvailable | ROnly.

#[export] Instance FundingTier_eq_dec : EqDecision FundingTier.
Proof. solve_decision. Defined.

Record TaxTreatment := { value_added_tax_profile : string; income_tax_profile : string }.

Definition tax_treatment_new (value_added_tax_profile income_tax_profile : string) : DomainResult TaxTreatment :=
  _ ← require_text value_added_tax_profile;
  _ ← require_text income_tax_profile;
  Ok {| value_added_tax_profile := value_added_tax_profile; income_tax_profile := income_tax_profile |}.

(** The reference of a subject version to its constraint set is the rule pack's version. *)
Record SubjectVersion := {
  subject_reference : VersionRef;
  access_set : AccessSet;
  funding_tier : FundingTier;
  tax_treatment : TaxTreatment;
  assessment_mechanism : string;
  liability_profile : string;
  constraint_set_ref : option VersionRef
}.

Definition subject_version_new (input : SubjectVersion) : DomainResult SubjectVersion :=
  _ ← require_text (assessment_mechanism input);
  _ ← require_text (liability_profile input);
  Ok input.

Record SubjectRecord := { record_subject : Subject; record_version : SubjectVersion }.

Definition subject_record_new (subject : Subject) (version : SubjectVersion) : DomainResult SubjectRecord :=
  if negb (bool_decide (subject_id subject = vr_id (subject_reference version))) then Err VersionConflict
  else Ok {| record_subject := subject; record_version := version |}.

(** ** State snapshots *)

Record LimitCeiling := { limit_code : string; limit_ceiling : DecimalValue }.

Definition limit_ceiling_new (limit_code : string) (ceiling : DecimalValue) : DomainResult LimitCeiling :=
  _ ← require_text limit_code;
  Ok {| limit_code := limit_code; limit_ceiling := ceiling |}.

Record SubjectStateSnapshot := {
  state_snapshot_id : Ulid;
  state_subject_ref : VersionRef;
  net_capital : DecimalValue;
  limit_ceilings : list LimitCeiling;
  state_observed_at : DateTime;
  state_visible_at : DateTime;
  state_timezone : string;
  state_owner : option OwnerRef
}.

(** [codes.insert] of the loop over the sorted ceilings: a repeated code is refused. *)
Definition insert_code (codes : BTreeSet string) (ceiling : LimitCeiling) : DomainResult (BTreeSet string) :=
  if bset_contains (limit_code ceiling) codes then Err InvalidValue
  else Ok (bset_insert (limit_code ceiling) codes).

(** [SubjectStateSnapshot::build]; [new] and [new_owned] differ in the owner of the input. *)
Definition state_snapshot_build `{Chrono} (input : SubjectStateSnapshot) : DomainResult SubjectStateSnapshot :=
  _ ← ok_or (tz_parse (state_timezone input)) InvalidEffectiveTime;
  if ltb (state_visible_at input) (state_observed_at input) then Err InvalidEffectiveTime else
  let ceilings := sort_by_key limit_code (limit_ceilings input) in
  _ ← try_fold insert_code [] ceilings;
  Ok {| state_snapshot_id := state_snapshot_id input; state_subject_ref := state_subject_ref input;
        net_capital := net_capital input; limit_ceilings := ceilings;
        state_observed_at := state_observed_at input; state_visible_at := state_visible_at input;
        state_timezone := state_timezone input; state_owner := state_owner input |}.

(** ** Constraint sets *)

Inductive ConstraintMeasure := InstrumentFace | PortfolioFace | BorrowedCash.

#[export] Instance ConstraintMeasure_eq_dec : EqDecision ConstraintMeasure.
Proof. solve_decision. Defined.

Definition measure_code (self : ConstraintMeasure) : string :=
  match self with
  | InstrumentFace => "INSTRUMENT_FACE"
  | PortfolioFace => "PORTFOLIO_FACE"
  | BorrowedCash => "BORROWED_CASH"
  end.

(** The derived order of the variants. *)
Definition measure_index (self : ConstraintMeasure) : Z :=
  match self with InstrumentFace => 0 | PortfolioFace => 1 | BorrowedCash => 2 end.

Record ConstraintDefinition := { definition_code : string; definition_measure : ConstraintMeasure }.

Definition constraint_definition_new (limit_code : string) (measure : ConstraintMeasure)
    : DomainResult ConstraintDefinition :=
  if blank_or_padded limit_code then Err InvalidValue
  else Ok {| definition_code := limit_code; definition_measure := measure |}.

Definition definition_key (d : ConstraintDefinition) : string * Z :=
  (definition_code d, measure_index (definition_measure d)).

Record ConstraintSet := { rule_pack : VersionRef; definitions : list ConstraintDefinition }.

Definition constraint_set_new (rule_pack : VersionRef) (definitions : list ConstraintDefinition)
    : DomainResult ConstraintSet :=
  let definitions := sort_by_key definition_key definitions in
  if bool_decide (definitions = [])
     || windows2_any (fun a b => bool_decide (definition_code a = definition_code b)) definitions
  then Err InvalidValue
  else Ok {| rule_pack := rule_pack; definitions := definitions |}.

Record BoundConstraint := { bound_definition : ConstraintDefinition; bound_ceiling : DecimalValue }.

(** The ceiling of one definition in a state. *)
Definition bind_definition (state : SubjectStateSnapshot) (definition : ConstraintDefinition)
    : DomainResult BoundConstraint :=
  ceiling ← ok_or (find (fun ceiling => bool_decide (limit_code ceiling = definition_code definition))
                     (limit_ceilings state)) BrokenLineage;
  if is_negative (limit_ceiling ceiling) then Err InvalidValue
  else Ok {| bound_definition := definition; bound_ceiling := limit_ceiling ceiling |}.

Definition constraint_set_bind (self : ConstraintSet) (subject : VersionRef) (state : SubjectStateSnapshot)
    : DomainResult (list BoundConstraint) :=
  if negb (bool_decide (state_subject_ref state = subject)) then Err BrokenLineage
  else try_map (bind_definition state) (definitions self).

(** ** Lemmas *)

(** A code is in the set of seen codes, or not twice among the rest. *)
Lemma insert_codes_Ok codes ceilings codes' :
  bset_wf codes -> try_fold insert_code codes ceilings = Ok codes' ->
  NoDup (limit_code <$> ceilings) /\ (forall c, c ∈ limit_code <$> ceilings -> c ∉ codes).
Proof.
  revert codes. induction ceilings as [|c ceilings IH]; intros codes Hw E; cbn [try_fold] in E.
  { split; [constructor|]. intros ? H. by apply not_elem_of_nil in H. }
  apply bind_Ok in E as (codes1 & Ec1 & E). unfold insert_code in Ec1.
  destruct (bset_contains _ _) eqn:Ec; [discriminate Ec1|]. injection Ec1 as <-. cbn [fmap list_fmap].
  assert (Hc : limit_code c ∉ codes) by (intros F; apply bset_contains_spec in F; congruence).
  apply IH in E as [Hn Hs]; [|by apply bset_insert_wf]. split.
  - constructor; [|done]. intros Hin. specialize (Hs _ Hin). apply Hs, bset_insert_elem. by left.
  - intros d [->|Hd]%elem_of_cons; [done|]. intros Hin. apply (Hs d Hd), bset_insert_elem. by right.
Qed.

(** An accepted snapshot is not visible before it is observed, has the ceilings it was given, in the
    order of their codes, and no code twice. *)
Lemma state_snapshot_Ok `{Chrono} i s :
  state_snapshot_build i = Ok s ->
  limit_ceilings s ≡ₚ limit_ceilings i /\ NoDup (limit_code <$> limit_ceilings s)
  /\ cmp (state_visible_at s) (state_observed_at s) <> Lt /\ state_subject_ref s = state_subject_ref i.
Proof.
  unfold state_snapshot_build. rewrite bind_Ok. intros (tz & _ & E).
  destruct (ltb _ _) eqn:El; [discriminate E|]. apply bind_Ok in E as (codes & Ec & [= <-]).
  apply insert_codes_Ok in Ec as [Hn _]; [|constructor]. cbn. split; [apply sort_by_perm|].
  split; [done|]. split; [|done]. intros F. apply ltb_spec in F. congruence.
Qed.

Lemma find_unique {A} (p : A -> bool) l x :
  (forall y, y ∈ l -> p y = true -> y = x) -> x ∈ l -> p x = true -> find p l = Some x.
Proof.
  induction l as [|a l IH]; intros Hu Hx Hp; [by apply not_elem_of_nil in Hx|]. cbn.
  destruct (p a) eqn:E; [f_equal; apply Hu; [left|done]|].
  apply elem_of_cons in Hx as [->|Hx]; [congruence|]. apply IH; [|done..]. intros; apply Hu; [by right|done].
Qed.

(** Binding joins every definition, in order, with the one ceiling its code has in the state. *)
Lemma constraint_set_bind_Ok set subject state bs :
  NoDup (limit_code <$> limit_ceilings state) ->
  constraint_set_bind set subject state = Ok bs <->
  state_subject_ref state = subject /\
  Forall2 (fun d b => bound_definition b = d /\ is_negative (bound_ceiling b) = false
     /\ exists c, c ∈ limit_ceilings state /\ limit_code c = definition_code d
                  /\ bound_ceiling b = limit_ceiling c) (definitions set) bs.
Proof.
  intros Hn. unfold constraint_set_bind. case_bool_decide as Hs; cbn [negb]; [|naive_solver].
  rewrite try_map_Ok.
  assert (Hd : forall d b, bind_definition state d = Ok b <->
    bound_definition b = d /\ is_negative (bound_ceiling b) = false
    /\ exists c, c ∈ limit_ceilings state /\ limit_code c = definition_code d
                 /\ bound_ceiling b = limit_ceiling c).
  { intros d b. unfold bind_definition. rewrite bind_Ok. setoid_rewrite ok_or_Ok. split.
    - intros (c & Hc & E). destruct (is_negative _) eqn:En; [discriminate E|]. injection E as <-. cbn.
      apply find_some in Hc as [Hin Hc%bool_decide_eq_true]. split; [done|]. split; [done|].
      exists c. by rewrite list_elem_of_In.
    - intros (Hb & Hneg & c & Hin & Hc & Eb). exists c. split.
      + apply find_unique; [|done|by apply bool_decide_eq_true]. intros y Hy Ey%bool_decide_eq_true.
        assert (Eyc : limit_code y = limit_code c) by congruence.
        apply list_elem_of_lookup in Hy as [j Hj], Hin as [k Hk].
        assert (j = k) as ->; [|by rewrite Hj in Hk; injection Hk].
        eapply NoDup_lookup; [exact Hn| |]; rewrite list_lookup_fmap; [by rewrite Hj|by rewrite Hk, Eyc].
      + rewrite <- Eb, Hneg. f_equal. destruct b; cbn in *; by subst. }
  split; [intros F; split; [done|]|intros [_ F]]; (eapply List.Forall2_impl; [|exact F]; intros; by apply Hd).
Qed.
