(* ===== verification/Constraints.v ===== *)
(** * Constraint checks on simulated executions

    [crates/ficant-domain/src/replay/constraints.rs]: the constraints a replay enforces, what they
    measure on a book, and [check_execution], which lets an execution through, reduces it or refuses
    it. The specification measures the same book in exact rationals ([measure_q], [breach_q]). *)

From Stdlib Require Import ZArith Lia QArith Qabs Qminmax Lqa Strings.String.
From stdpp Require Import base list option strings numbers sorting sets.
From S2P Require Import Prelude Machine Collections Primitives FixedDecimal DecimalValue Amount Book Execution Subject.
Open Scope Z_scope.

Inductive ConstraintHandling := Reject | Reduce.

#[export] Instance ConstraintHandling_eq_dec : EqDecision ConstraintHandling.
Proof. solve_decision. Defined.

Definition constraint_handling_code (self : ConstraintHandling) : string :=
  match self with Reject => "REJECT" | Reduce => "REDUCE" end.

Section constraints.
Context `{DecimalArith}.

Record ReplayConstraint := {
  constraint_code : string;
  constraint_measure : ConstraintMeasure;
  constraint_ceiling : ReplayAmount;
  constraint_handling : ConstraintHandling
}.

Definition bind_one (declared : BTreeMap string ConstraintHandling) (bound : BoundConstraint)
    : DomainResult ReplayConstraint :=
  handling ← ok_or (btree_get (definition_code (bound_definition bound)) declared) InvalidValue;
  Ok {| constraint_code := definition_code (bound_definition bound);
        constraint_measure := definition_measure (bound_definition bound);
        constraint_ceiling := amount_of (bound_ceiling bound); constraint_handling := handling |}.

Definition bind_constraints (set : ConstraintSet) (subject : VersionRef) (state : SubjectStateSnapshot)
    (declared : BTreeMap string ConstraintHandling) : DomainResult (list ReplayConstraint) :=
  bounds ← constraint_set_bind set subject state;
  try_map (bind_one declared) bounds.

Record ExecutionContext := {
  context_book : SimulatedBook;
  context_instrument : VersionRef;
  dirty_per_face : Decimal;
  cost_per_face : Decimal;
  fee_per_fill : Decimal
}.

(** The position the execution would move. *)
Definition context_position (self : ExecutionContext) : Decimal :=
  book_position (context_book self) (context_instrument self).

Definition cash_after (self : ExecutionContext) (face : Decimal) : Decimal :=
  let cost := if decimal_is_zero face then ZERO_DECIMAL
              else (decimal_abs face * cost_per_face self + fee_per_fill self)%dec in
  (cash (context_book self) - face * dirty_per_face self - cost)%dec.

Definition measure (self : ExecutionContext) (measure : ConstraintMeasure) (face : Decimal) : Decimal :=
  let position := context_position self in
  match measure with
  | InstrumentFace => decimal_abs (position + face)%dec
  | PortfolioFace =>
      let total := decimal_sum ((fun p => decimal_abs p.2) <$> positions (context_book self)) in
      (total - decimal_abs position + decimal_abs (position + face))%dec
  | BorrowedCash => decimal_max (- cash_after self face)%dec ZERO_DECIMAL
  end.

Definition breaches (self : ExecutionContext) (constraint : ReplayConstraint) (face : Decimal) : bool :=
  let after := measure self (constraint_measure constraint) face in
  decimal_ltb (constraint_ceiling constraint) after
  && decimal_ltb (measure self (constraint_measure constraint) ZERO_DECIMAL) after.

(** The largest size before it is cut to the platform scale. *)
Definition allowed_size (self : ExecutionContext) (constraint : ReplayConstraint) (face : Decimal) : Decimal :=
  let before := measure self (constraint_measure constraint) ZERO_DECIMAL in
  let limit := decimal_max (constraint_ceiling constraint) before in
  let position := context_position self in
  match constraint_measure constraint with
  | InstrumentFace | PortfolioFace =>
      let unwinding := negb (decimal_is_zero position)
                       && negb (eqb (is_sign_negative position) (is_sign_negative face)) in
      let freed := if unwinding then (decimal_abs position * TWO_DECIMAL)%dec else ZERO_DECIMAL in
      (limit - before + freed)%dec
  | BorrowedCash =>
      let per_face := (dirty_per_face self + cost_per_face self)%dec in
      if is_sign_negative face || decimal_leb per_face ZERO_DECIMAL then ZERO_DECIMAL
      else ((limit + cash (context_book self) - fee_per_fill self) / per_face)%dec
  end.

Definition allowed_magnitude (self : ExecutionContext) (constraint : ReplayConstraint) (face : Decimal) : Decimal :=
  round_to_zero (Z.of_nat DECIMAL_SCALE) (decimal_max (allowed_size self constraint face) ZERO_DECIMAL).

Definition rejected (face : Decimal) (triggered : list string) : ReplayAmount * option ConstraintOutcome :=
  (amount_zero, Some {| unconstrained := from_decimal face; triggered := triggered;
                        constraint_action := Rejected |}).

Definition breached_by (self : ExecutionContext) (constraints : list ReplayConstraint) (face : Decimal)
    : list ReplayConstraint :=
  List.filter (fun constraint => breaches self constraint face) constraints.

(** The size every breached constraint allows. *)
Definition allowed_face (self : ExecutionContext) (breached : list ReplayConstraint) (face : Decimal) : Decimal :=
  signed_like face (foldl decimal_min (decimal_abs face)
    ((fun constraint => allowed_magnitude self constraint face) <$> breached)).

Definition check_execution (constraints : list ReplayConstraint) (context : ExecutionContext)
    (face : ReplayAmount) : ReplayAmount * option ConstraintOutcome :=
  if decimal_is_zero face then (amount_zero, None) else
  let breached := breached_by context constraints face in
  if bool_decide (breached = []) then (from_decimal face, None) else
  let triggered := dedup (sort (constraint_code <$> breached)) in
  if existsb (fun constraint => bool_decide (constraint_handling constraint = Reject)) breached
  then rejected face triggered else
  let allowed := allowed_face context breached face in
  if decimal_is_zero allowed || existsb (fun constraint => breaches context constraint allowed) constraints
  then rejected face triggered
  else (from_decimal allowed, Some {| unconstrained := from_decimal face; triggered := triggered;
                                      constraint_action := Reduced |}).

End constraints.

(** ** Exact measures *)

Section spec.
Context `{DecimalArithLaws}.
Local Open Scope Q_scope.
Implicit Types (ctx : ExecutionContext) (c : ReplayConstraint) (x : Q).

Definition position_q ctx : Q := dval (context_position ctx).
Definition gross_q ctx : Q := qsum ((fun p => Qabs (dval p.2)) <$> positions (context_book ctx)).

Definition cost_q ctx x : Q :=
  if Qeq_dec x 0 then 0 else Qabs x * dval (cost_per_face ctx) + dval (fee_per_fill ctx).

Definition cash_q ctx x : Q := dval (cash (context_book ctx)) - x * dval (dirty_per_face ctx) - cost_q ctx x.

Definition measure_q ctx (m : ConstraintMeasure) x : Q :=
  match m with
  | InstrumentFace => Qabs (position_q ctx + x)
  | PortfolioFace => gross_q ctx - Qabs (position_q ctx) + Qabs (position_q ctx + x)
  | BorrowedCash => Qmax (- cash_q ctx x) 0
  end.

(** A constraint is breached when the measure exceeds its ceiling and grows. *)
Definition breach_q ctx c x : Prop :=
  dval (constraint_ceiling c) < measure_q ctx (constraint_measure c) x
  /\ measure_q ctx (constraint_measure c) 0 < measure_q ctx (constraint_measure c) x.

#[global] Instance cost_q_proper ctx : Proper (Qeq ==> Qeq) (cost_q ctx).
Proof.
  intros x y E. unfold cost_q. destruct (Qeq_dec x 0) as [Ex|Ex], (Qeq_dec y 0) as [Ey|Ey].
  - reflexivity.
  - destruct Ey. by rewrite <- E.
  - destruct Ex. by rewrite E.
  - by rewrite E.
Qed.

#[global] Instance measure_q_proper ctx m : Proper (Qeq ==> Qeq) (measure_q ctx m).
Proof. intros x y E. destruct m; cbn [measure_q]; unfold cash_q; by rewrite E. Qed.

#[global] Instance breach_q_proper ctx c : Proper (Qeq ==> iff) (breach_q ctx c).
Proof. intros x y E. unfold breach_q. by rewrite E. Qed.

(** The operations that measure the book after an execution of [face] are exact. *)
Definition measure_exact ctx (m : ConstraintMeasure) (face : Decimal) : Prop :=
  match m with
  | InstrumentFace => fits (position_q ctx + dval face)
  | PortfolioFace =>
      sum_exact 0 ((fun p => Qabs (dval p.2)) <$> positions (context_book ctx))
      /\ fits (gross_q ctx - Qabs (position_q ctx)) /\ fits (position_q ctx + dval face)
      /\ fits (gross_q ctx - Qabs (position_q ctx) + Qabs (position_q ctx + dval face))
  | BorrowedCash =>
      let value := dval face in
      (~ value == 0 -> fits (Qabs value * dval (cost_per_face ctx)) /\ fits (cost_q ctx value))
      /\ fits (value * dval (dirty_per_face ctx))
      /\ fits (dval (cash (context_book ctx)) - value * dval (dirty_per_face ctx)) /\ fits (cash_q ctx value)
  end.

Lemma gross_face_exact ctx :
  sum_exact 0 ((fun p => Qabs (dval p.2)) <$> positions (context_book ctx)) ->
  dval (decimal_sum ((fun p => decimal_abs p.2) <$> positions (context_book ctx))) == gross_q ctx.
Proof.
  unfold gross_q, decimal_sum. set (ps := positions (context_book ctx)). intros Hs.
  assert (Hgen : forall acc q, dval acc == q -> sum_exact q ((fun p => Qabs (dval p.2)) <$> ps) ->
    dval (foldl decimal_add acc ((fun p : VersionRef * Decimal => decimal_abs p.2) <$> ps))
      == q + qsum ((fun p => Qabs (dval p.2)) <$> ps)).
  { clear Hs. induction ps as [|p ps IH]; intros acc q Ea; unfold qsum; cbn [fmap list_fmap foldl foldr sum_exact].
    - intros _. rewrite Ea. ring.
    - intros [Hf Hs]. rewrite (IH _ (q + Qabs (dval p.2))); [unfold qsum; rewrite Qplus_assoc; reflexivity| |done].
      rewrite dval_add; rewrite dval_abs, Ea; [reflexivity|done]. }
  rewrite (Hgen _ _ dval_zero Hs). ring.
Qed.

Lemma cash_after_val ctx face : measure_exact ctx BorrowedCash face -> dval (cash_after ctx face) == cash_q ctx (dval face).
Proof.
  intros (Hc & Hd & Hf & He). unfold cash_after. cbv zeta.
  assert (Ec : dval (if decimal_is_zero face then ZERO_DECIMAL
      else (decimal_abs face * cost_per_face ctx + fee_per_fill ctx)%dec) == cost_q ctx (dval face)).
  { unfold cost_q. destruct (decimal_is_zero face) eqn:E.
    - apply decimal_is_zero_spec in E. destruct (Qeq_dec _ _); [apply dval_zero|done].
    - apply decimal_is_zero_false in E. destruct (Hc E) as [F1 F2]. unfold cost_q in F2.
      destruct (Qeq_dec _ _); [done|].
      assert (Em : dval (decimal_abs face * cost_per_face ctx)%dec == Qabs (dval face) * dval (cost_per_face ctx))
        by (rewrite dval_mul; rewrite dval_abs; [reflexivity|done]).
      rewrite dval_add; rewrite Em; [reflexivity|done]. }
  pose proof (dval_mul _ _ Hd) as Em.
  assert (Es : dval (cash (context_book ctx) - face * dirty_per_face ctx)%dec
               == dval (cash (context_book ctx)) - dval face * dval (dirty_per_face ctx))
    by (rewrite dval_sub; rewrite Em; [reflexivity|done]).
  unfold cash_q in *. rewrite dval_sub; rewrite Es, Ec; [reflexivity|done].
Qed.

Lemma measure_val ctx m face :
  measure_exact ctx m face -> dval (measure ctx m face) == measure_q ctx m (dval face).
Proof.
  destruct m; cbn [measure measure_exact measure_q].
  - intros Hf. rewrite dval_abs, dval_add by done. reflexivity.
  - intros (Hs & Hg & Hp & He).
    assert (Eg : dval (decimal_sum ((fun p => decimal_abs p.2) <$> positions (context_book ctx))
                       - decimal_abs (context_position ctx))%dec == gross_q ctx - Qabs (position_q ctx)).
    { rewrite dval_sub; rewrite gross_face_exact, dval_abs by done; [reflexivity|done]. }
    assert (Ep : dval (decimal_abs (context_position ctx + face))%dec == Qabs (position_q ctx + dval face))
      by (rewrite dval_abs, dval_add by done; reflexivity).
    rewrite dval_add; rewrite Eg, Ep; [reflexivity|done].
  - intros Hx. rewrite dval_max, dval_neg, dval_zero. by rewrite cash_after_val.
Qed.

(** Every constraint is checked exactly at a face, and measured exactly before the execution. *)
Definition checks_exact (cs : list ReplayConstraint) ctx (face : Decimal) : Prop :=
  forall c, c ∈ cs -> measure_exact ctx (constraint_measure c) face
                      /\ measure_exact ctx (constraint_measure c) ZERO_DECIMAL.

Lemma breaches_spec cs ctx c face :
  checks_exact cs ctx face -> c ∈ cs -> breaches ctx c face = true <-> breach_q ctx c (dval face).
Proof.
  intros He Hc. destruct (He c Hc) as [F1 F2]. unfold breaches, breach_q. cbv zeta.
  rewrite andb_true_iff, !decimal_ltb_spec, !measure_val by done. by rewrite dval_zero.
Qed.

Lemma breach_q_zero ctx c x : x == 0 -> ~ breach_q ctx c x.
Proof. intros -> [_ F]. lra. Qed.

Lemma breached_by_elem cs ctx c face :
  checks_exact cs ctx face -> c ∈ breached_by ctx cs face <-> c ∈ cs /\ breach_q ctx c (dval face).
Proof.
  intros He. unfold breached_by. rewrite list_elem_of_In, filter_In, <- list_elem_of_In.
  apply and_cong_l. intros Hc. by apply (breaches_spec cs).
Qed.

(** *** The size that is left *)

Definition grid : Q := inject_Z (10 ^ Z.of_nat DECIMAL_SCALE).
(** Multiples of the last decimal place of the platform. *)
Definition on_grid x : Prop := exists k, x == inject_Z k / grid.

Lemma grid_pos : 0 < grid.
Proof. reflexivity. Qed.

#[global] Instance on_grid_proper : Proper (Qeq ==> iff) on_grid.
Proof. intros x y E. unfold on_grid. by setoid_rewrite E. Qed.

Lemma on_grid_opp x : on_grid x -> on_grid (- x).
Proof. intros [k E]. exists (- k)%Z. rewrite E, inject_Z_opp. unfold Qdiv. ring. Qed.

Lemma grid_step j k : inject_Z j / grid < inject_Z k / grid -> inject_Z j / grid + 1 / grid <= inject_Z k / grid.
Proof.
  intros Hlt. pose proof grid_pos as Hg.
  assert (Hz : (j < k)%Z).
  { rewrite Zlt_Qlt. apply (Qmult_lt_r _ _ (/ grid)); [by apply Qinv_lt_0_compat|done]. }
  assert (Hle : inject_Z j + 1 <= inject_Z k) by (change 1 with (inject_Z 1); rewrite <- inject_Z_plus, <- Zle_Qle; lia).
  assert (inject_Z j / grid + 1 / grid == (inject_Z j + 1) / grid) as -> by (field; lra).
  apply Qmult_le_compat_r; [done|]. apply Qlt_le_weak. by apply Qinv_lt_0_compat.
Qed.

(** Cutting a non-negative size to the grid. *)
Definition cut (size r : Q) : Prop := on_grid r /\ 0 <= r /\ r <= size < r + 1 / grid.

Lemma to_zero_cut (m : Decimal) q :
  dval m == q -> 0 <= q -> cut q (dval (round_to_zero (Z.of_nat DECIMAL_SCALE) m)).
Proof.
  intros Em Hq. rewrite <- Em in Hq.
  destruct (dval_to_zero (Z.of_nat DECIMAL_SCALE) m ltac:(unfold DECIMAL_SCALE; lia) Hq) as [[B1 B2] [k Ek]].
  fold grid in B2, Ek. unfold cut. rewrite <- Em. split; [by exists k|]. split; [|done].
  rewrite Ek in B1, B2 |- *. assert (E0 : inject_Z 0 / grid == 0) by reflexivity.
  destruct (Qlt_le_dec (inject_Z k / grid) (inject_Z 0 / grid)) as [Hlt|Hle]; [apply grid_step in Hlt; lra|lra].
Qed.

Lemma allowed_magnitude_cut ctx c face :
  cut (Qmax (dval (allowed_size ctx c face)) 0) (dval (allowed_magnitude ctx c face)).
Proof. apply to_zero_cut; [by rewrite dval_max, dval_zero|apply Q.le_max_r]. Qed.

(** The least of the sizes, and the requested size itself. *)
Lemma fold_min_spec a (l : list Decimal) (r := foldl decimal_min a l) :
  dval r <= dval a /\ (forall x : Decimal, x ∈ l -> dval r <= dval x)
  /\ (dval r == dval a \/ exists x : Decimal, x ∈ l /\ dval r == dval x).
Proof.
  unfold r. clear r. revert a. induction l as [|y l IH]; intros a; cbn [foldl].
  - split; [lra|]. split; [intros x Hx; by apply not_elem_of_nil in Hx|]. left. reflexivity.
  - destruct (IH (decimal_min a y)) as (I1 & I2 & I3). pose proof (dval_min a y) as Em.
    pose proof (Q.le_min_l (dval a) (dval y)). pose proof (Q.le_min_r (dval a) (dval y)).
    split; [lra|]. split.
    + intros x [->|Hx]%elem_of_cons; [lra|by apply I2].
    + destruct I3 as [E|(x & Hx & E)]; [|right; exists x; split; [by right|done]].
      destruct (Q.min_spec (dval a) (dval y)) as [[_ Es]|[_ Es]]; [left; lra|right].
      exists y. split; [left|lra].
Qed.

Lemma allowed_face_spec ctx bs face :
  toward (dval face) (dval (allowed_face ctx bs face))
  /\ (on_grid (dval (allowed_face ctx bs face)) \/ dval (allowed_face ctx bs face) == dval face)
  /\ forall c, c ∈ bs -> Qabs (dval (allowed_face ctx bs face)) <= dval (allowed_magnitude ctx c face).
Proof.
  unfold allowed_face. set (sizes := (fun c => allowed_magnitude ctx c face) <$> bs).
  destruct (fold_min_spec (decimal_abs face) sizes) as (M1 & M2 & M3). set (m := foldl _ _ _) in *.
  pose proof (dval_abs face) as Ea.
  assert (Hin : forall x : Decimal, x ∈ sizes -> exists c, c ∈ bs /\ x = allowed_magnitude ctx c face).
  { intros x (c & -> & Hc)%list_elem_of_fmap. by exists c. }
  assert (Hm : 0 <= dval m <= Qabs (dval face)).
  { split; [|lra]. destruct M3 as [E|(x & Hx & E)].
    - rewrite E, Ea. apply Qabs_nonneg.
    - destruct (Hin x Hx) as (c & _ & ->). rewrite E. apply allowed_magnitude_cut. }
  destruct (signed_like_val face m Hm) as [Ht Hs]. split; [exact Ht|]. split.
  - assert (Hcase : on_grid (dval m) \/ dval m == Qabs (dval face)).
    { destruct M3 as [E|(x & Hx & E)]; [right; lra|left]. destruct (Hin x Hx) as (c & _ & ->). rewrite E.
      apply allowed_magnitude_cut. }
    unfold toward in Ht. destruct Hcase as [Hg|E].
    + left. destruct Ht as [[? ?]|[? ?]].
      * rewrite Qabs_pos in Hs by lra. by rewrite Hs.
      * rewrite Qabs_neg in Hs by lra. assert (dval (signed_like face m) == - dval m) as -> by lra. by apply on_grid_opp.
    + right. rewrite E in Hs. destruct Ht as [[? ?]|[? ?]]; [rewrite !Qabs_pos in Hs by lra|rewrite !Qabs_neg in Hs by lra]; lra.
  - intros c Hc. rewrite Hs. apply M2, list_elem_of_fmap. by exists c.
Qed.

(** ** What a check decides *)

(** The checks are exact at the requested face and at every smaller size the platform can express. *)
Definition exact_toward (cs : list ReplayConstraint) ctx (face : Decimal) : Prop :=
  forall f : Decimal, toward (dval face) (dval f) -> (on_grid (dval f) \/ dval f == dval face) ->
  checks_exact cs ctx f.

Record check_spec (cs : list ReplayConstraint) ctx (face allowed : Decimal)
    (outcome : option ConstraintOutcome) : Prop := {
  check_toward : toward (dval face) (dval allowed);
  check_safe : forall c, c ∈ cs -> ~ breach_q ctx c (dval allowed);
  check_none : outcome = None <-> forall c, c ∈ cs -> ~ breach_q ctx c (dval face);
  check_full : outcome = None -> dval allowed == dval face;
  check_outcome : forall o, outcome = Some o ->
    dval (unconstrained o) == dval face
    /\ (forall code, code ∈ triggered o <->
          exists c, c ∈ cs /\ constraint_code c = code /\ breach_q ctx c (dval face))
    /\ (constraint_action o = Rejected <-> dval allowed == 0);
  check_reject : forall c, c ∈ cs -> constraint_handling c = Reject -> breach_q ctx c (dval face) ->
    dval allowed == 0
}.

Lemma toward_zero x : toward x 0.
Proof. unfold toward. destruct (Qlt_le_dec x 0); [right|left]; lra. Qed.

Lemma toward_refl x : toward x x.
Proof. unfold toward. destruct (Qlt_le_dec x 0); [right|left]; lra. Qed.

Lemma elem_of_dedup {A} `{EqDecision A} (l : list A) a : a ∈ dedup l <-> a ∈ l.
Proof.
  induction l as [|x [|y l] IH]; [done|done|].
  change (dedup (x :: y :: l)) with (if decide (x = y) then dedup (y :: l) else x :: dedup (y :: l)).
  destruct (decide (x = y)) as [E|E].
  - subst. rewrite IH, (elem_of_cons _ a y). rewrite !elem_of_cons. naive_solver.
  - rewrite elem_of_cons, IH, (elem_of_cons _ a x). done.
Qed.

Lemma elem_of_triggered cs ctx face code :
  checks_exact cs ctx face ->
  code ∈ dedup (sort (constraint_code <$> breached_by ctx cs face)) <->
  exists c, c ∈ cs /\ constraint_code c = code /\ breach_q ctx c (dval face).
Proof.
  intros He. rewrite elem_of_dedup. unfold sort. rewrite sort_by_perm, list_elem_of_fmap. split.
  - intros (c & -> & Hc). apply breached_by_elem in Hc as [? ?]; [|done]. by exists c.
  - intros (c & Hc & <- & Hb). exists c. split; [done|]. by apply breached_by_elem.
Qed.

Lemma rejected_spec cs ctx face :
  checks_exact cs ctx face -> breached_by ctx cs face <> [] ->
  let r := rejected face (dedup (sort (constraint_code <$> breached_by ctx cs face))) in
  check_spec cs ctx face r.1 r.2.
Proof.
  intros He Hne. cbv zeta. split; cbn [rejected fst snd].
  - rewrite (dval_zero : dval amount_zero == 0). apply toward_zero.
  - intros c _. apply breach_q_zero, dval_zero.
  - split; [done|]. intros Hn. destruct Hne. destruct (breached_by ctx cs face) as [|c l] eqn:E; [done|].
    assert (Hc : c ∈ breached_by ctx cs face) by (rewrite E; left).
    apply breached_by_elem in Hc as [Hc Hb]; [|done]. by destruct (Hn c Hc).
  - done.
  - intros o [= <-]. cbn. split; [apply dval_from_decimal|]. split; [intros code; by apply elem_of_triggered|].
    split; [intros _; apply dval_zero|done].
  - intros c _ _ _. apply dval_zero.
Qed.

Lemma check_execution_spec cs ctx face allowed outcome :
  exact_toward cs ctx face -> check_execution cs ctx face = (allowed, outcome) ->
  check_spec cs ctx face allowed outcome.
Proof.
  intros Hex. unfold check_execution. cbv zeta.
  assert (He : checks_exact cs ctx face) by (apply Hex; [apply toward_refl|right; reflexivity]).
  destruct (decimal_is_zero face) eqn:Ez.
  { apply decimal_is_zero_spec in Ez. intros [= <- <-].
    assert (E0 : dval amount_zero == 0) by apply dval_zero.
    split; try done; intros.
    - rewrite E0. apply toward_zero.
    - by apply breach_q_zero.
    - split; [intros _ c _; by apply breach_q_zero|done].
    - lra. }
  case_bool_decide as Hb.
  { intros [= <- <-].
    assert (Hn : forall c, c ∈ cs -> ~ breach_q ctx c (dval face)).
    { intros c Hc F. assert (Hin : c ∈ breached_by ctx cs face) by (by apply breached_by_elem).
      rewrite Hb in Hin. by apply not_elem_of_nil in Hin. }
    assert (E0 : dval (from_decimal face) == dval face) by apply dval_from_decimal.
    split; try done; intros.
    - rewrite E0. apply toward_refl.
    - rewrite E0. by apply Hn.
    - by destruct (Hn c). }
  destruct (existsb _ (breached_by ctx cs face)) eqn:Er; [intros E|].
  { pose proof (rejected_spec cs ctx face He Hb) as R. cbv zeta in R. by rewrite E in R. }
  destruct (_ || _) eqn:Ea; [intros E|].
  { pose proof (rejected_spec cs ctx face He Hb) as R. cbv zeta in R. by rewrite E in R. }
  apply orb_false_iff in Ea as [Ea1 Ea2]. apply decimal_is_zero_false in Ea1. intros [= <- <-].
  destruct (allowed_face_spec ctx (breached_by ctx cs face) face) as (Ht & Hg & _).
  set (a := allowed_face ctx (breached_by ctx cs face) face) in *.
  assert (E0 : dval (from_decimal a) == dval a) by apply dval_from_decimal.
  pose proof (Hex a Ht Hg) as Hxa. split.
  - by rewrite E0.
  - intros c Hc F. rewrite E0 in F. apply (breaches_spec cs) in F; [|done..].
    rewrite <- not_true_iff_false in Ea2. apply Ea2, existsb_exists. exists c. by rewrite <- list_elem_of_In.
  - split; [done|]. intros Hn. destruct Hb. destruct (breached_by ctx cs face) as [|c l] eqn:E; [done|].
    assert (Hc : c ∈ breached_by ctx cs face) by (rewrite E; left).
    apply breached_by_elem in Hc as [Hc Hbc]; [|done]. by destruct (Hn c Hc).
  - done.
  - intros o [= <-]. cbn [unconstrained triggered constraint_action]. split; [apply dval_from_decimal|].
    split; [intros code; by apply elem_of_triggered|]. split; [done|]. intros F. rewrite E0 in F. done.
  - intros c Hc Hh Hbc. exfalso. rewrite <- not_true_iff_false in Er. apply Er, existsb_exists.
    exists c. rewrite <- list_elem_of_In. split; [by apply breached_by_elem|]. by apply bool_decide_eq_true_2.
Qed.

(** ** The size that is let through is the largest *)

Definition limit_q ctx c : Q := Qmax (dval (constraint_ceiling c)) (measure_q ctx (constraint_measure c) 0).
Definition per_face_q ctx : Q := dval (dirty_per_face ctx) + dval (cost_per_face ctx).

(** The size a constraint allows in the direction of [x], in exact arithmetic. *)
Definition size_q ctx c x : Q :=
  match constraint_measure c with
  | InstrumentFace | PortfolioFace =>
      limit_q ctx c - measure_q ctx (constraint_measure c) 0
      + (if Qlt_le_dec (position_q ctx * x) 0 then Qabs (position_q ctx) * 2 else 0)
  | BorrowedCash =>
      if Qlt_le_dec x 0 then 0
      else if Qlt_le_dec 0 (per_face_q ctx)
      then (limit_q ctx c + dval (cash (context_book ctx)) - dval (fee_per_fill ctx)) / per_face_q ctx
      else 0
  end.

(** A face-type measure away from and back through the present position. *)
Lemma face_measure p x y :
  ~ x == 0 -> toward x y ->
  Qabs (p + y) == if Qlt_le_dec (p * x) 0 then Qabs (Qabs p - Qabs y) else Qabs p + Qabs y.
Proof.
  intros Hx Ht. destruct (Qlt_le_dec (p * x) 0) as [Hn|Hn].
  - destruct (Qlt_le_dec x 0) as [Hx0|Hx0].
    + assert (Hp : 0 < p) by nra. unfold toward in Ht. assert (Hy : y <= 0) by (destruct Ht; lra).
      rewrite (Qabs_pos p), (Qabs_neg y) by lra. assert (p - - y == p + y) as -> by ring. reflexivity.
    + assert (Hp : p < 0) by nra. unfold toward in Ht. assert (Hy : 0 <= y) by (destruct Ht; lra).
      rewrite (Qabs_neg p), (Qabs_pos y) by lra. rewrite <- Qabs_opp. assert (- (p + y) == - p - y) as -> by ring. reflexivity.
  - destruct (Qlt_le_dec x 0) as [Hx0|Hx0].
    + assert (Hp : p <= 0) by nra. unfold toward in Ht. assert (Hy : y <= 0) by (destruct Ht; lra).
      rewrite !Qabs_neg by lra. ring.
    + assert (Hp : 0 <= p) by nra. unfold toward in Ht. assert (Hy : 0 <= y) by (destruct Ht; lra).
      rewrite !Qabs_pos by lra. ring.
Qed.
(** Shrinking repairs a breach of a face measure, and of borrowed cash when buying costs cash. *)
Definition shrinkable ctx c x : Prop :=
  constraint_measure c <> BorrowedCash \/ (0 < x /\ 0 < per_face_q ctx).

Lemma Qmax_lt a b x : Qmax a b < x <-> a < x /\ b < x.
Proof. apply Q.max_lub_lt_iff. Qed.

Lemma face_threshold k p ceiling before x y size :
  ~ x == 0 -> toward x y -> before == k + Qabs p ->
  size == Qmax ceiling before - before + (if Qlt_le_dec (p * x) 0 then Qabs p * 2 else 0) ->
  (ceiling < k + Qabs (p + y) /\ before < k + Qabs (p + y)) <-> Qmax size 0 < Qabs y.
Proof.
  intros Hx Ht Eb Es. rewrite (Qmax_lt size 0), <- (Qmax_lt ceiling before), (face_measure p x y Hx Ht), Es.
  pose proof (Qabs_nonneg y) as Hy. pose proof (Qabs_nonneg p) as Hp.
  pose proof (Q.le_max_r ceiling before) as Hl. set (limit := Qmax ceiling before) in *.
  destruct (Qlt_le_dec (p * x) 0) as [Hn|Hn].
  - destruct (Qlt_le_dec (Qabs p - Qabs y) 0) as [Hd|Hd]; [rewrite Qabs_neg by lra|rewrite Qabs_pos by lra]; lra.
  - lra.
Qed.

Lemma measure_q_zero_face ctx c :
  constraint_measure c <> BorrowedCash ->
  exists k, (forall y, measure_q ctx (constraint_measure c) y == k + Qabs (position_q ctx + y))
    /\ measure_q ctx (constraint_measure c) 0 == k + Qabs (position_q ctx).
Proof.
  intros Hm. assert (E0 : position_q ctx + 0 == position_q ctx) by ring.
  destruct (constraint_measure c) eqn:E; cbn [measure_q]; [|..|done].
  - exists 0. split; [intros; ring|]. rewrite E0. ring.
  - exists (gross_q ctx - Qabs (position_q ctx)). split; [intros; ring|]. by rewrite E0.
Qed.

(** The size is a threshold: exactly the larger executions breach. *)
Lemma size_threshold ctx c x y :
  ~ x == 0 -> toward x y -> 0 <= dval (fee_per_fill ctx) -> shrinkable ctx c x ->
  breach_q ctx c y <-> Qmax (size_q ctx c x) 0 < Qabs y.
Proof.
  intros Hx Ht Hfee Hs. destruct (decide (constraint_measure c = BorrowedCash)) as [Em|Em].
  - destruct Hs as [|[Hx0 Hper]]; [done|]. unfold breach_q. rewrite <- Qmax_lt. fold (limit_q ctx c).
    unfold size_q. rewrite Em. destruct (Qlt_le_dec x 0); [lra|]. destruct (Qlt_le_dec 0 (per_face_q ctx)); [|lra].
    assert (Hy0 : 0 <= y) by (destruct Ht; lra). rewrite Qmax_lt, (Qabs_pos y) by done. cbn [measure_q].
    assert (Hl : 0 <= limit_q ctx c).
    { unfold limit_q. rewrite Em. eapply Qle_trans; [|apply Q.le_max_r]. apply Q.le_max_r. }
    set (n := limit_q ctx c + dval (cash (context_book ctx)) - dval (fee_per_fill ctx)).
    assert (Hdiv : n / per_face_q ctx < y <-> n < y * per_face_q ctx).
    { split; intros F.
      - apply (Qmult_lt_r _ _ (/ per_face_q ctx)); [by apply Qinv_lt_0_compat|].
        assert (y * per_face_q ctx * / per_face_q ctx == y) as -> by (field; lra). exact F.
      - by apply Qlt_shift_div_r. }
    rewrite Hdiv. destruct (Qeq_dec y 0) as [Ey|Ey].
    + split; [|intros [_ F]; lra]. intros F. exfalso. revert F. apply Qle_not_lt. unfold limit_q. rewrite Em.
      eapply Qle_trans; [|apply Q.le_max_r]. cbn [measure_q]. unfold cash_q. rewrite Ey. apply Qle_refl.
    + assert (Ec : - cash_q ctx y == y * per_face_q ctx + dval (fee_per_fill ctx) - dval (cash (context_book ctx))).
      { unfold cash_q, cost_q, per_face_q. destruct (Qeq_dec y 0); [done|]. rewrite Qabs_pos by done. ring. }
      rewrite Ec. unfold n. split.
      * intros F. split; [|lra]. destruct (Q.max_spec (y * per_face_q ctx + dval (fee_per_fill ctx)
          - dval (cash (context_book ctx))) 0) as [[_ E]|[_ E]]; rewrite E in F; lra.
      * intros [F _]. eapply Qlt_le_trans; [|apply Q.le_max_l]. lra.
  - destruct (measure_q_zero_face ctx c Em) as (k & Hk & E0). unfold breach_q. rewrite Hk.
    apply (face_threshold k (position_q ctx) (dval (constraint_ceiling c)) _ x y); [done|done|done|].
    unfold size_q, limit_q. destruct (constraint_measure c); [reflexivity|reflexivity|done].
Qed.

(** Otherwise every smaller execution breaches too, unless trading costs more than the price. *)
Lemma unshrinkable_breach ctx c x y z :
  toward x y -> toward x z -> ~ y == 0 -> Qabs y <= Qabs z ->
  (x < 0 -> dval (cost_per_face ctx) <= dval (dirty_per_face ctx)) ->
  ~ shrinkable ctx c x -> breach_q ctx c z -> breach_q ctx c y.
Proof.
  intros Hy Hz Hny Hle Hcost Hs. unfold shrinkable in Hs.
  destruct (decide (constraint_measure c = BorrowedCash)) as [Em|]; [|by destruct Hs; left].
  unfold breach_q. rewrite <- !Qmax_lt. fold (limit_q ctx c). rewrite Em. cbn [measure_q]. intros F.
  eapply Qlt_le_trans; [exact F|]. apply Q.max_le_compat_r.
  assert (Hnz : ~ z == 0).
  { intros E. rewrite E in Hle. change (Qabs 0) with 0 in Hle. apply Hny. apply Qabs_nz.
    pose proof (Qabs_nonneg y). lra. }
  unfold cash_q, cost_q. destruct (Qeq_dec y 0); [done|]. destruct (Qeq_dec z 0); [done|].
  destruct (Qlt_le_dec x 0) as [Hx|Hx].
  - specialize (Hcost Hx). assert (y <= 0) by (destruct Hy; lra). assert (z <= 0) by (destruct Hz; lra).
    rewrite (Qabs_neg y), (Qabs_neg z) in * by done. nra.
  - assert (Hper : per_face_q ctx <= 0).
    { apply Qnot_lt_le. intros Hper. apply Hs. right. split; [|done].
      destruct (Qle_lt_or_eq _ _ Hx) as [|E]; [done|]. rewrite <- E in Hy. destruct Hny. destruct Hy; lra. }
    unfold per_face_q in Hper. assert (0 <= y) by (destruct Hy; lra). assert (0 <= z) by (destruct Hz; lra).
    rewrite (Qabs_pos y), (Qabs_pos z) in * by done. nra.
Qed.
(** The divisions of the code round; what matters is that cutting the rounded quotient to the grid
    gives what cutting the exact one would. A quotient that is a decimal always does
    ([fits_cuts_exactly]). *)
Definition cuts_exactly (n d : Q) : Prop :=
  forall a b : Decimal, dval a == n -> dval b == d ->
  cut (Qmax (n / d) 0) (dval (round_to_zero (Z.of_nat DECIMAL_SCALE) (decimal_max (a / b)%dec ZERO_DECIMAL))).

Lemma fits_cuts_exactly n d : ~ d == 0 -> fits (n / d) -> cuts_exactly n d.
Proof.
  intros Hd Hf a b Ea Eb. apply to_zero_cut; [|apply Q.le_max_r].
  rewrite dval_max, dval_zero, dval_div; rewrite ?Ea, ?Eb; [reflexivity|done|done].
Qed.

(** The operations that compute the size a constraint allows are exact. *)
Definition size_exact ctx c (face : Decimal) : Prop :=
  measure_exact ctx (constraint_measure c) ZERO_DECIMAL /\
  match constraint_measure c with
  | InstrumentFace | PortfolioFace =>
      fits (limit_q ctx c - measure_q ctx (constraint_measure c) 0) /\ fits (Qabs (position_q ctx) * 2)
      /\ fits (size_q ctx c (dval face))
  | BorrowedCash =>
      let n := limit_q ctx c + dval (cash (context_book ctx)) in
      fits (per_face_q ctx) /\ fits n /\ fits (n - dval (fee_per_fill ctx))
      /\ cuts_exactly (n - dval (fee_per_fill ctx)) (per_face_q ctx)
  end.

Lemma cut_proper s s' r : s == s' -> cut s r -> cut s' r.
Proof. intros E. unfold cut. by rewrite E. Qed.

Lemma limit_val ctx c :
  measure_exact ctx (constraint_measure c) ZERO_DECIMAL ->
  dval (measure ctx (constraint_measure c) ZERO_DECIMAL) == measure_q ctx (constraint_measure c) 0
  /\ dval (decimal_max (constraint_ceiling c) (measure ctx (constraint_measure c) ZERO_DECIMAL)) == limit_q ctx c.
Proof.
  intros Hm. pose proof (measure_val _ _ _ Hm) as E. rewrite dval_zero in E. split; [done|].
  unfold limit_q. by rewrite dval_max, E.
Qed.

Lemma unwinding_spec ctx (face : Decimal) :
  ~ dval face == 0 ->
  negb (decimal_is_zero (context_position ctx))
    && negb (eqb (is_sign_negative (context_position ctx)) (is_sign_negative face))
  = if Qlt_le_dec (position_q ctx * dval face) 0 then true else false.
Proof.
  intros Hf. fold (position_q ctx). destruct (decimal_is_zero (context_position ctx)) eqn:Ez; cbn [negb andb].
  - apply decimal_is_zero_spec in Ez. fold (position_q ctx) in Ez. destruct (Qlt_le_dec _ _) as [F|]; [|done].
    rewrite Ez in F. exfalso. lra.
  - apply decimal_is_zero_false in Ez. pose proof (dval_negative _ Ez) as Np. pose proof (dval_negative _ Hf) as Nf.
    fold (position_q ctx) in Ez, Np. destruct (is_sign_negative (context_position ctx)), (is_sign_negative face);
      cbn [eqb negb]; destruct (Qlt_le_dec (position_q ctx * dval face) 0) as [Hlt|Hle]; try done; exfalso.
    + assert (position_q ctx < 0) by (by apply Np). assert (dval face < 0) by (by apply Nf). nra.
    + assert (position_q ctx < 0) by (by apply Np).
      assert (0 <= dval face) by (apply Qnot_lt_le; intros F; by apply Nf in F).
      assert (0 < dval face) by (destruct (Qle_lt_or_eq _ _ H3) as [|E]; [done|by destruct Hf; rewrite E]). nra.
    + assert (dval face < 0) by (by apply Nf).
      assert (0 <= position_q ctx) by (apply Qnot_lt_le; intros F; by apply Np in F).
      assert (0 < position_q ctx) by (destruct (Qle_lt_or_eq _ _ H3) as [|E]; [done|by destruct Ez; rewrite E]). nra.
    + assert (0 <= dval face) by (apply Qnot_lt_le; intros F; by apply Nf in F).
      assert (0 <= position_q ctx) by (apply Qnot_lt_le; intros F; by apply Np in F). nra.
Qed.
Lemma allowed_magnitude_size ctx c face :
  ~ dval face == 0 -> size_exact ctx c face ->
  cut (Qmax (size_q ctx c (dval face)) 0) (dval (allowed_magnitude ctx c face)).
Proof.
  intros Hf [Hm Hs]. destruct (limit_val ctx c Hm) as [Eb El].
  pose proof (dval_negative _ Hf) as Nf.
  destruct (decide (constraint_measure c = BorrowedCash)) as [Em|Em].
  - rewrite Em in Hs. destruct Hs as (Hp & Hn & Hnf & Hcut). unfold allowed_magnitude, allowed_size, size_q.
    rewrite Em in *. pose proof (dval_add _ _ Hp) as Ep. fold (per_face_q ctx) in Ep.
    destruct (is_sign_negative face) eqn:En; cbn [orb].
    + assert (dval face < 0) by (by apply Nf). destruct (Qlt_le_dec (dval face) 0); [|lra].
      apply to_zero_cut; [|apply Q.le_max_r]. by rewrite dval_max, dval_zero.
    + destruct (Qlt_le_dec (dval face) 0) as [F|_]; [by apply Nf in F|].
      destruct (decimal_leb _ ZERO_DECIMAL) eqn:Ez.
      * apply decimal_leb_spec in Ez. rewrite Ep, dval_zero in Ez. destruct (Qlt_le_dec 0 (per_face_q ctx)); [lra|].
        apply to_zero_cut; [|apply Q.le_max_r]. by rewrite dval_max, dval_zero.
      * rewrite <- not_true_iff_false, decimal_leb_spec, Ep, dval_zero in Ez.
        destruct (Qlt_le_dec 0 (per_face_q ctx)); [|done]. apply Hcut; [|done].
        assert (En' : dval (decimal_max (constraint_ceiling c) (measure ctx BorrowedCash ZERO_DECIMAL)
                            + cash (context_book ctx))%dec == limit_q ctx c + dval (cash (context_book ctx)))
          by (rewrite dval_add; rewrite El; [reflexivity|done]).
        rewrite dval_sub; rewrite En'; [reflexivity|done].
  - apply to_zero_cut; [|apply Q.le_max_r]. rewrite dval_max, dval_zero.
    assert (Es : fits (limit_q ctx c - measure_q ctx (constraint_measure c) 0)
                 /\ fits (Qabs (position_q ctx) * 2) /\ fits (size_q ctx c (dval face)))
      by (destruct (constraint_measure c); done).
    destruct Es as (F1 & F2 & F3).
    assert (Ed : dval (decimal_max (constraint_ceiling c) (measure ctx (constraint_measure c) ZERO_DECIMAL)
                       - measure ctx (constraint_measure c) ZERO_DECIMAL)%dec
                 == limit_q ctx c - measure_q ctx (constraint_measure c) 0)
      by (rewrite dval_sub; rewrite El, Eb; [reflexivity|done]).
    assert (Ef : dval (if Qlt_le_dec (position_q ctx * dval face) 0
                       then (decimal_abs (context_position ctx) * TWO_DECIMAL)%dec else ZERO_DECIMAL)
                 == if Qlt_le_dec (position_q ctx * dval face) 0 then Qabs (position_q ctx) * 2 else 0).
    { destruct (Qlt_le_dec _ _); [|apply dval_zero].
      rewrite dval_mul; rewrite dval_abs, dval_two; [reflexivity|done]. }
    assert (Esz : size_q ctx c (dval face) == limit_q ctx c - measure_q ctx (constraint_measure c) 0
      + (if Qlt_le_dec (position_q ctx * dval face) 0 then Qabs (position_q ctx) * 2 else 0))
      by (unfold size_q; destruct (constraint_measure c); [reflexivity|reflexivity|done]).
    assert (Ea : dval (allowed_size ctx c face) == size_q ctx c (dval face)).
    { rewrite Esz in F3 |- *.
      transitivity (dval (decimal_max (constraint_ceiling c) (measure ctx (constraint_measure c) ZERO_DECIMAL)
                       - measure ctx (constraint_measure c) ZERO_DECIMAL
                       + if Qlt_le_dec (position_q ctx * dval face) 0
                         then decimal_abs (context_position ctx) * TWO_DECIMAL else ZERO_DECIMAL)%dec).
      - unfold allowed_size. cbv zeta. rewrite unwinding_spec by done.
        destruct (constraint_measure c); [|..|done]; destruct (Qlt_le_dec _ _); reflexivity.
      - rewrite dval_add; rewrite Ed, Ef; [reflexivity|done]. }
    by rewrite Ea.
Qed.
(** Costs are not negative, and trading costs no more than the price. *)
Definition costs_regular ctx : Prop :=
  0 <= dval (fee_per_fill ctx) /\ dval (cost_per_face ctx) <= dval (dirty_per_face ctx).

(** A size beyond the one that all breached constraints allow breaches one of them. *)
Lemma beyond_allowed cs ctx face y :
  ~ dval face == 0 -> 0 <= dval (fee_per_fill ctx) -> checks_exact cs ctx face ->
  (forall c, c ∈ cs -> breach_q ctx c (dval face) -> size_exact ctx c face) ->
  dval (cost_per_face ctx) <= dval (dirty_per_face ctx) ->
  toward (dval face) y -> on_grid y -> Qabs (dval (allowed_face ctx (breached_by ctx cs face) face)) < Qabs y ->
  exists c, c ∈ cs /\ breach_q ctx c y.
Proof.
  intros Hf Hfee He Hs Hcost Hy [k Ek] Hlt. unfold allowed_face in Hlt.
  set (sizes := (fun c => allowed_magnitude ctx c face) <$> breached_by ctx cs face) in Hlt.
  pose proof (fold_min_spec (decimal_abs face) sizes) as (M1 & _ & M3). set (m := foldl _ _ _) in *.
  pose proof (dval_abs face) as Ea. pose proof (toward_abs _ _ Hy) as Hya.
  assert (Hm : 0 <= dval m <= Qabs (dval face)).
  { split; [|lra]. destruct M3 as [E|(x & (c & -> & _)%list_elem_of_fmap & E)]; rewrite E.
    - rewrite Ea. apply Qabs_nonneg.
    - apply allowed_magnitude_cut. }
  destruct (signed_like_val face m Hm) as [_ Hsm]. rewrite Hsm in Hlt.
  destruct M3 as [E|(x & (c & -> & Hc)%list_elem_of_fmap & E)]; [exfalso; lra|].
  apply breached_by_elem in Hc as [Hc Hb]; [|done]. exists c. split; [done|].
  destruct (allowed_magnitude_size ctx c face Hf (Hs c Hc Hb)) as ((j & Ej) & H0j & Hj).
  assert (Hny : ~ y == 0) by (intros F; rewrite F in Hlt; change (Qabs 0) with 0 in Hlt; lra).
  assert (Hsz : Qmax (size_q ctx c (dval face)) 0 < Qabs y).
  { destruct Hj as [_ Hj]. eapply Qlt_le_trans; [exact Hj|]. rewrite Ej.
    assert (Eya : exists l, Qabs y == inject_Z l / grid).
    { destruct (Qlt_le_dec y 0).
      - exists (- k)%Z. rewrite Qabs_neg, Ek, inject_Z_opp by lra. unfold Qdiv. ring.
      - exists k. by rewrite Qabs_pos. }
    destruct Eya as [l El]. rewrite El. apply grid_step. by rewrite <- El, <- Ej, <- E. }
  destruct (decide (constraint_measure c = BorrowedCash)) as [Em|Em].
  - destruct (Qlt_le_dec 0 (dval face)) as [Hpos|Hneg]; [destruct (Qlt_le_dec 0 (per_face_q ctx)) as [Hper|Hper]|].
    + by apply (size_threshold ctx c (dval face)); [..|right|].
    + eapply (unshrinkable_breach ctx c (dval face) y (dval face)); [done|apply toward_refl|done|done|done|..|done].
      intros [|[_ F]]; [done|lra].
    + eapply (unshrinkable_breach ctx c (dval face) y (dval face)); [done|apply toward_refl|done|done|done|..|done].
      intros [|[F _]]; [done|lra].
  - by apply (size_threshold ctx c (dval face)); [..|left|].
Qed.

(** A size that the breached constraints allow and another constraint refuses: the refusal is one that
    shrinking cannot repair. *)
Lemma refused_size cs ctx face c y :
  ~ dval face == 0 -> 0 <= dval (fee_per_fill ctx) -> checks_exact cs ctx face ->
  (forall c, c ∈ cs -> breach_q ctx c (dval face) -> size_exact ctx c face) ->
  dval (cost_per_face ctx) <= dval (dirty_per_face ctx) ->
  c ∈ cs -> breach_q ctx c (dval (allowed_face ctx (breached_by ctx cs face) face)) ->
  toward (dval face) y -> ~ y == 0 ->
  Qabs y <= Qabs (dval (allowed_face ctx (breached_by ctx cs face) face)) -> breach_q ctx c y.
Proof.
  intros Hf Hfee He Hs Hcost Hc Hb Hy Hny Hle.
  destruct (allowed_face_spec ctx (breached_by ctx cs face) face) as (Ht & _ & Ha).
  set (a := allowed_face _ _ _) in *. pose proof (toward_abs _ _ Ht) as Hta.
  assert (Hup : shrinkable ctx c (dval face) -> False).
  { intros Hsh. pose proof Hb as Hb'. apply (size_threshold ctx c (dval face)) in Hb'; [|done..].
    assert (Hbf : breach_q ctx c (dval face)).
    { apply (size_threshold ctx c (dval face)); [done|apply toward_refl|done|done|]. lra. }
    specialize (Ha c ltac:(by apply breached_by_elem)).
    destruct (allowed_magnitude_size ctx c face Hf (Hs c Hc Hbf)) as (_ & _ & Hcut & _). lra. }
  by apply (unshrinkable_breach ctx c (dval face) y (dval a)).
Qed.

Lemma check_execution_largest_spec cs ctx face allowed outcome y :
  exact_toward cs ctx face -> costs_regular ctx ->
  (forall c, c ∈ cs -> breach_q ctx c (dval face) -> size_exact ctx c face) ->
  (forall c, c ∈ cs -> breach_q ctx c (dval face) -> constraint_handling c = Reduce) ->
  check_execution cs ctx face = (allowed, outcome) ->
  toward (dval face) y -> on_grid y -> (forall c, c ∈ cs -> ~ breach_q ctx c y) -> Qabs y <= Qabs (dval allowed).
Proof.
  intros Hex [Hfee Hcost] Hs Hr E Hy Hg Hsafe. pose proof (toward_abs _ _ Hy) as Hya.
  assert (He : checks_exact cs ctx face) by (apply Hex; [apply toward_refl|right; reflexivity]).
  assert (E0 : forall d, dval (from_decimal d) == dval d) by apply dval_from_decimal.
  unfold check_execution in E. cbv zeta in E. destruct (decimal_is_zero face) eqn:Ez.
  { apply decimal_is_zero_spec in Ez. injection E as <- <-. rewrite Ez in Hya.
    rewrite (dval_zero : dval amount_zero == 0). exact Hya. }
  apply decimal_is_zero_false in Ez. case_bool_decide as Hb; [injection E as <- <-; by rewrite E0|].
  destruct (existsb _ (breached_by ctx cs face)) eqn:Er.
  { apply existsb_exists in Er as (c & Hin & Hh%bool_decide_eq_true). apply list_elem_of_In in Hin.
    apply breached_by_elem in Hin as [Hc Hbc]; [|done]. rewrite (Hr c Hc Hbc) in Hh. discriminate Hh. }
  assert (Hbeyond : Qabs y <= Qabs (dval (allowed_face ctx (breached_by ctx cs face) face))).
  { apply Qnot_lt_le. intros Hlt. destruct (beyond_allowed cs ctx face y) as (c & Hc & Hbc); [done..|].
    by apply (Hsafe c). }
  destruct (_ || _) eqn:Ea; injection E as <- <-; [|by rewrite E0].
  rewrite (dval_zero : dval amount_zero == 0). change (Qabs 0) with 0.
  apply orb_true_iff in Ea as [Ea|Ea].
  - apply decimal_is_zero_spec in Ea. rewrite Ea in Hbeyond. exact Hbeyond.
  - apply existsb_exists in Ea as (c & Hc & Hbc). apply list_elem_of_In in Hc.
    destruct (allowed_face_spec ctx (breached_by ctx cs face) face) as (Ht & Hgr & _).
    apply (breaches_spec cs) in Hbc; [|by apply Hex|done].
    destruct (Qeq_dec y 0) as [->|Hny]; [change (Qabs 0) with 0; lra|]. exfalso. apply (Hsafe c Hc).
    by apply (refused_size cs ctx face).
Qed.
End spec.

(** ** Examples and properties *)

Section sizes.
Context `{DecimalArithLaws}.
Local Open Scope Q_scope.

Lemma on_grid_add x y : on_grid x -> on_grid y -> on_grid (x + y).
Proof. intros [j Ej] [k Ek]. exists (j + k)%Z. rewrite Ej, Ek, inject_Z_plus. field. pose proof grid_pos. lra. Qed.

Lemma on_grid_Z z : on_grid (inject_Z z).
Proof. exists (z * 10 ^ Z.of_nat DECIMAL_SCALE)%Z. rewrite inject_Z_mult. fold grid. field. pose proof grid_pos. lra. Qed.

(** Amounts of up to 10^16 with the decimal places of the platform are decimals. *)
Lemma fits_on_grid x : on_grid x -> Qabs x <= inject_Z (10 ^ 16) -> fits x.
Proof.
  intros [k Ek] Hx. exists k, (Z.of_nat DECIMAL_SCALE). split; [|exact Ek]. split; [|unfold DECIMAL_SCALE; lia].
  rewrite Ek in Hx. unfold Qdiv in Hx. rewrite Qabs_Qmult, (Qabs_pos (/ grid)) in Hx
    by (apply Qlt_le_weak, Qinv_lt_0_compat, grid_pos).
  apply (Qmult_le_r _ _ grid grid_pos) in Hx. rewrite <- Qmult_assoc, (Qmult_comm (/ grid)), Qmult_inv_r, Qmult_1_r in Hx
    by (pose proof grid_pos; lra).
  change (Qabs (inject_Z k)) with (inject_Z (Z.abs k)) in Hx. unfold grid in Hx. rewrite <- inject_Z_mult, <- Zle_Qle in Hx.
  change (10 ^ 16 * 10 ^ Z.of_nat DECIMAL_SCALE)%Z with 10000000000000000000000000000%Z in Hx.
  change (2 ^ 96)%Z with 79228162514264337593543950336%Z. lia.
Qed.
End sizes.

Definition sample_bond (s : string) : VersionRef := {| vr_id := mk_ulid s; vr_version := mk_version 1 |}.

Definition sample_book (held : list (VersionRef * Z)) (money : Z) : @SimulatedBook sample_rust_decimal :=
  @add_cash _ sample_arith
    (foldl (fun b p => @add_position _ sample_arith b p.1 (@decimal_of_Z sample_rust_decimal p.2))
       (@empty_book sample_rust_decimal) held) (@decimal_of_Z sample_rust_decimal money).

(** One unit of cash per unit of face. *)
Definition sample_context (book : @SimulatedBook sample_rust_decimal) (fee : Z) : @ExecutionContext sample_rust_decimal :=
  {| context_book := book; context_instrument := sample_bond "A";
     dirty_per_face := (1, 0%nat) : @Decimal sample_rust_decimal; cost_per_face := (0, 0%nat); fee_per_fill := (fee, 0%nat) |}.

Definition sample_limit (m : ConstraintMeasure) (ceiling : Z) (h : ConstraintHandling)
    : @ReplayConstraint sample_rust_decimal :=
  {| constraint_code := measure_code m; constraint_measure := m;
     constraint_ceiling := (ceiling, 0%nat) : @Decimal sample_rust_decimal; constraint_handling := h |}.

Definition sample_check (limits : list (@ReplayConstraint sample_rust_decimal)) (held : list (VersionRef * Z))
    (money face fee : Z) :=
  let r := @check_execution _ sample_arith limits (sample_context (sample_book held money) fee)
             (@decimal_of_Z sample_rust_decimal face) in
  (@decimal_normalize _ sample_arith r.1, (fun o => constraint_action o) <$> r.2).

(** The cases of the tests beside the code. *)
Example reducing_an_excess_passes :
  sample_check [sample_limit InstrumentFace 6000000 Reject] [(sample_bond "A", 10000000)] (-10000000) (-3000000) 0
    = ((-3000000, 0%nat), None)
  /\ sample_check [sample_limit InstrumentFace 6000000 Reject] [(sample_bond "A", 10000000)] (-10000000) 1 0
    = ((0, 0%nat), Some Rejected).
Proof. split; vm_compute; reflexivity. Qed.

Example crossing_through_zero_is_reduced :
  sample_check [sample_limit InstrumentFace 6000000 Reduce] [(sample_bond "A", 4000000)] 0 (-15000000) 0
    = ((-10000000, 0%nat), Some Reduced).
Proof. vm_compute. reflexivity. Qed.

Example portfolio_face_counts_all_positions :
  sample_check [sample_limit PortfolioFace 10000000 Reduce] [(sample_bond "B", 7000000)] 0 5000000 0
    = ((3000000, 0%nat), Some Reduced).
Proof. vm_compute. reflexivity. Qed.

Example borrowed_cash_counts_the_fee :
  sample_check [sample_limit BorrowedCash 1000 Reduce] [(sample_bond "A", 100)] (-900) 80 50 = ((50, 0%nat), Some Reduced)
  /\ sample_check [sample_limit BorrowedCash 1000 Reduce] [(sample_bond "A", 100)] (-990) (-10) 50
     = ((0, 0%nat), Some Rejected).
Proof. split; vm_compute; reflexivity. Qed.

(** A sale of 15 million from 4 million held, with at most 6 million either way. *)
Definition sample_limits : list (@ReplayConstraint sample_rust_decimal) :=
  [sample_limit InstrumentFace 6000000 Reduce].
Definition sample_crossing : @ExecutionContext sample_rust_decimal :=
  sample_context (sample_book [(sample_bond "A", 4000000)] 0) 0.
Definition sample_sale : @Decimal sample_rust_decimal := (-15000000, 0%nat).

Section crossing.
Local Open Scope Q_scope.
Local Existing Instance sample_rust_decimal.
Local Existing Instance sample_arith.
Local Existing Instance sample_arith_laws.

Lemma fits_integer q z : q == inject_Z z -> (Z.abs z <= 10 ^ 16)%Z -> fits q.
Proof.
  intros E Hz. apply fits_on_grid; rewrite E; [apply on_grid_Z|]. change (Qabs (inject_Z z)) with (inject_Z (Z.abs z)).
  by rewrite <- Zle_Qle.
Qed.

Lemma sample_crossing_position : position_q sample_crossing == inject_Z 4000000.
Proof. vm_compute. reflexivity. Qed.

Lemma sample_exact_toward : exact_toward sample_limits sample_crossing sample_sale.
Proof.
  assert (Ef : dval sample_sale == inject_Z (-15000000)) by (vm_compute; reflexivity).
  intros f Ht Hg c [->|[]%not_elem_of_nil]%elem_of_cons. cbn [constraint_measure sample_limit measure_exact].
  split; [|apply (fits_integer _ 4000000); [rewrite sample_crossing_position; vm_compute; reflexivity|done]].
  assert (Hgf : on_grid (dval f)) by (destruct Hg as [|E]; [done|]; rewrite E, Ef; apply on_grid_Z).
  rewrite sample_crossing_position. apply fits_on_grid; [apply on_grid_add; [apply on_grid_Z|done]|].
  rewrite Ef in Ht. unfold toward in Ht. apply Qabs_Qle_condition.
  change (inject_Z (-15000000)) with (-15000000 # 1) in Ht. change (inject_Z 4000000) with (4000000 # 1).
  change (inject_Z (10 ^ 16)) with (10000000000000000 # 1). destruct Ht; lra.
Qed.

Lemma sample_size_exact c : c ∈ sample_limits -> size_exact sample_crossing c sample_sale.
Proof.
  intros [->|[]%not_elem_of_nil]%elem_of_cons. split; cbn [constraint_measure sample_limit measure_exact].
  - apply (fits_integer _ 4000000); [vm_compute; reflexivity|done].
  - split; [apply (fits_integer _ 2000000)|split; [apply (fits_integer _ 8000000)|apply (fits_integer _ 10000000)]];
      first [vm_compute; reflexivity|done].
Qed.
End crossing.

(** C12. A constraint check lets through a safe part of the execution: what it lets through is in the
    direction of the requested face and no larger, breaches no constraint, and is the requested face
    when no constraint is breached at it; otherwise the outcome names exactly the breached
    constraints, the action says whether anything is left, and a breached constraint that is declared
    REJECT leaves nothing. Sizes the platform can express are assumed to be measured exactly. *)
Theorem check_execution_sound `{DecimalArithLaws} cs ctx face allowed outcome :
  exact_toward cs ctx face -> check_execution cs ctx face = (allowed, outcome) ->
  check_spec cs ctx face allowed outcome.
Proof. apply check_execution_spec. Qed.

Lemma check_execution_sound_witness :
  let r := @check_execution _ sample_arith sample_limits sample_crossing sample_sale in
  (@dval sample_rust_decimal r.1 == -10000000)%Q
  /\ @check_spec _ sample_limits sample_crossing sample_sale r.1 r.2.
Proof.
  split; [vm_compute; reflexivity|].
  apply (@check_execution_sound sample_rust_decimal sample_arith sample_arith_laws sample_limits sample_crossing
    sample_sale); [apply sample_exact_toward|apply surjective_pairing].
Defined.

(** A reduced execution is the largest one: when every breached constraint is declared REDUCE,
    no larger multiple of the last decimal place, in the direction of the requested face, respects
    all constraints (and none at all, when the execution is refused). Fees are not negative and
    trading costs no more than the price. *)
Theorem check_execution_largest `{DecimalArithLaws} cs ctx face allowed outcome y :
  exact_toward cs ctx face -> costs_regular ctx ->
  (forall c, c ∈ cs -> breach_q ctx c (dval face) -> size_exact ctx c face) ->
  (forall c, c ∈ cs -> breach_q ctx c (dval face) -> constraint_handling c = Reduce) ->
  check_execution cs ctx face = (allowed, outcome) ->
  toward (dval face) y -> on_grid y -> (forall c, c ∈ cs -> ~ breach_q ctx c y) ->
  (Qabs y <= Qabs (dval allowed))%Q.
Proof. apply check_execution_largest_spec. Qed.

Lemma check_execution_largest_witness :
  ~ (forall c, c ∈ sample_limits -> ~ @breach_q _ sample_crossing c (-12000000)%Q).
Proof.
  intros Hsafe.
  assert (F : (Qabs (-12000000) <= Qabs (@dval sample_rust_decimal
    (@check_execution _ sample_arith sample_limits sample_crossing sample_sale).1))%Q).
  { eapply (@check_execution_largest sample_rust_decimal sample_arith sample_arith_laws sample_limits sample_crossing
      sample_sale _ _ (-12000000)%Q).
    - apply sample_exact_toward.
    - split; vm_compute; discriminate.
    - intros c Hc _. by apply sample_size_exact.
    - by intros c [->|[]%not_elem_of_nil]%elem_of_cons _.
    - apply surjective_pairing.
    - right. split; vm_compute; discriminate.
    - apply (on_grid_Z (-12000000)).
    - exact Hsafe. }
  vm_compute in F. by destruct F.
Defined.
