(* ===== verification/Ledger.v ===== *)
(** * Replay accounting

    [crates/ficant-domain/src/replay/ledger.rs]: the book of a replay and its profit and loss, one
    step of the bar grid at a time. A step is opened (the date rolls, funding and coupons are booked,
    positions are marked), executions are settled into it, and it is finished by booking a row whose
    four components must add up to the change in equity.

    An operation that fails returns its error only; the code may leave a half-updated ledger behind,
    which its caller drops. *)

From Stdlib Require Import ZArith Lia QArith Qabs Qminmax Lqa Strings.String.
From stdpp Require Import base list option strings numbers sorting sets.
From S2P Require Import Prelude Machine Collections Primitives FixedDecimal Concrete Digits DecimalValue Bar Amount Book Execution Subject Constraints.
Open Scope Z_scope.

Definition COST_NONE : string := "ficant.cost.none".
Definition COST_RATE_PLUS_FIXED : string := "ficant.cost.rate-plus-fixed".

(** [BondCarry]: coupon data per 100 face. The trait is the boundary of this crate; its
    implementations own bond terms, day counts and settlement dates. *)
Class BondCarry `{RustDecimal} : Type := {
  carry_source : VersionRef;
  carry_identity : ContentHash;
  accrued_interest : VersionRef -> BarSettlement -> NaiveDate -> option ReplayAmount;
  coupon_paid : VersionRef -> BarSettlement -> NaiveDate -> NaiveDate -> option ReplayAmount
}.

(** [(later - earlier).num_days()] of [chrono]. *)
Class ChronoDays : Type := num_days : NaiveDate -> NaiveDate -> Z.

Section ledger.
Context `{DecimalArith} `{!BondCarry} `{ChronoDays}.

(** ** Costs and funding terms *)

Inductive CostModel :=
| CostNone
| RatePlusFixed (face_rate_bp fee : ReplayAmount).

Definition cost_model_from_declaration (name : string) (parameters : BTreeMap string ReplayAmount)
    : DomainResult CostModel :=
  if bool_decide (name = COST_NONE) then Ok CostNone
  else if bool_decide (name = COST_RATE_PLUS_FIXED) then
    if negb (bool_decide (btree_keys parameters = ["face_rate_bp"; "fee_per_fill"]%string)) then Err InvalidValue else
    match btree_get "face_rate_bp"%string parameters, btree_get "fee_per_fill"%string parameters with
    | Some face_rate_bp, Some fee =>
        if is_sign_negative face_rate_bp || is_sign_negative fee then Err InvalidValue
        else Ok (RatePlusFixed face_rate_bp fee)
    | _, _ => Err InvalidValue
    end
  else Err InvalidValue.

(** Signed cost, zero or negative, of executing some face. *)
Definition execution_cost (self : CostModel) (executed : ReplayAmount) : ReplayAmount :=
  match self with
  | CostNone => amount_zero
  | RatePlusFixed face_rate_bp fee =>
      if amount_is_zero executed then amount_zero
      else from_decimal (- (decimal_abs executed * face_rate_bp / BASIS_POINTS + fee))%dec
  end.

Record ReplayFunding := {
  funding_rule_pack : VersionRef;
  replay_tier : FundingTier;
  annual_rate : ReplayAmount;
  day_basis : Z
}.

Definition replay_funding_new (rule_pack : VersionRef) (tier : FundingTier) (annual_rate : ReplayAmount)
    (day_basis : Z) : DomainResult ReplayFunding :=
  if day_basis =? 0 then Err InvalidValue
  else Ok {| funding_rule_pack := rule_pack; replay_tier := tier; annual_rate := annual_rate;
             day_basis := day_basis |}.

(** ** Rows *)

Record InstrumentPnl := {
  position_start : ReplayAmount;
  position_end : ReplayAmount;
  pnl_mark : ReplayAmount;
  pnl_accrued : ReplayAmount;
  pnl_price : ReplayAmount;
  pnl_coupon : ReplayAmount;
  pnl_cost : ReplayAmount
}.

Record BarPnl := {
  row_start : DateTime;
  row_end : DateTime;
  known_at : DateTime;
  row_date : NaiveDate;
  row_instruments : BTreeMap VersionRef InstrumentPnl;
  row_funding : ReplayAmount;
  row_total : ReplayAmount;
  row_cash : ReplayAmount;
  row_equity : ReplayAmount
}.

Definition row_sum (self : BarPnl) (field : InstrumentPnl -> ReplayAmount) : ReplayAmount :=
  from_decimal (decimal_sum (field <$> btree_values (row_instruments self))).
Definition row_price (self : BarPnl) : ReplayAmount := row_sum self pnl_price.
Definition row_coupon (self : BarPnl) : ReplayAmount := row_sum self pnl_coupon.
Definition row_cost (self : BarPnl) : ReplayAmount := row_sum self pnl_cost.
Definition components_total (self : BarPnl) : ReplayAmount :=
  from_decimal (row_price self + row_coupon self + row_funding self + row_cost self)%dec.

(** ** The ledger *)

Record Parts := { part_price : Decimal; part_coupon : Decimal; part_cost : Decimal }.

Definition no_parts : Parts := {| part_price := ZERO_DECIMAL; part_coupon := ZERO_DECIMAL; part_cost := ZERO_DECIMAL |}.

Record OpenStep := {
  step_start : DateTime;
  step_end : DateTime;
  step_date : NaiveDate;
  step_known_at : DateTime;
  step_records : list (VersionRef * string);
  step_positions : BTreeMap VersionRef Decimal;
  step_parts : BTreeMap VersionRef Parts;
  step_funding : Decimal;
  step_closes : BTreeMap VersionRef Decimal
}.

Record ReplayLedger := {
  ledger_funding : ReplayFunding;
  ledger_costs : CostModel;
  ledger_settlement : BarSettlement;
  ledger_book : SimulatedBook;
  marks : BTreeMap VersionRef Decimal;
  accrued : BTreeMap VersionRef Decimal;
  ledger_date : option NaiveDate;
  equity : Decimal;
  ledger_rows : list BarPnl;
  open_step_of : option OpenStep
}.

Definition ledger_new (funding : ReplayFunding) (costs : CostModel) (settlement : BarSettlement) : ReplayLedger := {|
  ledger_funding := funding; ledger_costs := costs; ledger_settlement := settlement;
  ledger_book := empty_book; marks := []; accrued := []; ledger_date := None;
  equity := ZERO_DECIMAL; ledger_rows := []; open_step_of := None
|}.

(** Updates of single fields. *)
Definition with_book (self : ReplayLedger) (b : SimulatedBook) (a : BTreeMap VersionRef Decimal) : ReplayLedger := {|
  ledger_funding := ledger_funding self; ledger_costs := ledger_costs self;
  ledger_settlement := ledger_settlement self; ledger_book := b; marks := marks self; accrued := a;
  ledger_date := ledger_date self; equity := equity self; ledger_rows := ledger_rows self;
  open_step_of := open_step_of self
|}.
Definition with_date (self : ReplayLedger) (d : NaiveDate) : ReplayLedger := {|
  ledger_funding := ledger_funding self; ledger_costs := ledger_costs self;
  ledger_settlement := ledger_settlement self; ledger_book := ledger_book self; marks := marks self;
  accrued := accrued self; ledger_date := Some d; equity := equity self; ledger_rows := ledger_rows self;
  open_step_of := open_step_of self
|}.
Definition with_open (self : ReplayLedger) (o : option OpenStep) : ReplayLedger := {|
  ledger_funding := ledger_funding self; ledger_costs := ledger_costs self;
  ledger_settlement := ledger_settlement self; ledger_book := ledger_book self; marks := marks self;
  accrued := accrued self; ledger_date := ledger_date self; equity := equity self;
  ledger_rows := ledger_rows self; open_step_of := o
|}.
Definition with_marks (self : ReplayLedger) (m : BTreeMap VersionRef Decimal) : ReplayLedger := {|
  ledger_funding := ledger_funding self; ledger_costs := ledger_costs self;
  ledger_settlement := ledger_settlement self; ledger_book := ledger_book self; marks := m;
  accrued := accrued self; ledger_date := ledger_date self; equity := equity self;
  ledger_rows := ledger_rows self; open_step_of := open_step_of self
|}.

(** [parts.entry(instrument).or_default()], then an update in place. *)
Definition update_part (instrument : VersionRef) (f : Parts -> Parts) (parts : BTreeMap VersionRef Parts)
    : BTreeMap VersionRef Parts :=
  btree_insert instrument (f (default no_parts (btree_get instrument parts))) parts.
Definition add_price (amount : Decimal) (p : Parts) : Parts :=
  {| part_price := (part_price p + amount)%dec; part_coupon := part_coupon p; part_cost := part_cost p |}.
Definition add_coupon (amount : Decimal) (p : Parts) : Parts :=
  {| part_price := part_price p; part_coupon := (part_coupon p + amount)%dec; part_cost := part_cost p |}.
Definition add_cost (amount : Decimal) (p : Parts) : Parts :=
  {| part_price := part_price p; part_coupon := part_coupon p; part_cost := (part_cost p + amount)%dec |}.

(** *** Rolling the date *)

(** Funding on yesterday's borrowed cash, rounded to the platform scale. *)
Definition funding_charge (self : ReplayLedger) (days : Z) : Decimal :=
  let borrowed := decimal_max (- cash (ledger_book self))%dec ZERO_DECIMAL in
  round_nearest_even (Z.of_nat DECIMAL_SCALE)
    (- (borrowed * annual_rate (ledger_funding self) * decimal_of_Z days
        / decimal_of_Z (day_basis (ledger_funding self))))%dec.

(** Coupon carry of one overnight position. *)
Definition roll_position (previous date : NaiveDate) (st : ReplayLedger * BTreeMap VersionRef Parts)
    (held : VersionRef * Decimal) : DomainResult (ReplayLedger * BTreeMap VersionRef Parts) :=
  let '(self, parts) := st in
  let '(instrument, face) := held in
  before ← ok_or (btree_get instrument (accrued self)) BrokenLineage;
  after ← ok_or (accrued_interest instrument (ledger_settlement self) date) BrokenLineage;
  paid ← ok_or (coupon_paid instrument (ledger_settlement self) previous date) BrokenLineage;
  Ok (with_book self (add_cash (ledger_book self) (face * paid / ONE_HUNDRED)%dec)
        (btree_insert instrument after (accrued self)),
      update_part instrument (add_coupon (face * (after - before + paid) / ONE_HUNDRED)%dec) parts).

Definition roll_date (self : ReplayLedger) (date : NaiveDate) (start : BTreeMap VersionRef Decimal)
    (parts : BTreeMap VersionRef Parts) : DomainResult (ReplayLedger * BTreeMap VersionRef Parts * Decimal) :=
  let rolled := with_date self date in
  match ledger_date self with
  | Some previous =>
      if bool_decide (previous = date) then Ok (rolled, parts, ZERO_DECIMAL) else
      let funding := funding_charge rolled (num_days previous date) in
      let charged := with_book rolled (add_cash (ledger_book rolled) funding) (accrued rolled) in
      '(self, parts) ← try_fold (roll_position previous date) (charged, parts) start;
      Ok (self, parts, funding)
  | None => Ok (rolled, parts, ZERO_DECIMAL)
  end.

(** *** Steps *)

Definition closes_of (bars : list Bar) : BTreeMap VersionRef Decimal :=
  btree_collect (omap (fun bar =>
    (fun prices => (instrument bar, amount_of (close prices) : Decimal)) <$> prices bar) bars).

(** Marking one position held into the step. *)
Definition mark_position (ms closes : BTreeMap VersionRef Decimal) (parts : BTreeMap VersionRef Parts)
    (held : VersionRef * Decimal) : DomainResult (BTreeMap VersionRef Parts) :=
  let '(instrument, face) := held in
  previous ← ok_or (btree_get instrument ms) BrokenLineage;
  let mark := default previous (btree_get instrument closes) in
  Ok (update_part instrument (add_price (face * (mark - previous) / ONE_HUNDRED)%dec) parts).

Definition inconsistent (first bar : Bar) : bool :=
  negb (bool_decide (bar_end bar = bar_end first)) || negb (bool_decide (bar_start bar = bar_start first))
  || negb (bool_decide (bar_trading_date bar = bar_trading_date first)).

Definition latest (times : list DateTime) (otherwise : DateTime) : DateTime :=
  match times with
  | [] => otherwise
  | t :: ts => foldl (fun latest t => if geb t latest then t else latest) t ts
  end.

Definition open_step (self : ReplayLedger) (bars : list Bar) : DomainResult ReplayLedger :=
  first ← ok_or (hd_error bars) InvalidValue;
  if bool_decide (is_Some (open_step_of self)) || existsb (inconsistent first) bars
     || from_option (fun previous => ltb (bar_trading_date first) previous) false (ledger_date self)
  then Err InvalidValue else
  let start := positions (ledger_book self) in
  '(self, parts, funding) ← roll_date self (bar_trading_date first) start [];
  let closes := closes_of bars in
  parts ← try_fold (mark_position (marks self) closes) parts start;
  Ok (with_open self (Some {|
    step_start := bar_start first; step_end := bar_end first; step_date := bar_trading_date first;
    step_known_at := latest (visible_at <$> bars) (bar_end first);
    step_records := (fun bar => (instrument bar, source_record_id bar)) <$> bars;
    step_positions := start; step_parts := parts; step_funding := funding; step_closes := closes |})).

Definition execution_context (self : ReplayLedger) (instrument : VersionRef) (price : ReplayAmount)
    : DomainResult ExecutionContext :=
  opened ← ok_or (open_step_of self) InvalidValue;
  accrued ← ok_or (accrued_interest instrument (ledger_settlement self) (step_date opened)) BrokenLineage;
  let '(cost_per_face, fee_per_fill) :=
    match ledger_costs self with
    | CostNone => (ZERO_DECIMAL, ZERO_DECIMAL)
    | RatePlusFixed face_rate_bp fee => ((face_rate_bp / BASIS_POINTS)%dec, fee : Decimal)
    end in
  Ok {| context_book := ledger_book self; context_instrument := instrument;
        dirty_per_face := ((price + accrued) / ONE_HUNDRED)%dec;
        cost_per_face := cost_per_face; fee_per_fill := fee_per_fill |}.

Definition in_step (opened : OpenStep) (fill : SimulatedFill) : bool :=
  existsb (fun record => bool_decide (record.1 = fill_instrument fill)
                         && bool_decide (Some record.2 = execution_bar fill)) (step_records opened).

(** Settles one execution at dirty price and charges its cost. *)
Definition execute (self : ReplayLedger) (fill : SimulatedFill) (opened : OpenStep)
    : DomainResult (ReplayLedger * OpenStep) :=
  price ← ok_or (price fill) InvalidValue;
  if negb (bool_decide (effective_at fill = step_end opened)) || negb (in_step opened fill)
  then Err InvalidValue else
  accrued_now ← ok_or (accrued_interest (fill_instrument fill) (ledger_settlement self) (step_date opened)) BrokenLineage;
  let face := quantity fill in
  let mark := default price (btree_get (fill_instrument fill) (step_closes opened)) in
  let cost := execution_cost (ledger_costs self) face in
  let book := add_cash (ledger_book self) (- (face * (price + accrued_now) / ONE_HUNDRED) + cost)%dec in
  let book := add_position book (fill_instrument fill) face in
  let self := with_book self book (btree_insert (fill_instrument fill) accrued_now (accrued self)) in
  let self := match btree_get (fill_instrument fill) (marks self) with
              | Some _ => self
              | None => with_marks self (btree_insert (fill_instrument fill) mark (marks self))
              end in
  let parts := update_part (fill_instrument fill)
    (fun part => add_cost cost (add_price (face * (mark - price) / ONE_HUNDRED)%dec part)) (step_parts opened) in
  Ok (self, {| step_start := step_start opened; step_end := step_end opened; step_date := step_date opened;
               step_known_at := step_known_at opened; step_records := step_records opened;
               step_positions := step_positions opened; step_parts := parts;
               step_funding := step_funding opened; step_closes := step_closes opened |}).

Definition settle (self : ReplayLedger) (fill : SimulatedFill) : DomainResult ReplayLedger :=
  opened ← ok_or (open_step_of self) InvalidValue;
  if amount_is_zero (quantity fill) then Ok self else
  '(self, opened) ← execute self fill opened;
  Ok (with_open self (Some opened)).

(** The value of one position is added to the equity. *)
Definition add_value (self : ReplayLedger) (equity : Decimal) (held : VersionRef * ReplayAmount)
    : DomainResult Decimal :=
  mark ← ok_or (btree_get held.1 (marks self)) BrokenLineage;
  accrued ← ok_or (btree_get held.1 (accrued self)) BrokenLineage;
  Ok (equity + held.2 * (mark + accrued) / ONE_HUNDRED)%dec.

Definition equity_now (self : ReplayLedger) : DomainResult Decimal :=
  try_fold (add_value self) (cash (ledger_book self)) (positions (ledger_book self)).

Definition instrument_row (self : ReplayLedger) (start : BTreeMap VersionRef Decimal)
    (entry : VersionRef * Parts) : VersionRef * InstrumentPnl :=
  let '(instrument, part) := entry in
  let decimal values := from_decimal (default ZERO_DECIMAL (btree_get instrument values)) in
  (instrument, {| position_start := decimal start; position_end := book_position (ledger_book self) instrument;
                  pnl_mark := decimal (marks self); pnl_accrued := decimal (accrued self);
                  pnl_price := from_decimal (part_price part); pnl_coupon := from_decimal (part_coupon part);
                  pnl_cost := from_decimal (part_cost part) |}).

(** Accrued interest of instruments that are now flat is forgotten. *)
Definition forget_flat (b : SimulatedBook) (values : BTreeMap VersionRef Decimal) (instrument : VersionRef)
    : BTreeMap VersionRef Decimal :=
  if amount_is_zero (book_position b instrument) then btree_remove instrument values else values.

Definition part_total (part : Parts) : Decimal := (part_price part + part_coupon part + part_cost part)%dec.

Definition finish_step (self : ReplayLedger) : DomainResult ReplayLedger :=
  opened ← ok_or (open_step_of self) InvalidValue;
  let self := with_marks (with_open self None)
    (foldl (fun ms close => btree_insert close.1 close.2 ms) (marks self) (step_closes opened)) in
  equity_after ← equity_now self;
  let total := (equity_after - equity self)%dec in
  let components :=
    (step_funding opened + decimal_sum (part_total <$> btree_values (step_parts opened)))%dec in
  if negb (decimal_eqb total components) then Err InvalidValue else
  Ok {| ledger_funding := ledger_funding self; ledger_costs := ledger_costs self;
        ledger_settlement := ledger_settlement self; ledger_book := ledger_book self; marks := marks self;
        accrued := foldl (forget_flat (ledger_book self)) (accrued self) (btree_keys (step_parts opened));
        ledger_date := ledger_date self; equity := equity_after;
        ledger_rows := ledger_rows self ++ [{|
          row_start := step_start opened; row_end := step_end opened; known_at := step_known_at opened;
          row_date := step_date opened;
          row_instruments := instrument_row self (step_positions opened) <$> step_parts opened;
          row_funding := from_decimal (step_funding opened); row_total := from_decimal total;
          row_cash := cash (ledger_book self); row_equity := from_decimal equity_after |}];
        open_step_of := None |}.

Definition close_step (self : ReplayLedger) (bars : list Bar) (fills : list SimulatedFill) : DomainResult ReplayLedger :=
  opened ← open_step self bars;
  settled ← try_fold settle opened fills;
  finish_step settled.

End ledger.

(** ** Exactness along a loop *)

(** [ok] holds of every step that the loop takes. *)
Fixpoint along {E A S} (ok : S -> A -> Prop) (f : S -> A -> Result E S) (s : S) (l : list A) : Prop :=
  match l with
  | [] => True
  | a :: l => ok s a /\ forall s', f s a = Ok s' -> along ok f s' l
  end.

Lemma along_inv {Er A S} (P : S -> Prop) (ok : S -> A -> Prop) (f : S -> A -> Result Er S) s l s' :
  P s -> (forall s a s', a ∈ l -> P s -> ok s a -> f s a = Ok s' -> P s') ->
  along ok f s l -> try_fold f s l = Ok s' -> P s'.
Proof.
  revert s. induction l as [|a l IH]; intros s HP Hf Ha E; cbn in *; [by injection E as <-|].
  destruct Ha as [Hok Ha]. apply bind_Ok in E as (s1 & E1 & E).
  eapply IH; [|intros; eapply Hf; eauto; by right|by apply Ha|done]. eapply Hf; eauto. left.
Qed.

(** ** What the ledger is worth *)

Section facts.
Context `{DecimalArithLaws} `{!BondCarry} `{ChronoDays}.
Local Open Scope Q_scope.
Implicit Types (l : ReplayLedger) (o : OpenStep).

Definition got (values : BTreeMap VersionRef Decimal) (i : VersionRef) : Q :=
  dval (default ZERO_DECIMAL (btree_get i values)).

(** One unit of face at a clean mark and its accrued interest, both per 100. *)
Definition worth (ms acc : BTreeMap VersionRef Decimal) (i : VersionRef) : Q := (got ms i + got acc i) / 100.

Definition book_worth (ps : BTreeMap VersionRef Decimal) (w : VersionRef -> Q) : Q :=
  qsum ((fun p => dval p.2 * w p.1) <$> ps).

Definition part_q (p : Parts) : Q := dval (part_price p) + dval (part_coupon p) + dval (part_cost p).
Definition parts_q (parts : BTreeMap VersionRef Parts) : Q := qsum ((fun p => part_q p.2) <$> parts).

(** The marks after the closes of a step replace the old ones. *)
Definition marks_after (ms closes : BTreeMap VersionRef Decimal) : BTreeMap VersionRef Decimal :=
  foldl (fun ms close => btree_insert close.1 close.2 ms) ms closes.

Lemma marks_after_get ms closes i :
  btree_wf closes ->
  btree_get i (marks_after ms closes)
  = match btree_get i closes with Some c => Some c | None => btree_get i ms end.
Proof.
  unfold marks_after. revert ms. induction closes as [|[k v] closes IH]; intros ms Hw; cbn; [done|].
  cbn in Hw. apply StronglySorted_inv in Hw as [Hw Hlt]. rewrite IH by done. destruct (cmp i k) eqn:E.
  - apply cmp_eq in E as ->. rewrite btree_get_insert_eq.
    assert (Hn : btree_get k closes = None); [|by rewrite Hn].
    apply btree_get_None. intros Hin. rewrite list.Forall_forall in Hlt. by apply (cmp_lt_irrefl k), Hlt.
  - destruct (btree_get i closes); [done|]. apply btree_get_insert_ne. intros ->. by rewrite cmp_refl in E.
  - destruct (btree_get i closes); [done|]. apply btree_get_insert_ne. intros ->. by rewrite cmp_refl in E.
Qed.

Lemma qsum_cons q qs : qsum (q :: qs) == q + qsum qs.
Proof. reflexivity. Qed.

(** A sum over a map changes by what changes at the key that is written or removed. *)
Lemma sum_insert {V} (g : VersionRef * V -> Q) k (v : V) (m : BTreeMap VersionRef V) :
  btree_wf m ->
  qsum (g <$> btree_insert k v m)
  == qsum (g <$> m) - match btree_get k m with Some w => g (k, w) | None => 0 end + g (k, v).
Proof.
  induction m as [|[k' v'] m IH]; intros Hw; cbn [btree_insert btree_get].
  - cbn. ring.
  - cbn in Hw. apply StronglySorted_inv in Hw as [Hw Hlt]. destruct (cmp k k') eqn:E.
    + apply cmp_eq in E as ->. rewrite !fmap_cons, !qsum_cons. ring.
    + assert (Hn : btree_get k m = None).
      { apply btree_get_None. intros Hin. rewrite list.Forall_forall in Hlt.
        apply (cmp_lt_irrefl k). eapply cmp_lt_trans; [exact E|by apply Hlt]. }
      rewrite Hn, !fmap_cons, !qsum_cons. ring.
    + rewrite !fmap_cons, !qsum_cons, IH by done. ring.
Qed.

Lemma sum_remove {V} (g : VersionRef * V -> Q) k (m : BTreeMap VersionRef V) :
  btree_wf m ->
  qsum (g <$> btree_remove k m) == qsum (g <$> m) - match btree_get k m with Some w => g (k, w) | None => 0 end.
Proof.
  induction m as [|[k' v'] m IH]; intros Hw; cbn [btree_remove btree_get].
  - cbn. ring.
  - cbn in Hw. apply StronglySorted_inv in Hw as [Hw Hlt]. destruct (cmp k k') eqn:E.
    + apply cmp_eq in E as ->. assert (Hn : btree_get k' m = None).
      { apply btree_get_None. intros Hin. rewrite list.Forall_forall in Hlt. by apply (cmp_lt_irrefl k'), Hlt. }
      rewrite IH, Hn, fmap_cons, qsum_cons by done. ring.
    + rewrite !fmap_cons, !qsum_cons, IH by done. ring.
    + rewrite !fmap_cons, !qsum_cons, IH by done. ring.
Qed.

Lemma sum_ext {V} (g h : VersionRef * V -> Q) (m : BTreeMap VersionRef V) :
  (forall p, p ∈ m -> g p == h p) -> qsum (g <$> m) == qsum (h <$> m).
Proof.
  induction m as [|p m IH]; intros Hg; [reflexivity|]. rewrite !fmap_cons, !qsum_cons, IH, Hg by set_solver. reflexivity.
Qed.

(** Trading changes the worth of the book by the face that is traded. *)
Lemma book_worth_add b i f w :
  wf_book b -> fits (dval (book_position b i) + dval f) ->
  book_worth (positions (add_position b i f)) w == book_worth (positions b) w + dval f * w i.
Proof.
  intros [Hw _] Hf. unfold book_worth, add_position. cbn [positions]. cbv zeta.
  pose proof (dval_add _ _ Hf) as Ea. unfold book_position in *.
  assert (Eg : match btree_get i (positions b) with Some w' => dval w' * w i | None => 0 end
               == dval (default amount_zero (btree_get i (positions b))) * w i).
  { destruct (btree_get i (positions b)); cbn [from_option default id]; [reflexivity|]. rewrite dval_zero. ring. }
  destruct (decimal_is_zero _) eqn:Ez.
  - apply decimal_is_zero_spec in Ez. rewrite Ea in Ez. rewrite sum_remove by done. cbn [fst snd]. rewrite Eg.
    assert (Ep : dval (default amount_zero (btree_get i (positions b))) == - dval f) by lra. rewrite Ep. ring.
  - rewrite sum_insert by done. cbn [fst snd]. rewrite Eg, dval_normalize, Ea. ring.
Qed.

Lemma worth_change ps w w' :
  book_worth ps w' == book_worth ps w + qsum ((fun p => dval p.2 * (w' p.1 - w p.1)) <$> ps).
Proof.
  unfold book_worth. induction ps as [|p ps IH]; [reflexivity|]. rewrite !fmap_cons, !qsum_cons, IH. ring.
Qed.

Lemma parts_update i g parts :
  btree_wf parts ->
  parts_q (update_part i g parts)
  == parts_q parts - part_q (default no_parts (btree_get i parts)) + part_q (g (default no_parts (btree_get i parts))).
Proof.
  intros Hw. unfold parts_q, update_part. rewrite sum_insert by done. cbn [snd].
  destruct (btree_get i parts); cbn [default from_option id]; [reflexivity|].
  unfold part_q at 4. cbn. rewrite dval_zero. ring.
Qed.

Lemma update_part_wf i g parts : btree_wf parts -> btree_wf (update_part i g parts).
Proof. apply btree_insert_wf. Qed.

Lemma dval_add_cash b a : fits (dval (cash b) + dval a) -> dval (cash (add_cash b a)) == dval (cash b) + dval a.
Proof. intros Hf. cbn. by rewrite dval_normalize, dval_add. Qed.

(** ** The states of a ledger *)

(** Accrued interest is known for an instrument, as of a date. *)
Definition accrues l (date : NaiveDate) (i : VersionRef) : Prop :=
  exists a, btree_get i (accrued l) = Some a /\ accrued_interest i (ledger_settlement l) date = Some a.

(** Every held instrument has a mark, and accrued interest as of the ledger's date. *)
Definition held_known l : Prop :=
  forall p, p ∈ positions (ledger_book l) ->
  is_Some (btree_get p.1 (marks l)) /\ exists date, ledger_date l = Some date /\ accrues l date p.1.

(** Between steps: the equity is the cash and the worth of the positions. *)
Record at_rest l : Prop := {
  rest_closed : open_step_of l = None;
  rest_book : wf_book (ledger_book l);
  rest_held : held_known l;
  rest_equity : dval (equity l)
    == dval (cash (ledger_book l)) + book_worth (positions (ledger_book l)) (worth (marks l) (accrued l))
}.

(** In a step: the worth at the marks the step will end with is the equity before the step, the
    funding and everything the parts have booked. *)
Record in_balance l o : Prop := {
  balance_open : open_step_of l = Some o;
  balance_book : wf_book (ledger_book l);
  balance_held : held_known l;
  balance_date : ledger_date l = Some (step_date o);
  balance_closes : btree_wf (step_closes o);
  balance_parts : btree_wf (step_parts o);
  balance_equity : dval (cash (ledger_book l))
      + book_worth (positions (ledger_book l)) (worth (marks_after (marks l) (step_closes o)) (accrued l))
    == dval (equity l) + dval (step_funding o) + parts_q (step_parts o)
}.

Lemma ledger_new_at_rest funding costs settlement : at_rest (ledger_new funding costs settlement).
Proof.
  split; [done|apply empty_book_wf| |].
  - intros p Hp. by apply not_elem_of_nil in Hp.
  - cbn. rewrite (dval_zero : dval amount_zero == 0), dval_zero. unfold book_worth. cbn. ring.
Qed.

(** *** Rolling *)

Definition roll_exact (st : ReplayLedger * BTreeMap VersionRef Parts) (held : VersionRef * Decimal)
    (previous date : NaiveDate) : Prop :=
  forall before after paid,
    btree_get held.1 (accrued st.1) = Some before ->
    accrued_interest held.1 (ledger_settlement st.1) date = Some after ->
    coupon_paid held.1 (ledger_settlement st.1) previous date = Some paid ->
    dexact ($(cash (ledger_book st.1)) + $(held.2) * $paid / $ONE_HUNDRED)%dx
    /\ dexact ($(part_coupon (default no_parts (btree_get held.1 st.2)))
                + $(held.2) * ($after - $before + $paid) / $ONE_HUNDRED)%dx.

(** What rolling does not touch. *)
Definition same_book l l' : Prop :=
  positions (ledger_book l') = positions (ledger_book l) /\ marks l' = marks l
  /\ ledger_settlement l' = ledger_settlement l /\ equity l' = equity l /\ ledger_date l' = ledger_date l
  /\ open_step_of l' = open_step_of l /\ ledger_rows l' = ledger_rows l
  /\ ledger_funding l' = ledger_funding l /\ ledger_costs l' = ledger_costs l.

Lemma same_book_trans l1 l2 l3 : same_book l1 l2 -> same_book l2 l3 -> same_book l1 l3.
Proof. unfold same_book. intuition congruence. Qed.

(** Cash, worth and coupon parts move together. *)
Definition carry_balance l (parts : BTreeMap VersionRef Parts) : Q :=
  dval (cash (ledger_book l)) + book_worth (positions (ledger_book l)) (worth (marks l) (accrued l)) - parts_q parts.

Lemma worth_accrue ms acc i a ps f :
  btree_wf ps -> (i, f) ∈ ps ->
  book_worth ps (worth ms (btree_insert i a acc))
  == book_worth ps (worth ms acc) + dval f * (dval a - got acc i) / 100.
Proof.
  intros Hw Hin. rewrite (worth_change ps (worth ms acc)).
  assert (Hsum : qsum ((fun p => dval p.2 * (worth ms (btree_insert i a acc) p.1 - worth ms acc p.1)) <$> ps)
    == dval f * (dval a - got acc i) / 100); [|by rewrite Hsum].
  assert (Hother : forall p, p ∈ ps -> p.1 <> i ->
    dval p.2 * (worth ms (btree_insert i a acc) p.1 - worth ms acc p.1) == 0).
  { intros p _ Hne. unfold worth, got. rewrite btree_get_insert_ne by done. field. }
  assert (Hself : dval f * (worth ms (btree_insert i a acc) i - worth ms acc i) == dval f * (dval a - got acc i) / 100).
  { unfold worth, got. rewrite btree_get_insert_eq. cbn [default from_option id]. field. }
  rewrite <- Hself. clear Hself. induction ps as [|[j g] ps IH]; [by apply not_elem_of_nil in Hin|].
  cbn in Hw. apply StronglySorted_inv in Hw as [Hw Hlt]. rewrite fmap_cons, qsum_cons.
  apply elem_of_cons in Hin as [[= <- <-]|Hin].
  - rewrite (sum_ext _ (fun _ => 0)).
    + assert (qsum ((fun _ => 0) <$> ps) == 0) as -> by (clear; induction ps; [done|]; rewrite fmap_cons, qsum_cons, IHps; ring).
      cbn [fst snd]. ring.
    + intros p Hp. apply Hother; [by right|]. intros <-. rewrite list.Forall_forall in Hlt.
      apply (cmp_lt_irrefl p.1), Hlt, list_elem_of_fmap. by exists p.
  - assert (Hrest : forall p, p ∈ ps -> p.1 <> i ->
      dval p.2 * (worth ms (btree_insert i a acc) p.1 - worth ms acc p.1) == 0) by (intros; apply Hother; [by right|done]).
    specialize (IH Hw Hin Hrest). rewrite (Hother (j, g)); [rewrite Qplus_0_l; exact IH|left|]. cbn. intros ->. rewrite list.Forall_forall in Hlt.
    apply (cmp_lt_irrefl i), Hlt, list_elem_of_fmap. by exists (i, f).
Qed.
Lemma roll_position_spec previous date l parts i f l' parts' :
  roll_position previous date (l, parts) (i, f) = Ok (l', parts') ->
  roll_exact (l, parts) (i, f) previous date ->
  wf_book (ledger_book l) -> (i, f) ∈ positions (ledger_book l) -> btree_wf parts ->
  same_book l l' /\ btree_wf parts' /\ carry_balance l' parts' == carry_balance l parts
  /\ accrues l' date i /\ (forall j, j <> i -> btree_get j (accrued l') = btree_get j (accrued l)).
Proof.
  intros E Hex [Hw Hz] Hin Hp. unfold roll_position in E.
  apply bind_Ok in E as (before & Eb%ok_or_Ok & E). apply bind_Ok in E as (after & Ea%ok_or_Ok & E).
  apply bind_Ok in E as (paid & Ep%ok_or_Ok & E). injection E as <- <-.
  destruct (Hex before after paid Eb Ea Ep) as [(_ & X1 & X2) X3]. cbn [fst snd] in *.
  split; [done|]. split; [by apply update_part_wf|]. split; [|split].
  - unfold carry_balance. cbn [ledger_book marks accrued with_book positions add_cash].
    rewrite (worth_accrue _ _ _ _ _ f) by done. rewrite parts_update by done.
    set (old := default no_parts (btree_get i parts)) in *.
    apply deval_exact in X3. cbn [deval dq] in X3. pose proof (deval_exact _ X1) as X1'. cbn [deval dq] in X1', X2.
    assert (Hcash : dval (cash (add_cash (ledger_book l) (f * paid / ONE_HUNDRED)%dec))
                    == dval (cash (ledger_book l)) + dval f * dval paid / dval ONE_HUNDRED).
    { rewrite dval_add_cash; rewrite X1'; [reflexivity|exact X2]. }
    rewrite Hcash. unfold part_q. cbn [add_coupon part_price part_coupon part_cost]. rewrite X3, dval_hundred.
    unfold got. rewrite Eb. cbn [default from_option id]. field.
  - exists after. cbn. by rewrite btree_get_insert_eq.
  - intros j Hj. cbn. by rewrite btree_get_insert_ne.
Qed.

Lemma roll_loop_spec previous date start l parts l' parts' :
  try_fold (roll_position previous date) (l, parts) start = Ok (l', parts') ->
  along (fun st held => roll_exact st held previous date) (roll_position previous date) (l, parts) start ->
  wf_book (ledger_book l) -> (forall p, p ∈ start -> p ∈ positions (ledger_book l)) -> btree_wf parts -> btree_wf start ->
  same_book l l' /\ btree_wf parts' /\ carry_balance l' parts' == carry_balance l parts
  /\ (forall p, p ∈ start -> accrues l' date p.1)
  /\ (forall j, j ∉ start.*1 -> btree_get j (accrued l') = btree_get j (accrued l)).
Proof.
  revert l parts. induction start as [|[i f] start IH]; intros l parts E Hex Hwf Hin Hp Hs.
  { injection E as <- <-. split; [done|]. split; [done|]. split; [reflexivity|].
    split; [intros p Hp'; by apply not_elem_of_nil in Hp'|done]. }
  cbn in Hs. apply StronglySorted_inv in Hs as [Hs Hlt].
  cbn [try_fold] in E. apply bind_Ok in E as ([l1 parts1] & E1 & E). destruct Hex as [X1 Hex].
  destruct (roll_position_spec _ _ _ _ _ _ _ _ E1 X1 Hwf (Hin (i, f) ltac:(left)) Hp) as (S1 & P1 & B1 & A1 & O1).
  assert (Hpos : positions (ledger_book l1) = positions (ledger_book l)) by apply S1.
  destruct (IH l1 parts1 E (Hex _ E1)) as (S2 & P2 & B2 & A2 & O2); [|..|done|done|].
  - split; rewrite Hpos; apply Hwf.
  - intros p Hp'. rewrite Hpos. apply Hin. by right.
  - assert (Hi : i ∉ start.*1).
    { intros F. rewrite list.Forall_forall in Hlt. by apply (cmp_lt_irrefl i), Hlt. }
    split; [by eapply same_book_trans|]. split; [done|]. split; [by rewrite B2|]. split.
    + intros p [->|Hp']%elem_of_cons; [|by apply A2]. cbn [fst]. destruct A1 as (a & Ga & Aa). exists a.
      rewrite O2 by done. split; [done|]. assert (ledger_settlement l' = ledger_settlement l1) as -> by apply S2. done.
    + intros j Hj. cbn in Hj. apply not_elem_of_cons in Hj as [Hj1 Hj2]. rewrite O2 by done. by apply O1.
Qed.

(** Exactness of rolling the date: the funding charge is booked exactly, and every coupon. *)
Definition date_exact l (date : NaiveDate) : Prop :=
  match ledger_date l with
  | Some previous =>
      previous <> date ->
      let funding := funding_charge (with_date l date) (num_days previous date) in
      fits (dval (cash (ledger_book l)) + dval funding)
      /\ along (fun st held => roll_exact st held previous date) (roll_position previous date)
           (with_book (with_date l date) (add_cash (ledger_book l) funding) (accrued l), [])
           (positions (ledger_book l))
  | None => True
  end.

Lemma roll_date_spec l date l' parts' funding :
  at_rest l -> date_exact l date ->
  roll_date l date (positions (ledger_book l)) [] = Ok (l', parts', funding) ->
  same_book (with_date l date) l' /\ btree_wf parts' /\ held_known l'
  /\ carry_balance l' parts' == dval (equity l) + dval funding.
Proof.
  intros [_ Hwf Hheld Heq] Hex E. unfold roll_date in E. unfold date_exact in Hex.
  assert (Hcarry : carry_balance (with_date l date) [] == dval (equity l)).
  { unfold carry_balance. cbn [ledger_book marks accrued with_date]. rewrite Heq.
    assert (parts_q [] == 0) as -> by reflexivity. ring. }
  assert (Hsame : held_known (with_date l date) -> (with_date l date, [], ZERO_DECIMAL) = (l', parts', funding) ->
    same_book (with_date l date) l' /\ btree_wf parts' /\ held_known l'
    /\ carry_balance l' parts' == dval (equity l) + dval funding).
  { intros Hk [= <- <- <-]. split; [done|]. split; [constructor|]. split; [done|]. rewrite Hcarry, dval_zero. ring. }
  destruct (ledger_date l) as [previous|] eqn:Ed.
  - case_bool_decide as Hd.
    + injection E as E. apply Hsame; [|congruence]. intros p Hp. destruct (Hheld p Hp) as [Hm (d & Hd' & Ha)].
      split; [done|]. exists date. split; [done|]. assert (d = date) as -> by congruence. exact Ha.
    + specialize (Hex Hd). cbv zeta in Hex, E. destruct Hex as [Hf Hex].
      apply bind_Ok in E as ([l1 parts1] & E1 & E). injection E as <- <- <-.
      set (fund := funding_charge (with_date l date) (num_days previous date)) in *.
      destruct (roll_loop_spec _ _ _ _ _ _ _ E1 Hex) as (S & P & B & A & O); [done|done|constructor|apply Hwf|].
      split; [exact S|]. split; [done|]. destruct S as (S1 & S2 & S3 & S4 & S5 & _). cbn in S1, S2, S5. split.
      * intros p Hp. rewrite S1 in Hp. destruct (Hheld p Hp) as [Hm _]. rewrite S2. split; [done|].
        exists date. split; [by rewrite S5|]. by apply A.
      * rewrite B. unfold carry_balance in Hcarry |- *. cbn [ledger_book marks accrued with_date with_book] in *.
        rewrite dval_add_cash by done. cbn [positions add_cash]. rewrite <- Hcarry. ring.
  - injection E as E. apply Hsame; [|congruence]. intros p Hp.
    destruct (Hheld p Hp) as [_ (d & Hd & _)]. congruence.
Qed.
(** *** Opening *)

Definition mark_exact (ms closes : BTreeMap VersionRef Decimal) (parts : BTreeMap VersionRef Parts)
    (held : VersionRef * Decimal) : Prop :=
  forall previous, btree_get held.1 ms = Some previous ->
  let mark := default previous (btree_get held.1 closes) in
  dexact ($(part_price (default no_parts (btree_get held.1 parts)))
          + $(held.2) * ($mark - $previous) / $ONE_HUNDRED)%dx.

Lemma mark_loop_spec ms closes start parts parts' :
  btree_wf closes -> btree_wf parts ->
  try_fold (mark_position ms closes) parts start = Ok parts' ->
  along (mark_exact ms closes) (mark_position ms closes) parts start ->
  btree_wf parts' /\
  parts_q parts' == parts_q parts
    + qsum ((fun p => dval p.2 * ((got (marks_after ms closes) p.1 - got ms p.1) / 100)) <$> start).
Proof.
  intros Hc. revert parts. induction start as [|[i f] start IH]; intros parts Hp E Hex.
  { injection E as <-. split; [done|]. cbn. ring. }
  cbn [try_fold] in E. apply bind_Ok in E as (parts1 & E1 & E). destruct Hex as [X1 Hex].
  specialize (Hex _ E1). unfold mark_position in E1. apply bind_Ok in E1 as (previous & Ep%ok_or_Ok & E1).
  injection E1 as <-. specialize (X1 previous Ep). cbv zeta in X1. apply deval_exact in X1. cbn [deval dq fst snd] in X1.
  set (mark := default previous (btree_get i closes)) in *.
  destruct (IH _ (update_part_wf _ _ _ Hp) E Hex) as [W1 E2]. split; [done|].
  rewrite E2, parts_update, fmap_cons, qsum_cons by done. cbn [fst snd].
  assert (Em : got (marks_after ms closes) i == dval mark).
  { unfold got, mark. rewrite marks_after_get by done. by destruct (btree_get i closes); rewrite ?Ep. }
  assert (Eg : got ms i == dval previous) by (unfold got; by rewrite Ep).
  unfold part_q. cbn [add_price part_price part_coupon part_cost]. rewrite X1, Em, Eg, dval_hundred. field.
Qed.

Definition open_exact l (bars : list Bar) : Prop :=
  match hd_error bars with
  | Some first =>
      date_exact l (bar_trading_date first)
      /\ forall l1 parts funding,
           roll_date l (bar_trading_date first) (positions (ledger_book l)) [] = Ok (l1, parts, funding) ->
           along (mark_exact (marks l1) (closes_of bars)) (mark_position (marks l1) (closes_of bars)) parts
             (positions (ledger_book l))
  | None => True
  end.

(** What a step keeps from the ledger it was opened on. *)
Definition same_account l l' : Prop :=
  equity l' = equity l /\ ledger_rows l' = ledger_rows l /\ ledger_settlement l' = ledger_settlement l
  /\ ledger_funding l' = ledger_funding l /\ ledger_costs l' = ledger_costs l.

Lemma open_step_spec l bars l' :
  at_rest l -> open_exact l bars -> open_step l bars = Ok l' ->
  exists o, in_balance l' o /\ step_closes o = closes_of bars /\ same_account l l'.
Proof.
  intros Hl Hex E. unfold open_step in E. apply bind_Ok in E as (first & Ef%ok_or_Ok & E).
  unfold open_exact in Hex. rewrite Ef in Hex. destruct Hex as [Hd Hm].
  destruct (_ || _); [discriminate E|].
  apply bind_Ok in E as ([[l1 parts1] funding] & Er & E). cbv zeta in E.
  specialize (Hm _ _ _ Er). destruct (roll_date_spec _ _ _ _ _ Hl Hd Er) as (S & P1 & Hh & Hb).
  apply bind_Ok in E as (parts2 & Em & [= <-]). destruct S as (S1 & S2 & S3 & S4 & S5 & S6 & S7 & S8 & S9).
  cbn in S1, S2, S3, S4, S5, S6, S7, S8, S9.
  assert (Hc : btree_wf (closes_of bars)) by apply btree_collect_wf.
  destruct (mark_loop_spec _ _ _ _ _ Hc P1 Em Hm) as [P2 Ep].
  eexists. split; [split; [reflexivity|..]|]; cbn; try done.
  - destruct Hl as [_ Hl _ _]. split; rewrite S1; apply Hl.
  - rewrite (worth_change _ (worth (marks l1) (accrued l1))), Ep, S4, <- Hb. unfold carry_balance.
    assert (Es : qsum ((fun p => dval p.2 * (worth (marks_after (marks l1) (closes_of bars)) (accrued l1) p.1
                                      - worth (marks l1) (accrued l1) p.1)) <$> positions (ledger_book l1))
      == qsum ((fun p => dval p.2 * ((got (marks_after (marks l1) (closes_of bars)) p.1 - got (marks l1) p.1) / 100))
                 <$> positions (ledger_book l))) by (rewrite S1; apply sum_ext; intros p _; unfold worth; field).
    rewrite Es. ring.
Qed.
(** *** Settling *)

Definition settle_exact l (fill : SimulatedFill) : Prop :=
  forall o p a, open_step_of l = Some o -> price fill = Some p ->
  accrued_interest (fill_instrument fill) (ledger_settlement l) (step_date o) = Some a ->
  let i := fill_instrument fill in
  let face := quantity fill in
  let mark := default p (btree_get i (step_closes o)) in
  let cost := execution_cost (ledger_costs l) face in
  let part := default no_parts (btree_get i (step_parts o)) in
  dexact ($(cash (ledger_book l)) + (- ($face * ($p + $a) / $ONE_HUNDRED) + $cost))%dx
  /\ fits (dval (book_position (ledger_book l) i) + dval face)
  /\ dexact ($(part_price part) + $face * ($mark - $p) / $ONE_HUNDRED)%dx
  /\ fits (dval (part_cost part) + dval cost).

(** An execution happens in a bar that has prices, so the step has a close for its instrument. *)
Definition marked (closes : BTreeMap VersionRef Decimal) (fill : SimulatedFill) : Prop :=
  dval (quantity fill) == 0 \/ is_Some (btree_get (fill_instrument fill) closes).

Lemma worth_same ms acc ms' acc' ps :
  (forall p, p ∈ ps -> got ms' p.1 == got ms p.1 /\ got acc' p.1 == got acc p.1) ->
  book_worth ps (worth ms' acc') == book_worth ps (worth ms acc).
Proof.
  intros Hp. apply sum_ext. intros p Hin. destruct (Hp p Hin) as [Em Ea]. unfold worth. by rewrite Em, Ea.
Qed.

(** Where an execution leaves the marks and the accrued interest. *)
Lemma execute_shape l o fill l' o' :
  execute l fill o = Ok (l', o') -> exists p a,
    price fill = Some p /\ accrued_interest (fill_instrument fill) (ledger_settlement l) (step_date o) = Some a
    /\ let i := fill_instrument fill in
       let mark := default p (btree_get i (step_closes o)) in
       let cost := execution_cost (ledger_costs l) (quantity fill) in
       ledger_book l' = add_position (add_cash (ledger_book l)
         (- (quantity fill * (p + a) / ONE_HUNDRED) + cost)%dec) i (quantity fill)
       /\ accrued l' = btree_insert i a (accrued l)
       /\ marks l' = match btree_get i (marks l) with Some _ => marks l | None => btree_insert i mark (marks l) end
       /\ step_parts o' = update_part i (fun part => add_cost cost
            (add_price (quantity fill * (mark - p) / ONE_HUNDRED)%dec part)) (step_parts o)
       /\ same_account l l' /\ ledger_date l' = ledger_date l /\ step_closes o' = step_closes o
       /\ step_date o' = step_date o /\ step_funding o' = step_funding o.
Proof.
  intros E. unfold execute in E. apply bind_Ok in E as (p & Ep%ok_or_Ok & E).
  destruct (_ || _); [discriminate E|]. apply bind_Ok in E as (a & Ea%ok_or_Ok & E). injection E as <- <-.
  exists p, a. split; [done|]. split; [done|]. cbn [marks with_book].
  destruct (btree_get (fill_instrument fill) (marks l)) eqn:Em; cbn; repeat split.
Qed.

(** What is held after an execution was held before, or is what was traded. *)
Lemma add_position_held b i f p :
  p ∈ positions (add_position b i f) -> p.1 = i \/ p ∈ positions b.
Proof.
  unfold add_position. cbn [positions]. cbv zeta. destruct (decimal_is_zero _).
  - intros Hp%btree_remove_elem. by right.
  - destruct p as [j g]. intros [[-> _]|Hp]%btree_insert_elem; [by left|by right].
Qed.

Lemma execute_spec l o fill l' o' :
  in_balance l o -> settle_exact l fill -> is_Some (btree_get (fill_instrument fill) (step_closes o)) ->
  execute l fill o = Ok (l', o') -> in_balance (with_open l' (Some o')) o'.
Proof.
  intros [Ho Hb Hh Hd Hc Hp Heq] Hex [c Hcl] (p & a & Ep & Ea & E1 & E2 & E3 & E4 & S & E5 & E6 & E7 & E8)%execute_shape.
  destruct (Hex o p a Ho Ep Ea) as ((_ & Xv & Xc) & Xp & Xm & Xk). cbv zeta in *. rewrite Hcl in *.
  cbn [default from_option id] in *.
  set (i := fill_instrument fill) in *. set (face := quantity fill) in *.
  set (cost := execution_cost (ledger_costs l) face) in *. destruct S as (S1 & _ & S3 & _).
  assert (Hmarks : forall j, got (marks_after (marks l') (step_closes o)) j == got (marks_after (marks l) (step_closes o)) j).
  { intros j. unfold got. rewrite !marks_after_get by done. rewrite E3.
    destruct (btree_get j (step_closes o)) eqn:Ej; [reflexivity|].
    destruct (btree_get i (marks l)); [reflexivity|]. rewrite btree_get_insert_ne; [reflexivity|congruence]. }
  split; cbn [open_step_of with_open ledger_book marks accrued ledger_date equity ledger_settlement].
  - done.
  - rewrite E1. by apply add_position_wf, add_cash_wf.
  - intros q Hq. cbn [ledger_book with_open] in Hq. rewrite E1 in Hq. cbn [marks with_open accrued ledger_date ledger_settlement accrues].
    unfold accrues. cbn [accrued with_open ledger_settlement]. rewrite E2, E3, S3, E5.
    destruct (decide (q.1 = i)) as [Ei|Hne].
    + rewrite Ei. split; [destruct (btree_get i (marks l)) eqn:Em; [by rewrite Em|by rewrite btree_get_insert_eq]|].
      exists (step_date o). split; [done|]. exists a. by rewrite btree_get_insert_eq.
    + apply add_position_held in Hq as [|Hq]; [done|]. destruct (Hh q Hq) as [Hm (d & Hdd & b & Gb & Ab)].
      split; [destruct (btree_get i (marks l)); [done|by rewrite btree_get_insert_ne]|].
      exists d. split; [done|]. exists b. by rewrite btree_get_insert_ne.
  - by rewrite E5, E7.
  - by rewrite E6.
  - rewrite E4. by apply update_part_wf.
  - rewrite E6, E8, S1, E1, E2, E4. cbn [cash add_position]. rewrite parts_update by done.
    pose proof (deval_exact _ Xv) as Xv'. pose proof (deval_exact _ Xm) as Xm'. cbn [deval dq] in Xv', Xm', Xc.
    rewrite dval_add_cash by (rewrite Xv'; exact Xc). rewrite Xv'.
    rewrite book_worth_add by done. cbn [positions add_cash].
    assert (Ea' : forall q, q ∈ positions (ledger_book l) -> got (btree_insert i a (accrued l)) q.1 == got (accrued l) q.1).
    { intros q Hq. unfold got. destruct (decide (q.1 = i)) as [Ei|Hne]; [|by rewrite btree_get_insert_ne].
      destruct (Hh q Hq) as [_ (d & Hdd & b & Gb & Ab)]. rewrite Ei in *. rewrite btree_get_insert_eq, Gb.
      assert (d = step_date o) as -> by congruence. rewrite Ea in Ab. injection Ab as ->. reflexivity. }
    rewrite (worth_same (marks_after (marks l) (step_closes o)) (accrued l)) by (intros; split; [apply Hmarks|by apply Ea']).
    assert (Ew : worth (marks_after (marks l') (step_closes o)) (btree_insert i a (accrued l)) i == (dval c + dval a) / 100).
    { unfold worth. rewrite Hmarks. unfold got. rewrite marks_after_get, Hcl, btree_get_insert_eq by done. reflexivity. }
    rewrite Ew. unfold part_q. cbn [add_cost add_price part_price part_coupon part_cost].
    rewrite Xm', dval_add by done. rewrite dval_hundred in *.
    set (W := book_worth _ _) in *. fold cost.
    assert (Hw : W == dval (equity l) + dval (step_funding o) + parts_q (step_parts o) - dval (cash (ledger_book l)))
      by (rewrite <- Heq; ring).
    rewrite Hw. field.
Qed.
Lemma settle_spec l o fill l' :
  in_balance l o -> settle_exact l fill -> marked (step_closes o) fill -> settle l fill = Ok l' ->
  exists o', in_balance l' o' /\ step_closes o' = step_closes o /\ same_account l l'.
Proof.
  intros Hb Hex Hm E. unfold settle in E. rewrite (balance_open _ _ Hb) in E. cbn [ok_or mbind Result_bind] in E.
  unfold amount_is_zero in E. destruct (decimal_is_zero (quantity fill)) eqn:Ez.
  - injection E as <-. by exists o.
  - apply decimal_is_zero_false in Ez. destruct Hm as [|Hm]; [done|].
    apply bind_Ok in E as ([l1 o1] & E1 & [= <-]). exists o1. split; [by eapply execute_spec|].
    destruct (execute_shape _ _ _ _ _ E1) as (p & a & _ & _ & _ & _ & _ & _ & S & _ & Ec & _). by split.
Qed.

Lemma settles_spec l o fills l' :
  in_balance l o -> along settle_exact settle l fills -> Forall (marked (step_closes o)) fills ->
  try_fold settle l fills = Ok l' ->
  exists o', in_balance l' o' /\ step_closes o' = step_closes o /\ same_account l l'.
Proof.
  intros Hb Hex Hm. revert l o Hb Hex Hm. induction fills as [|fill fills IH]; intros l o Hb Hex Hm E.
  { injection E as <-. by exists o. }
  apply Forall_cons in Hm as [Hm1 Hm]. destruct Hex as [X1 Hex]. cbn [try_fold] in E.
  apply bind_Ok in E as (l1 & E1 & E). destruct (settle_spec _ _ _ _ Hb X1 Hm1 E1) as (o1 & B1 & C1 & S1).
  rewrite <- C1 in Hm. destruct (IH l1 o1 B1 (Hex _ E1) Hm E) as (o2 & B2 & C2 & S2).
  exists o2. split; [done|]. split; [by rewrite C2|]. unfold same_account in *. intuition congruence.
Qed.

(** *** Finishing *)

(** The ledger of [finish_step] once the closes are its marks. *)
Definition marked_ledger l o : ReplayLedger :=
  with_marks (with_open l None) (marks_after (marks l) (step_closes o)).

Definition value_exact l (acc : Decimal) (held : VersionRef * ReplayAmount) : Prop :=
  forall m a, btree_get held.1 (marks l) = Some m -> btree_get held.1 (accrued l) = Some a ->
  dexact ($acc + $(held.2) * ($m + $a) / $ONE_HUNDRED)%dx.

Definition part_exact (p : Parts) : Prop := dexact ($(part_price p) + $(part_coupon p) + $(part_cost p))%dx.

Definition finish_exact l : Prop :=
  forall o, open_step_of l = Some o ->
  along (value_exact (marked_ledger l o)) (add_value (marked_ledger l o)) (cash (ledger_book l))
    (positions (ledger_book l))
  /\ (forall e, equity_now (marked_ledger l o) = Ok e -> fits (dval e - dval (equity l)))
  /\ (forall p, p ∈ btree_values (step_parts o) -> part_exact p)
  /\ sum_exact 0 (part_q <$> btree_values (step_parts o))
  /\ fits (dval (step_funding o) + parts_q (step_parts o)).

Lemma equity_loop l acc ps :
  (forall p, p ∈ ps -> is_Some (btree_get p.1 (marks l)) /\ is_Some (btree_get p.1 (accrued l))) ->
  along (value_exact l) (add_value l) acc ps ->
  exists e, try_fold (add_value l) acc ps = Ok e
    /\ dval e == dval acc + book_worth ps (worth (marks l) (accrued l)).
Proof.
  revert acc. induction ps as [|[i f] ps IH]; intros acc Hp Hex; cbn [try_fold].
  { exists acc. split; [done|]. unfold book_worth. cbn. ring. }
  destruct Hex as [X1 Hex]. destruct (Hp (i, f) ltac:(left)) as [[m Em] [a Ea]]. cbn [fst] in Em, Ea.
  specialize (X1 m a Em Ea). assert (E1 : add_value l acc (i, f) = Ok (acc + f * (m + a) / ONE_HUNDRED)%dec).
  { unfold add_value. cbn [fst snd]. by rewrite Em, Ea. }
  rewrite E1. cbn [mbind Result_bind]. specialize (Hex _ E1).
  destruct (IH _ (fun p Hin => Hp p (list_elem_of_further _ _ _ Hin)) Hex) as (e & -> & Ev). exists e. split; [done|].
  apply deval_exact in X1. cbn [deval dq fst snd] in X1. rewrite Ev, X1, dval_hundred.
  unfold book_worth. rewrite fmap_cons, qsum_cons. cbn [fst snd]. unfold worth, got. rewrite Em, Ea.
  cbn [default from_option id]. field.
Qed.

Lemma parts_sum_exact (ps : list Parts) :
  (forall p, p ∈ ps -> part_exact p) -> sum_exact 0 (part_q <$> ps) ->
  dval (decimal_sum (part_total <$> ps)) == qsum (part_q <$> ps).
Proof.
  intros Hp Hs. unfold decimal_sum.
  assert (Hgen : forall acc q, dval acc == q -> sum_exact q (part_q <$> ps) ->
    dval (foldl decimal_add acc (part_total <$> ps)) == q + qsum (part_q <$> ps)).
  { clear Hs. induction ps as [|p ps IH]; intros acc q Ea; rewrite ?fmap_cons; cbn [foldl fmap list_fmap sum_exact].
    - intros _. rewrite Ea. cbn. ring.
    - intros [Hf Hs]. assert (Et : dval (part_total p) == part_q p) by (apply (deval_exact _ (Hp p ltac:(left)))).
      rewrite (IH (fun p' Hin => Hp p' (list_elem_of_further _ _ _ Hin)) _ (q + part_q p)).
      + rewrite qsum_cons. ring.
      + rewrite dval_add; rewrite Et, Ea; [reflexivity|done].
      + done. }
  rewrite (Hgen _ _ dval_zero Hs). ring.
Qed.
Definition row_q (row : BarPnl) (field : InstrumentPnl -> ReplayAmount) : Q :=
  qsum ((fun e => dval (field e.2)) <$> row_instruments row).

(** What the new row says: the total is the change of the equity, and the four components add up to
    it. *)
Record row_accounts l l' (row : BarPnl) : Prop := {
  accounts_rows : ledger_rows l' = ledger_rows l ++ [row];
  accounts_equity : dval (row_equity row) == dval (equity l');
  accounts_cash : row_cash row = cash (ledger_book l');
  accounts_total : dval (row_total row) == dval (equity l') - dval (equity l);
  accounts_components : dval (row_total row)
    == row_q row pnl_price + row_q row pnl_coupon + dval (row_funding row) + row_q row pnl_cost
}.

Lemma row_components l start (parts : BTreeMap VersionRef Parts) :
  let es := instrument_row l start <$> parts in
  qsum ((fun e => dval (pnl_price e.2)) <$> es) + qsum ((fun e => dval (pnl_coupon e.2)) <$> es)
  + qsum ((fun e => dval (pnl_cost e.2)) <$> es) == parts_q parts.
Proof.
  cbv zeta. unfold parts_q. induction parts as [|[i p] parts IH]; [reflexivity|].
  rewrite !fmap_cons, !qsum_cons, <- IH. cbn [snd instrument_row pnl_price pnl_coupon pnl_cost].
  rewrite !dval_from_decimal. unfold part_q. ring.
Qed.

Lemma forget_flat_get b acc js i :
  ~ dval (book_position b i) == 0 -> btree_get i (foldl (forget_flat b) acc js) = btree_get i acc.
Proof.
  intros Hi. revert acc. induction js as [|j js IH]; intros acc; cbn; [done|]. rewrite IH. unfold forget_flat.
  destruct (amount_is_zero (book_position b j)) eqn:Ez; [|done]. apply btree_get_remove_ne. intros ->.
  by apply decimal_is_zero_spec in Ez.
Qed.

Lemma held_position b p : wf_book b -> p ∈ positions b -> ~ dval (book_position b p.1) == 0.
Proof.
  intros [Hw Hz] Hp. destruct p as [i f]. unfold book_position. rewrite (btree_elem_get i f) by done. cbn.
  rewrite list.Forall_forall in Hz. by apply (Hz _ Hp).
Qed.

Lemma finish_step_spec l o :
  in_balance l o -> finish_exact l ->
  exists l' row, finish_step l = Ok l' /\ at_rest l' /\ row_accounts l l' row.
Proof.
  intros [Ho Hb Hh Hd Hc Hp Heq] Hex. destruct (Hex o Ho) as (X1 & X2 & X3 & X4 & X5).
  assert (Hknown : forall p, p ∈ positions (ledger_book l) ->
    is_Some (btree_get p.1 (marks_after (marks l) (step_closes o))) /\ is_Some (btree_get p.1 (accrued l))).
  { intros p Hin. destruct (Hh p Hin) as [[m Em] (d & _ & a & Ga & _)]. split; [|by exists a].
    rewrite marks_after_get by done. destruct (btree_get p.1 (step_closes o)); [by eexists|]. by exists m. }
  destruct (equity_loop (marked_ledger l o) _ _ Hknown X1) as (e & Ee & Ev). cbn [marks accrued marked_ledger with_marks with_open] in Ev.
  specialize (X2 e Ee). rewrite Heq in Ev. pose proof (dval_sub _ _ X2) as Et.
  assert (Es : dval (decimal_sum (part_total <$> btree_values (step_parts o))) == parts_q (step_parts o)).
  { rewrite parts_sum_exact by done. unfold parts_q, btree_values. by rewrite <- list_fmap_compose. }
  assert (Ec : dval (step_funding o + decimal_sum (part_total <$> btree_values (step_parts o)))%dec
               == dval (step_funding o) + parts_q (step_parts o)) by (rewrite dval_add; rewrite Es; [reflexivity|done]).
  assert (Hcheck : decimal_eqb (e - equity l)%dec
    (step_funding o + decimal_sum (part_total <$> btree_values (step_parts o)))%dec = true).
  { apply decimal_eqb_spec. rewrite Et, Ec, Ev. ring. }
  unfold finish_step. rewrite Ho. cbn [ok_or mbind Result_bind]. cbv zeta.
  fold (marks_after (marks l) (step_closes o)). fold (marked_ledger l o).
  rewrite (Ee : equity_now (marked_ledger l o) = Ok e). cbn [mbind Result_bind].
  change (equity (marked_ledger l o)) with (equity l). rewrite Hcheck. cbn [negb].
  eexists _, _. split; [reflexivity|]. split.
  - split; cbn; [done|done| |].
    + intros p Hin. cbn in Hin |- *. destruct (Hknown p Hin) as [Hm _]. split; [done|].
      destruct (Hh p Hin) as [_ (d & Hdd & a & Ga & Aa)]. exists d. split; [done|]. exists a. cbn.
      rewrite forget_flat_get by (by apply held_position). by split.
    + rewrite Ev, <- Heq. apply Qplus_comp; [reflexivity|]. symmetry. apply worth_same. intros p Hin.
      split; [reflexivity|]. unfold got. rewrite forget_flat_get by (by apply held_position). reflexivity.
  - split; [reflexivity|..]; unfold row_q; cbn [row_equity row_cash row_total row_funding row_instruments]; try reflexivity.
    + apply dval_from_decimal.
    + rewrite dval_from_decimal. exact Et.
    + rewrite !dval_from_decimal, Et, Ev.
      rewrite <- (row_components (marked_ledger l o) (step_positions o) (step_parts o)). ring.
Qed.
(** ** Whole steps *)

(** A step is exact when its opening, its settlements and its row are, and executes only in bars that
    have prices. *)
Definition step_exact l (step : list Bar * list SimulatedFill) : Prop :=
  open_exact l step.1 /\ Forall (marked (closes_of step.1)) step.2
  /\ forall l1, open_step l step.1 = Ok l1 ->
     along settle_exact settle l1 step.2
     /\ forall l2, try_fold settle l1 step.2 = Ok l2 -> finish_exact l2.

Definition close_steps l (steps : list (list Bar * list SimulatedFill)) : DomainResult ReplayLedger :=
  try_fold (fun l step => close_step l step.1 step.2) l steps.

Lemma close_step_spec l bars fills l1 l2 :
  at_rest l -> step_exact l (bars, fills) -> open_step l bars = Ok l1 -> try_fold settle l1 fills = Ok l2 ->
  exists l' row, close_step l bars fills = Ok l' /\ at_rest l' /\ row_accounts l l' row.
Proof.
  intros Hl (Hx & Hm & Hs) E1 E2. cbn [fst snd] in *. destruct (Hs l1 E1) as [Hset Hfin].
  destruct (open_step_spec _ _ _ Hl Hx E1) as (o1 & B1 & C1 & S1). rewrite <- C1 in Hm.
  destruct (settles_spec _ _ _ _ B1 Hset Hm E2) as (o2 & B2 & C2 & S2).
  destruct (finish_step_spec _ _ B2 (Hfin l2 E2)) as (l' & row & E3 & R & [A1 A2 A3 A4 A5]).
  exists l', row. unfold close_step. rewrite E1. cbn [mbind Result_bind]. rewrite E2. cbn [mbind Result_bind].
  split; [done|]. split; [done|]. unfold same_account in *. destruct S1 as (Q1 & Q2 & _), S2 as (Q3 & Q4 & _).
  split; try done; [congruence|]. by rewrite A4, Q3, Q1.
Qed.

Lemma close_steps_spec l steps l' :
  at_rest l -> along step_exact (fun l step => close_step l step.1 step.2) l steps -> close_steps l steps = Ok l' ->
  at_rest l' /\ exists rows, ledger_rows l' = ledger_rows l ++ rows /\ List.length rows = List.length steps
    /\ dval (equity l') == dval (equity l) + qsum ((fun row => dval (row_total row)) <$> rows).
Proof.
  intros Hl Hex. revert l Hl Hex. induction steps as [|[bars fills] steps IH]; intros l Hl Hex E.
  { injection E as <-. split; [done|]. exists []. rewrite app_nil_r. split; [done|]. split; [done|]. cbn. ring. }
  destruct Hex as [X1 Hex]. unfold close_steps in E. cbn [try_fold fst snd] in E. apply bind_Ok in E as (l1 & E1 & E).
  specialize (Hex l1 E1). pose proof E1 as Ec. unfold close_step in Ec. apply bind_Ok in Ec as (lo & Eo & Ec).
  apply bind_Ok in Ec as (ls & Es & _). destruct (close_step_spec _ _ _ _ _ Hl X1 Eo Es) as (l1' & row & E1' & R & A).
  rewrite E1 in E1'. injection E1' as <-. destruct (IH l1 R Hex E) as (R' & rows & Er & Elen & Eq). split; [done|].
  destruct A as [A1 _ _ A4 _]. exists (row :: rows). rewrite Er, A1, <- (assoc_L (++)). split; [done|].
  split; [cbn; by rewrite Elen|]. rewrite Eq, fmap_cons, qsum_cons, A4. ring.
Qed.

(** ** The claims *)

(** C9. A step of the replay always closes, and its row accounts for it: once a step of a ledger at rest
    has been opened and its executions have been settled, booking the row cannot fail its
    cross-check; the total of the row is the change of the equity, price, coupon, funding and cost
    add up to it, and the ledger is at rest again, its equity being its cash and what its
    positions are worth at mark plus accrued interest. The amounts of the step are exact. *)
Theorem close_step_balances l bars fills l1 l2 :
  at_rest l -> step_exact l (bars, fills) -> open_step l bars = Ok l1 -> try_fold settle l1 fills = Ok l2 ->
  exists l' row, close_step l bars fills = Ok l' /\ at_rest l' /\ row_accounts l l' row.
Proof. apply close_step_spec. Qed.

(** The profit and loss of a replay telescopes: after any number of steps from an empty ledger there
    is one row per step, and what the account is worth, its cash and its positions at mark plus
    accrued interest, is the sum of the totals of the rows. *)
Theorem ledger_pnl_telescopes funding costs settlement steps l' :
  along step_exact (fun l step => close_step l step.1 step.2) (ledger_new funding costs settlement) steps ->
  close_steps (ledger_new funding costs settlement) steps = Ok l' ->
  List.length (ledger_rows l') = List.length steps
  /\ dval (cash (ledger_book l')) + book_worth (positions (ledger_book l')) (worth (marks l') (accrued l'))
     == qsum ((fun row => dval (row_total row)) <$> ledger_rows l').
Proof.
  intros Hx E. destruct (close_steps_spec _ _ _ (ledger_new_at_rest _ _ _) Hx E) as (R & rows & Er & Hlen & Ev).
  rewrite app_nil_l in Er. rewrite Er. split; [done|]. rewrite <- (rest_equity _ R), Ev. cbn [equity ledger_new].
  rewrite dval_zero. ring.
Qed.
End facts.

(** ** An example *)

Section example.
Local Existing Instance sample_rust_decimal.
Local Existing Instance sample_arith.

#[local] Instance sample_carry : BondCarry := {|
  carry_source := sample_bond "S";
  carry_identity := mk_hash [];
  accrued_interest := fun _ _ date => Some ((nd_day date * 5, 1%nat) : Decimal);
  coupon_paid := fun _ _ _ _ => Some ((0, 0%nat) : Decimal)
|}.
#[local] Instance sample_days : ChronoDays := fun a b => nd_day b - nd_day a.

Definition sample_price (z : Z) (s : Z) : DecimalValue :=
  {| coefficient := to_string z; scale := s; value_unit := sample_unit |}.

(** A daily bar of one bond: VWAP 101, close 102.5 (or as given), 40 million traded. *)
Definition sample_bar (bond record : string) (day close_tenths : Z) : Bar := {|
  source_record_id := record; instrument := sample_bond bond; frequency := D1; settlement := T1;
  bar_timezone := "UTC"; bar_trading_date := {| nd_year := 2026; nd_month := 1; nd_day := day |};
  bar_start := {| timestamp := day * 86400; timestamp_subsec_nanos := 0 |};
  bar_end := {| timestamp := day * 86400 + 60000; timestamp_subsec_nanos := 0 |};
  visible_at := {| timestamp := day * 86400 + 61000; timestamp_subsec_nanos := 0 |};
  prices := Some {| open := sample_price 101 0; high := sample_price 105 0; low := sample_price 99 0;
                    close := sample_price close_tenths 1 |};
  volume := sample_price 40000000 0; turnover := None; trade_count := None; vwap := Some (sample_price 101 0);
  close_yield := None
|}.

Definition sample_fill (record : string) (day face : Z) : SimulatedFill := {|
  fill_decision_time := {| timestamp := 0; timestamp_subsec_nanos := 0 |}; fill_instrument := sample_bond "A";
  requested := (face, 0%nat) : Decimal; quantity := (face, 0%nat); fill_limit := None;
  effective_at := {| timestamp := day * 86400 + 60000; timestamp_subsec_nanos := 0 |};
  execution_bar := Some record; price := Some ((101, 0%nat) : Decimal); basis := Some Vwap;
  price_source := Exposure.RealTrade; no_fill := None; remainder := None; fill_constraint := None
|}.

Definition sample_ledger : ReplayLedger :=
  ledger_new {| funding_rule_pack := sample_bond "F"; replay_tier := DrAvailable;
                annual_rate := (2, 2%nat) : Decimal; day_basis := 400 |}
    (RatePlusFixed ((1, 0%nat) : Decimal) (10, 0%nat)) T1.

(** Buy a million on the first day, hold it over the second. *)
Definition sample_steps : list (list Bar * list SimulatedFill) :=
  [([sample_bar "A" "r1" 5 1025], [sample_fill "r1" 5 1000000]); ([sample_bar "A" "r2" 6 1020], [])].

Example sample_rows :
  (fun l => (fun row => (row_price row, row_coupon row, row_funding row, row_cost row, row_total row))
              <$> ledger_rows l) <$> close_steps sample_ledger sample_steps
  = Ok [((15000, 0%nat), (0, 0%nat), (0, 0%nat), (-110, 0%nat), (14890, 0%nat));
        ((-5000, 0%nat), (5000, 0%nat), (-517555, 4%nat), (0, 0%nat), (-517555, 4%nat))].
Proof. vm_compute. reflexivity. Qed.

(** Closed terms stay folded; only tests and comparisons of numbers are evaluated. *)
Lemma default_eq {A} (d : A) o x : o = Some x -> x = default d o.
Proof. by intros ->. Qed.

Ltac fits_now := first [exact I | apply fitsb_sound; vm_compute; reflexivity
                       | let F := fresh in intros F; vm_compute in F; discriminate F].

Definition sample_step : list Bar * list SimulatedFill :=
  ([sample_bar "A" "r1" 5 1025], [sample_fill "r1" 5 1000000]).

Definition no_step : OpenStep := {|
  step_start := bar_start (sample_bar "A" "r" 5 0); step_end := bar_end (sample_bar "A" "r" 5 0);
  step_date := bar_trading_date (sample_bar "A" "r" 5 0); step_known_at := bar_start (sample_bar "A" "r" 5 0);
  step_records := []; step_positions := []; step_parts := []; step_funding := ZERO_DECIMAL; step_closes := []
|}.

Definition part_exactb (p : Parts) : bool :=
  fitsb (dval (part_price p) + dval (part_coupon p)) && fitsb (dval (part_price p) + dval (part_coupon p) + dval (part_cost p)).

Lemma parts_exact_now (ps : list Parts) : forallb part_exactb ps = true -> forall p, p ∈ ps -> part_exact p.
Proof.
  rewrite forallb_forall. intros Hps p Hp%list_elem_of_In. apply Hps in Hp.
  unfold part_exactb in Hp. rewrite andb_true_iff in Hp. destruct Hp as [F1%fitsb_sound F2%fitsb_sound].
  by repeat split.
Qed.

Lemma sample_step_exact : step_exact sample_ledger sample_step.
Proof.
  split; [split; [exact I|intros l1 parts funding E; injection E as <- <- <-; exact I]|].
  split; [apply Forall_singleton; right; by eexists (_, _)|].
  intros l1 E1. apply (ok_of_eq sample_ledger) in E1. subst l1. split; [split; [|done]|].
  - intros o p a Ho Hp Ha. injection Hp as <-. injection Ha as <-. apply (default_eq no_step) in Ho. subst o.
    cbv zeta. repeat split; fits_now.
  - intros l2 E2. apply (ok_of_eq sample_ledger) in E2. subst l2. intros o Ho. apply (default_eq no_step) in Ho. subst o.
    set (l2 := ok_of sample_ledger _).
    assert (Hp : positions (ledger_book l2) = [(sample_bond "A", (1000000, 0%nat) : Decimal)]) by (vm_cast_no_check (@eq_refl (BTreeMap VersionRef Decimal) [(sample_bond "A", (1000000, 0%nat) : Decimal)])).
    rewrite Hp. split; [|split; [|split; [|split]]].
    + split; [|done]. intros m a Hm Ha. apply (default_eq ZERO_DECIMAL) in Hm, Ha. subst m a. repeat split; fits_now.
    + intros e He. apply (ok_of_eq ZERO_DECIMAL) in He. subst e. fits_now.
    + apply parts_exact_now. vm_compute. reflexivity.
    + repeat split; fits_now.
    + fits_now.
Qed.

Lemma close_step_balances_witness :
  exists l' row, close_step sample_ledger sample_step.1 sample_step.2 = Ok l' /\ at_rest l'
    /\ row_accounts sample_ledger l' row.
Proof.
  eapply (@close_step_balances sample_rust_decimal sample_arith sample_arith_laws);
    [apply (@ledger_new_at_rest _ sample_arith sample_arith_laws)|apply sample_step_exact
    |apply (ok_intro sample_ledger); vm_compute; reflexivity|apply (ok_intro sample_ledger); vm_compute; reflexivity].
Defined.

Lemma ledger_pnl_telescopes_witness :
  exists l', close_steps sample_ledger [sample_step] = Ok l'
    /\ List.length (ledger_rows l') = 1%nat
    /\ (dval (cash (ledger_book l')) + book_worth (positions (ledger_book l')) (worth (marks l') (accrued l'))
        == qsum ((fun row => dval (row_total row)) <$> ledger_rows l'))%Q.
Proof.
  assert (E : close_steps sample_ledger [sample_step] = Ok (ok_of sample_ledger (close_steps sample_ledger [sample_step])))
    by (apply ok_intro; vm_compute; reflexivity).
  eexists. split; [exact E|].
  apply (@ledger_pnl_telescopes sample_rust_decimal sample_arith sample_arith_laws _ _ (ledger_funding sample_ledger)
    (ledger_costs sample_ledger) (ledger_settlement sample_ledger) [sample_step]);
    [split; [apply sample_step_exact|intros; exact I]|exact E].
Defined.
End example.
