(* ===== verification/Calibration.v ===== *)
(** * Policy calibration

    [crates/ficant-domain/src/replay/calibration.rs]: the grid of candidate parameters, the choice of
    the best candidate, and the record that a calibrated policy carries. *)

From Stdlib Require Import ZArith Lia QArith Qcanon Strings.String.
From stdpp Require Import base list option strings numbers sorting sets.
From S2P Require Import Prelude Machine Collections Primitives FixedDecimal DecimalValue Amount.
Open Scope Z_scope.

Definition MAX_CALIBRATION_CANDIDATES : Z := 1024.

Inductive CalibrationObjective := TotalPnl.

#[export] Instance CalibrationObjective_eq_dec : EqDecision CalibrationObjective.
Proof. solve_decision. Defined.

Definition objective_code (self : CalibrationObjective) : string :=
  match self with TotalPnl => "ficant.objective.total-pnl" end.

Definition objective_from_code (code : string) : option CalibrationObjective :=
  if bool_decide (code = objective_code TotalPnl) then Some TotalPnl else None.

(** [usize::checked_mul] on a 64-bit platform. *)
Definition usize_checked_mul (a b : Z) : option Z := checked in_u64 (a * b).

(** [Vec::dedup] with the [PartialEq] of the elements. *)
Fixpoint dedup_by {A} (same : A -> A -> bool) (l : list A) : list A :=
  match l with
  | x :: ((y :: _) as l') => if same x y then dedup_by same l' else x :: dedup_by same l'
  | _ => l
  end.

Section calibration.
Context `{DecimalArith}.

Record ParameterGrid := { axes : BTreeMap string (list ReplayAmount) }.

(** The checks of one axis; the number of combinations so far is the state of the loop. *)
Definition check_axis (combinations : Z) (axis : string * list ReplayAmount) : DomainResult Z :=
  let '(name, values) := axis in
  let unique := dedup_by decimal_eqb (sort_by decimal_cmp values) in
  if blank_or_padded name || bool_decide (values = [])
     || negb (bool_decide (List.length unique = List.length values))
  then Err InvalidValue else
  match usize_checked_mul combinations (Z.of_nat (List.length values)) with
  | Some count => if count <=? MAX_CALIBRATION_CANDIDATES then Ok count else Err InvalidValue
  | None => Err InvalidValue
  end.

Definition parameter_grid_new (axes : BTreeMap string (list ReplayAmount)) : DomainResult ParameterGrid :=
  _ ← try_fold check_axis 1 axes;
  if bool_decide (axes = []) then Err InvalidValue else Ok {| axes := axes |}.

(** One more axis: every candidate with every value of the axis. *)
Definition with_axis (candidates : list (BTreeMap string ReplayAmount)) (axis : string * list ReplayAmount)
    : list (BTreeMap string ReplayAmount) :=
  flat_map (fun candidate => (fun value => btree_insert axis.1 value candidate) <$> axis.2) candidates.

Definition grid_candidates (self : ParameterGrid) (base : BTreeMap string ReplayAmount)
    : list (BTreeMap string ReplayAmount) :=
  foldl with_axis [base] (axes self).

Record WindowResult := { window_result_id : ContentHash; window_objective : ReplayAmount }.

Record CandidateResult := {
  candidate_parameters : BTreeMap string ReplayAmount;
  candidate_training : WindowResult;
  candidate_validation : WindowResult
}.

(** Training and validation windows are not empty, and validation follows training. *)
Definition check_windows (training validation : EffectivePeriod) : DomainResult unit :=
  fail_if (geb (instant (ep_from training)) (instant (ep_to training))
           || geb (instant (ep_from validation)) (instant (ep_to validation))
           || ltb (instant (ep_from validation)) (instant (ep_to training))) InvalidEffectiveTime.

(** The fold over the candidates with their indices. *)
Definition better (best : option (nat * ReplayAmount)) (entry : nat * CandidateResult)
    : option (nat * ReplayAmount) :=
  let objective := window_objective (candidate_training entry.2) in
  match best with
  | Some (_, value) => if decimal_leb objective value then best else Some (entry.1, objective)
  | None => Some (entry.1, objective)
  end.

Definition best_training_candidate (candidates : list CandidateResult) : option nat :=
  fst <$> foldl better None (zip (seq 0 (List.length candidates)) candidates).

Record CalibrationRecord := {
  base_policy : ContentHash;
  training : EffectivePeriod;
  validation : EffectivePeriod;
  objective : CalibrationObjective;
  grid : ParameterGrid;
  candidates : list CandidateResult;
  selected : nat
}.

(** The fields of the record are the arguments of the constructor. *)
Definition calibration_record_new (input : CalibrationRecord) : DomainResult CalibrationRecord :=
  _ ← check_windows (training input) (validation input);
  if negb (bool_decide (best_training_candidate (candidates input) = Some (selected input)))
  then Err InvalidValue else Ok input.

(** Indexing panics out of range: [None]. *)
Definition selected_candidate (self : CalibrationRecord) : option CandidateResult :=
  candidates self !! selected self.

End calibration.

(** ** The values of an axis *)

#[local] Instance Qc_ord : Ord Qc := Qccompare.
#[local] Instance Qc_ord_laws : OrdLaws Qc.
Proof.
  split.
  - intros a b. symmetry. apply Qceq_alt.
  - intros a b. unfold cmp, Qc_ord, Qccompare. symmetry. apply Qcompare_antisym.
  - intros a b c. unfold cmp, Qc_ord. rewrite <- !Qclt_alt. apply Qclt_trans.
Qed.

Lemma sort_by_ext {A} (c c' : A -> A -> comparison) (l : list A) :
  (forall x y, c x y = c' x y) -> sort_by c l = sort_by c' l.
Proof.
  unfold sort_by. intros Hc. induction l as [|x l IH]; cbn; [done|]. rewrite IH. generalize (foldr (insert_by c') [] l). clear IH l. intros l.
  induction l as [|y l IH]; cbn; [done|]. by rewrite Hc, IH.
Qed.

Lemma dedup_by_length {A} (same : A -> A -> bool) (l : list A) :
  (List.length (dedup_by same l) <= List.length l)%nat
  /\ (List.length (dedup_by same l) = List.length l <-> windows2_any same l = false).
Proof.
  induction l as [|x [|y l] IH]; [done|done|].
  change (dedup_by same (x :: y :: l))
    with (if same x y then dedup_by same (y :: l) else x :: dedup_by same (y :: l)).
  change (windows2_any same (x :: y :: l)) with (same x y || windows2_any same (y :: l)).
  destruct IH as [IH1 IH2]. destruct (same x y); cbn [orb].
  - split; [cbn [List.length] in *; lia|]. split; [|done]. cbn [List.length] in *. lia.
  - cbn [List.length] in *. split; [lia|]. rewrite <- IH2. lia.
Qed.

Section facts.
Context `{DecimalArithLaws}.

(** The number an amount stands for, in lowest terms. *)
Definition canonical_value (a : ReplayAmount) : Qc := Q2Qc (dval a).

Lemma cmp_canonical (a b : Decimal) : decimal_cmp a b = cmp (canonical_value a) (canonical_value b).
Proof.
  rewrite dval_cmp. unfold cmp, Qc_ord, Qccompare, canonical_value. cbn. by rewrite !Qred_correct.
Qed.

Lemma same_canonical (a b : Decimal) : decimal_eqb a b = true <-> canonical_value a = canonical_value b.
Proof. rewrite decimal_eqb_spec. unfold canonical_value. symmetry. apply Q2Qc_eq_iff. Qed.

(** No two amounts of the list stand for the same number. *)
Definition distinct (values : list ReplayAmount) : Prop := NoDup (canonical_value <$> values).

Lemma no_repeats (values : list ReplayAmount) :
  List.length (dedup_by decimal_eqb (sort_by decimal_cmp values)) = List.length values <-> distinct values.
Proof.
  assert (E : sort_by decimal_cmp values = sort_by_key canonical_value values).
  { unfold sort_by_key. apply sort_by_ext, cmp_canonical. }
  assert (Hlen : List.length (sort_by_key canonical_value values) = List.length values).
  { apply Permutation_length. unfold sort_by_key. apply sort_by_perm. }
  rewrite E, <- Hlen at 1. rewrite (proj2 (dedup_by_length _ _)). unfold distinct.
  assert (Hp : sort_by_key canonical_value values ≡ₚ values) by (unfold sort_by_key; apply sort_by_perm).
  assert (Hd : NoDup (canonical_value <$> sort_by_key canonical_value values) <-> NoDup (canonical_value <$> values))
    by (by rewrite Hp).
  rewrite <- Hd. clear Hd. split.
  - intros Hw. apply strict_NoDup, (sorted_strict canonical_value decimal_eqb); [|apply sort_by_key_sorted|done].
    intros x y Hf Hk. apply same_canonical in Hk. congruence.
  - intros Hn. apply windows2_any_false. intros i x y Hx Hy. destruct (decimal_eqb x y) eqn:Ed; [|done].
    apply same_canonical in Ed. assert (i = S i); [|lia].
    apply (NoDup_lookup _ i (S i) (canonical_value x) Hn); rewrite list_lookup_fmap; apply fmap_Some;
      [by exists x|by exists y].
Qed.

(** ** Grids *)

Definition good_axis (axis : string * list ReplayAmount) : Prop :=
  blank_or_padded axis.1 = false /\ axis.2 <> [] /\ distinct axis.2.

Definition combinations (axes : list (string * list ReplayAmount)) : Z :=
  foldr (fun axis n => Z.of_nat (List.length axis.2) * n) 1 axes.

Lemma combinations_pos axes : Forall good_axis axes -> 1 <= combinations axes.
Proof.
  induction 1 as [|[n vs] axes (_ & Hn & _) _ IH]; [done|]. unfold combinations in *. cbn [foldr snd] in *.
  destruct vs; [done|]. cbn [List.length]. nia.
Qed.

Lemma check_axis_Ok c axis c' :
  1 <= c -> check_axis c axis = Ok c' <->
  good_axis axis /\ c' = c * Z.of_nat (List.length axis.2) /\ c' <= MAX_CALIBRATION_CANDIDATES.
Proof.
  intros Hc. destruct axis as [name values]. unfold check_axis, good_axis. cbn [fst snd].
  destruct (blank_or_padded name); cbn [orb]; [naive_solver|]. case_bool_decide as Hv; cbn [orb]; [naive_solver|].
  case_bool_decide as Hu; cbn [negb]; rewrite no_repeats in Hu; [|naive_solver].
  unfold usize_checked_mul, checked. destruct (in_u64 _) eqn:Er.
  - destruct (_ <=? _) eqn:El; [apply Z.leb_le in El|apply Z.leb_gt in El]; [|naive_solver lia].
    rewrite Ok_inj. naive_solver.
  - split; [done|]. intros (_ & -> & Hm). unfold MAX_CALIBRATION_CANDIDATES in Hm. exfalso. ranges. lia.
Qed.

Lemma check_axes_Ok c axes c' :
  1 <= c <= MAX_CALIBRATION_CANDIDATES -> try_fold check_axis c axes = Ok c' <->
  Forall good_axis axes /\ c' = c * combinations axes /\ c' <= MAX_CALIBRATION_CANDIDATES.
Proof.
  revert c. induction axes as [|axis axes IH]; intros c Hc; cbn [try_fold].
  { rewrite Ok_inj. unfold combinations. cbn. split; [intros <-; split; [constructor|lia]|intros (_ & -> & _); lia]. }
  rewrite bind_Ok. cbn [combinations foldr]. fold (combinations axes). rewrite Forall_cons. split.
  - intros (c1 & E1 & E). apply check_axis_Ok in E1 as (Hg & E1 & Hm); [|lia].
    assert (Hlen : 1 <= Z.of_nat (List.length axis.2)) by (destruct Hg as (_ & Hn & _); destruct axis.2; [done|cbn; lia]).
    apply IH in E as (Hgs & -> & Hm'); [|nia]. split; [done|]. split; [subst c1; ring|done].
  - intros ((Hg & Hgs) & -> & Hm). pose proof (combinations_pos _ Hgs) as Hp.
    assert (Hlen : 1 <= Z.of_nat (List.length axis.2)) by (destruct Hg as (_ & Hn & _); destruct axis.2; [done|cbn; lia]).
    exists (c * Z.of_nat (List.length axis.2)). rewrite check_axis_Ok by lia. split; [split; [done|split; [done|nia]]|].
    apply IH; [nia|]. split; [done|]. split; [ring|nia].
Qed.

(** The choices of one value per axis, the last axis varying fastest. *)
Fixpoint choices (axes : list (string * list ReplayAmount)) : list (list ReplayAmount) :=
  match axes with
  | [] => [[]]
  | axis :: axes => flat_map (fun value => cons value <$> choices axes) axis.2
  end.

(** Parameters overlaid with named values. *)
Definition overlay (base : BTreeMap string ReplayAmount) (named : list (string * ReplayAmount))
    : BTreeMap string ReplayAmount :=
  foldl (fun m p => btree_insert p.1 p.2 m) base named.

Lemma flat_map_singleton {A B} (f : A -> B) (l : list A) : flat_map (fun a => [f a]) l = f <$> l.
Proof. induction l as [|a l IH]; cbn; [done|]. by rewrite IH. Qed.

Lemma fmap_flat_map {A B C} (g : B -> C) (f : A -> list B) (l : list A) :
  g <$> flat_map f l = flat_map (fun a => g <$> f a) l.
Proof. induction l as [|a l IH]; cbn; [done|]. by rewrite fmap_app, IH. Qed.

Lemma flat_map_fmap {A B C} (f : B -> list C) (g : A -> B) (l : list A) :
  flat_map f (g <$> l) = flat_map (fun a => f (g a)) l.
Proof. induction l as [|a l IH]; cbn; [done|]. by rewrite IH. Qed.

Lemma flat_map_nested {A B C} (f : B -> list C) (g : A -> list B) (l : list A) :
  flat_map f (flat_map g l) = flat_map (fun a => flat_map f (g a)) l.
Proof. induction l as [|a l IH]; cbn; [done|]. by rewrite flat_map_app, IH. Qed.

Lemma candidates_choices (axs : list (string * list ReplayAmount)) bases :
  foldl with_axis bases axs
  = flat_map (fun base => (fun choice => overlay base (zip axs.*1 choice)) <$> choices axs) bases.
Proof.
  revert bases. induction axs as [|axis axs IH]; intros bases.
  - cbn. rewrite flat_map_singleton. by rewrite list_fmap_id.
  - cbn [foldl]. rewrite IH. unfold with_axis. rewrite flat_map_nested. apply flat_map_ext. intros base.
    rewrite flat_map_fmap. cbn [choices]. rewrite fmap_flat_map. apply flat_map_ext. intros v.
    rewrite <- list_fmap_compose. apply list_fmap_ext. by intros i choice _.
Qed.

Lemma choices_length axs : Z.of_nat (List.length (choices axs)) = combinations axs.
Proof.
  induction axs as [|axis axs IH]; [done|]. cbn [choices combinations foldr]. fold (combinations axs).
  rewrite <- IH. generalize (choices axs). intros cs. induction axis.2 as [|v vs IHv]; [done|].
  cbn [flat_map]. rewrite length_app, length_fmap. cbn [List.length]. lia.
Qed.

Lemma choices_elem axs choice : choice ∈ choices axs <-> Forall2 (fun v axis => v ∈ axis.2) choice axs.
Proof.
  revert choice. induction axs as [|axis axs IH]; intros choice; cbn [choices].
  - rewrite list_elem_of_singleton. split; [intros ->; constructor|by inversion 1].
  - rewrite list_elem_of_In, in_flat_map. setoid_rewrite <- list_elem_of_In. setoid_rewrite list_elem_of_fmap. split.
    + intros (v & Hv & ch & -> & Hch). constructor; [done|]. by apply IH.
    + inversion 1; subst. eexists. split; [done|]. eexists. split; [done|]. by apply IH.
Qed.

(** What an overlay holds. *)
Lemma overlay_get_ne base named k : k ∉ named.*1 -> btree_get k (overlay base named) = btree_get k base.
Proof.
  revert base. induction named as [|[j v] named IH]; intros base; cbn; [done|].
  intros [Hj Hk]%not_elem_of_cons. rewrite IH by done. by apply btree_get_insert_ne.
Qed.

Lemma overlay_get base named k v :
  NoDup named.*1 -> (k, v) ∈ named -> btree_get k (overlay base named) = Some v.
Proof.
  revert base. induction named as [|[j w] named IH]; intros base Hn Hk; [by apply not_elem_of_nil in Hk|].
  cbn in Hn |- *. apply NoDup_cons in Hn as [Hj Hn]. apply elem_of_cons in Hk as [[= -> ->]|Hk].
  - rewrite overlay_get_ne by done. apply btree_get_insert_eq.
  - by apply IH.
Qed.

(** ** The best candidate *)

Definition training_value (c : CandidateResult) : Q := dval (window_objective (candidate_training c)).

(** The first of the highest values among the first [n] candidates. *)
Definition first_best (cs : list CandidateResult) (n i : nat) (value : ReplayAmount) : Prop :=
  (i < n)%nat /\ (exists c, cs !! i = Some c /\ value = window_objective (candidate_training c))
  /\ forall j c, (j < n)%nat -> cs !! j = Some c ->
     (training_value c <= dval value)%Q /\ ((j < i)%nat -> (training_value c < dval value)%Q).

Lemma better_fold (done_ rest : list CandidateResult) best :
  match best with
  | Some (i, value) => first_best (done_ ++ rest) (List.length done_) i value
  | None => done_ = []
  end ->
  match foldl better best (zip (seq (List.length done_) (List.length rest)) rest) with
  | Some (i, value) => first_best (done_ ++ rest) (List.length (done_ ++ rest)) i value
  | None => done_ ++ rest = []
  end.
Proof.
  revert done_ best. induction rest as [|c rest IH]; intros done_ best Hb.
  { cbn. rewrite app_nil_r in *. destruct best as [[i v]|]; done. }
  cbn [List.length seq zip zip_with foldl]. specialize (IH (done_ ++ [c]) (better best (List.length done_, c))).
  rewrite length_app, Nat.add_1_r, <- (assoc_L (++)) in IH. cbn [app] in IH. apply IH. clear IH.
  assert (Hc : (done_ ++ c :: rest) !! List.length done_ = Some c) by (by rewrite list_lookup_middle).
  unfold better. cbn [fst snd]. destruct best as [[i value]|].
  - destruct Hb as (Hi & Hv & Hbest). destruct (decimal_leb _ _) eqn:El.
    + apply decimal_leb_spec in El. split; [lia|]. split; [done|]. intros j d Hj Hd.
      destruct (decide (j = List.length done_)) as [->|Hne]; [|apply Hbest; [lia|done]].
      rewrite Hc in Hd. injection Hd as <-. split; [exact El|lia].
    + assert (Hlt : (dval value < dval (window_objective (candidate_training c)))%Q).
      { apply Qnot_le_lt. intros F. apply decimal_leb_spec in F. congruence. }
      split; [lia|]. split; [by eexists|]. intros j d Hj Hd.
      destruct (decide (j = List.length done_)) as [->|Hne].
      * rewrite Hc in Hd. injection Hd as <-. split; [apply Qle_refl|lia].
      * destruct (Hbest j d ltac:(lia) Hd) as [Hle _].
        split; [apply Qlt_le_weak|intros _]; eapply Qle_lt_trans; eassumption.
  - subst done_. cbn in *. split; [lia|]. split; [by eexists|]. intros j d Hj Hd.
    assert (j = 0%nat) as -> by lia. injection Hd as <-. split; [apply Qle_refl|lia].
Qed.

Lemma best_training_spec cs i :
  best_training_candidate cs = Some i <->
  exists c, cs !! i = Some c
  /\ forall j d, cs !! j = Some d ->
     (training_value d <= training_value c)%Q /\ ((j < i)%nat -> (training_value d < training_value c)%Q).
Proof.
  unfold best_training_candidate. pose proof (better_fold [] cs None eq_refl) as Hb. cbn in Hb.
  split.
  - destruct (foldl _ _ _) as [[k v]|]; [|done]. intros [= ->]. destruct Hb as (Hi & (c & Hc & ->) & Hb).
    exists c. split; [done|]. intros j d Hd. apply Hb; [by eapply lookup_lt_Some|done].
  - intros (c & Hc & Hbest). destruct (foldl _ _ _) as [[k v]|]; [|subst; done].
    destruct Hb as (Hk & (d & Hd & ->) & Hb). cbn. f_equal.
    destruct (Hb i c ltac:(by eapply lookup_lt_Some) Hc) as [H1' H2']. destruct (Hbest k d Hd) as [H3' H4'].
    fold (training_value d) in *. unfold training_value in *.
    destruct (Nat.lt_trichotomy k i) as [Hlt|[->|Hlt]]; [|done|].
    + specialize (H4' Hlt). exfalso. by eapply Qlt_not_le.
    + specialize (H2' Hlt). exfalso. by eapply Qlt_not_le.
Qed.

Lemma best_training_none cs : best_training_candidate cs = None <-> cs = [].
Proof.
  unfold best_training_candidate. pose proof (better_fold [] cs None eq_refl) as Hb. cbn in Hb.
  destruct (foldl _ _ _) as [[k v]|] eqn:E; cbn; [|done]. split; [done|]. intros ->. destruct Hb as (F & _). cbn in F. lia.
Qed.

(** ** Distinct candidates *)

Lemma choices_distinct axs :
  Forall good_axis axs -> NoDup ((fun choice : list ReplayAmount => canonical_value <$> choice) <$> choices axs).
Proof.
  induction 1 as [|axis axs (_ & _ & Hd) _ IH]; [cbn; apply NoDup_singleton|]. cbn [choices].
  unfold distinct in Hd. induction axis.2 as [|v vs IHv]; [constructor|]. cbn [flat_map]. rewrite fmap_app.
  rewrite fmap_cons in Hd. apply NoDup_cons in Hd as [Hv Hd]. apply NoDup_app. split; [|split; [|by apply IHv]].
  - assert (E : (fun choice : list ReplayAmount => canonical_value <$> choice) <$> (cons v <$> choices axs)
        = cons (canonical_value v) <$> ((fun choice : list ReplayAmount => canonical_value <$> choice) <$> choices axs)).
    { rewrite <- !list_fmap_compose. apply list_fmap_ext. by intros. }
    rewrite E. by apply (NoDup_fmap_2 _).
  - intros q (c1 & -> & (ch1 & -> & _)%list_elem_of_fmap)%list_elem_of_fmap (c2 & E & Hc2)%list_elem_of_fmap.
    apply list_elem_of_In, in_flat_map in Hc2 as (w & Hw%list_elem_of_In & Hc2%list_elem_of_In).
    apply list_elem_of_fmap in Hc2 as (ch2 & -> & _). rewrite !fmap_cons in E. assert (Evw : canonical_value v = canonical_value w) by congruence.
    apply Hv, list_elem_of_fmap. by exists w.
Qed.

(** The values of a choice can be read off the overlay. *)
Lemma overlay_choice (axs : BTreeMap string (list ReplayAmount)) base choice k name v :
  btree_wf axs -> List.length choice = List.length axs -> axs.*1 !! k = Some name -> choice !! k = Some v ->
  btree_get name (overlay base (zip axs.*1 choice)) = Some v.
Proof.
  intros Hw Hl Hn Hv. apply overlay_get.
  - rewrite fst_zip by (rewrite length_fmap; lia). by apply strict_sorted_NoDup.
  - apply list_elem_of_lookup. exists k. apply lookup_zip_with_Some. by exists name, v.
Qed.

Lemma overlay_inj (axs : BTreeMap string (list ReplayAmount)) base c d :
  btree_wf axs -> List.length c = List.length axs -> List.length d = List.length axs ->
  (forall name, canonical_value <$> btree_get name (overlay base (zip axs.*1 c))
              = canonical_value <$> btree_get name (overlay base (zip axs.*1 d))) ->
  canonical_value <$> c = canonical_value <$> d.
Proof.
  intros Hw Hc Hd E. apply list_eq. intros k. rewrite !list_lookup_fmap.
  destruct (axs.*1 !! k) as [name|] eqn:En.
  - assert (Hk : (k < List.length axs)%nat) by (apply lookup_lt_Some in En; by rewrite length_fmap in En).
    destruct (lookup_lt_is_Some_2 c k ltac:(lia)) as [v Ev]. destruct (lookup_lt_is_Some_2 d k ltac:(lia)) as [w Ew].
    specialize (E name). rewrite (overlay_choice _ _ _ k _ v Hw Hc En Ev), (overlay_choice _ _ _ k _ w Hw Hd En Ew) in E.
    change (canonical_value <$> (c !! k) = canonical_value <$> (d !! k)). by rewrite Ev, Ew.
  - assert (Hk : (List.length axs <= k)%nat) by (apply lookup_ge_None in En; by rewrite length_fmap in En).
    change (canonical_value <$> (c !! k) = canonical_value <$> (d !! k)).
    by rewrite !lookup_ge_None_2 by lia.
Qed.

(** ** The claims *)

(** A parameter grid stands for the cartesian product of its axes: the candidates are the base
    parameters overlaid with every choice of one value per axis, the first axis varying slowest;
    there is at least one, there are at most 1024, and no two of them carry the same values. *)
Theorem grid_candidates_enumerate (axs : BTreeMap string (list ReplayAmount)) base g :
  btree_wf axs -> parameter_grid_new axs = Ok g ->
  grid_candidates g base = (fun choice => overlay base (zip axs.*1 choice)) <$> choices axs
  /\ 1 <= Z.of_nat (List.length (grid_candidates g base)) <= MAX_CALIBRATION_CANDIDATES
  /\ forall i j c d, grid_candidates g base !! i = Some c -> grid_candidates g base !! j = Some d ->
     (forall name, canonical_value <$> btree_get name c = canonical_value <$> btree_get name d) -> i = j.
Proof.
  intros Hw E. unfold parameter_grid_new in E. apply bind_Ok in E as (n & En & E).
  case_bool_decide; [done|]. injection E as <-. apply check_axes_Ok in En as (Hg & -> & Hm); [|done].
  assert (Eq : grid_candidates {| axes := axs |} base
               = (fun choice => overlay base (zip axs.*1 choice)) <$> choices axs).
  { unfold grid_candidates. cbn [axes]. rewrite candidates_choices. cbn [flat_map]. by rewrite app_nil_r. }
  split; [done|]. rewrite Eq. split; [rewrite length_fmap, choices_length; pose proof (combinations_pos _ Hg); lia|].
  intros i j c d (ch & -> & Hi)%list_lookup_fmap_Some (dh & -> & Hj)%list_lookup_fmap_Some Hsame.
  assert (Hlen : forall k ch, choices axs !! k = Some ch -> List.length ch = List.length axs).
  { intros k x Hx. apply list_elem_of_lookup_2, choices_elem in Hx. by eapply Forall2_length. }
  apply (NoDup_lookup _ i j (canonical_value <$> ch) (choices_distinct _ Hg)); rewrite list_lookup_fmap.
  - by rewrite Hi.
  - rewrite Hj. cbn. f_equal. symmetry. eapply overlay_inj; [exact Hw|by eapply Hlen|by eapply Hlen|done].
Qed.

(** A calibration record holds the candidate that did best in training: it is accepted exactly when
    both windows are not empty, validation does not start before training ends, and the selected
    index is that of the first of the candidates with the highest training objective; validation
    results play no part, and the selected candidate exists. *)
Theorem calibration_record_new_correct input record :
  calibration_record_new input = Ok record <->
  record = input
  /\ ltb (instant (ep_from (training input))) (instant (ep_to (training input))) = true
  /\ ltb (instant (ep_from (validation input))) (instant (ep_to (validation input))) = true
  /\ ltb (instant (ep_from (validation input))) (instant (ep_to (training input))) = false
  /\ exists best, selected_candidate input = Some best
     /\ forall j d, candidates input !! j = Some d ->
        (training_value d <= training_value best)%Q
        /\ ((j < selected input)%nat -> (training_value d < training_value best)%Q).
Proof.
  unfold calibration_record_new, check_windows. rewrite guard_Ok, fail_if_Ok, !orb_false_iff, !geb_spec, !negb_false_iff.
  case_bool_decide as Hb; cbn [negb]; rewrite best_training_spec in Hb.
  - rewrite Ok_inj. unfold selected_candidate. naive_solver.
  - split; [naive_solver|]. intros (_ & _ & _ & _ & Hbest). by destruct Hb.
Qed.
End facts.

(** ** Witnesses *)

Section example.
Local Existing Instance sample_rust_decimal.
Local Existing Instance sample_arith.

Definition sample_axes : BTreeMap string (list ReplayAmount) :=
  [("entry_yield"%string, [(185, 2%nat) : Decimal; (19, 1%nat)]); ("target_face"%string, [(5, 0%nat) : Decimal; (7, 0%nat)])].

Lemma grid_candidates_enumerate_witness :
  exists g, parameter_grid_new sample_axes = Ok g /\ List.length (grid_candidates g []) = 4%nat
    /\ (Z.of_nat (List.length (grid_candidates g [])) <= MAX_CALIBRATION_CANDIDATES)%Z.
Proof.
  eexists. split; [apply (ok_intro {| axes := [] |}); vm_compute; reflexivity|]. split; [vm_compute; reflexivity|].
  apply (@grid_candidates_enumerate sample_rust_decimal sample_arith sample_arith_laws sample_axes []).
  - repeat constructor.
  - apply (ok_intro {| axes := [] |}). vm_compute. reflexivity.
Defined.

Definition sample_instant (day : Z) : MarketTime := {|
  instant := {| timestamp := day * 86400; timestamp_subsec_nanos := 0 |}; market_timezone := "UTC";
  local_trading_date := {| nd_year := 2026; nd_month := 1; nd_day := day |}
|}.

Definition sample_candidate (training : Z) : CandidateResult := {|
  candidate_parameters := [];
  candidate_training := {| window_result_id := mk_hash []; window_objective := (training, 0%nat) : Decimal |};
  candidate_validation := {| window_result_id := mk_hash []; window_objective := (0, 0%nat) : Decimal |}
|}.

(** The second and the third do best in training; the second is selected. *)
Definition sample_record : CalibrationRecord := {|
  base_policy := mk_hash []; training := {| ep_from := sample_instant 1; ep_to := sample_instant 5 |};
  validation := {| ep_from := sample_instant 5; ep_to := sample_instant 9 |}; objective := TotalPnl;
  grid := {| axes := sample_axes |}; candidates := sample_candidate <$> [3; 7; 7; 5]; selected := 1
|}.

Lemma calibration_record_new_correct_witness :
  exists best, selected_candidate sample_record = Some best
  /\ forall j d, candidates sample_record !! j = Some d ->
     (training_value d <= training_value best)%Q
     /\ ((j < selected sample_record)%nat -> (training_value d < training_value best)%Q).
Proof.
  assert (E : calibration_record_new sample_record = Ok sample_record).
  { unfold calibration_record_new. by replace (bool_decide _) with true by (vm_compute; reflexivity). }
  apply (@calibration_record_new_correct sample_rust_decimal sample_arith sample_arith_laws sample_record sample_record) in E.
  apply E.
Defined.
End example.
