(* ===== verification/Writer.v ===== *)
(** * Canonical bytes of replay objects

    The [Canonical] writer of [crates/ficant-domain/src/replay/mod.rs]: texts and counts are preceded
    or written as 8 big-endian bytes, amounts as canonical text, times as microseconds. Every write is
    self-delimiting, so a sequence of writes can be read back ([read_fields]). *)

From Stdlib Require Import ZArith Lia QArith Strings.String Strings.Byte.
From stdpp Require Import base list option strings numbers sorting sets.
From S2P Require Import Prelude Machine Collections Primitives FixedDecimal Codec Digits DecimalValue Amount.
Open Scope Z_scope.

(** [chrono::DateTime::timestamp_micros]. *)
Definition timestamp_micros (t : DateTime) : Z := timestamp t * 1000000 + timestamp_subsec_nanos t / 1000.

Definition write_text (value : string) : list byte := push_str value.
Definition write_number (value : Z) : list byte := to_be_bytes 8 value.
Definition write_time (value : DateTime) : list byte := to_be_bytes 8 (timestamp_micros value).
Definition write_version_ref (value : VersionRef) : list byte :=
  write_text (ulid_str (vr_id value)) ++ write_number (version_get (vr_version value)).
Definition write_hash (value : ContentHash) : list byte := hash_bytes value.
Definition write_amount `{DecimalArith} (value : ReplayAmount) : list byte := write_text (amount_canonical value).
Definition write_optional {A} (write : A -> list byte) (value : option A) : list byte :=
  match value with Some inner => byte_of_Z 1 :: write inner | None => [byte_of_Z 0] end.

(** A counted sequence: [number(len)], then every element. *)
Definition write_list {A} (write : A -> list byte) (l : list A) : list byte :=
  write_number (Z.of_nat (List.length l)) ++ flat_map write l.

(** ** Reading back *)

Class SelfDelimiting {A} (P : A -> Prop) (enc : A -> list byte) : Prop := sd : self_delimiting P enc.
#[export] Hint Mode SelfDelimiting + - + : typeclass_instances.

(** Reads one field off both sides of an equation; its value becomes an equation of its own. A text
    that is the code of a value reads as the value. *)
Ltac read_as S a b E := let F := fresh "F" in apply (S a b) in E; [destruct E as [F E]|..].
Ltac read_field E :=
  rewrite <- ?(assoc_L (++)) in E;
  match type of E with
  | write_text (?c ?a) ++ _ = write_text (?c ?b) ++ _ =>
      let S := constr:(_ : SelfDelimiting _ (fun x => write_text (c x))) in read_as S a b E
  | ?e ?a ++ _ = ?e ?b ++ _ => let S := constr:(_ : SelfDelimiting _ e) in read_as S a b E
  end.

Ltac read_fields E := repeat (read_field E; [|solve [exact I | assumption | done | auto with ficant]..]).

(** The encoding of a record of which every field is written: reads all fields of both sides. *)
Tactic Notation "sd_record" reference(wf) reference(enc) :=
  let a := fresh "a" in let b := fresh "b" in let E := fresh "E" in
  unfold wf; intros a b ? ? ? ? E; destruct_and?; unfold enc in E; read_fields E; split; [|exact E];
  destruct a, b; cbn in *; congruence.

(** Texts of at most [isize::MAX] bytes, counts, instants of whole microseconds. *)
Definition whole_micros (t : DateTime) : Prop :=
  in_i64 (timestamp_micros t) = true /\ 0 <= timestamp_subsec_nanos t < 1000000000
  /\ timestamp_subsec_nanos t mod 1000 = 0.

Lemma timestamp_micros_inj t u : whole_micros t -> whole_micros u -> timestamp_micros t = timestamp_micros u -> t = u.
Proof.
  intros (_ & Ht & Mt) (_ & Hu & Mu) E. unfold timestamp_micros in E. destruct t as [s n], u as [s' n'].
  cbn [timestamp timestamp_subsec_nanos] in *.
  pose proof (Z.div_mod n 1000 ltac:(lia)). pose proof (Z.div_mod n' 1000 ltac:(lia)).
  assert (Hd : 0 <= n / 1000 < 1000000) by (split; [apply Z.div_pos|apply Z.div_lt_upper_bound]; lia).
  assert (Hd' : 0 <= n' / 1000 < 1000000) by (split; [apply Z.div_pos|apply Z.div_lt_upper_bound]; lia).
  assert (s = s') by lia. subst s'. assert (n / 1000 = n' / 1000) by lia. f_equal. lia.
Qed.

#[export] Instance sd_text : SelfDelimiting wf_str write_text := sd_str.
#[export] Instance sd_number : SelfDelimiting (fun z => in_u64 z = true) write_number := sd_u64.
#[export] Instance sd_write_hash : SelfDelimiting wf_hash write_hash := sd_hash.

#[export] Instance sd_time : SelfDelimiting whole_micros write_time.
Proof.
  apply (sd_fixed _ _ 8); [intros; apply length_to_be_bytes|]. intros t u Ht Hu E.
  apply timestamp_micros_inj; [done..|]. apply i64_be_inj; [apply Ht|apply Hu|done].
Qed.

(** Sequences whose length fits the count that precedes them. *)
Definition counted {A} (P : A -> Prop) (l : list A) : Prop := Forall P l /\ Z.of_nat (List.length l) < 2 ^ 64.

(** An optional field, when it is there. *)
Definition when {A} (P : A -> Prop) (o : option A) : Prop := forall a, o = Some a -> P a.

#[export] Instance sd_optional {A} (P : A -> Prop) write :
  SelfDelimiting P write -> SelfDelimiting (when P) (write_optional write).
Proof.
  intros Hw [a|] [b|] r s Ha Hb E; cbn in E; [|done..|by injection E as ->].
  injection E as E. apply Hw in E as [-> ->]; auto.
Qed.

#[export] Instance sd_list {A} (P : A -> Prop) write :
  SelfDelimiting P write ->
  SelfDelimiting (counted P) (write_list write).
Proof. apply sd_seq. Qed.

(** A pair of writes, as in the loops over maps. *)
Definition write_pair {A B} (wa : A -> list byte) (wb : B -> list byte) (p : A * B) : list byte := wa p.1 ++ wb p.2.

#[export] Instance sd_pair {A B} (P : A -> Prop) (Q : B -> Prop) wa wb :
  SelfDelimiting P wa -> SelfDelimiting Q wb ->
  SelfDelimiting (fun p => P p.1 /\ Q p.2) (write_pair wa wb).
Proof.
  intros Ha Hb [a b] [a' b'] r s [Pa Qb] [Pa' Qb'] E. unfold write_pair in E. cbn [fst snd] in *.
  rewrite <- !(assoc_L (++)) in E. apply Ha in E as [-> E]; [|done..]. apply Hb in E as [-> ->]; done.
Qed.

(** The whole of an encoding. *)
Lemma sd_whole {A} (P : A -> Prop) enc `{!SelfDelimiting P enc} a b : P a -> P b -> enc a = enc b -> a = b.
Proof. apply self_delimiting_inj, sd. Qed.

(** Values that are written through an injective view. *)
Lemma sd_view {A B} (P : B -> Prop) (enc : B -> list byte) (Q : A -> Prop) (view : A -> B) (enc' : A -> list byte) :
  SelfDelimiting P enc -> (forall a, Q a -> P (view a)) -> (forall a, enc' a = enc (view a)) ->
  (forall a b, Q a -> Q b -> view a = view b -> a = b) -> SelfDelimiting Q enc'.
Proof.
  intros He HP Henc Hinj a b r s Ha Hb E. rewrite !Henc in E. apply He in E as [E ->]; [|by apply HP..].
  split; [by apply Hinj|done].
Qed.

(** Codes: short texts that determine a value of an enumeration. *)
Class Code {A} (code : A -> string) : Prop := {
  code_short a : wf_str (code a);
  code_inj a b : code a = code b -> a = b
}.
#[export] Hint Mode Code + ! : typeclass_instances.

#[export] Instance sd_code {A} (code : A -> string) `{!Code code} :
  SelfDelimiting (fun _ => True) (fun a => write_text (code a)).
Proof. apply (sd_view wf_str write_text _ code); [apply _|intros; apply code_short|done|]. intros a b _ _. apply code_inj. Qed.

#[export] Instance sd_ulid `{UlidCrate} : SelfDelimiting wf_ulid (fun u => write_text (ulid_str u)).
Proof.
  apply (sd_view wf_str write_text _ ulid_str); [apply _| |done|].
  - intros u Hu%wf_ulid_len. unfold wf_str, str_len. lia.
  - intros [] [] _ _. cbn. congruence.
Qed.

#[export] Instance sd_version_ref `{UlidCrate} : SelfDelimiting wf_vref write_version_ref.
Proof.
  intros a b r s [Ua Va] [Ub Vb] E. unfold write_version_ref in E.
  read_field E; [|done..]. read_field E; [|unfold wf_version in *; ranges; lia..].
  destruct a as [[] []], b as [[] []]. cbn in *. split; congruence.
Qed.

(** Two equal encodings, with an empty rest for the last field. *)
Lemma with_rest (l m : list byte) : l = m -> l ++ [] = m ++ [].
Proof. by intros ->. Qed.

(** *** Amounts

    Amounts are stored normalised; the text of a normalised decimal determines it. *)

(** A stored amount: a decimal in normal form. *)
Definition stored `{DecimalArith} (a : ReplayAmount) : Prop :=
  decimal_normalize a = a /\ decimal_range (mantissa a) (decimal_scale a).

Class DecimalText `{DecimalArith} : Prop := {
  decimal_text_short a : stored a -> wf_str (decimal_to_string a);
  decimal_text_inj a b : stored a -> stored b -> decimal_to_string a = decimal_to_string b -> a = b
}.

#[export] Instance sd_amount `{DecimalText} : SelfDelimiting stored write_amount.
Proof.
  apply (sd_view wf_str write_text _ amount_canonical); [apply _| |done|].
  - intros a Ha. unfold amount_canonical. rewrite (proj1 Ha). by apply decimal_text_short.
  - intros a b Ha Hb E. unfold amount_canonical in E. rewrite (proj1 Ha), (proj1 Hb) in E.
    by apply decimal_text_inj.
Qed.

(** *** An arithmetic whose text is a coefficient and an exponent *)

Lemma as_bytes_app s t : as_bytes (s ++ t)%string = as_bytes s ++ as_bytes t.
Proof.
  unfold as_bytes, list_byte_of_string. rewrite <- List.map_app. f_equal.
  induction s as [|c s IH]; [done|]. exact (f_equal (cons c) IH).
Qed.

(** Signed digits hold no letter. *)
Lemma text_before_letter s t (r q : list byte) : in_i128 s = true -> in_i128 t = true ->
  as_bytes (to_string s) ++ x65 :: r = as_bytes (to_string t) ++ x65 :: q -> s = t /\ r = q.
Proof.
  intros Hs Ht E.
  assert (Hn : forall z, ~ In x65 (as_bytes (to_string z))).
  { intros z Hin. destruct (to_string_text z) as (l & Ez & Hd & _). rewrite Ez in Hin.
    unfold signed_text in Hin. rewrite as_bytes_of_bytes in Hin.
    unfold all_digits in Hd. rewrite forallb_forall in Hd.
    destruct (z <? 0); [destruct Hin as [|Hin]; [done|]|]; by apply Hd in Hin. }
  assert (Hsplit : forall l m : list byte, ~ In x65 l -> ~ In x65 m -> l ++ x65 :: r = m ++ x65 :: q -> l = m /\ r = q).
  { induction l as [|b l IH]; intros [|c m] Hl Hm F; cbn in Hl, Hm, F.
    - by injection F as ->.
    - injection F as <- _. tauto.
    - injection F as -> _. tauto.
    - injection F as -> F. destruct (IH m) as [-> ->]; tauto. }
  apply Hsplit in E as [E ->]; [|apply Hn..]. split; [|done]. apply to_string_inj; [done..|].
  rewrite <- (of_as_bytes (to_string s)), <- (of_as_bytes (to_string t)). by f_equal.
Qed.

Lemma sample_text : @DecimalText sample_rust_decimal sample_arith.
Proof.
  assert (Hr : forall m s, @stored sample_rust_decimal sample_arith (m, s) -> Z.abs m < 10 ^ 29 /\ Z.of_nat s < 10 ^ 29).
  { intros m s (_ & Hm & Hs). cbn in Hm, Hs. lia. }
  assert (Hin : forall z, Z.abs z < 10 ^ 29 -> in_i128 z = true) by (intros; ranges; lia).
  split.
  - intros [m s] [Hm Hs]%Hr. unfold wf_str, str_len. cbn [decimal_to_string sample_arith fst snd].
    assert (Hl : forall z, Z.abs z < 10 ^ 29 -> Z.of_nat (List.length (as_bytes (to_string z))) <= 30).
    { intros z Hz. destruct (Z.eq_dec z 0) as [->|Hz0]; [vm_compute; discriminate|].
      destruct (to_string_digits z 29 ltac:(lia) Hz0 Hz) as (l & -> & _ & _ & _ & _ & Hl).
      unfold signed_text. rewrite as_bytes_of_bytes. destruct (z <? 0); cbn [List.length]; lia. }
    pose proof (Hl m Hm). pose proof (Hl (Z.of_nat s) ltac:(lia)).
    rewrite <- !length_as_bytes in *. rewrite !as_bytes_app, !length_app. change (List.length (as_bytes "e-")) with 2%nat. lia.
  - intros [m s] [n t] [Hm Hs]%Hr [Hn Ht]%Hr E. cbn [decimal_to_string sample_arith fst snd] in E.
    apply (f_equal as_bytes) in E. rewrite !as_bytes_app in E.
    apply text_before_letter in E as [-> E]; [|by apply Hin..]. injection E as E.
    apply (f_equal string_of_list_byte) in E. rewrite !of_as_bytes in E.
    apply to_string_inj in E; [|apply Hin; lia..]. f_equal. lia.
Qed.

Lemma sample_stored (a : Z * nat) :
  (Z.abs a.1 <? 2 ^ 96) && (Z.of_nat a.2 <=? 28) && ((a.2 =? 0)%nat || negb (a.1 mod 10 =? 0)) = true ->
  @stored sample_rust_decimal sample_arith a.
Proof.
  destruct a as [m s]. cbn [fst snd]. rewrite !andb_true_iff, orb_true_iff, negb_true_iff. intros [[H1 H2] H3].
  split; [|cbn; unfold decimal_range; lia]. cbn. destruct s as [|s]; [done|]. destruct H3 as [|H3]; [done|]. cbn. by rewrite H3.
Qed.

(** A count that precedes a short sequence fits. *)
Lemma counted_intro {A} (P : A -> Prop) l : Forall P l -> (Z.of_nat (List.length l) <? 2 ^ 64) = true -> counted P l.
Proof. intros Hl Hn. split; [done|lia]. Qed.
