(* ===== verification/Policy.v ===== *)
(** * Policies

    [crates/ficant-domain/src/replay/mod.rs]: policy artifacts and their content hash, the
    point-in-time view a policy decides from, and the yield threshold policy. *)

From Stdlib Require Import ZArith Lia QArith Strings.String Strings.Byte.
From stdpp Require Import base list option strings numbers sorting sets.
From S2P Require Import Prelude Machine Collections Primitives FixedDecimal Codec Concrete DecimalValue Amount Bar Book Execution Subject Constraints Calibration Writer.
Open Scope Z_scope.

Definition YIELD_THRESHOLD_FAMILY : string := "ficant.policy.yield-threshold".

Inductive PolicyError := MissingParameter (name : string) | UnsupportedFamily.

(** [Iterator::max_by_key]: the last of the greatest. *)
Definition max_by_key {A K} `{Ord K} (key : A -> K) (l : list A) : option A :=
  match l with
  | [] => None
  | x :: l => Some (foldl (fun best x => if geb (key x) (key best) then x else best) x l)
  end.

Section policy.
Context `{DecimalArith}.

Record PolicyArtifactInput := {
  policy_artifact_id : Ulid;
  policy_owner : OwnerRef;
  family : string;
  family_version : Z;
  parameters : BTreeMap string ReplayAmount;
  universe : list VersionRef;
  policy_frequency : BarFrequency;
  policy_settlement : BarSettlement;
  valid : EffectivePeriod;
  execution : ExecutionRules;
  policy_constraints : BTreeMap string ConstraintHandling;
  calibration : option CalibrationRecord
}.

Record PolicyArtifact := { policy_input : PolicyArtifactInput; policy_hash : ContentHash }.

(** *** Canonical bytes *)

Definition write_parameters (m : BTreeMap string ReplayAmount) : list byte :=
  write_list (write_pair write_text write_amount) m.

Definition write_window (window : EffectivePeriod) : list byte :=
  write_time (instant (ep_from window)) ++ write_time (instant (ep_to window)).

Definition write_window_result (window : WindowResult) : list byte :=
  write_hash (window_result_id window) ++ write_amount (window_objective window).

Definition write_candidate (candidate : CandidateResult) : list byte :=
  write_parameters (candidate_parameters candidate)
  ++ write_window_result (candidate_training candidate) ++ write_window_result (candidate_validation candidate).

Definition calibration_bytes (record : CalibrationRecord) : list byte :=
  write_hash (base_policy record)
  ++ write_window (training record) ++ write_window (validation record)
  ++ write_text (objective_code (objective record))
  ++ write_list (write_pair write_text (write_list write_amount)) (axes (grid record))
  ++ write_list write_candidate (candidates record)
  ++ write_number (Z.of_nat (selected record)).

Definition policy_bytes (input : PolicyArtifactInput) : list byte :=
  write_text "ficant-policy-artifact/v4"
  ++ write_text (ulid_str (policy_artifact_id input))
  ++ write_text (ulid_str (tenant_id (policy_owner input))) ++ write_text (ulid_str (owner_id (policy_owner input)))
  ++ write_text (family input) ++ write_number (family_version input)
  ++ write_parameters (parameters input)
  ++ write_list write_version_ref (universe input)
  ++ write_text (frequency_code (policy_frequency input)) ++ write_text (settlement_code (policy_settlement input))
  ++ write_time (instant (ep_from (valid input))) ++ write_time (instant (ep_to (valid input)))
  ++ write_amount (participation_cap (execution input))
  ++ write_text (remainder_handling_code (remainder_handling (execution input)))
  ++ write_list (write_pair write_text (fun handling => write_text (constraint_handling_code handling)))
       (policy_constraints input)
  ++ write_optional calibration_bytes (calibration input).

(** *** Construction *)

(** Equality of parameter maps compares amounts by value. *)
Fixpoint same_parameters (a b : list (string * ReplayAmount)) : bool :=
  match a, b with
  | [], [] => true
  | (k, v) :: a, (l, w) :: b => bool_decide (k = l) && decimal_eqb v w && same_parameters a b
  | _, _ => false
  end.

(** A calibrated artifact carries exactly the parameters of the selected candidate. The index of a
    record is in range, so [None] does not occur. *)
Definition calibration_mismatch (input : PolicyArtifactInput) : bool :=
  from_option (fun record =>
    negb (from_option (fun best => same_parameters (candidate_parameters best) (parameters input)) false
            (selected_candidate record))) false (calibration input).

Definition with_universe (input : PolicyArtifactInput) (universe : list VersionRef) : PolicyArtifactInput := {|
  policy_artifact_id := policy_artifact_id input; policy_owner := policy_owner input; family := family input;
  family_version := family_version input; parameters := parameters input; universe := universe;
  policy_frequency := policy_frequency input; policy_settlement := policy_settlement input;
  valid := valid input; execution := execution input; policy_constraints := policy_constraints input;
  calibration := calibration input
|}.

Definition policy_artifact_new `{Sha256} (input : PolicyArtifactInput) : DomainResult PolicyArtifact :=
  let input := with_universe input (dedup (sort (universe input))) in
  if blank_or_padded (family input) || (family_version input =? 0) || bool_decide (universe input = [])
     || existsb blank_or_padded (btree_keys (parameters input) ++ btree_keys (policy_constraints input))
  then Err InvalidValue
  else if calibration_mismatch input then Err InvalidValue
  else Ok {| policy_input := input; policy_hash := digest (policy_bytes input) |}.

Definition policy_parameter (self : PolicyArtifact) (name : string) : option ReplayAmount :=
  btree_get name (parameters (policy_input self)).

(** The universe is sorted, so a binary search finds exactly its members. *)
Definition covers (self : PolicyArtifact) (bar : Bar) : bool :=
  bool_decide (frequency bar = policy_frequency (policy_input self))
  && bool_decide (settlement bar = policy_settlement (policy_input self))
  && bool_decide (instrument bar ∈ universe (policy_input self)).

Definition policy_period_contains (policy : PolicyArtifact) (time : DateTime) : bool :=
  leb (instant (ep_from (valid (policy_input policy)))) time
  && ltb time (instant (ep_to (valid (policy_input policy)))).

(** *** Views *)

Record PointInTimeView := { decision_time : DateTime; view_bars : list Bar }.

Definition point_in_time_view_new (decision_time : DateTime) (bars : list Bar) : DomainResult PointInTimeView :=
  if existsb (fun bar => ltb decision_time (visible_at bar)) bars then Err InvalidEffectiveTime
  else Ok {| decision_time := decision_time; view_bars := bars |}.

Definition with_yield (bond : VersionRef) (f : BarFrequency) (s : BarSettlement) (bar : Bar) : bool :=
  bool_decide (instrument bar = bond) && bool_decide (frequency bar = f)
  && bool_decide (settlement bar = s) && bool_decide (is_Some (close_yield bar)).

Definition latest_with_yield (self : PointInTimeView) (bond : VersionRef) (f : BarFrequency) (s : BarSettlement)
    : option Bar :=
  max_by_key (fun bar => (bar_end bar, source_record_id bar)) (List.filter (with_yield bond f s) (view_bars self)).

(** *** Evaluators *)

(** The trait [PolicyEvaluator]. *)
Record PolicyEvaluator := {
  evaluator_family : string;
  evaluator_version : Z;
  decide_target : PolicyArtifact -> PointInTimeView -> SimulatedBook -> Result PolicyError TargetExposure
}.

(** The target face of one instrument. *)
Definition threshold_face (policy : PolicyArtifact) (view : PointInTimeView) (entry exit target_face current : ReplayAmount)
    (bond : VersionRef) : ReplayAmount :=
  match latest_with_yield view bond (policy_frequency (policy_input policy)) (policy_settlement (policy_input policy)) with
  | None => current
  | Some bar =>
      let yield_now := from_option amount_of amount_zero (close_yield bar) in
      if decimal_leb entry yield_now then target_face
      else if decimal_leb yield_now exit then amount_zero
      else current
  end.

Definition yield_threshold_decide (policy : PolicyArtifact) (view : PointInTimeView) (book : SimulatedBook)
    : Result PolicyError TargetExposure :=
  if negb (bool_decide (family (policy_input policy) = YIELD_THRESHOLD_FAMILY))
     || negb (family_version (policy_input policy) =? 1)
  then Err UnsupportedFamily else
  let parameter name := ok_or (policy_parameter policy name) (MissingParameter name) in
  entry ← parameter "entry_yield"%string;
  exit ← parameter "exit_yield"%string;
  target_face ← parameter "target_face"%string;
  Ok (foldl (fun target bond =>
        target_set target bond (threshold_face policy view entry exit target_face (book_position book bond) bond))
      [] (universe (policy_input policy))).

Definition YieldThresholdPolicy : PolicyEvaluator := {|
  evaluator_family := YIELD_THRESHOLD_FAMILY; evaluator_version := 1; decide_target := yield_threshold_decide
|}.

(** ** Acceptance *)

Definition policy_rules (input : PolicyArtifactInput) : Prop :=
  blank_or_padded (family input) = false /\ family_version input <> 0 /\ universe input <> []
  /\ Forall (fun k => blank_or_padded k = false) (btree_keys (parameters input) ++ btree_keys (policy_constraints input))
  /\ calibration_mismatch input = false.

Lemma policy_artifact_new_Ok `{Sha256} i a :
  policy_artifact_new i = Ok a <->
  policy_input a = with_universe i (dedup (sort (universe i)))
  /\ policy_rules (policy_input a) /\ policy_hash a = digest (policy_bytes (policy_input a)).
Proof.
  unfold policy_artifact_new, policy_rules. cbv zeta. set (j := with_universe i _). clearbody j.
  rewrite <- existsb_false_Forall. split.
  - destruct (_ || _) eqn:E1; [done|]. destruct (calibration_mismatch j) eqn:E2; [done|]. intros [= <-]. cbn.
    rewrite !orb_false_iff in E1. destruct E1 as [[[E3 E4] E5] E6]. apply bool_decide_eq_false in E5.
    apply Z.eqb_neq in E4. by repeat split.
  - destruct a as [k h]. cbn. intros (-> & (E1 & E2 & E3 & E4 & E5) & ->).
    rewrite E1, E4, E5. rewrite bool_decide_false by done. by destruct (Z.eqb_spec (family_version j) 0).
Qed.

(** ** The yield threshold policy *)

Lemma max_by_key_spec {A K} `{OrdLaws K} (key : A -> K) (l : list A) :
  match max_by_key key l with
  | None => l = []
  | Some best => best ∈ l /\ Forall (fun x => leb (key x) (key best) = true) l
  end.
Proof.
  destruct l as [|x l]; [done|]. cbn. rewrite elem_of_cons.
  enough (Hgen : forall best, let last := foldl (fun best x => if geb (key x) (key best) then x else best) best l in
    (last = best \/ last ∈ l) /\ Forall (fun y => leb (key y) (key last) = true) (best :: l)) by apply (Hgen x).
  induction l as [|y l IH]; intros best; cbn [foldl].
  - split; [by left|]. rewrite Forall_singleton. unfold leb. by rewrite cmp_refl.
  - rewrite geb_leb. destruct (leb (key best) (key y)) eqn:E.
    + destruct (IH y) as [Hin Hall]. split; [destruct Hin as [->|]; right; [by left|by right]|].
      constructor; [|done]. apply Forall_inv in Hall. by eapply leb_trans.
    + destruct (IH best) as [Hin Hall]. split; [destruct Hin as [->|]; [by left|right; by right]|].
      apply Forall_cons in Hall as [Hb Hall]. constructor; [done|]. constructor; [|done].
      eapply leb_trans; [|exact Hb]. rewrite leb_ltb in E |- *. apply negb_false_iff in E.
      rewrite ltb_spec in E. unfold ltb. rewrite cmp_opp. by rewrite E.
Qed.

Lemma foldl_target_get (f : VersionRef -> ReplayAmount) (universe : list VersionRef) target bond :
  target_get (foldl (fun target bond => target_set target bond (f bond)) target universe) bond
  = if bool_decide (bond ∈ universe) then Some (f bond) else target_get target bond.
Proof.
  revert target. induction universe as [|b universe IH]; intros target; cbn [foldl]; [done|]. rewrite IH.
  unfold target_get, target_set. destruct (decide (bond = b)) as [->|Hne].
  - rewrite btree_get_insert_eq. rewrite (bool_decide_true (b ∈ b :: _)) by left. by case_bool_decide.
  - rewrite btree_get_insert_ne by done. rewrite (bool_decide_ext (bond ∈ b :: universe) (bond ∈ universe)); [done|].
    rewrite elem_of_cons. naive_solver.
Qed.

(** The bars of one instrument, in the series of the policy, that carry a yield. *)
Definition yield_bars (policy : PolicyArtifact) (view : PointInTimeView) (bond : VersionRef) : list Bar :=
  List.filter (with_yield bond (policy_frequency (policy_input policy)) (policy_settlement (policy_input policy)))
    (view_bars view).

(** The yield threshold policy decides as documented: with the right family and its three
    parameters it gives a target to exactly the instruments of the universe; an instrument without a
    visible yield keeps its position; otherwise the bar that ends last (ties by record identity) among
    its visible bars with a yield decides: the target face at the entry yield or above, zero at the exit
    yield or below, and the position in between. *)
Theorem yield_threshold_decide_correct policy view book entry exit target_face :
  family (policy_input policy) = YIELD_THRESHOLD_FAMILY -> family_version (policy_input policy) = 1 ->
  policy_parameter policy "entry_yield" = Some entry -> policy_parameter policy "exit_yield" = Some exit ->
  policy_parameter policy "target_face" = Some target_face ->
  exists target, yield_threshold_decide policy view book = Ok target
  /\ forall bond,
      (bond ∉ universe (policy_input policy) -> target_get target bond = None)
      /\ (bond ∈ universe (policy_input policy) ->
          (yield_bars policy view bond = [] /\ target_get target bond = Some (book_position book bond))
          \/ exists bar y, bar ∈ yield_bars policy view bond /\ close_yield bar = Some y
              /\ Forall (fun other => leb (bar_end other, source_record_id other) (bar_end bar, source_record_id bar) = true)
                   (yield_bars policy view bond)
              /\ target_get target bond
                 = Some (if decimal_leb entry (amount_of y) then target_face
                         else if decimal_leb (amount_of y) exit then amount_zero else book_position book bond)).
Proof.
  intros Hf Hv He Hx Ht. unfold yield_threshold_decide. rewrite Hf, Hv, He, Hx, Ht. cbn.
  rewrite bool_decide_true by done. eexists. split; [reflexivity|]. intros bond.
  split; intros Hb; rewrite foldl_target_get; [by rewrite bool_decide_false|]. rewrite bool_decide_true by done.
  unfold threshold_face, latest_with_yield. fold (yield_bars policy view bond).
  pose proof (max_by_key_spec (fun bar => (bar_end bar, source_record_id bar)) (yield_bars policy view bond)) as Hm.
  destruct (max_by_key _ _) as [bar|]; [right|by left]. destruct Hm as [Hin Hall].
  assert (Hy : is_Some (close_yield bar)).
  { unfold yield_bars in Hin. apply list_elem_of_In, filter_In in Hin as [_ Hin]. unfold with_yield in Hin.
    rewrite !andb_true_iff, !bool_decide_eq_true in Hin. apply Hin. }
  destruct Hy as [y Ey]. exists bar, y. rewrite Ey. by split.
Qed.

End policy.

(** ** Reading policy bytes back *)

#[export] Instance frequency_is_code : Code frequency_code.
Proof. split; [by intros []|by intros [] []]. Qed.
#[export] Instance settlement_is_code : Code settlement_code.
Proof. split; [by intros []|by intros [] []]. Qed.
#[export] Instance remainder_handling_is_code : Code remainder_handling_code.
Proof. split; [by intros []|by intros [] []]. Qed.
#[export] Instance handling_is_code : Code constraint_handling_code.
Proof. split; [by intros []|by intros [] []]. Qed.
#[export] Instance objective_is_code : Code objective_code.
Proof. split; [by intros []|by intros [] []]. Qed.

Section bytes.
Context `{UlidCrate} `{DecimalText}.

Definition wf_parameters (m : list (string * ReplayAmount)) : Prop := counted (fun p => wf_str p.1 /\ stored p.2) m.

#[export] Instance sd_parameters : SelfDelimiting wf_parameters write_parameters.
Proof. exact (sd_list _ _ _). Qed.

(** A window is written as its two instants. *)
Definition instants (window : EffectivePeriod) : DateTime * DateTime := (instant (ep_from window), instant (ep_to window)).
Definition wf_window (window : EffectivePeriod) : Prop :=
  whole_micros (instant (ep_from window)) /\ whole_micros (instant (ep_to window)).

Definition wf_window_result (w : WindowResult) : Prop := wf_hash (window_result_id w) /\ stored (window_objective w).

#[export] Instance sd_window_result : SelfDelimiting wf_window_result write_window_result.
Proof. sd_record wf_window_result write_window_result. Qed.

Definition wf_candidate (c : CandidateResult) : Prop :=
  wf_parameters (candidate_parameters c) /\ wf_window_result (candidate_training c)
  /\ wf_window_result (candidate_validation c).

#[export] Instance sd_candidate : SelfDelimiting wf_candidate write_candidate.
Proof. sd_record wf_candidate write_candidate. Qed.

(** What the bytes of a calibration record say: everything but the zone labels of its windows. *)
Definition calibration_view (r : CalibrationRecord) :=
  (base_policy r, (instants (training r), (instants (validation r), (objective r,
    (axes (grid r), (candidates r, Z.of_nat (selected r))))))).

Definition wf_axes (axes : list (string * list ReplayAmount)) : Prop :=
  counted (fun axis => wf_str axis.1 /\ counted stored axis.2) axes.

Definition wf_record (r : CalibrationRecord) : Prop :=
  wf_hash (base_policy r) /\ wf_window (training r) /\ wf_window (validation r) /\ True
  /\ wf_axes (axes (grid r)) /\ counted wf_candidate (candidates r) /\ in_u64 (Z.of_nat (selected r)) = true.

Definition write_calibration_view : _ -> list byte :=
  write_pair write_hash (write_pair (write_pair write_time write_time) (write_pair (write_pair write_time write_time)
    (write_pair (fun o => write_text (objective_code o)) (write_pair (write_list (write_pair write_text (write_list write_amount)))
      (write_pair (write_list write_candidate) write_number))))).

Lemma calibration_bytes_view r : calibration_bytes r = write_calibration_view (calibration_view r).
Proof.
  unfold calibration_bytes, write_calibration_view, write_window, calibration_view, instants, write_pair. cbn [fst snd].
  by rewrite <- !(assoc_L (++)).
Qed.

(** What the bytes of a policy say. *)
Definition policy_view (i : PolicyArtifactInput) :=
  (policy_artifact_id i, (policy_owner i, (family i, (family_version i, (parameters i, (universe i,
    (policy_frequency i, (policy_settlement i, (instants (valid i), (execution i, (policy_constraints i,
      calibration_view <$> calibration i))))))))))).

Definition wf_policy (i : PolicyArtifactInput) : Prop :=
  (wf_ulid (policy_artifact_id i) /\ wf_owner (policy_owner i))
  /\ (wf_str (family i) /\ in_u64 (family_version i) = true /\ wf_parameters (parameters i) /\ counted wf_vref (universe i))
  /\ wf_window (valid i) /\ stored (participation_cap (execution i))
  /\ counted (fun p => wf_str p.1 /\ True) (policy_constraints i)
  /\ (forall r, calibration i = Some r -> wf_record r).

#[export] Instance sd_calibration_view :
  SelfDelimiting (fun v => exists r, v = calibration_view r /\ wf_record r) write_calibration_view.
Proof.
  intros a b x y (r & -> & Hr) (q & -> & Hq) E.
  assert (S : SelfDelimiting _ write_calibration_view) by (unfold write_calibration_view; apply _).
  apply S in E; [done|..].
  - destruct Hr as (R1 & R2 & R3 & R4 & R5 & R6 & R7). exact (conj R1 (conj R2 (conj R3 (conj R4 (conj R5 (conj R6 R7)))))).
  - destruct Hq as (R1 & R2 & R3 & R4 & R5 & R6 & R7). exact (conj R1 (conj R2 (conj R3 (conj R4 (conj R5 (conj R6 R7)))))).
Qed.

Lemma policy_bytes_view a b : wf_policy a -> wf_policy b -> policy_bytes a = policy_bytes b -> policy_view a = policy_view b.
Proof.
  intros ((A1 & A2 & A3) & (A4 & A5 & A6 & A7) & (A8 & A9) & A10 & A11 & A12)
    ((B1 & B2 & B3) & (B4 & B5 & B6 & B7) & (B8 & B9) & B10 & B11 & B12) E.
  unfold policy_bytes in E. apply app_inv_head in E. read_fields E.
  assert (E' : calibration_view <$> calibration a = calibration_view <$> calibration b).
  { assert (Hopt : forall o, write_optional calibration_bytes o = write_optional write_calibration_view (calibration_view <$> o)).
    { intros [r|]; [|done]. cbn. by rewrite calibration_bytes_view. }
    rewrite !Hopt in E. apply (sd_whole _ (write_optional write_calibration_view)) in E; [done|..];
      intros v (r & Hr & ->)%fmap_Some; eauto. }
  unfold policy_view, instants.
  destruct (policy_artifact_id a), (policy_artifact_id b), (policy_owner a) as [[] []], (policy_owner b) as [[] []],
    (execution a), (execution b). cbn in *. congruence.
Qed.

(** The content hash of a policy identifies it: two accepted policies with the same hash have the
    same identity, owner, family and version, parameters, universe, bar series, period, execution rules,
    handling of constraints and calibration evidence (windows and periods up to their zone labels), or
    exhibit a SHA-256 collision. *)
Theorem policy_hash_identifies `{Sha256} i j a b :
  policy_artifact_new i = Ok a -> policy_artifact_new j = Ok b ->
  wf_policy (policy_input a) -> wf_policy (policy_input b) -> policy_hash a = policy_hash b ->
  policy_view (policy_input a) = policy_view (policy_input b) \/ collision.
Proof.
  intros (_ & _ & Ea)%policy_artifact_new_Ok (_ & _ & Eb)%policy_artifact_new_Ok Wa Wb E.
  rewrite Ea, Eb in E. apply digest_inj in E as [E|E]; [left; by apply policy_bytes_view|by right].
Qed.
End bytes.

(** ** A policy *)

Section example.
Local Existing Instance sample_rust_decimal.
Local Existing Instance sample_arith.
Local Existing Instance sample_sha256.

Definition market_instant (day : Z) : MarketTime := {|
  instant := {| timestamp := day * 86400; timestamp_subsec_nanos := 0 |}; market_timezone := "UTC";
  local_trading_date := {| nd_year := 2026; nd_month := 1; nd_day := day |}
|}.

(** Buy ten million at 1.9% and above, sell at 1% and below; at most half of a bar, no carrying over. *)
Definition sample_policy_input : PolicyArtifactInput := {|
  policy_artifact_id := sample_id "P"; policy_owner := {| tenant_id := sample_id "T"; owner_id := sample_id "O" |};
  family := YIELD_THRESHOLD_FAMILY; family_version := 1;
  parameters := [("entry_yield"%string, (19, 1%nat) : Decimal); ("exit_yield"%string, (1, 0%nat));
                 ("target_face"%string, (10000000, 0%nat))];
  universe := [sample_bond "A"]; policy_frequency := D1; policy_settlement := T1;
  valid := {| ep_from := market_instant 1; ep_to := market_instant 30 |};
  execution := {| participation_cap := (5, 1%nat) : Decimal; remainder_handling := Cancel |};
  policy_constraints := []; calibration := None
|}.

Definition sample_artifact : PolicyArtifact :=
  let input := with_universe sample_policy_input [sample_vref "A"; sample_vref "B"] in
  {| policy_input := input; policy_hash := digest (policy_bytes input) |}.

Lemma sample_artifact_accepted : policy_artifact_new (policy_input sample_artifact) = Ok sample_artifact.
Proof.
  apply (proj2 (policy_artifact_new_Ok (policy_input sample_artifact) sample_artifact)).
  split; [vm_cast_no_check (eq_refl (policy_input sample_artifact))|]. split; [|done].
  repeat split; try done. by repeat constructor.
Qed.

Lemma sample_artifact_wf : @wf_policy sample_ulid_crate sample_rust_decimal sample_arith (policy_input sample_artifact).
Proof.
  assert (Hm : forall d, 0 <= d <= 40 -> whole_micros (instant (market_instant d))).
  { intros d Hd. unfold whole_micros, timestamp_micros. cbn. repeat split; try done. ranges. rewrite Z.div_0_l by done. lia. }
  split; [repeat split; vm_compute; reflexivity|]. split; [|split; [|split; [|split; [|done]]]].
  - split; [done|]. split; [done|]. split.
    + apply counted_intro; [|done].
      cbn [parameters universe policy_input sample_artifact with_universe sample_policy_input]. split_forall; (split; [done|by apply sample_stored]).
    + apply counted_intro; [|done].
      cbn [parameters universe policy_input sample_artifact with_universe sample_policy_input]. split_forall; split; try done; vm_compute; reflexivity.
  - split; apply Hm; lia.
  - by apply sample_stored.
  - apply counted_intro; [constructor|done].
Qed.

Lemma policy_hash_identifies_witness :
  policy_view (policy_input sample_artifact) = policy_view (policy_input sample_artifact) \/ @collision sample_sha256.
Proof.
  apply (@policy_hash_identifies sample_ulid_crate sample_rust_decimal sample_arith sample_text sample_sha256
    (policy_input sample_artifact) (policy_input sample_artifact)); auto using sample_artifact_accepted, sample_artifact_wf.
Defined.

Lemma yield_threshold_decide_correct_witness :
  exists target, yield_threshold_decide sample_artifact {| decision_time := instant (market_instant 2); view_bars := [] |} empty_book
    = Ok target /\ target_get target (sample_vref "A") = Some (amount_zero : Decimal)
      /\ target_get target (sample_vref "C") = None.
Proof.
  destruct (yield_threshold_decide_correct sample_artifact {| decision_time := instant (market_instant 2); view_bars := [] |}
    empty_book (19, 1%nat) (1, 0%nat) (10000000, 0%nat)) as (target & E & Ht); [reflexivity..|].
  exists target. split; [done|]. split.
  - destruct (proj2 (Ht (sample_vref "A"))) as [[_ E']|(bar & y & Hin & _)]; [left|done|]. by apply elem_of_nil in Hin.
  - apply (Ht (sample_vref "C")). intros Hin%list_elem_of_In. by destruct Hin as [|[|[]]].
Defined.
End example.
