(* ===== verification/SimulationResult.v ===== *)
(** * Replay results

    [crates/ficant-domain/src/replay/mod.rs]: what identifies a replay, the result with its checks, its
    content identity and its lineage. *)

From Stdlib Require Import ZArith Lia QArith Strings.String Strings.Byte.
From stdpp Require Import base list option strings numbers sorting sets.
From S2P Require Import Prelude Machine Collections Primitives FixedDecimal Codec Concrete Exposure DecimalValue Amount Bar Book Execution Subject Constraints Ledger Calibration Writer Policy.
Open Scope Z_scope.

Inductive LineageRole :=
| RolePolicy
| RoleDataSnapshot
| RoleSubject
| RoleSubjectState
| RoleConstraintSet
| RoleFundingRulePack
| RoleCouponData.

#[export] Instance LineageRole_eq_dec : EqDecision LineageRole.
Proof. solve_decision. Defined.

Record ReplayLineage := { lineage_role : LineageRole; lineage_reference : LineageRef }.

Definition price_source_code (value : PriceSourceType) : string :=
  match value with
  | RealTrade => "REAL_TRADE"
  | ActiveQuote => "ACTIVE_QUOTE"
  | ModelValuation => "MODEL_VALUATION"
  | CurveInterpolation => "CURVE_INTERPOLATION"
  end.

Definition funding_tier_code (tier : FundingTier) : string :=
  match tier with DrAvailable => "DR_AVAILABLE" | ROnly => "R_ONLY" end.

(** A state snapshot is addressed by its identity, Subject, net capital, ceilings and times. *)
Definition state_bytes (state : SubjectStateSnapshot) : list byte :=
  write_text "ficant-subject-state-snapshot/v1"
  ++ write_text (ulid_str (state_snapshot_id state)) ++ write_version_ref (state_subject_ref state)
  ++ write_text (coefficient (net_capital state)) ++ write_number (scale (net_capital state))
  ++ write_list (fun ceiling => write_text (limit_code ceiling)
                   ++ write_text (coefficient (limit_ceiling ceiling)) ++ write_number (scale (limit_ceiling ceiling)))
       (sort_by_key limit_code (limit_ceilings state))
  ++ write_time (state_observed_at state) ++ write_time (state_visible_at state)
  ++ write_text (state_timezone state).

Definition subject_state_hash `{Sha256} (state : SubjectStateSnapshot) : ContentHash := digest (state_bytes state).

Section result.
Context `{DecimalArith}.

Record ReplayDecision := {
  decided_at : DateTime;
  inputs_visible_through : option DateTime;
  input_bar_count : Z;
  decision_target : TargetExposure
}.

Record ReplayIdentity := {
  identity_policy_id : Ulid;
  identity_policy : ContentHash;
  data_snapshot : Ulid;
  data_snapshot_content : ContentHash;
  identity_subject : VersionRef;
  subject_state : Ulid;
  subject_state_content : ContentHash;
  identity_constraint_set : option VersionRef;
  identity_constraints : list ReplayConstraint;
  identity_funding : ReplayFunding;
  identity_carry_source : VersionRef;
  identity_carry : ContentHash;
  identity_cost_model : string;
  identity_cost_parameters : BTreeMap string ReplayAmount;
  identity_seed : Z;
  identity_code : ContentHash;
  identity_runtime : ContentHash
}.

Record SimulationResult := {
  result_id : ContentHash;
  result_identity : ReplayIdentity;
  result_decisions : list ReplayDecision;
  result_fills : list SimulatedFill;
  result_pnl : list BarPnl;
  result_book : SimulatedBook
}.

(** *** Canonical bytes *)

Definition write_faces (m : BTreeMap VersionRef ReplayAmount) : list byte :=
  write_list (write_pair write_version_ref write_amount) m.

Definition write_decision (decision : ReplayDecision) : list byte :=
  write_time (decided_at decision)
  ++ write_optional write_time (inputs_visible_through decision)
  ++ write_number (input_bar_count decision)
  ++ write_faces (decision_target decision).

Definition write_constraint (constraint : ReplayConstraint) : list byte :=
  write_text (constraint_code constraint) ++ write_text (measure_code (constraint_measure constraint))
  ++ write_amount (constraint_ceiling constraint)
  ++ write_text (constraint_handling_code (constraint_handling constraint)).

Definition identity_bytes (identity : ReplayIdentity) : list byte :=
  write_text (ulid_str (identity_policy_id identity)) ++ write_hash (identity_policy identity)
  ++ write_text (ulid_str (data_snapshot identity)) ++ write_hash (data_snapshot_content identity)
  ++ write_version_ref (identity_subject identity)
  ++ write_text (ulid_str (subject_state identity)) ++ write_hash (subject_state_content identity)
  ++ write_optional write_version_ref (identity_constraint_set identity)
  ++ write_list write_constraint (identity_constraints identity)
  ++ write_version_ref (funding_rule_pack (identity_funding identity))
  ++ write_text (funding_tier_code (replay_tier (identity_funding identity)))
  ++ write_amount (annual_rate (identity_funding identity))
  ++ write_number (day_basis (identity_funding identity))
  ++ write_version_ref (identity_carry_source identity) ++ write_hash (identity_carry identity)
  ++ write_text (identity_cost_model identity) ++ write_parameters (identity_cost_parameters identity)
  ++ write_number (identity_seed identity)
  ++ write_hash (identity_code identity) ++ write_hash (identity_runtime identity).

Definition write_remainder (remainder : Remainder) : list byte :=
  write_amount (remainder_quantity remainder) ++ write_text (no_fill_code (remainder_reason remainder))
  ++ write_text (remainder_outcome_code (remainder_outcome remainder)).

Definition write_outcome (outcome : ConstraintOutcome) : list byte :=
  write_amount (unconstrained outcome) ++ write_list write_text (triggered outcome)
  ++ write_text (constraint_action_code (constraint_action outcome)).

Definition fill_bytes (fill : SimulatedFill) : list byte :=
  write_time (fill_decision_time fill) ++ write_version_ref (fill_instrument fill)
  ++ write_amount (requested fill) ++ write_amount (quantity fill)
  ++ write_optional write_amount (fill_limit fill)
  ++ write_time (effective_at fill)
  ++ write_optional write_text (execution_bar fill)
  ++ write_optional write_amount (price fill)
  ++ write_optional (fun basis => write_text (basis_code basis)) (basis fill)
  ++ write_text (price_source_code (price_source fill))
  ++ write_optional (fun reason => write_text (no_fill_code reason)) (no_fill fill)
  ++ write_optional write_remainder (remainder fill)
  ++ write_optional write_outcome (fill_constraint fill).

Definition write_instrument (item : InstrumentPnl) : list byte :=
  write_amount (position_start item) ++ write_amount (position_end item) ++ write_amount (pnl_mark item)
  ++ write_amount (pnl_accrued item) ++ write_amount (pnl_price item) ++ write_amount (pnl_coupon item)
  ++ write_amount (pnl_cost item).

Definition pnl_bytes `{Chrono} (row : BarPnl) : list byte :=
  write_time (row_start row) ++ write_time (row_end row) ++ write_time (known_at row)
  ++ write_text (date_to_string (row_date row))
  ++ write_list (write_pair write_version_ref write_instrument) (row_instruments row)
  ++ write_amount (row_funding row) ++ write_amount (row_total row) ++ write_amount (row_cash row)
  ++ write_amount (row_equity row).

Definition result_bytes `{Chrono} (identity : ReplayIdentity) (decisions : list ReplayDecision)
    (fills : list SimulatedFill) (pnl : list BarPnl) (book : SimulatedBook) : list byte :=
  write_text "ficant-simulation-result/v3"
  ++ identity_bytes identity
  ++ write_list write_decision decisions
  ++ write_list fill_bytes fills
  ++ write_list pnl_bytes pnl
  ++ write_faces (positions book)
  ++ write_amount (cash book).

(** *** The result *)

Definition decisions_ordered (decisions : list ReplayDecision) : bool :=
  windows2_all (fun a b => ltb (decided_at a) (decided_at b)) decisions.
Definition fills_ordered (fills : list SimulatedFill) : bool :=
  windows2_all (fun a b => leb (effective_at a, fill_instrument a) (effective_at b, fill_instrument b)) fills.
Definition rows_ordered (pnl : list BarPnl) : bool :=
  windows2_all (fun a b => ltb (row_end a) (row_end b)) pnl.
Definition inputs_visible (decision : ReplayDecision) : bool :=
  from_option (fun time => leb time (decided_at decision)) true (inputs_visible_through decision).

Definition simulation_result_new `{Sha256, Chrono} (identity : ReplayIdentity) (decisions : list ReplayDecision)
    (fills : list SimulatedFill) (pnl : list BarPnl) (book : SimulatedBook) : DomainResult SimulationResult :=
  let ordered := decisions_ordered decisions && fills_ordered fills && rows_ordered pnl in
  let visible := forallb inputs_visible decisions in
  if negb ordered || negb visible then Err InvalidValue
  else Ok {| result_id := digest (result_bytes identity decisions fills pnl book); result_identity := identity;
             result_decisions := decisions; result_fills := fills; result_pnl := pnl; result_book := book |}.

Definition hashed_input (role : LineageRole) (object : Ulid) (hash : ContentHash) : ReplayLineage :=
  {| lineage_role := role; lineage_reference := lineage_content_addressed object hash |}.
Definition versioned_input (role : LineageRole) (reference : VersionRef) : ReplayLineage :=
  {| lineage_role := role; lineage_reference := lineage_versioned (vr_id reference) (vr_version reference) |}.

Definition lineage (self : SimulationResult) : list ReplayLineage :=
  let identity := result_identity self in
  [hashed_input RolePolicy (identity_policy_id identity) (identity_policy identity);
   hashed_input RoleDataSnapshot (data_snapshot identity) (data_snapshot_content identity);
   versioned_input RoleSubject (identity_subject identity);
   hashed_input RoleSubjectState (subject_state identity) (subject_state_content identity)]
  ++ match identity_constraint_set identity with
     | Some constraint_set => [versioned_input RoleConstraintSet constraint_set]
     | None => []
     end
  ++ [versioned_input RoleFundingRulePack (funding_rule_pack (identity_funding identity));
      {| lineage_role := RoleCouponData;
         lineage_reference :=
           match lineage_new (vr_id (identity_carry_source identity))
                   (Some (vr_version (identity_carry_source identity))) (Some (identity_carry identity)) with
           | Ok reference => reference
           | Err _ => lineage_versioned (vr_id (identity_carry_source identity)) (vr_version (identity_carry_source identity))
           end |}].

(** The part of a result that is fixed by a time. *)
Definition through (self : SimulationResult) (t : DateTime)
    : list ReplayDecision * list SimulatedFill * list BarPnl :=
  (List.filter (fun decision => leb (decided_at decision) t) (result_decisions self),
   List.filter (fun fill => leb (effective_at fill) t) (result_fills self),
   List.filter (fun row => leb (known_at row) t) (result_pnl self)).

End result.

(** ** Reading result bytes back *)

#[export] Instance price_source_is_code : Code price_source_code.
Proof. split; [by intros []|by intros [] []]. Qed.
#[export] Instance funding_tier_is_code : Code funding_tier_code.
Proof. split; [by intros []|by intros [] []]. Qed.
#[export] Instance measure_is_code : Code measure_code.
Proof. split; [by intros []|by intros [] []]. Qed.
#[export] Instance no_fill_is_code : Code no_fill_code.
Proof. split; [by intros []|by intros [] []]. Qed.
#[export] Instance remainder_outcome_is_code : Code remainder_outcome_code.
Proof. split; [by intros []|by intros [] []]. Qed.
#[export] Instance constraint_action_is_code : Code constraint_action_code.
Proof. split; [by intros []|by intros [] []]. Qed.
#[export] Instance basis_is_code : Code basis_code.
Proof. split; [by intros []|by intros [] []]. Qed.

Section bytes.
Context `{UlidCrate} `{DecimalText} `{ChronoLaws} `{!ChronoShort}.

#[export] Instance sd_date : SelfDelimiting wf_date (fun d => write_text (date_to_string d)).
Proof.
  apply (sd_view wf_str write_text _ date_to_string); [apply _|intros; apply date_to_string_short|done|].
  intros a b. apply date_to_string_inj.
Qed.

Definition wf_constraint (c : ReplayConstraint) : Prop := wf_str (constraint_code c) /\ stored (constraint_ceiling c).

#[export] Instance sd_constraint : SelfDelimiting wf_constraint write_constraint.
Proof. sd_record wf_constraint write_constraint. Qed.

Definition wf_funding (f : ReplayFunding) : Prop :=
  wf_vref (funding_rule_pack f) /\ stored (annual_rate f) /\ in_u64 (day_basis f) = true.

Definition wf_identity (i : ReplayIdentity) : Prop :=
  (wf_ulid (identity_policy_id i) /\ wf_hash (identity_policy i) /\ wf_ulid (data_snapshot i)
   /\ wf_hash (data_snapshot_content i) /\ wf_vref (identity_subject i) /\ wf_ulid (subject_state i)
   /\ wf_hash (subject_state_content i) /\ when wf_vref (identity_constraint_set i))
  /\ (counted wf_constraint (identity_constraints i) /\ wf_funding (identity_funding i)
      /\ wf_vref (identity_carry_source i) /\ wf_hash (identity_carry i) /\ wf_str (identity_cost_model i)
      /\ wf_parameters (identity_cost_parameters i) /\ in_u64 (identity_seed i) = true
      /\ wf_hash (identity_code i) /\ wf_hash (identity_runtime i)).

#[export] Instance sd_identity : SelfDelimiting wf_identity identity_bytes.
Proof.
  intros a b r s Ha Hb E. unfold wf_identity, wf_funding in Ha, Hb. destruct_and?. unfold identity_bytes in E.
  read_fields E. split; [|exact E]. destruct a, b. cbn in *.
  repeat match goal with f : ReplayFunding |- _ => destruct f end. cbn in *. congruence.
Qed.

Definition wf_faces (m : BTreeMap VersionRef ReplayAmount) : Prop := counted (fun p => wf_vref p.1 /\ stored p.2) m.

#[export] Instance sd_faces : SelfDelimiting wf_faces write_faces.
Proof. exact (sd_list _ _ _). Qed.

Definition wf_decision (d : ReplayDecision) : Prop :=
  whole_micros (decided_at d) /\ when whole_micros (inputs_visible_through d)
  /\ in_u64 (input_bar_count d) = true /\ wf_faces (decision_target d).

#[export] Instance sd_decision : SelfDelimiting wf_decision write_decision.
Proof. sd_record wf_decision write_decision. Qed.

Definition wf_remainder (m : Remainder) : Prop := stored (remainder_quantity m).

#[export] Instance sd_remainder : SelfDelimiting wf_remainder write_remainder.
Proof. sd_record wf_remainder write_remainder. Qed.

Definition wf_outcome (o : ConstraintOutcome) : Prop := stored (unconstrained o) /\ counted wf_str (triggered o).

#[export] Instance sd_outcome : SelfDelimiting wf_outcome write_outcome.
Proof. sd_record wf_outcome write_outcome. Qed.

Definition wf_fill (f : SimulatedFill) : Prop :=
  (whole_micros (fill_decision_time f) /\ wf_vref (fill_instrument f) /\ stored (requested f) /\ stored (quantity f)
   /\ when stored (fill_limit f) /\ whole_micros (effective_at f) /\ when wf_str (execution_bar f))
  /\ (when stored (price f) /\ when wf_remainder (remainder f) /\ when wf_outcome (fill_constraint f)).

#[export] Instance sd_fill : SelfDelimiting wf_fill fill_bytes.
Proof. sd_record wf_fill fill_bytes. Qed.

Definition wf_instrument (i : InstrumentPnl) : Prop :=
  stored (position_start i) /\ stored (position_end i) /\ stored (pnl_mark i) /\ stored (pnl_accrued i)
  /\ stored (pnl_price i) /\ stored (pnl_coupon i) /\ stored (pnl_cost i).

#[export] Instance sd_instrument : SelfDelimiting wf_instrument write_instrument.
Proof. sd_record wf_instrument write_instrument. Qed.

Definition wf_row (row : BarPnl) : Prop :=
  (whole_micros (row_start row) /\ whole_micros (row_end row) /\ whole_micros (known_at row) /\ wf_date (row_date row)
   /\ counted (fun p => wf_vref p.1 /\ wf_instrument p.2) (row_instruments row))
  /\ (stored (row_funding row) /\ stored (row_total row) /\ stored (row_cash row) /\ stored (row_equity row)).

#[export] Instance sd_row : SelfDelimiting wf_row pnl_bytes.
Proof. sd_record wf_row pnl_bytes. Qed.

(** Everything a result records. *)
Definition wf_result (r : SimulationResult) : Prop :=
  wf_identity (result_identity r) /\ counted wf_decision (result_decisions r) /\ counted wf_fill (result_fills r)
  /\ counted wf_row (result_pnl r) /\ wf_faces (positions (result_book r)) /\ stored (cash (result_book r)).

Lemma simulation_result_new_Ok `{Sha256} identity decisions fills pnl book r :
  simulation_result_new identity decisions fills pnl book = Ok r ->
  result_id r = digest (result_bytes (result_identity r) (result_decisions r) (result_fills r) (result_pnl r) (result_book r)).
Proof. unfold simulation_result_new. destruct (_ || _); [done|]. by intros [= <-]. Qed.

(** The identity of a simulation result is its content: two accepted results with the same
    [result_id] agree on the identity of the replay, on every decision, fill and profit-and-loss row and
    on the final book, or exhibit a SHA-256 collision. *)
Theorem result_id_identifies `{Sha256} i1 d1 f1 p1 b1 i2 d2 f2 p2 b2 r q :
  simulation_result_new i1 d1 f1 p1 b1 = Ok r -> simulation_result_new i2 d2 f2 p2 b2 = Ok q ->
  wf_result r -> wf_result q -> result_id r = result_id q -> r = q \/ collision.
Proof.
  intros Er%simulation_result_new_Ok Eq%simulation_result_new_Ok Wr Wq Eid. unfold wf_result in Wr, Wq. destruct_and?.
  pose proof Eid as E. rewrite Er, Eq in E. apply digest_inj in E as [E|E]; [left|by right].
  unfold result_bytes in E. apply app_inv_head, with_rest in E. read_fields E.
  destruct r as [? ? ? ? ? []], q as [? ? ? ? ? []]. cbn in *. congruence.
Qed.
End bytes.

(** ** A result *)

Section example.
Local Existing Instance sample_rust_decimal.
Local Existing Instance sample_arith.
Local Existing Instance sample_sha256.
Local Existing Instance sample_chrono.

Definition sample_identity : ReplayIdentity := {|
  identity_policy_id := sample_id "P"; identity_policy := sample_hash x01; data_snapshot := sample_id "S";
  data_snapshot_content := sample_hash x02; identity_subject := sample_vref "V"; subject_state := sample_id "Z";
  subject_state_content := sample_hash x03; identity_constraint_set := Some (sample_vref "C");
  identity_constraints := [{| constraint_code := "gross"; constraint_measure := PortfolioFace;
                              constraint_ceiling := (5, 0%nat) : Decimal; constraint_handling := Reduce |}];
  identity_funding := {| funding_rule_pack := sample_vref "F"; replay_tier := ROnly; annual_rate := (15, 3%nat) : Decimal;
                         day_basis := 365 |};
  identity_carry_source := sample_vref "Q"; identity_carry := sample_hash x04; identity_cost_model := "none";
  identity_cost_parameters := []; identity_seed := 7; identity_code := sample_hash x05; identity_runtime := sample_hash x06
|}.

Definition sample_decision (day : Z) : ReplayDecision := {|
  decided_at := instant (market_instant day); inputs_visible_through := Some (instant (market_instant day));
  input_bar_count := day; decision_target := [(sample_vref "A", (5, 0%nat) : Decimal)]
|}.

Definition sample_decisions : list ReplayDecision := [sample_decision 1; sample_decision 2; sample_decision 3].

Definition sample_result : SimulationResult := {|
  result_id := digest (result_bytes sample_identity sample_decisions [] [] empty_book);
  result_identity := sample_identity; result_decisions := sample_decisions; result_fills := []; result_pnl := [];
  result_book := empty_book
|}.

(** Decisions out of order are refused. *)
Example sample_result_accepted :
  simulation_result_new sample_identity sample_decisions [] [] empty_book = Ok sample_result
  /\ is_ok (simulation_result_new sample_identity (rev sample_decisions) [] [] empty_book) = false.
Proof. split; [|reflexivity]. unfold simulation_result_new. by replace (_ || _) with false by reflexivity. Qed.

Lemma sample_result_wf : @wf_result sample_ulid_crate sample_rust_decimal sample_arith sample_result.
Proof.
  assert (Hm : forall d, 0 <= d <= 40 -> whole_micros (instant (market_instant d))).
  { intros d Hd. unfold whole_micros, timestamp_micros. cbn. repeat split; try done. ranges. rewrite Z.div_0_l by done. lia. }
  split; [|split; [|split; [|split; [|split]]]].
  - split; [do 7 (split; [done|]); by intros v [= <-]|].
    split; [apply counted_intro; [apply Forall_singleton; split; [done|by apply sample_stored]|done]|].
    split; [split; [done|split; [by apply sample_stored|done]]|]. by repeat split.
  - assert (Hd : forall d, 0 <= d <= 40 -> @wf_decision sample_ulid_crate sample_rust_decimal sample_arith (sample_decision d)).
    { intros d Hd. split; [by apply Hm|]. split; [intros t [= <-]; by apply Hm|]. split; [cbn; ranges; lia|].
      apply counted_intro; [apply Forall_singleton; split; [done|by apply sample_stored]|done]. }
    apply counted_intro; [|done]. unfold sample_result, sample_decisions. cbn [result_decisions].
    split_forall; apply Hd; lia.
  - by apply counted_intro; [constructor|].
  - by apply counted_intro; [constructor|].
  - by apply counted_intro; [constructor|].
  - by apply sample_stored.
Qed.

Lemma result_id_identifies_witness : sample_result = sample_result \/ @collision sample_sha256.
Proof.
  apply (@result_id_identifies sample_ulid_crate sample_rust_decimal sample_arith sample_text sample_chrono sample_chrono_laws
    sample_chrono_short sample_sha256 sample_identity sample_decisions [] [] empty_book
    sample_identity sample_decisions [] [] empty_book); auto using sample_result_wf; apply sample_result_accepted.
Defined.
End example.
