(* ===== verification/AppErrors.v ===== *)
(** * Application errors

    [crates/ficant-application/src/error.rs]: the errors of the use cases, their client-safe details and
    the mapping of domain and runtime errors. *)

From Stdlib Require Import ZArith Lia Strings.String Strings.Byte.
From stdpp Require Import base list option strings numbers.
From S2P Require Import Prelude Machine Collections Primitives Runtime.
Open Scope Z_scope.

(** [market/data_source_authorization.rs]. *)
Inductive ImportInterface := CanonicalQuoteSnapshot.

#[export] Instance ImportInterface_eq_dec : EqDecision ImportInterface.
Proof. solve_decision. Defined.

Inductive ApplicationErrorCategory :=
| ValidationFailed
| NotFound
| AlreadyExists
| AppVersionConflict
| AppConcurrencyConflict
| ImmutableViolation
| HashMismatch
| LineageIncomplete
| StateConflict
| Unauthenticated
| Forbidden
| StorageUnavailable.

#[export] Instance ApplicationErrorCategory_eq_dec : EqDecision ApplicationErrorCategory.
Proof. solve_decision. Defined.

Inductive SourceRowViolationReason := SourceObservedAfterVisible.

#[export] Instance SourceRowViolationReason_eq_dec : EqDecision SourceRowViolationReason.
Proof. solve_decision. Defined.

Inductive ApplicationErrorDetail :=
| RulePackItemMissing (path : string)
| SubjectBindingInvalid
| UnknownAccountingPositions (position_ids : list string)
| DataSourceNotAuthorized (authorization_ref : VersionRef) (data_source_ref : option VersionRef)
    (import_interface : ImportInterface)
| SourceRowViolation (source_record_id : string) (reason : SourceRowViolationReason).

#[export] Instance ApplicationErrorDetail_eq_dec : EqDecision ApplicationErrorDetail.
Proof. solve_decision. Defined.

Record ApplicationError := {
  category : ApplicationErrorCategory;
  retryable : bool;
  detail : option ApplicationErrorDetail
}.

#[export] Instance ApplicationError_eq_dec : EqDecision ApplicationError.
Proof. solve_decision. Defined.

Abbreviation AppResult := (Result ApplicationError).

Definition application_error_new (category : ApplicationErrorCategory) (retryable : bool) : ApplicationError :=
  {| category := category; retryable := retryable; detail := None |}.

(** Bytes of ASCII letters and digits. *)
Definition is_ascii_alphanumeric (b : byte) : bool :=
  is_ascii_digit b || is_ascii_uppercase b || in_range 97 123 (Z_of_byte b).

(** The other bytes of a rule pack path: ".", "_", "[", "]", "=" and "-". *)
Definition is_safe_rule_pack_path (value : string) : bool :=
  negb (str_len value =? 0) && (str_len value <=? 256)
  && forallb (fun b => is_ascii_alphanumeric b || existsb (Z.eqb (Z_of_byte b)) [46; 95; 91; 93; 61; 45]) (as_bytes value).

Definition is_safe_source_record_id (value : string) : bool :=
  negb (str_len value =? 0) && (str_len value <=? 128)
  && forallb (fun b => is_ascii_alphanumeric b || existsb (Z.eqb (Z_of_byte b)) [45; 95; 46]) (as_bytes value).

Definition rule_pack_item_missing (path : string) : ApplicationError := {|
  category := ValidationFailed; retryable := false;
  detail := if is_safe_rule_pack_path path then Some (RulePackItemMissing path) else None
|}.

Definition subject_binding_invalid : ApplicationError :=
  {| category := ValidationFailed; retryable := false; detail := Some SubjectBindingInvalid |}.

Definition unknown_accounting_positions (position_ids : list string) : ApplicationError :=
  {| category := ValidationFailed; retryable := false; detail := Some (UnknownAccountingPositions position_ids) |}.

Definition data_source_not_authorized (authorization_ref : VersionRef) (data_source_ref : option VersionRef)
    (import_interface : ImportInterface) : ApplicationError := {|
  category := Forbidden; retryable := false;
  detail := Some (DataSourceNotAuthorized authorization_ref data_source_ref import_interface)
|}.

Definition observed_after_visible_source_row (source_record_id : string) : ApplicationError := {|
  category := ValidationFailed; retryable := false;
  detail := if is_safe_source_record_id source_record_id
            then Some (SourceRowViolation source_record_id SourceObservedAfterVisible) else None
|}.

Definition map_domain_error (error : DomainErrorCode) : ApplicationError :=
  let '(category, retryable) :=
    match error with
    | InvalidId | InvalidUnit | InvalidEffectiveTime | InvalidValue => (ValidationFailed, false)
    | VersionConflict => (AppVersionConflict, true)
    | ContentHashMismatch => (HashMismatch, false)
    | BrokenLineage => (LineageIncomplete, false)
    | InvalidStateTransition => (StateConflict, false)
    | JournalSequenceConflict => (AppConcurrencyConflict, true)
    end in
  application_error_new category retryable.

Definition map_runtime_error (error : RuntimeError) : ApplicationError :=
  match error with
  | Domain error => map_domain_error error
  | IdempotencyConflict => application_error_new AlreadyExists false
  | ConcurrencyConflict _ _ => application_error_new AppConcurrencyConflict true
  | RunIdentityConflict => application_error_new LineageIncomplete false
  end.

(** Only conflicts with concurrent writers are worth retrying. *)
Lemma map_runtime_error_retryable error :
  retryable (map_runtime_error error) = true <->
  error = Domain VersionConflict \/ error = Domain JournalSequenceConflict
  \/ exists expected actual, error = ConcurrencyConflict expected actual.
Proof.
  destruct error as [[]| |expected actual|]; cbn; split; intros H; try done;
    try (destruct H as [H|[H|(? & ? & H)]]; discriminate); auto. right; right; by exists expected, actual.
Qed.

(** Details never carry text that is not safe to show. *)
Lemma rule_pack_item_missing_safe path p :
  detail (rule_pack_item_missing path) = Some (RulePackItemMissing p) -> is_safe_rule_pack_path p = true.
Proof. unfold rule_pack_item_missing. cbn. destruct (is_safe_rule_pack_path path) eqn:E; [by intros [= <-]|done]. Qed.
