(* ===== verification/BarReplay.v ===== *)
(** * Point-in-time bar replay

    [crates/ficant-application/src/use_cases/bar_replay.rs]: the loop that decides at the visibility time
    of every covered bar, registers the resulting trades, executes them bar by bar under the
    participation cap and the constraints, and books every step of the bar grid in the ledger. The
    data port, the evaluator and the coupon source are arguments.

    A failing replay returns its error only; the state it leaves behind is dropped by the code. *)

From Stdlib Require Import ZArith Lia QArith Strings.String Strings.Byte.
From stdpp Require Import base list option strings numbers sorting sets.
From S2P Require Import Prelude Machine Collections Primitives Codec Concrete Exposure DecimalValue Amount Bar Book Execution Subject Constraints Ledger Calibration Policy SimulationResult AppErrors.
Open Scope Z_scope.

Definition invalid : ApplicationError := application_error_new ValidationFailed false.

(** [map_err(|_| invalid())]. *)
Definition or_invalid {E A} (m : Result E A) : AppResult A := map_err (fun _ => invalid) m.

(** [steps.entry(bar.bar_end()).or_default().push(bar)]. *)
Definition push_step (steps : BTreeMap DateTime (list Bar)) (bar : Bar) : BTreeMap DateTime (list Bar) :=
  btree_insert (bar_end bar) (default [] (btree_get (bar_end bar) steps) ++ [bar]) steps.
Definition steps_of (covered : list Bar) : BTreeMap DateTime (list Bar) := foldl push_step [] covered.

Section replay.
Context `{DecimalArith} `{!BondCarry} `{ChronoDays}.

(** The trait [PointInTimeBars]. *)
Record PointInTimeBars := {
  snapshot : Ulid * ContentHash;
  price_source_type : PriceSourceType;
  all_bars : list Bar;
  bars_visible_at : DateTime -> AppResult (list Bar)
}.

Record BarReplayRequest := {
  request_policy : PolicyArtifact;
  evaluator : PolicyEvaluator;
  data : PointInTimeBars;
  subject : SubjectVersion;
  request_subject_state : SubjectStateSnapshot;
  constraint_set : option ConstraintSet;
  request_funding : ReplayFunding;
  cost_model : string;
  cost_parameters : BTreeMap string ReplayAmount;
  seed : Z;
  code : ContentHash;
  runtime : ContentHash
}.

Record PendingTrade := {
  trade_decision_time : DateTime;
  trade_instrument : VersionRef;
  intent : ReplayAmount;
  remaining : ReplayAmount;
  trade_bars : list Bar
}.

(** What does not change during a replay. *)
Record ReplayRules := {
  enforced : list ReplayConstraint;
  rules : ExecutionRules;
  replay_price_source : PriceSourceType
}.

Record Replay := {
  ledger : ReplayLedger;
  steps : list (DateTime * list Bar);
  pending : list PendingTrade;
  fills : list SimulatedFill
}.

Definition push_fill (self : Replay) (fill : SimulatedFill) : Replay :=
  {| ledger := ledger self; steps := steps self; pending := pending self; fills := fills self ++ [fill] |}.
Definition with_ledger (self : Replay) (l : ReplayLedger) : Replay :=
  {| ledger := l; steps := steps self; pending := pending self; fills := fills self |}.

(** Registers a trade; with no bar left to execute in, it is recorded at once. *)
Definition register (R : ReplayRules) (self : Replay) (decision_time : DateTime) (instrument : VersionRef)
    (quantity : ReplayAmount) (bars : list Bar) : Replay :=
  if bool_decide (bars = [])
  then push_fill self (no_later_bar decision_time instrument quantity decision_time (replay_price_source R))
  else {| ledger := ledger self; steps := steps self;
          pending := pending self ++ [{| trade_decision_time := decision_time; trade_instrument := instrument;
                                         intent := quantity; remaining := quantity; trade_bars := bars |}];
          fills := fills self |}.

(** The attempt of a trade in a bar, after the constraints. *)
Definition constrained_attempt (R : ReplayRules) (l : ReplayLedger) (trade : PendingTrade) (bar : Bar)
    (used : ReplayAmount) : AppResult SimulatedFill :=
  let attempt := attempt_in_bar (trade_decision_time trade) (trade_instrument trade) (remaining trade) bar
                   used (rules R) (replay_price_source R) in
  match price attempt with
  | Some price =>
      if amount_is_zero (quantity attempt) then Ok attempt else
      context ← or_invalid (execution_context l (trade_instrument trade) price);
      match check_execution (enforced R) context (quantity attempt) with
      | (allowed, Some outcome) => Ok (constrain attempt allowed outcome)
      | (_, None) => Ok attempt
      end
  | None => Ok attempt
  end.

Definition is_carried (fill : SimulatedFill) : bool :=
  from_option (fun remainder => bool_decide (remainder_outcome remainder = Carried)) false (remainder fill).

(** Executes the trade's attempt in the bar ending at [step_end], if it has one. [used] is the face
    already executed per bar of the step. *)
Definition execute_due (R : ReplayRules) (step_end : DateTime)
    (st : Replay * BTreeMap string ReplayAmount) (trade : PendingTrade)
    : AppResult (Replay * BTreeMap string ReplayAmount * PendingTrade) :=
  let '(self, used) := st in
  match trade_bars trade with
  | [] => Ok (self, used, trade)
  | bar :: bars =>
      if negb (bool_decide (bar_end bar = step_end)) || amount_is_zero (remaining trade)
      then Ok (self, used, trade) else
      let record := source_record_id bar in
      attempt ← constrained_attempt R (ledger self) trade bar (default amount_zero (btree_get record used));
      settled ← or_invalid (settle (ledger self) attempt);
      let consumed := amount_plus (default amount_zero (btree_get record used)) (amount_abs (quantity attempt)) in
      let left := amount_minus (remaining trade) (quantity attempt) in
      let carried := is_carried attempt in
      let self := push_fill (with_ledger self settled) attempt in
      let self := if carried && bool_decide (bars = [])
                  then push_fill self (no_later_bar (trade_decision_time trade) (trade_instrument trade) left
                                         (effective_at attempt) (replay_price_source R))
                  else self in
      let trade := if carried && negb (bool_decide (bars = []))
                   then {| trade_decision_time := trade_decision_time trade; trade_instrument := trade_instrument trade;
                           intent := left; remaining := left; trade_bars := bars |}
                   else {| trade_decision_time := trade_decision_time trade; trade_instrument := trade_instrument trade;
                           intent := amount_zero; remaining := amount_zero; trade_bars := [] |} in
      Ok (self, btree_insert record consumed used, trade)
  end.

(** All pending trades in order; they are updated in place. *)
Fixpoint execute_all (R : ReplayRules) (step_end : DateTime) (st : Replay * BTreeMap string ReplayAmount)
    (trades : list PendingTrade) : AppResult (Replay * BTreeMap string ReplayAmount * list PendingTrade) :=
  match trades with
  | [] => Ok (st, [])
  | trade :: trades =>
      '(st, trade) ← execute_due R step_end st trade;
      '(st, trades) ← execute_all R step_end st trades;
      Ok (st, trade :: trades)
  end.

(** One iteration of the loop of [advance]: the step at the front is closed. *)
Definition run_step (R : ReplayRules) (self : Replay) (step : DateTime * list Bar) : AppResult Replay :=
  opened ← or_invalid (open_step (ledger self) step.2);
  '(self, _, trades) ← execute_all R step.1 (with_ledger self opened, []) (pending self);
  finished ← or_invalid (finish_step (ledger self));
  Ok {| ledger := finished; steps := tail (steps self);
        pending := List.filter (fun trade => negb (amount_is_zero (remaining trade))) trades;
        fills := fills self |}.

(** Closes every step ending at or before [until]. *)
Fixpoint advance_steps (R : ReplayRules) (until : option DateTime) (self : Replay)
    (todo : list (DateTime * list Bar)) : AppResult Replay :=
  match todo with
  | [] => Ok self
  | step :: todo =>
      if from_option (fun limit => ltb limit step.1) false until then Ok self else
      self ← run_step R self step;
      advance_steps R until self todo
  end.
Definition advance (R : ReplayRules) (until : option DateTime) (self : Replay) : AppResult Replay :=
  advance_steps R until self (steps self).

(** Fills in time order. *)
Definition fill_key (fill : SimulatedFill) : DateTime * (VersionRef * DateTime) :=
  (effective_at fill, (fill_instrument fill, fill_decision_time fill)).
Definition finish (self : Replay) : list SimulatedFill * SimulatedBook * list BarPnl :=
  (sort_by_key fill_key (fills self), ledger_book (ledger self), ledger_rows (ledger self)).

(** Binds the Subject's constraint set to its state snapshot and the policy's declarations. *)
Definition enforced_constraints (request : BarReplayRequest) (first_decision : DateTime)
    : AppResult (list ReplayConstraint) :=
  let state := request_subject_state request in
  if negb (bool_decide (state_subject_ref state = subject_reference (subject request)))
     || ltb first_decision (state_visible_at state)
     || negb (bool_decide (constraint_set_ref (subject request) = rule_pack <$> constraint_set request))
  then Err invalid else
  match constraint_set request with
  | None => Ok []
  | Some set =>
      or_invalid (bind_constraints set (subject_reference (subject request)) state
                    (policy_constraints (policy_input (request_policy request))))
  end.

Definition replay_identity `{Sha256} (request : BarReplayRequest) (constraints : list ReplayConstraint) : ReplayIdentity := {|
  identity_policy_id := policy_artifact_id (policy_input (request_policy request));
  identity_policy := policy_hash (request_policy request);
  data_snapshot := (snapshot (data request)).1; data_snapshot_content := (snapshot (data request)).2;
  identity_subject := subject_reference (subject request);
  subject_state := state_snapshot_id (request_subject_state request);
  subject_state_content := subject_state_hash (request_subject_state request);
  identity_constraint_set := rule_pack <$> constraint_set request; identity_constraints := constraints;
  identity_funding := request_funding request;
  identity_carry_source := carry_source; identity_carry := carry_identity;
  identity_cost_model := cost_model request; identity_cost_parameters := cost_parameters request;
  identity_seed := seed request; identity_code := code request; identity_runtime := runtime request
|}.

(** The bars a trade of [instrument] may execute in. *)
Definition execution_bars (covered : list Bar) (decision_time : DateTime) (bond : VersionRef) : list Bar :=
  sort_by_key (fun bar => (bar_start bar, source_record_id bar))
    (List.filter (fun bar => bool_decide (instrument bar = bond) && geb (bar_start bar) decision_time) covered).

(** One decision: the steps before it are closed, the policy decides, its trades are registered. *)
Definition decide_at (R : ReplayRules) (request : BarReplayRequest) (covered : list Bar)
    (st : Replay * list ReplayDecision) (decision_time : DateTime) : AppResult (Replay * list ReplayDecision) :=
  let '(replay, decisions) := st in
  replay ← advance R (Some decision_time) replay;
  visible ← bars_visible_at (data request) decision_time;
  let inputs := List.filter (covers (request_policy request)) visible in
  view ← or_invalid (point_in_time_view_new decision_time inputs);
  let projected := with_pending (ledger_book (ledger replay))
                     ((fun trade => (trade_instrument trade, intent trade)) <$> pending replay) in
  target ← or_invalid (decide_target (evaluator request) (request_policy request) view projected);
  let replay := foldl (fun replay delta =>
      register R replay decision_time delta.1 delta.2 (execution_bars covered decision_time delta.1))
    replay (deltas_toward projected target) in
  Ok (replay, decisions ++ [{| decided_at := decision_time;
    inputs_visible_through := max_by_key id (visible_at <$> inputs);
    input_bar_count := Z.of_nat (List.length inputs); decision_target := target |}]).

Definition covered_bars (request : BarReplayRequest) : list Bar :=
  List.filter (fun bar => covers (request_policy request) bar
                          && policy_period_contains (request_policy request) (bar_start bar))
    (all_bars (data request)).

(** The decisions and the final state of a replay, before its result is assembled. *)
Definition run_decisions (R : ReplayRules) (request : BarReplayRequest) (costs : CostModel) (covered : list Bar)
    : AppResult (Replay * list ReplayDecision) :=
  '(replay, decisions) ← try_fold (decide_at R request covered)
    ({| ledger := ledger_new (request_funding request) costs (policy_settlement (policy_input (request_policy request)));
        steps := steps_of covered; pending := []; fills := [] |}, [])
    (bset_collect (visible_at <$> covered));
  replay ← advance R None replay;
  Ok (replay, decisions).

Definition replay_bars `{Sha256, Chrono} (request : BarReplayRequest) : AppResult SimulationResult :=
  let policy := policy_input (request_policy request) in
  if negb (bool_decide (evaluator_family (evaluator request) = family policy))
     || negb (evaluator_version (evaluator request) =? family_version policy)
     || negb (bool_decide (replay_tier (request_funding request) = funding_tier (subject request)))
  then Err invalid else
  costs ← or_invalid (cost_model_from_declaration (cost_model request) (cost_parameters request));
  let covered := covered_bars request in
  first_decision ← ok_or (hd_error (bset_collect (visible_at <$> covered))) invalid;
  constraints ← enforced_constraints request first_decision;
  let R := {| enforced := constraints; rules := execution policy;
              replay_price_source := price_source_type (data request) |} in
  '(replay, decisions) ← run_decisions R request costs covered;
  let '(fills, book, pnl) := finish replay in
  or_invalid (simulation_result_new (replay_identity request constraints) decisions fills pnl book).

End replay.

(** ** What each operation of the ledger does to its rows and its open step *)

Section ledger_shape.
Context `{DecimalArith} `{!BondCarry} `{ChronoDays}.

Lemma roll_date_rows l date start parts l' parts' funding :
  roll_date l date start parts = Ok (l', parts', funding) -> ledger_rows l' = ledger_rows l.
Proof.
  unfold roll_date. destruct (ledger_date l) as [previous|]; [|by intros [= <- _ _]].
  case_bool_decide; [by intros [= <- _ _]|]. intros E. apply bind_Ok in E as ([l1 p1] & E1 & [= <- _ _]).
  apply (try_fold_inv (fun st => ledger_rows st.1 = ledger_rows l)) in E1; [done|done|].
  intros [l2 p2] [i f] [l3 p3] _ Hl E2. unfold roll_position in E2. apply bind_Ok in E2 as (? & _ & E2).
  apply bind_Ok in E2 as (? & _ & E2). apply bind_Ok in E2 as (? & _ & [= <- _]). exact Hl.
Qed.

Lemma open_step_shape l bars l' :
  open_step l bars = Ok l' ->
  ledger_rows l' = ledger_rows l
  /\ exists first o, hd_error bars = Some first /\ open_step_of l' = Some o /\ step_end o = bar_end first.
Proof.
  unfold open_step. intros E. apply bind_Ok in E as (first & Ef%ok_or_Ok & E).
  destruct (_ || _); [discriminate E|]. apply bind_Ok in E as ([[l1 p1] funding] & Er & E). cbv zeta in E.
  apply bind_Ok in E as (p2 & _ & [= <-]). split; [exact (roll_date_rows _ _ _ _ _ _ _ Er)|].
  exists first. eexists. split; [done|]. by split.
Qed.

Lemma settle_shape l fill l' o :
  settle l fill = Ok l' -> open_step_of l = Some o ->
  ledger_rows l' = ledger_rows l /\ exists o', open_step_of l' = Some o' /\ step_end o' = step_end o.
Proof.
  unfold settle. intros E Ho. rewrite Ho in E. cbn [ok_or mbind Result_bind] in E.
  destruct (amount_is_zero _); [injection E as <-; by split; [|exists o]|].
  apply bind_Ok in E as ([l1 o1] & E1 & [= <-]). unfold execute in E1. apply bind_Ok in E1 as (? & _ & E1).
  destruct (_ || _); [discriminate E1|]. apply bind_Ok in E1 as (? & _ & [= <- <-]).
  split; [|by eexists]. cbn. by destruct (btree_get _ (marks l)).
Qed.

Lemma finish_step_shape l l' :
  finish_step l = Ok l' ->
  exists o row, open_step_of l = Some o /\ ledger_rows l' = ledger_rows l ++ [row] /\ row_end row = step_end o
  /\ ledger_book l' = ledger_book l.
Proof.
  unfold finish_step. intros E. apply bind_Ok in E as (o & Eo%ok_or_Ok & E). cbv zeta in E.
  apply bind_Ok in E as (e & _ & E). destruct (negb _); [discriminate E|]. injection E as <-.
  exists o. eexists. split; [done|]. split; [reflexivity|]. by split.
Qed.
End ledger_shape.

(** ** The loop *)

Section loop.
Context `{DecimalArith} `{!BondCarry} `{ChronoDays}.
Context (R : ReplayRules) (covered : list Bar).

(** Where an execution took place: in a covered bar of its instrument that starts no earlier than the
    decision, at the end and the price of that bar. *)
Definition executed_in (f : SimulatedFill) (bar : Bar) : Prop :=
  bar ∈ covered /\ instrument bar = fill_instrument f /\ leb (fill_decision_time f) (bar_start bar) = true
  /\ effective_at f = bar_end bar /\ price f = fst <$> priced_in bar /\ basis f = snd <$> priced_in bar.

(** What every recorded execution satisfies. *)
Record fill_ok (times : DateTime -> Prop) (f : SimulatedFill) : Prop := {
  fill_decided : times (fill_decision_time f);
  fill_source : price_source f = replay_price_source R;
  fill_bar : forall record, execution_bar f = Some record ->
    exists bar, executed_in f bar /\ source_record_id bar = record;
  fill_no_bar : execution_bar f = None -> quantity f = amount_zero /\ price f = None /\ no_fill f = Some NoLaterBar
}.

Record trade_ok (times : DateTime -> Prop) (trade : PendingTrade) : Prop := {
  trade_decided : times (trade_decision_time trade);
  trade_may : forall bar, bar ∈ trade_bars trade ->
    bar ∈ covered /\ instrument bar = trade_instrument trade
    /\ leb (trade_decision_time trade) (bar_start bar) = true
}.

(** The steps still to come and the rows booked so far are the bar grid. *)
Definition grid_ok (self : Replay) : Prop :=
  (row_end <$> ledger_rows (ledger self)) ++ (steps self).*1 = (steps_of covered).*1
  /\ Forall (fun step => step.2 <> [] /\ forall bar, bar ∈ step.2 -> bar_end bar = step.1) (steps self).

Record replay_ok (times : DateTime -> Prop) (self : Replay) : Prop := {
  replay_grid : grid_ok self;
  replay_fills : Forall (fill_ok times) (fills self);
  replay_pending : Forall (trade_ok times) (pending self)
}.

Lemma attempt_shape l trade bar used f :
  constrained_attempt R l trade bar used = Ok f ->
  fill_decision_time f = trade_decision_time trade /\ fill_instrument f = trade_instrument trade
  /\ effective_at f = bar_end bar /\ execution_bar f = Some (source_record_id bar)
  /\ price f = fst <$> priced_in bar /\ basis f = snd <$> priced_in bar /\ price_source f = replay_price_source R.
Proof.
  unfold constrained_attempt. cbv zeta. destruct (price _) as [p|] eqn:Ep; [|intros [= <-]; by repeat split].
  destruct (amount_is_zero _); [intros [= <-]; by repeat split|]. intros E. apply bind_Ok in E as (ctx & _ & E).
  destruct (check_execution _ _ _) as [allowed [o|]]; injection E as <-; by repeat split.
Qed.

(** A trade's attempt adds executions of this trade and leaves the rest of the replay alone. *)
Lemma execute_due_ok times step_end self used trade self' used' trade' o :
  execute_due R step_end (self, used) trade = Ok (self', used', trade') ->
  trade_ok times trade -> Forall (fill_ok times) (fills self) -> open_step_of (ledger self) = Some o ->
  Forall (fill_ok times) (fills self') /\ trade_ok times trade'
  /\ steps self' = steps self /\ ledger_rows (ledger self') = ledger_rows (ledger self)
  /\ exists o', open_step_of (ledger self') = Some o' /\ Ledger.step_end o' = Ledger.step_end o.
Proof.
  intros E [Ht Hbars] Hf Ho. unfold execute_due in E. destruct (trade_bars trade) as [|bar bars] eqn:Eb.
  { injection E as <- <- <-. split; [done|]. split; [split; [done|by rewrite Eb]|]. split; [done|]. split; [done|by eexists]. }
  destruct (_ || _).
  { injection E as <- <- <-. split; [done|]. split; [split; [done|by rewrite Eb]|]. split; [done|]. split; [done|by eexists]. }
  cbv zeta in E. apply bind_Ok in E as (f & Ef & E). apply bind_Ok in E as (l & El%map_err_Ok & E).
  destruct (attempt_shape _ _ _ _ _ Ef) as (F1 & F2 & F3 & F4 & F5 & F6 & F7).
  destruct (settle_shape _ _ _ _ El Ho) as [Hrows Ho'].
  assert (Hfill : fill_ok times f).
  { split; [by rewrite F1|done| |congruence]. intros record Er. exists bar. destruct (Hbars bar ltac:(left)) as (B1 & B2 & B3).
    split; [|congruence]. unfold executed_in. rewrite F1, F2. by repeat split. }
  assert (Hlate : fill_ok times (no_later_bar (trade_decision_time trade) (trade_instrument trade)
      (amount_minus (remaining trade) (quantity f)) (effective_at f) (replay_price_source R))) by (by split).
  assert (Hrest : forall b, b ∈ bars -> b ∈ covered /\ instrument b = trade_instrument trade
    /\ leb (trade_decision_time trade) (bar_start b) = true) by (intros b Hb; apply Hbars; by right).
  destruct (is_carried f && _) eqn:Ec; destruct (is_carried f && negb _) eqn:Ed; injection E as <- <- <-;
    cbn [fills steps ledger push_fill with_ledger];
    (split; [rewrite ?Forall_app, ?Forall_singleton; by tauto|]);
    (split; [split; [done|]; try exact Hrest; intros b Hb; by apply not_elem_of_nil in Hb|]);
    (split; [done|]); by split.
Qed.

Lemma execute_all_ok times step_end st trades self' used' trades' o :
  execute_all R step_end st trades = Ok (self', used', trades') ->
  Forall (trade_ok times) trades -> Forall (fill_ok times) (fills st.1) -> open_step_of (ledger st.1) = Some o ->
  Forall (fill_ok times) (fills self') /\ Forall (trade_ok times) trades'
  /\ steps self' = steps st.1 /\ ledger_rows (ledger self') = ledger_rows (ledger st.1)
  /\ exists o', open_step_of (ledger self') = Some o' /\ Ledger.step_end o' = Ledger.step_end o.
Proof.
  revert st o trades'. induction trades as [|trade trades IH]; intros [self used] o trades' E Ht Hf Ho; cbn [fst] in *.
  { injection E as <- <- <-. split; [done|]. split; [done|]. split; [done|]. split; [done|by eexists]. }
  cbn [execute_all] in E. apply bind_Ok in E as ([[self1 used1] trade1] & E1 & E).
  apply bind_Ok in E as ([[self2 used2] trades2] & E2 & E). injection E as <- <- <-.
  apply Forall_cons in Ht as [Ht1 Ht].
  destruct (execute_due_ok _ _ _ _ _ _ _ _ _ E1 Ht1 Hf Ho) as (F1 & T1 & S1 & R1 & o1 & O1 & P1).
  destruct (IH _ _ _ E2 Ht F1 O1) as (F2 & T2 & S2 & R2 & o2 & O2 & P2). cbn [fst] in *.
  split; [done|]. split; [by constructor|]. split; [congruence|]. split; [congruence|].
  exists o2. split; [done|congruence].
Qed.

Lemma run_step_ok times self step todo self' :
  run_step R self step = Ok self' -> steps self = step :: todo -> replay_ok times self ->
  replay_ok times self' /\ steps self' = todo.
Proof.
  intros E Hs [[Hg Hb] Hf Hp]. unfold run_step in E. apply bind_Ok in E as (opened & Eo%map_err_Ok & E).
  apply bind_Ok in E as ([[self1 used1] trades] & Ee & E). apply bind_Ok in E as (l & El%map_err_Ok & [= <-]).
  destruct (open_step_shape _ _ _ Eo) as [Ro (first & o & Ef & Oo & Po)].
  destruct (execute_all_ok times _ _ _ _ _ _ _ Ee Hp Hf Oo) as (F1 & T1 & S1 & R1 & o1 & O1 & P1).
  cbn [fst steps fills ledger with_ledger] in *.
  destruct (finish_step_shape _ _ El) as (o2 & row & O2 & R2 & P2 & _).
  assert (o2 = o1) as -> by congruence. rewrite Hs in *. rewrite S1. cbn [tail].
  apply Forall_cons in Hb as [[Hne Hend] Hb].
  assert (Efirst : bar_end first = step.1).
  { apply Hend. destruct step.2; [done|]. injection Ef as ->. left. }
  split; [|done]. split; cbn [ledger steps fills pending].
  - split; [|done]. cbn [ledger steps]. rewrite R2, R1, Ro, fmap_app, <- Hg, <- (assoc_L (++)). f_equal. cbn. congruence.
  - done.
  - rewrite list.Forall_forall in *. intros t Ht%list_elem_of_In. apply filter_In in Ht as [Ht%list_elem_of_In _]. auto.
Qed.

Lemma advance_ok times until self self' :
  advance R until self = Ok self' -> replay_ok times self ->
  replay_ok times self' /\ (until = None -> steps self' = []).
Proof.
  unfold advance. remember (steps self) as todo eqn:Et. symmetry in Et. revert self Et.
  induction todo as [|step todo IH]; intros self Et E Hok; cbn [advance_steps] in E.
  { injection E as <-. by split. }
  destruct (from_option _ false until) eqn:El.
  { injection E as <-. split; [done|]. intros ->. discriminate El. }
  apply bind_Ok in E as (self1 & E1 & E). destruct (run_step_ok _ _ _ _ _ E1 Et Hok) as [Hok1 Hs1]. by apply (IH self1).
Qed.

Lemma fill_ok_mono (times times' : DateTime -> Prop) f : (forall t, times t -> times' t) -> fill_ok times f -> fill_ok times' f.
Proof. intros Ht [F1 F2 F3 F4]. split; auto. Qed.

Lemma replay_ok_mono (times times' : DateTime -> Prop) self :
  (forall t, times t -> times' t) -> replay_ok times self -> replay_ok times' self.
Proof.
  intros Ht [Hg Hf Hp]. split; [done|..]; eapply Forall_impl; try done.
  - intros f. by apply fill_ok_mono.
  - intros t [T1 T2]. split; auto.
Qed.

Lemma execution_bars_ok t bond bar :
  bar ∈ execution_bars covered t bond -> bar ∈ covered /\ instrument bar = bond /\ leb t (bar_start bar) = true.
Proof.
  unfold execution_bars, sort_by_key. rewrite sort_by_perm. intros Hb%list_elem_of_In.
  apply filter_In in Hb as [Hb%list_elem_of_In Hc]. apply andb_true_iff in Hc as [Hi%bool_decide_eq_true Hs].
  split; [done|]. split; [done|]. by rewrite <- geb_leb.
Qed.

Lemma register_ok (times : DateTime -> Prop) self t bond face :
  times t -> replay_ok times self -> replay_ok times (register R self t bond face (execution_bars covered t bond)).
Proof.
  intros Ht [Hg Hf Hp]. unfold register. case_bool_decide; (split; [done|..]); cbn [fills pending push_fill]; try done.
  - apply Forall_app_2; [done|]. apply Forall_singleton. by split.
  - apply Forall_app_2; [done|]. apply Forall_singleton. split; [done|]. intros bar. apply execution_bars_ok.
Qed.

(** *** The bar grid *)

Lemma push_step_ok (m : BTreeMap DateTime (list Bar)) bar :
  btree_wf m -> Forall (fun step => step.2 <> [] /\ forall b, b ∈ step.2 -> bar_end b = step.1) m ->
  Forall (fun step => step.2 <> [] /\ forall b, b ∈ step.2 -> bar_end b = step.1) (push_step m bar).
Proof.
  intros Hw Hm. apply list.Forall_forall. intros [k v] Hin. unfold push_step in Hin.
  apply btree_insert_elem in Hin as [[-> ->]|Hin]; [|rewrite list.Forall_forall in Hm; by apply Hm]. cbn [fst snd].
  split; [by destruct (default _ _)|]. intros b [Hb|Hb%list_elem_of_singleton]%elem_of_app; [|by subst].
  destruct (btree_get (bar_end bar) m) eqn:Eg; cbn [default from_option] in Hb; [|by apply not_elem_of_nil in Hb].
  apply btree_get_elem in Eg. rewrite list.Forall_forall in Hm. by apply (Hm _ Eg).
Qed.

Lemma steps_of_ok (bars : list Bar) :
  btree_wf (steps_of bars)
  /\ Forall (fun step => step.2 <> [] /\ forall b, b ∈ step.2 -> bar_end b = step.1) (steps_of bars).
Proof.
  unfold steps_of. assert (Hgen : forall m : BTreeMap DateTime (list Bar), btree_wf m ->
    Forall (fun step => step.2 <> [] /\ forall b, b ∈ step.2 -> bar_end b = step.1) m ->
    btree_wf (foldl push_step m bars)
    /\ Forall (fun step => step.2 <> [] /\ forall b, b ∈ step.2 -> bar_end b = step.1) (foldl push_step m bars)).
  { induction bars as [|bar bars IH]; intros m Hw Hm; [done|]. cbn [foldl].
    apply IH; [by apply btree_insert_wf|by apply push_step_ok]. }
  apply Hgen; constructor.
Qed.

(** The steps of the grid that are settled are exactly those that ended by a time. *)
Definition settled_by (self : Replay) (time : DateTime) : Prop :=
  row_end <$> ledger_rows (ledger self) = List.filter (fun e => leb e time) (steps_of covered).*1.

Lemma grid_settled self time :
  grid_ok self -> Forall (fun e => leb e time = true) (row_end <$> ledger_rows (ledger self)) ->
  match steps self with [] => True | step :: _ => ltb time step.1 = true end -> settled_by self time.
Proof.
  intros [Hg _] Hr Hs. unfold settled_by. rewrite <- Hg. pose proof (proj1 (steps_of_ok covered)) as Hw. unfold btree_wf in Hw.
  rewrite <- Hg in Hw. rewrite List.filter_app, (filter_all _ (row_end <$> _)) by (by apply list.Forall_forall).
  rewrite (filter_none _ (steps self).*1); [by rewrite app_nil_r|].
  intros e He. destruct (steps self) as [|step todo]; [by apply not_elem_of_nil in He|]. cbn in He.
  apply StronglySorted_app in Hw as (_ & _ & Hw). cbn in Hw. inversion_clear Hw as [|? ? _ Hlt].
  rewrite leb_ltb. apply negb_false_iff, ltb_spec. apply ltb_spec in Hs. apply elem_of_cons in He as [->|He]; [done|].
  rewrite list.Forall_forall in Hlt. by eapply cmp_lt_trans; [|apply Hlt].
Qed.

(** Advancing to a time settles exactly the steps that ended by it. *)
Lemma advance_settled times time self self' :
  advance R (Some time) self = Ok self' -> replay_ok times self ->
  Forall (fun e => leb e time = true) (row_end <$> ledger_rows (ledger self)) ->
  settled_by self' time /\ Forall (fun e => leb e time = true) (row_end <$> ledger_rows (ledger self')).
Proof.
  unfold advance. remember (steps self) as todo eqn:Et. symmetry in Et. revert self Et.
  induction todo as [|step todo IH]; intros self Et E Hok Hr; cbn [advance_steps] in E.
  { injection E as <-. split; [|done]. apply grid_settled; [apply Hok|done|by rewrite Et]. }
  cbn [from_option] in E. destruct (ltb time step.1) eqn:El.
  { injection E as <-. split; [|done]. apply grid_settled; [apply Hok|done|by rewrite Et]. }
  apply bind_Ok in E as (self1 & E1 & E). destruct (run_step_ok _ _ _ _ _ E1 Et Hok) as [Hok1 Hs1].
  apply (IH self1); try done. destruct (replay_grid _ _ Hok) as [Hg _]. destruct (replay_grid _ _ Hok1) as [Hg1 _].
  rewrite Et in Hg. rewrite Hs1 in Hg1. rewrite <- Hg in Hg1. cbn in Hg1.
  rewrite (cons_middle step.1), (assoc_L (++)) in Hg1. apply app_inj_2 in Hg1 as [-> _]; [|done].
  apply Forall_app_2; [done|]. apply Forall_singleton. by rewrite leb_ltb, El.
Qed.

(** What a decision was made from: the covered bars the port gives for its time, all of them visible by then,
    and the book of a replay that has settled exactly the steps that ended by then, with its pending trades. *)
Record decision_ok (request : BarReplayRequest) (d : ReplayDecision) : Prop := {
  decision_inputs : exists visible self,
    let view := {| decision_time := decided_at d; view_bars := List.filter (covers (request_policy request)) visible |} in
    let projected := with_pending (ledger_book (ledger self)) ((fun trade => (trade_instrument trade, intent trade)) <$> pending self) in
    bars_visible_at (data request) (decided_at d) = Ok visible
    /\ (forall bar, bar ∈ view_bars view -> leb (visible_at bar) (decided_at d) = true)
    /\ settled_by self (decided_at d)
    /\ decide_target (evaluator request) (request_policy request) view projected = Ok (decision_target d)
    /\ inputs_visible_through d = max_by_key id (visible_at <$> view_bars view)
}.

Lemma decide_at_ok request self ds t self' ds' :
  decide_at R request covered (self, ds) t = Ok (self', ds') ->
  replay_ok (fun u => u ∈ decided_at <$> ds) self -> Forall (decision_ok request) ds ->
  Forall (fun e => leb e t = true) (row_end <$> ledger_rows (ledger self)) ->
  replay_ok (fun u => u ∈ decided_at <$> ds') self' /\ Forall (decision_ok request) ds'
  /\ decided_at <$> ds' = (decided_at <$> ds) ++ [t]
  /\ Forall (fun e => leb e t = true) (row_end <$> ledger_rows (ledger self')).
Proof.
  intros E Hok Hds Hr. unfold decide_at in E. apply bind_Ok in E as (self1 & E1 & E).
  apply bind_Ok in E as (visible & Ev & E). cbv zeta in E. apply bind_Ok in E as (view & Ew%map_err_Ok & E).
  apply bind_Ok in E as (target & Et%map_err_Ok & [= <- <-]).
  unfold point_in_time_view_new in Ew. destruct (existsb _ _) eqn:Ex; [discriminate Ew|]. injection Ew as <-.
  destruct (advance_settled _ _ _ _ E1 Hok Hr) as [Hset Hr1].
  apply (advance_ok (fun u => u ∈ decided_at <$> ds)) in E1 as [Hok1 _]; [|done].
  assert (Hrows : forall deltas s, ledger (foldl (fun replay delta =>
      register R replay t delta.1 delta.2 (execution_bars covered t delta.1)) s deltas) = ledger s).
  { induction deltas as [|[bond face] deltas IH]; intros s; [done|]. cbn [foldl]. rewrite IH. unfold register. by case_bool_decide. }
  rewrite fmap_app. cbn [fmap list_fmap decided_at]. split; [|split; [|split; [done|by rewrite Hrows]]].
  - apply (replay_ok_mono _ (fun u => u ∈ (decided_at <$> ds) ++ [t])) in Hok1; [|intros u Hu; apply elem_of_app; by left].
    assert (Ht : t ∈ (decided_at <$> ds) ++ [t]) by (apply elem_of_app; right; left).
    match goal with |- context [foldl _ self1 ?l] => generalize l; intros deltas end. clear Et Hset Hr1.
    revert self1 Hok1. induction deltas as [|[bond face] deltas IH]; intros self1 Hok1; [done|].
    cbn [foldl fst snd]. apply IH. by apply register_ok.
  - apply Forall_app_2; [done|]. apply Forall_singleton. split. exists visible, self1. cbv zeta. split; [done|].
    split; [|split; [exact Hset|split; [exact Et|done]]]. cbn [decided_at view_bars]. intros bar Hb. rewrite leb_ltb, negb_true_iff, <- not_true_iff_false.
    intros F. rewrite <- not_true_iff_false in Ex. apply Ex, existsb_exists. exists bar. by rewrite <- list_elem_of_In.
Qed.

Lemma decide_all_ok request self ds ts self' ds' :
  try_fold (decide_at R request covered) (self, ds) ts = Ok (self', ds') ->
  replay_ok (fun u => u ∈ decided_at <$> ds) self -> Forall (decision_ok request) ds ->
  bset_wf ts -> (forall t, t ∈ ts -> Forall (fun e => leb e t = true) (row_end <$> ledger_rows (ledger self))) ->
  replay_ok (fun u => u ∈ decided_at <$> ds') self' /\ Forall (decision_ok request) ds'
  /\ decided_at <$> ds' = (decided_at <$> ds) ++ ts.
Proof.
  revert self ds. induction ts as [|t ts IH]; intros self ds E Hok Hds Hts Hr.
  { injection E as <- <-. split; [done|]. split; [done|]. by rewrite app_nil_r. }
  cbn [try_fold] in E. apply bind_Ok in E as ([self1 ds1] & E1 & E).
  destruct (decide_at_ok _ _ _ _ _ _ E1 Hok Hds (Hr t ltac:(left))) as (Hok1 & Hds1 & Ed1 & Hr1).
  inversion_clear Hts as [|? ? Hts' Hlt]. rewrite list.Forall_forall in Hlt.
  destruct (IH _ _ E Hok1 Hds1 Hts') as (Hok2 & Hds2 & Ed2).
  { intros u Hu. eapply Forall_impl; [exact Hr1|]. cbn. intros e He. apply (leb_trans _ t); [done|]. apply leb_spec. right. by apply Hlt. } split; [done|]. split; [done|].
  by rewrite Ed2, Ed1, <- (assoc_L (++)).
Qed.

(** The whole run: decisions in order of time, and one row per step of the grid. *)
Lemma run_decisions_ok request costs self ds :
  run_decisions R request costs covered = Ok (self, ds) ->
  replay_ok (fun u => u ∈ decided_at <$> ds) self /\ Forall (decision_ok request) ds
  /\ decided_at <$> ds = bset_collect (visible_at <$> covered)
  /\ row_end <$> ledger_rows (ledger self) = (steps_of covered).*1.
Proof.
  unfold run_decisions. intros E. apply bind_Ok in E as ([self1 ds1] & E1 & E).
  apply bind_Ok in E as (self2 & E2 & [= <- <-]). apply decide_all_ok in E1 as (Hok1 & Hds1 & Ed1).
  - apply (advance_ok (fun u => u ∈ decided_at <$> ds1)) in E2 as [Hok2 Hs2]; [|done].
    split; [done|]. split; [done|]. split; [done|]. destruct (replay_grid _ _ Hok2) as [Hg _].
    rewrite (Hs2 eq_refl), app_nil_r in Hg. exact Hg.
  - split; cbn [fills pending]; [|constructor..]. split; [done|]. apply steps_of_ok.
  - constructor.
  - apply bset_collect_wf.
  - intros t _. constructor.
Qed.
End loop.

(** ** The result *)

Section result.
Context `{DecimalArith} `{!BondCarry} `{ChronoDays} `{Sha256} `{Chrono}.

Lemma max_by_key_elem {A K} `{Ord K} (key : A -> K) (l : list A) a : max_by_key key l = Some a -> a ∈ l.
Proof.
  destruct l as [|x l]; [done|]. cbn. intros [= <-]. assert (Hgen : forall best,
    foldl (fun best x => if geb (key x) (key best) then x else best) best l ∈ best :: l); [|apply Hgen].
  induction l as [|y l IH]; intros best; cbn [foldl]; [left|].
  specialize (IH (if geb (key y) (key best) then y else best)).
  destruct (geb _ _); apply elem_of_cons in IH as [->|IH]; set_solver.
Qed.

(** Neighbours of a sorted list are in order. *)
Lemma windows_sorted {A} (T : A -> A -> Prop) (p : A -> A -> bool) (l : list A) :
  (forall x y, T x y -> p x y = true) -> StronglySorted T l -> windows2_all p l = true.
Proof.
  intros Hp Hs. apply windows2_all_true. intros i x y Hx Hy. apply Hp. clear Hp. revert i Hx Hy.
  induction Hs as [|z l Hs IH Hz]; intros [|i] Hx Hy; [done..| |by apply (IH i)].
  injection Hx as <-. change (l !! 0%nat = Some y) in Hy. apply list_elem_of_lookup_2 in Hy. rewrite list.Forall_forall in Hz. by apply Hz.
Qed.

Lemma fills_sorted (fs : list SimulatedFill) : fills_ordered (sort_by_key fill_key fs) = true.
Proof.
  unfold fills_ordered. eapply windows_sorted; [|apply (sort_by_key_sorted fill_key)]. cbn beta.
  intros f g. unfold fill_key, leb, cmp, pair_ord, cmp.
  cbn [fst snd]. unfold lex. by destruct (DateTime_ord (effective_at f) (effective_at g)),
    (VersionRef_ord (fill_instrument f) (fill_instrument g)).
Qed.

Lemma sorted_via {A K} `{OrdLaws K} (key : A -> K) (l : list A) :
  StronglySorted (fun a b => cmp a b = Lt) (key <$> l) -> windows2_all (fun a b => ltb (key a) (key b)) l = true.
Proof.
  intros Hs. apply windows2_all_true. intros i x y Hx Hy.
  assert (Hw : windows2_all (fun a b => ltb a b) (key <$> l) = true).
  { eapply windows_sorted; [|exact Hs]. cbn. intros a b. apply ltb_spec. }
  rewrite windows2_all_true in Hw. apply (Hw i); rewrite list_lookup_fmap; [by rewrite Hx|by rewrite Hy].
Qed.

(** The bar grid is the set of the ends of the bars. *)
Lemma btree_insert_key_set {K V} `{OrdLaws K} (k : K) (v : V) (m : BTreeMap K V) :
  (btree_insert k v m).*1 = bset_insert k m.*1.
Proof.
  induction m as [|[k' v'] m IH]; [done|]. cbn. destruct (cmp k k') eqn:E; cbn; [|done|by rewrite IH].
  apply cmp_eq in E. by subst.
Qed.

Lemma steps_of_keys (bars : list Bar) : (steps_of bars).*1 = bset_collect (bar_end <$> bars).
Proof.
  unfold steps_of, bset_collect. assert (Hgen : forall m : BTreeMap DateTime (list Bar),
    (foldl push_step m bars).*1 = foldl (fun s k => bset_insert k s) m.*1 (bar_end <$> bars)); [|apply Hgen].
  induction bars as [|bar bars IH]; intros m; [done|]. cbn [foldl fmap list_fmap].
  rewrite IH. f_equal. apply btree_insert_key_set.
Qed.

(** The checks of the result never refuse what the loop has produced. *)
Lemma run_accepted R request costs covered self ds identity :
  run_decisions R request costs covered = Ok (self, ds) ->
  let '(fills, book, pnl) := finish self in
  exists result, simulation_result_new identity ds fills pnl book = Ok result
    /\ result_decisions result = ds /\ result_fills result = fills /\ result_pnl result = pnl /\ result_book result = book.
Proof.
  intros E. destruct (run_decisions_ok _ _ _ _ _ _ E) as (_ & Hds & Ed & Er). unfold finish, simulation_result_new.
  assert (H1' : decisions_ordered ds = true).
  { apply sorted_via. rewrite Ed. apply bset_collect_wf. }
  assert (H2' : rows_ordered (ledger_rows (ledger self)) = true).
  { apply sorted_via. rewrite Er. apply steps_of_ok. }
  assert (H3' : forallb inputs_visible ds = true).
  { apply forallb_forall. intros d Hd%list_elem_of_In. rewrite list.Forall_forall in Hds.
    destruct (Hds d Hd) as [(visible & rp & _ & Hv & _ & _ & Em)]. unfold inputs_visible. rewrite Em.
    destruct (max_by_key _ _) as [t|] eqn:Et; [|done]. cbn. apply max_by_key_elem, list_elem_of_fmap in Et as (bar & -> & Hb).
    by apply Hv. }
  cbv zeta. rewrite H1', H2', H3', fills_sorted. cbn. eexists. split; [reflexivity|]. by repeat split.
Qed.

Lemma replay_bars_inv request result :
  replay_bars request = Ok result ->
  exists R costs self, run_decisions R request costs (covered_bars request) = Ok (self, result_decisions result)
    /\ replay_price_source R = price_source_type (data request)
    /\ rules R = execution (policy_input (request_policy request))
    /\ result_fills result = sort_by_key fill_key (fills self)
    /\ result_pnl result = ledger_rows (ledger self) /\ result_book result = ledger_book (ledger self).
Proof.
  unfold replay_bars. intros E. destruct (_ || _); [discriminate E|]. apply bind_Ok in E as (costs & _ & E).
  apply bind_Ok in E as (first & _ & E). apply bind_Ok in E as (cs & _ & E).
  apply bind_Ok in E as ([self ds] & Er & E). apply map_err_Ok in E. unfold simulation_result_new in E.
  destruct (negb _ || _); [discriminate E|]. injection E as <-. cbn. eexists _, _, _. by repeat split.
Qed.

(** Every decision is the policy's answer to what is known by then, and every execution belongs to a decision
    and took place in a covered bar that starts no earlier, at its end and its price; what is recorded
    without a bar executed nothing. *)
Lemma replay_decisions_ok request result :
  replay_bars request = Ok result ->
  Forall (decision_ok (covered_bars request) request) (result_decisions result)
  /\ forall f, f ∈ result_fills result ->
     (exists d, d ∈ result_decisions result /\ decided_at d = fill_decision_time f)
     /\ match execution_bar f with
        | Some record => exists bar, executed_in (covered_bars request) f bar /\ source_record_id bar = record
        | None => quantity f = amount_zero /\ price f = None
        end.
Proof.
  intros E. destruct (replay_bars_inv _ _ E) as (R & costs & self & Er & _ & _ & Ef & _).
  destruct (run_decisions_ok _ _ _ _ _ _ Er) as ([_ Hf _] & Hds & _ & _). split; [done|].
  intros f Hin. rewrite Ef in Hin. unfold sort_by_key in Hin. rewrite sort_by_perm in Hin.
  rewrite list.Forall_forall in Hf. destruct (Hf f Hin) as [Fd _ Fb Fn]. split.
  - apply list_elem_of_fmap in Fd as (d & Ed & Hd). by exists d.
  - destruct (execution_bar f); [by apply Fb|]. destruct (Fn eq_refl) as (? & ? & _). by split.
Qed.

(** C21. A replay never fails once its loop is done: whatever decisions, executions and rows the loop has
    produced pass the ordering and visibility checks of the result, and the result has one decision
    per visibility time and one profit-and-loss row per step of the bar grid, both in order. *)
Theorem replay_result_accepted R request costs self ds identity :
  run_decisions R request costs (covered_bars request) = Ok (self, ds) ->
  let '(fills, book, pnl) := finish self in
  exists result, simulation_result_new identity ds fills pnl book = Ok result
    /\ decided_at <$> result_decisions result = bset_collect (visible_at <$> covered_bars request)
    /\ row_end <$> result_pnl result = bset_collect (bar_end <$> covered_bars request).
Proof.
  intros E. pose proof (run_accepted _ _ _ _ _ _ identity E) as Hacc.
  destruct (run_decisions_ok _ _ _ _ _ _ E) as (_ & _ & Ed & Er).
  unfold finish in *. destruct Hacc as (result & Hr & Rd & _ & Rp & _). exists result. split; [done|].
  rewrite Rd, Rp, Ed, Er. split; [done|]. apply steps_of_keys.
Qed.
End result.

(** ** A small market *)

Section example.
Local Existing Instance sample_rust_decimal.
Local Existing Instance sample_arith.
Local Existing Instance sample_carry.
Local Existing Instance sample_days.
Local Existing Instance sample_sha256.
Local Existing Instance sample_chrono.

(** A daily bar of bond A: 101, with a yield in hundredths of a percent, visible on a given day. *)
Definition market_bar (record : string) (day yield face visible : Z) : Bar :=
  let bar := sample_bar "A" record day 1010 in
  {| source_record_id := record; instrument := instrument bar; frequency := D1; settlement := T1;
     bar_timezone := "UTC"; bar_trading_date := bar_trading_date bar; bar_start := bar_start bar; bar_end := bar_end bar;
     visible_at := {| timestamp := visible * 86400 + 61000; timestamp_subsec_nanos := 0 |};
     prices := prices bar; volume := sample_price face 0; turnover := None; trade_count := None; vwap := vwap bar;
     close_yield := Some (sample_price yield 2) |}.

Definition sample_port (bars : list Bar) : PointInTimeBars := {|
  snapshot := (sample_id "S", sample_hash x00); price_source_type := RealTrade; all_bars := bars;
  bars_visible_at := fun t => Ok (List.filter (fun bar => leb (visible_at bar) t) bars)
|}.

Definition sample_subject : SubjectVersion := {|
  subject_reference := sample_bond "V"; access_set := {| market_codes := []; tool_codes := [] |};
  funding_tier := DrAvailable; tax_treatment := {| value_added_tax_profile := "v"; income_tax_profile := "i" |};
  assessment_mechanism := "a"; liability_profile := "l"; constraint_set_ref := None
|}.

Definition sample_state : SubjectStateSnapshot := {|
  state_snapshot_id := sample_id "Z"; state_subject_ref := sample_bond "V"; net_capital := sample_price 1 0;
  limit_ceilings := []; state_observed_at := instant (market_instant 1); state_visible_at := instant (market_instant 1);
  state_timezone := "UTC"; state_owner := None
|}.

Definition sample_request (bars : list Bar) : BarReplayRequest := {|
  request_policy := {| policy_input := sample_policy_input; policy_hash := digest (policy_bytes sample_policy_input) |};
  evaluator := YieldThresholdPolicy; data := sample_port bars; subject := sample_subject;
  request_subject_state := sample_state; constraint_set := None; request_funding := ledger_funding sample_ledger;
  cost_model := COST_NONE; cost_parameters := []; seed := 7; code := sample_hash x01; runtime := sample_hash x02
|}.

(** What a result has fixed by the end of a day: the quantities executed, and the targets decided. *)
Definition fixed_by (day : Z) (result : SimulationResult) : list (ReplayAmount * option NoFillReason) * list (list ReplayAmount) :=
  let '(decisions, fills, _) := through result {| timestamp := day * 86400 + 61000; timestamp_subsec_nanos := 0 |} in
  ((fun fill => (quantity fill, no_fill fill)) <$> fills, (fun d => btree_values (decision_target d)) <$> decisions).

(** Bought on the second day what the first day decided, and held. *)
Example sample_replay :
  fixed_by 7 <$> replay_bars (sample_request
    [market_bar "r5" 5 195 100000000 5; market_bar "r6" 6 150 100000000 6; market_bar "r7" 7 150 100000000 7])
  = Ok ([((10000000, 0%nat), None)],
        [[(10000000, 0%nat)]; [(10000000, 0%nat)]; [(10000000, 0%nat)]]).
Proof. vm_compute. reflexivity. Qed.

(** Appending a record that becomes visible later can change results at earlier times. A trade without a
    later bar is recorded as unfilled at its decision time, so a later bar removes that record. *)
Example later_bar_removes_a_record :
  fixed_by 5 <$> replay_bars (sample_request [market_bar "r5" 5 195 100000000 5])
  = Ok ([((0, 0%nat), Some NoLaterBar)], [[(10000000, 0%nat)]])
  /\ fixed_by 5 <$> replay_bars (sample_request [market_bar "r5" 5 195 100000000 5; market_bar "r6" 6 150 100000000 6])
  = Ok ([], [[(10000000, 0%nat)]]).
Proof. split; vm_compute; reflexivity. Qed.

(** And a bar that ends before a decision but becomes visible after it is settled before the decision, so
    the book that the policy sees, and its target, depend on a record it may not see. *)
Example late_bar_changes_a_decision :
  let bars := [market_bar "r5" 5 195 100000000 5; market_bar "r7" 7 150 2 7] in
  fixed_by 7 <$> replay_bars (sample_request bars)
  = Ok ([((1, 0%nat), None)], [[(10000000, 0%nat)]; [(1, 0%nat)]])
  /\ fixed_by 7 <$> replay_bars (sample_request (bars ++ [market_bar "r6" 6 150 100000000 9]))
  = Ok ([((10000000, 0%nat), None)], [[(10000000, 0%nat)]; [(10000000, 0%nat)]]).
Proof. split; vm_compute; reflexivity. Qed.

Definition three_days : list Bar :=
  [market_bar "r5" 5 195 100000000 5; market_bar "r6" 6 150 100000000 6; market_bar "r7" 7 150 100000000 7].

Definition no_result : SimulationResult := {|
  result_id := sample_hash x00; result_identity := replay_identity (sample_request []) []; result_decisions := [];
  result_fills := []; result_pnl := []; result_book := empty_book
|}.

Definition sample_rules : ReplayRules := {|
  enforced := []; rules := execution sample_policy_input; replay_price_source := RealTrade
|}.

Lemma replay_result_accepted_witness :
  exists self ds, run_decisions sample_rules (sample_request three_days) CostNone (covered_bars (sample_request three_days))
                    = Ok (self, ds)
    /\ let '(fills, book, pnl) := finish self in
       exists result, simulation_result_new (replay_identity (sample_request three_days) []) ds fills pnl book = Ok result
         /\ decided_at <$> result_decisions result = bset_collect (visible_at <$> covered_bars (sample_request three_days))
         /\ row_end <$> result_pnl result = bset_collect (bar_end <$> covered_bars (sample_request three_days)).
Proof.
  set (none := ({| ledger := sample_ledger; steps := []; pending := []; fills := [] |}, @nil ReplayDecision)).
  set (run := run_decisions sample_rules (sample_request three_days) CostNone (covered_bars (sample_request three_days))).
  assert (E : run = Ok (ok_of none run)) by (apply ok_intro; vm_compute; reflexivity).
  exists (ok_of none run).1, (ok_of none run).2. rewrite <- surjective_pairing. split; [exact E|].
  apply (replay_result_accepted sample_rules (sample_request three_days) CostNone). rewrite <- surjective_pairing. exact E.
Defined.
End example.
