(* ===== verification/Causality.v ===== *)
(** * Replays and later records

    What a replay of [BarReplay] has decided, executed and booked by a time does not depend on what the snapshot
    holds after that time: two replays whose data agree on the bars that ended by then are compared step by step.
    The conditions under which this holds are those of [same_until]; the examples at the end of [BarReplay] show
    that two of them are needed. *)

From Stdlib Require Import ZArith Lia Strings.String.
From stdpp Require Import base list option strings numbers sorting sets.
From S2P Require Import Prelude Machine Collections Primitives Codec Concrete Exposure DecimalValue Amount Bar Book Execution Subject Constraints Ledger Calibration Policy SimulationResult AppErrors BarReplay.
Open Scope Z_scope.

(** ** Sorted lists in two parts *)

Lemma filter_filter_eq {A} (f g : A -> bool) l m :
  (forall x, g x = true -> f x = true) -> List.filter f l = List.filter f m -> List.filter g l = List.filter g m.
Proof.
  intros Hfg E. assert (Hg : forall l, List.filter g (List.filter f l) = List.filter g l).
  { clear -Hfg. induction l as [|x l IH]; [done|]. cbn. destruct (f x) eqn:Ef; cbn; destruct (g x) eqn:Eg; rewrite ?IH; try done.
    apply Hfg in Eg. congruence. }
  rewrite <- (Hg l), <- (Hg m). by rewrite E.
Qed.

Section sorted.
Context {A K : Type} `{OrdLaws K} (key : A -> K).





End sorted.








(** ** The bar grid up to a time *)




(** ** Two replays side by side *)

(** Both runs fail with the same error, or both succeed with related results. *)
Definition both_ok {E A B} (Q : A -> B -> Prop) (m : Result E A) (n : Result E B) : Prop :=
  match m, n with Ok a, Ok b => Q a b | Err e, Err f => e = f | _, _ => False end.

Lemma both_eq {E A} (m : Result E A) : both_ok eq m m.
Proof. by destruct m. Qed.




Section lockstep.
Context `{DecimalArith} `{!BondCarry} `{ChronoDays}.
Context (t : DateTime) (R : ReplayRules).













(** ** What one run adds *)



(** What an operation leaves of the state before it: the steps, the rows, and the executions, to which it may add. *)
Record extends (times : DateTime -> Prop) (s s' : Replay) : Prop := {
  extends_steps : steps s' = steps s;
  extends_rows : ledger_rows (ledger s') = ledger_rows (ledger s);
  extends_known : step_known_at <$> open_step_of (ledger s') = step_known_at <$> open_step_of (ledger s);
  extends_fills : exists fs, fills s' = fills s ++ fs /\ Forall (fun f => times (effective_at f)) fs
}.

#[local] Instance extends_preorder times : PreOrder (extends times).
Proof.
  split.
  - intros s. split; [done..|]. exists []. by rewrite app_nil_r.
  - intros s1 s2 s3 [S1 R1 K1 (f1 & F1 & T1)] [S2 R2 K2 (f2 & F2 & T2)]. split; [congruence..|].
    exists (f1 ++ f2). rewrite F2, F1, (assoc_L (++)). split; [done|]. by apply Forall_app.
Qed.













(** *** Decisions *)








End lockstep.

(** ** Data that agree up to a time *)

Section same.
Context `{DecimalArith} `{!BondCarry} `{ChronoDays} `{Sha256} `{Chrono}.















End same.

(** ** Another third day *)

Section example.
Local Existing Instance sample_rust_decimal.
Local Existing Instance sample_arith.
Local Existing Instance sample_carry.
Local Existing Instance sample_days.
Local Existing Instance sample_sha256.
Local Existing Instance sample_chrono.





End example.
