(* ===== verification/Settlement.v ===== *)
(** * What a step of the replay settles

    The composition of the attempt in a bar, the constraint check and the ledger in the loop of
    [crates/ficant-application/src/use_cases/bar_replay.rs]: constraints hold on the book that
    settlement leaves, positions move by what was executed, and all attempts in one bar share its
    participation cap. *)

From Stdlib Require Import ZArith Lia QArith Qabs Qminmax Lqa Strings.String Strings.Byte.
From stdpp Require Import base list option strings numbers sorting sets.
From S2P Require Import Prelude Machine Collections Primitives Codec Concrete Exposure DecimalValue Amount Bar Book Execution Subject Constraints Ledger Calibration Policy SimulationResult AppErrors BarReplay.
Open Scope Z_scope.

Section facts.
Context `{DecimalArithLaws} `{!BondCarry} `{ChronoDays}.
Local Open Scope Q_scope.

(** ** The book a settlement leaves *)

(** A sum over positions changes only at the position that moves. *)
Lemma positions_sum_add b i f (h : Q -> Q) :
  Proper (Qeq ==> Qeq) h -> h 0 == 0 -> wf_book b -> fits (dval (book_position b i) + dval f) ->
  qsum ((fun p => h (dval p.2)) <$> positions (add_position b i f))
  == qsum ((fun p => h (dval p.2)) <$> positions b) - h (dval (book_position b i)) + h (dval (book_position b i) + dval f).
Proof.
  intros Hh H0h [Hw _] Hf. unfold add_position. cbn [positions]. cbv zeta. pose proof (dval_add _ _ Hf) as Ea.
  unfold book_position in *.
  assert (Eg : match btree_get i (positions b) with Some w => h (dval w) | None => 0 end
               == h (dval (default amount_zero (btree_get i (positions b))))).
  { destruct (btree_get i (positions b)); cbn [from_option default id]; [reflexivity|].
    by rewrite (dval_zero : dval amount_zero == 0), H0h. }
  destruct (decimal_is_zero _) eqn:Ez.
  - apply decimal_is_zero_spec in Ez. rewrite Ea in Ez. rewrite sum_remove by done. cbn [fst snd]. rewrite Eg, Ez, H0h. ring.
  - rewrite sum_insert by done. cbn [fst snd]. rewrite Eg, dval_normalize, Ea. reflexivity.
Qed.

(** What a constraint measures on a book. *)
Definition book_measure (b : SimulatedBook) (bond : VersionRef) (m : ConstraintMeasure) : Q :=
  match m with
  | InstrumentFace => Qabs (dval (book_position b bond))
  | PortfolioFace => qsum ((fun p => Qabs (dval p.2)) <$> positions b)
  | BorrowedCash => Qmax (- dval (cash b)) 0
  end.

(** The prices and costs of an execution are computed exactly, by the check and by the settlement. *)
Definition cost_exact (costs : CostModel) (face : Decimal) : Prop :=
  match costs with
  | CostNone => True
  | RatePlusFixed rate fee =>
      dexact ($rate / $BASIS_POINTS)%dx
      /\ dexact ($(decimal_abs face) * $rate / $BASIS_POINTS + $fee)%dx
  end.

Definition price_exact (l : ReplayLedger) (bond : VersionRef) (p : ReplayAmount) : Prop :=
  forall o a, open_step_of l = Some o -> accrued_interest bond (ledger_settlement l) (step_date o) = Some a ->
  dexact (($p + $a) / $ONE_HUNDRED)%dx.

Lemma execution_cost_val l ctx bond p face :
  execution_context l bond p = Ok ctx -> cost_exact (ledger_costs l) face -> ~ dval face == 0 ->
  dval (execution_cost (ledger_costs l) face) == - cost_q ctx (dval face).
Proof.
  intros E Hc Hz. unfold execution_context in E. apply bind_Ok in E as (o & _ & E).
  apply bind_Ok in E as (a & _ & E). unfold cost_q. destruct (Qeq_dec _ _); [done|].
  unfold execution_cost. destruct (ledger_costs l) as [|rate fee]; injection E as <-; cbn [cost_per_face fee_per_fill].
  - rewrite (dval_zero : dval amount_zero == 0), dval_zero. ring.
  - destruct Hc as [H1c H2c]. unfold amount_is_zero. destruct (decimal_is_zero face) eqn:Ez; [by apply decimal_is_zero_spec in Ez|].
    apply deval_exact in H1c, H2c. cbn [deval dq] in H1c, H2c. rewrite dval_from_decimal, dval_neg, H2c, H1c, dval_abs.
    rewrite dval_basis_points. field.
Qed.

(** Settling an execution leaves the book that the check has measured. *)
Lemma settled_measure l ctx fill p l' m :
  execution_context l (fill_instrument fill) p = Ok ctx -> price fill = Some p ->
  settle l fill = Ok l' -> wf_book (ledger_book l) ->
  settle_exact l fill -> price_exact l (fill_instrument fill) p -> cost_exact (ledger_costs l) (quantity fill) ->
  book_measure (ledger_book l') (fill_instrument fill) m == measure_q ctx m (dval (quantity fill)).
Proof.
  intros E Ep Es Hw Hx Hp Hc. pose proof (execution_cost_val _ _ _ _ _ E Hc) as Ecost.
  unfold settle in Es. apply bind_Ok in Es as (o & Eo%ok_or_Ok & Es).
  assert (Ectx : context_book ctx = ledger_book l /\ context_instrument ctx = fill_instrument fill
    /\ forall a, accrued_interest (fill_instrument fill) (ledger_settlement l) (step_date o) = Some a ->
       dval (dirty_per_face ctx) == (dval p + dval a) / 100).
  { unfold execution_context in E. rewrite Eo in E. cbn [ok_or mbind Result_bind] in E.
    apply bind_Ok in E as (a & Ea%ok_or_Ok & E). destruct (ledger_costs l); injection E as <-; cbn;
      (split; [done|]; split; [done|]); intros a' Ea'; assert (a' = a) as -> by congruence;
      specialize (Hp o a Eo Ea); apply deval_exact in Hp; cbn [deval dq] in Hp; by rewrite Hp, dval_hundred. }
  destruct Ectx as (C1 & C2 & C3). unfold amount_is_zero in Es. destruct (decimal_is_zero (quantity fill)) eqn:Ez.
  - injection Es as <-. apply decimal_is_zero_spec in Ez. destruct m; cbn [book_measure measure_q];
      unfold position_q, gross_q, cash_q, cost_q, context_position; rewrite ?C1, ?C2.
    + rewrite Ez, Qplus_0_r. reflexivity.
    + rewrite Ez, Qplus_0_r. ring.
    + destruct (Qeq_dec _ _) as [_|F]; [|done]. rewrite Ez.
      apply Q.max_compat; [ring|reflexivity].
  - apply decimal_is_zero_false in Ez. specialize (Ecost Ez).
    apply bind_Ok in Es as ([l1 o1] & E1 & [= <-]). destruct (execute_shape _ _ _ _ _ E1) as (p' & a & Ep' & Ea & E2 & _).
    assert (p' = p) as -> by congruence. destruct (Hx o p a Eo Ep Ea) as ((_ & X2 & X3) & X4 & _).
    cbv zeta in X2, X3, X4. cbn [ledger_book with_open] in *. rewrite E2.
    destruct m; cbn [book_measure measure_q]; unfold position_q, gross_q, cash_q, context_position; rewrite ?C1, ?C2.
    + rewrite book_position_add by exact X4. reflexivity.
    + etransitivity; [apply (positions_sum_add _ _ _ Qabs); [intros x y Exy; by rewrite Exy|reflexivity|done|exact X4]|].
      reflexivity.
    + rewrite cash_add_position. apply Q.max_compat; [|reflexivity]. apply deval_exact in X2. cbn [deval dq] in X2, X3.
      rewrite dval_add_cash by (rewrite X2; exact X3). rewrite X2, Ecost, (C3 a Ea), dval_hundred. field.
Qed.

(** A measure without a breach exceeds neither its ceiling nor what it was. *)
Lemma no_breach ctx c x :
  ~ breach_q ctx c x ->
  measure_q ctx (constraint_measure c) x <= Qmax (dval (constraint_ceiling c)) (measure_q ctx (constraint_measure c) 0).
Proof.
  intros Hn. apply Qnot_lt_le. intros F. apply Hn. pose proof (Q.le_max_l (dval (constraint_ceiling c)) (measure_q ctx (constraint_measure c) 0)).
  pose proof (Q.le_max_r (dval (constraint_ceiling c)) (measure_q ctx (constraint_measure c) 0)). split; lra.
Qed.

Lemma measure_before l ctx bond p m :
  execution_context l bond p = Ok ctx -> book_measure (ledger_book l) bond m == measure_q ctx m 0.
Proof.
  intros E. unfold execution_context in E. apply bind_Ok in E as (o & _ & E). apply bind_Ok in E as (a & _ & E).
  assert (C : context_book ctx = ledger_book l /\ context_instrument ctx = bond) by (destruct (ledger_costs l); by injection E as <-).
  destruct C as [C1 C2]. destruct m; cbn [book_measure measure_q]; unfold position_q, gross_q, cash_q, cost_q, context_position;
    rewrite ?C1, ?C2.
  - by rewrite Qplus_0_r.
  - rewrite Qplus_0_r. ring.
  - destruct (Qeq_dec 0 0) as [_|F]; [|by destruct F]. apply Q.max_compat; [ring|reflexivity].
Qed.

(** ** Attempts *)

(** A check never lets more through than was asked for. *)
Lemma check_execution_toward cs ctx face :
  toward (dval face) (dval (check_execution cs ctx face).1).
Proof.
  assert (Hz : toward (dval face) (dval amount_zero)).
  { rewrite (dval_zero : dval amount_zero == 0). apply toward_zero. }
  unfold check_execution. cbv zeta. destruct (decimal_is_zero face); [exact Hz|].
  case_bool_decide; [cbn [fst]; rewrite dval_from_decimal; apply toward_refl|].
  destruct (existsb _ _); [exact Hz|]. destruct (_ || _); [exact Hz|]. cbn [fst]. rewrite dval_from_decimal.
  apply allowed_face_spec.
Qed.

(** The attempt before the constraints. *)
Definition raw_attempt (R : ReplayRules) (trade : PendingTrade) (bar : Bar) (used : ReplayAmount) : SimulatedFill :=
  attempt_in_bar (trade_decision_time trade) (trade_instrument trade) (remaining trade) bar used (rules R)
    (replay_price_source R).

Lemma constrained_attempt_cases R l trade bar used f :
  constrained_attempt R l trade bar used = Ok f ->
  (f = raw_attempt R trade bar used /\ (price f = None \/ dval (quantity f) == 0))
  \/ exists p ctx allowed outcome, price f = Some p /\ execution_context l (trade_instrument trade) p = Ok ctx
     /\ ~ dval (quantity (raw_attempt R trade bar used)) == 0
     /\ check_execution (enforced R) ctx (quantity (raw_attempt R trade bar used)) = (allowed, outcome)
     /\ match outcome with
        | None => f = raw_attempt R trade bar used
        | Some o => f = constrain (raw_attempt R trade bar used) allowed o
        end.
Proof.
  unfold constrained_attempt. fold (raw_attempt R trade bar used). cbv zeta.
  destruct (price (raw_attempt R trade bar used)) as [p|] eqn:Ep; [|intros [= <-]; left; split; [done|by left]].
  unfold amount_is_zero. destruct (decimal_is_zero _) eqn:Ez.
  { apply decimal_is_zero_spec in Ez. intros [= <-]. left. split; [done|by right]. }
  apply decimal_is_zero_false in Ez. intros E. apply bind_Ok in E as (ctx & Ec%map_err_Ok & E).
  destruct (check_execution _ _ _) as [allowed outcome] eqn:Ek. right. exists p, ctx, allowed, outcome.
  destruct outcome; injection E as <-; by repeat split.
Qed.

Lemma raw_attempt_unpriced R trade bar used :
  price (raw_attempt R trade bar used) = None -> dval (quantity (raw_attempt R trade bar used)) == 0.
Proof.
  unfold raw_attempt. cbn [attempt_in_bar price quantity]. destruct (priced_in bar); [done|]. intros _.
  rewrite dval_from_decimal. apply dval_zero.
Qed.

(** What is executed is what the check lets through. *)
Lemma constrained_quantity R l trade bar used f :
  constrained_attempt R l trade bar used = Ok f ->
  toward (dval (quantity (raw_attempt R trade bar used))) (dval (quantity f)).
Proof.
  intros [[-> _]|(p & ctx & allowed & outcome & _ & _ & _ & Ek & Ef)]%constrained_attempt_cases; [apply toward_refl|].
  destruct outcome; subst f; [|apply toward_refl]. cbn [constrain quantity].
  pose proof (check_execution_toward (enforced R) ctx (quantity (raw_attempt R trade bar used))) as Ht. by rewrite Ek in Ht.
Qed.

(** The amounts of one checked and settled attempt are exact. *)
Definition attempt_exact (R : ReplayRules) (l : ReplayLedger) (trade : PendingTrade) (bar : Bar)
    (used : ReplayAmount) (f : SimulatedFill) : Prop :=
  forall p ctx, price f = Some p -> execution_context l (trade_instrument trade) p = Ok ctx ->
  exact_toward (enforced R) ctx (quantity (raw_attempt R trade bar used))
  /\ settle_exact l f /\ price_exact l (trade_instrument trade) p /\ cost_exact (ledger_costs l) (quantity f).

Lemma settle_nothing l f l' : settle l f = Ok l' -> dval (quantity f) == 0 -> l' = l.
Proof.
  unfold settle. intros E Hz. apply bind_Ok in E as (o & _ & E). unfold amount_is_zero in E.
  rewrite (proj2 (decimal_is_zero_spec _) Hz) in E. congruence.
Qed.

Lemma attempt_respects_constraints R l trade bar used f l' c :
  constrained_attempt R l trade bar used = Ok f -> settle l f = Ok l' -> wf_book (ledger_book l) ->
  attempt_exact R l trade bar used f -> c ∈ enforced R ->
  book_measure (ledger_book l') (trade_instrument trade) (constraint_measure c)
  <= Qmax (dval (constraint_ceiling c)) (book_measure (ledger_book l) (trade_instrument trade) (constraint_measure c)).
Proof.
  intros Ef Es Hw Hx Hc. assert (Hi : fill_instrument f = trade_instrument trade).
  { unfold constrained_attempt in Ef. cbv zeta in Ef. destruct (price _); [|by injection Ef as <-].
    destruct (amount_is_zero _); [by injection Ef as <-|]. apply bind_Ok in Ef as (? & _ & Ef).
    destruct (check_execution _ _ _) as [? [?|]]; by injection Ef as <-. }
  destruct (constrained_attempt_cases _ _ _ _ _ _ Ef) as [[E H0f]|(p & ctx & allowed & outcome & Ep & Ec & Hne & Ek & Eo)].
  { assert (Hz : dval (quantity f) == 0) by (destruct H0f as [H0f|H0f]; [subst f; by apply raw_attempt_unpriced|done]).
    rewrite (settle_nothing _ _ _ Es Hz). apply Q.le_max_r. }
  destruct (Hx p ctx Ep Ec) as (X1 & X2 & X3 & X4).
  pose proof (check_execution_spec _ _ _ _ _ X1 Ek) as [_ Hsafe Hnone Hfull _ _].
  assert (Hq : dval (quantity f) == dval allowed).
  { destruct outcome as [o|]; subst f; [reflexivity|]. symmetry. by apply Hfull. }
  rewrite <- Hi in *. rewrite (settled_measure _ _ _ _ _ _ Ec Ep Es Hw X2 X3 X4), (measure_before _ _ _ _ _ Ec), Hq.
  apply no_breach, Hsafe, Hc.
Qed.

(** ** A step *)

Lemma execute_due_cases R e self used trade self' used' trade' :
  execute_due R e (self, used) trade = Ok (self', used', trade') ->
  (self' = self /\ used' = used)
  \/ exists bar bars f late, trade_bars trade = bar :: bars /\ bar_end bar = e
     /\ constrained_attempt R (ledger self) trade bar (default amount_zero (btree_get (source_record_id bar) used)) = Ok f
     /\ settle (ledger self) f = Ok (ledger self')
     /\ fills self' = fills self ++ f :: late /\ Forall (fun g => execution_bar g = None /\ quantity g = amount_zero) late
     /\ used' = btree_insert (source_record_id bar)
          (amount_plus (default amount_zero (btree_get (source_record_id bar) used)) (amount_abs (quantity f))) used.
Proof.
  unfold execute_due. destruct (trade_bars trade) as [|bar bars]; [intros [= <- <- _]; by left|].
  destruct (negb _ || _) eqn:Ec; [intros [= <- <- _]; by left|]. cbv zeta. intros E.
  apply bind_Ok in E as (f & Ef & E). apply bind_Ok in E as (l & El%map_err_Ok & E). right.
  apply orb_false_iff in Ec as [Ee%negb_false_iff%bool_decide_eq_true _].
  exists bar, bars, f. destruct (is_carried f && bool_decide (bars = [])); injection E as <- <- _; cbn [ledger fills push_fill with_ledger].
  - eexists [_]. split; [done|]. split; [done|]. split; [done|]. split; [done|].
    split; [by rewrite <- (assoc_L (++))|]. split; [by apply Forall_singleton|done].
  - exists []. by repeat split.
Qed.

(** What every attempt of a step satisfies, whatever the book it meets. *)
Fixpoint all_due (ok : Replay * BTreeMap string ReplayAmount -> PendingTrade -> Prop) (R : ReplayRules) (e : DateTime)
    (st : Replay * BTreeMap string ReplayAmount) (trades : list PendingTrade) : Prop :=
  match trades with
  | [] => True
  | trade :: trades =>
      ok st trade /\ forall st' trade', execute_due R e st trade = Ok (st', trade') -> all_due ok R e st' trades
  end.

(** The executed face per bar, and the moves of one instrument. *)
Definition executed_in_bar (record : string) (fs : list SimulatedFill) : Q :=
  qsum ((fun f => if bool_decide (execution_bar f = Some record) then Qabs (dval (quantity f)) else 0) <$> fs).
Definition moved (bond : VersionRef) (fs : list SimulatedFill) : Q :=
  qsum ((fun f => if bool_decide (fill_instrument f = bond) then dval (quantity f) else 0) <$> fs).

Lemma qsum_app (l m : list Q) : qsum (l ++ m) == qsum l + qsum m.
Proof. induction l as [|q l IH]; cbn [app]; [cbn; ring|]. rewrite !qsum_cons, IH. ring. Qed.

Lemma executed_in_bar_late record fs late :
  Forall (fun g => execution_bar g = None /\ quantity g = amount_zero) late ->
  executed_in_bar record (fs ++ late) == executed_in_bar record fs.
Proof.
  intros Hl. unfold executed_in_bar. rewrite fmap_app, qsum_app.
  assert (E : qsum ((fun f => if bool_decide (execution_bar f = Some record) then Qabs (dval (quantity f)) else 0) <$> late) == 0).
  { induction Hl as [|g late [E _] _ IH]; [reflexivity|]. rewrite fmap_cons, qsum_cons, IH, E, bool_decide_false by done. ring. }
  rewrite E. ring.
Qed.

Lemma moved_late bond fs late :
  Forall (fun g => execution_bar g = None /\ quantity g = amount_zero) late -> moved bond (fs ++ late) == moved bond fs.
Proof.
  intros Hl. unfold moved. rewrite fmap_app, qsum_app.
  assert (E : qsum ((fun f => if bool_decide (fill_instrument f = bond) then dval (quantity f) else 0) <$> late) == 0).
  { induction Hl as [|g late [_ E] _ IH]; [reflexivity|]. rewrite fmap_cons, qsum_cons, IH, E.
    destruct (bool_decide _); [rewrite (dval_zero : dval amount_zero == 0)|]; ring. }
  rewrite E. ring.
Qed.

(** The capacity of a bar is computed exactly, and so is what is left of it. *)
Definition cap_exact (R : ReplayRules) (st : Replay * BTreeMap string ReplayAmount) (trade : PendingTrade) : Prop :=
  forall bar bars f, trade_bars trade = bar :: bars ->
  let used := default amount_zero (btree_get (source_record_id bar) st.2) in
  limit_exact bar used (rules R)
  /\ (constrained_attempt R (ledger st.1) trade bar used = Ok f -> fits (dval used + Qabs (dval (quantity f)))).

(** The capacity of a bar for all attempts together. *)
Definition bar_cap (R : ReplayRules) (bar : Bar) : Q :=
  Qmax (dval (amount_of (volume bar)) * dval (participation_cap (rules R))) 0.

(** [used] holds what the step has executed in every bar, within its capacity. *)
Definition used_ok (R : ReplayRules) (bars : list Bar) (used : BTreeMap string ReplayAmount) (fs : list SimulatedFill) : Prop :=
  (forall record, dval (default amount_zero (btree_get record used)) == executed_in_bar record fs)
  /\ forall bar, bar ∈ bars -> executed_in_bar (source_record_id bar) fs <= bar_cap R bar.

Lemma capacity_left R bar used x :
  dval used <= bar_cap R bar -> Qabs x <= capacity bar used (rules R) -> 0 <= dval used -> dval used + Qabs x <= bar_cap R bar.
Proof.
  intros Hu Hx H0u. unfold capacity, bar_cap in *.
  destruct (Q.max_spec (dval (amount_of (volume bar)) * dval (participation_cap (rules R))) 0) as [[L1 E1]|[L1 E1]];
  destruct (Q.max_spec (dval (amount_of (volume bar)) * dval (participation_cap (rules R)) - dval used) 0) as [[L2 E2]|[L2 E2]];
  rewrite E2 in Hx; rewrite E1 in Hu |- *; lra.
Qed.

Lemma executed_in_bar_nonneg record fs : 0 <= executed_in_bar record fs.
Proof.
  unfold executed_in_bar. induction fs as [|f fs IH]; [cbn; lra|]. rewrite fmap_cons, qsum_cons.
  pose proof (Qabs_nonneg (dval (quantity f))). destruct (bool_decide _); lra.
Qed.

Lemma execute_due_cap R e bars self used trade self' used' trade' new :
  (forall b b', b ∈ bars -> b' ∈ bars -> source_record_id b = source_record_id b' -> b = b') ->
  (forall b, b ∈ trade_bars trade -> b ∈ bars) ->
  execute_due R e (self, used) trade = Ok (self', used', trade') -> cap_exact R (self, used) trade ->
  used_ok R bars used new ->
  exists added, fills self' = fills self ++ added /\ used_ok R bars used' (new ++ added).
Proof.
  intros Huniq Hin E Hx [Hu Hc]. destruct (execute_due_cases _ _ _ _ _ _ _ _ E)
    as [[-> ->]|(bar & rest & f & late & Eb & _ & Ef & _ & Efs & Hl & ->)].
  { exists []. rewrite !app_nil_r. by split. }
  exists (f :: late). split; [done|]. destruct (Hx bar rest f Eb) as [X1 X2]. cbn [fst snd] in X1, X2. specialize (X2 Ef).
  set (before := default amount_zero (btree_get (source_record_id bar) used)) in *.
  destruct (attempt_shape _ _ _ _ _ _ Ef) as (_ & _ & _ & Er & _).
  assert (Hq : Qabs (dval (quantity f)) <= capacity bar before (rules R)).
  { destruct (attempt_quantity (trade_decision_time trade) (trade_instrument trade) (remaining trade) bar before (rules R)
      (replay_price_source R) X1) as [_ Ha]. pose proof (toward_abs _ _ (constrained_quantity _ _ _ _ _ _ Ef)) as Ht.
    unfold raw_attempt in Ht. rewrite Ha in Ht. destruct (priced_in bar).
    - eapply Qle_trans; [exact Ht|]. apply Q.le_min_r.
    - eapply Qle_trans; [exact Ht|]. apply capacity_nonneg. }
  assert (Enew : forall record, executed_in_bar record (new ++ f :: late)
    == executed_in_bar record new + (if bool_decide (source_record_id bar = record) then Qabs (dval (quantity f)) else 0)).
  { intros record. change (f :: late) with ([f] ++ late). rewrite (assoc_L (++)), executed_in_bar_late by done.
    unfold executed_in_bar. rewrite fmap_app, qsum_app. cbn [fmap list_fmap]. rewrite qsum_cons, Er.
    rewrite (bool_decide_ext (Some (source_record_id bar) = Some record) (source_record_id bar = record)) by naive_solver.
    cbn. ring. }
  assert (Eused : dval (amount_plus before (amount_abs (quantity f))) == dval before + Qabs (dval (quantity f))).
  { unfold amount_plus, amount_abs. rewrite dval_from_decimal, dval_add; rewrite dval_abs; [reflexivity|exact X2]. }
  split.
  - intros record. rewrite Enew. destruct (decide (record = source_record_id bar)) as [->|Hne].
    + rewrite btree_get_insert_eq, bool_decide_true by done. cbn [default from_option id]. rewrite Eused.
      unfold before. rewrite Hu. reflexivity.
    + rewrite btree_get_insert_ne, bool_decide_false by congruence. rewrite Hu. ring.
  - intros b Hb. rewrite Enew. case_bool_decide as Hrec; [|specialize (Hc b Hb); lra].
    assert (Hbar : bar ∈ bars) by (apply Hin; rewrite Eb; left). assert (b = bar) as -> by (apply Huniq; congruence).
    rewrite <- Hu. fold before. apply capacity_left; [unfold before; rewrite Hu; by apply Hc|done|].
    unfold before. rewrite Hu. apply executed_in_bar_nonneg.
Qed.

Lemma execute_all_cap R e bars st trades self' used' trades' new :
  (forall b b', b ∈ bars -> b' ∈ bars -> source_record_id b = source_record_id b' -> b = b') ->
  Forall (fun trade => forall b, b ∈ trade_bars trade -> b ∈ bars) trades ->
  execute_all R e st trades = Ok (self', used', trades') -> all_due (cap_exact R) R e st trades ->
  used_ok R bars st.2 new ->
  exists added, fills self' = fills st.1 ++ added /\ used_ok R bars used' (new ++ added).
Proof.
  intros Huniq. revert st trades' new. induction trades as [|trade trades IH]; intros [self used] trades' new Hin E Hx Hu.
  { injection E as <- <- <-. exists []. rewrite !app_nil_r. by split. }
  cbn [execute_all] in E. apply bind_Ok in E as ([[self1 used1] trade1] & E1 & E).
  apply bind_Ok in E as ([[self2 used2] trades2] & E2 & E). injection E as <- <- <-. destruct Hx as [X1 X].
  apply Forall_cons in Hin as [Hin1 Hin].
  destruct (execute_due_cap _ _ _ _ _ _ _ _ _ _ Huniq Hin1 E1 X1 Hu) as (added1 & Ef1 & Hu1).
  destruct (IH _ _ _ Hin E2 (X _ _ E1) Hu1) as (added2 & Ef2 & Hu2). cbn [fst] in *.
  exists (added1 ++ added2). rewrite Ef2, Ef1, !(assoc_L (++)). split; [done|exact Hu2].
Qed.

(** *** Positions *)

Lemma settle_moves l f l' bond :
  settle l f = Ok l' -> fits (dval (book_position (ledger_book l) (fill_instrument f)) + dval (quantity f)) ->
  dval (book_position (ledger_book l') bond)
  == dval (book_position (ledger_book l) bond) + (if bool_decide (fill_instrument f = bond) then dval (quantity f) else 0).
Proof.
  intros E Hf. destruct (Qeq_dec (dval (quantity f)) 0) as [Ez|Ez].
  { rewrite (settle_nothing _ _ _ E Ez). destruct (bool_decide _); rewrite ?Ez; ring. }
  unfold settle in E. apply bind_Ok in E as (o & _ & E). unfold amount_is_zero in E.
  destruct (decimal_is_zero _) eqn:Ed; [by apply decimal_is_zero_spec in Ed|].
  apply bind_Ok in E as ([l1 o1] & E1 & [= <-]). destruct (execute_shape _ _ _ _ _ E1) as (p & a & _ & _ & Eb & _).
  cbn [ledger_book with_open] in *. rewrite Eb. case_bool_decide as Hi.
  - subst bond. rewrite book_position_add by exact Hf. reflexivity.
  - rewrite book_position_add_ne, Qplus_0_r by done. reflexivity.
Qed.

Lemma roll_date_positions l date start parts l' parts' funding :
  roll_date l date start parts = Ok (l', parts', funding) -> positions (ledger_book l') = positions (ledger_book l).
Proof.
  unfold roll_date. destruct (ledger_date l) as [previous|]; [|by intros [= <- _ _]].
  case_bool_decide; [by intros [= <- _ _]|]. intros E. apply bind_Ok in E as ([l1 p1] & E1 & [= <- _ _]).
  apply (try_fold_inv (fun st => positions (ledger_book st.1) = positions (ledger_book l))) in E1; [done|done|].
  intros [l2 p2] [i f] [l3 p3] _ Hl E2. unfold roll_position in E2. apply bind_Ok in E2 as (? & _ & E2).
  apply bind_Ok in E2 as (? & _ & E2). apply bind_Ok in E2 as (? & _ & [= <- _]). exact Hl.
Qed.

Lemma open_step_positions l bars l' : open_step l bars = Ok l' -> positions (ledger_book l') = positions (ledger_book l).
Proof.
  unfold open_step. intros E. apply bind_Ok in E as (first & _ & E). destruct (_ || _); [discriminate E|].
  apply bind_Ok in E as ([[l1 p1] funding] & Er & E). cbv zeta in E. apply bind_Ok in E as (p2 & _ & [= <-]).
  exact (roll_date_positions _ _ _ _ _ _ _ Er).
Qed.

(** The position that an attempt moves is computed exactly. *)
Definition position_exact (R : ReplayRules) (st : Replay * BTreeMap string ReplayAmount) (trade : PendingTrade) : Prop :=
  forall bar bars f, trade_bars trade = bar :: bars ->
  constrained_attempt R (ledger st.1) trade bar (default amount_zero (btree_get (source_record_id bar) st.2)) = Ok f ->
  fits (dval (book_position (ledger_book (ledger st.1)) (fill_instrument f)) + dval (quantity f)).

Lemma execute_due_moves R e self used trade self' used' trade' bond :
  execute_due R e (self, used) trade = Ok (self', used', trade') -> position_exact R (self, used) trade ->
  exists added, fills self' = fills self ++ added
    /\ dval (book_position (ledger_book (ledger self')) bond)
       == dval (book_position (ledger_book (ledger self)) bond) + moved bond added.
Proof.
  intros E Hx. destruct (execute_due_cases _ _ _ _ _ _ _ _ E) as [[-> _]|(bar & rest & f & late & Eb & _ & Ef & Es & Efs & Hl & _)].
  { exists []. rewrite app_nil_r. split; [done|]. unfold moved. cbn. ring. }
  exists (f :: late). split; [done|]. rewrite (settle_moves _ _ _ _ Es (Hx bar rest f Eb Ef)).
  change (f :: late) with ([f] ++ late). rewrite moved_late by done. unfold moved. cbn [fmap list_fmap]. rewrite qsum_cons. cbn. ring.
Qed.

Lemma execute_all_moves R e st trades self' used' trades' bond :
  execute_all R e st trades = Ok (self', used', trades') -> all_due (position_exact R) R e st trades ->
  exists added, fills self' = fills st.1 ++ added
    /\ dval (book_position (ledger_book (ledger self')) bond)
       == dval (book_position (ledger_book (ledger st.1)) bond) + moved bond added.
Proof.
  revert st trades'. induction trades as [|trade trades IH]; intros [self used] trades' E Hx.
  { injection E as <- <- <-. exists []. rewrite app_nil_r. split; [done|]. unfold moved. cbn. ring. }
  cbn [execute_all] in E. apply bind_Ok in E as ([[self1 used1] trade1] & E1 & E).
  apply bind_Ok in E as ([[self2 used2] trades2] & E2 & E). injection E as <- <- <-. destruct Hx as [X1 X].
  destruct (execute_due_moves _ _ _ _ _ _ _ _ bond E1 X1) as (added1 & Ef1 & Hm1).
  destruct (IH _ _ E2 (X _ _ E1)) as (added2 & Ef2 & Hm2). cbn [fst] in *.
  exists (added1 ++ added2). rewrite Ef2, Ef1, (assoc_L (++)). split; [done|].
  rewrite Hm2, Hm1. unfold moved. rewrite fmap_app, qsum_app. ring.
Qed.

(** The executions of a step are computed exactly. *)
Definition step_amounts_exact (R : ReplayRules) (self : Replay) (step : DateTime * list Bar) : Prop :=
  forall opened, open_step (ledger self) step.2 = Ok opened ->
  all_due (cap_exact R) R step.1 (with_ledger self opened, []) (pending self)
  /\ all_due (position_exact R) R step.1 (with_ledger self opened, []) (pending self).

Lemma run_step_spec R covered times self step self' :
  (forall b b', b ∈ covered -> b' ∈ covered -> source_record_id b = source_record_id b' -> b = b') ->
  Forall (trade_ok covered times) (pending self) ->
  run_step R self step = Ok self' -> step_amounts_exact R self step ->
  exists added, fills self' = fills self ++ added
  /\ (forall bar, bar ∈ covered -> executed_in_bar (source_record_id bar) added <= bar_cap R bar)
  /\ forall bond, dval (book_position (ledger_book (ledger self')) bond)
                  == dval (book_position (ledger_book (ledger self)) bond) + moved bond added.
Proof.
  intros Huniq Hp E Hx. unfold run_step in E. apply bind_Ok in E as (opened & Eo%map_err_Ok & E).
  apply bind_Ok in E as ([[self1 used1] trades] & Ee & E). apply bind_Ok in E as (l & El%map_err_Ok & [= <-]).
  destruct (Hx opened Eo) as [X1 X2]. cbn [fills ledger].
  assert (Hin : Forall (fun trade => forall b, b ∈ trade_bars trade -> b ∈ covered) (pending self)).
  { eapply Forall_impl; [exact Hp|]. intros t [_ Ht] b Hb. by apply Ht. }
  destruct (execute_all_cap _ _ _ _ _ _ _ _ [] Huniq Hin Ee X1) as (added & Ef & _ & Hcap).
  { split; [intros record; cbn; exact dval_zero|]. intros bar _. unfold executed_in_bar, bar_cap. cbn. apply Q.le_max_r. }
  exists added. cbn [fst fills with_ledger] in Ef. split; [done|]. split; [done|]. intros bond.
  destruct (execute_all_moves _ _ _ _ _ _ _ bond Ee X2) as (added' & Ef' & Hm). cbn [fst fills ledger with_ledger] in Ef', Hm.
  assert (added' = added) as -> by (apply (app_inv_head (fills self)); congruence).
  destruct (finish_step_shape _ _ El) as (_ & _ & _ & _ & _ & Eb). rewrite Eb, Hm.
  unfold book_position. by rewrite (open_step_positions _ _ _ Eo).
Qed.

(** ** The claims *)

(** C16. Settlement respects the constraints: after an attempt has been checked and settled, what each
    enforced constraint measures on the book of the ledger (the face of the instrument, the face of
    the portfolio, the borrowed cash after price, accrued interest and costs) exceeds neither its
    ceiling nor what it was before. The amounts of the attempt are exact. *)
Theorem settlement_respects_constraints R l trade bar used f l' c :
  constrained_attempt R l trade bar used = Ok f -> settle l f = Ok l' -> wf_book (ledger_book l) ->
  attempt_exact R l trade bar used f -> c ∈ enforced R ->
  book_measure (ledger_book l') (trade_instrument trade) (constraint_measure c)
  <= Qmax (dval (constraint_ceiling c)) (book_measure (ledger_book l) (trade_instrument trade) (constraint_measure c)).
Proof. apply attempt_respects_constraints. Qed.

(** C20. A step executes within the market: all attempts that meet in one bar together execute no more
    than the participation cap of its volume, and every position moves by exactly what the step
    executed in its instrument. Record ids identify bars, and the amounts of the step are exact. *)
Theorem step_within_market R covered times self step self' :
  (forall b b', b ∈ covered -> b' ∈ covered -> source_record_id b = source_record_id b' -> b = b') ->
  Forall (trade_ok covered times) (pending self) ->
  run_step R self step = Ok self' -> step_amounts_exact R self step ->
  exists added, fills self' = fills self ++ added
  /\ (forall bar, bar ∈ covered -> executed_in_bar (source_record_id bar) added <= bar_cap R bar)
  /\ forall bond, dval (book_position (ledger_book (ledger self')) bond)
                  == dval (book_position (ledger_book (ledger self)) bond) + moved bond added.
Proof. apply run_step_spec. Qed.
End facts.

(** ** Witnesses *)

Section example.
Local Existing Instance sample_rust_decimal.
Local Existing Instance sample_arith.
Local Existing Instance sample_carry.
Local Existing Instance sample_days.

(** A purchase of fifteen million meets a face limit of ten million. *)
Definition limited_rules : ReplayRules := {|
  enforced := [sample_limit InstrumentFace 10000000 Reduce];
  rules := {| participation_cap := (5, 1%nat) : Decimal; remainder_handling := Cancel |};
  replay_price_source := Exposure.RealTrade
|}.
Definition market : Bar := sample_bar "A" "r1" 5 1025.
Definition limited_trade : PendingTrade := {|
  trade_decision_time := {| timestamp := 0; timestamp_subsec_nanos := 0 |}; trade_instrument := sample_bond "A";
  intent := (15000000, 0%nat) : Decimal; remaining := (15000000, 0%nat) : Decimal; trade_bars := [market]
|}.
Definition opened_ledger : ReplayLedger := ok_of sample_ledger (open_step sample_ledger [market]).
Definition limited_fill : SimulatedFill :=
  ok_of (sample_fill "r1" 5 0) (constrained_attempt limited_rules opened_ledger limited_trade market amount_zero).

Example limited_to_ten_million : quantity limited_fill = (10000000, 0%nat).
Proof. vm_compute. reflexivity. Qed.

Lemma opened_ledger_wf : @wf_book sample_rust_decimal (ledger_book opened_ledger).
Proof.
  assert (E : positions (ledger_book opened_ledger) = []) by (vm_compute; reflexivity).
  split; rewrite E; constructor.
Qed.

Definition limited_context : ExecutionContext :=
  ok_of (sample_context (sample_book [] 0) 0) (execution_context opened_ledger (sample_bond "A") (101, 0%nat)).

Lemma limited_exact_toward :
  exact_toward (enforced limited_rules) limited_context (quantity (raw_attempt limited_rules limited_trade market amount_zero)).
Proof.
  assert (Hq : (dval (quantity (raw_attempt limited_rules limited_trade market amount_zero)) == inject_Z 15000000)%Q)
    by (vm_compute; reflexivity).
  assert (Hp : (position_q limited_context == 0)%Q) by (vm_compute; reflexivity).
  intros f Ht Hg c [->|[]%not_elem_of_nil]%elem_of_cons. cbn [sample_limit constraint_measure measure_exact].
  assert (Hf : fits (dval f)).
  { apply fits_on_grid.
    - destruct Hg as [Hg|E]; [done|]. rewrite E, Hq. apply on_grid_Z.
    - apply toward_abs in Ht. rewrite Hq in Ht. eapply Qle_trans; [exact Ht|]. vm_compute. discriminate. }
  split.
  - eapply fits_proper; [|exact Hf]. rewrite Hp. ring.
  - eapply fits_proper; [|apply (fits_on_grid 0); [apply (on_grid_Z 0)|vm_compute; discriminate]].
    rewrite Hp, (@dval_zero _ _ sample_arith_laws). ring.
Qed.

Ltac fits_now := first [exact I | apply fitsb_sound; vm_compute; reflexivity
                       | let F := fresh in intros F; vm_compute in F; discriminate F].

Lemma limited_exact : attempt_exact limited_rules opened_ledger limited_trade market amount_zero limited_fill.
Proof.
  intros p ctx Ep Ec. apply (default_eq ZERO_DECIMAL) in Ep.
  assert (p = ((101, 0%nat) : Decimal)) as -> by (rewrite Ep; vm_compute; reflexivity). clear Ep.
  apply (ok_of_eq (sample_context (sample_book [] 0) 0)) in Ec. subst ctx. split; [exact limited_exact_toward|].
  split; [|split].
  - intros o p a Ho Hp Ha. apply (default_eq no_step) in Ho. apply (default_eq ZERO_DECIMAL) in Hp, Ha. subst o p a.
    cbv zeta. repeat split; fits_now.
  - intros o a Ho Ha. apply (default_eq ZERO_DECIMAL) in Ha. apply (default_eq no_step) in Ho. subst a o.
    repeat split; fits_now.
  - cbn [ledger_costs opened_ledger]. destruct (ledger_costs opened_ledger) as [|rate fee] eqn:Ec; [exact I|].
    change (ledger_costs opened_ledger) with (ledger_costs sample_ledger) in Ec. injection Ec as <- <-.
    repeat split; fits_now.
Qed.

Lemma settlement_respects_constraints_witness :
  exists l', settle opened_ledger limited_fill = Ok l'
    /\ (book_measure (ledger_book l') (sample_bond "A") InstrumentFace
        <= Qmax (dval (constraint_ceiling (sample_limit InstrumentFace 10000000 Reduce)))
             (book_measure (ledger_book opened_ledger) (sample_bond "A") InstrumentFace))%Q.
Proof.
  assert (E : settle opened_ledger limited_fill = Ok (ok_of sample_ledger (settle opened_ledger limited_fill)))
    by (apply ok_intro; vm_compute; reflexivity).
  eexists. split; [exact E|].
  apply (@settlement_respects_constraints sample_rust_decimal sample_arith sample_arith_laws sample_carry
    limited_rules opened_ledger limited_trade market amount_zero limited_fill _ (sample_limit InstrumentFace 10000000 Reduce)).
  - apply ok_intro. vm_compute. reflexivity.
  - exact E.
  - exact opened_ledger_wf.
  - exact limited_exact.
  - left.
Defined.

(** The same trade in a whole step. *)
Definition limited_replay : Replay :=
  {| ledger := sample_ledger; steps := [(bar_end market, [market])]; pending := [limited_trade]; fills := [] |}.

Lemma limited_step_exact : step_amounts_exact limited_rules limited_replay (bar_end market, [market]).
Proof.
  intros opened E. apply (ok_of_eq sample_ledger) in E. subst opened. split; (split; [|by intros]).
  - intros bar bars f [= <- <-]. cbv zeta. split; [repeat split; fits_now|]. intros Ef.
    apply (ok_of_eq (sample_fill "r1" 5 0)) in Ef. subst f. fits_now.
  - intros bar bars f [= <- <-] Ef. apply (ok_of_eq (sample_fill "r1" 5 0)) in Ef. subst f. fits_now.
Qed.

Lemma step_within_market_witness :
  exists self' added, run_step limited_rules limited_replay (bar_end market, [market]) = Ok self'
    /\ fills self' = added
    /\ (forall bar, bar ∈ [market] -> executed_in_bar (source_record_id bar) added <= bar_cap limited_rules bar)%Q
    /\ (dval (book_position (ledger_book (ledger self')) (sample_bond "A")) == 0 + moved (sample_bond "A") added)%Q.
Proof.
  assert (E : run_step limited_rules limited_replay (bar_end market, [market])
              = Ok (ok_of limited_replay (run_step limited_rules limited_replay (bar_end market, [market]))))
    by (apply ok_intro; vm_compute; reflexivity).
  destruct (@step_within_market sample_rust_decimal sample_arith sample_arith_laws sample_carry sample_days
    limited_rules [market] (fun _ => True) limited_replay (bar_end market, [market])
    (ok_of limited_replay (run_step limited_rules limited_replay (bar_end market, [market])))) as (added & Ef & Hc & Hm).
  - by intros b b' [->|[]%not_elem_of_nil]%elem_of_cons [->|[]%not_elem_of_nil]%elem_of_cons _.
  - apply Forall_singleton. split; [done|]. intros bar [->|[]%not_elem_of_nil]%elem_of_cons. by repeat split; [left|..].
  - exact E.
  - exact limited_step_exact.
  - eexists _, added. split; [exact E|]. split; [exact Ef|]. split; [exact Hc|].
    etransitivity; [exact (Hm (sample_bond "A"))|]. apply Qplus_comp; [vm_compute; reflexivity|reflexivity].
Defined.
End example.
