(* ===== verification/PolicyCalibration.v ===== *)
(** * Policy calibration over a grid

    [crates/ficant-application/src/use_cases/policy_calibration.rs]: every candidate of the grid replays
    over the training and the validation window, and the policy of the best candidate is returned with
    its record. *)

From Stdlib Require Import ZArith Lia QArith Strings.String Strings.Byte.
From stdpp Require Import base list option strings numbers sorting sets.
From S2P Require Import Prelude Machine Collections Primitives Codec Concrete Exposure DecimalValue Amount Bar Book Execution Subject Constraints Ledger Calibration Policy SimulationResult AppErrors BarReplay.
Open Scope Z_scope.

Section calibrate.
Context `{DecimalArith} `{!BondCarry} `{ChronoDays} `{Sha256} `{Chrono}.

Record CalibrationRequest := {
  base_replay : BarReplayRequest;
  calibration_grid : ParameterGrid;
  training_window : EffectivePeriod;
  validation_window : EffectivePeriod;
  calibration_objective : string;
  output_id : Ulid;
  output_valid : EffectivePeriod
}.

(** The base policy with other parameters, validity and record. *)
Definition derived_input (input : PolicyArtifactInput) (id : Ulid) (parameters : BTreeMap string ReplayAmount)
    (window : EffectivePeriod) (record : option CalibrationRecord) : PolicyArtifactInput := {|
  policy_artifact_id := id; policy_owner := policy_owner input; family := family input;
  family_version := family_version input; parameters := parameters; universe := universe input;
  policy_frequency := policy_frequency input; policy_settlement := policy_settlement input; valid := window;
  execution := execution input; policy_constraints := policy_constraints input; calibration := record
|}.

Definition with_policy (request : BarReplayRequest) (policy : PolicyArtifact) : BarReplayRequest := {|
  request_policy := policy; evaluator := evaluator request; data := data request; subject := subject request;
  request_subject_state := request_subject_state request; constraint_set := constraint_set request;
  request_funding := request_funding request; cost_model := cost_model request;
  cost_parameters := cost_parameters request; seed := seed request; code := code request; runtime := runtime request
|}.

(** The equity at the end of the window, starting flat. *)
Definition objective_value (objective : CalibrationObjective) (result : SimulationResult) : ReplayAmount :=
  match objective with TotalPnl => from_option row_equity amount_zero (last (result_pnl result)) end.

(** Replays one candidate over one window from a flat book. *)
Definition replay_window (request : CalibrationRequest) (parameters : BTreeMap string ReplayAmount)
    (window : EffectivePeriod) (objective : CalibrationObjective) : AppResult WindowResult :=
  let input := policy_input (request_policy (base_replay request)) in
  policy ← or_invalid (policy_artifact_new (derived_input input (policy_artifact_id input) parameters window None));
  result ← replay_bars (with_policy (base_replay request) policy);
  Ok {| window_result_id := result_id result; window_objective := objective_value objective result |}.

Definition replay_candidate (request : CalibrationRequest) (objective : CalibrationObjective)
    (parameters : BTreeMap string ReplayAmount) : AppResult CandidateResult :=
  training ← replay_window request parameters (training_window request) objective;
  validation ← replay_window request parameters (validation_window request) objective;
  Ok {| candidate_parameters := parameters; candidate_training := training; candidate_validation := validation |}.

Definition calibrate_policy (request : CalibrationRequest) : AppResult PolicyArtifact :=
  _ ← or_invalid (check_windows (training_window request) (validation_window request));
  objective ← ok_or (objective_from_code (calibration_objective request)) invalid;
  let base := request_policy (base_replay request) in
  candidates ← try_map (replay_candidate request objective)
                 (grid_candidates (calibration_grid request) (parameters (policy_input base)));
  selected ← ok_or (best_training_candidate candidates) invalid;
  best ← ok_or (candidates !! selected) invalid;
  record ← or_invalid (calibration_record_new {|
    base_policy := policy_hash base; training := training_window request; validation := validation_window request;
    objective := objective; grid := calibration_grid request; candidates := candidates; selected := selected |});
  or_invalid (policy_artifact_new (derived_input (policy_input base) (output_id request) (candidate_parameters best)
                (output_valid request) (Some record))).
End calibrate.

Section facts.
Context `{DecimalArithLaws} `{!BondCarry} `{ChronoDays} `{Sha256} `{Chrono}.

(** A window of a candidate is a successful replay of the base policy with its parameters. *)
Definition window_replayed (request : CalibrationRequest) (parameters : BTreeMap string ReplayAmount)
    (window : EffectivePeriod) (objective : CalibrationObjective) (w : WindowResult) : Prop :=
  exists policy result,
    let input := policy_input (request_policy (base_replay request)) in
    policy_artifact_new (derived_input input (policy_artifact_id input) parameters window None) = Ok policy
    /\ replay_bars (with_policy (base_replay request) policy) = Ok result
    /\ window_result_id w = result_id result /\ window_objective w = objective_value objective result.

Lemma replay_window_Ok request params window objective w :
  replay_window request params window objective = Ok w -> window_replayed request params window objective w.
Proof.
  unfold replay_window. cbv zeta. intros E. apply bind_Ok in E as (policy & Ep%map_err_Ok & E).
  apply bind_Ok in E as (result & Er & [= <-]). by exists policy, result.
Qed.

(** [selected] is in range, so indexing the candidates does not panic. *)
Lemma best_candidate_exists cs i : best_training_candidate cs = Some i -> is_Some (cs !! i).
Proof. rewrite best_training_spec. intros (c & Hc & _). by exists c. Qed.

(** C19. Calibration returns the policy that did best in training: when it succeeds, every candidate of the
    grid was replayed over both windows with success, in the order of the grid; the selected candidate is the
    first with the highest training objective (none does better, and every candidate before it does strictly
    worse), whatever the validation results are; the record has this choice with all candidates, the windows, the
    objective and the hash of the base policy; and the result keeps everything of the base policy but
    its identity, validity, parameters and record. *)
Theorem calibrate_policy_selects request artifact :
  calibrate_policy request = Ok artifact ->
  let base := request_policy (base_replay request) in
  exists objective candidates i best,
    objective_from_code (calibration_objective request) = Some objective
    /\ Forall2 (fun params c => candidate_parameters c = params
                  /\ window_replayed request params (training_window request) objective (candidate_training c)
                  /\ window_replayed request params (validation_window request) objective (candidate_validation c))
         (grid_candidates (calibration_grid request) (parameters (policy_input base))) candidates
    /\ candidates !! i = Some best
    /\ (forall j c, candidates !! j = Some c ->
        (training_value c <= training_value best)%Q /\ ((j < i)%nat -> (training_value c < training_value best)%Q))
    /\ let record := {| base_policy := policy_hash base; training := training_window request;
                        validation := validation_window request; objective := objective;
                        grid := calibration_grid request; candidates := candidates; selected := i |} in
       policy_input artifact
       = with_universe (derived_input (policy_input base) (output_id request) (candidate_parameters best)
                          (output_valid request) (Some record))
           (dedup (sort (universe (policy_input base))))
    /\ policy_hash artifact = digest (policy_bytes (policy_input artifact)).
Proof.
  unfold calibrate_policy. intros E. apply bind_Ok in E as (? & _ & E).
  apply bind_Ok in E as (objective & Eo%ok_or_Ok & E). cbv zeta in *. apply bind_Ok in E as (cs & Ec & E).
  apply bind_Ok in E as (i & Ei%ok_or_Ok & E). apply bind_Ok in E as (best & Eb%ok_or_Ok & E).
  apply bind_Ok in E as (record & Er%map_err_Ok & E). apply map_err_Ok in E.
  exists objective, cs, i, best. split; [done|]. split; [|split; [done|split]].
  - apply try_map_Ok in Ec. eapply Forall2_impl; [exact Ec|]. intros params c Hc. unfold replay_candidate in Hc.
    apply bind_Ok in Hc as (w1 & W1%replay_window_Ok & Hc). apply bind_Ok in Hc as (w2 & W2%replay_window_Ok & [= <-]).
    by repeat split.
  - apply best_training_spec in Ei as (b & Hb & Hbest). assert (b = best) as -> by congruence. exact Hbest.
  - unfold calibration_record_new in Er. apply bind_Ok in Er as (? & _ & Er). destruct (negb _); [discriminate Er|].
    injection Er as <-. unfold policy_artifact_new in E. cbv zeta in E. destruct (_ || _); [discriminate E|].
    destruct (calibration_mismatch _); [discriminate E|]. injection E as <-. by split.
Qed.
End facts.

(** ** A witness *)

Section example.
Local Existing Instance sample_rust_decimal.
Local Existing Instance sample_arith.
Local Existing Instance sample_carry.
Local Existing Instance sample_days.
Local Existing Instance sample_sha256.
Local Existing Instance sample_chrono.

Definition sample_window (from to : Z) : EffectivePeriod := {| ep_from := market_instant from; ep_to := market_instant to |}.

Definition sample_calibration : CalibrationRequest := {|
  base_replay := sample_request
    [market_bar "r5" 5 195 100000000 5; market_bar "r6" 6 150 100000000 6; market_bar "r7" 7 195 100000000 7;
     market_bar "r8" 8 150 100000000 8];
  calibration_grid := {| axes := [("target_face"%string, [(5000000, 0%nat) : Decimal; (10000000, 0%nat)])] |};
  training_window := sample_window 5 8; validation_window := sample_window 8 9;
  calibration_objective := "ficant.objective.total-pnl"; output_id := sample_id "Q"; output_valid := sample_window 9 30
|}.

Definition no_policy : PolicyArtifact := {| policy_input := sample_policy_input; policy_hash := sample_hash x00 |}.

(** Holding the bond earns more than its funding costs, so the larger position does better. *)
Lemma calibrate_policy_selects_witness :
  exists artifact, calibrate_policy sample_calibration = Ok artifact
    /\ policy_parameter artifact "target_face" = Some (10000000, 0%nat)
    /\ policy_hash artifact = digest (policy_bytes (policy_input artifact)).
Proof.
  assert (E : calibrate_policy sample_calibration = Ok (ok_of no_policy (calibrate_policy sample_calibration)))
    by (apply ok_intro; vm_compute; reflexivity).
  eexists. split; [exact E|]. split; [vm_compute; reflexivity|].
  destruct (@calibrate_policy_selects sample_rust_decimal sample_arith sample_arith_laws sample_carry sample_days
    sample_sha256 sample_chrono _ _ E) as (? & ? & ? & ? & _ & _ & _ & _ & _ & Eh).
  exact Eh.
Defined.
End example.
