(* ===== verification/DataHealth.v ===== *)
(** * Data health

    [crates/ficant-domain/src/research/data_health.rs]: threshold profiles, the issues of a position
    snapshot and of the prices behind it, and the report that collects them.

    Durations are whole numbers of nanoseconds; the functions of the time library that make and compare
    them are a parameter. One of them stops the program on an argument that is out of its range, so the
    results of this file have that outcome besides the domain errors. *)

From Stdlib Require Import ZArith Lia Strings.String.
From Stdlib Require Import Strings.Byte.
From stdpp Require Import base list option strings numbers sorting sets.
From S2P Require Import Prelude Machine Collections Primitives FixedDecimal Codec Concrete Exposure Digits DecimalValue Position Coverage.
Open Scope Z_scope.

Inductive Failure :=
| Refused (code : DomainErrorCode)
| Panicked.

Definition HealthResult : Type -> Type := Result Failure.
Definition refuse {A} (m : DomainResult A) : HealthResult A := map_err Refused m.

(** ** The time library *)

(** [chrono::TimeDelta]: differences of instants, [TimeDelta::seconds] (which panics, [None], when the
    duration is out of bounds) and [num_seconds]. *)
Class ChronoDelta : Type := {
  signed_duration_since : DateTime -> DateTime -> Z;
  time_delta_seconds : Z -> option Z;
  num_seconds : Z -> Z
}.

Definition nanos_of (t : DateTime) : Z := timestamp t * 1000000000 + timestamp_subsec_nanos t.

(** Outside of leap seconds. *)
Definition plain_time (t : DateTime) : Prop := 0 <= timestamp_subsec_nanos t < 1000000000.

(** The greatest number of seconds of a duration: [i64::MAX / 1000]. *)
Definition MAX_DELTA_SECONDS : Z := 9223372036854775.

Class ChronoDeltaLaws `{ChronoDelta} : Prop := {
  duration_nanos t u : plain_time t -> plain_time u -> signed_duration_since t u = nanos_of t - nanos_of u;
  seconds_in_bounds s : Z.abs s <= MAX_DELTA_SECONDS -> time_delta_seconds s = Some (s * 1000000000);
  seconds_out_of_bounds s : MAX_DELTA_SECONDS < Z.abs s -> time_delta_seconds s = None;
  num_seconds_truncates d : num_seconds d = Z.quot d 1000000000
}.

(** ** Threshold profiles *)

Definition BASIS_POINTS_DENOMINATOR : Z := 10000.

Record DataHealthThresholdProfile := {
  profile_snapshot_id : Ulid;
  profile_owner : OwnerRef;
  profile_ref : VersionRef;
  profile_visible_at : MarketTime;
  effective_from : MarketTime;
  effective_to : MarketTime;
  max_position_snapshot_age_seconds : Z;
  unknown_accounting_warning_basis_points : Z;
  max_data_snapshot_age_seconds : Z;
  model_valuation_warning_basis_points : Z;
  profile_hash : ContentHash;
  profile_lineage : list LineageRef
}.

(** [DataHealthThresholdProfileInput] has the fields of the profile. *)
Definition DataHealthThresholdProfileInput : Type := DataHealthThresholdProfile.

Definition optional_fields {A} (fields : A -> list (list byte)) (value : option A) : list (list byte) :=
  match value with Some value => [byte_of_Z 1] :: fields value | None => [[byte_of_Z 0]] end.
Definition id_fields (id : Ulid) : list (list byte) := [as_bytes (ulid_str id)].
Definition hash_fields (hash : ContentHash) : list (list byte) := [hash_bytes hash].

Definition lineage_fields (reference : LineageRef) : list (list byte) :=
  id_fields (object_id reference)
  ++ optional_fields (fun version => [to_be_bytes 8 (version_get version)]) (lr_version reference)
  ++ optional_fields hash_fields (lr_content_hash reference).

Section health.
Context `{Chrono} `{Sha256} `{ChronoDelta}.

Definition profile_canonical_bytes (input : DataHealthThresholdProfileInput) : list byte :=
  framed ([as_bytes "ficant.research.data-health-threshold-profile.v1"; as_bytes (ulid_str (profile_snapshot_id input))]
    ++ owner_fields (profile_owner input) ++ version_ref_fields (profile_ref input)
    ++ market_time_fields (profile_visible_at input) ++ market_time_fields (effective_from input)
    ++ market_time_fields (effective_to input)
    ++ [to_be_bytes 8 (max_position_snapshot_age_seconds input);
        to_be_bytes 4 (unknown_accounting_warning_basis_points input);
        to_be_bytes 8 (max_data_snapshot_age_seconds input);
        to_be_bytes 4 (model_valuation_warning_basis_points input)]
    ++ flat_map lineage_fields (profile_lineage input)).

Definition basis_points_in_range (z : Z) : bool := (1 <=? z) && (z <=? 10000).

Definition threshold_profile_new (input : DataHealthThresholdProfileInput) : DomainResult DataHealthThresholdProfile :=
  if negb (basis_points_in_range (unknown_accounting_warning_basis_points input))
     || negb (basis_points_in_range (model_valuation_warning_basis_points input))
     || geb (instant (effective_from input)) (instant (effective_to input))
     || geb (instant (profile_visible_at input)) (instant (effective_to input))
  then Err InvalidValue
  else if negb (bool_decide (digest (profile_canonical_bytes input) = profile_hash input))
  then Err ContentHashMismatch
  else Ok input.

(** ** Issues *)

Inductive DataHealthState := Healthy | Warning.
Inductive PositionSetState := NonEmpty | VerifiedEmpty.

Inductive DataHealthIssueCode :=
| EmptyPositions
| UnknownAccountingClassification
| StalePositionSnapshot
| UntypedPriceSource
| ModelValuationShare
| StaleDataSnapshot.

(** The codes of the bytes are also the order the compiler derives. *)
Definition issue_code (value : DataHealthIssueCode) : Z :=
  match value with
  | EmptyPositions => 1
  | UnknownAccountingClassification => 2
  | StalePositionSnapshot => 3
  | UntypedPriceSource => 4
  | ModelValuationShare => 5
  | StaleDataSnapshot => 6
  end.

Record DataHealthIssue := {
  code : DataHealthIssueCode;
  affected_position_ids : list Ulid;
  data_source_ref : option VersionRef;
  record_count : Z;
  ratio_basis_points : Z;
  observed_age_seconds : Z
}.

(** What may accompany each code; the rule says when an issue is refused. *)
Definition issue_malformed (i : DataHealthIssue) : bool :=
  let no_ids := bool_decide (affected_position_ids i = []) in
  let no_source := negb (bool_decide (is_Some (data_source_ref i))) in
  let no_records := record_count i =? 0 in
  let no_ratio := ratio_basis_points i =? 0 in
  let no_age := observed_age_seconds i =? 0 in
  match code i with
  | EmptyPositions => negb no_ids || negb no_source || negb no_records || negb no_ratio || negb no_age
  | UnknownAccountingClassification =>
      no_ids || negb no_source || negb (record_count i =? Z.of_nat (List.length (affected_position_ids i)))
      || no_ratio || negb no_age
  | StalePositionSnapshot => negb no_ids || negb no_source || negb no_records || negb no_ratio || no_age
  | UntypedPriceSource => negb no_ids || no_source || no_records || negb no_ratio || negb no_age
  | ModelValuationShare => negb no_ids || no_source || no_records || no_ratio || negb no_age
  | StaleDataSnapshot => negb no_ids || no_source || negb no_records || negb no_ratio || no_age
  end.

Definition data_health_issue_new (issue : DataHealthIssue) : DomainResult DataHealthIssue :=
  if windows2_any geb (affected_position_ids issue) then Err InvalidValue
  else if issue_malformed issue then Err InvalidValue
  else Ok issue.
(** [compare_issues]. *)
Definition issue_key (i : DataHealthIssue) : Z * (list Ulid * option VersionRef) :=
  (issue_code (code i), (affected_position_ids i, data_source_ref i)).

(** ** Ratios and ages *)

(** Counts are [usize], which always fit [u64]. *)
Definition ratio_reaches_threshold (count total threshold : Z) : DomainResult bool :=
  if total =? 0 then Err InvalidValue else
  left ← ok_or (checked in_u64 (count * BASIS_POINTS_DENOMINATOR)) InvalidValue;
  right ← ok_or (checked in_u64 (total * threshold)) InvalidValue;
  Ok (right <=? left).

(** The division panics on a zero total. *)
Definition ratio_in_basis_points (count total : Z) : HealthResult Z :=
  product ← refuse (ok_or (checked in_u64 (count * BASIS_POINTS_DENOMINATOR)) InvalidValue);
  if total =? 0 then Err Panicked else
  refuse (ok_or (checked in_u32 (product / total)) InvalidValue).

Record ElapsedAge := { duration : Z; display_seconds : Z }.

(** [TimeDelta::seconds], with its panic. *)
Definition seconds (s : Z) : HealthResult Z := ok_or (time_delta_seconds s) Panicked.

Definition exceeds (self : ElapsedAge) (threshold_seconds : Z) : HealthResult bool :=
  if in_i64 threshold_seconds
  then limit ← seconds threshold_seconds; Ok (limit <? duration self)
  else Ok false.

Definition elapsed_age (earlier later : MarketTime) : HealthResult ElapsedAge :=
  let duration := signed_duration_since (instant later) (instant earlier) in
  if duration <? 0 then Err (Refused InvalidEffectiveTime) else
  let floor_seconds := num_seconds duration in
  floor_duration ← seconds floor_seconds;
  display_seconds ← refuse (ok_or
    (value ← checked in_i64 (floor_seconds + (if floor_duration <? duration then 1 else 0)); checked in_u64 value)
    InvalidEffectiveTime);
  Ok {| duration := duration; display_seconds := display_seconds |}.

(** ** Positions *)

Record PositionHealthEvaluation := {
  evaluation_snapshot_hash : ContentHash;
  evaluation_time : MarketTime;
  evaluation_profile_ref : VersionRef;
  evaluation_profile_hash : ContentHash;
  evaluation_set_state : PositionSetState;
  evaluation_issues : list DataHealthIssue;
  evaluation_coverage : CoverageDeclaration
}.

Definition is_unknown (position : Position) : bool :=
  bool_decide (classification_state (accounting_classification position) = Unknown).

Definition unknown_ids (snapshot : PositionSnapshot) : list Ulid :=
  position_id <$> List.filter is_unknown (positions snapshot).

(** The issue of unclassified positions, if they are many enough. *)
Definition unknown_issues (snapshot : PositionSnapshot) (profile : DataHealthThresholdProfile)
    : HealthResult (list DataHealthIssue) :=
  let count := Z.of_nat (List.length (unknown_ids snapshot)) in
  let total := Z.of_nat (List.length (positions snapshot)) in
  if bool_decide (unknown_ids snapshot = []) then Ok [] else
  reached ← refuse (ratio_reaches_threshold count total (unknown_accounting_warning_basis_points profile));
  if negb reached then Ok [] else
  ratio ← ratio_in_basis_points count total;
  issue ← refuse (data_health_issue_new {|
    code := UnknownAccountingClassification; affected_position_ids := unknown_ids snapshot; data_source_ref := None;
    record_count := count; ratio_basis_points := ratio; observed_age_seconds := 0 |});
  Ok [issue].

Definition empty_issue : DataHealthIssue := {|
  code := EmptyPositions; affected_position_ids := []; data_source_ref := None; record_count := 0;
  ratio_basis_points := 0; observed_age_seconds := 0
|}.

(** The issue of an age beyond its threshold; stale positions have no source, stale prices have one. *)
Definition stale_issues (stale_code : DataHealthIssueCode) (source : option VersionRef) (age : ElapsedAge) (threshold : Z)
    : HealthResult (list DataHealthIssue) :=
  stale ← exceeds age threshold;
  if negb stale then Ok [] else
  issue ← refuse (data_health_issue_new {|
    code := stale_code; affected_position_ids := []; data_source_ref := source; record_count := 0;
    ratio_basis_points := 0; observed_age_seconds := display_seconds age |});
  Ok [issue].

Definition evaluate_position_snapshot `{RustDecimal} (snapshot : PositionSnapshot) (profile : DataHealthThresholdProfile)
    (evaluated_at : MarketTime) : HealthResult PositionHealthEvaluation :=
  if negb (bool_decide (digest (canonical_payload snapshot) = snapshot_hash snapshot))
  then Err (Refused ContentHashMismatch) else
  if ltb (instant evaluated_at) (instant (visible_at snapshot)) || ltb (instant evaluated_at) (instant (observed_at snapshot))
  then Err (Refused InvalidEffectiveTime) else
  '(issues, state, coverage) ←
    (if bool_decide (positions snapshot = []) then
       issue ← refuse (data_health_issue_new empty_issue);
       Ok ([issue], VerifiedEmpty, for_verified_empty {| empty_snapshot_hash := snapshot_hash snapshot |})
     else
       issues ← unknown_issues snapshot profile;
       coverage ← refuse (for_complete_positions (positions snapshot) (position_id <$> positions snapshot) None 0);
       Ok (issues, NonEmpty, coverage));
  age ← elapsed_age (observed_at snapshot) evaluated_at;
  stale ← stale_issues StalePositionSnapshot None age (max_position_snapshot_age_seconds profile);
  Ok {| evaluation_snapshot_hash := snapshot_hash snapshot; evaluation_time := evaluated_at;
        evaluation_profile_ref := profile_ref profile; evaluation_profile_hash := profile_hash profile;
        evaluation_set_state := state; evaluation_issues := sort_by_key issue_key (issues ++ stale);
        evaluation_coverage := coverage |}.

(** ** Prices *)

Record DataHealthPriceEvidence := {
  data_snapshot_id : Ulid;
  evidence_owner : OwnerRef;
  data_snapshot_content_hash : ContentHash;
  data_snapshot_manifest_hash : ContentHash;
  evidence_source_ref : VersionRef;
  evidence_source_type : option PriceSourceType;
  evidence_record_count : Z;
  evidence_visible_at : MarketTime;
  as_of : MarketTime;
  evidence_lineage : list LineageRef
}.

Definition price_evidence_new (input : DataHealthPriceEvidence) : DomainResult DataHealthPriceEvidence :=
  if (evidence_record_count input =? 0) || bool_decide (evidence_lineage input = []) then Err InvalidValue
  else if ltb (instant (evidence_visible_at input)) (instant (as_of input)) then Err InvalidEffectiveTime
  else Ok input.

Definition untyped_issues (evidence : DataHealthPriceEvidence) : HealthResult (list DataHealthIssue) :=
  if negb (bool_decide (evidence_source_type evidence = None)) then Ok [] else
  issue ← refuse (data_health_issue_new {|
    code := UntypedPriceSource; affected_position_ids := []; data_source_ref := Some (evidence_source_ref evidence);
    record_count := evidence_record_count evidence; ratio_basis_points := 0; observed_age_seconds := 0 |});
  Ok [issue].

(** One snapshot has one source, so the share of its records is the whole. *)
Definition model_issues (evidence : DataHealthPriceEvidence) (profile : DataHealthThresholdProfile)
    : HealthResult (list DataHealthIssue) :=
  if negb (bool_decide (evidence_source_type evidence = Some ModelValuation)) then Ok [] else
  reached ← refuse (ratio_reaches_threshold (evidence_record_count evidence) (evidence_record_count evidence)
                      (model_valuation_warning_basis_points profile));
  if negb reached then Ok [] else
  issue ← refuse (data_health_issue_new {|
    code := ModelValuationShare; affected_position_ids := []; data_source_ref := Some (evidence_source_ref evidence);
    record_count := evidence_record_count evidence; ratio_basis_points := 10000; observed_age_seconds := 0 |});
  Ok [issue].

Definition price_evidence_issues (evidence : option DataHealthPriceEvidence) (snapshot_owner : OwnerRef)
    (evaluated_at : MarketTime) (profile : DataHealthThresholdProfile) : HealthResult (list DataHealthIssue) :=
  match evidence with
  | None => Ok []
  | Some evidence =>
      if negb (bool_decide (evidence_owner evidence = snapshot_owner)) then Err (Refused InvalidValue) else
      if ltb (instant evaluated_at) (instant (evidence_visible_at evidence)) then Err (Refused InvalidEffectiveTime) else
      age ← elapsed_age (as_of evidence) evaluated_at;
      untyped ← untyped_issues evidence;
      model ← model_issues evidence profile;
      stale ← stale_issues StaleDataSnapshot (Some (evidence_source_ref evidence)) age
                (max_data_snapshot_age_seconds profile);
      Ok (untyped ++ model ++ stale)
  end.

(** ** The report *)

Record DataHealthReport := {
  report_owner : OwnerRef;
  report_subject_ref : VersionRef;
  report_evaluated_at : MarketTime;
  report_snapshot_id : Ulid;
  report_snapshot_hash : ContentHash;
  report_data_snapshot_id : option Ulid;
  report_manifest_hash : option ContentHash;
  report_source_ref : option VersionRef;
  threshold_profile : DataHealthThresholdProfile;
  report_state : DataHealthState;
  issues : list DataHealthIssue;
  price_evidence_evaluated : bool;
  position_set_state : PositionSetState;
  report_coverage : CoverageDeclaration;
  request_fingerprint : ContentHash;
  report_hash : ContentHash;
  report_lineage : list LineageRef
}.

Record DataHealthReportInput := {
  position_snapshot : PositionSnapshot;
  evaluated_at : MarketTime;
  position_evaluation : PositionHealthEvaluation;
  input_threshold_profile : DataHealthThresholdProfile;
  price_evidence : option DataHealthPriceEvidence
}.

Definition health_state_code (value : DataHealthState) : Z := match value with Healthy => 1 | Warning => 2 end.
Definition position_set_state_code (value : PositionSetState) : Z := match value with NonEmpty => 1 | VerifiedEmpty => 2 end.

Definition issue_fields (issue : DataHealthIssue) : list (list byte) :=
  [[byte_of_Z (issue_code (code issue))]] ++ flat_map id_fields (affected_position_ids issue)
  ++ optional_fields version_ref_fields (data_source_ref issue)
  ++ [to_be_bytes 8 (record_count issue); to_be_bytes 4 (ratio_basis_points issue);
      to_be_bytes 8 (observed_age_seconds issue)].

Definition data_health_request_fingerprint (subject : VersionRef) (snapshot : Ulid) (data_snapshot : option Ulid)
    (time : MarketTime) (profile : DataHealthThresholdProfile) : ContentHash :=
  digest (framed ([as_bytes "ficant.operation.data-health-report.v1"] ++ version_ref_fields subject
    ++ id_fields snapshot ++ optional_fields id_fields data_snapshot ++ market_time_fields time
    ++ [profile_canonical_bytes profile; hash_bytes (profile_hash profile)])).

Definition report_fields (self : DataHealthReport) : list (list byte) :=
  [as_bytes "ficant.research.data-health-report.v1"]
  ++ owner_fields (report_owner self) ++ version_ref_fields (report_subject_ref self)
  ++ market_time_fields (report_evaluated_at self)
  ++ id_fields (report_snapshot_id self) ++ hash_fields (report_snapshot_hash self)
  ++ optional_fields id_fields (report_data_snapshot_id self)
  ++ optional_fields hash_fields (report_manifest_hash self)
  ++ optional_fields version_ref_fields (report_source_ref self)
  ++ [profile_canonical_bytes (threshold_profile self); [byte_of_Z (health_state_code (report_state self))]]
  ++ flat_map issue_fields (issues self)
  ++ [[byte_of_Z (if price_evidence_evaluated self then 1 else 0)];
      [byte_of_Z (position_set_state_code (position_set_state self))];
      coverage_canonical_bytes (report_coverage self)]
  ++ hash_fields (request_fingerprint self)
  ++ flat_map lineage_fields (report_lineage self).

Definition report_canonical_bytes (self : DataHealthReport) : list byte := framed (report_fields self).

Definition validate_position_pair (self : DataHealthReport) : DomainResult unit :=
  let coverage := report_coverage self in
  match position_set_state self with
  | VerifiedEmpty =>
      fail_if (negb (imported_position_count coverage =? 0) || negb (participating_position_count coverage =? 0)
               || negb (bool_decide (imported_gross_economic_value_by_unit coverage = []))
               || negb (bool_decide (participating_gross_economic_value_by_unit coverage = []))) InvalidValue
  | NonEmpty =>
      fail_if ((imported_position_count coverage =? 0) || (participating_position_count coverage =? 0)) InvalidValue
  end.

(** Every input object of a report: sorted, without repetitions. *)
Definition merged_lineage (input : DataHealthReportInput) (reference : LineageRef) : list LineageRef :=
  let snapshot := position_snapshot input in
  let profile := input_threshold_profile input in
  let collected :=
    snapshot_lineage snapshot ++ [lineage_content_addressed (snapshot_id snapshot) (snapshot_hash snapshot)]
    ++ match price_evidence input with
       | Some evidence => evidence_lineage evidence
                          ++ [lineage_content_addressed (data_snapshot_id evidence) (data_snapshot_content_hash evidence)]
       | None => []
       end
    ++ profile_lineage profile ++ [lineage_content_addressed (profile_snapshot_id profile) (profile_hash profile)] in
  dedup (sort (if bool_decide (reference ∈ collected) then collected else collected ++ [reference])).

(** The evaluation is the one of this snapshot, time and profile. *)
Definition evaluation_matches (input : DataHealthReportInput) : bool :=
  let evaluation := position_evaluation input in
  bool_decide (evaluation_snapshot_hash evaluation = snapshot_hash (position_snapshot input))
  && bool_decide (evaluation_time evaluation = evaluated_at input)
  && bool_decide (evaluation_profile_ref evaluation = profile_ref (input_threshold_profile input))
  && bool_decide (evaluation_profile_hash evaluation = profile_hash (input_threshold_profile input)).

(** The report before its hash is known, and with it. *)
Definition pending_report (input : DataHealthReportInput) (issues : list DataHealthIssue) (lineage : list LineageRef)
    (hash : ContentHash) : DataHealthReport :=
  let snapshot := position_snapshot input in
  let evaluation := position_evaluation input in
  let data_snapshot := data_snapshot_id <$> price_evidence input in {|
    report_owner := snapshot_owner snapshot; report_subject_ref := subject_ref snapshot;
    report_evaluated_at := evaluated_at input; report_snapshot_id := snapshot_id snapshot;
    report_snapshot_hash := evaluation_snapshot_hash evaluation; report_data_snapshot_id := data_snapshot;
    report_manifest_hash := data_snapshot_manifest_hash <$> price_evidence input;
    report_source_ref := evidence_source_ref <$> price_evidence input;
    threshold_profile := input_threshold_profile input;
    report_state := if bool_decide (issues = []) then Healthy else Warning;
    issues := issues; price_evidence_evaluated := bool_decide (is_Some (price_evidence input));
    position_set_state := evaluation_set_state evaluation; report_coverage := evaluation_coverage evaluation;
    request_fingerprint := data_health_request_fingerprint (subject_ref snapshot) (snapshot_id snapshot) data_snapshot
                             (evaluated_at input) (input_threshold_profile input);
    report_hash := hash; report_lineage := lineage
  |}.

Definition data_health_report_new (input : DataHealthReportInput) : HealthResult DataHealthReport :=
  if bool_decide (snapshot_lineage (position_snapshot input) = []) then Err (Refused BrokenLineage) else
  if negb (evaluation_matches input) then Err (Refused ContentHashMismatch) else
  prices ← price_evidence_issues (price_evidence input) (snapshot_owner (position_snapshot input))
             (evaluated_at input) (input_threshold_profile input);
  let issues := sort_by_key issue_key (evaluation_issues (position_evaluation input) ++ prices) in
  let profile := input_threshold_profile input in
  reference ← refuse (lineage_new (vr_id (profile_ref profile)) (Some (vr_version (profile_ref profile)))
                        (Some (profile_hash profile)));
  let pending := pending_report input issues (merged_lineage input reference) in
  let report := pending (digest (as_bytes "pending")) in
  _ ← refuse (validate_position_pair report);
  Ok (pending (digest (report_canonical_bytes report))).
End health.

(** ** Ages *)

Section ages.
Context `{ChronoDeltaLaws}.

(** The age in nanoseconds, and in seconds rounded up. *)
Definition age_nanos (earlier later : MarketTime) : Z := nanos_of (instant later) - nanos_of (instant earlier).
Definition age_seconds (nanos : Z) : Z := - (- nanos / 1000000000).

Record age_measurable (earlier later : MarketTime) : Prop := {
  plain_earlier : plain_time (instant earlier);
  plain_later : plain_time (instant later);
  age_in_bounds : 0 <= age_nanos earlier later <= MAX_DELTA_SECONDS * 1000000000
}.

Lemma seconds_shown z :
  0 <= z <= MAX_DELTA_SECONDS + 1 -> (value ← checked in_i64 z; checked in_u64 value) = Some z.
Proof.
  intros Hz. unfold checked. replace (in_i64 z) with true by (symmetry; ranges; unfold MAX_DELTA_SECONDS in *; lia). cbn.
  by replace (in_u64 z) with true by (symmetry; ranges; unfold MAX_DELTA_SECONDS in *; lia).
Qed.

Lemma elapsed_age_Ok earlier later :
  age_measurable earlier later ->
  elapsed_age earlier later
  = Ok {| duration := age_nanos earlier later; display_seconds := age_seconds (age_nanos earlier later) |}.
Proof.
  intros [Pe Pl Hb]. unfold elapsed_age. rewrite duration_nanos by done. fold (age_nanos earlier later).
  set (d := age_nanos earlier later) in *. cbv zeta. destruct (Z.ltb_spec d 0); [lia|].
  rewrite num_seconds_truncates, Z.quot_div_nonneg by lia. unfold MAX_DELTA_SECONDS in Hb.
  pose proof (Z.div_mod d 1000000000 ltac:(lia)). pose proof (Z.mod_pos_bound d 1000000000 ltac:(lia)).
  unfold seconds. rewrite seconds_in_bounds by (unfold MAX_DELTA_SECONDS; lia). cbn [ok_or mbind Result_bind].
  assert (E : d / 1000000000 + (if d / 1000000000 * 1000000000 <? d then 1 else 0) = age_seconds d).
  { unfold age_seconds. destruct (Z.ltb_spec (d / 1000000000 * 1000000000) d).
    - rewrite Z.div_opp_l_nz by lia. lia.
    - rewrite Z.div_opp_l_z by lia. lia. }
  rewrite E, seconds_shown; [done|]. rewrite <- E. case_match; unfold MAX_DELTA_SECONDS; lia.
Qed.

(** Thresholds that [TimeDelta::seconds] refuses although they fit [i64]. *)
Definition threshold_panics (threshold : Z) : bool := (MAX_DELTA_SECONDS <? threshold) && in_i64 threshold.

Lemma exceeds_Ok age threshold :
  0 <= threshold -> duration age <= MAX_DELTA_SECONDS * 1000000000 ->
  exceeds age threshold
  = if threshold_panics threshold then Err Panicked else Ok (threshold * 1000000000 <? duration age).
Proof.
  intros Ht Hd. unfold exceeds, threshold_panics, seconds. destruct (in_i64 threshold) eqn:Ei.
  - rewrite andb_true_r. destruct (Z.ltb_spec MAX_DELTA_SECONDS threshold).
    + rewrite seconds_out_of_bounds by lia. done.
    + rewrite seconds_in_bounds by lia. done.
  - rewrite andb_false_r. f_equal. symmetry. apply Z.ltb_ge. unfold MAX_DELTA_SECONDS in *.
    ranges. lia.
Qed.

Lemma issue_new_Ok i : data_health_issue_new i = Ok i <-> windows2_any geb (affected_position_ids i) = false /\ issue_malformed i = false.
Proof. unfold data_health_issue_new. destruct (windows2_any _ _), (issue_malformed i); naive_solver. Qed.

Definition stale_issue (stale_code : DataHealthIssueCode) (source : option VersionRef) (nanos : Z) : DataHealthIssue := {|
  code := stale_code; affected_position_ids := []; data_source_ref := source; record_count := 0;
  ratio_basis_points := 0; observed_age_seconds := age_seconds nanos
|}.

(** Ages compare exactly, although the issue shows seconds: any excess is at least one second shown. *)
Lemma stale_issues_Ok stale_code source nanos threshold :
  (stale_code = StalePositionSnapshot /\ source = None \/ stale_code = StaleDataSnapshot /\ is_Some source) ->
  0 <= threshold -> nanos <= MAX_DELTA_SECONDS * 1000000000 ->
  stale_issues stale_code source {| duration := nanos; display_seconds := age_seconds nanos |} threshold
  = if threshold_panics threshold then Err Panicked
    else Ok (if threshold * 1000000000 <? nanos then [stale_issue stale_code source nanos] else []).
Proof.
  intros Hc Ht Hn. unfold stale_issues. rewrite exceeds_Ok by done. destruct (threshold_panics threshold); [done|].
  cbn [mbind Result_bind duration display_seconds]. destruct (Z.ltb_spec (threshold * 1000000000) nanos) as [Hlt|]; [|done].
  cbn [negb]. fold (stale_issue stale_code source nanos).
  assert (Ha : observed_age_seconds (stale_issue stale_code source nanos) =? 0 = false).
  { apply Z.eqb_neq. cbn. unfold age_seconds. intros E.
    pose proof (Z.div_mod (- nanos) 1000000000 ltac:(lia)). pose proof (Z.mod_pos_bound (- nanos) 1000000000 ltac:(lia)). lia. }
  rewrite (proj2 (issue_new_Ok _)); [done|]. split; [done|]. unfold issue_malformed. rewrite Ha.
  destruct Hc as [[-> ->]|[-> [v ->]]]; done.
Qed.
End ages.

(** ** The issues of positions *)

Section positions.
Context `{Chrono} `{Sha256} `{ChronoDeltaLaws}.

Definition unknown_count (snapshot : PositionSnapshot) : Z := Z.of_nat (List.length (unknown_ids snapshot)).
Definition position_count (snapshot : PositionSnapshot) : Z := Z.of_nat (List.length (positions snapshot)).

Definition unknown_issue (snapshot : PositionSnapshot) : DataHealthIssue := {|
  code := UnknownAccountingClassification; affected_position_ids := unknown_ids snapshot; data_source_ref := None;
  record_count := unknown_count snapshot; ratio_basis_points := unknown_count snapshot * 10000 / position_count snapshot;
  observed_age_seconds := 0
|}.

(** Some positions are unclassified, and their share is at least the threshold. *)
Definition unknown_reported (snapshot : PositionSnapshot) (profile : DataHealthThresholdProfile) : bool :=
  (0 <? unknown_count snapshot)
  && (position_count snapshot * unknown_accounting_warning_basis_points profile <=? unknown_count snapshot * 10000).

Lemma unknown_count_le snapshot : 0 <= unknown_count snapshot <= position_count snapshot.
Proof.
  unfold unknown_count, position_count, unknown_ids. rewrite length_fmap.
  pose proof (filter_length_le is_unknown (positions snapshot)). lia.
Qed.

(** Identifiers in order, counts whose products with the denominator fit [u64], thresholds in range. *)
Record measurable (snapshot : PositionSnapshot) (profile : DataHealthThresholdProfile) : Prop := {
  ids_ordered : bset_wf (position_id <$> positions snapshot);
  counts_fit : position_count snapshot * 10000 < 2 ^ 64;
  unknown_threshold : 1 <= unknown_accounting_warning_basis_points profile <= 10000;
  position_age_threshold : 0 <= max_position_snapshot_age_seconds profile
}.

Lemma filtered_ordered f (ps : list Position) :
  bset_wf (position_id <$> ps) -> bset_wf (position_id <$> List.filter f ps).
Proof.
  unfold bset_wf. induction ps as [|p ps IH]; [done|]. rewrite fmap_cons. intros [Hs Hall]%StronglySorted_inv. cbn [List.filter].
  destruct (f p); [|by apply IH]. rewrite fmap_cons. constructor; [by apply IH|].
  rewrite list.Forall_forall in Hall |- *. intros i (q & -> & Hq)%list_elem_of_fmap. apply Hall.
  apply list_elem_of_fmap. exists q. split; [done|]. apply list_elem_of_In, filter_In in Hq as [Hq _].
  by apply list_elem_of_In.
Qed.

Lemma unknown_issues_Ok snapshot profile :
  measurable snapshot profile ->
  unknown_issues snapshot profile = Ok (if unknown_reported snapshot profile then [unknown_issue snapshot] else []).
Proof.
  intros [Ho Hc Ht _]. unfold unknown_issues, unknown_reported. fold (unknown_count snapshot) (position_count snapshot).
  pose proof (unknown_count_le snapshot) as Hle. case_bool_decide as E.
  { unfold unknown_count. by rewrite E. }
  assert (Hpos : 0 < unknown_count snapshot).
  { unfold unknown_count. destruct (unknown_ids snapshot); [done|cbn; lia]. }
  unfold ratio_reaches_threshold, ratio_in_basis_points, BASIS_POINTS_DENOMINATOR.
  destruct (Z.eqb_spec (position_count snapshot) 0) as [|Hne]; [lia|]. set (n := position_count snapshot) in *.
  set (u := unknown_count snapshot) in *. set (t := unknown_accounting_warning_basis_points profile) in *.
  assert (Hu : 0 <= u * 10000 <= n * 10000) by nia. assert (Hn : 0 <= n * t <= n * 10000) by nia.
  unfold checked. replace (in_u64 (u * 10000)) with true by (symmetry; ranges; lia).
  replace (in_u64 (n * t)) with true by (symmetry; ranges; lia). cbn [ok_or mbind Result_bind refuse map_err].
  replace (0 <? u) with true by lia. cbn [andb]. destruct (Z.leb_spec (n * t) (u * 10000)) as [Hr|]; [|done]. cbn [negb].
  assert (Hq : 1 <= u * 10000 / n <= 10000).
  { split; [apply Z.div_le_lower_bound; nia|apply Z.div_le_upper_bound; nia]. }
  replace (in_u32 (u * 10000 / n)) with true by (symmetry; ranges; lia). cbn [ok_or mbind Result_bind refuse map_err].
  fold (unknown_issue snapshot). rewrite (proj2 (issue_new_Ok _)); [done|]. split.
  - apply windows_geb_strict, filtered_ordered, Ho.
  - unfold issue_malformed. cbn. rewrite bool_decide_false by done. rewrite Z.eqb_refl.
    replace (u * 10000 / n =? 0) with false by lia. done.
Qed.
End positions.

(** ** Evaluations *)

Section evaluation.
Context `{RustDecimalLaws} `{Chrono} `{Sha256} `{ChronoDeltaLaws}.

(** What the documentation asks of the issues of positions, in the order of their codes. *)
Definition expected_position_issues (snapshot : PositionSnapshot) (profile : DataHealthThresholdProfile) (age : Z)
    : list DataHealthIssue :=
  (if bool_decide (positions snapshot = []) then [empty_issue]
   else if unknown_reported snapshot profile then [unknown_issue snapshot] else [])
  ++ (if max_position_snapshot_age_seconds profile * 1000000000 <? age
      then [stale_issue StalePositionSnapshot None age] else []).

Lemma expected_in_order snapshot profile age :
  sort_by_key issue_key (expected_position_issues snapshot profile age) = expected_position_issues snapshot profile age.
Proof. unfold expected_position_issues. by repeat case_match. Qed.

(** An accepted snapshot: hashed, with ordered ids and values that can be added up. *)
Record accepted (s : Z) (snapshot : PositionSnapshot) : Prop := {
  accepted_hash : digest (canonical_payload snapshot) = snapshot_hash snapshot;
  accepted_values : gross_fits s (positions snapshot)
}.

Lemma for_all_positions s snapshot profile :
  measurable snapshot profile -> gross_fits s (positions snapshot) -> positions snapshot <> [] ->
  exists coverage, for_complete_positions (positions snapshot) (position_id <$> positions snapshot) None 0 = Ok coverage
    /\ imported_position_count coverage = position_count snapshot
    /\ participating_position_count coverage = position_count snapshot.
Proof.
  intros [Ho Hc _ _] Hf Hne. unfold position_count in *. assert (Hn : NoDup (position_id <$> positions snapshot)) by by apply strict_sorted_NoDup.
  assert (Hids : position_id <$> positions snapshot <> []) by (by destruct (positions snapshot)).
  destruct (aggregate_gross_exact s (positions snapshot) Hne Hf) as (ti & Ei & Ti).
  set (p := participating_of (position_id <$> positions snapshot) (positions snapshot)).
  assert (Hp : p <> []).
  { intros E. destruct (positions snapshot) as [|q ps] eqn:Eps; [done|].
    assert (Hq : q ∈ p) by (apply elem_of_participating; split; [by left|rewrite fmap_cons; by left]). rewrite E in Hq.
    by apply elem_of_nil in Hq. }
  destruct (aggregate_gross_exact s p Hp) as (tp & Ep & Tp); [by apply gross_fits_filter|].
  eexists. split; [apply (for_complete_spec s)|].
  - done.
  - done.
  - lia.
  - split; [done|]. split; [done|]. split; [done|]. split; [done|]. split; [done|]. by exists ti, tp.
  - cbn. by rewrite length_fmap.
Qed.

(** The declaration of an evaluation: empty, or of every position. *)
Definition coverage_of (snapshot : PositionSnapshot) (coverage : CoverageDeclaration) : Prop :=
  if bool_decide (positions snapshot = [])
  then coverage = for_verified_empty {| empty_snapshot_hash := snapshot_hash snapshot |}
  else for_complete_positions (positions snapshot) (position_id <$> positions snapshot) None 0 = Ok coverage
       /\ imported_position_count coverage = position_count snapshot
       /\ participating_position_count coverage = position_count snapshot.

Lemma evaluate_spec s snapshot profile time :
  accepted s snapshot -> measurable snapshot profile -> age_measurable (observed_at snapshot) time ->
  ltb (instant time) (instant (visible_at snapshot)) = false ->
  ltb (instant time) (instant (observed_at snapshot)) = false ->
  if threshold_panics (max_position_snapshot_age_seconds profile)
  then evaluate_position_snapshot snapshot profile time = Err Panicked
  else exists coverage, evaluate_position_snapshot snapshot profile time = Ok {|
    evaluation_snapshot_hash := snapshot_hash snapshot; evaluation_time := time;
    evaluation_profile_ref := profile_ref profile; evaluation_profile_hash := profile_hash profile;
    evaluation_set_state := if bool_decide (positions snapshot = []) then VerifiedEmpty else NonEmpty;
    evaluation_issues := expected_position_issues snapshot profile (age_nanos (observed_at snapshot) time);
    evaluation_coverage := coverage |}
  /\ coverage_of snapshot coverage.
Proof.
  intros [Ha Hf] Hm Hage Hv Ho. unfold evaluate_position_snapshot. rewrite bool_decide_true, Hv, Ho by done. cbn [negb orb].
  rewrite elapsed_age_Ok by done. pose proof (age_in_bounds _ _ Hage) as Hb. pose proof (position_age_threshold _ _ Hm) as Ht.
  pose proof (expected_in_order snapshot profile (age_nanos (observed_at snapshot) time)) as Hsort.
  unfold expected_position_issues in *. case_bool_decide as Ep.
  - cbn [mbind Result_bind refuse map_err data_health_issue_new empty_issue affected_position_ids windows2_any].
    replace (issue_malformed empty_issue) with false by done. cbn [mbind Result_bind refuse map_err].
    rewrite stale_issues_Ok by (auto; lia). destruct (threshold_panics _); [done|]. cbn [mbind Result_bind].
    exists (for_verified_empty {| empty_snapshot_hash := snapshot_hash snapshot |}).
    split; [by rewrite Hsort|]. unfold coverage_of. by rewrite bool_decide_true.
  - destruct (for_all_positions s snapshot profile Hm Hf Ep) as (coverage & Ec & Hi & Hp). rewrite Ec.
    rewrite unknown_issues_Ok by done. cbn [mbind Result_bind refuse map_err].
    rewrite stale_issues_Ok by (auto; lia). destruct (threshold_panics _); [done|]. cbn [mbind Result_bind].
    exists coverage. split; [by rewrite Hsort|]. unfold coverage_of. by rewrite bool_decide_false.
Qed.
End evaluation.

(** ** Reports *)

Section report.
Context `{RustDecimalLaws} `{Chrono} `{Sha256} `{ChronoDeltaLaws}.

Definition untyped_issue (evidence : DataHealthPriceEvidence) : DataHealthIssue := {|
  code := UntypedPriceSource; affected_position_ids := []; data_source_ref := Some (evidence_source_ref evidence);
  record_count := evidence_record_count evidence; ratio_basis_points := 0; observed_age_seconds := 0
|}.

Definition model_issue (evidence : DataHealthPriceEvidence) : DataHealthIssue := {|
  code := ModelValuationShare; affected_position_ids := []; data_source_ref := Some (evidence_source_ref evidence);
  record_count := evidence_record_count evidence; ratio_basis_points := 10000; observed_age_seconds := 0
|}.

Definition expected_price_issues (profile : DataHealthThresholdProfile) (time : MarketTime)
    (evidence : DataHealthPriceEvidence) : list DataHealthIssue :=
  let age := age_nanos (as_of evidence) time in
  (if bool_decide (evidence_source_type evidence = None) then [untyped_issue evidence] else [])
  ++ (if bool_decide (evidence_source_type evidence = Some ModelValuation) then [model_issue evidence] else [])
  ++ (if max_data_snapshot_age_seconds profile * 1000000000 <? age
      then [stale_issue StaleDataSnapshot (Some (evidence_source_ref evidence)) age] else []).

(** Evidence that belongs to the report: of the same owner, visible, with a count whose product with the
    denominator fits [u64]. *)
Record admissible (owner : OwnerRef) (time : MarketTime) (evidence : DataHealthPriceEvidence) : Prop := {
  same_owner : evidence_owner evidence = owner;
  evidence_seen : ltb (instant time) (instant (evidence_visible_at evidence)) = false;
  records_fit : 1 <= evidence_record_count evidence /\ evidence_record_count evidence * 10000 < 2 ^ 64;
  data_age : age_measurable (as_of evidence) time
}.

(** Thresholds of data ages that are not refused. *)
Record usable (profile : DataHealthThresholdProfile) : Prop := {
  model_threshold : 1 <= model_valuation_warning_basis_points profile <= 10000;
  data_age_threshold : 0 <= max_data_snapshot_age_seconds profile;
  data_threshold_bound : threshold_panics (max_data_snapshot_age_seconds profile) = false;
  position_threshold_bound : threshold_panics (max_position_snapshot_age_seconds profile) = false
}.

Lemma untyped_issues_Ok evidence :
  1 <= evidence_record_count evidence ->
  untyped_issues evidence
  = Ok (if bool_decide (evidence_source_type evidence = None) then [untyped_issue evidence] else []).
Proof.
  intros Hr. unfold untyped_issues. case_bool_decide; [|done]. cbn [negb]. fold (untyped_issue evidence).
  rewrite (proj2 (issue_new_Ok _)); [done|]. split; [done|]. unfold issue_malformed. cbn.
  by replace (evidence_record_count evidence =? 0) with false by lia.
Qed.

(** The records of one snapshot have one source, so their share always reaches the threshold. *)
Lemma model_issues_Ok evidence profile :
  1 <= evidence_record_count evidence /\ evidence_record_count evidence * 10000 < 2 ^ 64 ->
  1 <= model_valuation_warning_basis_points profile <= 10000 ->
  model_issues evidence profile
  = Ok (if bool_decide (evidence_source_type evidence = Some ModelValuation) then [model_issue evidence] else []).
Proof.
  intros Hr Ht. unfold model_issues. case_bool_decide; [|done]. cbn [negb].
  unfold ratio_reaches_threshold, BASIS_POINTS_DENOMINATOR, checked.
  set (n := evidence_record_count evidence) in *. set (t := model_valuation_warning_basis_points profile) in *.
  replace (n =? 0) with false by lia. replace (in_u64 (n * 10000)) with true by (symmetry; ranges; lia).
  replace (in_u64 (n * t)) with true by (symmetry; ranges; nia). cbn [ok_or mbind Result_bind refuse map_err].
  replace (n * t <=? n * 10000) with true by nia. cbn [negb].
  assert (E : data_health_issue_new (model_issue evidence) = Ok (model_issue evidence)).
  { apply issue_new_Ok. split; [done|]. unfold issue_malformed. cbn. fold n. by replace (n =? 0) with false by lia. }
  unfold model_issue in E. fold n in E. by rewrite E.
Qed.

Lemma price_evidence_issues_Ok evidence owner time profile :
  (forall e, evidence = Some e -> admissible owner time e) -> usable profile ->
  price_evidence_issues evidence owner time profile
  = Ok (from_option (expected_price_issues profile time) [] evidence).
Proof.
  intros He [Hm Hd Hb _]. destruct evidence as [e|]; [|done]. destruct (He e eq_refl) as [Ho Hs Hr Ha]. cbn.
  rewrite bool_decide_true, Hs by done. cbn [negb]. rewrite elapsed_age_Ok by done. cbn [mbind Result_bind].
  rewrite untyped_issues_Ok by lia. cbn [mbind Result_bind]. rewrite model_issues_Ok by done. cbn [mbind Result_bind].
  pose proof (age_in_bounds _ _ Ha). rewrite stale_issues_Ok by (eauto; lia). by rewrite Hb.
Qed.

Lemma report_in_order snapshot profile age prices time :
  prices = [] \/ (exists evidence, prices = expected_price_issues profile time evidence) ->
  sort_by_key issue_key (expected_position_issues snapshot profile age ++ prices)
  = expected_position_issues snapshot profile age ++ prices.
Proof.
  intros [->|[evidence ->]]; [rewrite app_nil_r; apply expected_in_order|].
  unfold expected_position_issues, expected_price_issues. by repeat case_match.
Qed.

(** The limits of a healthy report, on the inputs. *)
Definition within_limits (snapshot : PositionSnapshot) (profile : DataHealthThresholdProfile) (time : MarketTime)
    (evidence : option DataHealthPriceEvidence) : Prop :=
  positions snapshot <> [] /\ unknown_reported snapshot profile = false
  /\ age_nanos (observed_at snapshot) time <= max_position_snapshot_age_seconds profile * 1000000000
  /\ forall e, evidence = Some e ->
       evidence_source_type e <> None /\ evidence_source_type e <> Some ModelValuation
       /\ age_nanos (as_of e) time <= max_data_snapshot_age_seconds profile * 1000000000.

Lemma no_issues snapshot profile time evidence :
  expected_position_issues snapshot profile (age_nanos (observed_at snapshot) time)
    ++ from_option (expected_price_issues profile time) [] evidence = []
  <-> within_limits snapshot profile time evidence.
Proof.
  unfold within_limits, expected_position_issues.
  assert (Hp : from_option (expected_price_issues profile time) [] evidence = [] <->
    forall e, evidence = Some e ->
       evidence_source_type e <> None /\ evidence_source_type e <> Some ModelValuation
       /\ age_nanos (as_of e) time <= max_data_snapshot_age_seconds profile * 1000000000).
  { destruct evidence as [e|]; cbn; [|done]. unfold expected_price_issues.
    transitivity (evidence_source_type e <> None /\ evidence_source_type e <> Some ModelValuation
       /\ age_nanos (as_of e) time <= max_data_snapshot_age_seconds profile * 1000000000); [|split; [by intros Hx e' [= <-]|by intros Hx; apply Hx]].
    do 2 case_bool_decide; destruct (Z.ltb_spec (max_data_snapshot_age_seconds profile * 1000000000) (age_nanos (as_of e) time));
      cbn; split; try done; try (intros (? & ? & ?)); try done; lia. }
  rewrite <- Hp. case_bool_decide as Ep; [by split; [|intros []]|].
  destruct (unknown_reported snapshot profile); [by split; [|intros (_ & ? & _)]|].
  destruct (Z.ltb_spec (max_position_snapshot_age_seconds profile * 1000000000) (age_nanos (observed_at snapshot) time));
    cbn; [split; [done|lia]|]. split; [by intros E; repeat split|by intros (_ & _ & _ & E)].
Qed.

(** The verdict of a data health report. Evaluating an accepted snapshot and reporting the
    evaluation succeeds for admissible inputs and usable thresholds; the issues of the report are exactly
    those the thresholds ask for, in the order of their codes, with ages compared to the nanosecond; the
    report is healthy exactly when there are positions, the share of unclassified ones is below its
    threshold, the position snapshot and the prices are recent enough, and the prices have a type that is
    not a model valuation; and the content hash is that of the canonical bytes. *)
Theorem data_health_verdict s snapshot profile time evidence :
  snapshot_lineage snapshot <> [] -> accepted s snapshot -> measurable snapshot profile -> usable profile ->
  age_measurable (observed_at snapshot) time ->
  ltb (instant time) (instant (visible_at snapshot)) = false ->
  ltb (instant time) (instant (observed_at snapshot)) = false ->
  (forall e, evidence = Some e -> admissible (snapshot_owner snapshot) time e) ->
  exists evaluation report,
    evaluate_position_snapshot snapshot profile time = Ok evaluation
    /\ data_health_report_new {| position_snapshot := snapshot; evaluated_at := time; position_evaluation := evaluation;
         input_threshold_profile := profile; price_evidence := evidence |} = Ok report
    /\ issues report = expected_position_issues snapshot profile (age_nanos (observed_at snapshot) time)
         ++ from_option (expected_price_issues profile time) [] evidence
    /\ (report_state report = Healthy <-> within_limits snapshot profile time evidence)
    /\ report_hash report = digest (report_canonical_bytes report).
Proof.
  intros Hl Ha Hm Hu Hage Hv Ho He. pose proof (evaluate_spec s snapshot profile time Ha Hm Hage Hv Ho) as Hev.
  rewrite (position_threshold_bound _ Hu) in Hev. destruct Hev as (coverage & -> & Hc).
  eexists. eexists. split; [done|]. unfold data_health_report_new. cbn [position_snapshot position_evaluation price_evidence
    evaluated_at input_threshold_profile evaluation_issues]. rewrite bool_decide_false by done. unfold evaluation_matches.
  cbn [position_evaluation evaluation_snapshot_hash evaluation_time evaluation_profile_ref evaluation_profile_hash
    position_snapshot evaluated_at input_threshold_profile]. rewrite !bool_decide_true by done. cbn [andb negb].
  rewrite price_evidence_issues_Ok by done. cbn [mbind Result_bind refuse map_err lineage_new].
  rewrite (report_in_order _ _ _ _ time) by (destruct evidence; [right; eauto|by left]). set (all := _ ++ _).
  replace (validate_position_pair _) with (Ok (E := DomainErrorCode) tt).
  2:{ unfold validate_position_pair, coverage_of in *. cbn. case_bool_decide as Ep.
      - by rewrite Hc.
      - destruct Hc as (_ & -> & ->). unfold position_count. by destruct (positions snapshot). }
  cbn [mbind Result_bind map_err]. split; [reflexivity|]. split; [done|]. split; [|done].
  cbn. rewrite <- no_issues. fold all. by case_bool_decide.
Qed.
End report.

(** An accepted threshold can stop the program: the constructor takes any age that fits [u64], but
    an age of more than [i64::MAX / 1000] seconds that still fits [i64] makes [TimeDelta::seconds] panic,
    and with it the evaluation of every accepted snapshot. *)
Theorem oversized_threshold_panics `{RustDecimalLaws} `{Chrono} `{Sha256} `{ChronoDeltaLaws} s snapshot profile time :
  accepted s snapshot -> measurable snapshot profile -> age_measurable (observed_at snapshot) time ->
  ltb (instant time) (instant (visible_at snapshot)) = false ->
  ltb (instant time) (instant (observed_at snapshot)) = false ->
  MAX_DELTA_SECONDS < max_position_snapshot_age_seconds profile < 2 ^ 63 ->
  evaluate_position_snapshot snapshot profile time = Err Panicked.
Proof.
  intros Ha Hm Hage Hv Ho Ht. pose proof (evaluate_spec s snapshot profile time Ha Hm Hage Hv Ho) as Hev.
  replace (threshold_panics _) with true in Hev; [done|]. symmetry. unfold threshold_panics. rewrite andb_true_iff.
  split; [lia|]. ranges. unfold MAX_DELTA_SECONDS in Ht. lia.
Qed.

(** ** A report *)

Section example.
Definition sample_delta : ChronoDelta := {|
  signed_duration_since := fun t u => nanos_of t - nanos_of u;
  time_delta_seconds := fun s => if Z.abs s <=? MAX_DELTA_SECONDS then Some (s * 1000000000) else None;
  num_seconds := fun d => Z.quot d 1000000000
|}.

Lemma sample_delta_laws : @ChronoDeltaLaws sample_delta.
Proof.
  split; cbn; try done.
  - intros s Hs. by replace (Z.abs s <=? MAX_DELTA_SECONDS) with true by lia.
  - intros s Hs. by replace (Z.abs s <=? MAX_DELTA_SECONDS) with false by lia.
Qed.

Local Existing Instance sample_delta.
Local Existing Instance sample_delta_laws.
Local Existing Instance sample_decimal.
Local Existing Instance sample_decimal_laws.
Local Existing Instance sample_chrono.
Local Existing Instance sample_sha256.

(** Unclassified positions from one third on, positions of at most ten seconds. *)
Definition sample_profile_with (hash : ContentHash) (age : Z) : DataHealthThresholdProfile := {|
  profile_snapshot_id := sample_id "H"; profile_owner := sample_owner; profile_ref := sample_vref "R";
  profile_visible_at := sample_time 900; effective_from := sample_time 900; effective_to := sample_time 5000;
  max_position_snapshot_age_seconds := age; unknown_accounting_warning_basis_points := 3333;
  max_data_snapshot_age_seconds := 60; model_valuation_warning_basis_points := 5000; profile_hash := hash;
  profile_lineage := [sample_lineage]
|}.

Definition sample_profile (age : Z) : DataHealthThresholdProfile :=
  sample_profile_with (digest (profile_canonical_bytes (sample_profile_with (sample_hash x00) age))) age.

Example sample_profile_accepted :
  is_ok (threshold_profile_new (sample_profile 10)) && is_ok (threshold_profile_new (sample_profile 9223372036854776)) = true.
Proof. vm_compute. reflexivity. Qed.

Lemma sample_accepted : accepted 2 (sample_snapshot sample_positions).
Proof. split; [vm_compute; reflexivity|exact sample_gross_fits]. Qed.

Lemma sample_measurable age : 0 <= age -> measurable (sample_snapshot sample_positions) (sample_profile age).
Proof.
  intros Ha. split; [apply windows_geb_strict; vm_compute; reflexivity|vm_compute; reflexivity|vm_compute; split; discriminate|exact Ha].
Qed.

Lemma sample_age : age_measurable (observed_at (sample_snapshot sample_positions)) (sample_time 1011).
Proof. split; vm_compute; split; try discriminate; reflexivity. Qed.

(** One of three positions is unclassified, and the snapshot is eleven seconds old. *)
Lemma data_health_verdict_witness :
  exists evaluation report,
    evaluate_position_snapshot (sample_snapshot sample_positions) (sample_profile 10) (sample_time 1011) = Ok evaluation
    /\ data_health_report_new {| position_snapshot := sample_snapshot sample_positions; evaluated_at := sample_time 1011;
         position_evaluation := evaluation; input_threshold_profile := sample_profile 10; price_evidence := None |} = Ok report
    /\ code <$> issues report = [UnknownAccountingClassification; StalePositionSnapshot]
    /\ ~ report_state report = Healthy.
Proof.
  destruct (data_health_verdict 2 (sample_snapshot sample_positions) (sample_profile 10) (sample_time 1011) None)
    as (evaluation & report & E & R & I & V & _).
  - discriminate.
  - exact sample_accepted.
  - apply sample_measurable. lia.
  - split; [cbn; lia|cbn; lia|vm_compute; reflexivity..].
  - exact sample_age.
  - vm_compute. reflexivity.
  - vm_compute. reflexivity.
  - done.
  - exists evaluation, report. split; [done|]. split; [done|]. rewrite I. split; [vm_compute; reflexivity|].
    rewrite V. intros (_ & F & _). vm_compute in F. discriminate F.
Defined.

Lemma oversized_threshold_panics_witness :
  evaluate_position_snapshot (sample_snapshot sample_positions) (sample_profile 9223372036854776) (sample_time 1011)
  = Err Panicked.
Proof.
  apply (oversized_threshold_panics 2).
  - exact sample_accepted.
  - apply sample_measurable. lia.
  - exact sample_age.
  - vm_compute. reflexivity.
  - vm_compute. reflexivity.
  - vm_compute. split; reflexivity.
Defined.
End example.
