(* ===== verification/PortfolioRisk.v ===== *)
(** * Key-rate exposures of a portfolio

    [RiskAlgorithmBinding] and [PortfolioKeyRateExposure] of
    [crates/ficant-domain/src/research/exposure.rs]: the exposures of the positions of one snapshot with
    their totals, the evidence of what they are computed from, and the content hash over all of it. *)

From Stdlib Require Import ZArith Lia Strings.String.
From Stdlib Require Import Strings.Byte.
From stdpp Require Import base list option strings numbers sorting sets.
From S2P Require Import Prelude Machine Collections Primitives FixedDecimal Codec Concrete Exposure Digits DecimalValue Position Coverage.
Open Scope Z_scope.

Record RiskAlgorithmBinding := {
  risk_algorithm_id : string;
  risk_algorithm_version : Z;
  risk_convention_profile : string
}.

Definition risk_algorithm_new (algorithm_id : string) (algorithm_version : Z) (convention_profile : string)
    : DomainResult RiskAlgorithmBinding :=
  if (algorithm_version =? 0) || blank_or_padded algorithm_id || blank_or_padded convention_profile
  then Err InvalidValue
  else Ok {| risk_algorithm_id := algorithm_id; risk_algorithm_version := algorithm_version;
             risk_convention_profile := convention_profile |}.

Record PortfolioKeyRateExposure := {
  position_snapshot_id : Ulid;
  curve_snapshot_id : Ulid;
  futures_data_snapshot_id : option Ulid;
  portfolio_positions : list PositionKeyRateExposure;
  totals : list FactorDv01;
  algorithm : RiskAlgorithmBinding;
  exposure_confidence : PriceSourceSummary;
  exposure_coverage : CoverageDeclaration;
  portfolio_exposure_hash : ContentHash;
  portfolio_exposure_lineage : list LineageRef
}.

#[export] Instance PriceSourceCount_eq_dec : EqDecision PriceSourceCount.
Proof. solve_decision. Defined.
#[export] Instance PriceSourceSummary_eq_dec : EqDecision PriceSourceSummary.
Proof. solve_decision. Defined.

(** The values [new_inner] appends, in order. *)
Definition portfolio_exposure_fields (position_snapshot_id curve_snapshot_id : Ulid) (futures_data_snapshot_id : option Ulid)
    (positions : list PositionKeyRateExposure) (totals : list FactorDv01) (algorithm : RiskAlgorithmBinding)
    (source_confidence : PriceSourceSummary) (coverage : CoverageDeclaration) (lineage : list LineageRef)
    : list (list byte) :=
  [as_bytes (ulid_str position_snapshot_id); as_bytes (ulid_str curve_snapshot_id)]
  ++ from_option (fun value => [as_bytes "futures_data_snapshot_id"; as_bytes (ulid_str value)]) [] futures_data_snapshot_id
  ++ map (fun position => hash_bytes (Exposure.content_hash position)) positions
  ++ flat_map exposure_fields totals
  ++ [as_bytes (risk_algorithm_id algorithm); to_be_bytes 4 (risk_algorithm_version algorithm);
      as_bytes (risk_convention_profile algorithm)]
  ++ flat_map (fun count => [[byte_of_Z (price_source_type_code (source_type count))]; to_be_bytes 8 (record_count count)])
       (counts source_confidence)
  ++ [coverage_canonical_bytes coverage]
  ++ flat_map exact_ref_fields lineage.

Section exposure.
Context `{Sha256}.

Definition new_inner (position_snapshot_id curve_snapshot_id : Ulid) (futures_data_snapshot_id : option Ulid)
    (positions : list PositionKeyRateExposure) (algorithm : RiskAlgorithmBinding)
    (source_and_coverage : PriceSourceSummary * CoverageDeclaration) (lineage : list LineageRef)
    : DomainResult PortfolioKeyRateExposure :=
  let '(confidence, coverage) := source_and_coverage in
  if bool_decide (positions = []) || bool_decide (lineage = [])
     || negb (bool_decide (source_confidence coverage = Some confidence))
     || negb (participating_position_count coverage =? Z.of_nat (List.length positions))
     || windows2_any (fun a b => geb (Exposure.position_id a) (Exposure.position_id b)) positions
  then Err BrokenLineage else
  totals ← aggregate_bond_key_rate_exposures positions;
  Ok {| position_snapshot_id := position_snapshot_id; curve_snapshot_id := curve_snapshot_id;
        futures_data_snapshot_id := futures_data_snapshot_id; portfolio_positions := positions; totals := totals;
        algorithm := algorithm; exposure_confidence := confidence; exposure_coverage := coverage;
        portfolio_exposure_hash := digest (framed (portfolio_exposure_fields position_snapshot_id curve_snapshot_id
          futures_data_snapshot_id positions totals algorithm confidence coverage lineage));
        portfolio_exposure_lineage := lineage |}.

Definition portfolio_exposure_new (position_snapshot_id curve_snapshot_id : Ulid)
    (positions : list PositionKeyRateExposure) (algorithm : RiskAlgorithmBinding)
    (source_and_coverage : PriceSourceSummary * CoverageDeclaration) (lineage : list LineageRef)
    : DomainResult PortfolioKeyRateExposure :=
  curve_count ← price_source_count_new CurveInterpolation (Z.of_nat (List.length positions));
  expected ← price_source_summary_new [curve_count];
  if negb (bool_decide (source_and_coverage.1 = expected)) then Err BrokenLineage
  else new_inner position_snapshot_id curve_snapshot_id None positions algorithm source_and_coverage lineage.

Definition new_with_futures_data_snapshot (position_snapshot_id curve_snapshot_id futures_data_snapshot_id : Ulid)
    (positions : list PositionKeyRateExposure) (algorithm : RiskAlgorithmBinding)
    (source_and_coverage : PriceSourceSummary * CoverageDeclaration) (lineage : list LineageRef)
    : DomainResult PortfolioKeyRateExposure :=
  active ← ok_or (find (fun count => bool_decide (source_type count = ActiveQuote)) (counts source_and_coverage.1)) BrokenLineage;
  active_count ← price_source_count_new ActiveQuote (record_count active);
  curve_count ← price_source_count_new CurveInterpolation (Z.of_nat (List.length positions));
  expected ← price_source_summary_new [active_count; curve_count];
  if negb (bool_decide (source_and_coverage.1 = expected)) then Err BrokenLineage
  else new_inner position_snapshot_id curve_snapshot_id (Some futures_data_snapshot_id) positions algorithm
    source_and_coverage lineage.
End exposure.

(** ** Reading the fields back *)

(** Records of one width, followed by something that no record begins. *)
Lemma records_then_tail {A} (P : A -> Prop) (f : A -> list (list byte)) n (Q : list (list byte) -> Prop) l m t t' :
  (forall a, P a -> List.length (f a) = n) -> (forall a b, P a -> P b -> f a = f b -> a = b) ->
  (forall a r, P a -> ~ Q (f a ++ r)) -> Forall P l -> Forall P m -> Q t -> Q t' ->
  flat_map f l ++ t = flat_map f m ++ t' -> l = m /\ t = t'.
Proof.
  intros Hn Hi Hq Hl. revert m. induction Hl as [|a l Ha Hl IH]; intros m Hm Ht Ht' E.
  - destruct Hm as [|b m Hb Hm]; [done|]. exfalso. cbn [flat_map app] in E. rewrite E in Ht.
    apply (Hq b (flat_map f m ++ t') Hb). by rewrite (assoc_L (++)).
  - destruct Hm as [|b m Hb Hm].
    { exfalso. cbn [flat_map app] in E. rewrite <- E in Ht'. apply (Hq a (flat_map f l ++ t) Ha). by rewrite (assoc_L (++)). }
    cbn [flat_map] in E. rewrite <- !(assoc_L (++)) in E. apply app_inj_1 in E as [E1 E2]; [|by rewrite !Hn].
    destruct (IH m Hm Ht Ht' E2) as [-> ->]. split; [|done]. f_equal. by apply Hi.
Qed.

Section identity.
Context `{UlidCrate} `{Sha256Laws}.

(** The hashes of positions end where the fields of a total begin: a total has values of 32, 16 and 26
    bytes in second, third and fourth place. *)
Definition total_begins (l : list (list byte)) : Prop :=
  exists a b c d r, l = a :: b :: c :: d :: r /\ List.length b = 32%nat /\ List.length c = 16%nat /\ List.length d = 26%nat.

Lemma total_fields_begin ts r : Forall wf_factor ts -> ts <> [] -> total_begins (flat_map exposure_fields ts ++ r).
Proof.
  intros Ht Hne. destruct Ht as [|t ts (_ & Hh & _ & Hu & _) _]; [done|]. cbn.
  eexists _, _, _, _, _. split; [done|]. split; [done|]. split; [apply length_to_be_bytes|].
  rewrite length_as_bytes. by apply wf_ulid_len.
Qed.

Lemma hashes_then_totals hs ks t t' :
  Forall wf_hash hs -> Forall wf_hash ks -> total_begins t -> total_begins t' ->
  map hash_bytes hs ++ t = map hash_bytes ks ++ t' -> hs = ks /\ t = t'.
Proof.
  assert (Hlong : forall hs t t', Forall wf_hash hs -> hs <> [] -> total_begins t -> total_begins t' -> t' <> map hash_bytes hs ++ t).
  { clear. intros hs t t' Hh Hne (a & b & c & d & r & -> & L1 & L2 & L3) (a' & b' & c' & d' & r' & -> & M1 & M2 & M3) E.
    unfold wf_hash in Hh. destruct Hh as [|h1 hs W1 Hh]; [done|]. destruct Hh as [|h2 hs W2 Hh]; cbn in E; [injection E as -> -> -> ->; lia|].
    destruct Hh as [|h3 hs W3 Hh]; cbn in E; [injection E as -> -> -> ->; lia|]. injection E as -> -> -> ?. lia. }
  intros Hh. revert ks. induction Hh as [|h hs Wh Hh IH]; intros ks Hk Ht Ht' E.
  - destruct ks as [|k ks]; [done|]. exfalso. by apply (Hlong (k :: ks) t' t).
  - destruct Hk as [|k ks Wk Hk]; [exfalso; by apply (Hlong (h :: hs) t t'); [constructor|..]|].
    cbn in E. injection E as E1 E2. destruct (IH ks Hk Ht Ht' E2) as [-> ->]. destruct h, k. cbn in E1. by subst.
Qed.

(** Totals end where the algorithm begins, whose second value has four bytes. *)
Lemma totals_then_algorithm ts us t t' :
  Forall wf_factor ts -> Forall wf_factor us ->
  (forall b, t !! 1%nat = Some b -> List.length b = 4%nat) -> (forall b, t' !! 1%nat = Some b -> List.length b = 4%nat) ->
  flat_map exposure_fields ts ++ t = flat_map exposure_fields us ++ t' -> ts = us /\ t = t'.
Proof.
  intros Hts Hus Ht Ht'. apply (records_then_tail wf_factor exposure_fields 5
    (fun l => forall b, l !! 1%nat = Some b -> List.length b = 4%nat)); try done.
  - apply exposure_fields_inj.
  - intros a r (_ & Hh & _) Hq. specialize (Hq _ eq_refl). unfold wf_hash in Hh. lia.
Qed.

Lemma counts_then_coverage cs ds b b' t t' :
  Forall wf_source_count cs -> Forall wf_source_count ds -> List.length b <> 1%nat -> List.length b' <> 1%nat ->
  flat_map (fun count => [[byte_of_Z (price_source_type_code (source_type count))]; to_be_bytes 8 (record_count count)]) cs ++ b :: t
  = flat_map (fun count => [[byte_of_Z (price_source_type_code (source_type count))]; to_be_bytes 8 (record_count count)]) ds ++ b' :: t' ->
  cs = ds /\ b = b' /\ t = t'.
Proof.
  intros Hc Hd Hb Hb' E.
  apply (records_then_tail wf_source_count _ 2 (fun l => forall b, l !! 0%nat = Some b -> List.length b <> 1%nat)) in E as [-> [= -> ->]];
    try done.
  - intros [s n] [s' n'] Hn Hn' E'. apply field_cons_inj in E' as [Es E']. apply field_cons_inj in E' as [En _].
    cbn [record_count source_type] in Es, En. apply u64_be_inj in En as ->; [|done..]. destruct s, s'; (discriminate Es || done).
  - intros a r _ Hq. by apply (Hq _ eq_refl).
  - by intros ? [= <-].
  - by intros ? [= <-].
Qed.

(** ** Identity *)

Definition accepted_position (p : PositionKeyRateExposure) : Prop :=
  position_key_rate_exposure_new (Exposure.position_id p) (instrument p) (exposures p) (input_evidence_hashes p) (lineage p) = Ok p.

(** Parts as their constructors leave them. *)
Record wf_portfolio (x : PortfolioKeyRateExposure) : Prop := {
  wf_snapshots : wf_ulid (position_snapshot_id x) /\ wf_ulid (curve_snapshot_id x)
    /\ from_option wf_ulid True (futures_data_snapshot_id x);
  wf_members : Forall (fun p => accepted_position p /\ Exposure.wf_position p) (portfolio_positions x);
  wf_algorithm : wf_str (risk_algorithm_id (algorithm x)) /\ in_u32 (risk_algorithm_version (algorithm x)) = true
    /\ wf_str (risk_convention_profile (algorithm x));
  wf_counts : Forall wf_source_count (counts (exposure_confidence x));
  wf_coverage : valid_coverage (exposure_coverage x) /\ short (coverage_canonical_bytes (exposure_coverage x));
  wf_refs : Forall wf_lineage (portfolio_exposure_lineage x)
}.

Lemma add_exposures_wf ts ms rs :
  Forall wf_factor ts -> add_exposures ts ms = Ok rs -> Forall wf_factor rs /\ List.length rs = List.length ts.
Proof.
  intros Ht. revert ms rs. induction Ht as [|t ts Wt Ht IH]; intros ms rs.
  { cbn. intros [= <-]. split; [constructor|done]. }
  destruct ms as [|m ms]; cbn [add_exposures]; [intros [= <-]; split; [by constructor|done]|]. intros E.
  destruct (_ || _); [done|]. apply bind_Ok in E as (x & Ex & E). apply bind_Ok in E as (r & Er & [= <-]).
  apply IH in Er as [Hr Hlen]. cbn. rewrite Hlen. split; [|done]. constructor; [|done]. destruct Wt as (W1 & W2 & _ & W4).
  split; [done|]. split; [done|]. split; [by eapply checked_add_wf|done].
Qed.

Lemma totals_wf ps ts :
  Forall (fun p => accepted_position p /\ Exposure.wf_position p) ps -> aggregate_bond_key_rate_exposures ps = Ok ts ->
  Forall wf_factor ts /\ ts <> [].
Proof.
  intros Hp. destruct Hp as [|p ps [Ha (_ & _ & He & _)] _]; [done|].
  unfold aggregate_bond_key_rate_exposures. cbn [head ok_or mbind Result_bind tail].
  apply (try_fold_inv (fun ts => Forall wf_factor ts /\ ts <> [])).
  - split; [done|]. unfold accepted_position, position_key_rate_exposure_new in Ha. destruct (_ || _) eqn:Eg; [done|].
    by breflect.
  - intros s q s' _ [Hs Hne] E. destruct (negb _); [done|]. apply add_exposures_wf in E as [Hf Hl]; [|done].
    split; [done|]. by destruct s, s'.
Qed.

Definition fields_of (x : PortfolioKeyRateExposure) : list (list byte) :=
  portfolio_exposure_fields (position_snapshot_id x) (curve_snapshot_id x) (futures_data_snapshot_id x)
    (portfolio_positions x) (totals x) (algorithm x) (exposure_confidence x) (exposure_coverage x) (portfolio_exposure_lineage x).

(** What both constructors end in. *)
Definition accepted_portfolio (x : PortfolioKeyRateExposure) : Prop :=
  new_inner (position_snapshot_id x) (curve_snapshot_id x) (futures_data_snapshot_id x) (portfolio_positions x) (algorithm x)
    (exposure_confidence x, exposure_coverage x) (portfolio_exposure_lineage x) = Ok x.

Lemma new_inner_accepted i c f ps a s l x : new_inner i c f ps a s l = Ok x -> accepted_portfolio x.
Proof.
  unfold accepted_portfolio. intros E. pose proof E as E'. unfold new_inner in E. destruct s as [s v].
  destruct (_ || _); [done|]. apply bind_Ok in E as (t & _ & [= <-]). exact E'.
Qed.

Lemma accepted_portfolio_Ok x :
  accepted_portfolio x ->
  portfolio_positions x <> [] /\ portfolio_exposure_lineage x <> [] /\ source_confidence (exposure_coverage x) = Some (exposure_confidence x)
  /\ participating_position_count (exposure_coverage x) = Z.of_nat (List.length (portfolio_positions x))
  /\ bset_wf (Exposure.position_id <$> portfolio_positions x)
  /\ aggregate_bond_key_rate_exposures (portfolio_positions x) = Ok (totals x)
  /\ portfolio_exposure_hash x = digest (framed (fields_of x)).
Proof.
  unfold accepted_portfolio, new_inner. intros E. destruct (_ || _) eqn:Eg; [done|].
  apply bind_Ok in E as (t & Et & E). breflect. destruct x. cbn in *. injection E as -> Eh.
  do 4 (split; [done|]). split; [|by split].
  apply windows_geb_strict. rename select (windows2_any _ _ = false) into Hw. clear - Hw.
  induction portfolio_positions0 as [|p [|q l] IH]; [done..|]. cbn in Hw |- *. apply orb_false_iff in Hw as [-> Hw]. apply IH, Hw.
Qed.

Lemma accepted_hash p : accepted_position p -> wf_hash (Exposure.content_hash p).
Proof.
  unfold accepted_position, position_key_rate_exposure_new. intros Ha. destruct (_ || _); [done|]. injection Ha as Ha.
  rewrite <- Ha. apply wf_digest.
Qed.

Lemma members_hashes x : wf_portfolio x -> Forall wf_hash (Exposure.content_hash <$> portfolio_positions x).
Proof. intros W. rewrite Forall_fmap. eapply Forall_impl; [apply W|]. intros p [Ha _]. by apply accepted_hash. Qed.

Lemma fields_short x : wf_portfolio x -> Forall wf_factor (totals x) -> Forall short (fields_of x).
Proof.
  intros W Wt. pose proof (members_hashes x W) as Wh. destruct W as [(W1 & W2 & W3) Wm (A1 & A2 & A3) Wc [_ Wb] Wr].
  unfold fields_of, portfolio_exposure_fields. apply Forall_app_2; [split_forall; by apply short_ulid|].
  apply Forall_app_2.
  { destruct (futures_data_snapshot_id x); cbn; [|constructor]. split_forall; [by vm_compute|by apply short_ulid]. }
  apply Forall_app_2.
  { rewrite Forall_map. rewrite Forall_fmap in Wh. eapply Forall_impl; [exact Wh|]. intros p. apply short_hash. }
  apply Forall_app_2; [by apply (Forall_flat_map_short wf_factor); [apply short_factor|]|].
  apply Forall_app_2; [split_forall; [by apply short_str|apply short_be; lia|by apply short_str]|].
  apply Forall_app_2; [apply (Forall_flat_map_short wf_source_count); [|done]; intros c _; split_forall; [apply short_byte|apply short_be; lia]|].
  apply Forall_app_2; [by split_forall|]. by apply (Forall_flat_map_short wf_lineage); [apply short_exact_ref|].
Qed.

(** The optional snapshot of futures data is announced by a label that is not as long as a hash. *)
Lemma futures_fields_inj (f g : option Ulid) hs ks t t' :
  Forall wf_hash hs -> Forall wf_hash ks -> hs <> [] -> ks <> [] ->
  from_option (fun value => [as_bytes "futures_data_snapshot_id"; as_bytes (ulid_str value)]) [] f ++ map hash_bytes hs ++ t
  = from_option (fun value => [as_bytes "futures_data_snapshot_id"; as_bytes (ulid_str value)]) [] g ++ map hash_bytes ks ++ t' ->
  f = g /\ map hash_bytes hs ++ t = map hash_bytes ks ++ t'.
Proof.
  intros Hh Hk Nh Nk E. destruct Hh as [|h hs Wh _]; [done|]. destruct Hk as [|k ks Wk _]; [done|]. cbn [map] in E |- *.
  unfold wf_hash in Wh, Wk. assert (L : List.length (as_bytes "futures_data_snapshot_id") = 24%nat) by done.
  remember (as_bytes "futures_data_snapshot_id") as label. destruct f as [f|], g as [g|]; cbn [from_option app] in E.
  - apply field_cons_inj in E as [_ E]. apply field_cons_inj in E as [E1 E]. apply ulid_bytes_inj in E1. by subst.
  - apply field_cons_inj in E as [E _]. rewrite E in L. lia.
  - apply field_cons_inj in E as [E _]. rewrite <- E in L. lia.
  - done.
Qed.

Lemma coverage_bytes_long c : List.length (coverage_canonical_bytes c) <> 1%nat.
Proof.
  unfold coverage_canonical_bytes, framed, coverage_fields. cbn [flat_map app]. unfold frame at 1.
  rewrite !length_app, length_to_be_bytes. lia.
Qed.

Lemma fields_inj x y :
  accepted_portfolio x -> accepted_portfolio y -> wf_portfolio x -> wf_portfolio y -> fields_of x = fields_of y ->
  (position_snapshot_id x, curve_snapshot_id x, futures_data_snapshot_id x, totals x, algorithm x)
  = (position_snapshot_id y, curve_snapshot_id y, futures_data_snapshot_id y, totals y, algorithm y)
  /\ exposure_confidence x = exposure_confidence y /\ exposure_coverage x = exposure_coverage y
  /\ portfolio_exposure_lineage x = portfolio_exposure_lineage y
  /\ Exposure.content_hash <$> portfolio_positions x = Exposure.content_hash <$> portfolio_positions y.
Proof.
  intros Ax Ay Wx Wy E.
  destruct (accepted_portfolio_Ok x Ax) as (Nx & _ & _ & _ & _ & Tx & _).
  destruct (accepted_portfolio_Ok y Ay) as (Ny & _ & _ & _ & _ & Ty & _).
  apply totals_wf in Tx as [Tx Tnx]; [|apply Wx]. apply totals_wf in Ty as [Ty Tny]; [|apply Wy].
  pose proof (members_hashes x Wx) as Hx. pose proof (members_hashes y Wy) as Hy.
  destruct Wx as [(_ & _ & _) _ (Ix1 & Ix2 & Ix3) Cx [Vx _] Lx]. destruct Wy as [(_ & _ & _) _ (Iy1 & Iy2 & Iy3) Cy [Vy _] Ly].
  unfold fields_of, portfolio_exposure_fields in E. cbn [app] in E.
  apply field_cons_inj in E as [E1 E]. apply field_cons_inj in E as [E2 E]. apply ulid_bytes_inj in E1, E2.
  rewrite <- !(map_map Exposure.content_hash hash_bytes) in E.
  apply futures_fields_inj in E as [E3 E4]; [|done|done|by destruct (portfolio_positions x)|by destruct (portfolio_positions y)].
  apply hashes_then_totals in E4 as [E4 E5]; [|done|done|by apply total_fields_begin..].
  apply totals_then_algorithm in E5 as [E5 E6]; [|done|done|by intros ? [= <-]; apply length_to_be_bytes..].
  cbn [app] in E6. apply field_cons_inj in E6 as [F1 E6]. apply field_cons_inj in E6 as [F2 E6]. apply field_cons_inj in E6 as [F3 E6].
  apply as_bytes_inj in F1, F3. apply u32_be_inj in F2; [|done..].
  apply counts_then_coverage in E6 as (G1 & G2 & G3); [|done|done|apply coverage_bytes_long..].
  apply coverage_bytes_inj in G2; [|done..].
  apply (flat_map_fields_inj wf_lineage exact_ref_fields 3) in G3; [|lia|done|apply exact_ref_fields_inj|done|done].
  destruct (algorithm x), (algorithm y), (exposure_confidence x), (exposure_confidence y). cbn in *. subst.
  rewrite E1, E2, E3, E5. done.
Qed.

Lemma members_identified ps qs :
  Forall (fun p => accepted_position p /\ Exposure.wf_position p) ps ->
  Forall (fun p => accepted_position p /\ Exposure.wf_position p) qs ->
  Exposure.content_hash <$> ps = Exposure.content_hash <$> qs -> ps = qs \/ collision.
Proof.
  intros Hp. revert qs. induction Hp as [|p ps [Ap Wp] Hp IH]; intros qs Hq E; destruct Hq as [|q qs [Aq Wq] Hq]; try done; [by left|].
  cbn in E. injection E as E1 E2. destruct (position_hash_spec _ _ _ _ _ _ _ _ _ _ _ _ Ap Aq Wp Wq E1) as [->|]; [|by right].
  destruct (IH qs Hq E2) as [->|]; [by left|by right].
Qed.

Lemma portfolio_hash_spec x y :
  accepted_portfolio x -> accepted_portfolio y -> wf_portfolio x -> wf_portfolio y ->
  portfolio_exposure_hash x = portfolio_exposure_hash y -> x = y \/ collision.
Proof.
  intros Ax Ay Wx Wy E. destruct (accepted_portfolio_Ok x Ax) as (_ & _ & _ & _ & _ & Tx & Hx).
  destruct (accepted_portfolio_Ok y Ay) as (_ & _ & _ & _ & _ & Ty & Hy). pose proof E as E0. rewrite Hx, Hy in E.
  apply digest_inj in E as [E|]; [|by right]. apply totals_wf in Tx as [Tx _]; [|apply Wx]. apply totals_wf in Ty as [Ty _]; [|apply Wy].
  apply framed_inj in E; [|by apply fields_short..]. apply fields_inj in E as (E1 & E2 & E3 & E4 & E5); [|done..].
  destruct (members_identified _ _ (wf_members _ Wx) (wf_members _ Wy) E5) as [E6|]; [left|by right].
  destruct x, y. cbn in *. congruence.
Qed.
End identity.

(** ** Properties *)

Lemma portfolio_exposure_new_accepted `{Sha256} i c ps a s l x :
  portfolio_exposure_new i c ps a s l = Ok x -> accepted_portfolio x.
Proof.
  unfold portfolio_exposure_new. intros E. res_simp. by eapply new_inner_accepted.
Qed.

Lemma new_with_futures_accepted `{Sha256} i c f ps a s l x :
  new_with_futures_data_snapshot i c f ps a s l = Ok x -> accepted_portfolio x.
Proof.
  unfold new_with_futures_data_snapshot. intros E. res_simp. by eapply new_inner_accepted.
Qed.

(** The content hash of a portfolio's exposure identifies it, whichever constructor made it: two
    accepted, well-formed exposures with the same hash have the same snapshots, positions with their
    exposures and evidence, totals, algorithm, price sources, coverage and lineage, or exhibit a SHA-256
    collision. No list is preceded by its length; the widths of the fields tell the lists apart. *)
Theorem portfolio_exposure_identifies `{UlidCrate} `{Sha256Laws} x y :
  accepted_portfolio x -> accepted_portfolio y -> wf_portfolio x -> wf_portfolio y ->
  portfolio_exposure_hash x = portfolio_exposure_hash y -> x = y \/ collision.
Proof. apply portfolio_hash_spec. Qed.

Section example.
Local Existing Instance sample_ulid_crate.
Local Existing Instance sample_sha256.
Local Existing Instance sample_sha256_laws.

Definition sample_exposure : FactorDv01 :=
  {| factor_id := "5Y"; factor_definition_hash := sample_hash x01; dv01_value := ONE; dv01_unit := sample_unit |}.

Definition sample_risk_positions : DomainResult (list PositionKeyRateExposure) :=
  p ← position_key_rate_exposure_new (sample_id "A") (sample_vref "I") [sample_exposure] [sample_hash x02] [sample_lineage];
  q ← position_key_rate_exposure_new (sample_id "B") (sample_vref "I") [sample_exposure] [sample_hash x02] [sample_lineage];
  Ok [p; q].

Definition sample_confidence : PriceSourceSummary :=
  {| counts := [{| source_type := CurveInterpolation; record_count := 2 |}] |}.

Definition sample_risk_coverage : CoverageDeclaration := {|
  imported_position_count := 2; participating_position_count := 2;
  imported_gross_economic_value_by_unit := [sample_value "395" 2];
  participating_gross_economic_value_by_unit := [sample_value "395" 2];
  missing_critical_field_record_count := 0; source_confidence := Some sample_confidence;
  distinct_external_data_source_version_count := 0
|}.

Definition sample_algorithm : RiskAlgorithmBinding :=
  {| risk_algorithm_id := "krd"; risk_algorithm_version := 1; risk_convention_profile := "central" |}.

Definition sample_portfolio_exposure : DomainResult PortfolioKeyRateExposure :=
  ps ← sample_risk_positions;
  portfolio_exposure_new (sample_id "S") (sample_id "C") ps sample_algorithm (sample_confidence, sample_risk_coverage) [sample_lineage].

(** Two positions of one unit each. *)
Example sample_portfolio_totals :
  (fun x => scaled_values (totals x)) <$> sample_portfolio_exposure = Ok [2000000000000].
Proof. vm_compute. reflexivity. Qed.

Lemma sample_member id p :
  Primitives.wf_ulid (sample_id id) ->
  position_key_rate_exposure_new (sample_id id) (sample_vref "I") [sample_exposure] [sample_hash x02] [sample_lineage] = Ok p ->
  accepted_position p /\ Exposure.wf_position p.
Proof.
  intros Hid E. pose proof E as E'. unfold position_key_rate_exposure_new in E. destruct (_ || _); [discriminate E|].
  injection E as <-. split; [exact E'|]. unfold Exposure.wf_position. cbn [Exposure.position_id instrument exposures input_evidence_hashes lineage].
  split; [exact Hid|]. split; [by split|]. split; [split_forall; repeat split; vm_compute; congruence|].
  split; split_forall; [reflexivity|]. repeat split; vm_compute; congruence.
Qed.

Lemma sample_coverage_valid : valid_coverage sample_risk_coverage.
Proof.
  assert (W : wf_total (sample_value "395" 2)) by (split; [by apply sample_value_wf|by split]).
  split; cbn; try done.
  - by split_forall.
  - by split_forall.
  - repeat constructor.
  - by split_forall.
Qed.

Lemma portfolio_exposure_identifies_witness :
  exists x, sample_portfolio_exposure = Ok x /\ (x = x \/ collision).
Proof.
  assert (V : is_ok sample_portfolio_exposure = true) by (vm_compute; reflexivity).
  destruct sample_portfolio_exposure as [x|] eqn:E; [|discriminate V]. exists x. split; [reflexivity|].
  unfold sample_portfolio_exposure, sample_risk_positions in E.
  apply bind_Ok in E as (ps & Eps & E). apply bind_Ok in Eps as (p & Ep & Eps). apply bind_Ok in Eps as (q & Eq & Eps).
  injection Eps as <-. apply (sample_member "A") in Ep; [|reflexivity]. apply (sample_member "B") in Eq; [|reflexivity].
  pose proof (portfolio_exposure_new_accepted _ _ _ _ _ _ _ E) as A.
  assert (W : wf_portfolio x).
  { unfold portfolio_exposure_new in E. res_simp. unfold new_inner in E. destruct (_ || _); [discriminate E|].
    apply bind_Ok in E as (ts & _ & E). injection E as <-. split; cbn.
    - by repeat split.
    - by split_forall.
    - by repeat split.
    - by split_forall.
    - split; [exact sample_coverage_valid|]. vm_compute. reflexivity.
    - split_forall. repeat split; vm_compute; congruence. }
  apply (portfolio_exposure_identifies x x A A W W eq_refl).
Defined.
End example.
