(* ===== verification/FixedConversion.v ===== *)
(** * Conversions between the decimal types

    The private helpers of the use cases that convert a [DecimalValue] to a [FixedDecimal] and back:
    [decimal_to_fixed], [fixed_to_decimal], [checked_power_of_ten] and [round_div_ties_even] of
    [crates/ficant-application/src/use_cases/portfolio_aggregation.rs], with their copies in
    [portfolio_catalog.rs], [portfolio_risk.rs], [rates_materialization.rs] and [futures_delivery.rs]. *)

From Stdlib Require Import ZArith Lia Strings.String.
From stdpp Require Import base list option strings numbers.
From S2P Require Import Prelude Machine Collections Primitives FixedDecimal Codec Concrete Digits DecimalValue Runtime AppErrors.
Open Scope Z_scope.

Definition FIXED_DECIMAL_SCALE : Z := 12.
Definition MAX_DECIMAL_SCALE : Z := 28.

Definition validation : ApplicationError := application_error_new ValidationFailed false.
Definition invalid_unit : ApplicationError := application_error_new ValidationFailed false.
Definition lineage_error : ApplicationError := application_error_new LineageIncomplete false.

Definition checked_power_of_ten (exponent : Z) : AppResult Z :=
  try_fold (fun value _ => ok_or (i128_checked_mul value 10) validation) 1 (seq 0 (Z.to_nat exponent)).

Definition round_div_ties_even (value divisor : Z) : AppResult Z :=
  if divisor <=? 0 then Err validation else
  let negative := value <? 0 in
  let magnitude := unsigned_abs value in
  let quotient := magnitude / divisor in
  let remainder := magnitude mod divisor in
  let distance_to_divisor := u128_sub divisor remainder in
  quotient ← (if (distance_to_divisor <? remainder)
                 || ((remainder =? distance_to_divisor) && (quotient mod 2 =? 1))
              then ok_or (u128_checked_add quotient 1) validation
              else Ok quotient);
  if negb negative then ok_or (i128_try_from quotient) validation
  else if quotient =? unsigned_abs i128_MIN then Ok i128_MIN
  else ok_or (i128_try_from quotient ≫= i128_checked_neg) validation.

Definition decimal_to_fixed (value : DecimalValue) : AppResult FixedDecimal :=
  coefficient ← ok_or (parse_i128 (coefficient value)) validation;
  scaled ← (if scale value <=? FIXED_DECIMAL_SCALE then
              factor ← checked_power_of_ten (FIXED_DECIMAL_SCALE - scale value);
              ok_or (i128_checked_mul coefficient factor) validation
            else
              divisor ← checked_power_of_ten (scale value - FIXED_DECIMAL_SCALE);
              if negb (i128_rem coefficient divisor =? 0) then Err validation
              else Ok (i128_div coefficient divisor));
  Ok (from_scaled scaled).

(** The stricter copies, which take no more than twelve decimal places ([i128::checked_pow]). *)
Definition decimal_to_fixed_short (value : DecimalValue) : AppResult FixedDecimal :=
  if 12 <? scale value then Err validation else
  coefficient ← ok_or (parse_i128 (coefficient value)) validation;
  factor ← ok_or (checked in_i128 (10 ^ (12 - scale value))) validation;
  from_scaled <$> ok_or (i128_checked_mul coefficient factor) validation.

Definition fixed_to_decimal (value : FixedDecimal) (output_scale : Z) (unit : UnitRef) : AppResult DecimalValue :=
  if MAX_DECIMAL_SCALE <? output_scale then Err validation else
  coefficient ← (if output_scale <=? FIXED_DECIMAL_SCALE then
                   divisor ← checked_power_of_ten (FIXED_DECIMAL_SCALE - output_scale);
                   round_div_ties_even (scaled value) divisor
                 else
                   power ← checked_power_of_ten (output_scale - FIXED_DECIMAL_SCALE);
                   ok_or (i128_checked_mul (scaled value) power) validation);
  map_err map_domain_error (decimal_value_new (to_string coefficient) output_scale unit).

Example conversion_example (u : UnitRef) :
  let d c s := {| coefficient := c; scale := s; value_unit := u |} in
  decimal_to_fixed (d "-25"%string 1) = Ok (from_scaled (-2500000000000))
  /\ decimal_to_fixed (d "5"%string 13) = Err validation
  /\ fixed_to_decimal (from_scaled 2500000000000) 0 u = Ok (d "2"%string 0)
  /\ fixed_to_decimal (from_scaled (-3500000000000)) 0 u = Ok (d "-4"%string 0)
  /\ fixed_to_decimal (from_scaled 1) 28 u = Ok (d "1"%string 12).
Proof. vm_compute. repeat split. Qed.

(** ** Powers of ten and rounding *)

Lemma checked_power_of_ten_Ok e : 0 <= e <= 28 -> checked_power_of_ten e = Ok (10 ^ e).
Proof.
  intros He. unfold checked_power_of_ten.
  assert (Hn : forall n, (n <= 28)%nat ->
    try_fold (fun value (_ : nat) => ok_or (i128_checked_mul value 10) validation) 1 (seq 0 n) = Ok (10 ^ Z.of_nat n)).
  { induction n as [|n IH]; intros Hn; [done|]. rewrite seq_S, try_fold_app, IH by lia. cbn [mbind Result_bind try_fold].
    unfold i128_checked_mul, checked.
    assert (Hi : in_i128 (10 ^ Z.of_nat n * 10) = true).
    { pose proof (Z.pow_le_mono_r 10 (Z.of_nat n) 27 ltac:(lia) ltac:(lia)) as Hp.
      pose proof (Z.pow_nonneg 10 (Z.of_nat n) ltac:(lia)).
      change (10 ^ 27) with 1000000000000000000000000000 in Hp. ranges. lia. }
    rewrite Hi. cbn [ok_or mbind Result_bind]. rewrite Nat2Z.inj_succ, Z.pow_succ_r by lia. f_equal. lia. }
  rewrite Hn by lia. f_equal. f_equal. lia.
Qed.

(** Rounded division succeeds exactly on the quotients that fit. *)
Lemma round_div_ties_even_Ok n d q :
  in_i128 n = true -> 0 < d -> in_i128 d = true ->
  round_div_ties_even n d = Ok q <-> is_round_half_even n d q /\ in_i128 q = true.
Proof.
  intros Hn Hd Hd'. unfold round_div_ties_even. replace (d <=? 0) with false by lia.
  pose proof (Z.mod_pos_bound (Z.abs n) d Hd) as Hr. pose proof (Z.div_mod (Z.abs n) d ltac:(lia)) as Hdm.
  assert (Hq : 0 <= Z.abs n / d) by (apply Z.div_pos; lia).
  assert (Hle : Z.abs n / d <= Z.abs n) by (apply Z.div_le_upper_bound; nia).
  unfold unsigned_abs. rewrite u128_sub_small by (ranges; lia).
  set (m := Z.abs n / d) in *. set (r := Z.abs n mod d) in *.
  assert (Hsum : u128_checked_add m 1 = Some (m + 1)).
  { unfold u128_checked_add, checked. replace (in_u128 (m + 1)) with true; [done|]. symmetry. ranges. lia. }
  pose proof (rounded_signed n d m r ltac:(lia)) as Hround. rewrite (Z.abs_eq d) in Hround by lia.
  specialize (Hround ltac:(lia) Hr Hq). unfold negative_product in Hround. replace (d <? 0) with false in Hround by lia.
  set (M := rounded d m r) in *. pose proof (rounded_bounds d m r) as HM. fold M in HM.
  transitivity (signed_magnitude M (n <? 0) = Ok q).
  - assert (E : (if (d - r <? r) || ((r =? d - r) && (m mod 2 =? 1)) then ok_or (u128_checked_add m 1) validation else Ok m)
      = Ok M) by (unfold M, rounded; rewrite Hsum; by destruct (_ || _)).
    rewrite E. cbn [mbind Result_bind]. unfold signed_magnitude, unsigned_abs.
    destruct (negb (n <? 0)); [by rewrite !ok_or_Ok|]. destruct (M =? Z.abs i128_MIN); [|by rewrite !ok_or_Ok].
    split; intros [= <-]; done.
  - rewrite signed_magnitude_spec by lia. replace (if n <? 0 then - M else M) with (if negb (eqb (n <? 0) false) then - M else M)
      by (by destruct (n <? 0)).
    split; [by intros [-> H]|]. intros [H Hi]. split; [|done]. exact (is_round_half_even_unique n d _ _ ltac:(lia) H Hround).
Qed.

(** ** Conversions *)

(** A normal value is a fixed decimal exactly when it is a whole number of its units. *)
Lemma decimal_to_fixed_Ok d x :
  wf_decimal d -> decimal_to_fixed d = Ok x <-> value d = scaled x * 10 ^ 16 /\ wf_fixed x.
Proof.
  intros Hd. destruct (wf_as_decimal d Hd) as (m & Pm & Bm & [_ Sd] & Vm).
  unfold decimal_to_fixed, FIXED_DECIMAL_SCALE, wf_fixed. rewrite Pm, Vm. cbn [ok_or mbind Result_bind]. unfold in_units.
  destruct (Z.leb_spec (scale d) 12).
  - rewrite checked_power_of_ten_Ok by lia. cbn [mbind Result_bind]. rewrite bind_Ok.
    replace (28 - scale d) with ((12 - scale d) + 16) by lia. rewrite Z.pow_add_r, Z.mul_assoc by lia.
    unfold i128_checked_mul. setoid_rewrite ok_or_Ok. split.
    + intros (z & [Hz ->]%checked_Some & [= <-]). done.
    + intros [E Hx]. apply Z.mul_cancel_r in E; [|done]. rewrite E. exists (scaled x).
      split; [by apply checked_Some|]. by destruct x.
  - rewrite checked_power_of_ten_Ok by lia. cbn [mbind Result_bind].
    set (p := 10 ^ (scale d - 12)). assert (Hp : 0 < p) by (apply Z.pow_pos_nonneg; lia).
    assert (E16 : 10 ^ 16 = 10 ^ (28 - scale d) * p) by (unfold p; rewrite <- Z.pow_add_r by lia; f_equal; lia).
    rewrite E16. set (k := 10 ^ (28 - scale d)). assert (Hk : 0 < k) by (apply Z.pow_pos_nonneg; lia).
    unfold i128_rem, i128_div. pose proof (Z.quot_rem m p ltac:(lia)) as Hqr.
    assert (Hrange : Z.abs (m ÷ p) < 10 ^ 28).
    { pose proof (Z.quot_abs m p ltac:(lia)) as Ha. rewrite (Z.abs_eq p) in Ha by lia. rewrite <- Ha.
      rewrite Z.quot_div_nonneg by lia. apply Z.div_lt_upper_bound; [lia|]. nia. }
    destruct (Z.eqb_spec (Z.rem m p) 0) as [E0|Hne]; cbn [negb mbind Result_bind].
    + split.
      * intros [= <-]. cbn [scaled]. split; [nia|]. by apply (small_in_i128 _ 28).
      * intros [E _]. do 2 f_equal. destruct x as [z]. cbn [scaled] in *. f_equal.
        assert (m = z * p) by nia. subst m. rewrite Z.quot_mul by lia. done.
    + split; [done|]. intros [E _]. exfalso. apply Hne. assert (m = scaled x * p) by nia. subst m. by rewrite Z.rem_mul by lia.
Qed.

(** A rounded quotient never exceeds the magnitude of its numerator. *)
Lemma round_half_even_abs n d q : 0 < d -> is_round_half_even n d q -> Z.abs q <= Z.abs n.
Proof.
  intros Hd [H E]. rewrite (Z.abs_eq d) in * by lia.
  assert (Z.abs q * d <= Z.abs n + Z.abs (n - q * d)) by (rewrite <- (Z.abs_eq d) at 1 by lia; rewrite <- Z.abs_mul; lia).
  destruct (Z_le_gt_dec (Z.abs q) (Z.abs n)); [done|]. exfalso.
  assert (Z.abs n + 1 <= Z.abs q) by lia.
  destruct (Z.eq_dec n 0) as [->|Hn].
  - assert (Z.abs q = 1 /\ d = 2 * Z.abs (0 - q * d) \/ 2 <= Z.abs q \/ Z.abs q = 1) as [[Hq _]|[Hq|Hq]] by lia.
    + assert (Z.abs (0 - q * d) = d) by (replace (0 - q * d) with (- (q * d)) by lia; rewrite Z.abs_opp, Z.abs_mul, (Z.abs_eq d); nia). lia.
    + assert (Z.abs (0 - q * d) = Z.abs q * d) by (replace (0 - q * d) with (- (q * d)) by lia; rewrite Z.abs_opp, Z.abs_mul, (Z.abs_eq d); nia). nia.
    + assert (Z.abs (0 - q * d) = d) by (replace (0 - q * d) with (- (q * d)) by lia; rewrite Z.abs_opp, Z.abs_mul, (Z.abs_eq d); nia). lia.
  - nia.
Qed.

Lemma parse_printed z : parse_i128 (to_string z) = checked in_i128 z.
Proof.
  destruct (to_string_text z) as (l & E & Hd & Hne & Hv & _). rewrite E, parse_signed_text by done. f_equal.
  destruct (Z.ltb_spec z 0); lia.
Qed.

(** Printing and reading a coefficient of at most 28 digits keeps its value. *)
Lemma new_printed q s u d :
  0 <= s -> decimal_value_new (to_string q) s u = Ok d ->
  value d = in_units q s /\ Z.abs q < 10 ^ 28 /\ value_unit d = u /\ scale d <= s <= 28 /\ wf_decimal d.
Proof.
  intros Hs E. apply decimal_value_new_Ok in E as (z & Pz & Hz & Hv & Hu & Hsc & Hw); [|done].
  rewrite parse_printed in Pz. apply checked_Some in Pz as [_ ->]. done.
Qed.

Lemma new_printed_total q s u : 0 <= s <= 28 ->
  is_ok (decimal_value_new (to_string q) s u) = (Z.abs q <? 10 ^ 28).
Proof.
  intros Hs. destruct (Z.ltb_spec (Z.abs q) (10 ^ 28)) as [Hq|Hq].
  - by destruct (decimal_value_new_total q s u Hq Hs) as [d ->].
  - destruct (decimal_value_new _ _ _) as [d|] eqn:E; [|done]. exfalso.
    apply new_printed in E as (_ & Hlt & _); lia.
Qed.

Lemma fixed_to_decimal_Ok x s u d :
  wf_fixed x -> 0 <= s ->
  fixed_to_decimal x s u = Ok d <->
  s <= 28 /\ exists q, is_round_half_even (scaled x * 10 ^ s) (10 ^ 12) q /\ decimal_value_new (to_string q) s u = Ok d.
Proof.
  intros Hx Hs. unfold fixed_to_decimal, MAX_DECIMAL_SCALE, FIXED_DECIMAL_SCALE, wf_fixed in *.
  destruct (Z.ltb_spec 28 s); [split; [done|lia]|]. rewrite bind_Ok. setoid_rewrite map_err_Ok.
  transitivity (exists q, is_round_half_even (scaled x * 10 ^ s) (10 ^ 12) q /\ decimal_value_new (to_string q) s u = Ok d);
    [|split; [by split|by intros [_ ?]]].
  assert (Hin : forall q, decimal_value_new (to_string q) s u = Ok d -> in_i128 q = true).
  { intros q E. apply new_printed in E as (_ & Hq & _); [|done]. by apply (small_in_i128 _ 28). }
  destruct (Z.leb_spec s 12).
  - rewrite checked_power_of_ten_Ok by lia. cbn [mbind Result_bind]. set (p := 10 ^ (12 - s)).
    assert (Hp : 0 < p <= 10 ^ 12) by (unfold p; split; [apply Z.pow_pos_nonneg; lia|apply Z.pow_le_mono_r; lia]).
    assert (Hpi : in_i128 p = true) by (ranges; lia).
    assert (E12 : 10 ^ 12 = 10 ^ s * p) by (unfold p; rewrite <- Z.pow_add_r by lia; f_equal; lia).
    assert (Hs0 : 0 < 10 ^ s) by (apply Z.pow_pos_nonneg; lia).
    rewrite E12, (Z.mul_comm (scaled x)). setoid_rewrite (is_round_half_even_scale (10 ^ s)); [|done].
    setoid_rewrite round_div_ties_even_Ok; [|done|lia|done]. split.
    + intros (q & [Hr _] & E). eauto.
    + intros (q & Hr & E). exists q. split; [split; [done|by apply Hin]|done].
  - rewrite checked_power_of_ten_Ok by lia. cbn [mbind Result_bind]. unfold i128_checked_mul.
    setoid_rewrite ok_or_Ok. setoid_rewrite checked_Some.
    assert (E : scaled x * 10 ^ s = (scaled x * 10 ^ (s - 12)) * 10 ^ 12).
    { rewrite <- Z.mul_assoc, <- Z.pow_add_r by lia. do 2 f_equal. lia. }
    assert (Hr : is_round_half_even (scaled x * 10 ^ s) (10 ^ 12) (scaled x * 10 ^ (s - 12))).
    { rewrite E. unfold is_round_half_even. rewrite Z.sub_diag. cbn. lia. }
    split.
    + intros (q & [Hq ->] & Ed). eauto.
    + intros (q & Hq & Ed). rewrite (is_round_half_even_unique _ (10 ^ 12) _ _ ltac:(lia) Hq Hr) in Ed.
      exists (scaled x * 10 ^ (s - 12)). split; [split; [by apply Hin|done]|done].
Qed.

(** ** The two readings of a decimal *)

Lemma decimal_to_fixed_short_Ok d x :
  wf_decimal d -> decimal_to_fixed_short d = Ok x <-> scale d <= 12 /\ decimal_to_fixed d = Ok x.
Proof.
  intros Hd. destruct (wf_as_decimal d Hd) as (m & Pm & Bm & [_ Sd] & Vm).
  unfold decimal_to_fixed_short, decimal_to_fixed, FIXED_DECIMAL_SCALE. rewrite Pm. cbn [ok_or mbind Result_bind].
  destruct (Z.ltb_spec 12 (scale d)); [split; [done|lia]|]. replace (scale d <=? 12) with true by lia.
  rewrite checked_power_of_ten_Ok by lia. unfold checked at 1.
  replace (in_i128 (10 ^ (12 - scale d))) with true.
  - cbn [ok_or mbind Result_bind]. destruct (i128_checked_mul _ _); cbn; naive_solver.
  - symmetry. pose proof (Z.pow_le_mono_r 10 (12 - scale d) 12 ltac:(lia) ltac:(lia)).
    pose proof (Z.pow_nonneg 10 (12 - scale d) ltac:(lia)). ranges. lia.
Qed.

Lemma checked_power_of_ten_Err e err : checked_power_of_ten e = Err err -> err = validation.
Proof.
  unfold checked_power_of_ten. generalize 1. induction (seq 0 (Z.to_nat e)) as [|k l IH]; cbn; [done|].
  intros z. destruct (i128_checked_mul z 10); cbn; [apply IH|by intros [= <-]].
Qed.

Lemma decimal_to_fixed_Err d e : decimal_to_fixed d = Err e -> e = validation.
Proof.
  unfold decimal_to_fixed. intros E. apply bind_Err in E as [E|(m & _ & E)].
  { destruct (parse_i128 _); [done|by injection E as <-]. }
  apply bind_Err in E as [E|(z & _ & E)]; [|done]. destruct (_ <=? _).
  - apply bind_Err in E as [E|(p & _ & E)]; [by apply checked_power_of_ten_Err in E|].
    destruct (i128_checked_mul _ _); [done|by injection E as <-].
  - apply bind_Err in E as [E|(p & _ & E)]; [by apply checked_power_of_ten_Err in E|].
    destruct (negb _); [by injection E as <-|done].
Qed.

Lemma decimal_to_fixed_short_Err d e : decimal_to_fixed_short d = Err e -> e = validation.
Proof.
  unfold decimal_to_fixed_short. destruct (_ <? _); [by intros [= <-]|].
  destruct (parse_i128 _); cbn [ok_or mbind Result_bind]; [|by intros [= <-]].
  destruct (checked _ _); cbn [ok_or mbind Result_bind]; [|by intros [= <-]].
  destruct (i128_checked_mul _ _); [done|by intros [= <-]].
Qed.

(** They differ only at zeros kept with more than twelve decimal places: a normal value other than zero
    has no trailing zero to drop. *)
Lemma readings_agree d :
  wf_decimal d -> value d <> 0 \/ scale d <= 12 -> decimal_to_fixed_short d = decimal_to_fixed d.
Proof.
  intros Hd Hz. destruct (decimal_to_fixed d) as [x|e] eqn:E.
  - apply decimal_to_fixed_short_Ok; [done|]. split; [|done].
    destruct Hz as [Hz|]; [|done]. destruct (Z_le_gt_dec (scale d) 12) as [|Hs]; [done|]. exfalso.
    destruct (wf_decimal_parse d Hd) as (n & l & Cd & Dl & Nl & Ll & Sd & Pd & Vl & Fd).
    apply decimal_to_fixed_Ok in E as [E _]; [|done]. unfold value in E, Hz. rewrite Pd in E, Hz. cbn [from_option id] in E, Hz.
    destruct Fd as [[-> ->]|[_ [|Hlast]]]; [done|lia|]. apply Hlast, last_digit_zero; [done|done|].
    unfold in_units in E. set (v := digits_val l) in *. set (w := if n then - v else v) in *.
    assert (Ew : w = scaled x * 10 ^ (scale d - 13) * 10).
    { apply (Z.mul_cancel_r _ _ (10 ^ (28 - scale d))); [apply Z.pow_nonzero; lia|]. rewrite E.
      rewrite <- !Z.mul_assoc. f_equal. replace 16 with ((scale d - 13) + 1 + (28 - scale d)) by lia.
      rewrite !Z.pow_add_r by lia. change (10 ^ 1) with 10. ring. }
    unfold w in Ew. apply Z.mod_divide; [done|]. destruct n.
    + exists (- (scaled x * 10 ^ (scale d - 13))). lia.
    + by exists (scaled x * 10 ^ (scale d - 13)).
  - destruct (decimal_to_fixed_short d) as [x|e'] eqn:E'.
    + apply decimal_to_fixed_short_Ok in E' as [_ E']; [|done]. congruence.
    + apply decimal_to_fixed_Err in E as ->. by apply decimal_to_fixed_short_Err in E' as ->.
Qed.

(** ** Round trips *)

Lemma fixed_to_decimal_exact x s u :
  wf_fixed x -> 12 <= s <= 28 -> Z.abs (scaled x * 10 ^ (s - 12)) < 10 ^ 28 ->
  exists d, fixed_to_decimal x s u = Ok d /\ value d = scaled x * 10 ^ 16 /\ value_unit d = u /\ wf_decimal d.
Proof.
  intros Hx Hs Hb. set (q := scaled x * 10 ^ (s - 12)) in *.
  destruct (decimal_value_new_total q s u Hb ltac:(lia)) as [d Ed]. exists d.
  pose proof (new_printed q s u d ltac:(lia) Ed) as (Hv & _ & Hu & _ & Hw). split; [|split; [|done]].
  - apply fixed_to_decimal_Ok; [done|lia|]. split; [lia|]. exists q. split; [|done].
    assert (E : scaled x * 10 ^ s = q * 10 ^ 12).
    { unfold q. rewrite <- Z.mul_assoc, <- Z.pow_add_r by lia. do 2 f_equal. lia. }
    unfold is_round_half_even. rewrite E, Z.sub_diag. cbn. lia.
  - rewrite Hv. unfold in_units, q. rewrite <- Z.mul_assoc, <- Z.pow_add_r by lia. do 2 f_equal. lia.
Qed.

(** The conversions between the decimal types are inverse to each other: a fixed decimal that fits 28
    digits at a scale of at least twelve becomes a decimal of the same value, which converts back to it;
    and a normal decimal other than zero that converts to a fixed decimal of at most 28 digits is what that
    converts back to. *)
Theorem conversions_round_trip :
  (forall x s u, wf_fixed x -> 12 <= s <= 28 -> Z.abs (scaled x * 10 ^ (s - 12)) < 10 ^ 28 ->
     exists d, fixed_to_decimal x s u = Ok d /\ value d = scaled x * 10 ^ 16 /\ decimal_to_fixed d = Ok x)
  /\ (forall d x, wf_decimal d -> value d <> 0 -> decimal_to_fixed d = Ok x -> Z.abs (scaled x) < 10 ^ 28 ->
        fixed_to_decimal x 12 (value_unit d) = Ok d).
Proof.
  split.
  - intros x s u Hx Hs Hb. destruct (fixed_to_decimal_exact x s u Hx Hs Hb) as (d & E & Hv & _ & Hw).
    exists d. split; [done|]. split; [done|]. by apply decimal_to_fixed_Ok.
  - intros d x Hd Hz E Hb. apply decimal_to_fixed_Ok in E as [Hv Hx]; [|done].
    destruct (fixed_to_decimal_exact x 12 (value_unit d) Hx ltac:(lia)) as (e & -> & Ve & Ue & We).
    { by rewrite Z.sub_diag, Z.mul_1_r. }
    f_equal. apply decimal_canonical; congruence || done.
Qed.

(** Zero at a scale above twelve: the readings disagree. *)
Example zero_readings_differ (u : UnitRef) :
  let zero := {| coefficient := "0"%string; scale := 13; value_unit := u |} in
  decimal_value_new "0"%string 14 u = Ok zero
  /\ decimal_to_fixed zero = Ok (from_scaled 0) /\ decimal_to_fixed_short zero = Err validation.
Proof. vm_compute. by repeat split. Qed.

Lemma conversions_round_trip_witness :
  (exists d, fixed_to_decimal (from_scaled (-2500000000000)) 12 sample_unit = Ok d
     /\ value d = -2500000000000 * 10 ^ 16 /\ decimal_to_fixed d = Ok (from_scaled (-2500000000000)))
  /\ fixed_to_decimal (from_scaled 1250000000000) 12 sample_unit = Ok (sample_value "125" 2).
Proof.
  destruct conversions_round_trip as [T1 T2]. split.
  - apply T1; [reflexivity|lia|vm_compute; reflexivity].
  - apply (T2 (sample_value "125" 2)); [by apply sample_value_wf|vm_compute; discriminate|vm_compute; reflexivity|vm_compute; reflexivity].
Defined.
