(* ===== verification/PortfolioMetrics.v ===== *)
(** * Portfolio metrics

    The numerical part of [crates/ficant-application/src/use_cases/portfolio_aggregation.rs]
    ([aggregate_portfolio_metrics] and what it calls, and [aggregate_existing_krd]): totals of market
    value and profit, averages of bond measures weighted by market value, notional or dollar duration, and
    the parallel DV01.

    The averages are quotients of [i128] sums. Weights are divided by their greatest common divisor before
    anything is multiplied, and the quotient is rounded once, to the scale of its unit. *)

From Stdlib Require Import ZArith Lia Znumtheory Strings.String.
From Stdlib Require Import Strings.Byte.
From stdpp Require Import base list option strings numbers sorting sets.
From S2P Require Import Prelude Machine Collections Primitives FixedDecimal Codec Concrete KeyRate Exposure Digits DecimalValue Coverage Runtime AppErrors FixedConversion.
Open Scope Z_scope.

(** ** Data *)

Record PortfolioMetricOutputScales := {
  scale_money : Z;
  scale_rate : Z;
  scale_years : Z;
  scale_years_squared : Z;
  scale_dv01 : Z
}.

Definition output_scales_new (money rate years years_squared dv01 : Z) : AppResult PortfolioMetricOutputScales :=
  if existsb (fun scale => MAX_DECIMAL_SCALE <? scale) [money; rate; years; years_squared; dv01]
  then Err validation
  else Ok {| scale_money := money; scale_rate := rate; scale_years := years;
             scale_years_squared := years_squared; scale_dv01 := dv01 |}.

Inductive PortfolioMetricDataMode := Real | Partial | Stale.

#[export] Instance PortfolioMetricDataMode_eq_dec : EqDecision PortfolioMetricDataMode.
Proof. solve_decision. Defined.

Inductive PortfolioCoverageReason :=
| ShortPositionExcludedFromWeightedAverages
| NonBondExcludedFromWeightedAverages
| MissingBondMetricExcludedFromWeightedAverages
| PositionExcludedFromPortfolioRisk
| BenchmarkPositionExcludedFromPortfolioRisk.

#[export] Instance PortfolioCoverageReason_eq_dec : EqDecision PortfolioCoverageReason.
Proof. solve_decision. Defined.

(** The derived order is the order of declaration. *)
Definition reason_index (r : PortfolioCoverageReason) : Z :=
  match r with
  | ShortPositionExcludedFromWeightedAverages => 0
  | NonBondExcludedFromWeightedAverages => 1
  | MissingBondMetricExcludedFromWeightedAverages => 2
  | PositionExcludedFromPortfolioRisk => 3
  | BenchmarkPositionExcludedFromPortfolioRisk => 4
  end.
#[export] Instance PortfolioCoverageReason_ord : Ord PortfolioCoverageReason := fun a b =>
  cmp (reason_index a) (reason_index b).
#[export] Instance PortfolioCoverageReason_ord_laws : OrdLaws PortfolioCoverageReason.
Proof. by apply (ord_laws_via reason_index); [intros [] []|]. Qed.

Record PortfolioWeightedMetricUnits := {
  unit_ytm : UnitRef;
  unit_duration : UnitRef;
  unit_convexity : UnitRef;
  unit_coupon_rate : UnitRef;
  unit_remaining_years : UnitRef
}.

#[export] Instance PortfolioWeightedMetricUnits_eq_dec : EqDecision PortfolioWeightedMetricUnits.
Proof. solve_decision. Defined.

Record PortfolioBondMetricFacts := {
  fact_ytm : FixedDecimal;
  fact_duration : FixedDecimal;
  fact_convexity : FixedDecimal;
  fact_coupon_rate : FixedDecimal;
  fact_remaining_years : FixedDecimal;
  fact_units : PortfolioWeightedMetricUnits
}.

Definition bond_metric_facts_new (yield_to_maturity modified_duration convexity coupon_rate remaining_years : FixedDecimal)
    (units : PortfolioWeightedMetricUnits) : AppResult PortfolioBondMetricFacts :=
  if negb (is_positive yield_to_maturity) || negb (is_positive modified_duration) || negb (is_positive convexity)
     || negb (is_non_negative coupon_rate) || negb (is_positive remaining_years)
  then Err validation
  else Ok {| fact_ytm := yield_to_maturity; fact_duration := modified_duration; fact_convexity := convexity;
             fact_coupon_rate := coupon_rate; fact_remaining_years := remaining_years; fact_units := units |}.

Inductive PortfolioWeightedMetricEligibility :=
| Bond (metrics : PortfolioBondMetricFacts)
| NonBond
| MissingBondMetric.

Record PortfolioMetricPosition := {
  metric_position_id : Ulid;
  market_value : DecimalValue;
  economic_pnl : DecimalValue;
  signed_notional : FixedDecimal;
  eligibility : PortfolioWeightedMetricEligibility
}.

Definition from_totals (position_id : Ulid) (market_value economic_pnl : DecimalValue) (signed_notional : FixedDecimal)
    (eligibility : PortfolioWeightedMetricEligibility) : AppResult PortfolioMetricPosition :=
  if negb (bool_decide (value_unit market_value = value_unit economic_pnl)) then Err invalid_unit else
  _ ← decimal_to_fixed market_value;
  _ ← decimal_to_fixed economic_pnl;
  Ok {| metric_position_id := position_id; market_value := market_value; economic_pnl := economic_pnl;
        signed_notional := signed_notional; eligibility := eligibility |}.

Definition from_per_quantity (position_id : Ulid)
    (quantity notional_per_quantity market_value_per_quantity economic_pnl_per_quantity : FixedDecimal)
    (money_unit : UnitRef) (eligibility : PortfolioWeightedMetricEligibility) : AppResult PortfolioMetricPosition :=
  signed_notional ← map_err map_domain_error (checked_mul quantity notional_per_quantity);
  fixed_value ← map_err map_domain_error (checked_mul quantity market_value_per_quantity);
  market_value ← fixed_to_decimal fixed_value FIXED_DECIMAL_SCALE money_unit;
  fixed_pnl ← map_err map_domain_error (checked_mul quantity economic_pnl_per_quantity);
  economic_pnl ← fixed_to_decimal fixed_pnl FIXED_DECIMAL_SCALE money_unit;
  from_totals position_id market_value economic_pnl signed_notional eligibility.

Record PortfolioBasicMetrics := {
  total_market_value : DecimalValue;
  total_economic_pnl : DecimalValue;
  weighted_ytm : option DecimalValue;
  weighted_duration : option DecimalValue;
  weighted_convexity : option DecimalValue;
  weighted_coupon_rate : option DecimalValue;
  weighted_remaining_years : option DecimalValue;
  basic_dv01 : DecimalValue
}.

Record PortfolioKrdSummary := { krd_totals : list FactorDv01; parallel_dv01 : DecimalValue }.

Record PortfolioMetricCoverage := {
  imported_count : Z;
  averaged_count : Z;
  missing_reasons : list PortfolioCoverageReason
}.

Record PortfolioMetricAggregation := {
  data_mode : PortfolioMetricDataMode;
  basic_metrics : PortfolioBasicMetrics;
  aggregated_krd : PortfolioKrdSummary;
  metric_coverage : PortfolioMetricCoverage
}.

(** ** Weighted averages *)

Definition checked_raw_product (left right : Z) : AppResult Z :=
  if (left <=? 0) || (right <=? 0) then Err validation else ok_or (i128_checked_mul left right) validation.

(** [while right != 0 { (left, right) = (right, left % right) }], on signed integers. *)
Fixpoint positive_gcd_loop (fuel : nat) (left right : Z) : Z :=
  match fuel with
  | O => left
  | S fuel' => if right =? 0 then left else positive_gcd_loop fuel' right (i128_rem left right)
  end.

(** 258 turns are enough, as in [KeyRate]. *)
Definition positive_greatest_common_divisor (left right : Z) : Z := positive_gcd_loop 258 left right.

Definition common_positive_divisor (values : list Z) : AppResult Z :=
  match values with
  | [] => Err validation
  | first :: rest =>
      if first <=? 0 then Err validation else
      try_fold (fun divisor value =>
        if value <=? 0 then Err validation else Ok (positive_greatest_common_divisor divisor value)) first rest
  end.

Record RawWeightedAverage := { numerator : Z; denominator : Z }.

Definition average_add (self : RawWeightedAverage) (raw_weight : Z) (value : FixedDecimal) : AppResult RawWeightedAverage :=
  if (raw_weight <=? 0) || (scaled value <? 0) then Err validation else
  weighted_value ← ok_or (i128_checked_mul raw_weight (scaled value)) validation;
  numerator ← ok_or (i128_checked_add (numerator self) weighted_value) validation;
  denominator ← ok_or (i128_checked_add (denominator self) raw_weight) validation;
  Ok {| numerator := numerator; denominator := denominator |}.

Definition average_new (raw_weight : Z) (value : FixedDecimal) : AppResult RawWeightedAverage :=
  average_add {| numerator := 0; denominator := 0 |} raw_weight value.

(** One step of the long division: the next decimal digit. *)
Definition expand_step (denominator : Z) (st : Z * Z) (_ : nat) : AppResult (Z * Z) :=
  let '(coefficient, remainder) := st in
  coefficient ← ok_or (i128_checked_mul coefficient 10) validation;
  expanded_remainder ← ok_or (i128_checked_mul remainder 10) validation;
  coefficient ← ok_or (i128_checked_add coefficient (i128_div expanded_remainder denominator)) validation;
  Ok (coefficient, i128_rem expanded_remainder denominator).

(** [checked_div] and [checked_rem] fail on a zero divisor and on the quotient [i128::MIN / -1]. *)
Definition checked_div_rem (numerator denominator : Z) : AppResult (Z * Z) :=
  if (denominator =? 0) || ((numerator =? i128_MIN) && (denominator =? -1)) then Err validation
  else Ok (i128_div numerator denominator, i128_rem numerator denominator).

Definition expand_rational_scale (numerator denominator additional_scale : Z) : AppResult Z :=
  st ← checked_div_rem numerator denominator;
  st ← try_fold (expand_step denominator) st (seq 0 (Z.to_nat additional_scale));
  let '(coefficient, remainder) := st in
  distance_to_denominator ← ok_or (i128_checked_sub denominator remainder) validation;
  if (distance_to_denominator <? remainder)
     || ((remainder =? distance_to_denominator) && (i128_rem coefficient 2 =? 1))
  then ok_or (i128_checked_add coefficient 1) validation
  else Ok coefficient.

(** The coefficient of an average at its output scale. *)
Definition average_coefficient (numerator denominator output_scale : Z) : AppResult Z :=
  if output_scale <=? FIXED_DECIMAL_SCALE then
    scale_divisor ← checked_power_of_ten (FIXED_DECIMAL_SCALE - output_scale);
    final_denominator ← ok_or (i128_checked_mul denominator scale_divisor) validation;
    round_div_ties_even numerator final_denominator
  else expand_rational_scale numerator denominator (output_scale - FIXED_DECIMAL_SCALE).

Definition rational_weighted_average_to_decimal (numerator denominator output_scale : Z) (unit : UnitRef)
    : AppResult DecimalValue :=
  if (numerator <? 0) || (denominator <=? 0) || (MAX_DECIMAL_SCALE <? output_scale) then Err validation else
  coefficient ← average_coefficient numerator denominator output_scale;
  map_err map_domain_error (decimal_value_new (to_string coefficient) output_scale unit).

Definition into_decimal (self : RawWeightedAverage) (output_scale : Z) (unit : UnitRef) : AppResult DecimalValue :=
  rational_weighted_average_to_decimal (numerator self) (denominator self) output_scale unit.

Record RawWeightedPosition := {
  raw_market_value : Z;
  raw_notional : Z;
  ytm_weight : Z;
  raw_metrics : PortfolioBondMetricFacts
}.

Definition raw_position (units : PortfolioWeightedMetricUnits)
    (participating : PortfolioMetricPosition * PortfolioBondMetricFacts) : AppResult RawWeightedPosition :=
  let '(position, metrics) := participating in
  if negb (bool_decide (fact_units metrics = units)) then Err invalid_unit else
  market_value ← decimal_to_fixed (market_value position);
  ytm_weight ← checked_raw_product (scaled market_value) (scaled (fact_duration metrics));
  Ok {| raw_market_value := scaled market_value; raw_notional := scaled (signed_notional position);
        ytm_weight := ytm_weight; raw_metrics := metrics |}.

(** The five running averages. *)
Record WeightedSums := {
  sum_ytm : RawWeightedAverage;
  sum_duration : RawWeightedAverage;
  sum_convexity : RawWeightedAverage;
  sum_coupon : RawWeightedAverage;
  sum_remaining : RawWeightedAverage
}.

(** The common divisors of the weights. *)
Record WeightDivisors := { market_value_divisor : Z; notional_divisor : Z; ytm_weight_divisor : Z }.

Definition first_sums (divisors : WeightDivisors) (first : RawWeightedPosition) : AppResult WeightedSums :=
  let metrics := raw_metrics first in
  ytm ← average_new (i128_div (ytm_weight first) (ytm_weight_divisor divisors)) (fact_ytm metrics);
  duration ← average_new (i128_div (raw_market_value first) (market_value_divisor divisors)) (fact_duration metrics);
  convexity ← average_new (i128_div (raw_market_value first) (market_value_divisor divisors)) (fact_convexity metrics);
  coupon ← average_new (i128_div (raw_notional first) (notional_divisor divisors)) (fact_coupon_rate metrics);
  remaining ← average_new (i128_div (raw_notional first) (notional_divisor divisors)) (fact_remaining_years metrics);
  Ok {| sum_ytm := ytm; sum_duration := duration; sum_convexity := convexity; sum_coupon := coupon;
        sum_remaining := remaining |}.

Definition add_sums (units : PortfolioWeightedMetricUnits) (divisors : WeightDivisors) (sums : WeightedSums)
    (position : RawWeightedPosition) : AppResult WeightedSums :=
  let metrics := raw_metrics position in
  if negb (bool_decide (fact_units metrics = units)) then Err invalid_unit else
  ytm ← average_add (sum_ytm sums) (i128_div (ytm_weight position) (ytm_weight_divisor divisors)) (fact_ytm metrics);
  duration ← average_add (sum_duration sums) (i128_div (raw_market_value position) (market_value_divisor divisors))
    (fact_duration metrics);
  convexity ← average_add (sum_convexity sums) (i128_div (raw_market_value position) (market_value_divisor divisors))
    (fact_convexity metrics);
  coupon ← average_add (sum_coupon sums) (i128_div (raw_notional position) (notional_divisor divisors))
    (fact_coupon_rate metrics);
  remaining ← average_add (sum_remaining sums) (i128_div (raw_notional position) (notional_divisor divisors))
    (fact_remaining_years metrics);
  Ok {| sum_ytm := ytm; sum_duration := duration; sum_convexity := convexity; sum_coupon := coupon;
        sum_remaining := remaining |}.

Record WeightedAverages := {
  average_ytm : DecimalValue;
  average_duration : DecimalValue;
  average_convexity : DecimalValue;
  average_coupon_rate : DecimalValue;
  average_remaining_years : DecimalValue
}.

Definition weighted_averages (participating : list (PortfolioMetricPosition * PortfolioBondMetricFacts))
    (output_scales : PortfolioMetricOutputScales) : AppResult WeightedAverages :=
  first_participating ← ok_or (hd_error participating) validation;
  let units := fact_units first_participating.2 in
  weighted_positions ← try_map (raw_position units) participating;
  market_value_divisor ← common_positive_divisor (map raw_market_value weighted_positions);
  notional_divisor ← common_positive_divisor (map raw_notional weighted_positions);
  ytm_weight_divisor ← common_positive_divisor (map ytm_weight weighted_positions);
  let divisors := {| market_value_divisor := market_value_divisor; notional_divisor := notional_divisor;
                     ytm_weight_divisor := ytm_weight_divisor |} in
  first ← ok_or (hd_error weighted_positions) validation;
  sums ← first_sums divisors first;
  sums ← try_fold (add_sums units divisors) sums (tl weighted_positions);
  ytm ← into_decimal (sum_ytm sums) (scale_rate output_scales) (unit_ytm units);
  duration ← into_decimal (sum_duration sums) (scale_years output_scales) (unit_duration units);
  convexity ← into_decimal (sum_convexity sums) (scale_years_squared output_scales) (unit_convexity units);
  coupon ← into_decimal (sum_coupon sums) (scale_rate output_scales) (unit_coupon_rate units);
  remaining ← into_decimal (sum_remaining sums) (scale_years output_scales) (unit_remaining_years units);
  Ok {| average_ytm := ytm; average_duration := duration; average_convexity := convexity;
        average_coupon_rate := coupon; average_remaining_years := remaining |}.

(** ** Aggregation *)

Definition validate_positions (positions : list PortfolioMetricPosition) : AppResult unit :=
  if bool_decide (positions = []) || windows2_any (fun a b => geb (metric_position_id a) (metric_position_id b)) positions
  then Err validation
  else
    let unit := (fun position => value_unit (market_value position)) <$> head positions in
    fail_if (existsb (fun position => negb (bool_decide (Some (value_unit (market_value position)) = unit))
               || negb (bool_decide (Some (value_unit (economic_pnl position)) = unit))) positions) invalid_unit.

Definition sum_money `{RustDecimal} (values : list DecimalValue) (output_scale : Z) (unit : UnitRef) : AppResult DecimalValue :=
  first ← ok_or (hd_error values) validation;
  total ← try_fold (fun total value => map_err map_domain_error (decimal_value_checked_add total value)) first (tl values);
  fixed ← decimal_to_fixed total;
  fixed_to_decimal fixed output_scale unit.

(** [factor_ids.insert] is false for an id that is already there. *)
Fixpoint krd_topology (unit : UnitRef) (factor_ids : list string) (totals : list FactorDv01) : bool :=
  match totals with
  | [] => true
  | factor :: rest =>
      bool_decide (dv01_unit factor = unit) && negb (bset_contains (factor_id factor) factor_ids)
      && krd_topology unit (bset_insert (factor_id factor) factor_ids) rest
  end.

Definition krd_summary (totals : list FactorDv01) (output_scale : Z) : AppResult (PortfolioKrdSummary * DecimalValue) :=
  first ← ok_or (hd_error totals) validation;
  if negb (krd_topology (dv01_unit first) [] totals) then Err lineage_error else
  parallel ← try_fold (fun sum factor => map_err map_domain_error (checked_add sum (dv01_value factor)))
    (dv01_value first) (tl totals);
  parallel_dv01 ← fixed_to_decimal parallel output_scale (dv01_unit first);
  Ok ({| krd_totals := totals; parallel_dv01 := parallel_dv01 |}, parallel_dv01).

(** The loop that sorts positions into the averages or a reason. *)
Definition classify (st : list PortfolioCoverageReason * list (PortfolioMetricPosition * PortfolioBondMetricFacts))
    (position : PortfolioMetricPosition)
    : AppResult (list PortfolioCoverageReason * list (PortfolioMetricPosition * PortfolioBondMetricFacts)) :=
  let '(reasons, participating) := st in
  if negb (is_positive (signed_notional position))
  then Ok (bset_insert ShortPositionExcludedFromWeightedAverages reasons, participating)
  else match eligibility position with
  | Bond metrics =>
      fixed ← decimal_to_fixed (market_value position);
      if negb (is_positive fixed) then Err validation
      else Ok (reasons, participating ++ [(position, metrics)])
  | NonBond => Ok (bset_insert NonBondExcludedFromWeightedAverages reasons, participating)
  | MissingBondMetric => Ok (bset_insert MissingBondMetricExcludedFromWeightedAverages reasons, participating)
  end.

Definition aggregate_portfolio_metrics `{RustDecimal} (positions : list PortfolioMetricPosition)
    (krd_totals : list FactorDv01) (output_scales : PortfolioMetricOutputScales) : AppResult PortfolioMetricAggregation :=
  _ ← validate_positions positions;
  first ← ok_or (hd_error positions) validation;
  let money_unit := value_unit (market_value first) in
  market_value ← sum_money (map market_value positions) (scale_money output_scales) money_unit;
  economic_pnl ← sum_money (map economic_pnl positions) (scale_money output_scales) money_unit;
  krd ← krd_summary krd_totals (scale_dv01 output_scales);
  classified ← try_fold classify ([], []) positions;
  let '(reasons, participating) := classified in
  averages ← (if bool_decide (reasons = []) then Some <$> weighted_averages participating output_scales else Ok None);
  Ok {|
    data_mode := if bool_decide (reasons = []) then Real else Partial;
    basic_metrics := {|
      total_market_value := market_value;
      total_economic_pnl := economic_pnl;
      weighted_ytm := average_ytm <$> averages;
      weighted_duration := average_duration <$> averages;
      weighted_convexity := average_convexity <$> averages;
      weighted_coupon_rate := average_coupon_rate <$> averages;
      weighted_remaining_years := average_remaining_years <$> averages;
      basic_dv01 := krd.2
    |};
    aggregated_krd := krd.1;
    metric_coverage := {|
      imported_count := Z.of_nat (List.length positions);
      averaged_count := Z.of_nat (List.length participating);
      missing_reasons := reasons
    |}
  |}.

(** The inner loop of [aggregate_existing_krd] over the factors of one member. *)
Fixpoint merge_krd (totals member : list FactorDv01) : AppResult (list FactorDv01) :=
  match totals, member with
  | total :: totals', value :: member' =>
      if negb (bool_decide (factor_id total = factor_id value))
         || negb (bool_decide (factor_definition_hash total = factor_definition_hash value))
         || negb (bool_decide (dv01_unit total = dv01_unit value))
      then Err lineage_error else
      sum ← map_err map_domain_error (checked_add (dv01_value total) (dv01_value value));
      merged ← map_err map_domain_error
        (factor_dv01_new (factor_id total) (factor_definition_hash total) sum (dv01_unit total));
      rest ← merge_krd totals' member';
      Ok (merged :: rest)
  | _, _ => Ok totals
  end.

Definition aggregate_existing_krd (member_totals : list (list FactorDv01)) : AppResult (list FactorDv01) :=
  first ← ok_or (hd_error member_totals) validation;
  if bool_decide (first = []) then Err validation else
  try_fold (fun totals member =>
    if negb (List.length member =? List.length totals)%nat then Err lineage_error else merge_krd totals member)
    first (tl member_totals).

(** ** Common divisors *)

Definition gcd_list (l : list Z) : Z := foldl Z.gcd 0 l.

Lemma positive_gcd_spec l r :
  0 < l -> 0 < r -> in_i128 l = true -> in_i128 r = true -> positive_greatest_common_divisor l r = Z.gcd l r.
Proof.
  intros Hl Hr Li Ri. unfold positive_greatest_common_divisor. ranges.
  assert (E : forall fuel l r, 0 <= l -> 0 <= r -> positive_gcd_loop fuel l r = gcd_loop fuel l r).
  { clear. induction fuel as [|fuel IH]; intros l r Hl Hr; cbn; [done|]. destruct (Z.eqb_spec r 0); [done|].
    unfold i128_rem. rewrite Z.rem_mod_nonneg by lia. apply IH; [done|]. apply Z.mod_pos_bound. lia. }
  rewrite E by lia. apply gcd_loop_spec; lia.
Qed.

Lemma foldl_gcd_divides g l : (foldl Z.gcd g l | g) /\ Forall (fun v => (foldl Z.gcd g l | v)) l.
Proof.
  revert g. induction l as [|v l IH]; intros g; cbn; [split; [done|constructor]|]. destruct (IH (Z.gcd g v)) as [H1 H2].
  split; [by apply (Z.divide_trans _ _ _ H1), Z.gcd_divide_l|]. constructor; [|done].
  by apply (Z.divide_trans _ _ _ H1), Z.gcd_divide_r.
Qed.

Lemma gcd_list_divides l : Forall (fun v => (gcd_list l | v)) l.
Proof. apply foldl_gcd_divides. Qed.

Lemma gcd_list_cons v l : 0 < v -> gcd_list (v :: l) = foldl Z.gcd v l.
Proof. intros Hv. unfold gcd_list. cbn [foldl]. by rewrite Z.gcd_0_l, Z.abs_eq by lia. Qed.

Lemma gcd_list_pos l : Forall (Z.lt 0) l -> l <> [] -> 0 < gcd_list l.
Proof.
  intros Hl Hne. destruct Hl as [|v l Hv _]; [done|]. pose proof (gcd_list_divides (v :: l)) as Hd.
  inversion_clear Hd as [|? ? Hv' _]. rewrite gcd_list_cons in * by done. destruct Hv' as [k E].
  assert (foldl Z.gcd v l <> 0) by (intros E0; rewrite E0 in E; lia).
  assert (0 <= foldl Z.gcd v l); [|lia].
  clear - Hv. revert v Hv. induction l as [|w l IH]; intros v Hv; cbn; [lia|].
  apply IH. pose proof (Z.gcd_nonneg v w). assert (Z.gcd v w <> 0) by (intros E%Z.gcd_eq_0_l; lia). lia.
Qed.

Lemma gcd_list_scale k l : 0 <= k -> gcd_list (map (Z.mul k) l) = k * gcd_list l.
Proof.
  intros Hk. unfold gcd_list. replace 0 with (k * 0) at 1 by lia. generalize 0. induction l as [|v l IH]; intros g; cbn; [done|].
  by rewrite <- IH, Z.gcd_mul_mono_l_nonneg by done.
Qed.

Lemma common_positive_divisor_Ok l g :
  Forall (fun v => in_i128 v = true) l ->
  common_positive_divisor l = Ok g <-> l <> [] /\ Forall (Z.lt 0) l /\ g = gcd_list l.
Proof.
  intros Hi. destruct Hi as [|v l Hv Hl]; [by split; [|intros []]|]. cbn [common_positive_divisor].
  destruct (Z.leb_spec v 0) as [Hle|Hpos].
  { split; [done|]. intros (_ & Hf & _). inversion_clear Hf. lia. }
  rewrite gcd_list_cons by done.
  transitivity (Forall (Z.lt 0) l /\ g = foldl Z.gcd v l).
  2:{ split; [intros [? ?]; split; [done|]; split; [by constructor|done]|]. intros (_ & Hf & ?). by inversion_clear Hf. }
  revert v Hv Hpos. induction Hl as [|w l Hw Hl IH]; intros v Hv Hpos; cbn [try_fold foldl].
  { split; [intros [= <-]; by split|by intros [_ ->]]. }
  destruct (Z.leb_spec w 0) as [Hle|Hw0].
  { split; [done|]. intros (Hf & _). inversion_clear Hf. lia. }
  cbn [mbind Result_bind]. rewrite positive_gcd_spec by done.
  assert (Hg : 0 < Z.gcd v w <= v).
  { pose proof (Z.gcd_nonneg v w). assert (Z.gcd v w <> 0) by (intros E%Z.gcd_eq_0_l; lia).
    pose proof (Z.divide_pos_le _ _ Hpos (Z.gcd_divide_l v w)). lia. }
  rewrite IH; [|ranges; lia|lia]. split.
  - intros [? ->]. split; [by constructor|done].
  - intros [Hf ->]. by inversion_clear Hf.
Qed.

(** Weights in lowest terms. *)
Definition reduced (ws : list Z) : list Z := map (fun w => w / gcd_list ws) ws.

Lemma reduced_scale k ws : 0 < k -> reduced (map (Z.mul k) ws) = reduced ws.
Proof.
  intros Hk. unfold reduced. rewrite gcd_list_scale by lia. rewrite map_map. apply map_ext_in. intros w Hw.
  pose proof (gcd_list_divides ws) as Hd. rewrite list.Forall_forall in Hd. specialize (Hd w (proj2 (list_elem_of_In _ _) Hw)).
  destruct (Z.eq_dec (gcd_list ws) 0) as [->|Hne]; [by rewrite Z.mul_0_r, !Zdiv_0_r|]. by rewrite Z.div_mul_cancel_l by lia.
Qed.

(** ** Sums of products *)

Definition dot (ws vs : list Z) : Z := foldr Z.add 0 (zip_with Z.mul ws vs).
Definition total (ws : list Z) : Z := foldr Z.add 0 ws.

Lemma reduced_mul ws :
  Forall (Z.lt 0) ws -> ws <> [] -> Forall2 (fun r w => gcd_list ws * r = w /\ 0 < r) (reduced ws) ws.
Proof.
  intros Hp Hne. pose proof (gcd_list_pos ws Hp Hne) as Hg. pose proof (gcd_list_divides ws) as Hd.
  unfold reduced. set (g := gcd_list ws) in *. clearbody g. clear Hne.
  induction Hp as [|w ws Hw Hp IH]; [constructor|]. inversion_clear Hd as [|? ? [k Ek] Hd'].
  cbn. constructor; [|by apply IH]. subst w. rewrite Z.div_mul by lia. split; nia.
Qed.

Lemma dot_reduced ws vs g rs :
  Forall2 (fun r w => g * r = w /\ 0 < r) rs ws -> dot ws vs = g * dot rs vs /\ total ws = g * total rs.
Proof.
  intros HF. unfold dot, total. revert vs. induction HF as [|r w rs ws [E _] HF IH]; intros vs; [by cbn; lia|].
  destruct vs as [|v vs]; cbn; [destruct (IH []); cbn in *; lia|]. destruct (IH vs). lia.
Qed.

Lemma average_add_Ok s w v s' :
  average_add s w v = Ok s' <->
  (0 < w /\ 0 <= scaled v) /\ in_i128 (w * scaled v) = true
  /\ in_i128 (numerator s + w * scaled v) = true /\ in_i128 (denominator s + w) = true
  /\ s' = {| numerator := numerator s + w * scaled v; denominator := denominator s + w |}.
Proof.
  unfold average_add. destruct (Z.leb_spec w 0), (Z.ltb_spec (scaled v) 0); cbn [orb]; try (split; [done|lia]).
  rewrite bind_Ok. setoid_rewrite bind_Ok. setoid_rewrite bind_Ok. setoid_rewrite ok_or_Ok.
  unfold i128_checked_mul, i128_checked_add. setoid_rewrite checked_Some. split.
  - intros (a & [? ->] & b & [? ->] & c & [? ->] & [= <-]). done.
  - intros (_ & ? & ? & ? & ->). eexists. split; [done|]. eexists. split; [done|]. eexists. done.
Qed.

(** The running sums are monotone, so only the last one matters. *)
Lemma average_fold_Ok {A} (w : A -> Z) (v : A -> FixedDecimal) (l : list A) s s' :
  0 <= numerator s -> 0 <= denominator s -> in_i128 (numerator s) = true -> in_i128 (denominator s) = true ->
  try_fold (fun s a => average_add s (w a) (v a)) s l = Ok s' <->
  Forall (fun a => 0 < w a /\ 0 <= scaled (v a)) l
  /\ in_i128 (numerator s + dot (map w l) (map (fun a => scaled (v a)) l)) = true
  /\ in_i128 (denominator s + total (map w l)) = true
  /\ s' = {| numerator := numerator s + dot (map w l) (map (fun a => scaled (v a)) l);
             denominator := denominator s + total (map w l) |}.
Proof.
  intros Hn Hd Ni Di. revert s Hn Hd Ni Di. induction l as [|a l IH]; intros s Hn Hd Ni Di.
  { cbn. rewrite !Z.add_0_r. split; [intros [= <-]; by destruct s|]. intros (_ & _ & _ & ->). by destruct s. }
  cbn [try_fold]. rewrite bind_Ok. setoid_rewrite average_add_Ok. cbn [map]. unfold dot, total. cbn [zip_with foldr].
  fold (dot (map w l) (map (fun a => scaled (v a)) l)) (total (map w l)). rewrite !Z.add_assoc.
  assert (Hnn : Forall (fun a => 0 < w a /\ 0 <= scaled (v a)) l ->
    0 <= dot (map w l) (map (fun a => scaled (v a)) l) /\ 0 <= total (map w l)).
  { clear. induction 1 as [|x l [Hw Hv] _ [IH1 IH2]]; [done|]. unfold dot, total in *. cbn. nia. }
  split.
  - intros (s1 & ((Hw & Hv) & H1 & H2 & H3 & ->) & E). apply IH in E as (Hf & E1 & E2 & ->); cbn [numerator denominator] in *; [|nia..|done|done].
    split; [by constructor|]. done.
  - intros (Hf & E1 & E2 & ->). inversion_clear Hf as [|? ? [Hw Hv] Hf']. destruct (Hnn Hf') as [Hd0 Ht0].
    assert (0 <= w a * scaled (v a)) by nia.
    exists {| numerator := numerator s + w a * scaled (v a); denominator := denominator s + w a |}.
    split; [split; [done|]; repeat split; ranges; lia|]. apply IH; cbn [numerator denominator]; [lia|lia|ranges; lia|ranges; lia|].
    done.
Qed.

(** ** Rounding an average *)

(** The loop of the long division keeps [coefficient * d + remainder = n * 10^i]. *)
Lemma expand_loop_Ok n d k c r :
  0 <= n -> 0 < d -> in_i128 d = true ->
  try_fold (expand_step d) (n / d, n mod d) (seq 0 k) = Ok (c, r) ->
  c * d + r = n * 10 ^ Z.of_nat k /\ 0 <= r < d /\ 0 <= c.
Proof.
  intros Hn Hd Di. revert c r. induction k as [|k IH]; intros c r.
  { cbn. intros [= <- <-]. pose proof (Z.div_mod n d ltac:(lia)). pose proof (Z.mod_pos_bound n d Hd).
    pose proof (Z.div_pos n d Hn Hd). lia. }
  rewrite seq_S, try_fold_app. intros E. apply bind_Ok in E as ([c0 r0] & E0 & E). apply IH in E0 as (E0 & Hr & Hc).
  cbn [try_fold] in E. apply bind_Ok in E as ([c1 r1] & E & [= <- <-]). unfold expand_step in E.
  apply bind_Ok in E as (x & [_ ->]%ok_or_Ok%checked_Some & E). apply bind_Ok in E as (y & [_ ->]%ok_or_Ok%checked_Some & E).
  apply bind_Ok in E as (z & [_ ->]%ok_or_Ok%checked_Some & [= <- <-]). unfold i128_div, i128_rem.
  rewrite Z.quot_div_nonneg, Z.rem_mod_nonneg by lia. rewrite Nat2Z.inj_succ, Z.pow_succ_r by lia.
  pose proof (Z.div_mod (r0 * 10) d ltac:(lia)). pose proof (Z.mod_pos_bound (r0 * 10) d Hd).
  pose proof (Z.div_pos (r0 * 10) d ltac:(lia) Hd). nia.
Qed.

Lemma expand_rational_scale_Ok n d k c :
  0 <= n -> 0 < d -> in_i128 d = true -> 0 <= k -> expand_rational_scale n d k = Ok c ->
  is_round_half_even (n * 10 ^ k) d c.
Proof.
  intros Hn Hd Di Hk. unfold expand_rational_scale, checked_div_rem.
  replace (d =? 0) with false by lia. replace (d =? -1) with false by lia. rewrite andb_false_r. cbn [orb mbind Result_bind].
  unfold i128_div, i128_rem. rewrite Z.quot_div_nonneg, Z.rem_mod_nonneg by lia. intros E.
  apply bind_Ok in E as ([c0 r0] & E0 & E). apply expand_loop_Ok in E0 as (E0 & Hr & Hc); [|done..].
  rewrite Z2Nat.id in E0 by done. apply bind_Ok in E as (x & [_ ->]%ok_or_Ok%checked_Some & E).
  rewrite Z.rem_mod_nonneg in E by lia.
  pose proof (is_round_half_even_floor (n * 10 ^ k) d c0 r0 Hd (eq_sym E0) Hr Hc) as HR.
  destruct (_ || _); [by apply ok_or_Ok, checked_Some in E as [_ ->]|by injection E as <-].
Qed.

(** Digits that the result can hold never overflow on the way. *)
Lemma expand_rational_scale_total n d k :
  0 <= n -> in_i128 n = true -> 0 < d -> in_i128 (10 * d) = true -> 0 <= k -> n * 10 ^ k < 10 ^ 29 * d ->
  is_ok (expand_rational_scale n d k) = true.
Proof.
  intros Hn Ni Hd Di Hk Hq. unfold expand_rational_scale, checked_div_rem.
  replace (d =? 0) with false by lia. replace (d =? -1) with false by lia. rewrite andb_false_r. cbn [orb mbind Result_bind].
  unfold i128_div at 1, i128_rem at 1. rewrite Z.quot_div_nonneg, Z.rem_mod_nonneg by lia.
  assert (H29 : 10 ^ 29 + 1 < 2 ^ 127) by reflexivity.
  assert (Hstep : forall m, (m <= Z.to_nat k)%nat -> exists c r, try_fold (expand_step d) (n / d, n mod d) (seq 0 m) = Ok (c, r)
    /\ c * d + r = n * 10 ^ Z.of_nat m /\ 0 <= r < d /\ 0 <= c).
  { induction m as [|m IH]; intros Hm.
    { eexists _, _. split; [reflexivity|]. apply (expand_loop_Ok n d 0 _ _ Hn Hd); [ranges; lia|done]. }
    destruct IH as (c & r & E & Ec & Hr & Hc); [lia|]. rewrite seq_S, try_fold_app, E. cbn [mbind Result_bind try_fold].
    pose proof (Z.div_mod (r * 10) d ltac:(lia)) as Hdm. pose proof (Z.mod_pos_bound (r * 10) d Hd) as Hmb.
    pose proof (Z.div_pos (r * 10) d ltac:(lia) Hd) as Hdp.
    assert (Hc' : c * 10 + r * 10 / d < 10 ^ 29).
    { assert (Hle : (c * 10 + r * 10 / d) * d <= n * 10 ^ k); [|nia].
      transitivity (n * 10 ^ Z.of_nat (S m)).
      - rewrite Nat2Z.inj_succ, Z.pow_succ_r by lia. nia.
      - apply Z.mul_le_mono_nonneg_l; [done|]. apply Z.pow_le_mono_r; lia. }
    unfold expand_step, i128_checked_mul, i128_checked_add, checked.
    replace (in_i128 (c * 10)) with true by (symmetry; ranges; lia). cbn [ok_or mbind Result_bind].
    replace (in_i128 (r * 10)) with true by (symmetry; ranges; lia). cbn [ok_or mbind Result_bind].
    unfold i128_div, i128_rem. rewrite Z.quot_div_nonneg, Z.rem_mod_nonneg by lia.
    replace (in_i128 (c * 10 + r * 10 / d)) with true by (symmetry; ranges; lia). cbn [ok_or mbind Result_bind].
    eexists _, _. split; [done|]. rewrite Nat2Z.inj_succ, Z.pow_succ_r by lia. nia. }
  destruct (Hstep (Z.to_nat k) ltac:(lia)) as (c & r & E & Ec & Hr & Hc). rewrite Z2Nat.id in Ec by done.
  rewrite E. cbn [mbind Result_bind]. unfold i128_checked_sub, i128_checked_add, checked.
  replace (in_i128 (d - r)) with true by (symmetry; ranges; lia). cbn [ok_or mbind Result_bind].
  assert (c < 10 ^ 29) by nia. replace (in_i128 (c + 1)) with true by (symmetry; ranges; lia). by destruct (_ || _).
Qed.

(** What an average of [num / den] rounds to at a scale. *)
Definition rounds_to (num den s : Z) (u : UnitRef) (d : DecimalValue) : Prop :=
  exists q, is_round_half_even (num * 10 ^ s) (den * 10 ^ 12) q /\ decimal_value_new (to_string q) s u = Ok d.

Lemma rounds_to_value num den s u d : 0 <= s -> rounds_to num den s u d ->
  exists q, is_round_half_even (num * 10 ^ s) (den * 10 ^ 12) q /\ value d = in_units q s /\ value_unit d = u /\ wf_decimal d.
Proof. intros Hs (q & Hq & E). apply new_printed in E as (? & ? & ? & ? & ?); [|done]. eauto. Qed.

Lemma rounds_to_unique num den s u d d' : 0 < den -> rounds_to num den s u d -> rounds_to num den s u d' -> d = d'.
Proof.
  intros Hd (q & Hq & E) (q' & Hq' & E'). assert (q' = q) as -> by (eapply is_round_half_even_unique; [|done..]; nia).
  congruence.
Qed.

Lemma rounds_to_scale k num den s u d : 0 < k -> rounds_to (k * num) (k * den) s u d <-> rounds_to num den s u d.
Proof.
  intros Hk. unfold rounds_to. setoid_rewrite <- (Z.mul_assoc k). setoid_rewrite (is_round_half_even_scale k); [|done]. done.
Qed.

Lemma average_coefficient_Ok n d s q :
  0 <= n -> 0 < d -> in_i128 n = true -> in_i128 d = true -> 0 <= s -> average_coefficient n d s = Ok q ->
  is_round_half_even (n * 10 ^ s) (d * 10 ^ 12) q.
Proof.
  intros Hn Hd Ni Di Hs. unfold average_coefficient, FIXED_DECIMAL_SCALE. intros Eq. destruct (Z.leb_spec s 12).
  - rewrite checked_power_of_ten_Ok in Eq by lia. cbn [mbind Result_bind] in Eq.
    apply bind_Ok in Eq as (f & [Hf ->]%ok_or_Ok%checked_Some & Eq). set (p := 10 ^ (12 - s)) in *.
    assert (Hp : 0 < p) by (apply Z.pow_pos_nonneg; lia).
    apply round_div_ties_even_Ok in Eq as [Eq _]; [|done|nia|done].
    assert (Hs0 : 0 < 10 ^ s) by (apply Z.pow_pos_nonneg; lia).
    apply (is_round_half_even_scale (10 ^ s)) in Eq; [|done].
    rewrite (Z.mul_comm n). replace (d * 10 ^ 12) with (10 ^ s * (d * p)); [done|].
    unfold p. replace 12 with (s + (12 - s)) at 2 by lia. rewrite Z.pow_add_r by lia. ring.
  - apply expand_rational_scale_Ok in Eq; [|done|lia|done|lia].
    apply (is_round_half_even_scale (10 ^ 12)) in Eq; [|done]. rewrite (Z.mul_comm d).
    replace (n * 10 ^ s) with (10 ^ 12 * (n * 10 ^ (s - 12))); [done|].
    replace s with (12 + (s - 12)) at 2 by lia. rewrite Z.pow_add_r by lia. ring.
Qed.

Lemma rational_average_Ok n d s u r :
  in_i128 n = true -> in_i128 d = true -> 0 <= s ->
  rational_weighted_average_to_decimal n d s u = Ok r -> 0 <= n /\ 0 < d /\ s <= 28 /\ rounds_to n d s u r.
Proof.
  intros Ni Di Hs. unfold rational_weighted_average_to_decimal, MAX_DECIMAL_SCALE. intros E.
  destruct (_ || _) eqn:Eg; [done|]. breflect. do 2 (split; [lia|]). split; [done|].
  apply bind_Ok in E as (q & Eq & E). apply map_err_Ok in E. exists q. split; [|done].
  by apply average_coefficient_Ok; [|lia|..].
Qed.

(** The denominators that leave room for the division, and the quotients that have 28 digits. *)
Definition average_fits (n d s : Z) : Prop :=
  in_i128 n = true /\ in_i128 (d * 10 ^ Z.max 1 (12 - s)) = true /\ n * 10 ^ s < (10 ^ 28 - 1) * (d * 10 ^ 12).

Lemma average_coefficient_total n d s :
  0 <= n -> 0 < d -> 0 <= s <= 28 -> average_fits n d s -> exists q, average_coefficient n d s = Ok q.
Proof.
  intros Hn Hd Hs (Ni & Fi & Hq). unfold average_coefficient, FIXED_DECIMAL_SCALE. destruct (Z.leb_spec s 12).
  - rewrite checked_power_of_ten_Ok by lia. cbn [mbind Result_bind]. unfold i128_checked_mul, checked.
    set (p := 10 ^ (12 - s)) in *. assert (Hp : 0 < p) by (apply Z.pow_pos_nonneg; lia).
    assert (Hdp : in_i128 (d * p) = true).
    { assert (p <= 10 ^ Z.max 1 (12 - s)) by (apply Z.pow_le_mono_r; lia). ranges. nia. }
    rewrite Hdp. cbn [ok_or mbind Result_bind]. pose proof (Z.div_mod n (d * p) ltac:(nia)) as Hdm.
    pose proof (Z.mod_pos_bound n (d * p) ltac:(nia)) as Hmb. pose proof (Z.div_pos n (d * p) Hn ltac:(nia)) as Hdiv.
    pose proof (is_round_half_even_floor n (d * p) (n / (d * p)) (n mod (d * p)) ltac:(nia) ltac:(lia) Hmb Hdiv) as Hr.
    eexists. apply round_div_ties_even_Ok; [done|nia|done|]. split; [exact Hr|].
    pose proof (round_half_even_abs n (d * p) _ ltac:(nia) Hr) as Hle. destruct (_ || _); ranges; lia.
  - assert (Ht : is_ok (expand_rational_scale n d (s - 12)) = true).
    { apply expand_rational_scale_total; [done|done|done| |lia|].
      - replace (Z.max 1 (12 - s)) with 1 in Fi by lia. by rewrite Z.mul_comm.
      - replace s with (12 + (s - 12)) in Hq by lia. rewrite Z.pow_add_r in Hq by lia. nia. }
    destruct (expand_rational_scale n d (s - 12)) as [q|]; [by exists q|done].
Qed.

Lemma rational_average_total n d s u :
  0 <= n -> 0 < d -> 0 <= s <= 28 -> average_fits n d s ->
  exists r, rational_weighted_average_to_decimal n d s u = Ok r.
Proof.
  intros Hn Hd Hs Hf. destruct (average_coefficient_total n d s Hn Hd Hs Hf) as [q Eq]. destruct Hf as (Ni & Fi & Hq).
  assert (Hd' : in_i128 d = true).
  { assert (1 <= 10 ^ Z.max 1 (12 - s)) by (change 1 with (10 ^ 0) at 1; apply Z.pow_le_mono_r; lia). ranges. nia. }
  assert (Hqb : Z.abs q < 10 ^ 28).
  { destruct (average_coefficient_Ok _ _ _ _ Hn Hd Ni Hd' (proj1 Hs) Eq) as [Hr _].
    rewrite (Z.abs_eq (d * 10 ^ 12)) in Hr by lia. assert (0 <= n * 10 ^ s) by nia. nia. }
  unfold rational_weighted_average_to_decimal, MAX_DECIMAL_SCALE. replace (n <? 0) with false by lia.
  replace (d <=? 0) with false by lia. replace (28 <? s) with false by lia. cbn [orb]. rewrite Eq. cbn [mbind Result_bind].
  destruct (decimal_value_new_total q s u Hqb Hs) as [r ->]. by exists r.
Qed.

(** ** The five averages *)

Abbreviation Averaged := (PortfolioMetricPosition * PortfolioBondMetricFacts)%type.

(** The three weights of a position, as integers: its market value and notional in units of the twelfth
    decimal place, and the market value times the modified duration. *)
Definition mv_weight (p : Averaged) : Z := value (market_value p.1) / 10 ^ 16.
Definition notional_weight (p : Averaged) : Z := scaled (signed_notional p.1).
Definition dollar_weight (p : Averaged) : Z := mv_weight p * scaled (fact_duration p.2).

Definition raw_of (p : Averaged) : RawWeightedPosition := {|
  raw_market_value := mv_weight p; raw_notional := notional_weight p; ytm_weight := dollar_weight p; raw_metrics := p.2
|}.

(** The values of a position are those of machine integers and normal decimals. *)
Definition wf_averaged (p : Averaged) : Prop := wf_decimal (market_value p.1) /\ wf_fixed (signed_notional p.1).

(** What [weighted_averages] asks of a position. *)
Record averageable (units : PortfolioWeightedMetricUnits) (p : Averaged) : Prop := {
  averaged_units : fact_units p.2 = units;
  averaged_value : value (market_value p.1) = mv_weight p * 10 ^ 16 /\ in_i128 (mv_weight p) = true /\ 0 < mv_weight p;
  averaged_duration : 0 < scaled (fact_duration p.2) /\ in_i128 (dollar_weight p) = true
}.

Lemma raw_position_Ok units p r :
  wf_averaged p -> raw_position units p = Ok r <-> averageable units p /\ r = raw_of p.
Proof.
  intros [Hd _]. destruct p as [position metrics]. cbn [fst] in Hd. unfold raw_position, checked_raw_product.
  destruct (decide (fact_units metrics = units)) as [Eu|Hu].
  2:{ rewrite bool_decide_false by done. by split; [|intros [[] _]]. }
  rewrite bool_decide_true by done. cbn [negb]. rewrite bind_Ok. setoid_rewrite (decimal_to_fixed_Ok _ _ Hd). split.
  - intros (x & [Hv Hx] & E). apply bind_Ok in E as (w & Ew & [= <-]). destruct (_ || _) eqn:Eg; [done|]. breflect.
    apply ok_or_Ok, checked_Some in Ew as [Hw ->].
    assert (Em : mv_weight (position, metrics) = scaled x) by (unfold mv_weight; cbn [fst]; by rewrite Hv, Z.div_mul).
    unfold raw_of, notional_weight, dollar_weight. rewrite Em. split; [|done].
    split; cbn [fst snd]; [done|by rewrite Em|]. unfold dollar_weight. rewrite Em. by split.
  - intros [[_ (Hv & Hi & Hp) [Hdur Hw]] ->]. exists (from_scaled (mv_weight (position, metrics))).
    split; [done|]. cbn [scaled fst snd] in *. destruct (Z.leb_spec (mv_weight (position, metrics)) 0); [lia|].
    destruct (Z.leb_spec (scaled (fact_duration metrics)) 0); [lia|]. cbn [orb]. unfold i128_checked_mul, checked.
    change (mv_weight (position, metrics) * scaled (fact_duration metrics)) with (dollar_weight (position, metrics)). by rewrite Hw.
Qed.

(** The five sums grow independently of each other. *)
Lemma add_sums_fold units dv s l s' :
  try_fold (add_sums units dv) s l = Ok s' <->
  Forall (fun p => fact_units (raw_metrics p) = units) l
  /\ try_fold (fun a p => average_add a (i128_div (ytm_weight p) (ytm_weight_divisor dv)) (fact_ytm (raw_metrics p))) (sum_ytm s) l
     = Ok (sum_ytm s')
  /\ try_fold (fun a p => average_add a (i128_div (raw_market_value p) (market_value_divisor dv)) (fact_duration (raw_metrics p)))
       (sum_duration s) l = Ok (sum_duration s')
  /\ try_fold (fun a p => average_add a (i128_div (raw_market_value p) (market_value_divisor dv)) (fact_convexity (raw_metrics p)))
       (sum_convexity s) l = Ok (sum_convexity s')
  /\ try_fold (fun a p => average_add a (i128_div (raw_notional p) (notional_divisor dv)) (fact_coupon_rate (raw_metrics p)))
       (sum_coupon s) l = Ok (sum_coupon s')
  /\ try_fold (fun a p => average_add a (i128_div (raw_notional p) (notional_divisor dv)) (fact_remaining_years (raw_metrics p)))
       (sum_remaining s) l = Ok (sum_remaining s').
Proof.
  revert s. induction l as [|p l IH]; intros s; cbn [try_fold].
  { destruct s, s'; cbn. split; [by intros [= -> -> -> -> ->]|by intros (_ & [= ->] & [= ->] & [= ->] & [= ->] & [= ->])]. }
  rewrite bind_Ok. setoid_rewrite IH. clear IH. rewrite !bind_Ok, Forall_cons. unfold add_sums at 1.
  destruct (decide (fact_units (raw_metrics p) = units)) as [Eu|Hu].
  2:{ rewrite bool_decide_false by done. split; [by intros (? & ? & _)|by intros ([? _] & _)]. }
  rewrite bool_decide_true by done. cbn [negb]. split.
  - intros (s1 & E & HF & F1 & F2 & F3 & F4 & F5). res_simp. cbn in *. split; [done|].
    do 4 (split; [by eexists|]). by eexists.
  - intros ([_ HF] & (a1 & E1 & F1) & (a2 & E2 & F2) & (a3 & E3 & F3) & (a4 & E4 & F4) & (a5 & E5 & F5)).
    rewrite E1, E2, E3, E4, E5. cbn [mbind Result_bind]. eexists. split; [done|]. done.
Qed.

Definition zero_average : RawWeightedAverage := {| numerator := 0; denominator := 0 |}.
Definition zero_sums : WeightedSums := {|
  sum_ytm := zero_average; sum_duration := zero_average; sum_convexity := zero_average; sum_coupon := zero_average;
  sum_remaining := zero_average
|}.

(** The average of values under weights in lowest terms, when its sums fit. *)
Definition average_of (ws : list Z) (vs : list FixedDecimal) (s : Z) (u : UnitRef) (d : DecimalValue) : Prop :=
  Forall (fun v => 0 <= scaled v) vs
  /\ in_i128 (dot (reduced ws) (map scaled vs)) = true /\ in_i128 (total (reduced ws)) = true
  /\ rational_weighted_average_to_decimal (dot (reduced ws) (map scaled vs)) (total (reduced ws)) s u = Ok d.

Lemma average_fold_of (ps : list Averaged) (w : RawWeightedPosition -> Z) (v : PortfolioBondMetricFacts -> FixedDecimal) s u d :
  Forall (Z.lt 0) (map w (map raw_of ps)) -> ps <> [] ->
  (exists a, try_fold (fun a p => average_add a (i128_div (w p) (gcd_list (map w (map raw_of ps)))) (v (raw_metrics p)))
      zero_average (map raw_of ps) = Ok a /\ into_decimal a s u = Ok d)
  <-> average_of (map w (map raw_of ps)) (map (fun p => v p.2) ps) s u d.
Proof.
  intros Hp Hne. set (ws := map w (map raw_of ps)) in *.
  assert (Hg : 0 < gcd_list ws) by (apply gcd_list_pos; [done|by destruct ps]).
  assert (Ew : map (fun p => i128_div (w p) (gcd_list ws)) (map raw_of ps) = reduced ws).
  { unfold reduced. set (g := gcd_list ws) in *. clearbody g. unfold ws. rewrite !map_map. apply map_ext_in. intros p Hin.
    unfold i128_div. apply Z.quot_div_nonneg; [|done]. rewrite list.Forall_forall in Hp. apply Z.lt_le_incl, Hp, list_elem_of_In.
    unfold ws. rewrite map_map. by apply (in_map (fun p => w (raw_of p))). }
  assert (Ev : map (fun p => scaled (v (raw_metrics p))) (map raw_of ps) = map scaled (map (fun p => v p.2) ps))
    by (rewrite !map_map; done).
  setoid_rewrite average_fold_Ok; [|done..]. rewrite Ew, Ev. cbn [numerator denominator zero_average]. rewrite !Z.add_0_l.
  unfold average_of, into_decimal.
  assert (HF : Forall (fun a => 0 < i128_div (w a) (gcd_list ws) /\ 0 <= scaled (v (raw_metrics a))) (map raw_of ps)
    <-> Forall (fun v => 0 <= scaled v) (map (fun p => v p.2) ps)).
  { assert (Hr : Forall (Z.lt 0) (map (fun p => i128_div (w p) (gcd_list ws)) (map raw_of ps))).
    { rewrite Ew. eapply Forall2_Forall_l; [apply (reduced_mul ws Hp); by destruct ps|]. apply Forall_true. by intros y x [_ ?]. }
    rewrite !Forall_map in *. rewrite !list.Forall_forall in *. naive_solver. }
  setoid_rewrite HF. split.
  - intros (a & (H1 & H2 & H3 & ->) & E). done.
  - intros (H1 & H2 & H3 & E). eexists. split; [done|]. done.
Qed.

Lemma raw_map (w : RawWeightedPosition -> Z) (f : Averaged -> Z) ps :
  (forall p, w (raw_of p) = f p) -> map w (map raw_of ps) = map f ps.
Proof. intros E. rewrite map_map. by apply map_ext. Qed.

(** The five averages of positions, each under its weights in lowest terms. *)
Record averages_of (units : PortfolioWeightedMetricUnits) (scales : PortfolioMetricOutputScales) (ps : list Averaged)
    (a : WeightedAverages) : Prop := {
  of_ytm : average_of (map dollar_weight ps) (map (fun p => fact_ytm p.2) ps) (scale_rate scales) (unit_ytm units)
    (average_ytm a);
  of_duration : average_of (map mv_weight ps) (map (fun p => fact_duration p.2) ps) (scale_years scales)
    (unit_duration units) (average_duration a);
  of_convexity : average_of (map mv_weight ps) (map (fun p => fact_convexity p.2) ps) (scale_years_squared scales)
    (unit_convexity units) (average_convexity a);
  of_coupon : average_of (map notional_weight ps) (map (fun p => fact_coupon_rate p.2) ps) (scale_rate scales)
    (unit_coupon_rate units) (average_coupon_rate a);
  of_remaining : average_of (map notional_weight ps) (map (fun p => fact_remaining_years p.2) ps) (scale_years scales)
    (unit_remaining_years units) (average_remaining_years a)
}.

Definition divisors_of (ps : list Averaged) : WeightDivisors := {|
  market_value_divisor := gcd_list (map mv_weight ps);
  notional_divisor := gcd_list (map notional_weight ps);
  ytm_weight_divisor := gcd_list (map dollar_weight ps)
|}.

Lemma first_sums_zero units dv r :
  fact_units (raw_metrics r) = units -> first_sums dv r = add_sums units dv zero_sums r.
Proof. intros <-. unfold add_sums. by rewrite bool_decide_true. Qed.

Lemma weights_positive units ps :
  Forall (averageable units) ps -> Forall (fun p => 0 < notional_weight p) ps ->
  Forall (Z.lt 0) (map mv_weight ps) /\ Forall (Z.lt 0) (map notional_weight ps) /\ Forall (Z.lt 0) (map dollar_weight ps).
Proof.
  intros HF HN. rewrite !Forall_map. split; [|split; [done|]]; (eapply Forall_impl; [exact HF|]);
    intros p [_ (_ & _ & ?) [? _]]; [done|]. unfold dollar_weight. cbn. nia.
Qed.

(** From the sums to the averages. *)
Lemma sums_Ok units scales ps a :
  ps <> [] -> Forall (averageable units) ps -> Forall (fun p => 0 < notional_weight p) ps ->
  (sums ← try_fold (add_sums units (divisors_of ps)) zero_sums (map raw_of ps);
   ytm ← into_decimal (sum_ytm sums) (scale_rate scales) (unit_ytm units);
   duration ← into_decimal (sum_duration sums) (scale_years scales) (unit_duration units);
   convexity ← into_decimal (sum_convexity sums) (scale_years_squared scales) (unit_convexity units);
   coupon ← into_decimal (sum_coupon sums) (scale_rate scales) (unit_coupon_rate units);
   remaining ← into_decimal (sum_remaining sums) (scale_years scales) (unit_remaining_years units);
   Ok {| average_ytm := ytm; average_duration := duration; average_convexity := convexity;
         average_coupon_rate := coupon; average_remaining_years := remaining |}) = Ok a
  <-> averages_of units scales ps a.
Proof.
  intros Hne HF HN. destruct (weights_positive units ps HF HN) as (P1 & P2 & P3).
  pose proof (raw_map raw_market_value mv_weight ps (fun _ => eq_refl)) as E1.
  pose proof (raw_map raw_notional notional_weight ps (fun _ => eq_refl)) as E2.
  pose proof (raw_map ytm_weight dollar_weight ps (fun _ => eq_refl)) as E3.
  rewrite <- E1 in P1. rewrite <- E2 in P2. rewrite <- E3 in P3.
  pose proof (average_fold_of ps ytm_weight fact_ytm (scale_rate scales) (unit_ytm units) (average_ytm a) P3 Hne) as A1.
  pose proof (average_fold_of ps raw_market_value fact_duration (scale_years scales) (unit_duration units) (average_duration a) P1 Hne) as A2.
  pose proof (average_fold_of ps raw_market_value fact_convexity (scale_years_squared scales) (unit_convexity units) (average_convexity a) P1 Hne) as A3.
  pose proof (average_fold_of ps raw_notional fact_coupon_rate (scale_rate scales) (unit_coupon_rate units) (average_coupon_rate a) P2 Hne) as A4.
  pose proof (average_fold_of ps raw_notional fact_remaining_years (scale_years scales) (unit_remaining_years units) (average_remaining_years a) P2 Hne) as A5.
  rewrite E3 in A1. rewrite E1 in A2, A3. rewrite E2 in A4, A5.
  assert (HU : Forall (fun p => fact_units (raw_metrics p) = units) (map raw_of ps)).
  { rewrite Forall_map. eapply Forall_impl; [exact HF|]. by intros p []. }
  split.
  - intros E. res_simp. rename select (try_fold _ _ _ = Ok _) into Es.
    apply add_sums_fold in Es as (_ & F1 & F2 & F3 & F4 & F5). cbn in *.
    split; [apply A1|apply A2|apply A3|apply A4|apply A5]; by eexists.
  - intros [O1 O2 O3 O4 O5]. apply A1 in O1 as (a1 & F1 & D1). apply A2 in O2 as (a2 & F2 & D2). apply A3 in O3 as (a3 & F3 & D3).
    apply A4 in O4 as (a4 & F4 & D4). apply A5 in O5 as (a5 & F5 & D5).
    set (s := {| sum_ytm := a1; sum_duration := a2; sum_convexity := a3; sum_coupon := a4; sum_remaining := a5 |}).
    rewrite (proj2 (add_sums_fold units (divisors_of ps) zero_sums (map raw_of ps) s) (conj HU (conj F1 (conj F2 (conj F3 (conj F4 F5)))))).
    cbn [mbind Result_bind]. unfold s. cbn. rewrite D1, D2, D3, D4, D5. by destruct a.
Qed.

Lemma divisor_of (w : RawWeightedPosition -> Z) (f : Averaged -> Z) units l g :
  (forall p, w (raw_of p) = f p) -> (forall p, averageable units p -> wf_averaged p -> in_i128 (f p) = true) ->
  l <> [] -> Forall wf_averaged l -> Forall (averageable units) l ->
  common_positive_divisor (map w (map raw_of l)) = Ok g <-> Forall (fun p => 0 < f p) l /\ g = gcd_list (map f l).
Proof.
  intros E Hf Hne Hwf HF. rewrite (raw_map w f) by done. rewrite common_positive_divisor_Ok.
  - rewrite Forall_map. split; [by intros (_ & ? & ?)|]. intros [? ?]. split; [by destruct l|done].
  - rewrite Forall_map. rewrite !list.Forall_forall in *. eauto.
Qed.

(** The averages exist exactly when every position has the units of the first and positive weights, and the
    sums under the weights in lowest terms fit. *)
Lemma weighted_averages_Ok p ps scales a :
  let units := fact_units p.2 in
  Forall wf_averaged (p :: ps) ->
  weighted_averages (p :: ps) scales = Ok a <->
  Forall (averageable units) (p :: ps) /\ Forall (fun p => 0 < notional_weight p) (p :: ps)
  /\ averages_of units scales (p :: ps) a.
Proof.
  intros units Hwf. unfold weighted_averages. cbn [hd_error ok_or mbind Result_bind]. fold units.
  set (l := p :: ps) in *. assert (Hne : l <> []) by done.
  destruct (try_map (raw_position units) l) as [rs|e] eqn:Er.
  2:{ split; [done|]. intros (HF & _). exfalso.
      assert (Hok : try_map (raw_position units) l = Ok (map raw_of l)); [|congruence].
      apply (try_map_pure _ (averageable units) raw_of); [|done].
      eapply Forall_impl; [exact Hwf|]. intros x Hx r. by apply raw_position_Ok. }
  apply (try_map_pure _ (averageable units) raw_of) in Er as [HF ->];
    [|eapply Forall_impl; [exact Hwf|]; intros x Hx r; by apply raw_position_Ok].
  cbn [mbind Result_bind].
  pose proof (fun g => divisor_of raw_market_value mv_weight units l g (fun _ => eq_refl)
    ltac:(by intros ? [_ (_ & ? & _) _] _) Hne Hwf HF) as D1.
  pose proof (fun g => divisor_of raw_notional notional_weight units l g (fun _ => eq_refl)
    ltac:(by intros ? _ [_ ?]) Hne Hwf HF) as D2.
  pose proof (fun g => divisor_of ytm_weight dollar_weight units l g (fun _ => eq_refl)
    ltac:(by intros ? [_ _ [_ ?]] _) Hne Hwf HF) as D3.
  assert (Hu : fact_units (raw_metrics (raw_of p)) = units) by done.
  destruct (decide (Forall (fun p => 0 < notional_weight p) l)) as [HN|HN].
  - destruct (weights_positive units l HF HN) as (P1 & _ & P3). rewrite Forall_map in P1, P3.
    rewrite (proj2 (D1 _) (conj P1 eq_refl)), (proj2 (D2 _) (conj HN eq_refl)), (proj2 (D3 _) (conj P3 eq_refl)).
    cbn [mbind Result_bind]. fold (divisors_of l).
    pose proof (sums_Ok units scales l a Hne HF HN) as HS. unfold l in HS at 2. cbn [map try_fold] in HS.
    change (map raw_of l) with (raw_of p :: map raw_of ps). cbn [hd_error tl ok_or mbind Result_bind].
    rewrite (first_sums_zero units) by done.
    destruct (add_sums units (divisors_of l) zero_sums (raw_of p)) as [s|e]; cbn [mbind Result_bind] in HS |- *; [|naive_solver].
    rewrite HS. naive_solver.
  - split; [|by intros (_ & ? & _)]. intros E. exfalso. apply HN.
    apply bind_Ok in E as (g1 & _ & E). apply bind_Ok in E as (g2 & E2 & _). by apply D2 in E2 as [? _].
Qed.

(** Averages in terms of the weights themselves. *)
Lemma average_of_rounds ws vs s u d :
  Forall (Z.lt 0) ws -> ws <> [] -> 0 <= s -> average_of ws vs s u d ->
  0 < total ws /\ rounds_to (dot ws (map scaled vs)) (total ws) s u d.
Proof.
  intros Hp Hne Hs (Hv & N & D & E). apply rational_average_Ok in E as (H0 & Ht & _ & E); [|done..].
  destruct (dot_reduced ws (map scaled vs) _ _ (reduced_mul ws Hp Hne)) as [-> ->].
  pose proof (gcd_list_pos ws Hp Hne). split; [nia|]. by apply rounds_to_scale.
Qed.

(** Multiplying all weights by a constant changes nothing. *)
Lemma average_of_scale k ws vs s u d : 0 < k -> average_of (map (Z.mul k) ws) vs s u d <-> average_of ws vs s u d.
Proof. intros Hk. unfold average_of. by rewrite reduced_scale. Qed.

(** ** Totals *)

Definition sum_values (ds : list DecimalValue) : Z := foldr (fun d acc => value d + acc) 0 ds.

(** Values of at most [s] decimal places whose magnitudes add up to 28 digits. *)
Record money_fits (s : Z) (u : UnitRef) (ds : list DecimalValue) : Prop := {
  money_scale : 0 <= s <= 28;
  money_each : Forall (fun d => wf_decimal d /\ value_unit d = u /\ scale d <= s) ds;
  money_sum : foldr (fun d acc => Z.abs (value d) + acc) 0 ds < 10 ^ 28 * 10 ^ (28 - s)
}.

Lemma add_fits_signed a b s :
  wf_decimal a -> wf_decimal b -> scale a <= s <= 28 -> scale b <= s ->
  Z.abs (value a) + Z.abs (value b) < 10 ^ 28 * 10 ^ (28 - s) -> add_fits a b.
Proof.
  intros Wa Wb Sa Sb Hsum. unfold add_fits. set (t := Z.max (scale a) (scale b)). cbv zeta.
  assert (Ht : 0 < 10 ^ (28 - t)) by (apply Z.pow_pos_nonneg; lia).
  rewrite (value_aligned a t), (value_aligned b t), !Z.abs_mul, (Z.abs_eq (10 ^ (28 - t))) in Hsum by (done || lia).
  pose proof (Z.pow_le_mono_r 10 (28 - s) (28 - t) ltac:(lia) ltac:(lia)) as Hp.
  assert (H28 : 10 ^ 28 < 2 ^ 96) by reflexivity.
  assert (Hlt : Z.abs (aligned a t) + Z.abs (aligned b t) < 10 ^ 28) by nia. lia.
Qed.

Section totals.
Context `{RustDecimalLaws}.

Lemma money_loop s u acc ds :
  0 <= s <= 28 -> Forall (fun d => wf_decimal d /\ value_unit d = u /\ scale d <= s) (acc :: ds) ->
  Z.abs (value acc) + foldr (fun d acc => Z.abs (value d) + acc) 0 ds < 10 ^ 28 * 10 ^ (28 - s) ->
  exists t, try_fold (fun total value => map_err map_domain_error (decimal_value_checked_add total value)) acc ds = Ok t
    /\ wf_decimal t /\ value t = value acc + sum_values ds.
Proof.
  intros Hs. revert acc. induction ds as [|d ds IH]; intros acc Hf Hsum.
  { exists acc. inversion_clear Hf. cbn. split; [done|]. split; [tauto|]. unfold sum_values. cbn. lia. }
  inversion_clear Hf as [|? ? (Wa & Ua & Sa) Hf']. inversion_clear Hf' as [|? ? (Wd & Ud & Sd) Hf''].
  cbn [foldr] in Hsum. assert (Hnn : 0 <= foldr (fun d acc => Z.abs (value d) + acc) 0 ds).
  { clear. induction ds; cbn; lia. }
  destruct (checked_add_exact acc d) as (r & Er & Wr & Ur & Sr & Vr); [done|done|congruence| |].
  { apply (add_fits_signed acc d s); done || lia. }
  destruct (IH r) as (t & Et & Wt & Vt).
  { constructor; [|done]. split; [done|]. split; [congruence|lia]. }
  { lia. }
  exists t. cbn [try_fold]. rewrite Er. cbn [map_err mbind Result_bind]. split; [done|]. split; [done|].
  unfold sum_values in *. cbn [foldr]. lia.
Qed.

(** A total is the exact sum, rounded once to the scale of its unit. *)
Lemma sum_money_Ok s u ds out r :
  money_fits s u ds -> 0 <= out -> sum_money ds out u = Ok r -> rounds_to (sum_values ds) (10 ^ 16) out u r.
Proof.
  intros [Hs Hf Hsum] Hout. destruct ds as [|d ds]; [done|]. unfold sum_money. cbn [hd_error ok_or mbind Result_bind tl].
  destruct (money_loop s u d ds Hs Hf Hsum) as (t & -> & Wt & Vt). cbn [mbind Result_bind]. intros E.
  apply bind_Ok in E as (x & Ex & E). apply decimal_to_fixed_Ok in Ex as [Vx Wx]; [|done].
  apply fixed_to_decimal_Ok in E as (_ & q & Hq & E); [|done..]. exists q. split; [|done].
  unfold sum_values. cbn [foldr]. fold (sum_values ds). rewrite <- Vt, Vx.
  apply (is_round_half_even_scale (10 ^ 16)) in Hq; [|done].
  replace (scaled x * 10 ^ 16 * 10 ^ out) with (10 ^ 16 * (scaled x * 10 ^ out)) by ring. done.
Qed.
End totals.

(** ** Key-rate totals *)

Lemma krd_topology_spec u ids totals :
  krd_topology u ids totals = true <->
  Forall (fun f => dv01_unit f = u) totals /\ NoDup (factor_id <$> totals)
  /\ Forall (fun f => factor_id f ∉ ids) totals.
Proof.
  revert ids. induction totals as [|f totals IH]; intros ids; cbn.
  { split; [|done]. intros _. split; [constructor|]. split; [apply NoDup_nil_2|constructor]. }
  rewrite !andb_true_iff, bool_decide_eq_true, negb_true_iff, <- not_true_iff_false, bset_contains_spec, IH.
  rewrite !Forall_cons, NoDup_cons. setoid_rewrite bset_insert_elem.
  assert (E : Forall (fun g => ~ (factor_id g = factor_id f \/ factor_id g ∈ ids)) totals
    <-> factor_id f ∉ factor_id <$> totals /\ Forall (fun g => factor_id g ∉ ids) totals).
  { rewrite !list.Forall_forall, list_elem_of_fmap. naive_solver. }
  rewrite E. tauto.
Qed.

Definition sum_scaled (fs : list FactorDv01) : Z := foldr (fun f acc => scaled (dv01_value f) + acc) 0 fs.

Lemma parallel_sum x fs y :
  wf_fixed x -> try_fold (fun sum factor => map_err map_domain_error (checked_add sum (dv01_value factor))) x fs = Ok y ->
  wf_fixed y /\ scaled y = scaled x + sum_scaled fs.
Proof.
  revert x. induction fs as [|f fs IH]; intros x Hx; cbn.
  { intros [= <-]. split; [done|]. unfold sum_scaled. cbn. lia. }
  intros E. apply bind_Ok in E as (z & Ez & E). apply map_err_Ok in Ez. pose proof (checked_add_wf _ _ _ Ez) as Wz.
  apply checked_add_Ok in Ez as [_ Vz]. apply IH in E as [Wy Vy]; [|done]. split; [done|]. unfold sum_scaled in *. cbn. lia.
Qed.

Lemma krd_summary_Ok totals s summary d :
  Forall (fun f => wf_fixed (dv01_value f)) totals -> 0 <= s -> krd_summary totals s = Ok (summary, d) ->
  exists u, totals <> [] /\ Forall (fun f => dv01_unit f = u) totals /\ NoDup (factor_id <$> totals)
    /\ summary = {| krd_totals := totals; parallel_dv01 := d |} /\ rounds_to (sum_scaled totals) 1 s u d.
Proof.
  intros Hf Hs. destruct totals as [|f fs]; [done|]. unfold krd_summary. cbn [hd_error ok_or mbind Result_bind tl]. intros E.
  destruct (krd_topology _ _ _) eqn:Et; [|done]. apply krd_topology_spec in Et as (Hu & Hn & _). cbn [negb] in E.
  apply bind_Ok in E as (x & Ex & E). apply bind_Ok in E as (r & Er & [= <- <-]). exists (dv01_unit f).
  inversion_clear Hf as [|? ? Hf0 Hf']. apply parallel_sum in Ex as [Wx Vx]; [|done].
  apply fixed_to_decimal_Ok in Er as (_ & q & Hq & Er); [|done..].
  do 4 (split; [done|]). exists q. split; [|done]. unfold sum_scaled. cbn [foldr]. fold (sum_scaled fs).
  rewrite <- Vx. done.
Qed.

(** ** Which positions are averaged *)

(** Why a position is left out of the averages. *)
Definition exclusion (p : PortfolioMetricPosition) : option PortfolioCoverageReason :=
  if is_positive (signed_notional p) then
    match eligibility p with
    | Bond _ => None
    | NonBond => Some NonBondExcludedFromWeightedAverages
    | MissingBondMetric => Some MissingBondMetricExcludedFromWeightedAverages
    end
  else Some ShortPositionExcludedFromWeightedAverages.

Definition averaged_position (p : PortfolioMetricPosition) : option Averaged :=
  if is_positive (signed_notional p) then match eligibility p with Bond metrics => Some (p, metrics) | _ => None end else None.

Lemma classify_Ok l reasons participating reasons' participating' :
  try_fold classify (reasons, participating) l = Ok (reasons', participating') ->
  participating' = participating ++ omap averaged_position l
  /\ (forall r, r ∈ reasons' <-> r ∈ reasons \/ Some r ∈ exclusion <$> l)
  /\ (bset_wf reasons -> bset_wf reasons').
Proof.
  revert reasons participating. induction l as [|p l IH]; intros reasons participating; cbn [try_fold].
  { intros [= -> ->]. cbn. rewrite app_nil_r. split; [done|]. split; [|done]. intros r. rewrite elem_of_nil. tauto. }
  intros E. apply bind_Ok in E as ([reasons1 participating1] & E1 & E). apply IH in E as (-> & Hr & Hw).
  assert (Hcase : (averaged_position p = None /\ participating1 = participating
      /\ exists r, exclusion p = Some r /\ reasons1 = bset_insert r reasons)
    \/ (exists a, averaged_position p = Some a /\ participating1 = participating ++ [a] /\ exclusion p = None /\ reasons1 = reasons)).
  { unfold classify in E1. unfold averaged_position, exclusion. destruct (is_positive (signed_notional p)); cbn [negb] in E1.
    - destruct (eligibility p) as [m| |].
      + apply bind_Ok in E1 as (x & _ & E1). destruct (is_positive x); [|done]. injection E1 as <- <-. right. eauto.
      + injection E1 as <- <-. left. eauto.
      + injection E1 as <- <-. left. eauto.
    - injection E1 as <- <-. left. eauto. }
  destruct Hcase as [(Ea & -> & r & Er & ->)|(a & Ea & -> & Er & ->)]; cbn [omap list_omap fmap list_fmap]; rewrite Ea, Er.
  - split; [done|]. split; [|intros ?; apply Hw, bset_insert_wf; done].
    intros r'. rewrite Hr, bset_insert_elem, elem_of_cons. naive_solver.
  - split; [by rewrite <- app_assoc|]. split; [|done]. intros r'. rewrite Hr, elem_of_cons. naive_solver.
Qed.

(** ** The aggregation *)

(** Positions as they are imported: normal decimals and machine integers, each by itself. *)
Definition wf_position (p : PortfolioMetricPosition) : Prop := wf_decimal (market_value p) /\ wf_fixed (signed_notional p).

Record wf_scales (scales : PortfolioMetricOutputScales) : Prop := {
  money_nonneg : 0 <= scale_money scales;
  rate_nonneg : 0 <= scale_rate scales;
  years_nonneg : 0 <= scale_years scales;
  years_squared_nonneg : 0 <= scale_years_squared scales;
  dv01_nonneg : 0 <= scale_dv01 scales
}.

(** The weighted average of a measure, rounded once. *)
Definition is_weighted_average (w : Averaged -> Z) (v : PortfolioBondMetricFacts -> FixedDecimal) (ps : list Averaged)
    (s : Z) (u : UnitRef) (d : option DecimalValue) : Prop :=
  exists a, d = Some a /\ 0 < total (map w ps)
    /\ rounds_to (dot (map w ps) (map (fun p => scaled (v p.2)) ps)) (total (map w ps)) s u a.

Record all_averaged (units : PortfolioWeightedMetricUnits) (scales : PortfolioMetricOutputScales) (ps : list Averaged)
    (m : PortfolioBasicMetrics) : Prop := {
  all_ytm : is_weighted_average dollar_weight fact_ytm ps (scale_rate scales) (unit_ytm units) (weighted_ytm m);
  all_duration : is_weighted_average mv_weight fact_duration ps (scale_years scales) (unit_duration units)
    (weighted_duration m);
  all_convexity : is_weighted_average mv_weight fact_convexity ps (scale_years_squared scales) (unit_convexity units)
    (weighted_convexity m);
  all_coupon : is_weighted_average notional_weight fact_coupon_rate ps (scale_rate scales) (unit_coupon_rate units)
    (weighted_coupon_rate m);
  all_remaining : is_weighted_average notional_weight fact_remaining_years ps (scale_years scales)
    (unit_remaining_years units) (weighted_remaining_years m)
}.

Lemma averages_of_all units scales ps a m :
  ps <> [] -> wf_scales scales -> Forall (averageable units) ps -> Forall (fun p => 0 < notional_weight p) ps ->
  averages_of units scales ps a ->
  weighted_ytm m = Some (average_ytm a) -> weighted_duration m = Some (average_duration a) ->
  weighted_convexity m = Some (average_convexity a) -> weighted_coupon_rate m = Some (average_coupon_rate a) ->
  weighted_remaining_years m = Some (average_remaining_years a) -> all_averaged units scales ps m.
Proof.
  intros Hne [_ S2 S3 S4 _] HF HN [O1 O2 O3 O4 O5] M1 M2 M3 M4 M5. destruct (weights_positive units ps HF HN) as (P1 & P2 & P3).
  assert (Hw : forall w v s u d, Forall (Z.lt 0) (map w ps) -> 0 <= s ->
    average_of (map w ps) (map (fun p => v p.2) ps) s u d -> is_weighted_average w v ps s u (Some d)).
  { intros w v s u d Hp Hs Ho. apply average_of_rounds in Ho as [Ht Hr]; [|done|by destruct ps|done].
    exists d. split; [done|]. split; [done|]. by rewrite map_map in Hr. }
  split; [rewrite M1|rewrite M2|rewrite M3|rewrite M4|rewrite M5]; apply Hw; done.
Qed.

Lemma averaged_complete positions :
  (forall r, Some r ∉ exclusion <$> positions) ->
  Forall2 (fun p a => a.1 = p /\ eligibility p = Bond a.2 /\ 0 < notional_weight a) positions (omap averaged_position positions).
Proof.
  induction positions as [|p ps IH]; intros Hr; [constructor|]. cbn.
  assert (E : exclusion p = None) by (destruct (exclusion p) as [r|] eqn:E; [|done]; destruct (Hr r); cbn; rewrite E; by left).
  unfold exclusion in E. unfold averaged_position at 1. destruct (is_positive (signed_notional p)) eqn:Ep; [|done].
  destruct (eligibility p) as [m| |] eqn:Ee; try done. constructor.
  - split; [done|]. split; [done|]. unfold is_positive in Ep. unfold notional_weight. cbn. lia.
  - apply IH. intros r Hin. apply (Hr r). cbn. by right.
Qed.

Lemma validate_positions_Ok positions :
  validate_positions positions = Ok tt ->
  positions <> [] /\ bset_wf (metric_position_id <$> positions)
  /\ exists u, (forall p, hd_error positions = Some p -> value_unit (market_value p) = u)
    /\ Forall (fun p => value_unit (market_value p) = u /\ value_unit (economic_pnl p) = u) positions.
Proof.
  unfold validate_positions. intros E. destruct (_ || _) eqn:Eg; [done|]. apply orb_false_iff in Eg as [Hne Hw].
  apply bool_decide_eq_false in Hne. split; [done|]. split.
  { apply windows_geb_strict. clear - Hw. induction positions as [|p [|q l] IH]; [done..|].
    cbn in Hw |- *. apply orb_false_iff in Hw as [-> Hw]. apply IH, Hw. }
  destruct positions as [|p l]; [done|]. cbn [head fmap option_fmap option_map] in E. apply fail_if_Ok in E.
  apply existsb_false_Forall in E. exists (value_unit (market_value p)). split; [by intros ? [= <-]|].
  eapply Forall_impl; [exact E|]. intros q Hq. cbn beta in Hq. apply orb_false_iff in Hq as [H1 H2].
  apply negb_false_iff, bool_decide_eq_true in H1, H2. naive_solver.
Qed.

(** What an aggregation reports, on its inputs. The two totals are sums of decimals of the library, which rounds
    without notice where the digits of a sum do not fit: they are what they should be where the amounts
    fit, [money_fits]. *)
Record aggregation_of (u : UnitRef) (positions : list PortfolioMetricPosition) (krd : list FactorDv01)
    (scales : PortfolioMetricOutputScales) (agg : PortfolioMetricAggregation) : Prop := {
  agg_positions : positions <> [] /\ bset_wf (metric_position_id <$> positions);
  agg_market_value s : money_fits s u (map market_value positions) ->
    rounds_to (sum_values (map market_value positions)) (10 ^ 16) (scale_money scales) u
      (total_market_value (basic_metrics agg));
  agg_pnl s : money_fits s u (map economic_pnl positions) ->
    rounds_to (sum_values (map economic_pnl positions)) (10 ^ 16) (scale_money scales) u
      (total_economic_pnl (basic_metrics agg));
  agg_krd : krd_totals (aggregated_krd agg) = krd /\ NoDup (factor_id <$> krd)
    /\ parallel_dv01 (aggregated_krd agg) = basic_dv01 (basic_metrics agg)
    /\ exists v, Forall (fun f => dv01_unit f = v) krd
         /\ rounds_to (sum_scaled krd) 1 (scale_dv01 scales) v (basic_dv01 (basic_metrics agg));
  agg_reasons r : r ∈ missing_reasons (metric_coverage agg) <-> Some r ∈ exclusion <$> positions;
  agg_counts : imported_count (metric_coverage agg) = Z.of_nat (List.length positions)
    /\ averaged_count (metric_coverage agg) = Z.of_nat (List.length (omap averaged_position positions));
  agg_mode : data_mode agg = if bool_decide (missing_reasons (metric_coverage agg) = []) then Real else Partial;
  agg_partial : missing_reasons (metric_coverage agg) <> [] ->
    weighted_ytm (basic_metrics agg) = None /\ weighted_duration (basic_metrics agg) = None
    /\ weighted_convexity (basic_metrics agg) = None /\ weighted_coupon_rate (basic_metrics agg) = None
    /\ weighted_remaining_years (basic_metrics agg) = None;
  agg_averages : missing_reasons (metric_coverage agg) = [] ->
    exists units, Forall2 (fun p a => a.1 = p /\ eligibility p = Bond a.2 /\ averageable units a /\ 0 < notional_weight a)
        positions (omap averaged_position positions)
      /\ all_averaged units scales (omap averaged_position positions) (basic_metrics agg)
}.

Section aggregate.
Context `{RustDecimalLaws}.

Lemma omap_averaged_wf positions :
  Forall wf_position positions -> Forall wf_averaged (omap averaged_position positions).
Proof.
  induction 1 as [|p ps [Wm Wn] _ IH]; cbn; [constructor|].
  unfold averaged_position at 1. destruct (is_positive _); [|done]. by destruct (eligibility p); [constructor|..].
Qed.

Lemma aggregate_averages positions scales averages reasons :
  Forall wf_position positions -> positions <> [] ->
  (forall r, r ∈ reasons <-> Some r ∈ exclusion <$> positions) -> reasons = [] ->
  weighted_averages (omap averaged_position positions) scales = Ok averages ->
  exists units, Forall2 (fun p a => a.1 = p /\ eligibility p = Bond a.2 /\ averageable units a /\ 0 < notional_weight a)
      positions (omap averaged_position positions)
    /\ Forall (averageable units) (omap averaged_position positions)
    /\ Forall (fun p => 0 < notional_weight p) (omap averaged_position positions)
    /\ averages_of units scales (omap averaged_position positions) averages.
Proof.
  intros Wp Hne Hr -> E. pose proof (omap_averaged_wf positions Wp) as Hwf.
  assert (HC : Forall2 (fun p a => a.1 = p /\ eligibility p = Bond a.2 /\ 0 < notional_weight a) positions
    (omap averaged_position positions)) by (apply averaged_complete; intros r Hin; by apply Hr, elem_of_nil in Hin).
  destruct (omap averaged_position positions) as [|a l] eqn:El; [by inversion HC; subst|].
  apply weighted_averages_Ok in E as (HF & HN & Ha); [|done]. exists (fact_units a.2). split; [|done].
  clear - HC HF. revert HF. induction HC as [|p b ps bs (H1 & H2 & H3) HC IH]; [constructor|]. intros HF.
  inversion_clear HF. constructor; [done|by apply IH].
Qed.

Lemma aggregate_spec u positions krd scales agg :
  (forall p, hd_error positions = Some p -> value_unit (market_value p) = u) ->
  Forall wf_position positions -> Forall (fun f => wf_fixed (dv01_value f)) krd -> wf_scales scales ->
  aggregate_portfolio_metrics positions krd scales = Ok agg -> aggregation_of u positions krd scales agg.
Proof.
  intros Hu Wp Wk Ws E. pose proof Ws as [S1 _ _ _ S5]. unfold aggregate_portfolio_metrics in E.
  apply guard_Ok in E as [Hv E]. apply validate_positions_Ok in Hv as (Hne & Hids & _).
  destruct (hd_error positions) as [p|] eqn:Ep; [|by destruct positions]. cbn [ok_or mbind Result_bind] in E.
  rewrite (Hu p eq_refl) in E.
  apply bind_Ok in E as (mv & Emv & E).
  apply bind_Ok in E as (pnl & Epnl & E).
  apply bind_Ok in E as ([summary dv01] & Ek & E). apply krd_summary_Ok in Ek as (v & _ & Kv & Kn & -> & Kr); [|done..].
  apply bind_Ok in E as ([reasons participating] & Ec & E). apply classify_Ok in Ec as (-> & Hr & _). cbn [app] in E.
  assert (Hr' : forall r, r ∈ reasons <-> Some r ∈ exclusion <$> positions).
  { intros r. rewrite Hr, elem_of_nil. naive_solver. }
  apply bind_Ok in E as (averages & Ea & [= <-]).
  assert (Hcase : (reasons = [] /\ exists a, averages = Some a /\ weighted_averages (omap averaged_position positions) scales = Ok a)
    \/ (reasons <> [] /\ averages = None)).
  { case_bool_decide as Er; [left|right]; (split; [done|]); [|by injection Ea].
    destruct (weighted_averages _ _) as [a|]; [|done]. injection Ea as <-. eauto. }
  split; cbn; try done.
  - intros s Hfit. by eapply sum_money_Ok.
  - intros s Hfit. by eapply sum_money_Ok.
  - split; [done|]. split; [done|]. split; [done|]. by exists v.
  - destruct Hcase as [[-> _]|[_ ->]]; [done|]. done.
  - intros Er. destruct Hcase as [(_ & a & -> & Ea')|[? _]]; [|done].
    destruct (aggregate_averages positions scales a reasons Wp Hne Hr' Er Ea') as (units & HC & HF & HN & HO).
    exists units. split; [done|]. eapply averages_of_all; [by destruct HC|done|done|done|exact HO|done..].
Qed.
End aggregate.

(** ** Merging the totals of members *)

Definition valid_factors (fs : list FactorDv01) : Prop := Forall (fun f => blank_or_padded (factor_id f) = false) fs.

Lemma add_exposures_valid ts ms rs : valid_factors ts -> add_exposures ts ms = Ok rs -> valid_factors rs.
Proof.
  unfold valid_factors. intros Ht. revert ms rs. induction Ht as [|t ts Hb Ht IH]; intros ms rs.
  { cbn. intros [= <-]. constructor. }
  destruct ms as [|m ms]; cbn [add_exposures]; [intros [= <-]; by constructor|]. intros E.
  destruct (_ || _); [done|]. apply bind_Ok in E as (x & _ & E). apply bind_Ok in E as (r & Er & [= <-]).
  constructor; [done|]. by eapply IH.
Qed.

(** Rebuilding a total with its own identifier never fails, so the loop is that of the domain. *)
Lemma merge_krd_add ts ms : valid_factors ts -> merge_krd ts ms = map_err map_domain_error (add_exposures ts ms).
Proof.
  intros Ht. revert ms. induction Ht as [|t ts Hb Ht IH]; intros ms; [by destruct ms|]. destruct ms as [|m ms]; [done|].
  cbn [merge_krd add_exposures]. destruct (_ || _); [done|]. destruct (checked_add _ _); cbn; [|done].
  unfold factor_dv01_new. rewrite Hb. cbn. rewrite IH. by destruct (add_exposures ts ms).
Qed.

Lemma merge_loop first members :
  valid_factors first ->
  try_fold (fun totals member =>
    if negb (List.length member =? List.length totals)%nat then Err lineage_error else merge_krd totals member) first
    (map exposures members)
  = map_err map_domain_error (try_fold (fun totals position =>
      if negb (List.length (exposures position) =? List.length totals)%nat then Err BrokenLineage
      else add_exposures totals (exposures position)) first members).
Proof.
  revert first. induction members as [|p ps IH]; intros first Hf; cbn [map try_fold]; [done|].
  destruct (_ =? _)%nat; cbn [negb mbind Result_bind]; [|done]. rewrite merge_krd_add by done.
  destruct (add_exposures first (exposures p)) as [rs|e] eqn:Er; cbn; [|done]. apply IH. by eapply add_exposures_valid.
Qed.

(** ** Properties *)

(** C18. What a successful aggregation of portfolio metrics reports. The positions have strictly increasing ids.
    Where the amounts fit the decimals of the library (all of one unit, of at most [s] decimal places, their magnitudes
    adding up to at most 28 digits, [money_fits]), the total market value and the total profit are the exact
    sums, rounded once, half to even, to the scale of their unit; outside this range the library's addition
    rounds without notice, and nothing is stated of that total. The parallel DV01 is always the exact sum of the key-rate
    totals, rounded once. The reasons of the coverage are exactly those for which some position is left out;
    averages are reported, and the mode is [Real], exactly when no position is, and then each average is the
    quotient of the exact weighted sum and the exact sum of the weights (market value, notional, or market
    value times duration for the yield), rounded once, whether or not the totals are exact. *)
Theorem aggregate_portfolio_metrics_correct `{RustDecimalLaws} u positions krd scales agg :
  (forall p, hd_error positions = Some p -> value_unit (market_value p) = u) ->
  Forall wf_position positions -> Forall (fun f => wf_fixed (dv01_value f)) krd -> wf_scales scales ->
  aggregate_portfolio_metrics positions krd scales = Ok agg -> aggregation_of u positions krd scales agg.
Proof. apply aggregate_spec. Qed.

(** Averages do not depend on the size of the portfolio: multiplying all market values by one constant
    and all notionals by another leaves the five averages as they are, and does not make the sums overflow,
    because weights are reduced before they are multiplied; only the weights themselves have to fit. *)
Theorem weighted_averages_scale_free j k p ps q qs scales a :
  0 < j -> 0 < k ->
  Forall2 (fun p q => q.2 = p.2 /\ value (market_value q.1) = k * value (market_value p.1)
    /\ notional_weight q = j * notional_weight p) (p :: ps) (q :: qs) ->
  Forall wf_averaged (p :: ps) -> Forall wf_averaged (q :: qs) ->
  Forall (fun q => in_i128 (mv_weight q) = true /\ in_i128 (dollar_weight q) = true) (q :: qs) ->
  weighted_averages (p :: ps) scales = Ok a -> weighted_averages (q :: qs) scales = Ok a.
Proof.
  intros Hj Hk HF2 Wp Wq Hfit E. apply weighted_averages_Ok in E as (HF & HN & [O1 O2 O3 O4 O5]); [|done].
  apply weighted_averages_Ok; [done|].
  assert (Hu : fact_units q.2 = fact_units p.2) by (inversion_clear HF2 as [|? ? ? ? (E2 & _) _]; by rewrite E2). rewrite Hu.
  remember (p :: ps) as l eqn:El. remember (q :: qs) as m eqn:Em. clear El Em Hu. set (units := fact_units p.2) in *. clearbody units.
  assert (HM : Forall2 (fun p q => q.2 = p.2 /\ mv_weight q = k * mv_weight p /\ dollar_weight q = k * dollar_weight p
      /\ notional_weight q = j * notional_weight p /\ averageable units q /\ 0 < notional_weight q) l m).
  { clear O1 O2 O3 O4 O5 Wp Wq. induction HF2 as [|x y l m (E2 & Ev & En) HF2 IH]; [constructor|].
    apply Forall_cons in HF as [[Au (Av & _ & Ap) [Ad Aw]] HF]. apply Forall_cons in HN as [Hn HN].
    apply Forall_cons in Hfit as [[F1 F2] Hfit]. constructor; [|by apply IH].
    assert (Em : mv_weight y = k * mv_weight x).
    { unfold mv_weight at 1. rewrite Ev, Av, Z.mul_assoc. by apply Z.div_mul. }
    split; [done|]. split; [done|]. split; [unfold dollar_weight; rewrite Em, E2; lia|]. split; [done|].
    split; [|nia]. split; [by rewrite E2| |by rewrite E2]. split; [rewrite Ev, Av, Em; lia|]. split; [done|]. nia. }
  clear HF2 Hfit HF HN Wp Wq.
  assert (Hmap : map mv_weight m = map (Z.mul k) (map mv_weight l) /\ map dollar_weight m = map (Z.mul k) (map dollar_weight l)
    /\ map notional_weight m = map (Z.mul j) (map notional_weight l)
    /\ (forall v : PortfolioBondMetricFacts -> FixedDecimal, map (fun p => v p.2) m = map (fun p => v p.2) l)
    /\ Forall (averageable units) m /\ Forall (fun q => 0 < notional_weight q) m).
  { clear O1 O2 O3 O4 O5. induction HM as [|x y l m (E2 & E3 & E4 & E5 & E6 & E7) HM (I1 & I2 & I3 & I4 & I5 & I6)]; [done|].
    cbn. rewrite E3, E4, E5, I1, I2, I3. do 3 (split; [done|]). split; [intros v; by rewrite E2, I4|]. split; by constructor. }
  destruct Hmap as (M1 & M2 & M3 & M4 & M5 & M6). split; [done|]. split; [done|].
  split; rewrite ?M1, ?M2, ?M3, M4; by apply average_of_scale.
Qed.

(** Merging the key-rate totals of portfolio members is the domain's aggregation of positions, with its
    errors mapped, when the identifiers of the first member's factors are valid and it has a factor. *)
Theorem aggregate_existing_krd_correct (positions : list PositionKeyRateExposure) :
  (forall p, hd_error positions = Some p -> exposures p <> [] /\ valid_factors (exposures p)) ->
  aggregate_existing_krd (map exposures positions)
  = map_err map_domain_error (aggregate_bond_key_rate_exposures positions).
Proof.
  intros Hp. destruct positions as [|p ps]; [done|]. destruct (Hp p eq_refl) as [Hne Hv].
  unfold aggregate_existing_krd, aggregate_bond_key_rate_exposures. cbn [map hd_error ok_or mbind Result_bind tl head].
  rewrite bool_decide_false by done. by apply merge_loop.
Qed.

(** ** A portfolio *)

Section example.
Local Existing Instance sample_decimal.
Local Existing Instance sample_decimal_laws.

Definition sample_units : PortfolioWeightedMetricUnits := {|
  unit_ytm := sample_unit; unit_duration := sample_unit; unit_convexity := sample_unit; unit_coupon_rate := sample_unit;
  unit_remaining_years := sample_unit
|}.

Definition fixed (n : Z) : FixedDecimal := from_scaled (n * FIXED_DECIMAL_FACTOR).

Definition sample_facts (ytm duration : Z) : PortfolioBondMetricFacts := {|
  fact_ytm := from_scaled ytm; fact_duration := fixed duration; fact_convexity := fixed 20;
  fact_coupon_rate := from_scaled 30000000000; fact_remaining_years := fixed 5; fact_units := sample_units
|}.

Definition sample_position (id value : string) (notional : Z) (e : PortfolioWeightedMetricEligibility) : PortfolioMetricPosition := {|
  metric_position_id := sample_id id; market_value := sample_value value 0; economic_pnl := sample_value "1" 1;
  signed_notional := fixed notional; eligibility := e
|}.

(** 100 at two percent and duration 2, 200 at five percent and duration 4. *)
Definition sample_bonds : list PortfolioMetricPosition :=
  [sample_position "A" "100" 100 (Bond (sample_facts 20000000000 2));
   sample_position "B" "200" 200 (Bond (sample_facts 50000000000 4))].

Definition sample_krd : list FactorDv01 :=
  [{| factor_id := "1Y"; factor_definition_hash := sample_hash x01; dv01_value := from_scaled 1; dv01_unit := sample_unit |};
   {| factor_id := "5Y"; factor_definition_hash := sample_hash x02; dv01_value := from_scaled 2; dv01_unit := sample_unit |}].

Definition sample_scales : PortfolioMetricOutputScales := {|
  scale_money := 2; scale_rate := 4; scale_years := 3; scale_years_squared := 2; scale_dv01 := 12
|}.

(** The coefficients and scales of the metrics. *)
Definition shown (d : DecimalValue) : string * Z := (coefficient d, scale d).
Definition shown_metrics (m : PortfolioBasicMetrics) : list (option (string * Z)) :=
  [Some (shown (total_market_value m)); Some (shown (total_economic_pnl m)); shown <$> weighted_ytm m;
   shown <$> weighted_duration m; shown <$> weighted_coupon_rate m; Some (shown (basic_dv01 m))].

(** The yield is [(100 * 2 * 2 + 200 * 4 * 5) / (100 * 2 + 200 * 4)] percent, the duration [10 / 3]. A short
    position takes the averages away. *)
Example sample_metrics :
  (fun agg => shown_metrics (basic_metrics agg)) <$> aggregate_portfolio_metrics sample_bonds sample_krd sample_scales
  = Ok [Some ("300", 0); Some ("2", 1); Some ("44", 3); Some ("3333", 3); Some ("3", 2); Some ("3", 12)]%string
  /\ (fun agg => (missing_reasons (metric_coverage agg), weighted_ytm (basic_metrics agg)))
       <$> aggregate_portfolio_metrics (sample_bonds ++ [sample_position "C" "5" (-5) NonBond]) sample_krd sample_scales
     = Ok ([ShortPositionExcludedFromWeightedAverages], None).
Proof. vm_compute. by split. Qed.

(** The common divisor keeps sums small: these market values times a yield would leave [i128], and the
    averages exist. *)
Example large_portfolio :
  let large := [sample_position "A" "1000000000000" 100 (Bond (sample_facts 20000000000 2));
                sample_position "B" "2000000000000" 200 (Bond (sample_facts 50000000000 4))] in
  is_ok (aggregate_portfolio_metrics large sample_krd sample_scales) = true
  /\ i128_checked_mul (2000000000000 * 10 ^ 12 * (4 * 10 ^ 12)) 50000000000 = None.
Proof. vm_compute. by split. Qed.

Lemma sample_bonds_wf : Forall wf_position sample_bonds.
Proof.
  unfold sample_bonds. split_forall; (split; [by apply sample_value_wf|vm_compute; reflexivity]).
Qed.

Lemma sample_bonds_fit : money_fits 2 sample_unit (map market_value sample_bonds) /\ money_fits 2 sample_unit (map economic_pnl sample_bonds).
Proof.
  unfold sample_bonds. split; (split; [lia| |vm_compute; reflexivity]);
    cbn [map]; split_forall; (split; [by apply sample_value_wf|split; vm_compute; done]).
Qed.

Lemma aggregate_portfolio_metrics_correct_witness :
  exists agg, aggregate_portfolio_metrics sample_bonds sample_krd sample_scales = Ok agg
    /\ aggregation_of sample_unit sample_bonds sample_krd sample_scales agg
    /\ rounds_to (sum_values (map market_value sample_bonds)) (10 ^ 16) (scale_money sample_scales) sample_unit
         (total_market_value (basic_metrics agg))
    /\ rounds_to (sum_values (map economic_pnl sample_bonds)) (10 ^ 16) (scale_money sample_scales) sample_unit
         (total_economic_pnl (basic_metrics agg)).
Proof.
  assert (E : is_ok (aggregate_portfolio_metrics sample_bonds sample_krd sample_scales) = true) by (vm_compute; reflexivity).
  destruct (aggregate_portfolio_metrics sample_bonds sample_krd sample_scales) as [agg|] eqn:Ea; [|discriminate E].
  exists agg. split; [reflexivity|].
  assert (Hagg : aggregation_of sample_unit sample_bonds sample_krd sample_scales agg).
  { apply aggregate_portfolio_metrics_correct.
    - intros p Hp. injection Hp as <-. reflexivity.
    - exact sample_bonds_wf.
    - unfold sample_krd. split_forall; reflexivity.
    - split; discriminate.
    - exact Ea. }
  split; [exact Hagg|]. destruct sample_bonds_fit as [F1 F2].
  split; [exact (agg_market_value _ _ _ _ _ Hagg 2 F1)|exact (agg_pnl _ _ _ _ _ Hagg 2 F2)].
Defined.

Definition averaged_sample (value : string) (notional : Z) (facts : PortfolioBondMetricFacts) : Averaged :=
  (sample_position "A" value notional (Bond facts), facts).

Lemma weighted_averages_scale_free_witness :
  let small := averaged_sample "3" 2 (sample_facts 20000000000 2) in
  let large := averaged_sample "21" 10 (sample_facts 20000000000 2) in
  exists a, weighted_averages [small] sample_scales = Ok a /\ weighted_averages [large] sample_scales = Ok a.
Proof.
  intros small large.
  assert (E : is_ok (weighted_averages [small] sample_scales) = true) by (vm_compute; reflexivity).
  destruct (weighted_averages [small] sample_scales) as [a|] eqn:Ea; [|discriminate E]. exists a. split; [reflexivity|].
  apply (weighted_averages_scale_free 5 7 small [] large [] sample_scales a).
  - reflexivity.
  - reflexivity.
  - constructor; [|constructor]. vm_compute. repeat split.
  - split_forall. split; [by apply sample_value_wf|reflexivity].
  - split_forall. split; [by apply sample_value_wf|reflexivity].
  - split_forall. split; vm_compute; reflexivity.
  - exact Ea.
Defined.

Lemma aggregate_existing_krd_correct_witness :
  let p := {| position_id := sample_id "P"; instrument := sample_vref "I"; exposures := sample_krd;
              input_evidence_hashes := [sample_hash x02]; content_hash := sample_hash x03; lineage := [sample_lineage] |} in
  aggregate_existing_krd (map exposures [p; p]) = map_err map_domain_error (aggregate_bond_key_rate_exposures [p; p]).
Proof.
  intros p. apply aggregate_existing_krd_correct. intros q Hq. injection Hq as <-. split; [discriminate|].
  unfold p, valid_factors, sample_krd. cbn [exposures]. split_forall; reflexivity.
Defined.
End example.
