(* ===== verification/Access.v ===== *)
(** * Access control

    [crates/ficant-application/src/ports/access.rs], with the fingerprints of [ports/fingerprint.rs] it
    uses, and the idempotency keys of [ports/mod.rs]: the scope within which an actor may read and write,
    and the trusted identity that carries it. *)

From Stdlib Require Import ZArith Lia Strings.String.
From Stdlib Require Import Strings.Byte.
From stdpp Require Import base list option strings numbers sorting sets.
From S2P Require Import Prelude Machine Collections Primitives Codec Concrete Digits AppErrors.
Open Scope Z_scope.

Definition forbidden : ApplicationError := application_error_new Forbidden false.

(** ** Fingerprints *)

Definition FINGERPRINT_MAGIC : list byte := as_bytes "FCMD".
Definition FINGERPRINT_VERSION : Z := 1.

(** [FingerprintBuilder::field]: a tag, the length and the value. *)
Definition tagged (f : Z * list byte) : list byte := byte_of_Z f.1 :: frame f.2.

(** The bytes of a builder after [FingerprintBuilder::new] and some calls of [field]. *)
Definition fingerprint_bytes (schema : string) (fields : list (Z * list byte)) : list byte :=
  FINGERPRINT_MAGIC ++ to_be_bytes 2 FINGERPRINT_VERSION ++ flat_map tagged ((1, as_bytes schema) :: fields).

Definition fingerprint `{Sha256} (schema : string) (fields : list (Z * list byte)) : ContentHash :=
  digest (fingerprint_bytes schema fields).

(** ** Scopes *)

Record AccessScope := {
  scope_tenant_id : Ulid;
  scope_actor_id : Ulid;
  allowed_owner_ids : list Ulid;
  scope_fingerprint : ContentHash
}.

#[export] Instance AccessScope_eq_dec : EqDecision AccessScope.
Proof. solve_decision. Defined.

Definition scope_fields (tenant_id actor_id : Ulid) (owner_ids : list Ulid) : list (Z * list byte) :=
  [(2, as_bytes (ulid_str tenant_id)); (3, as_bytes (ulid_str actor_id))]
  ++ map (fun owner_id => (4, as_bytes (ulid_str owner_id))) owner_ids.

Definition access_scope_new `{Sha256} (tenant_id actor_id : Ulid) (owner_ids : list Ulid) : AppResult AccessScope :=
  let owner_ids := dedup (sort owner_ids) in
  if bool_decide (owner_ids = []) then Err (map_domain_error InvalidValue)
  else Ok {| scope_tenant_id := tenant_id; scope_actor_id := actor_id; allowed_owner_ids := owner_ids;
             scope_fingerprint := fingerprint "access-scope/v1" (scope_fields tenant_id actor_id owner_ids) |}.

Definition allows (self : AccessScope) (owner : OwnerRef) : bool :=
  bool_decide (tenant_id owner = scope_tenant_id self) && binary_search (allowed_owner_ids self) (owner_id owner).

Definition scope_authorize (self : AccessScope) (owner : OwnerRef) : AppResult unit :=
  if allows self owner then Ok tt else Err forbidden.

(** ** Principals *)

(** [governance::PlatformRole]. *)
Inductive PlatformRole := PlatformAdmin | Researcher.

#[export] Instance PlatformRole_eq_dec : EqDecision PlatformRole.
Proof. solve_decision. Defined.

Definition platform_role_code (role : PlatformRole) : Z :=
  match role with PlatformAdmin => 1 | Researcher => 2 end.

(** [char::is_control] on UTF-8: U+0000 to U+001F, U+007F, and U+0080 to U+009F, which are a byte 0xC2
    (never a continuation) and a byte from 0x80 to 0x9F. *)
Fixpoint has_control (bytes : list byte) : bool :=
  match bytes with
  | [] => false
  | b :: rest =>
      (Z_of_byte b <? 32) || (Z_of_byte b =? 127)
      || ((Z_of_byte b =? 194) && match rest with c :: _ => byte_in 128 159 c | [] => false end)
      || has_control rest
  end.

(** The bytes of a scope name: letters, digits and ":", "-", "_", ".". *)
Definition is_scope_byte (b : byte) : bool :=
  is_ascii_alphanumeric b || existsb (Z.eqb (Z_of_byte b)) [58; 45; 95; 46].

Definition malformed_scope (scope : string) : bool :=
  blank_or_padded scope || (128 <? str_len scope) || negb (is_ascii scope)
  || negb (forallb is_scope_byte (as_bytes scope)).

Record AuthorizedPrincipal := {
  subject_id : string;
  principal_actor_id : Ulid;
  principal_tenant_id : Ulid;
  principal_owner_ids : list Ulid;
  active_role : PlatformRole;
  scopes : list string;
  credential_fingerprint : ContentHash;
  access_scope : AccessScope;
  principal_fingerprint : ContentHash
}.

Definition principal_fields (subject_id : string) (actor_id tenant_id : Ulid) (owner_ids : list Ulid) (role : PlatformRole)
    (scopes : list string) (credential_fingerprint : ContentHash) : list (Z * list byte) :=
  [(2, as_bytes subject_id); (3, as_bytes (ulid_str actor_id)); (4, as_bytes (ulid_str tenant_id))]
  ++ map (fun owner_id => (5, as_bytes (ulid_str owner_id))) owner_ids
  ++ [(6, [byte_of_Z (platform_role_code role)])]
  ++ map (fun scope => (7, as_bytes scope)) scopes
  ++ [(8, hash_bytes credential_fingerprint)].

Definition authorized_principal_new `{Sha256} (subject_id : string) (actor_id tenant_id : Ulid) (owner_ids : list Ulid)
    (active_role : PlatformRole) (scopes : list string) (credential_fingerprint : ContentHash)
    : AppResult AuthorizedPrincipal :=
  if blank_or_padded subject_id || (256 <? str_len subject_id) || has_control (as_bytes subject_id)
     || existsb malformed_scope scopes
  then Err (map_domain_error InvalidValue) else
  let owner_ids := dedup (sort owner_ids) in
  let scopes := dedup (sort scopes) in
  access_scope ← access_scope_new tenant_id actor_id owner_ids;
  Ok {| subject_id := subject_id; principal_actor_id := actor_id; principal_tenant_id := tenant_id;
        principal_owner_ids := owner_ids; active_role := active_role; scopes := scopes;
        credential_fingerprint := credential_fingerprint; access_scope := access_scope;
        principal_fingerprint := fingerprint "authorized-principal/v1"
          (principal_fields subject_id actor_id tenant_id owner_ids active_role scopes credential_fingerprint) |}.

Definition has_scope (self : AuthorizedPrincipal) (required_scope : string) : bool :=
  binary_search (scopes self) required_scope.

Definition require_role (self : AuthorizedPrincipal) (required_role : PlatformRole) : AppResult unit :=
  if bool_decide (active_role self = required_role) then Ok tt else Err forbidden.

Definition authorize_mutation (self : AuthorizedPrincipal) (required_role : PlatformRole) (required_scope : string)
    (owner : OwnerRef) : AppResult unit :=
  _ ← require_role self required_role;
  if negb (has_scope self required_scope) then Err forbidden else scope_authorize (access_scope self) owner.

(** ** Idempotency keys *)

Record ApplicationIdempotencyKey := mk_application_key { application_key_str : string }.

Definition application_key_new (value : string) : AppResult ApplicationIdempotencyKey :=
  if blank_or_padded value then Err (map_domain_error InvalidValue) else Ok (mk_application_key value).

Definition key_scoped (self : ApplicationIdempotencyKey) (suffix : string) : AppResult ApplicationIdempotencyKey :=
  application_key_new (application_key_str self ++ "/" ++ suffix)%string.

(** ** Sorting and removing repetitions *)

Section search.
Context {A : Type} `{OrdLaws A}.

Lemma dedup_elem `{EqDecision A} (l : list A) x : x ∈ dedup l <-> x ∈ l.
Proof.
  induction l as [|y [|z l] IH]; [done..|]. change (dedup (y :: z :: l)) with (if decide (y = z) then dedup (z :: l) else y :: dedup (z :: l)).
  destruct (decide (y = z)) as [->|].
  - rewrite IH, !elem_of_cons. tauto.
  - rewrite elem_of_cons, IH. by rewrite (elem_of_cons (z :: l)).
Qed.

Lemma dedup_sorted `{EqDecision A} (l : list A) : StronglySorted (fun x y => cmp x y <> Gt) l -> bset_wf (dedup l).
Proof.
  induction 1 as [|x l Hl IH Hx]; [constructor|]. destruct l as [|y l]; [repeat constructor|].
  change (dedup (x :: y :: l)) with (if decide (x = y) then dedup (y :: l) else x :: dedup (y :: l)).
  destruct (decide (x = y)) as [->|Hne]; [done|]. constructor; [done|]. apply list.Forall_forall. intros z Hz.
  rewrite dedup_elem in Hz. inversion_clear Hx as [|? ? Hxy Hx']. inversion_clear Hl as [|? ? _ Hy].
  assert (Hlt : cmp x y = Lt) by (destruct (cmp x y) eqn:Ec; [by apply cmp_eq in Ec|done..]).
  apply elem_of_cons in Hz as [->|Hz]; [done|]. rewrite list.Forall_forall in Hy. specialize (Hy z Hz).
  destruct (cmp y z) eqn:Ec; [apply cmp_eq in Ec; by subst|by apply (cmp_lt_trans _ y)|done].
Qed.

Lemma canonical_wf `{EqDecision A} (l : list A) : bset_wf (dedup (sort l)).
Proof. apply dedup_sorted. exact (sort_by_key_sorted id l). Qed.

Lemma canonical_elem `{EqDecision A} (l : list A) x : x ∈ dedup (sort l) <-> x ∈ l.
Proof. rewrite dedup_elem. unfold sort. by rewrite (sort_by_perm cmp l). Qed.

(** A strictly sorted list is determined by its elements. *)
Lemma bset_ext (l m : list A) : bset_wf l -> bset_wf m -> (forall x, x ∈ l <-> x ∈ m) -> l = m.
Proof.
  intros Hl Hm He. apply (StronglySorted_unique_strong (fun a b => cmp a b = Lt)); [|done|done|].
  - intros x y _ _ Hxy Hyx. rewrite cmp_opp, Hxy in Hyx. done.
  - apply NoDup_Permutation; [by apply strict_sorted_NoDup..|done].
Qed.

Lemma canonical_idem `{EqDecision A} (l : list A) : dedup (sort (dedup (sort l))) = dedup (sort l).
Proof. apply bset_ext; [apply canonical_wf..|]. intros x. by rewrite canonical_elem. Qed.
End search.

(** ** Fingerprints identify *)

Definition wf_field (f : Z * list byte) : Prop := in_u8 f.1 = true /\ short f.2.

Lemma tagged_inj f g r s : wf_field f -> wf_field g -> tagged f ++ r = tagged g ++ s -> f = g /\ r = s.
Proof.
  intros [Tf Sf] [Tg Sg] E. assert (Et : Some (byte_of_Z f.1) = Some (byte_of_Z g.1)) by exact (f_equal head E).
  injection Et as Et. apply (f_equal tail) in E. change (frame f.2 ++ r = frame g.2 ++ s) in E.
  apply frame_inj in E as [E ->]; [|done..]. split; [|done]. destruct f as [tf vf], g as [tg vg]. cbn [fst snd] in *. f_equal; [|done].
  apply (f_equal Z_of_byte) in Et. rewrite !Z_of_byte_of_Z in Et. ranges. rewrite !Z.mod_small in Et by lia. done.
Qed.

Lemma all_tagged_inj l m : Forall wf_field l -> Forall wf_field m -> flat_map tagged l = flat_map tagged m -> l = m.
Proof.
  intros Hl. revert m. induction Hl as [|f l Hf Hl IH]; intros m Hm E; destruct Hm as [|g m Hg Hm]; [done|done|done|].
  cbn [flat_map] in E. apply tagged_inj in E as [-> E]; [|done..]. f_equal. by apply IH.
Qed.

Lemma fingerprint_bytes_inj s s' l m :
  wf_str s -> wf_str s' -> Forall wf_field l -> Forall wf_field m -> fingerprint_bytes s l = fingerprint_bytes s' m -> s = s' /\ l = m.
Proof.
  intros Hs Hs' Hl Hm E. unfold fingerprint_bytes in E. apply app_inv_head in E. apply app_inv_head in E.
  apply all_tagged_inj in E; [|by constructor; [split; [done|by apply short_str]|]..].
  injection E as E ->. split; [by apply as_bytes_inj|done].
Qed.

Section scope.
Context `{UlidCrate} `{Sha256}.

Lemma scope_fields_wf t a os : wf_ulid t -> wf_ulid a -> Forall wf_ulid os -> Forall wf_field (scope_fields t a os).
Proof.
  intros Ht Ha Ho. unfold scope_fields. apply Forall_app_2; [split_forall; (split; [done|by apply short_ulid])|].
  rewrite Forall_map. eapply Forall_impl; [exact Ho|]. intros o Wo. split; [done|by apply short_ulid].
Qed.

Lemma scope_fields_inj t a os t' a' os' : scope_fields t a os = scope_fields t' a' os' -> t = t' /\ a = a' /\ os = os'.
Proof.
  unfold scope_fields. intros E. cbn [app] in E. injection E as Et Ea E. apply ulid_bytes_inj in Et, Ea.
  split; [done|]. split; [done|]. revert os' E. induction os as [|o os IH]; intros [|o' os'] E; try done.
  cbn in E. injection E as Eo E. apply ulid_bytes_inj in Eo. f_equal; [done|by apply IH].
Qed.

Lemma access_scope_new_Ok t a os s :
  access_scope_new t a os = Ok s ->
  os <> [] /\ scope_tenant_id s = t /\ scope_actor_id s = a /\ allowed_owner_ids s = dedup (sort os)
  /\ scope_fingerprint s = fingerprint "access-scope/v1" (scope_fields t a (dedup (sort os))).
Proof.
  unfold access_scope_new. intros E. destruct (bool_decide _) eqn:Eb; [done|]. injection E as <-.
  apply bool_decide_eq_false in Eb. split; [by intros ->|done].
Qed.

(** Equal fingerprints are equal scopes, or a collision. *)
Lemma scope_fingerprint_spec t a os s t' a' os' s' :
  wf_ulid t -> wf_ulid a -> Forall wf_ulid os -> wf_ulid t' -> wf_ulid a' -> Forall wf_ulid os' ->
  access_scope_new t a os = Ok s -> access_scope_new t' a' os' = Ok s' ->
  scope_fingerprint s = scope_fingerprint s' -> s = s' \/ collision.
Proof.
  intros Ht Ha Ho Ht' Ha' Ho' Es Es' E. pose proof Es as E1. pose proof Es' as E2.
  apply access_scope_new_Ok in E1 as (_ & _ & _ & _ & F1). apply access_scope_new_Ok in E2 as (_ & _ & _ & _ & F2).
  rewrite F1, F2 in E. unfold fingerprint in E. apply digest_inj in E as [E|]; [left|by right].
  assert (Hc : forall l, Forall wf_ulid l -> Forall wf_ulid (dedup (sort l))).
  { intros l Hl. rewrite list.Forall_forall in *. intros x Hx. by apply Hl, canonical_elem. }
  apply fingerprint_bytes_inj in E as [_ E]; [|by vm_compute..|by apply scope_fields_wf; auto|by apply scope_fields_wf; auto].
  apply scope_fields_inj in E as (-> & -> & E). unfold access_scope_new in Es, Es'. rewrite E in Es. congruence.
Qed.

(** The order and multiplicity of the owners do not matter. *)
Lemma access_scope_new_ext t a os os' :
  (forall o, o ∈ os <-> o ∈ os') -> access_scope_new t a os = access_scope_new t a os'.
Proof.
  intros E. unfold access_scope_new. replace (dedup (sort os')) with (dedup (sort os)); [done|].
  apply bset_ext; [apply canonical_wf..|]. intros o. by rewrite !canonical_elem.
Qed.

Lemma allows_spec t a os s o :
  access_scope_new t a os = Ok s -> allows s o = true <-> tenant_id o = t /\ owner_id o ∈ os.
Proof.
  intros E. apply access_scope_new_Ok in E as (_ & <- & _ & Eo & _). unfold allows.
  rewrite andb_true_iff, bool_decide_eq_true, Eo, binary_search_spec by apply canonical_wf. by rewrite canonical_elem.
Qed.

(** ** Mutations *)

Lemma principal_new_Ok sid a t os r ss c p :
  authorized_principal_new sid a t os r ss c = Ok p ->
  active_role p = r /\ (forall s, s ∈ scopes p <-> s ∈ ss) /\ bset_wf (scopes p)
  /\ access_scope_new t a os = Ok (access_scope p).
Proof.
  unfold authorized_principal_new. intros E. destruct (_ || _); [done|].
  apply bind_Ok in E as (s & Es & [= <-]). cbn. split; [done|]. split; [intros x; apply canonical_elem|].
  split; [apply canonical_wf|]. unfold access_scope_new in Es. by rewrite canonical_idem in Es.
Qed.

(** The right to change what belongs to an owner. *)
Definition may_mutate (t : Ulid) (os : list Ulid) (r : PlatformRole) (ss : list string)
    (required_role : PlatformRole) (required_scope : string) (o : OwnerRef) : Prop :=
  r = required_role /\ required_scope ∈ ss /\ tenant_id o = t /\ owner_id o ∈ os.

Lemma authorize_mutation_spec sid a t os r ss c p role scope o :
  authorized_principal_new sid a t os r ss c = Ok p ->
  authorize_mutation p role scope o = Ok tt /\ may_mutate t os r ss role scope o
  \/ authorize_mutation p role scope o = Err forbidden /\ ~ may_mutate t os r ss role scope o.
Proof.
  intros E. apply principal_new_Ok in E as (<- & Hss & Hw & Es). unfold authorize_mutation, require_role, may_mutate.
  case_bool_decide as Er; cbn [mbind Result_bind]; [|right; split; [done|tauto]].
  pose proof (binary_search_spec (scopes p) scope Hw) as Hb. fold (has_scope p scope) in Hb. rewrite Hss in Hb.
  destruct (has_scope p scope); cbn [negb]; [|right; split; [done|]; intros (_ & Hin & _); by apply Hb in Hin].
  pose proof (allows_spec t a os (access_scope p) o Es) as Ha. unfold scope_authorize.
  destruct (allows (access_scope p) o); [left|right]; (split; [done|]).
  - split; [done|]. split; [by apply Hb|by apply Ha].
  - intros (_ & _ & Ho). by apply Ha in Ho.
Qed.
End scope.

(** ** Properties *)

(** A mutation is authorised exactly for those it was granted to: whoever was made a principal with
    a tenant, owners, one role and scopes may change what belongs to an owner exactly when the role is
    the required one, the required scope was granted, and the owner is in the tenant and among the
    granted owners; every other request gets the same error. The scope and the owner are looked up by
    binary search in lists that were sorted when the principal was made. *)
Theorem authorize_mutation_correct `{Sha256} sid a t os r ss c p role scope o :
  authorized_principal_new sid a t os r ss c = Ok p ->
  authorize_mutation p role scope o = Ok tt /\ may_mutate t os r ss role scope o
  \/ authorize_mutation p role scope o = Err forbidden /\ ~ may_mutate t os r ss role scope o.
Proof. apply authorize_mutation_spec. Qed.

Section example.
Local Existing Instance sample_sha256.

Definition sample_principal : AppResult AuthorizedPrincipal :=
  authorized_principal_new "analyst" (sample_id "A") (sample_id "T") [sample_id "P"; sample_id "O"; sample_id "P"] Researcher
    ["runs:write"; "runs:read"; "runs:write"]%string (sample_hash x01).

Example sample_principal_canonical :
  (fun p => (List.length (principal_owner_ids p), scopes p)) <$> sample_principal = Ok (2%nat, ["runs:read"; "runs:write"]%string)
  /\ is_ok (authorized_principal_new "a b" (sample_id "A") (sample_id "T") [sample_id "O"] Researcher ["a b"]%string (sample_hash x01)) = false.
Proof. vm_compute. by split. Qed.

Lemma authorize_mutation_correct_witness :
  exists p, sample_principal = Ok p
    /\ authorize_mutation p Researcher "runs:write" sample_owner = Ok tt
    /\ authorize_mutation p PlatformAdmin "runs:write" sample_owner = Err forbidden.
Proof.
  assert (V : is_ok sample_principal = true) by (vm_compute; reflexivity).
  destruct sample_principal as [p|] eqn:E; [|discriminate V]. exists p. split; [reflexivity|]. split.
  - destruct (authorize_mutation_correct _ _ _ _ _ _ _ _ Researcher "runs:write" sample_owner E) as [[F _]|[_ F]]; [exact F|].
    exfalso. apply F. split; [reflexivity|]. split; [by left|]. split; [reflexivity|]. by right; left.
  - destruct (authorize_mutation_correct _ _ _ _ _ _ _ _ PlatformAdmin "runs:write" sample_owner E) as [[_ (F & _)]|[F _]]; [discriminate F|exact F].
Defined.
End example.
