(* ===== verification/Cursor.v ===== *)
(** * Page cursors

    [crates/ficant-application/src/ports/cursor.rs] and the page requests of [ports/mod.rs]: tokens that
    carry an encrypted position of a listing, bound to the scope they were issued under. The cipher
    (AES-256-GCM of the [ring] crate) is a parameter; what is asked of it is that opening undoes sealing,
    that what opens is the sealing of its plaintext, and the length of the tag. Random bytes are an
    argument of the operation that draws them. *)

From Stdlib Require Import ZArith Lia Strings.String.
From Stdlib Require Import Strings.Byte.
From stdpp Require Import base list option strings numbers sorting sets.
From S2P Require Import Prelude Machine Collections Primitives Codec Concrete Digits AppErrors Access.
Open Scope Z_scope.

Definition TOKEN_VERSION : string := "FCUR2".
Definition NONCE_LENGTH : nat := 12.
Definition TAG_LENGTH : nat := 16.

Class Aead : Type := {
  AeadKey : Type;
  unbound_key : list byte -> option AeadKey;
  seal_in_place : AeadKey -> list byte -> list byte -> list byte -> option (list byte);
  open_in_place : AeadKey -> list byte -> list byte -> list byte -> option (list byte)
}.

Class AeadLaws `{Aead} : Prop := {
  open_seal key nonce aad plain sealed : seal_in_place key nonce aad plain = Some sealed -> open_in_place key nonce aad sealed = Some plain;
  seal_open key nonce aad plain sealed : open_in_place key nonce aad sealed = Some plain -> seal_in_place key nonce aad plain = Some sealed;
  seal_length key nonce aad plain sealed :
    seal_in_place key nonce aad plain = Some sealed -> List.length sealed = (List.length plain + TAG_LENGTH)%nat
}.

(** One ciphertext that opens under two different additional data. *)
Definition aead_confusion `{Aead} : Prop :=
  exists key key' nonce aad aad' plain plain' sealed,
    aad <> aad' /\ seal_in_place key nonce aad plain = Some sealed /\ seal_in_place key' nonce aad' plain' = Some sealed.

(** ** Hexadecimal text *)

Definition hex_digit (n : Z) : byte := byte_of_Z (if n <? 10 then 48 + n else 87 + n).
Definition encode_byte (b : byte) : list byte := [hex_digit (Z_of_byte b / 16); hex_digit (Z_of_byte b mod 16)].
Definition encode_hex (value : list byte) : list byte := flat_map encode_byte value.

Definition decode_nibble (value : byte) : option Z :=
  if byte_in 48 57 value then Some (Z_of_byte value - 48)
  else if byte_in 97 102 value then Some (Z_of_byte value - 97 + 10)
  else None.

Fixpoint decode_pairs (value : list byte) : option (list byte) :=
  match value with
  | high :: low :: rest =>
      high ← decode_nibble high;
      low ← decode_nibble low;
      decoded ← decode_pairs rest;
      Some (byte_of_Z (Z.lor (Z.shiftl high 4) low) :: decoded)
  | _ => Some []
  end.

Definition decode_hex (value : list byte) : option (list byte) :=
  if Nat.even (List.length value) then decode_pairs value else None.

Example hex_example : encode_hex [x00; xaf; xff] = as_bytes "00afff" /\ decode_hex (as_bytes "00afff") = Some [x00; xaf; xff]
  /\ decode_hex (as_bytes "00AF") = None /\ decode_hex (as_bytes "0") = None.
Proof. vm_compute. by repeat split. Qed.

(** [str::split('.')]. *)
Definition DOT : byte := x2e.
Fixpoint split_dot (l : list byte) : list (list byte) :=
  match l with
  | [] => [[]]
  | b :: rest =>
      if Byte.eqb b DOT then [] :: split_dot rest
      else match split_dot rest with
           | field :: fields => (b :: field) :: fields
           | [] => [[b]]
           end
  end.

(** [IdempotencyKey::scoped_to]. *)
Definition key_scoped_to (self : ApplicationIdempotencyKey) (scope : AccessScope) : AppResult ApplicationIdempotencyKey :=
  key_scoped self ("scope-" ++ string_of_list_byte (encode_hex (hash_bytes (scope_fingerprint scope)))).

(** ** Keys and codecs *)

Section cursor.
Context `{Aead}.

Record CursorKey := { cursor_key_id : string; cursor_key : AeadKey }.

Definition is_key_id_byte (b : byte) : bool := is_ascii_alphanumeric b || existsb (Z.eqb (Z_of_byte b)) [45; 95].

Definition valid_key_id (key_id : string) : bool :=
  negb (str_len key_id =? 0) && (str_len key_id <=? 64) && forallb is_key_id_byte (as_bytes key_id).

Definition cursor_key_new (key_id : string) (key_material : list byte) : AppResult CursorKey :=
  if negb (valid_key_id key_id) then Err (map_domain_error InvalidValue) else
  key ← ok_or (unbound_key key_material) (map_domain_error InvalidValue);
  Ok {| cursor_key_id := key_id; cursor_key := key |}.

Record AeadCursorCodec := { active_key : CursorKey; retired_keys : list CursorKey }.

(** [key_ids.insert] is false for an id that is already there. *)
Fixpoint fresh_ids (key_ids : list string) (keys : list CursorKey) : bool :=
  match keys with
  | [] => true
  | key :: rest =>
      negb (bset_contains (cursor_key_id key) key_ids) && fresh_ids (bset_insert (cursor_key_id key) key_ids) rest
  end.

Definition codec_new (active : CursorKey) (retired : list CursorKey) : AppResult AeadCursorCodec :=
  if negb (fresh_ids [] (active :: retired)) then Err (map_domain_error InvalidValue)
  else Ok {| active_key := active; retired_keys := retired |}.

Definition find_key (self : AeadCursorCodec) (key_id : string) : option CursorKey :=
  if bool_decide (cursor_key_id (active_key self) = key_id) then Some (active_key self)
  else find (fun candidate => bool_decide (cursor_key_id candidate = key_id)) (retired_keys self).

(** ** Sealing and opening *)

Definition storage_unavailable : ApplicationError := application_error_new StorageUnavailable true.

Definition aad (scope : AccessScope) (key_id : string) : list byte :=
  as_bytes TOKEN_VERSION ++ [x00] ++ as_bytes key_id ++ [x00] ++ hash_bytes (scope_fingerprint scope).

Definition token_of (key_id : string) (nonce ciphertext : list byte) : list byte :=
  as_bytes TOKEN_VERSION ++ [DOT] ++ as_bytes key_id ++ [DOT] ++ encode_hex nonce ++ [DOT] ++ encode_hex ciphertext.

(** [random] is what [SystemRandom::fill] puts into the nonce, or [None] when it fails. *)
Definition seal (self : AeadCursorCodec) (scope : AccessScope) (plaintext : list byte) (random : option (list byte)) : AppResult string :=
  nonce ← ok_or random storage_unavailable;
  let key_id := cursor_key_id (active_key self) in
  ciphertext ← ok_or (seal_in_place (cursor_key (active_key self)) nonce (aad scope key_id) plaintext) storage_unavailable;
  Ok (string_of_list_byte (token_of key_id nonce ciphertext)).

Definition open_token (self : AeadCursorCodec) (scope : AccessScope) (token : string) : AppResult (list byte) :=
  match split_dot (as_bytes token) with
  | [version; key_id; nonce; ciphertext] =>
      if negb (bool_decide (version = as_bytes TOKEN_VERSION)) then Err forbidden else
      key ← ok_or (find_key self (string_of_list_byte key_id)) forbidden;
      nonce_bytes ← ok_or (decode_hex nonce) forbidden;
      if negb (List.length nonce_bytes =? NONCE_LENGTH)%nat then Err forbidden else
      ciphertext ← ok_or (decode_hex ciphertext) forbidden;
      if (List.length ciphertext <=? TAG_LENGTH)%nat then Err forbidden else
      ok_or (open_in_place (cursor_key key) nonce_bytes (aad scope (string_of_list_byte key_id)) ciphertext) forbidden
  | _ => Err forbidden
  end.

(** ** Cursors *)

Record Cursor := { token : string; opaque_value : string; cursor_scope : ContentHash }.

Definition validated_plaintext (value : string) : AppResult string :=
  if blank_or_padded value then Err (map_domain_error InvalidValue) else Ok value.

Definition issue (codec : AeadCursorCodec) (scope : AccessScope) (value : string) (random : option (list byte)) : AppResult Cursor :=
  opaque_value ← validated_plaintext value;
  token ← seal codec scope (as_bytes opaque_value) random;
  Ok {| token := token; opaque_value := opaque_value; cursor_scope := scope_fingerprint scope |}.

Definition resume (codec : AeadCursorCodec) (scope : AccessScope) (token : string) : AppResult Cursor :=
  plaintext ← open_token codec scope token;
  opaque_value ← (if utf8_valid plaintext then Ok (string_of_list_byte plaintext) else Err forbidden);
  if blank_or_padded opaque_value then Err forbidden
  else Ok {| token := token; opaque_value := opaque_value; cursor_scope := scope_fingerprint scope |}.

Definition cursor_authorize_scope (self : Cursor) (scope : AccessScope) : AppResult unit :=
  if negb (bool_decide (cursor_scope self = scope_fingerprint scope)) then Err forbidden else Ok tt.

(** ** Page requests *)

Definition MAX_LIMIT : Z := 1000.

Record PageRequest := {
  page_scope : AccessScope;
  page_cursor : option Cursor;
  page_limit : Z;
  page_fingerprint : ContentHash
}.

Definition page_request_new `{Sha256} (scope : AccessScope) (cursor : option Cursor) (limit : Z) : AppResult PageRequest :=
  _ ← (match cursor with Some cursor => cursor_authorize_scope cursor scope | None => Ok tt end);
  if (limit =? 0) || (MAX_LIMIT <? limit) then Err (map_domain_error InvalidValue)
  else Ok {| page_scope := scope; page_cursor := cursor; page_limit := limit;
             page_fingerprint := fingerprint "page-request/v1"
               [(2, hash_bytes (scope_fingerprint scope));
                (3, from_option (fun value => as_bytes (token value)) [] cursor);
                (4, to_be_bytes 8 limit)] |}.

Definition page_authorize_scope (self : PageRequest) (scope : AccessScope) : AppResult unit :=
  if negb (bool_decide (page_scope self = scope)) then Err forbidden else Ok tt.
End cursor.


(** ** Hexadecimal text round trips *)

Lemma decode_hex_digit n : 0 <= n < 16 -> decode_nibble (hex_digit n) = Some n.
Proof.
  intros Hn. assert (Hall : forallb (fun m => bool_decide (decode_nibble (hex_digit (Z.of_nat m)) = Some (Z.of_nat m))) (seq 0 16) = true)
    by (vm_compute; reflexivity).
  rewrite forallb_forall in Hall. specialize (Hall (Z.to_nat n) ltac:(apply in_seq; lia)).
  rewrite Z2Nat.id in Hall by lia. by apply bool_decide_eq_true in Hall.
Qed.

Lemma decode_nibble_Some c n : decode_nibble c = Some n -> 0 <= n < 16 /\ c = hex_digit n.
Proof.
  assert (Hall : forall c, match decode_nibble c with
                           | Some n => (0 <=? n) && (n <? 16) && Byte.eqb c (hex_digit n) | None => true end = true)
    by (intros []; vm_compute; reflexivity).
  intros E. specialize (Hall c). rewrite E in Hall. breflect. split; [lia|].
  by apply Byte.byte_dec_bl.
Qed.

Lemma nibbles_of_byte b : byte_of_Z (Z.lor (Z.shiftl (Z_of_byte b / 16) 4) (Z_of_byte b mod 16)) = b.
Proof. destruct b; vm_compute; reflexivity. Qed.

Lemma byte_of_nibbles h l : 0 <= h < 16 -> 0 <= l < 16 -> encode_byte (byte_of_Z (Z.lor (Z.shiftl h 4) l)) = [hex_digit h; hex_digit l].
Proof.
  intros Hh Hl. assert (Hall : forallb (fun a => forallb (fun b =>
      bool_decide (encode_byte (byte_of_Z (Z.lor (Z.shiftl (Z.of_nat a) 4) (Z.of_nat b))) = [hex_digit (Z.of_nat a); hex_digit (Z.of_nat b)]))
      (seq 0 16)) (seq 0 16) = true) by (vm_compute; reflexivity).
  rewrite forallb_forall in Hall. specialize (Hall (Z.to_nat h) ltac:(apply in_seq; lia)).
  rewrite forallb_forall in Hall. specialize (Hall (Z.to_nat l) ltac:(apply in_seq; lia)).
  rewrite !Z2Nat.id in Hall by lia. by apply bool_decide_eq_true in Hall.
Qed.

Lemma decode_pairs_encode l : decode_pairs (encode_hex l) = Some l.
Proof.
  induction l as [|b l IH]; [done|]. change (encode_hex (b :: l)) with (encode_byte b ++ encode_hex l).
  cbn [encode_byte app decode_pairs]. pose proof (Z_of_byte_range b).
  rewrite (decode_hex_digit (Z_of_byte b / 16)) by (split; [by apply Z.div_pos; lia|by apply Z.div_lt_upper_bound; lia]).
  rewrite (decode_hex_digit (Z_of_byte b mod 16)) by (apply Z.mod_pos_bound; lia).
  rewrite IH. cbn. by rewrite nibbles_of_byte.
Qed.

Lemma length_encode_hex l : List.length (encode_hex l) = (2 * List.length l)%nat.
Proof. induction l as [|b l IH]; [done|]. cbn [encode_hex flat_map encode_byte app List.length] in *. fold (encode_hex l). lia. Qed.

Lemma decode_encode_hex l : decode_hex (encode_hex l) = Some l.
Proof.
  unfold decode_hex. rewrite length_encode_hex. replace (Nat.even _) with true; [apply decode_pairs_encode|].
  symmetry. apply Nat.even_spec. by exists (List.length l).
Qed.

Lemma decode_hex_Some s l : decode_hex s = Some l -> s = encode_hex l.
Proof.
  unfold decode_hex. destruct (Nat.even _) eqn:Ev; [|done]. apply Nat.even_spec in Ev as [k Hk]. revert s l Hk.
  induction k as [|k IH]; intros s l Hk.
  - destruct s; [|done]. by intros [= <-].
  - destruct s as [|h [|c s]]; cbn in Hk; [lia..|]. cbn [decode_pairs]. intros E.
    destruct (decode_nibble h) as [nh|] eqn:Eh; [|done]. destruct (decode_nibble c) as [nl|] eqn:El; [|done]. cbn in E.
    destruct (decode_pairs s) as [d|] eqn:Es; [|done]. injection E as <-.
    apply decode_nibble_Some in Eh as [Hh ->], El as [Hl ->]. change (encode_hex (?b :: d)) with (encode_byte b ++ encode_hex d).
    cbn [encode_hex flat_map]. fold (encode_hex d). rewrite byte_of_nibbles by done. cbn [app]. do 2 f_equal. apply IH; [lia|done].
Qed.

(** ** Fields between dots *)

Definition no_dot (l : list byte) : bool := forallb (fun b => negb (Byte.eqb b DOT)) l.

Lemma split_dot_field l r : no_dot l = true -> split_dot (l ++ DOT :: r) = l :: split_dot r.
Proof.
  induction l as [|b l IH]; cbn [no_dot forallb app split_dot].
  - intros _. by replace (Byte.eqb DOT DOT) with true.
  - intros [Hb Hl]%andb_true_iff. destruct (Byte.eqb b DOT); [done|]. by rewrite IH.
Qed.

Lemma split_dot_last l : no_dot l = true -> split_dot l = [l].
Proof.
  induction l as [|b l IH]; cbn [no_dot forallb split_dot]; [done|].
  intros [Hb Hl]%andb_true_iff. destruct (Byte.eqb b DOT); [done|]. by rewrite IH.
Qed.

Fixpoint join_dot (fields : list (list byte)) : list byte :=
  match fields with
  | [] => []
  | [f] => f
  | f :: fields => f ++ DOT :: join_dot fields
  end.

Lemma join_split l : join_dot (split_dot l) = l.
Proof.
  assert (Hne : forall l, split_dot l <> []) by (intros [|b m]; cbn; [done|]; destruct (Byte.eqb b DOT); [done|]; by destruct (split_dot m)).
  induction l as [|b l IH]; [done|]. cbn [split_dot]. pose proof (Hne l). destruct (Byte.eqb b DOT) eqn:Eb.
  - apply Byte.byte_dec_bl in Eb as ->. destruct (split_dot l); [done|]. cbn [join_dot app] in *. by rewrite IH.
  - destruct (split_dot l) as [|f [|g fs]]; [done|..]; cbn [join_dot app] in *; by rewrite IH.
Qed.

Lemma hex_no_dot l : no_dot (encode_hex l) = true.
Proof.
  induction l as [|b l IH]; [done|]. change (encode_hex (b :: l)) with (encode_byte b ++ encode_hex l).
  unfold no_dot in *. rewrite forallb_app, IH, andb_true_r. by destruct b.
Qed.

Section laws.
Context `{AeadLaws}.

Lemma key_id_no_dot k : valid_key_id k = true -> no_dot (as_bytes k) = true.
Proof.
  unfold valid_key_id, no_dot. intros [_ Hk]%andb_true_iff. rewrite forallb_forall in *. intros b Hb. specialize (Hk b Hb).
  destruct (Byte.eqb b DOT) eqn:Eb; [|done]. apply Byte.byte_dec_bl in Eb as ->. by vm_compute in Hk.
Qed.

Lemma token_of_split k nonce c :
  no_dot (as_bytes k) = true -> split_dot (token_of k nonce c) = [as_bytes TOKEN_VERSION; as_bytes k; encode_hex nonce; encode_hex c].
Proof.
  intros Hk. unfold token_of. cbn [app]. rewrite !split_dot_field by (done || apply hex_no_dot).
  by rewrite split_dot_last by apply hex_no_dot.
Qed.

(** ** Keys *)

Lemma fresh_ids_NoDup keys acc :
  fresh_ids acc keys = true -> NoDup (map cursor_key_id keys) /\ Forall (fun k => cursor_key_id k ∉ acc) keys.
Proof.
  revert acc. induction keys as [|k keys IH]; intros acc; cbn [fresh_ids map]; [intros _; split; constructor|].
  intros [Hk Hks]%andb_true_iff. apply IH in Hks as [Hd Hf]. rewrite list.Forall_forall in Hf. split; constructor; [|done|..].
  - intros (k' & E & Hk')%list_elem_of_fmap. apply (Hf k' Hk'), bset_insert_elem. by left.
  - intros Hin. by rewrite (proj2 (bset_contains_spec _ _) Hin) in Hk.
  - apply list.Forall_forall. intros k' Hk' Hin. apply (Hf k' Hk'), bset_insert_elem. by right.
Qed.

Definition codec_keys (c : AeadCursorCodec) : list CursorKey := active_key c :: retired_keys c.

(** The key an id names is the one configured under it. *)
Lemma find_key_spec a r c k : codec_new a r = Ok c -> k ∈ a :: r -> find_key c (cursor_key_id k) = Some k.
Proof.
  unfold codec_new. destruct (fresh_ids _ _) eqn:Ef; [|done]. intros [= <-] Hk. apply fresh_ids_NoDup in Ef as [Hd _].
  unfold find_key. cbn [active_key retired_keys]. cbn [map] in Hd. apply NoDup_cons in Hd as [Ha Hd].
  apply elem_of_cons in Hk as [->|Hk]; [by rewrite bool_decide_true|]. rewrite bool_decide_false.
  - clear Ha. induction r as [|k' r IH]; [by apply elem_of_nil in Hk|]. cbn [find]. cbn [map] in Hd. apply NoDup_cons in Hd as [Hn Hd].
    apply elem_of_cons in Hk as [->|Hk]; [by rewrite bool_decide_true|]. rewrite bool_decide_false; [by apply IH|].
    intros E. apply Hn. rewrite E. by apply (list_elem_of_fmap_2 cursor_key_id).
  - intros E. apply Ha. rewrite E. by apply (list_elem_of_fmap_2 cursor_key_id).
Qed.

Lemma find_key_Some c id k : find_key c id = Some k -> k ∈ codec_keys c /\ cursor_key_id k = id.
Proof.
  unfold find_key, codec_keys. case_bool_decide as E; [intros [= <-]; split; [by left|done]|].
  intros Ef. apply find_some in Ef as [Hin He]. apply bool_decide_eq_true in He. split; [right; by apply list_elem_of_In|done].
Qed.
(** ** What a token says *)

(** [token] is the sealing of [plaintext] under a key of the codec and the scope. *)
Definition sealed_under (c : AeadCursorCodec) (scope : AccessScope) (plaintext : list byte) (token : string) : Prop :=
  exists key nonce sealed, key ∈ codec_keys c /\ List.length nonce = NONCE_LENGTH
    /\ seal_in_place (cursor_key key) nonce (aad scope (cursor_key_id key)) plaintext = Some sealed
    /\ as_bytes token = token_of (cursor_key_id key) nonce sealed.

Definition wf_codec (c : AeadCursorCodec) : Prop :=
  codec_new (active_key c) (retired_keys c) = Ok c /\ Forall (fun k => valid_key_id (cursor_key_id k) = true) (codec_keys c).

Lemma wf_codec_key_no_dot c k : wf_codec c -> k ∈ codec_keys c -> no_dot (as_bytes (cursor_key_id k)) = true.
Proof. intros [_ Hv] Hk. rewrite list.Forall_forall in Hv. by apply key_id_no_dot, Hv. Qed.

Lemma open_token_seal c scope plain token :
  wf_codec c -> plain <> [] -> sealed_under c scope plain token -> open_token c scope token = Ok plain.
Proof.
  intros Hc Hp (k & nonce & sealed & Hk & Hn & Hs & Et). unfold open_token.
  rewrite Et, token_of_split by (by apply (wf_codec_key_no_dot c)). cbn [negb]. rewrite bool_decide_true by done. cbn [negb].
  rewrite of_as_bytes. destruct Hc as [Hc _]. rewrite (find_key_spec _ _ _ k Hc Hk). cbn [ok_or mbind Result_bind].
  rewrite !decode_encode_hex. cbn [ok_or mbind Result_bind]. rewrite Hn. cbn [Nat.eqb NONCE_LENGTH negb].
  assert (Hl : (List.length sealed <=? TAG_LENGTH)%nat = false).
  { rewrite (seal_length _ _ _ _ _ Hs). destruct plain; [done|]. cbn [List.length]. apply Nat.leb_gt. lia. }
  rewrite Hl. by rewrite (open_seal _ _ _ _ _ Hs).
Qed.

Lemma open_token_cases c scope token :
  (exists plain, open_token c scope token = Ok plain /\ plain <> [] /\ sealed_under c scope plain token)
  \/ open_token c scope token = Err forbidden.
Proof.
  unfold open_token. destruct (split_dot _) as [|v [|id [|n [|ct [|]]]]] eqn:Es; try by right.
  pose proof (join_split (as_bytes token)) as Ej. rewrite Es in Ej. cbn [join_dot] in Ej.
  case_bool_decide as Ev; [|by right]. cbn [negb]. subst v.
  destruct (find_key c _) as [k|] eqn:Ek; [|by right]. apply find_key_Some in Ek as [Hk Eid]. cbn [ok_or mbind Result_bind].
  destruct (decode_hex n) as [nb|] eqn:En; [|by right]. apply decode_hex_Some in En as ->. cbn [ok_or mbind Result_bind].
  destruct (Nat.eqb_spec (List.length nb) NONCE_LENGTH) as [Hn|]; [|by right]. cbn [negb].
  destruct (decode_hex ct) as [sealed|] eqn:Ec; [|by right]. apply decode_hex_Some in Ec as ->. cbn [ok_or mbind Result_bind].
  destruct (Nat.leb_spec (List.length sealed) TAG_LENGTH); [by right|].
  destruct (open_in_place _ _ _ _) as [plain|] eqn:Eo; [left|by right]. exists plain. split; [done|].
  apply seal_open in Eo. split; [intros ->; apply seal_length in Eo; cbn in *; lia|].
  exists k, nb, sealed. rewrite Eid. split; [done|]. split; [done|]. split; [done|].
  unfold token_of. by rewrite as_bytes_of_bytes, <- Ej.
Qed.

Lemma resume_seal c scope value token :
  wf_codec c -> utf8_valid (as_bytes value) = true -> blank_or_padded value = false -> sealed_under c scope (as_bytes value) token ->
  resume c scope token = Ok {| token := token; opaque_value := value; cursor_scope := scope_fingerprint scope |}.
Proof.
  intros Hc Hu Hb Hs. unfold resume. rewrite (open_token_seal c scope (as_bytes value)); [|done| |done].
  - cbn [mbind Result_bind]. rewrite Hu. cbn [mbind Result_bind]. by rewrite of_as_bytes, Hb.
  - intros E. assert (value = ""%string) as -> by (by apply as_bytes_inj). by vm_compute in Hb.
Qed.

(** A resumed token is the sealing of the cursor's value; every other token is refused the same way. *)
Lemma resume_cases c scope tok :
  (exists cursor, resume c scope tok = Ok cursor /\ token cursor = tok /\ cursor_scope cursor = scope_fingerprint scope
     /\ blank_or_padded (opaque_value cursor) = false /\ sealed_under c scope (as_bytes (opaque_value cursor)) tok)
  \/ resume c scope tok = Err forbidden.
Proof.
  unfold resume. destruct (open_token_cases c scope tok) as [(plain & -> & Hp & Hs)| ->]; [|by right]. cbn [mbind Result_bind].
  destruct (utf8_valid plain); [|by right]. cbn [mbind Result_bind].
  destruct (blank_or_padded _) eqn:Eb; [by right|left]. eexists. split; [done|]. cbn [token cursor_scope opaque_value]. by rewrite as_bytes_of_bytes.
Qed.

Lemma issue_sealed c scope value random cursor :
  from_option (fun nonce => List.length nonce = NONCE_LENGTH) True random -> issue c scope value random = Ok cursor ->
  opaque_value cursor = value /\ cursor_scope cursor = scope_fingerprint scope /\ blank_or_padded value = false
  /\ sealed_under c scope (as_bytes value) (token cursor).
Proof.
  unfold issue, validated_plaintext. intros Hr E. destruct (blank_or_padded value) eqn:Eb; [done|]. cbn [mbind Result_bind] in E.
  apply bind_Ok in E as (t & Et & [= <-]). cbn. split; [done|]. split; [done|]. split; [done|]. unfold seal in Et.
  destruct random as [nonce|]; [|done]. cbn [ok_or mbind Result_bind] in Et.
  destruct (seal_in_place _ _ _ _) as [sealed|] eqn:Es; [|done]. injection Et as <-.
  exists (active_key c), nonce, sealed. rewrite as_bytes_of_bytes. split; [by left|]. done.
Qed.

(** The codec after a rotation: the key that was active is still one of its keys. *)
Lemma sealed_under_rotation c c' scope scope' plain tok :
  (forall k, k ∈ codec_keys c -> k ∈ codec_keys c') -> scope_fingerprint scope' = scope_fingerprint scope ->
  sealed_under c scope plain tok -> sealed_under c' scope' plain tok.
Proof.
  intros Hk Ef (k & nonce & sealed & Hin & Hn & Hs & Et). exists k, nonce, sealed. unfold aad in *. rewrite Ef. auto.
Qed.

Lemma token_of_inj k k' n n' s s' :
  no_dot (as_bytes k) = true -> no_dot (as_bytes k') = true -> token_of k n s = token_of k' n' s' -> k = k' /\ n = n' /\ s = s'.
Proof.
  intros Hk Hk' E. apply (f_equal split_dot) in E. rewrite !token_of_split in E by done. injection E as E1 E2 E3.
  apply (f_equal decode_hex) in E2, E3. rewrite !decode_encode_hex in E2, E3. split; [by apply as_bytes_inj|]. split; congruence.
Qed.

Lemma sealed_under_scope c c' scope scope' plain plain' tok :
  wf_codec c -> wf_codec c' -> sealed_under c scope plain tok -> sealed_under c' scope' plain' tok ->
  scope_fingerprint scope = scope_fingerprint scope' \/ aead_confusion.
Proof.
  intros Hc Hc' (k & n & s & Hk & _ & Hs & Et) (k' & n' & s' & Hk' & _ & Hs' & Et'). rewrite Et in Et'.
  apply token_of_inj in Et' as (Eid & -> & ->); [|by apply (wf_codec_key_no_dot c)|by apply (wf_codec_key_no_dot c')].
  destruct (decide (scope_fingerprint scope = scope_fingerprint scope')) as [|Hne]; [by left|right].
  exists (cursor_key k), (cursor_key k'), n', (aad scope (cursor_key_id k)), (aad scope' (cursor_key_id k')), plain, plain', s'.
  split; [|done]. rewrite <- Eid. unfold aad. intros E. do 4 apply app_inv_head in E. apply Hne. by destruct (scope_fingerprint scope), (scope_fingerprint scope'); cbn in *; subst.
Qed.
End laws.

(** ** Properties *)

(** Cursors survive the rotation of keys: a cursor issued under a codec is resumed, value and scope
    unchanged, by any codec that still holds the keys of the first, in whatever order and among whatever
    new ones, under any scope with the same fingerprint. The value is text without blanks around it, as
    issuing requires, and the key names are the ones key construction accepts. *)
Theorem cursor_survives_rotation `{AeadLaws} c c' scope scope' value nonce cursor :
  wf_codec c -> wf_codec c' -> (forall k, k ∈ codec_keys c -> k ∈ codec_keys c') ->
  scope_fingerprint scope' = scope_fingerprint scope ->
  utf8_valid (as_bytes value) = true -> List.length nonce = NONCE_LENGTH ->
  issue c scope value (Some nonce) = Ok cursor ->
  opaque_value cursor = value /\ resume c' scope' (token cursor) = Ok cursor.
Proof.
  intros Hc Hc' Hk Ef Hu Hn E. apply issue_sealed in E as (<- & Es & Hb & Hs); [|done]. split; [done|].
  rewrite (resume_seal c' scope' (opaque_value cursor)); [|done..|by apply (sealed_under_rotation c c' scope)].
  rewrite Ef, <- Es. by destruct cursor.
Qed.

(** A cursor is bound to the scope it was issued under: if a token issued under one scope is
    resumed under another, by any two codecs, then the scopes are equal, or two different inputs of the
    hash with one digest have been found, or one ciphertext that opens under two different additional
    data; and a token that is not resumed is refused as forbidden, whatever is wrong with it. *)
Theorem cursor_bound_to_scope `{UlidCrate} `{Sha256} `{AeadLaws} c c' value nonce cursor t a os scope t' a' os' scope' :
  wf_codec c -> wf_codec c' ->
  wf_ulid t -> wf_ulid a -> Forall wf_ulid os -> wf_ulid t' -> wf_ulid a' -> Forall wf_ulid os' ->
  access_scope_new t a os = Ok scope -> access_scope_new t' a' os' = Ok scope' ->
  List.length nonce = NONCE_LENGTH -> issue c scope value (Some nonce) = Ok cursor ->
  match resume c' scope' (token cursor) with
  | Ok _ => scope = scope' \/ collision \/ aead_confusion
  | Err e => e = forbidden
  end.
Proof.
  intros Hc Hc' Ht Ha Ho Ht' Ha' Ho' Es Es' Hn E. apply issue_sealed in E as (_ & _ & _ & Hs); [|done].
  destruct (resume_cases c' scope' (token cursor)) as [(cur & -> & _ & _ & _ & Hs')| ->]; [|done].
  destruct (sealed_under_scope c c' scope scope' _ _ _ Hc Hc' Hs Hs') as [Ef|]; [|auto].
  destruct (scope_fingerprint_spec t a os scope t' a' os' scope' Ht Ha Ho Ht' Ha' Ho' Es Es' Ef); auto.
Qed.

Section example.
Local Existing Instance sample_sha256.
Local Existing Instance sample_ulid_crate.

(** A cipher that does not hide anything but has a tag over the key, the nonce, the data and the text. *)
Definition sample_tag (key nonce aad plain : list byte) : list byte :=
  to_be_bytes TAG_LENGTH (foldl (fun h b => (h * 31 + Z_of_byte b) mod 2 ^ 128) 7 (key ++ nonce ++ aad ++ plain)).

Local Instance sample_aead : Aead := {|
  AeadKey := list byte;
  unbound_key := fun material => if (List.length material =? 32)%nat then Some material else None;
  seal_in_place := fun key nonce aad plain => Some (plain ++ sample_tag key nonce aad plain);
  open_in_place := fun key nonce aad sealed =>
    let plain := take (List.length sealed - TAG_LENGTH) sealed in
    if decide (sealed = plain ++ sample_tag key nonce aad plain) then Some plain else None
|}.

Local Instance sample_aead_laws : AeadLaws.
Proof.
  assert (Hl : forall k n a p, List.length (sample_tag k n a p) = TAG_LENGTH) by (intros; apply length_to_be_bytes).
  split; cbn; intros key nonce aad plain sealed E.
  - injection E as <-. rewrite length_app, Hl. replace (_ + TAG_LENGTH - TAG_LENGTH)%nat with (List.length plain) by lia.
    rewrite take_app_length. by rewrite decide_True.
  - destruct (decide _) as [Ed|]; [|done]. injection E as <-. by rewrite <- Ed.
  - injection E as <-. by rewrite length_app, Hl.
Qed.

Definition sample_key (id : string) (b : byte) : CursorKey := {| cursor_key_id := id; cursor_key := repeat b 32 |}.
Definition sample_codec (active retired : CursorKey) : AeadCursorCodec := {| active_key := active; retired_keys := [retired] |}.
Definition sample_nonce : list byte := repeat x2a 12.
Definition old_codec : AeadCursorCodec := sample_codec (sample_key "k-2025" x01) (sample_key "k-2024" x02).
Definition new_codec : AeadCursorCodec := {| active_key := sample_key "k-2026" x03; retired_keys := codec_keys old_codec |}.

Example sample_keys :
  is_ok (cursor_key_new "k-2025" (repeat x01 32)) = true /\ is_ok (cursor_key_new "k.2025" (repeat x01 32)) = false
  /\ is_ok (codec_new (sample_key "a" x01) [sample_key "b" x01; sample_key "a" x02]) = false.
Proof. vm_compute. by repeat split. Qed.

Definition sample_scope_of (actor : string) : AppResult AccessScope :=
  access_scope_new (sample_id "T") (sample_id actor) [sample_id "O"; sample_id "P"].

Lemma sample_codecs_wf : wf_codec old_codec /\ wf_codec new_codec.
Proof. split; (split; [reflexivity|repeat constructor]). Qed.

Lemma cursor_survives_rotation_witness :
  exists scope cursor, sample_scope_of "A" = Ok scope
    /\ issue old_codec scope "row:42" (Some sample_nonce) = Ok cursor
    /\ resume new_codec scope (token cursor) = Ok cursor.
Proof.
  assert (V : is_ok (sample_scope_of "A") = true) by (vm_compute; reflexivity).
  destruct (sample_scope_of "A") as [scope|] eqn:Es; [|discriminate V].
  assert (W : is_ok (issue old_codec scope "row:42" (Some sample_nonce)) = true) by reflexivity.
  destruct (issue old_codec scope "row:42" (Some sample_nonce)) as [cursor|] eqn:E; [|discriminate W].
  exists scope, cursor. split; [reflexivity|]. split; [exact E|]. destruct sample_codecs_wf as [Ho Hn].
  refine (proj2 (cursor_survives_rotation old_codec new_codec scope scope "row:42" sample_nonce cursor Ho Hn _ eq_refl _ _ E)).
  - intros k Hk. right. exact Hk.
  - vm_compute; reflexivity.
  - reflexivity.
Defined.

Lemma cursor_bound_to_scope_witness :
  exists scope scope' cursor, sample_scope_of "A" = Ok scope /\ sample_scope_of "B" = Ok scope'
    /\ issue old_codec scope "row:42" (Some sample_nonce) = Ok cursor
    /\ match resume new_codec scope' (token cursor) with
       | Ok _ => scope = scope' \/ collision \/ aead_confusion
       | Err e => e = forbidden
       end.
Proof.
  assert (V : is_ok (sample_scope_of "A") = true) by (vm_compute; reflexivity).
  assert (V' : is_ok (sample_scope_of "B") = true) by (vm_compute; reflexivity).
  destruct (sample_scope_of "A") as [scope|] eqn:Es; [|discriminate V].
  destruct (sample_scope_of "B") as [scope'|] eqn:Es'; [|discriminate V'].
  assert (W : is_ok (issue old_codec scope "row:42" (Some sample_nonce)) = true) by reflexivity.
  destruct (issue old_codec scope "row:42" (Some sample_nonce)) as [cursor|] eqn:E; [|discriminate W].
  exists scope, scope', cursor. split; [reflexivity|]. split; [reflexivity|]. split; [exact E|].
  destruct sample_codecs_wf as [Ho Hn].
  apply (cursor_bound_to_scope old_codec new_codec "row:42" sample_nonce cursor (sample_id "T") (sample_id "A")
    [sample_id "O"; sample_id "P"] scope (sample_id "T") (sample_id "B") [sample_id "O"; sample_id "P"] scope' Ho Hn);
    try exact Es; try exact Es'; try exact E; try reflexivity; repeat constructor.
Defined.
End example.
