(* ===== verification/Evidence.v ===== *)
(** * Formal output evidence

    The first half of [crates/ficant-runtime/src/native_execution.rs]: the inputs an output was computed
    from, the code and the runtime that computed it, and the record that binds them to the hash of the
    result under one identity. *)

From Stdlib Require Import ZArith Lia Strings.String.
From Stdlib Require Import Strings.Byte.
From stdpp Require Import base list option strings numbers sorting.
From S2P Require Import Prelude Machine Collections Primitives Codec Concrete.
Open Scope Z_scope.

Definition FORMAL_EVIDENCE_DOMAIN : string := "ficant/formal-output-evidence/v1".

(** ** The canonical writer *)

(** [CanonicalWriter::field]: a tag, the length and the value. *)
Definition evidence_field (f : Z * list byte) : list byte := to_be_bytes 2 f.1 ++ frame f.2.

(** A writer for a domain after some calls of [field]. *)
Definition written (domain : string) (fields : list (Z * list byte)) : list byte :=
  as_bytes "FICANT-EVIDENCE" ++ [x00] ++ flat_map evidence_field ((1, as_bytes domain) :: fields).

Definition optional_bytes (value : option (list byte)) : list byte :=
  match value with Some value => x01 :: frame value | None => [x00] end.

Definition optional_u64_bytes (value : option Z) : list byte :=
  match value with Some value => x01 :: to_be_bytes 8 value | None => [x00] end.

(** ** Texts *)

Definition is_lower_hex (b : byte) : bool := is_ascii_digit b || byte_in 97 102 b.

Definition ensure_git_sha (value : string) : DomainResult unit :=
  fail_if (negb (str_len value =? 40) || negb (forallb is_lower_hex (as_bytes value))) InvalidValue.

Definition is_role_byte (b : byte) : bool :=
  is_ascii_lowercase b || is_ascii_digit b || existsb (Z.eqb (Z_of_byte b)) [46; 95; 45].

Definition ensure_role (value : string) : DomainResult unit :=
  fail_if (bool_decide (value = EmptyString) || (128 <? str_len value) || negb (bool_decide (trim value = value))
           || negb (forallb is_role_byte (as_bytes value))) InvalidValue.

(** [u8::is_ascii_whitespace]: tab, line feed, form feed, carriage return and space. *)
Definition is_ascii_whitespace (b : byte) : bool := existsb (Z.eqb (Z_of_byte b)) [9; 10; 12; 13; 32].

Definition ensure_stable_identity (value : string) : DomainResult unit :=
  fail_if (bool_decide (value = EmptyString) || (256 <? str_len value) || negb (bool_decide (trim value = value))
           || negb (is_ascii value) || existsb is_ascii_whitespace (as_bytes value)) InvalidValue.

(** ** Inputs *)

Inductive FormalInputKind :=
| Subject | DataSnapshot | UniverseSnapshot | RulePack | Artifact | Definition_ | Instrument | Calendar | Unit_
| DataSource | CurveSnapshot | FactorDefinition | PositionSnapshot | DataHealthProfile | CurveNodeDefinition | Portfolio
| Book | PortfolioGroup | Benchmark | PortfolioMetricConvention | Fact | PortfolioValuationSnapshot
| BenchmarkLevelSnapshot | PortfolioPerformanceConvention.

#[export] Instance FormalInputKind_eq_dec : EqDecision FormalInputKind.
Proof. solve_decision. Defined.

Definition kind_code (self : FormalInputKind) : Z :=
  match self with
  | Subject => 1 | DataSnapshot => 2 | UniverseSnapshot => 3 | RulePack => 4 | Artifact => 5 | Definition_ => 6
  | Instrument => 7 | Calendar => 8 | Unit_ => 9 | DataSource => 10 | CurveSnapshot => 11 | FactorDefinition => 12
  | PositionSnapshot => 13 | DataHealthProfile => 14 | CurveNodeDefinition => 15 | Portfolio => 16 | Book => 17
  | PortfolioGroup => 18 | Benchmark => 19 | PortfolioMetricConvention => 20 | Fact => 21
  | PortfolioValuationSnapshot => 22 | BenchmarkLevelSnapshot => 23 | PortfolioPerformanceConvention => 24
  end.

Definition uses_named_reference (self : FormalInputKind) : bool :=
  match self with FactorDefinition | CurveNodeDefinition => true | _ => false end.

Definition uses_versioned_object (self : FormalInputKind) : bool :=
  match self with
  | Subject | RulePack | Definition_ | Instrument | Calendar | Unit_ | DataSource | DataHealthProfile | Portfolio | Book
  | PortfolioGroup | Benchmark | PortfolioMetricConvention | PortfolioPerformanceConvention | Fact => true
  | _ => false
  end.

Record NamedContentRef := { identity : string; named_hash : ContentHash }.

#[export] Instance NamedContentRef_eq_dec : EqDecision NamedContentRef.
Proof. solve_decision. Defined.

Definition named_content_ref_new (identity : string) (content_hash : ContentHash) : DomainResult NamedContentRef :=
  _ ← ensure_stable_identity identity;
  Ok {| identity := identity; named_hash := content_hash |}.

Inductive FormalInputReference :=
| Object_ (reference : LineageRef)
| Named (reference : NamedContentRef).

#[export] Instance FormalInputReference_eq_dec : EqDecision FormalInputReference.
Proof. solve_decision. Defined.

Definition object_reference_bytes (reference : LineageRef) : list byte :=
  written "exact-lineage-reference/v1"
    [(2, as_bytes (ulid_str (object_id reference)));
     (3, optional_u64_bytes (version_get <$> lr_version reference));
     (4, optional_bytes (hash_bytes <$> lr_content_hash reference))].

Definition reference_bytes (self : FormalInputReference) : list byte :=
  written "formal-input-reference/v1"
    match self with
    | Object_ reference => [(2, [x01]); (3, object_reference_bytes reference)]
    | Named reference => [(2, [x02]); (3, as_bytes (identity reference)); (4, hash_bytes (named_hash reference))]
    end.

Definition evidence_owner_bytes (owner : OwnerRef) : list byte :=
  written "owner-ref/v1" [(2, as_bytes (ulid_str (tenant_id owner))); (3, as_bytes (ulid_str (owner_id owner)))].

Definition evidence_time_bytes `{Chrono} (time : MarketTime) : list byte :=
  written "market-time/v1"
    [(2, to_be_bytes 8 (timestamp (instant time))); (3, to_be_bytes 4 (timestamp_subsec_nanos (instant time)));
     (4, as_bytes (market_timezone time)); (5, as_bytes (date_to_string (local_trading_date time)))].

(** The input of the constructor has the same fields. *)
Record FormalInputBinding := {
  role : string;
  kind : FormalInputKind;
  input_owner : OwnerRef;
  reference : FormalInputReference;
  input_observed_at : option MarketTime;
  input_visible_at : option MarketTime;
  effective_from : option MarketTime;
  effective_to : option MarketTime
}.

#[export] Instance FormalInputBinding_eq_dec : EqDecision FormalInputBinding.
Proof. solve_decision. Defined.

Definition validate_reference (kind : FormalInputKind) (reference : FormalInputReference) : DomainResult unit :=
  match uses_named_reference kind, reference with
  | true, Named _ => Ok tt
  | true, Object_ _ | false, Named _ => Err BrokenLineage
  | false, Object_ reference =>
      fail_if (bool_decide (lr_content_hash reference = None)
               || negb (Bool.eqb (bool_decide (is_Some (lr_version reference))) (uses_versioned_object kind))) BrokenLineage
  end.

Definition is_later (earlier later : option MarketTime) (test : DateTime -> DateTime -> bool) : bool :=
  match earlier, later with Some a, Some b => test (instant a) (instant b) | _, _ => false end.

Definition validate_times (observed_at visible_at effective_from effective_to : option MarketTime) : DomainResult unit :=
  fail_if (is_later observed_at visible_at (fun observed visible => ltb visible observed)
           || negb (Bool.eqb (bool_decide (is_Some effective_from)) (bool_decide (is_Some effective_to)))
           || is_later effective_from effective_to geb) InvalidEffectiveTime.

Definition formal_input_binding_new (input : FormalInputBinding) : DomainResult FormalInputBinding :=
  _ ← ensure_role (role input);
  _ ← validate_reference (kind input) (reference input);
  _ ← validate_times (input_observed_at input) (input_visible_at input) (effective_from input) (effective_to input);
  Ok input.

Definition binding_bytes `{Chrono} (self : FormalInputBinding) : list byte :=
  written "formal-input-binding/v1"
    [(2, as_bytes (role self)); (3, [byte_of_Z (kind_code (kind self))]); (4, evidence_owner_bytes (input_owner self));
     (5, reference_bytes (reference self)); (6, optional_bytes (evidence_time_bytes <$> input_observed_at self));
     (7, optional_bytes (evidence_time_bytes <$> input_visible_at self));
     (8, optional_bytes (evidence_time_bytes <$> effective_from self));
     (9, optional_bytes (evidence_time_bytes <$> effective_to self))].

(** ** Code, runtime and implementations *)

Record CodeBinding := { git_commit_sha : string; git_tree_sha : string; code_binding_digest : ContentHash }.

#[export] Instance CodeBinding_eq_dec : EqDecision CodeBinding.
Proof. solve_decision. Defined.

Definition code_digest `{Sha256} (commit tree : string) : ContentHash :=
  digest (written "code-binding-digest/v1" [(2, as_bytes commit); (3, as_bytes tree)]).

Definition code_binding_new `{Sha256} (git_commit_sha git_tree_sha : string) : DomainResult CodeBinding :=
  _ ← ensure_git_sha git_commit_sha;
  _ ← ensure_git_sha git_tree_sha;
  Ok {| git_commit_sha := git_commit_sha; git_tree_sha := git_tree_sha;
        code_binding_digest := code_digest git_commit_sha git_tree_sha |}.

Definition code_binding_from_claimed `{Sha256} (git_commit_sha git_tree_sha : string) (claimed_digest : ContentHash)
    : DomainResult CodeBinding :=
  value ← code_binding_new git_commit_sha git_tree_sha;
  if negb (bool_decide (code_binding_digest value = claimed_digest)) then Err ContentHashMismatch else Ok value.

Definition code_bytes (self : CodeBinding) : list byte :=
  written "code-binding/v1"
    [(2, as_bytes (git_commit_sha self)); (3, as_bytes (git_tree_sha self)); (4, hash_bytes (code_binding_digest self))].

Record RuntimeBinding := { image_digest : ContentHash; environment_digest : ContentHash }.

#[export] Instance RuntimeBinding_eq_dec : EqDecision RuntimeBinding.
Proof. solve_decision. Defined.

Definition runtime_bytes (self : RuntimeBinding) : list byte :=
  written "runtime-binding/v1" [(2, hash_bytes (image_digest self)); (3, hash_bytes (environment_digest self))].

Record FormalImplementationBinding := { implementation_role : string; implementation_role_digest : ContentHash }.

#[export] Instance FormalImplementationBinding_eq_dec : EqDecision FormalImplementationBinding.
Proof. solve_decision. Defined.

Definition implementation_binding_new (role : string) (digest : ContentHash) : DomainResult FormalImplementationBinding :=
  _ ← ensure_role role;
  Ok {| implementation_role := role; implementation_role_digest := digest |}.

Definition implementation_bytes (self : FormalImplementationBinding) : list byte :=
  written "formal-implementation-binding/v1"
    [(2, as_bytes (implementation_role self)); (3, hash_bytes (implementation_role_digest self))].

(** ** Evidence *)

Record FormalOutputEvidenceInput := {
  schema_id : string;
  subject : FormalInputBinding;
  consumed_inputs : list FormalInputBinding;
  code : CodeBinding;
  runtime : RuntimeBinding;
  implementations : list FormalImplementationBinding;
  evidence_parameters : ContentHash;
  seed : option Z;
  result_hash : ContentHash
}.

#[export] Instance FormalOutputEvidenceInput_eq_dec : EqDecision FormalOutputEvidenceInput.
Proof. solve_decision. Defined.

(** The evidence has the fields of the input, the two lists sorted, and the identity. *)
Record FormalOutputEvidence := { evidence : FormalOutputEvidenceInput; output_identity : ContentHash }.

#[export] Instance FormalOutputEvidence_eq_dec : EqDecision FormalOutputEvidence.
Proof. solve_decision. Defined.

Definition identity_fields `{Chrono} (self : FormalOutputEvidenceInput) : list (Z * list byte) :=
  [(2, as_bytes (schema_id self)); (3, binding_bytes (subject self));
   (4, to_be_bytes 8 (Z.of_nat (List.length (consumed_inputs self))))]
  ++ map (fun input => (5, binding_bytes input)) (consumed_inputs self)
  ++ [(6, code_bytes (code self)); (7, runtime_bytes (runtime self));
      (8, to_be_bytes 8 (Z.of_nat (List.length (implementations self))))]
  ++ map (fun implementation => (9, implementation_bytes implementation)) (implementations self)
  ++ [(10, hash_bytes (evidence_parameters self)); (11, optional_u64_bytes (seed self)); (12, hash_bytes (result_hash self))].

Definition evidence_identity_bytes `{Chrono} (self : FormalOutputEvidenceInput) : list byte :=
  written FORMAL_EVIDENCE_DOMAIN (identity_fields self).

Definition evidence_canonical_bytes `{Chrono} (self : FormalOutputEvidence) : list byte :=
  written "formal-output-evidence-record/v1"
    [(2, evidence_identity_bytes (evidence self)); (3, hash_bytes (output_identity self))].

Definition compare_inputs `{Chrono} (left right : FormalInputBinding) : comparison :=
  lex (cmp (role left) (role right)) (cmp (binding_bytes left) (binding_bytes right)).

Definition formal_output_evidence_new `{Sha256} `{Chrono} (input : FormalOutputEvidenceInput) : DomainResult FormalOutputEvidence :=
  _ ← ensure_stable_identity (schema_id input);
  if negb (bool_decide (kind (subject input) = Subject)) || negb (bool_decide (role (subject input) = "subject"%string))
  then Err BrokenLineage else
  let consumed_inputs := sort_by compare_inputs (consumed_inputs input) in
  if windows2_any (fun a b => bool_decide (role a = role b)) consumed_inputs
     || existsb (fun binding => bool_decide (role binding = "subject"%string)) consumed_inputs
  then Err BrokenLineage else
  let implementations := sort_by_key implementation_role (implementations input) in
  if windows2_any (fun a b => bool_decide (implementation_role a = implementation_role b)) implementations
  then Err InvalidValue else
  let result := {|
    schema_id := schema_id input; subject := subject input; consumed_inputs := consumed_inputs; code := code input;
    runtime := runtime input; implementations := implementations; evidence_parameters := evidence_parameters input;
    seed := seed input; result_hash := result_hash input |} in
  Ok {| evidence := result; output_identity := digest (evidence_identity_bytes result) |}.

Definition formal_output_evidence_from_claimed `{Sha256} `{Chrono} (input : FormalOutputEvidenceInput)
    (claimed_identity : ContentHash) : DomainResult FormalOutputEvidence :=
  value ← formal_output_evidence_new input;
  if negb (bool_decide (output_identity value = claimed_identity)) then Err ContentHashMismatch else Ok value.

(** ** The writer is injective *)

Arguments written : simpl never.
Arguments optional_bytes : simpl never.

Lemma evidence_field_inj f g r s :
  in_u16 f.1 = true -> in_u16 g.1 = true -> short f.2 -> short g.2 ->
  evidence_field f ++ r = evidence_field g ++ s -> f = g /\ r = s.
Proof.
  intros Tf Tg Sf Sg E. unfold evidence_field in E. rewrite <- !(assoc_L (++)) in E.
  apply app_inj_1 in E as [Et E]; [|by rewrite !length_to_be_bytes].
  apply frame_inj in E as [E ->]; [|done..]. split; [|done]. destruct f as [t v], g as [t' v']. cbn [fst snd] in *.
  f_equal; [|done]. ranges. by apply (to_be_bytes_inj 2 0) in Et; [|cbn; lia..].
Qed.

Lemma evidence_fields_inj l m :
  Forall (fun f => in_u16 f.1 = true /\ short f.2) l -> Forall (fun f => in_u16 f.1 = true /\ short f.2) m ->
  flat_map evidence_field l = flat_map evidence_field m -> l = m.
Proof.
  intros Hl. revert m. induction Hl as [|f l [Tf Sf] Hl IH]; intros m Hm E; destruct Hm as [|g m [Tg Sg] Hm]; [done|done|done|].
  cbn [flat_map] in E. apply evidence_field_inj in E as [-> E]; [|done..]. f_equal. by apply IH.
Qed.

(** What is written fits in memory, so every value does. *)
Lemma written_short d l : short (written d l) -> Forall (fun f => short f.2) l.
Proof.
  unfold written. cbn [flat_map]. unfold short. rewrite !length_app. intros Hs.
  assert (Hb : Z.of_nat (List.length (flat_map evidence_field l)) < 2 ^ 64) by lia. clear Hs.
  induction l as [|f l IH]; [constructor|]. cbn [flat_map] in Hb. rewrite length_app in Hb.
  unfold evidence_field at 1, frame in Hb. rewrite !length_app in Hb. constructor; [lia|apply IH; lia].
Qed.

Definition tags_ok (l : list (Z * list byte)) : bool := forallb (fun f => in_u16 f.1) l.

Lemma written_inj d l m :
  tags_ok l = true -> tags_ok m = true -> short (written d l) -> written d l = written d m -> l = m.
Proof.
  unfold tags_ok. rewrite !forallb_forall. intros Tl Tm Sl E. pose proof Sl as Sm. rewrite E in Sm.
  apply written_short in Sl, Sm. unfold written in E. do 2 apply app_inv_head in E. cbn [flat_map] in E. apply app_inv_head in E.
  rewrite list.Forall_forall in Sl, Sm.
  apply evidence_fields_inj; [..|done]; apply list.Forall_forall; intros f Hf;
    (split; [first [by apply Tl, list_elem_of_In|by apply Tm, list_elem_of_In]|auto]).
Qed.

Lemma tagged_cons_inj (t : Z) (v w : list byte) l m : (t, v) :: l = (t, w) :: m -> v = w /\ l = m.
Proof. by intros [= -> ->]. Qed.

(** From an equation of two writings: the equations of their values, with the values known to be short. *)
Ltac written_fields E :=
  let S := fresh "S" in
  match type of E with written _ ?l = written _ ?m =>
    match goal with H : short (written _ l) |- _ => pose proof (written_short _ _ H) as S end
  end;
  apply written_inj in E; [|reflexivity..|assumption];
  repeat match goal with
  | H : (?t, _) :: _ = (?t, _) :: _ |- _ => let F := fresh "F" in apply tagged_cons_inj in H; destruct H as [F H]
  | H : @nil (Z * list byte) = [] |- _ => clear H
  | H : Forall _ (_ :: _) |- _ => let S := fresh "S" in apply Forall_cons in H; destruct H as [S H]; cbn [snd] in S
  | H : Forall _ [] |- _ => clear H
  end.

Lemma optional_bytes_inj v w : short (optional_bytes v) -> optional_bytes v = optional_bytes w -> v = w.
Proof.
  intros Sv E. pose proof Sv as Sw. rewrite E in Sw. destruct v as [v|], w as [w|]; unfold optional_bytes in *; try done.
  apply (f_equal tail) in E. change (frame v = frame w) in E.
  assert (Hs : forall u, short (x01 :: frame u) -> short u)
    by (intros u; unfold short, frame; cbn [List.length]; rewrite length_app; lia).
  assert (E' : frame v ++ [] = frame w ++ []) by by rewrite E.
  apply frame_inj in E' as [-> _]; auto.
Qed.

Lemma optional_short v : short (optional_bytes (Some v)) -> short v.
Proof. unfold short, optional_bytes, frame. cbn [List.length]. rewrite length_app. lia. Qed.

Lemma optional_u64_inj v w :
  from_option (fun z => in_u64 z = true) True v -> from_option (fun z => in_u64 z = true) True w ->
  optional_u64_bytes v = optional_u64_bytes w -> v = w.
Proof.
  intros Hv Hw E. destruct v as [v|], w as [w|]; cbn [optional_u64_bytes] in E; try done.
  apply (f_equal tail) in E. cbn [tail] in E. apply u64_be_inj in E; [by f_equal|done..].
Qed.

(** ** The objects are determined by their bytes *)

Definition wf_reference (r : FormalInputReference) : Prop :=
  match r with Object_ r => from_option wf_version True (lr_version r) | Named _ => True end.

Definition wf_input_binding (b : FormalInputBinding) : Prop :=
  wf_reference (reference b) /\ from_option wf_time True (input_observed_at b) /\ from_option wf_time True (input_visible_at b)
  /\ from_option wf_time True (effective_from b) /\ from_option wf_time True (effective_to b).

Lemma kind_code_inj k l : byte_of_Z (kind_code k) = byte_of_Z (kind_code l) -> k = l.
Proof. destruct k, l; vm_compute; congruence. Qed.

Lemma object_reference_bytes_inj r s :
  from_option wf_version True (lr_version r) -> from_option wf_version True (lr_version s) ->
  short (object_reference_bytes r) -> object_reference_bytes r = object_reference_bytes s -> r = s.
Proof.
  intros Wr Ws Sr E. unfold object_reference_bytes in *. written_fields E.
  apply ulid_bytes_inj in F. apply optional_bytes_inj in F1; [|done].
  apply optional_u64_inj in F0; [|destruct (lr_version r), (lr_version s); unfold wf_version in *; cbn in *; ranges; try lia; done..].
  destruct r as [i v h], s as [i' v' h']. cbn [object_id lr_version lr_content_hash] in *. subst i'. f_equal.
  - destruct v as [[]|], v' as [[]|]; cbn in F0; congruence.
  - destruct h as [[]|], h' as [[]|]; cbn in F1; congruence.
Qed.

Lemma reference_bytes_inj r s :
  wf_reference r -> wf_reference s -> short (reference_bytes r) -> reference_bytes r = reference_bytes s -> r = s.
Proof.
  intros Wr Ws Sr E. unfold reference_bytes in *. destruct r as [r|r], s as [s|s]; written_fields E; try discriminate F.
  - f_equal. by apply object_reference_bytes_inj.
  - apply as_bytes_inj in F0. apply hash_eq in F1. destruct r, s. cbn in *. by subst.
Qed.

Section time.
Context `{UlidCrate} `{Sha256} `{ChronoLaws}.

Lemma evidence_owner_bytes_inj o p : short (evidence_owner_bytes o) -> evidence_owner_bytes o = evidence_owner_bytes p -> o = p.
Proof.
  intros So E. unfold evidence_owner_bytes in *. written_fields E. apply ulid_bytes_inj in F, F0. destruct o, p. cbn in *. by subst.
Qed.

Lemma evidence_time_bytes_inj t u :
  wf_time t -> wf_time u -> short (evidence_time_bytes t) -> evidence_time_bytes t = evidence_time_bytes u -> t = u.
Proof.
  intros Wt Wu St E. unfold evidence_time_bytes in *. written_fields E.
  apply market_time_fields_inj; [done..|]. unfold market_time_fields. congruence.
Qed.

Lemma optional_time_inj t u :
  from_option wf_time True t -> from_option wf_time True u -> short (optional_bytes (evidence_time_bytes <$> t)) ->
  optional_bytes (evidence_time_bytes <$> t) = optional_bytes (evidence_time_bytes <$> u) -> t = u.
Proof.
  intros Wt Wu St E. apply optional_bytes_inj in E; [|done]. destruct t as [t|], u as [u|]; try done.
  apply (inj Some) in E. f_equal. apply evidence_time_bytes_inj; [exact Wt|exact Wu|by apply optional_short|exact E].
Qed.

Lemma binding_bytes_inj b c :
  wf_input_binding b -> wf_input_binding c -> short (binding_bytes b) -> binding_bytes b = binding_bytes c -> b = c.
Proof.
  intros (? & ? & ? & ? & ?) (? & ? & ? & ? & ?) Sb E. unfold binding_bytes in *. written_fields E.
  apply as_bytes_inj in F. apply (list_singleton_inj byte) in F0. apply kind_code_inj in F0.
  apply evidence_owner_bytes_inj in F1; [|done]. apply reference_bytes_inj in F2; [|done..].
  apply optional_time_inj in F3, F4, F5, F6; [|done..]. destruct b, c. cbn in *. by subst.
Qed.
End time.

Lemma code_bytes_inj c d : short (code_bytes c) -> code_bytes c = code_bytes d -> c = d.
Proof.
  intros Sc E. unfold code_bytes in *. written_fields E. apply as_bytes_inj in F, F0. apply hash_eq in F1.
  destruct c, d. cbn in *. by subst.
Qed.

Lemma runtime_bytes_inj r s : short (runtime_bytes r) -> runtime_bytes r = runtime_bytes s -> r = s.
Proof.
  intros Sc E. unfold runtime_bytes in *. written_fields E. apply hash_eq in F, F0. destruct r, s. cbn in *. by subst.
Qed.

Lemma implementation_bytes_inj i j : short (implementation_bytes i) -> implementation_bytes i = implementation_bytes j -> i = j.
Proof.
  intros Sc E. unfold implementation_bytes in *. written_fields E. apply as_bytes_inj in F. apply hash_eq in F0.
  destruct i, j. cbn in *. by subst.
Qed.

(** Equal runs of fields with one tag, written for objects that their bytes determine. *)
Lemma tagged_map_inj {A} (P : A -> Prop) (f : A -> list byte) t l m :
  (forall a b, P a -> P b -> short (f a) -> f a = f b -> a = b) ->
  Forall P l -> Forall P m -> Forall (fun g : Z * list byte => short g.2) (map (fun a => (t, f a)) l) ->
  map (fun a => (t, f a)) l = map (fun a => (t, f a)) m -> l = m.
Proof.
  intros Hf Hl. revert m. induction Hl as [|a l Ha Hl IH]; intros m Hm Hs E; destruct Hm as [|b m Hb Hm]; try done.
  cbn [map] in *. apply tagged_cons_inj in E as [Ef E]. apply Forall_cons in Hs as [Sa Hs]. f_equal; [by apply Hf|by apply IH].
Qed.

Section identity.
Context `{UlidCrate} `{Sha256} `{ChronoLaws}.

(** Evidence as the code can hold it. *)
Record wf_evidence (e : FormalOutputEvidenceInput) : Prop := {
  wf_subject : wf_input_binding (subject e);
  wf_consumed : Forall wf_input_binding (consumed_inputs e);
  wf_consumed_length : in_u64 (Z.of_nat (List.length (consumed_inputs e))) = true;
  wf_implementations_length : in_u64 (Z.of_nat (List.length (implementations e))) = true;
  wf_seed : from_option (fun z => in_u64 z = true) True (seed e);
  wf_bytes : short (evidence_identity_bytes e)
}.

Lemma identity_tags_ok e : tags_ok (identity_fields e) = true.
Proof.
  unfold tags_ok, identity_fields. rewrite !forallb_app, !andb_true_iff.
  repeat split; try reflexivity; apply forallb_forall; intros f (a & <- & _)%in_map_iff; reflexivity.
Qed.

Lemma map_length_agree {A} (f : A -> Z * list byte) (l m : list A) r s :
  in_u64 (Z.of_nat (List.length l)) = true -> in_u64 (Z.of_nat (List.length m)) = true ->
  to_be_bytes 8 (Z.of_nat (List.length l)) = to_be_bytes 8 (Z.of_nat (List.length m)) ->
  map f l ++ r = map f m ++ s -> map f l = map f m /\ r = s.
Proof.
  intros Wl Wm El E. apply u64_be_inj in El; [|done..]. apply app_inj_1 in E; [done|]. rewrite !length_map. lia.
Qed.

Lemma identity_bytes_inj e f :
  wf_evidence e -> wf_evidence f -> evidence_identity_bytes e = evidence_identity_bytes f -> e = f.
Proof.
  intros We Wf E. pose proof (wf_bytes e We) as Sb. pose proof (written_short _ _ Sb) as Ss.
  apply written_inj in E; [|apply identity_tags_ok..|exact Sb]. clear Sb. unfold identity_fields in E, Ss. cbn [app] in E, Ss.
  destruct We as [Ws Wc Lc Li Wd _], Wf as [Ws' Wc' Lc' Li' Wd' _].
  repeat (apply Forall_cons in Ss as [? Ss]). apply Forall_app in Ss as [Sc Ss]. repeat (apply Forall_cons in Ss as [? Ss]).
  apply Forall_app in Ss as [Si _]. cbn [snd] in *.
  apply tagged_cons_inj in E as [Esc E]. apply tagged_cons_inj in E as [Esu E]. apply tagged_cons_inj in E as [Ecl E].
  apply map_length_agree in E as [Ec E]; [|done..].
  apply tagged_cons_inj in E as [Eco E]. apply tagged_cons_inj in E as [Eru E]. apply tagged_cons_inj in E as [Eil E].
  apply map_length_agree in E as [Ei E]; [|done..].
  apply tagged_cons_inj in E as [Epa E]. apply tagged_cons_inj in E as [Ese E]. apply tagged_cons_inj in E as [Ere _].
  apply as_bytes_inj in Esc. apply binding_bytes_inj in Esu; [|done..].
  apply (tagged_map_inj wf_input_binding) in Ec; [|intros; by apply binding_bytes_inj|done..].
  apply code_bytes_inj in Eco; [|done]. apply runtime_bytes_inj in Eru; [|done].
  apply (tagged_map_inj (fun _ => True)) in Ei; [|intros; by apply implementation_bytes_inj|by apply Forall_true..|done].
  apply hash_eq in Epa, Ere. apply optional_u64_inj in Ese; [|done..]. destruct e, f. cbn in *. by subst.
Qed.

(** ** Acceptance *)

(** Evidence is accepted for a subject, with one input for a role other than the subject's, and one
    implementation for a role. *)
Record acceptable (i : FormalOutputEvidenceInput) : Prop := {
  ok_schema : ensure_stable_identity (schema_id i) = Ok tt;
  ok_subject : kind (subject i) = Subject /\ role (subject i) = "subject"%string;
  ok_inputs : NoDup (map role (consumed_inputs i)) /\ "subject"%string ∉ map role (consumed_inputs i);
  ok_implementations : NoDup (map implementation_role (implementations i))
}.

(** The canonical arrangement of what was given. *)
Record arranged (i e : FormalOutputEvidenceInput) : Prop := {
  same_rest : schema_id e = schema_id i /\ subject e = subject i /\ code e = code i /\ runtime e = runtime i
    /\ evidence_parameters e = evidence_parameters i /\ seed e = seed i /\ result_hash e = result_hash i;
  same_inputs : consumed_inputs e ≡ₚ consumed_inputs i;
  same_implementations : implementations e ≡ₚ implementations i;
  inputs_by_role : StronglySorted (fun a b => cmp (role a) (role b) = Lt) (consumed_inputs e);
  implementations_by_role : StronglySorted (fun a b => cmp (implementation_role a) (implementation_role b) = Lt) (implementations e)
}.

Lemma compare_inputs_sorted l : StronglySorted (fun a b => cmp (role a) (role b) <> Gt) (sort_by compare_inputs l).
Proof.
  pose proof (sort_by_key_sorted (fun b => (role b, binding_bytes b)) l) as S.
  change (sort_by_key _ l) with (sort_by compare_inputs l) in S. induction S as [|a s _ IH Ha]; constructor; [done|].
  eapply Forall_impl; [exact Ha|]. intros b Hb E. apply Hb.
  change (lex (cmp (role a) (role b)) (cmp (binding_bytes a) (binding_bytes b)) = Gt). by rewrite E.
Qed.

Lemma no_repeated_keys {A K} `{OrdLaws K} `{EqDecision K} (key : A -> K) (s l : list A) :
  StronglySorted (fun a b => cmp (key a) (key b) <> Gt) s -> s ≡ₚ l ->
  windows2_any (fun a b => bool_decide (key a = key b)) s = false <-> NoDup (map key l).
Proof.
  intros Ss Hp. split.
  - intros Hw. change (map key l) with (key <$> l). rewrite <- Hp. apply strict_NoDup, (sorted_strict key (fun a b => bool_decide (key a = key b))); [|done..].
    intros x y Hf%bool_decide_eq_false. done.
  - intros Hn. apply windows2_any_false. intros i x y Hx Hy. apply bool_decide_eq_false. intros E.
    change (map key l) with (key <$> l) in Hn. rewrite <- Hp in Hn. assert (i = S i); [|lia].
    apply (NoDup_lookup _ i (S i) (key x) Hn); rewrite list_lookup_fmap; [by rewrite Hx|by rewrite Hy, E].
Qed.

Lemma strict_of_no_repeats {A K} `{OrdLaws K} `{EqDecision K} (key : A -> K) (s : list A) :
  StronglySorted (fun a b => cmp (key a) (key b) <> Gt) s -> NoDup (map key s) -> StronglySorted (fun a b => cmp (key a) (key b) = Lt) s.
Proof.
  intros Ss Hn. apply (sorted_strict key (fun a b => bool_decide (key a = key b))); [by intros x y Hf%bool_decide_eq_false|done|].
  by apply (no_repeated_keys key s s).
Qed.
Lemma subject_role_spec l : existsb (fun b => bool_decide (role b = "subject"%string)) l = false <-> "subject"%string ∉ map role l.
Proof.
  rewrite existsb_false_Forall, list.Forall_forall. split.
  - intros Hl (b & E & Hb)%list_elem_of_fmap. specialize (Hl b Hb). by apply bool_decide_eq_false in Hl.
  - intros Hn b Hb. apply bool_decide_eq_false. intros E. apply Hn. rewrite <- E. by apply (list_elem_of_fmap_2 role).
Qed.

Lemma perm_map_iff {A B} (f : A -> B) (l m : list A) x : l ≡ₚ m -> x ∈ map f l <-> x ∈ map f m.
Proof. intros Hp. change (x ∈ f <$> l <-> x ∈ f <$> m). by rewrite Hp. Qed.

Lemma evidence_new_spec i :
  match formal_output_evidence_new i with
  | Ok e => acceptable i /\ arranged i (evidence e) /\ output_identity e = digest (evidence_identity_bytes (evidence e))
  | Err _ => ~ acceptable i
  end.
Proof.
  unfold formal_output_evidence_new. destruct (ensure_stable_identity (schema_id i)) as [[]|e] eqn:Es; cbn [mbind Result_bind];
    [|intros [Hs _ _ _]; congruence].
  case_bool_decide as Hk; cbn [negb orb]; [|by intros [_ [? _] _ _]].
  case_bool_decide as Hr; cbn [negb]; [|by intros [_ [_ ?] _ _]].
  pose proof (compare_inputs_sorted (consumed_inputs i)) as Sc. pose proof (sort_by_perm compare_inputs (consumed_inputs i)) as Pc.
  pose proof (no_repeated_keys role _ _ Sc Pc) as Hc.
  pose proof (sort_by_key_sorted implementation_role (implementations i)) as Si.
  assert (Pi : sort_by_key implementation_role (implementations i) ≡ₚ implementations i) by (unfold sort_by_key; by rewrite sort_by_perm).
  pose proof (no_repeated_keys implementation_role _ _ Si Pi) as Hi.
  set (cs := sort_by compare_inputs (consumed_inputs i)) in *. set (ims := sort_by_key implementation_role (implementations i)) in *.
  destruct (windows2_any _ cs); cbn [orb]; [intros [_ _ [Hn _] _]; by apply Hc in Hn|].
  destruct (existsb _ cs) eqn:Ex; [intros [_ _ [_ Hn] _]; rewrite <- (perm_map_iff role cs _ _ Pc) in Hn; apply subject_role_spec in Hn; congruence|].
  apply subject_role_spec in Ex. rewrite (perm_map_iff role cs _ _ Pc) in Ex.
  destruct (windows2_any _ ims); [intros [_ _ _ Hn]; by apply Hi in Hn|].
  assert (Nc : NoDup (map role (consumed_inputs i))) by by apply Hc. assert (Ni : NoDup (map implementation_role (implementations i))) by by apply Hi.
  split; [by split|]. split; [|done]. split; cbn [consumed_inputs implementations evidence]; [by repeat split|done|done|..].
  - apply strict_of_no_repeats; [done|]. change (NoDup (role <$> cs)). by rewrite Pc.
  - apply strict_of_no_repeats; [done|]. change (NoDup (implementation_role <$> ims)). by rewrite Pi.
Qed.

(** The same input with its lists in another order. *)
Record same_evidence_input (i j : FormalOutputEvidenceInput) : Prop := {
  same_fields : schema_id i = schema_id j /\ subject i = subject j /\ code i = code j /\ runtime i = runtime j
    /\ evidence_parameters i = evidence_parameters j /\ seed i = seed j /\ result_hash i = result_hash j;
  same_consumed : consumed_inputs i ≡ₚ consumed_inputs j;
  same_implemented : implementations i ≡ₚ implementations j
}.

Lemma evidence_new_perm i j : same_evidence_input i j -> formal_output_evidence_new i = formal_output_evidence_new j.
Proof.
  destruct i, j. intros [Hf Pc Pi]. cbn in Hf, Pc, Pi. destruct Hf as (-> & -> & -> & -> & -> & -> & ->). unfold formal_output_evidence_new.
  cbn [schema_id subject consumed_inputs code runtime implementations evidence_parameters seed result_hash].
  destruct (sorted_perm_agree role (fun a b => bool_decide (role a = role b)) _ _ ltac:(intros; apply bool_decide_eq_true)
    (compare_inputs_sorted consumed_inputs0) (compare_inputs_sorted consumed_inputs1)) as [Dc Ec]; [by rewrite !sort_by_perm|].
  destruct (canonical_sort_perm implementation_role (fun a b => bool_decide (implementation_role a = implementation_role b)) _ _
    ltac:(intros; apply bool_decide_eq_true) Pi) as [Di Ei].
  destruct (ensure_stable_identity schema_id1); cbn [mbind Result_bind]; [|done]. destruct (_ || _); [done|].
  rewrite <- Dc. destruct (windows2_any _ (sort_by compare_inputs consumed_inputs0)); [done|]. rewrite <- (Ec eq_refl). cbn [orb].
  destruct (existsb _ _); [done|]. rewrite <- Di. destruct (windows2_any _ (sort_by_key implementation_role implementations0)); [done|].
  by rewrite <- (Ei eq_refl).
Qed.

Lemma claimed_spec i h :
  formal_output_evidence_from_claimed i h =
    match formal_output_evidence_new i with
    | Ok e => if bool_decide (output_identity e = h) then Ok e else Err ContentHashMismatch
    | Err e => Err e
    end.
Proof. unfold formal_output_evidence_from_claimed. destruct (formal_output_evidence_new i); [|done]. cbn. by case_bool_decide. Qed.

Lemma evidence_identifies i j e f :
  formal_output_evidence_new i = Ok e -> formal_output_evidence_new j = Ok f ->
  wf_evidence (evidence e) -> wf_evidence (evidence f) -> output_identity e = output_identity f -> e = f \/ collision.
Proof.
  intros Ei Ej We Wf E. pose proof (evidence_new_spec i) as Si. pose proof (evidence_new_spec j) as Sj.
  rewrite Ei in Si. rewrite Ej in Sj. destruct Si as (_ & _ & De), Sj as (_ & _ & Df). pose proof E as Eid. rewrite De, Df in E.
  apply digest_inj in E as [E|]; [left|by right]. apply identity_bytes_inj in E; [|done..]. destruct e, f. cbn in *. by subst.
Qed.
End identity.

(** ** Properties *)

(** Formal evidence is canonical: evidence is made exactly for a schema with a stable name, a
    subject binding in the role of the subject, at most one input for every other role and at most one
    implementation for a role; what is made holds everything that was given, the inputs and the
    implementations in the order of their roles; and giving them in another order gives the same
    evidence with the same identity, or the same error. *)
Theorem formal_evidence_canonical `{Sha256} `{ChronoLaws} i j :
  same_evidence_input i j ->
  formal_output_evidence_new i = formal_output_evidence_new j
  /\ match formal_output_evidence_new i with
     | Ok e => acceptable i /\ arranged i (evidence e)
     | Err _ => ~ acceptable i
     end.
Proof.
  intros Hs. split; [by apply evidence_new_perm|]. pose proof (evidence_new_spec i) as Hi.
  destruct (formal_output_evidence_new i); [by destruct Hi as (? & ? & _)|done].
Qed.

(** The identity of an output binds everything it was made from: evidence with one identity is the
    same evidence - subject, inputs with their owners, references and times, code, runtime,
    implementations, parameters, seed and result - or two different inputs of the hash with one digest
    have been found. *)
Theorem formal_evidence_identifies `{UlidCrate} `{Sha256} `{ChronoLaws} i j e f :
  formal_output_evidence_new i = Ok e -> formal_output_evidence_new j = Ok f ->
  wf_evidence (evidence e) -> wf_evidence (evidence f) -> output_identity e = output_identity f -> e = f \/ collision.
Proof. apply evidence_identifies. Qed.

Section example.
Local Existing Instance sample_sha256.
Local Existing Instance sample_ulid_crate.
Local Existing Instance sample_chrono.
Local Existing Instance sample_chrono_laws.

Definition sample_reference : FormalInputReference :=
  Object_ {| object_id := sample_id "S"; lr_version := Some (mk_version 1); lr_content_hash := Some (sample_hash x05) |}.
Definition sample_input_binding (name : string) (kind : FormalInputKind) : FormalInputBinding := {|
  role := name; kind := kind; input_owner := sample_owner; reference := sample_reference;
  input_observed_at := Some (sample_time 10); input_visible_at := Some (sample_time 20); effective_from := None; effective_to := None
|}.
Definition sample_code : CodeBinding := {|
  git_commit_sha := "0123456789012345678901234567890123456789"; git_tree_sha := "abcdefabcdefabcdefabcdefabcdefabcdefabcd";
  code_binding_digest := sample_hash x07 |}.
Definition sample_evidence_input (inputs : list FormalInputBinding) : FormalOutputEvidenceInput := {|
  schema_id := "ficant.portfolio.risk/v1"; subject := sample_input_binding "subject" Subject; consumed_inputs := inputs;
  code := sample_code; runtime := {| image_digest := sample_hash x08; environment_digest := sample_hash x09 |};
  implementations := [{| implementation_role := "pricer"; implementation_role_digest := sample_hash x0a |}];
  evidence_parameters := sample_hash x0b; seed := Some 7; result_hash := sample_hash x0c
|}.
Definition two_inputs : list FormalInputBinding := [sample_input_binding "unit" Unit_; sample_input_binding "calendar" Calendar].

Example sample_evidence_cases :
  is_ok (formal_input_binding_new (sample_input_binding "unit" Unit_)) = true
  /\ is_ok (formal_input_binding_new (sample_input_binding "unit" DataSnapshot)) = false
  /\ is_ok (formal_input_binding_new (sample_input_binding "Unit" Unit_)) = false
  /\ is_ok (code_binding_new (git_commit_sha sample_code) (git_tree_sha sample_code)) = true
  /\ is_ok (formal_output_evidence_new (sample_evidence_input (two_inputs ++ two_inputs))) = false
  /\ is_ok (formal_output_evidence_new (sample_evidence_input [sample_input_binding "subject" Subject])) = false.
Proof. vm_compute. by repeat split. Qed.

Lemma formal_evidence_canonical_witness :
  formal_output_evidence_new (sample_evidence_input two_inputs) = formal_output_evidence_new (sample_evidence_input (rev two_inputs))
  /\ acceptable (sample_evidence_input two_inputs).
Proof.
  assert (S : same_evidence_input (sample_evidence_input two_inputs) (sample_evidence_input (rev two_inputs))).
  { split; [by repeat split|apply Permutation_rev|reflexivity]. }
  destruct (formal_evidence_canonical _ _ S) as [E A]. split; [exact E|].
  assert (V : is_ok (formal_output_evidence_new (sample_evidence_input two_inputs)) = true) by (vm_compute; reflexivity).
  destruct (formal_output_evidence_new (sample_evidence_input two_inputs)) as [e|]; [|discriminate V]. destruct A as [A _]. exact A.
Defined.

Lemma sample_evidence_wf l :
  Forall wf_input_binding l -> in_u64 (Z.of_nat (List.length l)) = true -> short (evidence_identity_bytes (sample_evidence_input l)) ->
  wf_evidence (sample_evidence_input l).
Proof.
  intros Wl Ll Sl. split; [|exact Wl|exact Ll|reflexivity|reflexivity|exact Sl].
  repeat split; vm_compute; congruence.
Qed.
Definition sample_evidence (l : list FormalInputBinding) : FormalOutputEvidence :=
  ok_of {| evidence := sample_evidence_input []; output_identity := sample_hash x00 |} (formal_output_evidence_new (sample_evidence_input l)).

Lemma formal_evidence_identifies_witness :
  sample_evidence two_inputs = sample_evidence (rev two_inputs) \/ collision.
Proof.
  assert (W : wf_evidence (sample_evidence_input (rev two_inputs))).
  { apply sample_evidence_wf; [|reflexivity|apply Z.ltb_lt; vm_compute; reflexivity].
    repeat constructor; vm_compute; congruence. }
  assert (E : evidence (sample_evidence two_inputs) = sample_evidence_input (rev two_inputs)) by (vm_compute; reflexivity).
  assert (F : evidence (sample_evidence (rev two_inputs)) = sample_evidence_input (rev two_inputs)) by (vm_compute; reflexivity).
  apply (formal_evidence_identifies (sample_evidence_input two_inputs) (sample_evidence_input (rev two_inputs))).
  - apply ok_intro. vm_compute. reflexivity.
  - apply ok_intro. vm_compute. reflexivity.
  - rewrite E. exact W.
  - rewrite F. exact W.
  - vm_compute. reflexivity.
Defined.
End example.
