(* ===== verification/NativeIdentity.v ===== *)
(** * Reproducibility identities

    The middle part of [crates/ficant-runtime/src/native_execution.rs]: everything a native graph result
    may depend on, frozen under one digest, and the identity of one execution. *)

From Stdlib Require Import ZArith Lia Strings.String.
From Stdlib Require Import Strings.Byte.
From stdpp Require Import base list option strings numbers sorting.
From S2P Require Import Prelude Machine Collections Primitives Codec Concrete ResearchGraph GraphOrder GraphWiring GraphConstruction RunJournal Runtime Evidence.
Open Scope Z_scope.

Definition native_invalid : RuntimeError := Domain InvalidValue.
Definition native_hash_mismatch : RuntimeError := Domain ContentHashMismatch.
Definition native_broken : RuntimeError := Domain BrokenLineage.

(** ** Inputs *)

Record NodeImplementation := { implemented_node : Ulid; implementation_digest : ContentHash }.

#[export] Instance NodeImplementation_eq_dec : EqDecision NodeImplementation.
Proof. solve_decision. Defined.

Record RulePackBinding := { rule_pack_id : string; rule_pack_version : Version; rule_pack_hash : ContentHash }.

#[export] Instance RulePackBinding_eq_dec : EqDecision RulePackBinding.
Proof. solve_decision. Defined.

(** The derived order. *)
Definition rule_pack_key (b : RulePackBinding) : (string * Version) * ContentHash :=
  ((rule_pack_id b, rule_pack_version b), rule_pack_hash b).
#[export] Instance RulePackBinding_ord : Ord RulePackBinding := fun a b => cmp (rule_pack_key a) (rule_pack_key b).

Record ExecutionExternalInput := {
  ext_input_id : string;
  ext_value_type : TypedValue;
  ext_payload : list byte;
  ext_content_hash : ContentHash
}.

#[export] Instance ExecutionExternalInput_eq_dec : EqDecision ExecutionExternalInput.
Proof. solve_decision. Defined.

(** The test [id.is_empty() || id.trim() != id || payload.is_empty()]. *)
Definition unnamed_or_empty (name : string) (payload : list byte) : bool :=
  bool_decide (name = EmptyString) || negb (bool_decide (trim name = name)) || bool_decide (payload = []).

Definition execution_external_input_new `{Sha256} (input_id : string) (value_type : TypedValue) (payload : list byte)
    : RuntimeResult ExecutionExternalInput :=
  if unnamed_or_empty input_id payload then Err native_invalid
  else Ok {| ext_input_id := input_id; ext_value_type := value_type; ext_payload := payload; ext_content_hash := digest payload |}.

Record ReproducibilityIdentityInput := {
  given_external_inputs : list ExecutionExternalInput;
  given_data_snapshot : ContentHash;
  given_universe_snapshot : ContentHash;
  given_parameters : ContentHash;
  given_image : ContentHash;
  given_environment : ContentHash;
  given_seed : Z;
  given_rule_packs : list RulePackBinding;
  given_implementations : list NodeImplementation
}.

(** ** The identity *)

Record ReproducibilityIdentity := {
  rep_external_inputs : list ExecutionExternalInput;
  rep_rule_packs : list RulePackBinding;
  rep_data_snapshot : ContentHash;
  rep_universe_snapshot : ContentHash;
  rep_graph_digest : ContentHash;
  rep_parameters : ContentHash;
  rep_image : ContentHash;
  rep_environment : ContentHash;
  rep_seed : Z;
  rep_implementations : list NodeImplementation;
  rep_subject : option FormalInputBinding;
  rep_code : option CodeBinding;
  rep_digest : ContentHash
}.

#[export] Instance ReproducibilityIdentity_eq_dec : EqDecision ReproducibilityIdentity.
Proof. solve_decision. Defined.

Definition push_external (input : ExecutionExternalInput) : list byte :=
  push_str (ext_input_id input) ++ push_typed_value (ext_value_type input) ++ hash_bytes (ext_content_hash input).

Definition push_rule_pack (binding : RulePackBinding) : list byte :=
  push_str (rule_pack_id binding) ++ push_u64 (version_get (rule_pack_version binding)) ++ hash_bytes (rule_pack_hash binding).

Definition push_implementation (binding : NodeImplementation) : list byte :=
  push_str (ulid_str (implemented_node binding)) ++ hash_bytes (implementation_digest binding).

Definition reproducibility_bytes `{Chrono} (self : ReproducibilityIdentity) : list byte :=
  (match rep_subject self, rep_code self with
   | Some _, Some _ => as_bytes "ficant/reproducibility-identity/v2"
   | _, _ => as_bytes "ficant/reproducibility-identity/v1"
   end)
  ++ push_seq push_external (rep_external_inputs self)
  ++ push_seq push_rule_pack (rep_rule_packs self)
  ++ hash_bytes (rep_graph_digest self) ++ hash_bytes (rep_data_snapshot self) ++ hash_bytes (rep_universe_snapshot self)
  ++ hash_bytes (rep_parameters self) ++ hash_bytes (rep_image self) ++ hash_bytes (rep_environment self)
  ++ push_u64 (rep_seed self)
  ++ push_seq push_implementation (rep_implementations self)
  ++ match rep_subject self, rep_code self with
     | Some subject, Some code => frame (binding_bytes subject) ++ frame (code_bytes code)
     | _, _ => []
     end.

(** [left.iter().zip(right).all(..)] after the lengths have been compared. *)
Definition covers {A B} (same : A -> B -> bool) (left : list A) (right : list B) : bool :=
  (List.length left =? List.length right)%nat && forallb (fun p => same p.1 p.2) (zip left right).

Definition declared_as (binding : ExecutionExternalInput) (declaration : GraphExternalInput) : bool :=
  bool_decide (ext_input_id binding = input_id declaration) && bool_decide (ext_value_type binding = input_value_type declaration).

Definition implements (binding : NodeImplementation) (node : ResearchNode) : bool :=
  bool_decide (implemented_node binding = node_id node).

Definition reproducibility_build `{Sha256} `{Chrono} (graph : ResearchGraph) (input : ReproducibilityIdentityInput)
    (subject : option FormalInputBinding) (code : option CodeBinding) : RuntimeResult ReproducibilityIdentity :=
  let externals := sort_by_key ext_input_id (given_external_inputs input) in
  if windows2_any (fun a b => bool_decide (ext_input_id a = ext_input_id b)) externals
     || negb (covers declared_as externals (external_inputs graph)) then Err native_invalid else
  let implementations := sort_by_key implemented_node (given_implementations input) in
  if windows2_any (fun a b => bool_decide (implemented_node a = implemented_node b)) implementations
     || negb (covers implements implementations (nodes graph)) then Err native_invalid else
  if existsb (fun binding => bool_decide (rule_pack_id binding = EmptyString)
                             || negb (bool_decide (trim (rule_pack_id binding) = rule_pack_id binding))) (given_rule_packs input)
  then Err native_invalid else
  let rule_packs := sort (given_rule_packs input) in
  if windows2_any (fun a b => bool_decide (rule_pack_id a = rule_pack_id b) && bool_decide (rule_pack_version a = rule_pack_version b))
       rule_packs then Err native_invalid else
  let with_digest d := {|
    rep_external_inputs := externals; rep_rule_packs := rule_packs; rep_data_snapshot := given_data_snapshot input;
    rep_universe_snapshot := given_universe_snapshot input; rep_graph_digest := graph_digest graph;
    rep_parameters := given_parameters input; rep_image := given_image input; rep_environment := given_environment input;
    rep_seed := given_seed input; rep_implementations := implementations; rep_subject := subject; rep_code := code;
    rep_digest := d |} in
  Ok (with_digest (digest (reproducibility_bytes (with_digest (digest (as_bytes "uninitialized")))))).

Definition reproducibility_new `{Sha256} `{Chrono} (graph : ResearchGraph) (input : ReproducibilityIdentityInput)
    : RuntimeResult ReproducibilityIdentity := reproducibility_build graph input None None.

Definition reproducibility_new_formal `{Sha256} `{Chrono} (graph : ResearchGraph) (input : ReproducibilityIdentityInput)
    (subject : FormalInputBinding) (code : CodeBinding) : RuntimeResult ReproducibilityIdentity :=
  if negb (bool_decide (kind subject = Subject)) || negb (bool_decide (role subject = "subject"%string))
  then Err native_invalid else reproducibility_build graph input (Some subject) (Some code).

(** [ReproducibilityIdentity::implementation]. *)
Definition implementation (self : ReproducibilityIdentity) (node_id : Ulid) : option ContentHash :=
  implementation_digest <$> binary_search_by implemented_node (rep_implementations self) node_id.

(** ** Executions *)

Record ExecutionInstanceIdentity := {
  instance_run_id : Ulid;
  reproducibility : ReproducibilityIdentity;
  instance_digest : ContentHash
}.

#[export] Instance ExecutionInstanceIdentity_eq_dec : EqDecision ExecutionInstanceIdentity.
Proof. solve_decision. Defined.

Definition from_reproducibility `{Sha256} (run_id : Ulid) (reproducibility : ReproducibilityIdentity) : ExecutionInstanceIdentity :=
  {| instance_run_id := run_id; reproducibility := reproducibility;
     instance_digest := digest (as_bytes "ficant/execution-instance-identity/v1" ++ push_str (ulid_str run_id)
                                ++ hash_bytes (rep_digest reproducibility)) |}.

(** [ExecutionInstanceIdentity::new]: the compatibility constructor, which has no external inputs and no
    rule packs. *)
Definition execution_instance_new `{Sha256} `{Chrono} (graph : ResearchGraph) (run_id : Ulid)
    (data_snapshot universe_snapshot parameters image environment : ContentHash) (seed : Z)
    (implementations : list NodeImplementation) : RuntimeResult ExecutionInstanceIdentity :=
  reproducibility ← reproducibility_new graph {|
    given_external_inputs := []; given_data_snapshot := data_snapshot; given_universe_snapshot := universe_snapshot;
    given_parameters := parameters; given_image := image; given_environment := environment; given_seed := seed;
    given_rule_packs := []; given_implementations := implementations |};
  Ok (from_reproducibility run_id reproducibility).

(** ** What an identity covers *)

(** Sorting the given list by key makes it run along a strictly sorted list exactly when the two hold
    the same keys and values. *)
Lemma sorted_cover {A B K T} `{OrdLaws K} `{EqDecision K} (ka : A -> K) (ta : A -> T) (kb : B -> K) (tb : B -> T) l m :
  StronglySorted (fun a b => cmp (kb a) (kb b) = Lt) m ->
  windows2_any (fun a b => bool_decide (ka a = ka b)) (sort_by_key ka l) = false
    /\ map (fun a => (ka a, ta a)) (sort_by_key ka l) = map (fun b => (kb b, tb b)) m
  <-> map (fun a => (ka a, ta a)) l ≡ₚ map (fun b => (kb b, tb b)) m.
Proof.
  intros Sm. assert (Pl : sort_by_key ka l ≡ₚ l) by (unfold sort_by_key; by rewrite sort_by_perm).
  pose proof (sort_by_key_sorted ka l) as Sl. split.
  - intros [_ E]. rewrite <- E. by apply Permutation_map.
  - intros Hp. assert (Hk : map ka l ≡ₚ map kb m).
    { apply (Permutation_map fst) in Hp. rewrite !map_map in Hp. exact Hp. }
    assert (Nm : NoDup (map kb m)) by by apply (strict_NoDup kb).
    assert (Nl : NoDup (map ka l)) by by rewrite Hk.
    split; [by apply (no_repeated_keys ka _ l Sl Pl)|].
    assert (Ss : StronglySorted (fun a b => cmp (ka a) (ka b) = Lt) (sort_by_key ka l)).
    { apply strict_of_no_repeats; [done|]. change (NoDup (ka <$> sort_by_key ka l)). by rewrite Pl. }
    assert (Sf : forall C (k : C -> K) (t : C -> T) c, StronglySorted (fun a b => cmp (k a) (k b) = Lt) c ->
      StronglySorted (fun p q : K * T => cmp p.1 q.1 = Lt) (map (fun a => (k a, t a)) c)).
    { intros C k t c. induction 1 as [|a c _ IH Ha]; cbn; constructor; [done|]. by apply Forall_map. }
    apply (@StronglySorted_unique _ (fun p q : K * T => cmp p.1 q.1 = Lt)); [|by apply Sf..|].
    + intros p q Hpq Hqp. rewrite cmp_opp, Hpq in Hqp. done.
    + rewrite <- Hp. by apply Permutation_map.
Qed.

Lemma covers_spec {A B} (same : A -> B -> bool) l m : covers same l m = true <-> Forall2 (fun a b => same a b = true) l m.
Proof.
  unfold covers. revert m. induction l as [|a l IH]; intros [|b m]; cbn; [by split; [constructor|]|by split; [|inversion 1]..|].
  specialize (IH m). rewrite andb_true_iff in *. rewrite andb_true_iff. split.
  - intros (E & Hs & Hf). constructor; [done|]. by apply IH.
  - inversion 1; subst. tauto.
Qed.

Lemma covers_map {A B C} (same : A -> B -> bool) (f : A -> C) (g : B -> C) l m :
  (forall a b, same a b = true <-> f a = g b) -> covers same l m = true <-> map f l = map g m.
Proof.
  intros Hs. rewrite covers_spec. split.
  - induction 1 as [|a b l m Hab _ IH]; cbn; [done|]. apply Hs in Hab. by rewrite Hab, IH.
  - revert m. induction l as [|a l IH]; intros [|b m] E; try done. cbn in E.
    assert (Eh := f_equal head E). cbn in Eh. assert (Et := f_equal tail E). cbn in Et. constructor; [apply Hs; congruence|auto].
Qed.

(** What is frozen for a graph: a payload for every external input in its type, an implementation for
    every node, and rule packs with proper names, each in one content. *)
Record coverage (g : ResearchGraph) (i : ReproducibilityIdentityInput) : Prop := {
  covered_inputs : map (fun b => (ext_input_id b, ext_value_type b)) (given_external_inputs i)
    ≡ₚ map (fun d => (input_id d, input_value_type d)) (external_inputs g);
  covered_nodes : map implemented_node (given_implementations i) ≡ₚ map node_id (nodes g);
  named_rule_packs : Forall (fun b => rule_pack_id b <> EmptyString /\ trim (rule_pack_id b) = rule_pack_id b) (given_rule_packs i);
  single_rule_packs : NoDup (map (fun b => (rule_pack_id b, rule_pack_version b)) (given_rule_packs i))
}.

(** The lists of an accepted graph are in the order of their keys. *)
Definition graph_sorted (g : ResearchGraph) : Prop :=
  StronglySorted (fun a b => cmp (node_id a) (node_id b) = Lt) (nodes g)
  /\ StronglySorted (fun a b => cmp (input_id a) (input_id b) = Lt) (external_inputs g).

Lemma strictly_sorted_by {A K} `{OrdLaws K} `{EqDecision K} (key : A -> K) l :
  windows2_any (fun a b => bool_decide (key a = key b)) (sort_by_key key l) = false ->
  StronglySorted (fun a b => cmp (key a) (key b) = Lt) (sort_by_key key l).
Proof.
  intros Hw. apply (sorted_strict key (fun a b => bool_decide (key a = key b))); [|apply sort_by_key_sorted|done].
  by intros x y Hf%bool_decide_eq_false.
Qed.

Lemma new_graph_sorted `{Sha256} i xs bs g : research_graph_new_with_external_inputs i xs bs = Ok g -> graph_sorted g.
Proof.
  unfold research_graph_new_with_external_inputs. intros E. destruct (bool_decide (in_nodes i = [])); [done|].
  destruct (windows2_any _ (sort_by_key node_id _)) eqn:Dn; [done|]. destruct (windows2_any _ (sort_by_key edge_key _)); [done|].
  destruct (windows2_any _ (sort_by_key input_id _)) eqn:Dx; [done|]. destruct (windows2_any _ (sort_by_key binding_key _)); [done|].
  apply bind_Ok in E as ([] & _ & E). apply bind_Ok in E as (o & _ & E). injection E as <-.
  split; cbn; by apply strictly_sorted_by.
Qed.

Section build.
Context `{Sha256} `{Chrono}.

Lemma rule_packs_sorted l :
  StronglySorted (fun a b => cmp (rule_pack_id a, rule_pack_version a) (rule_pack_id b, rule_pack_version b) <> Gt) (sort l).
Proof.
  pose proof (sort_by_key_sorted rule_pack_key l) as S. change (sort_by_key rule_pack_key l) with (sort l) in S.
  induction S as [|a s _ IH Ha]; constructor; [done|]. eapply Forall_impl; [exact Ha|]. intros b Hb E. apply Hb.
  change (lex (cmp (rule_pack_id a, rule_pack_version a) (rule_pack_id b, rule_pack_version b)) (cmp (rule_pack_hash a) (rule_pack_hash b)) = Gt).
  by rewrite E.
Qed.

Lemma same_rule_pack a b :
  bool_decide (rule_pack_id a = rule_pack_id b) && bool_decide (rule_pack_version a = rule_pack_version b) = true
  <-> (rule_pack_id a, rule_pack_version a) = (rule_pack_id b, rule_pack_version b).
Proof. rewrite andb_true_iff, !bool_decide_eq_true. split; [by intros [-> ->]|by intros [= -> ->]]. Qed.

(** A frozen identity is a function of what was given, with the lists sorted. *)
Definition frozen (g : ResearchGraph) (i : ReproducibilityIdentityInput) subject code (r : ReproducibilityIdentity) : Prop :=
  rep_external_inputs r = sort_by_key ext_input_id (given_external_inputs i)
  /\ rep_implementations r = sort_by_key implemented_node (given_implementations i)
  /\ rep_rule_packs r = sort (given_rule_packs i)
  /\ rep_data_snapshot r = given_data_snapshot i /\ rep_universe_snapshot r = given_universe_snapshot i
  /\ rep_graph_digest r = graph_digest g /\ rep_parameters r = given_parameters i /\ rep_image r = given_image i
  /\ rep_environment r = given_environment i /\ rep_seed r = given_seed i
  /\ rep_subject r = subject /\ rep_code r = code /\ rep_digest r = digest (reproducibility_bytes r).

Lemma build_spec g i subject code :
  graph_sorted g ->
  match reproducibility_build g i subject code with
  | Ok r => coverage g i /\ frozen g i subject code r
  | Err e => e = native_invalid /\ ~ coverage g i
  end.
Proof.
  intros [Sn Sx]. unfold reproducibility_build.
  pose proof (sorted_cover ext_input_id ext_value_type input_id input_value_type (given_external_inputs i) _ Sx) as Cx.
  pose proof (sorted_cover implemented_node (fun _ => tt) node_id (fun _ => tt) (given_implementations i) _ Sn) as Cn.
  set (xs := sort_by_key ext_input_id _) in *. set (ms := sort_by_key implemented_node _) in *.
  assert (Dx : covers declared_as xs (external_inputs g) = true <->
    map (fun b => (ext_input_id b, ext_value_type b)) xs = map (fun d => (input_id d, input_value_type d)) (external_inputs g)).
  { apply covers_map. intros a b. unfold declared_as. rewrite andb_true_iff, !bool_decide_eq_true.
    split; [by intros [-> ->]|by intros [= -> ->]]. }
  assert (Dn : covers implements ms (nodes g) = true <-> map (fun b => (implemented_node b, tt)) ms = map (fun d => (node_id d, tt)) (nodes g)).
  { apply covers_map. intros a b. unfold implements. rewrite bool_decide_eq_true. split; [by intros ->|by intros [= ->]]. }
  assert (Hn : map implemented_node (given_implementations i) ≡ₚ map node_id (nodes g)
    <-> map (fun b => (implemented_node b, tt)) (given_implementations i) ≡ₚ map (fun d => (node_id d, tt)) (nodes g)).
  { split; intros Hp; [apply (Permutation_map (fun k => (k, tt))) in Hp|apply (Permutation_map fst) in Hp]; by rewrite !map_map in Hp. }
  destruct (windows2_any _ xs); cbn [orb]; [split; [done|]; intros [Hc _ _ _]; by apply Cx in Hc as [? _]|].
  destruct (covers declared_as xs _); cbn [negb];
    [|split; [done|]; intros [Hc _ _ _]; apply Cx in Hc as [_ Hc]; by apply Dx in Hc].
  destruct (windows2_any _ ms); cbn [orb]; [split; [done|]; intros [_ Hc _ _]; by apply Hn, Cn in Hc as [? _]|].
  destruct (covers implements ms _); cbn [negb];
    [|split; [done|]; intros [_ Hc _ _]; apply Hn, Cn in Hc as [_ Hc]; by apply Dn in Hc].
  destruct (existsb _ (given_rule_packs i)) eqn:Er.
  { split; [done|]. intros [_ _ Hc _]. apply existsb_exists in Er as (b & Hb & Hf). rewrite list.Forall_forall in Hc.
    destruct (Hc b) as [H1 H2]; [by apply list_elem_of_In|]. by rewrite (bool_decide_false _ H1), (bool_decide_true _ H2) in Hf. }
  assert (Nr : windows2_any (fun a b => bool_decide (rule_pack_id a = rule_pack_id b) && bool_decide (rule_pack_version a = rule_pack_version b))
      (sort (given_rule_packs i)) = false <-> NoDup (map (fun b => (rule_pack_id b, rule_pack_version b)) (given_rule_packs i))).
  { rewrite <- (no_repeated_keys (fun b => (rule_pack_id b, rule_pack_version b)) (sort (given_rule_packs i)) _ (rule_packs_sorted _)) by apply sort_by_perm.
    rewrite !windows2_any_false. setoid_rewrite <- not_true_iff_false. setoid_rewrite same_rule_pack. setoid_rewrite bool_decide_eq_true. done. }
  destruct (windows2_any _ (sort _)); [split; [done|]; intros [_ _ _ Hc]; by apply Nr in Hc|].
  split; [|by repeat split]. split; [by apply Cx; split; [|apply Dx]|by apply Hn, Cn; split; [|apply Dn]| |by apply Nr].
  apply list.Forall_forall. intros b Hb. apply existsb_false_Forall in Er. rewrite list.Forall_forall in Er. specialize (Er b Hb).
  apply orb_false_iff in Er as [E1 E2]. apply negb_false_iff in E2. by apply bool_decide_eq_false in E1; apply bool_decide_eq_true in E2.
Qed.
End build.

(** ** The digest identifies *)

Lemma push_seq_map {A B} (f : A -> list byte) (g : B -> list byte) (h : A -> B) l :
  (forall a, f a = g (h a)) -> push_seq f l = push_seq g (map h l).
Proof. intros E. unfold push_seq. rewrite length_map. f_equal. induction l as [|a l IH]; cbn; [done|]. by rewrite E, IH. Qed.

(** What the bytes say of an external input: everything but the payload, which its hash stands for. *)
Definition external_key (x : ExecutionExternalInput) : string * TypedValue * ContentHash :=
  (ext_input_id x, ext_value_type x, ext_content_hash x).
Definition push_external_key (k : string * TypedValue * ContentHash) : list byte :=
  push_str k.1.1 ++ push_typed_value k.1.2 ++ hash_bytes k.2.

Section digest.
Context `{UlidCrate} `{Sha256} `{ChronoLaws}.

Definition wf_external (x : ExecutionExternalInput) : Prop :=
  wf_str (ext_input_id x) /\ wf_typed_value (ext_value_type x) /\ wf_hash (ext_content_hash x)
  /\ ext_content_hash x = digest (ext_payload x).
Definition wf_rule_pack (b : RulePackBinding) : Prop :=
  wf_str (rule_pack_id b) /\ wf_version (rule_pack_version b) /\ wf_hash (rule_pack_hash b).
Definition wf_implementation (b : NodeImplementation) : Prop := wf_ulid (implemented_node b) /\ wf_hash (implementation_digest b).

(** Either constructor: with neither subject nor code, or with both. *)
Definition wf_formal (subject : option FormalInputBinding) (code : option CodeBinding) : Prop :=
  match subject, code with
  | None, None => True
  | Some s, Some c => wf_input_binding s /\ short (binding_bytes s) /\ short (code_bytes c)
  | _, _ => False
  end.

Record wf_identity (r : ReproducibilityIdentity) : Prop := {
  wf_externals : wf_list wf_external (rep_external_inputs r);
  wf_rule_packs : wf_list wf_rule_pack (rep_rule_packs r);
  wf_node_implementations : wf_list wf_implementation (rep_implementations r);
  wf_hashes : wf_hash (rep_data_snapshot r) /\ wf_hash (rep_universe_snapshot r) /\ wf_hash (rep_graph_digest r)
    /\ wf_hash (rep_parameters r) /\ wf_hash (rep_image r) /\ wf_hash (rep_environment r);
  wf_rep_seed : in_u64 (rep_seed r) = true;
  wf_subject_code : wf_formal (rep_subject r) (rep_code r)
}.

Lemma sd_external_key : self_delimiting (fun k => wf_str k.1.1 /\ wf_typed_value k.1.2 /\ wf_hash k.2) push_external_key.
Proof.
  intros [[a1 a2] a3] [[b1 b2] b3] r s (A1 & A2 & A3) (B1 & B2 & B3) E. unfold push_external_key in E. cbn [fst snd] in *.
  sd_step sd_str E; [|done..]. sd_step sd_typed_value E; [|done..]. sd_step sd_hash E; [|done..]. by subst.
Qed.

Lemma sd_rule_pack : self_delimiting wf_rule_pack push_rule_pack.
Proof.
  intros a b r s (A1 & A2 & A3) (B1 & B2 & B3) E. unfold push_rule_pack in E.
  sd_step sd_str E; [|done..]. sd_step sd_u64 E; [|by apply version_in_u64..]. sd_step sd_hash E; [|done..].
  apply version_eq in F0. destruct a, b; cbn in *; by subst.
Qed.

Lemma sd_implementation : self_delimiting wf_implementation push_implementation.
Proof.
  intros a b r s (A1 & A2) (B1 & B2) E. unfold push_implementation in E.
  sd_step sd_str E; [|by apply ulid_wf_str..]. sd_step sd_hash E; [|done..]. apply ulid_eq in F. destruct a, b; cbn in *; by subst.
Qed.

Lemma external_keys_identify l m :
  Forall wf_external l -> Forall wf_external m -> map external_key l = map external_key m -> l = m \/ collision.
Proof.
  intros Hl. revert m. induction Hl as [|a l Ha Hl IH]; intros m Hm E; destruct Hm as [|b m Hb Hm]; try done; [by left|].
  cbn [map] in E. injection E as E1 E2 E3 E. destruct (IH m Hm E) as [->|]; [|by right].
  destruct Ha as (_ & _ & _ & Da), Hb as (_ & _ & _ & Db). pose proof E3 as E4. rewrite Da, Db in E4.
  apply digest_inj in E4 as [E4|]; [left|by right]. destruct a, b; cbn in *; by subst.
Qed.

Lemma wf_external_keys l : wf_list wf_external l ->
  wf_list (fun k => wf_str k.1.1 /\ wf_typed_value k.1.2 /\ wf_hash k.2) (map external_key l).
Proof.
  intros [Hl Hn]. split; [|by rewrite length_map]. apply Forall_map. eapply Forall_impl; [exact Hl|]. by intros a (? & ? & ? & _).
Qed.

Lemma formal_bytes_inj s c s' c' (v v' rest rest' : list byte) :
  wf_formal s c -> wf_formal s' c' -> List.length v = List.length v' -> v <> v' ->
  let tail s c := match s, c with Some subject, Some code => frame (binding_bytes subject) ++ frame (code_bytes code) | _, _ => [] end in
  let prefix s c := match (s : option FormalInputBinding), (c : option CodeBinding) with Some _, Some _ => v | _, _ => v' end in
  prefix s c ++ rest = prefix s' c' ++ rest' ->
  rest = rest' /\ (tail s c = tail s' c' -> s = s' /\ c = c').
Proof.
  intros Ws Ws' Hlen Hne. cbn zeta. intros E.
  assert (Hp : forall a b : list byte, a ++ rest = b ++ rest' -> List.length a = List.length b -> a = b /\ rest = rest') by (intros; by apply app_inj_1).
  destruct s as [s|], c as [c|]; try done; destruct s' as [s'|], c' as [c'|]; try done; apply Hp in E as [Ep ->]; try done; (split; [done|]).
  - intros E. destruct Ws as (W & Ss & Sc), Ws' as (W' & Ss' & Sc'). apply frame_inj in E as [E1 E2]; [|done..].
    assert (E3 : frame (code_bytes c) ++ [] = frame (code_bytes c') ++ []) by by rewrite E2. apply frame_inj in E3 as [E3 _]; [|done..].
    apply binding_bytes_inj in E1; [|done..]. apply code_bytes_inj in E3; [|done]. by subst.
Qed.

Lemma reproducibility_bytes_inj r s :
  wf_identity r -> wf_identity s -> rep_digest r = rep_digest s -> reproducibility_bytes r = reproducibility_bytes s ->
  r = s \/ collision.
Proof.
  intros Wr Ws Ed E. unfold reproducibility_bytes in E. rewrite !(push_seq_map push_external push_external_key external_key) in E by done.
  destruct Wr as [Rx Rp Ri (R1 & R2 & R3 & R4 & R5 & R6) Rd Rf], Ws as [Sx Sp Si (S1 & S2 & S3 & S4 & S5 & S6) Sd Sf].
  apply (formal_bytes_inj _ _ _ _ _ _ _ _ Rf Sf) in E as [E Htail]; [|reflexivity|discriminate].
  sd_step (sd_seq _ _ sd_external_key) E; [|by apply wf_external_keys..].
  sd_step (sd_seq _ _ sd_rule_pack) E; [|done..].
  do 6 (sd_step sd_hash E; [|done..]). sd_step sd_u64 E; [|done..]. sd_step (sd_seq _ _ sd_implementation) E; [|done..].
  apply Htail in E as [E1 E2]. destruct Rx as [Rx _], Sx as [Sx _]. destruct (external_keys_identify _ _ Rx Sx F) as [Ex|]; [left|by right].
  destruct r, s. cbn in *. by subst.
Qed.

Lemma identity_spec g i sb c r h j sb' c' r' :
  graph_sorted g -> graph_sorted h ->
  reproducibility_build g i sb c = Ok r -> reproducibility_build h j sb' c' = Ok r' ->
  wf_identity r -> wf_identity r' -> rep_digest r = rep_digest r' -> r = r' \/ collision.
Proof.
  intros Sg Sh Er Er' Wr Wr' Ed. pose proof (build_spec g i sb c Sg) as Br. pose proof (build_spec h j sb' c' Sh) as Br'.
  rewrite Er in Br. rewrite Er' in Br'. destruct Br as [_ Br], Br' as [_ Br'].
  assert (Dr : rep_digest r = digest (reproducibility_bytes r)) by (unfold frozen in Br; tauto).
  assert (Dr' : rep_digest r' = digest (reproducibility_bytes r')) by (unfold frozen in Br'; tauto).
  pose proof Ed as Ed'. rewrite Dr, Dr' in Ed'. apply digest_inj in Ed' as [E|]; [by apply reproducibility_bytes_inj|by right].
Qed.

(** The same things given in another order. *)
Record same_frozen_input (i j : ReproducibilityIdentityInput) : Prop := {
  same_external_inputs : given_external_inputs i ≡ₚ given_external_inputs j;
  same_rule_packs : given_rule_packs i ≡ₚ given_rule_packs j;
  same_node_implementations : given_implementations i ≡ₚ given_implementations j;
  same_snapshots : given_data_snapshot i = given_data_snapshot j /\ given_universe_snapshot i = given_universe_snapshot j
    /\ given_parameters i = given_parameters j /\ given_image i = given_image j /\ given_environment i = given_environment j
    /\ given_seed i = given_seed j
}.

Lemma rule_pack_key_inj a b : rule_pack_key a = rule_pack_key b -> a = b.
Proof. destruct a, b. unfold rule_pack_key. cbn. by intros [= -> -> ->]. Qed.

Lemma build_perm g i j sb c : same_frozen_input i j -> reproducibility_build g i sb c = reproducibility_build g j sb c.
Proof.
  destruct i as [xs ds us ps im en sd rs ms], j as [xs' ds' us' ps' im' en' sd' rs' ms']. intros [Px Pr Pm Hs]. cbn in Px, Pr, Pm, Hs.
  destruct Hs as (-> & -> & -> & -> & -> & ->). unfold reproducibility_build.
  cbn [given_external_inputs given_data_snapshot given_universe_snapshot given_parameters given_image given_environment given_seed given_rule_packs given_implementations].
  destruct (canonical_sort_perm ext_input_id (fun a b => bool_decide (ext_input_id a = ext_input_id b)) _ _ ltac:(intros; apply bool_decide_eq_true) Px) as [Dx Ex].
  destruct (canonical_sort_perm implemented_node (fun a b => bool_decide (implemented_node a = implemented_node b)) _ _ ltac:(intros; apply bool_decide_eq_true) Pm) as [Dm Em].
  destruct (sorted_perm_agree (fun b => (rule_pack_id b, rule_pack_version b)) _ (sort rs) (sort rs') same_rule_pack (rule_packs_sorted rs) (rule_packs_sorted rs'))
    as [Dr Er]; [unfold sort; by rewrite !sort_by_perm|].
  rewrite <- Dx. destruct (windows2_any _ (sort_by_key ext_input_id xs)); [done|]. rewrite <- (Ex eq_refl). cbn [orb].
  destruct (negb _); [done|]. rewrite <- Dm. destruct (windows2_any _ (sort_by_key implemented_node ms)); [done|]. rewrite <- (Em eq_refl). cbn [orb].
  destruct (negb _); [done|].
  assert (Eb : forall p : RulePackBinding -> bool, existsb p rs = existsb p rs').
  { intros p. apply eq_true_iff_eq. rewrite !existsb_exists. setoid_rewrite <- list_elem_of_In.
    split; intros (b & Hb & Hp); exists b; (split; [|done]); [by rewrite <- Pr|by rewrite Pr]. }
  rewrite <- (Eb _). destruct (existsb _ rs); [done|]. rewrite <- Dr. destruct (windows2_any _ (sort rs)); [done|]. by rewrite <- (Er eq_refl).
Qed.

Lemma implementation_spec r n d :
  StronglySorted (fun a b => cmp (implemented_node a) (implemented_node b) = Lt) (rep_implementations r) ->
  implementation r n = Some d <-> {| implemented_node := n; implementation_digest := d |} ∈ rep_implementations r.
Proof.
  intros Hs. unfold implementation. rewrite fmap_Some. setoid_rewrite (binary_search_by_spec implemented_node _ n _ Hs). split.
  - by intros ([n' d'] & [Hb <-] & ->).
  - intros Hb. by exists {| implemented_node := n; implementation_digest := d |}.
Qed.
End digest.

(** ** Properties *)

(** Reproducibility identities freeze everything a native result may depend on: an identity is
    accepted for a graph exactly when it has a payload of the right type for every external input, an
    implementation for every node and uniquely named rule packs; the order they are given in does not
    matter; and two identities with one digest are equal - payloads, graph, snapshots, parameters,
    environment, seed, implementations, subject and code - or two different inputs of the hash with one
    digest have been found. *)
Theorem reproducibility_identifies `{UlidCrate} `{Sha256} `{ChronoLaws} gi xs bs g hi ys cs h i sb c r j sb' c' r' :
  research_graph_new_with_external_inputs gi xs bs = Ok g -> research_graph_new_with_external_inputs hi ys cs = Ok h ->
  reproducibility_build g i sb c = Ok r -> reproducibility_build h j sb' c' = Ok r' ->
  wf_identity r -> wf_identity r' ->
  coverage g i
  /\ (forall k, same_frozen_input i k -> reproducibility_build g k sb c = Ok r)
  /\ (rep_digest r = rep_digest r' -> r = r' \/ collision).
Proof.
  intros Eg Eh Er Er' Wr Wr'. apply new_graph_sorted in Eg, Eh. split; [|split].
  - pose proof (build_spec g i sb c Eg) as Hb. rewrite Er in Hb. by destruct Hb.
  - intros k Hk. by rewrite <- (build_perm g i k).
  - by apply (identity_spec g i sb c r h j sb' c' r').
Qed.

Section example.
Local Existing Instance sample_sha256.
Local Existing Instance sample_ulid_crate.
Local Existing Instance sample_chrono.
Local Existing Instance sample_chrono_laws.

Definition sample_payload : list byte := as_bytes "1.85".
Definition sample_external : ExecutionExternalInput :=
  {| ext_input_id := "snapshot"; ext_value_type := sample_type "curve"; ext_payload := sample_payload; ext_content_hash := digest sample_payload |}.
Definition sample_implementations : list NodeImplementation :=
  [{| implemented_node := sample_id "B"; implementation_digest := sample_hash x0b |};
   {| implemented_node := sample_id "A"; implementation_digest := sample_hash x0a |}].
Definition sample_identity_input : ReproducibilityIdentityInput := {|
  given_external_inputs := [sample_external]; given_data_snapshot := sample_hash x01; given_universe_snapshot := sample_hash x02;
  given_parameters := sample_hash x03; given_image := sample_hash x04; given_environment := sample_hash x05; given_seed := 42;
  given_rule_packs := [{| rule_pack_id := "tax"; rule_pack_version := mk_version 2; rule_pack_hash := sample_hash x06 |}];
  given_implementations := sample_implementations
|}.
Definition sample_graph_value : ResearchGraph :=
  ok_of {| graph_id := sample_id "G"; graph_version := mk_version 1; graph_owner := sample_owner; nodes := []; edges := [];
           external_inputs := []; external_input_bindings := []; topological_order_field := []; graph_digest := sample_hash x00 |} sample_graph.
Definition sample_identity_result : RuntimeResult ReproducibilityIdentity := reproducibility_new sample_graph_value sample_identity_input.
Definition blank_identity : ReproducibilityIdentity :=
  {| rep_external_inputs := []; rep_rule_packs := []; rep_data_snapshot := sample_hash x00; rep_universe_snapshot := sample_hash x00;
           rep_graph_digest := sample_hash x00; rep_parameters := sample_hash x00; rep_image := sample_hash x00;
           rep_environment := sample_hash x00; rep_seed := 0; rep_implementations := []; rep_subject := None; rep_code := None;
           rep_digest := sample_hash x00 |}.
Definition sample_identity : ReproducibilityIdentity := ok_of blank_identity sample_identity_result.

Lemma sample_graph_value_Ok : sample_graph = Ok sample_graph_value.
Proof. apply ok_intro. vm_compute. reflexivity. Qed.

Lemma sample_identity_Ok : reproducibility_build sample_graph_value sample_identity_input None None = Ok sample_identity.
Proof. apply (ok_intro blank_identity sample_identity_result). vm_compute. reflexivity. Qed.

Example sample_identity_refused :
  is_ok (reproducibility_new sample_graph_value {|
    given_external_inputs := []; given_data_snapshot := sample_hash x01; given_universe_snapshot := sample_hash x02;
    given_parameters := sample_hash x03; given_image := sample_hash x04; given_environment := sample_hash x05; given_seed := 42;
    given_rule_packs := []; given_implementations := sample_implementations |}) = false.
Proof. vm_compute. reflexivity. Qed.

Lemma sample_identity_wf : wf_identity sample_identity.
Proof.
  assert (Ex : rep_external_inputs sample_identity = [sample_external]) by (vm_compute; reflexivity).
  assert (Er : rep_rule_packs sample_identity = given_rule_packs sample_identity_input) by (vm_compute; reflexivity).
  assert (Ei : rep_implementations sample_identity = rev sample_implementations) by (vm_compute; reflexivity).
  split.
  - rewrite Ex. split; [|reflexivity]. apply List.Forall_cons; [|constructor]. repeat split; vm_compute; congruence.
  - rewrite Er. split; [|reflexivity]. apply List.Forall_cons; [|constructor]. repeat split; vm_compute; congruence.
  - rewrite Ei. split; [|reflexivity]. repeat (apply List.Forall_cons; [split; reflexivity|]). constructor.
  - repeat split.
  - reflexivity.
  - assert (Es : rep_subject sample_identity = None) by (vm_compute; reflexivity).
    assert (Ec : rep_code sample_identity = None) by (vm_compute; reflexivity). rewrite Es, Ec. exact I.
Qed.

Lemma reproducibility_identifies_witness :
  coverage sample_graph_value sample_identity_input
  /\ reproducibility_new sample_graph_value {|
       given_external_inputs := [sample_external]; given_data_snapshot := sample_hash x01; given_universe_snapshot := sample_hash x02;
       given_parameters := sample_hash x03; given_image := sample_hash x04; given_environment := sample_hash x05; given_seed := 42;
       given_rule_packs := given_rule_packs sample_identity_input; given_implementations := rev sample_implementations |} = Ok sample_identity.
Proof.
  destruct (reproducibility_identifies _ _ _ _ _ _ _ _ _ _ _ _ _ _ _ _ sample_graph_value_Ok sample_graph_value_Ok
    sample_identity_Ok sample_identity_Ok sample_identity_wf sample_identity_wf) as (Hc & Hp & _).
  split; [exact Hc|]. apply Hp. split; [reflexivity|reflexivity|apply Permutation_rev|repeat split].
Defined.
End example.
