(* ===== verification/NativeEnvelope.v ===== *)
(** * Native values and their envelopes

    The values native nodes exchange and the envelope that node outputs are persisted in:
    [NativePortValue], [canonical_output_bytes] and [decode_canonical_output_bytes] of
    [crates/ficant-runtime/src/native_execution.rs]. *)

From Stdlib Require Import ZArith Lia Strings.String.
From Stdlib Require Import Strings.Byte.
From stdpp Require Import base list option strings numbers sorting.
From S2P Require Import Prelude Machine Collections Primitives Codec Concrete Digits ResearchGraph GraphOrder GraphWiring GraphConstruction RunJournal Runtime Evidence NativeIdentity.
Open Scope Z_scope.

Record NativePortValue := {
  value_port : string;
  value_type : TypedValue;
  payload : list byte;
  value_hash : ContentHash
}.

#[export] Instance NativePortValue_eq_dec : EqDecision NativePortValue.
Proof. solve_decision. Defined.

Definition native_port_value_new `{Sha256} (port_name : string) (value_type : TypedValue) (payload : list byte)
    : RuntimeResult NativePortValue :=
  if unnamed_or_empty port_name payload then Err native_invalid
  else Ok {| value_port := port_name; value_type := value_type; payload := payload; value_hash := digest payload |}.

(** ** Encoding *)

Definition ENVELOPE_MAGIC : string := "ficant/native-node-output-envelope/v1".

Definition push_output (output : NativePortValue) : list byte :=
  push_str (value_port output) ++ push_typed_value (value_type output) ++ hash_bytes (value_hash output)
  ++ push_u64 (Z.of_nat (List.length (payload output))) ++ payload output.

Definition canonical_output_bytes (outputs : list NativePortValue) : list byte :=
  as_bytes ENVELOPE_MAGIC ++ push_seq push_output outputs.

(** ** Decoding *)

(** [EnvelopeDecoder]: its state is the bytes from the offset on. A length past their end fails, and so
    does one that overflows the offset. *)
Definition take_bytes (length : Z) (rest : list byte) : RuntimeResult (list byte * list byte) :=
  if Z.of_nat (List.length rest) <? length then Err native_invalid
  else Ok (take (Z.to_nat length) rest, drop (Z.to_nat length) rest).

Definition try_u64 (rest : list byte) : RuntimeResult (Z * list byte) :=
  '(value, rest) ← take_bytes 8 rest;
  Ok (from_be_bytes value, rest).

Definition decode_bytes (rest : list byte) : RuntimeResult (list byte * list byte) :=
  '(length, rest) ← try_u64 rest;
  take_bytes length rest.

Definition decode_string (rest : list byte) : RuntimeResult (string * list byte) :=
  '(bytes, rest) ← decode_bytes rest;
  if utf8_valid bytes then Ok (string_of_list_byte bytes, rest) else Err native_invalid.

Definition decode_hash (rest : list byte) : RuntimeResult (ContentHash * list byte) :=
  '(bytes, rest) ← take_bytes 32 rest;
  hash ← map_err Domain (hash_from_bytes bytes);
  Ok (hash, rest).

(** One turn of the loop. *)
Definition decode_output `{Sha256} (previous_port : option string) (rest : list byte)
    : RuntimeResult (NativePortValue * list byte) :=
  '(port_name, rest) ← decode_string rest;
  if match previous_port with Some previous => geb previous port_name | None => false end then Err native_invalid else
  '(type_id, rest) ← decode_string rest;
  '(version, rest) ← try_u64 rest;
  type_version ← map_err Domain (version_new version);
  '(schema_hash, rest) ← decode_hash rest;
  '(declared_content_hash, rest) ← decode_hash rest;
  '(payload, rest) ← decode_bytes rest;
  value_type ← map_err Domain (typed_value_new type_id type_version schema_hash);
  output ← native_port_value_new port_name value_type payload;
  if negb (bool_decide (value_hash output = declared_content_hash)) then Err native_hash_mismatch
  else Ok (output, rest).

(** [for _ in 0..count]: every turn takes bytes, so one turn more than there are bytes is enough fuel. *)
Fixpoint decode_outputs `{Sha256} (fuel : nat) (count : Z) (previous_port : option string) (rest : list byte)
    : RuntimeResult (list NativePortValue * list byte) :=
  if count =? 0 then Ok ([], rest) else
  match fuel with
  | O => Err native_invalid
  | S fuel' =>
      '(output, rest) ← decode_output previous_port rest;
      '(outputs, rest) ← decode_outputs fuel' (count - 1) (Some (value_port output)) rest;
      Ok (output :: outputs, rest)
  end.

Definition decode_canonical_output_bytes `{Sha256} (bytes : list byte) (expected_envelope_hash : option ContentHash)
    : RuntimeResult (list NativePortValue) :=
  if match expected_envelope_hash with Some expected => negb (bool_decide (digest bytes = expected)) | None => false end
  then Err native_hash_mismatch else
  '(magic, rest) ← take_bytes (str_len ENVELOPE_MAGIC) bytes;
  if negb (bool_decide (magic = as_bytes ENVELOPE_MAGIC)) then Err native_invalid else
  '(count, rest) ← try_u64 rest;
  if count =? 0 then Err native_invalid else
  '(outputs, rest) ← decode_outputs (S (List.length bytes)) count None rest;
  if negb (bool_decide (rest = [])) then Err native_invalid else Ok outputs.

(** ** The readers are the inverses of the writers *)

Lemma take_bytes_Ok n l v r : take_bytes n l = Ok (v, r) <-> (0 <= n -> n = Z.of_nat (List.length v)) /\ (n < 0 -> v = []) /\ l = v ++ r.
Proof.
  unfold take_bytes. destruct (Z.ltb_spec (Z.of_nat (List.length l)) n) as [Hn|Hn].
  - split; [done|]. intros (E & _ & ->). rewrite length_app in Hn. lia.
  - split.
    + intros [= <- <-]. rewrite take_drop, length_take. split; [lia|]. split; [|done]. intros Hneg. by rewrite Z2Nat.nonpos by lia.
    + intros (E & Ez & ->). destruct (Z.ltb_spec n 0) as [Hneg|Hneg].
      * rewrite Ez by lia. by rewrite Z2Nat.nonpos by lia.
      * rewrite E, Nat2Z.id, take_app_length, drop_app_length by lia. done.
Qed.

Lemma take_bytes_app v r : take_bytes (Z.of_nat (List.length v)) (v ++ r) = Ok (v, r).
Proof. apply take_bytes_Ok. split; [done|]. split; [lia|done]. Qed.

Lemma take_bytes_n n l v r : 0 <= n -> take_bytes n l = Ok (v, r) <-> n = Z.of_nat (List.length v) /\ l = v ++ r.
Proof. intros Hn. rewrite take_bytes_Ok. split; [intros (E & _ & ->); auto|intros [-> ->]]. split; [done|]. split; [lia|done]. Qed.

Lemma try_u64_Ok l z r : try_u64 l = Ok (z, r) <-> in_u64 z = true /\ l = push_u64 z ++ r.
Proof.
  unfold try_u64. rewrite bind_Ok. split.
  - intros ([v r'] & [E ->]%take_bytes_n & [= <- <-]); [|lia]. pose proof (from_be_bytes_range v) as Hv. rewrite <- E in Hv.
    split; [ranges; cbn in Hv; lia|]. unfold push_u64. replace 8%nat with (List.length v) by lia. by rewrite to_from_be_bytes.
  - intros [Hz ->]. exists (push_u64 z, r). split; [apply take_bytes_n; [lia|]; unfold push_u64; by rewrite length_to_be_bytes|].
    unfold push_u64. rewrite from_to_be_bytes, Z.mod_small; [done|]. ranges. cbn. lia.
Qed.

Lemma decode_bytes_Ok l v r : decode_bytes l = Ok (v, r) <-> short v /\ l = frame v ++ r.
Proof.
  unfold decode_bytes. rewrite bind_Ok. unfold short, frame. split.
  - intros ([n r'] & [Hn ->]%try_u64_Ok & E). apply take_bytes_n in E as [-> ->]; [|ranges; lia].
    split; [ranges; lia|]. by rewrite <- (assoc_L (++)).
  - intros [Hs ->]. exists (Z.of_nat (List.length v), v ++ r). split; [|apply take_bytes_app].
    apply try_u64_Ok. split; [ranges; lia|]. by rewrite <- (assoc_L (++)).
Qed.

Lemma decode_string_Ok l s r : decode_string l = Ok (s, r) <-> utf8_valid (as_bytes s) = true /\ short (as_bytes s) /\ l = push_str s ++ r.
Proof.
  unfold decode_string. rewrite bind_Ok. split.
  - intros ([v r'] & [Hs ->]%decode_bytes_Ok & E). destruct (utf8_valid v) eqn:Eu; [|done]. injection E as <- <-.
    unfold push_str. by rewrite as_bytes_of_bytes.
  - intros (Hu & Hs & ->). exists (as_bytes s, r). split; [by apply decode_bytes_Ok|]. by rewrite Hu, of_as_bytes.
Qed.

Lemma decode_hash_Ok l h r : decode_hash l = Ok (h, r) <-> wf_hash h /\ l = hash_bytes h ++ r.
Proof.
  unfold decode_hash. rewrite bind_Ok. split.
  - intros ([v r'] & [El ->]%take_bytes_n & E); [|lia]. apply bind_Ok in E as (h' & Eh & [= <- <-]). apply map_err_Ok in Eh.
    unfold hash_from_bytes in Eh. destruct (_ =? 32)%nat; [|done]. injection Eh as <-. split; [unfold wf_hash; cbn; lia|done].
  - intros [Hh ->]. unfold wf_hash in Hh. exists (hash_bytes h, r). split; [apply take_bytes_n; [lia|]; split; [lia|done]|].
    unfold hash_from_bytes. rewrite Hh. cbn. by destruct h.
Qed.

(** ** Values *)

Definition wf_symbol_type (t : TypedValue) : Prop :=
  ensure_symbol (type_id t) = Ok tt /\ utf8_valid (as_bytes (type_id t)) = true /\ short (as_bytes (type_id t))
  /\ wf_version (type_version t) /\ wf_hash (schema_hash t).

(** A value as [NativePortValue::new] and [TypedValue::new] make it. *)
Definition wf_value `{Sha256} (v : NativePortValue) : Prop :=
  unnamed_or_empty (value_port v) (payload v) = false /\ utf8_valid (as_bytes (value_port v)) = true
  /\ short (as_bytes (value_port v)) /\ wf_symbol_type (value_type v) /\ short (payload v)
  /\ value_hash v = digest (payload v) /\ wf_hash (value_hash v).

Definition after (previous : option string) (port : string) : Prop :=
  match previous with Some p => cmp p port = Lt | None => True end.

Lemma after_geb previous port :
  match previous with Some p => geb p port | None => false end = false <-> after previous port.
Proof. unfold after, geb. destruct previous as [p|]; [|done]. by destruct (cmp p port). Qed.

Section codec.
Context `{Sha256}.

Lemma native_port_value_new_Ok p t b v :
  native_port_value_new p t b = Ok v <-> unnamed_or_empty p b = false /\ v = {| value_port := p; value_type := t; payload := b; value_hash := digest b |}.
Proof. unfold native_port_value_new. destruct (unnamed_or_empty p b); [by split; [|intros []]|]. rewrite Ok_inj. naive_solver. Qed.

Lemma typed_value_new_Ok i v h t :
  typed_value_new i v h = Ok t <-> ensure_symbol i = Ok tt /\ t = {| type_id := i; type_version := v; schema_hash := h |}.
Proof. unfold typed_value_new. destruct (ensure_symbol i) as [[]|]; cbn; [|naive_solver]. rewrite Ok_inj. naive_solver. Qed.

Lemma version_new_Ok z v : in_u64 z = true -> version_new z = Ok v <-> wf_version v /\ version_get v = z.
Proof.
  intros Hz. unfold version_new, wf_version. destruct (Z.eqb_spec z 0) as [->|Hn].
  - split; [done|]. lia.
  - rewrite Ok_inj. split; [intros <-; cbn; ranges; lia|]. intros [_ <-]. by destruct v.
Qed.

Lemma decode_output_Ok previous l v r :
  decode_output previous l = Ok (v, r) <-> wf_value v /\ after previous (value_port v) /\ l = push_output v ++ r.
Proof.
  unfold decode_output. rewrite <- (after_geb previous (value_port v)). split.
  - intros E. apply bind_Ok in E as ([p l1] & (Up & Sp & ->)%decode_string_Ok & E).
    destruct (match previous with Some _ => _ | None => _ end) eqn:Ea; [done|].
    apply bind_Ok in E as ([i l2] & (Ui & Si & ->)%decode_string_Ok & E).
    apply bind_Ok in E as ([z l3] & (Hz & ->)%try_u64_Ok & E).
    apply bind_Ok in E as (ver & Ev & E). apply map_err_Ok in Ev. apply version_new_Ok in Ev as [Wv <-]; [|done].
    apply bind_Ok in E as ([h l4] & (Wh & ->)%decode_hash_Ok & E).
    apply bind_Ok in E as ([d l5] & (Wd & ->)%decode_hash_Ok & E).
    apply bind_Ok in E as ([b l6] & (Sb & ->)%decode_bytes_Ok & E).
    apply bind_Ok in E as (t & Et & E). apply map_err_Ok, typed_value_new_Ok in Et as [Hi ->].
    apply bind_Ok in E as (o & Eo & E). apply native_port_value_new_Ok in Eo as [Hu ->]. cbn [value_hash] in E.
    case_bool_decide as Ed; [|done]. injection E as <- <-. rewrite Ed. cbn [value_port].
    split; [|split; [done|]].
    + unfold wf_value, wf_symbol_type. cbn [value_port value_type payload value_hash type_id type_version schema_hash]. rewrite Ed. tauto.
    + unfold push_output, push_typed_value, frame. cbn [value_port value_type payload value_hash type_id type_version schema_hash].
      unfold push_u64. by rewrite <- !(assoc_L (++)).
  - intros ((Hu & Up & Sp & (Hi & Ui & Si & Wv & Wh) & Sb & Ed & Wd) & Ha & ->).
    unfold push_output, push_typed_value. rewrite <- !(assoc_L (++)).
    rewrite (proj2 (decode_string_Ok _ (value_port v) _)) by by repeat split. cbn [mbind Result_bind]. rewrite Ha.
    rewrite (proj2 (decode_string_Ok _ (type_id (value_type v)) _)) by by repeat split. cbn [mbind Result_bind].
    rewrite (proj2 (try_u64_Ok _ (version_get (type_version (value_type v))) _)) by (split; [by apply version_in_u64|done]). cbn [mbind Result_bind].
    rewrite (proj2 (version_new_Ok _ (type_version (value_type v)) (version_in_u64 _ Wv))) by done. cbn [map_err mbind Result_bind].
    rewrite (proj2 (decode_hash_Ok _ (schema_hash (value_type v)) _)) by done. cbn [mbind Result_bind].
    rewrite (proj2 (decode_hash_Ok _ (value_hash v) _)) by done. cbn [mbind Result_bind].
    rewrite (proj2 (decode_bytes_Ok _ (payload v) r)) by (split; [done|]; unfold frame; by rewrite <- (assoc_L (++))). cbn [mbind Result_bind].
    rewrite (proj2 (typed_value_new_Ok _ _ _ (value_type v))) by (split; [done|by destruct (value_type v)]). cbn [map_err mbind Result_bind].
    rewrite (proj2 (native_port_value_new_Ok _ _ _ v)) by (split; [done|]; rewrite <- Ed; by destruct v). cbn [mbind Result_bind].
    by rewrite bool_decide_true.
Qed.
End codec.

(** ** Envelopes *)

Fixpoint ascending (previous : option string) (outputs : list NativePortValue) : Prop :=
  match outputs with
  | [] => True
  | o :: outputs => after previous (value_port o) /\ ascending (Some (value_port o)) outputs
  end.

Definition by_port (l : list NativePortValue) : Prop := StronglySorted (fun a b => cmp (value_port a) (value_port b) = Lt) l.

Lemma ascending_sorted l : ascending None l <-> by_port l.
Proof.
  assert (Hg : forall p, ascending p l <-> by_port l /\ Forall (fun o => after p (value_port o)) l).
  { induction l as [|o l IH]; intros p; cbn [ascending].
    { split; [intros _; split; constructor|done]. }
    rewrite IH, Forall_cons. split.
    - intros (Ha & Hl & Ho). split; [by constructor|]. split; [done|]. eapply Forall_impl; [exact Ho|].
      intros q Hq. destruct p as [p|]; [|done]. cbn in *. by apply (cmp_lt_trans _ (value_port o)).
    - intros (Hs & Ha & _). apply StronglySorted_inv in Hs as [Hs Ho]. done. }
  rewrite Hg. split; [by intros []|]. intros Hl. split; [done|]. by apply Forall_true.
Qed.

Section envelope.
Context `{Sha256}.

Lemma decode_outputs_Ok fuel count previous l os r :
  0 <= count -> (List.length os <= fuel)%nat ->
  decode_outputs fuel count previous l = Ok (os, r) <->
  count = Z.of_nat (List.length os) /\ ascending previous os /\ Forall wf_value os /\ l = flat_map push_output os ++ r.
Proof.
  revert count previous l os. induction fuel as [|fuel IH]; intros count previous l os Hc Hf; cbn [decode_outputs];
    destruct (Z.eqb_spec count 0) as [->|Hn].
  1, 3: (split; [intros [= <- <-]; by repeat split|]; intros (E & _ & _ & ->); by destruct os).
  - split; [done|]. intros (E & _). destruct os; cbn in *; lia.
  - rewrite bind_Ok. split.
    + intros ([o l'] & (Wo & Ho & ->)%decode_output_Ok & E). apply bind_Ok in E as ([os' r'] & E & [= <- <-]).
      cbn in Hf. apply IH in E as (E & Ha & Hw & ->); [|lia..]. cbn [List.length ascending flat_map].
      split; [lia|]. split; [done|]. split; [by constructor|]. by rewrite <- (assoc_L (++)).
    + intros (E & Ha & Hw & ->). destruct os as [|o os]; [cbn in E; lia|]. cbn [List.length ascending flat_map] in *.
      destruct Ha as [Ho Ha]. apply Forall_cons in Hw as [Wo Hw]. exists (o, flat_map push_output os ++ r). split.
      * apply decode_output_Ok. split; [done|]. split; [done|]. by rewrite <- (assoc_L (++)).
      * rewrite (proj2 (IH (count - 1) (Some (value_port o)) _ os ltac:(lia) ltac:(lia))); [done|]. by repeat split; [lia|..].
Qed.

Lemma push_output_length o : (1 <= List.length (push_output o))%nat.
Proof. unfold push_output, push_str, frame. rewrite !length_app, !length_to_be_bytes. lia. Qed.

(** More fuel than there are bytes changes nothing. *)
Lemma decode_outputs_fuel f f' count previous l :
  (List.length l < f)%nat -> (List.length l < f')%nat -> decode_outputs f count previous l = decode_outputs f' count previous l.
Proof.
  revert f' count previous l. induction f as [|f IH]; intros f' count previous l Hf Hf'; [lia|]. destruct f' as [|f']; [lia|].
  cbn [decode_outputs]. destruct (count =? 0); [done|]. destruct (decode_output previous l) as [[o l']|] eqn:E; cbn [mbind Result_bind]; [|done].
  apply decode_output_Ok in E as (_ & _ & ->). pose proof (push_output_length o). rewrite length_app in Hf, Hf'.
  by rewrite (IH f') by lia.
Qed.

Lemma outputs_length os : (List.length os <= List.length (flat_map push_output os))%nat.
Proof. induction os as [|o os IH]; cbn; [lia|]. rewrite length_app. pose proof (push_output_length o). lia. Qed.

(** The outputs a node can have: at least one, in the order of the ports, no port twice. *)
Definition wf_outputs (os : list NativePortValue) : Prop :=
  os <> [] /\ Z.of_nat (List.length os) < 2 ^ 64 /\ Forall wf_value os /\ by_port os.

Lemma decode_spec bytes os :
  decode_canonical_output_bytes bytes None = Ok os <-> wf_outputs os /\ bytes = canonical_output_bytes os.
Proof.
  unfold decode_canonical_output_bytes, wf_outputs, canonical_output_bytes, push_seq. rewrite <- ascending_sorted. split.
  - intros E. apply bind_Ok in E as ([m l] & [El ->]%take_bytes_n & E); [|done].
    case_bool_decide as Em; [|done]. cbn [negb] in E. subst m. apply bind_Ok in E as ([count l'] & [Hc ->]%try_u64_Ok & E).
    destruct (Z.eqb_spec count 0) as [|Hn]; [done|]. apply bind_Ok in E as ([os' r] & E & Er).
    case_bool_decide as Hr; [|done]. injection Er as ->. subst r.
    assert (Hlen : (List.length os <= S (List.length (as_bytes ENVELOPE_MAGIC ++ push_u64 count ++ l')))%nat).
    { revert E. set (fuel := S _). clearbody fuel. clear. revert fuel count l'. generalize (@None string).
      induction os as [|o os IH]; intros p fuel count l' E; [cbn; lia|]. destruct fuel as [|fuel]; cbn [decode_outputs] in E;
        (destruct (count =? 0); [discriminate E|]); [done|].
      apply bind_Ok in E as ([o' l1] & _ & E). apply bind_Ok in E as ([os' r'] & E & [= -> -> ->]). apply IH in E. cbn. lia. }
    apply decode_outputs_Ok in E as (-> & Ha & Hw & ->); [|ranges; lia|exact Hlen]. rewrite app_nil_r.
    split; [|done]. split; [by intros ->|]. split; [ranges; lia|done].
  - intros ((Hne & Hlen & Hw & Ha) & ->). rewrite (proj2 (take_bytes_n (str_len ENVELOPE_MAGIC) _ (as_bytes ENVELOPE_MAGIC)
      (push_u64 (Z.of_nat (List.length os)) ++ flat_map push_output os) ltac:(done))) by (split; [|done]; reflexivity).
    cbn [mbind Result_bind]. rewrite bool_decide_true by done. cbn [negb].
    rewrite (proj2 (try_u64_Ok _ (Z.of_nat (List.length os)) (flat_map push_output os))) by (split; [ranges; lia|done]). cbn [mbind Result_bind].
    destruct (Z.eqb_spec (Z.of_nat (List.length os)) 0) as [|_]; [destruct os; [done|cbn in *; lia]|].
    set (fuel := S _). assert (Hf : (List.length os <= fuel)%nat) by (unfold fuel; rewrite !length_app; pose proof (outputs_length os); lia).
    rewrite (proj2 (decode_outputs_Ok fuel (Z.of_nat (List.length os)) None (flat_map push_output os) os [] ltac:(lia) Hf)); [done|].
    split; [done|]. split; [done|]. split; [done|]. by rewrite app_nil_r.
Qed.

Lemma decode_hash_spec bytes h :
  decode_canonical_output_bytes bytes (Some h) =
    if bool_decide (digest bytes = h) then decode_canonical_output_bytes bytes None else Err native_hash_mismatch.
Proof. unfold decode_canonical_output_bytes. by case_bool_decide. Qed.
End envelope.

(** ** Properties *)

(** C17. Persisted node outputs are read back exactly: the decoder accepts a byte string exactly when it
    is the envelope of some outputs - at least one, in strictly ascending port order, each made by the
    constructors of values and types - and then returns those outputs; so every envelope decodes to what
    was encoded, no other string decodes at all, and no outputs have two envelopes. With an expected
    hash the string must have that digest besides. *)
Theorem envelope_round_trip `{Sha256} bytes outputs h :
  (decode_canonical_output_bytes bytes None = Ok outputs <-> wf_outputs outputs /\ bytes = canonical_output_bytes outputs)
  /\ (decode_canonical_output_bytes bytes (Some h) = Ok outputs <->
      digest bytes = h /\ wf_outputs outputs /\ bytes = canonical_output_bytes outputs).
Proof.
  split; [apply decode_spec|]. rewrite decode_hash_spec, <- decode_spec. case_bool_decide; naive_solver.
Qed.

Section example.
Local Existing Instance sample_sha256.

Definition sample_output (port : string) (text : string) : NativePortValue :=
  {| value_port := port; value_type := sample_type "curve"; payload := as_bytes text; value_hash := digest (as_bytes text) |}.

Example envelope_example :
  decode_canonical_output_bytes (canonical_output_bytes [sample_output "a" "1"; sample_output "b" "22"]) None
    = Ok [sample_output "a" "1"; sample_output "b" "22"]
  /\ is_ok (decode_canonical_output_bytes (canonical_output_bytes [sample_output "b" "1"; sample_output "a" "22"]) None) = false
  /\ is_ok (decode_canonical_output_bytes (canonical_output_bytes [sample_output "a" "1"] ++ [x00]) None) = false
  /\ decode_canonical_output_bytes (canonical_output_bytes []) None = Err native_invalid.
Proof. vm_compute. by repeat split. Qed.
End example.
