(* ===== verification/NativeExec.v ===== *)
(** * Native graph execution

    The last part of [crates/ficant-runtime/src/native_execution.rs]: running the nodes of a research
    graph in order, the artifact every node leaves, and the comparison of two results. Nodes are an
    argument: an executor is its node, its digest and a function from requests to outputs. *)

From Stdlib Require Import ZArith Lia Strings.String.
From Stdlib Require Import Strings.Byte.
From stdpp Require Import base list option strings numbers sorting.
From S2P Require Import Prelude Machine Collections Primitives Codec Concrete ResearchGraph GraphOrder GraphWiring GraphConstruction RunJournal Runtime Evidence NativeIdentity NativeEnvelope.
Open Scope Z_scope.

(** ** Requests, executors and artifacts *)

Record NativeNodeRequest := {
  request_node : ResearchNode;
  request_identity : ReproducibilityIdentity;
  request_inputs : list NativePortValue
}.

Record NativeNode := {
  executor_node_id : Ulid;
  executor_digest : ContentHash;
  run_node : NativeNodeRequest -> RuntimeResult (list NativePortValue)
}.

Record NativeNodeArtifact := {
  artifact_node : Ulid;
  artifact_contract : ContentHash;
  artifact_implementation : ContentHash;
  input_artifacts : list ContentHash;
  output_hashes : list ContentHash;
  output_envelope_hash : ContentHash;
  artifact_digest : ContentHash
}.

#[export] Instance NativeNodeArtifact_eq_dec : EqDecision NativeNodeArtifact.
Proof. solve_decision. Defined.

Record NativeNodeExecution := {
  outputs : list NativePortValue;
  output_envelope : list byte;
  artifact : NativeNodeArtifact
}.

Record NativeExecutionResult := {
  result_identity : ExecutionInstanceIdentity;
  artifacts : list NativeNodeArtifact;
  result_digest : ContentHash
}.

#[export] Instance NativeExecutionResult_eq_dec : EqDecision NativeExecutionResult.
Proof. solve_decision. Defined.

(** ** One node *)

Definition artifact_bytes (identity : ContentHash) (node : ResearchNode) (implementation : ContentHash)
    (inputs outputs : list ContentHash) (envelope_hash : ContentHash) : list byte :=
  as_bytes "ficant/native-node-artifact/v2" ++ hash_bytes identity ++ push_str (ulid_str (node_id node))
  ++ hash_bytes (contract_digest (contract node)) ++ hash_bytes implementation ++ push_seq hash_bytes inputs ++ push_seq hash_bytes outputs ++ hash_bytes envelope_hash.

Definition conforms (value : NativePortValue) (port : PortType) : bool :=
  bool_decide (value_port value = port_name port) && bool_decide (value_type value = port_value_type port).

Definition execute_native_node `{Sha256} (node : ResearchNode) (identity : ReproducibilityIdentity) (executor : NativeNode)
    (inputs : list NativePortValue) (input_artifacts : list ContentHash) : RuntimeResult NativeNodeExecution :=
  if negb (bool_decide (executor_node_id executor = node_id node))
     || negb (bool_decide (implementation identity (node_id node) = Some (executor_digest executor)))
  then Err native_invalid else
  let inputs := sort_by_key value_port inputs in
  if negb (covers conforms inputs (input_types (contract node))) then Err native_invalid else
  let input_artifacts := dedup (sort input_artifacts) in
  outputs ← run_node executor {| request_node := node; request_identity := identity; request_inputs := inputs |};
  let outputs := sort_by_key value_port outputs in
  if negb (covers conforms outputs (output_types (contract node))) then Err native_invalid else
  let output_hashes := map value_hash outputs in
  let output_envelope := canonical_output_bytes outputs in
  let output_envelope_hash := digest output_envelope in
  Ok {| outputs := outputs; output_envelope := output_envelope;
        artifact := {|
          artifact_node := node_id node; artifact_contract := contract_digest (contract node);
          artifact_implementation := executor_digest executor; input_artifacts := input_artifacts;
          output_hashes := output_hashes; output_envelope_hash := output_envelope_hash;
          artifact_digest := digest (artifact_bytes (rep_digest identity) node (executor_digest executor)
                                       input_artifacts output_hashes output_envelope_hash) |} |}.

(** ** Registries *)

(** A [for] loop that inserts into a map and fails on a key that is already there. *)
Definition register {K V} `{Ord K} (key : V -> K) (l : list V) : RuntimeResult (BTreeMap K V) :=
  try_fold (fun registry v =>
    match btree_get (key v) registry with
    | Some _ => Err native_invalid
    | None => Ok (btree_insert (key v) v registry)
    end) [] l.

Definition executor_registry (executors : list NativeNode) : RuntimeResult (BTreeMap Ulid NativeNode) :=
  register executor_node_id executors.

Definition check_declaration (identity : ReproducibilityIdentity) (registry : BTreeMap string ExecutionExternalInput)
    (declaration : GraphExternalInput) : RuntimeResult unit :=
  actual ← ok_or (btree_get (input_id declaration) registry) native_broken;
  frozen ← ok_or (binary_search_by ext_input_id (rep_external_inputs identity) (input_id declaration)) native_broken;
  fail_if (negb (bool_decide (ext_value_type actual = input_value_type declaration))
           || negb (bool_decide (ext_value_type actual = ext_value_type frozen))
           || negb (bool_decide (ext_content_hash actual = ext_content_hash frozen))) native_hash_mismatch.

Definition external_input_registry (graph : ResearchGraph) (identity : ReproducibilityIdentity)
    (externals : list ExecutionExternalInput) : RuntimeResult (BTreeMap string ExecutionExternalInput) :=
  if negb (List.length externals =? List.length (external_inputs graph))%nat then Err native_invalid else
  registry ← register ext_input_id externals;
  _ ← try_fold (fun _ declaration => check_declaration identity registry declaration) tt (external_inputs graph);
  Ok registry.

Definition research_nodes (graph : ResearchGraph) : BTreeMap Ulid ResearchNode :=
  btree_collect (map (fun node => (node_id node, node)) (nodes graph)).

(** ** The graph *)

Section graph.
Context `{Sha256} (graph : ResearchGraph) (identity : ReproducibilityIdentity).
(** What the loop looks up: nodes, executors, external inputs, the outputs and the artifacts so far. *)
Context (node_of : Ulid -> option ResearchNode) (executor_of : Ulid -> option NativeNode)
  (external_of : string -> option ExecutionExternalInput).
Context (value_of : Ulid * string -> option NativePortValue) (artifact_of : Ulid -> option NativeNodeArtifact).

Definition feed_edge (st : list NativePortValue * list ContentHash) (edge : ResearchEdge)
    : RuntimeResult (list NativePortValue * list ContentHash) :=
  let '(inputs, input_artifacts) := st in
  source ← ok_or (value_of (from_node edge, from_port edge)) native_broken;
  value ← native_port_value_new (to_port edge) (value_type source) (payload source);
  artifact ← ok_or (artifact_of (from_node edge)) native_broken;
  Ok (inputs ++ [value], input_artifacts ++ [artifact_digest artifact]).

Definition feed_external (st : list NativePortValue * list ContentHash) (binding : GraphExternalInputBinding)
    : RuntimeResult (list NativePortValue * list ContentHash) :=
  let '(inputs, input_artifacts) := st in
  external ← ok_or (external_of (binding_input_id binding)) native_broken;
  value ← native_port_value_new (binding_to_port binding) (ext_value_type external) (ext_payload external);
  Ok (inputs ++ [value], input_artifacts ++ [ext_content_hash external]).

(** The execution of one node of the graph. *)
Definition execute_at (id : Ulid) : RuntimeResult NativeNodeExecution :=
  node ← ok_or (node_of id) native_broken;
  executor ← ok_or (executor_of id) native_broken;
  fed ← try_fold feed_edge ([], []) (filter (fun edge => to_node edge = id) (edges graph));
  '(inputs, input_artifacts) ← try_fold feed_external fed
    (filter (fun binding => binding_to_node binding = id) (external_input_bindings graph));
  execute_native_node node identity executor inputs input_artifacts.
End graph.

Abbreviation Values := (BTreeMap (Ulid * string) NativePortValue).
Abbreviation Artifacts := (BTreeMap Ulid NativeNodeArtifact).

Definition record_outputs (id : Ulid) (values : Values) (outputs : list NativePortValue) : Values :=
  foldl (fun values output => btree_insert (id, value_port output) output values) values outputs.

(** One turn of the loop over the order of execution. *)
Definition node_step `{Sha256} (graph : ResearchGraph) (identity : ReproducibilityIdentity) (registry : BTreeMap Ulid NativeNode)
    (externals : BTreeMap string ExecutionExternalInput) (st : Values * Artifacts) (id : Ulid) : RuntimeResult (Values * Artifacts) :=
  let '(values, artifacts) := st in
  execution ← execute_at graph identity (fun id => btree_get id (research_nodes graph)) (fun id => btree_get id registry)
    (fun id => btree_get id externals) (fun k => btree_get k values) (fun id => btree_get id artifacts) id;
  Ok (record_outputs id values (outputs execution), btree_insert id (artifact execution) artifacts).

Definition take_artifact (st : Artifacts * list NativeNodeArtifact) (id : Ulid) : RuntimeResult (Artifacts * list NativeNodeArtifact) :=
  let '(artifacts, ordered) := st in
  artifact ← ok_or (btree_get id artifacts) native_broken;
  Ok (btree_remove id artifacts, ordered ++ [artifact]).

Definition result_bytes (identity : ContentHash) (artifacts : list NativeNodeArtifact) : list byte :=
  as_bytes "ficant/native-execution-result/v1" ++ hash_bytes identity
  ++ flat_map (fun artifact => hash_bytes (artifact_digest artifact)) artifacts.

Definition execute_native_graph_with_external_inputs `{Sha256} (graph : ResearchGraph) (identity : ExecutionInstanceIdentity)
    (executors : list NativeNode) (externals : list ExecutionExternalInput) : RuntimeResult NativeExecutionResult :=
  let reproducibility := reproducibility identity in
  if negb (bool_decide (rep_graph_digest reproducibility = graph_digest graph))
     || negb (List.length executors =? List.length (nodes graph))%nat then Err native_invalid else
  external_registry ← external_input_registry graph reproducibility externals;
  registry ← executor_registry executors;
  '(values, artifacts) ← try_fold (node_step graph reproducibility registry external_registry) ([], []) (topological_order_field graph);
  '(_, ordered) ← try_fold take_artifact (artifacts, []) (topological_order_field graph);
  Ok {| result_identity := identity; artifacts := ordered;
        result_digest := digest (result_bytes (rep_digest reproducibility) ordered) |}.

Definition execute_native_graph `{Sha256} (graph : ResearchGraph) (identity : ExecutionInstanceIdentity)
    (executors : list NativeNode) : RuntimeResult NativeExecutionResult :=
  execute_native_graph_with_external_inputs graph identity executors [].

(** ** Comparison *)

Definition verify_native_replay (expected replayed : NativeExecutionResult) : RuntimeResult unit :=
  fail_if (negb (bool_decide (reproducibility (result_identity expected) = reproducibility (result_identity replayed)))
           || negb (bool_decide (artifacts expected = artifacts replayed))
           || negb (bool_decide (result_digest expected = result_digest replayed))) native_hash_mismatch.

Inductive ComparisonDimension :=
| ExternalInput | RulePackDimension | DataSnapshotDimension | UniverseSnapshotDimension | Graph | Parameters_ | RuntimeImage
| Environment | Seed_ | Implementation | Result_ | SubjectDimension | Code.

#[export] Instance ComparisonDimension_eq_dec : EqDecision ComparisonDimension.
Proof. solve_decision. Defined.

(** The derived order is the order of declaration, in which the set of differences is listed. *)
Definition dimension_index (d : ComparisonDimension) : Z :=
  match d with
  | ExternalInput => 0 | RulePackDimension => 1 | DataSnapshotDimension => 2 | UniverseSnapshotDimension => 3 | Graph => 4
  | Parameters_ => 5 | RuntimeImage => 6 | Environment => 7 | Seed_ => 8 | Implementation => 9 | Result_ => 10
  | SubjectDimension => 11 | Code => 12
  end.
#[export] Instance ComparisonDimension_ord : Ord ComparisonDimension := fun a b => cmp (dimension_index a) (dimension_index b).
#[export] Instance ComparisonDimension_ord_laws : OrdLaws ComparisonDimension.
Proof. by apply (ord_laws_via dimension_index); [intros [] []|]. Qed.

Definition insert_if (different : bool) (d : ComparisonDimension) (differences : BTreeSet ComparisonDimension)
    : BTreeSet ComparisonDimension := if different then bset_insert d differences else differences.

Definition compare_experiments (left right : NativeExecutionResult) : list ComparisonDimension :=
  let l := reproducibility (result_identity left) in
  let r := reproducibility (result_identity right) in
  let differences := [] in
  let differences := insert_if (negb (bool_decide (rep_external_inputs l = rep_external_inputs r))) ExternalInput differences in
  let differences := insert_if (negb (bool_decide (rep_rule_packs l = rep_rule_packs r))) RulePackDimension differences in
  let differences := insert_if (negb (bool_decide (rep_data_snapshot l = rep_data_snapshot r))) DataSnapshotDimension differences in
  let differences := insert_if (negb (bool_decide (rep_universe_snapshot l = rep_universe_snapshot r))) UniverseSnapshotDimension differences in
  let differences := insert_if (negb (bool_decide (rep_graph_digest l = rep_graph_digest r))) Graph differences in
  let differences := insert_if (negb (bool_decide (rep_parameters l = rep_parameters r))) Parameters_ differences in
  let differences := insert_if (negb (bool_decide (rep_image l = rep_image r))) RuntimeImage differences in
  let differences := insert_if (negb (bool_decide (rep_environment l = rep_environment r))) Environment differences in
  let differences := insert_if (negb (bool_decide (rep_seed l = rep_seed r))) Seed_ differences in
  let differences := insert_if (negb (bool_decide (rep_implementations l = rep_implementations r))) Implementation differences in
  let differences := insert_if (negb (bool_decide (rep_subject l = rep_subject r))) SubjectDimension differences in
  let differences := insert_if (negb (bool_decide (rep_code l = rep_code r))) Code differences in
  insert_if (negb (bool_decide (result_digest left = result_digest right))) Result_ differences.

Definition identical (left right : NativeExecutionResult) : bool := bool_decide (compare_experiments left right = []).

(** ** Registries hold exactly what was registered *)

Section register.
Context {K V : Type} `{OrdLaws K} `{EqDecision K} (key : V -> K).

Lemma register_from l m0 :
  (exists m, try_fold (fun registry v =>
     match btree_get (key v) registry with Some _ => Err native_invalid | None => Ok (btree_insert (key v) v registry) end) m0 l = Ok m
   /\ NoDup (map key l) /\ (forall v, v ∈ l -> btree_get (key v) m0 = None)
   /\ forall k v, btree_get k m = Some v <-> (v ∈ l /\ key v = k) \/ (k ∉ map key l /\ btree_get k m0 = Some v))
  \/ (try_fold (fun registry v =>
       match btree_get (key v) registry with Some _ => Err native_invalid | None => Ok (btree_insert (key v) v registry) end) m0 l = Err native_invalid
      /\ ~ (NoDup (map key l) /\ forall v, v ∈ l -> btree_get (key v) m0 = None)).
Proof.
  revert m0. induction l as [|a l IH]; intros m0; cbn [try_fold map].
  { left. exists m0. split; [done|]. split; [constructor|]. split; [by intros v ?%elem_of_nil|]. intros k v. split; [|intros [[?%elem_of_nil _]|[_ ?]]; done].
    intros E. right. split; [by intros ?%elem_of_nil|done]. }
  destruct (btree_get (key a) m0) as [b|] eqn:Ea; cbn [mbind Result_bind].
  { right. split; [done|]. intros [_ Hn]. specialize (Hn a ltac:(left)). congruence. }
  destruct (IH (btree_insert (key a) a m0)) as [(m & Em & Hn & Hd & Hg)|[-> Hn]].
  - left. exists m. split; [done|]. assert (Ha : key a ∉ map key l).
    { intros (v & E & Hv)%list_elem_of_fmap. specialize (Hd v Hv). rewrite <- E, btree_get_insert_eq in Hd. done. }
    split; [by constructor|]. split.
    { intros v Hv. apply elem_of_cons in Hv as [->|Hv]; [done|]. specialize (Hd v Hv).
      rewrite btree_get_insert_ne in Hd; [done|]. intros E. apply Ha. rewrite <- E. by apply (list_elem_of_fmap_2 key). }
    intros k v. rewrite Hg, elem_of_cons, not_elem_of_cons. destruct (decide (k = key a)) as [->|Hk].
    + rewrite btree_get_insert_eq. split.
      * intros [[Hv E]|[_ [= ->]]]; [left; tauto|left; by split; [left|]].
      * intros [[[->|Hv] E]|[[Hne _] _]]; [by right|left; done|done].
    + rewrite btree_get_insert_ne by done. split; [intros [[Hv E]|[Hn' E]]; [left; tauto|right; tauto]|].
      intros [[[->|Hv] E]|[[_ Hn'] E]]; [congruence|left; done|right; done].
  - right. split; [done|]. intros [Hnd Hnone]. apply NoDup_cons in Hnd as [Ha Hnd]. apply Hn. split; [done|]. intros v Hv.
    rewrite btree_get_insert_ne; [apply Hnone; by right|]. intros E. apply Ha. rewrite <- E. by apply (list_elem_of_fmap_2 key).
Qed.

Lemma register_spec l :
  match register key l with
  | Ok m => NoDup (map key l) /\ forall k v, btree_get k m = Some v <-> v ∈ l /\ key v = k
  | Err e => e = native_invalid /\ ~ NoDup (map key l)
  end.
Proof.
  unfold register. destruct (register_from l []) as [(m & -> & Hn & _ & Hg)|[-> Hn]].
  - split; [done|]. intros k v. rewrite Hg. split; [intros [?|[_ E]]; [done|discriminate E]|auto].
  - split; [done|]. intros Hd. apply Hn. by split.
Qed.
End register.

(** ** Feeding a node *)

(** What one edge brings: the value under the name of the port it reaches, and the artifact it stems from. *)
Definition edge_value `{Sha256} (value_of : Ulid * string -> option NativePortValue) (artifact_of : Ulid -> option NativeNodeArtifact)
    (edge : ResearchEdge) : RuntimeResult (NativePortValue * ContentHash) :=
  source ← ok_or (value_of (from_node edge, from_port edge)) native_broken;
  value ← native_port_value_new (to_port edge) (value_type source) (payload source);
  artifact ← ok_or (artifact_of (from_node edge)) native_broken;
  Ok (value, artifact_digest artifact).

Definition external_value `{Sha256} (external_of : string -> option ExecutionExternalInput) (binding : GraphExternalInputBinding)
    : RuntimeResult (NativePortValue * ContentHash) :=
  external ← ok_or (external_of (binding_input_id binding)) native_broken;
  value ← native_port_value_new (binding_to_port binding) (ext_value_type external) (ext_payload external);
  Ok (value, ext_content_hash external).

Lemma pair_fold {E A B C} (step : list B * list C -> A -> Result E (list B * list C)) (g : A -> Result E (B * C)) l bs cs :
  (forall st a, step st a = (p ← g a; Ok (st.1 ++ [p.1], st.2 ++ [p.2]))) ->
  try_fold step (bs, cs) l = (ps ← try_map g l; Ok (bs ++ map fst ps, cs ++ map snd ps)).
Proof.
  intros Hs. revert bs cs. induction l as [|a l IH]; intros bs cs; cbn [try_fold try_map].
  { cbn. by rewrite !app_nil_r. }
  rewrite Hs. destruct (g a) as [[b c]|]; cbn [mbind Result_bind fst snd]; [|done]. rewrite IH.
  destruct (try_map g l) as [ps|]; cbn; [|done]. by rewrite <- !(assoc_L (++)).
Qed.

Lemma try_map_ext {E A B} (f g : A -> Result E B) l : (forall a, a ∈ l -> f a = g a) -> try_map f l = try_map g l.
Proof.
  induction l as [|a l IH]; intros Hfg; cbn; [done|]. rewrite Hfg by left. destruct (g a); cbn; [|done].
  rewrite IH; [done|]. intros b Hb. apply Hfg. by right.
Qed.

Section feed.
Context `{Sha256} (graph : ResearchGraph) (identity : ReproducibilityIdentity).
Context (node_of : Ulid -> option ResearchNode) (executor_of : Ulid -> option NativeNode)
  (external_of : string -> option ExecutionExternalInput).

Definition edges_into (id : Ulid) : list ResearchEdge := filter (fun edge => to_node edge = id) (edges graph).
Definition bindings_into (id : Ulid) : list GraphExternalInputBinding :=
  filter (fun binding => binding_to_node binding = id) (external_input_bindings graph).

Lemma execute_at_eq value_of artifact_of id :
  execute_at graph identity node_of executor_of external_of value_of artifact_of id =
  (node ← ok_or (node_of id) native_broken;
   executor ← ok_or (executor_of id) native_broken;
   ps ← try_map (edge_value value_of artifact_of) (edges_into id);
   qs ← try_map (external_value external_of) (bindings_into id);
   execute_native_node node identity executor (map fst (ps ++ qs)) (map snd (ps ++ qs))).
Proof.
  unfold execute_at. destruct (ok_or (node_of id) _); cbn [mbind Result_bind]; [|done].
  destruct (ok_or (executor_of id) _); cbn [mbind Result_bind]; [|done].
  rewrite (pair_fold _ (edge_value value_of artifact_of)).
  2: { intros [inputs hashes] e. cbn [feed_edge fst snd]. unfold edge_value. destruct (value_of _); cbn; [|done].
       destruct (native_port_value_new _ _ _); cbn; [|done]. by destruct (artifact_of _). }
  unfold edges_into. destruct (try_map _ (filter _ _)) as [ps|]; cbn [mbind Result_bind]; [|done].
  rewrite (pair_fold _ (external_value external_of)).
  2: { intros [inputs hashes] b. cbn [feed_external fst snd]. unfold external_value. destruct (external_of _); cbn; [|done].
       by destruct (native_port_value_new _ _ _). }
  unfold bindings_into. destruct (try_map _ (filter _ _)) as [qs|]; cbn [mbind Result_bind]; [|done]. by rewrite !map_app.
Qed.

(** An execution depends on the values and artifacts at the sources of its edges only. *)
Lemma execute_at_agree value_of artifact_of value_of' artifact_of' id :
  (forall e, e ∈ edges_into id -> value_of (from_node e, from_port e) = value_of' (from_node e, from_port e)
     /\ artifact_of (from_node e) = artifact_of' (from_node e)) ->
  execute_at graph identity node_of executor_of external_of value_of artifact_of id
  = execute_at graph identity node_of executor_of external_of value_of' artifact_of' id.
Proof.
  intros Hag. rewrite !execute_at_eq. rewrite (try_map_ext _ (edge_value value_of' artifact_of')); [done|].
  intros e He. unfold edge_value. by destruct (Hag e He) as [-> ->].
Qed.
End feed.
