(* ===== verification/NativeDataflow.v ===== *)
(** * Native execution solves the dataflow of its graph

    The loop of [execute_native_graph_with_external_inputs] against an order-free description: every node
    is executed once on what the edges and external bindings bring to it. The loop finds the solution,
    there is only one, and it exists whenever the executors honour their contracts. *)

From Stdlib Require Import ZArith Lia Strings.String.
From Stdlib Require Import Strings.Byte.
From stdpp Require Import base list option strings numbers sorting.
From S2P Require Import Prelude Machine Collections Primitives Codec Concrete ResearchGraph GraphOrder GraphWiring GraphConstruction RunJournal Runtime Evidence NativeIdentity NativeEnvelope NativeExec.
Open Scope Z_scope.

(** ** The specification *)

Definition among {K V} `{EqDecision K} (key : V -> K) (l : list V) (k : K) : option V :=
  find (fun v => bool_decide (key v = k)) l.

(** The execution of a node of the graph, where [val] and [art] give the values at the output ports and
    the artifacts of the nodes. *)
Definition execution `{Sha256} (g : ResearchGraph) (rep : ReproducibilityIdentity) (executors : list NativeNode)
    (externals : list ExecutionExternalInput) (val : Ulid * string -> option NativePortValue)
    (art : Ulid -> option NativeNodeArtifact) (id : Ulid) : RuntimeResult NativeNodeExecution :=
  execute_at g rep (among node_id (nodes g)) (among executor_node_id executors) (among ext_input_id externals) val art id.

(** The values and artifacts are those of the executions, one for every node. *)
Definition solves `{Sha256} (g : ResearchGraph) (rep : ReproducibilityIdentity) (executors : list NativeNode)
    (externals : list ExecutionExternalInput) (val : Ulid * string -> option NativePortValue)
    (art : Ulid -> option NativeNodeArtifact) : Prop :=
  forall id, id ∈ map node_id (nodes g) ->
    exists x, execution g rep executors externals val art id = Ok x
      /\ (forall v, v ∈ outputs x -> val (id, value_port v) = Some v) /\ art id = Some (artifact x).

(** What is checked before the loop. *)
Record checked (g : ResearchGraph) (rep : ReproducibilityIdentity) (executors : list NativeNode)
    (externals : list ExecutionExternalInput) : Prop := {
  same_graph : rep_graph_digest rep = graph_digest g;
  executors_count : List.length executors = List.length (nodes g);
  executors_once : NoDup (map executor_node_id executors);
  externals_count : List.length externals = List.length (external_inputs g);
  externals_once : NoDup (map ext_input_id externals);
  externals_frozen : forall d, d ∈ external_inputs g -> exists x f,
    x ∈ externals /\ ext_input_id x = input_id d
    /\ binary_search_by ext_input_id (rep_external_inputs rep) (input_id d) = Some f
    /\ ext_value_type x = input_value_type d /\ ext_value_type x = ext_value_type f /\ ext_content_hash x = ext_content_hash f
}.

(** ** Lookups *)

Lemma among_spec {K V} `{EqDecision K} (key : V -> K) l k v :
  NoDup (map key l) -> among key l k = Some v <-> v ∈ l /\ key v = k.
Proof.
  unfold among. intros Hn. split.
  - intros [Hv Hk]%find_some. apply bool_decide_eq_true in Hk. by rewrite list_elem_of_In.
  - intros [Hv <-]. induction l as [|a l IH]; [by apply elem_of_nil in Hv|]. cbn [find]. cbn [map] in Hn.
    apply NoDup_cons in Hn as [Ha Hn]. case_bool_decide as E.
    + apply elem_of_cons in Hv as [->|Hv]; [done|]. exfalso. apply Ha. rewrite E. by apply (list_elem_of_fmap_2 key).
    + apply elem_of_cons in Hv as [->|Hv]; [done|]. by apply IH.
Qed.

Lemma option_ext {V} (o p : option V) : (forall v, o = Some v <-> p = Some v) -> o = p.
Proof. intros E. destruct o as [v|]; [symmetry; by apply E|]. destruct p as [v|]; [|done]. by apply E. Qed.

Lemma binary_search_by_Some {A K} `{OrdLaws K} (key : A -> K) l k x : binary_search_by key l k = Some x -> x ∈ l /\ key x = k.
Proof.
  unfold binary_search_by. destruct l as [|a l']; [done|]. remember (a :: l') as l. destruct (l !! _) as [y|] eqn:Ey; [|done].
  destruct (cmp (key y) k) eqn:Ec; [|done..]. apply cmp_eq in Ec as <-. intros [= <-]. split; [|done].
  apply list_elem_of_lookup. eauto.
Qed.

Lemma port_Ok ports name p : port ports name = Ok p -> p ∈ ports /\ port_name p = name.
Proof. unfold port. intros E%ok_or_Ok. by apply binary_search_by_Some in E. Qed.

Lemma pairs_into {A B C} `{EqDecision B} (t : A -> B) (p : A -> C) id l :
  pair id <$> map p (filter (fun a => t a = id) l) = map (fun a => (t a, p a)) (filter (fun a => t a = id) l).
Proof. induction l as [|a l IH]; [done|]. rewrite filter_cons. case_decide as E; [|done]. cbn. by rewrite IH, E. Qed.

Lemma map_filter_sublist {A B} (f : A -> B) (P : A -> Prop) `{!forall a, Decision (P a)} l : map f (filter P l) `sublist_of` map f l.
Proof. induction l as [|a l IH]; [done|]. rewrite filter_cons. case_decide; cbn; by constructor. Qed.

(** Contracts come from their constructor, which sorts the ports. *)
Definition made `{Sha256} (c : ResearchNodeContract) : Prop := exists i, research_node_contract_new i = Ok c.

Definition ports_sorted (ps : list PortType) : Prop := StronglySorted (fun a b => cmp (port_name a) (port_name b) = Lt) ps.

Lemma canonical_ports_sorted l ps : canonical_ports l = Ok ps -> ports_sorted ps.
Proof.
  unfold canonical_ports. destruct (windows2_any _ _) eqn:E; [done|]. intros [= <-]. by apply strictly_sorted_by.
Qed.

Lemma made_sorted `{Sha256} c : made c -> ports_sorted (input_types c) /\ ports_sorted (output_types c).
Proof.
  intros [i E]. unfold research_node_contract_new in E. repeat res_step. subst c. cbn.
  split; by eapply canonical_ports_sorted.
Qed.

Section flow.
Context `{Sha256}.
Context (g : ResearchGraph) (i : ResearchGraphInput) (xs : list GraphExternalInput) (bs : list GraphExternalInputBinding).
Hypothesis Hg : research_graph_new_with_external_inputs i xs bs = Ok g.
Hypothesis Hmade : Forall (fun n => made (contract n)) (nodes g).
Hypothesis Hsize : Z.of_nat (List.length (edges g)) < 2 ^ 64.
Context (rep : ReproducibilityIdentity) (executors : list NativeNode) (externals : list ExecutionExternalInput).

Notation o := (topological_order_field g).
Notation exec := (execution g rep executors externals).

Lemma graph_valid : valid_graph i xs bs g.
Proof. by apply new_valid in Hg as [? _]. Qed.

Lemma ids_NoDup : NoDup (map node_id (nodes g)).
Proof. apply strict_sorted_NoDup. exact (valid_ids _ _ _ _ graph_valid). Qed.

Lemma order_facts : o ≡ₚ map node_id (nodes g) /\ NoDup o /\ forall e, e ∈ edges g -> precedes o (from_node e) (to_node e).
Proof.
  pose proof graph_valid as V. pose proof (order_spec (node_id <$> nodes g) (edges g) (valid_ids _ _ _ _ V) (wired_between g i xs bs V) Hsize
    o (valid_order _ _ _ _ V)) as [Hp He].
  split; [done|]. split; [|done]. rewrite Hp. exact ids_NoDup.
Qed.

Lemma sources_before l id r e : o = l ++ id :: r -> e ∈ edges_into g id -> from_node e ∈ l.
Proof.
  intros Eo [Et He]%list_elem_of_filter. destruct order_facts as (_ & Hn & Hp). destruct (Hp e He) as (a & b & Ha & Hb & Hab).
  assert (b = List.length l) as ->.
  { apply (NoDup_lookup o _ _ id Hn); [by rewrite <- Et|]. by rewrite Eo, list_lookup_middle. }
  rewrite Eo, lookup_app_l in Ha by done. apply list_elem_of_lookup. by exists a.
Qed.

Lemma research_nodes_get id : btree_get id (research_nodes g) = among node_id (nodes g) id.
Proof.
  assert (E : research_nodes g = node_map_of (nodes g)).
  { apply btree_collect_sorted. unfold btree_wf. pose proof (valid_ids _ _ _ _ graph_valid) as Hs. unfold bset_wf in Hs.
    pose proof (node_map_keys (nodes g)) as Hk. unfold btree_keys in Hk. unfold node_map_of in *. by rewrite Hk. }
  assert (W : btree_wf (research_nodes g)) by (unfold research_nodes; apply btree_collect_wf).
  apply option_ext. intros n. rewrite (among_spec node_id) by exact ids_NoDup. rewrite E in *. split.
  - intros Hn%btree_get_elem. apply list_elem_of_fmap in Hn as (n' & [= -> ->] & Hn). done.
  - intros [Hn <-]. apply btree_elem_get; [done|]. apply list_elem_of_fmap. by exists n.
Qed.

(** ** Outputs *)

Lemma conforms_spec l ps :
  covers conforms l ps = true <-> map (fun v => (value_port v, value_type v)) l = map (fun p => (port_name p, port_value_type p)) ps.
Proof.
  apply covers_map. intros a b. unfold conforms. rewrite andb_true_iff, !bool_decide_eq_true.
  split; [by intros [-> ->]|by intros [= -> ->]].
Qed.

Lemma execute_native_node_Ok node x inputs hashes ex :
  execute_native_node node rep x inputs hashes = Ok ex ->
  covers conforms (outputs ex) (output_types (contract node)) = true /\ artifact_node (artifact ex) = node_id node.
Proof.
  unfold execute_native_node. intros E. destruct (_ || _); [done|]. destruct (negb (covers _ _ _)); [done|].
  apply bind_Ok in E as (outs & _ & E). destruct (covers conforms (sort_by_key value_port outs) _) eqn:Ec; [|done].
  cbn [negb] in E. injection E as <-. by split.
Qed.

Lemma exec_node val art id ex :
  exec val art id = Ok ex ->
  exists node, node ∈ nodes g /\ node_id node = id /\ artifact_node (artifact ex) = id
    /\ covers conforms (outputs ex) (output_types (contract node)) = true.
Proof.
  unfold execution. rewrite execute_at_eq. intros E. apply bind_Ok in E as (node & En & E). apply ok_or_Ok in En.
  apply among_spec in En as [Hn <-]; [|exact ids_NoDup]. do 3 apply bind_Ok in E as (? & _ & E).
  apply execute_native_node_Ok in E as [Hc Ha]. by exists node.
Qed.

Lemma exec_ports_NoDup val art id ex : exec val art id = Ok ex -> NoDup (map value_port (outputs ex)).
Proof.
  intros (node & Hn & _ & _ & Hc)%exec_node. apply conforms_spec in Hc. apply (f_equal (map fst)) in Hc. rewrite !map_map in Hc. cbn in Hc.
  change (map value_port (outputs ex) = map port_name (output_types (contract node))) in Hc. rewrite Hc. apply (strict_NoDup port_name).
  rewrite list.Forall_forall in Hmade. by apply made_sorted, Hmade.
Qed.

(** The source of an edge has a value of the type of the port it reaches. *)
Lemma edge_source val art e ex :
  e ∈ edges g -> exec val art (from_node e) = Ok ex ->
  exists v target input, v ∈ outputs ex /\ value_port v = from_port e /\ target ∈ nodes g /\ node_id target = to_node e
    /\ input ∈ input_types (contract target) /\ port_name input = to_port e /\ port_value_type input = value_type v.
Proof.
  intros He (node & Hn & Hid & _ & Hc)%exec_node. apply conforms_spec in Hc.
  pose proof (ww_edges _ _ _ _ (valid_wired _ _ _ _ graph_valid)) as Hw. rewrite list.Forall_forall in Hw.
  destruct (Hw e He) as (source & target & output & input & Es & Et & Eo & Ei & Ety).
  assert (Hf : forall id n, btree_get id (node_map_of (nodes g)) = Some n -> n ∈ nodes g /\ node_id n = id).
  { intros id n E%btree_get_elem. by apply list_elem_of_fmap in E as (n' & [= -> ->] & ?). }
  apply Hf in Es as [Hs Es], Et as [Ht Et]. apply port_Ok in Eo as [Ho Eo], Ei as [Hi Ei].
  assert (source = node) as ->.
  { pose proof ids_NoDup as Hnd. apply list_elem_of_lookup in Hs as [a Ha], Hn as [b Hb].
    assert (a = b); [|congruence]. apply (NoDup_lookup _ a b (from_node e) Hnd); change (map node_id (nodes g)) with (node_id <$> nodes g);
      rewrite list_lookup_fmap; [by rewrite Ha, <- Es|by rewrite Hb, <- Hid]. }
  assert (Hin : (port_name output, port_value_type output) ∈ map (fun v => (value_port v, value_type v)) (outputs ex)).
  { rewrite Hc. by apply (list_elem_of_fmap_2 (fun p => (port_name p, port_value_type p))). }
  apply list_elem_of_fmap in Hin as (v & [= Ep Ev] & Hv). exists v, target, input.
  repeat split; try done; congruence.
Qed.
(** ** The loop *)

Lemma record_outputs_other id values outs m p : m <> id -> btree_get (m, p) (record_outputs id values outs) = btree_get (m, p) values.
Proof.
  intros Hne. unfold record_outputs. revert values. induction outs as [|v outs IH]; intros values; cbn [foldl]; [done|].
  rewrite IH, btree_get_insert_ne; [done|congruence].
Qed.

Lemma record_outputs_get id values outs v :
  NoDup (map value_port outs) -> v ∈ outs -> btree_get (id, value_port v) (record_outputs id values outs) = Some v.
Proof.
  unfold record_outputs. intros Hn Hv. revert values. induction outs as [|w outs IH]; intros values; [by apply elem_of_nil in Hv|].
  cbn [map] in Hn. apply NoDup_cons in Hn as [Hw Hn]. cbn [foldl]. apply elem_of_cons in Hv as [->|Hv]; [|by apply IH].
  clear IH. assert (Hother : forall values, btree_get (id, value_port w)
      (foldl (fun values output => btree_insert (id, value_port output) output values) values outs) = btree_get (id, value_port w) values).
  { clear Hn. induction outs as [|u outs IH]; intros vs; cbn [foldl]; [done|]. cbn [map] in Hw. apply not_elem_of_cons in Hw as [Hne Hw].
    rewrite IH by done. apply btree_get_insert_ne. congruence. }
  by rewrite Hother, btree_get_insert_eq.
Qed.

Abbreviation State := (Values * Artifacts)%type.
Definition at_state (st : State) (id : Ulid) : RuntimeResult NativeNodeExecution :=
  exec (fun k => btree_get k st.1) (fun n => btree_get n st.2) id.
Definition after_node (st : State) (id : Ulid) (x : NativeNodeExecution) : State :=
  (record_outputs id st.1 (outputs x), btree_insert id (artifact x) st.2).
Definition recorded (st : State) (id : Ulid) (x : NativeNodeExecution) : Prop :=
  (forall v, v ∈ outputs x -> btree_get (id, value_port v) st.1 = Some v) /\ btree_get id st.2 = Some (artifact x).

(** The nodes of [l] have been executed and recorded, the others have not. *)
Definition loop_inv (l : list Ulid) (st : State) : Prop :=
  forall id, id ∈ l -> exists x, at_state st id = Ok x /\ recorded st id x.

Lemma at_state_other st l id x m r :
  o = l ++ id :: r -> m ∈ l -> at_state (after_node st id x) m = at_state st m.
Proof.
  intros Eo Hm. unfold at_state, execution. apply execute_at_agree. intros e He.
  destruct order_facts as (_ & Hn & _). assert (Hf : from_node e <> id).
  { apply list_elem_of_split in Hm as (l1 & l2 & ->). rewrite <- (assoc_L (++)) in Eo.
    pose proof (sources_before l1 m (l2 ++ id :: r) e Eo He) as Hin. rewrite Eo in Hn. apply NoDup_app in Hn as (_ & Hd & _).
    intros <-. apply (Hd (from_node e) Hin). right. apply elem_of_app. right. by left. }
  cbn [after_node fst snd]. by rewrite record_outputs_other, btree_get_insert_ne.
Qed.

Lemma at_state_self st l id x r : o = l ++ id :: r -> at_state (after_node st id x) id = at_state st id.
Proof.
  intros Eo. unfold at_state, execution. apply execute_at_agree. intros e He.
  destruct order_facts as (_ & Hn & _). rewrite Eo in Hn. apply NoDup_app in Hn as (_ & Hd & _).
  assert (Hf : from_node e <> id) by (pose proof (sources_before l id r e Eo He); intros E; apply (Hd (from_node e)); [done|rewrite E; by left]).
  cbn [after_node fst snd]. by rewrite record_outputs_other, btree_get_insert_ne.
Qed.

Lemma loop_step l id r st x :
  o = l ++ id :: r -> loop_inv l st -> at_state st id = Ok x -> loop_inv (l ++ [id]) (after_node st id x).
Proof.
  intros Eo Hi Hx. destruct order_facts as (_ & Hn & _). rewrite Eo in Hn. apply NoDup_app in Hn as (_ & Hd & _).
  intros m Hm. apply elem_of_app in Hm as [Hm|Hm].
  - assert (Hne : m <> id) by (intros ->; apply (Hd id Hm); by left). destruct (Hi m Hm) as (y & Ey & Hv & Ha). exists y.
    rewrite (at_state_other st l id x m r) by done. split; [done|]. split; cbn [after_node fst snd].
    + intros v Hin. rewrite record_outputs_other by done. by apply Hv.
    + by rewrite btree_get_insert_ne.
  - apply list_elem_of_singleton in Hm as ->. exists x. split; [by rewrite (at_state_self st l id x r)|].
    split; cbn [after_node fst snd]; [|by rewrite btree_get_insert_eq].
    intros v Hv. apply record_outputs_get; [|done]. by eapply exec_ports_NoDup.
Qed.

(** The turns of the loop that succeed lead to a solution. *)
Definition turn (st : State) (id : Ulid) : RuntimeResult State := x ← at_state st id; Ok (after_node st id x).

Lemma turn_Ok st id x : at_state st id = Ok x -> turn st id = Ok (after_node st id x).
Proof. intros E. unfold turn. by rewrite E. Qed.

Lemma loop_sound l r st st' : o = l ++ r -> loop_inv l st -> try_fold turn st r = Ok st' -> loop_inv o st'.
Proof.
  revert l st. induction r as [|id r IH]; intros l st Eo Hi E; cbn [try_fold] in E.
  - injection E as <-. rewrite app_nil_r in Eo. by rewrite Eo.
  - apply bind_Ok in E as (st1 & E1 & E). unfold turn in E1. apply bind_Ok in E1 as (x & Ex & [= <-]).
    apply (IH (l ++ [id]) (after_node st id x)); [by rewrite <- (assoc_L (++))|by apply (loop_step l id r)|done].
Qed.

(** If every turn can be taken, the loop ends. *)
Lemma loop_total l r st :
  (forall l id r st, o = l ++ id :: r -> loop_inv l st -> exists x, at_state st id = Ok x) ->
  o = l ++ r -> loop_inv l st -> exists st', try_fold turn st r = Ok st'.
Proof.
  intros Hstep. revert l st. induction r as [|id r IH]; intros l st Eo Hi; cbn [try_fold]; [by exists st|].
  destruct (Hstep l id r st Eo Hi) as [x Ex]. rewrite (turn_Ok _ _ _ Ex). cbn [mbind Result_bind].
  apply (IH (l ++ [id])); [by rewrite <- (assoc_L (++))|by apply (loop_step l id r)].
Qed.

(** ** Solutions *)

Lemma edges_into_edges id e : e ∈ edges_into g id -> e ∈ edges g /\ to_node e = id.
Proof. intros [? ?]%list_elem_of_filter. done. Qed.

(** Two ways to look up values and artifacts that hold the executions of the nodes before a node agree
    on its execution, if those executions agree. *)
Lemma executions_agree l id r val art val' art' :
  o = l ++ id :: r ->
  (forall m, m ∈ l -> exists x, exec val art m = Ok x
     /\ ((forall v, v ∈ outputs x -> val (m, value_port v) = Some v) /\ art m = Some (artifact x))
     /\ ((forall v, v ∈ outputs x -> val' (m, value_port v) = Some v) /\ art' m = Some (artifact x))) ->
  exec val art id = exec val' art' id.
Proof.
  intros Eo Hl. apply execute_at_agree. intros e He. pose proof (sources_before l id r e Eo He) as Hs.
  apply edges_into_edges in He as [He _]. destruct (Hl _ Hs) as (x & Ex & [Hv Ha] & [Hv' Ha']).
  destruct (edge_source val art e x He Ex) as (v & _ & _ & Hin & <- & _). rewrite Ha, Ha', (Hv v Hin), (Hv' v Hin). done.
Qed.

Lemma in_order id : id ∈ o <-> id ∈ map node_id (nodes g).
Proof. destruct order_facts as (Hp & _). by rewrite Hp. Qed.

(** Solutions agree at every node. *)
Lemma solutions_agree val art val' art' :
  solves g rep executors externals val art -> solves g rep executors externals val' art' ->
  forall id, id ∈ map node_id (nodes g) -> exec val art id = exec val' art' id /\ art id = art' id.
Proof.
  intros Hs Hs'. assert (Hall : forall l r, o = l ++ r -> forall id, id ∈ l -> exec val art id = exec val' art' id).
  { intros l. induction l as [|n l IH] using rev_ind; intros r Eo id Hid; [by apply elem_of_nil in Hid|].
    rewrite <- (assoc_L (++)) in Eo. cbn [app] in Eo. apply elem_of_app in Hid as [Hid|Hid]; [by apply (IH (n :: r))|].
    apply list_elem_of_singleton in Hid as ->. apply (executions_agree l n r); [done|]. intros m Hm.
    assert (Hin : m ∈ map node_id (nodes g)) by (apply in_order; rewrite Eo; apply elem_of_app; by left).
    destruct (Hs m Hin) as (x & Ex & Hv). destruct (Hs' m Hin) as (y & Ey & Hv').
    assert (x = y) as <- by (rewrite (IH (n :: r) Eo m Hm) in Ex; congruence). eauto. }
  intros id Hid. assert (E : exec val art id = exec val' art' id) by (apply (Hall o []); [by rewrite app_nil_r|by apply in_order]).
  split; [done|]. destruct (Hs id Hid) as (x & Ex & _ & ->). destruct (Hs' id Hid) as (y & Ey & _ & ->). congruence.
Qed.

(** A solution carries the loop to its end. *)
Lemma solution_steps val art l id r st :
  solves g rep executors externals val art -> o = l ++ id :: r -> loop_inv l st ->
  (forall m, m ∈ l -> at_state st m = exec val art m) -> at_state st id = exec val art id.
Proof.
  intros Hs Eo Hi Hag. apply (executions_agree l id r); [done|]. intros m Hm.
  assert (Hin : m ∈ map node_id (nodes g)) by (apply in_order; rewrite Eo; apply elem_of_app; by left).
  destruct (Hi m Hm) as (x & Ex & Hr). destruct (Hs m Hin) as (y & Ey & Hy).
  assert (x = y) as <- by (unfold at_state in *; rewrite Hag in Ex by done; congruence). unfold recorded in Hr. eauto.
Qed.

Lemma loop_complete val art : solves g rep executors externals val art -> exists st', try_fold turn ([], []) o = Ok st'.
Proof.
  intros Hs. assert (Hall : forall r l st, o = l ++ r -> loop_inv l st -> (forall m, m ∈ l -> at_state st m = exec val art m) ->
    exists st', try_fold turn st r = Ok st').
  { intros r. induction r as [|id r IH]; intros l st Eo Hi Hag; cbn [try_fold]; [by exists st|].
    pose proof (solution_steps val art l id r st Hs Eo Hi Hag) as Est.
    assert (Hin : id ∈ map node_id (nodes g)) by (apply in_order; rewrite Eo; apply elem_of_app; right; by left).
    destruct (Hs id Hin) as (x & Ex & _). rewrite Ex in Est. rewrite (turn_Ok _ _ _ Est). cbn [mbind Result_bind].
    apply (IH (l ++ [id])); [by rewrite <- (assoc_L (++))|by apply (loop_step l id r)|]. intros m Hm.
    apply elem_of_app in Hm as [Hm|Hm]; [rewrite (at_state_other st l id x m r) by done; by apply Hag|].
    apply list_elem_of_singleton in Hm as ->. rewrite (at_state_self st l id x r) by done. by rewrite Est, Ex. }
  apply (Hall o []); [done|by intros ? ?%elem_of_nil..].
Qed.
(** ** The whole function *)

Lemma execute_at_ext node_of node_of' executor_of executor_of' external_of external_of' value_of artifact_of id :
  (forall n, node_of n = node_of' n) -> (forall n, executor_of n = executor_of' n) -> (forall n, external_of n = external_of' n) ->
  execute_at g rep node_of executor_of external_of value_of artifact_of id
  = execute_at g rep node_of' executor_of' external_of' value_of artifact_of id.
Proof.
  intros En Ex Ee. rewrite !execute_at_eq, En, Ex. destruct (ok_or (node_of' id) _); cbn [mbind Result_bind]; [|done].
  destruct (ok_or (executor_of' id) _); cbn [mbind Result_bind]; [|done]. destruct (try_map (edge_value _ _) _); cbn [mbind Result_bind]; [|done].
  rewrite (try_map_ext (external_value external_of) (external_value external_of')); [done|]. intros b _. unfold external_value. by rewrite Ee.
Qed.

Lemma register_among {K V} `{OrdLaws K} `{EqDecision K} (key : V -> K) l m :
  register key l = Ok m <-> NoDup (map key l) /\ register key l = Ok m /\ forall k, btree_get k m = among key l k.
Proof.
  split; [|tauto]. intros E. pose proof (register_spec key l) as Hr. rewrite E in Hr. destruct Hr as [Hn Hk].
  split; [done|]. split; [done|]. intros k. apply option_ext. intros v. by rewrite Hk, among_spec.
Qed.

Lemma register_exists {K V} `{OrdLaws K} `{EqDecision K} (key : V -> K) l : NoDup (map key l) -> exists m, register key l = Ok m.
Proof. intros Hn. pose proof (register_spec key l) as Hr. destruct (register key l) as [m|]; [by exists m|]. by destruct Hr. Qed.

Lemma check_declaration_Ok m d :
  (forall k, btree_get k m = among ext_input_id externals k) -> NoDup (map ext_input_id externals) ->
  check_declaration rep m d = Ok tt <-> exists x f,
    x ∈ externals /\ ext_input_id x = input_id d
    /\ binary_search_by ext_input_id (rep_external_inputs rep) (input_id d) = Some f
    /\ ext_value_type x = input_value_type d /\ ext_value_type x = ext_value_type f /\ ext_content_hash x = ext_content_hash f.
Proof.
  intros Hm Hn. unfold check_declaration. rewrite bind_Ok. setoid_rewrite bind_Ok. setoid_rewrite ok_or_Ok. setoid_rewrite fail_if_Ok.
  setoid_rewrite orb_false_iff. setoid_rewrite orb_false_iff. setoid_rewrite negb_false_iff. setoid_rewrite bool_decide_eq_true.
  rewrite Hm. setoid_rewrite (among_spec ext_input_id externals (input_id d) _ Hn). naive_solver.
Qed.

Lemma check_declarations_Ok m l :
  try_fold (fun _ declaration => check_declaration rep m declaration) tt l = Ok tt <-> forall d, d ∈ l -> check_declaration rep m d = Ok tt.
Proof.
  induction l as [|d l IH]; cbn [try_fold].
  { split; [by intros _ d ?%elem_of_nil|done]. }
  rewrite bind_Ok. split.
  - intros ([] & Ed & El) d' Hd'. apply elem_of_cons in Hd' as [->|Hd']; [done|]. by apply IH.
  - intros Hall. exists tt. split; [apply Hall; by left|]. apply IH. intros d' Hd'. apply Hall. by right.
Qed.

Lemma external_registry_Ok m :
  external_input_registry g rep externals = Ok m <->
  register ext_input_id externals = Ok m /\ List.length externals = List.length (external_inputs g)
  /\ forall d, d ∈ external_inputs g -> check_declaration rep m d = Ok tt.
Proof.
  unfold external_input_registry. destruct (Nat.eqb_spec (List.length externals) (List.length (external_inputs g))) as [E|]; cbn [negb]; [|by split; [|intros (_ & ? & _)]].
  rewrite bind_Ok. split.
  - intros (m' & Em & E'). apply bind_Ok in E' as ([] & Ec & [= <-]). split; [done|]. split; [done|]. by apply check_declarations_Ok.
  - intros (Em & _ & Hc). exists m. split; [done|]. apply bind_Ok. exists tt. split; [by apply check_declarations_Ok|done].
Qed.

Lemma take_artifacts_Ok l arts acc ordered rest :
  NoDup l -> try_fold take_artifact (arts, acc) l = Ok (rest, ordered) ->
  exists taken, ordered = acc ++ taken /\ Forall2 (fun n a => btree_get n arts = Some a) l taken.
Proof.
  intros Hn. revert arts acc. induction Hn as [|n l Hnl Hn IH]; intros arts acc E; cbn [try_fold take_artifact] in E.
  - injection E as <- <-. exists []. split; [by rewrite app_nil_r|constructor].
  - destruct (btree_get n arts) as [a|] eqn:Ea; [|done]. cbn [ok_or mbind Result_bind] in E.
    apply IH in E as (taken & -> & Hf). exists (a :: taken). split; [by rewrite <- (assoc_L (++))|]. constructor; [done|].
    apply Forall2_same_length_lookup_2; [by apply Forall2_length in Hf|]. intros k m b Hm Hb.
    pose proof (Forall2_lookup_lr _ _ _ _ _ _ Hf Hm Hb) as Hk. cbv beta in Hk. rewrite btree_get_remove_ne in Hk; [done|].
    intros ->. apply Hnl, list_elem_of_lookup. by exists k.
Qed.

Lemma take_artifacts_total l arts acc :
  NoDup l -> (forall n, n ∈ l -> is_Some (btree_get n arts)) -> exists rest ordered, try_fold take_artifact (arts, acc) l = Ok (rest, ordered).
Proof.
  intros Hn. revert arts acc. induction Hn as [|n l Hnl Hn IH]; intros arts acc Hs; cbn [try_fold take_artifact]; [eauto|].
  destruct (Hs n ltac:(left)) as [a ->]. cbn [ok_or mbind Result_bind]. apply IH. intros m Hm.
  rewrite btree_get_remove_ne; [apply Hs; by right|]. by intros ->.
Qed.

Lemma loop_inv_solves st : loop_inv o st -> solves g rep executors externals (fun k => btree_get k st.1) (fun n => btree_get n st.2).
Proof. intros Hi id Hid. apply Hi. by apply in_order. Qed.

(** The loop of the code takes these turns. *)
Lemma step_is_turn ms ns st id :
  (forall k, btree_get k ms = among executor_node_id executors k) -> (forall k, btree_get k ns = among ext_input_id externals k) ->
  node_step g rep ms ns st id = turn st id.
Proof.
  intros Hm Hn. destruct st as [values arts]. unfold node_step, turn, at_state, execution, after_node. cbn [fst snd].
  rewrite (execute_at_ext _ (among node_id (nodes g)) _ (among executor_node_id executors) _ (among ext_input_id externals)) by (done || apply research_nodes_get).
  done.
Qed.

Lemma steps_are_turns ms ns l st :
  (forall k, btree_get k ms = among executor_node_id executors k) -> (forall k, btree_get k ns = among ext_input_id externals k) ->
  try_fold (node_step g rep ms ns) st l = try_fold turn st l.
Proof.
  intros Hm Hn. revert st. induction l as [|id l IH]; intros st; cbn [try_fold]; [done|].
  rewrite step_is_turn by done. destruct (turn st id); cbn [mbind Result_bind]; [apply IH|done].
Qed.

Definition the_result (identity : ExecutionInstanceIdentity) (ordered : list NativeNodeArtifact) : NativeExecutionResult :=
  {| result_identity := identity; artifacts := ordered; result_digest := digest (result_bytes (rep_digest rep) ordered) |}.

(** What the function computes once the checks have passed: the loop, then the artifacts in order. *)
Lemma execute_graph_loop identity :
  reproducibility identity = rep -> checked g rep executors externals ->
  execute_native_graph_with_external_inputs g identity executors externals =
    ('(values, arts) ← try_fold turn ([], []) o;
     '(_, ordered) ← try_fold take_artifact (arts, []) o;
     Ok (the_result identity ordered)).
Proof.
  intros Er [Cg Cn Co Ce Ci Cf]. unfold execute_native_graph_with_external_inputs. rewrite Er, bool_decide_true by done.
  rewrite Cn, Nat.eqb_refl. cbn [negb orb]. destruct (register_exists ext_input_id externals Ci) as [ns Ens].
  destruct (register_exists executor_node_id executors Co) as [ms Ems].
  pose proof (proj1 (register_among _ _ _) Ens) as (_ & _ & Hns). pose proof (proj1 (register_among _ _ _) Ems) as (_ & _ & Hms).
  rewrite (proj2 (external_registry_Ok ns)).
  - cbn [mbind Result_bind]. unfold executor_registry. rewrite Ems. cbn [mbind Result_bind]. by rewrite (steps_are_turns ms ns).
  - split; [done|]. split; [done|]. intros d Hd. apply check_declaration_Ok; [done..|]. by apply Cf.
Qed.

Lemma execute_graph_checked identity result :
  reproducibility identity = rep -> execute_native_graph_with_external_inputs g identity executors externals = Ok result ->
  checked g rep executors externals.
Proof.
  intros Er E. unfold execute_native_graph_with_external_inputs in E. rewrite Er in E.
  case_bool_decide as Cg; [|done]. destruct (Nat.eqb_spec (List.length executors) (List.length (nodes g))) as [Cn|]; [|done]. cbn [negb orb] in E.
  apply bind_Ok in E as (ns & (Ens & Ce & Cf)%external_registry_Ok & E). apply bind_Ok in E as (ms & Ems & _).
  apply register_among in Ens as (Ci & Ens & Hns). apply register_among in Ems as (Co & _ & _). split; [done..|].
  intros d Hd. by apply (check_declaration_Ok ns), Cf.
Qed.

Lemma execute_graph_spec identity result :
  reproducibility identity = rep ->
  execute_native_graph_with_external_inputs g identity executors externals = Ok result <->
  checked g rep executors externals /\ exists val art, solves g rep executors externals val art
    /\ Forall2 (fun n a => art n = Some a) o (artifacts result) /\ result = the_result identity (artifacts result).
Proof.
  intros Er. destruct order_facts as (_ & Hnd & _). split.
  - intros E. pose proof (execute_graph_checked identity result Er E) as Hc. split; [done|].
    rewrite (execute_graph_loop identity Er Hc) in E. apply bind_Ok in E as ([values arts] & El & E).
    apply bind_Ok in E as ([rest ordered] & Et & [= <-]). apply (loop_sound [] o) in El; [|done|by intros ? ?%elem_of_nil].
    exists (fun k => btree_get k values), (fun n => btree_get n arts). split; [exact (loop_inv_solves (values, arts) El)|].
    apply take_artifacts_Ok in Et as (taken & -> & Hf); [|done]. by split.
  - intros (Hc & val & art & Hs & Hf & ->). rewrite (execute_graph_loop identity Er Hc).
    destruct (loop_complete val art Hs) as [[values arts] El]. rewrite El. cbn [mbind Result_bind].
    apply (loop_sound [] o) in El; [|done|by intros ? ?%elem_of_nil]. pose proof (loop_inv_solves _ El) as Hs'. cbn [fst snd] in Hs'.
    destruct (take_artifacts_total o arts [] Hnd) as (rest & ordered & Et).
    { intros n Hn. destruct (El n Hn) as (x & _ & _ & Ha). by exists (artifact x). }
    rewrite Et. cbn [mbind Result_bind the_result artifacts]. do 2 f_equal.
    apply take_artifacts_Ok in Et as (taken & -> & Ht); [|done]. cbn [app].
    apply list_eq. intros k. destruct (o !! k) as [n|] eqn:Ek.
    + destruct (Forall2_lookup_l _ _ _ _ _ Hf Ek) as (a & -> & Ha). destruct (Forall2_lookup_l _ _ _ _ _ Ht Ek) as (b & -> & Hb).
      destruct (solutions_agree _ _ _ _ Hs Hs' n) as [_ E]; [apply in_order, list_elem_of_lookup; by exists k|]. congruence.
    + apply lookup_ge_None in Ek. rewrite (lookup_ge_None_2 (artifacts result)), (lookup_ge_None_2 taken); [done|..];
        [apply Forall2_length in Ht|apply Forall2_length in Hf]; lia.
Qed.
(** ** Executors that honour their contracts *)

(** Given a value with a payload for every input port, the executor returns a value with a payload for
    every output port, in any order. *)
Definition honours (n : ResearchNode) (x : NativeNode) : Prop :=
  forall inputs, covers conforms inputs (input_types (contract n)) = true -> (forall v, v ∈ inputs -> payload v <> []) ->
  exists outs, run_node x {| request_node := n; request_identity := rep; request_inputs := inputs |} = Ok outs
    /\ map (fun v => (value_port v, value_type v)) outs ≡ₚ map (fun p => (port_name p, port_value_type p)) (output_types (contract n))
    /\ forall v, v ∈ outs -> payload v <> [].

Record ready : Prop := {
  ready_checked : checked g rep executors externals;
  ready_executors : forall n, n ∈ nodes g -> exists x, x ∈ executors /\ executor_node_id x = node_id n
    /\ implementation rep (node_id n) = Some (executor_digest x) /\ honours n x;
  ready_payloads : forall x, x ∈ externals -> ext_payload x <> [];
  ready_ports : forall n p, n ∈ nodes g -> p ∈ input_types (contract n) -> ensure_symbol (port_name p) = Ok tt
}.

Lemma symbol_trim s : ensure_symbol s = Ok tt -> s <> EmptyString /\ trim s = s.
Proof.
  intros E. unfold ensure_symbol in E. apply fail_if_Ok in E. breflect. split; [done|].
  assert (Hs : forallb symbol_byte (as_bytes s) = true) by done.
  assert (Hany : forall ps b l, forallb (fun p => match p with a :: _ => negb (symbol_byte a) | [] => false end) ps = true ->
    symbol_byte b = true -> strip_any ps (b :: l) = None).
  { intros ps b l. induction ps as [|p ps IH]; cbn [strip_any forallb]; [done|]. intros [Hp Hps]%andb_true_iff Hb.
    destruct p as [|a p]; [done|]. cbn [strip_prefix]. destruct (Byte.eqb a b) eqn:Eab; [|by apply IH].
    apply Byte.byte_dec_bl in Eab as ->. by rewrite Hb in Hp. }
  assert (Hall : forall ps l, forallb (fun p => match p with a :: _ => negb (symbol_byte a) | [] => false end) ps = true ->
    forallb symbol_byte l = true -> forall f, strip_all f ps l = l).
  { intros ps l Hp Hl f. destruct f as [|f]; [done|]. cbn [strip_all]. destruct l as [|b l].
    - replace (strip_any ps []) with (@None (list byte)); [done|]. clear -Hp. induction ps as [|p ps IH]; [done|]. cbn in *.
      apply andb_true_iff in Hp as [Hp Hps]. destruct p; [done|]. by apply IH.
    - cbn [forallb] in Hl. apply andb_true_iff in Hl as [Hb _]. by rewrite Hany. }
  unfold trim, trim_end_bytes, trim_start_bytes. rewrite (Hall white_space) by (done || by vm_compute).
  rewrite (Hall (map (@rev byte) white_space)); [by rewrite rev_involutive, string_of_list_byte_of_string|by vm_compute|].
  rewrite forallb_forall in *. intros b Hb. apply Hs. by apply in_rev.
Qed.

Lemma named_value name t bytes :
  ensure_symbol name = Ok tt -> bytes <> [] ->
  native_port_value_new name t bytes = Ok {| value_port := name; value_type := t; payload := bytes; value_hash := digest bytes |}.
Proof.
  intros [Hne Ht]%symbol_trim Hb. apply native_port_value_new_Ok. split; [|done]. unfold unnamed_or_empty.
  by rewrite (bool_decide_false _ Hne), (bool_decide_true _ Ht), (bool_decide_false _ Hb).
Qed.

Lemma edge_value_payload val art e p : edge_value val art e = Ok p -> value_port p.1 = to_port e /\ payload p.1 <> [].
Proof.
  unfold edge_value. intros E. apply bind_Ok in E as (src & _ & E). apply bind_Ok in E as (v & Ev & E). apply bind_Ok in E as (a & _ & [= <-]).
  apply native_port_value_new_Ok in Ev as [Hu ->]. cbn. split; [done|]. unfold unnamed_or_empty in Hu.
  apply orb_false_iff in Hu as [_ Hb]. by apply bool_decide_eq_false in Hb.
Qed.

Lemma external_value_payload ext b p : external_value ext b = Ok p -> value_port p.1 = binding_to_port b /\ payload p.1 <> [].
Proof.
  unfold external_value. intros E. apply bind_Ok in E as (src & _ & E). apply bind_Ok in E as (v & Ev & [= <-]).
  apply native_port_value_new_Ok in Ev as [Hu ->]. cbn. split; [done|]. unfold unnamed_or_empty in Hu.
  apply orb_false_iff in Hu as [_ Hb]. by apply bool_decide_eq_false in Hb.
Qed.

Lemma elem_of_sort_by_key {A K} `{Ord K} (key : A -> K) l x : x ∈ sort_by_key key l <-> x ∈ l.
Proof. unfold sort_by_key. by rewrite sort_by_perm. Qed.

(** Executions of executors that honour their contracts leave payloads. *)
Lemma exec_payloads val art id ex :
  ready -> exec val art id = Ok ex -> forall v, v ∈ outputs ex -> payload v <> [].
Proof.
  intros [Hr Hx _ _]. unfold execution. rewrite execute_at_eq. intros E.
  apply bind_Ok in E as (node & En & E). apply ok_or_Ok, among_spec in En as [Hn <-]; [|exact ids_NoDup].
  apply bind_Ok in E as (x & Ex & E). apply ok_or_Ok in Ex. apply bind_Ok in E as (ps & Eps & E). apply bind_Ok in E as (qs & Eqs & E).
  destruct (Hx node Hn) as (x' & Hx' & Ex' & _ & Hh). unfold execute_native_node in E. destruct (_ || _) eqn:Eid; [done|].
  destruct (covers conforms (sort_by_key _ _) (input_types _)) eqn:Ec; [|done]. cbn [negb] in E.
  apply bind_Ok in E as (outs & Er & E). destruct (negb _) in E; [done|]. injection E as <-. cbn [outputs].
  intros v Hv. apply elem_of_sort_by_key in Hv.
  assert (Hin : forall u, u ∈ sort_by_key value_port (map fst (ps ++ qs)) -> payload u <> []).
  { intros u Hu. apply elem_of_sort_by_key, list_elem_of_fmap in Hu as (p & -> & Hp). apply elem_of_app in Hp as [Hp|Hp].
    - apply try_map_Ok in Eps. apply list_elem_of_lookup in Hp as [k Hk]. destruct (Forall2_lookup_r _ _ _ _ _ Eps Hk) as (e & _ & Ee).
      by apply edge_value_payload in Ee as [_ ?].
    - apply try_map_Ok in Eqs. apply list_elem_of_lookup in Hp as [k Hk]. destruct (Forall2_lookup_r _ _ _ _ _ Eqs Hk) as (e & _ & Ee).
      by apply external_value_payload in Ee as [_ ?]. }
  destruct Hr as [_ _ Hnd _ _ _].
  assert (x = x') as -> by (rewrite (proj2 (among_spec executor_node_id executors (node_id node) x' Hnd) (conj Hx' Ex')) in Ex; congruence).
  destruct (Hh _ Ec Hin) as (outs' & Er' & _ & Hp). rewrite Er in Er'. injection Er' as ->. by apply Hp.
Qed.

(** *** What reaches a node *)

(** The pairs of port and type that edges and bindings bring to a node are those of its input ports. *)
Lemma inputs_cover node inputs :
  node ∈ nodes g ->
  map value_port inputs = map to_port (edges_into g (node_id node)) ++ map binding_to_port (bindings_into g (node_id node)) ->
  (forall v, v ∈ inputs -> exists p, p ∈ input_types (contract node) /\ port_name p = value_port v /\ port_value_type p = value_type v) ->
  covers conforms (sort_by_key value_port inputs) (input_types (contract node)) = true.
Proof.
  intros Hn Hports Htyped. rewrite list.Forall_forall in Hmade. destruct (made_sorted _ (Hmade node Hn)) as [Sp _].
  pose proof (valid_wired _ _ _ _ graph_valid) as [_ _ Honce Hbound _].
  assert (Hnd : NoDup (map value_port inputs)).
  { rewrite Hports. apply (NoDup_fmap_1 (pair (node_id node))). rewrite fmap_app.
    unfold edges_into, bindings_into. rewrite !pairs_into. unfold all_targets in Honce.
    refine (sublist_NoDup _ _ Honce _). by apply sublist_app; apply map_filter_sublist. }
  assert (Hsn : NoDup (map port_name (input_types (contract node)))) by by apply (strict_NoDup port_name).
  apply conforms_spec. apply (sorted_cover value_port value_type port_name port_value_type inputs _ Sp).
  apply NoDup_Permutation.
  - apply (NoDup_fmap_1 fst). change (NoDup (map fst (map (fun v => (value_port v, value_type v)) inputs))). by rewrite map_map.
  - apply (NoDup_fmap_1 fst). change (NoDup (map fst (map (fun p => (port_name p, port_value_type p)) (input_types (contract node))))). by rewrite map_map.
  - intros [name t]. split.
    + intros (v & [= -> ->] & Hv)%list_elem_of_fmap. destruct (Htyped v Hv) as (p & Hp & <- & <-).
      by apply (list_elem_of_fmap_2 (fun p => (port_name p, port_value_type p))).
    + intros (p & [= -> ->] & Hp)%list_elem_of_fmap.
      assert (Hin : port_name p ∈ map value_port inputs).
      { rewrite Hports. assert (Ht : (node_id node, port_name p) ∈ all_targets (edges g) (external_input_bindings g)).
        { apply Hbound; [|done]. by rewrite node_map_values. }
        unfold all_targets in Ht. apply elem_of_app in Ht as [Ht|Ht]; apply elem_of_app; [left|right];
          apply list_elem_of_fmap in Ht as (e & Ee & He); [unfold edge_target in Ee|unfold external_target in Ee]; injection Ee as E1 E2; rewrite E2;
          [apply (list_elem_of_fmap_2 to_port)|apply (list_elem_of_fmap_2 binding_to_port)]; by apply list_elem_of_filter. }
      apply list_elem_of_fmap in Hin as (v & Ev & Hv). destruct (Htyped v Hv) as (q & Hq & Eq & Et).
      assert (p = q) as ->.
      { apply list_elem_of_lookup in Hp as [a Ha], Hq as [b Hb]. assert (a = b); [|congruence].
        apply (NoDup_lookup (port_name <$> input_types (contract node)) a b (port_name p) Hsn); rewrite list_lookup_fmap; [by rewrite Ha|by rewrite Hb, Ev, <- Eq]. }
      rewrite Ev, Et. by apply (list_elem_of_fmap_2 (fun v => (value_port v, value_type v))).
Qed.
Lemma node_unique n m : n ∈ nodes g -> m ∈ nodes g -> node_id n = node_id m -> n = m.
Proof.
  intros Hn Hm E. pose proof (proj2 (among_spec node_id (nodes g) _ n ids_NoDup) (conj Hn E)) as En.
  pose proof (proj2 (among_spec node_id (nodes g) _ m ids_NoDup) (conj Hm eq_refl)) as Em. congruence.
Qed.

(** [p] fits an input port of the node under the name [name]. *)
Definition fits (node : ResearchNode) (name : string) (p : NativePortValue * ContentHash) : Prop :=
  value_port p.1 = name /\ payload p.1 <> []
  /\ exists q, q ∈ input_types (contract node) /\ port_name q = value_port p.1 /\ port_value_type q = value_type p.1.

Lemma edge_value_ready l node r st e :
  ready -> node ∈ nodes g -> o = l ++ node_id node :: r -> loop_inv l st -> e ∈ edges_into g (node_id node) ->
  exists p, edge_value (fun k => btree_get k st.1) (fun n => btree_get n st.2) e = Ok p /\ fits node (to_port e) p.
Proof.
  intros Hr Hn Eo Hi He. pose proof (sources_before l _ r e Eo He) as Hs. apply edges_into_edges in He as [He Ht].
  destruct (Hi _ Hs) as (x & Ex & Hv & Ha). destruct (edge_source _ _ e x He Ex) as (v & target & q & Hin & Ev & Htn & Etn & Hq & Eq & Ety).
  assert (target = node) as -> by (apply node_unique; congruence).
  pose proof (exec_payloads _ _ _ _ Hr Ex v Hin) as Hp. pose proof (ready_ports Hr node q Hn Hq) as Hsym. rewrite Eq in Hsym.
  eexists. unfold edge_value. rewrite <- Ev, (Hv v Hin), Ha. cbn [ok_or mbind Result_bind]. rewrite named_value by done. cbn [mbind Result_bind].
  split; [reflexivity|]. split; [done|]. split; [done|]. exists q. cbn. by rewrite Eq, Ety.
Qed.

Lemma declared_input id d : btree_get id (declared (external_inputs g)) = Some d -> d ∈ external_inputs g /\ input_id d = id.
Proof.
  intros E. destruct (new_graph_sorted _ _ _ _ Hg) as [_ Sx]. unfold declared in E. rewrite btree_collect_sorted in E.
  - apply btree_get_elem, list_elem_of_fmap in E as (d' & [= -> ->] & Hd). done.
  - unfold btree_wf. change (StronglySorted (fun a b => cmp a b = Lt) (fst <$> map (fun input => (input_id input, input)) (external_inputs g))).
    change (fst <$> map ?f ?l) with (map fst (map f l)). rewrite map_map. by apply (StronglySorted_keys input_id).
Qed.

Lemma external_value_ready node b :
  ready -> node ∈ nodes g -> b ∈ bindings_into g (node_id node) ->
  exists p, external_value (among ext_input_id externals) b = Ok p /\ fits node (binding_to_port b) p.
Proof.
  intros Hr Hn [Eb Hb]%list_elem_of_filter.
  pose proof (ww_bindings _ _ _ _ (valid_wired _ _ _ _ graph_valid)) as Hw. rewrite list.Forall_forall in Hw.
  destruct (Hw b Hb) as (d & target & q & Ed & Et & Eq & Ety). apply declared_input in Ed as [Hd Ed].
  apply btree_get_elem, list_elem_of_fmap in Et as (target' & [= Et ->] & Ht). assert (target' = node) as -> by (apply node_unique; congruence).
  apply port_Ok in Eq as [Hq Eq]. destruct (ready_checked Hr) as [_ _ _ _ Hnd Hf]. destruct (Hf d Hd) as (x & f & Hx & Exd & _ & Exty & _ & _).
  pose proof (ready_ports Hr node q Hn Hq) as Hsym. rewrite Eq in Hsym. pose proof (ready_payloads Hr x Hx) as Hp.
  eexists. unfold external_value. rewrite (proj2 (among_spec ext_input_id externals (binding_input_id b) x Hnd)) by (split; congruence).
  cbn [ok_or mbind Result_bind]. rewrite named_value by done. cbn [mbind Result_bind].
  split; [reflexivity|]. split; [done|]. split; [done|]. exists q. cbn. by rewrite Eq, <- Ety, <- Exty.
Qed.

Lemma try_map_total {E A B} (f : A -> Result E B) (P : A -> B -> Prop) l :
  (forall a, a ∈ l -> exists b, f a = Ok b /\ P a b) -> exists bs, try_map f l = Ok bs /\ Forall2 P l bs.
Proof.
  induction l as [|a l IH]; intros Hf; cbn [try_map]; [exists []; by split; [|constructor]|].
  destruct (Hf a ltac:(left)) as (b & -> & Hb). destruct IH as (bs' & -> & Hbs); [intros c Hc; apply Hf; by right|].
  exists (b :: bs'). by split; [|constructor].
Qed.

Lemma fits_ports {A} (name : A -> string) node l ps : Forall2 (fun a p => fits node (name a) p) l ps -> map value_port (map fst ps) = map name l.
Proof. induction 1 as [|a p l ps [E _] _ IH]; cbn; [done|]. by rewrite E, IH. Qed.

Lemma fits_all {A} (name : A -> string) node l ps p : Forall2 (fun a p => fits node (name a) p) l ps -> p ∈ ps -> exists n, fits node n p.
Proof. intros Hf [k Hk]%list_elem_of_lookup. destruct (Forall2_lookup_r _ _ _ _ _ Hf Hk) as (a & _ & Ha). by exists (name a). Qed.

Lemma progress l id r st : ready -> o = l ++ id :: r -> loop_inv l st -> exists x, at_state st id = Ok x.
Proof.
  intros Hr Eo Hi. assert (Hid : id ∈ map node_id (nodes g)) by (apply in_order; rewrite Eo; apply elem_of_app; right; by left).
  apply list_elem_of_fmap in Hid as (node & -> & Hn). destruct (ready_executors Hr node Hn) as (x & Hx & Ex & Ei & Hh).
  destruct (try_map_total _ _ (edges_into g (node_id node)) (fun e He => edge_value_ready l node r st e Hr Hn Eo Hi He)) as (ps & Eps & Fps).
  destruct (try_map_total _ _ (bindings_into g (node_id node)) (fun b Hb => external_value_ready node b Hr Hn Hb)) as (qs & Eqs & Fqs).
  destruct (ready_checked Hr) as [_ _ Hnd _ _ _].
  unfold at_state, execution. rewrite execute_at_eq, (proj2 (among_spec node_id (nodes g) _ node ids_NoDup) (conj Hn eq_refl)).
  rewrite (proj2 (among_spec executor_node_id executors _ x Hnd) (conj Hx Ex)). cbn [ok_or mbind Result_bind]. rewrite Eps, Eqs. cbn [mbind Result_bind].
  assert (Hall : forall p, p ∈ ps ++ qs -> exists n, fits node n p).
  { intros p Hp. apply elem_of_app in Hp as [Hp|Hp]; [exact (fits_all to_port node _ ps p Fps Hp)|exact (fits_all binding_to_port node _ qs p Fqs Hp)]. }
  assert (Hc : covers conforms (sort_by_key value_port (map fst (ps ++ qs))) (input_types (contract node)) = true).
  { apply inputs_cover; [done|by rewrite !map_app, (fits_ports to_port node _ ps Fps), (fits_ports binding_to_port node _ qs Fqs)|].
    intros v (p & -> & Hp)%list_elem_of_fmap. by destruct (Hall p Hp) as (n & _ & _ & Hq). }
  assert (Hp : forall v, v ∈ sort_by_key value_port (map fst (ps ++ qs)) -> payload v <> []).
  { intros v Hv. apply elem_of_sort_by_key, list_elem_of_fmap in Hv as (p & -> & Hp). by destruct (Hall p Hp) as (n & _ & Hb & _). }
  unfold execute_native_node. rewrite (bool_decide_true _ Ex), (bool_decide_true _ Ei), Hc. cbn [negb orb].
  destruct (Hh _ Hc Hp) as (outs & Er & Hperm & _). rewrite Er. cbn [mbind Result_bind].
  rewrite list.Forall_forall in Hmade. destruct (made_sorted _ (Hmade node Hn)) as [_ Sp].
  apply (sorted_cover value_port value_type port_name port_value_type outs _ Sp) in Hperm as [_ Hperm]. apply conforms_spec in Hperm.
  rewrite Hperm. cbn [negb]. eauto.
Qed.

Lemma execute_graph_total identity :
  reproducibility identity = rep -> ready ->
  exists result, execute_native_graph_with_external_inputs g identity executors externals = Ok result
    /\ map artifact_node (artifacts result) = o.
Proof.
  intros Er Hr. destruct order_facts as (_ & Hnd & _).
  destruct (loop_total [] o ([], [])) as [[values arts] El]; [intros; by apply (progress l id r)|done|by intros ? ?%elem_of_nil|].
  apply (loop_sound [] o) in El as Hs; [|done|by intros ? ?%elem_of_nil]. apply loop_inv_solves in Hs. cbn [fst snd] in Hs.
  destruct (take_artifacts_total o arts [] Hnd) as (rest & ordered & Et).
  { intros n Hn. destruct (Hs n) as (x & _ & _ & Ha); [by apply in_order|]. by exists (artifact x). }
  exists (the_result identity ordered). split.
  - rewrite execute_graph_loop by (done || exact (ready_checked Hr)). rewrite El. cbn [mbind Result_bind]. by rewrite Et.
  - apply take_artifacts_Ok in Et as (taken & -> & Hf); [|done]. cbn [the_result artifacts app].
    apply list_eq. intros k. rewrite list_lookup_fmap. destruct (o !! k) as [n|] eqn:Ek.
    + destruct (Forall2_lookup_l _ _ _ _ _ Hf Ek) as (a & -> & Ha). cbn. f_equal.
      destruct (Hs n) as (x & Ex & _ & Hx); [apply in_order, list_elem_of_lookup; by exists k|].
      apply exec_node in Ex as (_ & _ & _ & En & _). congruence.
    + apply lookup_ge_None in Ek. rewrite lookup_ge_None_2; [done|]. apply Forall2_length in Hf. lia.
Qed.
End flow.

(** ** From an accepted identity *)

Definition implementation_of (x : NativeNode) : NodeImplementation :=
  {| implemented_node := executor_node_id x; implementation_digest := executor_digest x |}.

Lemma perm_NoDup_map {A B} (f : A -> B) (l m : list A) : l ≡ₚ m -> NoDup (map f m) -> NoDup (map f l).
Proof. intros Hp Hn. change (NoDup (f <$> l)). by rewrite Hp. Qed.

(** The executors and external inputs that an identity was made for pass every check. *)
Lemma built_ready `{Sha256} `{Chrono} i xs bs g ri sb c rep executors externals :
  research_graph_new_with_external_inputs i xs bs = Ok g ->
  reproducibility_build g ri sb c = Ok rep ->
  map implementation_of executors ≡ₚ given_implementations ri -> externals ≡ₚ given_external_inputs ri ->
  (forall x, x ∈ externals -> ext_payload x <> []) ->
  (forall n p, n ∈ nodes g -> p ∈ input_types (contract n) -> ensure_symbol (port_name p) = Ok tt) ->
  (forall n x, n ∈ nodes g -> x ∈ executors -> executor_node_id x = node_id n -> honours rep n x) ->
  ready g rep executors externals.
Proof.
  intros Hg Hb Px Pe Hpay Hsym Hh. pose proof (new_graph_sorted _ _ _ _ Hg) as Sg. pose proof (build_spec g ri sb c Sg) as Hs.
  rewrite Hb in Hs. destruct Hs as [[Ci Cn _ _] Hf]. destruct Sg as [Sn Sx].
  assert (Nn : NoDup (map node_id (nodes g))) by by apply (strict_NoDup node_id).
  assert (Ni : NoDup (map input_id (external_inputs g))) by by apply (strict_NoDup input_id).
  assert (Pids : map executor_node_id executors ≡ₚ map node_id (nodes g)).
  { rewrite <- Cn. apply (Permutation_map implemented_node) in Px. by rewrite map_map in Px. }
  assert (Pins : map (fun b => (ext_input_id b, ext_value_type b)) externals ≡ₚ map (fun d => (input_id d, input_value_type d)) (external_inputs g)).
  { rewrite <- Ci. by apply Permutation_map. }
  assert (Pin : map ext_input_id externals ≡ₚ map input_id (external_inputs g)).
  { apply (Permutation_map fst) in Pins. by rewrite !map_map in Pins. }
  assert (Nx : NoDup (map ext_input_id externals)) by by rewrite Pin.
  assert (Sr : StronglySorted (fun a b => cmp (ext_input_id a) (ext_input_id b) = Lt) (rep_external_inputs rep)).
  { destruct Hf as (-> & _). apply strict_of_no_repeats; [apply sort_by_key_sorted|].
    apply (perm_NoDup_map _ _ externals); [|done]. unfold sort_by_key. by rewrite sort_by_perm, Pe. }
  assert (Si : StronglySorted (fun a b => cmp (implemented_node a) (implemented_node b) = Lt) (rep_implementations rep)).
  { destruct Hf as (_ & -> & _). apply strict_of_no_repeats; [apply sort_by_key_sorted|].
    apply (perm_NoDup_map _ _ (given_implementations ri)); [unfold sort_by_key; by rewrite sort_by_perm|]. by rewrite Cn. }
  split; [split| |done|done].
  - by destruct Hf as (_ & _ & _ & _ & _ & E & _).
  - apply Permutation_length in Pids. by rewrite !length_map in Pids.
  - by rewrite Pids.
  - apply Permutation_length in Pin. by rewrite !length_map in Pin.
  - done.
  - intros d Hd. assert (Hin : (input_id d, input_value_type d) ∈ map (fun b => (ext_input_id b, ext_value_type b)) externals).
    { rewrite Pins. by apply (list_elem_of_fmap_2 (fun d => (input_id d, input_value_type d))). }
    apply list_elem_of_fmap in Hin as (x & [= Ei Et] & Hx). exists x, x. split; [done|]. split; [done|]. split; [|done].
    apply binary_search_by_spec; [done|]. split; [|done]. destruct Hf as (-> & _). apply elem_of_sort_by_key. by rewrite <- Pe.
  - intros n Hn. assert (Hin : node_id n ∈ map executor_node_id executors) by (rewrite Pids; by apply (list_elem_of_fmap_2 node_id)).
    apply list_elem_of_fmap in Hin as (x & E & Hx). exists x. split; [done|]. split; [done|]. split; [|by apply Hh].
    rewrite E. apply implementation_spec; [done|]. destruct Hf as (_ & -> & _). apply elem_of_sort_by_key. rewrite <- Px.
    by apply (list_elem_of_fmap_2 implementation_of).
Qed.

(** ** Properties *)

(** C1. Native execution computes the dataflow of its graph: the result of running a graph is the unique
    solution of its dataflow equations - every node executed once, on exactly what its edges and external
    bindings bring it, every output recorded for its readers - with the artifacts in the order of
    execution; it is returned exactly when the checks hold and there is a solution. Neither the order of
    execution nor the order of the executors or inputs shows in the equations. *)
Theorem native_execution_is_dataflow `{Sha256} i xs bs g identity executors externals result :
  research_graph_new_with_external_inputs i xs bs = Ok g ->
  Forall (fun n => made (contract n)) (nodes g) -> Z.of_nat (List.length (edges g)) < 2 ^ 64 ->
  (execute_native_graph_with_external_inputs g identity executors externals = Ok result <->
   checked g (reproducibility identity) executors externals
   /\ exists val art, solves g (reproducibility identity) executors externals val art
     /\ Forall2 (fun n a => art n = Some a) (topological_order_field g) (artifacts result)
     /\ result = the_result (reproducibility identity) identity (artifacts result))
  /\ (forall val art val' art', solves g (reproducibility identity) executors externals val art ->
      solves g (reproducibility identity) executors externals val' art' ->
      forall id, id ∈ map node_id (nodes g) -> art id = art' id).
Proof.
  intros Hg Hm Hs. split; [by apply (execute_graph_spec g i xs bs)|].
  intros val art val' art' S S' id Hid. by apply (solutions_agree g i xs bs Hg Hs (reproducibility identity) executors externals val art val' art' S S').
Qed.

(** C7. Accepted runs succeed: for a graph and an identity that were accepted, if the executors and
    external inputs are those the identity was made for, in any order, and every executor honours the
    contract of its node, then the run ends with a result that has one artifact for every node, in the
    order of execution. *)
Theorem native_execution_succeeds `{Sha256} `{Chrono} i xs bs g ri sb c rep executors externals run_id :
  research_graph_new_with_external_inputs i xs bs = Ok g ->
  Forall (fun n => made (contract n)) (nodes g) -> Z.of_nat (List.length (edges g)) < 2 ^ 64 ->
  reproducibility_build g ri sb c = Ok rep ->
  map implementation_of executors ≡ₚ given_implementations ri -> externals ≡ₚ given_external_inputs ri ->
  (forall x, x ∈ externals -> ext_payload x <> []) ->
  (forall n p, n ∈ nodes g -> p ∈ input_types (contract n) -> ensure_symbol (port_name p) = Ok tt) ->
  (forall n x, n ∈ nodes g -> x ∈ executors -> executor_node_id x = node_id n -> honours rep n x) ->
  exists result, execute_native_graph_with_external_inputs g (from_reproducibility run_id rep) executors externals = Ok result
    /\ map artifact_node (artifacts result) = topological_order_field g.
Proof.
  intros Hg Hm Hs Hb Px Pe Hpay Hsym Hh. apply (execute_graph_total g i xs bs Hg Hm Hs rep); [done|].
  by apply (built_ready i xs bs g ri sb c).
Qed.

Section example.
Local Existing Instance sample_sha256.
Local Existing Instance sample_ulid_crate.
Local Existing Instance sample_chrono.
Local Existing Instance sample_chrono_laws.

(** Nodes that put a mark before the payloads they are given. *)
Definition sample_run (request : NativeNodeRequest) : RuntimeResult (list NativePortValue) :=
  value ← native_port_value_new "out" (sample_type "curve") (x2b :: flat_map payload (request_inputs request));
  Ok [value].

Definition sample_executors : list NativeNode :=
  [{| executor_node_id := sample_id "A"; executor_digest := sample_hash x0a; run_node := sample_run |};
   {| executor_node_id := sample_id "B"; executor_digest := sample_hash x0b; run_node := sample_run |}].

Definition sample_native_identity : ExecutionInstanceIdentity := from_reproducibility (sample_id "R") sample_identity.
Definition sample_native_result : RuntimeResult NativeExecutionResult :=
  execute_native_graph_with_external_inputs sample_graph_value sample_native_identity sample_executors [sample_external].

Example sample_native_run :
  (fun r => map artifact_node (artifacts r)) <$> sample_native_result = Ok [sample_id "A"; sample_id "B"]
  /\ is_ok (execute_native_graph sample_graph_value sample_native_identity sample_executors) = false
  /\ is_ok (execute_native_graph_with_external_inputs sample_graph_value sample_native_identity (take 1 sample_executors) [sample_external]) = false.
Proof. vm_compute. by repeat split. Qed.

Lemma sample_run_honours rep n : output_types (contract n) = [sample_port "out"] ->
  forall x, run_node x = sample_run -> honours rep n x.
Proof.
  intros Ho x Hx inputs _ _. rewrite Hx, Ho. eexists. split; [reflexivity|]. split; [reflexivity|].
  intros v Hv. apply list_elem_of_singleton in Hv as ->. done.
Qed.

Lemma sample_nodes_eq : nodes sample_graph_value = rev (in_nodes sample_graph_input).
Proof. vm_compute. reflexivity. Qed.

Lemma sample_contract_made id ins outs :
  is_ok (research_node_contract_new (sample_contract_input id ins outs)) = true -> made (sample_contract id ins outs).
Proof.
  intros V. exists (sample_contract_input id ins outs). unfold sample_contract.
  destruct (research_node_contract_new _); [done|discriminate V].
Qed.

Lemma sample_nodes_made : Forall (fun n => made (contract n)) (nodes sample_graph_value).
Proof. rewrite sample_nodes_eq. repeat (apply List.Forall_cons; [apply sample_contract_made; vm_compute; reflexivity|]). constructor. Qed.

Lemma sample_node_cases (P : ResearchNode -> Prop) : Forall P (rev (in_nodes sample_graph_input)) -> forall n, n ∈ nodes sample_graph_value -> P n.
Proof. rewrite sample_nodes_eq. by rewrite list.Forall_forall. Qed.

Lemma native_execution_succeeds_witness :
  exists result, sample_native_result = Ok result /\ map artifact_node (artifacts result) = topological_order_field sample_graph_value.
Proof.
  apply (native_execution_succeeds _ _ _ _ _ _ _ _ _ _ (sample_id "R") sample_graph_value_Ok sample_nodes_made eq_refl sample_identity_Ok).
  - apply Permutation_swap.
  - reflexivity.
  - intros x Hx. apply list_elem_of_singleton in Hx as ->. discriminate.
  - intros n p Hn. revert n Hn p.
    apply (sample_node_cases (fun n => forall p, p ∈ input_types (contract n) -> ensure_symbol (port_name p) = Ok tt)). repeat (apply List.Forall_cons; [|]); [..|constructor];
      intros p Hp; apply list_elem_of_singleton in Hp as ->; vm_compute; reflexivity.
  - intros n x Hn Hx _. apply sample_run_honours.
    + revert n Hn. apply (sample_node_cases (fun n => output_types (contract n) = [sample_port "out"])). repeat (apply List.Forall_cons; [reflexivity|]). constructor.
    + apply elem_of_cons in Hx as [->|Hx]; [reflexivity|]. apply list_elem_of_singleton in Hx as ->. reflexivity.
Defined.

Lemma native_execution_is_dataflow_witness :
  exists result, sample_native_result = Ok result
    /\ exists val art, solves sample_graph_value sample_identity sample_executors [sample_external] val art
      /\ Forall2 (fun n a => art n = Some a) (topological_order_field sample_graph_value) (artifacts result).
Proof.
  assert (V : is_ok sample_native_result = true) by (vm_compute; reflexivity).
  destruct sample_native_result as [result|] eqn:E; [|discriminate V]. exists result. split; [reflexivity|].
  destruct (native_execution_is_dataflow _ _ _ _ sample_native_identity sample_executors [sample_external] result
    sample_graph_value_Ok sample_nodes_made eq_refl) as [R _].
  apply R in E as (_ & val & art & S & F & _). exists val, art. split; [exact S|exact F].
Defined.
End example.
