(* ===== verification/NativeReplay.v ===== *)
(** * Comparing native results

    What equal digests of native results mean, and what [verify_native_replay] and [compare_experiments]
    of [crates/ficant-runtime/src/native_execution.rs] report. *)

From Stdlib Require Import ZArith Lia Strings.String.
From Stdlib Require Import Strings.Byte.
From stdpp Require Import base list option strings numbers sorting.
From S2P Require Import Prelude Machine Collections Primitives Codec Concrete ResearchGraph GraphOrder GraphWiring GraphConstruction RunJournal Runtime Evidence NativeIdentity NativeEnvelope NativeExec NativeDataflow.
Open Scope Z_scope.

(** ** Artifacts are addressed by their digests *)

(** The bytes behind the digest of an artifact, in terms of the artifact itself. *)
Definition artifact_content (identity : ContentHash) (a : NativeNodeArtifact) : list byte :=
  as_bytes "ficant/native-node-artifact/v2" ++ hash_bytes identity ++ push_str (ulid_str (artifact_node a))
  ++ hash_bytes (artifact_contract a) ++ hash_bytes (artifact_implementation a)
  ++ push_seq hash_bytes (input_artifacts a) ++ push_seq hash_bytes (output_hashes a) ++ hash_bytes (output_envelope_hash a).

Section digests.
Context `{UlidCrate} `{Sha256}.

Definition artifact_addressed (identity : ContentHash) (a : NativeNodeArtifact) : Prop :=
  artifact_digest a = digest (artifact_content identity a).

Definition wf_artifact (a : NativeNodeArtifact) : Prop :=
  wf_ulid (artifact_node a) /\ wf_hash (artifact_contract a) /\ wf_hash (artifact_implementation a)
  /\ wf_list wf_hash (input_artifacts a) /\ wf_list wf_hash (output_hashes a) /\ wf_hash (output_envelope_hash a)
  /\ wf_hash (artifact_digest a).

Lemma artifact_content_inj d e a b :
  wf_hash d -> wf_hash e -> wf_artifact a -> wf_artifact b -> artifact_digest a = artifact_digest b ->
  artifact_content d a = artifact_content e b -> d = e /\ a = b.
Proof.
  intros Wd We (A1 & A2 & A3 & A4 & A5 & A6 & _) (B1 & B2 & B3 & B4 & B5 & B6 & _) Ed E. unfold artifact_content in E. apply app_inv_head in E.
  sd_step sd_hash E; [|done..]. sd_step sd_str E; [|by apply ulid_wf_str..]. sd_step sd_hash E; [|done..]. sd_step sd_hash E; [|done..].
  sd_step (sd_seq _ _ sd_hash) E; [|done..]. sd_step (sd_seq _ _ sd_hash) E; [|done..]. apply hash_eq in E. apply ulid_eq in F0.
  split; [done|]. destruct a, b. cbn in *. by subst.
Qed.

Lemma artifacts_identify d e l m :
  wf_hash d -> wf_hash e -> Forall wf_artifact l -> Forall wf_artifact m -> Forall (artifact_addressed d) l -> Forall (artifact_addressed e) m ->
  map artifact_digest l = map artifact_digest m -> l = m \/ collision.
Proof.
  intros Wd We Hl. revert m. induction Hl as [|a l Ha Hl IH]; intros m Hm Al Am E; destruct Hm as [|b m Hb Hm]; try done; [by left|].
  apply Forall_cons in Al as [Aa Al], Am as [Ab Am]. cbn [map] in E. pose proof (f_equal head E) as Eh. cbn in Eh.
  assert (Eab : artifact_digest a = artifact_digest b) by congruence. apply (f_equal tail) in E. cbn [tail] in E.
  destruct (IH m Hm Al Am E) as [->|]; [|by right]. pose proof Eab as Ec. rewrite Aa, Ab in Ec. apply digest_inj in Ec as [Ec|]; [left|by right].
  by apply artifact_content_inj in Ec as [_ ->].
Qed.

Lemma flat_hashes_inj (l m : list NativeNodeArtifact) :
  Forall wf_artifact l -> Forall wf_artifact m ->
  flat_map (fun a => hash_bytes (artifact_digest a)) l = flat_map (fun a => hash_bytes (artifact_digest a)) m ->
  map artifact_digest l = map artifact_digest m.
Proof.
  intros Hl. revert m. induction Hl as [|a l Ha Hl IH]; intros m Hm E; destruct Hm as [|b m Hb Hm]; cbn [flat_map map] in *; try done.
  - destruct Hb as (_ & _ & _ & _ & _ & _ & Wb). apply (f_equal (@List.length _)) in E. rewrite length_app, Wb in E. cbn in E. lia.
  - destruct Ha as (_ & _ & _ & _ & _ & _ & Wa). apply (f_equal (@List.length _)) in E. rewrite length_app, Wa in E. cbn in E. lia.
  - destruct Ha as (_ & _ & _ & _ & _ & _ & Wa), Hb as (_ & _ & _ & _ & _ & _ & Wb). apply sd_hash in E as [-> E]; [|done..]. f_equal. by apply IH.
Qed.

Lemma result_bytes_inj d e l m :
  wf_hash d -> wf_hash e -> Forall wf_artifact l -> Forall wf_artifact m -> result_bytes d l = result_bytes e m ->
  d = e /\ map artifact_digest l = map artifact_digest m.
Proof.
  intros Wd We Hl Hm E. unfold result_bytes in E. apply app_inv_head in E. apply sd_hash in E as [-> E]; [|done..]. split; [done|].
  by apply flat_hashes_inj.
Qed.

Lemma execute_native_node_addressed node rep x inputs hashes ex :
  execute_native_node node rep x inputs hashes = Ok ex -> artifact_addressed (rep_digest rep) (artifact ex).
Proof.
  unfold execute_native_node. intros E. destruct (_ || _); [done|]. destruct (negb (covers _ _ _)); [done|].
  apply bind_Ok in E as (outs & _ & E). destruct (negb _); [done|]. by injection E as <-.
Qed.

Lemma result_addressed i xs bs g identity executors externals result :
  research_graph_new_with_external_inputs i xs bs = Ok g ->
  Forall (fun n => made (contract n)) (nodes g) -> Z.of_nat (List.length (edges g)) < 2 ^ 64 ->
  execute_native_graph_with_external_inputs g identity executors externals = Ok result ->
  result_identity result = identity /\ Forall (artifact_addressed (rep_digest (reproducibility identity))) (artifacts result)
  /\ result_digest result = digest (result_bytes (rep_digest (reproducibility identity)) (artifacts result)).
Proof.
  intros Hg Hm Hs E. apply (execute_graph_spec g i xs bs Hg Hm Hs (reproducibility identity)) in E as (_ & val & art & S & Hf & ->); [|done].
  split; [done|]. split; [|done]. cbn [the_result artifacts]. apply list.Forall_forall. intros a Ha. apply list_elem_of_lookup in Ha as [k Hk].
  destruct (Forall2_lookup_r _ _ _ _ _ Hf Hk) as (n & Hn & Ea).
  destruct (S n) as (x & Ex & _ & Ex'). { apply (in_order g i xs bs Hg Hs). apply list_elem_of_lookup. by exists k. }
  assert (a = artifact x) as -> by congruence. unfold execution in Ex. rewrite execute_at_eq in Ex.
  do 4 apply bind_Ok in Ex as (? & _ & Ex). by apply execute_native_node_addressed in Ex.
Qed.
End digests.

(** ** Comparison *)

Definition differs (l r : NativeExecutionResult) (d : ComparisonDimension) : Prop :=
  let a := reproducibility (result_identity l) in
  let b := reproducibility (result_identity r) in
  match d with
  | ExternalInput => rep_external_inputs a <> rep_external_inputs b
  | RulePackDimension => rep_rule_packs a <> rep_rule_packs b
  | DataSnapshotDimension => rep_data_snapshot a <> rep_data_snapshot b
  | UniverseSnapshotDimension => rep_universe_snapshot a <> rep_universe_snapshot b
  | Graph => rep_graph_digest a <> rep_graph_digest b
  | Parameters_ => rep_parameters a <> rep_parameters b
  | RuntimeImage => rep_image a <> rep_image b
  | Environment => rep_environment a <> rep_environment b
  | Seed_ => rep_seed a <> rep_seed b
  | Implementation => rep_implementations a <> rep_implementations b
  | SubjectDimension => rep_subject a <> rep_subject b
  | Code => rep_code a <> rep_code b
  | Result_ => result_digest l <> result_digest r
  end.

Lemma insert_if_spec (P : Prop) `{Decision P} d s :
  bset_wf s -> bset_wf (insert_if (negb (bool_decide P)) d s) /\ forall x, x ∈ insert_if (negb (bool_decide P)) d s <-> (x = d /\ ~ P) \/ x ∈ s.
Proof.
  intros Hs. unfold insert_if. case_bool_decide as Hp; cbn [negb].
  - split; [done|]. intros x. split; [by right|]. by intros [[_ ?]|?].
  - split; [by apply bset_insert_wf|]. intros x. rewrite bset_insert_elem. tauto.
Qed.

Lemma compare_spec l r : bset_wf (compare_experiments l r) /\ forall d, d ∈ compare_experiments l r <-> differs l r d.
Proof.
  unfold compare_experiments. cbv zeta.
  repeat match goal with
  | |- context [insert_if (negb (bool_decide ?P)) ?d ?s] =>
      lazymatch s with context [insert_if] => fail | _ => idtac end;
      let S := fresh "S" in
      first [ assert (S : bset_wf (insert_if (negb (bool_decide P)) d s)
                  /\ forall x, x ∈ insert_if (negb (bool_decide P)) d s <-> (x = d /\ ~ P) \/ x ∈ s)
                by (apply insert_if_spec; first [constructor | match goal with H : bset_wf s /\ _ |- _ => exact (proj1 H) end]) ];
      let t := fresh "s" in set (t := insert_if (negb (bool_decide P)) d s) in *; clearbody t
  end.
  split; [tauto|]. intros d.
  repeat match goal with S : bset_wf _ /\ _ |- _ => destruct S as [_ S] end.
  repeat match goal with S : forall x, x ∈ ?s <-> _ |- context [?s] => rewrite S; clear S end.
  unfold differs. destruct d; naive_solver (by eapply elem_of_nil).
Qed.

Lemma identical_spec l r : identical l r = true <-> forall d, ~ differs l r d.
Proof.
  destruct (compare_spec l r) as [_ Hc]. unfold identical. rewrite bool_decide_eq_true. split.
  - intros E d Hd. apply Hc in Hd. rewrite E in Hd. by apply elem_of_nil in Hd.
  - intros Hn. destruct (compare_experiments l r) as [|d s]; [done|]. exfalso. apply (Hn d), Hc. by left.
Qed.

Section results.
Context `{UlidCrate} `{Sha256Laws} `{ChronoLaws}.

(** A result of running an accepted graph under an accepted identity. *)
Record run_of (r : NativeExecutionResult) (rep : ReproducibilityIdentity) : Prop := {
  run_execution : exists i xs bs g run_id executors externals,
    research_graph_new_with_external_inputs i xs bs = Ok g /\ Forall (fun n => made (contract n)) (nodes g)
    /\ Z.of_nat (List.length (edges g)) < 2 ^ 64
    /\ execute_native_graph_with_external_inputs g (from_reproducibility run_id rep) executors externals = Ok r;
  run_identity : exists i xs bs g ri sb c,
    research_graph_new_with_external_inputs i xs bs = Ok g /\ reproducibility_build g ri sb c = Ok rep;
  run_wf : wf_identity rep /\ Forall wf_artifact (artifacts r)
}.

Lemma run_facts r rep :
  run_of r rep -> reproducibility (result_identity r) = rep /\ rep_digest rep = digest (reproducibility_bytes rep)
  /\ Forall (artifact_addressed (rep_digest rep)) (artifacts r) /\ result_digest r = digest (result_bytes (rep_digest rep) (artifacts r)).
Proof.
  intros [(i & xs & bs & g & run_id & es & ext & Hg & Hm & Hs & E) (i' & xs' & bs' & g' & ri & sb & c & Hg' & Hb) _].
  pose proof (build_spec g' ri sb c (new_graph_sorted _ _ _ _ Hg')) as Hf. rewrite Hb in Hf. destruct Hf as [_ Hf].
  apply (result_addressed i xs bs) in E as (Ei & Ha & Ed); [|done..]. rewrite Ei. cbn [from_reproducibility reproducibility] in *.
  split; [done|]. split; [unfold frozen in Hf; tauto|done].
Qed.

Lemma result_digest_identifies r rep r' rep' :
  run_of r rep -> run_of r' rep' -> result_digest r = result_digest r' -> (rep = rep' /\ artifacts r = artifacts r') \/ collision.
Proof.
  intros Hr Hr' E. destruct (run_facts _ _ Hr) as (_ & Dr & Ar & Er), (run_facts _ _ Hr') as (_ & Dr' & Ar' & Er').
  destruct (run_wf _ _ Hr) as [Wr Wa], (run_wf _ _ Hr') as [Wr' Wa'].
  assert (Wd : wf_hash (rep_digest rep)) by (rewrite Dr; apply wf_digest). assert (Wd' : wf_hash (rep_digest rep')) by (rewrite Dr'; apply wf_digest).
  rewrite Er, Er' in E. apply digest_inj in E as [E|]; [|by right]. apply result_bytes_inj in E as [Ed Em]; [|done..].
  destruct (artifacts_identify _ _ _ _ Wd Wd' Wa Wa' Ar Ar' Em) as [Ea|]; [|by right].
  pose proof Ed as Ed'. rewrite Dr, Dr' in Ed'. apply digest_inj in Ed' as [Eb|]; [|by right].
  destruct (reproducibility_bytes_inj rep rep' Wr Wr' Ed Eb) as [->|]; [by left|by right].
Qed.

Lemma verify_Ok r r' :
  verify_native_replay r r' = Ok tt <->
  reproducibility (result_identity r) = reproducibility (result_identity r') /\ artifacts r = artifacts r' /\ result_digest r = result_digest r'.
Proof.
  unfold verify_native_replay. rewrite fail_if_Ok, !orb_false_iff, !negb_false_iff, !bool_decide_eq_true. tauto.
Qed.

Lemma verified_identical r r' : verify_native_replay r r' = Ok tt -> identical r r' = true.
Proof. intros (Ei & _ & Ed)%verify_Ok. apply identical_spec. intros d. unfold differs. rewrite Ei, Ed. destruct d; intros Hn; by apply Hn. Qed.
End results.

(** ** Properties *)

(** The digest of a native result binds the whole run: if two runs of accepted graphs under accepted
    identities have one result digest, then they have the same reproducibility identity - inputs,
    parameters, code, environment - and the same artifacts at every node, and replay verification passes,
    or two different inputs of the hash with one digest have been found. *)
Theorem native_result_identifies `{UlidCrate} `{Sha256Laws} `{ChronoLaws} r rep r' rep' :
  run_of r rep -> run_of r' rep' -> result_digest r = result_digest r' ->
  (rep = rep' /\ artifacts r = artifacts r' /\ verify_native_replay r r' = Ok tt) \/ collision.
Proof.
  intros Hr Hr' E. destruct (result_digest_identifies r rep r' rep' Hr Hr' E) as [[-> Ea]|]; [left|by right].
  split; [done|]. split; [done|]. apply verify_Ok. destruct (run_facts _ _ Hr) as (-> & _), (run_facts _ _ Hr') as (-> & _). done.
Qed.

(** Experiment comparison is exact: the differences are listed once each, in the fixed order of the
    dimensions, and a dimension is listed exactly when the two results differ in it; results that pass
    replay verification are reported identical. *)
Theorem compare_experiments_exact left right :
  bset_wf (compare_experiments left right)
  /\ (forall d, d ∈ compare_experiments left right <-> differs left right d)
  /\ (verify_native_replay left right = Ok tt -> identical left right = true).
Proof. destruct (compare_spec left right). split; [done|]. split; [done|]. apply verified_identical. Qed.

Section example.
Local Existing Instance sample_sha256.
Local Existing Instance sample_sha256_laws.
Local Existing Instance sample_ulid_crate.
Local Existing Instance sample_chrono.
Local Existing Instance sample_chrono_laws.

Definition blank_result : NativeExecutionResult :=
  {| result_identity := sample_native_identity; artifacts := []; result_digest := sample_hash x00 |}.
Definition sample_result : NativeExecutionResult := ok_of blank_result sample_native_result.

Lemma sample_result_Ok :
  execute_native_graph_with_external_inputs sample_graph_value (from_reproducibility (sample_id "R") sample_identity)
    sample_executors [sample_external] = Ok sample_result.
Proof.
  unfold sample_result, sample_native_result, sample_native_identity.
  assert (V : forall r : RuntimeResult NativeExecutionResult, is_ok r = true -> r = Ok (ok_of blank_result r)) by apply ok_intro.
  apply V. vm_compute. reflexivity.
Qed.

Definition hashes_ok (l : list ContentHash) : bool := forallb (fun h => (List.length (hash_bytes h) =? 32)%nat) l.

Lemma hashes_ok_wf l : hashes_ok l = true -> Z.of_nat (List.length l) < 2 ^ 64 -> wf_list wf_hash l.
Proof.
  intros Hl Hn. split; [|done]. apply list.Forall_forall. intros h Hh. unfold hashes_ok in Hl. rewrite forallb_forall in Hl.
  apply Nat.eqb_eq, Hl. by apply list_elem_of_In.
Qed.

Definition artifact_ok (a : NativeNodeArtifact) : bool :=
  hashes_ok [artifact_contract a; artifact_implementation a; output_envelope_hash a; artifact_digest a]
  && hashes_ok (input_artifacts a) && hashes_ok (output_hashes a)
  && (List.length (input_artifacts a) <=? 9)%nat && (List.length (output_hashes a) <=? 9)%nat
  && is_ok (ulid_new (ulid_str (artifact_node a))).

Lemma artifact_ok_wf a : artifact_ok a = true -> wf_artifact a.
Proof.
  unfold artifact_ok. intros Ha. breflect. rename select (hashes_ok [_; _; _; _] = true) into Hs.
  apply hashes_ok_wf in Hs as [Hs _]; [|cbn; lia]. repeat (apply Forall_cons in Hs as [? Hs]).
  repeat match goal with E : (_ <=? _)%nat = true |- _ => apply Nat.leb_le in E end.
  split; [|repeat split; try done; try (by apply hashes_ok_wf; [|lia]); lia].
  unfold wf_ulid. destruct (ulid_new _) as [u|] eqn:E; [|done]. unfold ulid_new in E. res_simp. by destruct (artifact_node a).
Qed.

Lemma sample_run_of : run_of sample_result sample_identity.
Proof.
  split.
  - exists sample_graph_input, sample_externals, sample_external_bindings, sample_graph_value, (sample_id "R"), sample_executors, [sample_external].
    split; [exact sample_graph_value_Ok|]. split; [exact sample_nodes_made|]. split; [vm_compute; reflexivity|]. exact sample_result_Ok.
  - exists sample_graph_input, sample_externals, sample_external_bindings, sample_graph_value, sample_identity_input, None, None.
    split; [exact sample_graph_value_Ok|exact sample_identity_Ok].
  - split; [exact sample_identity_wf|]. assert (V : forallb artifact_ok (artifacts sample_result) = true) by (vm_compute; reflexivity).
    revert V. generalize (artifacts sample_result). intros l V. rewrite forallb_forall in V. apply list.Forall_forall.
    intros a Ha. apply artifact_ok_wf, V. by apply list_elem_of_In.
Qed.

Lemma native_result_identifies_witness :
  (sample_identity = sample_identity /\ artifacts sample_result = artifacts sample_result /\ verify_native_replay sample_result sample_result = Ok tt)
  \/ collision.
Proof. apply (native_result_identifies sample_result sample_identity sample_result sample_identity sample_run_of sample_run_of eq_refl). Defined.

Example sample_comparison : compare_experiments sample_result blank_result = [Result_].
Proof. vm_compute. reflexivity. Qed.
End example.
