(* ===== verification/MarketData.v ===== *)
(** * Reference data of the market, and raw rows

    [crates/ficant-domain/src/market] ([unit.rs], [calendar.rs], [data_source.rs]) and
    [crates/ficant-data/src] ([error.rs], [source.rs], [mapping.rs], [bar_source.rs]): units with their
    precision, trading calendars, data sources, the mapping from the keys of a source to instruments,
    the point-in-time window of an import, and rows as a source gives them. *)

From Stdlib Require Import ZArith Lia Strings.String.
From Stdlib Require Import Strings.Byte.
From stdpp Require Import base list option strings numbers sorting.
From S2P Require Import Prelude Machine Collections Primitives Codec Concrete Digits DecimalValue Exposure Bar DataHealth.
Open Scope Z_scope.

(** ** Units *)

(** Fields of a [UnitInput] are those of the [Unit] made from it. *)
Record Unit := {
  unit_identity : Ulid;
  unit_number : Version;
  unit_owner : OwnerRef;
  unit_code : string;
  dimension : string;
  unit_scale : Z;
  unit_precision : Z
}.
Abbreviation UnitInput := Unit.

Definition is_unit_code_byte (b : byte) : bool :=
  is_ascii_uppercase b || is_ascii_digit b || Byte.eqb b x5f || Byte.eqb b x2d.

Definition unit_new (input : UnitInput) : DomainResult Unit :=
  let normalized_code := negb (bool_decide (as_bytes (unit_code input) = [])) && forallb is_unit_code_byte (as_bytes (unit_code input)) in
  if negb normalized_code || (unit_precision input =? 0) || (unit_precision input <? unit_scale input) then Err InvalidUnit
  else if blank_or_padded (dimension input) then Err InvalidUnit
  else Ok input.

Definition unit_validate_successor (self candidate : Unit) : DomainResult unit :=
  _ ← ensure_next_version (unit_identity self) (unit_number self) (unit_identity candidate) (unit_number candidate);
  fail_if (negb (bool_decide (dimension self = dimension candidate))) VersionConflict.

(** ** Calendars *)

(** [NaiveTime]: seconds of the day and nanoseconds. *)
Record NaiveTime := { nt_seconds : Z; nt_nanos : Z }.

#[export] Instance NaiveTime_eq_dec : EqDecision NaiveTime.
Proof. solve_decision. Defined.
#[export] Instance NaiveTime_ord : Ord NaiveTime := fun a b =>
  lex (cmp (nt_seconds a) (nt_seconds b)) (cmp (nt_nanos a) (nt_nanos b)).
#[export] Instance NaiveTime_ord_laws : OrdLaws NaiveTime.
Proof. by apply (ord_laws_via (fun t => (nt_seconds t, nt_nanos t))); [intros [] []; cbn; congruence|]. Qed.

Record CalendarSession := {
  local_date : NaiveDate;
  open_local_time : option NaiveTime;
  close_local_time : option NaiveTime
}.

Definition session_open (local_date : NaiveDate) (open close : NaiveTime) : DomainResult CalendarSession :=
  if geb open close then Err InvalidEffectiveTime
  else Ok {| local_date := local_date; open_local_time := Some open; close_local_time := Some close |}.

Definition session_closed (local_date : NaiveDate) : CalendarSession :=
  {| local_date := local_date; open_local_time := None; close_local_time := None |}.

Record Calendar := {
  calendar_id : Ulid;
  calendar_version : Version;
  calendar_owner : OwnerRef;
  market : string;
  calendar_timezone : string;
  calendar_effective : EffectivePeriod;
  sessions : list CalendarSession
}.
Abbreviation CalendarInput := Calendar.

(** One turn of the loop over the sessions, with the date of the session before. *)
Definition session_step (from_date to_date : NaiveDate) (previous_date : option NaiveDate) (session : CalendarSession)
    : DomainResult (option NaiveDate) :=
  if ltb (local_date session) from_date || ltb to_date (local_date session) then Err InvalidEffectiveTime
  else if from_option (fun date => geb date (local_date session)) false previous_date then Err InvalidEffectiveTime
  else Ok (Some (local_date session)).

Definition calendar_new `{Chrono} (input : CalendarInput) : DomainResult Calendar :=
  if blank_or_padded (market input) then Err InvalidValue else
  timezone ← ok_or (tz_parse (calendar_timezone input)) InvalidEffectiveTime;
  let effective := calendar_effective input in
  if negb (bool_decide (market_timezone (ep_from effective) = tz_name timezone))
     || negb (bool_decide (market_timezone (ep_to effective) = tz_name timezone))
  then Err InvalidEffectiveTime else
  _ ← try_fold (session_step (local_trading_date (ep_from effective)) (local_trading_date (ep_to effective))) None (sessions input);
  Ok {| calendar_id := calendar_id input; calendar_version := calendar_version input; calendar_owner := calendar_owner input;
        market := market input; calendar_timezone := tz_name timezone; calendar_effective := effective;
        sessions := sessions input |}.

(** ** Data sources *)

Inductive DataSourceKind := FileNdjson | Postgres.

#[export] Instance DataSourceKind_eq_dec : EqDecision DataSourceKind.
Proof. solve_decision. Defined.

Record DataSourceInput := {
  data_source_id : Ulid;
  data_source_version : Version;
  data_source_owner : OwnerRef;
  data_source_kind : DataSourceKind;
  data_source_name : string;
  connection_binding : string;
  dataset : string;
  canonical_schema_id : string;
  canonical_schema_hash : ContentHash
}.

Record DataSource := { data_source_input : DataSourceInput; data_source_price_type : option PriceSourceType }.

Definition FULL_STOP : byte := x2e.

Definition is_binding_byte (b : byte) : bool :=
  is_ascii_lowercase b || is_ascii_uppercase b || is_ascii_digit b || Byte.eqb b x5f || Byte.eqb b x2d || Byte.eqb b FULL_STOP.

Definition require_binding (value : string) : DomainResult unit :=
  if blank_or_padded value then Err InvalidValue else
  fail_if ((128 <? str_len value) || negb (forallb is_ascii_byte (as_bytes value))
           || negb (forallb is_binding_byte (as_bytes value))) InvalidValue.

(** [rsplit_once('.')], the part after the last full stop. *)
Fixpoint after_last_stop (l : list byte) : option (list byte) :=
  match l with
  | [] => None
  | b :: l => match after_last_stop l with
              | Some tail => Some tail
              | None => if Byte.eqb b FULL_STOP then Some l else None
              end
  end.

Definition starts_with (prefix value : string) : bool := bool_decide (is_Some (strip_prefix (as_bytes prefix) (as_bytes value))).

Definition schema_name (value : string) : bool :=
  starts_with "ficant." value && bool_decide (after_last_stop (as_bytes value) = Some (as_bytes "v1")).

Definition require_schema_id (value : string) : DomainResult unit :=
  _ ← require_binding value;
  fail_if (negb (schema_name value)) InvalidValue.

Definition data_source_new (input : DataSourceInput) : DomainResult DataSource :=
  _ ← fail_if (blank_or_padded (data_source_name input)) InvalidValue;
  _ ← require_binding (connection_binding input);
  _ ← require_binding (dataset input);
  _ ← require_schema_id (canonical_schema_id input);
  Ok {| data_source_input := input; data_source_price_type := None |}.

Definition with_price_source_type (self : DataSource) (value : PriceSourceType) : DomainResult DataSource :=
  if bool_decide (is_Some (data_source_price_type self)) then Err VersionConflict
  else if bool_decide (value = CurveInterpolation) then Err InvalidValue
  else Ok {| data_source_input := data_source_input self; data_source_price_type := Some value |}.

(** ** Rejected rows and errors of an import *)

Inductive BarRejectionReason :=
| MissingRequiredField
| InvalidFieldValue
| OutsideTradingSession
| ObservedAfterVisibleRow
| UnmappedInstrument
| MisalignedIntervalRow
| InconsistentOhlcRow
| NegativeVolumeRow
| DuplicateBar
| PrecisionExceeded.

#[export] Instance BarRejectionReason_eq_dec : EqDecision BarRejectionReason.
Proof. solve_decision. Defined.

Definition all_reasons : list BarRejectionReason :=
  [MissingRequiredField; InvalidFieldValue; OutsideTradingSession; ObservedAfterVisibleRow; UnmappedInstrument;
   MisalignedIntervalRow; InconsistentOhlcRow; NegativeVolumeRow; DuplicateBar; PrecisionExceeded].

Definition reason_code (self : BarRejectionReason) : string :=
  match self with
  | MissingRequiredField => "MISSING_REQUIRED_FIELD"
  | InvalidFieldValue => "INVALID_VALUE"
  | OutsideTradingSession => "OUTSIDE_TRADING_SESSION"
  | ObservedAfterVisibleRow => "OBSERVED_AFTER_VISIBLE"
  | UnmappedInstrument => "UNMAPPED_INSTRUMENT"
  | MisalignedIntervalRow => "MISALIGNED_INTERVAL"
  | InconsistentOhlcRow => "INCONSISTENT_OHLC"
  | NegativeVolumeRow => "NEGATIVE_VOLUME"
  | DuplicateBar => "DUPLICATE_BAR"
  | PrecisionExceeded => "PRECISION_EXCEEDED"
  end.

Definition reason_from_code (code : string) : option BarRejectionReason :=
  find (fun value => bool_decide (reason_code value = code)) all_reasons.

(** The derived order is the order of declaration. *)
Definition reason_index (self : BarRejectionReason) : Z :=
  match self with
  | MissingRequiredField => 0 | InvalidFieldValue => 1 | OutsideTradingSession => 2 | ObservedAfterVisibleRow => 3
  | UnmappedInstrument => 4 | MisalignedIntervalRow => 5 | InconsistentOhlcRow => 6 | NegativeVolumeRow => 7
  | DuplicateBar => 8 | PrecisionExceeded => 9
  end.
#[export] Instance BarRejectionReason_ord : Ord BarRejectionReason := fun a b => cmp (reason_index a) (reason_index b).
#[export] Instance BarRejectionReason_ord_laws : OrdLaws BarRejectionReason.
Proof. by apply (ord_laws_via reason_index); [intros [] []|]. Qed.

Record BarRejection := { row_id : string; rejection_reason : BarRejectionReason; rejection_field : option string }.

#[export] Instance BarRejection_eq_dec : EqDecision BarRejection.
Proof. solve_decision. Defined.
#[export] Instance BarRejection_ord : Ord BarRejection := fun a b =>
  cmp (row_id a, (rejection_reason a, rejection_field a)) (row_id b, (rejection_reason b, rejection_field b)).
#[export] Instance BarRejection_ord_laws : OrdLaws BarRejection.
Proof. by apply (ord_laws_via (fun r => (row_id r, (rejection_reason r, rejection_field r)))); [intros [] []; cbn; congruence|]. Qed.

Inductive DataError :=
| InvalidConfiguration
| InvalidSourceData
| PointInTimeViolation
| QualityRuleFailed
| SourceRowViolation (source_record_id : string)
| SourceUnavailable
| SchemaMismatch
| SnapshotIntegrityFailed
| NoAcceptedBars (rejections : list BarRejection).

#[export] Instance DataError_eq_dec : EqDecision DataError.
Proof. solve_decision. Defined.

Abbreviation DataResult := (Result DataError).

(** Only one reason of a [SourceRowViolation] exists. *)
Definition observed_after_visible_source_record_id (self : DataError) : option string :=
  match self with SourceRowViolation source_record_id => Some source_record_id | _ => None end.

(** ** The point-in-time window *)

Record PointInTimeWindow := { as_of : MarketTime; visible_at_cutoff : MarketTime }.

Definition window_new (as_of visible_at_cutoff : MarketTime) : DataResult PointInTimeWindow :=
  if negb (leb (instant as_of) (instant visible_at_cutoff))
     || negb (bool_decide (market_timezone as_of = market_timezone visible_at_cutoff))
  then Err PointInTimeViolation
  else Ok {| as_of := as_of; visible_at_cutoff := visible_at_cutoff |}.

(** ** Instrument mappings *)

Record InstrumentMappingEntry := { source_instrument_key : string; entry_effective : EffectivePeriod; entry_instrument : VersionRef }.

Definition mapping_entry_new (source_instrument_key : string) (effective : EffectivePeriod) (instrument : VersionRef)
    : DataResult InstrumentMappingEntry :=
  if blank_or_padded source_instrument_key || (128 <? str_len source_instrument_key) then Err InvalidConfiguration
  else Ok {| source_instrument_key := source_instrument_key; entry_effective := effective; entry_instrument := instrument |}.

Record InstrumentMapping := {
  mapping_id : Ulid;
  mapping_owner : OwnerRef;
  mapping_source : VersionRef;
  entries : list InstrumentMappingEntry;
  mapping_hash : ContentHash
}.

Definition append_market_time `{Chrono} (value : MarketTime) : list byte :=
  to_be_bytes 8 (timestamp (instant value)) ++ to_be_bytes 4 (timestamp_subsec_nanos (instant value))
  ++ push_str (market_timezone value) ++ push_str (date_to_string (local_trading_date value)).

Definition entry_bytes `{Chrono} (entry : InstrumentMappingEntry) : list byte :=
  push_str (source_instrument_key entry) ++ append_market_time (ep_from (entry_effective entry))
  ++ append_market_time (ep_to (entry_effective entry)) ++ push_str (ulid_str (vr_id (entry_instrument entry)))
  ++ push_u64 (version_get (vr_version (entry_instrument entry))).

Definition mapping_content_bytes `{Chrono} (mapping_id : Ulid) (owner : OwnerRef) (source : VersionRef)
    (entries : list InstrumentMappingEntry) : list byte :=
  as_bytes "ficant-instrument-mapping/v2" ++ [x00] ++ push_str (ulid_str mapping_id)
  ++ push_str (ulid_str (tenant_id owner)) ++ push_str (ulid_str (owner_id owner))
  ++ push_str (ulid_str (vr_id source)) ++ push_u64 (version_get (vr_version source)) ++ flat_map entry_bytes entries.

(** Entries are sorted by key and start. *)
Definition entry_key (entry : InstrumentMappingEntry) : string * DateTime :=
  (source_instrument_key entry, instant (ep_from (entry_effective entry))).

Definition overlaps (left right : InstrumentMappingEntry) : bool :=
  bool_decide (source_instrument_key left = source_instrument_key right)
  && ltb (instant (ep_from (entry_effective right))) (instant (ep_to (entry_effective left))).

Definition mapping_new `{Chrono} `{Sha256} (mapping_id : Ulid) (owner : OwnerRef) (source : VersionRef)
    (entries : list InstrumentMappingEntry) : DataResult InstrumentMapping :=
  if bool_decide (entries = []) then Err InvalidConfiguration else
  let entries := sort_by_key entry_key entries in
  if windows2_any overlaps entries then Err InvalidConfiguration else
  Ok {| mapping_id := mapping_id; mapping_owner := owner; mapping_source := source; entries := entries;
        mapping_hash := digest (mapping_content_bytes mapping_id owner source entries) |}.

Definition applies (source_instrument_key' : string) (observed_at : MarketTime) (entry : InstrumentMappingEntry) : bool :=
  bool_decide (source_instrument_key entry = source_instrument_key')
  && leb (instant (ep_from (entry_effective entry))) (instant observed_at)
  && ltb (instant observed_at) (instant (ep_to (entry_effective entry))).

Definition mapping_resolve (self : InstrumentMapping) (source_instrument_key : string) (observed_at : MarketTime)
    : DataResult VersionRef :=
  match filter (fun entry => applies source_instrument_key observed_at entry) (entries self) with
  | [] => Err QualityRuleFailed
  | [value] => Ok (entry_instrument value)
  | _ :: _ :: _ => Err QualityRuleFailed
  end.

(** ** Codes *)

Lemma reason_code_roundtrip r : reason_from_code (reason_code r) = Some r.
Proof. by destruct r. Qed.

Lemma reason_from_code_Some code r : reason_from_code code = Some r -> reason_code r = code.
Proof. unfold reason_from_code. intros E. apply find_some in E as [_ E]. by apply bool_decide_eq_true in E. Qed.

(** ** A mapping names at most one instrument at a time *)

Lemma filter_at_most_one {A} (R : A -> A -> Prop) (p : A -> bool) (l : list A) :
  StronglySorted R l -> (forall a b, R a b -> p a = true -> p b = true -> False) ->
  filter (fun a => p a) l = [] \/ exists a, a ∈ l /\ p a = true /\ filter (fun a => p a) l = [a].
Proof.
  intros Hs HR. induction Hs as [|a l Hs IH Ha]; [by left|]. rewrite filter_cons. destruct (decide (p a)) as [Pa|Pa].
  - right. exists a. split; [by left|]. split; [by apply Is_true_true|]. f_equal.
    destruct IH as [->|(b & Hb & Pb & _)]; [done|].
    exfalso. rewrite Forall_forall in Ha. apply (HR a b); [by apply Ha|by apply Is_true_true|done].
  - destruct IH as [E|(b & Hb & Pb & E)]; [by left|]. right. exists b. split; [by right|]. done.
Qed.

Definition valid_period (p : EffectivePeriod) : Prop := cmp (instant (ep_from p)) (instant (ep_to p)) = Lt.

(** Between two pairs with one first component there are only pairs with that component. *)
Lemma first_squeezed {A B} `{OrdLaws A} `{OrdLaws B} (k1 k2 k3 : A) (f1 f2 f3 : B) :
  cmp (k1, f1) (k2, f2) <> Gt -> cmp (k2, f2) (k3, f3) <> Gt -> k1 = k3 -> k1 = k2.
Proof.
  unfold cmp, pair_ord, lex. cbn [fst snd]. intros Ha Hb <-. rewrite (cmp_opp k1 k2) in Hb.
  destruct (cmp k1 k2) eqn:E; [by apply cmp_eq|done..].
Qed.

(** [a] ends before [b] starts, when they are entries for one key. *)
Definition ends_before (a b : InstrumentMappingEntry) : Prop :=
  source_instrument_key a = source_instrument_key b ->
  leb (instant (ep_to (entry_effective a))) (instant (ep_from (entry_effective b))) = true.

Lemma sorted_entries_disjoint l :
  StronglySorted (fun a b => cmp (entry_key a) (entry_key b) <> Gt) l ->
  Forall (fun e => valid_period (entry_effective e)) l -> windows2_any overlaps l = false -> StronglySorted ends_before l.
Proof.
  induction l as [|a l IH]; [constructor|]. intros [Hs Ha]%StronglySorted_inv [Va Vl]%Forall_cons Hw.
  assert (Hl : windows2_any overlaps l = false).
  { destruct l as [|b l]; [done|]. by apply orb_false_iff in Hw as [_ ?]. }
  specialize (IH Hs Vl Hl). constructor; [done|]. destruct l as [|b l]; [constructor|].
  apply orb_false_iff in Hw as [Hab _]. apply Forall_cons in Ha as [Kab Ha]. apply StronglySorted_inv in Hs as [_ Hb].
  apply StronglySorted_inv in IH as [_ IHb]. apply Forall_cons in Vl as [Vb _].
  assert (Eab : ends_before a b).
  { intros E. unfold overlaps in Hab. rewrite (bool_decide_eq_true_2 _ E) in Hab. cbn in Hab. by rewrite leb_ltb, Hab. }
  constructor; [done|]. rewrite Forall_forall in IHb, Hb |- *. intros c Hc Eac.
  assert (Ebc : source_instrument_key b = source_instrument_key c).
  { rewrite <- Eac. symmetry. by apply (first_squeezed _ _ _ _ _ _ Kab (Hb c Hc)). }
  specialize (IHb c Hc Ebc). eapply leb_trans; [apply Eab; congruence|]. eapply leb_trans; [|exact IHb].
  apply leb_spec. by right.
Qed.

(** In an accepted mapping the second match of [resolve] does not exist. *)
Lemma mapping_resolve_spec `{Chrono} `{Sha256} i o s es m key at_ :
  mapping_new i o s es = Ok m -> Forall (fun e => valid_period (entry_effective e)) es ->
  (forall v, mapping_resolve m key at_ = Ok v <-> exists e, e ∈ es /\ applies key at_ e = true /\ entry_instrument e = v)
  /\ (mapping_resolve m key at_ = Err QualityRuleFailed <-> forall e, e ∈ es -> applies key at_ e = false).
Proof.
  unfold mapping_new. case_bool_decide; [done|]. destruct (windows2_any _ _) eqn:Ew; [done|]. intros [= <-] Hv.
  assert (Hv' : Forall (fun e => valid_period (entry_effective e)) (sort_by_key entry_key es)).
  { unfold sort_by_key. by rewrite sort_by_perm. }
  pose proof (sorted_entries_disjoint _ (sort_by_key_sorted entry_key es) Hv' Ew) as Hd.
  unfold mapping_resolve. cbn [entries].
  assert (Hin : forall e, e ∈ sort_by_key entry_key es <-> e ∈ es) by (intros e; unfold sort_by_key; by rewrite sort_by_perm).
  destruct (filter_at_most_one ends_before (applies key at_) _ Hd) as [E|(a & Ha & Pa & E)].
  { intros a b Hab [[Ka Fa]%andb_true_iff Ta]%andb_true_iff [[Kb Fb]%andb_true_iff Tb]%andb_true_iff.
    apply bool_decide_eq_true in Ka, Kb. specialize (Hab (eq_trans Ka (eq_sym Kb))).
    pose proof (leb_trans _ _ _ Hab Fb) as F. by rewrite leb_ltb, Ta in F. }
  - rewrite E. assert (Hn : forall e, e ∈ es -> applies key at_ e = false).
    { intros e He. apply not_true_iff_false. intros Pe. apply (not_elem_of_nil e). rewrite <- E.
      apply list_elem_of_filter. by rewrite Hin, Pe. }
    split; [|done]. intros v. split; [done|]. intros (e & He & Pe & _). by rewrite Hn in Pe.
  - rewrite E. split; [|split; [done|]; intros Hn; apply Hin in Ha; by rewrite Hn in Pa].
    intros v. split; [intros [= <-]; exists a; by rewrite Hin in Ha|]. intros (e & He & Pe & <-).
    assert (Hf : e ∈ [a]) by (rewrite <- E; apply list_elem_of_filter; by rewrite Hin, Pe). by apply list_elem_of_singleton in Hf as ->.
Qed.
