(* ===== verification/BarIngest.v ===== *)
(** * Ingestion of canonical bars

    [crates/ficant-data/src/bar_canonical.rs] and [bar_source.rs]: the rows of an external source are
    validated one by one into canonical bars ([validate_row]) or rejected with a reason; bars that share
    their key or record id with another are rejected as duplicates ([reject_duplicates]); what is left
    is sorted and reported ([ingest]). A [RecordBatch] of the Arrow library is represented by its rows.
    Local clock times, sums of instants and durations, and the Arrow conversions of instants and dates
    are parameters. *)

From Stdlib Require Import ZArith Lia Strings.String.
From Stdlib Require Import Strings.Byte.
From stdpp Require Import base list option strings numbers sorting.
From S2P Require Import Prelude Machine Collections Primitives Codec Concrete Digits DecimalValue Exposure Bar DataHealth Ledger MarketData.
Open Scope Z_scope.

(** [TimeZone::from_local_datetime(..).single()], and [DateTime + TimeDelta] of a number of nanoseconds,
    [None] where it panics. *)
Class ChronoLocal `{Chrono} : Type := {
  from_local_single : Tz -> NaiveDate -> NaiveTime -> option DateTime;
  add_duration : DateTime -> Z -> option DateTime
}.

(** Instants as whole microseconds and dates as days since 1970, as in the columns of a batch. *)
Class ChronoColumns : Type := {
  timestamp_micros : DateTime -> Z;
  from_timestamp_micros : Z -> option DateTime;
  date_of_days : Z -> option NaiveDate
}.

Definition CANONICAL_BAR_SCHEMA_ID : string := "ficant.market.bar.canonical.v1".
Definition BAR_QUALITY_RULE_SET_ID : string := "ficant.market.bar.quality.v1".
Definition MARKET_TIMEZONE : string := "Asia/Shanghai".

(** ** Raw rows *)

Record RawDecimal := { raw_coefficient : string; raw_scale : Z }.

Record RawBarRow := {
  row_ordinal : Z;
  raw_source_record_id : option string;
  raw_instrument_key : option string;
  raw_frequency : option BarFrequency;
  raw_settlement : option BarSettlement;
  raw_bar_start : option DateTime;
  raw_trading_date : option NaiveDate;
  raw_visible_at : option DateTime;
  raw_open : option RawDecimal;
  raw_high : option RawDecimal;
  raw_low : option RawDecimal;
  raw_close : option RawDecimal;
  raw_volume : option RawDecimal;
  raw_turnover : option RawDecimal;
  raw_trade_count : option Z;
  raw_vwap : option RawDecimal;
  raw_close_yield : option RawDecimal;
  invalid_field : option string
}.

(** [FixedDelay] holds a number of nanoseconds. *)
Inductive BarVisibilityRule := SourceField | FixedDelay (delay : Z).

Definition describe `{ChronoDelta} (self : BarVisibilityRule) : string :=
  match self with
  | SourceField => "source-field"
  | FixedDelay delay => "fixed-delay:" ++ to_string (num_seconds delay) ++ "s"
  end.

(** [str::split_once('.')]. *)
Fixpoint split_stop (l : list byte) : option (list byte * list byte) :=
  match l with
  | [] => None
  | b :: l => if Byte.eqb b FULL_STOP then Some ([], l)
              else p ← split_stop l; Some (b :: p.1, p.2)
  end.

Definition parse_decimal_text (text : string) : option RawDecimal :=
  let '(negative, unsigned) :=
    match as_bytes text with
    | b :: rest => if Byte.eqb b MINUS then (true, rest) else (false, b :: rest)
    | [] => (false, [])
    end in
  let '(integer, fraction) := default (unsigned, []) (split_stop unsigned) in
  if bool_decide (integer = []) || negb (all_digits integer) || negb (all_digits fraction)
     || (bool_decide (is_Some (split_stop unsigned)) && bool_decide (fraction = []))
  then None else
  scale ← checked in_u32 (Z.of_nat (List.length fraction));
  Some {| raw_coefficient := signed_text negative (integer ++ fraction); raw_scale := scale |}.

(** ** The schema *)

Inductive DataType := Utf8 | UInt32 | UInt64 | Date32 | TimestampMicrosUtc.

Definition data_type_code (data_type : DataType) : string :=
  match data_type with
  | Utf8 => "utf8" | UInt32 => "uint32" | UInt64 => "uint64" | Date32 => "date32"
  | TimestampMicrosUtc => "timestamp-microsecond-utc"
  end.

Record Field := { field_name : string; field_type : DataType; nullable : bool }.
Record Schema := { fields : list Field; metadata : BTreeMap string string }.

Definition text_field (name : string) (nullable : bool) : Field := {| field_name := name; field_type := Utf8; nullable := nullable |}.
Definition timestamp_field (name : string) : Field := {| field_name := name; field_type := TimestampMicrosUtc; nullable := false |}.
Definition u64_field (name : string) (nullable : bool) : Field := {| field_name := name; field_type := UInt64; nullable := nullable |}.

Definition decimal_field (prefix : string) (nullable : bool) : list Field :=
  [text_field (prefix ++ "_coefficient") nullable; {| field_name := prefix ++ "_scale"; field_type := UInt32; nullable := nullable |}].

Definition canonical_bar_schema : Schema := {|
  fields :=
    [text_field "tenant_id" false; text_field "owner_id" false; text_field "data_source_id" false;
     u64_field "data_source_version" false; text_field "price_source_type" false; text_field "source_record_id" false;
     text_field "instrument_id" false; u64_field "instrument_version" false; text_field "frequency" false;
     text_field "settlement" false; timestamp_field "bar_start"; timestamp_field "bar_end"; timestamp_field "observed_at";
     timestamp_field "visible_at"; {| field_name := "local_trading_date"; field_type := Date32; nullable := false |}]
    ++ flat_map (fun prefix => decimal_field prefix true) ["open"; "high"; "low"; "close"]
    ++ [text_field "price_unit_id" false; u64_field "price_unit_version" false]
    ++ decimal_field "volume" false ++ decimal_field "turnover" true
    ++ [text_field "amount_unit_id" false; u64_field "amount_unit_version" false; u64_field "trade_count" true]
    ++ decimal_field "vwap" true ++ decimal_field "close_yield" true
    ++ [text_field "yield_unit_id" true; u64_field "yield_unit_version" true];
  metadata := btree_collect
    [("ficant.decimal.encoding", "coefficient+scale"); ("ficant.market.timezone", MARKET_TIMEZONE);
     ("ficant.schema.id", CANONICAL_BAR_SCHEMA_ID);
     ("ficant.sort", "bar_start,instrument_id,frequency,settlement,source_record_id")]
|}%string.

Definition field_bytes (field : Field) : list byte :=
  push_str (field_name field) ++ push_str (data_type_code (field_type field)) ++ [if nullable field then x01 else x00].

Definition schema_contract_bytes (schema : Schema) : list byte :=
  as_bytes "ficant-arrow-schema/v1" ++ [x00] ++ flat_map field_bytes (fields schema)
  ++ flat_map (fun entry => push_str entry.1 ++ push_str entry.2) (metadata schema).

Definition canonical_bar_schema_hash `{Sha256} : ContentHash := digest (schema_contract_bytes canonical_bar_schema).

(** ** Requests *)

Record CanonicalBarIngestRequest := {
  source : DataSource;
  mapping : InstrumentMapping;
  calendar : Calendar;
  price_unit : Unit;
  amount_unit : Unit;
  yield_unit : option Unit;
  window : PointInTimeWindow
}.

Definition source_owner (request : CanonicalBarIngestRequest) : OwnerRef := data_source_owner (data_source_input (source request)).
Definition source_ref (s : DataSource) : VersionRef :=
  {| vr_id := data_source_id (data_source_input s); vr_version := data_source_version (data_source_input s) |}.

Definition other_owner (owner other : OwnerRef) : bool := negb (bool_decide (owner = other)).
Definition other_dimension (unit : Unit) (name : string) : bool := negb (bool_decide (dimension unit = name)).

(** The version of a source is one already, so that [Version::new] of its number cannot fail. *)
Definition ingest_request_new `{Sha256} (source : DataSource) (mapping : InstrumentMapping) (calendar : Calendar)
    (price_unit amount_unit : Unit) (yield_unit : option Unit) (window : PointInTimeWindow)
    : DataResult CanonicalBarIngestRequest :=
  let input := data_source_input source in
  version ← map_err (fun _ => InvalidConfiguration) (version_new (version_get (data_source_version input)));
  let source_ref := {| vr_id := data_source_id input; vr_version := version |} in
  let owner := data_source_owner input in
  if other_owner owner (mapping_owner mapping) || other_owner owner (calendar_owner calendar)
     || other_owner owner (unit_owner price_unit) || other_owner owner (unit_owner amount_unit)
     || from_option (fun unit => other_owner (unit_owner unit) owner) false yield_unit
     || negb (bool_decide (mapping_source mapping = source_ref))
     || negb (bool_decide (canonical_schema_id input = CANONICAL_BAR_SCHEMA_ID))
     || negb (bool_decide (canonical_schema_hash input = canonical_bar_schema_hash))
     || bool_decide (data_source_price_type source = None)
     || other_dimension price_unit "price" || other_dimension amount_unit "amount"
     || from_option (fun unit => other_dimension unit "yield") false yield_unit
     || negb (bool_decide (calendar_timezone calendar = MARKET_TIMEZONE))
     || negb (bool_decide (market_timezone (as_of window) = MARKET_TIMEZONE))
     || negb (bool_decide (market_timezone (visible_at_cutoff window) = MARKET_TIMEZONE))
  then Err InvalidConfiguration
  else Ok {| source := source; mapping := mapping; calendar := calendar; price_unit := price_unit;
             amount_unit := amount_unit; yield_unit := yield_unit; window := window |}.

(** A unit with the scale and precision of its values. *)
Record UnitRule := { rule_unit : UnitRef; rule_scale : Z; rule_precision : Z }.
Record Units := { price_rule : UnitRule; amount_rule : UnitRule; yield_rule : option UnitRule }.

Definition unit_rule `{UlidCrate} (unit : Unit) : DataResult UnitRule :=
  id ← map_err (fun _ => InvalidConfiguration) (ulid_new (ulid_str (unit_identity unit)));
  version ← map_err (fun _ => InvalidConfiguration) (version_new (version_get (unit_number unit)));
  Ok {| rule_unit := {| unit_id := id; unit_version := version |}; rule_scale := unit_scale unit;
        rule_precision := unit_precision unit |}.

Definition units_new `{UlidCrate} (request : CanonicalBarIngestRequest) : DataResult Units :=
  price ← unit_rule (price_unit request);
  amount ← unit_rule (amount_unit request);
  yield_ ← match yield_unit request with
           | Some unit => rule ← unit_rule unit; Ok (Some rule)
           | None => Ok None
           end;
  Ok {| price_rule := price; amount_rule := amount; yield_rule := yield_ |}.

(** ** One row *)

(** A row is rejected, or the sum of an instant and a duration panics. *)
Inductive RowFailure := RowRejected (rejection : BarRejection) | RowPanics.
Abbreviation RowResult := (Result RowFailure).

#[export] Instance RowFailure_eq_dec : EqDecision RowFailure.
Proof. solve_decision. Defined.

Definition is_record_id_byte (b : byte) : bool :=
  is_ascii_lowercase b || is_ascii_uppercase b || is_ascii_digit b || Byte.eqb b x2d || Byte.eqb b x5f || Byte.eqb b FULL_STOP.

Definition usable_record_id (id : string) : bool :=
  negb (bool_decide (as_bytes id = [])) && (str_len id <=? 128) && forallb is_record_id_byte (as_bytes id).

Definition row_identity (raw : RawBarRow) : string :=
  let ordinal := ("row:" ++ to_string (row_ordinal raw))%string in
  match raw_source_record_id raw with
  | Some id => if usable_record_id id then id else ordinal
  | None => ordinal
  end.

Definition rejected {A} (raw : RawBarRow) (reason : BarRejectionReason) (field : option string) : RowResult A :=
  Err (RowRejected {| row_id := row_identity raw; rejection_reason := reason; rejection_field := field |}).

Definition required {A} (raw : RawBarRow) (value : option A) (field : string) : RowResult A :=
  match value with Some a => Ok a | None => rejected raw MissingRequiredField (Some field) end.

(** [trim_start_matches('-')]. *)
Fixpoint trim_minus (l : list byte) : list byte :=
  match l with b :: l' => if Byte.eqb b MINUS then trim_minus l' else l | [] => [] end.

Definition read_decimal (raw : RawDecimal) (rule : UnitRule) : Result BarRejectionReason DecimalValue :=
  value ← map_err (fun _ => InvalidFieldValue) (decimal_value_new (raw_coefficient raw) (raw_scale raw) (rule_unit rule));
  digits ← ok_or (checked in_u32 (Z.of_nat (List.length (trim_minus (as_bytes (coefficient value)))))) InvalidFieldValue;
  if (rule_scale rule <? scale value) || (rule_precision rule <? digits) then Err PrecisionExceeded else Ok value.

(** A decimal field of a row, and an optional one. *)
Definition row_decimal (raw : RawBarRow) (rule : UnitRule) (value : RawDecimal) (field : string) : RowResult DecimalValue :=
  match read_decimal value rule with Ok d => Ok d | Err reason => rejected raw reason (Some field) end.
Definition optional_decimal (raw : RawBarRow) (rule : UnitRule) (value : option RawDecimal) (field : string)
    : RowResult (option DecimalValue) :=
  match value with
  | Some value => d ← row_decimal raw rule value field; Ok (Some d)
  | None => Ok None
  end.

Definition violation_reason (violation : BarRuleViolation) : BarRejectionReason :=
  match violation with
  | MisalignedInterval => MisalignedIntervalRow
  | InconsistentOhlc => InconsistentOhlcRow
  | NegativeVolume => NegativeVolumeRow
  | ObservedAfterVisible => ObservedAfterVisibleRow
  | InvalidBarValue => InvalidFieldValue
  end.

Section rows.
Context `{ChronoClock} `{!ChronoLocal} `{RustDecimal}.
Context (request : CanonicalBarIngestRequest) (units : Units) (visibility : BarVisibilityRule).

(** The opening and the closing instant of the session of a date. *)
Definition session_bounds (timezone : Tz) (date : NaiveDate) : option (DateTime * DateTime) :=
  session ← find (fun session => bool_decide (local_date session = date)) (sessions (calendar request));
  open_time ← open_local_time session;
  open ← from_local_single timezone date open_time;
  close_time ← close_local_time session;
  close ← from_local_single timezone date close_time;
  let effective := calendar_effective (calendar request) in
  if leb (instant (ep_from effective)) open && leb close (instant (ep_to effective)) then Some (open, close) else None.

Definition interval (frequency : BarFrequency) (raw : RawBarRow) (timezone : Tz) : RowResult (DateTime * DateTime * NaiveDate) :=
  match interval_minutes frequency with
  | Some minutes =>
      start ← required raw (raw_bar_start raw) "bar_start";
      end_ ← ok_or (add_duration start (minutes * 60 * 1000000000)) RowPanics;
      let date := tz_local_date timezone start in
      match session_bounds timezone date with
      | None => rejected raw OutsideTradingSession None
      | Some (open, close) =>
          if ltb start open || ltb close end_ then rejected raw OutsideTradingSession None
          else Ok (start, end_, date)
      end
  | None =>
      date ← required raw (raw_trading_date raw) "trading_date";
      match session_bounds timezone date with
      | None => rejected raw OutsideTradingSession None
      | Some (open, close) => Ok (open, close, date)
      end
  end.

Definition row_visible_at (raw : RawBarRow) (bar_end : DateTime) : RowResult DateTime :=
  match visibility with
  | SourceField => required raw (raw_visible_at raw) "visible_at"
  | FixedDelay delay => ok_or (add_duration bar_end delay) RowPanics
  end.

Definition row_prices (raw : RawBarRow) : RowResult (option BarPrices) :=
  match raw_open raw, raw_high raw, raw_low raw, raw_close raw with
  | Some open, Some high, Some low, Some close =>
      open ← row_decimal raw (price_rule units) open "open";
      high ← row_decimal raw (price_rule units) high "high";
      low ← row_decimal raw (price_rule units) low "low";
      close ← row_decimal raw (price_rule units) close "close";
      Ok (Some {| Bar.open := open; Bar.high := high; Bar.low := low; Bar.close := close |})
  | None, None, None, None => Ok None
  | _, _, _, _ => rejected raw InconsistentOhlcRow None
  end.

Definition row_close_yield (raw : RawBarRow) : RowResult (option DecimalValue) :=
  match raw_close_yield raw, yield_rule units with
  | None, _ => Ok None
  | Some value, Some rule => d ← row_decimal raw rule value "close_yield"; Ok (Some d)
  | Some _, None => rejected raw InvalidFieldValue (Some "close_yield"%string)
  end.

(** [Ok None]: a valid row outside of the window. *)
Definition validate_row (raw : RawBarRow) : RowResult (option Bar) :=
  match invalid_field raw with
  | Some field => rejected raw InvalidFieldValue (Some field)
  | None =>
  record_id ← required raw (raw_source_record_id raw) "source_record_id";
  instrument_key ← required raw (raw_instrument_key raw) "instrument_key";
  frequency ← required raw (raw_frequency raw) "frequency";
  settlement ← required raw (raw_settlement raw) "settlement";
  raw_volume ← required raw (raw_volume raw) "volume";
  match tz_parse MARKET_TIMEZONE with
  | None => rejected raw InvalidFieldValue None
  | Some timezone =>
  '(bar_start, bar_end, trading_date) ← interval frequency raw timezone;
  visible_at ← row_visible_at raw bar_end;
  if ltb visible_at bar_end then rejected raw ObservedAfterVisibleRow None else
  if ltb (instant (as_of (window request))) bar_end || ltb (instant (visible_at_cutoff (window request))) visible_at then Ok None else
  match market_time_new bar_end MARKET_TIMEZONE (tz_local_date timezone bar_end) with
  | Err _ => rejected raw InvalidFieldValue None
  | Ok observed =>
  match mapping_resolve (mapping request) instrument_key observed with
  | Err _ => rejected raw UnmappedInstrument (Some "instrument_key"%string)
  | Ok instrument =>
  prices ← row_prices raw;
  close_yield ← row_close_yield raw;
  volume ← row_decimal raw (amount_rule units) raw_volume "volume";
  turnover ← optional_decimal raw (amount_rule units) (raw_turnover raw) "turnover";
  vwap ← optional_decimal raw (price_rule units) (raw_vwap raw) "vwap";
  match bar_new {|
    source_record_id := record_id; instrument := instrument; Bar.frequency := frequency; Bar.settlement := settlement;
    bar_timezone := MARKET_TIMEZONE; bar_trading_date := trading_date; Bar.bar_start := bar_start; Bar.bar_end := bar_end;
    Bar.visible_at := visible_at; Bar.prices := prices; Bar.volume := volume; Bar.turnover := turnover;
    trade_count := raw_trade_count raw; Bar.vwap := vwap; Bar.close_yield := close_yield |} with
  | Ok bar => Ok (Some bar)
  | Err violation => rejected raw (violation_reason violation) None
  end end end end end.
End rows.

(** ** Duplicates *)

Definition frequency_index (self : BarFrequency) : Z :=
  match self with M1 => 0 | M5 => 1 | M15 => 2 | M30 => 3 | H1 => 4 | D1 => 5 end.
#[export] Instance BarFrequency_ord : Ord BarFrequency := fun a b => cmp (frequency_index a) (frequency_index b).
#[export] Instance BarFrequency_ord_laws : OrdLaws BarFrequency.
Proof. by apply (ord_laws_via frequency_index); [intros [] []|]. Qed.

Definition settlement_index (self : BarSettlement) : Z := match self with T0 => 0 | T1 => 1 | Unspecified => 2 end.
#[export] Instance BarSettlement_ord : Ord BarSettlement := fun a b => cmp (settlement_index a) (settlement_index b).
#[export] Instance BarSettlement_ord_laws : OrdLaws BarSettlement.
Proof. by apply (ord_laws_via settlement_index); [intros [] []|]. Qed.

Definition BarKey : Type := string * (Z * (BarFrequency * (BarSettlement * DateTime))).

Definition bar_key (bar : Bar) : BarKey :=
  (ulid_str (vr_id (instrument bar)), (version_get (vr_version (instrument bar)),
    (frequency bar, (settlement bar, bar_start bar)))).

(** [*counts.entry(key).or_insert(0) += 1] for every element. *)
Definition count_by {A K} `{Ord K} (key : A -> K) (l : list A) : BTreeMap K Z :=
  foldl (fun counts a => btree_insert (key a) (default 0 (btree_get (key a) counts) + 1) counts) [] l.

(** [counts[&key]]; every key asked for has been counted. *)
Definition count_of {K} `{Ord K} (k : K) (counts : BTreeMap K Z) : Z := default 0 (btree_get k counts).

Definition duplicate_rejection (bar : Bar) : BarRejection :=
  {| row_id := source_record_id bar; rejection_reason := DuplicateBar; rejection_field := None |}.

(** The order of the kept bars: start, instrument, frequency, settlement, record. *)
Definition kept_key (bar : Bar) : DateTime * (string * (BarFrequency * (BarSettlement * string))) :=
  (bar_start bar, (ulid_str (vr_id (instrument bar)), (frequency bar, (settlement bar, source_record_id bar)))).

Definition keep_or_reject (key_counts : BTreeMap BarKey Z) (id_counts : BTreeMap string Z)
    (st : list Bar * list BarRejection) (bar : Bar) : list Bar * list BarRejection :=
  if (1 <? count_of (bar_key bar) key_counts) || (1 <? count_of (source_record_id bar) id_counts)
  then (st.1, st.2 ++ [duplicate_rejection bar]) else (st.1 ++ [bar], st.2).

Definition reject_duplicates (accepted : list Bar) (rejections : list BarRejection) : list Bar * list BarRejection :=
  let st := foldl (keep_or_reject (count_by bar_key accepted) (count_by source_record_id accepted)) ([], rejections) accepted in
  (sort_by_key kept_key st.1, st.2).

(** ** The batch *)

(** A row of the batch; nullable columns hold options. *)
Record BatchRow := {
  tenant_column : string;
  owner_column : string;
  data_source_column : string;
  data_source_version_column : Z;
  price_source_column : string;
  record_column : string;
  instrument_column : string;
  instrument_version_column : Z;
  frequency_column : string;
  settlement_column : string;
  start_column : Z;
  end_column : Z;
  observed_column : Z;
  visible_column : Z;
  date_column : Z;
  open_column : option string * option Z;
  high_column : option string * option Z;
  low_column : option string * option Z;
  close_column : option string * option Z;
  price_unit_column : string;
  price_unit_version_column : Z;
  volume_column : option string * option Z;
  turnover_column : option string * option Z;
  amount_unit_column : string;
  amount_unit_version_column : Z;
  trade_count_column : option Z;
  vwap_column : option string * option Z;
  yield_column : option string * option Z;
  yield_unit_column : option string;
  yield_unit_version_column : option Z
}.

Definition price_source_code (value : PriceSourceType) : string :=
  match value with
  | RealTrade => "REAL_TRADE" | ActiveQuote => "ACTIVE_QUOTE" | ModelValuation => "MODEL_VALUATION"
  | CurveInterpolation => "CURVE_INTERPOLATION"
  end.

Definition price_source_from_code (code : string) : option PriceSourceType :=
  find (fun value => bool_decide (price_source_code value = code)) [RealTrade; ActiveQuote; ModelValuation; CurveInterpolation].

Definition decimal_columns (value : option DecimalValue) : option string * option Z :=
  (coefficient <$> value, scale <$> value).

Definition EPOCH : NaiveDate := {| nd_year := 1970; nd_month := 1; nd_day := 1 |}.

Definition encode_row `{ChronoColumns} (request : CanonicalBarIngestRequest) (units : Units) (price_source : PriceSourceType)
    (date : Z) (bar : Bar) : BatchRow :=
  let owner := source_owner request in
  let yield_bound {A} (a : A) : option A := match close_yield bar with Some _ => Some a | None => None end in
  {| tenant_column := ulid_str (tenant_id owner); owner_column := ulid_str (owner_id owner);
     data_source_column := ulid_str (data_source_id (data_source_input (source request)));
     data_source_version_column := version_get (data_source_version (data_source_input (source request)));
     price_source_column := price_source_code price_source; record_column := source_record_id bar;
     instrument_column := ulid_str (vr_id (instrument bar)); instrument_version_column := version_get (vr_version (instrument bar));
     frequency_column := frequency_code (frequency bar); settlement_column := settlement_code (settlement bar);
     start_column := timestamp_micros (bar_start bar); end_column := timestamp_micros (bar_end bar);
     observed_column := timestamp_micros (bar_end bar); visible_column := timestamp_micros (visible_at bar);
     date_column := date;
     open_column := decimal_columns (Bar.open <$> prices bar); high_column := decimal_columns (high <$> prices bar);
     low_column := decimal_columns (low <$> prices bar); close_column := decimal_columns (Bar.close <$> prices bar);
     price_unit_column := ulid_str (unit_id (rule_unit (price_rule units)));
     price_unit_version_column := version_get (unit_version (rule_unit (price_rule units)));
     volume_column := decimal_columns (Some (volume bar)); turnover_column := decimal_columns (turnover bar);
     amount_unit_column := ulid_str (unit_id (rule_unit (amount_rule units)));
     amount_unit_version_column := version_get (unit_version (rule_unit (amount_rule units)));
     trade_count_column := trade_count bar; vwap_column := decimal_columns (vwap bar);
     yield_column := decimal_columns (close_yield bar);
     yield_unit_column := rule ← yield_rule units; yield_bound (ulid_str (unit_id (rule_unit rule)));
     yield_unit_version_column := rule ← yield_rule units; yield_bound (version_get (unit_version (rule_unit rule))) |}.

Definition encode_date `{ChronoDays} (bar : Bar) : DataResult Z :=
  ok_or (checked in_i32 (num_days EPOCH (bar_trading_date bar))) InvalidConfiguration.

Definition encode_batch `{ChronoColumns} `{ChronoDays} (request : CanonicalBarIngestRequest) (units : Units) (bars : list Bar)
    : DataResult (list BatchRow) :=
  price_source ← ok_or (data_source_price_type (source request)) InvalidConfiguration;
  dates ← try_map encode_date bars;
  Ok (zip_with (encode_row request units price_source) dates bars).

(** ** Ingestion *)

Record BarIngestReport := {
  rule_set_id : string;
  visibility_rule : string;
  read_rows : Z;
  outside_window_rows : Z;
  emitted_rows : Z;
  rejections : list BarRejection
}.

Record CanonicalBarBatch := { batch : list BatchRow; schema_hash : ContentHash; report : BarIngestReport }.

Inductive IngestFailure := Refused (error : DataError) | IngestPanics.

#[export] Instance IngestFailure_eq_dec : EqDecision IngestFailure.
Proof. solve_decision. Defined.

(** An adapter: its rule of visibility and what it reads from a source. *)
Record BarSourceAdapter := { adapter_visibility : BarVisibilityRule; adapter_read : DataSource -> DataResult (list RawBarRow) }.

Section ingest.
Context `{UlidCrate} `{Sha256} `{ChronoClock} `{!ChronoLocal} `{ChronoDelta} `{ChronoColumns} `{ChronoDays} `{RustDecimal}.

(** Accepted bars, the number of rows outside of the window, rejections. *)
Abbreviation Sorted := (list Bar * Z * list BarRejection)%type.

Definition take_row (request : CanonicalBarIngestRequest) (units : Units) (visibility : BarVisibilityRule)
    (st : Sorted) (raw : RawBarRow) : Result IngestFailure Sorted :=
  let '(accepted, outside, rejections) := st in
  match validate_row request units visibility raw with
  | Ok (Some bar) => Ok (accepted ++ [bar], outside, rejections)
  | Ok None => Ok (accepted, outside + 1, rejections)
  | Err (RowRejected rejection) => Ok (accepted, outside, rejections ++ [rejection])
  | Err RowPanics => Err IngestPanics
  end.

(** The bars of an import and its report, before they are written to a batch. *)
Definition ingest_bars (adapter : BarSourceAdapter) (request : CanonicalBarIngestRequest)
    : Result IngestFailure (Units * list Bar * BarIngestReport) :=
  raw_rows ← map_err Refused (adapter_read adapter (source request));
  units ← map_err Refused (units_new request);
  let visibility := adapter_visibility adapter in
  '(accepted, outside, rejections) ← try_fold (take_row request units visibility) ([], 0, []) raw_rows;
  let '(accepted, rejections) := reject_duplicates accepted rejections in
  let report := {|
    rule_set_id := BAR_QUALITY_RULE_SET_ID; visibility_rule := describe visibility;
    read_rows := Z.of_nat (List.length raw_rows); outside_window_rows := outside;
    emitted_rows := Z.of_nat (List.length accepted); rejections := sort rejections |} in
  if bool_decide (accepted = []) then Err (Refused (NoAcceptedBars (BarIngest.rejections report)))
  else Ok (units, accepted, report).

Definition ingest (adapter : BarSourceAdapter) (request : CanonicalBarIngestRequest) : Result IngestFailure CanonicalBarBatch :=
  '(units, accepted, report) ← ingest_bars adapter request;
  batch ← map_err Refused (encode_batch request units accepted);
  Ok {| batch := batch; schema_hash := canonical_bar_schema_hash; report := report |}.
End ingest.
