(* ===== verification/BarImport.v ===== *)
(** * What an import of bars does

    Theorems about [BarIngest]: every row of the source is emitted, outside of the window or rejected, the
    emitted bars are canonical, known in the window and unique, and the order in which the source delivers
    its rows does not matter. *)

From Stdlib Require Import ZArith Lia Strings.String.
From Stdlib Require Import Strings.Byte.
From stdpp Require Import base list option strings numbers sorting.
From S2P Require Import Prelude Machine Collections Primitives Codec Concrete Digits DecimalValue Exposure Bar DataHealth Ledger MarketData BarIngest.
Open Scope Z_scope.

(** ** Counting and duplicates *)

Section counting.
Context {A K : Type} `{OrdLaws K} `{EqDecision K} (key : A -> K).

Definition occurrences (k : K) (l : list A) : nat := List.length (filter (fun a => key a = k) l).

Lemma count_by_spec l k : count_of k (count_by key l) = Z.of_nat (occurrences k l).
Proof.
  unfold count_by. assert (Hgen : forall m, count_of k (foldl (fun counts a =>
    btree_insert (key a) (default 0 (btree_get (key a) counts) + 1) counts) m l) = count_of k m + Z.of_nat (occurrences k l)).
  { induction l as [|a l IH]; intros m; cbn [foldl]; [unfold occurrences; cbn; lia|]. rewrite IH. unfold occurrences. rewrite filter_cons.
    unfold count_of at 1. destruct (decide (key a = k)) as [<-|Hk].
    - rewrite btree_get_insert_eq. cbn [default from_option List.length]. unfold count_of, default, id. lia.
    - by rewrite btree_get_insert_ne by congruence. }
  rewrite Hgen. unfold count_of. cbn. lia.
Qed.

Lemma occurrences_pos a l : a ∈ l -> (1 <= occurrences (key a) l)%nat.
Proof.
  intros Ha. unfold occurrences. assert (Hf : a ∈ filter (fun b => key b = key a) l) by (by apply list_elem_of_filter).
  destruct (filter _ l); [by apply elem_of_nil in Hf|cbn; lia].
Qed.

(** Elements that occur once have the only copy of their key. *)
Lemma sole_NoDup (p : A -> bool) l :
  (forall a, a ∈ l -> p a = true -> (occurrences (key a) l <= 1)%nat) -> NoDup (map key (filter (fun a => p a) l)).
Proof.
  intros Hp. assert (Hgen : forall l', (forall a, a ∈ l' -> p a = true -> (occurrences (key a) l' <= 1)%nat) ->
    NoDup (map key (filter (fun a => p a) l'))); [|by apply Hgen].
  clear. induction l' as [|a l IH]; intros Hp; [constructor|]. rewrite filter_cons.
  assert (Hl : forall b, b ∈ l -> p b = true -> (occurrences (key b) l <= 1)%nat).
  { intros b Hb Pb. specialize (Hp b ltac:(by right) Pb). unfold occurrences in *. rewrite filter_cons in Hp.
    destruct (decide _); cbn in Hp; lia. }
  destruct (decide (p a)) as [Pa%Is_true_true|]; [|by apply IH]. cbn. constructor; [|by apply IH].
  intros (b & E & [Pb Hb]%list_elem_of_filter)%list_elem_of_fmap. specialize (Hp a ltac:(by left) Pa).
  unfold occurrences in Hp. rewrite filter_cons, decide_True in Hp by done. cbn in Hp.
  pose proof (occurrences_pos b l Hb) as Hpos. unfold occurrences in Hpos. rewrite E in Hp. lia.
Qed.

Lemma occurrences_perm k l m : l ≡ₚ m -> occurrences k l = occurrences k m.
Proof. intros Hp. unfold occurrences. by rewrite Hp. Qed.
End counting.

(** The only bar of a list with its key and the only one with its record id. *)
Definition sole (l : list Bar) (bar : Bar) : bool :=
  (occurrences bar_key (bar_key bar) l <=? 1)%nat && (occurrences source_record_id (source_record_id bar) l <=? 1)%nat.

Definition kept (l : list Bar) : list Bar := sort_by_key kept_key (filter (fun bar => sole l bar) l).
Definition duplicates (l : list Bar) : list BarRejection := map duplicate_rejection (filter (fun bar => negb (sole l bar)) l).

Lemma reject_duplicates_eq l r : reject_duplicates l r = (kept l, r ++ duplicates l).
Proof.
  unfold reject_duplicates, kept, duplicates. assert (Hgen : forall s st,
    foldl (keep_or_reject (count_by bar_key l) (count_by source_record_id l)) st s
    = (st.1 ++ filter (fun bar => sole l bar) s, st.2 ++ map duplicate_rejection (filter (fun bar => negb (sole l bar)) s))).
  { induction s as [|a s IH]; intros [ks rs]; cbn [foldl fst snd]; [by rewrite !app_nil_r|]. rewrite IH. unfold keep_or_reject.
    rewrite !filter_cons. replace (_ || _) with (negb (sole l a)).
    2:{ rewrite !count_by_spec. unfold sole. rewrite negb_andb, !Nat.leb_antisym, !negb_involutive.
        f_equal; apply eq_true_iff_eq; rewrite Nat.ltb_lt, Z.ltb_lt; lia. }
    destruct (sole l a); cbn; by rewrite <- (assoc_L (++)). }
  by rewrite Hgen.
Qed.

Lemma sole_perm l m bar : l ≡ₚ m -> sole l bar = sole m bar.
Proof. intros Hp. unfold sole. by rewrite !(occurrences_perm _ _ l m Hp). Qed.

Lemma filter_ext_bool {A} (p q : A -> bool) (l : list A) : (forall a, p a = q a) -> filter (fun a => p a) l = filter (fun a => q a) l.
Proof. intros Hpq. apply list_filter_iff. intros a. by rewrite Hpq. Qed.

Lemma kept_NoDup l : NoDup (map source_record_id (kept l)) /\ NoDup (map bar_key (kept l)).
Proof.
  unfold kept, sort_by_key. split.
  - change (NoDup (source_record_id <$> sort_by (fun x y => cmp (kept_key x) (kept_key y)) (filter (fun bar => sole l bar) l))).
    rewrite sort_by_perm. apply sole_NoDup. intros a _ [_ Hi%Nat.leb_le]%andb_true_iff. done.
  - change (NoDup (bar_key <$> sort_by (fun x y => cmp (kept_key x) (kept_key y)) (filter (fun bar => sole l bar) l))).
    rewrite sort_by_perm. apply sole_NoDup. intros a _ [Hi%Nat.leb_le _]%andb_true_iff. done.
Qed.

(** Kept bars have distinct records, so that their order is strict. *)
Lemma kept_strict l : StronglySorted (fun a b => cmp (kept_key a) (kept_key b) = Lt) (kept l).
Proof.
  apply (sorted_strict kept_key (fun a b => bool_decide (kept_key a = kept_key b))).
  - intros a b E. by apply bool_decide_eq_false in E.
  - apply sort_by_key_sorted.
  - apply windows2_any_false. intros i a b Ha Hb. apply bool_decide_eq_false. intros E.
    destruct (kept_NoDup l) as [Hn _]. assert (i = S i); [|lia].
    apply (NoDup_lookup (map source_record_id (kept l)) i (S i) (source_record_id a)); [done|..].
    + change (map source_record_id (kept l)) with (source_record_id <$> kept l). by rewrite list_lookup_fmap, Ha.
    + change (map source_record_id (kept l)) with (source_record_id <$> kept l). rewrite list_lookup_fmap, Hb. cbn. by injection E as _ _ _ _ ->.
Qed.

Lemma kept_perm l m : l ≡ₚ m -> kept l = kept m.
Proof.
  intros Hp. apply (@StronglySorted_unique _ (fun a b => cmp (kept_key a) (kept_key b) = Lt)).
  - apply lt_antisymm.
  - apply kept_strict.
  - apply kept_strict.
  - unfold kept, sort_by_key. rewrite !sort_by_perm. rewrite (filter_ext_bool _ (sole m)) by (intros; by apply sole_perm). by rewrite Hp.
Qed.

Lemma duplicates_perm l m : l ≡ₚ m -> duplicates l ≡ₚ duplicates m.
Proof.
  intros Hp. unfold duplicates. rewrite (filter_ext_bool _ (fun bar => negb (sole m bar))) by (intros; by rewrite (sole_perm l m)).
  by rewrite Hp.
Qed.

Lemma kept_length l : Z.of_nat (List.length (kept l)) + Z.of_nat (List.length (duplicates l)) = Z.of_nat (List.length l).
Proof.
  unfold kept, duplicates, sort_by_key. rewrite length_map, sort_by_perm.
  generalize (sole l). intros p. induction l as [|a l IH]; [done|]. rewrite !filter_cons. destruct (p a).
  - rewrite decide_True, decide_False by (cbn; tauto). cbn [List.length]. lia.
  - rewrite decide_False, decide_True by (cbn; tauto). cbn [List.length]. lia.
Qed.

(** ** Sorting by a total order *)

Lemma sort_perm_eq {A} `{OrdLaws A} (l m : list A) : l ≡ₚ m -> sort l = sort m.
Proof.
  intros Hp. apply (@StronglySorted_unique _ (fun a b => cmp a b <> Gt)).
  - intros a b Hab Hba. rewrite (cmp_opp a b) in Hba. destruct (cmp a b) eqn:E; [by apply cmp_eq|done..].
  - apply (sort_by_key_sorted (fun a => a)).
  - apply (sort_by_key_sorted (fun a => a)).
  - unfold sort. by rewrite !sort_by_perm.
Qed.

(** ** The decimals of a row *)

(** [d] is the exact value of a raw decimal, within the scale and precision of its unit. *)
Record exact_reading (rule : UnitRule) (raw : RawDecimal) (d : DecimalValue) : Prop := {
  reading_wf : wf_decimal d;
  reading_unit : value_unit d = rule_unit rule;
  reading_value : exists z, parse_i128 (raw_coefficient raw) = Some z /\ value d = in_units z (raw_scale raw);
  reading_scale : scale d <= rule_scale rule;
  reading_digits : Z.of_nat (List.length (trim_minus (as_bytes (coefficient d)))) <= rule_precision rule
}.

Lemma read_decimal_Ok rule raw d : 0 <= raw_scale raw -> read_decimal raw rule = Ok d -> exact_reading rule raw d.
Proof.
  intros Hs. unfold read_decimal. intros E. apply bind_Ok in E as (v & Ev & E). apply bind_Ok in E as (n & En & E).
  destruct (_ || _) eqn:Eb in E; [done|]. injection E as <-. apply orb_false_iff in Eb as [Es%Z.ltb_ge Ep%Z.ltb_ge].
  destruct (decimal_value_new _ _ _) eqn:Ed in Ev; [|done]. cbn in Ev. injection Ev as ->.
  destruct (decimal_value_new_Ok _ _ _ _ Hs Ed) as (z & Pz & _ & Ve & Ue & _ & We).
  apply ok_or_Ok in En. apply checked_Some in En as [_ ->]. split; try done. by exists z.
Qed.

Lemma row_decimal_Ok raw rule v field d : row_decimal raw rule v field = Ok d <-> read_decimal v rule = Ok d.
Proof. unfold row_decimal, rejected. destruct (read_decimal v rule); split; congruence. Qed.

(** An optional field of a row and of its bar. *)
Definition reads_optional (rule : UnitRule) (raw : option RawDecimal) (d : option DecimalValue) : Prop :=
  option_Forall2 (exact_reading rule) raw d.

Definition wf_raw (raw : option RawDecimal) : Prop := from_option (fun r => 0 <= raw_scale r) True raw.

Lemma optional_decimal_Ok raw rule v field d :
  wf_raw v -> optional_decimal raw rule v field = Ok d -> reads_optional rule v d.
Proof.
  unfold optional_decimal, wf_raw. destruct v as [v|]; [|intros _ [= <-]; constructor]. intros W E. apply bind_Ok in E as (x & Ex & [= <-]).
  apply row_decimal_Ok in Ex. constructor. by apply read_decimal_Ok.
Qed.

Lemma required_Ok {A} raw (v : option A) field a : required raw v field = Ok a <-> v = Some a.
Proof. unfold required, rejected. destruct v; split; congruence. Qed.

(** The raw decimals of a row have [u32] scales. *)
Record wf_row (raw : RawBarRow) : Prop := {
  wf_raw_open : wf_raw (raw_open raw);
  wf_raw_high : wf_raw (raw_high raw);
  wf_raw_low : wf_raw (raw_low raw);
  wf_raw_close : wf_raw (raw_close raw);
  wf_raw_volume : wf_raw (raw_volume raw);
  wf_raw_turnover : wf_raw (raw_turnover raw);
  wf_raw_vwap : wf_raw (raw_vwap raw);
  wf_raw_yield : wf_raw (raw_close_yield raw)
}.

(** ** What a row becomes *)

Section import.
Context `{UlidCrate} `{Sha256} `{ChronoClock} `{!ChronoLocal} `{ChronoDelta} `{ChronoColumns} `{ChronoDays} `{RustDecimal}.
Context (request : CanonicalBarIngestRequest) (units : Units) (visibility : BarVisibilityRule).

Definition row_bar (raw : RawBarRow) : option Bar :=
  match validate_row request units visibility raw with Ok bar => bar | Err _ => None end.
Definition row_rejection (raw : RawBarRow) : option BarRejection :=
  match validate_row request units visibility raw with Err (RowRejected r) => Some r | _ => None end.
Definition row_outside (raw : RawBarRow) : bool :=
  match validate_row request units visibility raw with Ok None => true | _ => false end.
Definition row_panics (raw : RawBarRow) : bool :=
  match validate_row request units visibility raw with Err RowPanics => true | _ => false end.

Definition outside_rows (rows : list RawBarRow) : Z := Z.of_nat (List.length (filter (fun raw => row_outside raw) rows)).

Lemma outside_rows_cons raw rows : outside_rows (raw :: rows) = (if row_outside raw then 1 else 0) + outside_rows rows.
Proof.
  unfold outside_rows. rewrite filter_cons. destruct (row_outside raw).
  - rewrite decide_True by done. cbn [List.length]. lia.
  - by rewrite decide_False by (cbn; tauto).
Qed.

Lemma take_rows_eq rows a o r :
  try_fold (take_row request units visibility) (a, o, r) rows =
  if existsb row_panics rows then Err IngestPanics
  else Ok (a ++ omap row_bar rows, o + outside_rows rows, r ++ omap row_rejection rows).
Proof.
  revert a o r. induction rows as [|raw rows IH]; intros a o r; cbn [try_fold existsb omap list_omap].
  { rewrite !app_nil_r. cbn. by rewrite Z.add_0_r. }
  rewrite outside_rows_cons. unfold row_bar at 1, row_outside, row_rejection at 1, row_panics at 1.
  unfold take_row at 2. destruct (validate_row request units visibility raw) as [[bar|]|[rejection|]]; cbn [mbind Result_bind orb]; [..|done].
  all: rewrite IH; destruct (existsb row_panics rows); [done|]; rewrite <- ?(assoc_L (++)), Z.add_assoc, ?Z.add_0_r; done.
Qed.

(** Every row is accepted, outside of the window or rejected. *)
Lemma rows_accounted rows :
  existsb row_panics rows = false ->
  Z.of_nat (List.length rows) = Z.of_nat (List.length (omap row_bar rows)) + outside_rows rows + Z.of_nat (List.length (omap row_rejection rows)).
Proof.
  induction rows as [|raw rows IH]; [done|]. cbn [existsb omap list_omap]. intros [Hp Hr]%orb_false_iff. specialize (IH Hr).
  rewrite outside_rows_cons. unfold row_bar at 1, row_outside, row_rejection at 1. unfold row_panics in Hp.
  destruct (validate_row request units visibility raw) as [[bar|]|[rejection|]]; cbn [List.length]; (done || lia).
Qed.

Definition import_report (rows : list RawBarRow) : BarIngestReport :=
  let accepted := omap row_bar rows in
  {| rule_set_id := BAR_QUALITY_RULE_SET_ID; visibility_rule := describe visibility; read_rows := Z.of_nat (List.length rows);
     outside_window_rows := outside_rows rows; emitted_rows := Z.of_nat (List.length (kept accepted));
     rejections := sort (omap row_rejection rows ++ duplicates accepted) |}.

(** The result of an import as a function of the set of rows. *)
Definition import_result (rows : list RawBarRow) : Result IngestFailure (Units * list Bar * BarIngestReport) :=
  if existsb row_panics rows then Err IngestPanics
  else if bool_decide (kept (omap row_bar rows) = []) then Err (Refused (NoAcceptedBars (rejections (import_report rows))))
  else Ok (units, kept (omap row_bar rows), import_report rows).

Lemma ingest_bars_eq adapter rows :
  adapter_visibility adapter = visibility -> adapter_read adapter (source request) = Ok rows -> units_new request = Ok units ->
  ingest_bars adapter request = import_result rows.
Proof.
  intros Ev Er Eu. unfold ingest_bars, import_result, import_report. rewrite Er, Eu. cbn [map_err mbind Result_bind]. rewrite Ev, take_rows_eq.
  destruct (existsb row_panics rows); [done|]. cbn [mbind Result_bind app]. rewrite reject_duplicates_eq, Z.add_0_l. done.
Qed.

Lemma existsb_perm {A} (p : A -> bool) l m : l ≡ₚ m -> existsb p l = existsb p m.
Proof. induction 1; cbn; [done|congruence|by destruct (p x), (p y)|congruence]. Qed.

Lemma import_result_perm rows rows' : rows ≡ₚ rows' -> import_result rows = import_result rows'.
Proof.
  intros Hp. unfold import_result, import_report, outside_rows. rewrite (existsb_perm _ _ _ Hp).
  assert (Ho : omap row_bar rows ≡ₚ omap row_bar rows') by (by rewrite Hp).
  rewrite (kept_perm _ _ Ho), (sort_perm_eq (omap row_rejection rows ++ duplicates (omap row_bar rows))
    (omap row_rejection rows' ++ duplicates (omap row_bar rows'))).
  - assert (El : List.length rows = List.length rows') by (by rewrite Hp).
    assert (Ef : List.length (filter (fun raw => row_outside raw) rows) = List.length (filter (fun raw => row_outside raw) rows')) by (by rewrite Hp).
    by rewrite El, Ef.
  - rewrite (duplicates_perm _ _ Ho). by rewrite Hp.
Qed.
End import.

(** ** What an emitted bar is *)

Section sound.
Context `{UlidCrate} `{Sha256} `{ChronoClock} `{!ChronoLocal} `{RustDecimalLaws}.
Context (request : CanonicalBarIngestRequest) (units : Units) (visibility : BarVisibilityRule).

(** The prices of a bar are read from the four price fields of its row, or all are missing. *)
Definition reads_prices (raw : RawBarRow) (p : option BarPrices) : Prop :=
  match p with
  | Some p => reads_optional (price_rule units) (raw_open raw) (Some (Bar.open p))
      /\ reads_optional (price_rule units) (raw_high raw) (Some (Bar.high p))
      /\ reads_optional (price_rule units) (raw_low raw) (Some (Bar.low p))
      /\ reads_optional (price_rule units) (raw_close raw) (Some (Bar.close p))
  | None => raw_open raw = None /\ raw_high raw = None /\ raw_low raw = None /\ raw_close raw = None
  end.

(** [bar] is what the row [raw] says, under the calendar, mapping, units and window of the request. *)
Record imported (raw : RawBarRow) (bar : Bar) : Prop := {
  imported_fields : raw_source_record_id raw = Some (source_record_id bar) /\ raw_frequency raw = Some (frequency bar)
    /\ raw_settlement raw = Some (settlement bar) /\ raw_trade_count raw = trade_count bar
    /\ bar_timezone bar = MARKET_TIMEZONE;
  imported_canonical : canonical_bar bar;
  imported_window : leb (bar_end bar) (instant (as_of (window request))) = true
    /\ leb (visible_at bar) (instant (visible_at_cutoff (window request))) = true;
  imported_visible : match visibility with
    | SourceField => raw_visible_at raw = Some (visible_at bar)
    | FixedDelay delay => add_duration (bar_end bar) delay = Some (visible_at bar)
    end;
  imported_session : exists tz open close, tz_parse MARKET_TIMEZONE = Some tz
    /\ session_bounds request tz (bar_trading_date bar) = Some (open, close)
    /\ leb open (bar_start bar) = true /\ leb (bar_end bar) close = true;
  imported_instrument : exists key observed, raw_instrument_key raw = Some key /\ instant observed = bar_end bar
    /\ mapping_resolve (mapping request) key observed = Ok (instrument bar);
  imported_prices : reads_prices raw (prices bar);
  imported_volume : reads_optional (amount_rule units) (raw_volume raw) (Some (volume bar));
  imported_turnover : reads_optional (amount_rule units) (raw_turnover raw) (turnover bar);
  imported_vwap : reads_optional (price_rule units) (raw_vwap raw) (vwap bar);
  imported_yield : match yield_rule units with
    | Some rule => reads_optional rule (raw_close_yield raw) (close_yield bar)
    | None => raw_close_yield raw = None /\ close_yield bar = None
    end
}.

Lemma interval_Ok frequency raw tz s e d :
  interval request frequency raw tz = Ok (s, e, d) ->
  exists open close, session_bounds request tz d = Some (open, close) /\ leb open s = true /\ leb e close = true.
Proof.
  unfold interval. destruct (interval_minutes frequency) as [minutes|]; intros E; apply bind_Ok in E as (x & _ & E).
  - apply bind_Ok in E as (y & _ & E). destruct (session_bounds request tz (tz_local_date tz x)) as [[open close]|] eqn:Es; [|done].
    destruct (_ || _) eqn:Eb in E; [done|]. injection E as <- <- <-. apply orb_false_iff in Eb as [Eo Ec].
    exists open, close. by rewrite Es, !leb_ltb, Eo, Ec.
  - destruct (session_bounds request tz x) as [[open close]|] eqn:Es; [|done]. injection E as <- <- <-.
    exists open, close. rewrite Es, !leb_ltb. split; [done|]. unfold ltb. by rewrite !cmp_refl.
Qed.

Lemma row_prices_Ok raw p : wf_row raw -> row_prices units raw = Ok p -> reads_prices raw p.
Proof.
  intros [Wo Wh Wl Wc _ _ _ _]. unfold row_prices, reads_prices.
  destruct (raw_open raw) as [o|], (raw_high raw) as [h|], (raw_low raw) as [l|], (raw_close raw) as [c|]; try done; [|by intros [= <-]].
  intros E. do 4 (apply bind_Ok in E as (? & ?%row_decimal_Ok & E)). injection E as <-. cbn in *.
  repeat split; constructor; by apply read_decimal_Ok.
Qed.

Lemma reads_wf rule raw d : reads_optional rule raw d -> from_option wf_decimal True d.
Proof. intros []; [by apply reading_wf with rule x|done]. Qed.

Lemma validate_row_sound raw bar :
  wf_row raw -> validate_row request units visibility raw = Ok (Some bar) -> imported raw bar /\ wf_bar bar.
Proof.
  intros W. unfold validate_row. destruct (invalid_field raw); [done|]. intros E.
  apply bind_Ok in E as (record & Erec%required_Ok & E). apply bind_Ok in E as (key & Ekey%required_Ok & E).
  apply bind_Ok in E as (freq & Ef%required_Ok & E). apply bind_Ok in E as (sett & Es%required_Ok & E).
  apply bind_Ok in E as (vol & Ev%required_Ok & E). destruct (tz_parse MARKET_TIMEZONE) as [tz|] eqn:Etz; [|done].
  apply bind_Ok in E as ([[s e] d] & Ei & E). apply bind_Ok in E as (vis & Evis & E).
  destruct (ltb vis e); [done|]. destruct (_ || _) eqn:Ew in E; [done|]. apply orb_false_iff in Ew as [Wa Wv].
  destruct (market_time_new _ _ _) as [observed|] eqn:Eo; [|done].
  destruct (mapping_resolve _ _ _) as [ins|] eqn:Em; [|done].
  apply bind_Ok in E as (p & Ep & E). apply bind_Ok in E as (y & Ey & E). apply bind_Ok in E as (v & Evol%row_decimal_Ok & E).
  apply bind_Ok in E as (t & Et & E). apply bind_Ok in E as (w & Evw & E).
  destruct (bar_new _) as [bar'|] eqn:Eb; [|done]. injection E as ->.
  apply (row_prices_Ok raw p W) in Ep. apply optional_decimal_Ok in Et; [|apply W]. apply optional_decimal_Ok in Evw; [|apply W].
  apply read_decimal_Ok in Evol; [|pose proof (wf_raw_volume raw W) as Hv; by rewrite Ev in Hv].
  assert (Hy : match yield_rule units with
    | Some rule => reads_optional rule (raw_close_yield raw) y
    | None => raw_close_yield raw = None /\ y = None end).
  { unfold row_close_yield in Ey. pose proof (wf_raw_yield raw W) as Hw. destruct (raw_close_yield raw) as [ry|].
    - destruct (yield_rule units) as [rule|]; [|done]. apply bind_Ok in Ey as (dy & Edy%row_decimal_Ok & [= <-]).
      constructor. by apply read_decimal_Ok.
    - injection Ey as <-. destruct (yield_rule units); [constructor|done]. }
  match type of Eb with bar_new ?b = _ => assert (Wb : wf_bar b) end.
  { split; cbn; [by apply Evol|by apply (reads_wf _ _ _ Et)| |by apply (reads_wf _ _ _ Evw)].
    unfold reads_prices in Ep. destruct p as [p|]; [|done]. cbn. destruct Ep as (Po & Ph & Pl & Pc).
    by split; [apply (reads_wf _ _ _ Po)|split; [apply (reads_wf _ _ _ Ph)|split; [apply (reads_wf _ _ _ Pl)|apply (reads_wf _ _ _ Pc)]]]. }
  apply bar_new_Ok in Eb as [-> Hc]; [|done]. split; [|done]. apply interval_Ok in Ei as (open & close & Hs & Ho & Hcl).
  unfold market_time_new in Eo. apply bind_Ok in Eo as (tz' & _ & Eo). destruct (negb _); [done|]. injection Eo as <-.
  split; cbn; try done.
  - rewrite !leb_ltb. by rewrite Wa, Wv.
  - unfold row_visible_at in Evis. destruct visibility; [by apply required_Ok in Evis|by apply ok_or_Ok in Evis].
  - by exists tz, open, close.
  - eexists key, _. split; [done|]. split; [|done]. done.
  - rewrite Ev. by constructor.
Qed.

End sound.

(** ** Properties *)

(** The report of an import: sorted, one rejection for every row that is neither emitted nor outside of
    the window. *)
Record accounts `{ChronoClock} `{!ChronoLocal} `{RustDecimal} (request : CanonicalBarIngestRequest) (units : Units)
    (visibility : BarVisibilityRule) (rows : list RawBarRow) (bars : list Bar) (report : BarIngestReport) : Prop := {
  accounts_read : read_rows report = Z.of_nat (List.length rows);
  accounts_emitted : emitted_rows report = Z.of_nat (List.length bars);
  accounts_sum : emitted_rows report + outside_window_rows report + Z.of_nat (List.length (rejections report)) = read_rows report;
  accounts_rejections : rejections report ≡ₚ omap (row_rejection request units visibility) rows
    ++ duplicates (omap (row_bar request units visibility) rows);
  accounts_sorted : StronglySorted (fun a b => cmp a b <> Gt) (rejections report)
}.

Lemma import_exact `{UlidCrate} `{Sha256} `{ChronoClock} `{!ChronoLocal} `{ChronoDelta} `{RustDecimalLaws}
    adapter request units rows :
  adapter_read adapter (source request) = Ok rows -> Forall wf_row rows -> units_new request = Ok units ->
  let accepted := omap (row_bar request units (adapter_visibility adapter)) rows in
  match ingest_bars adapter request with
  | Ok (units', bars, report) =>
      units' = units /\ bars <> []
      /\ (forall bar, bar ∈ bars <-> bar ∈ accepted /\ sole accepted bar = true)
      /\ Forall (fun bar => exists raw, raw ∈ rows /\ imported request units (adapter_visibility adapter) raw bar) bars
      /\ NoDup (map source_record_id bars) /\ NoDup (map bar_key bars)
      /\ StronglySorted (fun a b => cmp (kept_key a) (kept_key b) = Lt) bars
      /\ accounts request units (adapter_visibility adapter) rows bars report
  | Err IngestPanics => exists raw, raw ∈ rows /\ validate_row request units (adapter_visibility adapter) raw = Err RowPanics
  | Err (Refused (NoAcceptedBars rejections)) =>
      (forall bar, bar ∈ accepted -> sole accepted bar = false) /\ StronglySorted (fun a b => cmp a b <> Gt) rejections
  | Err (Refused _) => False
  end.
Proof.
  intros Er W Eu. cbv zeta. rewrite (ingest_bars_eq request units _ adapter rows) by done. unfold import_result.
  set (vis := adapter_visibility adapter). set (acc := omap (row_bar request units vis) rows).
  assert (Hk : forall bar, bar ∈ kept acc <-> bar ∈ acc /\ sole acc bar = true).
  { intros bar. unfold kept, sort_by_key. rewrite sort_by_perm, list_elem_of_filter, Is_true_true. tauto. }
  assert (Hsort : forall l : list BarRejection, StronglySorted (fun a b => cmp a b <> Gt) (sort l))
    by (intros l; apply (sort_by_key_sorted (fun a => a))).
  destruct (existsb _ rows) eqn:Ep.
  { apply existsb_exists in Ep as (raw & Hin & Hp). exists raw. split; [by apply list_elem_of_In|].
    unfold row_panics in Hp. by destruct (validate_row _ _ _ raw) as [|[]]. }
  case_bool_decide as Hn.
  { split; [|apply Hsort]. intros bar Hb. apply not_true_iff_false. intros Hs. apply (not_elem_of_nil bar). rewrite <- Hn. by apply Hk. }
  destruct (kept_NoDup acc) as [Nr Nk]. split; [done|]. split; [done|]. split; [done|]. split; [|split; [done|split; [done|split; [apply kept_strict|]]]].
  - apply Forall_forall. intros bar [Hb _]%Hk. apply list_elem_of_omap in Hb as (raw & Hr & Hb). exists raw. split; [done|].
    rewrite Forall_forall in W. unfold row_bar in Hb. destruct (validate_row _ _ _ raw) as [o|] eqn:Ev; [|done]. subst o.
    destruct (validate_row_sound request units vis raw bar (W raw Hr) Ev) as [Hi _]. exact Hi.
  - unfold import_report. fold acc. split; cbn; [done|done| | |apply Hsort].
    + pose proof (rows_accounted request units vis rows Ep) as Ha. fold acc in Ha. pose proof (kept_length acc) as Hl.
      assert (Es : List.length (sort (omap (row_rejection request units vis) rows ++ duplicates acc))
        = (List.length (omap (row_rejection request units vis) rows) + List.length (duplicates acc))%nat)
        by (unfold sort; by rewrite sort_by_perm, length_app).
      rewrite Es. lia.
    + unfold sort. by rewrite sort_by_perm.
Qed.

(** C11. An import is exact: it fails as a whole only when a row makes the arithmetic of instants panic or
    when no bar is left, and otherwise its bars are precisely the accepted rows whose key and record id
    no other accepted row has. Every bar is canonical and says what its row says - ended and visible
    within the window, inside the trading session of its date, the instrument its mapping gives, decimals
    equal to the raw ones within the scale and precision of their unit - records and keys are unique, the
    order is strict, and the report accounts for every row that was read. *)
Theorem bar_import_exact `{UlidCrate} `{Sha256} `{ChronoClock} `{!ChronoLocal} `{ChronoDelta} `{RustDecimalLaws}
    adapter request units rows :
  adapter_read adapter (source request) = Ok rows -> Forall wf_row rows -> units_new request = Ok units ->
  let accepted := omap (row_bar request units (adapter_visibility adapter)) rows in
  match ingest_bars adapter request with
  | Ok (units', bars, report) =>
      units' = units /\ bars <> []
      /\ (forall bar, bar ∈ bars <-> bar ∈ accepted /\ sole accepted bar = true)
      /\ Forall (fun bar => exists raw, raw ∈ rows /\ imported request units (adapter_visibility adapter) raw bar) bars
      /\ NoDup (map source_record_id bars) /\ NoDup (map bar_key bars)
      /\ StronglySorted (fun a b => cmp (kept_key a) (kept_key b) = Lt) bars
      /\ accounts request units (adapter_visibility adapter) rows bars report
  | Err IngestPanics => exists raw, raw ∈ rows /\ validate_row request units (adapter_visibility adapter) raw = Err RowPanics
  | Err (Refused (NoAcceptedBars rejections)) =>
      (forall bar, bar ∈ accepted -> sole accepted bar = false) /\ StronglySorted (fun a b => cmp a b <> Gt) rejections
  | Err (Refused _) => False
  end.
Proof. apply import_exact. Qed.

(** C25. The order in which a source delivers its rows does not matter: two adapters with one rule of
    visibility that read the same rows in any order produce the same batch and the same report, or fail
    in the same way. *)
Theorem bar_import_order_irrelevant `{UlidCrate} `{Sha256} `{ChronoClock} `{!ChronoLocal} `{ChronoDelta} `{ChronoColumns}
    `{ChronoDays} `{RustDecimal} a b request rows rows' :
  adapter_visibility a = adapter_visibility b -> adapter_read a (source request) = Ok rows ->
  adapter_read b (source request) = Ok rows' -> rows ≡ₚ rows' -> ingest a request = ingest b request.
Proof.
  intros Ev Ea Eb Hp. unfold ingest. destruct (units_new request) as [units|e] eqn:Eu.
  - rewrite (ingest_bars_eq request units _ a rows), (ingest_bars_eq request units (adapter_visibility a) b rows') by done.
    by rewrite Ev, (import_result_perm _ _ _ rows rows').
  - unfold ingest_bars. by rewrite Ea, Eb, Eu.
Qed.

(** ** A small import *)

Section example.
Local Existing Instance sample_ulid_crate.
Local Existing Instance sample_sha256.
Local Existing Instance sample_delta.
Local Existing Instance sample_decimal.
Local Existing Instance sample_decimal_laws.

(** One time zone without offset; the days of January 2026 are counted from the epoch, and a column of dates
    counts as if all months had 31 days. *)
#[local] Instance market_chrono : Chrono := {|
  Tz := string;
  tz_parse := fun s => if bool_decide (s = MARKET_TIMEZONE) then Some s else None;
  tz_name := fun s => s;
  tz_local_date := fun _ t => {| nd_year := 2026; nd_month := 1; nd_day := timestamp t / 86400 |};
  date_to_string := fun _ => ""%string
|}.
#[local] Instance market_clock : ChronoClock := {|
  local_hour := fun _ t => timestamp t mod 86400 / 3600;
  local_minute := fun _ t => timestamp t mod 3600 / 60;
  local_second := fun _ t => timestamp t mod 60;
  local_nanosecond := fun _ t => timestamp_subsec_nanos t;
  nanos_between := fun t u => nanos_of u - nanos_of t
|}.
#[local] Instance market_local : ChronoLocal := {|
  from_local_single := fun _ d t => Some {| timestamp := nd_day d * 86400 + nt_seconds t; timestamp_subsec_nanos := nt_nanos t |};
  add_duration := fun t n => s ← checked in_i32 (timestamp t + n / 1000000000);
    Some {| timestamp := s; timestamp_subsec_nanos := timestamp_subsec_nanos t |}
|}.
#[local] Instance market_columns : ChronoColumns := {|
  timestamp_micros := fun t => timestamp t * 1000000 + timestamp_subsec_nanos t / 1000;
  from_timestamp_micros := fun m => Some {| timestamp := m / 1000000; timestamp_subsec_nanos := m mod 1000000 * 1000 |};
  date_of_days := fun d => Some {| nd_year := d / 372; nd_month := d mod 372 / 31 + 1; nd_day := d mod 31 + 1 |}
|}.
#[local] Instance market_days : ChronoDays := fun _ d => nd_year d * 372 + (nd_month d - 1) * 31 + (nd_day d - 1).

Definition market_time (seconds : Z) : MarketTime := {|
  instant := {| timestamp := seconds; timestamp_subsec_nanos := 0 |}; market_timezone := MARKET_TIMEZONE;
  local_trading_date := {| nd_year := 2026; nd_month := 1; nd_day := seconds / 86400 |}
|}.
Definition market_period (from to : Z) : EffectivePeriod := {| ep_from := market_time from; ep_to := market_time to |}.

Definition market_unit (name : string) : Unit := {|
  unit_identity := sample_id "U"; unit_number := mk_version 1; unit_owner := sample_owner; unit_code := "CNY";
  dimension := name; unit_scale := 4; unit_precision := 12 |}.

Definition market_session (day : Z) : CalendarSession := {|
  local_date := {| nd_year := 2026; nd_month := 1; nd_day := day |};
  open_local_time := Some {| nt_seconds := 36000; nt_nanos := 0 |};
  close_local_time := Some {| nt_seconds := 61200; nt_nanos := 0 |} |}.

Definition market_source : DataSource := {|
  data_source_input := {| data_source_id := sample_id "D"; data_source_version := mk_version 1; data_source_owner := sample_owner;
    data_source_kind := FileNdjson; data_source_name := "bars"; connection_binding := "market"; dataset := "bars";
    canonical_schema_id := CANONICAL_BAR_SCHEMA_ID; canonical_schema_hash := canonical_bar_schema_hash |};
  data_source_price_type := Some RealTrade |}.

Definition market_request : CanonicalBarIngestRequest := {|
  source := market_source;
  mapping := {| mapping_id := sample_id "M"; mapping_owner := sample_owner; mapping_source := source_ref market_source;
    entries := [{| source_instrument_key := "bond"; entry_effective := market_period 0 (30 * 86400); entry_instrument := sample_vref "B" |}];
    mapping_hash := sample_hash x00 |};
  calendar := {| calendar_id := sample_id "C"; calendar_version := mk_version 1; calendar_owner := sample_owner; market := "CIBM";
    calendar_timezone := MARKET_TIMEZONE; calendar_effective := market_period 0 (30 * 86400); sessions := map market_session [5; 6; 7; 8] |};
  price_unit := market_unit "price"; amount_unit := market_unit "amount"; yield_unit := None;
  window := {| as_of := market_time (8 * 86400); visible_at_cutoff := market_time (8 * 86400) |}
|}.

Definition raw_text (s : string) : option RawDecimal := parse_decimal_text s.

Definition daily_row (ordinal : Z) (id : string) (day : Z) (volume : string) : RawBarRow := {|
  row_ordinal := ordinal; raw_source_record_id := Some id; raw_instrument_key := Some "bond"%string; raw_frequency := Some D1;
  raw_settlement := Some T1; raw_bar_start := None; raw_trading_date := Some {| nd_year := 2026; nd_month := 1; nd_day := day |};
  raw_visible_at := Some {| timestamp := day * 86400 + 62000; timestamp_subsec_nanos := 1500 |};
  raw_open := raw_text "101.25"; raw_high := raw_text "102"; raw_low := raw_text "100.5"; raw_close := raw_text "101.5";
  raw_volume := raw_text volume; raw_turnover := None; raw_trade_count := None; raw_vwap := None; raw_close_yield := None;
  invalid_field := None
|}.

(** A good row, a day in two versions, a row after the window, a bad volume and a day off. *)
Definition market_rows : list RawBarRow :=
  [daily_row 1 "r5" 5 "1000"; daily_row 2 "r6" 6 "500"; daily_row 3 "r6b" 6 "501"; daily_row 4 "r8" 8 "700";
   daily_row 5 "r7" 7 "-3"; daily_row 6 "r9" 9 "800"].

Definition market_adapter (rows : list RawBarRow) : BarSourceAdapter :=
  {| adapter_visibility := SourceField; adapter_read := fun _ => Ok rows |}.

Example market_import :
  (fun r => (map source_record_id r.1.2, rejections r.2, outside_window_rows r.2)) <$> ingest_bars (market_adapter market_rows) market_request
  = Ok (["r5"], [{| row_id := "r6"; rejection_reason := DuplicateBar; rejection_field := None |};
                 {| row_id := "r6b"; rejection_reason := DuplicateBar; rejection_field := None |};
                 {| row_id := "r7"; rejection_reason := NegativeVolumeRow; rejection_field := None |};
                 {| row_id := "r9"; rejection_reason := OutsideTradingSession; rejection_field := None |}], 1)%string.
Proof. vm_compute. reflexivity. Qed.

Definition market_units : Units :=
  let rule := {| rule_unit := sample_unit; rule_scale := 4; rule_precision := 12 |} in
  {| price_rule := rule; amount_rule := rule; yield_rule := None |}.

Lemma market_units_new : units_new market_request = Ok market_units.
Proof. vm_compute. reflexivity. Qed.

Lemma market_rows_wf : Forall wf_row market_rows.
Proof. repeat constructor; vm_compute; discriminate. Qed.

Lemma bar_import_exact_witness :
  match ingest_bars (market_adapter market_rows) market_request with
  | Ok (_, bars, report) => bars <> [] /\ accounts market_request market_units SourceField market_rows bars report
  | Err _ => False
  end.
Proof.
  pose proof (bar_import_exact (market_adapter market_rows) market_request market_units market_rows eq_refl market_rows_wf
    market_units_new) as Hx.
  assert (V : is_ok (ingest_bars (market_adapter market_rows) market_request) = true) by (vm_compute; reflexivity).
  destruct (ingest_bars (market_adapter market_rows) market_request) as [[[u bars] report]|]; [|discriminate V].
  destruct Hx as (_ & Hne & _ & _ & _ & _ & _ & Ha). by split.
Defined.

Lemma bar_import_order_irrelevant_witness :
  ingest (market_adapter market_rows) market_request = ingest (market_adapter (rev market_rows)) market_request.
Proof.
  apply (bar_import_order_irrelevant (market_adapter market_rows) (market_adapter (rev market_rows)) market_request market_rows (rev market_rows));
    [reflexivity|reflexivity|reflexivity|apply Permutation_rev].
Defined.
End example.
