(* ===== verification/BarSnapshot.v ===== *)
(** * Bar snapshots

    [crates/ficant-data/src/bar_snapshot.rs], with [DataSnapshot] of
    [crates/ficant-domain/src/research/data_snapshot.rs]: an import is written to a Parquet file and a JSON
    manifest that a [DataSnapshot] binds ([snapshot_build]); reading verifies the three against each other,
    rebuilds every row as a bar ([decode_verified]) and answers what was visible at a time ([visible_bars]).
    The Parquet and JSON libraries, and the text of an instant, are parameters. *)

From Stdlib Require Import ZArith Lia Strings.String.
From Stdlib Require Import Strings.Byte.
From stdpp Require Import base list option strings numbers sorting.
From S2P Require Import Prelude Machine Collections Primitives Codec Concrete Digits DecimalValue Exposure Bar DataHealth Ledger Cursor MarketData BarIngest BarImport.
Open Scope Z_scope.

Definition BAR_SNAPSHOT_MANIFEST_SCHEMA_ID : string := "ficant.data.bar-snapshot-manifest.v1".

(** ** Data snapshots *)

Record DataSnapshot := {
  snapshot_id : Ulid;
  snapshot_owner : OwnerRef;
  snapshot_visible_at : MarketTime;
  snapshot_as_of : MarketTime;
  snapshot_schema_hash : ContentHash;
  snapshot_manifest_hash : ContentHash;
  blob_content_hash : ContentHash;
  snapshot_lineage : list LineageRef
}.
Abbreviation DataSnapshotInput := DataSnapshot.

Definition data_snapshot_new (input : DataSnapshotInput) : DomainResult DataSnapshot :=
  if ltb (instant (snapshot_visible_at input)) (instant (snapshot_as_of input)) then Err InvalidEffectiveTime
  else if bool_decide (snapshot_lineage input = []) then Err BrokenLineage
  else Ok input.

(** ** Manifests *)

Record ExactVersion := { exact_id : string; exact_version : Z }.

#[export] Instance ExactVersion_eq_dec : EqDecision ExactVersion.
Proof. solve_decision. Defined.
#[export] Instance ExactVersion_ord : Ord ExactVersion := fun a b => cmp (exact_id a, exact_version a) (exact_id b, exact_version b).
#[export] Instance ExactVersion_ord_laws : OrdLaws ExactVersion.
Proof. by apply (ord_laws_via (fun v => (exact_id v, exact_version v))); [intros [] []; cbn; congruence|]. Qed.

Record BarParquetPayload := { parquet_content_hash : string; parquet_size : Z; row_count : Z }.
Record BarPointInTime := { pit_as_of : string; pit_visible_at_cutoff : string; pit_market_timezone : string }.

(** The derived order compares the text of the reason. *)
Record ManifestRejection := { manifest_row_id : string; manifest_reason : string; manifest_field : option string }.

#[export] Instance ManifestRejection_ord : Ord ManifestRejection := fun a b =>
  cmp (manifest_row_id a, (manifest_reason a, manifest_field a)) (manifest_row_id b, (manifest_reason b, manifest_field b)).
#[export] Instance ManifestRejection_ord_laws : OrdLaws ManifestRejection.
Proof. by apply (ord_laws_via (fun r => (manifest_row_id r, (manifest_reason r, manifest_field r)))); [intros [] []; cbn; congruence|]. Qed.

Record BarQualityBinding := {
  quality_rule_set_id : string;
  quality_visibility_rule : string;
  quality_read_rows : Z;
  quality_outside_window_rows : Z;
  quality_emitted_rows : Z;
  quality_rejections : list ManifestRejection
}.

Record BarUnits := { manifest_price : ExactVersion; manifest_amount : ExactVersion; manifest_yield : option ExactVersion }.

Record ParquetWriterBinding := {
  library : string;
  library_version : string;
  created_by : string;
  compression : string;
  dictionary : bool;
  writer_version : string;
  data_page_version : string;
  row_groups : Z;
  write_batch_size : Z;
  data_page_row_limit : Z
}.

Definition writer_binding : ParquetWriterBinding := {|
  library := "apache-arrow-rs-parquet"; library_version := "59.1.0"; created_by := "ficant-parquet/59.1.0";
  compression := "UNCOMPRESSED"; dictionary := false; writer_version := "PARQUET_2_0"; data_page_version := "DATA_PAGE_V2";
  row_groups := 1; write_batch_size := 1024; data_page_row_limit := 20000
|}.

Record BarSnapshotManifest := {
  manifest_schema : string;
  manifest_snapshot_id : string;
  manifest_tenant_id : string;
  manifest_owner_id : string;
  manifest_canonical_schema_id : string;
  manifest_canonical_schema_hash : string;
  parquet : BarParquetPayload;
  point_in_time : BarPointInTime;
  manifest_data_source : ExactVersion;
  instrument_mapping_id : string;
  instrument_mapping_digest : string;
  manifest_calendar : ExactVersion;
  units : BarUnits;
  instruments : list ExactVersion;
  quality : BarQualityBinding;
  writer : ParquetWriterBinding
}.

#[export] Instance ManifestRejection_eq_dec : EqDecision ManifestRejection.
Proof. solve_decision. Defined.
#[export] Instance ParquetWriterBinding_eq_dec : EqDecision ParquetWriterBinding.
Proof. solve_decision. Defined.

(** The rejection report recorded at import time. *)
Definition manifest_rejections (self : BarSnapshotManifest) : DataResult (list BarRejection) :=
  try_map (fun item =>
    reason ← ok_or (reason_from_code (manifest_reason item)) SnapshotIntegrityFailed;
    Ok {| row_id := manifest_row_id item; rejection_reason := reason; rejection_field := manifest_field item |})
    (quality_rejections (quality self)).

Definition manifest_rejection (item : BarRejection) : ManifestRejection :=
  {| manifest_row_id := row_id item; manifest_reason := reason_code (rejection_reason item);
     manifest_field := rejection_field item |}.

(** ** Parameters *)

(** The Parquet writer and reader (the reader is told the number of rows), [serde_json] for manifests and
    [to_rfc3339_opts] with microseconds. *)
Class SnapshotFormats : Type := {
  parquet_write : list BatchRow -> option (list byte);
  parquet_read : list byte -> Z -> option (list BatchRow);
  manifest_to_json : BarSnapshotManifest -> option (list byte);
  manifest_from_json : list byte -> option BarSnapshotManifest;
  rfc3339_micros : DateTime -> string
}.

(** ** Helpers *)

Definition integrity {A} (o : option A) : DataResult A := ok_or o SnapshotIntegrityFailed.
Definition integrity_error {E A} (m : Result E A) : DataResult A := map_err (fun _ => SnapshotIntegrityFailed) m.

Definition count (value : nat) : DataResult Z := integrity (u64_try_from (Z.of_nat value)).

Definition encode_parquet `{SnapshotFormats} (batch : list BatchRow) : DataResult (list byte) := integrity (parquet_write batch).
Definition decode_parquet_with_schema `{SnapshotFormats} (bytes : list byte) (row_count : Z) : DataResult (list BatchRow) :=
  integrity (parquet_read bytes row_count).

Definition NEWLINE : byte := x0a.
Definition manifest_bytes `{SnapshotFormats} (manifest : BarSnapshotManifest) : DataResult (list byte) :=
  bytes ← integrity (manifest_to_json manifest); Ok (bytes ++ [NEWLINE]).

Definition hash_hex (hash : ContentHash) : string := string_of_list_byte (encode_hex (hash_bytes hash)).

(** [is_ascii_hexdigit] accepts both cases; [from_str_radix] of two such digits cannot fail. *)
Definition hex_value (b : byte) : option Z :=
  if byte_in 65 70 b then Some (Z_of_byte b - 65 + 10) else decode_nibble b.

Fixpoint hex_pairs (value : list byte) : option (list byte) :=
  match value with
  | high :: low :: rest =>
      high ← hex_value high;
      low ← hex_value low;
      decoded ← hex_pairs rest;
      Some (byte_of_Z (high * 16 + low) :: decoded)
  | _ => Some []
  end.

Definition parse_hash (value : string) : DataResult ContentHash :=
  if negb (str_len value =? 64) then Err SnapshotIntegrityFailed else
  bytes ← integrity (hex_pairs (as_bytes value));
  integrity_error (hash_from_bytes bytes).

Definition exact_of (id : Ulid) (version : Version) : ExactVersion := {| exact_id := ulid_str id; exact_version := version_get version |}.
Definition exact_unit_of (unit : Unit) : ExactVersion := exact_of (unit_identity unit) (unit_number unit).

Definition request_units (request : CanonicalBarIngestRequest) : BarUnits := {|
  manifest_price := exact_unit_of (price_unit request); manifest_amount := exact_unit_of (amount_unit request);
  manifest_yield := exact_unit_of <$> yield_unit request |}.

(** Sums of [u64] wrap, as in a release build. *)
Definition u64_wrapping_add (a b : Z) : Z := (a + b) mod 2 ^ 64.

Definition validate_quality (manifest : BarSnapshotManifest) : DataResult unit :=
  let quality := quality manifest in
  rejected ← count (List.length (quality_rejections quality));
  let sorted := windows2_all leb (quality_rejections quality) in
  fail_if (negb (bool_decide (quality_rule_set_id quality = BAR_QUALITY_RULE_SET_ID))
    || negb (quality_emitted_rows quality =? row_count (parquet manifest))
    || (row_count (parquet manifest) =? 0)
    || negb (u64_wrapping_add (u64_wrapping_add (quality_emitted_rows quality) (quality_outside_window_rows quality)) rejected
             =? quality_read_rows quality)
    || negb sorted
    || existsb (fun item => bool_decide (reason_from_code (manifest_reason item) = None)) (quality_rejections quality)
    || negb (bool_decide (quality_visibility_rule quality = "source-field"%string)
             || starts_with "fixed-delay:" (quality_visibility_rule quality))) SnapshotIntegrityFailed.

Section references.
Context `{UlidCrate}.

Definition exact_ref (value : ExactVersion) : DataResult VersionRef :=
  id ← integrity_error (ulid_new (exact_id value));
  version ← integrity_error (version_new (exact_version value));
  Ok {| vr_id := id; vr_version := version |}.

Definition unit_ref (value : ExactVersion) : DataResult UnitRef :=
  reference ← exact_ref value;
  Ok {| unit_id := vr_id reference; unit_version := vr_version reference |}.

Definition versioned (value : ExactVersion) : DataResult LineageRef :=
  reference ← exact_ref value;
  Ok (lineage_versioned (vr_id reference) (vr_version reference)).

(** One turn of the loop over the instruments, with the one before. *)
Definition instrument_lineage (st : list LineageRef * option ExactVersion) (instrument : ExactVersion)
    : DataResult (list LineageRef * option ExactVersion) :=
  if from_option (fun value => geb value instrument) false st.2 then Err SnapshotIntegrityFailed else
  reference ← versioned instrument;
  Ok (st.1 ++ [reference], Some instrument).

Definition manifest_lineage (manifest : BarSnapshotManifest) : DataResult (list LineageRef) :=
  data_source ← versioned (manifest_data_source manifest);
  mapping_id ← integrity_error (ulid_new (instrument_mapping_id manifest));
  mapping_digest ← parse_hash (instrument_mapping_digest manifest);
  calendar ← versioned (manifest_calendar manifest);
  price ← versioned (manifest_price (units manifest));
  amount ← versioned (manifest_amount (units manifest));
  let lineage := [data_source; lineage_content_addressed mapping_id mapping_digest; calendar; price; amount] in
  lineage ← match manifest_yield (units manifest) with
            | Some unit => yield_ ← versioned unit; Ok (lineage ++ [yield_])
            | None => Ok lineage
            end;
  '(lineage, _) ← try_fold instrument_lineage (lineage, None) (instruments manifest);
  if bool_decide (instruments manifest = []) then Err SnapshotIntegrityFailed else Ok lineage.
End references.

Definition batch_instruments (batch : list BatchRow) : list ExactVersion :=
  bset_collect (map (fun row => {| exact_id := instrument_column row; exact_version := instrument_version_column row |}) batch).

(** The one price source type all rows carry. *)
Definition price_source_step (found : option PriceSourceType) (row : BatchRow) : DataResult (option PriceSourceType) :=
  value ← integrity (price_source_from_code (price_source_column row));
  if from_option (fun previous => negb (bool_decide (previous = value))) false found then Err SnapshotIntegrityFailed
  else Ok (Some value).

Definition single_price_source (batch : list BatchRow) : DataResult PriceSourceType :=
  found ← try_fold price_source_step None batch;
  integrity found.

(** ** Rows as bars *)

Definition decimal_column (column : option string * option Z) (unit : UnitRef) : DataResult (option DecimalValue) :=
  match column with
  | (None, None) => Ok None
  | (Some coefficient, Some scale) => d ← integrity_error (decimal_value_new coefficient scale unit); Ok (Some d)
  | _ => Err SnapshotIntegrityFailed
  end.

Definition exact_unit (id : string) (version : Z) (unit : ExactVersion) : bool :=
  bool_decide (id = exact_id unit) && (version =? exact_version unit).

Section decode.
Context `{UlidCrate} `{ChronoClock} `{ChronoColumns} `{RustDecimal}.

Definition row_yield (manifest : BarSnapshotManifest) (yield_unit : option UnitRef) (row : BatchRow) : DataResult (option DecimalValue) :=
  close_yield ← match yield_unit with Some unit => decimal_column (yield_column row) unit | None => Ok None end;
  let bound :=
    match close_yield, manifest_yield (units manifest) with
    | Some _, Some unit =>
        match yield_unit_column row, yield_unit_version_column row with
        | Some id, Some version => exact_unit id version unit
        | _, _ => false
        end
    | None, _ => bool_decide (yield_unit_column row = None) && bool_decide (yield_unit_version_column row = None)
    | Some _, None => false
    end in
  if negb bound || (bool_decide (yield_unit = None) && bool_decide (is_Some (yield_column row).1)) then Err SnapshotIntegrityFailed
  else Ok close_yield.

Definition decode_prices (price_unit : UnitRef) (row : BatchRow) : DataResult (option BarPrices) :=
  open ← decimal_column (open_column row) price_unit;
  high ← decimal_column (high_column row) price_unit;
  low ← decimal_column (low_column row) price_unit;
  close ← decimal_column (close_column row) price_unit;
  match open, high, low, close with
  | Some open, Some high, Some low, Some close =>
      Ok (Some {| Bar.open := open; Bar.high := high; Bar.low := low; Bar.close := close |})
  | None, None, None, None => Ok None
  | _, _, _, _ => Err SnapshotIntegrityFailed
  end.

Definition decode_row (manifest : BarSnapshotManifest) (price_unit amount_unit : UnitRef) (yield_unit : option UnitRef)
    (as_of visible_cutoff : DateTime) (row : BatchRow) : DataResult Bar :=
  start ← integrity (from_timestamp_micros (start_column row));
  end_ ← integrity (from_timestamp_micros (end_column row));
  observed ← integrity (from_timestamp_micros (observed_column row));
  visible ← integrity (from_timestamp_micros (visible_column row));
  if negb (bool_decide (tenant_column row = manifest_tenant_id manifest))
     || negb (bool_decide (owner_column row = manifest_owner_id manifest))
     || negb (bool_decide (data_source_column row = exact_id (manifest_data_source manifest)))
     || negb (data_source_version_column row =? exact_version (manifest_data_source manifest))
     || negb (exact_unit (price_unit_column row) (price_unit_version_column row) (manifest_price (units manifest)))
     || negb (exact_unit (amount_unit_column row) (amount_unit_version_column row) (manifest_amount (units manifest)))
     || negb (bool_decide (observed = end_)) || ltb as_of end_ || ltb visible_cutoff visible
  then Err SnapshotIntegrityFailed else
  close_yield ← row_yield manifest yield_unit row;
  prices ← decode_prices price_unit row;
  id ← integrity_error (ulid_new (instrument_column row));
  version ← integrity_error (version_new (instrument_version_column row));
  frequency ← integrity (frequency_from_code (frequency_column row));
  settlement ← integrity (settlement_from_code (settlement_column row));
  date ← integrity (date_of_days (date_column row));
  volume ← decimal_column (volume_column row) amount_unit;
  volume ← integrity volume;
  turnover ← decimal_column (turnover_column row) amount_unit;
  vwap ← decimal_column (vwap_column row) price_unit;
  integrity_error (bar_new {|
    source_record_id := record_column row; instrument := {| vr_id := id; vr_version := version |}; Bar.frequency := frequency;
    Bar.settlement := settlement; bar_timezone := MARKET_TIMEZONE; bar_trading_date := date; Bar.bar_start := start;
    Bar.bar_end := end_; Bar.visible_at := visible; Bar.prices := prices; Bar.volume := volume; Bar.turnover := turnover;
    trade_count := trade_count_column row; Bar.vwap := vwap; Bar.close_yield := close_yield |}).

Definition decode_bars (manifest : BarSnapshotManifest) (batch : list BatchRow) (as_of visible_cutoff : DateTime)
    : DataResult (list Bar) :=
  rows ← count (List.length batch);
  if negb (rows =? row_count (parquet manifest)) then Err SchemaMismatch else
  if negb (bool_decide (batch_instruments batch = instruments manifest)) then Err SnapshotIntegrityFailed else
  price_unit ← unit_ref (manifest_price (units manifest));
  amount_unit ← unit_ref (manifest_amount (units manifest));
  yield_unit ← match manifest_yield (units manifest) with
               | Some unit => unit ← unit_ref unit; Ok (Some unit)
               | None => Ok None
               end;
  try_map (decode_row manifest price_unit amount_unit yield_unit as_of visible_cutoff) batch.
End decode.

(** ** Building, reading and asking *)

Record CanonicalSnapshotPackage := {
  package_snapshot : DataSnapshot;
  package_parquet : list byte;
  package_manifest : list byte
}.

Record VerifiedBarSnapshot := {
  verified_snapshot : DataSnapshot;
  verified_manifest : BarSnapshotManifest;
  verified_bars : list Bar;
  verified_price_source_type : PriceSourceType
}.

(** [VerifiedBarSnapshot::visible_at]. *)
Definition visible_bars (self : VerifiedBarSnapshot) (decision_time : DateTime) : DataResult (list Bar) :=
  if ltb (instant (snapshot_visible_at (verified_snapshot self))) decision_time then Err PointInTimeViolation
  else Ok (List.filter (fun bar => leb (visible_at bar) decision_time) (verified_bars self)).

Section codec.
Context `{UlidCrate} `{Sha256} `{ChronoClock} `{ChronoColumns} `{RustDecimal} `{SnapshotFormats}.

Definition window_as_of (request : CanonicalBarIngestRequest) : DateTime := instant (as_of (window request)).
Definition window_cutoff (request : CanonicalBarIngestRequest) : DateTime := instant (visible_at_cutoff (window request)).

Definition quality_binding (report : BarIngestReport) : DataResult BarQualityBinding :=
  read ← count (Z.to_nat (read_rows report));
  outside ← count (Z.to_nat (outside_window_rows report));
  emitted ← count (Z.to_nat (emitted_rows report));
  Ok {| quality_rule_set_id := rule_set_id report; quality_visibility_rule := visibility_rule report;
        quality_read_rows := read; quality_outside_window_rows := outside; quality_emitted_rows := emitted;
        quality_rejections := map manifest_rejection (rejections report) |}.

(** The manifest, for a Parquet file that is still to be written or has been. *)
Definition request_manifest (id : Ulid) (request : CanonicalBarIngestRequest) (batch : list BatchRow)
    (quality : BarQualityBinding) (parquet : BarParquetPayload) : BarSnapshotManifest :=
  let source_input := data_source_input (source request) in
  {| manifest_schema := BAR_SNAPSHOT_MANIFEST_SCHEMA_ID; manifest_snapshot_id := ulid_str id;
     manifest_tenant_id := ulid_str (tenant_id (source_owner request)); manifest_owner_id := ulid_str (owner_id (source_owner request));
     manifest_canonical_schema_id := CANONICAL_BAR_SCHEMA_ID;
     manifest_canonical_schema_hash := hash_hex canonical_bar_schema_hash;
     parquet := parquet;
     point_in_time := {| pit_as_of := rfc3339_micros (window_as_of request);
       pit_visible_at_cutoff := rfc3339_micros (window_cutoff request);
       pit_market_timezone := market_timezone (as_of (window request)) |};
     manifest_data_source := exact_of (data_source_id source_input) (data_source_version source_input);
     instrument_mapping_id := ulid_str (mapping_id (mapping request));
     instrument_mapping_digest := hash_hex (mapping_hash (mapping request));
     manifest_calendar := exact_of (calendar_id (calendar request)) (calendar_version (calendar request));
     units := request_units request; instruments := batch_instruments batch; quality := quality; writer := writer_binding |}.

Definition snapshot_build (id : Ulid) (request : CanonicalBarIngestRequest) (canonical : CanonicalBarBatch)
    : DataResult CanonicalSnapshotPackage :=
  let batch := batch canonical in
  if bool_decide (batch = []) || negb (bool_decide (schema_hash canonical = canonical_bar_schema_hash)) then Err SchemaMismatch else
  row_count ← count (List.length batch);
  quality ← quality_binding (report canonical);
  let unwritten := {| parquet_content_hash := ""; parquet_size := 0; row_count := row_count |} in
  _ ← decode_bars (request_manifest id request batch quality unwritten) batch (window_as_of request) (window_cutoff request);
  parquet_bytes ← encode_parquet batch;
  let parquet_hash := digest parquet_bytes in
  size ← count (List.length parquet_bytes);
  let manifest := request_manifest id request batch quality
    {| parquet_content_hash := hash_hex parquet_hash; parquet_size := size; row_count := row_count |} in
  _ ← validate_quality manifest;
  bytes ← manifest_bytes manifest;
  lineage ← manifest_lineage manifest;
  snapshot ← integrity_error (data_snapshot_new {|
    snapshot_id := id; snapshot_owner := source_owner request; snapshot_visible_at := visible_at_cutoff (window request);
    snapshot_as_of := as_of (window request); snapshot_schema_hash := canonical_bar_schema_hash;
    snapshot_manifest_hash := digest bytes; blob_content_hash := parquet_hash; snapshot_lineage := lineage |});
  Ok {| package_snapshot := snapshot; package_parquet := parquet_bytes; package_manifest := bytes |}.

Definition differs {A} `{EqDecision A} (a b : A) : bool := negb (bool_decide (a = b)).

(** The comparisons between the manifest, the snapshot and the Parquet file. *)
Definition manifest_differs (manifest : BarSnapshotManifest) (snapshot : DataSnapshot) (size : Z) (lineage : list LineageRef) : bool :=
  differs (manifest_schema manifest) BAR_SNAPSHOT_MANIFEST_SCHEMA_ID
  || differs (manifest_snapshot_id manifest) (ulid_str (snapshot_id snapshot))
  || differs (manifest_tenant_id manifest) (ulid_str (tenant_id (snapshot_owner snapshot)))
  || differs (manifest_owner_id manifest) (ulid_str (owner_id (snapshot_owner snapshot)))
  || differs (manifest_canonical_schema_id manifest) CANONICAL_BAR_SCHEMA_ID
  || differs (manifest_canonical_schema_hash manifest) (hash_hex canonical_bar_schema_hash)
  || differs (snapshot_schema_hash snapshot) canonical_bar_schema_hash
  || differs (parquet_content_hash (parquet manifest)) (hash_hex (blob_content_hash snapshot))
  || differs (parquet_size (parquet manifest)) size
  || differs (pit_as_of (point_in_time manifest)) (rfc3339_micros (instant (snapshot_as_of snapshot)))
  || differs (pit_visible_at_cutoff (point_in_time manifest)) (rfc3339_micros (instant (snapshot_visible_at snapshot)))
  || differs (pit_market_timezone (point_in_time manifest)) MARKET_TIMEZONE
  || differs (market_timezone (snapshot_as_of snapshot)) MARKET_TIMEZONE
  || differs (writer manifest) writer_binding
  || differs (snapshot_lineage snapshot) lineage.

Definition decode_verified (snapshot : DataSnapshot) (parquet_bytes manifest_text : list byte) : DataResult VerifiedBarSnapshot :=
  _ ← integrity_error (hash_verify (blob_content_hash snapshot) parquet_bytes);
  _ ← integrity_error (hash_verify (snapshot_manifest_hash snapshot) manifest_text);
  manifest ← integrity (manifest_from_json manifest_text);
  bytes ← manifest_bytes manifest;
  if differs bytes manifest_text then Err SnapshotIntegrityFailed else
  size ← count (List.length parquet_bytes);
  lineage ← manifest_lineage manifest;
  if manifest_differs manifest snapshot size lineage then Err SnapshotIntegrityFailed else
  _ ← validate_quality manifest;
  _ ← parse_hash (instrument_mapping_digest manifest);
  batch ← decode_parquet_with_schema parquet_bytes (row_count (parquet manifest));
  bars ← decode_bars manifest batch (instant (snapshot_as_of snapshot)) (instant (snapshot_visible_at snapshot));
  price_source ← single_price_source batch;
  Ok {| verified_snapshot := snapshot; verified_manifest := manifest; verified_bars := bars;
        verified_price_source_type := price_source |}.
End codec.
