(* ===== verification/SnapshotRows.v ===== *)
(** * Rows of a snapshot

    Lemmas about [BarSnapshot]: a bar that is written to a row of a batch and read again ([stored]), one by
    one and as a whole batch. *)

From Stdlib Require Import ZArith Lia Strings.String.
From Stdlib Require Import Strings.Byte.
From stdpp Require Import base list option strings numbers sorting.
From S2P Require Import Prelude Machine Collections Primitives Codec Concrete Digits DecimalValue Exposure Bar DataHealth Ledger Writer Cursor MarketData BarIngest BarImport BarSnapshot.
Open Scope Z_scope.

(** ** Columns of instants and dates *)

(** Instants of the years 0 to 9999 outside of leap seconds, and dates that exist in them. *)
Definition common_time (t : DateTime) : Prop :=
  plain_time t /\ -62167219200 <= timestamp t < 253402300800.

Definition days_in_month (year month : Z) : Z :=
  if month =? 2 then if (year mod 4 =? 0) && (negb (year mod 100 =? 0) || (year mod 400 =? 0)) then 29 else 28
  else if (month =? 4) || (month =? 6) || (month =? 9) || (month =? 11) then 30 else 31.

Definition common_date (d : NaiveDate) : Prop :=
  0 <= nd_year d <= 9999 /\ 1 <= nd_month d <= 12 /\ 1 <= nd_day d <= days_in_month (nd_year d) (nd_month d).

(** An instant cut to whole microseconds. *)
Definition cut (t : DateTime) : DateTime :=
  {| timestamp := timestamp t; timestamp_subsec_nanos := timestamp_subsec_nanos t / 1000 * 1000 |}.

Class ChronoColumnsLaws `{ChronoColumns} `{ChronoDays} : Prop := {
  micros_cut t : common_time t -> from_timestamp_micros (timestamp_micros t) = Some (cut t);
  epoch_days d : common_date d -> in_i32 (num_days EPOCH d) = true /\ date_of_days (num_days EPOCH d) = Some d
}.

Definition whole_micros (t : DateTime) : Prop := cut t = t.

Lemma cut_le t : plain_time t -> cmp (cut t) t <> Gt.
Proof.
  intros Ht. unfold cut, cmp, DateTime_ord, lex. cbn. rewrite cmp_refl. unfold cmp, Z_ord.
  pose proof (Z.mul_div_le (timestamp_subsec_nanos t) 1000 ltac:(lia)). destruct (Z.compare_spec (timestamp_subsec_nanos t / 1000 * 1000) (timestamp_subsec_nanos t)); (done || lia).
Qed.

(** Cutting respects the order, so that a whole instant is not passed. *)
Lemma cut_mono t u : plain_time t -> plain_time u -> cmp t u <> Gt -> cmp (cut t) (cut u) <> Gt.
Proof.
  intros Ht Hu. unfold cut, cmp, DateTime_ord, lex, cmp, Z_ord. cbn. destruct (Z.compare_spec (timestamp t) (timestamp u)); try done.
  intros Hc. pose proof (Z.div_le_mono (timestamp_subsec_nanos t) (timestamp_subsec_nanos u) 1000 ltac:(lia)) as Hm.
  destruct (Z.compare_spec (timestamp_subsec_nanos t) (timestamp_subsec_nanos u)); try done;
    destruct (Z.compare_spec (timestamp_subsec_nanos t / 1000 * 1000) (timestamp_subsec_nanos u / 1000 * 1000)); (done || lia).
Qed.

(** ** Decimals that are read again *)

(** A zero with decimal places loses one; every other value is read as it is. *)
Definition reread (d : DecimalValue) : DecimalValue :=
  match decimal_value_new (coefficient d) (scale d) (value_unit d) with Ok e => e | Err _ => d end.

Lemma reread_spec d : wf_decimal d ->
  decimal_value_new (coefficient d) (scale d) (value_unit d) = Ok (reread d)
  /\ wf_decimal (reread d) /\ value (reread d) = value d /\ value_unit (reread d) = value_unit d
  /\ (value d <> 0 \/ scale d = 0 -> reread d = d).
Proof.
  intros Hd. destruct (wf_decimal_parse d Hd) as (n & l & Cd & Dl & Nl & Ll & Sd & Pd & _).
  destruct (new_signed_text n l (scale d) (value_unit d) Dl Nl Ll Sd) as [e E]. rewrite <- Cd in E.
  unfold reread. rewrite E. destruct (decimal_value_new_Ok _ _ _ _ (proj1 Sd) E) as (z & Pz & _ & Ve & Ue & _ & We).
  split; [done|]. split; [done|]. split; [|split; [done|]].
  - rewrite Ve. unfold value. by rewrite Pz.
  - intros Hz. rewrite decimal_renew in E by done. by injection E as ->.
Qed.

Lemma decimal_column_some d u : wf_decimal d -> value_unit d = u -> decimal_column (decimal_columns (Some d)) u = Ok (Some (reread d)).
Proof. intros Hd <-. cbn. destruct (reread_spec d Hd) as (-> & _). done. Qed.

Lemma decimal_column_opt o u :
  from_option wf_decimal True o -> from_option (fun d => value_unit d = u) True o ->
  decimal_column (decimal_columns o) u = Ok (reread <$> o).
Proof. destruct o; [by apply decimal_column_some|done]. Qed.

Definition reread_prices (p : BarPrices) : BarPrices :=
  {| Bar.open := reread (Bar.open p); Bar.high := reread (Bar.high p); Bar.low := reread (Bar.low p); Bar.close := reread (Bar.close p) |}.

(** What a snapshot keeps of a bar. *)
Definition stored (b : Bar) : Bar := {|
  source_record_id := source_record_id b; instrument := instrument b; frequency := frequency b; settlement := settlement b;
  bar_timezone := bar_timezone b; bar_trading_date := bar_trading_date b; bar_start := bar_start b; bar_end := bar_end b;
  visible_at := cut (visible_at b); prices := reread_prices <$> prices b; volume := reread (volume b);
  turnover := reread <$> turnover b; trade_count := trade_count b; vwap := reread <$> vwap b;
  close_yield := reread <$> close_yield b
|}.

Section canonical.
Context `{ChronoClock} `{RustDecimalLaws}.

Lemma stored_wf b : wf_bar b -> wf_bar (stored b).
Proof.
  intros [Wv Wt Wp Ww]. split; cbn; [by apply reread_spec|..].
  - destruct (turnover b); [by apply reread_spec|done].
  - destruct (prices b) as [p|]; [|done]. cbn in *. destruct Wp as (? & ? & ? & ?). repeat split; by apply reread_spec.
  - destruct (vwap b); [by apply reread_spec|done].
Qed.

Lemma stored_canonical b :
  wf_bar b -> canonical_bar b -> plain_time (visible_at b) -> plain_time (bar_end b) -> whole_micros (bar_end b) ->
  canonical_bar (stored b).
Proof.
  intros W [Cr Ci Cv Cvol Ct Cp] Pv Pe We. pose proof (wf_volume b W) as Wv. pose proof (wf_turnover b W) as Wt.
  pose proof (wf_prices b W) as Wp. pose proof (wf_vwap b W) as Ww. split; cbn.
  - done.
  - done.
  - intros F. apply (cut_mono (bar_end b) (visible_at b) Pe Pv); [intros G; by apply Cv, cmp_gt_lt|].
    rewrite We. by apply cmp_gt_lt.
  - by destruct (reread_spec _ Wv) as (_ & _ & -> & _).
  - destruct (turnover b) as [t|]; [|done]. cbn in *. by destruct (reread_spec _ Wt) as (_ & _ & -> & _).
  - destruct (prices b) as [p|]; cbn in *.
    + destruct Wp as (Wo & Wh & Wl & Wc). destruct Cp as (Uh & Ul & Nl & [Uo Bo] & [Uc Bc] & Iv).
      destruct (reread_spec _ Wo) as (_ & _ & Vo & Eo & _), (reread_spec _ Wh) as (_ & _ & Vh & Eh & _),
        (reread_spec _ Wl) as (_ & _ & Vl & El & _), (reread_spec _ Wc) as (_ & _ & Vc & Ec & _).
      unfold consistent_prices. cbn. rewrite Vo, Vh, Vl, Vc, Eo, Eh, El, Ec. do 5 (split; [done|]).
      destruct (vwap b) as [w|]; [|done]. cbn in *. destruct (reread_spec _ Ww) as (_ & _ & -> & -> & _). done.
    + destruct Cp as (Zv & -> & ->). destruct (reread_spec _ Wv) as (_ & _ & -> & _). done.
Qed.
End canonical.

(** ** One row, written and read *)

Lemma bind_Ok_eq {E A B} (m : Result E A) (k : A -> Result E B) a : m = Ok a -> mbind k m = k a.
Proof. by intros ->. Qed.

Section row.
Context `{UlidCrate} `{ChronoClock} `{RustDecimalLaws} `{ChronoColumnsLaws}.
Context (request : CanonicalBarIngestRequest) (rules : Units) (manifest : BarSnapshotManifest).
Context (Hrules : units_new request = Ok rules).
Context (Htenant : manifest_tenant_id manifest = ulid_str (tenant_id (source_owner request)))
  (Howner : manifest_owner_id manifest = ulid_str (owner_id (source_owner request)))
  (Hsource : manifest_data_source manifest
    = exact_of (data_source_id (data_source_input (source request))) (data_source_version (data_source_input (source request))))
  (Hunits : units manifest = request_units request).

(** The reference of a unit, from its rule and from the manifest. *)
Lemma unit_rule_ref u rule : unit_rule u = Ok rule ->
  rule_unit rule = {| unit_id := unit_identity u; unit_version := unit_number u |} /\ unit_ref (exact_unit_of u) = Ok (rule_unit rule).
Proof.
  unfold unit_rule, unit_ref, exact_ref, exact_unit_of, exact_of. cbn [exact_id exact_version].
  intros E. apply bind_Ok in E as (id & Eid & E). apply bind_Ok in E as (v & Ev & [= <-]). cbn [rule_unit].
  destruct (ulid_new _) as [i|] eqn:Ei; [|done]. injection Eid as ->. destruct (version_new _) as [w|] eqn:Ew; [|done]. injection Ev as ->.
  cbn. split; [|done]. unfold ulid_new in Ei. apply bind_Ok in Ei as (? & _ & Ei). destruct (_ || _); [done|]. injection Ei as <-.
  unfold version_new in Ew. destruct (_ =? _); [done|]. injection Ew as <-. by destruct (unit_identity u), (unit_number u).
Qed.


(** A rule and the entry of the manifest it comes from. *)
Definition ruled (rule : UnitRule) (unit : ExactVersion) : Prop :=
  unit_ref unit = Ok (rule_unit rule)
  /\ exact_unit (ulid_str (unit_id (rule_unit rule))) (version_get (unit_version (rule_unit rule))) unit = true.

Lemma unit_rule_ruled u rule : unit_rule u = Ok rule -> ruled rule (exact_unit_of u).
Proof.
  intros E. destruct (unit_rule_ref u rule E) as [Er Hr]. split; [done|]. rewrite Er. unfold exact_unit, exact_unit_of, exact_of. cbn.
  by rewrite bool_decide_eq_true_2, Z.eqb_refl.
Qed.

Lemma rules_ruled :
  ruled (price_rule rules) (manifest_price (units manifest)) /\ ruled (amount_rule rules) (manifest_amount (units manifest))
  /\ option_Forall2 ruled (yield_rule rules) (manifest_yield (units manifest)).
Proof.
  rewrite Hunits. revert Hrules. unfold units_new, request_units. intros E. apply bind_Ok in E as (p & Ep & E). apply bind_Ok in E as (a & Ea & E).
  apply bind_Ok in E as (y & Ey & [= <-]). cbn. split; [by apply unit_rule_ruled|]. split; [by apply unit_rule_ruled|].
  destruct (yield_unit request) as [u|]; cbn; [|injection Ey as <-; constructor]. apply bind_Ok in Ey as (r & Er & [= <-]).
  constructor. by apply unit_rule_ruled.
Qed.

(** What an imported bar is like, as far as the snapshot is concerned. *)
Record storable (bar : Bar) : Prop := {
  storable_wf : wf_bar bar;
  storable_canonical : canonical_bar bar;
  storable_timezone : bar_timezone bar = MARKET_TIMEZONE;
  storable_instrument : wf_vref (instrument bar);
  storable_start : common_time (bar_start bar) /\ whole_micros (bar_start bar);
  storable_end : common_time (bar_end bar) /\ whole_micros (bar_end bar);
  storable_visible : common_time (visible_at bar);
  storable_date : common_date (bar_trading_date bar);
  storable_window : leb (bar_end bar) (window_as_of request) = true /\ leb (visible_at bar) (window_cutoff request) = true;
  storable_prices : from_option (fun p => value_unit (Bar.open p) = rule_unit (price_rule rules) /\ value_unit (Bar.high p) = rule_unit (price_rule rules)
    /\ value_unit (Bar.low p) = rule_unit (price_rule rules) /\ value_unit (Bar.close p) = rule_unit (price_rule rules)) True (prices bar);
  storable_volume : value_unit (volume bar) = rule_unit (amount_rule rules);
  storable_turnover : from_option (fun d => value_unit d = rule_unit (amount_rule rules)) True (turnover bar);
  storable_vwap : from_option (fun d => value_unit d = rule_unit (price_rule rules)) True (vwap bar);
  storable_yield : match yield_rule rules with
    | Some rule => from_option (fun d => wf_decimal d /\ value_unit d = rule_unit rule) True (close_yield bar)
    | None => close_yield bar = None
    end
}.

Lemma decode_prices_encode bar date ps :
  storable bar -> decode_prices (rule_unit (price_rule rules)) (encode_row request rules ps date bar) = Ok (reread_prices <$> prices bar).
Proof.
  intros [W _ _ _ _ _ _ _ _ Sp _ _ _ _]. pose proof (wf_prices bar W) as Wp. unfold decode_prices. cbn [open_column high_column low_column close_column encode_row].
  destruct (prices bar) as [p|]; [|done]. cbn in Sp, Wp. destruct Wp as (Wo & Wh & Wl & Wc), Sp as (So & Sh & Sl & Sc).
  change (Bar.open <$> Some p) with (Some (Bar.open p)). change (high <$> Some p) with (Some (high p)).
  change (low <$> Some p) with (Some (low p)). change (Bar.close <$> Some p) with (Some (Bar.close p)).
  rewrite !decimal_column_some by done. done.
Qed.

Lemma row_yield_encode bar date ps :
  storable bar -> row_yield manifest (rule_unit <$> yield_rule rules) (encode_row request rules ps date bar) = Ok (reread <$> close_yield bar).
Proof.
  intros [_ _ _ _ _ _ _ _ _ _ _ _ _ Sy]. destruct rules_ruled as (_ & _ & Ry). unfold row_yield.
  cbn [yield_column yield_unit_column yield_unit_version_column encode_row].
  destruct Ry as [rule unit [_ Ru]|]; cbn in Sy |- *.
  - destruct (close_yield bar) as [d|]; [|done]. destruct Sy as [Wd Ud].
    change (coefficient d, scale d) with (coefficient d, scale d). destruct (reread_spec d Wd) as (Er & _). rewrite Ud in Er. cbn. rewrite Er. cbn.
    by rewrite Ru.
  - by rewrite Sy.
Qed.

Lemma decode_encode_row bar date ps :
  storable bar -> encode_date bar = Ok date ->
  decode_row manifest (rule_unit (price_rule rules)) (rule_unit (amount_rule rules)) (rule_unit <$> yield_rule rules)
    (window_as_of request) (window_cutoff request) (encode_row request rules ps date bar) = Ok (stored bar).
Proof.
  intros S Ed. pose proof S as [W C Z I [Ts Ws] [Te We] Tv D [Wa Wc] Sp Sv St Sw Sy]. destruct rules_ruled as ([_ Rp] & [_ Ra] & _).
  unfold encode_date in Ed. apply ok_or_Ok, checked_Some in Ed as [_ ->]. unfold decode_row.
  cbn [start_column end_column observed_column visible_column encode_row]. rewrite !micros_cut by done. rewrite Ws, We. cbn [integrity ok_or mbind Result_bind].
  cbn [tenant_column owner_column data_source_column data_source_version_column price_unit_column price_unit_version_column
       amount_unit_column amount_unit_version_column encode_row].
  rewrite Htenant, Howner, Hsource, !bool_decide_eq_true_2, Rp, Ra by done. cbn [exact_of exact_id exact_version]. rewrite Z.eqb_refl.
  assert (Hend : ltb (window_as_of request) (bar_end bar) = false) by (rewrite leb_ltb in Wa; by apply negb_true_iff in Wa).
  assert (Hvis : ltb (window_cutoff request) (cut (visible_at bar)) = false).
  { apply not_true_iff_false. intros F%ltb_spec. apply leb_spec in Wc. destruct (cmp (cut (visible_at bar)) (visible_at bar)) eqn:Ec.
    - apply cmp_eq in Ec. rewrite Ec in F. destruct Wc as [Wc|Wc]; [rewrite Wc in F; by apply cmp_lt_irrefl in F|].
      apply (cmp_lt_irrefl (window_cutoff request)). by apply (cmp_lt_trans _ (visible_at bar)).
    - pose proof (cmp_lt_trans _ _ _ F Ec) as F2. destruct Wc as [Wc|Wc]; [rewrite Wc in F2; by apply cmp_lt_irrefl in F2|].
      apply (cmp_lt_irrefl (window_cutoff request)). by apply (cmp_lt_trans _ (visible_at bar)).
    - by apply (cut_le (visible_at bar) (proj1 Tv)) in Ec. }
  rewrite Hend, Hvis. cbn [negb orb]. rewrite row_yield_encode, decode_prices_encode by done. cbn [mbind Result_bind].
  cbn [instrument_column instrument_version_column frequency_column settlement_column date_column volume_column turnover_column
       vwap_column trade_count_column record_column encode_row].
  destruct I as [Iu Iv]. unfold wf_ulid in Iu. rewrite Iu. cbn [integrity_error map_err mbind Result_bind].
  assert (Ev : version_new (version_get (vr_version (instrument bar))) = Ok (vr_version (instrument bar))).
  { unfold version_new, wf_version in *. destruct (Z.eqb_spec (version_get (vr_version (instrument bar))) 0); [lia|]. by destruct (vr_version _). }
  rewrite Ev, frequency_code_roundtrip, settlement_code_roundtrip, (proj2 (epoch_days _ D)). cbn [integrity integrity_error ok_or map_err mbind Result_bind].
  pose proof (wf_volume bar W) as Wvol. pose proof (wf_turnover bar W) as Wt. pose proof (wf_vwap bar W) as Ww.
  rewrite (decimal_column_some (volume bar)), (decimal_column_opt (turnover bar)), (decimal_column_opt (vwap bar)) by done.
  cbn [integrity ok_or mbind Result_bind].
  assert (Hb : bar_new (stored bar) = Ok (stored bar)).
  { apply bar_new_Ok; [by apply stored_wf|]. split; [done|]. apply stored_canonical; [done|done|apply Tv|apply Te|done]. }
  unfold stored in Hb at 1. rewrite Z in Hb. destruct (instrument bar) as [ii iv] eqn:Ei. cbn [vr_id vr_version] in *. rewrite Hb. done.
Qed.
End row.

(** ** A whole batch *)

Section batch.
Context `{UlidCrate} `{ChronoClock} `{RustDecimalLaws} `{ChronoColumnsLaws}.
Context (request : CanonicalBarIngestRequest) (rules : Units) (Hrules : units_new request = Ok rules).

Lemma encode_batch_Ok bars batch :
  encode_batch request rules bars = Ok batch ->
  exists ps, data_source_price_type (source request) = Some ps
    /\ Forall2 (fun bar row => exists date, encode_date bar = Ok date /\ row = encode_row request rules ps date bar) bars batch.
Proof.
  unfold encode_batch. intros E. apply bind_Ok in E as (ps & Eps%ok_or_Ok & E). apply bind_Ok in E as (dates & Ed & [= <-]).
  exists ps. split; [done|]. apply try_map_Ok in Ed. induction Ed as [|bar date bars dates Hd _ IH]; cbn; constructor; eauto.
Qed.

Lemma decode_encode_batch manifest bars batch :
  manifest_tenant_id manifest = ulid_str (tenant_id (source_owner request)) ->
  manifest_owner_id manifest = ulid_str (owner_id (source_owner request)) ->
  manifest_data_source manifest
    = exact_of (data_source_id (data_source_input (source request))) (data_source_version (data_source_input (source request))) ->
  units manifest = request_units request -> instruments manifest = batch_instruments batch ->
  row_count (parquet manifest) = Z.of_nat (List.length batch) -> Z.of_nat (List.length batch) < 2 ^ 64 ->
  Forall (storable request rules) bars -> encode_batch request rules bars = Ok batch ->
  decode_bars manifest batch (window_as_of request) (window_cutoff request) = Ok (map stored bars).
Proof.
  intros Ht Ho Hs Hu Hi Hc Hlt Hst E. apply encode_batch_Ok in E as (ps & _ & Hf). unfold decode_bars, count.
  assert (Hcount : u64_try_from (Z.of_nat (List.length batch)) = Some (Z.of_nat (List.length batch))).
  { apply checked_Some. split; [|done]. ranges. lia. }
  rewrite Hcount. cbn [integrity ok_or mbind Result_bind]. rewrite Hc, Z.eqb_refl, Hi, bool_decide_eq_true_2 by done. cbn [negb].
  destruct (rules_ruled request rules manifest Hrules Hu) as ([-> _] & [-> _] & Ry). cbn [mbind Result_bind].
  assert (Hy : (match manifest_yield (units manifest) with Some unit => u ← unit_ref unit; Ok (Some u) | None => Ok None end)
    = (Ok (rule_unit <$> yield_rule rules) : DataResult _)) by (by destruct Ry as [rule unit [-> _]|]).
  rewrite Hy. cbn [mbind Result_bind]. clear Hcount Hc Hlt Hi Hy Ry. induction Hf as [|bar row bars batch (date & Ed & ->) _ IH]; [done|].
  apply Forall_cons in Hst as [Hb Hst]. cbn [try_map map]. rewrite (decode_encode_row request rules manifest) by done.
  cbn [mbind Result_bind]. by rewrite IH.
Qed.

Lemma single_price_source_Ok bars batch ps :
  data_source_price_type (source request) = Some ps -> encode_batch request rules bars = Ok batch -> batch <> [] ->
  single_price_source batch = Ok ps.
Proof.
  intros Hps E Hne. apply encode_batch_Ok in E as (ps' & Eps & Hf). assert (ps' = ps) as -> by congruence.
  assert (Hall : Forall (fun row => price_source_from_code (price_source_column row) = Some ps) batch).
  { clear Hne. induction Hf as [|bar row bars batch (date & _ & ->) _ IH]; constructor; [|done]. cbn. by destruct ps. }
  unfold single_price_source. assert (Hgen : forall found, found = None \/ found = Some ps ->
    try_fold price_source_step found batch = Ok (match batch with [] => found | _ => Some ps end)).
  { clear Hne Hf. induction Hall as [|row batch Hr _ IH]; intros found Hfound; [done|]. cbn [try_fold].
    assert (Hs : price_source_step found row = Ok (Some ps)).
    { unfold price_source_step. rewrite Hr. cbn [integrity ok_or mbind Result_bind].
      destruct Hfound as [->| ->]; cbn; [done|]. by rewrite bool_decide_eq_true_2. }
    rewrite Hs. cbn [mbind Result_bind]. rewrite IH by (by right). by destruct batch. }
  rewrite Hgen by (by left). by destruct batch.
Qed.
End batch.
