(* ===== verification/SnapshotReading.v ===== *)
(** * Reading what was imported

    Theorems about [BarSnapshot]: a snapshot built from an import decodes into the imported bars, which
    snapshots can be built at all, what a verified snapshot guarantees, and that the three parts of a
    snapshot bind each other. *)

From Stdlib Require Import ZArith Lia Strings.String.
From Stdlib Require Import Strings.Byte.
From stdpp Require Import base list option strings numbers sorting.
From S2P Require Import Prelude Machine Collections Primitives Codec Concrete Digits DecimalValue Exposure Bar DataHealth Ledger Writer Cursor MarketData BarIngest BarImport BarSnapshot SnapshotRows.
Open Scope Z_scope.

(** ** Imported bars can be stored *)

(** The instants of a bar are whole microseconds within the years 0 to 9999, except that the time at which
    it becomes visible may be finer; its date exists. *)
Record datable (bar : Bar) : Prop := {
  datable_start : common_time (bar_start bar) /\ whole_micros (bar_start bar);
  datable_end : common_time (bar_end bar) /\ whole_micros (bar_end bar);
  datable_visible : common_time (visible_at bar);
  datable_date : common_date (bar_trading_date bar)
}.

Lemma reads_optional_unit rule raw d : reads_optional rule raw d -> from_option (fun d => value_unit d = rule_unit rule) True d.
Proof. intros [x y Hr|]; cbn; [by apply reading_unit with x|done]. Qed.

Lemma imported_storable `{UlidCrate} `{Sha256} `{ChronoClock} `{!ChronoLocal} `{RustDecimalLaws} request rules visibility raw bar :
  imported request rules visibility raw bar -> wf_bar bar -> datable bar -> wf_vref (instrument bar) -> storable request rules bar.
Proof.
  intros [(_ & _ & _ & _ & Z) C Wn _ _ _ P V T Vw Y] W [Ds De Dv Dd] I. split; try done.
  - destruct (prices bar) as [p|]; [|done]. destruct P as (Po & Ph & Pl & Pc). cbn.
    split; [by apply (reads_optional_unit _ _ _ Po)|]. split; [by apply (reads_optional_unit _ _ _ Ph)|].
    split; [by apply (reads_optional_unit _ _ _ Pl)|by apply (reads_optional_unit _ _ _ Pc)].
  - by apply (reads_optional_unit _ _ _ V).
  - by apply (reads_optional_unit _ _ _ T).
  - by apply (reads_optional_unit _ _ _ Vw).
  - destruct (yield_rule rules) as [rule|]; [|by destruct Y]. destruct Y as [x y [Ry Ru _ _ _]|]; cbn; [done|done].
Qed.

(** ** The quality of an import *)

Lemma strip_prefix_app p l : strip_prefix p (p ++ l) = Some l.
Proof. induction p as [|b p IH]; cbn; [done|]. by rewrite (proj2 (byte_eqb_eq b b) eq_refl). Qed.

Lemma starts_with_append p s : starts_with p (p ++ s) = true.
Proof. unfold starts_with. rewrite as_bytes_app, strip_prefix_app. by apply bool_decide_eq_true_2. Qed.

Lemma count_Ok n : Z.of_nat n < 2 ^ 64 -> count n = Ok (Z.of_nat n).
Proof.
  intros Hn. unfold count, u64_try_from, checked. replace (in_u64 (Z.of_nat n)) with true; [done|]. symmetry. ranges. lia.
Qed.

Lemma rejections_round l :
  try_map (fun item =>
    reason ← ok_or (reason_from_code (manifest_reason item)) SnapshotIntegrityFailed;
    Ok {| row_id := manifest_row_id item; rejection_reason := reason; rejection_field := manifest_field item |})
    (map manifest_rejection l) = Ok l.
Proof.
  induction l as [|r l IH]; [done|]. cbn [map try_map].
  change (manifest_reason (manifest_rejection r)) with (reason_code (rejection_reason r)). rewrite reason_code_roundtrip.
  cbn [ok_or mbind Result_bind]. rewrite IH. by destruct r.
Qed.

(** The text order in which a reader expects the rejections. *)
Definition text_sorted (rejections : list BarRejection) : bool := windows2_all leb (map manifest_rejection rejections).

Lemma sorted_lookup {A} (R : A -> A -> Prop) (l : list A) i j x y :
  StronglySorted R l -> l !! i = Some x -> l !! j = Some y -> (i < j)%nat -> R x y.
Proof.
  intros Hl. revert i j. induction Hl as [|a l Hl IH Ha]; intros i j Hx Hy Hij; [by rewrite lookup_nil in Hx|].
  destruct j as [|j]; [lia|]. cbn in Hy. destruct i as [|i]; cbn in Hx; [|by apply (IH i j); [..|lia]].
  injection Hx as <-. rewrite Forall_forall in Ha. apply Ha, list_elem_of_lookup. by exists j.
Qed.

(** Pairs with different first components are ordered by them, whatever follows. *)
Lemma first_decides {A B C} `{OrdLaws A} `{Ord B} `{Ord C} (k l : A) (b b' : B) (c c' : C) :
  cmp (k, b) (l, b') <> Gt -> k <> l -> cmp (k, c) (l, c') = Lt.
Proof.
  unfold cmp at 1 2, pair_ord, lex. cbn [fst snd]. intros Hb Hne. destruct (cmp k l) eqn:E; [by apply cmp_eq in E|done..].
Qed.

(** Rejections of distinct rows are sorted in both orders. *)
Lemma distinct_rows_text_sorted rejections :
  StronglySorted (fun a b => cmp a b <> Gt) rejections -> NoDup (map row_id rejections) -> text_sorted rejections = true.
Proof.
  intros Hs Hn. apply windows2_all_true. intros i x y Hx Hy.
  change (map manifest_rejection rejections) with (manifest_rejection <$> rejections) in Hx, Hy.
  apply list_lookup_fmap_Some in Hx as (a & -> & Hx). apply list_lookup_fmap_Some in Hy as (b & -> & Hy).
  assert (Hab : cmp a b <> Gt) by (apply (sorted_lookup _ rejections i (S i) a b Hs Hx Hy); lia).
  assert (Hne : row_id a <> row_id b).
  { intros E. assert (i = S i); [|lia]. apply (NoDup_lookup (row_id <$> rejections) i (S i) (row_id a) Hn);
      rewrite list_lookup_fmap; [by rewrite Hx|by rewrite Hy, E]. }
  apply leb_spec. right. by apply (first_decides (row_id a) (row_id b) _ _ _ _ Hab).
Qed.

Lemma validate_quality_report manifest bars (rows : list RawBarRow) report rule :
  quality_binding report = Ok (quality manifest) -> row_count (parquet manifest) = Z.of_nat (List.length bars) -> bars <> [] ->
  rule_set_id report = BAR_QUALITY_RULE_SET_ID -> visibility_rule report = rule ->
  (rule = "source-field"%string \/ exists s, rule = ("fixed-delay:" ++ s)%string) ->
  read_rows report = Z.of_nat (List.length rows) -> emitted_rows report = Z.of_nat (List.length (A:=Bar) bars) ->
  0 <= outside_window_rows report ->
  emitted_rows report + outside_window_rows report + Z.of_nat (List.length (rejections report)) = read_rows report ->
  Z.of_nat (List.length rows) < 2 ^ 64 ->
  validate_quality manifest = fail_if (negb (text_sorted (rejections report))) SnapshotIntegrityFailed.
Proof.
  intros Hq Hc Hne Hid Hv Hrule Hr He Hout Hsum Hlt. unfold quality_binding in Hq.
  rewrite !count_Ok in Hq by lia. cbn [mbind Result_bind] in Hq. injection Hq as Hq. unfold validate_quality. rewrite <- Hq.
  cbn [quality_rule_set_id quality_visibility_rule quality_read_rows quality_outside_window_rows quality_emitted_rows quality_rejections].
  rewrite length_map, count_Ok by lia. cbn [mbind Result_bind]. rewrite Hid, bool_decide_eq_true_2 by done.
  rewrite !Z2Nat.id by lia. rewrite Hc, He, Z.eqb_refl. cbn [negb orb].
  assert (Hpos : (Z.of_nat (List.length bars) =? 0) = false) by (destruct bars; [done|]; apply Z.eqb_neq; cbn; lia).
  rewrite Hpos. unfold u64_wrapping_add. rewrite <- He. rewrite (Z.mod_small (emitted_rows report + _)) by lia.
  rewrite Z.mod_small by lia. rewrite Hsum, Z.eqb_refl. cbn [negb orb].
  assert (Hcodes : existsb (fun item => bool_decide (reason_from_code (manifest_reason item) = None)) (map manifest_rejection (rejections report)) = false).
  { apply existsb_false_Forall, Forall_map, Forall_forall. intros r _. apply bool_decide_eq_false_2.
    change (manifest_reason (manifest_rejection r)) with (reason_code (rejection_reason r)). by rewrite reason_code_roundtrip. }
  rewrite Hcodes. cbn [orb]. rewrite Hv.
  assert (Hok : bool_decide (rule = "source-field"%string) || starts_with "fixed-delay:" rule = true).
  { destruct Hrule as [->|[s ->]]; [done|]. by rewrite starts_with_append, orb_true_r. }
  rewrite Hok. cbn [negb]. rewrite !orb_false_r. done.
Qed.

(** ** Lineage *)

Section lineage.
Context `{UlidCrate}.

Lemma versioned_exact id v : wf_ulid id -> wf_version v -> versioned (exact_of id v) = Ok (lineage_versioned id v).
Proof.
  intros Hi Hv. unfold versioned, exact_ref, exact_of. cbn [exact_id exact_version]. unfold wf_ulid in Hi. rewrite Hi. cbn.
  unfold version_new. destruct (Z.eqb_spec (version_get v) 0) as [E|]; [unfold wf_version in Hv; lia|]. cbn. by destruct v.
Qed.

Definition known (v : ExactVersion) : Prop := exists r, versioned v = Ok r.

Lemma instruments_lineage l lineage :
  bset_wf l -> Forall known l -> exists refs last, try_fold instrument_lineage (lineage, None) l = Ok (lineage ++ refs, last).
Proof.
  intros Hs Hk. assert (Hgen : forall l, StronglySorted (fun a b => cmp a b = Lt) l -> Forall known l ->
    forall previous lineage, (forall p, previous = Some p -> Forall (fun v => cmp p v = Lt) l) ->
    exists refs last, try_fold instrument_lineage (lineage, previous) l = Ok (lineage ++ refs, last)).
  { clear. induction 1 as [|v l Hl IH Hv]; intros Hk previous lineage Hp.
    { exists [], previous. cbn. by rewrite app_nil_r. }
    apply Forall_cons in Hk as [(r & Er) Hk]. cbn [try_fold].
    assert (Es : instrument_lineage (lineage, previous) v = Ok (lineage ++ [r], Some v)).
    { unfold instrument_lineage. cbn [fst snd]. rewrite Er. destruct previous as [p|]; [|done]. cbn.
      specialize (Hp p eq_refl). apply Forall_cons in Hp as [Hp _]. unfold geb. by rewrite Hp. }
    rewrite Es. cbn [mbind Result_bind]. destruct (IH Hk (Some v) (lineage ++ [r])) as (refs & last & ->); [by intros ? [= <-]|].
    exists (r :: refs), last. by rewrite <- (assoc_L (++)). }
  by apply (Hgen l Hs Hk None).
Qed.
End lineage.

(** ** Hashes as text *)

Lemma hex_value_digit n : 0 <= n < 16 -> hex_value (hex_digit n) = Some n.
Proof.
  intros Hn. unfold hex_value. rewrite decode_hex_digit by done. unfold hex_digit.
  assert (Hf : byte_in 65 70 (byte_of_Z (if n <? 10 then 48 + n else 87 + n)) = false); [|by rewrite Hf].
  unfold byte_in. rewrite Z_of_byte_of_Z. destruct (Z.ltb_spec n 10); rewrite Z.mod_small by lia; apply andb_false_iff; rewrite !Z.leb_gt; lia.
Qed.

Lemma hex_pairs_encode l : hex_pairs (encode_hex l) = Some l.
Proof.
  induction l as [|b l IH]; [done|]. change (encode_hex (b :: l)) with (encode_byte b ++ encode_hex l).
  cbn [encode_byte app hex_pairs]. pose proof (Z_of_byte_range b) as Hb.
  rewrite !hex_value_digit, IH by (first [apply Z.mod_pos_bound; lia|split; [by apply Z.div_pos; lia|by apply Z.div_lt_upper_bound; lia]]).
  cbn. f_equal. f_equal. rewrite <- (byte_of_Z_of_byte b) at 3. f_equal. rewrite Z.mul_comm. symmetry. apply Z.div_mod. lia.
Qed.

Lemma parse_hash_hex h : wf_hash h -> parse_hash (hash_hex h) = Ok h.
Proof.
  intros Hh. unfold parse_hash, hash_hex, str_len. rewrite <- length_as_bytes, as_bytes_of_bytes, length_encode_hex.
  unfold wf_hash in Hh. rewrite Hh. cbn [negb]. change (negb (Z.of_nat (2 * 32) =? 64)) with false. cbv iota.
  rewrite hex_pairs_encode. cbn [integrity ok_or mbind Result_bind]. unfold hash_from_bytes. rewrite Hh. cbn. by destruct h.
Qed.

(** ** Building and reading *)

(** Scales are unsigned. *)
Definition wf_column (column : option string * option Z) : Prop := from_option (fun s => 0 <= s) True column.2.
Record wf_batch_row (row : BatchRow) : Prop := {
  wf_open_column : wf_column (open_column row);
  wf_high_column : wf_column (high_column row);
  wf_low_column : wf_column (low_column row);
  wf_close_column : wf_column (close_column row);
  wf_volume_column : wf_column (volume_column row);
  wf_turnover_column : wf_column (turnover_column row);
  wf_vwap_column : wf_column (vwap_column row)
}.

(** What is written with the Parquet and JSON libraries is read back, and the columns of scales hold [u32]s. *)
Class SnapshotFormatsLaws `{SnapshotFormats} : Prop := {
  parquet_round rows bytes : parquet_write rows = Some bytes -> parquet_read bytes (Z.of_nat (List.length rows)) = Some rows;
  parquet_scales bytes n rows : parquet_read bytes n = Some rows -> Forall wf_batch_row rows;
  manifest_round manifest bytes : manifest_to_json manifest = Some bytes -> manifest_from_json (bytes ++ [NEWLINE]) = Some manifest
}.

(** A request as its constructors leave it, with ids and hashes that come from theirs. *)
Record wf_request `{UlidCrate} (request : CanonicalBarIngestRequest) : Prop := {
  wf_source : wf_ulid (data_source_id (data_source_input (source request))) /\ wf_version (data_source_version (data_source_input (source request)));
  wf_mapping : wf_ulid (mapping_id (mapping request)) /\ wf_hash (mapping_hash (mapping request));
  wf_calendar : wf_ulid (calendar_id (calendar request)) /\ wf_version (calendar_version (calendar request));
  wf_price : wf_ulid (unit_identity (price_unit request)) /\ wf_version (unit_number (price_unit request));
  wf_amount : wf_ulid (unit_identity (amount_unit request)) /\ wf_version (unit_number (amount_unit request));
  wf_yield : from_option (fun unit => wf_ulid (unit_identity unit) /\ wf_version (unit_number unit)) True (yield_unit request);
  wf_timezone : market_timezone (as_of (window request)) = MARKET_TIMEZONE;
  wf_window : ltb (instant (visible_at_cutoff (window request))) (instant (as_of (window request))) = false
}.

Section codec.
Context `{UlidCrate} `{Sha256} `{ChronoClock} `{RustDecimalLaws} `{ChronoColumnsLaws} `{SnapshotFormatsLaws}.
Context (request : CanonicalBarIngestRequest) (rules : Units) (Hrules : units_new request = Ok rules).

(** The lineage of a manifest does not depend on its Parquet file or its report. *)
Lemma request_lineage id batch q p :
  wf_request request -> batch <> [] -> Forall (fun row => known {| exact_id := instrument_column row; exact_version := instrument_version_column row |}) batch ->
  exists lineage, lineage <> [] /\ manifest_lineage (request_manifest id request batch q p) = Ok lineage.
Proof.
  intros [[Su Sv] [Mu Mh] [Cu Cv] [Pu Pv] [Au Av] Y _ _] Hne Hk. unfold manifest_lineage.
  cbn [request_manifest manifest_data_source instrument_mapping_id instrument_mapping_digest manifest_calendar units instruments
       request_units manifest_price manifest_amount manifest_yield exact_unit_of].
  unfold exact_unit_of. rewrite !versioned_exact by done. unfold wf_ulid in Mu. rewrite Mu, parse_hash_hex by done.
  cbn [integrity_error map_err mbind Result_bind].
  assert (Hi : Forall known (batch_instruments batch)).
  { apply Forall_forall. intros v Hv. unfold batch_instruments in Hv. apply (proj1 (bset_collect_elem _ _)), list_elem_of_fmap in Hv as (row & -> & Hrow).
    rewrite Forall_forall in Hk. by apply Hk. }
  assert (Hb : batch_instruments batch <> []).
  { destruct batch as [|row batch]; [done|]. intros E. apply (not_elem_of_nil {| exact_id := instrument_column row; exact_version := instrument_version_column row |}).
    rewrite <- E. unfold batch_instruments. apply (proj2 (bset_collect_elem _ _)). cbn. by left. }
  destruct (yield_unit request) as [u|]; cbn [fmap option_fmap option_map mbind Result_bind].
  - destruct Y as [Yu Yv]. rewrite versioned_exact by done. cbn [mbind Result_bind].
    match goal with |- context [try_fold instrument_lineage (?l, None) _] => destruct (instruments_lineage (batch_instruments batch) l) as (refs & last & ->) end;
      [apply bset_collect_wf|done|]. cbn [mbind Result_bind]. rewrite bool_decide_eq_false_2 by done. eexists. split; [|done]. done.
  - match goal with |- context [try_fold instrument_lineage (?l, None) _] => destruct (instruments_lineage (batch_instruments batch) l) as (refs & last & ->) end;
      [apply bset_collect_wf|done|]. cbn [mbind Result_bind]. rewrite bool_decide_eq_false_2 by done. eexists. split; [|done]. done.
Qed.

(** No snapshot can be built when the rejections are not in text order, whatever the formats do. *)
Lemma build_unsorted id canonical bars rows :
  wf_request request -> Forall (storable request rules) bars -> bars <> [] ->
  encode_batch request rules bars = Ok (batch canonical) -> schema_hash canonical = canonical_bar_schema_hash ->
  Z.of_nat (List.length (A:=RawBarRow) rows) < 2 ^ 64 ->
  rule_set_id (report canonical) = BAR_QUALITY_RULE_SET_ID ->
  (visibility_rule (report canonical) = "source-field"%string \/ exists s, visibility_rule (report canonical) = ("fixed-delay:" ++ s)%string) ->
  read_rows (report canonical) = Z.of_nat (List.length rows) -> emitted_rows (report canonical) = Z.of_nat (List.length bars) ->
  0 <= outside_window_rows (report canonical) ->
  emitted_rows (report canonical) + outside_window_rows (report canonical) + Z.of_nat (List.length (rejections (report canonical)))
    = read_rows (report canonical) ->
  text_sorted (rejections (report canonical)) = false -> snapshot_build id request canonical = Err SnapshotIntegrityFailed.
Proof.
  intros Wr Hst Hne Eb Hh Hlt Hid Hrule Hread Hemit Hout Hsum Hts.
  pose proof (encode_batch_Ok request rules bars (batch canonical) Eb) as (ps & Hps & Hf).
  assert (Hlen : List.length bars = List.length (batch canonical)) by (by apply Forall2_length in Hf).
  assert (Hbne : batch canonical <> []) by (intros E; rewrite E in Hlen; by destruct bars).
  assert (Hlb : Z.of_nat (List.length (batch canonical)) < 2 ^ 64) by lia.
  destruct (quality_binding (report canonical)) as [q|] eqn:Eq; [|unfold quality_binding in Eq; by rewrite !count_Ok in Eq by lia].
  assert (Hdecode : forall p, row_count p = Z.of_nat (List.length (batch canonical)) ->
    decode_bars (request_manifest id request (batch canonical) q p) (batch canonical) (window_as_of request) (window_cutoff request)
    = Ok (map stored bars)) by (intros p Hp; by apply (decode_encode_batch request rules)).
  assert (Hqual : forall p, row_count p = Z.of_nat (List.length (batch canonical)) ->
    validate_quality (request_manifest id request (batch canonical) q p)
    = fail_if (negb (text_sorted (rejections (report canonical)))) SnapshotIntegrityFailed).
  { intros p Hp. apply (validate_quality_report _ bars rows (report canonical) (visibility_rule (report canonical))); try done.
    cbn. by rewrite Hp, Hlen. }
  unfold snapshot_build. rewrite bool_decide_eq_false_2, Hh, bool_decide_eq_true_2 by done. cbn [orb negb].
  rewrite count_Ok by done. cbn [mbind Result_bind]. rewrite Eq. cbn [mbind Result_bind]. rewrite Hdecode by done. cbn [mbind Result_bind].
  unfold encode_parquet. destruct (parquet_write (batch canonical)) as [bytes|]; [|done]. cbn [integrity ok_or mbind Result_bind].
  unfold count, integrity. destruct (u64_try_from _) as [size|]; [|done]. cbn [ok_or mbind Result_bind]. by rewrite Hqual, Hts.
Qed.

(** A snapshot can be built from stored bars exactly when the rejections are in text order, and then it
    reads back. *)
Lemma build_and_read id canonical bars rows parquet_bytes :
  wf_request request -> Forall (storable request rules) bars -> bars <> [] ->
  encode_batch request rules bars = Ok (batch canonical) -> schema_hash canonical = canonical_bar_schema_hash ->
  Z.of_nat (List.length (A:=RawBarRow) rows) < 2 ^ 64 -> Z.of_nat (List.length parquet_bytes) < 2 ^ 64 ->
  parquet_write (batch canonical) = Some parquet_bytes -> (forall manifest, is_Some (manifest_to_json manifest)) ->
  rule_set_id (report canonical) = BAR_QUALITY_RULE_SET_ID ->
  (visibility_rule (report canonical) = "source-field"%string \/ exists s, visibility_rule (report canonical) = ("fixed-delay:" ++ s)%string) ->
  read_rows (report canonical) = Z.of_nat (List.length rows) -> emitted_rows (report canonical) = Z.of_nat (List.length bars) ->
  0 <= outside_window_rows (report canonical) ->
  emitted_rows (report canonical) + outside_window_rows (report canonical) + Z.of_nat (List.length (rejections (report canonical)))
    = read_rows (report canonical) ->
  if text_sorted (rejections (report canonical)) then
    exists package verified, snapshot_build id request canonical = Ok package
      /\ decode_verified (package_snapshot package) (package_parquet package) (package_manifest package) = Ok verified
      /\ verified_snapshot verified = package_snapshot package /\ verified_bars verified = map stored bars
      /\ data_source_price_type (source request) = Some (verified_price_source_type verified)
      /\ manifest_rejections (verified_manifest verified) = Ok (rejections (report canonical))
      /\ snapshot_visible_at (package_snapshot package) = visible_at_cutoff (window request)
  else snapshot_build id request canonical = Err SnapshotIntegrityFailed.
Proof.
  intros Wr Hst Hne Eb Hh Hlt Hpl Hpw Hjson Hid Hrule Hread Hemit Hout Hsum.
  pose proof (encode_batch_Ok request rules bars (batch canonical) Eb) as (ps & Hps & Hf).
  assert (Hlen : List.length bars = List.length (batch canonical)) by (by apply Forall2_length in Hf).
  assert (Hbne : batch canonical <> []) by (intros E; rewrite E in Hlen; by destruct bars).
  assert (Hlb : Z.of_nat (List.length (batch canonical)) < 2 ^ 64) by lia.
  destruct (quality_binding (report canonical)) as [q|] eqn:Eq; [|unfold quality_binding in Eq; by rewrite !count_Ok in Eq by lia].
  assert (Hdecode : forall p, row_count p = Z.of_nat (List.length (batch canonical)) ->
    decode_bars (request_manifest id request (batch canonical) q p) (batch canonical) (window_as_of request) (window_cutoff request)
    = Ok (map stored bars)) by (intros p Hp; by apply (decode_encode_batch request rules)).
  assert (Hqual : forall p, row_count p = Z.of_nat (List.length (batch canonical)) ->
    validate_quality (request_manifest id request (batch canonical) q p)
    = fail_if (negb (text_sorted (rejections (report canonical)))) SnapshotIntegrityFailed).
  { intros p Hp. apply (validate_quality_report _ bars rows (report canonical) (visibility_rule (report canonical))); try done.
    cbn. by rewrite Hp, Hlen. }
  unfold snapshot_build. rewrite bool_decide_eq_false_2, Hh, bool_decide_eq_true_2 by done. cbn [orb negb].
  rewrite count_Ok by done. cbn [mbind Result_bind]. rewrite Eq. cbn [mbind Result_bind]. rewrite Hdecode by done. cbn [mbind Result_bind].
  unfold encode_parquet. rewrite Hpw. cbn [integrity ok_or mbind Result_bind]. rewrite count_Ok by done. cbn [mbind Result_bind].
  set (payload := {| parquet_content_hash := hash_hex (digest parquet_bytes); parquet_size := Z.of_nat (List.length parquet_bytes);
    row_count := Z.of_nat (List.length (batch canonical)) |}).
  set (manifest := request_manifest id request (batch canonical) q payload).
  pose proof (Hqual payload eq_refl) as Hvq. pose proof (Hdecode payload eq_refl) as Hdb. fold manifest in Hvq, Hdb.
  rewrite Hvq. destruct (text_sorted _); [|done]. cbn [negb fail_if mbind Result_bind] in Hvq |- *.
  destruct (Hjson manifest) as [text Htext]. unfold manifest_bytes at 1. rewrite Htext. cbn [integrity ok_or mbind Result_bind].
  destruct (request_lineage id (batch canonical) q payload Wr Hbne)
    as (lineage & Hlne & Hl).
  { clear - Hst Hf. induction Hf as [|bar row bars batch (date & _ & ->) _ IH]; [constructor|]. apply Forall_cons in Hst as [Hb Hst].
    constructor; [|by apply IH]. destruct (storable_instrument _ _ _ Hb) as [Hi Hv]. eexists. by apply (versioned_exact _ _ Hi Hv). }
  fold manifest in Hl. rewrite Hl. cbn [mbind Result_bind]. unfold data_snapshot_new. cbn [snapshot_visible_at snapshot_as_of snapshot_lineage].
  rewrite (wf_window _ Wr), bool_decide_eq_false_2 by done. cbn [integrity_error map_err mbind Result_bind].
  eexists _, _. split; [done|]. cbn [package_snapshot package_parquet package_manifest]. split.
  - unfold decode_verified. cbn [blob_content_hash snapshot_manifest_hash snapshot_as_of snapshot_visible_at]. unfold hash_verify.
    rewrite !bool_decide_eq_true_2 by done. cbn [negb integrity_error map_err mbind Result_bind].
    rewrite (manifest_round manifest text Htext). cbn [integrity ok_or mbind Result_bind]. unfold manifest_bytes. rewrite Htext.
    cbn [integrity ok_or mbind Result_bind]. unfold differs at 1. rewrite bool_decide_eq_true_2 by done. cbn [negb].
    rewrite count_Ok by done. cbn [mbind Result_bind]. rewrite Hl. cbn [mbind Result_bind].
    assert (Hd : forall s, snapshot_id s = id -> snapshot_owner s = source_owner request -> snapshot_schema_hash s = canonical_bar_schema_hash ->
      blob_content_hash s = digest parquet_bytes -> snapshot_as_of s = as_of (window request) ->
      snapshot_visible_at s = visible_at_cutoff (window request) -> snapshot_lineage s = lineage ->
      manifest_differs manifest s (Z.of_nat (List.length parquet_bytes)) lineage = false).
    { intros s E1 E2 E3 E4 E5 E6 E7. unfold manifest_differs, differs. rewrite E1, E2, E3, E4, E5, E6, E7. unfold manifest, request_manifest, window_as_of, window_cutoff.
      cbn [manifest_schema manifest_snapshot_id manifest_tenant_id manifest_owner_id manifest_canonical_schema_id
        manifest_canonical_schema_hash parquet parquet_content_hash parquet_size point_in_time pit_as_of pit_visible_at_cutoff
        pit_market_timezone writer]. rewrite (wf_timezone _ Wr). by rewrite !bool_decide_eq_true_2. }
    rewrite Hd by done. rewrite Hvq. cbn [mbind Result_bind]. change (instrument_mapping_digest manifest) with (hash_hex (mapping_hash (mapping request))).
    rewrite parse_hash_hex by apply Wr. cbn [mbind Result_bind].
    unfold decode_parquet_with_schema. change (row_count (parquet manifest)) with (Z.of_nat (List.length (batch canonical))).
    rewrite (parquet_round _ _ Hpw). cbn [integrity ok_or mbind Result_bind].
    unfold window_as_of, window_cutoff in Hdb. rewrite Hdb. cbn [mbind Result_bind].
    rewrite (single_price_source_Ok request rules bars (batch canonical) ps Hps Eb Hbne). cbn [mbind Result_bind]. done.
  - cbn [verified_snapshot verified_bars verified_price_source_type verified_manifest snapshot_visible_at]. do 3 (split; [done|]). split; [|done].
    unfold manifest_rejections, manifest. cbn [quality request_manifest]. unfold quality_binding in Eq. rewrite !count_Ok in Eq by lia.
    cbn [mbind Result_bind] in Eq. injection Eq as <-. cbn [quality_rejections]. apply rejections_round.
Qed.
End codec.

(** ** What verification establishes *)

Section verified.
Context `{UlidCrate} `{ChronoClock} `{ChronoColumns} `{RustDecimalLaws}.

Lemma integrity_Ok {A} (o : option A) a : integrity o = Ok a -> o = Some a.
Proof. apply ok_or_Ok. Qed.
Lemma integrity_error_Ok {E A} (m : Result E A) a : integrity_error m = Ok a -> m = Ok a.
Proof. unfold integrity_error. destruct m; cbn; congruence. Qed.

(** A decimal read from columns is well formed and has the unit asked for. *)
Lemma decimal_column_Ok column unit d :
  wf_column column -> decimal_column column unit = Ok d -> from_option (fun d => wf_decimal d /\ value_unit d = unit) True d.
Proof.
  unfold decimal_column, wf_column. destruct column as [[s|] [sc|]]; cbn; try done; [|by intros _ [= <-]].
  intros Hs E. apply bind_Ok in E as (x & Ex%integrity_error_Ok & [= <-]). cbn.
  by destruct (decimal_value_new_Ok _ _ _ _ Hs Ex) as (? & _ & _ & _ & ? & _ & ?).
Qed.

(** A bar that may be shown: canonical, in the units of its manifest, closed by [as_of] and visible by the
    cutoff. *)
Record shown (price_unit amount_unit : UnitRef) (as_of visible_cutoff : DateTime) (bar : Bar) : Prop := {
  shown_wf : wf_bar bar;
  shown_canonical : canonical_bar bar;
  shown_timezone : bar_timezone bar = MARKET_TIMEZONE;
  shown_prices : from_option (fun p => value_unit (Bar.open p) = price_unit /\ value_unit (high p) = price_unit
    /\ value_unit (low p) = price_unit /\ value_unit (Bar.close p) = price_unit) True (prices bar);
  shown_volume : value_unit (volume bar) = amount_unit;
  shown_turnover : from_option (fun d => value_unit d = amount_unit) True (turnover bar);
  shown_vwap : from_option (fun d => value_unit d = price_unit) True (vwap bar);
  shown_end : ltb as_of (bar_end bar) = false;
  shown_visible : ltb visible_cutoff (visible_at bar) = false
}.

Definition priced (unit : UnitRef) (p : BarPrices) : Prop :=
  (wf_decimal (Bar.open p) /\ wf_decimal (high p) /\ wf_decimal (low p) /\ wf_decimal (Bar.close p))
  /\ value_unit (Bar.open p) = unit /\ value_unit (high p) = unit /\ value_unit (low p) = unit /\ value_unit (Bar.close p) = unit.

Lemma decode_prices_Ok unit row p : wf_batch_row row -> decode_prices unit row = Ok p -> from_option (priced unit) True p.
Proof.
  intros [Wo Wh Wl Wc _ _ _] E. unfold decode_prices in E. apply bind_Ok in E as (o & Eo & E). apply bind_Ok in E as (h & Eh & E).
  apply bind_Ok in E as (l & El & E). apply bind_Ok in E as (c & Ec & E).
  apply decimal_column_Ok in Eo; [|done]. apply decimal_column_Ok in Eh; [|done].
  apply decimal_column_Ok in El; [|done]. apply decimal_column_Ok in Ec; [|done].
  destruct o, h, l, c; try done; injection E as <-; cbn in *; [|done]. unfold priced. cbn. naive_solver.
Qed.

Lemma decode_row_shown manifest price_unit amount_unit yield_unit as_of cutoff row bar :
  wf_batch_row row -> decode_row manifest price_unit amount_unit yield_unit as_of cutoff row = Ok bar ->
  shown price_unit amount_unit as_of cutoff bar.
Proof.
  intros W E. unfold decode_row in E. apply bind_Ok in E as (start & _ & E). apply bind_Ok in E as (end_ & _ & E).
  apply bind_Ok in E as (observed & _ & E). apply bind_Ok in E as (visible & _ & E).
  destruct (_ || ltb cutoff visible) eqn:Eg; [done|]. apply orb_false_iff in Eg as [Eg Hc]. apply orb_false_iff in Eg as [_ Ha].
  apply bind_Ok in E as (cy & _ & E). apply bind_Ok in E as (p & Ep & E). apply bind_Ok in E as (id & _ & E).
  apply bind_Ok in E as (version & _ & E). apply bind_Ok in E as (f & _ & E). apply bind_Ok in E as (s & _ & E).
  apply bind_Ok in E as (date & _ & E). apply bind_Ok in E as (v & Ev & E). apply bind_Ok in E as (v' & Ev'%integrity_Ok & E).
  apply bind_Ok in E as (t & Et & E). apply bind_Ok in E as (w & Ew & E%integrity_error_Ok). subst v.
  apply decode_prices_Ok in Ep; [|done]. apply decimal_column_Ok in Ev; [|apply W]. apply decimal_column_Ok in Et; [|apply W].
  apply decimal_column_Ok in Ew; [|apply W]. destruct Ev as [Wv Uv].
  apply bar_new_Ok in E as [-> C].
  - split; cbn; try done; [split; cbn; try done|..].
    + destruct t; [apply Et|done].
    + destruct p; [apply Ep|done].
    + destruct w; [apply Ew|done].
    + destruct p; [apply Ep|done].
    + destruct t; [apply Et|done].
    + destruct w; [apply Ew|done].
  - split; cbn; [done|destruct t; [apply Et|done]|destruct p; [apply Ep|done]|destruct w; [apply Ew|done]].
Qed.

Lemma decode_bars_shown manifest batch as_of cutoff bars :
  Forall wf_batch_row batch -> decode_bars manifest batch as_of cutoff = Ok bars ->
  exists price_unit amount_unit, unit_ref (manifest_price (units manifest)) = Ok price_unit
    /\ unit_ref (manifest_amount (units manifest)) = Ok amount_unit
    /\ Forall (shown price_unit amount_unit as_of cutoff) bars
    /\ Z.of_nat (List.length bars) = row_count (parquet manifest).
Proof.
  intros W E. unfold decode_bars in E. apply bind_Ok in E as (rows & Er%integrity_Ok & E). apply checked_Some in Er as [_ ->].
  destruct (negb _) eqn:Ec in E; [done|]. apply negb_false_iff, Z.eqb_eq in Ec. destruct (negb _) in E; [done|].
  apply bind_Ok in E as (p & Ep & E). apply bind_Ok in E as (a & Ea & E). apply bind_Ok in E as (y & _ & E).
  apply try_map_Ok in E. exists p, a. do 2 (split; [done|]). split; [|by rewrite <- Ec, (Forall2_length _ _ _ E)].
  clear Ec. induction E as [|row bar batch bars Hr _ IH]; constructor; apply Forall_cons in W as [Wr W]; [|by apply IH].
  by apply (decode_row_shown _ _ _ _ _ _ _ _ Wr Hr).
Qed.
End verified.

Section verification.
Context `{UlidCrate} `{Sha256} `{ChronoClock} `{ChronoColumns} `{RustDecimalLaws} `{SnapshotFormatsLaws}.

(** The steps of a successful verification. *)
Lemma decode_verified_steps snapshot parquet_bytes manifest_text verified :
  decode_verified snapshot parquet_bytes manifest_text = Ok verified ->
  digest parquet_bytes = blob_content_hash snapshot /\ digest manifest_text = snapshot_manifest_hash snapshot
  /\ verified_snapshot verified = snapshot /\ validate_quality (verified_manifest verified) = Ok tt
  /\ exists batch, parquet_read parquet_bytes (row_count (parquet (verified_manifest verified))) = Some batch
  /\ decode_bars (verified_manifest verified) batch (instant (snapshot_as_of snapshot)) (instant (snapshot_visible_at snapshot))
      = Ok (verified_bars verified).
Proof.
  intros E. unfold decode_verified in E. apply bind_Ok in E as ([] & Eb%integrity_error_Ok & E).
  apply bind_Ok in E as ([] & Em%integrity_error_Ok & E). apply bind_Ok in E as (m & _ & E). apply bind_Ok in E as (bytes & _ & E).
  destruct (differs _ _) in E; [done|]. apply bind_Ok in E as (size & _ & E). apply bind_Ok in E as (lineage & _ & E).
  destruct (manifest_differs _ _ _ _) in E; [done|]. apply bind_Ok in E as ([] & Eq & E). apply bind_Ok in E as (h & _ & E).
  apply bind_Ok in E as (batch & Ep%integrity_Ok & E). apply bind_Ok in E as (bars & Ebars & E). apply bind_Ok in E as (ps & _ & [= <-]).
  unfold hash_verify in Eb, Em. case_bool_decide; [|done]. case_bool_decide; [|done]. cbn. by eauto 10.
Qed.

(** The codes of a checked report name reasons, so that reading the report cannot fail. *)
Lemma quality_readable manifest :
  validate_quality manifest = Ok tt ->
  exists rejections, manifest_rejections manifest = Ok rejections /\ map manifest_rejection rejections = quality_rejections (quality manifest)
    /\ text_sorted rejections = true /\ quality_emitted_rows (quality manifest) = row_count (parquet manifest)
    /\ (row_count (parquet manifest) + quality_outside_window_rows (quality manifest) + Z.of_nat (List.length rejections)) mod 2 ^ 64
      = quality_read_rows (quality manifest).
Proof.
  intros E. unfold validate_quality in E. apply bind_Ok in E as (n & En%integrity_Ok & E). apply checked_Some in En as [_ ->].
  apply fail_if_Ok in E. rewrite !orb_false_iff, !negb_false_iff in E. destruct E as ((((((_ & Ee) & _) & Es) & Eo) & Ec) & _).
  apply Z.eqb_eq in Ee, Es. unfold u64_wrapping_add in Es. rewrite Zplus_mod_idemp_l, Ee in Es.
  assert (Hr : exists rejections, manifest_rejections manifest = Ok rejections /\ map manifest_rejection rejections = quality_rejections (quality manifest)).
  { unfold manifest_rejections. clear Es Eo. induction (quality_rejections (quality manifest)) as [|r l IH]; [by exists []|].
    cbn [existsb] in Ec. apply orb_false_iff in Ec as [Er Ec]. apply bool_decide_eq_false_1 in Er. destruct (IH Ec) as (rs & Ers & Em).
    destruct (reason_from_code (manifest_reason r)) as [reason|] eqn:Ereason; [|done]. cbn [try_map]. rewrite Ereason. cbn [ok_or mbind Result_bind].
    rewrite Ers. eexists. split; [done|]. cbn [map]. rewrite Em. f_equal. unfold manifest_rejection. cbn.
    rewrite (reason_from_code_Some _ _ Ereason). by destruct r. }
  destruct Hr as (rs & Ers & Em). exists rs. split; [done|]. split; [done|]. unfold text_sorted. rewrite Em. split; [done|]. split; [done|].
  by rewrite <- (length_map manifest_rejection rs), Em.
Qed.
End verification.

(** ** From rows to a verified snapshot *)

(** Rows with unsigned scales whose bars have common instants and dates and instruments with proper ids. *)
Record wf_rows `{UlidCrate} `{ChronoClock} `{!ChronoLocal} `{RustDecimal} (request : CanonicalBarIngestRequest) (rules : Units)
    (visibility : BarVisibilityRule) (rows : list RawBarRow) : Prop := {
  rows_scales : Forall wf_row rows;
  rows_number : Z.of_nat (List.length rows) < 2 ^ 64;
  rows_bars : forall raw bar, raw ∈ rows -> validate_row request rules visibility raw = Ok (Some bar) ->
    datable bar /\ wf_vref (instrument bar)
}.

Section import.
Context `{UlidCrate} `{Sha256} `{ChronoClock} `{!ChronoLocal} `{ChronoDelta} `{RustDecimalLaws} `{ChronoColumnsLaws}.
Context (adapter : BarSourceAdapter) (request : CanonicalBarIngestRequest) (rules : Units) (rows : list RawBarRow).
Context (Hread : adapter_read adapter (source request) = Ok rows) (Hrules : units_new request = Ok rules)
  (Hrows : wf_rows request rules (adapter_visibility adapter) rows).

Lemma ingested canonical :
  ingest adapter request = Ok canonical ->
  exists bars, ingest_bars adapter request = Ok (rules, bars, report canonical) /\ encode_batch request rules bars = Ok (batch canonical)
    /\ schema_hash canonical = canonical_bar_schema_hash /\ Forall (storable request rules) bars /\ bars <> []
    /\ rule_set_id (report canonical) = BAR_QUALITY_RULE_SET_ID
    /\ (visibility_rule (report canonical) = "source-field"%string \/ exists s, visibility_rule (report canonical) = ("fixed-delay:" ++ s)%string)
    /\ 0 <= outside_window_rows (report canonical)
    /\ accounts request rules (adapter_visibility adapter) rows bars (report canonical).
Proof.
  intros E. unfold ingest in E. apply bind_Ok in E as ([[rules' bars] rep] & Eb & E). apply bind_Ok in E as (b & Ee & [= <-]).
  pose proof (import_exact adapter request rules rows Hread (rows_scales _ _ _ _ Hrows) Hrules) as Hx. cbv zeta in Hx. rewrite Eb in Hx.
  destruct Hx as (-> & Hne & Hk & Him & _ & _ & _ & Ha). exists bars. cbn [report batch schema_hash]. split; [done|].
  destruct (encode_batch request rules bars) as [b'|] eqn:Ee'; [|done]. injection Ee as ->. split; [done|]. split; [done|].
  rewrite (ingest_bars_eq request rules (adapter_visibility adapter) adapter rows) in Eb by done. unfold import_result in Eb.
  destruct (existsb _ rows); [done|]. case_bool_decide; [done|]. injection Eb as _ <-. split; [|split; [done|split; [done|split; [|split; [|done]]]]].
  - apply Forall_forall. intros bar Hb. rewrite Forall_forall in Him. apply Hk in Hb as [Hb _]. apply list_elem_of_omap in Hb as (raw & Hr & Hb).
    unfold row_bar in Hb. destruct (validate_row request rules (adapter_visibility adapter) raw) as [o|] eqn:Ev; [|done]. subst o.
    pose proof (rows_scales _ _ _ _ Hrows) as Hs. rewrite Forall_forall in Hs.
    destruct (validate_row_sound request rules (adapter_visibility adapter) raw bar (Hs raw Hr) Ev) as [Hi Hw].
    destruct (rows_bars _ _ _ _ Hrows raw bar Hr Ev) as [Hd Hv]. by apply (imported_storable request rules (adapter_visibility adapter) raw).
  - unfold import_report. cbn. destruct (adapter_visibility adapter); cbn; [by left|right]. by eexists.
  - unfold import_report, outside_rows. cbn. lia.
Qed.
End import.

(** ** Properties *)

(** C10. What was imported is what is read. From an import a snapshot can be built exactly when its
    rejections are in the order in which the manifest writes them - always when no two of them name one
    row - and the snapshot then passes verification and decodes into the imported bars, in their order,
    with the price source of the data source and the same rejections; a stored bar is the imported one with
    the time at which it becomes visible cut to microseconds and its decimals read again, which changes no
    value. At any time up to the cutoff the snapshot shows precisely the stored bars visible then. *)
Theorem snapshot_round_trip `{UlidCrate} `{Sha256} `{ChronoClock} `{!ChronoLocal} `{ChronoDelta} `{RustDecimalLaws} `{ChronoColumnsLaws}
    `{SnapshotFormatsLaws} adapter request rules rows canonical id parquet_bytes :
  adapter_read adapter (source request) = Ok rows -> units_new request = Ok rules ->
  wf_rows request rules (adapter_visibility adapter) rows -> wf_request request -> ingest adapter request = Ok canonical ->
  parquet_write (batch canonical) = Some parquet_bytes -> Z.of_nat (List.length parquet_bytes) < 2 ^ 64 ->
  (forall manifest, is_Some (manifest_to_json manifest)) ->
  (NoDup (map row_id (rejections (report canonical))) -> text_sorted (rejections (report canonical)) = true)
  /\ exists bars, ingest_bars adapter request = Ok (rules, bars, report canonical)
  /\ if text_sorted (rejections (report canonical)) then
       exists package verified, snapshot_build id request canonical = Ok package
         /\ decode_verified (package_snapshot package) (package_parquet package) (package_manifest package) = Ok verified
         /\ verified_bars verified = map stored bars
         /\ data_source_price_type (source request) = Some (verified_price_source_type verified)
         /\ manifest_rejections (verified_manifest verified) = Ok (rejections (report canonical))
         /\ forall t, ltb (window_cutoff request) t = false ->
              visible_bars verified t = Ok (List.filter (fun bar => leb (visible_at bar) t) (map stored bars))
     else snapshot_build id request canonical = Err SnapshotIntegrityFailed.
Proof.
  intros Hread Hrules Hrows Wr Hi Hpw Hpl Hjson.
  destruct (ingested adapter request rules rows Hread Hrules Hrows canonical Hi) as (bars & Eb & Ee & Hh & Hst & Hne & Hid & Hv & Hout & Ha).
  split; [intros Hn; apply distinct_rows_text_sorted; [apply Ha|done]|]. exists bars. split; [done|].
  pose proof (build_and_read request rules Hrules id canonical bars rows parquet_bytes Wr Hst Hne Ee Hh (rows_number _ _ _ _ Hrows) Hpl Hpw Hjson
    Hid Hv (accounts_read _ _ _ _ _ _ Ha) (accounts_emitted _ _ _ _ _ _ Ha) Hout (accounts_sum _ _ _ _ _ _ Ha)) as Hb.
  destruct (text_sorted _); [|done]. destruct Hb as (package & verified & H1' & H2' & H3' & H4' & H5' & H6' & H7').
  exists package, verified. do 5 (split; [done|]). intros t Ht. unfold visible_bars. rewrite H3', H4', H7'.
  unfold window_cutoff in Ht. by rewrite Ht.
Qed.

(** C22. A snapshot that verifies shows bars that were allowed to be shown. The files have the hashes the
    snapshot names; every bar is canonical, is valued in the units of the manifest, ended by the time the
    snapshot describes and was visible by its cutoff; the report of rejections can be read, is sorted, and
    its counts add up (as 64-bit numbers). Asked for the bars visible at a time, the snapshot refuses a time
    after its cutoff and otherwise gives exactly the bars visible by then, never a later one. And the snapshot
    identifies its content: other files that verify against it give the same bars, or SHA-256 collides. *)
Theorem verified_snapshot_sound `{UlidCrate} `{Sha256} `{ChronoClock} `{ChronoColumns} `{RustDecimalLaws}
    `{SnapshotFormatsLaws} snapshot parquet_bytes manifest_text verified :
  decode_verified snapshot parquet_bytes manifest_text = Ok verified ->
  let manifest := verified_manifest verified in
  (digest parquet_bytes = blob_content_hash snapshot /\ digest manifest_text = snapshot_manifest_hash snapshot)
  /\ (exists price_unit amount_unit, unit_ref (manifest_price (units manifest)) = Ok price_unit
        /\ unit_ref (manifest_amount (units manifest)) = Ok amount_unit
        /\ Forall (shown price_unit amount_unit (instant (snapshot_as_of snapshot)) (instant (snapshot_visible_at snapshot)))
             (verified_bars verified)
        /\ Z.of_nat (List.length (verified_bars verified)) = row_count (parquet manifest))
  /\ (exists rejections, manifest_rejections manifest = Ok rejections /\ text_sorted rejections = true
        /\ (Z.of_nat (List.length (verified_bars verified)) + quality_outside_window_rows (quality manifest)
             + Z.of_nat (List.length rejections)) mod 2 ^ 64 = quality_read_rows (quality manifest))
  /\ (forall t, match visible_bars verified t with
        | Ok bars => cmp (instant (snapshot_visible_at snapshot)) t <> Lt
            /\ (forall bar, bar ∈ bars <-> bar ∈ verified_bars verified /\ cmp (visible_at bar) t <> Gt)
        | Err error => error = PointInTimeViolation /\ cmp (instant (snapshot_visible_at snapshot)) t = Lt
        end)
  /\ (forall parquet_bytes' manifest_text' verified', decode_verified snapshot parquet_bytes' manifest_text' = Ok verified' ->
        verified' = verified \/ collision).
Proof.
  intros E manifest. pose proof (decode_verified_steps _ _ _ _ E) as (Hp & Hm & Hs & Hq & batch & Hb & Hd).
  destruct (decode_bars_shown _ _ _ _ _ (parquet_scales _ _ _ Hb) Hd) as (p & a & Ep & Ea & Hf & Hn).
  split; [done|]. split; [by exists p, a|]. split.
  { destruct (quality_readable _ Hq) as (rs & Ers & _ & Hsorted & _ & Hsum). exists rs. by rewrite Hn. }
  split.
  - intros t. unfold visible_bars. rewrite Hs. destruct (ltb _ t) eqn:Et; [by apply ltb_spec in Et|]. split; [by intros F%ltb_spec; congruence|].
    intros bar. rewrite !list_elem_of_In, filter_In, leb_spec, <- cmp_eq. split; intros [Hb' Hc]; (split; [done|]); destruct (cmp (visible_at bar) t); naive_solver.
  - intros parquet' manifest' verified' E'. pose proof (decode_verified_steps _ _ _ _ E') as (Hp' & Hm' & _).
    destruct (digest_inj parquet' parquet_bytes) as [-> |]; [congruence| |by right].
    destruct (digest_inj manifest' manifest_text) as [-> |]; [congruence| |by right]. left. congruence.
Qed.

(** ** An example *)

From stdpp Require Import countable.
Open Scope Z_scope.

(** Formats that write the fields of a row and of a manifest one after the other. *)
Abbreviation Token := (option (string + Z)).

Fixpoint bits_of (p : positive) : list byte :=
  match p with xH => [] | xO p => x00 :: bits_of p | xI p => x01 :: bits_of p end.
Fixpoint of_bits (l : list byte) : option positive :=
  match l with
  | [] => Some xH
  | x00 :: l => xO <$> of_bits l
  | x01 :: l => xI <$> of_bits l
  | _ => None
  end.

Lemma of_bits_of p : of_bits (bits_of p) = Some p.
Proof. induction p as [p IH|p IH|]; cbn; [by rewrite IH..|done]. Qed.

Definition to_file {A} `{Countable A} (a : A) : list byte := bits_of (encode a).
Definition of_file {A} `{Countable A} (l : list byte) : option A := p ← of_bits l; decode p.

Lemma of_to_file {A} `{Countable A} (a : A) : of_file (to_file a) = Some a.
Proof. unfold of_file, to_file. rewrite of_bits_of. cbn. apply decode_encode. Qed.

Definition text_token (s : string) : Token := Some (inl s).
Definition number_token (n : Z) : Token := Some (inr n).
Definition text_option (o : option string) : Token := inl <$> o.
Definition number_option (o : option Z) : Token := inr <$> o.
Definition column_tokens (c : option string * option Z) : list Token := [text_option c.1; number_option c.2].

Definition row_tokens (r : BatchRow) : list Token :=
  [text_token (tenant_column r); text_token (owner_column r); text_token (data_source_column r);
   number_token (data_source_version_column r); text_token (price_source_column r); text_token (record_column r);
   text_token (instrument_column r); number_token (instrument_version_column r); text_token (frequency_column r);
   text_token (settlement_column r); number_token (start_column r); number_token (end_column r);
   number_token (observed_column r); number_token (visible_column r); number_token (date_column r);
   text_token (price_unit_column r); number_token (price_unit_version_column r);
   text_token (amount_unit_column r); number_token (amount_unit_version_column r);
   number_option (trade_count_column r); text_option (yield_unit_column r); number_option (yield_unit_version_column r)]
  ++ column_tokens (open_column r) ++ column_tokens (high_column r) ++ column_tokens (low_column r)
  ++ column_tokens (close_column r) ++ column_tokens (volume_column r) ++ column_tokens (turnover_column r)
  ++ column_tokens (vwap_column r) ++ column_tokens (yield_column r).

Definition token_text (t : Token) : option string := match t with Some (inl s) => Some s | _ => None end.
Definition token_number (t : Token) : option Z := match t with Some (inr n) => Some n | _ => None end.
Definition text_at (l : list Token) (i : nat) : string := default ""%string (t ← l !! i; token_text t).
Definition number_at (l : list Token) (i : nat) : Z := default 0 (t ← l !! i; token_number t).
Definition column_at (l : list Token) (i : nat) : option string * option Z :=
  (t ← l !! i; token_text t, t ← l !! S i; token_number t).

Definition row_of_tokens (l : list Token) : BatchRow := {|
  tenant_column := text_at l 0; owner_column := text_at l 1; data_source_column := text_at l 2;
  data_source_version_column := number_at l 3; price_source_column := text_at l 4; record_column := text_at l 5;
  instrument_column := text_at l 6; instrument_version_column := number_at l 7; frequency_column := text_at l 8;
  settlement_column := text_at l 9; start_column := number_at l 10; end_column := number_at l 11;
  observed_column := number_at l 12; visible_column := number_at l 13; date_column := number_at l 14;
  price_unit_column := text_at l 15; price_unit_version_column := number_at l 16;
  amount_unit_column := text_at l 17; amount_unit_version_column := number_at l 18;
  trade_count_column := (column_at l 18).2; yield_unit_column := (column_at l 20).1;
  yield_unit_version_column := (column_at l 20).2;
  open_column := column_at l 22; high_column := column_at l 24; low_column := column_at l 26; close_column := column_at l 28;
  volume_column := column_at l 30; turnover_column := column_at l 32; vwap_column := column_at l 34; yield_column := column_at l 36 |}.

Lemma token_text_option o : token_text (text_option o) = o.
Proof. by destruct o. Qed.
Lemma token_number_option o : token_number (number_option o) = o.
Proof. by destruct o. Qed.

Arguments token_text : simpl never.
Arguments token_number : simpl never.

Lemma row_tokens_round r : row_of_tokens (row_tokens r) = r.
Proof.
  destruct r. unfold row_of_tokens, row_tokens, text_at, number_at, column_at, column_tokens, text_token, number_token. cbn.
  rewrite !token_text_option, !token_number_option, <- !surjective_pairing. done.
Qed.

Definition wf_columnb (c : option string * option Z) : bool := from_option (Z.leb 0) true c.2.
Definition wf_rowb (r : BatchRow) : bool :=
  forallb wf_columnb [open_column r; high_column r; low_column r; close_column r; volume_column r; turnover_column r; vwap_column r].

Lemma wf_columnb_spec c : wf_columnb c = true -> wf_column c.
Proof. unfold wf_columnb, wf_column. destruct c.2; cbn; [by intros ?%Z.leb_le|done]. Qed.

Lemma wf_rowb_spec r : wf_rowb r = true -> wf_batch_row r.
Proof.
  unfold wf_rowb. cbn [forallb]. rewrite !andb_true_iff. intros (? & ? & ? & ? & ? & ? & ? & _). split; by apply wf_columnb_spec.
Qed.

(** The texts and numbers of a manifest, its instruments and its rejections. *)
Definition manifest_tokens (m : BarSnapshotManifest) : list Token * list Token * list Token :=
  let exact (v : ExactVersion) : list Token := [text_token (exact_id v); number_token (exact_version v)] in
  let w := writer m in
  ([text_token (manifest_schema m); text_token (manifest_snapshot_id m); text_token (manifest_tenant_id m);
    text_token (manifest_owner_id m); text_token (manifest_canonical_schema_id m); text_token (manifest_canonical_schema_hash m);
    text_token (parquet_content_hash (parquet m)); number_token (parquet_size (parquet m)); number_token (row_count (parquet m));
    text_token (pit_as_of (point_in_time m)); text_token (pit_visible_at_cutoff (point_in_time m));
    text_token (pit_market_timezone (point_in_time m)); text_token (instrument_mapping_id m);
    text_token (instrument_mapping_digest m); text_token (quality_rule_set_id (quality m));
    text_token (quality_visibility_rule (quality m)); number_token (quality_read_rows (quality m));
    number_token (quality_outside_window_rows (quality m)); number_token (quality_emitted_rows (quality m));
    text_token (library w); text_token (library_version w); text_token (created_by w); text_token (compression w);
    number_token (Z.b2z (dictionary w)); text_token (writer_version w); text_token (data_page_version w);
    number_token (row_groups w); number_token (write_batch_size w); number_token (data_page_row_limit w)]
   ++ exact (manifest_data_source m) ++ exact (manifest_calendar m) ++ exact (manifest_price (units m))
   ++ exact (manifest_amount (units m)) ++ [text_option (exact_id <$> manifest_yield (units m)); number_option (exact_version <$> manifest_yield (units m))],
   flat_map exact (instruments m),
   flat_map (fun r => [text_token (manifest_row_id r); text_token (manifest_reason r); text_option (manifest_field r)])
     (quality_rejections (quality m))).

Definition exact_at (l : list Token) (i : nat) : ExactVersion := {| exact_id := text_at l i; exact_version := number_at l (S i) |}.

Fixpoint exacts_of (l : list Token) : list ExactVersion :=
  match l with a :: b :: l' => exact_at [a; b] 0 :: exacts_of l' | _ => [] end.
Fixpoint rejections_of (l : list Token) : list ManifestRejection :=
  match l with
  | a :: b :: c :: l' =>
      {| manifest_row_id := text_at [a] 0; manifest_reason := text_at [b] 0; manifest_field := token_text c |} :: rejections_of l'
  | _ => []
  end.

Definition manifest_of_tokens (p : list Token * list Token * list Token) : BarSnapshotManifest :=
  let l := p.1.1 in {|
  manifest_schema := text_at l 0; manifest_snapshot_id := text_at l 1; manifest_tenant_id := text_at l 2;
  manifest_owner_id := text_at l 3; manifest_canonical_schema_id := text_at l 4; manifest_canonical_schema_hash := text_at l 5;
  parquet := {| parquet_content_hash := text_at l 6; parquet_size := number_at l 7; row_count := number_at l 8 |};
  point_in_time := {| pit_as_of := text_at l 9; pit_visible_at_cutoff := text_at l 10; pit_market_timezone := text_at l 11 |};
  instrument_mapping_id := text_at l 12; instrument_mapping_digest := text_at l 13;
  quality := {| quality_rule_set_id := text_at l 14; quality_visibility_rule := text_at l 15; quality_read_rows := number_at l 16;
    quality_outside_window_rows := number_at l 17; quality_emitted_rows := number_at l 18;
    quality_rejections := rejections_of p.2 |};
  writer := {| library := text_at l 19; library_version := text_at l 20; created_by := text_at l 21; compression := text_at l 22;
    dictionary := number_at l 23 =? 1; writer_version := text_at l 24; data_page_version := text_at l 25;
    row_groups := number_at l 26; write_batch_size := number_at l 27; data_page_row_limit := number_at l 28 |};
  manifest_data_source := exact_at l 29; manifest_calendar := exact_at l 31;
  units := {| manifest_price := exact_at l 33; manifest_amount := exact_at l 35;
    manifest_yield := match column_at l 37 with (Some s, Some n) => Some {| exact_id := s; exact_version := n |} | _ => None end |};
  instruments := exacts_of p.1.2
|}.

Lemma manifest_tokens_round m : manifest_of_tokens (manifest_tokens m) = m.
Proof.
  assert (He : forall l, exacts_of (flat_map (fun v => [text_token (exact_id v); number_token (exact_version v)]) l) = l).
  { induction l as [|[] l IH]; cbn; [done|by rewrite IH]. }
  assert (Hr : forall l, rejections_of (flat_map (fun r => [text_token (manifest_row_id r); text_token (manifest_reason r);
    text_option (manifest_field r)]) l) = l).
  { induction l as [|[? ? ?] l IH]; [done|]. cbn. by rewrite token_text_option, IH. }
  destruct m as [? ? ? ? ? ? [] [] [] ? ? [] [[] [] y] insts [? ? ? ? ? rs] w]. destruct w as [? ? ? ? d ? ? ? ? ?].
  unfold manifest_of_tokens, manifest_tokens. cbn [fst snd instruments quality quality_rejections]. rewrite He, Hr.
  destruct y as [[]|], d; reflexivity.
Qed.

#[local] Instance sample_formats : SnapshotFormats := {|
  parquet_write := fun rows => if forallb wf_rowb rows then Some (to_file (map row_tokens rows)) else None;
  parquet_read := fun bytes _ => l ← of_file bytes; let rows := map row_of_tokens l in if forallb wf_rowb rows then Some rows else None;
  manifest_to_json := fun m => Some (to_file (manifest_tokens m));
  manifest_from_json := fun bytes => manifest_of_tokens <$> of_file (removelast bytes);
  rfc3339_micros := fun t => to_string (timestamp t * 1000000 + timestamp_subsec_nanos t / 1000)
|}.

#[local] Instance sample_formats_laws : SnapshotFormatsLaws.
Proof.
  split.
  - intros rows bytes. cbn. destruct (forallb wf_rowb rows) eqn:E; [|done]. intros [= <-]. rewrite of_to_file. cbn.
    rewrite map_map, (map_ext _ (fun r => r) row_tokens_round), map_id. by rewrite E.
  - intros bytes n rows. cbn. destruct (of_file bytes) as [l|]; [|done]. cbn. destruct (forallb wf_rowb _) eqn:E; [|done].
    intros [= <-]. apply Forall_forall. intros r Hr. rewrite forallb_forall in E. apply wf_rowb_spec, E. first [exact Hr|by apply list_elem_of_In].
  - intros m bytes [= <-]. cbn [manifest_from_json sample_formats]. rewrite removelast_last, of_to_file. cbn.
    by rewrite manifest_tokens_round.
Qed.

Local Existing Instance sample_ulid_crate.
Local Existing Instance sample_sha256.
Local Existing Instance sample_delta.
Local Existing Instance sample_decimal.
Local Existing Instance sample_decimal_laws.
Local Existing Instance market_chrono.
Local Existing Instance market_clock.
Local Existing Instance market_local.
Local Existing Instance market_columns.
Local Existing Instance market_days.

#[local] Instance market_columns_laws : ChronoColumnsLaws.
Proof.
  split.
  - intros t [Ht _]. cbn. unfold cut. do 2 f_equal; unfold plain_time in Ht.
    + rewrite Z.div_add_l by lia. rewrite (Z.div_small (_ / 1000)); [lia|]. split; [apply Z.div_pos; lia|apply Z.div_lt_upper_bound; lia].
    + f_equal. rewrite Z.add_comm, Z.mod_add by lia. apply Z.mod_small. split; [apply Z.div_pos; lia|apply Z.div_lt_upper_bound; lia].
  - intros d (Hy & Hm & Hd). assert (Hb : nd_day d <= 31) by (unfold days_in_month in Hd; repeat case_match; lia).
    unfold num_days, market_days. split; [ranges; lia|]. cbn. destruct d as [y m dd]. cbn in *. do 2 f_equal.
    + symmetry. apply (Z.div_unique _ 372 y ((m - 1) * 31 + (dd - 1))); lia.
    + assert (E : (y * 372 + (m - 1) * 31 + (dd - 1)) mod 372 = (m - 1) * 31 + (dd - 1))
        by (symmetry; apply (Z.mod_unique _ 372 y); lia).
      rewrite E. rewrite Z.div_add_l, (Z.div_small (dd - 1)) by lia. lia.
    + assert (E : (y * 372 + (m - 1) * 31 + (dd - 1)) mod 31 = dd - 1)
        by (symmetry; apply (Z.mod_unique _ 31 (y * 12 + (m - 1))); lia).
      rewrite E. lia.
Qed.

#[local] Instance common_time_dec t : Decision (common_time t).
Proof. unfold common_time, plain_time. apply _. Defined.
#[local] Instance common_date_dec d : Decision (common_date d).
Proof. unfold common_date. apply _. Defined.

Definition datableb (bar : Bar) : bool :=
  bool_decide ((common_time (bar_start bar) /\ whole_micros (bar_start bar)) /\ (common_time (bar_end bar) /\ whole_micros (bar_end bar))
    /\ common_time (visible_at bar) /\ common_date (bar_trading_date bar)).

Lemma market_rows_storable rows :
  forallb (fun raw => match validate_row market_request market_units SourceField raw with
                      | Ok (Some bar) => datableb bar && bool_decide (instrument bar = sample_vref "B")
                      | _ => true
                      end) rows = true ->
  Forall wf_row rows -> Z.of_nat (List.length rows) < 2 ^ 64 -> wf_rows market_request market_units SourceField rows.
Proof.
  intros E Hs Hn. split; [done|done|]. intros raw bar Hr Hv. rewrite forallb_forall in E. specialize (E raw (proj1 (list_elem_of_In _ _) Hr)).
  rewrite Hv in E. apply andb_true_iff in E as [Ed%bool_decide_eq_true Ei%bool_decide_eq_true]. split; [|rewrite Ei; by split].
  by split; apply Ed.
Qed.

Lemma market_request_wf : wf_request market_request.
Proof. by split. Qed.

Lemma snapshot_round_trip_witness :
  exists canonical package verified,
    ingest (market_adapter market_rows) market_request = Ok canonical
    /\ snapshot_build (sample_id "S") market_request canonical = Ok package
    /\ decode_verified (package_snapshot package) (package_parquet package) (package_manifest package) = Ok verified
    /\ verified_bars verified <> [].
Proof.
  destruct (ingest (market_adapter market_rows) market_request) as [canonical|] eqn:Ei;
    [|assert (V : is_ok (ingest (market_adapter market_rows) market_request) = true) by (vm_compute; reflexivity); by rewrite Ei in V].
  assert (V : match ingest (market_adapter market_rows) market_request with
    | Ok c => text_sorted (rejections (report c)) && from_option (fun b => Z.of_nat (List.length b) <? 2 ^ 64) false (parquet_write (batch c))
    | Err _ => false
    end = true) by (vm_compute; reflexivity).
  rewrite Ei in V. apply andb_true_iff in V as [Vs Vb].
  destruct (parquet_write (batch canonical)) as [bytes|] eqn:Ep; [|discriminate Vb]. apply Z.ltb_lt in Vb.
  destruct (snapshot_round_trip (market_adapter market_rows) market_request market_units market_rows canonical (sample_id "S") bytes)
    as (_ & bars & Eb & Hs).
  - reflexivity.
  - exact market_units_new.
  - apply market_rows_storable; [vm_compute; reflexivity|exact market_rows_wf|reflexivity].
  - exact market_request_wf.
  - exact Ei.
  - exact Ep.
  - exact Vb.
  - intros manifest. by eexists.
  - rewrite Vs in Hs. destruct Hs as (package & verified & Hb & Hd & Hv & _).
    exists canonical, package, verified. split; [done|]. split; [done|]. split; [done|]. rewrite Hv.
    assert (Vn : match ingest_bars (market_adapter market_rows) market_request with Ok (_, [], _) => false | _ => true end = true)
      by (vm_compute; reflexivity).
    rewrite Eb in Vn. by destruct bars.
Defined.

Lemma verified_snapshot_sound_witness :
  exists package verified,
    decode_verified (package_snapshot package) (package_parquet package) (package_manifest package) = Ok verified
    /\ verified_bars verified <> []
    /\ Forall (fun bar => ltb (instant (snapshot_visible_at (package_snapshot package))) (visible_at bar) = false) (verified_bars verified).
Proof.
  assert (V : match ingest (market_adapter market_rows) market_request with
    | Ok canonical =>
        match snapshot_build (sample_id "S") market_request canonical with
        | Ok package =>
            match decode_verified (package_snapshot package) (package_parquet package) (package_manifest package) with
            | Ok verified => negb (bool_decide (List.length (verified_bars verified) = 0%nat))
            | Err _ => false
            end
        | Err _ => false
        end
    | Err _ => false
    end = true) by (vm_compute; reflexivity).
  revert V. destruct (ingest (market_adapter market_rows) market_request) as [canonical|]; [|discriminate].
  destruct (snapshot_build (sample_id "S") market_request canonical) as [package|]; [|discriminate].
  destruct (decode_verified (package_snapshot package) (package_parquet package) (package_manifest package)) as [verified|] eqn:E;
    [|discriminate].
  intros V. exists package, verified. split; [exact E|]. split.
  - intros F. rewrite F in V. discriminate V.
  - destruct (verified_snapshot_sound (package_snapshot package) (package_parquet package) (package_manifest package) verified E)
      as (_ & (price_unit & amount_unit & _ & _ & Hf & _) & _).
    eapply Forall_impl; [|exact Hf]. intros bar Hb. exact (shown_visible _ _ _ _ _ Hb).
Defined.

(** A good row, and two bad ones that give the same record id: the order of the reasons is not the order of
    their texts. *)
Definition unstorable_rows : list RawBarRow :=
  [daily_row 1 "r5" 5 "1000";
   {| row_ordinal := 2; raw_source_record_id := Some "r6"%string; raw_instrument_key := None; raw_frequency := Some D1;
      raw_settlement := Some T1; raw_bar_start := None; raw_trading_date := None; raw_visible_at := None; raw_open := None;
      raw_high := None; raw_low := None; raw_close := None; raw_volume := None; raw_turnover := None; raw_trade_count := None;
      raw_vwap := None; raw_close_yield := None; invalid_field := None |};
   {| row_ordinal := 3; raw_source_record_id := Some "r6"%string; raw_instrument_key := None; raw_frequency := Some D1;
      raw_settlement := Some T1; raw_bar_start := None; raw_trading_date := None; raw_visible_at := None; raw_open := None;
      raw_high := None; raw_low := None; raw_close := None; raw_volume := None; raw_turnover := None; raw_trade_count := None;
      raw_vwap := None; raw_close_yield := None; invalid_field := Some "volume"%string |}].

(** The import of such rows succeeds, and no snapshot can be built from it, whatever the formats do. *)
Lemma unstorable_import (formats : SnapshotFormats) :
  exists canonical, ingest (market_adapter unstorable_rows) market_request = Ok canonical
    /\ snapshot_build (sample_id "S") market_request canonical = Err SnapshotIntegrityFailed.
Proof.
  destruct (ingest (market_adapter unstorable_rows) market_request) as [canonical|] eqn:Ei;
    [|assert (V : is_ok (ingest (market_adapter unstorable_rows) market_request) = true) by (vm_compute; reflexivity); by rewrite Ei in V].
  exists canonical. split; [done|].
  assert (V : match ingest (market_adapter unstorable_rows) market_request with
    | Ok c => text_sorted (rejections (report c))
    | Err _ => true
    end = false) by (vm_compute; reflexivity).
  rewrite Ei in V.
  destruct (ingested (market_adapter unstorable_rows) market_request market_units unstorable_rows eq_refl market_units_new) with (canonical := canonical)
    as (bars & Eb & Ee & Hh & Hst & Hne & Hid & Hv & Hout & Ha).
  - apply market_rows_storable; [vm_compute; reflexivity|repeat constructor; vm_compute; discriminate|reflexivity].
  - done.
  - destruct Ha as [Hread Hemit Hsum _ _]. refine (build_unsorted market_request market_units market_units_new (sample_id "S") canonical bars
      unstorable_rows market_request_wf Hst Hne Ee Hh _ Hid Hv Hread Hemit Hout Hsum V). reflexivity.
Qed.
