(* ===== verification/BondAnalytics.v ===== *)
(** * Bond analytics: terms, inputs and results

    [crates/ficant-domain/src/analytics.rs], the tax attributes of [market/bond.rs] and the calculation
    of [crates/ficant-application/src/use_cases/bond_analytics.rs]: validated records around numbers that
    a native engine computes. The engine is an argument of the calculation. *)

From Stdlib Require Import ZArith Lia Strings.String Strings.Byte.
From stdpp Require Import base list option strings numbers.
From S2P Require Import Prelude Machine Collections Primitives FixedDecimal Runtime AppErrors.
Open Scope Z_scope.

Definition RESULT_SCHEMA_ID : string := "ficant.bond-analytics.result.v1".
Definition ENGINE_ID : string := "ficant-fixed-income-native".
Definition ENGINE_VERSION : string := "0.1.0".
Definition ALGORITHM_ID : string := "ficant.cgb.fixed-rate.reference".
Definition ALGORITHM_VERSION : Z := 1.
Definition CONVENTION_PROFILE : string := "cgb-reference-v1".
Definition MARKET_TIMEZONE : string := "Asia/Shanghai".
Definition ABI_VERSION : Z := 1.

(** ** Conventions *)

Inductive AnalyticsMode := YieldIn | PriceIn.
Inductive CalendarRequirement := ReferenceReplay | ExactMarket.
Inductive CalendarResolution := ExactCalendar | ProvisionalWeekendOnly.
Inductive CouponFrequency := Annual | Semiannual.
Inductive DayCountConvention := ActActBondIsma.
Inductive BusinessDayConvention := Following.
Inductive AnalyticsError :=
  InvalidInput | AbiMismatch | BufferTooSmall | NoBracket | NotConverged | NonFinite | CalendarCoverageMissing | Internal.
Inductive ValueAddedTaxStatus := VatExempt | VatTaxable.
Inductive IncomeTaxStatus := IncomeExempt | IncomeTaxable.

#[export] Instance AnalyticsMode_eq_dec : EqDecision AnalyticsMode.
Proof. solve_decision. Defined.
#[export] Instance CalendarRequirement_eq_dec : EqDecision CalendarRequirement.
Proof. solve_decision. Defined.
#[export] Instance CalendarResolution_eq_dec : EqDecision CalendarResolution.
Proof. solve_decision. Defined.
#[export] Instance CouponFrequency_eq_dec : EqDecision CouponFrequency.
Proof. solve_decision. Defined.
#[export] Instance DayCountConvention_eq_dec : EqDecision DayCountConvention.
Proof. solve_decision. Defined.
#[export] Instance BusinessDayConvention_eq_dec : EqDecision BusinessDayConvention.
Proof. solve_decision. Defined.
#[export] Instance ValueAddedTaxStatus_eq_dec : EqDecision ValueAddedTaxStatus.
Proof. solve_decision. Defined.
#[export] Instance IncomeTaxStatus_eq_dec : EqDecision IncomeTaxStatus.
Proof. solve_decision. Defined.

(** The discriminants of the [repr] enums. *)
Definition mode_code (mode : AnalyticsMode) : Z := match mode with YieldIn => 1 | PriceIn => 2 end.
Definition requirement_code (requirement : CalendarRequirement) : Z := match requirement with ReferenceReplay => 1 | ExactMarket => 2 end.
Definition frequency_code (frequency : CouponFrequency) : Z := match frequency with Annual => 1 | Semiannual => 2 end.
Definition day_count_code (day_count : DayCountConvention) : Z := match day_count with ActActBondIsma => 1 end.
Definition business_day_code (business_day : BusinessDayConvention) : Z := match business_day with Following => 1 end.

Record AnalyticsObjectRef := { object_ref : VersionRef; object_hash : ContentHash }.
Record BondTaxAttributes := { value_added_tax_status : ValueAddedTaxStatus; income_tax_status : IncomeTaxStatus }.

#[export] Instance AnalyticsObjectRef_eq_dec : EqDecision AnalyticsObjectRef.
Proof. solve_decision. Defined.
#[export] Instance BondTaxAttributes_eq_dec : EqDecision BondTaxAttributes.
Proof. solve_decision. Defined.

(** ** Terms *)

Record BondTerms := {
  first_issue_date : NaiveDate;
  current_issue_date : NaiveDate;
  maturity_date : NaiveDate;
  frequency : CouponFrequency;
  day_count : DayCountConvention;
  business_day : BusinessDayConvention;
  coupon_rate : FixedDecimal;
  face_amount : FixedDecimal;
  cumulative_issued_amount : FixedDecimal;
  tax_attributes : option BondTaxAttributes
}.

#[export] Instance BondTerms_eq_dec : EqDecision BondTerms.
Proof. solve_decision. Defined.

Definition bond_terms_new (first_issue_date maturity_date : NaiveDate) (frequency : CouponFrequency) (day_count : DayCountConvention)
    (business_day : BusinessDayConvention) (coupon_rate face_amount : FixedDecimal) : DomainResult BondTerms :=
  if geb first_issue_date maturity_date || negb (is_non_negative coupon_rate) || negb (is_positive face_amount)
  then Err InvalidValue
  else Ok {| first_issue_date := first_issue_date; current_issue_date := first_issue_date; maturity_date := maturity_date;
             frequency := frequency; day_count := day_count; business_day := business_day; coupon_rate := coupon_rate;
             face_amount := face_amount; cumulative_issued_amount := face_amount; tax_attributes := None |}.

Definition bond_terms_with_issuance (first_issue_date current_issue_date maturity_date : NaiveDate) (frequency : CouponFrequency)
    (day_count : DayCountConvention) (business_day : BusinessDayConvention)
    (coupon_rate face_amount cumulative_issued_amount : FixedDecimal) (tax_attributes : BondTaxAttributes) : DomainResult BondTerms :=
  if geb first_issue_date maturity_date || ltb current_issue_date first_issue_date || geb current_issue_date maturity_date
     || negb (is_non_negative coupon_rate) || negb (is_positive face_amount) || negb (is_positive cumulative_issued_amount)
  then Err InvalidValue
  else Ok {| first_issue_date := first_issue_date; current_issue_date := current_issue_date; maturity_date := maturity_date;
             frequency := frequency; day_count := day_count; business_day := business_day; coupon_rate := coupon_rate;
             face_amount := face_amount; cumulative_issued_amount := cumulative_issued_amount;
             tax_attributes := Some tax_attributes |}.

Definition with_coupon_rate (self : BondTerms) (coupon_rate : FixedDecimal) : DomainResult BondTerms :=
  if negb (is_non_negative coupon_rate) then Err InvalidValue
  else Ok {| first_issue_date := first_issue_date self; current_issue_date := current_issue_date self;
             maturity_date := maturity_date self; frequency := frequency self; day_count := day_count self;
             business_day := business_day self; coupon_rate := coupon_rate; face_amount := face_amount self;
             cumulative_issued_amount := cumulative_issued_amount self; tax_attributes := tax_attributes self |}.

(** ** Calendars *)

Record CalendarBinding := {
  binding_calendar_id : string;
  binding_calendar_version : Version;
  binding_calendar_hash : ContentHash;
  coverage_start : NaiveDate;
  coverage_end : NaiveDate;
  non_business_days : list NaiveDate;
  work_weekends : list NaiveDate
}.

#[export] Instance CalendarBinding_eq_dec : EqDecision CalendarBinding.
Proof. solve_decision. Defined.

Definition strictly_sorted (values : list NaiveDate) : bool := windows2_all ltb values.

Definition calendar_binding_new (calendar_id : string) (version : Version) (content_hash : ContentHash)
    (coverage_start coverage_end : NaiveDate) (non_business_days work_weekends : list NaiveDate) : DomainResult CalendarBinding :=
  if blank_or_padded calendar_id || ltb coverage_end coverage_start
     || negb (strictly_sorted non_business_days) || negb (strictly_sorted work_weekends)
  then Err InvalidValue
  else Ok {| binding_calendar_id := calendar_id; binding_calendar_version := version; binding_calendar_hash := content_hash;
             coverage_start := coverage_start; coverage_end := coverage_end; non_business_days := non_business_days;
             work_weekends := work_weekends |}.

(** ** Inputs *)

Record BondAnalyticsInput := {
  input_owner : OwnerRef;
  input_bond : AnalyticsObjectRef;
  input_rule_pack : AnalyticsObjectRef;
  input_snapshot : AnalyticsObjectRef;
  input_valuation_at : MarketTime;
  settlement_date : NaiveDate;
  calendar_requirement : CalendarRequirement;
  input_calendar : CalendarBinding;
  input_terms : BondTerms;
  input_mode : AnalyticsMode;
  input_value : FixedDecimal
}.

#[export] Instance BondAnalyticsInput_eq_dec : EqDecision BondAnalyticsInput.
Proof. solve_decision. Defined.

Definition bond_analytics_input_new (owner : OwnerRef) (bond rule_pack snapshot : AnalyticsObjectRef) (valuation_at : MarketTime)
    (settlement_date : NaiveDate) (requirement : CalendarRequirement) (calendar : CalendarBinding) (terms : BondTerms)
    (mode : AnalyticsMode) (value : FixedDecimal) : DomainResult BondAnalyticsInput :=
  if negb (bool_decide (market_timezone valuation_at = MARKET_TIMEZONE)) || ltb settlement_date (first_issue_date terms)
     || geb settlement_date (maturity_date terms) || negb (is_positive value)
  then Err InvalidValue else
  if bool_decide (requirement = ExactMarket)
     && (ltb settlement_date (coverage_start calendar) || ltb (coverage_end calendar) settlement_date)
  then Err InvalidEffectiveTime
  else Ok {| input_owner := owner; input_bond := bond; input_rule_pack := rule_pack; input_snapshot := snapshot;
             input_valuation_at := valuation_at; settlement_date := settlement_date; calendar_requirement := requirement;
             input_calendar := calendar; input_terms := terms; input_mode := mode; input_value := value |}.

Definition with_terms_and_price_in (self : BondAnalyticsInput) (terms : BondTerms) (clean_price : FixedDecimal)
    : DomainResult BondAnalyticsInput :=
  bond_analytics_input_new (input_owner self) (input_bond self) (input_rule_pack self) (input_snapshot self)
    (input_valuation_at self) (settlement_date self) (calendar_requirement self) (input_calendar self) terms PriceIn clean_price.

(** ** Results *)

Record DerivedCashflow := {
  cashflow_sequence : Z;
  nominal_date : NaiveDate;
  payment_date : NaiveDate;
  cashflow_coupon : FixedDecimal;
  cashflow_principal : FixedDecimal;
  cashflow_total : FixedDecimal
}.

#[export] Instance DerivedCashflow_eq_dec : EqDecision DerivedCashflow.
Proof. solve_decision. Defined.

(** The sum is computed only when the tests before it pass. *)
Definition derived_cashflow_new (sequence : Z) (nominal_date payment_date : NaiveDate) (coupon principal total : FixedDecimal)
    : DomainResult DerivedCashflow :=
  if (sequence =? 0) || ltb payment_date nominal_date || negb (is_non_negative coupon) || negb (is_non_negative principal)
  then Err InvalidValue else
  sum ← checked_add coupon principal;
  if negb (bool_decide (total = sum)) || negb (is_positive total) then Err InvalidValue
  else Ok {| cashflow_sequence := sequence; nominal_date := nominal_date; payment_date := payment_date;
             cashflow_coupon := coupon; cashflow_principal := principal; cashflow_total := total |}.

Record AnalyticsMeasures := {
  accrued_interest : FixedDecimal;
  clean_price : FixedDecimal;
  dirty_price : FixedDecimal;
  yield_to_maturity : FixedDecimal;
  macaulay_duration : FixedDecimal;
  modified_duration : FixedDecimal;
  convexity : FixedDecimal;
  dv01 : FixedDecimal
}.

#[export] Instance AnalyticsMeasures_eq_dec : EqDecision AnalyticsMeasures.
Proof. solve_decision. Defined.

Definition analytics_measures_new (accrued_interest clean_price yield_to_maturity macaulay_duration modified_duration convexity
    dv01 : FixedDecimal) : DomainResult AnalyticsMeasures :=
  dirty_price ← checked_add clean_price accrued_interest;
  if negb (is_non_negative accrued_interest) || negb (is_positive clean_price) || negb (is_positive dirty_price)
     || negb (is_positive yield_to_maturity) || negb (is_positive macaulay_duration) || negb (is_positive modified_duration)
     || negb (is_positive convexity) || negb (is_positive dv01)
  then Err InvalidValue
  else Ok {| accrued_interest := accrued_interest; clean_price := clean_price; dirty_price := dirty_price;
             yield_to_maturity := yield_to_maturity; macaulay_duration := macaulay_duration;
             modified_duration := modified_duration; convexity := convexity; dv01 := dv01 |}.

Record BondAnalyticsResult := {
  result_input : BondAnalyticsInput;
  calendar_resolution : CalendarResolution;
  cashflows : list DerivedCashflow;
  measures : AnalyticsMeasures
}.

#[export] Instance BondAnalyticsResult_eq_dec : EqDecision BondAnalyticsResult.
Proof. solve_decision. Defined.

(** [u32::try_from(index + 1).unwrap_or(u32::MAX)]. *)
Definition expected_sequence (index : nat) : Z := default u32_MAX (checked in_u32 (Z.of_nat index + 1)).

Definition misplaced_cashflow (cashflows : list DerivedCashflow) (index : nat) (cashflow : DerivedCashflow) : bool :=
  negb (cashflow_sequence cashflow =? expected_sequence index)
  || match index with
     | O => false
     | S before => from_option (fun previous => ltb (payment_date cashflow) (payment_date previous)) false (cashflows !! before)
     end.

Definition bond_analytics_result_new (input : BondAnalyticsInput) (resolution : CalendarResolution)
    (cashflows : list DerivedCashflow) (measures : AnalyticsMeasures) : DomainResult BondAnalyticsResult :=
  if bool_decide (cashflows = []) || existsb id (imap (misplaced_cashflow cashflows) cashflows) then Err InvalidValue else
  if bool_decide (calendar_requirement input = ExactMarket) && negb (bool_decide (resolution = ExactCalendar))
  then Err InvalidEffectiveTime
  else Ok {| result_input := input; calendar_resolution := resolution; cashflows := cashflows; measures := measures |}.

Definition validate_against (self : BondAnalyticsResult) (input : BondAnalyticsInput) : DomainResult unit :=
  fail_if (negb (bool_decide (result_input self = input))) BrokenLineage.

(** [utc_micros]: [num_microseconds] truncates toward zero; [None]: it does not fit and [expect] panics. *)
Definition utc_micros (value : MarketTime) : option Z :=
  checked in_i64 (Z.quot (timestamp (instant value) * 1000000000 + timestamp_subsec_nanos (instant value)) 1000).

(** ** The calculation *)

Definition map_analytics_error (error : AnalyticsError) : ApplicationError :=
  match error with
  | Internal => application_error_new StateConflict false
  | _ => application_error_new ValidationFailed false
  end.

(** [BondAnalyticsEngine::calculate]. *)
Abbreviation BondAnalyticsEngine := (BondAnalyticsInput -> Result AnalyticsError BondAnalyticsResult).

Definition calculate_bond_analytics (engine : BondAnalyticsEngine) (input : BondAnalyticsInput) : AppResult BondAnalyticsResult :=
  result ← map_err map_analytics_error (engine input);
  _ ← map_err map_domain_error (validate_against result input);
  Ok result.

(** ** Well-formed values *)

Record wf_terms (t : BondTerms) : Prop := {
  terms_dates : ltb (first_issue_date t) (maturity_date t) = true /\ leb (first_issue_date t) (current_issue_date t) = true
    /\ ltb (current_issue_date t) (maturity_date t) = true;
  terms_amounts : 0 <= scaled (coupon_rate t) /\ 0 < scaled (face_amount t) /\ 0 < scaled (cumulative_issued_amount t);
  terms_untaxed : tax_attributes t = None -> current_issue_date t = first_issue_date t /\ cumulative_issued_amount t = face_amount t
}.

Record wf_calendar (c : CalendarBinding) : Prop := {
  calendar_named : blank_or_padded (binding_calendar_id c) = false;
  calendar_covers : leb (coverage_start c) (coverage_end c) = true;
  calendar_holidays : strictly_sorted (non_business_days c) = true;
  calendar_weekends : strictly_sorted (work_weekends c) = true
}.

(** What [BondAnalyticsInput::new] checks. *)
Record wf_bond_input (i : BondAnalyticsInput) : Prop := {
  bond_input_zone : market_timezone (input_valuation_at i) = MARKET_TIMEZONE;
  bond_input_settlement : leb (first_issue_date (input_terms i)) (settlement_date i) = true
    /\ ltb (settlement_date i) (maturity_date (input_terms i)) = true;
  bond_input_positive : 0 < scaled (input_value i);
  bond_input_covered : calendar_requirement i = ExactMarket ->
    leb (coverage_start (input_calendar i)) (settlement_date i) = true /\ leb (settlement_date i) (coverage_end (input_calendar i)) = true
}.

Lemma ltb_geb {A} `{OrdLaws A} (a b : A) : ltb a b = negb (geb a b).
Proof. unfold ltb, geb. by destruct (cmp a b). Qed.

Lemma ltb_leb {A} `{OrdLaws A} (a b : A) : ltb a b = negb (leb b a).
Proof. by rewrite ltb_geb, geb_leb. Qed.

Lemma is_positive_true x : is_positive x = true <-> 0 < scaled x.
Proof. apply Z.ltb_lt. Qed.
Lemma is_non_negative_true x : is_non_negative x = true <-> 0 <= scaled x.
Proof. apply Z.leb_le. Qed.

Lemma negb_ltb {A} `{OrdLaws A} (a b : A) : negb (ltb a b) = leb b a.
Proof. by rewrite ltb_leb, negb_involutive. Qed.

(** A test that refuses. *)
Lemma unless_Ok {E A} (b : bool) (e : E) (k : Result E A) a : (if b then Err e else k) = Ok a <-> b = false /\ k = Ok a.
Proof. destruct b; naive_solver. Qed.

(** The constructors accept exactly the well-formed values, and give back the value they are given. *)
Lemma bond_terms_new_Ok fi mat fr dc bd cr fa t :
  bond_terms_new fi mat fr dc bd cr fa = Ok t <->
  wf_terms t /\ tax_attributes t = None /\ t = {| first_issue_date := fi; current_issue_date := fi; maturity_date := mat;
    frequency := fr; day_count := dc; business_day := bd; coupon_rate := cr; face_amount := fa; cumulative_issued_amount := fa;
    tax_attributes := None |}.
Proof.
  unfold bond_terms_new. rewrite unless_Ok, !orb_false_iff, !negb_false_iff, is_positive_true, is_non_negative_true.
  split.
  - intros [[[Hd Hc] Hf] E]. injection E as <-. split; [|done]. split; cbn.
    + rewrite ltb_geb, Hd. split; [done|]. split; [|done]. unfold leb. by rewrite cmp_refl.
    + done.
    + done.
  - intros (Hw & _ & ->). destruct Hw as [(Hd & _ & _) (Hc & Hf & _) _]. cbn in *. rewrite ltb_geb in Hd.
    apply negb_true_iff in Hd. done.
Qed.

Lemma bond_terms_with_issuance_Ok fi ci mat fr dc bd cr fa cu tax t :
  bond_terms_with_issuance fi ci mat fr dc bd cr fa cu tax = Ok t <->
  wf_terms t /\ t = {| first_issue_date := fi; current_issue_date := ci; maturity_date := mat;
    frequency := fr; day_count := dc; business_day := bd; coupon_rate := cr; face_amount := fa; cumulative_issued_amount := cu;
    tax_attributes := Some tax |}.
Proof.
  unfold bond_terms_with_issuance. rewrite unless_Ok, !orb_false_iff, !negb_false_iff, !is_positive_true, is_non_negative_true. split.
  - intros [[[[[[H1 H2] H3] H4] H5] H6] E]. injection E as <-. split; [|done]. split; cbn; [|done|done].
    rewrite !ltb_geb, H1, H3. rewrite ltb_leb in H2. apply negb_false_iff in H2. done.
  - intros (Hw & ->). destruct Hw as [(H1 & H2 & H3) (H4 & H5 & H6) _]. cbn in *. rewrite ltb_geb, negb_true_iff in H1, H3.
    rewrite ltb_leb, H2. done.
Qed.

Lemma with_coupon_rate_Ok t rate u : wf_terms t -> with_coupon_rate t rate = Ok u ->
  wf_terms u /\ 0 <= scaled rate /\ coupon_rate u = rate /\ first_issue_date u = first_issue_date t /\ maturity_date u = maturity_date t
  /\ face_amount u = face_amount t /\ frequency u = frequency t.
Proof.
  intros [Hd (Hc & Hf & Hu) Hn] E. unfold with_coupon_rate in E. rewrite unless_Ok, negb_false_iff, is_non_negative_true in E.
  destruct E as [Hr E]. injection E as <-. split; [|done]. by split.
Qed.

Lemma calendar_binding_new_Ok id v h s e ds ws c :
  calendar_binding_new id v h s e ds ws = Ok c <->
  wf_calendar c /\ c = {| binding_calendar_id := id; binding_calendar_version := v; binding_calendar_hash := h;
    coverage_start := s; coverage_end := e; non_business_days := ds; work_weekends := ws |}.
Proof.
  unfold calendar_binding_new. rewrite unless_Ok, !orb_false_iff, !negb_false_iff. split.
  - intros [[[[H1 H2] H3] H4] E]. injection E as <-. split; [|done]. split; cbn; try done. by rewrite leb_ltb, H2.
  - intros [[H1 H2 H3 H4] ->]. cbn in *. rewrite ltb_leb, H2. done.
Qed.

Lemma bond_analytics_input_new_Ok o b r s t d q c terms m v i :
  bond_analytics_input_new o b r s t d q c terms m v = Ok i <->
  wf_bond_input i /\ i = {| input_owner := o; input_bond := b; input_rule_pack := r; input_snapshot := s; input_valuation_at := t;
    settlement_date := d; calendar_requirement := q; input_calendar := c; input_terms := terms; input_mode := m; input_value := v |}.
Proof.
  unfold bond_analytics_input_new. rewrite !unless_Ok, !orb_false_iff, !negb_false_iff, bool_decide_eq_true, is_positive_true. split.
  - intros ([[[H1 H2] H3] H4] & H5 & E). injection E as <-. split; [|done]. split; cbn; [done|..|done|].
    + rewrite ltb_geb, H3. rewrite ltb_leb, negb_false_iff in H2. done.
    + intros ->. rewrite bool_decide_eq_true_2 in H5 by done. cbn [andb] in H5. apply orb_false_iff in H5 as [H5 H6].
      by rewrite !leb_ltb, H5, H6.
  - intros [[H1 [H2 H3] H4 H5] ->]. cbn in *. rewrite ltb_leb, H2. rewrite ltb_geb, negb_true_iff in H3. split; [done|].
    split; [|done]. destruct (bool_decide (q = ExactMarket)) eqn:Eq; [|done]. apply bool_decide_eq_true in Eq.
    destruct (H5 Eq) as [H6 H7]. cbn [andb]. by rewrite !ltb_leb, H6, H7.
Qed.

(** ** Accepted results *)

(** The cash flows of a result are numbered from one, in the order of their payment dates. *)
Record wf_result (r : BondAnalyticsResult) : Prop := {
  result_paid : cashflows r <> [];
  result_numbered : forall i c, cashflows r !! i = Some c -> cashflow_sequence c = expected_sequence i;
  result_ordered : forall i a b, cashflows r !! i = Some a -> cashflows r !! S i = Some b -> leb (payment_date a) (payment_date b) = true;
  result_exact : calendar_requirement (result_input r) = ExactMarket -> calendar_resolution r = ExactCalendar
}.

Lemma misplaced_false cs i c : cs !! i = Some c ->
  misplaced_cashflow cs i c = false <->
  cashflow_sequence c = expected_sequence i /\ forall j a, i = S j -> cs !! j = Some a -> leb (payment_date a) (payment_date c) = true.
Proof.
  intros Hc. unfold misplaced_cashflow. rewrite orb_false_iff, negb_false_iff, Z.eqb_eq. apply and_iff_compat_l.
  destruct i as [|j]; [naive_solver|]. split.
  - intros H j' a [= <-] Ha. rewrite Ha in H. cbn in H. by rewrite leb_ltb, H.
  - intros H. destruct (cs !! j) as [a|] eqn:Ea; [|done]. cbn. specialize (H j a eq_refl Ea). by rewrite ltb_leb, H.
Qed.

Lemma bond_analytics_result_new_Ok i q cs m r :
  bond_analytics_result_new i q cs m = Ok r <->
  wf_result r /\ r = {| result_input := i; calendar_resolution := q; cashflows := cs; measures := m |}.
Proof.
  unfold bond_analytics_result_new. rewrite !unless_Ok, orb_false_iff, bool_decide_eq_false.
  assert (He : existsb id (imap (misplaced_cashflow cs) cs) = false <->
    forall k c, cs !! k = Some c -> misplaced_cashflow cs k c = false).
  { rewrite <- not_true_iff_false, existsb_exists. split.
    - intros Hn k c Hc. apply not_true_iff_false. intros Hm. apply Hn. exists true. split; [|done].
      apply list_elem_of_In, list_elem_of_lookup. exists k. rewrite list_lookup_imap, Hc. cbn. by rewrite Hm.
    - intros Ha (b & Hb & E). cbn in E. subst b. apply list_elem_of_In, list_elem_of_lookup in Hb as [k Hk].
      rewrite list_lookup_imap in Hk. destruct (cs !! k) as [c|] eqn:Ec; [|done]. cbn in Hk. injection Hk as Hk.
      by rewrite (Ha k c Ec) in Hk. }
  rewrite He. split.
  - intros ([Hn Hm] & Hq & E). injection E as <-. split; [|done]. split; cbn.
    + done.
    + intros k c Hc. by apply (misplaced_false cs k c Hc), Hm.
    + intros k a b Ha Hb. by apply (proj2 (proj1 (misplaced_false cs (S k) b Hb) (Hm _ _ Hb)) k a).
    + intros Hx. rewrite bool_decide_eq_true_2 in Hq by done. cbn [andb] in Hq. by apply negb_false_iff, bool_decide_eq_true in Hq.
  - intros [[Hn Hs Ho Hq] ->]. cbn [cashflows result_input calendar_resolution] in *. split; [split; [done|]|split; [|done]].
    + intros k c Hc. apply (misplaced_false cs k c Hc). split; [by apply Hs|]. intros j a -> Ha. by apply (Ho j).
    + destruct (bool_decide (calendar_requirement i = ExactMarket)) eqn:Eq; [|done]. apply bool_decide_eq_true in Eq.
      cbn [andb]. apply negb_false_iff, bool_decide_eq_true. by apply Hq.
Qed.

(** A cash flow pays its coupon and principal, not before its nominal date. *)
Lemma derived_cashflow_new_Ok n nd pd c p t f :
  derived_cashflow_new n nd pd c p t = Ok f <->
  n <> 0 /\ leb nd pd = true /\ 0 <= scaled c /\ 0 <= scaled p /\ 0 < scaled t /\ scaled t = scaled c + scaled p /\ in_i128 (scaled c + scaled p) = true
  /\ f = {| cashflow_sequence := n; nominal_date := nd; payment_date := pd; cashflow_coupon := c; cashflow_principal := p; cashflow_total := t |}.
Proof.
  unfold derived_cashflow_new.
  rewrite unless_Ok, !orb_false_iff, !negb_false_iff, Z.eqb_neq, !is_non_negative_true, ltb_leb, negb_false_iff, bind_Ok.
  setoid_rewrite unless_Ok. setoid_rewrite orb_false_iff. setoid_rewrite negb_false_iff. setoid_rewrite bool_decide_eq_true.
  setoid_rewrite is_positive_true. setoid_rewrite checked_add_Ok. split.
  - intros ([[[? ?] ?] ?] & s & [Hs Hw] & [-> ?] & E). injection E as <-. repeat (split; [done|]). done.
  - intros (? & ? & ? & ? & ? & Hs & Hw & ->). split; [done|]. exists t. done.
Qed.

Lemma calculate_Ok engine input r : calculate_bond_analytics engine input = Ok r <-> engine input = Ok r /\ result_input r = input.
Proof.
  unfold calculate_bond_analytics, validate_against. rewrite bind_Ok. setoid_rewrite bind_Ok. setoid_rewrite map_err_Ok.
  setoid_rewrite fail_if_Ok. setoid_rewrite negb_false_iff. setoid_rewrite bool_decide_eq_true. setoid_rewrite Ok_inj. split.
  - intros (r' & E & _ & Hi & <-). done.
  - intros [E Hi]. exists r. split; [done|]. by exists tt.
Qed.
