(* ===== verification/Wire.v ===== *)
(** * Messages of the bond analytics protocol

    The generated messages of [crates/ficant-contracts/src/generated] that bond analytics and coupon tax
    read, with the fields they read. An optional message is an option; a message of one field is that
    field; an enumeration is the number on the wire. The bytes of a message are what [prost] makes of them:
    its encoders and decoders are arguments of the definitions that use them. *)

From Stdlib Require Import ZArith Lia Strings.String Strings.Byte.
From stdpp Require Import base list option strings numbers.
From S2P Require Import Prelude Machine.
Open Scope Z_scope.

(** ** [ficant.core.v1] *)

Record WireVersionRef := { wire_id : option string; wire_version : Z }.
Record WireOwnerRef := { wire_tenant_id : option string; wire_owner_id : option string }.
Record WireUnitRef := { wire_unit_id : option string; wire_unit_version : Z }.
Record WireDecimal := { wire_coefficient : string; wire_scale : Z; wire_unit : option WireUnitRef }.
Record WireTime := { wire_instant : option (Z * Z); wire_timezone : string; wire_local_date : string }.

#[export] Instance WireVersionRef_eq_dec : EqDecision WireVersionRef.
Proof. solve_decision. Defined.
#[export] Instance WireUnitRef_eq_dec : EqDecision WireUnitRef.
Proof. solve_decision. Defined.
#[export] Instance WireDecimal_eq_dec : EqDecision WireDecimal.
Proof. solve_decision. Defined.
#[export] Instance WireOwnerRef_eq_dec : EqDecision WireOwnerRef.
Proof. solve_decision. Defined.
#[export] Instance WireTime_eq_dec : EqDecision WireTime.
Proof. solve_decision. Defined.

(** ** [ficant.market.v1] *)

Record WireTaxAttributes := { wire_vat_status : Z; wire_income_status : Z }.
Record SubjectCouponTaxRate := { rate_vat_profile : string; rate_income_profile : string; wire_coupon_tax_rate : option WireDecimal }.
Record BondCouponTaxRule := {
  first_issue_from : string;
  first_issue_to : string;
  rule_tax_attributes : option WireTaxAttributes;
  wire_rates : list SubjectCouponTaxRate
}.

Record SubjectCouponTaxTreatment := {
  treatment_vat_profile : string;
  treatment_income_profile : string;
  wire_vat_rate : option WireDecimal;
  wire_income_rate : option WireDecimal;
  wire_gross_basis : Z;
  wire_rounding : Z;
  wire_claim_scope : Z
}.
Record BondCouponTaxTreatmentRule := {
  treatment_issue_from : string;
  treatment_issue_to : string;
  treatment_tax_attributes : option WireTaxAttributes;
  wire_treatments : list SubjectCouponTaxTreatment
}.

(** ** [ficant.rates.v1] *)

Record ObjectBinding := { bound_object : option WireVersionRef; bound_hash : option (list byte) }.
Record SnapshotBinding := { bound_snapshot_id : option string; bound_snapshot_hash : option (list byte) }.
Record AlgorithmBinding := { wire_algorithm_id : string; wire_algorithm_version : Z; wire_convention_profile : string; wire_abi_version : Z }.

Record AnalysisUnits := {
  units_currency_amount : option WireUnitRef;
  units_price_per_100 : option WireUnitRef;
  units_rate : option WireUnitRef;
  units_years : option WireUnitRef;
  units_years_squared : option WireUnitRef;
  units_dv01_per_100 : option WireUnitRef;
  units_dv01 : option WireUnitRef;
  units_dimensionless : option WireUnitRef;
  units_contract_count : option WireUnitRef
}.

Record AnalysisContext := {
  context_owner : option WireOwnerRef;
  context_algorithm : option AlgorithmBinding;
  context_units : option AnalysisUnits;
  context_subject_ref : option WireVersionRef;
  context_knowledge_at : option WireTime
}.

Inductive AnalyzeInput := YieldToMaturity (value : WireDecimal) | CleanPrice (value : WireDecimal).

Record AnalyzeBondRequest := {
  request_context : option AnalysisContext;
  request_bond : option ObjectBinding;
  request_valuation_at : option WireTime;
  request_settlement_date : string;
  request_calendar_requirement : Z;
  request_calendar : option ObjectBinding;
  request_data_snapshot : option SnapshotBinding;
  request_tax_rule_pack : option ObjectBinding;
  request_input : option AnalyzeInput
}.

Record ArtifactBinding := { bound_artifact_id : option string; bound_artifact_hash : option (list byte) }.
Record CurveNodeBinding := { bound_curve_node_id : string; bound_curve_node_hash : option (list byte) }.

Inductive WireBinding :=
| WireObject (binding : ObjectBinding)
| WireSnapshot (binding : SnapshotBinding)
| WireArtifact (binding : ArtifactBinding)
| WireCurveNode (binding : CurveNodeBinding).

(** [AnalysisInputBinding]. *)
Record WireInput := {
  input_role : Z;
  input_role_owner : option WireOwnerRef;
  input_binding : option WireBinding;
  input_observed_at : option WireTime;
  input_visible_at : option WireTime;
  input_effective_from : option WireTime;
  input_effective_to : option WireTime
}.

Record ParameterDigest := { digest_algorithm : option AlgorithmBinding; canonical_parameters : option (list byte) }.

#[export] Instance ObjectBinding_eq_dec : EqDecision ObjectBinding.
Proof. solve_decision. Defined.
#[export] Instance SnapshotBinding_eq_dec : EqDecision SnapshotBinding.
Proof. solve_decision. Defined.
#[export] Instance AlgorithmBinding_eq_dec : EqDecision AlgorithmBinding.
Proof. solve_decision. Defined.
#[export] Instance ArtifactBinding_eq_dec : EqDecision ArtifactBinding.
Proof. solve_decision. Defined.
#[export] Instance CurveNodeBinding_eq_dec : EqDecision CurveNodeBinding.
Proof. solve_decision. Defined.
#[export] Instance WireBinding_eq_dec : EqDecision WireBinding.
Proof. solve_decision. Defined.
#[export] Instance WireInput_eq_dec : EqDecision WireInput.
Proof. solve_decision. Defined.
#[export] Instance ParameterDigest_eq_dec : EqDecision ParameterDigest.
Proof. solve_decision. Defined.

(** The formal evidence of an output is opaque here: it is the bytes of its message. *)
Record ResultMetadata := {
  metadata_schema_id : string;
  metadata_engine_id : string;
  metadata_engine_version : string;
  metadata_algorithm : option AlgorithmBinding;
  metadata_subject_ref : option WireVersionRef;
  metadata_inputs : list WireInput;
  metadata_parameters : option ParameterDigest;
  metadata_fingerprint : option (list byte);
  metadata_formal_evidence : option (list byte)
}.

#[export] Instance ResultMetadata_eq_dec : EqDecision ResultMetadata.
Proof. solve_decision. Defined.

Record WireCashflow := {
  wire_sequence : Z;
  wire_nominal_date : string;
  wire_payment_date : string;
  wire_coupon : option WireDecimal;
  wire_principal : option WireDecimal;
  wire_total : option WireDecimal
}.

Record WireMeasures := {
  wire_accrued_interest : option WireDecimal;
  wire_clean_price : option WireDecimal;
  wire_dirty_price : option WireDecimal;
  wire_yield_to_maturity : option WireDecimal;
  wire_macaulay_duration : option WireDecimal;
  wire_modified_duration : option WireDecimal;
  wire_convexity : option WireDecimal;
  wire_dv01 : option WireDecimal
}.

Record TaxAdjustedBondAnalytics := {
  adjusted_cashflows : list WireCashflow;
  adjusted_yield_to_maturity : option WireDecimal;
  adjusted_claim_scope : Z
}.

Record AnalyzeBondResult := {
  analysis_cashflows : list WireCashflow;
  analysis_measures : option WireMeasures;
  analysis_metadata : option ResultMetadata;
  analysis_after_tax : option TaxAdjustedBondAnalytics
}.

Record RiskSummary := {
  summary_modified_duration : option WireDecimal;
  summary_convexity : option WireDecimal;
  summary_dv01 : option WireDecimal;
  summary_metadata : option ResultMetadata
}.
