(* ===== verification/CouponTax.v ===== *)
(** * Coupon tax

    [crates/ficant-application/src/ports/tax_rule_parser.rs] (treatments of coupons),
    [crates/ficant-domain/src/market/market_rule_pack.rs] (rule packs),
    [use_cases/tax_rule.rs] (which rule pack may be used) and [crates/ficant-tax-pack/src/lib.rs] (how its
    payload is read). The bytes of a payload are read by [prost], dates by [chrono]. *)

From Stdlib Require Import ZArith Lia Strings.String Strings.Byte.
From stdpp Require Import base list option strings numbers sorting.
From S2P Require Import Prelude Machine Collections Primitives FixedDecimal Digits DecimalValue AppErrors Codec Concrete Access Subject BondAnalytics Wire.
Open Scope Z_scope.

(** ** Treatments *)

Inductive GrossCouponTaxBasis := LegacyRetainedRate | VatIncluded.
Inductive TaxRoundingMode := Exact | TiesToEven.
Inductive CouponTaxClaimScope := LegacySyntheticRetainedRate | CouponOutputVatBeforeInputCredit.

#[export] Instance GrossCouponTaxBasis_eq_dec : EqDecision GrossCouponTaxBasis.
Proof. solve_decision. Defined.
#[export] Instance TaxRoundingMode_eq_dec : EqDecision TaxRoundingMode.
Proof. solve_decision. Defined.
#[export] Instance CouponTaxClaimScope_eq_dec : EqDecision CouponTaxClaimScope.
Proof. solve_decision. Defined.

Record CouponTaxTreatment := {
  value_added_tax_rate : FixedDecimal;
  income_tax_rate : FixedDecimal;
  treatment_unit : UnitRef;
  gross_coupon_basis : GrossCouponTaxBasis;
  treatment_rounding : TaxRoundingMode;
  claim_scope : CouponTaxClaimScope;
  authority_semantic_hash : option ContentHash
}.

#[export] Instance CouponTaxTreatment_eq_dec : EqDecision CouponTaxTreatment.
Proof. solve_decision. Defined.

Definition invalid_value : ApplicationError := map_domain_error InvalidValue.

Definition legacy_retained_rate (coupon_tax_rate : FixedDecimal) (unit : UnitRef) : CouponTaxTreatment := {|
  value_added_tax_rate := coupon_tax_rate; income_tax_rate := FixedDecimal.ZERO; treatment_unit := unit;
  gross_coupon_basis := LegacyRetainedRate; treatment_rounding := Exact; claim_scope := LegacySyntheticRetainedRate;
  authority_semantic_hash := None
|}.

Definition above_one (rate : FixedDecimal) : bool := scaled ONE <? scaled rate.

Definition vat_included (value_added_tax_rate income_tax_rate : FixedDecimal) (unit : UnitRef) (semantic_hash : ContentHash)
    : AppResult CouponTaxTreatment :=
  if negb (is_non_negative value_added_tax_rate) || above_one value_added_tax_rate
     || negb (is_non_negative income_tax_rate) || above_one income_tax_rate
  then Err invalid_value
  else Ok {|
    value_added_tax_rate := value_added_tax_rate; income_tax_rate := income_tax_rate; treatment_unit := unit;
    gross_coupon_basis := VatIncluded; treatment_rounding := TiesToEven; claim_scope := CouponOutputVatBeforeInputCredit;
    authority_semantic_hash := Some semantic_hash |}.

Definition adjust_coupon (self : CouponTaxTreatment) (gross : FixedDecimal) : AppResult FixedDecimal :=
  if negb (is_non_negative gross) then Err invalid_value else
  match gross_coupon_basis self, treatment_rounding self with
  | LegacyRetainedRate, Exact =>
      retained ← map_err map_domain_error (checked_sub ONE (value_added_tax_rate self));
      map_err map_domain_error (checked_mul gross retained)
  | VatIncluded, TiesToEven =>
      denominator ← map_err map_domain_error (checked_add ONE (value_added_tax_rate self));
      map_err map_domain_error (checked_div_round_ties_even gross denominator)
  | _, _ => Err invalid_value
  end.

Definition basis_code (basis : GrossCouponTaxBasis) : Z := match basis with LegacyRetainedRate => 1 | VatIncluded => 2 end.
Definition rounding_code (rounding : TaxRoundingMode) : Z := match rounding with Exact => 1 | TiesToEven => 2 end.
Definition claim_code (claim : CouponTaxClaimScope) : Z :=
  match claim with LegacySyntheticRetainedRate => 1 | CouponOutputVatBeforeInputCredit => 2 end.

Definition fingerprint_bytes (self : CouponTaxTreatment) : list byte :=
  [byte_of_Z (basis_code (gross_coupon_basis self)); byte_of_Z (rounding_code (treatment_rounding self));
   byte_of_Z (claim_code (claim_scope self))]
  ++ to_be_bytes 16 (scaled (value_added_tax_rate self)) ++ to_be_bytes 16 (scaled (income_tax_rate self))
  ++ as_bytes (ulid_str (unit_id (treatment_unit self))) ++ to_be_bytes 8 (version_get (unit_version (treatment_unit self)))
  ++ match authority_semantic_hash self with Some hash => hash_bytes hash | None => [] end.

(** ** Rule packs *)

Inductive VerificationStatus := Unverified | Verified | VerificationRejected.
#[export] Instance VerificationStatus_eq_dec : EqDecision VerificationStatus.
Proof. solve_decision. Defined.

Record RulePackContent := { content_type_url : string; content_value : list byte }.

Definition rule_pack_content_new (type_url : string) (value : list byte) : DomainResult RulePackContent :=
  _ ← require_text type_url;
  if bool_decide (value = []) then Err InvalidValue else Ok {| content_type_url := type_url; content_value := value |}.

Record MarketRulePack := {
  market_rule_pack_id : Ulid;
  rule_pack_number : Version;
  rule_pack_owner : OwnerRef;
  rule_pack_market : string;
  rule_pack_type : string;
  rule_pack_source : string;
  effective : EffectivePeriod;
  verification_status : VerificationStatus;
  rule_pack_content_hash : ContentHash;
  rule_pack_content : option RulePackContent
}.

(** [new] and [new_with_content]: the record of the input carries the content. *)
Definition market_rule_pack_new `{Sha256} (input : MarketRulePack) : DomainResult MarketRulePack :=
  _ ← require_text (rule_pack_market input);
  _ ← require_text (rule_pack_type input);
  _ ← require_text (rule_pack_source input);
  _ ← match rule_pack_content input with
      | Some content => hash_verify (rule_pack_content_hash input) (content_value content)
      | None => Ok tt
      end;
  Ok input.

(** ** Parsers *)

(** The adapter of one payload schema: what it declares of its envelope, and how it reads a payload. *)
Record TaxRulePackParser := {
  parser_market : string;
  parser_rule_type : string;
  parser_type_url : string;
  expected_source : option string;
  expected_effective_window : option (string * string);
  parse_content : RulePackContent -> NaiveDate -> BondTaxAttributes -> TaxTreatment -> AppResult CouponTaxTreatment
}.

(** [DateTime::parse_from_rfc3339] and [NaiveDate::parse_from_str] with "%Y-%m-%d". *)
Class ChronoText : Type := {
  parse_rfc3339 : string -> option DateTime;
  parse_ymd : string -> option NaiveDate
}.

Definition lineage_incomplete : ApplicationError := application_error_new LineageIncomplete false.
Definition CONTENT_PATH : string := "context.tax_rule_pack.content".

Definition validate_tax_rule_pack `{Sha256} `{ChronoText} (scope : AccessScope) (binding : AnalyticsObjectRef) (valuation_at : MarketTime)
    (rule_pack : MarketRulePack) (parser : TaxRulePackParser) : AppResult unit :=
  if negb (bool_decide (market_rule_pack_id rule_pack = vr_id (object_ref binding)))
     || negb (bool_decide (rule_pack_number rule_pack = vr_version (object_ref binding))) then Err lineage_incomplete else
  _ ← scope_authorize scope (rule_pack_owner rule_pack);
  if negb (bool_decide (rule_pack_content_hash rule_pack = object_hash binding)) then Err (map_domain_error ContentHashMismatch) else
  if ltb (instant valuation_at) (instant (ep_from (effective rule_pack))) || geb (instant valuation_at) (instant (ep_to (effective rule_pack)))
  then Err (map_domain_error InvalidEffectiveTime) else
  content ← ok_or (rule_pack_content rule_pack) (rule_pack_item_missing CONTENT_PATH);
  _ ← map_err map_domain_error (hash_verify (rule_pack_content_hash rule_pack) (content_value content));
  if negb (bool_decide (rule_pack_market rule_pack = parser_market parser)) || negb (bool_decide (rule_pack_type rule_pack = parser_rule_type parser))
     || negb (bool_decide (verification_status rule_pack = Verified))
     || negb (bool_decide (content_type_url content = parser_type_url parser))
     || from_option (fun expected => negb (bool_decide (rule_pack_source rule_pack = expected))) false (expected_source parser)
  then Err invalid_value else
  match expected_effective_window parser with
  | Some (from, to) =>
      from ← ok_or (parse_rfc3339 from) invalid_value;
      to ← ok_or (parse_rfc3339 to) invalid_value;
      fail_if (negb (bool_decide (instant (ep_from (effective rule_pack)) = from))
               || negb (bool_decide (instant (ep_to (effective rule_pack)) = to))) (map_domain_error InvalidEffectiveTime)
  | None => Ok tt
  end.

Definition parse_verified `{Sha256} `{ChronoText} (parser : TaxRulePackParser) (scope : AccessScope) (binding : AnalyticsObjectRef)
    (valuation_at : MarketTime) (rule_pack : MarketRulePack) (first_issue_date : NaiveDate) (attributes : BondTaxAttributes)
    (treatment : TaxTreatment) : AppResult CouponTaxTreatment :=
  _ ← validate_tax_rule_pack scope binding valuation_at rule_pack parser;
  content ← ok_or (rule_pack_content rule_pack) (rule_pack_item_missing CONTENT_PATH);
  parse_content parser content first_issue_date attributes treatment.

(** ** The payload of the coupon tax rule pack *)

Definition invalid_pack : ApplicationError := application_error_new ValidationFailed false.
Definition missing (path : string) : ApplicationError := rule_pack_item_missing ("context.tax_rule_pack.content." ++ path).

Section pack.
Context `{UlidCrate} `{Chrono} `{ChronoText}.

Definition pack_date (value path : string) : AppResult NaiveDate :=
  parsed ← ok_or (parse_ymd value) (missing path);
  if negb (bool_decide (date_to_string parsed = value)) then Err (missing path) else Ok parsed.

(** [10_i128.checked_pow]. *)
Definition power_of_ten (exponent : Z) : AppResult Z := ok_or (checked in_i128 (10 ^ exponent)) invalid_pack.

Definition decimal_parts (value : option WireDecimal) (path : string) : AppResult (FixedDecimal * UnitRef) :=
  value ← ok_or value (missing path);
  unit ← ok_or (wire_unit value) (missing (path ++ ".unit"));
  unit_id ← ok_or (wire_unit_id unit) (missing (path ++ ".unit.unit_id"));
  id ← map_err map_domain_error (ulid_new unit_id);
  version ← map_err map_domain_error (version_new (wire_unit_version unit));
  let unit := {| unit_id := id; unit_version := version |} in
  canonical ← map_err map_domain_error (decimal_value_new (wire_coefficient value) (wire_scale value) unit);
  if negb (bool_decide (coefficient canonical = wire_coefficient value)) || negb (scale canonical =? wire_scale value)
  then Err invalid_pack else
  z ← ok_or (parse_i128 (wire_coefficient value)) invalid_pack;
  scaled ← (if wire_scale value <=? Z.of_nat DECIMAL_SCALE
            then power ← power_of_ten (Z.of_nat DECIMAL_SCALE - wire_scale value);
                 ok_or (i128_checked_mul z power) invalid_pack
            else divisor ← power_of_ten (wire_scale value - Z.of_nat DECIMAL_SCALE);
                 if negb (i128_rem z divisor =? 0) then Err invalid_pack else Ok (i128_div z divisor));
  Ok (from_scaled scaled, unit).

Definition pack_decimal (value : option WireDecimal) (path : string) : AppResult CouponTaxTreatment :=
  '(rate, unit) ← decimal_parts value path;
  Ok (legacy_retained_rate rate unit).

Definition vat_status (code : Z) (path : string) : AppResult ValueAddedTaxStatus :=
  if code =? 1 then Ok VatExempt else if code =? 2 then Ok VatTaxable
  else if code =? 0 then Err (missing (path ++ ".value_added_tax_status")) else Err invalid_pack.
Definition income_status (code : Z) (path : string) : AppResult IncomeTaxStatus :=
  if code =? 1 then Ok IncomeExempt else if code =? 2 then Ok IncomeTaxable
  else if code =? 0 then Err (missing (path ++ ".income_tax_status")) else Err invalid_pack.

Definition pack_attributes (value : option WireTaxAttributes) (path : string) : AppResult BondTaxAttributes :=
  value ← ok_or value (missing path);
  vat ← vat_status (wire_vat_status value) path;
  income ← income_status (wire_income_status value) path;
  Ok {| value_added_tax_status := vat; income_tax_status := income |}.

(** *** The first version *)

Record CouponTaxRateEntry := { entry_vat_profile : string; entry_income_profile : string; entry_rate : CouponTaxTreatment }.

Record ParsedRule := {
  rule_from : NaiveDate;
  rule_to : option NaiveDate;
  rule_attributes : BondTaxAttributes;
  rule_rates : list CouponTaxRateEntry
}.

Definition rule_contains (self : ParsedRule) (value : NaiveDate) : bool :=
  leb (rule_from self) value && from_option (fun to => ltb value to) true (rule_to self).

(** One turn of the loop of [parse_rates]: the index, the profile before and the entries so far. *)
Definition RatesState : Type := nat * option (string * string) * list CouponTaxRateEntry.

Definition rates_step (path : string) (st : RatesState) (value : SubjectCouponTaxRate) : AppResult RatesState :=
  let '(index, previous, parsed) := st in
  if blank_or_padded (rate_vat_profile value) || blank_or_padded (rate_income_profile value) then Err invalid_pack else
  let profile := (rate_vat_profile value, rate_income_profile value) in
  if from_option (fun previous => geb previous profile) false previous then Err invalid_pack else
  rate ← pack_decimal (wire_coupon_tax_rate value) (path ++ "[" ++ to_string (Z.of_nat index) ++ "].coupon_tax_rate");
  if (scaled (value_added_tax_rate rate) <? scaled FixedDecimal.ZERO) || above_one (value_added_tax_rate rate) then Err invalid_pack
  else Ok (S index, Some profile, parsed ++ [{| entry_vat_profile := rate_vat_profile value;
             entry_income_profile := rate_income_profile value; entry_rate := rate |}]).

Definition parse_rates (values : list SubjectCouponTaxRate) (path : string) : AppResult (list CouponTaxRateEntry) :=
  st ← try_fold (rates_step path) (O, None, []) values;
  Ok st.2.

(** The same of [parse_rules], with the interval before. *)
Definition RulesState : Type := nat * option NaiveDate * option NaiveDate * list ParsedRule.

(** The tests of an interval against itself and the one before it. *)
Definition misplaced_interval (previous_from previous_to : option NaiveDate) (from : NaiveDate) (to : option NaiveDate) : bool :=
  from_option (fun to => leb to from) false to
  || from_option (fun previous => geb previous from) false previous_from
  || (bool_decide (previous_to = None) && negb (bool_decide (previous_from = None)))
  || from_option (fun previous => ltb from previous) false previous_to.

Definition rules_step (st : RulesState) (value : BondCouponTaxRule) : AppResult RulesState :=
  let '(index, previous_from, previous_to, parsed) := st in
  let path := ("coupon_rules[" ++ to_string (Z.of_nat index) ++ "]")%string in
  from ← pack_date (first_issue_from value) (path ++ ".first_issue_from");
  to ← (if bool_decide (first_issue_to value = EmptyString) then Ok None
        else to ← pack_date (first_issue_to value) (path ++ ".first_issue_to"); Ok (Some to));
  if misplaced_interval previous_from previous_to from to then Err invalid_pack else
  attributes ← pack_attributes (rule_tax_attributes value) (path ++ ".tax_attributes");
  rates ← parse_rates (wire_rates value) (path ++ ".rates");
  Ok (S index, Some from, to,
      parsed ++ [{| rule_from := from; rule_to := to; rule_attributes := attributes; rule_rates := rates |}]).

Definition parse_rules (values : list BondCouponTaxRule) : AppResult (list ParsedRule) :=
  st ← try_fold rules_step (O, None, None, []) values;
  Ok st.2.

Definition same_profiles (treatment : TaxTreatment) (vat_profile income_profile : string) : bool :=
  bool_decide (vat_profile = value_added_tax_profile treatment) && bool_decide (income_profile = income_tax_profile treatment).

Definition date_path (first_issue_date : NaiveDate) : string := "coupon_rules[first_issue_date=" ++ date_to_string first_issue_date ++ "]".
Definition profile_path (first_issue_date : NaiveDate) (kind : string) (treatment : TaxTreatment) : string :=
  date_path first_issue_date ++ "." ++ kind ++ "[vat_profile=" ++ value_added_tax_profile treatment ++ "][income_profile="
  ++ income_tax_profile treatment ++ "]".

Definition parse_payload (coupon_rules : list BondCouponTaxRule) (first_issue_date : NaiveDate) (attributes : BondTaxAttributes)
    (treatment : TaxTreatment) : AppResult CouponTaxTreatment :=
  rules ← parse_rules coupon_rules;
  selected ← ok_or (find (fun rule => rule_contains rule first_issue_date) rules) (missing (date_path first_issue_date));
  if negb (bool_decide (rule_attributes selected = attributes))
  then Err (missing (date_path first_issue_date ++ ".tax_attributes")) else
  rate ← ok_or (find (fun rate => same_profiles treatment (entry_vat_profile rate) (entry_income_profile rate)) (rule_rates selected))
           (missing (profile_path first_issue_date "rates" treatment));
  Ok (entry_rate rate).

(** *** The second version *)

Definition VAT_PROFILE : string := "cn-vat-general-taxpayer".
Definition INCOME_PROFILE : string := "cn-cgb-interest-cit-exempt".
Definition RATE_UNIT_ID : string := "01K2CGBVAT0000000000000000".
Definition AUTHORITY_SEMANTIC_HASH : ContentHash := mk_hash
  [x54; xfa; x5a; xdb; xeb; x8b; x16; x4d; xc7; x79; xec; xc2; x50; xab; x62; x2a;
   xb5; x74; xcd; xeb; x36; xf2; xb6; xda; x58; xf4; xd8; x77; xce; x51; x06; x0a].

Definition EXEMPT_BOND : BondTaxAttributes := {| value_added_tax_status := VatExempt; income_tax_status := IncomeExempt |}.
Definition TAXABLE_BOND : BondTaxAttributes := {| value_added_tax_status := VatTaxable; income_tax_status := IncomeExempt |}.

Definition validate_authoritative_v2_shape (rules : list BondCouponTaxTreatmentRule) : AppResult unit :=
  match rules with
  | [before; after] =>
      if negb (bool_decide (treatment_issue_from before = "0001-01-01"%string))
         || negb (bool_decide (treatment_issue_to before = "2025-08-08"%string))
         || negb (bool_decide (treatment_issue_from after = "2025-08-08"%string))
         || negb (bool_decide (treatment_issue_to after = EmptyString))
         || existsb (fun rule => negb (List.length (wire_treatments rule) =? 1)%nat) rules
      then Err invalid_pack else
      pre ← pack_attributes (treatment_tax_attributes before) "coupon_rules[0].tax_attributes";
      post ← pack_attributes (treatment_tax_attributes after) "coupon_rules[1].tax_attributes";
      fail_if (negb (bool_decide (pre = EXEMPT_BOND)) || negb (bool_decide (post = TAXABLE_BOND))) invalid_pack
  | _ => Err invalid_pack
  end.

Definition v2_contains (rule : BondCouponTaxTreatmentRule) (value : NaiveDate) : bool :=
  match parse_ymd (treatment_issue_from rule) with
  | None => false
  | Some from =>
      let to := if bool_decide (treatment_issue_to rule = EmptyString) then None else parse_ymd (treatment_issue_to rule) in
      leb from value && from_option (fun to => ltb value to) true to
  end.

(** The choices of the enumerations, each of which has the number 1. *)
Definition authoritative_choices (value : SubjectCouponTaxTreatment) : bool :=
  bool_decide (treatment_vat_profile value = VAT_PROFILE) && bool_decide (treatment_income_profile value = INCOME_PROFILE)
  && (wire_gross_basis value =? 1) && (wire_rounding value =? 1) && (wire_claim_scope value =? 1).

Definition parse_v2_treatment (value : SubjectCouponTaxTreatment) (path : string) : AppResult CouponTaxTreatment :=
  if negb (authoritative_choices value) then Err invalid_pack else
  '(vat_rate, vat_unit) ← decimal_parts (wire_vat_rate value) (path ++ ".value_added_tax_rate");
  '(income_rate, income_unit) ← decimal_parts (wire_income_rate value) (path ++ ".income_tax_rate");
  if negb (bool_decide (vat_unit = income_unit)) || negb (bool_decide (ulid_str (unit_id vat_unit) = RATE_UNIT_ID))
     || negb (version_get (unit_version vat_unit) =? 1) || negb (bool_decide (income_rate = FixedDecimal.ZERO))
     || negb ((scaled vat_rate =? 0) || (scaled vat_rate =? 60000000000))
  then Err invalid_pack
  else vat_included vat_rate income_rate vat_unit AUTHORITY_SEMANTIC_HASH.

Definition parse_v2_payload (coupon_rules : list BondCouponTaxTreatmentRule) (first_issue_date : NaiveDate)
    (attributes : BondTaxAttributes) (treatment : TaxTreatment) : AppResult CouponTaxTreatment :=
  _ ← validate_authoritative_v2_shape coupon_rules;
  selected ← ok_or (find (fun rule => v2_contains rule first_issue_date) coupon_rules) (missing (date_path first_issue_date));
  selected_attributes ← pack_attributes (treatment_tax_attributes selected) (date_path first_issue_date ++ ".tax_attributes");
  if negb (bool_decide (selected_attributes = attributes)) then Err (missing (date_path first_issue_date ++ ".tax_attributes")) else
  chosen ← ok_or (find (fun value => same_profiles treatment (treatment_vat_profile value) (treatment_income_profile value)) (wire_treatments selected))
             (missing (profile_path first_issue_date "treatments" treatment));
  parse_v2_treatment chosen (profile_path first_issue_date "treatments" treatment).

(** *** The two adapters *)

(** What [prost] reads from the bytes of the two payloads, and the payload that the second version is
    pinned to (a file of [domain-packs] that is part of the binary). *)
Class TaxPackMessages : Type := {
  decode_tax_rule_pack : list byte -> option (list BondCouponTaxRule);
  decode_tax_rule_pack_v2 : list byte -> option (list BondCouponTaxTreatmentRule);
  AUTHORITATIVE_PAYLOAD : list byte
}.

Definition MARKET : string := "CN".
Definition RULE_TYPE : string := "tax".
Definition TYPE_URL : string := "type.googleapis.com/ficant.market.v1.TaxRulePack".
Definition TYPE_URL_V2 : string := "type.googleapis.com/ficant.market.v1.TaxRulePackV2".
Definition SOURCE : string := "ficant-authority/cgb-interest-tax/v1".

Definition tax_rule_pack_v1_parser `{TaxPackMessages} : TaxRulePackParser := {|
  parser_market := MARKET; parser_rule_type := RULE_TYPE; parser_type_url := TYPE_URL; expected_source := None;
  expected_effective_window := None;
  parse_content := fun content first_issue_date attributes treatment =>
    if negb (bool_decide (content_type_url content = TYPE_URL)) then Err invalid_pack else
    payload ← ok_or (decode_tax_rule_pack (content_value content)) invalid_pack;
    parse_payload payload first_issue_date attributes treatment
|}.

Definition tax_rule_pack_v2_parser `{TaxPackMessages} : TaxRulePackParser := {|
  parser_market := MARKET; parser_rule_type := RULE_TYPE; parser_type_url := TYPE_URL_V2; expected_source := Some SOURCE;
  expected_effective_window := Some ("2026-01-01T00:00:00+08:00", "2028-01-01T00:00:00+08:00")%string;
  parse_content := fun content first_issue_date attributes treatment =>
    if negb (bool_decide (content_type_url content = TYPE_URL_V2)) || negb (bool_decide (content_value content = AUTHORITATIVE_PAYLOAD))
    then Err invalid_pack else
    payload ← ok_or (decode_tax_rule_pack_v2 (content_value content)) invalid_pack;
    parse_v2_payload payload first_issue_date attributes treatment
|}.
End pack.

(** ** Coupons after tax *)

(** The rate of a treatment is a fraction. *)
Definition rate_fraction (rate : FixedDecimal) : Prop := 0 <= scaled rate <= FIXED_DECIMAL_FACTOR.

Lemma vat_included_Ok v i u h t : vat_included v i u h = Ok t <->
  rate_fraction v /\ rate_fraction i /\ t = {| value_added_tax_rate := v; income_tax_rate := i; treatment_unit := u;
    gross_coupon_basis := VatIncluded; treatment_rounding := TiesToEven; claim_scope := CouponOutputVatBeforeInputCredit;
    authority_semantic_hash := Some h |}.
Proof.
  unfold vat_included, above_one, rate_fraction. rewrite unless_Ok, !orb_false_iff, !negb_false_iff, !is_non_negative_true, !Z.ltb_ge.
  unfold ONE. cbn [scaled]. split.
  - intros [[[[? ?] ?] ?] [= <-]]. split; [lia|]. split; [lia|done].
  - intros (? & ? & ->). split; [lia|done].
Qed.

(** Rounding a quotient by at least one gives no more than the dividend. *)
Lemma rounded_share g d q : 0 <= g -> FIXED_DECIMAL_FACTOR <= d -> is_round_half_even (g * FIXED_DECIMAL_FACTOR) d q -> 0 <= q <= g.
Proof.
  unfold is_round_half_even, FIXED_DECIMAL_FACTOR. intros Hg Hd [Hq _]. rewrite (Z.abs_eq d) in Hq by lia.
  assert (H1 : 2 * (q * d) <= 2 * (g * 1000000000000) + d) by lia. assert (H2 : 2 * (g * 1000000000000) <= 2 * (q * d) + d) by lia.
  clear Hq. split.
  - destruct (Z.le_gt_cases 0 q) as [|Hn]; [done|]. exfalso. assert (q * d <= - d) by nia. lia.
  - destruct (Z.le_gt_cases q g) as [|Hn]; [done|]. exfalso. assert (g * 1000000000000 <= g * d) by nia. assert ((g + 1) * d <= q * d) by nia. lia.
Qed.

Lemma rounded_exists n d : 0 <= n -> 0 < d -> exists q, is_round_half_even n d q.
Proof.
  intros Hn Hd. eexists. apply (is_round_half_even_floor n d (n / d) (n mod d)); [done|..].
  - pose proof (Z.div_mod n d ltac:(lia)). lia.
  - by apply Z.mod_pos_bound.
  - by apply Z.div_pos.
Qed.

(** The net coupon of a treatment. *)
Definition net_of (t : CouponTaxTreatment) (gross net : FixedDecimal) : Prop :=
  match gross_coupon_basis t with
  | LegacyRetainedRate =>
      in_i128 (scaled gross * (FIXED_DECIMAL_FACTOR - scaled (value_added_tax_rate t))) = true
      /\ scaled net * FIXED_DECIMAL_FACTOR = scaled gross * (FIXED_DECIMAL_FACTOR - scaled (value_added_tax_rate t))
  | VatIncluded => is_round_half_even (scaled gross * FIXED_DECIMAL_FACTOR) (FIXED_DECIMAL_FACTOR + scaled (value_added_tax_rate t)) (scaled net)
  end.

(** Treatments of the two constructors, with a rate that is a fraction. *)
Definition wf_treatment (t : CouponTaxTreatment) : Prop :=
  rate_fraction (value_added_tax_rate t)
  /\ match gross_coupon_basis t with LegacyRetainedRate => treatment_rounding t = Exact | VatIncluded => treatment_rounding t = TiesToEven end.

Lemma adjust_coupon_spec t gross net : wf_treatment t -> wf_fixed gross ->
  adjust_coupon t gross = Ok net <-> 0 <= scaled gross /\ wf_fixed net /\ net_of t gross net.
Proof.
  intros [Hr Hk] Hg. unfold rate_fraction in Hr. unfold adjust_coupon. rewrite unless_Ok, negb_false_iff, is_non_negative_true. apply and_cong_l.
  intros Hpos. unfold net_of. unfold wf_fixed in Hg. destruct (gross_coupon_basis t).
  - rewrite Hk, bind_Ok. setoid_rewrite map_err_Ok. setoid_rewrite checked_sub_Ok. setoid_rewrite checked_mul_Ok. cbn [scaled ONE]. split.
    + intros (r & [_ Er] & Hn & E). rewrite Er in Hn, E. split; [|done]. apply (checked_mul_wf gross r). by rewrite checked_mul_Ok, Er.
    + intros (Hw & Hn & E). exists (from_scaled (FIXED_DECIMAL_FACTOR - scaled (value_added_tax_rate t))). cbn [scaled].
      split; [split; [|done]|]; [ranges; unfold FIXED_DECIMAL_FACTOR in *; lia|]. split; [done|lia].
  - rewrite Hk, bind_Ok. setoid_rewrite map_err_Ok. setoid_rewrite checked_add_Ok. cbn [scaled ONE].
    assert (Hd : wf_fixed (from_scaled (FIXED_DECIMAL_FACTOR + scaled (value_added_tax_rate t)))).
    { unfold wf_fixed. cbn. ranges. unfold FIXED_DECIMAL_FACTOR in *. lia. }
    split.
    + intros (d & [_ Ed] & E). destruct d as [d]. cbn in Ed. subst d. by apply checked_div_Ok in E.
    + intros [Hw E]. exists (from_scaled (FIXED_DECIMAL_FACTOR + scaled (value_added_tax_rate t))). split; [by split|]. apply checked_div_spec; [done|done|]. cbn [scaled].
      split; [unfold FIXED_DECIMAL_FACTOR in *; lia|done].
Qed.

Lemma net_of_range t gross net : wf_treatment t -> 0 <= scaled gross -> net_of t gross net -> 0 <= scaled net <= scaled gross.
Proof.
  intros [Hr _] Hg. unfold rate_fraction in Hr. unfold net_of. destruct (gross_coupon_basis t).
  - intros [_ E]. unfold FIXED_DECIMAL_FACTOR in *. split; [|nia].
    destruct (Z.le_gt_cases 0 (scaled net)) as [|Hn]; [done|]. exfalso.
    assert (0 <= scaled gross * (1000000000000 - scaled (value_added_tax_rate t))) by nia. lia.
  - apply rounded_share; [done|lia].
Qed.

(** VAT can always be taken out of a coupon. *)
Lemma adjust_coupon_total t gross : wf_treatment t -> gross_coupon_basis t = VatIncluded -> wf_fixed gross -> 0 <= scaled gross ->
  exists net, adjust_coupon t gross = Ok net.
Proof.
  intros Ht Hb Hg Hpos. destruct (rounded_exists (scaled gross * FIXED_DECIMAL_FACTOR) (FIXED_DECIMAL_FACTOR + scaled (value_added_tax_rate t))) as [q Hq].
  { unfold FIXED_DECIMAL_FACTOR. lia. }
  { destruct Ht as [Hr _]. unfold rate_fraction, FIXED_DECIMAL_FACTOR in *. lia. }
  assert (Hn : net_of t gross (from_scaled q)) by (unfold net_of; by rewrite Hb). exists (from_scaled q). apply adjust_coupon_spec; [done|done|].
  pose proof (net_of_range t gross _ Ht Hpos Hn) as Hw. cbn in Hw. split; [done|]. split; [|done]. unfold wf_fixed in *. cbn. ranges. lia.
Qed.

Lemma legacy_wf rate unit : rate_fraction rate -> wf_treatment (legacy_retained_rate rate unit).
Proof. by split. Qed.

Lemma vat_included_wf v i u h t : vat_included v i u h = Ok t -> wf_treatment t /\ gross_coupon_basis t = VatIncluded.
Proof. intros (Hv & _ & ->)%vat_included_Ok. split; [|done]. by split. Qed.

(** ** Selecting a rule *)

Section selection.
Context `{UlidCrate} `{Chrono} `{ChronoText}.

(** The interval of a rule ends before the one of another begins. *)
Definition ends_before (a b : ParsedRule) : Prop := exists to, rule_to a = Some to /\ leb to (rule_from b) = true.

Definition entry_profile (e : CouponTaxRateEntry) : string * string := (entry_vat_profile e, entry_income_profile e).

(** The rates of a rule have increasing profiles, and are fractions. *)
Record wf_rates (rates : list CouponTaxRateEntry) : Prop := {
  rates_sorted : StronglySorted (fun a b => cmp a b = Lt) (map entry_profile rates);
  rates_fractions : Forall (fun e => wf_treatment (entry_rate e) /\ gross_coupon_basis (entry_rate e) = LegacyRetainedRate) rates
}.

(** The intervals of a pack are not empty, follow each other and do not overlap. *)
Record wf_rules (rules : list ParsedRule) : Prop := {
  rules_disjoint : StronglySorted ends_before rules;
  rules_nonempty : Forall (fun r => forall to, rule_to r = Some to -> ltb (rule_from r) to = true) rules;
  rules_rates : Forall (fun r => wf_rates (rule_rates r)) rules
}.

Lemma StronglySorted_snoc {A} (R : A -> A -> Prop) l x : StronglySorted R l -> Forall (fun a => R a x) l -> StronglySorted R (l ++ [x]).
Proof.
  induction 1 as [|a l Hs IH Ha]; intros Hx; cbn; [repeat constructor|]. apply Forall_cons in Hx as [Hax Hx].
  constructor; [by apply IH|]. apply Forall_app. split; [done|]. by constructor.
Qed.

(** The state of the loop over rates. *)
Definition rates_inv (st : RatesState) : Prop :=
  let '(index, previous, parsed) := st in wf_rates parsed /\ previous = last (map entry_profile parsed).

Lemma pack_decimal_basis value path t : pack_decimal value path = Ok t ->
  gross_coupon_basis t = LegacyRetainedRate /\ treatment_rounding t = Exact.
Proof. unfold pack_decimal. intros E. apply bind_Ok in E as ([rate unit] & _ & [= <-]). done. Qed.

Lemma lt_last {A} `{OrdLaws A} (l : list A) b x : StronglySorted (fun a b => cmp a b = Lt) l -> last l = Some b -> cmp b x = Lt ->
  Forall (fun a => cmp a x = Lt) l.
Proof.
  intros Hs Hl Hx. destruct l as [|c l _] using rev_ind; [done|]. rewrite last_snoc in Hl. injection Hl as ->.
  apply Forall_app. split; [|by constructor]. apply Forall_forall. intros a Ha.
  eapply cmp_lt_trans; [|exact Hx]. apply (StronglySorted_app_1_elem_of _ _ _ a b Hs Ha). by left.
Qed.

Lemma rates_step_inv path st value st' : rates_inv st -> rates_step path st value = Ok st' -> rates_inv st'.
Proof.
  destruct st as [[index previous] parsed]. intros [[Hs Hf] Hp] E. unfold rates_step in E. rewrite unless_Ok in E. destruct E as [_ E].
  apply unless_Ok in E as [Hprev E]. apply bind_Ok in E as (rate & Er & E). apply unless_Ok in E as [Hr E]. injection E as <-.
  apply orb_false_iff in Hr as [Hr0 Hr1]. apply Z.ltb_ge in Hr0, Hr1. apply pack_decimal_basis in Er as [Eb Ek].
  split; [split|].
  - rewrite map_app. apply StronglySorted_snoc; [done|]. destruct (last (map entry_profile parsed)) as [b|] eqn:El.
    + subst previous. cbn [from_option] in Hprev. apply (lt_last _ b); [done|done|]. unfold geb in Hprev.
      unfold entry_profile. cbn. by destruct (cmp b _).
    + apply last_None in El. by rewrite El.
  - apply Forall_app. split; [done|]. constructor; [|constructor]. cbn. split; [|done]. split; [|by rewrite Eb].
    unfold rate_fraction. cbn in Hr0, Hr1. lia.
  - rewrite map_app. symmetry. apply last_snoc.
Qed.

Lemma parse_rates_wf values path rates : parse_rates values path = Ok rates -> wf_rates rates.
Proof.
  unfold parse_rates. intros E. apply bind_Ok in E as ([[index previous] parsed] & E & [= <-]).
  apply (try_fold_inv rates_inv) in E as [Hw _]; [done| |].
  - split; [|done]. split; constructor.
  - intros st value st' _ Hi Hst. by apply (rates_step_inv path st value).
Qed.

Definition rules_inv (st : RulesState) : Prop :=
  let '(index, previous_from, previous_to, parsed) := st in
  wf_rules parsed /\ previous_from = rule_from <$> last parsed /\ previous_to = (last parsed ≫= rule_to).

Lemma leb_ltb_trans {A} `{OrdLaws A} (a b c : A) : leb a b = true -> ltb b c = true -> ltb a c = true.
Proof.
  unfold leb, ltb. destruct (cmp a b) eqn:E1; [..|done]; intros _; destruct (cmp b c) eqn:E2; try done; intros _.
  - apply cmp_eq in E1 as ->. by rewrite E2.
  - by rewrite (cmp_lt_trans a b c E1 E2).
Qed.

Lemma ltb_leb_trans {A} `{OrdLaws A} (a b c : A) : ltb a b = true -> leb b c = true -> ltb a c = true.
Proof.
  unfold leb, ltb. destruct (cmp a b) eqn:E1; try done; intros _; destruct (cmp b c) eqn:E2; try done; intros _.
  - apply cmp_eq in E2 as <-. by rewrite E1.
  - by rewrite (cmp_lt_trans a b c E1 E2).
Qed.

Lemma ltb_leb_weaken {A} `{OrdLaws A} (a b : A) : ltb a b = true -> leb a b = true.
Proof. unfold leb, ltb. by destruct (cmp a b). Qed.

Lemma rules_step_inv st value st' : rules_inv st -> rules_step st value = Ok st' -> rules_inv st'.
Proof.
  destruct st as [[[index pf] pt] parsed]. intros ([Hs Hn Hr] & Hpf & Hpt) E. unfold rules_step in E.
  apply bind_Ok in E as (from & _ & E). apply bind_Ok in E as (to & _ & E). apply unless_Ok in E as [Hm E].
  apply bind_Ok in E as (attributes & _ & E). apply bind_Ok in E as (rates & Er & E). injection E as <-.
  unfold misplaced_interval in Hm. rewrite !orb_false_iff in Hm. destruct Hm as [[[Hto Hprev] Hopen] Hover].
  split; [split|split].
  - apply StronglySorted_snoc; [done|]. destruct parsed as [|l parsed _] using rev_ind; [constructor|].
    rewrite last_snoc in Hpf, Hpt. cbn in Hpf, Hpt. subst pf pt. cbn [from_option] in Hprev.
    destruct (rule_to l) as [lt|] eqn:El; [|done]. cbn [from_option] in Hover.
    apply Forall_app in Hn as [_ Hnl]. apply Forall_cons in Hnl as [Hnl _]. specialize (Hnl lt El).
    assert (Hle : leb lt from = true) by (by rewrite leb_ltb, Hover).
    apply Forall_app. split; [|constructor; [|constructor]]; [|by exists lt]. apply Forall_forall. intros a Ha.
    destruct (StronglySorted_app_1_elem_of _ _ _ a l Hs Ha ltac:(by left)) as (at' & Eat & Hat). exists at'. split; [done|].
    cbn. apply ltb_leb_weaken. apply (leb_ltb_trans _ (rule_from l)); [done|]. by apply (ltb_leb_trans _ lt).
  - apply Forall_app. split; [done|]. constructor; [|constructor]. cbn. intros t ->. cbn [from_option] in Hto. by rewrite ltb_leb, Hto.
  - apply Forall_app. split; [done|]. constructor; [|constructor]. by apply parse_rates_wf in Er.
  - by rewrite last_snoc.
  - by rewrite last_snoc.
Qed.

Lemma parse_rules_wf values rules : parse_rules values = Ok rules -> wf_rules rules.
Proof.
  unfold parse_rules. intros E. apply bind_Ok in E as ([[[index pf] pt] parsed] & E & [= <-]).
  apply (try_fold_inv rules_inv) in E as [Hw _]; [done| |].
  - split; [|done]. split; constructor.
  - intros st value st' _ Hi Hst. by apply (rules_step_inv st value).
Qed.

Lemma contained_once a b d : ends_before a b -> rule_contains a d = true -> rule_contains b d = false.
Proof.
  intros (to & Et & Hle). unfold rule_contains. rewrite Et. cbn [from_option]. rewrite andb_true_iff. intros [_ Hd].
  apply andb_false_iff. left. rewrite leb_ltb. by rewrite (ltb_leb_trans d to (rule_from b) Hd Hle).
Qed.
End selection.

Lemma sorted_pair {A} (R : A -> A -> Prop) l a b : StronglySorted R l -> a ∈ l -> b ∈ l -> a = b \/ R a b \/ R b a.
Proof.
  induction 1 as [|x l Hs IH Hx]; [by intros ?%not_elem_of_nil|]. rewrite Forall_forall in Hx.
  intros [->|Ha]%elem_of_cons [->|Hb]%elem_of_cons; [by left|right; left; by apply Hx|right; right; by apply Hx|by apply IH].
Qed.

Section properties.
Context `{UlidCrate} `{Sha256} `{Chrono} `{ChronoText} `{TaxPackMessages}.

(** The rate that a pack has for a first issue date, the attributes of a bond and the profiles of a subject. *)
Definition selected (rules : list ParsedRule) (d : NaiveDate) (attributes : BondTaxAttributes) (tt : TaxTreatment) (t : CouponTaxTreatment) : Prop :=
  exists rule entry, rule ∈ rules /\ rule_contains rule d = true /\ rule_attributes rule = attributes
    /\ entry ∈ rule_rates rule /\ entry_profile entry = (value_added_tax_profile tt, income_tax_profile tt) /\ t = entry_rate entry.

Lemma same_rule rules d a b : wf_rules rules -> a ∈ rules -> b ∈ rules -> rule_contains a d = true -> rule_contains b d = true -> a = b.
Proof.
  intros [Hs _ _] Ha Hb Ca Cb. destruct (sorted_pair _ _ a b Hs Ha Hb) as [|[Hab|Hba]]; [done|..]; exfalso.
  - by rewrite (contained_once a b d Hab Ca) in Cb.
  - by rewrite (contained_once b a d Hba Cb) in Ca.
Qed.

Lemma same_entry rates a b : wf_rates rates -> a ∈ rates -> b ∈ rates -> entry_profile a = entry_profile b -> a = b.
Proof.
  intros [Hs _] Ha Hb E. assert (Hs' : StronglySorted (fun a b => cmp (entry_profile a) (entry_profile b) = Lt) rates).
  { clear -Hs. induction rates as [|x l IH]; [constructor|]. cbn in Hs. apply StronglySorted_inv in Hs as [Hs Hx]. constructor; [by apply IH|].
    by apply Forall_map in Hx. }
  destruct (sorted_pair _ _ a b Hs' Ha Hb) as [|[Hab|Hba]]; [done|..]; exfalso.
  - rewrite E in Hab. by apply cmp_lt_irrefl in Hab.
  - rewrite E in Hba. by apply cmp_lt_irrefl in Hba.
Qed.

Lemma same_profiles_true tt v i : same_profiles tt v i = true <-> (v, i) = (value_added_tax_profile tt, income_tax_profile tt).
Proof. unfold same_profiles. rewrite andb_true_iff, !bool_decide_eq_true. split; [by intros [-> ->]|by intros [= -> ->]]. Qed.

Lemma parse_payload_Ok coupon_rules d attributes tt t :
  parse_payload coupon_rules d attributes tt = Ok t <-> exists rules, parse_rules coupon_rules = Ok rules /\ selected rules d attributes tt t.
Proof.
  unfold parse_payload. rewrite bind_Ok. apply exist_proper. intros rules. apply and_cong_l. intros Hrules. apply parse_rules_wf in Hrules as Hw.
  rewrite bind_Ok. setoid_rewrite ok_or_Ok. setoid_rewrite unless_Ok. setoid_rewrite bind_Ok. setoid_rewrite ok_or_Ok. setoid_rewrite Ok_inj. split.
  - intros (rule & Hf & Ha & entry & He & <-). apply find_some in Hf as [Hin Hc]. apply find_some in He as [Hein Hp].
    apply negb_false_iff, bool_decide_eq_true in Ha. exists rule, entry. split; [by apply list_elem_of_In|]. split; [done|]. split; [done|].
    split; [by apply list_elem_of_In|]. split; [|done]. by apply same_profiles_true.
  - intros (rule & entry & Hin & Hc & Ha & Hein & Hp & ->). exists rule. split; [|split].
    + destruct (find _ rules) as [rule'|] eqn:Ef.
      * apply find_some in Ef as [Hin' Hc']. f_equal. apply (same_rule rules d); [done|by apply list_elem_of_In|done..].
      * pose proof (find_none _ _ Ef rule ltac:(by apply list_elem_of_In)) as Hn. cbv beta in Hn. by rewrite Hc in Hn.
    + by apply negb_false_iff, bool_decide_eq_true.
    + exists entry. split; [|done]. destruct (find _ (rule_rates rule)) as [entry'|] eqn:Ef.
      * apply find_some in Ef as [Hein' Hp']. apply same_profiles_true in Hp'. f_equal.
        destruct Hw as [_ _ Hr]. rewrite Forall_forall in Hr. apply (same_entry (rule_rates rule)); [by apply Hr|by apply list_elem_of_In|done|].
        rewrite Hp. exact Hp'.
      * pose proof (find_none _ _ Ef entry ltac:(by apply list_elem_of_In)) as Hn. cbv beta in Hn. exfalso.
        apply not_true_iff_false in Hn. by apply Hn, same_profiles_true.
Qed.

Lemma selected_unique rules d attributes tt t t' : wf_rules rules -> selected rules d attributes tt t -> selected rules d attributes tt t' -> t = t'.
Proof.
  intros Hw (rule & entry & Hin & Hc & _ & Hein & Hp & ->) (rule' & entry' & Hin' & Hc' & _ & Hein' & Hp' & ->).
  assert (rule' = rule) as -> by by apply (same_rule rules d). f_equal. destruct Hw as [_ _ Hr]. rewrite Forall_forall in Hr.
  apply (same_entry (rule_rates rule)); [by apply Hr|done|done|]. by rewrite Hp.
Qed.

Lemma selected_wf rules d attributes tt t : wf_rules rules -> selected rules d attributes tt t ->
  wf_treatment t /\ gross_coupon_basis t = LegacyRetainedRate.
Proof.
  intros [_ _ Hr] (rule & entry & Hin & _ & _ & Hein & _ & ->). rewrite Forall_forall in Hr. destruct (Hr rule Hin) as [_ Hf].
  rewrite Forall_forall in Hf. by apply Hf.
Qed.

(** What makes a rule pack usable for a valuation. *)
Record usable (scope : AccessScope) (binding : AnalyticsObjectRef) (valuation_at : MarketTime) (rule_pack : MarketRulePack)
    (parser : TaxRulePackParser) (content : RulePackContent) : Prop := {
  usable_reference : market_rule_pack_id rule_pack = vr_id (object_ref binding) /\ rule_pack_number rule_pack = vr_version (object_ref binding);
  usable_owner : scope_authorize scope (rule_pack_owner rule_pack) = Ok tt;
  usable_content : rule_pack_content rule_pack = Some content /\ rule_pack_content_hash rule_pack = object_hash binding
    /\ digest (content_value content) = object_hash binding;
  usable_time : leb (instant (ep_from (effective rule_pack))) (instant valuation_at) = true
    /\ ltb (instant valuation_at) (instant (ep_to (effective rule_pack))) = true;
  usable_status : verification_status rule_pack = Verified;
  usable_envelope : rule_pack_market rule_pack = parser_market parser /\ rule_pack_type rule_pack = parser_rule_type parser
    /\ content_type_url content = parser_type_url parser
    /\ forall source, expected_source parser = Some source -> rule_pack_source rule_pack = source;
  usable_window : forall from to, expected_effective_window parser = Some (from, to) ->
    parse_rfc3339 from = Some (instant (ep_from (effective rule_pack))) /\ parse_rfc3339 to = Some (instant (ep_to (effective rule_pack)))
}.

Lemma hash_verify_iff h bs u : hash_verify h bs = Ok u <-> digest bs = h.
Proof. unfold hash_verify. destruct u. rewrite unless_Ok, negb_false_iff, bool_decide_eq_true. naive_solver. Qed.

Lemma fail_if_neq {E A} `{EqDecision A} (a b : A) (e : E) u : fail_if (negb (bool_decide (a = b))) e = Ok u <-> a = b.
Proof. by rewrite fail_if_Ok, negb_false_iff, bool_decide_eq_true. Qed.

Lemma validate_tax_rule_pack_Ok scope binding valuation_at rule_pack parser :
  validate_tax_rule_pack scope binding valuation_at rule_pack parser = Ok tt <-> exists content, usable scope binding valuation_at rule_pack parser content.
Proof.
  unfold validate_tax_rule_pack. rewrite unless_Ok, guard_Ok, !unless_Ok, bind_Ok. setoid_rewrite ok_or_Ok. setoid_rewrite bind_Ok.
  setoid_rewrite map_err_Ok. setoid_rewrite hash_verify_iff. setoid_rewrite unless_Ok. rewrite !orb_false_iff, !negb_false_iff, !bool_decide_eq_true. split.
  - intros ([Hid Hv] & Ho & Hh & [Hf Ht] & content & Hc & [] & Hd & He & Hw). exists content.
    rewrite !orb_false_iff, !negb_false_iff, !bool_decide_eq_true in He. destruct He as [[[[Hm Hr] Hs] Hu] Hsrc].
    rewrite ltb_leb, negb_false_iff in Hf. split; [done|done|by rewrite <- Hh at 2|split; [done|by rewrite ltb_geb, Ht]|done| |].
    + split; [done|]. split; [done|]. split; [done|]. intros source Es. rewrite Es in Hsrc. cbn in Hsrc.
      by apply negb_false_iff, bool_decide_eq_true in Hsrc.
    + intros from to Ew. rewrite Ew in Hw. apply bind_Ok in Hw as (from' & Ef & Hw). apply bind_Ok in Hw as (to' & Et & Hw).
      apply ok_or_Ok in Ef, Et. apply fail_if_Ok, orb_false_iff in Hw as [Hwf Hwt]. apply negb_false_iff, bool_decide_eq_true in Hwf, Hwt. by subst.
  - intros (content & [[Hid Hv] Ho (Hc & Hh & Hd) [Hf Ht] Hs (Hm & Hr & Hu & Hsrc) Hw]). split; [done|]. split; [done|]. split; [done|].
    split; [by rewrite ltb_leb, Hf; rewrite ltb_geb in Ht; apply negb_true_iff in Ht|]. exists content. split; [done|]. exists tt.
    split; [by rewrite Hh|]. split.
    + rewrite !orb_false_iff, !negb_false_iff, !bool_decide_eq_true. split; [done|]. destruct (expected_source parser) as [source|]; [|done].
      cbn. by rewrite (Hsrc source eq_refl), bool_decide_eq_true_2.
    + destruct (expected_effective_window parser) as [[from to]|]; [|done]. destruct (Hw from to eq_refl) as [-> ->]. cbn.
      by rewrite !bool_decide_eq_true_2.
Qed.

Lemma parse_verified_Ok parser scope binding valuation_at rule_pack d attributes treatment t :
  parse_verified parser scope binding valuation_at rule_pack d attributes treatment = Ok t <->
  exists content, usable scope binding valuation_at rule_pack parser content /\ parse_content parser content d attributes treatment = Ok t.
Proof.
  unfold parse_verified. rewrite bind_Ok. setoid_rewrite bind_Ok. setoid_rewrite ok_or_Ok. split.
  - intros ([] & (content & Hu)%validate_tax_rule_pack_Ok & content' & Hc & E). exists content. split; [done|].
    pose proof (usable_content _ _ _ _ _ _ Hu) as (Hc' & _). rewrite Hc' in Hc. by injection Hc as <-.
  - intros (content & Hu & E). exists tt. split; [apply validate_tax_rule_pack_Ok; by exists content|]. exists content. split; [|done].
    apply (usable_content _ _ _ _ _ _ Hu).
Qed.
End properties.

(** ** Claims *)

(** C32. A coupon tax rate comes from exactly one place: it is given exactly when the rule pack is the
    bound one, of an owner the caller may read, verified, in force at the valuation, with content that has the
    bound hash and the schema of the parser, and the content has a rule for the first issue date, with the
    attributes of the bond and an entry for both profiles of the subject; the rules of an accepted content
    do not overlap and its entries are unique, so that no other rate fits, and the rate is a fraction. *)
Theorem tax_rule_selection_exact `{UlidCrate} `{Sha256} `{Chrono} `{ChronoText} `{TaxPackMessages} scope binding valuation_at rule_pack d attributes
    treatment t :
  parse_verified tax_rule_pack_v1_parser scope binding valuation_at rule_pack d attributes treatment = Ok t <->
  exists content payload rules,
    usable scope binding valuation_at rule_pack tax_rule_pack_v1_parser content
    /\ decode_tax_rule_pack (content_value content) = Some payload /\ parse_rules payload = Ok rules
    /\ wf_rules rules /\ selected rules d attributes treatment t
    /\ (forall t', selected rules d attributes treatment t' -> t' = t)
    /\ rate_fraction (value_added_tax_rate t).
Proof.
  rewrite parse_verified_Ok. apply exist_proper. intros content. split.
  - intros [Hu E]. cbn in E. apply unless_Ok in E as [_ E]. apply bind_Ok in E as (payload & Ep%ok_or_Ok & E).
    apply parse_payload_Ok in E as (rules & Er & Hs). pose proof (parse_rules_wf payload rules Er) as Hw. exists payload, rules.
    repeat (split; [done|]). split; [intros t' Ht'; by apply (selected_unique rules d attributes treatment)|].
    destruct (selected_wf rules d attributes treatment t Hw Hs) as [[Hf _] _]. exact Hf.
  - intros (payload & rules & Hu & Ep & Er & Hw & Hs & _). split; [done|]. cbn. destruct (usable_envelope _ _ _ _ _ _ Hu) as (_ & _ & Eu & _).
    cbn in Eu. rewrite Eu, bool_decide_eq_true_2 by done. cbn [negb]. rewrite Ep. cbn [ok_or mbind Result_bind].
    apply parse_payload_Ok. by exists rules.
Qed.

(** C35. Tax never adds to a coupon: a treatment whose rate is a fraction refuses negative coupons, and
    gives a coupon that is not negative and not more than the gross one - without VAT, the gross coupon
    divided by one plus the rate and rounded half to even, for every gross coupon; with a retained rate, the
    exact product, for the coupons for which it has twelve places. *)
Theorem coupon_net_correct t gross : wf_treatment t -> wf_fixed gross ->
  (forall net, adjust_coupon t gross = Ok net <-> 0 <= scaled gross /\ wf_fixed net /\ net_of t gross net)
  /\ (forall net, adjust_coupon t gross = Ok net -> 0 <= scaled net <= scaled gross)
  /\ (gross_coupon_basis t = VatIncluded -> 0 <= scaled gross -> exists net, adjust_coupon t gross = Ok net).
Proof.
  intros Ht Hg. split; [|split].
  - intros net. by apply adjust_coupon_spec.
  - intros net E. apply adjust_coupon_spec in E as (Hpos & _ & Hn); [|done..]. by apply (net_of_range t).
  - intros Hb Hpos. by apply adjust_coupon_total.
Qed.

(** ** A concrete rule pack *)

(** ISO 8601 dates of four-digit years. *)
Fixpoint fixed_digits (n : nat) (z : Z) : list byte :=
  match n with O => [] | S n => fixed_digits n (z / 10) ++ [digit_byte (z mod 10)] end.
Definition iso_date (d : NaiveDate) : string :=
  string_of_list_byte (fixed_digits 4 (nd_year d) ++ [MINUS] ++ fixed_digits 2 (nd_month d) ++ [MINUS] ++ fixed_digits 2 (nd_day d)).
Definition parse_iso (s : string) : option NaiveDate :=
  match as_bytes s with
  | [y1; y2; y3; y4; _; m1; m2; _; d1; d2] =>
      Some {| nd_year := digits_val [y1; y2; y3; y4]; nd_month := digits_val [m1; m2]; nd_day := digits_val [d1; d2] |}
  | _ => None
  end.
Definition iso_chrono : Chrono := {|
  Tz := string; tz_parse := fun s => if bool_decide (s = MARKET_TIMEZONE) then Some s else None; tz_name := fun s => s;
  tz_local_date := fun _ _ => {| nd_year := 2026; nd_month := 1; nd_day := 5 |}; date_to_string := iso_date
|}.
Definition iso_text : ChronoText := {| parse_rfc3339 := fun _ => None; parse_ymd := parse_iso |}.

Section example.
Local Existing Instance sample_ulid_crate.
Local Existing Instance sample_sha256.
Local Existing Instance iso_chrono.
Local Existing Instance iso_text.

Definition wire_rate_unit : WireUnitRef := {| wire_unit_id := Some (ulid_str (sample_id "U")); wire_unit_version := 1 |}.
Definition wire_rate (coefficient : string) (scale : Z) : option WireDecimal :=
  Some {| wire_coefficient := coefficient; wire_scale := scale; wire_unit := Some wire_rate_unit |}.
Definition wire_rule (from to first second : string) : BondCouponTaxRule := {|
  first_issue_from := from; first_issue_to := to;
  rule_tax_attributes := Some {| wire_vat_status := 2; wire_income_status := 2 |};
  wire_rates := [{| rate_vat_profile := "vat-a"; rate_income_profile := "income-a"; wire_coupon_tax_rate := wire_rate first 2 |};
                 {| rate_vat_profile := "vat-b"; rate_income_profile := "income-b"; wire_coupon_tax_rate := wire_rate second 2 |}]
|}.
Definition sample_rules (second_from : string) : list BondCouponTaxRule :=
  [wire_rule "2020-01-01" "2025-08-08" "1" "13"; wire_rule second_from "" "25" "31"].

Definition sample_messages : TaxPackMessages := {|
  decode_tax_rule_pack := fun _ => Some (sample_rules "2025-08-08"); decode_tax_rule_pack_v2 := fun _ => None; AUTHORITATIVE_PAYLOAD := [x00]
|}.
Local Existing Instance sample_messages.

Definition taxable : BondTaxAttributes := {| value_added_tax_status := VatTaxable; income_tax_status := IncomeTaxable |}.
Definition sample_treatment : TaxTreatment := {| value_added_tax_profile := "vat-b"; income_tax_profile := "income-b" |}.
Definition sample_date (y m d : Z) : NaiveDate := {| nd_year := y; nd_month := m; nd_day := d |}.
Definition sample_rate (value : Z) : CouponTaxTreatment :=
  legacy_retained_rate (from_scaled value) {| unit_id := sample_id "U"; unit_version := mk_version 1 |}.

Example sample_selection :
  parse_payload (sample_rules "2025-08-08") (sample_date 2025 8 7) taxable sample_treatment = Ok (sample_rate 130000000000)
  /\ parse_payload (sample_rules "2025-08-08") (sample_date 2025 8 8) taxable sample_treatment = Ok (sample_rate 310000000000)
  /\ parse_payload (sample_rules "2025-08-07") (sample_date 2025 8 8) taxable sample_treatment = Err invalid_pack
  /\ parse_payload (sample_rules "2025-08-08") (sample_date 2019 8 8) taxable sample_treatment
     = Err (missing "coupon_rules[first_issue_date=2019-08-08]")
  /\ parse_payload (sample_rules "2025-8-8") (sample_date 2025 8 8) taxable sample_treatment = Err (missing "coupon_rules[1].first_issue_from").
Proof. vm_compute. repeat split. Qed.

Definition sample_content : RulePackContent := {| content_type_url := TYPE_URL; content_value := [x01; x02] |}.
Definition sample_rule_pack : MarketRulePack := {|
  market_rule_pack_id := sample_id "P"; rule_pack_number := mk_version 1; rule_pack_owner := sample_owner; rule_pack_market := MARKET;
  rule_pack_type := RULE_TYPE; rule_pack_source := SOURCE;
  effective := {| ep_from := sample_time 10; ep_to := sample_time 20 |}; verification_status := Verified;
  rule_pack_content_hash := digest [x01; x02]; rule_pack_content := Some sample_content
|}.
Definition sample_binding : AnalyticsObjectRef := {| object_ref := sample_vref "P"; object_hash := digest [x01; x02] |}.
Definition sample_scope : AccessScope := {|
  scope_tenant_id := sample_id "T"; scope_actor_id := sample_id "A"; allowed_owner_ids := [sample_id "O"]; scope_fingerprint := sample_hash x01 |}.

Lemma tax_rule_selection_exact_witness :
  exists content payload rules,
    usable sample_scope sample_binding (sample_time 15) sample_rule_pack tax_rule_pack_v1_parser content
    /\ decode_tax_rule_pack (content_value content) = Some payload /\ parse_rules payload = Ok rules
    /\ selected rules (sample_date 2025 8 7) taxable sample_treatment (sample_rate 130000000000).
Proof.
  assert (E : parse_verified tax_rule_pack_v1_parser sample_scope sample_binding (sample_time 15) sample_rule_pack (sample_date 2025 8 7)
    taxable sample_treatment = Ok (sample_rate 130000000000)) by (vm_compute; reflexivity).
  apply tax_rule_selection_exact in E. destruct E as (content & payload & rules & Hu & Ep & Er & _ & Hs & _).
  exists content, payload, rules. split; [exact Hu|]. split; [exact Ep|]. split; [exact Er|exact Hs].
Defined.

Lemma coupon_net_correct_witness :
  exists t, vat_included (from_scaled 60000000000) FixedDecimal.ZERO sample_unit AUTHORITY_SEMANTIC_HASH = Ok t
  /\ adjust_coupon t (from_scaled 1000000000001) = Ok (from_scaled 943396226416) /\ 0 <= 943396226416 <= 1000000000001.
Proof.
  eexists. split; [reflexivity|].
  assert (E : adjust_coupon {| value_added_tax_rate := from_scaled 60000000000; income_tax_rate := FixedDecimal.ZERO; treatment_unit := sample_unit;
    gross_coupon_basis := VatIncluded; treatment_rounding := TiesToEven; claim_scope := CouponOutputVatBeforeInputCredit;
    authority_semantic_hash := Some AUTHORITY_SEMANTIC_HASH |} (from_scaled 1000000000001) = Ok (from_scaled 943396226416)) by (vm_compute; reflexivity).
  split; [exact E|].
  refine (proj1 (proj2 (coupon_net_correct _ (from_scaled 1000000000001) _ _)) _ E);
    [split; [split; vm_compute; discriminate|reflexivity]|vm_compute; reflexivity].
Defined.
End example.
