(* ===== verification/RatesBond.v ===== *)
(** * Decimals, units, coupon tax and results of the rates service

    The part of [crates/ficant-api/src/rates.rs] that translates a calculation into messages: decimals on the
    wire, units, the second version of coupon tax, cash flows before and after tax and the assembly of the
    result of a bond request. *)

From Stdlib Require Import ZArith Lia Strings.String.
From Stdlib Require Import Strings.Byte.
From stdpp Require Import base list option strings numbers sorting.
From S2P Require Import Prelude Machine Collections Primitives FixedDecimal Digits DecimalValue AppErrors Codec Concrete Access Subject BondAnalytics Wire CouponTax.
Open Scope Z_scope.

(** ** Decimals and units *)

(** [decimal]: no trailing zero after the point. *)
Definition wire_decimal (value : FixedDecimal) (unit : WireUnitRef) : WireDecimal :=
  if scaled value =? 0 then {| wire_coefficient := "0"; wire_scale := 0; wire_unit := Some unit |} else
  let '(coefficient, scale) := pop_zeros DECIMAL_SCALE (as_bytes (to_string (scaled value))) in
  {| wire_coefficient := string_of_list_byte coefficient; wire_scale := Z.of_nat scale; wire_unit := Some unit |}.

Definition parse_fixed_decimal (value : WireDecimal) (expected_unit : WireUnitRef) : AppResult FixedDecimal :=
  if negb (bool_decide (wire_unit value = Some expected_unit)) || (Z.of_nat DECIMAL_SCALE <? wire_scale value)
  then Err (map_domain_error InvalidUnit) else
  z ← ok_or (parse_i128 (wire_coefficient value)) invalid_value;
  factor ← ok_or (checked in_i128 (10 ^ (Z.of_nat DECIMAL_SCALE - wire_scale value))) invalid_value;
  scaled ← ok_or (i128_checked_mul z factor) invalid_value;
  Ok (from_scaled scaled).

Record UnitBindings := {
  currency_amount : WireUnitRef;
  price_per_100 : WireUnitRef;
  rate : WireUnitRef;
  years : WireUnitRef;
  years_squared : WireUnitRef;
  dv01_per_100 : WireUnitRef;
  dv01_unit : WireUnitRef;
  dimensionless : WireUnitRef;
  contract_count : WireUnitRef
}.

Section units.
Context `{UlidCrate}.

Definition parse_unit (value : WireUnitRef) : AppResult UnitRef :=
  id ← ok_or (wire_unit_id value) invalid_value;
  id ← map_err map_domain_error (ulid_new id);
  version ← map_err map_domain_error (version_new (wire_unit_version value));
  Ok {| unit_id := id; unit_version := version |}.

Definition parse_proto_unit (value : option WireUnitRef) : AppResult WireUnitRef :=
  value ← ok_or value invalid_value;
  _ ← parse_unit value;
  Ok value.

Definition unit_bindings_parse (value : option AnalysisUnits) : AppResult UnitBindings :=
  value ← ok_or value invalid_value;
  currency_amount ← parse_proto_unit (units_currency_amount value);
  price_per_100 ← parse_proto_unit (units_price_per_100 value);
  rate ← parse_proto_unit (units_rate value);
  years ← parse_proto_unit (units_years value);
  years_squared ← parse_proto_unit (units_years_squared value);
  dv01_per_100 ← parse_proto_unit (units_dv01_per_100 value);
  dv01 ← parse_proto_unit (units_dv01 value);
  dimensionless ← parse_proto_unit (units_dimensionless value);
  contract_count ← parse_proto_unit (units_contract_count value);
  Ok {| currency_amount := currency_amount; price_per_100 := price_per_100; rate := rate; years := years;
        years_squared := years_squared; dv01_per_100 := dv01_per_100; dv01_unit := dv01; dimensionless := dimensionless;
        contract_count := contract_count |}.

(** ** Coupon tax of the second version *)

Definition V2_CUTOFF : NaiveDate := {| nd_year := 2025; nd_month := 8; nd_day := 8 |}.

Definition canonical_v2_coupon_tax_treatment (input : BondAnalyticsInput) (treatment : SubjectCouponTaxTreatment)
    (authority_semantic_hash : list byte) : AppResult CouponTaxTreatment :=
  if negb (authoritative_choices treatment) then Err invalid_value else
  vat ← ok_or (wire_vat_rate treatment) invalid_value;
  income ← ok_or (wire_income_rate treatment) invalid_value;
  vat_unit ← ok_or (wire_unit vat) invalid_value;
  if negb (bool_decide (wire_unit income = Some vat_unit)) || negb (bool_decide (wire_unit_id vat_unit = Some RATE_UNIT_ID))
     || negb (wire_unit_version vat_unit =? 1) then Err invalid_value else
  unit ← parse_unit vat_unit;
  vat ← parse_fixed_decimal vat vat_unit;
  income ← parse_fixed_decimal income vat_unit;
  attributes ← ok_or (tax_attributes (input_terms input)) invalid_value;
  let '(expected_attributes, expected_vat) :=
    if ltb (first_issue_date (input_terms input)) V2_CUTOFF then (EXEMPT_BOND, FixedDecimal.ZERO)
    else (TAXABLE_BOND, from_scaled 60000000000) in
  if negb (bool_decide (attributes = expected_attributes)) || negb (bool_decide (vat = expected_vat))
     || negb (bool_decide (income = FixedDecimal.ZERO)) then Err invalid_value else
  semantic ← map_err map_domain_error (hash_from_bytes authority_semantic_hash);
  if negb (bool_decide (semantic = AUTHORITY_SEMANTIC_HASH)) then Err invalid_value
  else vat_included vat income unit semantic.
End units.

(** ** Before and after tax *)

Section results.
Context `{Chrono}.

Definition wire_cashflow (units : UnitBindings) (value : DerivedCashflow) (coupon total : FixedDecimal) : WireCashflow := {|
  wire_sequence := cashflow_sequence value; wire_nominal_date := date_to_string (nominal_date value);
  wire_payment_date := date_to_string (payment_date value); wire_coupon := Some (wire_decimal coupon (currency_amount units));
  wire_principal := Some (wire_decimal (cashflow_principal value) (currency_amount units));
  wire_total := Some (wire_decimal total (currency_amount units))
|}.

Definition derived_cashflows (result : BondAnalyticsResult) (units : UnitBindings) : list WireCashflow :=
  map (fun value => wire_cashflow units value (cashflow_coupon value) (cashflow_total value)) (cashflows result).

Definition tax_adjusted_cashflows (pre_tax : BondAnalyticsResult) (units : UnitBindings) (treatment : CouponTaxTreatment)
    : AppResult (list WireCashflow) :=
  try_map (fun value =>
    coupon ← adjust_coupon treatment (cashflow_coupon value);
    total ← map_err map_domain_error (checked_add coupon (cashflow_principal value));
    Ok (wire_cashflow units value coupon total)) (cashflows pre_tax).

Definition tax_adjusted_coupon_rate (input : BondAnalyticsInput) (pre_tax : BondAnalyticsResult) (treatment : CouponTaxTreatment)
    : AppResult FixedDecimal :=
  gross_coupon ← ok_or (cashflow_coupon <$> head (cashflows pre_tax)) invalid_value;
  if existsb (fun cashflow => negb (bool_decide (cashflow_coupon cashflow = gross_coupon))) (cashflows pre_tax) then Err invalid_value else
  coupon ← adjust_coupon treatment gross_coupon;
  map_err map_domain_error (
    value ← checked_mul_integer coupon (frequency_code (frequency (input_terms input)));
    checked_div_round_ties_even value (face_amount (input_terms input))).

Definition proto_claim_scope (claim : CouponTaxClaimScope) : Z :=
  match claim with LegacySyntheticRetainedRate => 0 | CouponOutputVatBeforeInputCredit => 1 end.

Definition wire_measures (m : AnalyticsMeasures) (units : UnitBindings) : WireMeasures := {|
  wire_accrued_interest := Some (wire_decimal (accrued_interest m) (price_per_100 units));
  wire_clean_price := Some (wire_decimal (clean_price m) (price_per_100 units));
  wire_dirty_price := Some (wire_decimal (dirty_price m) (price_per_100 units));
  wire_yield_to_maturity := Some (wire_decimal (yield_to_maturity m) (rate units));
  wire_macaulay_duration := Some (wire_decimal (macaulay_duration m) (years units));
  wire_modified_duration := Some (wire_decimal (modified_duration m) (years units));
  wire_convexity := Some (wire_decimal (convexity m) (years_squared units));
  wire_dv01 := Some (wire_decimal (dv01 m) (dv01_per_100 units))
|}.

(** [bond_result_with_metadata], as it is called with an after-tax result. *)
Definition bond_result_with_metadata (result after_tax : BondAnalyticsResult) (treatment : CouponTaxTreatment)
    (units : UnitBindings) (metadata : ResultMetadata) : AppResult AnalyzeBondResult :=
  adjusted ← tax_adjusted_cashflows result units treatment;
  Ok {| analysis_cashflows := derived_cashflows result units;
        analysis_measures := Some (wire_measures (measures result) units);
        analysis_metadata := Some metadata;
        analysis_after_tax := Some {|
          adjusted_cashflows := adjusted;
          adjusted_yield_to_maturity := Some (wire_decimal (yield_to_maturity (measures after_tax)) (rate units));
          adjusted_claim_scope := proto_claim_scope (claim_scope treatment) |} |}.

End results.

(** ** Decimals survive the wire *)

Lemma pop_zeros_minus n l : pop_zeros n (MINUS :: l) = (MINUS :: (pop_zeros n l).1, (pop_zeros n l).2).
Proof.
  revert l. induction n as [|n IH]; intros l; [done|]. cbn [pop_zeros].
  destruct l as [|b l _] using rev_ind; [done|]. rewrite app_comm_cons, !last_snoc, !removelast_last.
  destruct (bool_decide (Some b = Some ZERO)); [apply IH|done].
Qed.

(** The text of a decimal is its shortest one. *)
Lemma wire_decimal_text x u : scaled x <> 0 -> exists (negative : bool) digits n,
  wire_decimal x u = {| wire_coefficient := signed_text negative digits; wire_scale := Z.of_nat n; wire_unit := Some u |}
  /\ all_digits digits = true /\ digits <> [] /\ leading digits /\ (n <= DECIMAL_SCALE)%nat
  /\ (n = 0%nat \/ list.last digits <> Some ZERO)
  /\ scaled x = (if negative then - digits_val digits else digits_val digits) * 10 ^ (Z.of_nat DECIMAL_SCALE - Z.of_nat n).
Proof.
  intros Hx. unfold wire_decimal. rewrite (proj2 (Z.eqb_neq _ _) Hx). destruct (to_string_text (scaled x)) as (l & -> & Hd & Hne & Hv & Hl).
  unfold signed_text at 1. rewrite as_bytes_of_bytes. destruct (pop_zeros DECIMAL_SCALE l) as [digits n] eqn:Ep.
  destruct (pop_zeros_spec DECIMAL_SCALE l digits n Hd Ep) as (Hd' & Hn & Hval & Hlead & Hlast & _).
  exists (scaled x <? 0), digits, n. split.
  - destruct (scaled x <? 0); [rewrite pop_zeros_minus|]; rewrite Ep; cbn [fst snd]; reflexivity.
  - split; [done|]. split; [intros ->; cbn in Hval; lia|]. split; [by apply Hlead, Hl|]. split; [done|]. split; [done|].
    rewrite Nat2Z.inj_sub in Hval by done. destruct (Z.ltb_spec (scaled x) 0); lia.
Qed.

Lemma parse_wire_decimal x u : wf_fixed x -> parse_fixed_decimal (wire_decimal x u) u = Ok x.
Proof.
  intros Hx. destruct (Z.eq_dec (scaled x) 0) as [E|E].
  - unfold wire_decimal. rewrite E. cbn [Z.eqb]. unfold parse_fixed_decimal. cbn [wire_unit wire_scale wire_coefficient].
    rewrite bool_decide_eq_true_2 by done. cbn. destruct x as [z]. cbn in E. by subst z.
  - destruct (wire_decimal_text x u E) as (negative & digits & n & -> & Hd & Hne & _ & Hn & _ & Hs). unfold parse_fixed_decimal.
    cbn [wire_unit wire_scale wire_coefficient]. rewrite bool_decide_eq_true_2 by done. cbn [negb orb].
    rewrite (proj2 (Z.ltb_ge _ _)) by lia. rewrite parse_signed_text by done.
    set (c := if negative then - digits_val digits else digits_val digits) in *. set (p := Z.of_nat DECIMAL_SCALE - Z.of_nat n) in *.
    assert (Hp : 0 <= p <= 12) by (subst p; change (Z.of_nat DECIMAL_SCALE) with 12; unfold DECIMAL_SCALE in Hn; lia).
    assert (Hpow : 1 <= 10 ^ p <= 10 ^ 12) by (split; [pose proof (Z.pow_pos_nonneg 10 p); lia|apply Z.pow_le_mono_r; lia]).
    unfold wf_fixed in Hx. assert (Hc : in_i128 c = true) by (ranges; nia). assert (Hf : in_i128 (10 ^ p) = true) by (ranges; lia).
    rewrite (proj2 (checked_Some in_i128 c c)) by done. cbn [ok_or mbind Result_bind].
    rewrite (proj2 (checked_Some in_i128 (10 ^ p) (10 ^ p))) by done. cbn [ok_or mbind Result_bind]. unfold i128_checked_mul. rewrite <- Hs.
    rewrite (proj2 (checked_Some in_i128 (scaled x) (scaled x))) by done. by destruct x.
Qed.

(** ** The second version of coupon tax *)

Section v2.
Context `{UlidCrate}.

(** What the second version asks of a bond: exempt before the cutoff, taxed at 6% from it on. *)
Definition v2_rate (first_issue : NaiveDate) : Z := if ltb first_issue V2_CUTOFF then 0 else 60000000000.
Definition v2_attributes (first_issue : NaiveDate) : BondTaxAttributes := if ltb first_issue V2_CUTOFF then EXEMPT_BOND else TAXABLE_BOND.

Record v2_treatment (input : BondAnalyticsInput) (h : list byte) (t : CouponTaxTreatment) : Prop := {
  v2_attributes_exact : tax_attributes (input_terms input) = Some (v2_attributes (first_issue_date (input_terms input)));
  v2_rate_exact : scaled (value_added_tax_rate t) = v2_rate (first_issue_date (input_terms input)) /\ income_tax_rate t = FixedDecimal.ZERO;
  v2_unit_exact : ulid_str (unit_id (treatment_unit t)) = RATE_UNIT_ID /\ version_get (unit_version (treatment_unit t)) = 1;
  v2_basis_exact : gross_coupon_basis t = VatIncluded /\ treatment_rounding t = TiesToEven /\ claim_scope t = CouponOutputVatBeforeInputCredit;
  v2_authority_exact : authority_semantic_hash t = Some AUTHORITY_SEMANTIC_HASH /\ hash_from_bytes h = Ok AUTHORITY_SEMANTIC_HASH
}.

Lemma parse_unit_Ok w u : parse_unit w = Ok u -> wire_unit_id w = Some (ulid_str (unit_id u)) /\ wire_unit_version w = version_get (unit_version u).
Proof.
  unfold parse_unit. intros E. apply bind_Ok in E as (id & Ei%ok_or_Ok & E). apply bind_Ok in E as (i & Ec%map_err_Ok & E).
  apply bind_Ok in E as (v & Ev%map_err_Ok & [= <-]). cbn. split.
  - rewrite Ei. f_equal. unfold ulid_new in Ec. apply bind_Ok in Ec as (p & _ & Ec). apply unless_Ok in Ec as [_ [= <-]]. done.
  - unfold version_new in Ev. apply unless_Ok in Ev as [_ [= <-]]. done.
Qed.

Lemma canonical_v2_Ok input w h t : canonical_v2_coupon_tax_treatment input w h = Ok t -> v2_treatment input h t /\ wf_treatment t.
Proof.
  unfold canonical_v2_coupon_tax_treatment. intros E. apply unless_Ok in E as [_ E]. apply bind_Ok in E as (vat & Ev & E).
  apply bind_Ok in E as (income & Ein & E). apply bind_Ok in E as (unit & Eu & E). apply unless_Ok in E as [Hu E].
  apply bind_Ok in E as (u & Ep & E). apply bind_Ok in E as (v & _ & E). apply bind_Ok in E as (i & _ & E).
  apply bind_Ok in E as (attributes & Ea%ok_or_Ok & E). rewrite !orb_false_iff, !negb_false_iff, !bool_decide_eq_true, Z.eqb_eq in Hu.
  destruct Hu as [[_ Hid] Hver]. apply parse_unit_Ok in Ep as [Hpi Hpv].
  destruct (if ltb _ _ then _ else _) as [expected_attributes expected_vat] eqn:Ex. apply unless_Ok in E as [Hx E].
  rewrite !orb_false_iff, !negb_false_iff, !bool_decide_eq_true in Hx. destruct Hx as [[-> ->] ->].
  apply bind_Ok in E as (semantic & Es%map_err_Ok & E). apply unless_Ok in E as [Hs E]. apply negb_false_iff, bool_decide_eq_true in Hs. subst semantic.
  pose proof (vat_included_wf _ _ _ _ _ E) as [Hw _]. split; [|done]. apply vat_included_Ok in E as (_ & _ & ->). split; cbn.
  - rewrite Ea. unfold v2_attributes. destruct (ltb _ _); by injection Ex as <- _.
  - split; [|done]. unfold v2_rate. destruct (ltb _ _); by injection Ex as _ <-.
  - rewrite Hpi in Hid. injection Hid as <-. by rewrite <- Hpv.
  - done.
  - done.
Qed.
End v2.

(** ** The result before and after tax *)

Section after_tax.
Context `{Chrono}.

(** The numbers of a result are 128 bits wide. *)
Definition machine_result (r : BondAnalyticsResult) : Prop := Forall (fun c => wf_fixed (cashflow_coupon c)) (cashflows r).

(** The input of the second calculation: the same bond at the price of the first one, with the coupon rate
    that pays the net coupon. *)
Definition repriced (input : BondAnalyticsInput) (pre : BondAnalyticsResult) (t : CouponTaxTreatment) (input' : BondAnalyticsInput) : Prop :=
  exists gross net rate,
    (forall c, c ∈ cashflows pre -> cashflow_coupon c = gross) /\ net_of t gross net /\ 0 <= scaled net <= scaled gross
    /\ is_round_half_even (scaled net * frequency_code (frequency (input_terms input)) * FIXED_DECIMAL_FACTOR)
         (scaled (face_amount (input_terms input))) (scaled rate)
    /\ with_coupon_rate (input_terms input) rate = Ok (input_terms input')
    /\ with_terms_and_price_in input (input_terms input') (clean_price (measures pre)) = Ok input'.

(** A cash flow after tax. *)
Definition net_cashflow (t : CouponTaxTreatment) (units : UnitBindings) (gross : DerivedCashflow) (net : WireCashflow) : Prop :=
  exists coupon total, net_of t (cashflow_coupon gross) coupon /\ 0 <= scaled coupon <= scaled (cashflow_coupon gross)
    /\ scaled total = scaled coupon + scaled (cashflow_principal gross) /\ net = wire_cashflow units gross coupon total.

Lemma tax_adjusted_cashflows_Ok pre units t l : wf_treatment t -> machine_result pre -> tax_adjusted_cashflows pre units t = Ok l ->
  Forall2 (net_cashflow t units) (cashflows pre) l.
Proof.
  intros Ht Hm E. apply try_map_Ok in E. unfold machine_result in Hm. induction E as [|c w cs ws Hc _ IH]; [constructor|].
  apply Forall_cons in Hm as [Hw Hm]. constructor; [|by apply IH]. apply bind_Ok in Hc as (coupon & Ec & Hc).
  apply bind_Ok in Hc as (total & Et%map_err_Ok & [= <-]). apply checked_add_Ok in Et as [_ Et]. apply adjust_coupon_spec in Ec as (Hg & _ & Hn); [|done..].
  exists coupon, total. split; [done|]. split; [by apply (net_of_range t)|]. done.
Qed.

Lemma tax_adjusted_coupon_rate_Ok input pre t rate : wf_treatment t -> machine_result pre -> wf_fixed (face_amount (input_terms input)) ->
  tax_adjusted_coupon_rate input pre t = Ok rate ->
  exists gross net, (forall c, c ∈ cashflows pre -> cashflow_coupon c = gross) /\ net_of t gross net /\ 0 <= scaled net <= scaled gross
    /\ is_round_half_even (scaled net * frequency_code (frequency (input_terms input)) * FIXED_DECIMAL_FACTOR)
         (scaled (face_amount (input_terms input))) (scaled rate).
Proof.
  intros Ht Hm Hface E. unfold tax_adjusted_coupon_rate in E. apply bind_Ok in E as (gross & Eg%ok_or_Ok & E). apply unless_Ok in E as [Hall E].
  apply bind_Ok in E as (net & En & E). apply (proj1 (map_err_Ok _ _ _)) in E. apply bind_Ok in E as (product & Ep & E).
  unfold machine_result in Hm. destruct (cashflows pre) as [|c cs] eqn:Ecs; [done|]. cbn in Eg. injection Eg as Eg.
  assert (Hg : wf_fixed gross) by (subst gross; by apply Forall_cons in Hm as [? _]).
  apply adjust_coupon_spec in En as (Hpos & _ & Hn); [|done..]. exists gross, net. split.
  - intros c' Hc'. apply not_true_iff_false in Hall. destruct (decide (cashflow_coupon c' = gross)) as [|Hne]; [done|]. exfalso. apply Hall.
    apply existsb_exists. exists c'. split; [by apply list_elem_of_In|]. by rewrite bool_decide_eq_false_2.
  - split; [done|]. split; [by apply (net_of_range t)|]. unfold checked_mul_integer in Ep. apply fixed_of_option_Ok in Ep.
    unfold i128_checked_mul in Ep. apply checked_Some in Ep as [Hr Ep]. rewrite <- Ep. apply checked_div_Ok in E as [_ E]; [done| |done].
    unfold wf_fixed. by rewrite Ep.
Qed.

End after_tax.

(** ** A concrete input *)

Definition wire_tax_unit : WireUnitRef := {| wire_unit_id := Some RATE_UNIT_ID; wire_unit_version := 1 |}.
Definition wire_tax (coefficient : string) (scale : Z) : option WireDecimal :=
  Some {| wire_coefficient := coefficient; wire_scale := scale; wire_unit := Some wire_tax_unit |}.
Definition sample_wire_treatment : SubjectCouponTaxTreatment := {|
  treatment_vat_profile := VAT_PROFILE; treatment_income_profile := INCOME_PROFILE; wire_vat_rate := wire_tax "6" 2;
  wire_income_rate := wire_tax "0" 0; wire_gross_basis := 1; wire_rounding := 1; wire_claim_scope := 1 |}.

Definition sample_object (name : string) : AnalyticsObjectRef := {| object_ref := sample_vref name; object_hash := sample_hash x21 |}.
Definition sample_terms (attributes : option BondTaxAttributes) : BondTerms := {|
  first_issue_date := sample_date 2025 9 1; current_issue_date := sample_date 2025 9 1; maturity_date := sample_date 2028 9 1;
  frequency := Annual; day_count := ActActBondIsma; business_day := Following; coupon_rate := from_scaled 21200000000;
  face_amount := from_scaled 100000000000000; cumulative_issued_amount := from_scaled 100000000000000; tax_attributes := attributes |}.
Definition sample_calendar : CalendarBinding := {|
  binding_calendar_id := ulid_str (sample_id "C"); binding_calendar_version := mk_version 1; binding_calendar_hash := sample_hash x22;
  coverage_start := sample_date 2025 1 1; coverage_end := sample_date 2030 1 1; non_business_days := [sample_date 2026 1 1; sample_date 2026 1 2];
  work_weekends := [sample_date 2026 1 4] |}.
Definition sample_valuation : MarketTime := {|
  instant := {| timestamp := 1767571200; timestamp_subsec_nanos := 0 |}; market_timezone := MARKET_TIMEZONE;
  local_trading_date := sample_date 2026 1 5 |}.
Definition sample_bond_input : BondAnalyticsInput := {|
  input_owner := sample_owner; input_bond := sample_object "B"; input_rule_pack := sample_object "P"; input_snapshot := sample_object "S";
  input_valuation_at := sample_valuation; settlement_date := sample_date 2026 1 6; calendar_requirement := ExactMarket;
  input_calendar := sample_calendar; input_terms := sample_terms (Some TAXABLE_BOND); input_mode := YieldIn;
  input_value := from_scaled 20000000000 |}.
