(* ===== verification/RatesEvidence.v ===== *)
(** * The evidence of a rates request

    The evidence part of [crates/ficant-application/src/use_cases/rates_materialization.rs]: which inputs a
    request consumed, in which order they are written down, the digest of its parameters and the fingerprint
    of the request ([RatesRequestEvidence]). *)

From Stdlib Require Import ZArith Lia Strings.String.
From Stdlib Require Import Strings.Byte.
From stdpp Require Import base list option strings numbers sorting.
From S2P Require Import Prelude Machine Collections Primitives FixedDecimal Codec Concrete AppErrors BondAnalytics Wire CouponTax RatesBond.
Open Scope Z_scope.

(** ** Evidence of one input *)

Inductive RatesInputRole :=
| RoleSubject | RoleUnit | RoleBond | RoleCalendar | RoleCurveSnapshot | RoleDataSnapshot | RoleDataSource | RoleTaxRulePack
| RoleFundingRulePack | RoleDeliveryRulePack | RoleFuturesContract | RoleTargetRiskArtifact | RoleDeliveryArtifact
| RoleCtdAnalyticsArtifact | RoleCurveRulePack | RoleCurveNodeDefinition.

Definition role_code (role : RatesInputRole) : Z :=
  match role with
  | RoleSubject => 1 | RoleUnit => 2 | RoleBond => 3 | RoleCalendar => 4 | RoleCurveSnapshot => 5 | RoleDataSnapshot => 6
  | RoleDataSource => 7 | RoleTaxRulePack => 8 | RoleFundingRulePack => 9 | RoleDeliveryRulePack => 10 | RoleFuturesContract => 11
  | RoleTargetRiskArtifact => 12 | RoleDeliveryArtifact => 13 | RoleCtdAnalyticsArtifact => 14 | RoleCurveRulePack => 15
  | RoleCurveNodeDefinition => 16
  end.

#[export] Instance RatesInputRole_eq_dec : EqDecision RatesInputRole.
Proof. solve_decision. Defined.

Record ImmutableSnapshotBinding := { immutable_snapshot_id : Ulid; immutable_snapshot_hash : ContentHash }.
Record ImmutableArtifactBinding := { immutable_artifact_id : Ulid; immutable_artifact_hash : ContentHash }.
Record ImmutableCurveNodeBinding := { immutable_curve_node_id : string; immutable_curve_node_hash : ContentHash }.

Inductive RatesEvidenceBinding :=
| EvidenceObject (binding : AnalyticsObjectRef)
| EvidenceSnapshot (binding : ImmutableSnapshotBinding)
| EvidenceArtifact (binding : ImmutableArtifactBinding)
| EvidenceCurveNode (binding : ImmutableCurveNodeBinding).

#[export] Instance ImmutableSnapshotBinding_eq_dec : EqDecision ImmutableSnapshotBinding.
Proof. solve_decision. Defined.
#[export] Instance ImmutableArtifactBinding_eq_dec : EqDecision ImmutableArtifactBinding.
Proof. solve_decision. Defined.
#[export] Instance ImmutableCurveNodeBinding_eq_dec : EqDecision ImmutableCurveNodeBinding.
Proof. solve_decision. Defined.
#[export] Instance RatesEvidenceBinding_eq_dec : EqDecision RatesEvidenceBinding.
Proof. solve_decision. Defined.

Record RatesInputEvidence := {
  evidence_role : RatesInputRole;
  evidence_owner : OwnerRef;
  evidence_binding : RatesEvidenceBinding;
  observed_at : option MarketTime;
  visible_at : option MarketTime;
  effective_from : option MarketTime;
  effective_to : option MarketTime
}.

#[export] Instance RatesInputEvidence_eq_dec : EqDecision RatesInputEvidence.
Proof. solve_decision. Defined.

Record RatesRequestEvidence := {
  consumed_inputs : list RatesInputEvidence;
  canonical_parameters_sha256 : ContentHash;
  request_fingerprint : ContentHash
}.

(** ** Order and identity *)

Definition evidence_key (value : RatesEvidenceBinding) : Z * (string * (Z * list byte)) :=
  match value with
  | EvidenceObject value =>
      (1, (ulid_str (vr_id (object_ref value)), (version_get (vr_version (object_ref value)), hash_bytes (object_hash value))))
  | EvidenceSnapshot value => (2, (ulid_str (immutable_snapshot_id value), (0, hash_bytes (immutable_snapshot_hash value))))
  | EvidenceArtifact value => (3, (ulid_str (immutable_artifact_id value), (0, hash_bytes (immutable_artifact_hash value))))
  | EvidenceCurveNode value => (4, (immutable_curve_node_id value, (0, hash_bytes (immutable_curve_node_hash value))))
  end.

(** [compare_evidence] compares these in turn. *)
Definition evidence_order (value : RatesInputEvidence) : Z * ((Z * (string * (Z * list byte))) * (Ulid * Ulid)) :=
  (role_code (evidence_role value), (evidence_key (evidence_binding value), (tenant_id (evidence_owner value), owner_id (evidence_owner value)))).

Definition same_evidence_identity (left right : RatesInputEvidence) : bool :=
  if negb (bool_decide (evidence_role left = evidence_role right)) || negb (bool_decide (evidence_owner left = evidence_owner right)) then false else
  match evidence_binding left, evidence_binding right with
  | EvidenceObject l, EvidenceObject r => bool_decide (object_ref l = object_ref r)
  | EvidenceSnapshot l, EvidenceSnapshot r => bool_decide (immutable_snapshot_id l = immutable_snapshot_id r)
  | EvidenceArtifact l, EvidenceArtifact r => bool_decide (immutable_artifact_id l = immutable_artifact_id r)
  | EvidenceCurveNode l, EvidenceCurveNode r => bool_decide (immutable_curve_node_id l = immutable_curve_node_id r)
  | _, _ => false
  end.

(** Each input against those after it. *)
Fixpoint repeated_identity (inputs : list RatesInputEvidence) : bool :=
  match inputs with
  | [] => false
  | input :: rest => existsb (same_evidence_identity input) rest || repeated_identity rest
  end.

(** ** Bytes *)

Section evidence.
Context `{Sha256} `{Chrono}.

Definition optional_time_fields (value : option MarketTime) : list (list byte) :=
  match value with Some value => [to_be_bytes 1 1] ++ market_time_fields value | None => [to_be_bytes 1 0] end.

Definition binding_fields (value : RatesEvidenceBinding) : list (list byte) :=
  match value with
  | EvidenceObject binding =>
      [to_be_bytes 1 1] ++ version_ref_fields (object_ref binding) ++ [hash_bytes (object_hash binding)]
  | EvidenceSnapshot binding =>
      [to_be_bytes 1 2; as_bytes (ulid_str (immutable_snapshot_id binding)); hash_bytes (immutable_snapshot_hash binding)]
  | EvidenceArtifact binding =>
      [to_be_bytes 1 3; as_bytes (ulid_str (immutable_artifact_id binding)); hash_bytes (immutable_artifact_hash binding)]
  | EvidenceCurveNode binding =>
      [to_be_bytes 1 4; as_bytes (immutable_curve_node_id binding); hash_bytes (immutable_curve_node_hash binding)]
  end.

(** [append_evidence]. *)
Definition evidence_fields (value : RatesInputEvidence) : list (list byte) :=
  [to_be_bytes 1 (role_code (evidence_role value))] ++ owner_fields (evidence_owner value) ++ binding_fields (evidence_binding value)
  ++ optional_time_fields (observed_at value) ++ optional_time_fields (visible_at value)
  ++ optional_time_fields (effective_from value) ++ optional_time_fields (effective_to value).

Definition fingerprint_fields (parameters : ContentHash) (inputs : list RatesInputEvidence) : list (list byte) :=
  [as_bytes "ficant.rates.request-fingerprint.v1"; hash_bytes parameters] ++ flat_map evidence_fields inputs.

Definition request_evidence_new (consumed_inputs : list RatesInputEvidence) (parameters : list byte) : AppResult RatesRequestEvidence :=
  let consumed_inputs := sort_by_key evidence_order consumed_inputs in
  if repeated_identity consumed_inputs then Err lineage_incomplete
  else Ok {| consumed_inputs := consumed_inputs; canonical_parameters_sha256 := digest parameters;
             request_fingerprint := digest (framed (fingerprint_fields (digest parameters) consumed_inputs)) |}.

(** [parameter_prefix]. *)
Definition parameter_prefix (kind : string) (knowledge_at valuation_at : MarketTime) (algorithm_id : string) (algorithm_version : Z)
    (convention_profile : string) : list (list byte) :=
  [as_bytes "ficant.rates.parameters.v1"; as_bytes kind; as_bytes algorithm_id; to_be_bytes 4 algorithm_version;
   as_bytes convention_profile; to_be_bytes 4 ABI_VERSION] ++ market_time_fields knowledge_at ++ market_time_fields valuation_at.

Definition dates_fields (dates : list NaiveDate) : list (list byte) :=
  to_be_bytes 8 (Z.of_nat (List.length dates)) :: map (fun date => as_bytes (date_to_string date)) dates.

Definition object_ref_fields (reference : AnalyticsObjectRef) : list (list byte) :=
  version_ref_fields (object_ref reference) ++ [hash_bytes (object_hash reference)].

(** The discriminants of enums without explicit ones. *)
Definition vat_code (status : ValueAddedTaxStatus) : Z := match status with VatExempt => 0 | VatTaxable => 1 end.
Definition income_code (status : IncomeTaxStatus) : Z := match status with IncomeExempt => 0 | IncomeTaxable => 1 end.

Definition calendar_fields (calendar : CalendarBinding) : list (list byte) :=
  [as_bytes (binding_calendar_id calendar); to_be_bytes 8 (version_get (binding_calendar_version calendar));
   hash_bytes (binding_calendar_hash calendar); as_bytes (date_to_string (coverage_start calendar));
   as_bytes (date_to_string (coverage_end calendar))]
  ++ dates_fields (non_business_days calendar) ++ dates_fields (work_weekends calendar).

Definition terms_fields (terms : BondTerms) : list (list byte) :=
  [as_bytes (date_to_string (first_issue_date terms)); as_bytes (date_to_string (current_issue_date terms));
   as_bytes (date_to_string (maturity_date terms)); to_be_bytes 1 (frequency_code (frequency terms));
   to_be_bytes 1 (day_count_code (day_count terms)); to_be_bytes 1 (business_day_code (business_day terms));
   to_be_bytes 16 (scaled (coupon_rate terms)); to_be_bytes 16 (scaled (face_amount terms));
   to_be_bytes 16 (scaled (cumulative_issued_amount terms))]
  ++ match tax_attributes terms with
     | Some tax => [to_be_bytes 1 1; to_be_bytes 1 (vat_code (value_added_tax_status tax)); to_be_bytes 1 (income_code (income_tax_status tax))]
     | None => [to_be_bytes 1 0]
     end.

(** [append_bond_materialization]. *)
Definition bond_materialization_fields (input : BondAnalyticsInput) : list (list byte) :=
  owner_fields (input_owner input) ++ object_ref_fields (input_bond input) ++ object_ref_fields (input_rule_pack input)
  ++ object_ref_fields (input_snapshot input)
  ++ [as_bytes (date_to_string (settlement_date input)); to_be_bytes 1 (requirement_code (calendar_requirement input))]
  ++ calendar_fields (input_calendar input) ++ terms_fields (input_terms input)
  ++ [to_be_bytes 1 (mode_code (input_mode input)); to_be_bytes 16 (scaled (input_value input))].

Definition bond_parameter_fields (knowledge_at : MarketTime) (input : BondAnalyticsInput) (treatment : CouponTaxTreatment) : list (list byte) :=
  parameter_prefix "bond" knowledge_at (input_valuation_at input) ALGORITHM_ID ALGORITHM_VERSION CONVENTION_PROFILE
  ++ bond_materialization_fields input ++ [fingerprint_bytes treatment].

(** [RatesRequestEvidence::bond]. *)
Definition request_evidence_bond (consumed_inputs : list RatesInputEvidence) (knowledge_at : MarketTime) (input : BondAnalyticsInput)
    (treatment : CouponTaxTreatment) : AppResult RatesRequestEvidence :=
  request_evidence_new consumed_inputs (framed (bond_parameter_fields knowledge_at input treatment)).
End evidence.

(** ** Fields are read back *)

(** What follows the fields of a value never changes how they are read. *)
Definition delimited {A} (P : A -> Prop) (f : A -> list (list byte)) : Prop :=
  forall a b r s, P a -> P b -> f a ++ r = f b ++ s -> a = b /\ r = s.

Lemma delimited_fixed {A} (P : A -> Prop) (f : A -> list (list byte)) n :
  (forall a, List.length (f a) = n) -> (forall a b, P a -> P b -> f a = f b -> a = b) -> delimited P f.
Proof. intros Hn Hi a b r s Ha Hb E. apply app_inj_1 in E as [E Er]; [|by rewrite !Hn]. split; [by apply Hi|done]. Qed.

Lemma delimited_flat_map {A} (P : A -> Prop) (f : A -> list (list byte)) l m :
  delimited P f -> (forall a, f a <> []) -> Forall P l -> Forall P m -> flat_map f l = flat_map f m -> l = m.
Proof.
  intros Hf Hne Hl. revert m. induction Hl as [|a l Ha Hl IH]; intros m Hm E.
  - destruct m as [|b m]; [done|]. cbn in E. symmetry in E. apply app_nil in E as [E _]. by destruct (Hne b).
  - destruct Hm as [|b m Hb Hm]; [cbn in E; apply app_nil in E as [E _]; by destruct (Hne a)|].
    cbn in E. apply Hf in E as [-> E]; [|done..]. f_equal. by apply IH.
Qed.

(** One byte holds a code. *)
Lemma byte_code_inj a b : 0 <= a < 256 -> 0 <= b < 256 -> to_be_bytes 1 a = to_be_bytes 1 b -> a = b.
Proof. intros Ha Hb. apply (to_be_bytes_inj 1 0); cbn; lia. Qed.

(** Takes the first fields off both sides of an equation, with the lemma that reads them. *)
Ltac read_off lem E := rewrite <- ?(assoc_L (++)) in E; apply lem in E; [let F := fresh "F" in destruct E as [F E]|..].
Ltac field_off E := let F := fresh "F" in cbn [app] in E; injection E as F E.

Section identity.
Context `{UlidCrate} `{Sha256} `{ChronoLaws} `{!ChronoShort}.

(** ** Order *)

Lemma role_code_inj r s : role_code r = role_code s -> r = s.
Proof. by destruct r, s. Qed.

Lemma evidence_key_inj b c : evidence_key b = evidence_key c -> b = c.
Proof.
  destruct b as [[[i v] h]|[i h]|[i h]|[i h]], c as [[[j w] k]|[j k]|[j k]|[j k]]; cbn; intros E; try discriminate E; injection E; intros;
    repeat match goal with x : Ulid |- _ => destruct x | x : Version |- _ => destruct x | x : ContentHash |- _ => destruct x end; cbn in *; by subst.
Qed.

(** Only the times do not take part in the order. *)
Lemma evidence_order_inj a b : evidence_order a = evidence_order b ->
  evidence_role a = evidence_role b /\ evidence_binding a = evidence_binding b /\ evidence_owner a = evidence_owner b.
Proof.
  unfold evidence_order. intros [= Hr Hb Ht Ho]. apply role_code_inj in Hr. apply evidence_key_inj in Hb.
  split; [done|]. split; [done|]. destruct (evidence_owner a), (evidence_owner b). cbn in *. by subst.
Qed.

Lemma same_identity_refl a b : evidence_role a = evidence_role b -> evidence_binding a = evidence_binding b -> evidence_owner a = evidence_owner b ->
  same_evidence_identity a b = true.
Proof.
  intros Hr Hb Ho. unfold same_evidence_identity. rewrite Hr, Hb, Ho, !bool_decide_eq_true_2 by done. cbn [negb orb].
  destruct (evidence_binding b); by apply bool_decide_eq_true.
Qed.

Lemma same_identity_sym a b : same_evidence_identity a b = same_evidence_identity b a.
Proof.
  unfold same_evidence_identity. rewrite (bool_decide_ext (evidence_role a = evidence_role b) (evidence_role b = evidence_role a)) by done.
  rewrite (bool_decide_ext (evidence_owner a = evidence_owner b) (evidence_owner b = evidence_owner a)) by done.
  destruct (negb _ || negb _); [done|]. destruct (evidence_binding a), (evidence_binding b); try done; by apply bool_decide_ext.
Qed.

(** Two places of the list hold inputs of one identity. *)
Lemma repeated_iff l : repeated_identity l = true <->
  exists before a between b after, l = before ++ a :: between ++ b :: after /\ same_evidence_identity a b = true.
Proof.
  induction l as [|x l IH]; [split; [done|]; intros ([|? ?] & ? & ? & ? & ? & ? & ?); discriminate|]. cbn [repeated_identity].
  rewrite orb_true_iff, IH, existsb_exists. split.
  - intros [(b & (between & after & ->)%list_elem_of_In%list_elem_of_split & Hs)|(before & a & between & b & after & -> & Hs)].
    + by exists [], x, between, b, after.
    + by exists (x :: before), a, between, b, after.
  - intros ([|y before] & a & between & b & after & E & Hs); injection E as -> ->.
    + left. exists b. split; [|done]. apply in_or_app. right. by left.
    + right. by exists before, a, between, b, after.
Qed.

Lemma repeated_perm l m : l ≡ₚ m -> repeated_identity l = repeated_identity m.
Proof.
  induction 1 as [|x l m Hp IH|x y l|l m k _ IH1 _ IH2]; [done|..|congruence]; cbn [repeated_identity].
  - rewrite IH. f_equal. apply eq_true_iff_eq. rewrite !existsb_exists. setoid_rewrite <- list_elem_of_In. by setoid_rewrite Hp.
  - cbn [existsb]. rewrite (same_identity_sym y x). destruct (same_evidence_identity x y), (existsb _ l), (existsb _ l), (repeated_identity l); done.
Qed.

Lemma evidence_sort_perm l : sort_by_key evidence_order l ≡ₚ l.
Proof. unfold sort_by_key. apply sort_by_perm. Qed.

(** Without a repeated identity the sorted list is the only one. *)
Lemma evidence_sorted_perm l m : l ≡ₚ m -> repeated_identity l = false -> sort_by_key evidence_order l = sort_by_key evidence_order m.
Proof.
  intros Hp Hr.
  destruct (canonical_sort_perm evidence_order (fun a b => bool_decide (evidence_order a = evidence_order b)) l m) as [_ Hs];
    [intros; apply bool_decide_eq_true|done|].
  apply Hs, windows2_any_false. intros i a b Ha Hb. apply bool_decide_eq_false. intros (Eq1 & Eq2 & Eq3)%evidence_order_inj.
  assert (Ht : repeated_identity (sort_by_key evidence_order l) = true).
  { apply repeated_iff. exists (take i (sort_by_key evidence_order l)), a, [], b, (drop (S (S i)) (sort_by_key evidence_order l)).
    split; [|by apply same_identity_refl]. rewrite <- (take_drop_middle _ i a Ha) at 1. f_equal. f_equal. cbn. by apply drop_S. }
  rewrite (repeated_perm _ l) in Ht; [congruence|]. apply evidence_sort_perm.
Qed.

Lemma request_evidence_perm l m p : l ≡ₚ m -> request_evidence_new l p = request_evidence_new m p.
Proof.
  intros Hp. unfold request_evidence_new.
  assert (Hl : forall k, repeated_identity (sort_by_key evidence_order k) = repeated_identity k)
    by (intros k; apply repeated_perm, evidence_sort_perm).
  rewrite !Hl, (repeated_perm l m Hp). destruct (repeated_identity m) eqn:E; [done|].
  rewrite (evidence_sorted_perm l m Hp); [done|]. by rewrite (repeated_perm l m Hp).
Qed.

(** ** Identity *)

Definition wf_object (r : AnalyticsObjectRef) : Prop := wf_vref (object_ref r) /\ wf_hash (object_hash r).

Definition wf_binding (b : RatesEvidenceBinding) : Prop :=
  match b with
  | EvidenceObject b => wf_object b
  | EvidenceSnapshot b => wf_ulid (immutable_snapshot_id b) /\ wf_hash (immutable_snapshot_hash b)
  | EvidenceArtifact b => wf_ulid (immutable_artifact_id b) /\ wf_hash (immutable_artifact_hash b)
  | EvidenceCurveNode b => wf_str (immutable_curve_node_id b) /\ wf_hash (immutable_curve_node_hash b)
  end.

Definition wf_optional_time : option MarketTime -> Prop := from_option wf_time True.

Record wf_evidence (e : RatesInputEvidence) : Prop := {
  wf_evidence_owner : wf_owner (evidence_owner e);
  wf_evidence_binding : wf_binding (evidence_binding e);
  wf_evidence_times : wf_optional_time (observed_at e) /\ wf_optional_time (visible_at e)
    /\ wf_optional_time (effective_from e) /\ wf_optional_time (effective_to e)
}.

Lemma delimited_object_ref : delimited wf_object object_ref_fields.
Proof.
  apply (delimited_fixed _ _ 3); [done|]. intros [r h] [s k] [Hr _] [Hs _] E. unfold object_ref_fields in E. cbn [object_ref object_hash] in *.
  apply app_inj_1 in E as [E Eh]; [|done]. apply version_ref_fields_inj in E; [|done..]. injection Eh as Eh%hash_eq. congruence.
Qed.

Lemma delimited_optional_time : delimited wf_optional_time optional_time_fields.
Proof.
  intros [t|] [u|] r s Ht Hu E; cbn [optional_time_fields] in E; rewrite <- ?(assoc_L (++)) in E; cbn [app] in E;
    apply field_cons_inj in E as [Ec E]; try (by vm_compute in Ec).
  apply (delimited_fixed wf_time market_time_fields 4) in E as [-> ->]; [done|done|exact market_time_fields_inj|exact Ht|exact Hu].
Qed.

(** A name and a hash. *)
Lemma named_fields_inj (i j : list byte) h k r s : [i; hash_bytes h] ++ r = [j; hash_bytes k] ++ s -> i = j /\ h = k /\ r = s.
Proof. cbn [app]. intros [-> E]%field_cons_inj. by apply field_cons_inj in E as [->%hash_eq ->]. Qed.

Lemma delimited_binding : delimited wf_binding binding_fields.
Proof.
  intros b c r s Hb Hc E. destruct b as [b|b|b|b], c as [c|c|c|c]; cbn [binding_fields] in E; rewrite <- ?(assoc_L (++)) in E;
    cbn [app] in E; apply field_cons_inj in E as [Ec E]; try (by vm_compute in Ec).
  - apply (delimited_object_ref b c r s) in E as [-> ->]; [done|exact Hb|exact Hc].
  - apply named_fields_inj in E as (Ei%ulid_bytes_inj & ? & ->). destruct b, c. cbn in *. by subst.
  - apply named_fields_inj in E as (Ei%ulid_bytes_inj & ? & ->). destruct b, c. cbn in *. by subst.
  - apply named_fields_inj in E as (Ei%as_bytes_inj & ? & ->). destruct b, c. cbn in *. by subst.
Qed.

Lemma delimited_owner : delimited (fun _ : OwnerRef => True) owner_fields.
Proof. apply (delimited_fixed _ _ 2); [done|]. intros a b _ _. apply owner_fields_inj. Qed.

Lemma role_code_range r : 0 <= role_code r < 256.
Proof. by destruct r. Qed.

Lemma delimited_evidence : delimited wf_evidence evidence_fields.
Proof.
  intros a b r s [_ Ba (Ta1 & Ta2 & Ta3 & Ta4)] [_ Bb (Tb1 & Tb2 & Tb3 & Tb4)] E. unfold evidence_fields in E.
  rewrite <- !(assoc_L (++)) in E. cbn [app] in E. apply field_cons_inj in E as [Er E].
  apply byte_code_inj in Er; [|apply role_code_range..]. apply role_code_inj in Er.
  apply delimited_owner in E as [Eo E]; [|done..]. apply delimited_binding in E as [Eb E]; [|done..].
  do 4 (apply delimited_optional_time in E as [? E]; [|done..]).
  split; [|done]. destruct a, b. cbn in *. by subst.
Qed.

(** *** Parameters *)

Definition wf_days (ds : list NaiveDate) : Prop := Forall wf_date ds /\ Z.of_nat (List.length ds) < 2 ^ 64.

Record wf_parameters (i : BondAnalyticsInput) : Prop := {
  wf_parameter_owner : wf_owner (input_owner i);
  wf_parameter_refs : wf_object (input_bond i) /\ wf_object (input_rule_pack i) /\ wf_object (input_snapshot i);
  wf_parameter_time : wf_time (input_valuation_at i) /\ wf_date (settlement_date i);
  wf_parameter_calendar : wf_str (binding_calendar_id (input_calendar i)) /\ wf_version (binding_calendar_version (input_calendar i))
    /\ wf_hash (binding_calendar_hash (input_calendar i)) /\ wf_date (coverage_start (input_calendar i)) /\ wf_date (coverage_end (input_calendar i))
    /\ wf_days (non_business_days (input_calendar i)) /\ wf_days (work_weekends (input_calendar i));
  wf_parameter_terms : wf_date (first_issue_date (input_terms i)) /\ wf_date (current_issue_date (input_terms i))
    /\ wf_date (maturity_date (input_terms i)) /\ wf_fixed (coupon_rate (input_terms i)) /\ wf_fixed (face_amount (input_terms i))
    /\ wf_fixed (cumulative_issued_amount (input_terms i));
  wf_parameter_value : wf_fixed (input_value i)
}.

Definition wf_treatment_fields (t : CouponTaxTreatment) : Prop :=
  wf_fixed (value_added_tax_rate t) /\ wf_fixed (income_tax_rate t) /\ wf_unit (treatment_unit t)
  /\ from_option wf_hash True (authority_semantic_hash t).

Lemma date_text_inj d e : wf_date d -> wf_date e -> as_bytes (date_to_string d) = as_bytes (date_to_string e) -> d = e.
Proof. intros Hd He E%as_bytes_inj. by apply date_to_string_inj. Qed.

Lemma fixed_bytes_inj x y : wf_fixed x -> wf_fixed y -> to_be_bytes 16 (scaled x) = to_be_bytes 16 (scaled y) -> x = y.
Proof. intros Hx Hy E%i128_be_inj; [|done..]. destruct x, y. cbn in E. by subst. Qed.

Lemma delimited_days : delimited wf_days dates_fields.
Proof.
  intros l m r s [Hl Nl] [Hm Nm] E. unfold dates_fields in E. cbn [app] in E. apply field_cons_inj in E as [En E].
  apply u64_be_inj in En; [|ranges; lia..]. apply app_inj_1 in E as [E Er]; [|rewrite !length_map; lia]. split; [|done].
  clear - E Hl Hm H2. revert m Hm E. induction Hl as [|d l Hd Hl IH]; intros [|e m] Hm E; try done. inversion_clear Hm. cbn in E.
  injection E as Ed E. f_equal; [by apply date_text_inj|by apply IH].
Qed.

(** Equal fields of equal shape, one by one. *)
Ltac fields_equal :=
  repeat match goal with
  | H : as_bytes (date_to_string _) = as_bytes (date_to_string _) |- _ => apply date_text_inj in H; [|assumption..]
  | H : to_be_bytes 16 (scaled _) = to_be_bytes 16 (scaled _) |- _ => apply fixed_bytes_inj in H; [|assumption..]
  | H : hash_bytes _ = hash_bytes _ |- _ => apply hash_eq in H
  | H : to_be_bytes 8 (version_get _) = to_be_bytes 8 (version_get _) |- _ => apply version_bytes_inj in H; [|assumption..]
  | H : as_bytes _ = as_bytes _ |- _ => apply as_bytes_inj in H
  end.

Lemma delimited_calendar c d r s :
  wf_version (binding_calendar_version c) -> wf_date (coverage_start c) -> wf_date (coverage_end c) -> wf_days (non_business_days c) ->
  wf_days (work_weekends c) ->
  wf_version (binding_calendar_version d) -> wf_date (coverage_start d) -> wf_date (coverage_end d) -> wf_days (non_business_days d) ->
  wf_days (work_weekends d) ->
  calendar_fields c ++ r = calendar_fields d ++ s -> c = d /\ r = s.
Proof.
  intros ? ? ? ? ? ? ? ? ? ? E. unfold calendar_fields in E. rewrite <- !(assoc_L (++)) in E. cbn [app] in E.
  do 5 (apply field_cons_inj in E as [? E]). do 2 (apply delimited_days in E as [? E]; [|done..]). fields_equal.
  split; [|done]. destruct c, d. cbn in *. by subst.
Qed.

Lemma frequency_code_inj a b : to_be_bytes 1 (frequency_code a) = to_be_bytes 1 (frequency_code b) -> a = b.
Proof. by destruct a, b. Qed.
Lemma requirement_code_inj a b : to_be_bytes 1 (requirement_code a) = to_be_bytes 1 (requirement_code b) -> a = b.
Proof. by destruct a, b. Qed.
Lemma mode_code_inj a b : to_be_bytes 1 (mode_code a) = to_be_bytes 1 (mode_code b) -> a = b.
Proof. by destruct a, b. Qed.
Lemma tax_fields_inj (a b : option BondTaxAttributes) r s :
  match a with Some tax => [to_be_bytes 1 1; to_be_bytes 1 (vat_code (value_added_tax_status tax)); to_be_bytes 1 (income_code (income_tax_status tax))]
  | None => [to_be_bytes 1 0] end ++ r
  = match b with Some tax => [to_be_bytes 1 1; to_be_bytes 1 (vat_code (value_added_tax_status tax)); to_be_bytes 1 (income_code (income_tax_status tax))]
    | None => [to_be_bytes 1 0] end ++ s -> a = b /\ r = s.
Proof. intros E. destruct a as [[[] []]|], b as [[[] []]|]; cbn [app] in E; (discriminate E || (injection E as E; by subst)). Qed.

Lemma delimited_terms t u r s :
  wf_date (first_issue_date t) -> wf_date (current_issue_date t) -> wf_date (maturity_date t) -> wf_fixed (coupon_rate t) ->
  wf_fixed (face_amount t) -> wf_fixed (cumulative_issued_amount t) ->
  wf_date (first_issue_date u) -> wf_date (current_issue_date u) -> wf_date (maturity_date u) -> wf_fixed (coupon_rate u) ->
  wf_fixed (face_amount u) -> wf_fixed (cumulative_issued_amount u) ->
  terms_fields t ++ r = terms_fields u ++ s -> t = u /\ r = s.
Proof.
  intros ? ? ? ? ? ? ? ? ? ? ? ? E. unfold terms_fields in E. rewrite <- !(assoc_L (++)) in E. cbn [app] in E.
  apply field_cons_inj in E as [? E]. apply field_cons_inj in E as [? E]. apply field_cons_inj in E as [? E].
  apply field_cons_inj in E as [Ef%frequency_code_inj E]. apply field_cons_inj in E as [_ E]. apply field_cons_inj in E as [_ E].
  do 3 (apply field_cons_inj in E as [? E]). apply tax_fields_inj in E as [Et E]. fields_equal.
  split; [|done]. destruct t as [? ? ? ? [] [] ? ? ? ?], u as [? ? ? ? [] [] ? ? ? ?]. cbn in *. by subst.
Qed.

Lemma delimited_bond_materialization i j r s : wf_parameters i -> wf_parameters j -> input_valuation_at i = input_valuation_at j ->
  bond_materialization_fields i ++ r = bond_materialization_fields j ++ s -> i = j /\ r = s.
Proof.
  intros [_ (? & ? & ?) (_ & ?) (_ & ? & _ & ? & ? & ? & ?) (? & ? & ? & ? & ? & ?) ?] [_ (? & ? & ?) (_ & ?) (_ & ? & _ & ? & ? & ? & ?) (? & ? & ? & ? & ? & ?) ?] Ev E.
  unfold bond_materialization_fields in E. rewrite <- !(assoc_L (++)) in E.
  apply delimited_owner in E as [Eo E]; [|done..]. do 3 (apply delimited_object_ref in E as [? E]; [|done..]).
  cbn [app] in E. apply field_cons_inj in E as [? E]. apply field_cons_inj in E as [Eq%requirement_code_inj E].
  apply delimited_calendar in E as [? E]; [|done..]. apply delimited_terms in E as [? E]; [|done..].
  cbn [app] in E. apply field_cons_inj in E as [Em%mode_code_inj E]. apply field_cons_inj in E as [? E]. fields_equal.
  split; [|done]. destruct i, j. cbn in *. by subst.
Qed.

Lemma treatment_bytes_inj t u : wf_treatment_fields t -> wf_treatment_fields u -> fingerprint_bytes t = fingerprint_bytes u -> t = u.
Proof.
  intros (? & ? & [? ?] & ?) (? & ? & [? ?] & ?) E. unfold fingerprint_bytes in E.
  apply app_inj_1 in E as [Ec E]; [|done]. apply app_inj_1 in E as [E1 E]; [|by rewrite !length_to_be_bytes].
  apply app_inj_1 in E as [E2 E]; [|by rewrite !length_to_be_bytes].
  apply app_inj_1 in E as [E3%ulid_bytes_inj E]; [|rewrite !length_as_bytes; by rewrite !wf_ulid_len].
  apply app_inj_1 in E as [E4 E]; [|by rewrite !length_to_be_bytes].
  apply optional_hash_inj in E; [|done..]. fields_equal.
  assert (Hc : gross_coupon_basis t = gross_coupon_basis u /\ treatment_rounding t = treatment_rounding u /\ claim_scope t = claim_scope u)
    by (destruct (gross_coupon_basis t), (gross_coupon_basis u), (treatment_rounding t), (treatment_rounding u), (claim_scope t), (claim_scope u);
        (by vm_compute in Ec) || done).
  destruct Hc as (? & ? & ?), t as [? ? [] ? ? ? ?], u as [? ? [] ? ? ? ?]. cbn in *. by subst.
Qed.

Lemma short_days ds : Forall short (dates_fields ds).
Proof.
  unfold dates_fields. apply List.Forall_cons; [apply short_be; lia|]. apply List.Forall_forall. intros x (d & <- & _)%in_map_iff.
  apply short_str, date_to_string_short.
Qed.

Lemma short_object_ref r : wf_object r -> Forall short (object_ref_fields r).
Proof. intros [Hr Hh]. unfold object_ref_fields. split_forall; [by apply short_vref|by apply short_hash]. Qed.

Lemma short_fingerprint t : wf_treatment_fields t -> short (fingerprint_bytes t).
Proof.
  intros (_ & _ & [Hu _] & Hh). unfold short, fingerprint_bytes. rewrite !length_app, !length_to_be_bytes, length_as_bytes, wf_ulid_len by done.
  destruct (authority_semantic_hash t) as [h|]; [unfold wf_hash in Hh; cbn in Hh; rewrite Hh|]; cbn; lia.
Qed.

Lemma short_date_text d : short (as_bytes (date_to_string d)).
Proof. apply short_str, date_to_string_short. Qed.

Lemma short_literal s : (String.length s <? 1000)%nat = true -> short (as_bytes s).
Proof. intros Hs%Nat.ltb_lt. unfold short. rewrite length_as_bytes. lia. Qed.

Ltac short_field :=
  lazymatch goal with
  | |- short (to_be_bytes _ _) => apply short_be; lia
  | |- short (as_bytes (date_to_string _)) => apply short_date_text
  | |- short (hash_bytes _) => apply short_hash; assumption
  | |- short (fingerprint_bytes _) => apply short_fingerprint; assumption
  | |- short (as_bytes (ulid_str _)) => apply short_ulid; assumption
  | |- short (as_bytes _) => first [apply short_str; assumption | apply short_literal; reflexivity]
  | |- Forall short (dates_fields _) => apply short_days
  | |- Forall short (market_time_fields _) => apply short_time; assumption
  | |- Forall short (owner_fields _) => apply short_owner; assumption
  | |- Forall short (version_ref_fields _) => apply short_vref; assumption
  | |- Forall short (object_ref_fields _) => apply short_object_ref; assumption
  end.

Lemma short_terms t : Forall short (terms_fields t).
Proof. unfold terms_fields. destruct (tax_attributes t); split_forall; short_field. Qed.

Lemma short_parameters k i t : wf_time k -> wf_parameters i -> wf_treatment_fields t -> Forall short (bond_parameter_fields k i t).
Proof.
  intros Hk [? (? & ? & ?) (? & _) (? & ? & ? & _) _ _] Ht. unfold bond_parameter_fields, parameter_prefix, bond_materialization_fields, calendar_fields.
  split_forall; try apply short_terms; short_field.
Qed.

Lemma bond_parameters_inj k i t k' i' t' :
  wf_time k -> wf_time k' -> wf_parameters i -> wf_parameters i' -> wf_treatment_fields t -> wf_treatment_fields t' ->
  bond_parameter_fields k i t = bond_parameter_fields k' i' t' -> k = k' /\ i = i' /\ t = t'.
Proof.
  intros Hk Hk' Hi Hi' Ht Ht' E. unfold bond_parameter_fields, parameter_prefix in E. rewrite <- !(assoc_L (++)) in E.
  apply app_inv_head in E. pose proof (wf_parameter_time _ Hi) as [Hv _]. pose proof (wf_parameter_time _ Hi') as [Hv' _].
  do 2 (apply (delimited_fixed wf_time market_time_fields 4) in E as [? E]; [|done|exact market_time_fields_inj|done..]).
  apply delimited_bond_materialization in E as [-> E]; [|done..]. apply field_cons_inj in E as [E%treatment_bytes_inj _]; done.
Qed.

Lemma short_optional_time o : wf_optional_time o -> Forall short (optional_time_fields o).
Proof. destruct o; cbn; intros; split_forall; short_field. Qed.

Lemma short_evidence_binding b : wf_binding b -> Forall short (binding_fields b).
Proof. destruct b; cbn [binding_fields wf_binding]; intros []; split_forall; short_field. Qed.

Lemma short_evidence e : wf_evidence e -> Forall short (evidence_fields e).
Proof.
  intros [? ? (? & ? & ? & ?)]. unfold evidence_fields. split_forall; try (by apply short_optional_time); try (by apply short_evidence_binding); short_field.
Qed.

Lemma evidence_fields_nonempty e : evidence_fields e <> [].
Proof. done. Qed.

(** A fingerprint is that of one list of inputs and one digest of parameters. *)
Lemma fingerprint_identifies p l q m : wf_hash p -> wf_hash q -> Forall wf_evidence l -> Forall wf_evidence m ->
  digest (framed (fingerprint_fields p l)) = digest (framed (fingerprint_fields q m)) ->
  (p = q /\ l = m) \/ collides (framed (fingerprint_fields p l)) (framed (fingerprint_fields q m)).
Proof.
  intros Hp Hq Hl Hm [E|]%digest_collides; [left|by right]. apply framed_inj in E.
  - injection E as Eh E. apply hash_eq in Eh. split; [done|].
    by apply (delimited_flat_map _ _ _ _ delimited_evidence evidence_fields_nonempty).
  - unfold fingerprint_fields. split_forall; [by apply short_literal|by apply short_hash|].
    by apply (Forall_flat_map_short _ _ _ short_evidence).
  - unfold fingerprint_fields. split_forall; [by apply short_literal|by apply short_hash|].
    by apply (Forall_flat_map_short _ _ _ short_evidence).
Qed.

Lemma request_evidence_new_Ok l p e : request_evidence_new l p = Ok e <->
  repeated_identity l = false
  /\ e = {| consumed_inputs := sort_by_key evidence_order l; canonical_parameters_sha256 := digest p;
            request_fingerprint := digest (framed (fingerprint_fields (digest p) (sort_by_key evidence_order l))) |}.
Proof.
  unfold request_evidence_new. rewrite (repeated_perm _ l) by apply evidence_sort_perm.
  rewrite unless_Ok, Ok_inj. split; intros [? ->]; done.
Qed.

Lemma bond_evidence_identifies l k i t e l' k' i' t' e' :
  Sha256Laws -> wf_time k -> wf_time k' -> wf_parameters i -> wf_parameters i' -> wf_treatment_fields t -> wf_treatment_fields t' ->
  Forall wf_evidence l -> Forall wf_evidence l' ->
  request_evidence_bond l k i t = Ok e -> request_evidence_bond l' k' i' t' = Ok e' -> request_fingerprint e = request_fingerprint e' ->
  (consumed_inputs e = consumed_inputs e' /\ l ≡ₚ l' /\ k = k' /\ i = i' /\ t = t')
  \/ collides (framed (bond_parameter_fields k i t)) (framed (bond_parameter_fields k' i' t'))
  \/ collides (framed (fingerprint_fields (canonical_parameters_sha256 e) (consumed_inputs e)))
              (framed (fingerprint_fields (canonical_parameters_sha256 e') (consumed_inputs e'))).
Proof.
  intros Hsha Hk Hk' Hi Hi' Ht Ht' Hl Hl' [_ ->]%request_evidence_new_Ok [_ ->]%request_evidence_new_Ok E. cbn [request_fingerprint consumed_inputs canonical_parameters_sha256] in *.
  apply fingerprint_identifies in E; [|apply wf_digest..| |].
  - destruct E as [[Ep El]|]; [|by right; right]. apply digest_collides in Ep as [Ep|]; [|by right; left]. left. split; [done|]. split.
    + by rewrite <- (evidence_sort_perm l), <- (evidence_sort_perm l'), El.
    + apply bond_parameters_inj; try done. apply framed_inj in Ep; [done|by apply short_parameters..].
  - by rewrite evidence_sort_perm.
  - by rewrite evidence_sort_perm.
Qed.
End identity.

(** C34. The fingerprint of a bond request identifies what the request was computed from: it does not depend on the
    order in which the inputs were collected; collecting fails exactly when two inputs have one role, owner,
    identity and version, whatever their hashes are (its documentation names the hash as well); and two requests
    with one fingerprint consumed the same inputs, at the same times, with the same instant of knowledge, the same
    materialized bond and the same coupon tax, or the two texts of their parameters, or of their inputs, that were
    hashed collide under SHA-256. *)
Theorem rates_fingerprint_identifies `{UlidCrate} `{Sha256Laws} `{ChronoLaws} `{!ChronoShort} l k i t l' k' i' t' :
  wf_time k -> wf_time k' -> wf_parameters i -> wf_parameters i' -> wf_treatment_fields t -> wf_treatment_fields t' ->
  Forall wf_evidence l -> Forall wf_evidence l' ->
  (l ≡ₚ l' -> request_evidence_bond l k i t = request_evidence_bond l' k i t)
  /\ ((exists e, request_evidence_bond l k i t = Err e) <-> repeated_identity l = true)
  /\ forall e e', request_evidence_bond l k i t = Ok e -> request_evidence_bond l' k' i' t' = Ok e' ->
       request_fingerprint e = request_fingerprint e' ->
       (consumed_inputs e = consumed_inputs e' /\ l ≡ₚ l' /\ k = k' /\ i = i' /\ t = t')
       \/ collides (framed (bond_parameter_fields k i t)) (framed (bond_parameter_fields k' i' t'))
       \/ collides (framed (fingerprint_fields (canonical_parameters_sha256 e) (consumed_inputs e)))
                   (framed (fingerprint_fields (canonical_parameters_sha256 e') (consumed_inputs e'))).
Proof.
  intros Hk Hk' Hi Hi' Ht Ht' Hl Hl'. split; [apply request_evidence_perm|]. split.
  - unfold request_evidence_bond. destruct (repeated_identity l) eqn:Er.
    + split; [done|]. intros _. destruct (request_evidence_new _ _) as [x|x] eqn:E; [|by exists x]. apply request_evidence_new_Ok in E as [E _]. congruence.
    + split; [|done]. intros [x E].
      pose proof (proj2 (request_evidence_new_Ok l (framed (bond_parameter_fields k i t)) _) (conj Er eq_refl)) as E'.
      rewrite E in E'. discriminate E'.
  - intros e e'. by apply bond_evidence_identifies.
Qed.

(** ** Concrete evidence *)

Section example.
Local Existing Instance sample_ulid_crate.
Local Existing Instance sample_sha256.
Local Existing Instance sample_sha256_laws.
Local Existing Instance sample_chrono.
Local Existing Instance sample_chrono_laws.
Local Existing Instance sample_chrono_short.

Definition sample_evidence (role : RatesInputRole) (name : string) (from : option MarketTime) : RatesInputEvidence := {|
  evidence_role := role; evidence_owner := sample_owner; evidence_binding := EvidenceObject (sample_object name);
  observed_at := None; visible_at := None; effective_from := from; effective_to := from |}.
Definition sample_inputs : list RatesInputEvidence :=
  [sample_evidence RoleBond "B" None; sample_evidence RoleTaxRulePack "P" (Some (sample_time 10)); sample_evidence RoleSubject "S" None].
Definition sample_tax : CouponTaxTreatment := {|
  value_added_tax_rate := from_scaled 60000000000; income_tax_rate := FixedDecimal.ZERO; treatment_unit := sample_unit;
  gross_coupon_basis := VatIncluded; treatment_rounding := TiesToEven; claim_scope := CouponOutputVatBeforeInputCredit;
  authority_semantic_hash := Some AUTHORITY_SEMANTIC_HASH |}.

Definition sample_request_evidence (inputs : list RatesInputEvidence) : AppResult RatesRequestEvidence :=
  request_evidence_bond inputs (sample_time 20) sample_bond_input sample_tax.

Example sample_evidence_order :
  (map evidence_role ∘ consumed_inputs) <$> (match sample_request_evidence sample_inputs with Ok e => Some e | Err _ => None end)
    = Some [RoleSubject; RoleBond; RoleTaxRulePack]
  /\ is_ok (sample_request_evidence (sample_evidence RoleBond "B" (Some (sample_time 1)) :: sample_inputs)) = false
  /\ is_ok (sample_request_evidence (sample_evidence RoleUnit "B" None :: sample_inputs)) = true.
Proof. vm_compute. done. Qed.

Lemma sample_wf_parameters : wf_parameters sample_bond_input.
Proof.
  split; repeat (split || apply List.Forall_cons || apply List.Forall_nil); try done; try (vm_compute; done); vm_compute; intuition discriminate.
Qed.

Lemma rates_fingerprint_identifies_witness :
  sample_request_evidence sample_inputs = sample_request_evidence (rev sample_inputs)
  /\ exists e, sample_request_evidence sample_inputs = Ok e.
Proof.
  assert (Hi : Forall wf_evidence sample_inputs).
  { repeat (apply List.Forall_cons || apply List.Forall_nil); split; cbn; repeat split; try done; vm_compute; intuition discriminate. }
  assert (Hr : Forall wf_evidence (rev sample_inputs)) by (apply List.Forall_rev; exact Hi).
  assert (Ht : wf_time (sample_time 20)) by (repeat split; try done; vm_compute; intuition discriminate).
  assert (Hx : wf_treatment_fields sample_tax) by (repeat split; try done; vm_compute; intuition discriminate).
  split.
  - apply (rates_fingerprint_identifies sample_inputs (sample_time 20) sample_bond_input sample_tax (rev sample_inputs) (sample_time 20)
      sample_bond_input sample_tax Ht Ht sample_wf_parameters sample_wf_parameters Hx Hx Hi Hr). apply Permutation_rev.
  - assert (V : is_ok (sample_request_evidence sample_inputs) = true) by (vm_compute; reflexivity). revert V.
    destruct (sample_request_evidence sample_inputs) as [e|]; [|discriminate]. intros _. exists e. reflexivity.
Defined.
End example.
