(* ===== verification/RatesProof.v ===== *)
(** * The proof behind a bond result

    The part of [crates/ficant-api/src/rates.rs] that joins a bond request to its materialized input: the
    parsers of the messages, the evidence of the consumed inputs, the metadata that is derived from it, and
    [materialized_bond_proof], which accepts a request only when both representations name the same facts. *)

From Stdlib Require Import ZArith Lia Strings.String.
From Stdlib Require Import Strings.Byte.
From stdpp Require Import base list option strings numbers sorting.
From S2P Require Import Prelude Machine Collections Primitives FixedDecimal Codec Concrete AppErrors Access BondAnalytics Wire CouponTax RatesBond RatesEvidence.
Open Scope Z_scope.

(** [DateTime::from_timestamp] and [FromStr] of [NaiveDate]. *)
Class ChronoParse : Type := {
  from_timestamp : Z -> Z -> option DateTime;
  parse_date : string -> option NaiveDate
}.

(** [prost]'s encoder of [AnalysisInputBinding]. *)
Class InputEncoder : Type := encode_input : WireInput -> list byte.

(** ** Parsers *)

Record ParsedContext := {
  parsed_owner : OwnerRef;
  parsed_units : UnitBindings;
  parsed_subject_ref : VersionRef;
  parsed_knowledge_at : MarketTime
}.

Definition bond_algorithm : AlgorithmBinding := {|
  wire_algorithm_id := ALGORITHM_ID; wire_algorithm_version := ALGORITHM_VERSION; wire_convention_profile := CONVENTION_PROFILE;
  wire_abi_version := ABI_VERSION |}.

(** [validate_algorithm] against the algorithm of bonds. *)
Definition validate_algorithm (value : option AlgorithmBinding) : AppResult unit :=
  value ← ok_or value invalid_value;
  fail_if (negb (bool_decide (wire_algorithm_id value = ALGORITHM_ID)) || negb (wire_algorithm_version value =? ALGORITHM_VERSION)
           || negb (bool_decide (wire_convention_profile value = CONVENTION_PROFILE)) || negb (wire_abi_version value =? ABI_VERSION))
    invalid_value.

Section parsers.
Context `{UlidCrate} `{Chrono} `{ChronoParse}.

Definition parse_ulid (value : option string) : AppResult Ulid :=
  value ← ok_or value invalid_value;
  map_err map_domain_error (ulid_new value).

Definition parse_hash (value : option (list byte)) : AppResult ContentHash :=
  value ← ok_or value invalid_value;
  map_err map_domain_error (hash_from_bytes value).

Definition parse_owner (value : option WireOwnerRef) : AppResult OwnerRef :=
  value ← ok_or value invalid_value;
  tenant ← parse_ulid (wire_tenant_id value);
  owner ← parse_ulid (wire_owner_id value);
  Ok {| tenant_id := tenant; owner_id := owner |}.

Definition parse_object (value : option ObjectBinding) : AppResult AnalyticsObjectRef :=
  value ← ok_or value invalid_value;
  object ← ok_or (bound_object value) invalid_value;
  id ← parse_ulid (wire_id object);
  version ← map_err map_domain_error (version_new (wire_version object));
  hash ← parse_hash (bound_hash value);
  Ok {| object_ref := {| vr_id := id; vr_version := version |}; object_hash := hash |}.

Definition parse_snapshot (value : option SnapshotBinding) : AppResult ImmutableSnapshotBinding :=
  value ← ok_or value invalid_value;
  id ← parse_ulid (bound_snapshot_id value);
  hash ← parse_hash (bound_snapshot_hash value);
  Ok {| immutable_snapshot_id := id; immutable_snapshot_hash := hash |}.

Definition parse_artifact (value : option ArtifactBinding) : AppResult ImmutableArtifactBinding :=
  value ← ok_or value invalid_value;
  id ← parse_ulid (bound_artifact_id value);
  hash ← parse_hash (bound_artifact_hash value);
  Ok {| immutable_artifact_id := id; immutable_artifact_hash := hash |}.

Definition parse_subject_ref (value : option WireVersionRef) : AppResult VersionRef :=
  value ← ok_or value subject_binding_invalid;
  id ← ok_or (wire_id value) subject_binding_invalid;
  id ← map_err (fun _ => subject_binding_invalid) (ulid_new id);
  version ← map_err (fun _ => subject_binding_invalid) (version_new (wire_version value));
  Ok {| vr_id := id; vr_version := version |}.

Definition parse_calendar_requirement (value : Z) : AppResult CalendarRequirement :=
  if value =? 1 then Ok ReferenceReplay else if value =? 2 then Ok ExactMarket else Err invalid_value.

Definition parse_wire_date (value : string) : AppResult NaiveDate := ok_or (parse_date value) invalid_value.

Definition parse_market_time (value : option WireTime) : AppResult MarketTime :=
  value ← ok_or value invalid_value;
  timestamp ← ok_or (wire_instant value) invalid_value;
  nanos ← ok_or (checked in_u32 (snd timestamp)) invalid_value;
  instant ← ok_or (from_timestamp (fst timestamp) nanos) invalid_value;
  date ← parse_wire_date (wire_local_date value);
  map_err map_domain_error (market_time_new instant (wire_timezone value) date).

Definition parse_optional_market_time (value : option WireTime) : AppResult (option MarketTime) :=
  match value with
  | Some value => time ← parse_market_time (Some value); Ok (Some time)
  | None => Ok None
  end.

Definition parse_context (value : option AnalysisContext) : AppResult ParsedContext :=
  value ← ok_or value invalid_value;
  _ ← validate_algorithm (context_algorithm value);
  owner ← parse_owner (context_owner value);
  units ← unit_bindings_parse (context_units value);
  subject_ref ← parse_subject_ref (context_subject_ref value);
  knowledge_at ← parse_market_time (context_knowledge_at value);
  Ok {| parsed_owner := owner; parsed_units := units; parsed_subject_ref := subject_ref; parsed_knowledge_at := knowledge_at |}.

(** ** Evidence on the wire *)

Definition parse_role (role : Z) : option RatesInputRole :=
  find (fun r => role_code r =? role)
    [RoleSubject; RoleUnit; RoleBond; RoleCalendar; RoleCurveSnapshot; RoleDataSnapshot; RoleDataSource; RoleTaxRulePack; RoleFundingRulePack;
     RoleDeliveryRulePack; RoleFuturesContract; RoleTargetRiskArtifact; RoleDeliveryArtifact; RoleCtdAnalyticsArtifact; RoleCurveRulePack;
     RoleCurveNodeDefinition].

Definition parse_metadata_evidence (value : WireInput) : AppResult RatesInputEvidence :=
  role ← ok_or (parse_role (input_role value)) invalid_value;
  binding ← ok_or (input_binding value) invalid_value;
  binding ← match binding with
    | WireObject value => object ← parse_object (Some value); Ok (EvidenceObject object)
    | WireSnapshot value => snapshot ← parse_snapshot (Some value); Ok (EvidenceSnapshot snapshot)
    | WireArtifact value => artifact ← parse_artifact (Some value); Ok (EvidenceArtifact artifact)
    | WireCurveNode value =>
        if blank_or_padded (bound_curve_node_id value) then Err invalid_value else
        hash ← parse_hash (bound_curve_node_hash value);
        Ok (EvidenceCurveNode {| immutable_curve_node_id := bound_curve_node_id value; immutable_curve_node_hash := hash |})
    end;
  owner ← parse_owner (input_role_owner value);
  observed ← parse_optional_market_time (input_observed_at value);
  visible ← parse_optional_market_time (input_visible_at value);
  from ← parse_optional_market_time (input_effective_from value);
  to ← parse_optional_market_time (input_effective_to value);
  Ok {| evidence_role := role; evidence_owner := owner; evidence_binding := binding; observed_at := observed; visible_at := visible;
        effective_from := from; effective_to := to |}.

Definition proto_version_ref (value : VersionRef) : WireVersionRef :=
  {| wire_id := Some (ulid_str (vr_id value)); wire_version := version_get (vr_version value) |}.

Definition proto_owner (value : OwnerRef) : WireOwnerRef :=
  {| wire_tenant_id := Some (ulid_str (tenant_id value)); wire_owner_id := Some (ulid_str (owner_id value)) |}.

Definition object_binding (value : AnalyticsObjectRef) : ObjectBinding :=
  {| bound_object := Some (proto_version_ref (object_ref value)); bound_hash := Some (hash_bytes (object_hash value)) |}.

Definition proto_market_time (value : MarketTime) : WireTime := {|
  wire_instant := Some (timestamp (instant value), timestamp_subsec_nanos (instant value)); wire_timezone := market_timezone value;
  wire_local_date := date_to_string (local_trading_date value) |}.

Definition proto_binding (value : RatesEvidenceBinding) : WireBinding :=
  match value with
  | EvidenceObject value => WireObject (object_binding value)
  | EvidenceSnapshot value =>
      WireSnapshot {| bound_snapshot_id := Some (ulid_str (immutable_snapshot_id value)); bound_snapshot_hash := Some (hash_bytes (immutable_snapshot_hash value)) |}
  | EvidenceArtifact value =>
      WireArtifact {| bound_artifact_id := Some (ulid_str (immutable_artifact_id value)); bound_artifact_hash := Some (hash_bytes (immutable_artifact_hash value)) |}
  | EvidenceCurveNode value =>
      WireCurveNode {| bound_curve_node_id := immutable_curve_node_id value; bound_curve_node_hash := Some (hash_bytes (immutable_curve_node_hash value)) |}
  end.

Definition proto_evidence (value : RatesInputEvidence) : WireInput := {|
  input_role := role_code (evidence_role value); input_role_owner := Some (proto_owner (evidence_owner value));
  input_binding := Some (proto_binding (evidence_binding value));
  input_observed_at := proto_market_time <$> observed_at value; input_visible_at := proto_market_time <$> visible_at value;
  input_effective_from := proto_market_time <$> effective_from value; input_effective_to := proto_market_time <$> effective_to value |}.

Definition rates_metadata (schema_id : string) (context : ParsedContext) (evidence : RatesRequestEvidence) : ResultMetadata := {|
  metadata_schema_id := schema_id; metadata_engine_id := ENGINE_ID; metadata_engine_version := ENGINE_VERSION;
  metadata_algorithm := Some bond_algorithm; metadata_subject_ref := Some (proto_version_ref (parsed_subject_ref context));
  metadata_inputs := map proto_evidence (consumed_inputs evidence);
  metadata_parameters := Some {| digest_algorithm := Some bond_algorithm;
                                 canonical_parameters := Some (hash_bytes (canonical_parameters_sha256 evidence)) |};
  metadata_fingerprint := Some (hash_bytes (request_fingerprint evidence)); metadata_formal_evidence := None |}.

(** ** Checks *)

(** [is_some]. *)
Definition present {A} (o : option A) : bool := match o with Some _ => true | None => false end.

Definition count_role (role : RatesInputRole) (inputs : list WireInput) : nat :=
  List.length (List.filter (fun input => input_role input =? role_code role) inputs).

Definition bond_roles : list (RatesInputRole * nat) :=
  [(RoleSubject, 1%nat); (RoleUnit, 9%nat); (RoleBond, 1%nat); (RoleCalendar, 1%nat); (RoleDataSnapshot, 1%nat); (RoleTaxRulePack, 1%nat)].

Definition require_exact_bond_roles (inputs : list WireInput) : AppResult unit :=
  fail_if (negb (List.length inputs =? sum_list_with snd bond_roles)%nat
           || existsb (fun '(role, count) => negb (count_role role inputs =? count)%nat) bond_roles) invalid_value.

Definition untimed (input : RatesInputEvidence) : bool :=
  negb (present (observed_at input) || present (visible_at input) || present (effective_from input) || present (effective_to input)).

Definition check_evidence_times (valuation_at knowledge_at : MarketTime) (materialized : BondAnalyticsInput) (input : RatesInputEvidence)
    : AppResult unit :=
  match evidence_role input with
  | RoleSubject | RoleUnit | RoleBond => fail_if (negb (untimed input)) invalid_value
  | RoleCalendar =>
      from ← ok_or (effective_from input) invalid_value;
      to ← ok_or (effective_to input) invalid_value;
      fail_if (present (observed_at input) || present (visible_at input)
               || negb (bool_decide (local_trading_date from = coverage_start (input_calendar materialized)))
               || negb (bool_decide (local_trading_date to = coverage_end (input_calendar materialized)))
               || ltb (instant valuation_at) (instant from) || leb (instant to) (instant valuation_at)) invalid_value
  | RoleDataSnapshot =>
      observed ← ok_or (observed_at input) invalid_value;
      visible ← ok_or (visible_at input) invalid_value;
      fail_if (negb (bool_decide (observed = valuation_at)) || ltb (instant visible) (instant observed)
               || ltb (instant knowledge_at) (instant visible) || present (effective_from input) || present (effective_to input))
        invalid_value
  | RoleTaxRulePack =>
      from ← ok_or (effective_from input) invalid_value;
      to ← ok_or (effective_to input) invalid_value;
      fail_if (present (observed_at input) || present (visible_at input)
               || ltb (instant valuation_at) (instant from) || leb (instant to) (instant valuation_at)) invalid_value
  | _ => Err invalid_value
  end.

Definition validate_bond_evidence_times (inputs : list RatesInputEvidence) (valuation_at knowledge_at : MarketTime)
    (materialized : BondAnalyticsInput) : AppResult unit :=
  try_fold (fun _ input => check_evidence_times valuation_at knowledge_at materialized input) tt inputs.
End parsers.

Section metadata.
Context `{UlidCrate} `{Sha256} `{Chrono} `{ChronoParse} `{InputEncoder}.

Definition all_proto_refs (units : UnitBindings) : list WireUnitRef :=
  [currency_amount units; price_per_100 units; rate units; years units; years_squared units; dv01_per_100 units; dv01_unit units;
   dimensionless units; contract_count units].

(** The version of the unit a unit input is bound to. *)
Definition unit_input_ref (input : WireInput) : AppResult VersionRef :=
  match input_binding input with
  | Some (WireObject binding) => object ← parse_object (Some binding); Ok (object_ref object)
  | _ => Err invalid_value
  end.

Definition check_metadata_input (context : ParsedContext) (input : WireInput) : AppResult unit :=
  _ ← (if input_role input =? 0 then Ok tt else _ ← ok_or (parse_role (input_role input)) invalid_value; Ok tt);
  owner ← parse_owner (input_role_owner input);
  fail_if (negb (bool_decide (owner = parsed_owner context)) || negb (present (input_binding input))) invalid_value.

Definition validate_materialized_metadata (context : ParsedContext) (value : ResultMetadata) (expected_units : list WireUnitRef) : AppResult unit :=
  if bool_decide (trim (metadata_schema_id value) = EmptyString) || negb (bool_decide (metadata_engine_id value = ENGINE_ID))
     || negb (bool_decide (metadata_engine_version value = ENGINE_VERSION)) || bool_decide (metadata_inputs value = [])
  then Err invalid_value else
  _ ← validate_algorithm (metadata_algorithm value);
  subject ← parse_subject_ref (metadata_subject_ref value);
  if negb (bool_decide (subject = parsed_subject_ref context)) then Err invalid_value else
  parameter ← ok_or (metadata_parameters value) invalid_value;
  _ ← validate_algorithm (digest_algorithm parameter);
  _ ← parse_hash (canonical_parameters parameter);
  _ ← parse_hash (metadata_fingerprint value);
  _ ← try_fold (fun _ input => check_metadata_input context input) tt (metadata_inputs value);
  expected_unit_refs ← try_map parse_unit expected_units;
  let expected_unit_refs := dedup (sort (map (fun unit => {| vr_id := unit_id unit; vr_version := unit_version unit |}) expected_unit_refs)) in
  actual_unit_refs ← try_map unit_input_ref (List.filter (fun input => input_role input =? role_code RoleUnit) (metadata_inputs value));
  let actual_unit_refs := sort actual_unit_refs in
  if windows2_any (fun a b => bool_decide (a = b)) actual_unit_refs || negb (bool_decide (actual_unit_refs = expected_unit_refs))
  then Err invalid_value else
  fail_if (windows2_any (fun a b => ltb (encode_input b) (encode_input a)) (metadata_inputs value)) invalid_value.

(** The bindings of the inputs of one role that are objects, or snapshots. *)
Definition role_objects (metadata : ResultMetadata) (role : RatesInputRole) : AppResult (list AnalyticsObjectRef) :=
  try_map (fun binding => parse_object (Some binding))
    (omap (fun input => match input_binding input with Some (WireObject binding) => Some binding | _ => None end)
       (List.filter (fun input => input_role input =? role_code role) (metadata_inputs metadata))).

Definition role_snapshots (metadata : ResultMetadata) (role : RatesInputRole) : AppResult (list ImmutableSnapshotBinding) :=
  try_map (fun binding => parse_snapshot (Some binding))
    (omap (fun input => match input_binding input with Some (WireSnapshot binding) => Some binding | _ => None end)
       (List.filter (fun input => input_role input =? role_code role) (metadata_inputs metadata))).

Definition require_metadata_version (metadata : ResultMetadata) (role : RatesInputRole) (expected : VersionRef) : AppResult unit :=
  matches ← role_objects metadata role;
  match matches with
  | [value] => fail_if (negb (bool_decide (object_ref value = expected))) invalid_value
  | _ => Err invalid_value
  end.

Definition require_metadata_object (metadata : ResultMetadata) (role : RatesInputRole) (expected : AnalyticsObjectRef) : AppResult unit :=
  matches ← role_objects metadata role;
  fail_if (negb (bool_decide (matches = [expected]))) invalid_value.

Definition require_metadata_snapshot (metadata : ResultMetadata) (role : RatesInputRole) (expected : ImmutableSnapshotBinding) : AppResult unit :=
  matches ← role_snapshots metadata role;
  fail_if (negb (bool_decide (matches = [expected]))) invalid_value.

(** ** The proof *)

Definition parse_request_input (request : AnalyzeBondRequest) (units : UnitBindings) : AppResult (AnalyticsMode * FixedDecimal) :=
  match request_input request with
  | Some (YieldToMaturity value) => value ← parse_fixed_decimal value (rate units); Ok (YieldIn, value)
  | Some (CleanPrice value) => value ← parse_fixed_decimal value (price_per_100 units); Ok (PriceIn, value)
  | None => Err invalid_value
  end.

(** The facts a request names. *)
Record NamedFacts := {
  named_bond : AnalyticsObjectRef;
  named_calendar : AnalyticsObjectRef;
  named_snapshot : ImmutableSnapshotBinding;
  named_rule_pack : AnalyticsObjectRef;
  named_valuation_at : MarketTime;
  named_settlement : NaiveDate;
  named_requirement : CalendarRequirement;
  named_mode : AnalyticsMode;
  named_value : FixedDecimal
}.

Definition parse_named_facts (request : AnalyzeBondRequest) (units : UnitBindings) : AppResult NamedFacts :=
  bond ← parse_object (request_bond request);
  calendar ← parse_object (request_calendar request);
  snapshot ← parse_snapshot (request_data_snapshot request);
  tax_rule_pack ← parse_object (request_tax_rule_pack request);
  valuation_at ← parse_market_time (request_valuation_at request);
  settlement_date ← parse_wire_date (request_settlement_date request);
  calendar_requirement ← parse_calendar_requirement (request_calendar_requirement request);
  '(mode, input_value) ← parse_request_input request units;
  Ok {| named_bond := bond; named_calendar := calendar; named_snapshot := snapshot; named_rule_pack := tax_rule_pack;
        named_valuation_at := valuation_at; named_settlement := settlement_date; named_requirement := calendar_requirement;
        named_mode := mode; named_value := input_value |}.

(** The comparison with the input; the unit of the rate is parsed when everything else agrees. *)
Definition facts_differ (context : ParsedContext) (facts : NamedFacts) (input : BondAnalyticsInput) : bool :=
  negb (bool_decide (parsed_owner context = input_owner input)) || negb (bool_decide (named_bond facts = input_bond input))
  || negb (bool_decide (named_rule_pack facts = input_rule_pack input))
  || negb (bool_decide (immutable_snapshot_id (named_snapshot facts) = vr_id (object_ref (input_snapshot input))))
  || negb (bool_decide (immutable_snapshot_hash (named_snapshot facts) = object_hash (input_snapshot input)))
  || negb (bool_decide (ulid_str (vr_id (object_ref (named_calendar facts))) = binding_calendar_id (input_calendar input)))
  || negb (bool_decide (vr_version (object_ref (named_calendar facts)) = binding_calendar_version (input_calendar input)))
  || negb (bool_decide (object_hash (named_calendar facts) = binding_calendar_hash (input_calendar input)))
  || negb (bool_decide (named_valuation_at facts = input_valuation_at input))
  || negb (bool_decide (named_settlement facts = settlement_date input))
  || negb (bool_decide (named_requirement facts = calendar_requirement input))
  || negb (bool_decide (named_mode facts = input_mode input)) || negb (bool_decide (named_value facts = input_value input)).

Definition materialized_bond_proof (request : AnalyzeBondRequest) (input : BondAnalyticsInput) (coupon_tax_treatment : CouponTaxTreatment)
    (consumed : list WireInput) : AppResult (ParsedContext * ResultMetadata) :=
  context ← parse_context (request_context request);
  facts ← parse_named_facts request (parsed_units context);
  if facts_differ context facts input then Err invalid_value else
  unit ← parse_unit (rate (parsed_units context));
  if negb (bool_decide (treatment_unit coupon_tax_treatment = unit)) then Err invalid_value else
  _ ← require_exact_bond_roles consumed;
  parsed_inputs ← try_map parse_metadata_evidence consumed;
  _ ← validate_bond_evidence_times parsed_inputs (named_valuation_at facts) (parsed_knowledge_at context) input;
  evidence ← request_evidence_bond parsed_inputs (parsed_knowledge_at context) input coupon_tax_treatment;
  let expected := rates_metadata RESULT_SCHEMA_ID context evidence in
  if negb (bool_decide (metadata_inputs expected = consumed)) then Err invalid_value else
  _ ← validate_materialized_metadata context expected (all_proto_refs (parsed_units context));
  _ ← require_metadata_version expected RoleSubject (parsed_subject_ref context);
  _ ← require_metadata_object expected RoleBond (input_bond input);
  _ ← require_metadata_object expected RoleCalendar (named_calendar facts);
  _ ← require_metadata_snapshot expected RoleDataSnapshot (named_snapshot facts);
  _ ← require_metadata_object expected RoleTaxRulePack (input_rule_pack input);
  Ok (context, expected).

Definition canonical_materialized_bond_metadata (request : AnalyzeBondRequest) (input : BondAnalyticsInput)
    (coupon_tax_treatment : CouponTaxTreatment) (consumed : list WireInput) : AppResult ResultMetadata :=
  '(_, metadata) ← materialized_bond_proof request input coupon_tax_treatment consumed;
  Ok metadata.
End metadata.

(** ** What an accepted request proves *)

Section proved.
Context `{UlidCrate} `{Sha256} `{Chrono} `{ChronoParse} `{InputEncoder}.

(** The request names the facts of the input. *)
Record names_input (context : ParsedContext) (facts : NamedFacts) (input : BondAnalyticsInput) : Prop := {
  names_owner : parsed_owner context = input_owner input;
  names_refs : named_bond facts = input_bond input /\ named_rule_pack facts = input_rule_pack input;
  names_snapshot : immutable_snapshot_id (named_snapshot facts) = vr_id (object_ref (input_snapshot input))
    /\ immutable_snapshot_hash (named_snapshot facts) = object_hash (input_snapshot input);
  names_calendar : ulid_str (vr_id (object_ref (named_calendar facts))) = binding_calendar_id (input_calendar input)
    /\ vr_version (object_ref (named_calendar facts)) = binding_calendar_version (input_calendar input)
    /\ object_hash (named_calendar facts) = binding_calendar_hash (input_calendar input);
  names_dates : named_valuation_at facts = input_valuation_at input /\ named_settlement facts = settlement_date input
    /\ named_requirement facts = calendar_requirement input;
  names_value : named_mode facts = input_mode input /\ named_value facts = input_value input
}.

Lemma facts_agree context facts input : facts_differ context facts input = false <-> names_input context facts input.
Proof.
  unfold facts_differ. rewrite !orb_false_iff, !negb_false_iff, !bool_decide_eq_true. split.
  - intros [[[[[[[[[[[[? ?] ?] ?] ?] ?] ?] ?] ?] ?] ?] ?] ?]. by split.
  - intros [? [? ?] [? ?] (? & ? & ?) (? & ? & ?) [? ?]]. tauto.
Qed.

(** The evidence of one input is dated as its role asks. *)
Definition dated (context : ParsedContext) (input : BondAnalyticsInput) (e : RatesInputEvidence) : Prop :=
  match evidence_role e with
  | RoleSubject | RoleUnit | RoleBond => observed_at e = None /\ visible_at e = None /\ effective_from e = None /\ effective_to e = None
  | RoleCalendar => observed_at e = None /\ visible_at e = None /\ exists from to, effective_from e = Some from /\ effective_to e = Some to
      /\ local_trading_date from = coverage_start (input_calendar input) /\ local_trading_date to = coverage_end (input_calendar input)
      /\ leb (instant from) (instant (input_valuation_at input)) = true /\ ltb (instant (input_valuation_at input)) (instant to) = true
  | RoleDataSnapshot => effective_from e = None /\ effective_to e = None /\ observed_at e = Some (input_valuation_at input)
      /\ exists visible, visible_at e = Some visible /\ leb (instant (input_valuation_at input)) (instant visible) = true
         /\ leb (instant visible) (instant (parsed_knowledge_at context)) = true
  | RoleTaxRulePack => observed_at e = None /\ visible_at e = None /\ exists from to, effective_from e = Some from /\ effective_to e = Some to
      /\ leb (instant from) (instant (input_valuation_at input)) = true /\ ltb (instant (input_valuation_at input)) (instant to) = true
  | _ => False
  end.

Lemma present_false {A} (o : option A) : present o = false <-> o = None.
Proof. by destruct o. Qed.

Lemma negb_leb {A} `{OrdLaws A} (a b : A) : negb (leb a b) = ltb b a.
Proof. by rewrite ltb_leb. Qed.

Lemma ltb_false {A} `{OrdLaws A} (a b : A) : ltb a b = false <-> leb b a = true.
Proof. rewrite ltb_leb. by destruct (leb b a). Qed.

Lemma leb_false {A} `{OrdLaws A} (a b : A) : leb a b = false <-> ltb b a = true.
Proof. rewrite ltb_leb. by destruct (leb a b). Qed.

Lemma check_times_Ok context input e u :
  check_evidence_times (input_valuation_at input) (parsed_knowledge_at context) input e = Ok u -> dated context input e.
Proof.
  unfold check_evidence_times, dated, untimed. destruct (evidence_role e); try done; intros E;
    repeat (apply bind_Ok in E as (? & ?%ok_or_Ok & E)); apply fail_if_Ok in E;
    rewrite ?negb_involutive, ?orb_false_iff, ?present_false, ?negb_false_iff, ?bool_decide_eq_true, ?ltb_false, ?leb_false in E.
  - tauto.
  - tauto.
  - tauto.
  - destruct E as [[[[[? ?] ?] ?] ?] ?]. split; [done|]. split; [done|]. by exists x, x0.
  - destruct E as [[[[-> Hv] Hk] ?] ?]. split; [done|]. split; [done|]. split; [done|]. by exists x0.
  - destruct E as [[[? ?] ?] ?]. split; [done|]. split; [done|]. by exists x, x0.
Qed.

Lemma try_fold_each {E A} (f : A -> Result E unit) l u : try_fold (fun _ a => f a) u l = Ok tt -> Forall (fun a => f a = Ok tt) l.
Proof.
  revert u. induction l as [|a l IH]; intros u Ef; [constructor|]. cbn in Ef. apply bind_Ok in Ef as ([] & Ea & Ef).
  constructor; [done|by apply IH in Ef].
Qed.

Definition unit_refs (units : list UnitRef) : list VersionRef := map (fun unit => {| vr_id := unit_id unit; vr_version := unit_version unit |}) units.

(** What the consumed inputs of a request are. *)
Record consumed_exactly (context : ParsedContext) (facts : NamedFacts) (input : BondAnalyticsInput) (consumed : list WireInput) : Prop := {
  consumed_count : List.length consumed = 14%nat /\ forall role n, In (role, n) bond_roles -> count_role role consumed = n;
  consumed_owner : Forall (fun w => parse_owner (input_role_owner w) = Ok (input_owner input)) consumed;
  consumed_units : exists units refs, try_map parse_unit (all_proto_refs (parsed_units context)) = Ok units
    /\ try_map unit_input_ref (List.filter (fun w => input_role w =? role_code RoleUnit) consumed) = Ok refs
    /\ refs ≡ₚ unit_refs units /\ NoDup refs;
  consumed_objects : forall m, metadata_inputs m = consumed ->
    (exists subject, role_objects m RoleSubject = Ok [subject] /\ object_ref subject = parsed_subject_ref context)
    /\ role_objects m RoleBond = Ok [input_bond input] /\ role_objects m RoleCalendar = Ok [named_calendar facts]
    /\ role_snapshots m RoleDataSnapshot = Ok [named_snapshot facts] /\ role_objects m RoleTaxRulePack = Ok [input_rule_pack input];
  consumed_sorted : windows2_any (fun a b => ltb (encode_input b) (encode_input a)) consumed = false
}.

Lemma check_input_Ok context w : check_metadata_input context w = Ok tt -> parse_owner (input_role_owner w) = Ok (parsed_owner context).
Proof.
  unfold check_metadata_input. intros E. apply bind_Ok in E as ([] & _ & E). apply bind_Ok in E as (o & Eo & E).
  apply fail_if_Ok in E. apply orb_false_iff in E as [E%negb_false_iff%bool_decide_eq_true _]. by subst o.
Qed.

Lemma try_map_length {E A B} (f : A -> Result E B) l m : try_map f l = Ok m -> List.length m = List.length l.
Proof. intros E1%try_map_Ok. symmetry. by apply Forall2_length in E1. Qed.

(** A sorted list with the elements and the length of another, without repetition, is a permutation of it. *)
Lemma dedup_sort_perm {A} `{OrdLaws A} `{EqDecision A} (l m : list A) :
  sort l = dedup (sort m) -> List.length l = List.length m -> windows2_any (fun a b => bool_decide (a = b)) (sort l) = false ->
  l ≡ₚ m /\ NoDup l.
Proof.
  intros E Hlen Hw.
  assert (Hl : NoDup l).
  { rewrite <- (sort_by_perm cmp l). change (sort_by cmp l) with (sort l). rewrite E. apply strict_sorted_NoDup. apply canonical_wf. }
  split; [|done]. apply submseteq_length_Permutation; [|lia]. apply NoDup_submseteq; [done|]. intros x Hx.
  apply (canonical_elem m x). rewrite <- E. unfold sort. by rewrite sort_by_perm.
Qed.

Lemma validate_metadata_Ok context value u :
  count_role RoleUnit (metadata_inputs value) = 9%nat ->
  validate_materialized_metadata context value (all_proto_refs (parsed_units context)) = Ok u ->
  Forall (fun w => parse_owner (input_role_owner w) = Ok (parsed_owner context)) (metadata_inputs value)
  /\ (exists units refs, try_map parse_unit (all_proto_refs (parsed_units context)) = Ok units
       /\ try_map unit_input_ref (List.filter (fun w => input_role w =? role_code RoleUnit) (metadata_inputs value)) = Ok refs
       /\ refs ≡ₚ unit_refs units /\ NoDup refs)
  /\ windows2_any (fun a b => ltb (encode_input b) (encode_input a)) (metadata_inputs value) = false.
Proof.
  intros Hc E. unfold validate_materialized_metadata in E. apply unless_Ok in E as [_ E]. apply bind_Ok in E as ([] & _ & E).
  apply bind_Ok in E as (s & _ & E). apply unless_Ok in E as [_ E]. apply bind_Ok in E as (p & _ & E). apply bind_Ok in E as ([] & _ & E).
  apply bind_Ok in E as (h1 & _ & E). apply bind_Ok in E as (h2 & _ & E). apply bind_Ok in E as ([] & Eo & E).
  apply bind_Ok in E as (units & Eu & E). apply bind_Ok in E as (refs & Er & E). apply unless_Ok in E as [Hw E]. apply fail_if_Ok in E.
  apply orb_false_iff in Hw as [Hw He]. apply negb_false_iff, bool_decide_eq_true in He. split; [|split; [|done]].
  - apply try_fold_each in Eo. apply (List.Forall_impl _ (fun w => check_input_Ok context w) Eo).
  - exists units, refs. split; [done|]. split; [done|].
    apply dedup_sort_perm; [exact He| |exact Hw]. unfold unit_refs. rewrite length_map, (try_map_length _ _ _ Er), (try_map_length _ _ _ Eu). exact Hc.
Qed.

Lemma require_roles_Ok consumed u : require_exact_bond_roles consumed = Ok u ->
  List.length consumed = 14%nat /\ forall role n, In (role, n) bond_roles -> count_role role consumed = n.
Proof.
  unfold require_exact_bond_roles. intros E%fail_if_Ok. apply orb_false_iff in E as [E1%negb_false_iff%Nat.eqb_eq E2]. split; [exact E1|].
  intros role n Hin. apply not_true_iff_false in E2. destruct (Nat.eqb_spec (count_role role consumed) n) as [|Hne]; [done|]. exfalso. apply E2.
  apply existsb_exists. exists (role, n). split; [done|]. by rewrite (proj2 (Nat.eqb_neq _ _) Hne).
Qed.

Lemma require_version_Ok m role expected u : require_metadata_version m role expected = Ok u ->
  exists value, role_objects m role = Ok [value] /\ object_ref value = expected.
Proof.
  unfold require_metadata_version. intros E. apply bind_Ok in E as (l & El & E). destruct l as [|v [|]]; try done. exists v. split; [done|].
  by apply fail_if_Ok, negb_false_iff, bool_decide_eq_true in E.
Qed.

Lemma require_object_Ok m role expected u : require_metadata_object m role expected = Ok u -> role_objects m role = Ok [expected].
Proof.
  unfold require_metadata_object. intros E. apply bind_Ok in E as (l & El & E). apply fail_if_Ok, negb_false_iff, bool_decide_eq_true in E. by subst l.
Qed.

Lemma require_snapshot_Ok m role expected u : require_metadata_snapshot m role expected = Ok u -> role_snapshots m role = Ok [expected].
Proof.
  unfold require_metadata_snapshot. intros E. apply bind_Ok in E as (l & El & E). apply fail_if_Ok, negb_false_iff, bool_decide_eq_true in E. by subst l.
Qed.

(** An accepted request: what it names, what it consumed and the metadata of its result. *)
Record proved (request : AnalyzeBondRequest) (input : BondAnalyticsInput) (t : CouponTaxTreatment) (consumed : list WireInput)
    (context : ParsedContext) (m : ResultMetadata) : Prop := {
  proved_by : exists facts evidence inputs,
    parse_context (request_context request) = Ok context
    /\ parse_named_facts request (parsed_units context) = Ok facts /\ names_input context facts input
    /\ parse_unit (rate (parsed_units context)) = Ok (treatment_unit t)
    /\ consumed_exactly context facts input consumed
    /\ Forall2 (fun w e => parse_metadata_evidence w = Ok e) consumed inputs /\ Forall (dated context input) inputs
    /\ request_evidence_bond inputs (parsed_knowledge_at context) input t = Ok evidence
    /\ m = rates_metadata RESULT_SCHEMA_ID context evidence /\ metadata_inputs m = consumed
}.

Lemma proof_Ok request input t consumed context m :
  materialized_bond_proof request input t consumed = Ok (context, m) -> proved request input t consumed context m.
Proof.
  unfold materialized_bond_proof. intros E. apply bind_Ok in E as (c & Ec & E). apply bind_Ok in E as (facts & Ef & E).
  apply unless_Ok in E as [Hf%facts_agree E]. apply bind_Ok in E as (unit & Eu & E). apply unless_Ok in E as [Ht E].
  apply negb_false_iff, bool_decide_eq_true in Ht. subst unit. apply bind_Ok in E as ([] & Er & E). apply bind_Ok in E as (inputs & Ei & E).
  apply bind_Ok in E as ([] & Ed & E). apply bind_Ok in E as (evidence & Ee & E). apply unless_Ok in E as [Hc E].
  apply negb_false_iff, bool_decide_eq_true in Hc. apply bind_Ok in E as ([] & Em & E). apply bind_Ok in E as ([] & E1 & E).
  apply bind_Ok in E as ([] & E2 & E). apply bind_Ok in E as ([] & E3 & E). apply bind_Ok in E as ([] & E4 & E). apply bind_Ok in E as ([] & E5 & E).
  injection E as <- <-. apply require_roles_Ok in Er. set (m := rates_metadata RESULT_SCHEMA_ID c evidence) in *.
  assert (Hn : count_role RoleUnit (metadata_inputs m) = 9%nat) by (rewrite Hc; apply Er; right; left; reflexivity).
  apply (validate_metadata_Ok c m tt Hn) in Em as (Ho & Hu & Hs). rewrite Hc in Ho, Hu, Hs. rewrite (names_owner _ _ _ Hf) in Ho.
  split. exists facts, evidence, inputs. split; [done|]. split; [done|]. split; [done|]. split; [done|]. split.
  - split; [done|done|done| |done]. intros m' Hm'.
    assert (Hro : forall role, role_objects m' role = role_objects m role) by (intros role; unfold role_objects; by rewrite Hm', Hc).
    assert (Hrs : forall role, role_snapshots m' role = role_snapshots m role) by (intros role; unfold role_snapshots; by rewrite Hm', Hc).
    rewrite !Hro, Hrs. split; [by apply (require_version_Ok m _ _ tt)|]. split; [by apply (require_object_Ok m _ _ tt)|].
    split; [by apply (require_object_Ok m _ _ tt)|]. split; [by apply (require_snapshot_Ok m _ _ tt)|by apply (require_object_Ok m _ _ tt)].
  - split; [by apply try_map_Ok|]. split; [|done]. apply try_fold_each in Ed. rewrite (proj1 (names_dates _ _ _ Hf)) in Ed.
    revert Ed. apply List.Forall_impl. intros e He. by apply (check_times_Ok c input e tt).
Qed.

(** The metadata that is derived from the inputs is accepted with them. *)
Lemma canonical_metadata_accepted request input t consumed m :
  canonical_materialized_bond_metadata request input t consumed = Ok m ->
  exists context, materialized_bond_proof request input t (metadata_inputs m) = Ok (context, m).
Proof.
  unfold canonical_materialized_bond_metadata. intros E. apply bind_Ok in E as ([context m'] & Ep & E). injection E as <-.
  exists context. pose proof (proof_Ok _ _ _ _ _ _ Ep) as [(facts & evidence & inputs & _ & _ & _ & _ & _ & _ & _ & _ & _ & Hm)]. by rewrite Hm.
Qed.
End proved.

(** C31. The metadata of a bond result proves its inputs: a request is accepted with a materialized input only when both
    name the same owner, bond, calendar, snapshot, rule pack, dates, mode and value, and the treatment is in the unit of
    the rate; the consumed inputs are then exactly the subject, nine distinct units - those of the request -, the bond,
    the calendar, the snapshot and the rule pack, all of the owner, dated as their role asks: valid at the valuation,
    the calendar over its coverage, the snapshot seen no later than the instant of knowledge; and the metadata carries
    those inputs in order, and the digest and the fingerprint that are computed from them. The metadata that is derived
    for a request is accepted with it. *)
Theorem bond_request_proved `{UlidCrate} `{Sha256} `{Chrono} `{ChronoParse} `{InputEncoder} request input t consumed context m :
  materialized_bond_proof request input t consumed = Ok (context, m) ->
  proved request input t consumed context m
  /\ (forall role, In role (map input_role consumed) -> exists r, In r (map fst bond_roles) /\ role = role_code r)
  /\ exists context', materialized_bond_proof request input t (metadata_inputs m) = Ok (context', m).
Proof.
  intros E. pose proof (proof_Ok _ _ _ _ _ _ E) as P. split; [exact P|]. split.
  - destruct P as [(facts & evidence & inputs & _ & _ & _ & _ & _ & Hp & Hd & _)]. intros code Hcode. apply in_map_iff in Hcode as (w & <- & Hw).
    apply list_elem_of_In, list_elem_of_lookup in Hw as [k Hw]. destruct (Forall2_lookup_l _ _ _ _ _ Hp Hw) as (e & Hx & He).
    assert (Hd' : dated context input e) by (by apply (Forall_lookup_1 _ _ _ _ Hd Hx)). unfold parse_metadata_evidence in He.
    apply bind_Ok in He as (r & Er%ok_or_Ok & He). apply bind_Ok in He as (b & _ & He). apply bind_Ok in He as (b' & _ & He).
    do 5 apply bind_Ok in He as (? & _ & He). injection He as <-. unfold parse_role in Er. apply find_some in Er as [_ Er%Z.eqb_eq].
    exists r. split; [|done]. unfold dated in Hd'. cbn [evidence_role] in Hd'. destruct r; try done; cbn; tauto.
  - apply (canonical_metadata_accepted request input t consumed). unfold canonical_materialized_bond_metadata. by rewrite E.
Qed.

(** ** A concrete request *)

Section example.
Local Existing Instance sample_ulid_crate.
Local Existing Instance sample_sha256.

(** Protobuf on the wire: variable-length integers and length-delimited fields; a zero is not written. *)
Fixpoint varint (fuel : nat) (z : Z) : list byte :=
  match fuel with
  | O => []
  | S fuel => if z <? 128 then [byte_of_Z z] else byte_of_Z (128 + z mod 128) :: varint fuel (z / 128)
  end.
Definition delimited_field (tag : Z) (bytes : list byte) : list byte :=
  varint 10 (tag * 8 + 2) ++ varint 10 (Z.of_nat (List.length bytes)) ++ bytes.
Definition integer_field (tag z : Z) : list byte := if z =? 0 then [] else varint 10 (tag * 8) ++ varint 10 (z mod 2 ^ 64).
Definition text_field (tag : Z) (s : string) : list byte := if bool_decide (s = EmptyString) then [] else delimited_field tag (as_bytes s).
Definition optional_field {A} (tag : Z) (f : A -> list byte) (o : option A) : list byte :=
  match o with Some a => delimited_field tag (f a) | None => [] end.
Definition wire_time_bytes (t : WireTime) : list byte :=
  optional_field 1 (fun at_ : Z * Z => integer_field 1 (fst at_) ++ integer_field 2 (snd at_)) (wire_instant t)
  ++ text_field 2 (wire_timezone t) ++ text_field 3 (wire_local_date t).
Definition bytes_message (bytes : list byte) : list byte := delimited_field 1 bytes.
Definition ref_bytes (r : WireVersionRef) : list byte := optional_field 1 (text_field 1) (wire_id r) ++ integer_field 2 (wire_version r).
Definition wire_binding_bytes (b : WireBinding) : list byte :=
  match b with
  | WireObject b => delimited_field 3 (optional_field 1 ref_bytes (bound_object b) ++ optional_field 2 bytes_message (bound_hash b))
  | WireSnapshot b => delimited_field 4 (optional_field 1 (text_field 1) (bound_snapshot_id b) ++ optional_field 2 bytes_message (bound_snapshot_hash b))
  | WireArtifact b => delimited_field 5 (optional_field 1 (text_field 1) (bound_artifact_id b) ++ optional_field 2 bytes_message (bound_artifact_hash b))
  | WireCurveNode b => delimited_field 10 (text_field 1 (bound_curve_node_id b) ++ optional_field 2 bytes_message (bound_curve_node_hash b))
  end.
Definition protobuf : InputEncoder := fun w =>
  integer_field 1 (input_role w)
  ++ optional_field 2 (fun o => optional_field 1 (text_field 1) (wire_tenant_id o) ++ optional_field 2 (text_field 1) (wire_owner_id o)) (input_role_owner w)
  ++ from_option wire_binding_bytes [] (input_binding w)
  ++ optional_field 6 wire_time_bytes (input_observed_at w) ++ optional_field 7 wire_time_bytes (input_visible_at w)
  ++ optional_field 8 wire_time_bytes (input_effective_from w) ++ optional_field 9 wire_time_bytes (input_effective_to w).
Local Existing Instance protobuf.

(** Shanghai, eight hours ahead of UTC, and ISO dates. *)
Definition civil_from_days (days : Z) : NaiveDate :=
  let z := days + 719468 in
  let era := z / 146097 in
  let day_of_era := z - era * 146097 in
  let year_of_era := (day_of_era - day_of_era / 1460 + day_of_era / 36524 - day_of_era / 146096) / 365 in
  let day_of_year := day_of_era - (365 * year_of_era + year_of_era / 4 - year_of_era / 100) in
  let month := (5 * day_of_year + 2) / 153 in
  let number := if month <? 10 then month + 3 else month - 9 in
  {| nd_year := year_of_era + era * 400 + (if number <=? 2 then 1 else 0); nd_month := number;
     nd_day := day_of_year - (153 * month + 2) / 5 + 1 |}.
Definition shanghai_chrono : Chrono := {|
  Tz := string; tz_parse := fun s => if bool_decide (s = MARKET_TIMEZONE) then Some s else None; tz_name := fun s => s;
  tz_local_date := fun _ t => civil_from_days ((timestamp t + 28800) / 86400); date_to_string := iso_date |}.
Local Existing Instance shanghai_chrono.
Definition sample_parse : ChronoParse := {|
  from_timestamp := fun s n => Some {| timestamp := s; timestamp_subsec_nanos := n |}; parse_date := parse_iso |}.
Local Existing Instance sample_parse.

Definition shanghai_time (seconds : Z) : MarketTime := {|
  instant := {| timestamp := seconds; timestamp_subsec_nanos := 0 |}; market_timezone := MARKET_TIMEZONE;
  local_trading_date := civil_from_days ((seconds + 28800) / 86400) |}.

(** Nine units, the first of them in the version [v]. *)
Definition numbered_unit (name : string) (v : Z) : VersionRef := {| vr_id := sample_id name; vr_version := mk_version v |}.
Definition rate_ref : VersionRef := {| vr_id := mk_ulid RATE_UNIT_ID; vr_version := mk_version 1 |}.
Definition request_units (v : Z) : list VersionRef :=
  [numbered_unit "1" v; numbered_unit "2" 1; rate_ref; numbered_unit "3" 1; numbered_unit "4" 1; numbered_unit "5" 1; numbered_unit "6" 1;
   numbered_unit "7" 1; numbered_unit "8" 1].
Definition unit_of (r : VersionRef) : option WireUnitRef := Some {| wire_unit_id := Some (ulid_str (vr_id r)); wire_unit_version := version_get (vr_version r) |}.
Definition proved_units (v : Z) : AnalysisUnits :=
  match map unit_of (request_units v) with
  | [a; b; c; d; e; f; g; h; i] => {| units_currency_amount := a; units_price_per_100 := b; units_rate := c; units_years := d;
      units_years_squared := e; units_dv01_per_100 := f; units_dv01 := g; units_dimensionless := h; units_contract_count := i |}
  | _ => {| units_currency_amount := None; units_price_per_100 := None; units_rate := None; units_years := None; units_years_squared := None;
            units_dv01_per_100 := None; units_dv01 := None; units_dimensionless := None; units_contract_count := None |}
  end.
Definition proved_request (v : Z) : AnalyzeBondRequest := {|
  request_context := Some {| context_owner := Some (proto_owner sample_owner); context_algorithm := Some bond_algorithm;
    context_units := Some (proved_units v); context_subject_ref := Some (proto_version_ref (sample_vref "A"));
    context_knowledge_at := Some (proto_market_time (shanghai_time 1767578400)) |};
  request_bond := Some (object_binding (input_bond sample_bond_input)); request_valuation_at := Some (proto_market_time sample_valuation);
  request_settlement_date := iso_date (settlement_date sample_bond_input); request_calendar_requirement := 2;
  request_calendar := Some (object_binding {| object_ref := sample_vref "C"; object_hash := sample_hash x22 |});
  request_data_snapshot := Some {| bound_snapshot_id := Some (ulid_str (sample_id "S")); bound_snapshot_hash := Some (hash_bytes (sample_hash x21)) |};
  request_tax_rule_pack := Some (object_binding (input_rule_pack sample_bond_input));
  request_input := Some (YieldToMaturity {| wire_coefficient := "2"; wire_scale := 2; wire_unit := unit_of rate_ref |}) |}.

Definition proved_evidence (role : RatesInputRole) (binding : RatesEvidenceBinding) (observed visible from to : option MarketTime) : RatesInputEvidence := {|
  evidence_role := role; evidence_owner := sample_owner; evidence_binding := binding; observed_at := observed; visible_at := visible;
  effective_from := from; effective_to := to |}.
Definition proved_inputs (v : Z) : list RatesInputEvidence :=
  [proved_evidence RoleSubject (EvidenceObject (sample_object "A")) None None None None]
  ++ map (fun r => proved_evidence RoleUnit (EvidenceObject {| object_ref := r; object_hash := sample_hash x33 |}) None None None None) (request_units v)
  ++ [proved_evidence RoleBond (EvidenceObject (input_bond sample_bond_input)) None None None None;
      proved_evidence RoleCalendar (EvidenceObject {| object_ref := sample_vref "C"; object_hash := sample_hash x22 |}) None None
        (Some (shanghai_time 1735660800)) (Some (shanghai_time 1893427200));
      proved_evidence RoleDataSnapshot (EvidenceSnapshot {| immutable_snapshot_id := sample_id "S"; immutable_snapshot_hash := sample_hash x21 |})
        (Some sample_valuation) (Some (shanghai_time 1767575000)) None None;
      proved_evidence RoleTaxRulePack (EvidenceObject (input_rule_pack sample_bond_input)) None None
        (Some (shanghai_time 1735660800)) (Some (shanghai_time 1893427200))].
Definition proved_treatment : CouponTaxTreatment := {|
  value_added_tax_rate := from_scaled 60000000000; income_tax_rate := FixedDecimal.ZERO;
  treatment_unit := {| unit_id := mk_ulid RATE_UNIT_ID; unit_version := mk_version 1 |}; gross_coupon_basis := VatIncluded; treatment_rounding := TiesToEven;
  claim_scope := CouponOutputVatBeforeInputCredit; authority_semantic_hash := Some AUTHORITY_SEMANTIC_HASH |}.
Definition proved_consumed (v : Z) : list WireInput := map proto_evidence (sort_by_key evidence_order (proved_inputs v)).

Definition sample_bond_proof (request : AnalyzeBondRequest) (consumed : list WireInput) : AppResult (ParsedContext * ResultMetadata) :=
  materialized_bond_proof request sample_bond_input proved_treatment consumed.

Example sample_proofs :
  is_ok (sample_bond_proof (proved_request 1) (proved_consumed 1)) = true
  /\ is_ok (sample_bond_proof (proved_request 2) (proved_consumed 1)) = false
  /\ is_ok (sample_bond_proof (proved_request 1) (rev (proved_consumed 1))) = false
  /\ is_ok (sample_bond_proof (proved_request 1) (tail (proved_consumed 1))) = false.
Proof. vm_compute. done. Qed.

(** The inputs must be in the order of the evidence, by unit, and in the order of their bytes, where the length of a
    version comes first: with version 200 of the first unit no order satisfies both. *)
Lemma long_version_refused :
  is_ok (sample_bond_proof (proved_request 200) (proved_consumed 200)) = false
  /\ is_ok (sample_bond_proof (proved_request 100) (proved_consumed 100)) = true
  /\ windows2_any (fun a b => ltb (encode_input b) (encode_input a)) (proved_consumed 200) = true.
Proof. vm_compute. done. Qed.

Lemma bond_request_proved_witness :
  exists context m, sample_bond_proof (proved_request 1) (proved_consumed 1) = Ok (context, m)
  /\ proved (proved_request 1) sample_bond_input proved_treatment (proved_consumed 1) context m.
Proof.
  assert (V : is_ok (sample_bond_proof (proved_request 1) (proved_consumed 1)) = true) by (vm_compute; reflexivity). revert V.
  destruct (sample_bond_proof (proved_request 1) (proved_consumed 1)) as [[context m]|] eqn:E; [|discriminate]. intros _.
  exists context, m. split; [reflexivity|].
  exact (proj1 (bond_request_proved (proved_request 1) sample_bond_input proved_treatment (proved_consumed 1) context m E)).
Defined.
End example.
