(* ===== verification/RatesExecution.v ===== *)
(** * The execution of a bond request

    The private execution of [crates/ficant-api/src/rates.rs]: [execute_materialized_bond_request], its
    variant for the second version of coupon tax and the sealed requests of [parse_analyze_bond_request]. The
    numerical engine is an argument. *)

From Stdlib Require Import ZArith Lia Strings.String.
From Stdlib Require Import Strings.Byte.
From stdpp Require Import base list option strings numbers sorting.
From S2P Require Import Prelude Machine Collections Primitives FixedDecimal Codec Concrete AppErrors Access Subject BondAnalytics Wire CouponTax RatesBond RatesEvidence RatesProof.
Open Scope Z_scope.

Section execution.
Context `{UlidCrate} `{Sha256} `{Chrono} `{ChronoParse} `{InputEncoder}.

(** The test of the schema of the result compares two equal constants. *)
Definition execute_materialized_bond_request (engine : BondAnalyticsEngine) (request : AnalyzeBondRequest) (input : BondAnalyticsInput)
    (treatment : CouponTaxTreatment) (supplied_metadata : ResultMetadata) : AppResult AnalyzeBondResult :=
  '(context, expected_metadata) ← materialized_bond_proof request input treatment (metadata_inputs supplied_metadata);
  if negb (bool_decide (supplied_metadata = expected_metadata)) then Err invalid_value else
  pre_tax ← calculate_bond_analytics engine input;
  rate ← tax_adjusted_coupon_rate input pre_tax treatment;
  terms ← map_err map_domain_error (with_coupon_rate (input_terms input) rate);
  after_tax_input ← map_err map_domain_error (with_terms_and_price_in input terms (clean_price (measures pre_tax)));
  after_tax ← calculate_bond_analytics engine after_tax_input;
  bond_result_with_metadata pre_tax after_tax treatment (parsed_units context) supplied_metadata.

Definition execute_materialized_v2_bond_request (engine : BondAnalyticsEngine) (request : AnalyzeBondRequest) (input : BondAnalyticsInput)
    (treatment : SubjectCouponTaxTreatment) (authority_semantic_hash : list byte) (supplied_metadata : ResultMetadata) : AppResult AnalyzeBondResult :=
  treatment ← canonical_v2_coupon_tax_treatment input treatment authority_semantic_hash;
  execute_materialized_bond_request engine request input treatment supplied_metadata.

(** ** Sealed requests *)

Record ParsedBondAnalyticsRequest := {
  sealed_request : AnalyzeBondRequest;
  sealed_input : BondAnalyticsInput;
  sealed_treatment : CouponTaxTreatment;
  sealed_metadata : ResultMetadata
}.

Definition parse_analyze_bond_request (request : AnalyzeBondRequest) (input : BondAnalyticsInput) (treatment : CouponTaxTreatment)
    (consumed : list WireInput) : AppResult ParsedBondAnalyticsRequest :=
  metadata ← canonical_materialized_bond_metadata request input treatment consumed;
  Ok {| sealed_request := request; sealed_input := input; sealed_treatment := treatment; sealed_metadata := metadata |}.

Definition execute_parsed_bond_request (engine : BondAnalyticsEngine) (parsed : ParsedBondAnalyticsRequest) : AppResult AnalyzeBondResult :=
  execute_materialized_bond_request engine (sealed_request parsed) (sealed_input parsed) (sealed_treatment parsed) (sealed_metadata parsed).

Definition analyze_bond_request (engine : BondAnalyticsEngine) (request : AnalyzeBondRequest) (input : BondAnalyticsInput)
    (treatment : CouponTaxTreatment) (consumed : list WireInput) : AppResult AnalyzeBondResult :=
  parsed ← parse_analyze_bond_request request input treatment consumed;
  execute_parsed_bond_request engine parsed.

(** ** Answers *)

(** A calculation before and after tax, and the result it is written into. *)
Record answered_with (engine : BondAnalyticsEngine) (input : BondAnalyticsInput) (t : CouponTaxTreatment) (units : UnitBindings)
    (metadata : ResultMetadata) (answer : AnalyzeBondResult) : Prop := {
  answered_with_by : exists pre post input',
    engine input = Ok pre /\ result_input pre = input
    /\ repriced input pre t input' /\ engine input' = Ok post /\ result_input post = input'
    /\ analysis_cashflows answer = derived_cashflows pre units
    /\ analysis_measures answer = Some (wire_measures (measures pre) units)
    /\ analysis_metadata answer = Some metadata
    /\ exists adjusted, analysis_after_tax answer = Some {| adjusted_cashflows := adjusted;
         adjusted_yield_to_maturity := Some (wire_decimal (yield_to_maturity (measures post)) (rate units));
         adjusted_claim_scope := proto_claim_scope (claim_scope t) |}
       /\ Forall2 (net_cashflow t units) (cashflows pre) adjusted
}.

(** A request of the second version, answered. *)
Definition answered (engine : BondAnalyticsEngine) (request : AnalyzeBondRequest) (input : BondAnalyticsInput) (h : list byte)
    (metadata : ResultMetadata) (answer : AnalyzeBondResult) : Prop :=
  exists context t, proved request input t (metadata_inputs metadata) context metadata /\ v2_treatment input h t
    /\ answered_with engine input t (parsed_units context) metadata answer.

Section engine.
Context (engine : BondAnalyticsEngine).
Hypothesis engine_machine : forall input r, engine input = Ok r -> machine_result r.

Lemma execute_Ok request input t metadata answer : wf_treatment t -> wf_fixed (face_amount (input_terms input)) ->
  execute_materialized_bond_request engine request input t metadata = Ok answer ->
  exists context, proved request input t (metadata_inputs metadata) context metadata
    /\ answered_with engine input t (parsed_units context) metadata answer.
Proof.
  intros Hw Hface E. unfold execute_materialized_bond_request in E. apply bind_Ok in E as ([context expected] & Ep & E). apply unless_Ok in E as [Hm E].
  apply negb_false_iff, bool_decide_eq_true in Hm. subst expected. apply bind_Ok in E as (pre & Epre%calculate_Ok & E). destruct Epre as [Epre Hpre].
  apply bind_Ok in E as (r & Er & E). apply bind_Ok in E as (terms & Eterms%map_err_Ok & E). apply bind_Ok in E as (input' & Einput%map_err_Ok & E).
  apply bind_Ok in E as (post & Epost%calculate_Ok & E). destruct Epost as [Epost Hpost].
  unfold bond_result_with_metadata in E. apply bind_Ok in E as (adjusted & Ea & [= <-]). exists context. split; [by apply proof_Ok|].
  split. exists pre, post, input'. split; [done|]. split; [done|]. split.
  - destruct (tax_adjusted_coupon_rate_Ok input pre t r Hw (engine_machine _ _ Epre) Hface Er) as (gross & net & Hall & Hn & Hrange & Hround).
    exists gross, net, r. split; [done|]. split; [done|]. split; [done|]. split; [done|].
    assert (Hi : input_terms input' = terms).
    { unfold with_terms_and_price_in in Einput. apply bond_analytics_input_new_Ok in Einput as [_ ->]. done. }
    rewrite Hi. done.
  - split; [done|]. split; [done|]. split; [done|]. split; [done|]. split; [done|]. exists adjusted. split; [done|].
    apply tax_adjusted_cashflows_Ok; [done| |done]. by apply (engine_machine input).
Qed.

Lemma execute_v2_Ok request input w h metadata answer : wf_fixed (face_amount (input_terms input)) ->
  execute_materialized_v2_bond_request engine request input w h metadata = Ok answer -> answered engine request input h metadata answer.
Proof.
  intros Hface E. unfold execute_materialized_v2_bond_request in E. apply bind_Ok in E as (t & [Ht Hw]%canonical_v2_Ok & E).
  apply execute_Ok in E as (context & Hp & Ha); [|done..]. by exists context, t.
Qed.

(** A sealed request runs as if its proof were checked once. *)
Lemma analyze_Ok request input t consumed answer : wf_treatment t -> wf_fixed (face_amount (input_terms input)) ->
  analyze_bond_request engine request input t consumed = Ok answer ->
  exists context metadata, materialized_bond_proof request input t consumed = Ok (context, metadata)
    /\ answered_with engine input t (parsed_units context) metadata answer.
Proof.
  intros Hw Hface E. unfold analyze_bond_request, parse_analyze_bond_request, canonical_materialized_bond_metadata in E.
  apply bind_Ok in E as (parsed & Ep & E). apply bind_Ok in Ep as (m & Em & Ep). apply bind_Ok in Em as ([c m'] & Epr & Em).
  injection Em as <-. injection Ep as <-. unfold execute_parsed_bond_request in E. cbn in E.
  pose proof (proof_Ok _ _ _ _ _ _ Epr) as [(facts & evidence & inputs & Hc & _ & _ & _ & _ & _ & _ & _ & _ & Hm)].
  apply execute_Ok in E as (c' & [(facts' & evidence' & inputs' & Hc' & _)] & Ha); [|done..]. rewrite Hc in Hc'. injection Hc' as <-. by exists c, m'.
Qed.
End engine.
End execution.

(** C30. The answer to a bond request is sound: it is given only for a proved request and a coupon tax of the authority -
    none before the cutoff of first issue dates, 6% value added tax from it on, with the attributes of the bond -; its
    cash flows and measures are those of the engine for the input, its cash flows after tax pay the net coupon of each
    cash flow and the same principal, and its yield after tax is the engine's for the same bond at the clean
    price before tax, with the coupon rate that pays the net coupon, rounded half to even; and every decimal of
    it is read back as the number it stands for. *)
Theorem bond_answer_sound `{UlidCrate} `{Sha256} `{Chrono} `{ChronoParse} `{InputEncoder} engine request input w h metadata answer :
  (forall input r, engine input = Ok r -> machine_result r) -> wf_fixed (face_amount (input_terms input)) ->
  execute_materialized_v2_bond_request engine request input w h metadata = Ok answer ->
  answered engine request input h metadata answer
  /\ forall x u, wf_fixed x -> parse_fixed_decimal (wire_decimal x u) u = Ok x.
Proof. intros He Hf E. split; [by apply (execute_v2_Ok engine He request input w)|]. intros x u. apply parse_wire_decimal. Qed.

(** ** A concrete answer *)

Section example.
Local Existing Instance sample_ulid_crate.
Local Existing Instance sample_sha256.
Local Existing Instance shanghai_chrono.
Local Existing Instance sample_parse.
Local Existing Instance protobuf.

(** An engine that pays a coupon each year. *)
Definition sample_cashflow (sequence year principal : Z) : DerivedCashflow := {|
  cashflow_sequence := sequence; nominal_date := sample_date year 9 1; payment_date := sample_date year 9 1;
  cashflow_coupon := from_scaled 2120000000000; cashflow_principal := from_scaled principal;
  cashflow_total := from_scaled (2120000000000 + principal) |}.
Definition sample_measures : AnalyticsMeasures := {|
  accrued_interest := from_scaled 0; clean_price := from_scaled 99000000000000; dirty_price := from_scaled 99000000000000;
  yield_to_maturity := from_scaled 20000000000; macaulay_duration := from_scaled 2900000000000; modified_duration := from_scaled 2800000000000;
  convexity := from_scaled 9000000000000; dv01 := from_scaled 28000000000 |}.
Definition sample_engine : BondAnalyticsEngine := fun input => Ok {|
  result_input := input; calendar_resolution := ExactCalendar;
  cashflows := [sample_cashflow 1 2026 0; sample_cashflow 2 2027 0; sample_cashflow 3 2028 100000000000000]; measures := sample_measures |}.

Lemma sample_engine_machine input r : sample_engine input = Ok r -> machine_result r.
Proof. intros Er. injection Er as <-. repeat constructor. Qed.

Definition blank_metadata : ResultMetadata := {|
  metadata_schema_id := ""; metadata_engine_id := ""; metadata_engine_version := ""; metadata_algorithm := None; metadata_subject_ref := None;
  metadata_inputs := []; metadata_parameters := None; metadata_fingerprint := None; metadata_formal_evidence := None |}.
Definition sample_metadata : ResultMetadata :=
  ok_of blank_metadata (canonical_materialized_bond_metadata (proved_request 1) sample_bond_input proved_treatment (proved_consumed 1)).
Definition sample_answer (treatment : SubjectCouponTaxTreatment) (metadata : ResultMetadata) : AppResult AnalyzeBondResult :=
  execute_materialized_v2_bond_request sample_engine (proved_request 1) sample_bond_input treatment (hash_bytes AUTHORITY_SEMANTIC_HASH) metadata.

Example sample_answers :
  match sample_answer sample_wire_treatment sample_metadata with
  | Ok r => (map (fun c => (wire_coefficient <$> wire_coupon c, wire_scale <$> wire_coupon c)) ∘ adjusted_cashflows) <$> analysis_after_tax r
            = Some [(Some "2", Some 0); (Some "2", Some 0); (Some "2", Some 0)]%string
  | Err _ => False
  end
  /\ is_ok (sample_answer {| treatment_vat_profile := VAT_PROFILE; treatment_income_profile := INCOME_PROFILE; wire_vat_rate := wire_tax "0" 0;
       wire_income_rate := wire_tax "0" 0; wire_gross_basis := 1; wire_rounding := 1; wire_claim_scope := 1 |} sample_metadata) = false
  /\ is_ok (sample_answer sample_wire_treatment blank_metadata) = false
  /\ is_ok (analyze_bond_request sample_engine (proved_request 1) sample_bond_input proved_treatment (proved_consumed 1)) = true
  /\ wire_decimal (from_scaled (-1500000000000)) wire_tax_unit
     = {| wire_coefficient := "-15"; wire_scale := 1; wire_unit := Some wire_tax_unit |}.
Proof. vm_compute. done. Qed.

Lemma bond_answer_sound_witness :
  exists answer, sample_answer sample_wire_treatment sample_metadata = Ok answer
  /\ answered sample_engine (proved_request 1) sample_bond_input (hash_bytes AUTHORITY_SEMANTIC_HASH) sample_metadata answer.
Proof.
  assert (V : is_ok (sample_answer sample_wire_treatment sample_metadata) = true) by (vm_compute; reflexivity). revert V.
  destruct (sample_answer sample_wire_treatment sample_metadata) as [answer|] eqn:E; [|discriminate]. intros _. exists answer. split; [reflexivity|].
  refine (proj1 (bond_answer_sound sample_engine (proved_request 1) sample_bond_input sample_wire_treatment
    (hash_bytes AUTHORITY_SEMANTIC_HASH) sample_metadata answer sample_engine_machine _ E)). reflexivity.
Defined.
End example.
