(* ===== verification/MaterializedInput.v ===== *)
(** * The materialized input of the bond node

    The private codec of [crates/ficant-native-nodes/src/lib.rs] that carries a validated bond input, the
    coupon tax treatment, the hash of its authority and the metadata of the result from the application to
    the native node: [encode_materialized_bond_input], [decode_materialized_bond_input] and
    [MaterializedReader]. The state of a reader is the bytes that remain. *)

From Stdlib Require Import ZArith Lia Strings.String.
From Stdlib Require Import Strings.Byte.
From stdpp Require Import base list option strings numbers.
From S2P Require Import Prelude Machine Collections Primitives FixedDecimal Codec Concrete Digits RunJournal Runtime NativeIdentity NativeEnvelope AppErrors BondAnalytics Wire CouponTax RatesBond RatesEvidence RatesProof RatesExecution.
Open Scope Z_scope.

Definition MATERIALIZED_BOND_INPUT_MAGIC : list byte := [x46; x4d; x42; x49; x00; x02].
Definition MAX_DATES : Z := 100000.

(** [to_rfc3339] and [FromStr] of [DateTime<Utc>], and [prost]'s encoders and decoders. *)
Class BondInputFormats : Type := {
  datetime_to_rfc3339 : DateTime -> string;
  parse_datetime : string -> option DateTime;
  encode_treatment : SubjectCouponTaxTreatment -> list byte;
  decode_treatment : list byte -> option SubjectCouponTaxTreatment;
  encode_metadata : ResultMetadata -> list byte;
  decode_metadata : list byte -> option ResultMetadata
}.

(** ** Encoding *)

Definition encode_owner (owner : OwnerRef) : list byte := push_str (ulid_str (tenant_id owner)) ++ push_str (ulid_str (owner_id owner)).

Definition encode_object_ref (value : AnalyticsObjectRef) : list byte :=
  push_str (ulid_str (vr_id (object_ref value))) ++ push_u64 (version_get (vr_version (object_ref value))) ++ hash_bytes (object_hash value).

Definition push_i128 (value : FixedDecimal) : list byte := to_be_bytes 16 (scaled value).

Definition vat_status_code (status : ValueAddedTaxStatus) : Z := match status with VatExempt => 1 | VatTaxable => 2 end.
Definition income_status_code (status : IncomeTaxStatus) : Z := match status with IncomeExempt => 1 | IncomeTaxable => 2 end.

Section encode.
Context `{Chrono}.

Definition push_date (date : NaiveDate) : list byte := push_str (date_to_string date).
Definition encode_dates (dates : list NaiveDate) : list byte := push_seq push_date dates.

Definition encode_calendar (value : CalendarBinding) : list byte :=
  push_str (binding_calendar_id value) ++ push_u64 (version_get (binding_calendar_version value)) ++ hash_bytes (binding_calendar_hash value)
  ++ push_date (coverage_start value) ++ push_date (coverage_end value)
  ++ encode_dates (non_business_days value) ++ encode_dates (work_weekends value).

Definition encode_tax_attributes (value : option BondTaxAttributes) : list byte :=
  match value with
  | Some attributes => to_be_bytes 1 1 ++ to_be_bytes 1 (vat_status_code (value_added_tax_status attributes))
                       ++ to_be_bytes 1 (income_status_code (income_tax_status attributes))
  | None => to_be_bytes 1 0
  end.

Definition encode_terms (value : BondTerms) : list byte :=
  push_date (first_issue_date value) ++ push_date (current_issue_date value) ++ push_date (maturity_date value)
  ++ to_be_bytes 4 (frequency_code (frequency value)) ++ to_be_bytes 4 (day_count_code (day_count value))
  ++ to_be_bytes 4 (business_day_code (business_day value))
  ++ push_i128 (coupon_rate value) ++ push_i128 (face_amount value) ++ push_i128 (cumulative_issued_amount value)
  ++ encode_tax_attributes (tax_attributes value).

Definition encode_time `{BondInputFormats} (value : MarketTime) : list byte :=
  push_str (datetime_to_rfc3339 (instant value)) ++ push_str (market_timezone value) ++ push_date (local_trading_date value).

Definition encode_materialized_bond_input `{BondInputFormats} (input : BondAnalyticsInput)
    (coupon_tax_treatment : SubjectCouponTaxTreatment) (authority_semantic_hash : ContentHash) (metadata : ResultMetadata) : list byte :=
  MATERIALIZED_BOND_INPUT_MAGIC ++ encode_owner (input_owner input)
  ++ encode_object_ref (input_bond input) ++ encode_object_ref (input_rule_pack input) ++ encode_object_ref (input_snapshot input)
  ++ encode_time (input_valuation_at input) ++ push_date (settlement_date input)
  ++ to_be_bytes 1 (requirement_code (calendar_requirement input))
  ++ encode_calendar (input_calendar input) ++ encode_terms (input_terms input)
  ++ to_be_bytes 1 (mode_code (input_mode input)) ++ push_i128 (input_value input)
  ++ frame (encode_treatment coupon_tax_treatment) ++ hash_bytes authority_semantic_hash ++ frame (encode_metadata metadata).
End encode.

(** ** Decoding *)

(** [u8], [u32] and [i128]. *)
Definition read_be (n : nat) (rest : list byte) : RuntimeResult (Z * list byte) :=
  '(bytes, rest) ← take_bytes (Z.of_nat n) rest;
  Ok (from_be_bytes bytes, rest).

Definition read_i128 (rest : list byte) : RuntimeResult (FixedDecimal * list byte) :=
  '(value, rest) ← read_be 16 rest;
  Ok (from_scaled (if value <? 2 ^ 127 then value else value - 2 ^ 128), rest).

(** [string()?.parse()]. *)
Definition read_parsed {A} (parse : string -> option A) (rest : list byte) : RuntimeResult (A * list byte) :=
  '(text, rest) ← decode_string rest;
  value ← ok_or (parse text) native_invalid;
  Ok (value, rest).

(** A code of one of the values, and nothing else. *)
Definition read_code {A} (n : nat) (codes : list (Z * A)) (rest : list byte) : RuntimeResult (A * list byte) :=
  '(code, rest) ← read_be n rest;
  value ← ok_or (snd <$> find (fun entry => fst entry =? code) codes) native_invalid;
  Ok (value, rest).

Definition decode_requirement := read_code 1 [(1, ReferenceReplay); (2, ExactMarket)].
Definition decode_mode := read_code 1 [(1, YieldIn); (2, PriceIn)].
Definition decode_frequency := read_code 4 [(1, Annual); (2, Semiannual)].
Definition decode_day_count := read_code 4 [(1, ActActBondIsma)].
Definition decode_business_day := read_code 4 [(1, Following)].
Definition decode_vat_status := read_code 1 [(1, VatExempt); (2, VatTaxable)].
Definition decode_income_tax_status := read_code 1 [(1, IncomeExempt); (2, IncomeTaxable)].

Section decode.
Context `{UlidCrate} `{Chrono} `{ChronoParse} `{BondInputFormats}.

Definition decode_ulid (rest : list byte) : RuntimeResult (Ulid * list byte) :=
  '(text, rest) ← decode_string rest;
  id ← map_err Domain (ulid_new text);
  Ok (id, rest).

Definition decode_version (rest : list byte) : RuntimeResult (Version * list byte) :=
  '(value, rest) ← try_u64 rest;
  version ← map_err Domain (version_new value);
  Ok (version, rest).

Definition decode_owner (rest : list byte) : RuntimeResult (OwnerRef * list byte) :=
  '(tenant, rest) ← decode_ulid rest;
  '(owner, rest) ← decode_ulid rest;
  Ok ({| tenant_id := tenant; owner_id := owner |}, rest).

Definition decode_object_ref (rest : list byte) : RuntimeResult (AnalyticsObjectRef * list byte) :=
  '(id, rest) ← decode_ulid rest;
  '(version, rest) ← decode_version rest;
  '(content_hash, rest) ← decode_hash rest;
  Ok ({| object_ref := {| vr_id := id; vr_version := version |}; object_hash := content_hash |}, rest).

Definition decode_time (rest : list byte) : RuntimeResult (MarketTime * list byte) :=
  '(instant, rest) ← read_parsed parse_datetime rest;
  '(timezone, rest) ← decode_string rest;
  '(date, rest) ← read_parsed parse_date rest;
  time ← map_err Domain (market_time_new instant timezone date);
  Ok (time, rest).

(** [for _ in 0..count]. *)
Fixpoint read_dates (count : nat) (rest : list byte) : RuntimeResult (list NaiveDate * list byte) :=
  match count with
  | O => Ok ([], rest)
  | S count =>
      '(date, rest) ← read_parsed parse_date rest;
      '(dates, rest) ← read_dates count rest;
      Ok (date :: dates, rest)
  end.

Definition decode_dates (rest : list byte) : RuntimeResult (list NaiveDate * list byte) :=
  '(count, rest) ← try_u64 rest;
  if (MAX_DATES <? count) || (Z.of_nat (List.length rest) / 8 <? count) then Err native_invalid
  else read_dates (Z.to_nat count) rest.

Definition decode_calendar (rest : list byte) : RuntimeResult (CalendarBinding * list byte) :=
  '(id, rest) ← decode_string rest;
  '(version, rest) ← decode_version rest;
  '(content_hash, rest) ← decode_hash rest;
  '(coverage_start, rest) ← read_parsed parse_date rest;
  '(coverage_end, rest) ← read_parsed parse_date rest;
  '(non_business_days, rest) ← decode_dates rest;
  '(work_weekends, rest) ← decode_dates rest;
  calendar ← map_err Domain (calendar_binding_new id version content_hash coverage_start coverage_end non_business_days work_weekends);
  Ok (calendar, rest).

Definition decode_tax_attributes (rest : list byte) : RuntimeResult (option BondTaxAttributes * list byte) :=
  '(present, rest) ← read_code 1 [(0, false); (1, true)] rest;
  if present : bool then
    '(vat, rest) ← decode_vat_status rest;
    '(income, rest) ← decode_income_tax_status rest;
    Ok (Some {| value_added_tax_status := vat; income_tax_status := income |}, rest)
  else Ok (None, rest).

Definition decode_terms (rest : list byte) : RuntimeResult (BondTerms * list byte) :=
  '(first_issue_date, rest) ← read_parsed parse_date rest;
  '(current_issue_date, rest) ← read_parsed parse_date rest;
  '(maturity_date, rest) ← read_parsed parse_date rest;
  '(frequency, rest) ← decode_frequency rest;
  '(day_count, rest) ← decode_day_count rest;
  '(business_day, rest) ← decode_business_day rest;
  '(coupon_rate, rest) ← read_i128 rest;
  '(face_amount, rest) ← read_i128 rest;
  '(cumulative_issued_amount, rest) ← read_i128 rest;
  '(tax_attributes, rest) ← decode_tax_attributes rest;
  terms ← map_err Domain
    match tax_attributes with
    | Some attributes =>
        bond_terms_with_issuance first_issue_date current_issue_date maturity_date frequency day_count business_day coupon_rate
          face_amount cumulative_issued_amount attributes
    | None =>
        if bool_decide (current_issue_date = first_issue_date) && bool_decide (cumulative_issued_amount = face_amount)
        then bond_terms_new first_issue_date maturity_date frequency day_count business_day coupon_rate face_amount
        else Err InvalidValue
    end;
  Ok (terms, rest).

Definition MaterializedBond : Type := BondAnalyticsInput * SubjectCouponTaxTreatment * ContentHash * ResultMetadata.

Definition decode_materialized_bond_input (bytes : list byte) : RuntimeResult MaterializedBond :=
  '(magic, rest) ← take_bytes (Z.of_nat (List.length MATERIALIZED_BOND_INPUT_MAGIC)) bytes;
  if negb (bool_decide (magic = MATERIALIZED_BOND_INPUT_MAGIC)) then Err native_invalid else
  '(owner, rest) ← decode_owner rest;
  '(bond, rest) ← decode_object_ref rest;
  '(rule_pack, rest) ← decode_object_ref rest;
  '(snapshot, rest) ← decode_object_ref rest;
  '(valuation_at, rest) ← decode_time rest;
  '(settlement_date, rest) ← read_parsed parse_date rest;
  '(calendar_requirement, rest) ← decode_requirement rest;
  '(calendar, rest) ← decode_calendar rest;
  '(terms, rest) ← decode_terms rest;
  '(mode, rest) ← decode_mode rest;
  '(input_value, rest) ← read_i128 rest;
  '(treatment, rest) ← decode_bytes rest;
  coupon_tax_treatment ← ok_or (decode_treatment treatment) native_invalid;
  '(authority_semantic_hash, rest) ← decode_hash rest;
  '(metadata, rest) ← decode_bytes rest;
  metadata ← ok_or (decode_metadata metadata) native_invalid;
  if negb (bool_decide (rest = [])) then Err native_invalid else
  input ← map_err Domain (bond_analytics_input_new owner bond rule_pack snapshot valuation_at settlement_date calendar_requirement
                            calendar terms mode input_value);
  Ok (input, coupon_tax_treatment, authority_semantic_hash, metadata).
End decode.

(** ** The readers read what the writers wrote *)

(** [read] takes the bytes [w] off the front of its input and returns [a]. *)
Definition reads {A} (read : list byte -> RuntimeResult (A * list byte)) (a : A) (w : list byte) : Prop :=
  forall r, read (w ++ r) = Ok (a, r).

Create HintDb reads.

Lemma reads_bind {A B} read (a : A) w r (k : A * list byte -> RuntimeResult B) : reads read a w -> (p ← read (w ++ r); k p) = k (a, r).
Proof. intros Hr. by rewrite Hr. Qed.

(** Reads the fields of a record one after another. *)
Ltac read_fields := repeat (erewrite reads_bind by eauto with reads; cbn beta iota).

Lemma reads_be n z : 0 <= z < 256 ^ Z.of_nat n -> reads (read_be n) z (to_be_bytes n z).
Proof.
  intros Hz r. unfold read_be. rewrite <- (length_to_be_bytes n z) at 1. rewrite take_bytes_app. cbn [mbind Result_bind].
  by rewrite from_to_be_bytes, Z.mod_small.
Qed.

Lemma reads_i128 x : wf_fixed x -> reads read_i128 x (push_i128 x).
Proof.
  intros Hx r. unfold read_i128, read_be, push_i128. change (Z.of_nat 16) with (Z.of_nat (List.length (to_be_bytes 16 (scaled x)))).
  rewrite take_bytes_app. cbn [mbind Result_bind]. rewrite from_to_be_bytes. unfold wf_fixed in Hx. ranges.
  change (256 ^ Z.of_nat 16) with (2 ^ 128). destruct x as [z]. cbn [scaled] in *. do 3 f_equal.
  destruct (Z.ltb_spec (z mod 2 ^ 128) (2 ^ 127)); destruct (Z.ltb_spec z 0).
  - rewrite <- (Z.mod_add z 1), Z.mod_small in * by lia. lia.
  - by rewrite Z.mod_small by lia.
  - rewrite <- (Z.mod_add z 1) by lia. rewrite Z.mod_small by lia. lia.
  - rewrite Z.mod_small in * by lia. lia.
Qed.

(** A text that its parser reads back. *)
Definition text_of {A} (parse : string -> option A) (text : string) (a : A) : Prop :=
  parse text = Some a /\ utf8_valid (as_bytes text) = true /\ short (as_bytes text).

Lemma reads_string s : utf8_valid (as_bytes s) = true -> short (as_bytes s) -> reads decode_string s (push_str s).
Proof. intros Hu Hs r. by apply decode_string_Ok. Qed.

Lemma reads_parsed {A} parse text (a : A) : text_of parse text a -> reads (read_parsed parse) a (push_str text).
Proof. intros (Hp & Hu & Hs) r. unfold read_parsed. rewrite (reads_bind _ text) by (by apply reads_string). cbn. by rewrite Hp. Qed.

Lemma reads_code {A} n (codes : list (Z * A)) code a :
  0 <= code < 256 ^ Z.of_nat n -> snd <$> find (fun entry => fst entry =? code) codes = Some a -> reads (read_code n codes) a (to_be_bytes n code).
Proof. intros Hc Hf r. unfold read_code. rewrite (reads_bind _ code) by (by apply reads_be). cbn beta iota. by rewrite Hf. Qed.

Lemma reads_requirement q : reads decode_requirement q (to_be_bytes 1 (requirement_code q)).
Proof. apply reads_code; by destruct q. Qed.
Lemma reads_mode m : reads decode_mode m (to_be_bytes 1 (mode_code m)).
Proof. apply reads_code; by destruct m. Qed.
Lemma reads_frequency f : reads decode_frequency f (to_be_bytes 4 (frequency_code f)).
Proof. apply reads_code; by destruct f. Qed.
Lemma reads_day_count d : reads decode_day_count d (to_be_bytes 4 (day_count_code d)).
Proof. apply reads_code; by destruct d. Qed.
Lemma reads_business_day b : reads decode_business_day b (to_be_bytes 4 (business_day_code b)).
Proof. apply reads_code; by destruct b. Qed.

Lemma reads_frame v : short v -> reads decode_bytes v (frame v).
Proof. intros Hv r. by apply decode_bytes_Ok. Qed.

Lemma reads_hash h : wf_hash h -> reads decode_hash h (hash_bytes h).
Proof. intros Hh r. by apply decode_hash_Ok. Qed.

#[export] Hint Resolve reads_i128 reads_string reads_parsed reads_requirement reads_mode reads_frequency reads_day_count reads_business_day
  reads_frame reads_hash : reads.

Lemma reads_tax_attributes a : reads decode_tax_attributes a (encode_tax_attributes a).
Proof.
  intros r. unfold decode_tax_attributes. destruct a as [[vat income]|]; cbn [encode_tax_attributes value_added_tax_status income_tax_status].
  - rewrite <- !(assoc_L (++)). rewrite (reads_bind _ true) by (by apply reads_code). cbn beta iota.
    rewrite (reads_bind _ vat) by (apply reads_code; by destruct vat). cbn beta iota.
    by rewrite (reads_bind _ income) by (apply reads_code; by destruct income).
  - by rewrite (reads_bind _ false) by (by apply reads_code).
Qed.
#[export] Hint Resolve reads_tax_attributes : reads.

(** ** Well-formed inputs *)

Definition wf_object_ref `{UlidCrate} (r : AnalyticsObjectRef) : Prop := wf_vref (object_ref r) /\ wf_hash (object_hash r).

Record wf_materialized `{UlidCrate} (i : BondAnalyticsInput) : Prop := {
  wf_input_checks : wf_bond_input i;
  wf_input_owner : wf_owner (input_owner i);
  wf_input_refs : wf_object_ref (input_bond i) /\ wf_object_ref (input_rule_pack i) /\ wf_object_ref (input_snapshot i);
  wf_input_calendar : wf_calendar (input_calendar i) /\ wf_version (binding_calendar_version (input_calendar i))
    /\ wf_hash (binding_calendar_hash (input_calendar i));
  wf_input_terms : wf_terms (input_terms i);
  wf_input_numbers : wf_fixed (coupon_rate (input_terms i)) /\ wf_fixed (face_amount (input_terms i))
    /\ wf_fixed (cumulative_issued_amount (input_terms i)) /\ wf_fixed (input_value i);
  wf_input_days : Z.of_nat (List.length (non_business_days (input_calendar i))) <= MAX_DATES
    /\ Z.of_nat (List.length (work_weekends (input_calendar i))) <= MAX_DATES
}.

Section round_trip.
Context `{UlidCrate} `{Chrono} `{ChronoParse} `{BondInputFormats}.

Definition date_prints (d : NaiveDate) : Prop := text_of parse_date (date_to_string d) d.

Definition terms_dates_print (t : BondTerms) : Prop :=
  date_prints (first_issue_date t) /\ date_prints (current_issue_date t) /\ date_prints (maturity_date t).

Definition calendar_prints (c : CalendarBinding) : Prop :=
  utf8_valid (as_bytes (binding_calendar_id c)) = true /\ short (as_bytes (binding_calendar_id c))
  /\ date_prints (coverage_start c) /\ date_prints (coverage_end c)
  /\ Forall date_prints (non_business_days c) /\ Forall date_prints (work_weekends c).

(** The instant and its date print, and [MarketTime::new] makes the time. *)
Definition time_prints (t : MarketTime) : Prop :=
  text_of parse_datetime (datetime_to_rfc3339 (instant t)) (instant t) /\ date_prints (local_trading_date t)
  /\ utf8_valid (as_bytes (market_timezone t)) = true /\ short (as_bytes (market_timezone t))
  /\ market_time_new (instant t) (market_timezone t) (local_trading_date t) = Ok t.

(** Every text of an input is read back by the parser of its field. *)
Definition prints (i : BondAnalyticsInput) : Prop :=
  time_prints (input_valuation_at i) /\ date_prints (settlement_date i) /\ calendar_prints (input_calendar i)
  /\ terms_dates_print (input_terms i).

Lemma reads_ulid u : wf_ulid u -> reads decode_ulid u (push_str (ulid_str u)).
Proof.
  intros Hu r. unfold decode_ulid. rewrite (reads_bind _ (ulid_str u)).
  - cbn. unfold wf_ulid in Hu. by rewrite Hu.
  - apply reads_string; [|by apply short_ulid]. apply ascii_utf8_valid. unfold wf_ulid, ulid_new in Hu. res_simp. breflect. done.
Qed.

Lemma reads_version v : wf_version v -> reads decode_version v (push_u64 (version_get v)).
Proof.
  intros Hv r. unfold decode_version. unfold wf_version in Hv.
  rewrite (proj2 (try_u64_Ok _ (version_get v) r)) by (split; [ranges; lia|done]). cbn [mbind Result_bind].
  unfold version_new. rewrite (proj2 (Z.eqb_neq _ _)) by lia. by destruct v.
Qed.
#[local] Hint Resolve reads_ulid reads_version : reads.

Lemma reads_owner o : wf_owner o -> reads decode_owner o (encode_owner o).
Proof. intros [Ht Ho] r. unfold decode_owner, encode_owner. rewrite <- !(assoc_L (++)). read_fields. by destruct o. Qed.

Lemma reads_object_ref o : wf_object_ref o -> reads decode_object_ref o (encode_object_ref o).
Proof.
  intros [[Hi Hv] Hh] r. unfold decode_object_ref, encode_object_ref. rewrite <- !(assoc_L (++)). read_fields. by destruct o as [[] ?].
Qed.

Lemma reads_date d : date_prints d -> reads (read_parsed parse_date) d (push_date d).
Proof. apply reads_parsed. Qed.
#[local] Hint Resolve reads_owner reads_object_ref reads_date : reads.

Lemma reads_time t : time_prints t -> reads decode_time t (encode_time t).
Proof.
  intros (Hi & Hd & Hu & Hs & Hn) r. unfold decode_time, encode_time. rewrite <- !(assoc_L (++)). read_fields. by rewrite Hn.
Qed.

Lemma reads_dates_n l r : Forall date_prints l -> read_dates (List.length l) (flat_map push_date l ++ r) = Ok (l, r).
Proof.
  induction l as [|d l IH]; intros Hl; [done|]. apply Forall_cons_iff in Hl as [Hd Hl]. cbn [flat_map List.length read_dates].
  rewrite <- !(assoc_L (++)). read_fields. rewrite IH by done. done.
Qed.

Lemma dates_bytes l : (8 * List.length l <= List.length (flat_map push_date l))%nat.
Proof.
  induction l as [|d l IH]; [done|]. cbn [flat_map List.length]. rewrite length_app. unfold push_date at 1, push_str, frame.
  rewrite length_app, length_to_be_bytes. lia.
Qed.

Lemma dates_counted l r : Z.of_nat (List.length l) < 2 ^ 64 ->
  decode_dates (encode_dates l ++ r) =
  if MAX_DATES <? Z.of_nat (List.length l) then Err native_invalid else read_dates (List.length l) (flat_map push_date l ++ r).
Proof.
  intros Hl. unfold decode_dates, encode_dates, push_seq. rewrite <- (assoc_L (++)).
  rewrite (proj2 (try_u64_Ok _ (Z.of_nat (List.length l)) _)) by (split; [ranges; lia|done]). cbn [mbind Result_bind].
  rewrite Nat2Z.id. destruct (MAX_DATES <? _); [done|]. cbn [orb]. rewrite (proj2 (Z.ltb_ge _ _)); [done|].
  apply Z.div_le_lower_bound; [lia|]. rewrite length_app. pose proof (dates_bytes l). lia.
Qed.

Lemma reads_dates l : Forall date_prints l -> Z.of_nat (List.length l) <= MAX_DATES -> reads decode_dates l (encode_dates l).
Proof.
  intros Hl Hn r. unfold MAX_DATES in *. rewrite dates_counted by lia. rewrite (proj2 (Z.ltb_ge _ _)) by done. by apply reads_dates_n.
Qed.
#[local] Hint Resolve reads_time reads_dates : reads.

Lemma reads_calendar c : calendar_prints c -> wf_calendar c -> wf_version (binding_calendar_version c) -> wf_hash (binding_calendar_hash c) ->
  Z.of_nat (List.length (non_business_days c)) <= MAX_DATES -> Z.of_nat (List.length (work_weekends c)) <= MAX_DATES ->
  reads decode_calendar c (encode_calendar c).
Proof.
  intros (Hu & Hs & Hf & Ht & Hh & Hw) Hc Hv Hx Hn Hm r. unfold decode_calendar, encode_calendar. rewrite <- !(assoc_L (++)). read_fields.
  rewrite (proj2 (calendar_binding_new_Ok _ _ _ _ _ _ _ c)); [done|]. split; [done|]. by destruct c.
Qed.

Lemma reads_terms t : terms_dates_print t -> wf_terms t -> wf_fixed (coupon_rate t) -> wf_fixed (face_amount t) ->
  wf_fixed (cumulative_issued_amount t) -> reads decode_terms t (encode_terms t).
Proof.
  intros (Hf & Hc & Hm) Ht Hr Ha Hu r. unfold decode_terms, encode_terms. rewrite <- !(assoc_L (++)). read_fields.
  destruct t as [fi ci mat fr dc bd cr fa cu [tax|]]; cbn in *.
  - by rewrite (proj2 (bond_terms_with_issuance_Ok _ _ _ _ _ _ _ _ _ _ _) (conj Ht eq_refl)).
  - destruct (terms_untaxed _ Ht eq_refl) as [E1 E2]. cbn in E1, E2. subst ci cu. rewrite !bool_decide_eq_true_2 by done. cbn [andb].
    by rewrite (proj2 (bond_terms_new_Ok _ _ _ _ _ _ _ _) (conj Ht (conj eq_refl eq_refl))).
Qed.
#[local] Hint Resolve reads_calendar reads_terms : reads.

(** The message is read back from its bytes. *)
Definition message_of {A} (decode : list byte -> option A) (bytes : list byte) (a : A) : Prop := decode bytes = Some a /\ short bytes.

Lemma decode_encode i treatment h m r : wf_materialized i -> prints i -> wf_hash h ->
  message_of decode_treatment (encode_treatment treatment) treatment -> message_of decode_metadata (encode_metadata m) m ->
  decode_materialized_bond_input (encode_materialized_bond_input i treatment h m ++ r)
  = if bool_decide (r = []) then Ok (i, treatment, h, m) else Err native_invalid.
Proof.
  intros [Hi Ho (Hb & Hp & Hs) (Hc & Hcv & Hch) Ht (Hn1 & Hn2 & Hn3 & Hn4) (Hd1 & Hd2)] (Pt & Ps & Pc & Pd) Hh [Et St] [Em Sm].
  unfold decode_materialized_bond_input, encode_materialized_bond_input. rewrite <- !(assoc_L (++)). rewrite take_bytes_app.
  cbn [mbind Result_bind]. rewrite bool_decide_eq_true_2 by done. cbn [negb].
  do 11 (erewrite reads_bind by eauto with reads; cbn beta iota). read_fields. rewrite Et. cbn [ok_or mbind Result_bind]. read_fields.
  rewrite Em. cbn [ok_or mbind Result_bind]. case_bool_decide; [|done]. cbn [negb].
  rewrite (proj2 (bond_analytics_input_new_Ok _ _ _ _ _ _ _ _ _ _ _ i)); [done|]. split; [done|]. by destruct i.
Qed.

(** ** What is read is well-formed *)

Ltac taken E := let v := fresh "v" in let r := fresh "r" in let F := fresh "F" in apply bind_Ok in E as ([v r] & F & E); cbn beta iota in E.
Ltac kept E := let v := fresh "v" in let F := fresh "F" in apply bind_Ok in E as (v & F & E); cbn beta iota in E.

Lemma decode_ulid_wf l u r : decode_ulid l = Ok (u, r) -> wf_ulid u.
Proof.
  unfold decode_ulid. intros E. taken E. kept E. injection E as <- _. apply map_err_Ok in F0. unfold wf_ulid.
  assert (Ev : ulid_str v0 = v); [|by rewrite Ev]. unfold ulid_new in F0. apply bind_Ok in F0 as (p & _ & F0).
  by apply unless_Ok in F0 as [_ [= <-]].
Qed.

Lemma decode_version_wf l v r : decode_version l = Ok (v, r) -> wf_version v.
Proof.
  unfold decode_version. intros E. taken E. kept E. injection E as <- _. apply map_err_Ok in F0. apply try_u64_Ok in F as [Hu _].
  by apply (version_new_Ok _ _ Hu) in F0 as [? _].
Qed.

Lemma decode_hash_wf l h r : decode_hash l = Ok (h, r) -> wf_hash h.
Proof. by intros [? _]%decode_hash_Ok. Qed.

Lemma decode_owner_wf l o r : decode_owner l = Ok (o, r) -> wf_owner o.
Proof. unfold decode_owner. intros E. taken E. taken E. injection E as <- _. apply decode_ulid_wf in F, F0. done. Qed.

Lemma decode_object_ref_wf l o r : decode_object_ref l = Ok (o, r) -> wf_object_ref o.
Proof.
  unfold decode_object_ref. intros E. taken E. taken E. taken E. injection E as <- _.
  apply decode_ulid_wf in F. apply decode_version_wf in F0. apply decode_hash_wf in F1. done.
Qed.

Lemma read_i128_wf l x r : read_i128 l = Ok (x, r) -> wf_fixed x.
Proof.
  unfold read_i128, read_be. intros E. taken E. taken F. injection F as <- <-. injection E as <- _.
  apply take_bytes_n in F0 as [Hn _]; [|lia]. pose proof (from_be_bytes_range v0) as Hv. rewrite <- Hn in Hv. change (256 ^ Z.of_nat 16) with (2 ^ 128) in Hv.
  unfold wf_fixed. cbn. destruct (Z.ltb_spec (from_be_bytes v0) (2 ^ 127)); ranges; lia.
Qed.

Lemma read_dates_length n l ds r : read_dates n l = Ok (ds, r) -> List.length ds = n.
Proof.
  revert l ds r. induction n as [|n IH]; intros l ds r E; cbn [read_dates] in E; [by injection E as <- _|].
  taken E. taken E. injection E as <- _. cbn. f_equal. by apply IH in F0.
Qed.

Lemma decode_dates_bound l ds r : decode_dates l = Ok (ds, r) -> Z.of_nat (List.length ds) <= MAX_DATES.
Proof.
  unfold decode_dates. intros E. taken E. apply try_u64_Ok in F as [Hu _]. apply unless_Ok in E as [Hb E].
  apply orb_false_iff in Hb as [Hb%Z.ltb_ge _]. apply read_dates_length in E. ranges. lia.
Qed.

Lemma decode_calendar_wf l c r : decode_calendar l = Ok (c, r) ->
  (wf_calendar c /\ wf_version (binding_calendar_version c) /\ wf_hash (binding_calendar_hash c))
  /\ Z.of_nat (List.length (non_business_days c)) <= MAX_DATES /\ Z.of_nat (List.length (work_weekends c)) <= MAX_DATES.
Proof.
  unfold decode_calendar. intros E. do 7 taken E. kept E. injection E as <- _.
  apply decode_version_wf in F0. apply decode_hash_wf in F1. apply decode_dates_bound in F4, F5.
  apply map_err_Ok, calendar_binding_new_Ok in F6 as [Hc ->]. done.
Qed.

Lemma decode_terms_wf l t r : decode_terms l = Ok (t, r) ->
  wf_terms t /\ wf_fixed (coupon_rate t) /\ wf_fixed (face_amount t) /\ wf_fixed (cumulative_issued_amount t).
Proof.
  unfold decode_terms. intros E. do 10 taken E. kept E. injection E as <- _.
  apply read_i128_wf in F5, F6, F7. apply map_err_Ok in F9. destruct v8 as [tax|].
  - apply bond_terms_with_issuance_Ok in F9 as [Ht ->]. done.
  - destruct (bool_decide _ && _); [|done]. apply bond_terms_new_Ok in F9 as (Ht & _ & ->). done.
Qed.

Lemma decode_wf bytes i treatment h m : decode_materialized_bond_input bytes = Ok (i, treatment, h, m) -> wf_materialized i /\ wf_hash h.
Proof.
  unfold decode_materialized_bond_input. intros E. taken E. apply unless_Ok in E as [_ E]. do 12 taken E. kept E. taken E. taken E. kept E.
  apply unless_Ok in E as [_ E]. kept E. injection E as <- _ <- _.
  apply decode_owner_wf in F0. apply decode_object_ref_wf in F1, F2, F3. apply decode_calendar_wf in F7 as [Hc Hd].
  apply decode_terms_wf in F8 as (Ht & Hn). apply read_i128_wf in F10. apply decode_hash_wf in F13.
  apply map_err_Ok, bond_analytics_input_new_Ok in F16 as [Hi ->]. split; [|done]. destruct Hn as (Hn1 & Hn2 & Hn3).
  split; cbn; [exact Hi|done..].
Qed.
End round_trip.

(** C33. The private codec of the bond node loses nothing and accepts only validated inputs: an input of the
    constructors of the domain, with calendars of at most 100000 dates, is decoded from its encoding with its
    coupon tax treatment, the hash of its authority and its metadata exactly as they were; the encoding with
    anything behind it is refused; and whatever bytes are accepted, the input, its terms, its calendar, its
    references and its numbers have passed the checks of their constructors. Texts are read back by the parsers of
    their fields and messages by the decoders of theirs. *)
Theorem materialized_input_round_trip `{UlidCrate} `{Chrono} `{ChronoParse} `{BondInputFormats} i treatment h
    m :
  wf_materialized i -> prints i -> wf_hash h ->
  message_of decode_treatment (encode_treatment treatment) treatment -> message_of decode_metadata (encode_metadata m) m ->
  decode_materialized_bond_input (encode_materialized_bond_input i treatment h m) = Ok (i, treatment, h, m)
  /\ (forall trailing, trailing <> [] ->
        decode_materialized_bond_input (encode_materialized_bond_input i treatment h m ++ trailing) = Err native_invalid)
  /\ forall bytes i' treatment' h' m',
       decode_materialized_bond_input bytes = Ok (i', treatment', h', m') -> wf_materialized i' /\ wf_hash h'.
Proof.
  intros Hi Hp Hh Ht Hm. split; [|split].
  - rewrite <- (app_nil_r (encode_materialized_bond_input i treatment h m)), decode_encode by done. by rewrite bool_decide_eq_true_2.
  - intros r Hr. rewrite decode_encode by done. by rewrite bool_decide_eq_false_2.
  - intros *. apply decode_wf.
Qed.

(** ** A concrete payload *)

Section example.
Local Existing Instance sample_ulid_crate.
Local Existing Instance sample_sha256.
Local Existing Instance shanghai_chrono.
Local Existing Instance sample_parse.
Local Existing Instance protobuf.

(** Seconds in decimal, and the bytes of one treatment and of one metadata. *)
Definition sample_formats : BondInputFormats := {|
  datetime_to_rfc3339 := fun t => to_string (timestamp t);
  parse_datetime := fun s => (fun z => {| timestamp := z; timestamp_subsec_nanos := 0 |}) <$> parse_i128 s;
  encode_treatment := fun _ => [x01];
  decode_treatment := fun bytes => if bool_decide (bytes = [x01]) then Some sample_wire_treatment else None;
  encode_metadata := fun _ => [x02];
  decode_metadata := fun bytes => if bool_decide (bytes = [x02]) then Some sample_metadata else None
|}.
Local Existing Instance sample_formats.

Definition sample_payload : list byte :=
  encode_materialized_bond_input sample_bond_input sample_wire_treatment (sample_hash x44) sample_metadata.

Lemma sample_bond_input_checks : wf_bond_input sample_bond_input.
Proof.
  eapply proj1, bond_analytics_input_new_Ok.
  exact (eq_refl : bond_analytics_input_new (input_owner sample_bond_input) (input_bond sample_bond_input) (input_rule_pack sample_bond_input)
    (input_snapshot sample_bond_input) (input_valuation_at sample_bond_input) (settlement_date sample_bond_input)
    (calendar_requirement sample_bond_input) (input_calendar sample_bond_input) (input_terms sample_bond_input) (input_mode sample_bond_input)
    (input_value sample_bond_input) = Ok sample_bond_input).
Qed.

Lemma sample_wf_materialized : wf_materialized sample_bond_input.
Proof.
  split; [exact sample_bond_input_checks|..]; try (vm_compute; done); repeat split; try done; vm_compute; done.
Qed.

Lemma sample_prints : prints sample_bond_input.
Proof. repeat split; repeat (constructor || split); vm_compute; done. Qed.

Example sample_payload_refused :
  is_ok (decode_materialized_bond_input sample_payload) = true
  /\ is_ok (decode_materialized_bond_input (x00 :: sample_payload)) = false
  /\ is_ok (decode_materialized_bond_input (removelast sample_payload)) = false.
Proof. vm_compute. done. Qed.

Lemma materialized_input_round_trip_witness :
  decode_materialized_bond_input sample_payload = Ok (sample_bond_input, sample_wire_treatment, sample_hash x44, sample_metadata).
Proof.
  refine (proj1 (materialized_input_round_trip sample_bond_input sample_wire_treatment (sample_hash x44) sample_metadata
    sample_wf_materialized sample_prints _ _ _)); [reflexivity|split; vm_compute; reflexivity..].
Defined.
End example.
