(* ===== verification/NativeRegistry.v ===== *)
(** * The registry of trusted native nodes

    The contracts and the registry of [crates/ficant-native-nodes/src/lib.rs] and the source digest of its
    [build.rs]: the types of the ports, the built-in contracts, the digest of an implementation and
    [trusted_native_node]. What the nodes compute is in [NativeNodes]. *)

From Stdlib Require Import ZArith Lia Strings.String.
From Stdlib Require Import Strings.Byte.
From stdpp Require Import base list option strings numbers sorting.
From S2P Require Import Prelude Machine Collections Primitives Codec Concrete Digits ResearchGraph GraphOrder GraphWiring GraphConstruction RunJournal Runtime NativeIdentity Cursor BondAnalytics.
Open Scope Z_scope.

Definition REQUEST_PORT : string := "request".
Definition MATERIALIZED_INPUT_PORT : string := "materialized".
Definition RESULT_PORT : string := "result".
Definition REQUEST_TYPE_ID : string := "ficant.rates.v1.analyze-bond-request".
Definition MATERIALIZED_BOND_INPUT_TYPE_ID : string := "ficant.domain.bond-analytics-input.materialized".
Definition RESULT_TYPE_ID : string := "ficant.rates.v1.analyze-bond-result".
Definition NODE_CONTRACT_ID : string := "ficant.native.cgb-bond-analytics".
Definition RISK_INPUT_PORT : string := "analysis".
Definition RISK_OUTPUT_PORT : string := "risk-summary".
Definition RISK_SUMMARY_TYPE_ID : string := "ficant.rates.v1.risk-summary".
Definition RISK_SUMMARY_CONTRACT_ID : string := "ficant.native.cgb-bond-risk-summary".

Definition REQUEST_PROTOBUF_NAME : string := "ficant.rates.v1.AnalyzeBondRequest".
Definition RESULT_PROTOBUF_NAME : string := "ficant.rates.v1.AnalyzeBondResult".
Definition RISK_SUMMARY_PROTOBUF_NAME : string := "ficant.rates.v1.RiskSummary".
Definition MATERIALIZED_BOND_INPUT_SCHEMA : string := "ficant/materialized-bond-analytics-input-schema/v2".
Definition ANALYTICS_IMPLEMENTATION_DOMAIN : string := "ficant/cgb-bond-analytics-native-node-implementation/v3".
Definition RISK_SUMMARY_IMPLEMENTATION_DOMAIN : string := "ficant/cgb-bond-risk-summary-native-node-implementation/v1".

(** ** The build *)

(** The files that [build.rs] digests, and the version of the package. *)
Class NativeBuild : Type := {
  CARGO_PKG_VERSION : string;
  cargo_toml : list byte;
  build_rs : list byte;
  lib_rs : list byte;
  ANALYTICS_PROTO : list byte
}.

(** [build.rs]: [SOURCES] and [main]. *)
Definition build_sources `{NativeBuild} : list (string * list byte) :=
  [("Cargo.toml"%string, cargo_toml); ("build.rs"%string, build_rs); ("src/lib.rs"%string, lib_rs);
   ("interface/proto/ficant/rates/v1/analytics.proto"%string, ANALYTICS_PROTO)].

Definition NATIVE_NODES_SOURCE_DIGEST `{Sha256} `{NativeBuild} : string :=
  string_of_list_byte (encode_hex (sha256 (as_bytes "ficant/native-node-relevant-source/v1"
    ++ flat_map (fun source => push_str (fst source) ++ frame (snd source)) build_sources))).

(** [None] is a panic. *)
Definition decode_build_digest (value : string) : option ContentHash :=
  if negb (str_len value =? 64) then None else
  bytes ← decode_hex (as_bytes value);
  Some (mk_hash bytes).

Definition native_node_source_digest `{Sha256} `{NativeBuild} : option ContentHash := decode_build_digest NATIVE_NODES_SOURCE_DIGEST.

Definition native_node_source_digest_attestation `{Sha256} `{NativeBuild} : option string :=
  hash ← native_node_source_digest;
  Some ("sha256:" ++ string_of_list_byte (encode_hex (hash_bytes hash)))%string.

(** ** Types and contracts *)

Section registry.
Context `{Sha256} `{NativeBuild}.

(** [expect] on a constructor that accepts the constants. *)
Definition message_type (type_id protobuf_name : string) : TypedValue := {|
  type_id := type_id; type_version := mk_version 1;
  schema_hash := digest (as_bytes "ficant/protobuf-message-schema/v1" ++ push_str protobuf_name ++ ANALYTICS_PROTO) |}.

Definition analyze_bond_request_type : TypedValue := message_type REQUEST_TYPE_ID REQUEST_PROTOBUF_NAME.
Definition materialized_bond_input_type : TypedValue := {|
  type_id := MATERIALIZED_BOND_INPUT_TYPE_ID; type_version := mk_version 1; schema_hash := digest (as_bytes MATERIALIZED_BOND_INPUT_SCHEMA) |}.
Definition analyze_bond_result_type : TypedValue := message_type RESULT_TYPE_ID RESULT_PROTOBUF_NAME.
Definition risk_summary_type : TypedValue := message_type RISK_SUMMARY_TYPE_ID RISK_SUMMARY_PROTOBUF_NAME.

Definition stateless_permissions : NodePermissions := {| network := false; database := false; filesystem := NoFilesystem |}.

Definition cgb_bond_analytics_contract : DomainResult ResearchNodeContract :=
  version ← version_new 2;
  request ← port_type_new REQUEST_PORT analyze_bond_request_type;
  materialized ← port_type_new MATERIALIZED_INPUT_PORT materialized_bond_input_type;
  result ← port_type_new RESULT_PORT analyze_bond_result_type;
  limits ← resource_limits_new 1 256 30;
  research_node_contract_new {|
    contract_id := NODE_CONTRACT_ID; contract_version := version; input_types := [request; materialized]; output_types := [result];
    state_schema := digest (as_bytes "ficant.native.stateless.v1"); parameter_schema := digest (as_bytes "ficant.native.no-parameters.v1");
    determinism_class := Deterministic; permissions := stateless_permissions; resource_limits := limits;
    required_invariants := ["external_input_hash_exact"; "materialized_business_input_exact"; "no_external_side_effects";
                            "protobuf_contract_exact"; "reproducibility_lineage_exact"]%string;
    contract_digest := digest [] |}.

Definition cgb_bond_risk_summary_contract : DomainResult ResearchNodeContract :=
  version ← version_new 1;
  input ← port_type_new RISK_INPUT_PORT analyze_bond_result_type;
  output ← port_type_new RISK_OUTPUT_PORT risk_summary_type;
  limits ← resource_limits_new 1 128 10;
  research_node_contract_new {|
    contract_id := RISK_SUMMARY_CONTRACT_ID; contract_version := version; input_types := [input]; output_types := [output];
    state_schema := digest (as_bytes "ficant.native.stateless.v1"); parameter_schema := digest (as_bytes "ficant.native.no-parameters.v1");
    determinism_class := Deterministic; permissions := stateless_permissions; resource_limits := limits;
    required_invariants := ["analyze_bond_result_contract_exact"; "no_numerical_recomputation"; "source_metadata_preserved";
                            "upstream_artifact_lineage_exact"]%string;
    contract_digest := digest [] |}.

Definition implementation_names : list string :=
  [CARGO_PKG_VERSION; ENGINE_ID; ENGINE_VERSION; ALGORITHM_ID; CONVENTION_PROFILE; REQUEST_TYPE_ID; MATERIALIZED_BOND_INPUT_TYPE_ID;
   RESULT_TYPE_ID; RISK_SUMMARY_TYPE_ID; REQUEST_PROTOBUF_NAME; RESULT_PROTOBUF_NAME; RISK_SUMMARY_PROTOBUF_NAME].

Definition implementation_bytes (domain : string) (contract : ResearchNodeContract) (source_digest : ContentHash) : list byte :=
  as_bytes domain ++ hash_bytes (contract_digest contract) ++ hash_bytes source_digest ++ flat_map push_str implementation_names
  ++ to_be_bytes 4 ABI_VERSION ++ to_be_bytes 4 ALGORITHM_VERSION ++ hash_bytes (schema_hash analyze_bond_request_type)
  ++ hash_bytes (schema_hash materialized_bond_input_type) ++ hash_bytes (schema_hash analyze_bond_result_type).

Definition implementation_digest_of (domain : string) (contract : ResearchNodeContract) (source_digest : ContentHash) : ContentHash :=
  digest (implementation_bytes domain contract source_digest).

(** ** Trusted nodes *)

(** The fields of both nodes. *)
Record BoundNode := { bound_node_id : Ulid; bound_contract_digest : ContentHash; bound_implementation : ContentHash }.

Inductive TrustedNativeNode := TrustedBondAnalytics (node : BoundNode) | TrustedBondRiskSummary (node : BoundNode).

Definition bound (t : TrustedNativeNode) : BoundNode := match t with TrustedBondAnalytics node | TrustedBondRiskSummary node => node end.

(** The source digest is one for every build, so a panic is no result of [new]. *)
Definition bind_node (domain : string) (contract : DomainResult ResearchNodeContract) (node_id : Ulid) : RuntimeResult BoundNode :=
  contract ← map_err Domain contract;
  source ← ok_or native_node_source_digest native_invalid;
  Ok {| bound_node_id := node_id; bound_contract_digest := contract_digest contract;
        bound_implementation := implementation_digest_of domain contract source |}.

Definition cgb_bond_analytics_node_new (node_id : Ulid) : RuntimeResult BoundNode :=
  bind_node ANALYTICS_IMPLEMENTATION_DOMAIN cgb_bond_analytics_contract node_id.
Definition cgb_bond_risk_summary_node_new (node_id : Ulid) : RuntimeResult BoundNode :=
  bind_node RISK_SUMMARY_IMPLEMENTATION_DOMAIN cgb_bond_risk_summary_contract node_id.

Definition expected_contract (t : TrustedNativeNode) : DomainResult ResearchNodeContract :=
  match t with TrustedBondAnalytics _ => cgb_bond_analytics_contract | TrustedBondRiskSummary _ => cgb_bond_risk_summary_contract end.

Definition trusted_native_node (node : ResearchNode) : RuntimeResult TrustedNativeNode :=
  candidate ←
    (if bool_decide (contract_id (contract node) = NODE_CONTRACT_ID)
     then bound ← cgb_bond_analytics_node_new (node_id node); Ok (TrustedBondAnalytics bound)
     else if bool_decide (contract_id (contract node) = RISK_SUMMARY_CONTRACT_ID)
     then bound ← cgb_bond_risk_summary_node_new (node_id node); Ok (TrustedBondRiskSummary bound)
     else Err native_invalid);
  expected ← map_err Domain (expected_contract candidate);
  if negb (bool_decide (contract_digest (contract node) = contract_digest expected)) then Err native_invalid else Ok candidate.
End registry.

(** ** The build is one digest *)

Lemma source_digest_valid `{Sha256Laws} `{NativeBuild} : exists h, native_node_source_digest = Some h /\ wf_hash h.
Proof.
  unfold native_node_source_digest, NATIVE_NODES_SOURCE_DIGEST. set (bs := as_bytes _ ++ _). exists (digest bs). split; [|apply wf_digest].
  unfold decode_build_digest, str_len. rewrite <- length_as_bytes, as_bytes_of_bytes, length_encode_hex, sha256_length. cbn [negb Z.eqb].
  by rewrite decode_encode_hex.
Qed.

(** ** The built-in contracts *)

(** A contract is named, addressed and well-formed. *)
Definition builtin `{Sha256} (id : string) (c : ResearchNodeContract) : Prop :=
  contract_id c = id /\ contract_addressed c /\ wf_contract c.

Section builtin.
Context `{Sha256Laws} `{NativeBuild}.

Lemma wf_message_type id name : str_len id < 2 ^ 63 -> wf_typed_value (message_type id name).
Proof. intros Hi. split; [exact Hi|]. split; [unfold wf_version; cbn [type_version message_type version_get]; lia|apply wf_digest]. Qed.

Ltac well_formed := repeat split; cbn; try apply wf_digest; try reflexivity; try lia; repeat (apply List.Forall_cons || apply List.Forall_nil);
  try reflexivity; repeat split; cbn; try apply wf_digest; try reflexivity; try lia.

Lemma bond_contract_Ok : exists c, cgb_bond_analytics_contract = Ok c /\ builtin NODE_CONTRACT_ID c.
Proof.
  assert (Ha : forall c, cgb_bond_analytics_contract = Ok c -> contract_addressed c).
  { intros c E. unfold cgb_bond_analytics_contract in E. do 5 apply bind_Ok in E as (? & _ & E). by apply contract_new_addressed in E. }
  eexists. split; [reflexivity|]. split; [reflexivity|]. split; [apply Ha; reflexivity|well_formed].
Qed.

Lemma risk_contract_Ok : exists c, cgb_bond_risk_summary_contract = Ok c /\ builtin RISK_SUMMARY_CONTRACT_ID c.
Proof.
  assert (Ha : forall c, cgb_bond_risk_summary_contract = Ok c -> contract_addressed c).
  { intros c E. unfold cgb_bond_risk_summary_contract in E. do 4 apply bind_Ok in E as (? & _ & E). by apply contract_new_addressed in E. }
  eexists. split; [reflexivity|]. split; [reflexivity|]. split; [apply Ha; reflexivity|well_formed].
Qed.

Lemma node_contract_ids : NODE_CONTRACT_ID <> RISK_SUMMARY_CONTRACT_ID.
Proof. done. Qed.

(** An implementation digest names its contract and the source it was built from. *)
Lemma implementation_digest_identifies domain c s d t :
  wf_hash (contract_digest c) -> wf_hash (contract_digest d) -> wf_hash s -> wf_hash t ->
  implementation_digest_of domain c s = implementation_digest_of domain d t ->
  contract_digest c = contract_digest d /\ s = t \/ collides (implementation_bytes domain c s) (implementation_bytes domain d t).
Proof.
  unfold implementation_digest_of. intros Hc Hd Hs Ht [E|]%digest_collides; [left|by right]. unfold implementation_bytes in E.
  apply app_inv_head in E. apply app_inj_1 in E as [E1 E]; [|unfold wf_hash in *; congruence].
  apply app_inj_1 in E as [E2 _]; [|unfold wf_hash in *; congruence].
  destruct (contract_digest c), (contract_digest d), s, t; cbn in *. by subst.
Qed.

(** The built-in contract and the node of an entry of the registry. *)
Definition entry (n : ResearchNode) (id domain : string) (c : ResearchNodeContract) (b : BoundNode) : Prop :=
  builtin id c /\ contract_digest (contract n) = contract_digest c
  /\ exists source, native_node_source_digest = Some source
     /\ b = {| bound_node_id := node_id n; bound_contract_digest := contract_digest c;
               bound_implementation := implementation_digest_of domain c source |}.

Definition registered (n : ResearchNode) (t : TrustedNativeNode) : Prop :=
  match t with
  | TrustedBondAnalytics b => exists c, cgb_bond_analytics_contract = Ok c /\ contract_id (contract n) = NODE_CONTRACT_ID
      /\ entry n NODE_CONTRACT_ID ANALYTICS_IMPLEMENTATION_DOMAIN c b
  | TrustedBondRiskSummary b => exists c, cgb_bond_risk_summary_contract = Ok c /\ contract_id (contract n) = RISK_SUMMARY_CONTRACT_ID
      /\ entry n RISK_SUMMARY_CONTRACT_ID RISK_SUMMARY_IMPLEMENTATION_DOMAIN c b
  end.

Lemma trusted_Ok n t : trusted_native_node n = Ok t <-> registered n t.
Proof.
  destruct bond_contract_Ok as (cb & Eb & Bb). destruct risk_contract_Ok as (cr & Er & Br). destruct source_digest_valid as (h & Eh & _).
  unfold trusted_native_node, cgb_bond_analytics_node_new, cgb_bond_risk_summary_node_new, bind_node, registered, entry.
  rewrite Eb, Er, Eh. cbn [map_err ok_or mbind Result_bind].
  case_bool_decide as E1; [|case_bool_decide as E2]; cbn [mbind Result_bind expected_contract]; rewrite ?Eb, ?Er; cbn [map_err mbind Result_bind].
  - rewrite unless_Ok, negb_false_iff, bool_decide_eq_true, Ok_inj. split.
    + intros [Hd <-]. exists cb. split; [done|]. split; [done|]. split; [done|]. split; [done|]. by exists h.
    + destruct t as [b|b]; intros (c & [= <-] & Hi & _ & Hd & s & [= <-] & ->); [done|]. exfalso. apply node_contract_ids. congruence.
  - rewrite unless_Ok, negb_false_iff, bool_decide_eq_true, Ok_inj. split.
    + intros [Hd <-]. exists cr. split; [done|]. split; [done|]. split; [done|]. split; [done|]. by exists h.
    + destruct t as [b|b]; intros (c & [= <-] & Hi & _ & Hd & s & [= <-] & ->); [congruence|]. done.
  - split; [done|]. destruct t as [b|b]; intros (c & _ & Hi & _); congruence.
Qed.

Lemma trusted_Err n e : trusted_native_node n = Err e -> e = native_invalid.
Proof.
  destruct bond_contract_Ok as (cb & Eb & _). destruct risk_contract_Ok as (cr & Er & _). destruct source_digest_valid as (h & Eh & _).
  unfold trusted_native_node, cgb_bond_analytics_node_new, cgb_bond_risk_summary_node_new, bind_node. rewrite Eb, Er, Eh.
  cbn [map_err ok_or mbind Result_bind].
  case_bool_decide; [|case_bool_decide]; cbn [mbind Result_bind expected_contract]; rewrite ?Eb, ?Er; cbn [map_err mbind Result_bind];
    [destruct (negb _)..|]; congruence.
Qed.

Lemma trusted_contract n t : contract_addressed (contract n) -> wf_contract (contract n) -> trusted_native_node n = Ok t ->
  exists c, expected_contract t = Ok c /\ (contract n = c \/ collides (contract_canonical_bytes (contract n)) (contract_canonical_bytes c)).
Proof.
  intros Ha Hw Et%trusted_Ok. destruct t as [b|b]; destruct Et as (c & Ec & _ & (_ & Hc & Wc) & Ed & _); cbn [expected_contract]; rewrite Ec;
    exists c; (split; [done|by apply contract_identifies]).
Qed.
End builtin.

(** C36. The registry of native nodes is closed: a node of a graph is trusted exactly when its contract has the name of
    a built-in contract and its digest, and then its contract is that contract, or the canonical bytes of the two
    contracts collide under SHA-256; the executor is bound to the node, to the digest of the contract, and to an
    implementation digest, which two contracts or two source digests of a build share only if the bytes that were
    hashed for them collide; everything else is refused as invalid; and
    the nodes with a built-in contract are all trusted. *)
Theorem trusted_registry_exact `{Sha256Laws} `{NativeBuild} n :
  contract_addressed (contract n) -> wf_contract (contract n) ->
  (forall t, trusted_native_node n = Ok t <-> registered n t)
  /\ (forall t, trusted_native_node n = Ok t ->
        exists c, expected_contract t = Ok c /\ (contract n = c \/ collides (contract_canonical_bytes (contract n)) (contract_canonical_bytes c)))
  /\ (forall e, trusted_native_node n = Err e -> e = native_invalid)
  /\ (cgb_bond_analytics_contract = Ok (contract n) \/ cgb_bond_risk_summary_contract = Ok (contract n) ->
      exists t, trusted_native_node n = Ok t)
  /\ forall domain c s d u, wf_hash (contract_digest c) -> wf_hash (contract_digest d) -> wf_hash s -> wf_hash u ->
       implementation_digest_of domain c s = implementation_digest_of domain d u ->
       contract_digest c = contract_digest d /\ s = u \/ collides (implementation_bytes domain c s) (implementation_bytes domain d u).
Proof.
  intros Ha Hw. split; [apply trusted_Ok|]. split; [intros t; by apply trusted_contract|]. split; [apply trusted_Err|].
  split; [|apply implementation_digest_identifies]. destruct source_digest_valid as (h & Eh & _).
  intros [E|E].
  - destruct bond_contract_Ok as (c & Ec & Bc). pose proof Ec as Ec'. rewrite E in Ec'. apply Ok_inj in Ec' as <-.
    eexists (TrustedBondAnalytics _). apply trusted_Ok. exists (contract n). split; [done|]. split; [apply Bc|]. split; [done|]. split; [done|]. by exists h.
  - destruct risk_contract_Ok as (c & Ec & Bc). pose proof Ec as Ec'. rewrite E in Ec'. apply Ok_inj in Ec' as <-.
    eexists (TrustedBondRiskSummary _). apply trusted_Ok. exists (contract n). split; [done|]. split; [apply Bc|]. split; [done|]. split; [done|]. by exists h.
Qed.

(** ** A concrete registry *)

Definition sample_native_build : NativeBuild := {|
  CARGO_PKG_VERSION := "0.1.0"; cargo_toml := [x01]; build_rs := [x02]; lib_rs := [x03]; ANALYTICS_PROTO := [x04] |}.

Section example.
Local Existing Instance sample_sha256.
Local Existing Instance sample_sha256_laws.
Local Existing Instance sample_native_build.

Definition sample_builtin : ResearchNodeContract :=
  match cgb_bond_analytics_contract with Ok c => c | Err _ => sample_contract "none" [] [] end.
Definition sample_trusted_node (id : string) (c : ResearchNodeContract) : ResearchNode :=
  {| node_id := sample_id id; contract := c; parameters_hash := sample_hash x05 |}.

Example sample_registry :
  is_ok (trusted_native_node (sample_trusted_node "A" sample_builtin)) = true
  /\ is_ok (trusted_native_node (sample_trusted_node "A" (sample_contract NODE_CONTRACT_ID [] [sample_port "out"]))) = false
  /\ is_ok (trusted_native_node (sample_trusted_node "A" (sample_contract "research.other" [] [sample_port "out"]))) = false.
Proof. vm_compute. done. Qed.

Lemma trusted_registry_exact_witness :
  exists t, trusted_native_node (sample_trusted_node "A" sample_builtin) = Ok t /\ registered (sample_trusted_node "A" sample_builtin) t.
Proof.
  destruct bond_contract_Ok as (c & Ec & _ & Ac & Wc).
  assert (E : sample_builtin = c) by (unfold sample_builtin; rewrite Ec; reflexivity).
  assert (A : contract_addressed (contract (sample_trusted_node "A" sample_builtin))) by (cbn [contract sample_trusted_node]; rewrite E; exact Ac).
  assert (W : wf_contract (contract (sample_trusted_node "A" sample_builtin))) by (cbn [contract sample_trusted_node]; rewrite E; exact Wc).
  destruct (trusted_registry_exact (sample_trusted_node "A" sample_builtin) A W) as (Hr & _ & _ & Hb & _).
  destruct Hb as [t Et]; [left; cbn [contract sample_trusted_node]; rewrite E; exact Ec|].
  exists t. split; [exact Et|]. apply Hr. exact Et.
Defined.
End example.
