(* ===== verification/NativeNodes.v ===== *)
(** * The native nodes

    The execution of [crates/ficant-native-nodes/src/lib.rs]: the bond node, which answers a request only when
    the request, the materialized input and the frozen identity of the run agree, and the risk node, which
    projects a result. The decoders of messages and the numerical engine are arguments. *)

From Stdlib Require Import ZArith Lia Strings.String.
From Stdlib Require Import Strings.Byte.
From stdpp Require Import base list option strings numbers sorting.
From S2P Require Import Prelude Machine Collections Primitives FixedDecimal Codec Concrete Digits DecimalValue ResearchGraph GraphOrder GraphWiring GraphConstruction RunJournal Runtime Evidence NativeIdentity NativeEnvelope NativeExec AppErrors Access Subject BondAnalytics Wire CouponTax RatesBond RatesEvidence RatesProof RatesExecution MaterializedInput NativeRegistry.
Open Scope Z_scope.

(** [prost] on the messages of the ports. *)
Class NodeMessages : Type := {
  decode_request : list byte -> option AnalyzeBondRequest;
  encode_result : AnalyzeBondResult -> list byte;
  decode_result : list byte -> option AnalyzeBondResult;
  encode_summary : RiskSummary -> list byte
}.

(** ** Lineage *)

Definition validate_external_lineage (identity : ReproducibilityIdentity) (input : NativePortValue) : RuntimeResult unit :=
  let matches := List.filter (fun binding => bool_decide (ext_value_type binding = value_type input)
                                        && bool_decide (ext_content_hash binding = value_hash input)) (rep_external_inputs identity) in
  fail_if (negb (List.length matches =? 1)%nat) native_hash_mismatch.

Definition hash_ok (bytes : list byte) : option ContentHash := match hash_from_bytes bytes with Ok hash => Some hash | Err _ => None end.

Definition validate_business_lineage (identity : ReproducibilityIdentity) (request : AnalyzeBondRequest) : RuntimeResult unit :=
  snapshot_hash ← ok_or (binding ← request_data_snapshot request; value ← bound_snapshot_hash binding; hash_ok value) native_invalid;
  if negb (bool_decide (snapshot_hash = rep_data_snapshot identity)) then Err native_hash_mismatch else
  rule ← ok_or (request_tax_rule_pack request) native_invalid;
  rule_ref ← ok_or (bound_object rule) native_invalid;
  rule_id ← ok_or (wire_id rule_ref) native_invalid;
  version ← map_err Domain (version_new (wire_version rule_ref));
  content_hash ← ok_or (value ← bound_hash rule; hash_ok value) native_invalid;
  fail_if (negb (existsb (fun binding => bool_decide (rule_pack_id binding = rule_id) && bool_decide (rule_pack_version binding = version)
                                         && bool_decide (rule_pack_hash binding = content_hash)) (rep_rule_packs identity)))
    native_hash_mismatch.

(** ** The context of a request *)

Section context.
Context `{UlidCrate}.

Definition validate_unit (value : WireUnitRef) : RuntimeResult unit :=
  id ← ok_or (wire_unit_id value) native_invalid;
  _ ← map_err Domain (ulid_new id);
  _ ← map_err Domain (version_new (wire_unit_version value));
  Ok tt.

Definition validate_proto_version_ref (value : WireVersionRef) : RuntimeResult unit :=
  id ← ok_or (wire_id value) native_invalid;
  _ ← map_err Domain (ulid_new id);
  _ ← map_err Domain (version_new (wire_version value));
  Ok tt.

Definition validate_proto_time (value : WireTime) : RuntimeResult unit :=
  instant ← ok_or (wire_instant value) native_invalid;
  fail_if (negb ((0 <=? snd instant) && (snd instant <? 1000000000)) || blank_or_padded (wire_timezone value)
           || negb (str_len (wire_local_date value) =? 10)) native_invalid.

Definition timestamp_key (value : WireTime) : RuntimeResult (Z * Z) := ok_or (wire_instant value) native_invalid.

Definition validate_context (context : AnalysisContext) (valuation_at : WireTime) : RuntimeResult unit :=
  algorithm ← ok_or (context_algorithm context) native_invalid;
  if negb (bool_decide (wire_algorithm_id algorithm = ALGORITHM_ID)) || negb (wire_algorithm_version algorithm =? ALGORITHM_VERSION)
     || negb (bool_decide (wire_convention_profile algorithm = CONVENTION_PROFILE)) || negb (wire_abi_version algorithm =? ABI_VERSION)
  then Err native_invalid else
  subject ← ok_or (context_subject_ref context) native_invalid;
  _ ← validate_proto_version_ref subject;
  units ← ok_or (context_units context) native_invalid;
  _ ← try_fold (fun _ value => value ← ok_or value native_invalid; validate_unit value) tt
        [units_currency_amount units; units_price_per_100 units; units_rate units; units_years units; units_years_squared units;
         units_dv01_per_100 units; units_dv01 units; units_dimensionless units; units_contract_count units];
  knowledge ← ok_or (context_knowledge_at context) native_invalid;
  _ ← validate_proto_time valuation_at;
  _ ← validate_proto_time knowledge;
  if negb (bool_decide (wire_timezone knowledge = wire_timezone valuation_at)) then Err native_invalid else
  known ← timestamp_key knowledge;
  valued ← timestamp_key valuation_at;
  fail_if (ltb known valued) native_invalid.
End context.

(** ** The request and the input *)

Definition owner_matches (context : AnalysisContext) (expected : OwnerRef) : bool :=
  is_some_and (context_owner context) (fun owner =>
    is_some_and (wire_tenant_id owner) (fun id => bool_decide (id = ulid_str (tenant_id expected)))
    && is_some_and (wire_owner_id owner) (fun id => bool_decide (id = ulid_str (owner_id expected)))).

Definition proto_hash_matches (actual : option (list byte)) (expected : ContentHash) : bool :=
  is_some_and actual (fun value => bool_decide (value = hash_bytes expected)).

Definition version_matches (object : option WireVersionRef) (id : string) (version : Version) : bool :=
  is_some_and object (fun object => is_some_and (wire_id object) (fun actual => bool_decide (actual = id))
                                    && (wire_version object =? version_get version)).

Definition object_matches (binding : ObjectBinding) (expected : AnalyticsObjectRef) : bool :=
  version_matches (bound_object binding) (ulid_str (vr_id (object_ref expected))) (vr_version (object_ref expected))
  && proto_hash_matches (bound_hash binding) (object_hash expected).

Definition calendar_matches (binding : ObjectBinding) (expected : CalendarBinding) : bool :=
  version_matches (bound_object binding) (binding_calendar_id expected) (binding_calendar_version expected)
  && proto_hash_matches (bound_hash binding) (binding_calendar_hash expected).

Definition snapshot_matches (binding : SnapshotBinding) (expected : AnalyticsObjectRef) : bool :=
  is_some_and (bound_snapshot_id binding) (fun id => bool_decide (id = ulid_str (vr_id (object_ref expected))))
  && proto_hash_matches (bound_snapshot_hash binding) (object_hash expected).

(** [cast_signed] of the nanoseconds, which are less than 2^31. *)
Definition market_time_matches `{Chrono} (actual : WireTime) (expected : MarketTime) : bool :=
  is_some_and (wire_instant actual) (fun at_ => (fst at_ =? timestamp (instant expected))
                                              && (snd at_ =? timestamp_subsec_nanos (instant expected)))
  && bool_decide (wire_timezone actual = market_timezone expected)
  && bool_decide (wire_local_date actual = date_to_string (local_trading_date expected)).

Definition normalized_coefficient (value : string) : bool :=
  let bytes := as_bytes value in
  if bool_decide (value = "0"%string) then true else
  let digits := match bytes with b :: rest => if Byte.eqb b MINUS then rest else bytes | [] => bytes end in
  negb (bool_decide (digits = [])) && negb (bool_decide (head digits = Some ZERO)) && all_digits digits.

Definition pow10 (exponent : Z) : RuntimeResult Z :=
  if 38 <? exponent then Err native_invalid
  else try_fold (fun value _ => ok_or (i128_checked_mul value 10) native_invalid) 1 (repeat tt (Z.to_nat exponent)).

Definition decimal_scaled (value : WireDecimal) (expected_unit : WireUnitRef) : RuntimeResult Z :=
  if negb (bool_decide (wire_unit value = Some expected_unit)) || negb (normalized_coefficient (wire_coefficient value))
  then Err native_invalid else
  coefficient ← ok_or (parse_i128 (wire_coefficient value)) native_invalid;
  if wire_scale value <=? Z.of_nat DECIMAL_SCALE then
    factor ← pow10 (Z.of_nat DECIMAL_SCALE - wire_scale value);
    ok_or (i128_checked_mul coefficient factor) native_invalid
  else
    divisor ← pow10 (wire_scale value - Z.of_nat DECIMAL_SCALE);
    if negb (i128_rem coefficient divisor =? 0) then Err native_invalid else Ok (i128_div coefficient divisor).

Section nodes.
Context `{UlidCrate} `{Chrono}.

(** The order of [&&] and [?] in the chain of comparisons: a missing field ends it with its error when it is reached. *)
Definition both (matches : bool) (next : RuntimeResult bool) : RuntimeResult bool := if matches then next else Ok false.

Definition inputs_match (request : AnalyzeBondRequest) (context : AnalysisContext) (materialized : BondAnalyticsInput) : RuntimeResult bool :=
  both (owner_matches context (input_owner materialized)) (
  bond ← ok_or (request_bond request) native_invalid;
  both (object_matches bond (input_bond materialized)) (
  calendar ← ok_or (request_calendar request) native_invalid;
  both (calendar_matches calendar (input_calendar materialized)) (
  snapshot ← ok_or (request_data_snapshot request) native_invalid;
  both (snapshot_matches snapshot (input_snapshot materialized)) (
  rule_pack ← ok_or (request_tax_rule_pack request) native_invalid;
  both (object_matches rule_pack (input_rule_pack materialized)) (
  valuation_at ← ok_or (request_valuation_at request) native_invalid;
  Ok (market_time_matches valuation_at (input_valuation_at materialized)
      && bool_decide (request_settlement_date request = date_to_string (settlement_date materialized))
      && (request_calendar_requirement request =? requirement_code (calendar_requirement materialized)))))))).

Definition request_input_of (request : AnalyzeBondRequest) (units : AnalysisUnits) : RuntimeResult (AnalyticsMode * WireDecimal * WireUnitRef) :=
  input ← ok_or (request_input request) native_invalid;
  match input with
  | YieldToMaturity value => unit ← ok_or (units_rate units) native_invalid; Ok (YieldIn, value, unit)
  | CleanPrice value => unit ← ok_or (units_price_per_100 units) native_invalid; Ok (PriceIn, value, unit)
  end.

Definition validate_request_against_materialized (identity : ReproducibilityIdentity) (request : AnalyzeBondRequest)
    (materialized : BondAnalyticsInput) : RuntimeResult unit :=
  _ ← validate_business_lineage identity request;
  context ← ok_or (request_context request) native_invalid;
  valuation_at ← ok_or (request_valuation_at request) native_invalid;
  _ ← validate_context context valuation_at;
  matches ← inputs_match request context materialized;
  if negb matches then Err native_hash_mismatch else
  units ← ok_or (context_units context) native_invalid;
  '(mode, value, unit) ← request_input_of request units;
  if negb (bool_decide (input_mode materialized = mode)) then Err native_hash_mismatch else
  value ← decimal_scaled value unit;
  fail_if (negb (value =? scaled (input_value materialized))) native_hash_mismatch.
End nodes.

(** ** Execution *)

Section execute.
Context `{UlidCrate} `{Sha256} `{Chrono} `{ChronoParse} `{InputEncoder} `{NativeBuild} `{BondInputFormats} `{NodeMessages}.
Context (engine : BondAnalyticsEngine).

Definition input_at (port : string) (request : NativeNodeRequest) : RuntimeResult NativePortValue :=
  ok_or (find (fun input => bool_decide (value_port input = port)) (request_inputs request)) native_invalid.

(** [CgbBondAnalyticsNativeNode::execute]. *)
Definition bond_node_execute (self : BoundNode) (request : NativeNodeRequest) : RuntimeResult (list NativePortValue) :=
  if negb (bool_decide (contract_digest (contract (request_node request)) = bound_contract_digest self))
     || negb (List.length (request_inputs request) =? 2)%nat then Err native_invalid else
  public_input ← input_at REQUEST_PORT request;
  materialized_input ← input_at MATERIALIZED_INPUT_PORT request;
  if negb (bool_decide (value_type public_input = analyze_bond_request_type))
     || negb (bool_decide (value_type materialized_input = materialized_bond_input_type)) then Err native_invalid else
  _ ← validate_external_lineage (request_identity request) public_input;
  _ ← validate_external_lineage (request_identity request) materialized_input;
  protobuf ← ok_or (decode_request (payload public_input)) native_invalid;
  '(materialized, coupon_tax_treatment, authority_semantic_hash, metadata) ← decode_materialized_bond_input (payload materialized_input);
  _ ← validate_request_against_materialized (request_identity request) protobuf materialized;
  result ← map_err (fun _ => native_invalid)
             (execute_materialized_v2_bond_request engine protobuf materialized coupon_tax_treatment
                (hash_bytes authority_semantic_hash) metadata);
  output ← native_port_value_new RESULT_PORT analyze_bond_result_type (encode_result result);
  Ok [output].

(** [CgbBondRiskSummaryNativeNode::execute]. *)
Definition risk_node_execute (self : BoundNode) (request : NativeNodeRequest) : RuntimeResult (list NativePortValue) :=
  match request_inputs request with
  | [input] =>
      if negb (bool_decide (contract_digest (contract (request_node request)) = bound_contract_digest self)) then Err native_invalid else
      if negb (bool_decide (value_port input = RISK_INPUT_PORT)) || negb (bool_decide (value_type input = analyze_bond_result_type))
      then Err native_invalid else
      result ← ok_or (decode_result (payload input)) native_invalid;
      measures ← ok_or (analysis_measures result) native_invalid;
      modified_duration ← ok_or (wire_modified_duration measures) native_invalid;
      convexity ← ok_or (wire_convexity measures) native_invalid;
      dv01 ← ok_or (wire_dv01 measures) native_invalid;
      metadata ← ok_or (analysis_metadata result) native_invalid;
      output ← native_port_value_new RISK_OUTPUT_PORT risk_summary_type
        (encode_summary {| summary_modified_duration := Some modified_duration; summary_convexity := Some convexity;
                           summary_dv01 := Some dv01; summary_metadata := Some metadata |});
      Ok [output]
  | _ => Err native_invalid
  end.

(** A trusted node as an executor of the graph. *)
Definition trusted_executor (t : TrustedNativeNode) : NativeNode := {|
  executor_node_id := bound_node_id (bound t);
  executor_digest := bound_implementation (bound t);
  run_node := match t with TrustedBondAnalytics node => bond_node_execute node | TrustedBondRiskSummary node => risk_node_execute node end
|}.
End execute.

(** ** Decimals are compared exactly *)

(** A decimal of the wire stands for a scaled number. *)
Definition decimal_exact (value : WireDecimal) (scaled : Z) : Prop :=
  exists coefficient, parse_i128 (wire_coefficient value) = Some coefficient
    /\ coefficient * 10 ^ Z.of_nat DECIMAL_SCALE = scaled * 10 ^ wire_scale value.

Lemma pow10_turns (l : list unit) a b : try_fold (fun value _ => ok_or (i128_checked_mul value 10) native_invalid) a l = Ok b ->
  b = a * 10 ^ Z.of_nat (List.length l).
Proof.
  revert a. induction l as [|x l IH]; intros a E; cbn [try_fold] in E; [injection E as <-; cbn; lia|].
  apply bind_Ok in E as (v & Ev & E). apply ok_or_Ok, checked_Some in Ev as [_ ->]. rewrite (IH _ E). cbn [List.length].
  rewrite Nat2Z.inj_succ, Z.pow_succ_r by lia. ring.
Qed.

Lemma pow10_Ok e p : 0 <= e -> pow10 e = Ok p -> p = 10 ^ e /\ 0 < p.
Proof.
  unfold pow10. intros He E. apply unless_Ok in E as [_ E%pow10_turns]. rewrite repeat_length, Z2Nat.id in E by done. subst p.
  pose proof (Z.pow_pos_nonneg 10 e). lia.
Qed.

Lemma decimal_scaled_Ok value u s : 0 <= wire_scale value -> decimal_scaled value u = Ok s ->
  wire_unit value = Some u /\ decimal_exact value s.
Proof.
  unfold decimal_scaled. intros Hs E. apply unless_Ok in E as [Hu E]. apply orb_false_iff in Hu as [Hu _].
  apply negb_false_iff, bool_decide_eq_true in Hu. split; [done|]. apply bind_Ok in E as (c & Ec%ok_or_Ok & E). exists c. split; [done|].
  destruct (Z.leb_spec (wire_scale value) (Z.of_nat DECIMAL_SCALE)).
  - apply bind_Ok in E as (f & [-> _]%pow10_Ok & E); [|lia]. apply ok_or_Ok, checked_Some in E as [_ ->].
    rewrite <- Z.mul_assoc, <- Z.pow_add_r by lia. do 2 f_equal. lia.
  - apply bind_Ok in E as (d & [Hd Hp]%pow10_Ok & E); [|lia]. apply unless_Ok in E as [Hr E]. injection E as <-.
    apply negb_false_iff, Z.eqb_eq in Hr. unfold i128_rem, i128_div in *. pose proof (Z.quot_rem' c d) as Hq. rewrite Hr, Z.add_0_r in Hq.
    rewrite Hq at 1. replace (wire_scale value) with ((wire_scale value - Z.of_nat DECIMAL_SCALE) + Z.of_nat DECIMAL_SCALE) by lia.
    rewrite Z.pow_add_r, <- Hd by lia. ring.
Qed.

(** ** What a request must agree on *)

Definition names (object : option WireVersionRef) (id : string) (version : Version) : Prop :=
  object = Some {| wire_id := Some id; wire_version := version_get version |}.

Definition binds (binding : option ObjectBinding) (id : string) (version : Version) (hash : ContentHash) : Prop :=
  exists object, binding = Some {| bound_object := object; bound_hash := Some (hash_bytes hash) |} /\ names object id version.

Definition binds_ref (binding : option ObjectBinding) (r : AnalyticsObjectRef) : Prop :=
  binds binding (ulid_str (vr_id (object_ref r))) (vr_version (object_ref r)) (object_hash r).

(** The input a request asks for, in its unit. *)
Definition asks (request : AnalyzeBondRequest) (units : AnalysisUnits) (mode : AnalyticsMode) (value : WireDecimal) (unit : WireUnitRef) : Prop :=
  match mode with
  | YieldIn => request_input request = Some (YieldToMaturity value) /\ units_rate units = Some unit
  | PriceIn => request_input request = Some (CleanPrice value) /\ units_price_per_100 units = Some unit
  end.

Record agrees `{Chrono} (identity : ReproducibilityIdentity) (q : AnalyzeBondRequest) (i : BondAnalyticsInput) : Prop := {
  agrees_snapshot : request_data_snapshot q = Some {| bound_snapshot_id := Some (ulid_str (vr_id (object_ref (input_snapshot i))));
                                                     bound_snapshot_hash := Some (hash_bytes (rep_data_snapshot identity)) |}
    /\ object_hash (input_snapshot i) = rep_data_snapshot identity;
  agrees_rule_pack : binds_ref (request_tax_rule_pack q) (input_rule_pack i)
    /\ In {| rule_pack_id := ulid_str (vr_id (object_ref (input_rule_pack i))); rule_pack_version := vr_version (object_ref (input_rule_pack i));
             rule_pack_hash := object_hash (input_rule_pack i) |} (rep_rule_packs identity);
  agrees_bond : binds_ref (request_bond q) (input_bond i);
  agrees_calendar : binds (request_calendar q) (binding_calendar_id (input_calendar i)) (binding_calendar_version (input_calendar i))
                          (binding_calendar_hash (input_calendar i));
  agrees_time : request_valuation_at q = Some {|
    wire_instant := Some (timestamp (instant (input_valuation_at i)), timestamp_subsec_nanos (instant (input_valuation_at i)));
    wire_timezone := market_timezone (input_valuation_at i);
    wire_local_date := date_to_string (local_trading_date (input_valuation_at i)) |};
  agrees_settlement : request_settlement_date q = date_to_string (settlement_date i)
    /\ request_calendar_requirement q = requirement_code (calendar_requirement i);
  agrees_context : exists context units value unit,
    request_context q = Some context
    /\ context_owner context = Some {| wire_tenant_id := Some (ulid_str (tenant_id (input_owner i)));
                                       wire_owner_id := Some (ulid_str (owner_id (input_owner i))) |}
    /\ context_algorithm context = Some {| wire_algorithm_id := ALGORITHM_ID; wire_algorithm_version := ALGORITHM_VERSION;
                                           wire_convention_profile := CONVENTION_PROFILE; wire_abi_version := ABI_VERSION |}
    /\ context_units context = Some units /\ asks q units (input_mode i) value unit
    /\ wire_unit value = Some unit /\ (0 <= wire_scale value -> decimal_exact value (scaled (input_value i)))
}.

Lemma is_some_and_true {A} (o : option A) f : is_some_and o f = true <-> exists a, o = Some a /\ f a = true.
Proof. destruct o as [a|]; cbn; [|naive_solver]. split; [by exists a|]. by intros (? & [= <-] & ?). Qed.

Lemma is_some_and_eq {A} `{EqDecision A} (o : option A) x : is_some_and o (fun a => bool_decide (a = x)) = true <-> o = Some x.
Proof. rewrite is_some_and_true. setoid_rewrite bool_decide_eq_true. naive_solver. Qed.

Lemma version_matches_iff object id v : version_matches object id v = true <-> names object id v.
Proof.
  unfold version_matches, names. rewrite is_some_and_true. setoid_rewrite andb_true_iff. setoid_rewrite is_some_and_eq. setoid_rewrite Z.eqb_eq. split.
  - intros ([wid wv] & -> & Hi & Hv). cbn in *. by subst.
  - intros ->. eexists. split; [reflexivity|done].
Qed.

Lemma object_matches_iff b r : object_matches b r = true <-> binds_ref (Some b) r.
Proof.
  unfold object_matches, proto_hash_matches, binds_ref, binds. rewrite andb_true_iff, version_matches_iff, is_some_and_eq. split.
  - intros [Hn Hh]. exists (bound_object b). destruct b; cbn in *. by subst.
  - by intros (o & [= ->] & Hn).
Qed.

Lemma calendar_matches_iff b c : calendar_matches b c = true <->
  binds (Some b) (binding_calendar_id c) (binding_calendar_version c) (binding_calendar_hash c).
Proof.
  unfold calendar_matches, proto_hash_matches, binds. rewrite andb_true_iff, version_matches_iff, is_some_and_eq. split.
  - intros [Hn Hh]. exists (bound_object b). destruct b; cbn in *. by subst.
  - by intros (o & [= ->] & Hn).
Qed.

Lemma hash_ok_Some v h : hash_ok v = Some h -> v = hash_bytes h.
Proof. unfold hash_ok, hash_from_bytes. destruct (_ =? 32)%nat; [|done]. by intros [= <-]. Qed.

(** The snapshot of the request is that of the run, and its rule pack is one of the run. *)
Lemma business_lineage_Ok identity q u : validate_business_lineage identity q = Ok u ->
  (exists binding, request_data_snapshot q = Some binding /\ bound_snapshot_hash binding = Some (hash_bytes (rep_data_snapshot identity)))
  /\ exists rule ref id version content, request_tax_rule_pack q = Some rule /\ bound_object rule = Some ref /\ wire_id ref = Some id
     /\ version_get version = wire_version ref /\ bound_hash rule = Some (hash_bytes content)
     /\ In {| rule_pack_id := id; rule_pack_version := version; rule_pack_hash := content |} (rep_rule_packs identity).
Proof.
  unfold validate_business_lineage. intros E. apply bind_Ok in E as (snap & Es%ok_or_Ok & E). apply unless_Ok in E as [Hs E].
  apply negb_false_iff, bool_decide_eq_true in Hs. subst snap. split.
  - apply bind_Some in Es as (b & Eb & Es). apply bind_Some in Es as (v & Ev & Es%hash_ok_Some). subst v. by exists b.
  - apply bind_Ok in E as (rule & Er%ok_or_Ok & E). apply bind_Ok in E as (ref & Ef%ok_or_Ok & E). apply bind_Ok in E as (id & Ei%ok_or_Ok & E).
    apply bind_Ok in E as (v & Ev%map_err_Ok & E). apply bind_Ok in E as (content & Ec%ok_or_Ok & E).
    apply bind_Some in Ec as (bytes & Eh & ->%hash_ok_Some). apply fail_if_Ok, negb_false_iff, existsb_exists in E as ([bid bv bh] & Hin & Hb).
    rewrite !andb_true_iff, !bool_decide_eq_true in Hb. cbn in Hb. destruct Hb as [[-> ->] ->].
    exists rule, ref, id, v, content. unfold version_new in Ev. apply unless_Ok in Ev as [_ [= <-]]. done.
Qed.

Section agree.
Context `{UlidCrate} `{Chrono}.

Lemma both_Ok b (r : RuntimeResult bool) : both b r = Ok true <-> b = true /\ r = Ok true.
Proof. destruct b; cbn; naive_solver. Qed.

Lemma owner_matches_iff context o : owner_matches context o = true <->
  context_owner context = Some {| wire_tenant_id := Some (ulid_str (tenant_id o)); wire_owner_id := Some (ulid_str (owner_id o)) |}.
Proof.
  unfold owner_matches. rewrite is_some_and_true. setoid_rewrite andb_true_iff. setoid_rewrite is_some_and_eq. split.
  - intros ([t w] & -> & Ht & Ho). cbn in *. by subst.
  - intros ->. eexists. split; [reflexivity|done].
Qed.

Lemma market_time_matches_iff w t : market_time_matches w t = true <->
  w = {| wire_instant := Some (timestamp (instant t), timestamp_subsec_nanos (instant t)); wire_timezone := market_timezone t;
         wire_local_date := date_to_string (local_trading_date t) |}.
Proof.
  unfold market_time_matches. rewrite !andb_true_iff, !bool_decide_eq_true, is_some_and_true. setoid_rewrite andb_true_iff.
  setoid_rewrite Z.eqb_eq. split.
  - intros [[([s n] & Hi & Hs & Hn) Hz] Hd]. destruct w; cbn in *. by subst.
  - intros ->. cbn. split; [split; [|done]|done]. eexists. split; [reflexivity|done].
Qed.

(** The chain of comparisons. *)
Lemma inputs_match_Ok q context i : inputs_match q context i = Ok true ->
  context_owner context = Some {| wire_tenant_id := Some (ulid_str (tenant_id (input_owner i)));
                                  wire_owner_id := Some (ulid_str (owner_id (input_owner i))) |}
  /\ binds_ref (request_bond q) (input_bond i)
  /\ binds (request_calendar q) (binding_calendar_id (input_calendar i)) (binding_calendar_version (input_calendar i))
           (binding_calendar_hash (input_calendar i))
  /\ (exists binding, request_data_snapshot q = Some binding /\ snapshot_matches binding (input_snapshot i) = true)
  /\ binds_ref (request_tax_rule_pack q) (input_rule_pack i)
  /\ request_valuation_at q = Some {|
       wire_instant := Some (timestamp (instant (input_valuation_at i)), timestamp_subsec_nanos (instant (input_valuation_at i)));
       wire_timezone := market_timezone (input_valuation_at i); wire_local_date := date_to_string (local_trading_date (input_valuation_at i)) |}
  /\ request_settlement_date q = date_to_string (settlement_date i) /\ request_calendar_requirement q = requirement_code (calendar_requirement i).
Proof.
  unfold inputs_match. intros [Ho E]%both_Ok. apply owner_matches_iff in Ho. apply bind_Ok in E as (b & Eb%ok_or_Ok & E).
  apply both_Ok in E as [Hb%object_matches_iff E]. apply bind_Ok in E as (c & Ec%ok_or_Ok & E). apply both_Ok in E as [Hc%calendar_matches_iff E].
  apply bind_Ok in E as (s & Es%ok_or_Ok & E). apply both_Ok in E as [Hs E]. apply bind_Ok in E as (r & Er%ok_or_Ok & E).
  apply both_Ok in E as [Hr%object_matches_iff E]. apply bind_Ok in E as (v & Ev%ok_or_Ok & E). injection E as E.
  rewrite !andb_true_iff, bool_decide_eq_true, Z.eqb_eq, market_time_matches_iff in E. destruct E as [[-> Hd] Hq].
  rewrite Eb, Ec, Er, Ev. repeat (split; [done|]). split; [by exists s|]. done.
Qed.

Lemma context_Ok context valuation u : validate_context context valuation = Ok u ->
  context_algorithm context = Some {| wire_algorithm_id := ALGORITHM_ID; wire_algorithm_version := ALGORITHM_VERSION;
                                      wire_convention_profile := CONVENTION_PROFILE; wire_abi_version := ABI_VERSION |}.
Proof.
  unfold validate_context. intros E. apply bind_Ok in E as (a & Ea%ok_or_Ok & E). apply unless_Ok in E as [Ha _].
  rewrite !orb_false_iff, !negb_false_iff, !bool_decide_eq_true, !Z.eqb_eq in Ha. destruct Ha as [[[H1 H2] H3] H4]. rewrite Ea. f_equal.
  destruct a; cbn in *. by subst.
Qed.

Lemma request_input_Ok q units m value unit : request_input_of q units = Ok (m, value, unit) -> asks q units m value unit.
Proof.
  unfold request_input_of. intros E. apply bind_Ok in E as (x & Ex%ok_or_Ok & E). destruct x as [w|w]; apply bind_Ok in E as (y & Ey%ok_or_Ok & E);
    injection E as <- <- <-; done.
Qed.

Lemma request_agrees identity q i u : validate_request_against_materialized identity q i = Ok u -> agrees identity q i.
Proof.
  unfold validate_request_against_materialized. intros E. apply bind_Ok in E as ([] & El & E). apply business_lineage_Ok in El as [Hs Hr].
  apply bind_Ok in E as (context & Ec%ok_or_Ok & E). apply bind_Ok in E as (valuation & _ & E). apply bind_Ok in E as ([] & Ex%context_Ok & E).
  apply bind_Ok in E as (ok & Em & E). apply unless_Ok in E as [->%negb_false_iff E].
  apply inputs_match_Ok in Em as (Ho & Hb & Hc & (binding & Eb & Hbs) & Hp & Ht & Hd & Hq).
  apply bind_Ok in E as (units & Eu%ok_or_Ok & E). apply bind_Ok in E as ([[mode value] unit] & Ei%request_input_Ok & E).
  apply unless_Ok in E as [Hm E]. apply negb_false_iff, bool_decide_eq_true in Hm. subst mode. apply bind_Ok in E as (s & Ed & E).
  apply fail_if_Ok, negb_false_iff, Z.eqb_eq in E. subst s. split; try done.
  - destruct Hs as (b & Eb' & Hh). rewrite Eb in Eb'. injection Eb' as <-. unfold snapshot_matches, proto_hash_matches in Hbs.
    rewrite andb_true_iff, !is_some_and_eq in Hbs. destruct Hbs as [Hi Hbh]. rewrite Hh in Hbh. injection Hbh as Hbh.
    destruct binding as [bi bh]. cbn in *. subst bi bh. split; [done|]. destruct (object_hash _), (rep_data_snapshot _); cbn in *. by subst.
  - split; [done|]. destruct Hr as (rule & ref & id & v & content & Er & Ef & Eid & Ev & Eh & Hin). destruct Hp as (o & Eo & Hn).
    rewrite Er in Eo. injection Eo as ->. cbn in *. unfold names in Hn. rewrite Hn in Ef. injection Ef as <-. cbn in *. injection Eid as <-.
    injection Eh as Eh. destruct v as [v], (vr_version (object_ref (input_rule_pack i))) as [v'], content as [ch], (object_hash (input_rule_pack i)) as [ch'].
    cbn in *. by subst.
  - exists context, units, value, unit. split; [done|]. split; [done|]. split; [exact Ex|]. split; [done|]. split; [done|].
    assert (Hw : wire_unit value = Some unit).
    { unfold decimal_scaled in Ed. apply unless_Ok in Ed as [Hu _]. apply orb_false_iff in Hu as [Hu _]. by apply negb_false_iff, bool_decide_eq_true in Hu. }
    split; [done|]. intros Hscale. by apply (decimal_scaled_Ok value unit).
Qed.
End agree.

(** ** What the nodes answer *)

Section answers.
Context `{UlidCrate} `{Sha256} `{Chrono} `{ChronoParse} `{InputEncoder} `{NativeBuild} `{BondInputFormats} `{NodeMessages}.
Context (engine : BondAnalyticsEngine).

(** The value of an input is frozen once in the identity of the run. *)
Definition frozen_once (identity : ReproducibilityIdentity) (input : NativePortValue) : Prop :=
  List.length (List.filter (fun x => bool_decide (ext_value_type x = value_type input) && bool_decide (ext_content_hash x = value_hash input))
                 (rep_external_inputs identity)) = 1%nat.

(** An input of the request at a port, of a type. *)
Definition input_of (request : NativeNodeRequest) (port : string) (type : TypedValue) (input : NativePortValue) : Prop :=
  In input (request_inputs request) /\ value_port input = port /\ value_type input = type /\ frozen_once (request_identity request) input.

(** A bond request that the node answered. *)
Record node_answered (self : BoundNode) (request : NativeNodeRequest) (outputs : list NativePortValue) : Prop := {
  node_answered_by : exists public private q i w h m answer output,
    contract_digest (contract (request_node request)) = bound_contract_digest self /\ List.length (request_inputs request) = 2%nat
    /\ input_of request REQUEST_PORT analyze_bond_request_type public
    /\ input_of request MATERIALIZED_INPUT_PORT materialized_bond_input_type private
    /\ decode_request (payload public) = Some q /\ decode_materialized_bond_input (payload private) = Ok (i, w, h, m)
    /\ wf_materialized i /\ agrees (request_identity request) q i /\ answered engine q i (hash_bytes h) m answer
    /\ native_port_value_new RESULT_PORT analyze_bond_result_type (encode_result answer) = Ok output /\ outputs = [output]
}.

Lemma external_lineage_Ok identity input u : validate_external_lineage identity input = Ok u -> frozen_once identity input.
Proof. unfold validate_external_lineage. intros E%fail_if_Ok. by apply negb_false_iff, Nat.eqb_eq in E. Qed.

Lemma input_at_Ok port request input : input_at port request = Ok input -> In input (request_inputs request) /\ value_port input = port.
Proof. unfold input_at. intros E%ok_or_Ok. by apply find_some in E as [? ?%bool_decide_eq_true]. Qed.

Hypothesis engine_machine : forall input r, engine input = Ok r -> machine_result r.

Lemma bond_node_Ok self request outputs : bond_node_execute engine self request = Ok outputs -> node_answered self request outputs.
Proof.
  unfold bond_node_execute. intros E. apply unless_Ok in E as [Hc E]. apply orb_false_iff in Hc as [Hc Hl].
  apply negb_false_iff, bool_decide_eq_true in Hc. apply negb_false_iff, Nat.eqb_eq in Hl.
  apply bind_Ok in E as (public & [Ip Np]%input_at_Ok & E). apply bind_Ok in E as (private & [Im Nm]%input_at_Ok & E).
  apply unless_Ok in E as [Ht E]. apply orb_false_iff in Ht as [Tp Tm]. apply negb_false_iff, bool_decide_eq_true in Tp, Tm.
  apply bind_Ok in E as ([] & Fp%external_lineage_Ok & E). apply bind_Ok in E as ([] & Fm%external_lineage_Ok & E).
  apply bind_Ok in E as (q & Eq%ok_or_Ok & E). apply bind_Ok in E as ([[[i w] h] m] & Ei & E). apply bind_Ok in E as ([] & Ea & E).
  apply bind_Ok in E as (answer & Ex%map_err_Ok & E). apply bind_Ok in E as (output & Eo & E). injection E as <-.
  destruct (decode_wf _ _ _ _ _ Ei) as [Wi _].
  split. exists public, private, q, i, w, h, m, answer, output. split; [done|]. split; [done|]. split; [done|]. split; [done|]. split; [done|].
  split; [done|]. split; [done|]. split; [by apply (request_agrees _ _ _ tt)|]. split; [|done].
  apply (execute_v2_Ok engine engine_machine q i w); [|done]. by destruct (wf_input_numbers _ Wi) as (_ & ? & _).
Qed.

(** The risk node copies three measures and the metadata of a result, and computes nothing. *)
Lemma risk_node_Ok self request outputs : risk_node_execute self request = Ok outputs <->
  exists input result measures duration convexity dv01 metadata output,
    request_inputs request = [input] /\ contract_digest (contract (request_node request)) = bound_contract_digest self
    /\ value_port input = RISK_INPUT_PORT /\ value_type input = analyze_bond_result_type
    /\ decode_result (payload input) = Some result /\ analysis_measures result = Some measures
    /\ wire_modified_duration measures = Some duration /\ wire_convexity measures = Some convexity /\ wire_dv01 measures = Some dv01
    /\ analysis_metadata result = Some metadata
    /\ native_port_value_new RISK_OUTPUT_PORT risk_summary_type
         (encode_summary {| summary_modified_duration := Some duration; summary_convexity := Some convexity; summary_dv01 := Some dv01;
                            summary_metadata := Some metadata |}) = Ok output
    /\ outputs = [output].
Proof.
  unfold risk_node_execute. split.
  - destruct (request_inputs request) as [|input [|]]; [done| |done]. intros E. apply unless_Ok in E as [Hc E]. apply unless_Ok in E as [Ht E].
    apply orb_false_iff in Ht as [Hp Ht]. apply negb_false_iff, bool_decide_eq_true in Hc, Hp, Ht.
    apply bind_Ok in E as (r & Er%ok_or_Ok & E). apply bind_Ok in E as (ms & Em%ok_or_Ok & E). apply bind_Ok in E as (d & Ed%ok_or_Ok & E).
    apply bind_Ok in E as (c & Ec%ok_or_Ok & E). apply bind_Ok in E as (v & Ev%ok_or_Ok & E). apply bind_Ok in E as (md & Emd%ok_or_Ok & E).
    apply bind_Ok in E as (o & Eo & E). injection E as <-. by exists input, r, ms, d, c, v, md, o.
  - intros (input & r & ms & d & c & v & md & o & -> & Hc & Hp & Ht & Er & Em & Ed & Ec & Ev & Emd & Eo & ->).
    rewrite Hc, Hp, Ht, !bool_decide_eq_true_2 by done. cbn [negb orb]. rewrite Er. cbn [ok_or mbind Result_bind]. rewrite Em.
    cbn [ok_or mbind Result_bind]. rewrite Ed, Ec, Ev, Emd. cbn [ok_or mbind Result_bind]. by rewrite Eo.
Qed.
End answers.

(** C29. The bond node answers only what the run has frozen: it gives an output only when its contract is the bound one,
    both inputs have the types of their ports and are each frozen exactly once in the identity of the run, the input is
    well-formed, and the request agrees with it and with the identity - the snapshot is the snapshot of the run, the rule
    pack one of its rule packs, the owner, bond, calendar, times and dates are the same, the algorithm is the built-in
    one and the asked value equals the materialized one exactly; the single output is then the sound answer to the
    request, in the type of the result port. *)
Theorem bond_node_answers_frozen `{UlidCrate} `{Sha256} `{Chrono} `{ChronoParse} `{InputEncoder} `{NativeBuild} `{BondInputFormats} `{NodeMessages}
    engine self request outputs :
  (forall input r, engine input = Ok r -> machine_result r) ->
  bond_node_execute engine self request = Ok outputs -> node_answered engine self request outputs.
Proof. intros He. by apply bond_node_Ok. Qed.

(** ** A concrete node *)

Section example.
Local Existing Instance sample_ulid_crate.
Local Existing Instance sample_sha256.
Local Existing Instance shanghai_chrono.
Local Existing Instance sample_parse.
Local Existing Instance protobuf.
Local Existing Instance sample_native_build.
Local Existing Instance sample_formats.

Definition blank_result : AnalyzeBondResult := {|
  analysis_cashflows := []; analysis_measures := None; analysis_metadata := None; analysis_after_tax := None |}.
(** One request and its answer; the answer is written as one byte. *)
Definition sample_node_messages : NodeMessages := {|
  decode_request := fun bytes => if bool_decide (bytes = [x01]) then Some (proved_request 1) else None;
  encode_result := fun _ => [x07];
  decode_result := fun bytes => if bool_decide (bytes = [x07]) then Some (ok_of blank_result (sample_answer sample_wire_treatment sample_metadata)) else None;
  encode_summary := fun summary => as_bytes (from_option wire_coefficient "" (summary_dv01 summary))
|}.
Local Existing Instance sample_node_messages.

Definition authority_payload : list byte :=
  encode_materialized_bond_input sample_bond_input sample_wire_treatment AUTHORITY_SEMANTIC_HASH sample_metadata.
Definition node_value (port : string) (type : TypedValue) (bytes : list byte) : NativePortValue := {|
  value_port := port; value_type := type; payload := bytes; value_hash := digest bytes |}.
Definition public_value : NativePortValue := node_value REQUEST_PORT analyze_bond_request_type [x01].
Definition private_value : NativePortValue := node_value MATERIALIZED_INPUT_PORT materialized_bond_input_type authority_payload.
Definition frozen_value (id : string) (value : NativePortValue) : ExecutionExternalInput := {|
  ext_input_id := id; ext_value_type := value_type value; ext_payload := payload value; ext_content_hash := value_hash value |}.

(** The identity of a run over a snapshot and rule packs. *)
Definition node_identity (snapshot : ContentHash) (externals : list ExecutionExternalInput) : ReproducibilityIdentity := {|
  rep_external_inputs := externals;
  rep_rule_packs := [{| rule_pack_id := ulid_str (sample_id "P"); rule_pack_version := mk_version 1; rule_pack_hash := sample_hash x21 |}];
  rep_data_snapshot := snapshot; rep_universe_snapshot := sample_hash x02; rep_graph_digest := sample_hash x03;
  rep_parameters := sample_hash x03; rep_image := sample_hash x04; rep_environment := sample_hash x05; rep_seed := 42;
  rep_implementations := []; rep_subject := None; rep_code := None; rep_digest := sample_hash x0e |}.
Definition both_frozen : list ExecutionExternalInput := [frozen_value "a" public_value; frozen_value "b" private_value].
Definition node_request (identity : ReproducibilityIdentity) : NativeNodeRequest := {|
  request_node := sample_trusted_node "A" sample_builtin; request_identity := identity; request_inputs := [private_value; public_value] |}.
Definition sample_bound : BoundNode :=
  match trusted_native_node (sample_trusted_node "A" sample_builtin) with
  | Ok t => bound t
  | Err _ => {| bound_node_id := sample_id "A"; bound_contract_digest := sample_hash x00; bound_implementation := sample_hash x00 |}
  end.
Definition node_run (identity : ReproducibilityIdentity) : RuntimeResult (list NativePortValue) :=
  bond_node_execute sample_engine sample_bound (node_request identity).

Example sample_node_runs :
  is_ok (node_run (node_identity (sample_hash x21) both_frozen)) = true
  /\ is_ok (node_run (node_identity (sample_hash x20) both_frozen)) = false
  /\ is_ok (node_run (node_identity (sample_hash x21) (tail both_frozen))) = false
  /\ is_ok (node_run (node_identity (sample_hash x21) (frozen_value "c" public_value :: both_frozen))) = false
  /\ decimal_scaled {| wire_coefficient := "2500000000000"; wire_scale := 14; wire_unit := Some wire_tax_unit |} wire_tax_unit = Ok 25000000000
  /\ is_ok (decimal_scaled {| wire_coefficient := "25"; wire_scale := 14; wire_unit := Some wire_tax_unit |} wire_tax_unit) = false.
Proof. vm_compute. done. Qed.

Lemma bond_node_answers_frozen_witness :
  exists outputs, node_run (node_identity (sample_hash x21) both_frozen) = Ok outputs
  /\ node_answered sample_engine sample_bound (node_request (node_identity (sample_hash x21) both_frozen)) outputs.
Proof.
  assert (V : is_ok (node_run (node_identity (sample_hash x21) both_frozen)) = true) by (vm_compute; reflexivity). revert V.
  destruct (node_run (node_identity (sample_hash x21) both_frozen)) as [outputs|] eqn:E; [|discriminate]. intros _. exists outputs. split; [reflexivity|].
  unfold node_run in E.
  exact (bond_node_answers_frozen sample_engine sample_bound (node_request (node_identity (sample_hash x21) both_frozen)) outputs
    sample_engine_machine E).
Defined.
End example.
