(* ===== verification/MarketObjects.v ===== *)
(** * Market definitions and facts

    [crates/ficant-domain/src/market] ([mod.rs], [instrument.rs], [bond.rs], [futures_contract.rs], [cashflow.rs],
    [quote.rs], [trade.rs], [valuation.rs], [curve_snapshot.rs]): instruments with their bonds and futures
    contracts, the facts that are observed about them, and curve snapshots. Units and calendars are in [MarketData],
    rule packs in [CouponTax]. *)

From Stdlib Require Import ZArith Lia Strings.String.
From Stdlib Require Import Strings.Byte.
From stdpp Require Import base list option strings numbers.
From S2P Require Import Prelude Machine Collections Primitives DecimalValue Subject BondAnalytics.
Open Scope Z_scope.

(** ** Instruments *)

Inductive InstrumentKind := KindBond | KindFutures | KindOther.

#[export] Instance InstrumentKind_eq_dec : EqDecision InstrumentKind.
Proof. solve_decision. Defined.

Record Instrument := {
  instrument_id : Ulid;
  instrument_version : Version;
  instrument_owner : OwnerRef;
  instrument_kind : InstrumentKind;
  instrument_market : string;
  symbol : string;
  currency : UnitRef;
  instrument_calendar : VersionRef
}.
Abbreviation InstrumentInput := Instrument.

#[export] Instance Instrument_eq_dec : EqDecision Instrument.
Proof. solve_decision. Defined.

Definition instrument_new (input : InstrumentInput) : DomainResult Instrument :=
  _ ← require_text (instrument_market input);
  _ ← require_text (symbol input);
  Ok input.

Definition instrument_ref (self : Instrument) : VersionRef :=
  {| vr_id := instrument_id self; vr_version := instrument_version self |}.

Definition instrument_validate_successor (self candidate : Instrument) : DomainResult unit :=
  _ ← ensure_next_version (instrument_id self) (instrument_version self) (instrument_id candidate) (instrument_version candidate);
  fail_if (negb (bool_decide (instrument_kind self = instrument_kind candidate))) VersionConflict.

(** ** Bonds *)

Inductive BondCouponFrequency := BondAnnual | BondSemiannual.
Inductive BondDayCountConvention := BondActActIsma.
Inductive BondBusinessDayConvention := BondFollowing.

#[export] Instance BondCouponFrequency_eq_dec : EqDecision BondCouponFrequency.
Proof. solve_decision. Defined.
#[export] Instance BondDayCountConvention_eq_dec : EqDecision BondDayCountConvention.
Proof. solve_decision. Defined.
#[export] Instance BondBusinessDayConvention_eq_dec : EqDecision BondBusinessDayConvention.
Proof. solve_decision. Defined.

Record BondPricingTerms := {
  pricing_coupon_rate : DecimalValue;
  pricing_frequency : BondCouponFrequency;
  pricing_day_count : BondDayCountConvention;
  pricing_business_day : BondBusinessDayConvention
}.

#[export] Instance BondPricingTerms_eq_dec : EqDecision BondPricingTerms.
Proof. solve_decision. Defined.

Definition bond_pricing_terms_new (coupon_rate : DecimalValue) (frequency : BondCouponFrequency) (day_count : BondDayCountConvention)
    (business_day : BondBusinessDayConvention) : DomainResult BondPricingTerms :=
  if bool_decide (is_Some (strip_prefix (as_bytes "-") (as_bytes (coefficient coupon_rate)))) then Err InvalidValue
  else Ok {| pricing_coupon_rate := coupon_rate; pricing_frequency := frequency; pricing_day_count := day_count;
             pricing_business_day := business_day |}.

Record Bond := {
  bond_instrument : VersionRef;
  bond_first_issue_date : NaiveDate;
  bond_current_issue_date : NaiveDate;
  bond_maturity_date : NaiveDate;
  bond_cumulative_issued_amount : DecimalValue;
  bond_tax_attributes : option BondTaxAttributes;
  face_value : DecimalValue;
  pricing_terms : option BondPricingTerms
}.

#[export] Instance Bond_eq_dec : EqDecision Bond.
Proof. solve_decision. Defined.

Definition bond_new (instrument : Instrument) (issue_date maturity_date : NaiveDate) (face_value : DecimalValue) : DomainResult Bond :=
  if negb (bool_decide (instrument_kind instrument = KindBond)) || negb (decimal_is_positive face_value) then Err InvalidValue
  else if geb issue_date maturity_date then Err InvalidEffectiveTime
  else Ok {| bond_instrument := instrument_ref instrument; bond_first_issue_date := issue_date; bond_current_issue_date := issue_date;
             bond_maturity_date := maturity_date; bond_cumulative_issued_amount := face_value; bond_tax_attributes := None;
             face_value := face_value; pricing_terms := None |}.

Definition bond_with_issuance (instrument : Instrument) (first_issue_date current_issue_date maturity_date : NaiveDate)
    (cumulative_issued_amount : DecimalValue) (tax_attributes : BondTaxAttributes) (face_value : DecimalValue) : DomainResult Bond :=
  if negb (bool_decide (instrument_kind instrument = KindBond)) || negb (decimal_is_positive face_value)
     || negb (decimal_is_positive cumulative_issued_amount)
     || negb (bool_decide (value_unit cumulative_issued_amount = value_unit face_value)) then Err InvalidValue
  else if geb first_issue_date maturity_date || ltb current_issue_date first_issue_date || geb current_issue_date maturity_date
  then Err InvalidEffectiveTime
  else Ok {| bond_instrument := instrument_ref instrument; bond_first_issue_date := first_issue_date;
             bond_current_issue_date := current_issue_date; bond_maturity_date := maturity_date;
             bond_cumulative_issued_amount := cumulative_issued_amount; bond_tax_attributes := Some tax_attributes;
             face_value := face_value; pricing_terms := None |}.

Definition bond_with_pricing_terms (self : Bond) (terms : BondPricingTerms) : DomainResult Bond :=
  if bool_decide (is_Some (pricing_terms self)) || bool_decide (bond_tax_attributes self = None) then Err InvalidStateTransition
  else Ok {| bond_instrument := bond_instrument self; bond_first_issue_date := bond_first_issue_date self;
             bond_current_issue_date := bond_current_issue_date self; bond_maturity_date := bond_maturity_date self;
             bond_cumulative_issued_amount := bond_cumulative_issued_amount self; bond_tax_attributes := bond_tax_attributes self;
             face_value := face_value self; pricing_terms := Some terms |}.

(** ** Futures contracts *)

Record FuturesContract := {
  contract_instrument : VersionRef;
  last_trade_time : MarketTime;
  expiry_time : MarketTime;
  settlement_time : MarketTime;
  contract_multiplier : DecimalValue;
  contract_rule_pack : VersionRef;
  contract_product_code : option string;
  contract_price_unit : option UnitRef
}.

#[export] Instance FuturesContract_eq_dec : EqDecision FuturesContract.
Proof. solve_decision. Defined.

Definition futures_contract_new (instrument : Instrument) (last_trade_time expiry_time settlement_time : MarketTime)
    (multiplier : DecimalValue) (rule_pack : VersionRef) : DomainResult FuturesContract :=
  if negb (bool_decide (instrument_kind instrument = KindFutures)) || negb (decimal_is_positive multiplier) then Err InvalidValue
  else if geb (instant last_trade_time) (instant expiry_time) || ltb (instant settlement_time) (instant expiry_time)
  then Err InvalidEffectiveTime
  else Ok {| contract_instrument := instrument_ref instrument; last_trade_time := last_trade_time; expiry_time := expiry_time;
             settlement_time := settlement_time; contract_multiplier := multiplier; contract_rule_pack := rule_pack;
             contract_product_code := None; contract_price_unit := None |}.

(** [chars().any(char::is_whitespace)]: an encoded character is never found across two others. *)
Fixpoint has_white_space (bytes : list byte) : bool :=
  existsb (fun w => bool_decide (is_Some (strip_prefix w bytes))) white_space
  || match bytes with [] => false | _ :: rest => has_white_space rest end.

Definition with_risk_terms (self : FuturesContract) (product_code : string) (price_unit : UnitRef) : DomainResult FuturesContract :=
  if blank_or_padded product_code || has_white_space (as_bytes product_code) then Err InvalidValue
  else Ok {| contract_instrument := contract_instrument self; last_trade_time := last_trade_time self; expiry_time := expiry_time self;
             settlement_time := settlement_time self; contract_multiplier := contract_multiplier self;
             contract_rule_pack := contract_rule_pack self; contract_product_code := Some product_code;
             contract_price_unit := Some price_unit |}.

(** ** Facts *)

Record FactSource := { fact_source_id : string; external_id : string; source_revision : Z; fact_data_source : option VersionRef }.

#[export] Instance FactSource_eq_dec : EqDecision FactSource.
Proof. solve_decision. Defined.

Definition fact_source_new (source_id external_id : string) (source_revision : Z) : DomainResult FactSource :=
  _ ← require_text source_id;
  _ ← require_text external_id;
  if source_revision =? 0 then Err InvalidValue
  else Ok {| fact_source_id := source_id; external_id := external_id; source_revision := source_revision; fact_data_source := None |}.

Definition fact_with_data_source (self : FactSource) (data_source : VersionRef) : DomainResult FactSource :=
  if bool_decide (is_Some (fact_data_source self)) then Err VersionConflict
  else Ok {| fact_source_id := fact_source_id self; external_id := external_id self; source_revision := source_revision self;
             fact_data_source := Some data_source |}.

Inductive CashflowType := CashflowCoupon | CashflowPrincipal | CashflowFee | CashflowOther.

Record Cashflow := {
  cashflow_id : Ulid;
  cashflow_bond : VersionRef;
  payment_time : MarketTime;
  cashflow_amount : DecimalValue;
  cashflow_owner : OwnerRef;
  cashflow_source : FactSource;
  cashflow_supersedes : option Ulid;
  cashflow_type : CashflowType;
  schedule_id : string;
  cashflow_sequence : Z
}.
Abbreviation CashflowInput := Cashflow.

Definition cashflow_new (input : CashflowInput) : DomainResult Cashflow :=
  _ ← require_text (schedule_id input);
  if cashflow_sequence input =? 0 then Err InvalidValue else Ok input.

Record Quote := {
  quote_id : Ulid;
  quote_instrument : VersionRef;
  quote_owner : OwnerRef;
  quote_source : FactSource;
  quote_observed_at : MarketTime;
  received_at : MarketTime;
  quote_bid : option DecimalValue;
  quote_ask : option DecimalValue;
  quote_supersedes : option Ulid
}.
Abbreviation QuoteInput := Quote.

Definition quote_new `{RustDecimal} (input : QuoteInput) : DomainResult Quote :=
  if ltb (instant (received_at input)) (instant (quote_observed_at input))
     || (bool_decide (quote_bid input = None) && bool_decide (quote_ask input = None)) then Err InvalidValue else
  match quote_bid input, quote_ask input with
  | Some bid, Some ask =>
      ordering ← decimal_value_compare bid ask;
      if bool_decide (ordering = Gt) then Err InvalidValue else Ok input
  | _, _ => Ok input
  end.

Record Trade := {
  trade_id : Ulid;
  trade_instrument : VersionRef;
  trade_owner : OwnerRef;
  trade_source : FactSource;
  executed_at : MarketTime;
  trade_price : DecimalValue;
  trade_quantity : DecimalValue;
  trade_supersedes : option Ulid
}.
Abbreviation TradeInput := Trade.

Definition trade_new (input : TradeInput) : DomainResult Trade :=
  if negb (decimal_is_positive (trade_price input)) || negb (decimal_is_positive (trade_quantity input)) then Err InvalidValue else Ok input.

Inductive ValuationValueRole := RolePrice | RoleYield | RoleRemainingYears.

#[export] Instance ValuationValueRole_eq_dec : EqDecision ValuationValueRole.
Proof. solve_decision. Defined.

Record Valuation := {
  valuation_id : Ulid;
  valuation_instrument : VersionRef;
  valuation_owner : OwnerRef;
  valuation_source : FactSource;
  fact_valuation_at : MarketTime;
  method : string;
  valuation_rule_pack : VersionRef;
  values : list DecimalValue;
  value_roles : list ValuationValueRole;
  valuation_supersedes : option Ulid
}.

(** [new_with_value_roles]; the roles are a field of the input here, and [new] has none. *)
Definition valuation_new (input : Valuation) : DomainResult Valuation :=
  _ ← require_text (method input);
  if bool_decide (values input = []) then Err InvalidValue else
  value_roles ← (if bool_decide (value_roles input = []) then Ok (replicate (List.length (values input)) RolePrice)
                 else if (List.length (value_roles input) =? List.length (values input))%nat then Ok (value_roles input)
                 else Err InvalidValue);
  Ok {| valuation_id := valuation_id input; valuation_instrument := valuation_instrument input;
        valuation_owner := valuation_owner input; valuation_source := valuation_source input;
        fact_valuation_at := fact_valuation_at input; method := method input; valuation_rule_pack := valuation_rule_pack input;
        values := values input; value_roles := value_roles; valuation_supersedes := valuation_supersedes input |}.

Definition has_typed_value_roles (self : Valuation) : bool :=
  existsb (fun role => negb (bool_decide (role = RolePrice))) (value_roles self).

Inductive MarketFact := FactCashflow (value : Cashflow) | FactQuote (value : Quote) | FactTrade (value : Trade) | FactValuation (value : Valuation).

(** ** Curve snapshots *)

Inductive ArtifactInputKind := ExternalFixture.

Record CurveSnapshot := {
  curve_snapshot_id : Ulid;
  curve_owner : OwnerRef;
  curve_as_of : MarketTime;
  curve_currency : UnitRef;
  curve_kind : string;
  curve_calendar : VersionRef;
  curve_rule_pack : VersionRef;
  point_schema : string;
  curve_content_hash : ContentHash;
  curve_lineage : list LineageRef;
  curve_input_kind : ArtifactInputKind;
  curve_visible_at : option MarketTime;
  curve_family_id : option string
}.

(** [CurveSnapshotInput] has no knowledge time. *)
Definition curve_snapshot_new (input : CurveSnapshot) : DomainResult CurveSnapshot :=
  _ ← require_text (curve_kind input);
  _ ← require_text (point_schema input);
  if bool_decide (curve_lineage input = []) then Err BrokenLineage
  else Ok {| curve_snapshot_id := curve_snapshot_id input; curve_owner := curve_owner input; curve_as_of := curve_as_of input;
             curve_currency := curve_currency input; curve_kind := curve_kind input; curve_calendar := curve_calendar input;
             curve_rule_pack := curve_rule_pack input; point_schema := point_schema input;
             curve_content_hash := curve_content_hash input; curve_lineage := curve_lineage input;
             curve_input_kind := curve_input_kind input; curve_visible_at := None; curve_family_id := None |}.

Definition curve_with_knowledge_time (self : CurveSnapshot) (visible_at : MarketTime) (family_id : string) : DomainResult CurveSnapshot :=
  _ ← require_text family_id;
  if bool_decide (is_Some (curve_visible_at self)) || bool_decide (is_Some (curve_family_id self)) then Err InvalidStateTransition
  else if ltb (instant visible_at) (instant (curve_as_of self)) then Err InvalidEffectiveTime
  else Ok {| curve_snapshot_id := curve_snapshot_id self; curve_owner := curve_owner self; curve_as_of := curve_as_of self;
             curve_currency := curve_currency self; curve_kind := curve_kind self; curve_calendar := curve_calendar self;
             curve_rule_pack := curve_rule_pack self; point_schema := point_schema self;
             curve_content_hash := curve_content_hash self; curve_lineage := curve_lineage self;
             curve_input_kind := curve_input_kind self; curve_visible_at := Some visible_at; curve_family_id := Some family_id |}.

(** ** What the constructors make *)

(** Bonds without tax attributes are the legacy ones, which have one issue and no pricing terms. *)
Record wf_bond (b : Bond) : Prop := {
  bond_dates : ltb (bond_first_issue_date b) (bond_maturity_date b) = true;
  bond_issue_order : leb (bond_first_issue_date b) (bond_current_issue_date b) = true;
  bond_legacy : bond_tax_attributes b = None ->
    bond_current_issue_date b = bond_first_issue_date b /\ bond_cumulative_issued_amount b = face_value b /\ pricing_terms b = None
}.

(** Risk terms come together, and the times of a contract are ordered. *)
Record wf_futures (c : FuturesContract) : Prop := {
  futures_times : ltb (instant (last_trade_time c)) (instant (expiry_time c)) = true
                  /\ leb (instant (expiry_time c)) (instant (settlement_time c)) = true;
  futures_risk_terms : is_Some (contract_product_code c) <-> is_Some (contract_price_unit c)
}.

Definition wf_valuation (v : Valuation) : Prop := values v <> [] /\ List.length (value_roles v) = List.length (values v).

(** The knowledge time and the family of a curve come together. *)
Definition wf_curve (c : CurveSnapshot) : Prop := curve_lineage c <> [] /\ (is_Some (curve_visible_at c) <-> is_Some (curve_family_id c)).

Lemma geb_false {A} `{OrdLaws A} (a b : A) : geb a b = false <-> ltb a b = true.
Proof. by rewrite geb_spec, negb_false_iff. Qed.

Lemma bond_new_wf i d m f b : bond_new i d m f = Ok b -> wf_bond b /\ bond_instrument b = instrument_ref i.
Proof.
  unfold bond_new. intros E. destruct (_ || _); [done|]. destruct (geb d m) eqn:Ed; [done|]. injection E as <-. split; [|done].
  split; cbn; [by apply geb_false|apply leb_spec; by left|done].
Qed.

Lemma bond_with_issuance_wf i d c m a t f b : bond_with_issuance i d c m a t f = Ok b -> wf_bond b /\ bond_instrument b = instrument_ref i.
Proof.
  unfold bond_with_issuance. intros E. destruct (_ || _); [done|]. destruct (geb d m) eqn:Ed; [done|]. cbn [orb] in E.
  destruct (ltb c d) eqn:Ec; [done|]. destruct (geb c m); [done|]. injection E as <-. split; [|done].
  split; cbn; [by apply geb_false|by rewrite leb_ltb, Ec|done].
Qed.

Lemma bond_with_pricing_terms_wf b t c : wf_bond b -> bond_with_pricing_terms b t = Ok c -> wf_bond c /\ bond_instrument c = bond_instrument b.
Proof.
  intros [? ? Hl]. unfold bond_with_pricing_terms. destruct (_ || _) eqn:E; [done|]. intros [= <-]. split; [|done].
  apply orb_false_iff in E as [_ E]. rewrite bool_decide_eq_false in E. split; cbn; [done..|]. intros ?. contradiction.
Qed.

Lemma futures_contract_new_wf i l e s m r c : futures_contract_new i l e s m r = Ok c -> wf_futures c /\ contract_instrument c = instrument_ref i.
Proof.
  unfold futures_contract_new. intros E. destruct (_ || _); [done|]. destruct (geb _ _) eqn:El; [done|]. cbn [orb] in E.
  destruct (ltb _ _) eqn:Es; [done|]. injection E as <-. split; [|done]. split; cbn; [|by split; intros []].
  split; [by apply geb_false|by rewrite leb_ltb, Es].
Qed.

Lemma with_risk_terms_wf c p u d : wf_futures c -> with_risk_terms c p u = Ok d -> wf_futures d /\ contract_instrument d = contract_instrument c.
Proof. intros [? _]. unfold with_risk_terms. destruct (_ || _); [done|]. intros [= <-]. split; [|done]. by split. Qed.

Lemma valuation_new_wf input v : valuation_new input = Ok v -> wf_valuation v.
Proof.
  unfold valuation_new. intros E. apply bind_Ok in E as ([] & _ & E). case_bool_decide as Ev; [done|].
  apply bind_Ok in E as (roles & Er & [= <-]). split; [done|]. cbn. case_bool_decide.
  - injection Er as <-. apply length_replicate.
  - destruct (_ =? _)%nat eqn:El; [|done]. injection Er as <-. by apply Nat.eqb_eq.
Qed.

Lemma curve_snapshot_new_wf input c : curve_snapshot_new input = Ok c -> wf_curve c.
Proof.
  unfold curve_snapshot_new. intros E. apply bind_Ok in E as ([] & _ & E). apply bind_Ok in E as ([] & _ & E).
  case_bool_decide as El; [done|]. injection E as <-. split; [done|]. cbn. split; by intros [].
Qed.

Lemma curve_with_knowledge_time_wf c t f d : wf_curve c -> curve_with_knowledge_time c t f = Ok d -> wf_curve d.
Proof.
  intros [Hl _]. unfold curve_with_knowledge_time. intros E. apply bind_Ok in E as ([] & _ & E).
  destruct (_ || _); [done|]. destruct (ltb _ _); [done|]. injection E as <-. by split.
Qed.
