(* ===== verification/Fingerprints.v ===== *)
(** * Fingerprints of definitions, facts and curves

    [crates/ficant-application/src/ports/fingerprint.rs] with the values of [ports/definitions.rs] and
    [ports/facts.rs] it writes: an object becomes a sequence of tagged fields, nested objects become the
    values of fields. The builder and its injectivity are in [Access]. What the bytes of a definition or of
    a fact determine is shown at the end: the object itself, but for the content of a rule pack, of which
    only the hash is written. *)

From Stdlib Require Import ZArith Lia Strings.String.
From Stdlib Require Import Strings.Byte.
From stdpp Require Import base list option strings numbers.
From S2P Require Import Prelude Machine Collections Primitives Codec Concrete DecimalValue Subject BondAnalytics CouponTax MarketData MarketObjects AppErrors Access.
Open Scope Z_scope.

(** ** Definitions and facts *)

Inductive InstrumentSubtype := SubtypeBond (value : Bond) | SubtypeFutures (value : FuturesContract).

Definition subtype_instrument (self : InstrumentSubtype) : VersionRef :=
  match self with SubtypeBond value => bond_instrument value | SubtypeFutures value => contract_instrument value end.

Record InstrumentDefinition := { definition_instrument : Instrument; definition_subtype : option InstrumentSubtype }.

Definition require_same_instrument_version (instrument : Instrument) (reference : VersionRef) : AppResult unit :=
  fail_if (negb (bool_decide (reference = instrument_ref instrument))) (map_domain_error VersionConflict).

Definition instrument_definition_new (instrument : Instrument) (subtype : option InstrumentSubtype) : AppResult InstrumentDefinition :=
  _ ← match instrument_kind instrument, subtype with
      | KindBond, Some (SubtypeBond value) => require_same_instrument_version instrument (bond_instrument value)
      | KindFutures, Some (SubtypeFutures value) => require_same_instrument_version instrument (contract_instrument value)
      | KindOther, None => Ok tt
      | _, _ => Err (map_domain_error InvalidValue)
      end;
  Ok {| definition_instrument := instrument; definition_subtype := subtype |}.

Inductive DefinitionValue :=
| DefinedInstrument (value : InstrumentDefinition)
| DefinedCalendar (value : Calendar)
| DefinedUnit (value : Unit)
| DefinedRulePack (value : MarketRulePack).

Definition definition_identity (self : DefinitionValue) : Ulid :=
  match self with
  | DefinedInstrument value => instrument_id (definition_instrument value)
  | DefinedCalendar value => calendar_id value
  | DefinedUnit value => unit_identity value
  | DefinedRulePack value => market_rule_pack_id value
  end.

Definition definition_version (self : DefinitionValue) : Version :=
  match self with
  | DefinedInstrument value => instrument_version (definition_instrument value)
  | DefinedCalendar value => calendar_version value
  | DefinedUnit value => unit_number value
  | DefinedRulePack value => rule_pack_number value
  end.

Definition definition_owner (self : DefinitionValue) : OwnerRef :=
  match self with
  | DefinedInstrument value => instrument_owner (definition_instrument value)
  | DefinedCalendar value => calendar_owner value
  | DefinedUnit value => unit_owner value
  | DefinedRulePack value => rule_pack_owner value
  end.

(** ** Fields *)

(** [u64] and [optional_u64] of the builder. *)
Definition u64_value (value : Z) : list byte := to_be_bytes 8 value.
Definition optional_u64_value (value : option Z) : list byte :=
  match value with Some value => x01 :: to_be_bytes 8 value | None => [x00] end.

Definition owner_bytes (owner : OwnerRef) : list byte :=
  fingerprint_bytes "owner-ref/v1" [(2, as_bytes (ulid_str (tenant_id owner))); (3, as_bytes (ulid_str (owner_id owner)))].

Definition version_ref_bytes (reference : VersionRef) : list byte :=
  fingerprint_bytes "version-ref/v1" [(2, as_bytes (ulid_str (vr_id reference))); (3, u64_value (version_get (vr_version reference)))].

Definition unit_ref_bytes (reference : UnitRef) : list byte :=
  fingerprint_bytes "unit-ref/v1" [(2, as_bytes (ulid_str (unit_id reference))); (3, u64_value (version_get (unit_version reference)))].

Definition decimal_bytes (decimal : DecimalValue) : list byte :=
  fingerprint_bytes "decimal/v1"
    [(2, as_bytes (coefficient decimal)); (3, u64_value (scale decimal)); (4, unit_ref_bytes (value_unit decimal))].

Definition market_time_bytes `{Chrono} (time : MarketTime) : list byte :=
  fingerprint_bytes "market-time/v1"
    [(2, to_be_bytes 8 (timestamp (instant time))); (3, to_be_bytes 4 (timestamp_subsec_nanos (instant time)));
     (4, as_bytes (market_timezone time)); (5, as_bytes (date_to_string (local_trading_date time)))].

Definition period_bytes `{Chrono} (period : EffectivePeriod) : list byte :=
  fingerprint_bytes "effective-period/v1" [(2, market_time_bytes (ep_from period)); (3, market_time_bytes (ep_to period))].

Definition lineage_ref_bytes (reference : LineageRef) : list byte :=
  fingerprint_bytes "lineage-ref/v1"
    ([(2, as_bytes (ulid_str (object_id reference))); (3, optional_u64_value (option_map version_get (lr_version reference)))]
     ++ match lr_content_hash reference with
        | Some hash => [(4, [x01]); (5, hash_bytes hash)]
        | None => [(4, [x00])]
        end).

(** [compare_lineage] is the order of the references. *)
Definition lineage_bytes (lineage : list LineageRef) : list byte :=
  fingerprint_bytes "lineage-list/v1"
    ((2, u64_value (Z.of_nat (List.length lineage))) :: map (fun reference => (3, lineage_ref_bytes reference)) (sort lineage)).

Definition source_bytes (source : FactSource) : list byte :=
  fingerprint_bytes "fact-source/v1"
    ([(2, as_bytes (fact_source_id source)); (3, as_bytes (external_id source)); (4, u64_value (source_revision source))]
     ++ match fact_data_source source with Some reference => [(5, version_ref_bytes reference)] | None => [] end).

Definition optional_id_bytes (value : option Ulid) : list byte :=
  match value with Some value => x01 :: as_bytes (ulid_str value) | None => [x00] end.

(** ** Codes *)

Definition instrument_kind_code (kind : InstrumentKind) : byte :=
  match kind with KindBond => x01 | KindFutures => x02 | KindOther => x03 end.
Definition cashflow_type_code (value : CashflowType) : byte :=
  match value with CashflowCoupon => x01 | CashflowPrincipal => x02 | CashflowFee => x03 | CashflowOther => x04 end.
Definition verification_status_code (value : VerificationStatus) : byte :=
  match value with Unverified => x01 | Verified => x02 | VerificationRejected => x03 end.
Definition artifact_input_kind_code (value : ArtifactInputKind) : byte := match value with ExternalFixture => x01 end.
Definition valuation_value_role_code (role : ValuationValueRole) : byte :=
  match role with RolePrice => x01 | RoleYield => x02 | RoleRemainingYears => x03 end.

(** ** Instruments *)

Definition instrument_bytes (instrument : Instrument) : list byte :=
  fingerprint_bytes "definition/instrument/v1"
    [(2, as_bytes (ulid_str (instrument_id instrument))); (3, u64_value (version_get (instrument_version instrument)));
     (4, owner_bytes (instrument_owner instrument)); (5, [instrument_kind_code (instrument_kind instrument)]);
     (6, as_bytes (instrument_market instrument)); (7, as_bytes (symbol instrument)); (8, unit_ref_bytes (currency instrument));
     (9, version_ref_bytes (instrument_calendar instrument))].

Definition bond_tax_attributes_bytes (attributes : BondTaxAttributes) : list byte :=
  [match value_added_tax_status attributes with VatExempt => x01 | VatTaxable => x02 end;
   match income_tax_status attributes with IncomeExempt => x01 | IncomeTaxable => x02 end].

Definition issuance_fields `{Chrono} (bond : Bond) (attributes : BondTaxAttributes) : list (Z * list byte) :=
  [(2, version_ref_bytes (bond_instrument bond)); (3, as_bytes (date_to_string (bond_first_issue_date bond)));
   (4, as_bytes (date_to_string (bond_current_issue_date bond))); (5, as_bytes (date_to_string (bond_maturity_date bond)));
   (6, decimal_bytes (bond_cumulative_issued_amount bond)); (7, bond_tax_attributes_bytes attributes); (8, decimal_bytes (face_value bond))].

Definition pricing_fields (pricing : BondPricingTerms) : list (Z * list byte) :=
  [(9, decimal_bytes (pricing_coupon_rate pricing)); (10, [match pricing_frequency pricing with BondAnnual => x01 | BondSemiannual => x02 end]);
   (11, [match pricing_day_count pricing with BondActActIsma => x01 end]);
   (12, [match pricing_business_day pricing with BondFollowing => x01 end])].

(** A bond without tax attributes has no pricing terms ([wf_bond]), so the [expect] of the first branch holds. *)
Definition bond_bytes `{Chrono} (bond : Bond) : list byte :=
  match bond_tax_attributes bond, pricing_terms bond with
  | Some attributes, Some pricing => fingerprint_bytes "definition/bond/v3" (issuance_fields bond attributes ++ pricing_fields pricing)
  | None, _ =>
      fingerprint_bytes "definition/bond/v1"
        [(2, version_ref_bytes (bond_instrument bond)); (3, as_bytes (date_to_string (bond_first_issue_date bond)));
         (4, as_bytes (date_to_string (bond_maturity_date bond))); (5, decimal_bytes (face_value bond))]
  | Some attributes, None => fingerprint_bytes "definition/bond/v2" (issuance_fields bond attributes)
  end.

Definition futures_bytes `{Chrono} (contract : FuturesContract) : list byte :=
  fingerprint_bytes "definition/futures/v1"
    ([(2, version_ref_bytes (contract_instrument contract)); (3, market_time_bytes (last_trade_time contract));
      (4, market_time_bytes (expiry_time contract)); (5, market_time_bytes (settlement_time contract));
      (6, decimal_bytes (contract_multiplier contract)); (7, version_ref_bytes (contract_rule_pack contract))]
     ++ match contract_product_code contract, contract_price_unit contract with
        | Some product_code, Some price_unit => [(8, as_bytes product_code); (9, unit_ref_bytes price_unit)]
        | _, _ => []
        end).

Definition instrument_definition_bytes `{Chrono} (definition : InstrumentDefinition) : list byte :=
  fingerprint_bytes "definition/instrument-aggregate/v1"
    ((2, instrument_bytes (definition_instrument definition))
     :: match definition_subtype definition with
        | None => [(3, [x00])]
        | Some (SubtypeBond bond) => [(3, [x01]); (4, bond_bytes bond)]
        | Some (SubtypeFutures contract) => [(3, [x02]); (4, futures_bytes contract)]
        end).

(** ** Calendars, units and rule packs *)

(** [Display] of [NaiveTime]. *)
Class ChronoTime : Type := time_to_string : NaiveTime -> string.

(** A nanosecond above the second is a leap second, which only the last second of a minute has. *)
Definition wf_naive_time (t : NaiveTime) : Prop :=
  0 <= nt_seconds t < 86400 /\ 0 <= nt_nanos t /\ (nt_nanos t < 10 ^ 9 \/ (nt_seconds t `mod` 60 = 59 /\ nt_nanos t < 2 * 10 ^ 9)).

(** Distinct times print differently, and none prints as a dash. *)
Class ChronoTimeLaws `{ChronoTime} : Prop := {
  time_to_string_inj : forall t u, wf_naive_time t -> wf_naive_time u -> time_to_string t = time_to_string u -> t = u;
  time_to_string_dash : forall t, wf_naive_time t -> time_to_string t <> "-"%string
}.

Definition local_time_bytes `{ChronoTime} (time : option NaiveTime) : list byte :=
  as_bytes (from_option time_to_string "-"%string time).

Definition session_bytes `{Chrono} `{ChronoTime} (session : CalendarSession) : list byte :=
  fingerprint_bytes "calendar-session/v1"
    [(2, as_bytes (date_to_string (local_date session))); (3, local_time_bytes (open_local_time session));
     (4, local_time_bytes (close_local_time session))].

Definition calendar_bytes `{Chrono} `{ChronoTime} (calendar : Calendar) : list byte :=
  fingerprint_bytes "definition/calendar/v1"
    ([(2, as_bytes (ulid_str (calendar_id calendar))); (3, u64_value (version_get (calendar_version calendar)));
      (4, owner_bytes (calendar_owner calendar)); (5, as_bytes (market calendar)); (6, as_bytes (calendar_timezone calendar));
      (7, period_bytes (calendar_effective calendar)); (8, u64_value (Z.of_nat (List.length (sessions calendar))))]
     ++ map (fun session => (9, session_bytes session)) (sessions calendar)).

Definition unit_bytes (u : Unit) : list byte :=
  fingerprint_bytes "definition/unit/v1"
    [(2, as_bytes (ulid_str (unit_identity u))); (3, u64_value (version_get (unit_number u))); (4, owner_bytes (unit_owner u));
     (5, as_bytes (unit_code u)); (6, as_bytes (dimension u)); (7, u64_value (unit_scale u)); (8, u64_value (unit_precision u))].

Definition rule_pack_bytes `{Chrono} (rule : MarketRulePack) : list byte :=
  fingerprint_bytes "definition/rule-pack/v1"
    [(2, as_bytes (ulid_str (market_rule_pack_id rule))); (3, u64_value (version_get (rule_pack_number rule)));
     (4, owner_bytes (rule_pack_owner rule)); (5, as_bytes (rule_pack_market rule)); (6, as_bytes (rule_pack_type rule));
     (7, as_bytes (rule_pack_source rule)); (8, period_bytes (effective rule)); (9, [verification_status_code (verification_status rule)]);
     (10, hash_bytes (rule_pack_content_hash rule))].

Definition definition_bytes `{Chrono} `{ChronoTime} (definition : DefinitionValue) : list byte :=
  match definition with
  | DefinedInstrument value => instrument_definition_bytes value
  | DefinedCalendar value => calendar_bytes value
  | DefinedUnit value => unit_bytes value
  | DefinedRulePack value => rule_pack_bytes value
  end.

Definition definition_content_hash `{Sha256} `{Chrono} `{ChronoTime} (definition : DefinitionValue) : ContentHash :=
  digest (definition_bytes definition).

(** ** Curves and facts *)

Definition curve_snapshot_bytes `{Chrono} (curve : CurveSnapshot) : list byte :=
  fingerprint_bytes (if bool_decide (is_Some (curve_visible_at curve)) then "curve-snapshot/v2" else "curve-snapshot/v1")
    ([(2, as_bytes (ulid_str (curve_snapshot_id curve))); (3, owner_bytes (curve_owner curve)); (4, market_time_bytes (curve_as_of curve));
      (5, unit_ref_bytes (curve_currency curve)); (6, as_bytes (curve_kind curve)); (7, version_ref_bytes (curve_calendar curve));
      (8, version_ref_bytes (curve_rule_pack curve)); (9, as_bytes (point_schema curve)); (10, hash_bytes (curve_content_hash curve));
      (11, lineage_bytes (curve_lineage curve)); (12, [artifact_input_kind_code (curve_input_kind curve)])]
     ++ match curve_visible_at curve, curve_family_id curve with
        | Some visible_at, Some curve_family_id => [(13, market_time_bytes visible_at); (14, as_bytes curve_family_id)]
        | _, _ => []
        end).

Definition cashflow_bytes `{Chrono} (fact : Cashflow) : list byte :=
  fingerprint_bytes "fact/cashflow/v1"
    [(2, as_bytes (ulid_str (cashflow_id fact))); (3, version_ref_bytes (cashflow_bond fact)); (4, market_time_bytes (payment_time fact));
     (5, decimal_bytes (cashflow_amount fact)); (6, owner_bytes (cashflow_owner fact)); (7, source_bytes (cashflow_source fact));
     (8, optional_id_bytes (cashflow_supersedes fact)); (9, [cashflow_type_code (cashflow_type fact)]); (10, as_bytes (schedule_id fact));
     (11, u64_value (cashflow_sequence fact))].

Definition optional_decimal_bytes (value : option DecimalValue) : list byte :=
  match value with Some decimal => x01 :: decimal_bytes decimal | None => [x00] end.

Definition quote_bytes `{Chrono} (fact : Quote) : list byte :=
  fingerprint_bytes "fact/quote/v1"
    [(2, as_bytes (ulid_str (quote_id fact))); (3, version_ref_bytes (quote_instrument fact)); (4, owner_bytes (quote_owner fact));
     (5, source_bytes (quote_source fact)); (6, market_time_bytes (quote_observed_at fact)); (7, market_time_bytes (received_at fact));
     (8, optional_decimal_bytes (quote_bid fact)); (9, optional_decimal_bytes (quote_ask fact));
     (10, optional_id_bytes (quote_supersedes fact))].

Definition trade_bytes `{Chrono} (fact : Trade) : list byte :=
  fingerprint_bytes "fact/trade/v1"
    [(2, as_bytes (ulid_str (trade_id fact))); (3, version_ref_bytes (trade_instrument fact)); (4, owner_bytes (trade_owner fact));
     (5, source_bytes (trade_source fact)); (6, market_time_bytes (executed_at fact)); (7, decimal_bytes (trade_price fact));
     (8, decimal_bytes (trade_quantity fact)); (9, optional_id_bytes (trade_supersedes fact))].

Definition valuation_bytes `{Chrono} (fact : Valuation) : list byte :=
  fingerprint_bytes (if has_typed_value_roles fact then "fact/valuation/v2" else "fact/valuation/v1")
    ([(2, as_bytes (ulid_str (valuation_id fact))); (3, version_ref_bytes (valuation_instrument fact)); (4, owner_bytes (valuation_owner fact));
      (5, source_bytes (valuation_source fact)); (6, market_time_bytes (fact_valuation_at fact)); (7, as_bytes (method fact));
      (8, version_ref_bytes (valuation_rule_pack fact)); (9, u64_value (Z.of_nat (List.length (values fact))))]
     ++ map (fun decimal => (10, decimal_bytes decimal)) (values fact)
     ++ [(11, optional_id_bytes (valuation_supersedes fact))]
     ++ (if has_typed_value_roles fact then map (fun role => (12, [valuation_value_role_code role])) (value_roles fact) else [])).

Definition fact_bytes `{Chrono} (fact : MarketFact) : list byte :=
  match fact with
  | FactCashflow value => cashflow_bytes value
  | FactQuote value => quote_bytes value
  | FactTrade value => trade_bytes value
  | FactValuation value => valuation_bytes value
  end.

Definition market_fact_content_hash `{Sha256} `{Chrono} (fact : MarketFact) : ContentHash := digest (fact_bytes fact).

(** ** What the bytes determine *)

(** Equal bytes come from equal values, as long as the bytes fit in memory. *)
Class Identifies {A} (enc : A -> list byte) (P : A -> Prop) : Prop :=
  identify : forall a b, P a -> P b -> short (enc a) -> enc a = enc b -> a = b.

Definition tags_ok (l : list (Z * list byte)) : Prop := Forall (fun f => in_u8 f.1 = true) l.

Lemma tags_ok_map {A} (tag : Z) (enc : A -> list byte) l : in_u8 tag = true -> tags_ok (map (fun a => (tag, enc a)) l).
Proof. intros Ht. unfold tags_ok. rewrite Forall_map. by apply list.Forall_forall. Qed.

Lemma length_tagged f : List.length (tagged f) = (9 + List.length f.2)%nat.
Proof. unfold tagged, frame. cbn [List.length]. by rewrite length_app, length_to_be_bytes. Qed.

Lemma tagged_fields_short l : short (flat_map tagged l) -> Forall (fun f => short f.2) l.
Proof.
  unfold short. induction l as [|[t v] l IH]; intros Hs; [done|]. cbn [flat_map] in Hs. rewrite length_app, length_tagged in Hs.
  cbn [snd] in *. constructor; [cbn [snd]; lia|apply IH; lia].
Qed.

Lemma fingerprint_fields_short s l : short (fingerprint_bytes s l) -> Forall (fun f => short f.2) l.
Proof.
  intros Hs. assert (H : Forall (fun f => short f.2) ((1, as_bytes s) :: l)) by
    (apply tagged_fields_short; unfold fingerprint_bytes, short in *; rewrite !length_app in Hs; lia).
  by inversion H.
Qed.

Lemma fingerprint_open s s' l m :
  wf_str s -> wf_str s' -> tags_ok l -> tags_ok m -> short (fingerprint_bytes s l) -> fingerprint_bytes s l = fingerprint_bytes s' m ->
  s = s' /\ l = m /\ Forall (fun f => short f.2) l.
Proof.
  intros Hs Hs' Tl Tm S E. pose proof S as S'. rewrite E in S'. apply fingerprint_fields_short in S, S'.
  apply fingerprint_bytes_inj in E as [-> ->]; [done|done|done|by apply Forall_and|by apply Forall_and].
Qed.

Lemma field_pair_inj (t u : Z) (x y : list byte) l m : (t, x) :: l = (u, y) :: m -> t = u /\ x = y /\ l = m.
Proof. by intros [= -> -> ->]. Qed.

Ltac tags := repeat first [apply Forall_app_2 | apply tags_ok_map; reflexivity | apply List.Forall_cons; [reflexivity|] | apply List.Forall_nil | match goal with |- context [match ?x with _ => _ end] => destruct x end].

(** Reads a fingerprint back as its fields. *)
Ltac open_fields :=
  match goal with
  | S : short (fingerprint_bytes _ _), E : fingerprint_bytes _ _ = fingerprint_bytes _ _ |- _ =>
      apply fingerprint_open in E as (? & E & ?); [|by vm_compute|by vm_compute|solve [tags]|solve [tags]|exact S]; clear S
  end;
  repeat match goal with
  | E : (_ ++ _) = (_ ++ _) :> list (Z * list byte) |- _ => progress cbn [app] in E
  | E : (_, _) :: _ = (_, _) :: _ |- _ => apply field_pair_inj in E as (? & ? & E)
  | E : [] = @nil (Z * list byte) |- _ => clear E
  | S : Forall _ (_ ++ _) |- _ => progress cbn [app] in S
  | S : Forall _ (_ :: _) |- _ => apply list.Forall_cons in S as [? S]; cbn [snd] in *
  | S : Forall _ [] |- _ => clear S
  | E : ?a = ?a |- _ => clear E
  end.

Ltac read_fields :=
  repeat match goal with
  | E : as_bytes (ulid_str _) = as_bytes (ulid_str _) |- _ => apply ulid_bytes_inj in E
  | E : as_bytes (date_to_string _) = as_bytes (date_to_string _) |- _ => apply as_bytes_inj, date_to_string_inj in E; [|assumption..]
  | E : as_bytes _ = as_bytes _ |- _ => apply as_bytes_inj in E
  | E : hash_bytes _ = hash_bytes _ |- _ => apply hash_eq in E
  | E : [?code _] = [?code _] |- _ => apply (list_singleton_inj byte), (inj code) in E
  | E : u64_value (version_get _) = u64_value (version_get _) |- _ => apply version_bytes_inj in E; [|assumption..]
  | E : u64_value _ = u64_value _ |- _ => apply u64_be_inj in E; [|assumption..]
  | S : short (?enc ?a), E : ?enc ?a = ?enc ?b |- _ => apply (identify (enc := enc)) in E; [clear S|first [assumption | exact I]..]
  end;
  repeat match goal with S : short _ |- _ => clear S end.

Ltac fields_done := read_fields; match goal with |- ?a = ?b => destruct a, b; cbn in *; subst; try congruence end.

Section identify.
Context `{ChronoLaws}.

Definition ranged_vref (r : VersionRef) : Prop := wf_version (vr_version r).
Definition ranged_unit (u : UnitRef) : Prop := wf_version (unit_version u).
Definition ranged_decimal (d : DecimalValue) : Prop := in_u64 (scale d) = true /\ ranged_unit (value_unit d).
Definition ranged_period (p : EffectivePeriod) : Prop := wf_time (ep_from p) /\ wf_time (ep_to p).

#[export] Instance owner_bytes_identify : Identifies owner_bytes (fun _ => True).
Proof. intros a b _ _ S E. unfold owner_bytes in *. open_fields. fields_done. Qed.

#[export] Instance version_ref_bytes_identify : Identifies version_ref_bytes ranged_vref.
Proof. intros a b Ha Hb S E. unfold version_ref_bytes, ranged_vref in *. open_fields. fields_done. Qed.

#[export] Instance unit_ref_bytes_identify : Identifies unit_ref_bytes ranged_unit.
Proof. intros a b Ha Hb S E. unfold unit_ref_bytes, ranged_unit in *. open_fields. fields_done. Qed.

#[export] Instance decimal_bytes_identify : Identifies decimal_bytes ranged_decimal.
Proof. intros a b [] [] S E. unfold decimal_bytes in *. open_fields. fields_done. Qed.

#[export] Instance market_time_bytes_identify : Identifies market_time_bytes wf_time.
Proof.
  intros a b ([] & ? & ?) ([] & ? & ?) S E. unfold market_time_bytes in *. open_fields.
  match goal with E : to_be_bytes 8 _ = _ |- _ => apply i64_be_inj in E; [|done..] end.
  match goal with E : to_be_bytes 4 _ = _ |- _ => apply u32_be_inj in E; [|done..] end.
  read_fields. destruct a as [[] ? ?], b as [[] ? ?]. cbn in *. congruence.
Qed.

#[export] Instance period_bytes_identify : Identifies period_bytes ranged_period.
Proof. intros a b [] [] S E. unfold period_bytes in *. open_fields. fields_done. Qed.

#[export] Instance optional_id_bytes_identify : Identifies optional_id_bytes (fun _ => True).
Proof. intros [a|] [b|] _ _ _ E; cbn in E; try discriminate E; [|done]. injection E as E. f_equal. by apply ulid_bytes_inj. Qed.

Lemma optional_u64_value_inj (v w : option Version) :
  from_option wf_version True v -> from_option wf_version True w ->
  optional_u64_value (option_map version_get v) = optional_u64_value (option_map version_get w) -> v = w.
Proof.
  intros Hv Hw E. destruct v as [v|], w as [w|]; cbn in *; try discriminate E; [|done]. f_equal. apply version_bytes_inj; [done..|].
  exact (f_equal tail E).
Qed.

Definition ranged_lineage (r : LineageRef) : Prop := from_option wf_version True (lr_version r).

#[export] Instance lineage_ref_bytes_identify : Identifies lineage_ref_bytes ranged_lineage.
Proof.
  intros a b Ha Hb S E. unfold lineage_ref_bytes, ranged_lineage in *.
  destruct (lr_content_hash a) as [g|] eqn:Ea, (lr_content_hash b) as [h|] eqn:Eb; open_fields; try discriminate.
  all: match goal with E : optional_u64_value _ = _ |- _ => apply optional_u64_value_inj in E; [|done..] end.
  all: fields_done.
Qed.

(** Lists of fields with one tag. *)
Lemma repeated_fields_inj {A} (enc : A -> list byte) (P : A -> Prop) `{!Identifies enc P} (tag : Z) (l m : list A) :
  Forall P l -> Forall P m -> Forall (fun f => short f.2) (map (fun a => (tag, enc a)) l) ->
  map (fun a => (tag, enc a)) l = map (fun a => (tag, enc a)) m -> l = m.
Proof.
  intros Hl. revert m. induction Hl as [|a l Ha Hl IH]; intros m Hm S E; destruct Hm as [|b m Hb Hm]; [done|done|done|].
  cbn [map] in *. apply list.Forall_cons in S as [Sa S]. apply field_pair_inj in E as (_ & Ea & E).
  f_equal; [by apply (identify (enc := enc))|by apply IH].
Qed.

Lemma sort_permutation {A} `{Ord A} (l : list A) : sort l ≡ₚ l.
Proof. apply sort_by_perm. Qed.

(** The order of a lineage is not part of its bytes. *)
Lemma lineage_bytes_sorted l m :
  Forall ranged_lineage l -> Forall ranged_lineage m -> short (lineage_bytes l) -> lineage_bytes l = lineage_bytes m -> sort l = sort m.
Proof.
  intros Hl Hm S E. unfold lineage_bytes in *. open_fields. apply (repeated_fields_inj lineage_ref_bytes ranged_lineage 3).
  all: try done.
  all: rewrite sort_permutation; done.
Qed.

Definition ranged_source (s : FactSource) : Prop := in_u64 (source_revision s) = true /\ from_option ranged_vref True (fact_data_source s).

#[export] Instance source_bytes_identify : Identifies source_bytes ranged_source.
Proof.
  intros a b [] [] S E. unfold source_bytes in *.
  destruct (fact_data_source a) eqn:Ea, (fact_data_source b) eqn:Eb; open_fields; try discriminate; cbn [from_option] in *; fields_done.
Qed.

(** ** Definitions *)

#[export] Instance instrument_kind_code_inj : Inj (=) (=) instrument_kind_code.
Proof. by intros [] []. Qed.
#[export] Instance verification_status_code_inj : Inj (=) (=) verification_status_code.
Proof. by intros [] []. Qed.
#[export] Instance cashflow_type_code_inj : Inj (=) (=) cashflow_type_code.
Proof. by intros [] []. Qed.
#[export] Instance valuation_value_role_code_inj : Inj (=) (=) valuation_value_role_code.
Proof. by intros [] []. Qed.
#[export] Instance bond_tax_attributes_bytes_inj : Inj (=) (=) bond_tax_attributes_bytes.
Proof. by intros [[] []] [[] []]. Qed.

Lemma both_or_neither {A B} (o : option A) (p : option B) :
  (is_Some o <-> is_Some p) -> (exists a b, o = Some a /\ p = Some b) \/ (o = None /\ p = None).
Proof.
  intros [Hl Hr]. destruct o as [a|], p as [b|]; [left; by exists a, b| | |by right].
  - by destruct (Hl (mk_is_Some _ _ eq_refl)).
  - by destruct (Hr (mk_is_Some _ _ eq_refl)).
Qed.

Definition ranged_instrument (i : Instrument) : Prop :=
  wf_version (instrument_version i) /\ ranged_unit (currency i) /\ ranged_vref (instrument_calendar i).

#[export] Instance instrument_bytes_identify : Identifies instrument_bytes ranged_instrument.
Proof. intros a b (? & ? & ?) (? & ? & ?) S E. unfold instrument_bytes in *. open_fields. fields_done. Qed.

Record ranged_bond (b : Bond) : Prop := {
  ranged_bond_wf : wf_bond b;
  ranged_bond_instrument : ranged_vref (bond_instrument b);
  ranged_bond_dates : wf_date (bond_first_issue_date b) /\ wf_date (bond_current_issue_date b) /\ wf_date (bond_maturity_date b);
  ranged_bond_amounts : ranged_decimal (bond_cumulative_issued_amount b) /\ ranged_decimal (face_value b);
  ranged_bond_pricing : from_option (fun t => ranged_decimal (pricing_coupon_rate t)) True (pricing_terms b)
}.

Lemma pricing_fields_inj (t u : BondPricingTerms) :
  ranged_decimal (pricing_coupon_rate t) -> ranged_decimal (pricing_coupon_rate u) -> short (decimal_bytes (pricing_coupon_rate t)) ->
  pricing_fields t = pricing_fields u -> t = u.
Proof.
  intros Ht Hu S E. unfold pricing_fields in E. apply field_pair_inj in E as (_ & E1 & E). apply field_pair_inj in E as (_ & E2 & _).
  apply (identify (enc := decimal_bytes)) in E1; [|done..]. destruct t as [? [] [] []], u as [? [] [] []]; cbn in *; try discriminate E2; by subst.
Qed.

#[export] Instance bond_bytes_identify : Identifies bond_bytes ranged_bond.
Proof.
  intros a b [Wa ? (? & ? & ?) [] Pa] [Wb ? (? & ? & ?) [] Pb] S E. unfold bond_bytes, issuance_fields, pricing_fields in *.
  destruct (bond_tax_attributes a) as [ta|] eqn:Ta, (pricing_terms a) as [qa|] eqn:Qa,
    (bond_tax_attributes b) as [tb|] eqn:Tb, (pricing_terms b) as [qb|] eqn:Qb; cbn in Pa, Pb.
  all: try (by apply bond_legacy in Wa as (_ & _ & Wa); [congruence|done]); try (by apply bond_legacy in Wb as (_ & _ & Wb); [congruence|done]).
  all: open_fields; try discriminate.
  all: try (apply bond_legacy in Wa as (? & ? & _); [|done]; apply bond_legacy in Wb as (? & ? & _); [|done]).
  all: repeat match goal with E : bond_tax_attributes_bytes _ = bond_tax_attributes_bytes _ |- _ => apply (inj bond_tax_attributes_bytes) in E end.
  all: read_fields; try (assert (qa = qb) by (destruct qa as [? [] [] []], qb as [? [] [] []]; cbn in *; congruence)).
  all: destruct a, b; cbn in *; congruence.
Qed.

Record ranged_futures (c : FuturesContract) : Prop := {
  ranged_futures_wf : wf_futures c;
  ranged_futures_refs : ranged_vref (contract_instrument c) /\ ranged_vref (contract_rule_pack c);
  ranged_futures_times : wf_time (last_trade_time c) /\ wf_time (expiry_time c) /\ wf_time (settlement_time c);
  ranged_futures_amounts : ranged_decimal (contract_multiplier c) /\ from_option ranged_unit True (contract_price_unit c)
}.

#[export] Instance futures_bytes_identify : Identifies futures_bytes ranged_futures.
Proof.
  intros a b [[_ Wa] [] (? & ? & ?) []] [[_ Wb] [] (? & ? & ?) []] S E. unfold futures_bytes in *.
  apply both_or_neither in Wa as [(pa & ua & Pa & Ua)|[Pa Ua]], Wb as [(pb & ub & Pb & Ub)|[Pb Ub]].
  all: rewrite ?Pa, ?Ua in *; rewrite ?Pb, ?Ub in *.
  all: open_fields; try discriminate; cbn [from_option] in *; fields_done.
Qed.

Definition ranged_definition (d : InstrumentDefinition) : Prop :=
  ranged_instrument (definition_instrument d)
  /\ match definition_subtype d with
     | None => True
     | Some (SubtypeBond bond) => ranged_bond bond
     | Some (SubtypeFutures contract) => ranged_futures contract
     end.

#[export] Instance instrument_definition_bytes_identify : Identifies instrument_definition_bytes ranged_definition.
Proof.
  intros a b [] [] S E. unfold instrument_definition_bytes in *.
  destruct (definition_subtype a) as [[]|] eqn:Ea, (definition_subtype b) as [[]|] eqn:Eb; open_fields; try discriminate; fields_done.
Qed.

Definition ranged_unit_definition (u : Unit) : Prop :=
  wf_version (unit_number u) /\ in_u64 (unit_scale u) = true /\ in_u64 (unit_precision u) = true.

#[export] Instance unit_bytes_identify : Identifies unit_bytes ranged_unit_definition.
Proof. intros a b (? & ? & ?) (? & ? & ?) S E. unfold unit_bytes in *. open_fields. fields_done. Qed.

(** What the bytes of a rule pack carry: all but its content. *)
Definition envelope (rule : MarketRulePack) : MarketRulePack :=
  {| market_rule_pack_id := market_rule_pack_id rule; rule_pack_number := rule_pack_number rule; rule_pack_owner := rule_pack_owner rule;
     rule_pack_market := rule_pack_market rule; rule_pack_type := rule_pack_type rule; rule_pack_source := rule_pack_source rule;
     effective := effective rule; verification_status := verification_status rule; rule_pack_content_hash := rule_pack_content_hash rule;
     rule_pack_content := None |}.

Definition ranged_rule_pack (rule : MarketRulePack) : Prop := wf_version (rule_pack_number rule) /\ ranged_period (effective rule).

Lemma rule_pack_bytes_envelope a b :
  ranged_rule_pack a -> ranged_rule_pack b -> short (rule_pack_bytes a) -> rule_pack_bytes a = rule_pack_bytes b -> envelope a = envelope b.
Proof. intros [] [] S E. unfold rule_pack_bytes in *. open_fields. read_fields. unfold envelope. congruence. Qed.

(** ** Facts and curves *)

Definition ranged_cashflow (c : Cashflow) : Prop :=
  ranged_vref (cashflow_bond c) /\ wf_time (payment_time c) /\ ranged_decimal (cashflow_amount c) /\ ranged_source (cashflow_source c)
  /\ in_u64 (cashflow_sequence c) = true.

#[export] Instance cashflow_bytes_identify : Identifies cashflow_bytes ranged_cashflow.
Proof. intros a b (? & ? & ? & ? & ?) (? & ? & ? & ? & ?) S E. unfold cashflow_bytes in *. open_fields. fields_done. Qed.

#[export] Instance optional_decimal_bytes_identify : Identifies optional_decimal_bytes (from_option ranged_decimal True).
Proof.
  intros [a|] [b|] Ha Hb S E; try discriminate E; [|done]. f_equal. apply (identify (enc := decimal_bytes)); [done..| |exact (f_equal tail E)].
  unfold short in *. cbn [optional_decimal_bytes List.length] in S. lia.
Qed.

Definition ranged_quote (q : Quote) : Prop :=
  ranged_vref (quote_instrument q) /\ ranged_source (quote_source q) /\ wf_time (quote_observed_at q) /\ wf_time (received_at q)
  /\ from_option ranged_decimal True (quote_bid q) /\ from_option ranged_decimal True (quote_ask q).

#[export] Instance quote_bytes_identify : Identifies quote_bytes ranged_quote.
Proof. intros a b (? & ? & ? & ? & ? & ?) (? & ? & ? & ? & ? & ?) S E. unfold quote_bytes in *. open_fields. fields_done. Qed.

Definition ranged_trade (t : Trade) : Prop :=
  ranged_vref (trade_instrument t) /\ ranged_source (trade_source t) /\ wf_time (executed_at t) /\ ranged_decimal (trade_price t)
  /\ ranged_decimal (trade_quantity t).

#[export] Instance trade_bytes_identify : Identifies trade_bytes ranged_trade.
Proof. intros a b (? & ? & ? & ? & ?) (? & ? & ? & ? & ?) S E. unfold trade_bytes in *. open_fields. fields_done. Qed.

Definition ranged_valuation (v : Valuation) : Prop :=
  wf_valuation v /\ ranged_vref (valuation_instrument v) /\ ranged_source (valuation_source v) /\ wf_time (fact_valuation_at v)
  /\ ranged_vref (valuation_rule_pack v) /\ Forall ranged_decimal (values v) /\ Z.of_nat (List.length (values v)) < 2 ^ 64.

(** A valuation without typed roles has the role of a price for each value. *)
Lemma untyped_roles v : wf_valuation v -> has_typed_value_roles v = false -> value_roles v = replicate (List.length (values v)) RolePrice.
Proof.
  intros [_ Hl] Ht. rewrite <- Hl. clear Hl. unfold has_typed_value_roles in Ht. induction (value_roles v) as [|role roles IH]; [done|].
  cbn [existsb] in Ht. apply orb_false_iff in Ht as [Hr Ht]. apply negb_false_iff, bool_decide_eq_true in Hr as ->. cbn. f_equal. by apply IH.
Qed.

#[export] Instance role_bytes_identify : Identifies (fun role => [valuation_value_role_code role]) (fun _ => True).
Proof. intros a b _ _ _ E. apply (list_singleton_inj byte) in E. by apply (inj valuation_value_role_code). Qed.

Lemma app_map_split {A B} (f : A -> B) (l m : list A) (r s : list B) :
  List.length l = List.length m -> map f l ++ r = map f m ++ s -> map f l = map f m /\ r = s.
Proof. intros Hl E. apply app_inj_1 in E; [done|by rewrite !length_map]. Qed.

#[export] Instance valuation_bytes_identify : Identifies valuation_bytes ranged_valuation.
Proof.
  intros a b (Wa & ? & ? & ? & ? & Va & La) (Wb & ? & ? & ? & ? & Vb & Lb) S E. unfold valuation_bytes in *.
  destruct (has_typed_value_roles a) eqn:Ta, (has_typed_value_roles b) eqn:Tb; open_fields; try discriminate.
  all: match goal with E : u64_value (Z.of_nat _) = _ |- _ => apply u64_be_inj in E; [apply Nat2Z.inj in E|ranges; lia..] end.
  all: match goal with E : map _ _ ++ _ = map _ _ ++ _ |- _ => apply app_map_split in E as [? E]; [|done]; apply field_pair_inj in E as (_ & ? & E) end.
  all: match goal with S : Forall _ (map _ _ ++ _) |- _ => apply Forall_app in S as [? S]; apply list.Forall_cons in S as [? S]; cbn [snd] in * end.
  all: match goal with E : map _ (values _) = _ |- _ => apply (repeated_fields_inj decimal_bytes ranged_decimal 10) in E; [|done..] end.
  1: match goal with E : map _ (value_roles _) = _ |- _ =>
       apply (repeated_fields_inj (fun role => [valuation_value_role_code role]) (fun _ => True) 12) in E; [|by apply list.Forall_forall..|done] end.
  2: assert (value_roles a = value_roles b) by (rewrite !untyped_roles by done; congruence).
  all: clear Ta Tb; fields_done.
Qed.

Definition ranged_fact (f : MarketFact) : Prop :=
  match f with
  | FactCashflow value => ranged_cashflow value
  | FactQuote value => ranged_quote value
  | FactTrade value => ranged_trade value
  | FactValuation value => ranged_valuation value
  end.

#[export] Instance fact_bytes_identify : Identifies fact_bytes ranged_fact.
Proof.
  intros a b Ha Hb S E. destruct a as [a|a|a|a], b as [b|b|b|b]; cbn [fact_bytes ranged_fact] in *.
  all: try (f_equal; by first [apply (identify (enc := cashflow_bytes)) | apply (identify (enc := quote_bytes))
                              | apply (identify (enc := trade_bytes)) | apply (identify (enc := valuation_bytes))]).
  all: unfold cashflow_bytes, quote_bytes, trade_bytes, valuation_bytes in *; exfalso.
  all: repeat match goal with H : context [has_typed_value_roles ?v] |- _ => destruct (has_typed_value_roles v) end.
  all: match goal with S : short _, E : _ = _ |- _ => apply fingerprint_open in E as [E _]; [discriminate E|by vm_compute..|solve [tags]|solve [tags]|exact S] end.
Qed.

Definition ranged_curve (c : CurveSnapshot) : Prop :=
  wf_curve c /\ wf_time (curve_as_of c) /\ ranged_unit (curve_currency c) /\ ranged_vref (curve_calendar c) /\ ranged_vref (curve_rule_pack c)
  /\ Forall ranged_lineage (curve_lineage c) /\ from_option wf_time True (curve_visible_at c).

(** A curve whose lineage is sorted. *)
Definition sorted_lineage (c : CurveSnapshot) : CurveSnapshot :=
  {| curve_snapshot_id := curve_snapshot_id c; curve_owner := curve_owner c; curve_as_of := curve_as_of c; curve_currency := curve_currency c;
     curve_kind := curve_kind c; curve_calendar := curve_calendar c; curve_rule_pack := curve_rule_pack c; point_schema := point_schema c;
     curve_content_hash := curve_content_hash c; curve_lineage := sort (curve_lineage c); curve_input_kind := curve_input_kind c;
     curve_visible_at := curve_visible_at c; curve_family_id := curve_family_id c |}.

Lemma curve_snapshot_bytes_sorted a b :
  ranged_curve a -> ranged_curve b -> short (curve_snapshot_bytes a) -> curve_snapshot_bytes a = curve_snapshot_bytes b ->
  sorted_lineage a = sorted_lineage b.
Proof.
  intros ([_ Wa] & ? & ? & ? & ? & ? & ?) ([_ Wb] & ? & ? & ? & ? & ? & ?) S E. unfold curve_snapshot_bytes in *.
  assert (Input : curve_input_kind a = curve_input_kind b) by (by destruct (curve_input_kind a), (curve_input_kind b)).
  apply both_or_neither in Wa as [(va & fa & Va & Fa)|[Va Fa]], Wb as [(vb & fb & Vb & Fb)|[Vb Fb]].
  all: rewrite ?Va, ?Fa in *; rewrite ?Vb, ?Fb in *.
  all: repeat match goal with H : context [bool_decide ?p] |- _ => let t := eval vm_compute in (bool_decide p) in change (bool_decide p) with t in H end.
  all: open_fields; try discriminate; cbn [from_option] in *.
  all: match goal with S : short (lineage_bytes _), E : lineage_bytes _ = _ |- _ => apply lineage_bytes_sorted in E; [clear S|done..] end.
  all: read_fields; unfold sorted_lineage; congruence.
Qed.

Context `{ChronoTimeLaws}.

Definition ranged_session (s : CalendarSession) : Prop :=
  wf_date (local_date s) /\ from_option wf_naive_time True (open_local_time s) /\ from_option wf_naive_time True (close_local_time s).

#[export] Instance local_time_bytes_identify : Identifies local_time_bytes (from_option wf_naive_time True).
Proof.
  intros [a|] [b|] Ha Hb _ E%as_bytes_inj; cbn in *; [f_equal; by apply time_to_string_inj| | |done].
  - by apply time_to_string_dash in E.
  - by symmetry in E; apply time_to_string_dash in E.
Qed.

#[export] Instance session_bytes_identify : Identifies session_bytes ranged_session.
Proof. intros a b (? & ? & ?) (? & ? & ?) S E. unfold session_bytes in *. open_fields. fields_done. Qed.

Definition ranged_calendar (c : Calendar) : Prop :=
  wf_version (calendar_version c) /\ ranged_period (calendar_effective c) /\ Forall ranged_session (sessions c).

#[export] Instance calendar_bytes_identify : Identifies calendar_bytes ranged_calendar.
Proof.
  intros a b (? & ? & ?) (? & ? & ?) S E. unfold calendar_bytes in *. open_fields.
  match goal with E : map _ _ = map _ _ |- _ => apply (repeated_fields_inj session_bytes ranged_session 9) in E; [|done..] end. fields_done.
Qed.

Definition ranged (d : DefinitionValue) : Prop :=
  match d with
  | DefinedInstrument value => ranged_definition value
  | DefinedCalendar value => ranged_calendar value
  | DefinedUnit value => ranged_unit_definition value
  | DefinedRulePack value => ranged_rule_pack value
  end.

(** The same definition, but for the content of a rule pack. *)
Definition same_definition (a b : DefinitionValue) : Prop :=
  match a, b with DefinedRulePack a, DefinedRulePack b => envelope a = envelope b | _, _ => a = b end.

Lemma definition_bytes_same a b :
  ranged a -> ranged b -> short (definition_bytes a) -> definition_bytes a = definition_bytes b -> same_definition a b.
Proof.
  intros Ha Hb S E. destruct a as [a|a|a|a], b as [b|b|b|b]; cbn [definition_bytes ranged same_definition] in *.
  all: try (f_equal; by first [apply (identify (enc := instrument_definition_bytes)) | apply (identify (enc := calendar_bytes)) | apply (identify (enc := unit_bytes))]).
  all: try (by apply rule_pack_bytes_envelope).
  all: unfold instrument_definition_bytes, calendar_bytes, unit_bytes, rule_pack_bytes in *; exfalso.
  all: match goal with S : short _, E : _ = _ |- _ => apply fingerprint_open in E as [E _]; [discriminate E|by vm_compute..|solve [tags]|solve [tags]|exact S] end.
Qed.
End identify.

(** ** Properties *)

(** C38. A definition cannot be replaced behind its hash: if two definitions (an instrument with its bond or
    futures contract, a calendar with its sessions, a unit, or the envelope of a rule pack) have the same
    content hash, they are the same definition in every field, or the two byte strings are a collision of
    SHA-256. The exception is the content of a rule pack, which enters through its own hash only. The bytes
    of both must fit in memory. *)
Theorem definition_hash_identifies `{Sha256} `{ChronoLaws} `{ChronoTimeLaws} a b :
  ranged a -> ranged b -> short (definition_bytes a) ->
  definition_content_hash a = definition_content_hash b -> same_definition a b \/ collides (definition_bytes a) (definition_bytes b).
Proof. intros Ha Hb S E. apply digest_collides in E as [E|]; [left; by apply definition_bytes_same|by right]. Qed.

(** Two facts with one content hash are the same fact, a valuation with the roles of its values included, or
    a collision. *)
Theorem fact_hash_identifies `{Sha256} `{ChronoLaws} a b :
  ranged_fact a -> ranged_fact b -> short (fact_bytes a) -> market_fact_content_hash a = market_fact_content_hash b -> a = b \/ collision.
Proof. intros Ha Hb S E. apply digest_inj in E as [E|]; [left; by apply (identify (enc := fact_bytes))|by right]. Qed.

Definition with_content (rule : MarketRulePack) (content : option RulePackContent) : MarketRulePack :=
  {| market_rule_pack_id := market_rule_pack_id rule; rule_pack_number := rule_pack_number rule; rule_pack_owner := rule_pack_owner rule;
     rule_pack_market := rule_pack_market rule; rule_pack_type := rule_pack_type rule; rule_pack_source := rule_pack_source rule;
     effective := effective rule; verification_status := verification_status rule; rule_pack_content_hash := rule_pack_content_hash rule;
     rule_pack_content := content |}.

(** The type of a content selects its parser, but is not part of the bytes: with another type, or with no
    content at all, a rule pack is as valid and has the same hash. *)
Lemma content_type_not_bound `{Sha256} `{Chrono} `{ChronoTime} rule content type_url :
  market_rule_pack_new rule = Ok rule -> rule_pack_content rule = Some content ->
  let other := with_content rule (Some {| content_type_url := type_url; content_value := content_value content |}) in
  market_rule_pack_new other = Ok other /\ market_rule_pack_new (with_content rule None) = Ok (with_content rule None)
  /\ definition_content_hash (DefinedRulePack other) = definition_content_hash (DefinedRulePack rule)
  /\ definition_content_hash (DefinedRulePack (with_content rule None)) = definition_content_hash (DefinedRulePack rule).
Proof.
  intros E Ec other. unfold market_rule_pack_new in *. rewrite Ec in E. cbn [with_content other rule_pack_market rule_pack_type rule_pack_source
    rule_pack_content rule_pack_content_hash content_value].
  apply bind_Ok in E as (u1 & E1 & E). apply bind_Ok in E as (u2 & E2 & E). apply bind_Ok in E as (u3 & E3 & E).
  apply bind_Ok in E as (u4 & E4 & E). cbn in E4. rewrite E1. cbn. rewrite E2. cbn. rewrite E3. cbn. rewrite E4. done.
Qed.

Section example.
Local Existing Instances sample_sha256 sample_chrono sample_chrono_laws.

Definition sample_chrono_time : ChronoTime := fun t => string_of_list_byte (to_be_bytes 8 (nt_seconds t) ++ to_be_bytes 4 (nt_nanos t)).
Local Existing Instance sample_chrono_time.

Lemma sample_chrono_time_laws : @ChronoTimeLaws sample_chrono_time.
Proof.
  split.
  - intros [s n] [s' n'] (Hs & Hn & Hl) (Hs' & Hn' & Hl') E. apply (f_equal list_byte_of_string) in E.
    unfold time_to_string, sample_chrono_time in E. cbn [nt_seconds nt_nanos] in *. rewrite !list_byte_of_string_of_list_byte in E. apply app_inj_1 in E as [E1 E2]; [|done].
    apply u64_be_inj in E1; [|ranges; lia..]. apply u32_be_inj in E2; [congruence|ranges; lia..].
  - intros t _ E. apply (f_equal (fun s => List.length (list_byte_of_string s))) in E. unfold time_to_string, sample_chrono_time in E.
    rewrite list_byte_of_string_of_list_byte, length_app, !length_to_be_bytes in E. done.
Qed.
Local Existing Instance sample_chrono_time_laws.

Definition sample_session : CalendarSession :=
  {| local_date := {| nd_year := 2026; nd_month := 1; nd_day := 5 |}; open_local_time := Some {| nt_seconds := 34200; nt_nanos := 0 |};
     close_local_time := Some {| nt_seconds := 54000; nt_nanos := 0 |} |}.

Definition sample_pack_with (type_url : string) : MarketRulePack :=
  {| market_rule_pack_id := sample_id "P"; rule_pack_number := mk_version 1; rule_pack_owner := sample_owner; rule_pack_market := "CN";
     rule_pack_type := "tax"; rule_pack_source := "notice"; effective := {| ep_from := sample_time 10; ep_to := sample_time 20 |};
     verification_status := Verified; rule_pack_content_hash := digest [x01];
     rule_pack_content := Some {| content_type_url := type_url; content_value := [x01] |} |}.

Lemma sample_day_wf s : 0 <= s < 1000 -> wf_time (sample_time s).
Proof. intros Hs. split; [split; cbn; ranges; lia|]. split; [split; [by vm_compute|split; cbn; lia]|by vm_compute]. Qed.

Lemma definition_hash_identifies_witness :
  same_definition (DefinedRulePack (sample_pack_with "a")) (DefinedRulePack (sample_pack_with "b"))
  \/ collides (definition_bytes (DefinedRulePack (sample_pack_with "a"))) (definition_bytes (DefinedRulePack (sample_pack_with "b"))).
Proof.
  apply (definition_hash_identifies (DefinedRulePack (sample_pack_with "a")) (DefinedRulePack (sample_pack_with "b"))).
  - split; [split; reflexivity || (cbn; lia)|]. split; apply sample_day_wf; lia.
  - split; [split; reflexivity || (cbn; lia)|]. split; apply sample_day_wf; lia.
  - unfold short. apply Z.ltb_lt. vm_compute. reflexivity.
  - vm_compute. reflexivity.
Defined.

Definition sample_trade (quantity : string) : Trade :=
  {| trade_id := sample_id "F"; trade_instrument := sample_vref "K"; trade_owner := sample_owner;
     trade_source := {| fact_source_id := "feed"; external_id := "1"; source_revision := 1; fact_data_source := None |};
     executed_at := sample_time 10; trade_price := {| coefficient := "100"; scale := 0; value_unit := sample_unit |};
     trade_quantity := {| coefficient := quantity; scale := 0; value_unit := sample_unit |}; trade_supersedes := None |}.

Lemma sample_trade_ranged q : ranged_fact (FactTrade (sample_trade q)).
Proof. split; [split; cbn; lia|]. split; [done|]. split; [apply sample_day_wf; lia|]. split; (split; [done|split; cbn; lia]). Qed.

(** The stand-in for the hash keeps the first bytes only, so these two trades are a collision of it. *)
Lemma fact_hash_identifies_witness : FactTrade (sample_trade "5") = FactTrade (sample_trade "6") \/ collision.
Proof.
  apply (fact_hash_identifies (FactTrade (sample_trade "5")) (FactTrade (sample_trade "6"))).
  - apply sample_trade_ranged.
  - apply sample_trade_ranged.
  - unfold short. apply Z.ltb_lt. vm_compute. reflexivity.
  - vm_compute. reflexivity.
Defined.
End example.
