(* ===== verification/Governance.v ===== *)
(** * Governed changes

    [crates/ficant-domain/src/governance.rs] with [crates/ficant-application/src/ports/governance.rs], and the
    commands of [ports/definitions.rs]: why and on which evidence an administrator changes reference data, the
    record that is kept of a change, and the command that appends one version of a definition. Roles and
    principals are in [Access], definitions and their bytes in [Fingerprints]. *)

From Stdlib Require Import ZArith Lia Strings.String.
From Stdlib Require Import Strings.Byte.
From stdpp Require Import base list option strings numbers.
From S2P Require Import Prelude Machine Collections Primitives Codec Concrete Digits DecimalValue Subject BondAnalytics CouponTax MarketData MarketObjects AppErrors Access Fingerprints.
Open Scope Z_scope.

(** ** Justifications *)

Record SourceDocumentRef := { uri : string; document_sha256 : ContentHash }.

#[export] Instance SourceDocumentRef_eq_dec : EqDecision SourceDocumentRef.
Proof. solve_decision. Defined.
#[export] Instance SourceDocumentRef_ord : Ord SourceDocumentRef := fun a b => cmp (uri a, document_sha256 a) (uri b, document_sha256 b).
#[export] Instance SourceDocumentRef_ord_laws : OrdLaws SourceDocumentRef.
Proof. by apply (ord_laws_via (fun r => (uri r, document_sha256 r))); [intros [] []; cbn; congruence|]. Qed.

Definition source_document_new (uri : string) (sha256 : ContentHash) : DomainResult SourceDocumentRef :=
  _ ← require_text uri;
  if (2048 <? str_len uri) || has_control (as_bytes uri) then Err InvalidValue
  else Ok {| uri := uri; document_sha256 := sha256 |}.

Record ChangeJustification := { reason : string; sources : list SourceDocumentRef }.

#[export] Instance ChangeJustification_eq_dec : EqDecision ChangeJustification.
Proof. solve_decision. Defined.

Definition validate_reason (reason : string) : DomainResult string :=
  _ ← require_text reason;
  if (1024 <? str_len reason) || has_control (as_bytes reason) then Err InvalidValue else Ok reason.

Definition justification_new (reason : string) (sources : list SourceDocumentRef) : DomainResult ChangeJustification :=
  reason ← validate_reason reason;
  let sources := dedup (sort sources) in
  if bool_decide (sources = []) then Err InvalidValue else Ok {| reason := reason; sources := sources |}.

Definition for_authorized_import (reason : string) : DomainResult ChangeJustification :=
  reason ← validate_reason reason;
  Ok {| reason := reason; sources := [] |}.

Definition is_authorized_import_reason (self : ChangeJustification) : bool := bool_decide (sources self = []).

(** ** Resources and operations *)

Inductive FoundationResourceKind :=
| ResourceDataSource | ResourceDataSourceAuthorization | ResourceMarketDefinition | ResourceMarketFact | ResourceCurveSnapshot
| ResourceDataSnapshot | ResourceUniverseSnapshot | ResourceSubject | ResourceSubjectState | ResourcePositionSnapshot
| ResourceDataHealthThresholdProfile.

#[export] Instance FoundationResourceKind_eq_dec : EqDecision FoundationResourceKind.
Proof. solve_decision. Defined.

Definition resource_kind_str (self : FoundationResourceKind) : string :=
  match self with
  | ResourceDataSource => "data-source"
  | ResourceDataSourceAuthorization => "data-source-authorization"
  | ResourceMarketDefinition => "market-definition"
  | ResourceMarketFact => "market-fact"
  | ResourceCurveSnapshot => "curve-snapshot"
  | ResourceDataSnapshot => "data-snapshot"
  | ResourceUniverseSnapshot => "universe-snapshot"
  | ResourceSubject => "subject"
  | ResourceSubjectState => "subject-state"
  | ResourcePositionSnapshot => "position-snapshot"
  | ResourceDataHealthThresholdProfile => "data-health-threshold-profile"
  end.

Definition is_versioned (self : FoundationResourceKind) : bool :=
  match self with
  | ResourceDataSource | ResourceDataSourceAuthorization | ResourceMarketDefinition | ResourceSubject
  | ResourceDataHealthThresholdProfile => true
  | _ => false
  end.

Record FoundationResourceRef := { resource_kind : FoundationResourceKind; resource_id : Ulid; resource_version : option Version }.

Definition resource_versioned (kind : FoundationResourceKind) (reference : VersionRef) : FoundationResourceRef :=
  {| resource_kind := kind; resource_id := vr_id reference; resource_version := Some (vr_version reference) |}.
Definition resource_unversioned (kind : FoundationResourceKind) (id : Ulid) : FoundationResourceRef :=
  {| resource_kind := kind; resource_id := id; resource_version := None |}.

Definition canonical_ref (self : FoundationResourceRef) : string :=
  (resource_kind_str (resource_kind self) ++ ":" ++ ulid_str (resource_id self)
   ++ match resource_version self with Some version => "@" ++ to_string (version_get version) | None => "" end)%string.

(** [ulid::Ulid::from_bytes] of sixteen bytes. *)
Class UlidBytes `{UlidCrate} : Type := ulid_from_bytes : list byte -> UlidValue.

Definition change_identity_bytes (actor_id : Ulid) (resource : FoundationResourceRef) (idempotency_key : string) : list byte :=
  as_bytes "ficant.foundation-change-record.v1" ++ frame (as_bytes (ulid_str actor_id)) ++ frame (as_bytes (canonical_ref resource))
  ++ frame (as_bytes idempotency_key).

Definition deterministic_change_record_id `{UlidBytes} `{Sha256} (occurred_at : MarketTime) (actor_id : Ulid) (resource : FoundationResourceRef)
    (idempotency_key : string) : DomainResult Ulid :=
  _ ← require_text idempotency_key;
  if 256 <? str_len idempotency_key then Err InvalidValue
  else ulid_new (ulid_to_string (ulid_from_bytes (take 16 (hash_bytes (digest (change_identity_bytes actor_id resource idempotency_key)))))).

Inductive FoundationChangeOperation :=
| RegisterDataSource | PublishDataSourceAuthorization | AppendMarketDefinition | AppendMarketFact | CorrectMarketFact
| PublishCurveSnapshot | ImportCanonicalQuoteSnapshot | PublishUniverseSnapshot | RegisterSubject | PublishSubjectState
| PublishPositionSnapshot | ConfigureDataHealthThreshold.

#[export] Instance FoundationChangeOperation_eq_dec : EqDecision FoundationChangeOperation.
Proof. solve_decision. Defined.

Definition operation_resource_kind (self : FoundationChangeOperation) : FoundationResourceKind :=
  match self with
  | RegisterDataSource => ResourceDataSource
  | PublishDataSourceAuthorization => ResourceDataSourceAuthorization
  | AppendMarketDefinition => ResourceMarketDefinition
  | AppendMarketFact | CorrectMarketFact => ResourceMarketFact
  | PublishCurveSnapshot => ResourceCurveSnapshot
  | ImportCanonicalQuoteSnapshot => ResourceDataSnapshot
  | PublishUniverseSnapshot => ResourceUniverseSnapshot
  | RegisterSubject => ResourceSubject
  | PublishSubjectState => ResourceSubjectState
  | PublishPositionSnapshot => ResourcePositionSnapshot
  | ConfigureDataHealthThreshold => ResourceDataHealthThresholdProfile
  end.

(** ** Records *)

Record FoundationChangeRecord := {
  record_id : Ulid;
  record_actor_id : Ulid;
  record_owner : OwnerRef;
  record_active_role : PlatformRole;
  record_operation : FoundationChangeOperation;
  record_resource : FoundationResourceRef;
  before_hash : option ContentHash;
  after_hash : ContentHash;
  record_change : ChangeJustification;
  request_fingerprint : ContentHash;
  record_occurred_at : MarketTime;
  authorization_ref : option VersionRef
}.
Abbreviation FoundationChangeRecordInput := FoundationChangeRecord.

Definition change_record_new (input : FoundationChangeRecordInput) : DomainResult FoundationChangeRecord :=
  let is_import := bool_decide (record_operation input = ImportCanonicalQuoteSnapshot) in
  if negb (bool_decide (is_authorized_import_reason (record_change input) = is_import))
     || negb (bool_decide (is_import = bool_decide (is_Some (authorization_ref input))))
     || (is_import && negb (bool_decide (record_active_role input = Researcher)))
     || (negb is_import && negb (bool_decide (record_active_role input = PlatformAdmin)))
     || negb (bool_decide (resource_kind (record_resource input) = operation_resource_kind (record_operation input)))
     || negb (bool_decide (bool_decide (is_Some (resource_version (record_resource input))) = is_versioned (resource_kind (record_resource input))))
  then Err InvalidValue else Ok input.

(** ** The context of a change *)

Record FoundationChangeContext := {
  principal : AuthorizedPrincipal;
  change : ChangeJustification;
  context_record_id : Ulid;
  occurred_at : MarketTime
}.

Definition administrator (principal : AuthorizedPrincipal) (change : ChangeJustification) (record_id : Ulid) (occurred_at : MarketTime)
    : AppResult FoundationChangeContext :=
  _ ← require_role principal PlatformAdmin;
  if is_authorized_import_reason change then Err (map_domain_error InvalidValue)
  else Ok {| principal := principal; change := change; context_record_id := record_id; occurred_at := occurred_at |}.

Definition authorized_import (principal : AuthorizedPrincipal) (change : ChangeJustification) (record_id : Ulid) (occurred_at : MarketTime)
    : AppResult FoundationChangeContext :=
  _ ← require_role principal Researcher;
  if negb (is_authorized_import_reason change) then Err (map_domain_error InvalidValue)
  else Ok {| principal := principal; change := change; context_record_id := record_id; occurred_at := occurred_at |}.

Record FoundationChangeFilter := {
  filter_resource_ref : option string;
  filter_actor_id : option Ulid;
  occurred_from : option MarketTime;
  occurred_to : option MarketTime
}.

Definition change_filter_new (resource_ref : option string) (actor_id : option Ulid) (occurred_from occurred_to : option MarketTime)
    : AppResult FoundationChangeFilter :=
  if from_option (fun value => blank_or_padded value || (256 <? str_len value)) false resource_ref
     || match occurred_from, occurred_to with Some from, Some to => geb (instant from) (instant to) | _, _ => false end
  then Err (map_domain_error InvalidValue)
  else Ok {| filter_resource_ref := resource_ref; filter_actor_id := actor_id; occurred_from := occurred_from; occurred_to := occurred_to |}.

(** ** Appending a definition *)

Definition DEFINITION_WRITE_SCOPE : string := "definitions:write".

Inductive DefinitionKind := InstrumentDefinitionKind | CalendarDefinitionKind | UnitDefinitionKind | RulePackDefinitionKind.

Definition definition_kind (self : DefinitionValue) : DefinitionKind :=
  match self with
  | DefinedInstrument _ => InstrumentDefinitionKind
  | DefinedCalendar _ => CalendarDefinitionKind
  | DefinedUnit _ => UnitDefinitionKind
  | DefinedRulePack _ => RulePackDefinitionKind
  end.

Definition definition_kind_code (kind : DefinitionKind) : byte :=
  match kind with InstrumentDefinitionKind => x01 | CalendarDefinitionKind => x04 | UnitDefinitionKind => x05 | RulePackDefinitionKind => x06 end.

Record DefinitionIdentity := {
  identity_definition_id : Ulid;
  identity_owner : OwnerRef;
  identity_kind : DefinitionKind;
  identity_key : ApplicationIdempotencyKey;
  identity_fingerprint : ContentHash
}.

Definition definition_identity_new `{Sha256} (definition_id : Ulid) (owner : OwnerRef) (kind : DefinitionKind)
    (idempotency_key : ApplicationIdempotencyKey) : DefinitionIdentity :=
  {| identity_definition_id := definition_id; identity_owner := owner; identity_kind := kind; identity_key := idempotency_key;
     identity_fingerprint := fingerprint "definition-identity/v1"
       [(2, as_bytes (ulid_str definition_id)); (3, owner_bytes owner); (4, [definition_kind_code kind])] |}.

Record AppendDefinitionVersion := {
  expected_latest_version : option Version;
  appended : DefinitionValue;
  append_key : ApplicationIdempotencyKey;
  append_fingerprint : ContentHash
}.

Section append.
Context `{Sha256} `{Chrono} `{ChronoTime}.

Definition append_definition_version_new (expected_latest_version : option Version) (value : DefinitionValue)
    (idempotency_key : ApplicationIdempotencyKey) : AppResult AppendDefinitionVersion :=
  expected_value_version ← match expected_latest_version with
                           | Some version => ok_or (u64_checked_add (version_get version) 1) (map_domain_error VersionConflict)
                           | None => Ok 1
                           end;
  if negb (version_get (definition_version value) =? expected_value_version) then Err (map_domain_error VersionConflict)
  else Ok {| expected_latest_version := expected_latest_version; appended := value; append_key := idempotency_key;
             append_fingerprint := fingerprint "append-definition-version/v1"
               [(2, optional_u64_value (option_map version_get expected_latest_version)); (3, definition_bytes value)] |}.

Definition change_bytes (change : ChangeJustification) : list byte :=
  fingerprint_bytes "change-justification/v1"
    ((2, as_bytes (reason change))
     :: flat_map (fun source => [(3, as_bytes (uri source)); (4, hash_bytes (document_sha256 source))]) (sources change)).

Record GovernedAppendDefinitionVersion := {
  change_context : FoundationChangeContext;
  governed_append : AppendDefinitionVersion;
  governed_fingerprint : ContentHash
}.

Definition governed_fields (change_context : FoundationChangeContext) (expected_latest_version : option Version) (value : DefinitionValue)
    : list (Z * list byte) :=
  [(2, hash_bytes (principal_fingerprint (principal change_context)));
   (3, optional_u64_value (option_map version_get expected_latest_version)); (4, definition_bytes value);
   (5, change_bytes (change change_context))].

Definition governed_append_new (change_context : FoundationChangeContext) (expected_latest_version : option Version) (value : DefinitionValue)
    (idempotency_key : ApplicationIdempotencyKey) : AppResult GovernedAppendDefinitionVersion :=
  _ ← authorize_mutation (principal change_context) PlatformAdmin DEFINITION_WRITE_SCOPE (definition_owner value);
  append ← append_definition_version_new expected_latest_version value idempotency_key;
  Ok {| change_context := change_context; governed_append := append;
        governed_fingerprint := fingerprint "append-definition-version/v2"
          (governed_fields change_context expected_latest_version (appended append)) |}.
Context `{UlidCrate}.

(** [change_record]: the record once the storage knows the hash of the version before. *)
Definition change_record (self : GovernedAppendDefinitionVersion) (before_hash : option ContentHash) : AppResult FoundationChangeRecord :=
  let value := appended (governed_append self) in
  id ← map_err map_domain_error (ulid_new (ulid_str (definition_identity value)));
  version ← map_err map_domain_error (version_new (version_get (definition_version value)));
  map_err map_domain_error
    (change_record_new {| record_id := context_record_id (change_context self); record_actor_id := principal_actor_id (principal (change_context self));
                          record_owner := definition_owner value; record_active_role := PlatformAdmin;
                          record_operation := AppendMarketDefinition;
                          record_resource := resource_versioned ResourceMarketDefinition {| vr_id := id; vr_version := version |};
                          before_hash := before_hash; after_hash := definition_content_hash value;
                          record_change := change (change_context self); request_fingerprint := governed_fingerprint self;
                          record_occurred_at := occurred_at (change_context self); authorization_ref := None |}).

(** [DefinitionUseCase::append]; the repository is an argument. *)
Definition append_use_case (append_complete : GovernedAppendDefinitionVersion -> AppResult DefinitionValue)
    (command : GovernedAppendDefinitionVersion) : AppResult DefinitionValue :=
  _ ← scope_authorize (access_scope (principal (change_context command))) (definition_owner (appended (governed_append command)));
  append_complete command.
End append.

(** ** Justifications and contexts *)

Lemma justification_new_Ok r ss j :
  justification_new r ss = Ok j -> reason j = r /\ sources j <> [] /\ bset_wf (sources j) /\ forall s, s ∈ sources j <-> s ∈ ss.
Proof.
  unfold justification_new, validate_reason. intros E. res_simp. breflect. subst. cbn.
  split; [done|]. split; [done|]. split; [apply canonical_wf|]. intros s. apply canonical_elem.
Qed.

(** A context carries the evidence its role needs. *)
Definition wf_context (c : FoundationChangeContext) : Prop :=
  is_authorized_import_reason (change c) = bool_decide (active_role (principal c) = Researcher).

Lemma administrator_wf p j r t c : administrator p j r t = Ok c -> wf_context c /\ active_role (principal c) = PlatformAdmin.
Proof.
  unfold administrator, require_role. intros E. apply bind_Ok in E as ([] & E1 & E). case_bool_decide as Er; [|done].
  destruct (is_authorized_import_reason j) eqn:Ej; [done|]. injection E as <-. unfold wf_context. cbn. by rewrite Ej, Er.
Qed.

Lemma authorized_import_wf p j r t c : authorized_import p j r t = Ok c -> wf_context c /\ active_role (principal c) = Researcher.
Proof.
  unfold authorized_import, require_role. intros E. apply bind_Ok in E as ([] & E1 & E). case_bool_decide as Er; [|done].
  destruct (is_authorized_import_reason j) eqn:Ej; [|done]. injection E as <-. unfold wf_context. cbn. by rewrite Ej, Er.
Qed.

(** The shape of every record: imports rest on an authorization, the other changes on documents. *)
Lemma change_record_new_Ok r r' :
  change_record_new r = Ok r' <->
  r' = r /\ resource_kind (record_resource r) = operation_resource_kind (record_operation r)
  /\ (is_Some (resource_version (record_resource r)) <-> is_versioned (resource_kind (record_resource r)) = true)
  /\ if bool_decide (record_operation r = ImportCanonicalQuoteSnapshot)
     then sources (record_change r) = [] /\ is_Some (authorization_ref r) /\ record_active_role r = Researcher
     else sources (record_change r) <> [] /\ authorization_ref r = None /\ record_active_role r = PlatformAdmin.
Proof.
  assert (Hr : Ok r = Ok r' :> DomainResult _ <-> r' = r) by (split; [by intros [= ->]|by intros ->]).
  assert (Hv : bool_decide (is_Some (resource_version (record_resource r))) = is_versioned (resource_kind (record_resource r))
    <-> (is_Some (resource_version (record_resource r)) <-> is_versioned (resource_kind (record_resource r)) = true))
    by (case_bool_decide; destruct (is_versioned _); naive_solver).
  unfold change_record_new, is_authorized_import_reason. rewrite unless_Ok, !orb_false_iff, !negb_false_iff, !bool_decide_eq_true, Hr, Hv.
  destruct (bool_decide (record_operation r = _)); cbn [andb negb].
  - rewrite negb_false_iff, (symmetry_iff (=) true), !bool_decide_eq_true. tauto.
  - rewrite negb_false_iff, (symmetry_iff (=) false), bool_decide_eq_true, !bool_decide_eq_false, <- eq_None_not_Some. tauto.
Qed.

(** ** Appends *)

Definition next_version (expected : option Version) (v : Version) : Prop :=
  match expected with Some w => version_get v = version_get w + 1 /\ version_get w + 1 < 2 ^ 64 | None => version_get v = 1 end.

Section governed.
Context `{Sha256} `{ChronoLaws} `{ChronoTimeLaws} `{UlidCrate}.

Lemma append_definition_version_new_Ok expected value key a :
  from_option wf_version True expected ->
  append_definition_version_new expected value key = Ok a <->
  next_version expected (definition_version value)
  /\ a = {| expected_latest_version := expected; appended := value; append_key := key;
            append_fingerprint := fingerprint "append-definition-version/v1"
              [(2, optional_u64_value (option_map version_get expected)); (3, definition_bytes value)] |}.
Proof.
  intros Hw. unfold append_definition_version_new, next_version. rewrite bind_Ok. destruct expected as [w|].
  - setoid_rewrite ok_or_Ok. setoid_rewrite unless_Ok. setoid_rewrite negb_false_iff. setoid_rewrite Z.eqb_eq.
    unfold u64_checked_add. setoid_rewrite checked_Some. cbn in Hw. unfold wf_version in Hw. split.
    + intros (n & (Hn & ->) & Hv & [= <-]). ranges. split; [split; [done|lia]|done].
    + intros ((Hv & Hn) & ->). exists (version_get w + 1). split; [split; [ranges; lia|done]|done].
  - setoid_rewrite unless_Ok. setoid_rewrite negb_false_iff. setoid_rewrite Z.eqb_eq. split.
    + by intros (n & [= <-] & Hv & [= <-]).
    + intros (Hv & ->). by exists 1.
Qed.

Lemma authorize_mutation_Ok p role scope owner :
  authorize_mutation p role scope owner = Ok tt <->
  active_role p = role /\ has_scope p scope = true /\ allows (access_scope p) owner = true.
Proof.
  unfold authorize_mutation, require_role, scope_authorize. case_bool_decide; [|split; [done|by intros []]]. cbn.
  destruct (has_scope p scope), (allows _ _); cbn; naive_solver.
Qed.

Lemma governed_append_new_Ok c expected value key g :
  from_option wf_version True expected ->
  governed_append_new c expected value key = Ok g <->
  (active_role (principal c) = PlatformAdmin /\ has_scope (principal c) DEFINITION_WRITE_SCOPE = true
   /\ allows (access_scope (principal c)) (definition_owner value) = true)
  /\ exists a, append_definition_version_new expected value key = Ok a
     /\ g = {| change_context := c; governed_append := a;
               governed_fingerprint := fingerprint "append-definition-version/v2" (governed_fields c expected value) |}.
Proof.
  intros Hw. unfold governed_append_new. rewrite <- authorize_mutation_Ok. split.
  - intros E. apply bind_Ok in E as ([] & Ea & E). apply bind_Ok in E as (a & Eb & [= <-]). split; [done|]. exists a. split; [done|].
    by apply append_definition_version_new_Ok in Eb as [_ ->].
  - intros (Ea & a & Eb & ->). rewrite Ea. cbn. rewrite Eb. by apply append_definition_version_new_Ok in Eb as [_ ->].
Qed.

(** A definition carries an identity and a version its constructors accept. *)
Definition identified (value : DefinitionValue) : Prop := wf_ulid (definition_identity value) /\ wf_version (definition_version value).

Lemma change_record_total c expected value key g before :
  from_option wf_version True expected -> wf_context c -> identified value -> governed_append_new c expected value key = Ok g ->
  exists r, change_record g before = Ok r /\ record_operation r = AppendMarketDefinition /\ record_active_role r = PlatformAdmin
    /\ record_owner r = definition_owner value /\ before_hash r = before /\ after_hash r = definition_content_hash value
    /\ request_fingerprint r = governed_fingerprint g /\ record_actor_id r = principal_actor_id (principal c)
    /\ sources (record_change r) <> []
    /\ record_resource r = resource_versioned ResourceMarketDefinition {| vr_id := definition_identity value; vr_version := definition_version value |}.
Proof.
  intros Hw Hc [Hi Hv] E. apply governed_append_new_Ok in E as ((Hr & _) & a & Ea & ->); [|done].
  apply append_definition_version_new_Ok in Ea as [_ ->]; [|done].
  assert (Es : sources (change c) <> []).
  { unfold wf_context, is_authorized_import_reason in Hc. rewrite Hr in Hc. by apply bool_decide_eq_false in Hc. }
  unfold change_record. cbn [governed_append appended change_context]. unfold wf_ulid in Hi. rewrite Hi. cbn [map_err].
  unfold version_new. destruct (Z.eqb_spec (version_get (definition_version value)) 0) as [Z0|_]; [unfold wf_version in Hv; lia|].
  eexists. split.
  - cbn. destruct (change_record_new _) eqn:En; [apply change_record_new_Ok in En as [-> _]; reflexivity|].
    exfalso. match type of En with change_record_new ?r = _ => assert (Ok r = Err e :> DomainResult FoundationChangeRecord) as X end; [|done].
    rewrite <- En. symmetry. apply change_record_new_Ok. by repeat split.
  - cbn. repeat split; try done. by destruct (definition_version value).
Qed.

Lemma document_fields_inj (l m : list SourceDocumentRef) :
  flat_map (fun source => [(3, as_bytes (uri source)); (4, hash_bytes (document_sha256 source))]) l
  = flat_map (fun source => [(3, as_bytes (uri source)); (4, hash_bytes (document_sha256 source))]) m -> l = m.
Proof.
  revert m. induction l as [|[u h] l IH]; intros [|[v g] m] E; try done. cbn [flat_map app] in E.
  apply field_pair_inj in E as (_ & E1%as_bytes_inj & E). apply field_pair_inj in E as (_ & E2%hash_eq & E). cbn in *. subst.
  f_equal. by apply IH.
Qed.

#[export] Instance change_bytes_identify : Identifies change_bytes (fun _ => True).
Proof.
  intros a b _ _ S E. unfold change_bytes in *. assert (T : forall c, tags_ok (flat_map (fun source => [(3, as_bytes (uri source)); (4, hash_bytes (document_sha256 source))]) (sources c))).
  { intros c. induction (sources c) as [|s l IH]; [constructor|]. by repeat constructor. }
  apply fingerprint_open in E as (_ & E & _); [|by vm_compute..|by constructor; [|apply T]|by constructor; [|apply T]|done].
  apply field_pair_inj in E as (_ & E1%as_bytes_inj & E2%document_fields_inj). destruct a, b. cbn in *. congruence.
Qed.

(** Commands with one fingerprint are the same append by one principal for one reason. *)
Lemma governed_fingerprint_identifies c expected value c' expected' value' :
  from_option wf_version True expected -> from_option wf_version True expected' -> ranged value -> ranged value' ->
  short (fingerprint_bytes "append-definition-version/v2" (governed_fields c expected value)) ->
  fingerprint "append-definition-version/v2" (governed_fields c expected value)
  = fingerprint "append-definition-version/v2" (governed_fields c' expected' value') ->
  (principal_fingerprint (principal c) = principal_fingerprint (principal c') /\ expected = expected'
   /\ same_definition value value' /\ change c = change c') \/ collision.
Proof.
  intros He He' Hv Hv' S E. unfold fingerprint in E. apply digest_inj in E as [E|]; [left|by right].
  unfold governed_fields in *. open_fields.
  match goal with E : optional_u64_value _ = _ |- _ => apply optional_u64_value_inj in E; [|done..] end.
  match goal with E : definition_bytes _ = _ |- _ => apply definition_bytes_same in E; [|done..] end.
  read_fields. done.
Qed.
End governed.

(** ** Properties *)

(** C37. A definition is appended exactly when the principal is an administrator who was granted the scope of
    writing definitions, the scope allows its owner, and its version is the one right after the version that
    was expected to be the latest (or the first). Each such append can be recorded, whatever the hash of the
    version before, and the record names the actor, the owner and the exact version, carries the hash of the
    definition and the fingerprint of the command, and rests on at least one document. *)
Theorem governed_append_recorded `{Sha256} `{Chrono} `{ChronoTime} `{UlidCrate} c expected value key :
  from_option wf_version True expected -> wf_context c -> identified value ->
  ((exists g, governed_append_new c expected value key = Ok g)
   <-> (active_role (principal c) = PlatformAdmin /\ has_scope (principal c) DEFINITION_WRITE_SCOPE = true
        /\ allows (access_scope (principal c)) (definition_owner value) = true) /\ next_version expected (definition_version value))
  /\ forall g before, governed_append_new c expected value key = Ok g ->
     exists r, change_record g before = Ok r /\ record_operation r = AppendMarketDefinition /\ record_active_role r = PlatformAdmin
       /\ record_owner r = definition_owner value /\ before_hash r = before /\ after_hash r = definition_content_hash value
       /\ request_fingerprint r = governed_fingerprint g /\ record_actor_id r = principal_actor_id (principal c)
       /\ sources (record_change r) <> []
       /\ record_resource r = resource_versioned ResourceMarketDefinition {| vr_id := definition_identity value; vr_version := definition_version value |}.
Proof.
  intros Hw Hc Hi. split; [|intros g before E; by apply (change_record_total c expected value key)]. split.
  - intros (g & E). apply governed_append_new_Ok in E as (Ha & a & Ea & _); [|done].
    by apply append_definition_version_new_Ok in Ea as [Hn _].
  - intros [Ha Hn]. eexists. apply governed_append_new_Ok; [done|]. split; [done|]. eexists. split; [|reflexivity].
    by apply append_definition_version_new_Ok.
Qed.

Section example.
Local Existing Instances sample_sha256 sample_chrono sample_chrono_time sample_ulid_crate.

Definition sample_admin : AppResult AuthorizedPrincipal :=
  authorized_principal_new "admin" (sample_id "A") (sample_id "T") [sample_id "O"] PlatformAdmin ["definitions:write"]%string (sample_hash x01).
Definition sample_change : ChangeJustification := {| reason := "new rule"; sources := [{| uri := "doc"; document_sha256 := sample_hash x02 |}] |}.
Definition sample_context : AppResult FoundationChangeContext :=
  p ← sample_admin; administrator p sample_change (sample_id "R") (sample_time 30).
Definition sample_command : AppResult GovernedAppendDefinitionVersion :=
  c ← sample_context; governed_append_new c None (DefinedRulePack (sample_pack_with "a")) (mk_application_key "k").

Lemma governed_append_recorded_witness :
  exists g r, sample_command = Ok g /\ change_record g None = Ok r /\ record_owner r = sample_owner.
Proof.
  assert (V : is_ok sample_command = true) by (vm_compute; reflexivity).
  destruct sample_command as [g|] eqn:E; [|discriminate V]. exists g.
  unfold sample_command in E. apply bind_Ok in E as (c & Ec & E). unfold sample_context in Ec. apply bind_Ok in Ec as (p & Ep & Ec).
  destruct (administrator_wf _ _ _ _ _ Ec) as [Wc _].
  assert (Wi : identified (DefinedRulePack (sample_pack_with "a"))) by (split; [vm_compute; reflexivity|split; cbn; lia]).
  destruct (governed_append_recorded c None _ (mk_application_key "k") I Wc Wi) as [_ F].
  destruct (F g None E) as (r & Er & _ & _ & Eo & _).
  exists r. split; [reflexivity|]. split; [exact Er|exact Eo].
Defined.
End example.
