(* ===== verification/FuturesDelivery.v ===== *)
(** * Delivery of bond futures: rules, inputs and results

    [crates/ficant-domain/src/futures_delivery.rs] and the parser of the delivery rule pack in
    [crates/ficant-cgb-futures-pack/src/lib.rs]: which bonds may be delivered into a contract, the input and
    the measures of one candidate, and the basket with the bond that is cheapest to deliver. The measures are
    computed by a native engine, an argument of [DeliveryBasket]. *)

From Stdlib Require Import ZArith Lia Strings.String.
From Stdlib Require Import Strings.Byte.
From stdpp Require Import base list option strings numbers.
From S2P Require Import Prelude Machine Collections Primitives Codec FixedDecimal Digits DecimalValue AppErrors Concrete MarketData BarIngest BondAnalytics Wire CouponTax.
Open Scope Z_scope.

Definition FUTURES_DELIVERY_ALGORITHM_ID : string := "ficant.cffex.cgb-futures-delivery".
Definition FUTURES_DELIVERY_ALGORITHM_VERSION : Z := 1.

Inductive CgbFuturesProduct := TwoYear | FiveYear | TenYear | ThirtyYear.

#[export] Instance CgbFuturesProduct_eq_dec : EqDecision CgbFuturesProduct.
Proof. solve_decision. Defined.

Definition product_discriminant (self : CgbFuturesProduct) : Z :=
  match self with TwoYear => 1 | FiveYear => 2 | TenYear => 3 | ThirtyYear => 4 end.
Definition product_text (self : CgbFuturesProduct) : string :=
  match self with TwoYear => "TS" | FiveYear => "TF" | TenYear => "T" | ThirtyYear => "TL" end.

(** ** Rules *)

(** The contract size is not a field of the input, and [None] in the rule made from it. *)
Record FuturesDeliveryRule := {
  original_term_max_months : Z;
  residual_min_months : Z;
  residual_max_months : option Z;
  delivery_months : list Z;
  nominal_coupon : FixedDecimal;
  face_quote_basis : FixedDecimal;
  accrued_interest_day_count : Z;
  conversion_factor_rounding_places : Z;
  accrued_interest_rounding_places : Z;
  annual_day_basis : Z;
  contract_size_in_quote_units : option Z
}.
Abbreviation FuturesDeliveryRuleInput := FuturesDeliveryRule.

#[export] Instance FuturesDeliveryRule_eq_dec : EqDecision FuturesDeliveryRule.
Proof. solve_decision. Defined.

Definition is_month (month : Z) : bool := (1 <=? month) && (month <=? 12).

Definition with_size (self : FuturesDeliveryRule) (size : option Z) : FuturesDeliveryRule :=
  {| original_term_max_months := original_term_max_months self; residual_min_months := residual_min_months self;
     residual_max_months := residual_max_months self; delivery_months := delivery_months self; nominal_coupon := nominal_coupon self;
     face_quote_basis := face_quote_basis self; accrued_interest_day_count := accrued_interest_day_count self;
     conversion_factor_rounding_places := conversion_factor_rounding_places self;
     accrued_interest_rounding_places := accrued_interest_rounding_places self; annual_day_basis := annual_day_basis self;
     contract_size_in_quote_units := size |}.

Definition delivery_rule_new (input : FuturesDeliveryRuleInput) : DomainResult FuturesDeliveryRule :=
  let delivery_months_valid := negb (bool_decide (delivery_months input = [])) && forallb is_month (delivery_months input)
                               && windows2_all Z.ltb (delivery_months input) in
  if (original_term_max_months input =? 0) || (residual_min_months input =? 0)
     || from_option (fun value => value <? residual_min_months input) false (residual_max_months input)
     || negb delivery_months_valid || negb (is_positive (nominal_coupon input)) || negb (is_positive (face_quote_basis input))
     || (accrued_interest_day_count input =? 0) || (12 <? conversion_factor_rounding_places input)
     || (12 <? accrued_interest_rounding_places input) || (annual_day_basis input =? 0)
  then Err InvalidValue else Ok (with_size input None).

Definition with_contract_size_in_quote_units (self : FuturesDeliveryRule) (value : Z) : DomainResult FuturesDeliveryRule :=
  if value =? 0 then Err InvalidValue else Ok (with_size self (Some value)).

(** ** Deliverability *)

(** [NaiveDate::checked_add_months]. *)
Class ChronoMonths : Type := checked_add_months : NaiveDate -> Z -> option NaiveDate.

Section delivery.
Context `{ChronoMonths}.

Definition is_deliverable_by_dates (rule : FuturesDeliveryRule) (first_issue_date maturity_date delivery_month_first : NaiveDate)
    : DomainResult bool :=
  original_limit ← ok_or (checked_add_months first_issue_date (original_term_max_months rule)) InvalidValue;
  minimum_maturity ← ok_or (checked_add_months delivery_month_first (residual_min_months rule)) InvalidValue;
  maximum_maturity ← match residual_max_months rule with
                     | Some months => maximum ← ok_or (checked_add_months delivery_month_first months) InvalidValue; Ok (Some maximum)
                     | None => Ok None
                     end;
  Ok (leb maturity_date original_limit && geb maturity_date minimum_maturity
      && from_option (fun maximum => leb maturity_date maximum) true maximum_maturity).

Definition is_deliverable (rule : FuturesDeliveryRule) (terms : BondTerms) (delivery_month_first : NaiveDate) : DomainResult bool :=
  is_deliverable_by_dates rule (first_issue_date terms) (maturity_date terms) delivery_month_first.

(** ** Inputs *)

Record FuturesDeliverableInput := {
  deliverable_owner : OwnerRef;
  futures_contract : AnalyticsObjectRef;
  deliverable_bond : AnalyticsObjectRef;
  deliverable_rule_pack : AnalyticsObjectRef;
  deliverable_snapshot : AnalyticsObjectRef;
  deliverable_valuation_at : MarketTime;
  purchase_date : NaiveDate;
  delivery_month_first : NaiveDate;
  delivery_date : NaiveDate;
  product : CgbFuturesProduct;
  rule : FuturesDeliveryRule;
  deliverable_terms : BondTerms;
  spot_clean_price : FixedDecimal;
  futures_clean_price : FixedDecimal;
  financing_rate : FixedDecimal
}.

#[export] Instance FuturesDeliverableInput_eq_dec : EqDecision FuturesDeliverableInput.
Proof. solve_decision. Defined.

Definition deliverable_input_new (input : FuturesDeliverableInput) : DomainResult FuturesDeliverableInput :=
  let terms := deliverable_terms input in
  if negb (bool_decide (market_timezone (deliverable_valuation_at input) = BondAnalytics.MARKET_TIMEZONE))
     || ltb (purchase_date input) (local_trading_date (deliverable_valuation_at input))
     || ltb (purchase_date input) (first_issue_date terms) || geb (purchase_date input) (delivery_date input)
     || geb (delivery_date input) (maturity_date terms) || negb (nd_day (delivery_month_first input) =? 1)
     || negb (binary_search (delivery_months (rule input)) (nd_month (delivery_month_first input)))
     || negb (nd_year (delivery_date input) =? nd_year (delivery_month_first input))
     || negb (nd_month (delivery_date input) =? nd_month (delivery_month_first input))
     || negb (is_positive (coupon_rate terms)) || negb (bool_decide (face_amount terms = face_quote_basis (rule input)))
     || negb (is_positive (spot_clean_price input)) || negb (is_positive (futures_clean_price input))
     || negb (is_non_negative (financing_rate input))
  then Err InvalidValue else
  deliverable ← is_deliverable (rule input) terms (delivery_month_first input);
  if negb deliverable then Err InvalidValue else Ok input.

(** [FuturesDeliverableInput::fingerprint]. *)
Definition object_fields (reference : AnalyticsObjectRef) : list (list byte) :=
  [as_bytes (ulid_str (vr_id (object_ref reference))); to_be_bytes 8 (version_get (vr_version (object_ref reference)));
   hash_bytes (object_hash reference)].

Definition rule_fields (rule : FuturesDeliveryRule) : list (list byte) :=
  [to_be_bytes 4 (original_term_max_months rule); to_be_bytes 4 (residual_min_months rule)]
  ++ match residual_max_months rule with Some value => [[x01]; to_be_bytes 4 value] | None => [[x00]] end
  ++ to_be_bytes 8 (Z.of_nat (List.length (delivery_months rule))) :: map (to_be_bytes 4) (delivery_months rule)
  ++ map (fun value => to_be_bytes 16 (scaled value)) [nominal_coupon rule; face_quote_basis rule]
  ++ map (to_be_bytes 4) [accrued_interest_day_count rule; conversion_factor_rounding_places rule;
                          accrued_interest_rounding_places rule; annual_day_basis rule].

Definition deliverable_fields `{Chrono} `{ChronoColumns} (self : FuturesDeliverableInput) : list (list byte) :=
  [as_bytes FUTURES_DELIVERY_ALGORITHM_ID; to_be_bytes 4 FUTURES_DELIVERY_ALGORITHM_VERSION;
   as_bytes (ulid_str (tenant_id (deliverable_owner self))); as_bytes (ulid_str (owner_id (deliverable_owner self)))]
  ++ flat_map object_fields [futures_contract self; deliverable_bond self; deliverable_rule_pack self; deliverable_snapshot self]
  ++ [to_be_bytes 8 (timestamp_micros (instant (deliverable_valuation_at self))); as_bytes (market_timezone (deliverable_valuation_at self))]
  ++ map (fun value => as_bytes (date_to_string value))
       [local_trading_date (deliverable_valuation_at self); purchase_date self; delivery_month_first self; delivery_date self;
        first_issue_date (deliverable_terms self); maturity_date (deliverable_terms self)]
  ++ [to_be_bytes 4 (product_discriminant (product self))] ++ rule_fields (rule self)
  ++ to_be_bytes 4 (frequency_code (frequency (deliverable_terms self)))
  :: map (fun value => to_be_bytes 16 (scaled value))
       [coupon_rate (deliverable_terms self); face_amount (deliverable_terms self); spot_clean_price self; futures_clean_price self;
        financing_rate self].

Definition deliverable_fingerprint `{Sha256} `{Chrono} `{ChronoColumns} (self : FuturesDeliverableInput) : ContentHash :=
  digest (framed (deliverable_fields self)).
End delivery.

(** ** Results *)

Record FuturesDeliveryMeasures := {
  months_to_next_coupon : Z;
  remaining_coupon_count : Z;
  conversion_factor : FixedDecimal;
  purchase_accrued_interest : FixedDecimal;
  delivery_accrued_interest : FixedDecimal;
  interim_coupons : FixedDecimal;
  invoice_price : FixedDecimal;
  purchase_dirty_price : FixedDecimal;
  gross_basis : FixedDecimal;
  financing_cost : FixedDecimal;
  holding_carry : FixedDecimal;
  net_basis : FixedDecimal;
  implied_repo_rate : FixedDecimal;
  delivery_profit : FixedDecimal
}.

#[export] Instance FuturesDeliveryMeasures_eq_dec : EqDecision FuturesDeliveryMeasures.
Proof. solve_decision. Defined.

(** The differences are taken only when the tests before them pass. *)
Definition delivery_measures_new (m : FuturesDeliveryMeasures) : DomainResult FuturesDeliveryMeasures :=
  if (remaining_coupon_count m =? 0) || negb (is_positive (conversion_factor m)) || negb (is_non_negative (purchase_accrued_interest m))
     || negb (is_non_negative (delivery_accrued_interest m)) || negb (is_non_negative (interim_coupons m))
     || negb (is_positive (invoice_price m)) || negb (is_positive (purchase_dirty_price m)) || negb (is_non_negative (financing_cost m))
  then Err InvalidValue else
  net ← checked_sub (gross_basis m) (holding_carry m);
  if negb (bool_decide (net_basis m = net)) then Err InvalidValue else
  profit ← checked_sub FixedDecimal.ZERO (net_basis m);
  if negb (bool_decide (delivery_profit m = profit)) then Err InvalidValue else Ok m.

Record FuturesDeliveryResult := { delivery_input : FuturesDeliverableInput; delivery_measures : FuturesDeliveryMeasures }.

#[export] Instance FuturesDeliveryResult_eq_dec : EqDecision FuturesDeliveryResult.
Proof. solve_decision. Defined.

Definition delivery_validate_against (self : FuturesDeliveryResult) (input : FuturesDeliverableInput) : DomainResult unit :=
  fail_if (negb (bool_decide (delivery_input self = input))) BrokenLineage.

Record FuturesDeliveryBasketResult := { candidates : list FuturesDeliveryResult; ctd_index : nat }.

#[export] Instance FuturesDeliveryBasketResult_eq_dec : EqDecision FuturesDeliveryBasketResult.
Proof. solve_decision. Defined.

Definition bond_id (r : FuturesDeliveryResult) : Ulid := vr_id (object_ref (deliverable_bond (delivery_input r))).

(** [BTreeSet::insert] of the identity of each bond. *)
Definition insert_bond (bonds : BTreeSet Ulid) (candidate : FuturesDeliveryResult) : DomainResult (BTreeSet Ulid) :=
  if bset_contains (bond_id candidate) bonds then Err InvalidValue else Ok (bset_insert (bond_id candidate) bonds).

Definition basket_result_new (candidates : list FuturesDeliveryResult) (ctd_index : nat) : DomainResult FuturesDeliveryBasketResult :=
  if bool_decide (candidates = []) || (List.length candidates <=? ctd_index)%nat then Err InvalidValue else
  _ ← try_fold insert_bond [] candidates;
  Ok {| candidates := candidates; ctd_index := ctd_index |}.

(** ** The rule pack *)

Record WireProductRule := {
  wire_product_code : option string;
  wire_original_term_max_months : option Z;
  wire_residual_min_months : option Z;
  wire_residual_upper_bound : option (Z + bool);
  wire_contract_size : option Z
}.

Record CgbFuturesDeliveryRulePack := {
  wire_products : list WireProductRule;
  wire_delivery_months : list Z;
  wire_nominal_coupon : option WireDecimal;
  wire_face_quote_basis : option WireDecimal;
  wire_accrued_interest_day_count : option Z;
  wire_conversion_factor_rounding_places : option Z;
  wire_accrued_interest_rounding_places : option Z;
  wire_annual_day_basis : option Z
}.

Definition FUTURES_MARKET : string := "CFFEX".
Definition FUTURES_RULE_TYPE : string := "cgb-futures".
Definition FUTURES_TYPE_URL : string := "type.googleapis.com/ficant.market.v1.CgbFuturesDeliveryRulePack".

Definition invalid : ApplicationError := application_error_new ValidationFailed false.
Definition missing (path : string) : ApplicationError := rule_pack_item_missing ("context.rule_pack.content." ++ path).

Definition parse_product_code (product_code : string) : AppResult CgbFuturesProduct :=
  if bool_decide (product_code = "TS"%string) then Ok TwoYear
  else if bool_decide (product_code = "TF"%string) then Ok FiveYear
  else if bool_decide (product_code = "T"%string) then Ok TenYear
  else if bool_decide (product_code = "TL"%string) then Ok ThirtyYear
  else Err invalid.

(** One turn of the loop over the products, with the index and the code before. *)
Definition product_step (st : nat * option string) (value : WireProductRule) : AppResult (nat * option string) :=
  let '(index, previous) := st in
  code ← ok_or (wire_product_code value) (missing ("products[" ++ to_string (Z.of_nat index) ++ "].product_code"));
  if blank_or_padded code || from_option (fun last => geb last code) false previous then Err invalid
  else Ok (S index, Some code).

Definition validate_product_order (values : list WireProductRule) : AppResult unit :=
  _ ← try_fold product_step (O, None) values; Ok tt.

Definition validate_delivery_months (values : list Z) : AppResult unit :=
  fail_if (bool_decide (values = []) || existsb (fun value => negb (is_month value)) values || windows2_any Z.geb values) invalid.

Section pack.
Context `{UlidCrate}.

Definition required_u32 (value : option Z) (path : string) : AppResult Z := ok_or value (missing path).

Definition delivery_decimal (value : option WireDecimal) (path : string) : AppResult FixedDecimal :=
  value ← ok_or value (missing path);
  unit ← ok_or (wire_unit value) (missing (path ++ ".unit"));
  unit_id ← ok_or (wire_unit_id unit) (missing (path ++ ".unit.unit_id"));
  id ← map_err map_domain_error (ulid_new unit_id);
  version ← map_err map_domain_error (version_new (wire_unit_version unit));
  canonical ← map_err map_domain_error
                (decimal_value_new (wire_coefficient value) (wire_scale value) {| unit_id := id; unit_version := version |});
  if negb (bool_decide (coefficient canonical = wire_coefficient value)) || negb (scale canonical =? wire_scale value)
  then Err invalid else
  z ← ok_or (parse_i128 (wire_coefficient value)) invalid;
  scaled ← (if wire_scale value <=? Z.of_nat DECIMAL_SCALE
            then power ← ok_or (checked in_i128 (10 ^ (Z.of_nat DECIMAL_SCALE - wire_scale value))) invalid;
                 ok_or (i128_checked_mul z power) invalid
            else divisor ← ok_or (checked in_i128 (10 ^ (wire_scale value - Z.of_nat DECIMAL_SCALE))) invalid;
                 if negb (i128_rem z divisor =? 0) then Err invalid else Ok (i128_div z divisor));
  Ok (from_scaled scaled).

Definition parse_delivery_payload (payload : CgbFuturesDeliveryRulePack) (product : CgbFuturesProduct) : AppResult FuturesDeliveryRule :=
  _ ← validate_product_order (wire_products payload);
  _ ← validate_delivery_months (wire_delivery_months payload);
  let prefix := ("products[product_code=" ++ product_text product ++ "]")%string in
  selected ← ok_or (find (fun value => bool_decide (wire_product_code value = Some (product_text product))) (wire_products payload)) (missing prefix);
  residual_max_months ← match wire_residual_upper_bound selected with
                        | Some (inl value) => Ok (Some value)
                        | Some (inr true) => Ok None
                        | Some (inr false) => Err invalid
                        | None => Err (missing (prefix ++ ".residual_max_months"))
                        end;
  original ← required_u32 (wire_original_term_max_months selected) (prefix ++ ".original_term_max_months");
  residual ← required_u32 (wire_residual_min_months selected) (prefix ++ ".residual_min_months");
  nominal ← delivery_decimal (wire_nominal_coupon payload) "nominal_coupon";
  face ← delivery_decimal (wire_face_quote_basis payload) "face_quote_basis";
  days ← required_u32 (wire_accrued_interest_day_count payload) "accrued_interest_day_count";
  factor_places ← required_u32 (wire_conversion_factor_rounding_places payload) "conversion_factor_rounding_places";
  interest_places ← required_u32 (wire_accrued_interest_rounding_places payload) "accrued_interest_rounding_places";
  basis ← required_u32 (wire_annual_day_basis payload) "annual_day_basis";
  rule ← map_err map_domain_error (delivery_rule_new
    {| original_term_max_months := original; residual_min_months := residual; residual_max_months := residual_max_months;
       delivery_months := wire_delivery_months payload; nominal_coupon := nominal; face_quote_basis := face;
       accrued_interest_day_count := days; conversion_factor_rounding_places := factor_places;
       accrued_interest_rounding_places := interest_places; annual_day_basis := basis; contract_size_in_quote_units := None |});
  match wire_contract_size selected with
  | Some value => map_err map_domain_error (with_contract_size_in_quote_units rule value)
  | None => Ok rule
  end.

(** What [prost] reads from the bytes of the payload. *)
Class DeliveryPackMessages : Type := decode_delivery_rule_pack : list byte -> option CgbFuturesDeliveryRulePack.

(** [CgbFuturesDeliveryRulePackParser::parse]. *)
Definition parse_delivery_pack `{DeliveryPackMessages} (content : RulePackContent) (product : CgbFuturesProduct) : AppResult FuturesDeliveryRule :=
  if negb (bool_decide (content_type_url content = FUTURES_TYPE_URL)) then Err invalid else
  payload ← ok_or (decode_delivery_rule_pack (content_value content)) invalid;
  parse_delivery_payload payload product.
End pack.
