(* ===== verification/DeliveryBasket.v ===== *)
(** * Delivery baskets

    [crates/ficant-application/src/use_cases/futures_delivery.rs], with the quotes of
    [ports/canonical_snapshot.rs] and the reading of a data source in [use_cases/data_sources.rs]: the basket of
    bonds that may be delivered into a registered contract is made from what is registered and from the quotes of
    a verified snapshot, and the cheapest bond is chosen among the results of the engine. Repositories, the
    reader of snapshots, the decoder of quotes and the engine are arguments. *)

From Stdlib Require Import ZArith Lia Strings.String.
From Stdlib Require Import Strings.Byte.
From stdpp Require Import base list option strings numbers.
From S2P Require Import Prelude Machine Collections Primitives Codec FixedDecimal Digits DecimalValue AppErrors Concrete Exposure DataHealth MarketData BarIngest BarSnapshot BondAnalytics Wire CouponTax Subject MarketObjects Access Fingerprints RatesProof FuturesDelivery.
Open Scope Z_scope.

Record CanonicalQuote := {
  cq_instrument : VersionRef;
  cq_observed_at : MarketTime;
  cq_visible_at : MarketTime;
  cq_trading_date : NaiveDate;
  cq_bid : option FixedDecimal;
  cq_ask : option FixedDecimal;
  cq_unit : UnitRef
}.

#[export] Instance CanonicalQuote_eq_dec : EqDecision CanonicalQuote.
Proof. solve_decision. Defined.

Abbreviation Quotes := (BTreeMap VersionRef CanonicalQuote).

(** ** Quotes of a snapshot *)

(** The order of two quotes of one instrument: first when they were observed, then when they became visible. *)
Definition freshness (quote current : CanonicalQuote) : comparison :=
  lex (cmp (instant (cq_observed_at quote)) (instant (cq_observed_at current)))
      (cmp (instant (cq_visible_at quote)) (instant (cq_visible_at current))).

Definition keep_latest (quotes : Quotes) (quote : CanonicalQuote) : AppResult Quotes :=
  match btree_get (cq_instrument quote) quotes with
  | None => Ok (btree_insert (cq_instrument quote) quote quotes)
  | Some current =>
      match freshness quote current with
      | Gt => Ok (btree_insert (cq_instrument quote) quote quotes)
      | Eq => Err invalid_value
      | Lt => Ok quotes
      end
  end.

Definition malformed_quote (snapshot : DataSnapshot) (quote : CanonicalQuote) : bool :=
  ltb (instant (cq_visible_at quote)) (instant (cq_observed_at quote))
  || negb (bool_decide (market_timezone (cq_observed_at quote) = market_timezone (snapshot_as_of snapshot)))
  || negb (bool_decide (market_timezone (cq_visible_at quote) = market_timezone (snapshot_visible_at snapshot)))
  || negb (bool_decide (local_trading_date (cq_observed_at quote) = cq_trading_date quote)).

(** Quotes of other days, of the future, or in another unit are left out. *)
Definition irrelevant_quote (snapshot : DataSnapshot) (valuation_at : MarketTime) (price_unit : UnitRef) (quote : CanonicalQuote) : bool :=
  negb (bool_decide (cq_trading_date quote = local_trading_date valuation_at))
  || ltb (instant (snapshot_as_of snapshot)) (instant (cq_observed_at quote))
  || ltb (instant (snapshot_visible_at snapshot)) (instant (cq_visible_at quote))
  || negb (bool_decide (cq_unit quote = price_unit)).

Definition exact_midpoint (quote : CanonicalQuote) : AppResult FixedDecimal :=
  bid ← ok_or (cq_bid quote) invalid_value;
  ask ← ok_or (cq_ask quote) invalid_value;
  sum ← ok_or (i128_checked_add (scaled bid) (scaled ask)) invalid_value;
  if negb (i128_rem sum 2 =? 0) then Err invalid_value else Ok (from_scaled (i128_div sum 2)).

Definition midpoint_step (snapshot : DataSnapshot) (valuation_at : MarketTime) (price_unit : UnitRef) (quotes : Quotes) (quote : CanonicalQuote)
    : AppResult Quotes :=
  if malformed_quote snapshot quote then Err invalid_value
  else if irrelevant_quote snapshot valuation_at price_unit quote then Ok quotes else
  bid ← ok_or (cq_bid quote) invalid_value;
  ask ← ok_or (cq_ask quote) invalid_value;
  if negb (is_positive bid) || negb (is_positive ask) || (scaled ask <? scaled bid) then Err invalid_value else
  _ ← exact_midpoint quote;
  keep_latest quotes quote.

Definition exact_midpoint_quotes (snapshot : DataSnapshot) (valuation_at : MarketTime) (price_unit : UnitRef) (decoded : list CanonicalQuote)
    : AppResult Quotes := try_fold (midpoint_step snapshot valuation_at price_unit) [] decoded.

Definition unusable_sides (quote : CanonicalQuote) : bool :=
  (bool_decide (cq_bid quote = None) && bool_decide (cq_ask quote = None))
  || from_option (fun value => negb (is_positive value)) false (cq_bid quote)
  || from_option (fun value => negb (is_positive value)) false (cq_ask quote)
  || match cq_bid quote, cq_ask quote with Some bid, Some ask => scaled ask <? scaled bid | _, _ => false end.

Definition request_step (snapshot : DataSnapshot) (valuation_at : MarketTime) (price_unit : UnitRef) (quotes : Quotes) (quote : CanonicalQuote)
    : AppResult Quotes :=
  if malformed_quote snapshot quote then Err invalid_value
  else if irrelevant_quote snapshot valuation_at price_unit quote then Ok quotes
  else if unusable_sides quote then Err invalid_value
  else keep_latest quotes quote.

Definition exact_request_quotes (snapshot : DataSnapshot) (valuation_at : MarketTime) (price_unit : UnitRef) (decoded : list CanonicalQuote)
    : AppResult Quotes := try_fold (request_step snapshot valuation_at price_unit) [] decoded.

Definition quote_matches (quote : CanonicalQuote) (requested : FixedDecimal) : bool :=
  bool_decide (cq_bid quote = Some requested) || bool_decide (cq_ask quote = Some requested).

Section evidence.
Context `{Sha256} `{Chrono} `{ChronoColumns}.

Definition quote_evidence_hash (quote : CanonicalQuote) : ContentHash :=
  digest (framed
    [as_bytes (ulid_str (vr_id (cq_instrument quote))); to_be_bytes 8 (version_get (vr_version (cq_instrument quote)));
     to_be_bytes 8 (timestamp_micros (instant (cq_observed_at quote))); to_be_bytes 8 (timestamp_micros (instant (cq_visible_at quote)));
     as_bytes (date_to_string (cq_trading_date quote)); to_be_bytes 16 (from_option scaled i128_MIN (cq_bid quote));
     to_be_bytes 16 (from_option scaled i128_MIN (cq_ask quote)); as_bytes (ulid_str (unit_id (cq_unit quote)));
     to_be_bytes 8 (version_get (unit_version (cq_unit quote)))]).
End evidence.

(** ** Registered bonds *)

Definition decimal_to_fixed_exact (value : DecimalValue) : AppResult FixedDecimal :=
  if 12 <? scale value then Err invalid_value else
  coefficient ← ok_or (parse_i128 (coefficient value)) invalid_value;
  factor ← ok_or (checked in_i128 (10 ^ (12 - scale value))) invalid_value;
  scaled ← ok_or (i128_checked_mul coefficient factor) invalid_value;
  Ok (from_scaled scaled).

Definition registered_bond_terms (bond : Bond) : AppResult BondTerms :=
  pricing ← ok_or (pricing_terms bond) lineage_incomplete;
  tax ← ok_or (bond_tax_attributes bond) lineage_incomplete;
  rate ← decimal_to_fixed_exact (pricing_coupon_rate pricing);
  face ← decimal_to_fixed_exact (face_value bond);
  issued ← decimal_to_fixed_exact (bond_cumulative_issued_amount bond);
  map_err map_domain_error
    (bond_terms_with_issuance (bond_first_issue_date bond) (bond_current_issue_date bond) (bond_maturity_date bond)
       (match pricing_frequency pricing with BondAnnual => Annual | BondSemiannual => Semiannual end)
       (match pricing_day_count pricing with BondActActIsma => ActActBondIsma end)
       (match pricing_business_day pricing with BondFollowing => Following end) rate face issued tax).

Definition decimal_matches_fixed (value : DecimalValue) (expected : FixedDecimal) : bool :=
  match parse_i128 (coefficient value) with
  | None => false
  | Some coefficient =>
      match scale value ?= Z.of_nat DECIMAL_SCALE with
      | Eq => coefficient =? scaled expected
      | Lt => from_option (fun product => product =? scaled expected) false
                (factor ← checked in_i128 (10 ^ (Z.of_nat DECIMAL_SCALE - scale value)); i128_checked_mul coefficient factor)
      | Gt => match checked in_i128 (10 ^ (scale value - Z.of_nat DECIMAL_SCALE)) with
              | None => false
              | Some factor => (i128_rem coefficient factor =? 0) && (i128_div coefficient factor =? scaled expected)
              end
      end
  end.

Definition validate_registered_bond_terms (bond : Bond) (terms : BondTerms) : AppResult unit :=
  fail_if (negb (bool_decide (bond_first_issue_date bond = first_issue_date terms))
           || negb (bool_decide (bond_current_issue_date bond = current_issue_date terms))
           || negb (bool_decide (bond_maturity_date bond = maturity_date terms))
           || negb (decimal_matches_fixed (face_value bond) (face_amount terms))) invalid_value.

(** ** Arguments *)

(** [FuturesDeliveryRuleParser]. *)
Record DeliveryRuleParser := {
  delivery_market : string;
  delivery_rule_type : string;
  delivery_type_url : string;
  delivery_product_code : string -> AppResult CgbFuturesProduct;
  delivery_parse : RulePackContent -> CgbFuturesProduct -> AppResult FuturesDeliveryRule
}.

(** [parse_for_portfolio_risk], the method the trait provides. *)
Definition parse_for_portfolio_risk (parser : DeliveryRuleParser) (content : RulePackContent) (product : CgbFuturesProduct)
    : AppResult FuturesDeliveryRule :=
  rule ← delivery_parse parser content product;
  if bool_decide (contract_size_in_quote_units rule = None)
  then Err (rule_pack_item_missing ("context.rule_pack.content.products[product_code=" ++ product_text product ++ "].contract_size_in_quote_units"))
  else Ok rule.

Definition cgb_futures_parser `{UlidCrate} `{DeliveryPackMessages} : DeliveryRuleParser := {|
  delivery_market := FUTURES_MARKET; delivery_rule_type := FUTURES_RULE_TYPE; delivery_type_url := FUTURES_TYPE_URL;
  delivery_product_code := parse_product_code; delivery_parse := parse_delivery_pack
|}.

(** [VerifiedSnapshotRead]: the bytes of a data snapshot and its manifest, or a snapshot of another kind. *)
Inductive SnapshotRead := ReadData (snapshot : DataSnapshot) (parquet manifest : list byte) | ReadOther.

Record BasketPorts := {
  get_version : AccessScope -> Ulid -> Version -> AppResult (option DefinitionValue);
  get_data_source : AccessScope -> VersionRef -> AppResult (option DataSource);
  read_snapshot : AccessScope -> Ulid -> AppResult SnapshotRead;
  decode_quotes : DataSnapshot -> list byte -> list byte -> AppResult (VersionRef * list CanonicalQuote);
  rule_parser : DeliveryRuleParser
}.

Definition definition_not_found : ApplicationError := application_error_new NotFound false.
Definition validation_failed : ApplicationError := application_error_new ValidationFailed false.

Section basket.
Context `{Sha256} `{Chrono} `{ChronoTime} `{ChronoColumns} `{ChronoMonths} (ports : BasketPorts).

(** [DataSourceUseCase::get_exact]. *)
Definition get_exact_source (scope : AccessScope) (reference : VersionRef) : AppResult DataSource :=
  found ← get_data_source ports scope reference;
  value ← ok_or found definition_not_found;
  _ ← scope_authorize scope (data_source_owner (data_source_input value));
  if negb (bool_decide (data_source_id (data_source_input value) = vr_id reference))
     || negb (bool_decide (data_source_version (data_source_input value) = vr_version reference))
     || bool_decide (data_source_price_type value = None)
  then Err validation_failed else Ok value.

(** ** Rules and contracts *)

(** The pack need not be verified, unlike the tax packs. *)
Definition validate_delivery_rule_pack (scope : AccessScope) (binding : AnalyticsObjectRef) (valuation_at : MarketTime)
    (rule_pack : MarketRulePack) (parser : DeliveryRuleParser) : AppResult unit :=
  if negb (bool_decide (market_rule_pack_id rule_pack = vr_id (object_ref binding)))
     || negb (bool_decide (rule_pack_number rule_pack = vr_version (object_ref binding))) then Err lineage_incomplete else
  _ ← scope_authorize scope (rule_pack_owner rule_pack);
  if negb (bool_decide (rule_pack_content_hash rule_pack = object_hash binding)) then Err (map_domain_error ContentHashMismatch) else
  if ltb (instant valuation_at) (instant (ep_from (effective rule_pack))) || geb (instant valuation_at) (instant (ep_to (effective rule_pack)))
  then Err (map_domain_error InvalidEffectiveTime) else
  content ← ok_or (rule_pack_content rule_pack) (rule_pack_item_missing "context.rule_pack.content");
  _ ← map_err map_domain_error (hash_verify (rule_pack_content_hash rule_pack) (content_value content));
  fail_if (negb (bool_decide (rule_pack_market rule_pack = delivery_market parser))
           || negb (bool_decide (rule_pack_type rule_pack = delivery_rule_type parser))
           || negb (bool_decide (content_type_url content = delivery_type_url parser))) invalid_value.

Definition resolve_delivery_rule (scope : AccessScope) (binding : AnalyticsObjectRef) (valuation_at : MarketTime)
    (product : CgbFuturesProduct) : AppResult FuturesDeliveryRule :=
  found ← get_version ports scope (vr_id (object_ref binding)) (vr_version (object_ref binding));
  resolved ← ok_or found lineage_incomplete;
  match resolved with
  | DefinedRulePack rule_pack =>
      _ ← validate_delivery_rule_pack scope binding valuation_at rule_pack (rule_parser ports);
      content ← ok_or (rule_pack_content rule_pack) (rule_pack_item_missing "context.rule_pack.content");
      delivery_parse (rule_parser ports) content product
  | _ => Err lineage_incomplete
  end.

Definition resolve_futures_contract (scope : AccessScope) (binding : AnalyticsObjectRef) (expected_owner : OwnerRef)
    (expected_rule_pack_ref : VersionRef) : AppResult FuturesContract :=
  found ← get_version ports scope (vr_id (object_ref binding)) (vr_version (object_ref binding));
  resolved ← ok_or found lineage_incomplete;
  match resolved with
  | DefinedInstrument definition =>
      let instrument := definition_instrument definition in
      _ ← scope_authorize scope (instrument_owner instrument);
      if negb (bool_decide (instrument_owner instrument = expected_owner))
         || negb (bool_decide (instrument_id instrument = vr_id (object_ref binding)))
         || negb (bool_decide (instrument_version instrument = vr_version (object_ref binding)))
         || negb (bool_decide (instrument_kind instrument = KindFutures)) then Err lineage_incomplete else
      match definition_subtype definition with
      | Some (SubtypeFutures contract) =>
          if negb (bool_decide (contract_instrument contract = object_ref binding))
             || negb (bool_decide (contract_rule_pack contract = expected_rule_pack_ref)) then Err lineage_incomplete else Ok contract
      | _ => Err lineage_incomplete
      end
  | _ => Err lineage_incomplete
  end.

Definition resolve_bond (scope : AccessScope) (reference : VersionRef) (owner : OwnerRef) : AppResult Bond :=
  found ← get_version ports scope (vr_id reference) (vr_version reference);
  resolved ← ok_or found lineage_incomplete;
  match resolved with
  | DefinedInstrument definition =>
      let instrument := definition_instrument definition in
      _ ← scope_authorize scope (instrument_owner instrument);
      if negb (bool_decide (instrument_owner instrument = owner)) || negb (bool_decide (instrument_id instrument = vr_id reference))
         || negb (bool_decide (instrument_version instrument = vr_version reference))
         || negb (bool_decide (instrument_kind instrument = KindBond)) then Err lineage_incomplete else
      match definition_subtype definition with
      | Some (SubtypeBond bond) => if negb (bool_decide (bond_instrument bond = reference)) then Err lineage_incomplete else Ok bond
      | _ => Err lineage_incomplete
      end
  | _ => Err lineage_incomplete
  end.

(** The part of the loops over the quotes that both use cases share: the registered bond of a quote, if it may
    be delivered. *)
Definition eligible_bond (scope : AccessScope) (owner : OwnerRef) (futures_contract_ref : VersionRef) (rule : FuturesDeliveryRule)
    (delivery_month_first : NaiveDate) (reference : VersionRef) : AppResult (option (InstrumentDefinition * Bond)) :=
  if bool_decide (reference = futures_contract_ref) then Ok None else
  found ← get_version ports scope (vr_id reference) (vr_version reference);
  match found with
  | Some (DefinedInstrument definition) =>
      if negb (bool_decide (instrument_owner (definition_instrument definition) = owner)) then Ok None else
      match definition_subtype definition with
      | Some (SubtypeBond bond) =>
          deliverable ← map_err map_domain_error
            (is_deliverable_by_dates rule (bond_first_issue_date bond) (bond_maturity_date bond) delivery_month_first);
          Ok (if (deliverable : bool) then Some (definition, bond) else None)
      | _ => Ok None
      end
  | _ => Ok None
  end.

(** ** Baskets that a request describes *)

Record FuturesDeliveryCandidateBinding := { binding_bond : AnalyticsObjectRef; binding_terms : BondTerms; binding_price : FixedDecimal }.

Record FuturesDeliveryInputBindings := {
  bindings_owner : OwnerRef;
  bindings_contract : AnalyticsObjectRef;
  bindings_rule_pack : AnalyticsObjectRef;
  bindings_snapshot : AnalyticsObjectRef;
  bindings_valuation_at : MarketTime;
  bindings_purchase_date : NaiveDate;
  bindings_month_first : NaiveDate;
  bindings_delivery_date : NaiveDate;
  bindings_product : CgbFuturesProduct;
  bindings_candidates : list FuturesDeliveryCandidateBinding;
  bindings_futures_price : FixedDecimal;
  bindings_financing_rate : FixedDecimal;
  bindings_price_unit : UnitRef
}.

Definition requested_step (scope : AccessScope) (owner : OwnerRef) (quotes : Quotes) (bonds : BTreeSet VersionRef)
    (candidate : FuturesDeliveryCandidateBinding) : AppResult (BTreeSet VersionRef) :=
  let reference := object_ref (binding_bond candidate) in
  if bset_contains reference bonds then Err invalid_value else
  bond ← resolve_bond scope reference owner;
  _ ← validate_registered_bond_terms bond (binding_terms candidate);
  quote ← ok_or (btree_get reference quotes) invalid_value;
  if negb (quote_matches quote (binding_price candidate)) then Err invalid_value else Ok (bset_insert reference bonds).

(** Of the map of bonds that the code makes, only the keys are used. *)
Definition validate_requested_bonds (scope : AccessScope) (bindings : FuturesDeliveryInputBindings) (quotes : Quotes)
    : AppResult (BTreeSet VersionRef) :=
  if bool_decide (bindings_candidates bindings = []) then Err invalid_value else
  bonds ← try_fold (requested_step scope (bindings_owner bindings) quotes) [] (bindings_candidates bindings);
  futures_quote ← ok_or (btree_get (object_ref (bindings_contract bindings)) quotes) invalid_value;
  if negb (quote_matches futures_quote (bindings_futures_price bindings)) then Err invalid_value else Ok bonds.

Definition eligible_step (scope : AccessScope) (bindings : FuturesDeliveryInputBindings) (rule : FuturesDeliveryRule)
    (eligible : BTreeSet VersionRef) (reference : VersionRef) : AppResult (BTreeSet VersionRef) :=
  found ← eligible_bond scope (bindings_owner bindings) (object_ref (bindings_contract bindings)) rule (bindings_month_first bindings) reference;
  Ok (if bool_decide (is_Some found) then bset_insert reference eligible else eligible).

Definition eligible_snapshot_bonds (scope : AccessScope) (bindings : FuturesDeliveryInputBindings) (quotes : Quotes)
    (rule : FuturesDeliveryRule) : AppResult (BTreeSet VersionRef) :=
  try_fold (eligible_step scope bindings rule) [] (btree_keys quotes).

Definition requested_input (bindings : FuturesDeliveryInputBindings) (rule : FuturesDeliveryRule) (candidate : FuturesDeliveryCandidateBinding)
    : AppResult FuturesDeliverableInput :=
  map_err map_domain_error (deliverable_input_new
    {| deliverable_owner := bindings_owner bindings; futures_contract := bindings_contract bindings; deliverable_bond := binding_bond candidate;
       deliverable_rule_pack := bindings_rule_pack bindings; deliverable_snapshot := bindings_snapshot bindings;
       deliverable_valuation_at := bindings_valuation_at bindings; purchase_date := bindings_purchase_date bindings;
       delivery_month_first := bindings_month_first bindings; delivery_date := bindings_delivery_date bindings;
       product := bindings_product bindings; FuturesDelivery.rule := rule; deliverable_terms := binding_terms candidate;
       spot_clean_price := binding_price candidate; futures_clean_price := bindings_futures_price bindings;
       financing_rate := bindings_financing_rate bindings |}).

(** [MaterializeFuturesDeliveryInputs::execute]. *)
Definition materialize_requested (scope : AccessScope) (bindings : FuturesDeliveryInputBindings) : AppResult (list FuturesDeliverableInput) :=
  _ ← scope_authorize scope (bindings_owner bindings);
  _ ← resolve_futures_contract scope (bindings_contract bindings) (bindings_owner bindings) (object_ref (bindings_rule_pack bindings));
  verified ← read_snapshot ports scope (vr_id (object_ref (bindings_snapshot bindings)));
  match verified with
  | ReadOther => Err lineage_incomplete
  | ReadData snapshot parquet manifest =>
      if negb (bool_decide (snapshot_id snapshot = vr_id (object_ref (bindings_snapshot bindings))))
         || negb (bool_decide (blob_content_hash snapshot = object_hash (bindings_snapshot bindings)))
         || negb (bool_decide (snapshot_owner snapshot = bindings_owner bindings))
         || negb (bool_decide (snapshot_as_of snapshot = bindings_valuation_at bindings))
         || ltb (instant (snapshot_visible_at snapshot)) (instant (snapshot_as_of snapshot)) then Err lineage_incomplete else
      decoded ← decode_quotes ports snapshot parquet manifest;
      quotes ← exact_request_quotes snapshot (bindings_valuation_at bindings) (bindings_price_unit bindings) decoded.2;
      requested ← validate_requested_bonds scope bindings quotes;
      rule ← resolve_delivery_rule scope (bindings_rule_pack bindings) (bindings_valuation_at bindings) (bindings_product bindings);
      eligible ← eligible_snapshot_bonds scope bindings quotes rule;
      if negb (bool_decide (requested = eligible)) then Err invalid_value else
      try_map (requested_input bindings rule) (bindings_candidates bindings)
  end.

(** ** Baskets of registered facts *)

Record RegisteredFuturesDeliveryMaterialization := {
  materialized_inputs : list FuturesDeliverableInput;
  materialized_rule : FuturesDeliveryRule;
  materialized_contract : FuturesContract;
  input_evidence_hashes : list ContentHash;
  materialized_lineage : list LineageRef;
  data_source_ref : VersionRef;
  materialized_price_type : PriceSourceType;
  price_record_count : Z
}.

(** The registered futures contract of a reference, with its definition, product code and unit of prices. *)
Definition registered_contract (scope : AccessScope) (owner : OwnerRef) (reference : VersionRef) (valuation_at : MarketTime)
    : AppResult (InstrumentDefinition * FuturesContract * string * UnitRef) :=
  found ← get_version ports scope (vr_id reference) (vr_version reference);
  definition ← ok_or found lineage_incomplete;
  match definition with
  | DefinedInstrument definition =>
      let instrument := definition_instrument definition in
      if negb (bool_decide (instrument_owner instrument = owner)) || negb (bool_decide (instrument_ref instrument = reference))
         || negb (bool_decide (instrument_kind instrument = KindFutures)) then Err lineage_incomplete else
      match definition_subtype definition with
      | Some (SubtypeFutures contract) =>
          product_code ← ok_or (contract_product_code contract) lineage_incomplete;
          price_unit ← ok_or (contract_price_unit contract) lineage_incomplete;
          if negb (bool_decide (contract_instrument contract = reference))
             || ltb (instant (last_trade_time contract)) (instant valuation_at)
             || negb (bool_decide (market_timezone (last_trade_time contract) = market_timezone valuation_at))
             || negb (bool_decide (market_timezone (expiry_time contract) = market_timezone valuation_at))
             || negb (bool_decide (market_timezone (settlement_time contract) = market_timezone valuation_at))
          then Err lineage_incomplete else Ok (definition, contract, product_code, price_unit)
      | _ => Err lineage_incomplete
      end
  | _ => Err lineage_incomplete
  end.

(** The registered rule pack of the contract, with its content. *)
Definition registered_rule_pack (scope : AccessScope) (owner : OwnerRef) (contract : FuturesContract)
    : AppResult (MarketRulePack * RulePackContent) :=
  found ← get_version ports scope (vr_id (contract_rule_pack contract)) (vr_version (contract_rule_pack contract));
  definition ← ok_or found lineage_incomplete;
  match definition with
  | DefinedRulePack rule_pack =>
      if negb (bool_decide (rule_pack_owner rule_pack = owner)) then Err lineage_incomplete else
      content ← ok_or (rule_pack_content rule_pack) (rule_pack_item_missing "context.rule_pack.content");
      Ok (rule_pack, content)
  | _ => Err lineage_incomplete
  end.

(** The verified snapshot, its source and its quotes. *)
Definition snapshot_quotes (scope : AccessScope) (owner : OwnerRef) (data_snapshot_id : Ulid) (valuation_at knowledge_at : MarketTime)
    : AppResult (DataSnapshot * VersionRef * list CanonicalQuote) :=
  verified ← read_snapshot ports scope data_snapshot_id;
  match verified with
  | ReadOther => Err lineage_incomplete
  | ReadData snapshot parquet manifest =>
      if negb (bool_decide (snapshot_id snapshot = data_snapshot_id)) || negb (bool_decide (snapshot_owner snapshot = owner))
         || negb (bool_decide (snapshot_as_of snapshot = valuation_at))
         || ltb (instant (snapshot_visible_at snapshot)) (instant (snapshot_as_of snapshot))
         || ltb (instant knowledge_at) (instant (snapshot_visible_at snapshot)) then Err lineage_incomplete else
      decoded ← decode_quotes ports snapshot parquet manifest;
      data_source ← get_exact_source scope decoded.1;
      if negb (bool_decide (data_source_owner (data_source_input data_source) = owner))
         || negb (bool_decide (data_source_price_type data_source = Some ActiveQuote))
      then Err lineage_incomplete else Ok (snapshot, decoded.1, decoded.2)
  end.

(** What every candidate of a basket shares. *)
Record BasketContext := {
  context_owner : OwnerRef;
  context_contract : AnalyticsObjectRef;
  context_rule_pack : AnalyticsObjectRef;
  context_snapshot : AnalyticsObjectRef;
  context_valuation_at : MarketTime;
  context_month_first : NaiveDate;
  context_delivery_date : NaiveDate;
  context_product : CgbFuturesProduct;
  context_rule : FuturesDeliveryRule;
  context_futures_price : FixedDecimal
}.

(** One turn of the loop over the quotes: the input of a bond that may be delivered, with the hashes and the
    reference it adds to the evidence and the lineage. *)
Definition basket_candidate (scope : AccessScope) (context : BasketContext) (entry : VersionRef * CanonicalQuote)
    : AppResult (option (FuturesDeliverableInput * list ContentHash * LineageRef)) :=
  let '(reference, quote) := entry in
  found ← eligible_bond scope (context_owner context) (object_ref (context_contract context)) (context_rule context)
            (context_month_first context) reference;
  match found with
  | None => Ok None
  | Some (candidate, bond) =>
      terms ← registered_bond_terms bond;
      let candidate_hash := definition_content_hash (DefinedInstrument candidate) in
      reference_lineage ← map_err map_domain_error (lineage_new (vr_id reference) (Some (vr_version reference)) (Some candidate_hash));
      price ← exact_midpoint quote;
      input ← map_err map_domain_error (deliverable_input_new
        {| deliverable_owner := context_owner context; futures_contract := context_contract context;
           deliverable_bond := {| object_ref := reference; object_hash := candidate_hash |};
           deliverable_rule_pack := context_rule_pack context; deliverable_snapshot := context_snapshot context;
           deliverable_valuation_at := context_valuation_at context;
           purchase_date := local_trading_date (context_valuation_at context); delivery_month_first := context_month_first context;
           delivery_date := context_delivery_date context; product := context_product context;
           FuturesDelivery.rule := context_rule context; deliverable_terms := terms; spot_clean_price := price;
           futures_clean_price := context_futures_price context; financing_rate := FixedDecimal.ZERO |});
      Ok (Some (input, [candidate_hash; quote_evidence_hash quote], reference_lineage))
  end.

Definition lineage_key (reference : LineageRef) : Ulid * option Version := (object_id reference, lr_version reference).

(** [MaterializeRegisteredFuturesDelivery::execute]. *)
Definition materialize_registered (scope : AccessScope) (owner : OwnerRef) (futures_contract_ref : VersionRef) (data_snapshot_id : Ulid)
    (valuation_at knowledge_at : MarketTime) : AppResult RegisteredFuturesDeliveryMaterialization :=
  _ ← scope_authorize scope owner;
  '(definition, contract, product_code, price_unit) ← registered_contract scope owner futures_contract_ref valuation_at;
  '(rule_pack, content) ← registered_rule_pack scope owner contract;
  let rule_binding := {| object_ref := contract_rule_pack contract; object_hash := rule_pack_content_hash rule_pack |} in
  '(snapshot, source_ref, decoded) ← snapshot_quotes scope owner data_snapshot_id valuation_at knowledge_at;
  product ← delivery_product_code (rule_parser ports) product_code;
  _ ← validate_delivery_rule_pack scope rule_binding valuation_at rule_pack (rule_parser ports);
  rule ← parse_for_portfolio_risk (rule_parser ports) content product;
  quotes ← exact_midpoint_quotes snapshot valuation_at price_unit decoded;
  futures_quote ← ok_or (btree_get futures_contract_ref quotes) lineage_incomplete;
  futures_price ← exact_midpoint futures_quote;
  let delivery_date := local_trading_date (settlement_time contract) in
  let delivery_month_first := {| nd_year := nd_year delivery_date; nd_month := nd_month delivery_date; nd_day := 1 |} in
  if geb (local_trading_date valuation_at) delivery_date then Err invalid_value else
  let contract_hash := definition_content_hash (DefinedInstrument definition) in
  snapshot_version ← map_err map_domain_error (version_new 1);
  let context := {| context_owner := owner; context_contract := {| object_ref := futures_contract_ref; object_hash := contract_hash |};
    context_rule_pack := rule_binding;
    context_snapshot := {| object_ref := {| vr_id := data_snapshot_id; vr_version := snapshot_version |};
                           object_hash := blob_content_hash snapshot |};
    context_valuation_at := valuation_at; context_month_first := delivery_month_first; context_delivery_date := delivery_date;
    context_product := product; context_rule := rule; context_futures_price := futures_price |} in
  contract_lineage ← map_err map_domain_error (lineage_new (vr_id futures_contract_ref) (Some (vr_version futures_contract_ref)) (Some contract_hash));
  rule_lineage ← map_err map_domain_error (lineage_new (vr_id (contract_rule_pack contract)) (Some (vr_version (contract_rule_pack contract)))
                                             (Some (rule_pack_content_hash rule_pack)));
  snapshot_lineage ← map_err map_domain_error (lineage_new data_snapshot_id None (Some (blob_content_hash snapshot)));
  found ← try_map (basket_candidate scope context) quotes;
  let found := omap id found in
  let inputs := map (fun f => f.1.1) found in
  if bool_decide (inputs = []) then Err invalid_value else
  count ← ok_or (u64_checked_add (Z.of_nat (List.length inputs)) 1) invalid_value;
  let inputs := sort_by_key (fun input => object_ref (deliverable_bond input)) inputs in
  Ok {| materialized_inputs := inputs; materialized_rule := rule; materialized_contract := contract;
        input_evidence_hashes := dedup (sort ([contract_hash; definition_content_hash (DefinedRulePack rule_pack);
          blob_content_hash snapshot; quote_evidence_hash futures_quote]
          ++ flat_map (fun f => f.1.2) found ++ map deliverable_fingerprint inputs));
        materialized_lineage := sort_by_key lineage_key ([contract_lineage; rule_lineage; snapshot_lineage;
          lineage_versioned (vr_id source_ref) (vr_version source_ref)] ++ map snd found);
        data_source_ref := source_ref; materialized_price_type := ActiveQuote; price_record_count := count |}.
End basket.

(** ** The cheapest to deliver *)

(** [FuturesDeliveryEngine::calculate]. *)
Abbreviation FuturesDeliveryEngine := (FuturesDeliverableInput -> Result AnalyticsError FuturesDeliveryResult).

(** The candidate beats the incumbent: a higher rate, then a lower basis, then a smaller identity. *)
Definition cheaper (candidate incumbent : FuturesDeliveryResult) : bool :=
  let c := delivery_measures candidate in
  let i := delivery_measures incumbent in
  (scaled (implied_repo_rate i) <? scaled (implied_repo_rate c))
  || ((scaled (implied_repo_rate c) =? scaled (implied_repo_rate i))
      && ((scaled (net_basis c) <? scaled (net_basis i))
          || ((scaled (net_basis c) =? scaled (net_basis i)) && ltb (bond_id candidate) (bond_id incumbent)))).

(** One turn of the loop of [select_ctd]; the indices are in range. *)
Definition ctd_step (candidates : list FuturesDeliveryResult) (best index : nat) : nat :=
  match candidates !! index, candidates !! best with
  | Some candidate, Some incumbent => if cheaper candidate incumbent then index else best
  | _, _ => best
  end.

Definition select_ctd (candidates : list FuturesDeliveryResult) : nat :=
  foldl (ctd_step candidates) O (seq 1 (List.length candidates - 1)).

Definition mixed_input (first input : FuturesDeliverableInput) : bool :=
  negb (bool_decide (deliverable_owner input = deliverable_owner first)) || negb (bool_decide (futures_contract input = futures_contract first))
  || negb (bool_decide (deliverable_rule_pack input = deliverable_rule_pack first))
  || negb (bool_decide (deliverable_snapshot input = deliverable_snapshot first))
  || negb (bool_decide (deliverable_valuation_at input = deliverable_valuation_at first))
  || negb (bool_decide (purchase_date input = purchase_date first))
  || negb (bool_decide (delivery_month_first input = delivery_month_first first))
  || negb (bool_decide (delivery_date input = delivery_date first)) || negb (bool_decide (product input = product first))
  || negb (bool_decide (rule input = rule first)) || negb (bool_decide (futures_clean_price input = futures_clean_price first))
  || negb (bool_decide (financing_rate input = financing_rate first)).

Definition calculate_delivery (engine : FuturesDeliveryEngine) (input : FuturesDeliverableInput) : AppResult FuturesDeliveryResult :=
  result ← map_err map_analytics_error (engine input);
  _ ← map_err map_domain_error (delivery_validate_against result input);
  Ok result.

(** [CalculateFuturesDeliveryBasket::execute]. *)
Definition calculate_basket (engine : FuturesDeliveryEngine) (inputs : list FuturesDeliverableInput) : AppResult FuturesDeliveryBasketResult :=
  match inputs with
  | [] => Err (map_domain_error InvalidValue)
  | first :: rest =>
      if existsb (mixed_input first) rest then Err (map_domain_error BrokenLineage) else
      candidates ← try_map (calculate_delivery engine) inputs;
      map_err map_domain_error (basket_result_new candidates (select_ctd candidates))
  end.

(** ** The latest quotes *)

Lemma elem_snoc {A} (x y : A) l : x ∈ l ++ [y] -> x ∈ l \/ x = y.
Proof. by rewrite elem_of_app, list_elem_of_singleton. Qed.

Section quotes.
Context (relevant : CanonicalQuote -> Prop).

(** The quotes of an instrument that count are older than the one that is kept. *)
Definition is_latest (seen : list CanonicalQuote) (instrument : VersionRef) (quote : CanonicalQuote) : Prop :=
  quote ∈ seen /\ relevant quote /\ cq_instrument quote = instrument
  /\ forall other, other ∈ seen -> relevant other -> cq_instrument other = instrument -> other = quote \/ freshness other quote = Lt.

Record latest_quotes (seen : list CanonicalQuote) (quotes : Quotes) : Prop := {
  quotes_wf : btree_wf quotes;
  quotes_latest : forall k q, btree_get k quotes = Some q -> is_latest seen k q;
  quotes_all : forall q, q ∈ seen -> relevant q -> is_Some (btree_get (cq_instrument q) quotes)
}.

Definition freshness_key (q : CanonicalQuote) : DateTime * DateTime := (instant (cq_observed_at q), instant (cq_visible_at q)).

Lemma freshness_cmp a b : freshness a b = cmp (freshness_key a) (freshness_key b).
Proof. done. Qed.

Lemma irrelevant_kept seen quotes q : ~ relevant q -> latest_quotes seen quotes -> latest_quotes (seen ++ [q]) quotes.
Proof.
  intros Hq [Hwf Hl Ha]. split; [done| |].
  - intros k p E. destruct (Hl k p E) as (Hp & Hr & Hk & Ho). split; [apply elem_of_app; by left|]. split; [done|]. split; [done|].
    intros other [Hs| ->]%elem_snoc Hro Hko; [by apply Ho|done].
  - intros p [Hs| ->]%elem_snoc Hr; [by apply Ha|done].
Qed.

Lemma keep_latest_spec seen quotes q quotes' :
  relevant q -> latest_quotes seen quotes -> keep_latest quotes q = Ok quotes' -> latest_quotes (seen ++ [q]) quotes'.
Proof.
  intros Hq [Hwf Hl Ha] E. unfold keep_latest in E.
  assert (Hother : forall k p, k <> cq_instrument q -> btree_get k quotes = Some p -> is_latest (seen ++ [q]) k p).
  { intros k p Hne Ek. destruct (Hl k p Ek) as (Hp & Hr & Hk & Ho). split; [apply elem_of_app; by left|]. split; [done|]. split; [done|].
    intros other [Hs| ->]%elem_snoc Hro Hko; [by apply Ho|congruence]. }
  assert (Hinsert : (forall other, other ∈ seen -> relevant other -> cq_instrument other = cq_instrument q -> freshness other q = Lt) ->
    latest_quotes (seen ++ [q]) (btree_insert (cq_instrument q) q quotes)).
  { intros Hold. split; [by apply btree_insert_wf| |].
    - intros k p Ek. destruct (decide (k = cq_instrument q)) as [-> |Hne].
      + rewrite btree_get_insert_eq in Ek. injection Ek as <-. split; [apply elem_of_app; right; by apply list_elem_of_singleton|].
        split; [done|]. split; [done|]. intros other [Hs| ->]%elem_snoc Hro Hko; [right; by apply Hold|by left].
      + rewrite btree_get_insert_ne in Ek by done. by apply Hother.
    - intros p Hp Hr. destruct (decide (cq_instrument p = cq_instrument q)) as [-> |Hne]; [by rewrite btree_get_insert_eq|].
      rewrite btree_get_insert_ne by done. apply elem_snoc in Hp as [Hs| ->]; [by apply Ha|done]. }
  destruct (btree_get (cq_instrument q) quotes) as [current|] eqn:Ec.
  - destruct (Hl _ _ Ec) as (Hp & Hr & Hk & Ho). destruct (freshness q current) eqn:Ef; [done| |].
    + injection E as <-. split; [done| |].
      * intros k p Ek. destruct (decide (k = cq_instrument q)) as [-> |Hne]; [|by apply Hother]. assert (p = current) as -> by congruence.
        split; [apply elem_of_app; by left|]. split; [done|]. split; [done|].
        intros other [Hs| ->]%elem_snoc Hro Hko; [by apply Ho|by right].
      * intros p [Hs| ->]%elem_snoc Hrp; [by apply Ha|by rewrite Ec].
    + injection E as <-. apply Hinsert. intros other Hs Hro Hko. rewrite freshness_cmp, cmp_gt_lt in Ef.
      destruct (Ho other Hs Hro Hko) as [-> |Hlt]; [by rewrite freshness_cmp|]. rewrite freshness_cmp in *. by eapply cmp_lt_trans.
  - injection E as <-. apply Hinsert. intros other Hs Hro Hko. destruct (Ha other Hs Hro) as [p Ep]. rewrite Hko in Ep. congruence.
Qed.

(** A loop whose turns keep the relevant quotes and skip the others. *)
Lemma latest_fold (step : Quotes -> CanonicalQuote -> AppResult Quotes) decoded quotes :
  (forall quotes q quotes', q ∈ decoded -> step quotes q = Ok quotes' ->
     (relevant q /\ keep_latest quotes q = Ok quotes') \/ (~ relevant q /\ quotes' = quotes)) ->
  try_fold step [] decoded = Ok quotes -> latest_quotes decoded quotes.
Proof.
  intros Hstep.
  assert (G : forall seen rest acc, (forall q, q ∈ rest -> q ∈ decoded) -> latest_quotes seen acc -> try_fold step acc rest = Ok quotes ->
    latest_quotes (seen ++ rest) quotes).
  { intros seen rest. revert seen. induction rest as [|q rest IH]; intros seen acc Hin Hl E; cbn in E.
    - injection E as <-. by rewrite app_nil_r.
    - apply bind_Ok in E as (acc' & E1 & E2). change (seen ++ q :: rest) with (seen ++ [q] ++ rest). rewrite (assoc_L (++)).
      apply (IH _ acc'); [intros p Hp; apply Hin; by right| |done].
      destruct (Hstep acc q acc' (Hin q ltac:(by left)) E1) as [[Hr Ek]|[Hr ->]]; [by apply (keep_latest_spec _ acc)|by apply irrelevant_kept]. }
  apply (G [] decoded []); [done|]. split; [constructor|done|]. intros q Hq. by apply not_elem_of_nil in Hq.
Qed.
End quotes.

(** What a quote must be to count. *)
Definition usable_quote (snapshot : DataSnapshot) (valuation_at : MarketTime) (price_unit : UnitRef) (q : CanonicalQuote) : Prop :=
  irrelevant_quote snapshot valuation_at price_unit q = false.

Lemma usable_quote_times snapshot valuation_at price_unit q :
  usable_quote snapshot valuation_at price_unit q ->
  leb (instant (cq_observed_at q)) (instant (snapshot_as_of snapshot)) = true
  /\ leb (instant (cq_visible_at q)) (instant (snapshot_visible_at snapshot)) = true
  /\ cq_trading_date q = local_trading_date valuation_at /\ cq_unit q = price_unit.
Proof.
  unfold usable_quote, irrelevant_quote. rewrite !orb_false_iff, !negb_false_iff, !bool_decide_eq_true, !leb_ltb.
  by intros [[[-> ->] ->] ->].
Qed.

Lemma midpoint_step_Ok snapshot valuation_at price_unit quotes q quotes' :
  midpoint_step snapshot valuation_at price_unit quotes q = Ok quotes' ->
  malformed_quote snapshot q = false
  /\ ((usable_quote snapshot valuation_at price_unit q /\ keep_latest quotes q = Ok quotes') \/ (~ usable_quote snapshot valuation_at price_unit q /\ quotes' = quotes)).
Proof.
  unfold midpoint_step, usable_quote. intros E. destruct (malformed_quote snapshot q); [done|]. split; [done|].
  destruct (irrelevant_quote _ _ _ q); [injection E as <-; by right|left]. split; [done|].
  apply bind_Ok in E as (bid & _ & E). apply bind_Ok in E as (ask & _ & E). destruct (_ || _); [done|]. by apply bind_Ok in E as (mid & _ & E).
Qed.

Lemma exact_midpoint_quotes_latest snapshot valuation_at price_unit decoded quotes :
  exact_midpoint_quotes snapshot valuation_at price_unit decoded = Ok quotes ->
  latest_quotes (usable_quote snapshot valuation_at price_unit) decoded quotes.
Proof. apply latest_fold. intros acc q acc' _ E. by apply midpoint_step_Ok in E as [_ E]. Qed.

Lemma exact_request_quotes_latest snapshot valuation_at price_unit decoded quotes :
  exact_request_quotes snapshot valuation_at price_unit decoded = Ok quotes ->
  latest_quotes (usable_quote snapshot valuation_at price_unit) decoded quotes.
Proof.
  apply latest_fold. intros acc q acc' _ E. unfold request_step, usable_quote in *. destruct (malformed_quote snapshot q); [done|].
  destruct (irrelevant_quote _ _ _ q); [injection E as <-; by right|left]. by destruct (unusable_sides q).
Qed.

(** ** The cheapest to deliver *)

Definition ctd_key (r : FuturesDeliveryResult) : Z * (Z * Ulid) :=
  (- scaled (implied_repo_rate (delivery_measures r)), (scaled (net_basis (delivery_measures r)), bond_id r)).

Lemma cmp_triple (a b c d : Z) (i j : Ulid) :
  cmp (a, (b, i)) (c, (d, j)) = Lt <-> a < c \/ (a = c /\ (b < d \/ (b = d /\ cmp i j = Lt))).
Proof.
  change (lex (a ?= c) (lex (b ?= d) (cmp i j)) = Lt <-> a < c \/ (a = c /\ (b < d \/ (b = d /\ cmp i j = Lt)))). unfold lex.
  destruct (Z.compare_spec a c); [|split; [by left|done]|split; [done|lia]].
  destruct (Z.compare_spec b d); [|split; [right; split; [done|by left]|done]|split; [done|lia]].
  split; [by right; split; [|right]|]. intros [?|[_ [?|[_ ?]]]]; [lia|lia|done].
Qed.

Lemma cheaper_key a b : cheaper a b = true <-> cmp (ctd_key a) (ctd_key b) = Lt.
Proof.
  unfold cheaper, ctd_key. rewrite cmp_triple, orb_true_iff, andb_true_iff, orb_true_iff, andb_true_iff, !Z.ltb_lt, !Z.eqb_eq, ltb_spec.
  assert (E : forall x y : Z, - x = - y <-> x = y) by lia. rewrite E, <- Z.opp_lt_mono. done.
Qed.

(** The winner of the first [n] candidates. *)
Lemma ctd_prefix cs n best :
  (forall i j a b, cs !! i = Some a -> cs !! j = Some b -> bond_id a = bond_id b -> i = j) ->
  (0 < n <= List.length cs)%nat -> best = foldl (ctd_step cs) O (seq 1 (n - 1)) ->
  (best < n)%nat /\ exists w, cs !! best = Some w /\ forall j r, (j < n)%nat -> cs !! j = Some r -> j <> best -> cheaper w r = true.
Proof.
  intros Hd. revert best. induction n as [|n IH]; intros best Hn ->; [lia|]. destruct n as [|n].
  - cbn. split; [lia|]. destruct (lookup_lt_is_Some_2 cs 0 ltac:(lia)) as [w Ew]. exists w. split; [done|]. intros j r Hj; lia.
  - replace (S (S n) - 1)%nat with (S n) by lia. rewrite seq_S, foldl_app. cbn [foldl plus].
    destruct (IH _ ltac:(lia) eq_refl) as (Hb & w & Ew & Hw). replace (S n - 1)%nat with n in * by lia.
    set (best := foldl (ctd_step cs) O (seq 1 n)) in *. destruct (lookup_lt_is_Some_2 cs (S n) ltac:(lia)) as [c Ec].
    unfold ctd_step. change (1 + n)%nat with (S n). rewrite Ec, Ew. destruct (cheaper c w) eqn:Ecw.
    + split; [lia|]. exists c. split; [done|]. intros j r Hj Er Hne. destruct (decide (j = best)) as [-> |Hjb]; [congruence|].
      specialize (Hw j r ltac:(lia) Er Hjb). rewrite cheaper_key in *. by eapply cmp_lt_trans.
    + split; [lia|]. exists w. split; [done|]. intros j r Hj Er Hne. destruct (decide (j = S n)) as [-> |Hjn]; [|by apply (Hw j); [lia|..]].
      assert (r = c) as -> by congruence. apply cheaper_key. destruct (cmp (ctd_key w) (ctd_key c)) eqn:Ek; [|done|].
      * apply cmp_eq in Ek. unfold ctd_key in Ek. injection Ek as _ _ Ei. by destruct Hne; apply (Hd _ _ c w).
      * apply cmp_gt_lt, cheaper_key in Ek. congruence.
Qed.

Lemma basket_result_new_Ok cs i b :
  basket_result_new cs i = Ok b -> b = {| candidates := cs; ctd_index := i |} /\ (i < List.length cs)%nat /\ NoDup (map bond_id cs).
Proof.
  unfold basket_result_new. intros E. destruct (_ || _) eqn:El; [done|]. apply orb_false_iff in El as [_ Hi]. apply Nat.leb_gt in Hi.
  apply bind_Ok in E as (bonds & Ef & [= <-]). split; [done|]. split; [done|].
  assert (G : forall rest acc, bset_wf acc -> try_fold insert_bond acc rest = Ok bonds ->
    NoDup (map bond_id rest) /\ forall r, r ∈ rest -> bond_id r ∉ acc).
  { clear. induction rest as [|r rest IH]; intros acc Hwf E; cbn in *; [split; [constructor|by intros r ?%not_elem_of_nil]|].
    apply bind_Ok in E as (acc' & E1 & E2). unfold insert_bond in E1. destruct (bset_contains (bond_id r) acc) eqn:Ec; [done|]. injection E1 as <-.
    destruct (IH _ (bset_insert_wf _ _ Hwf) E2) as [Hn Ha]. assert (Hr : bond_id r ∉ acc).
    { intros Hin. apply (bset_contains_spec (bond_id r) acc) in Hin. congruence. }
    split.
    - constructor; [|done]. intros (p & Ep & Hp)%list_elem_of_fmap. apply (Ha p Hp). rewrite <- Ep. apply bset_insert_elem. by left.
    - intros p [-> |Hp]%elem_of_cons; [done|]. intros Hin. apply (Ha p Hp), bset_insert_elem. by right. }
  by apply (G cs [] ltac:(constructor)) in Ef as [Hn _].
Qed.

Lemma calculate_delivery_Ok engine input r : calculate_delivery engine input = Ok r -> engine input = Ok r /\ delivery_input r = input.
Proof.
  unfold calculate_delivery, delivery_validate_against. intros E. res_simp. split; [done|]. breflect. done.
Qed.

Lemma calculate_basket_spec engine inputs b :
  calculate_basket engine inputs = Ok b ->
  map delivery_input (candidates b) = inputs /\ Forall2 (fun input r => engine input = Ok r) inputs (candidates b)
  /\ NoDup (map bond_id (candidates b))
  /\ exists ctd, candidates b !! ctd_index b = Some ctd
     /\ forall j r, candidates b !! j = Some r -> j <> ctd_index b -> cheaper ctd r = true.
Proof.
  unfold calculate_basket. destruct inputs as [|first rest]; [done|]. set (inputs := first :: rest). intros E.
  destruct (existsb _ rest); [done|]. apply bind_Ok in E as (cs & Em & E). apply map_err_Ok, basket_result_new_Ok in E as (-> & Hi & Hn). cbn [candidates ctd_index].
  apply try_map_Ok in Em. split.
  { clear Hi Hn. induction Em as [|i r inputs0 rs H _ IH]; cbn; [done|]. apply calculate_delivery_Ok in H as [_ ->]. by rewrite IH. }
  split. { revert Em. apply List.Forall2_impl. intros i r H. by apply calculate_delivery_Ok in H as [H _]. }
  split; [done|]. destruct (ctd_prefix cs (List.length cs) (select_ctd cs)) as (_ & w & Ew & Hw); [|lia|done|].
  - intros i j a c Ei Ej Eq. eapply (NoDup_lookup (map bond_id cs)); [done|..]; rewrite list_lookup_fmap; [by rewrite Ei|by rewrite Ej; cbn; rewrite <- Eq].
  - exists w. split; [done|]. intros j r Er Hne. apply (Hw j); [by eapply lookup_lt_Some|done..].
Qed.

(** ** Baskets are complete *)

Lemma Forall2_at_left {A B} (R : A -> B -> Prop) l k x : Forall2 R l k -> x ∈ l -> exists y, y ∈ k /\ R x y.
Proof. intros HF (i & Ex)%list_elem_of_lookup. destruct (Forall2_lookup_l _ _ _ _ _ HF Ex) as (y & Ey & Hy). exists y. split; [by eapply list_elem_of_lookup_2|done]. Qed.

Lemma Forall2_at_right {A B} (R : A -> B -> Prop) l k y : Forall2 R l k -> y ∈ k -> exists x, x ∈ l /\ R x y.
Proof. intros HF (i & Ey)%list_elem_of_lookup. destruct (Forall2_lookup_r _ _ _ _ _ HF Ey) as (x & Ex & Hx). exists x. split; [by eapply list_elem_of_lookup_2|done]. Qed.

Section complete.
Context `{Sha256} `{Chrono} `{ChronoTime} `{ChronoColumns} `{ChronoMonths} (ports : BasketPorts).

(** The bond of a reference is registered for the owner, and the rule allows to deliver it. *)
Record may_be_delivered (scope : AccessScope) (owner : OwnerRef) (futures_contract_ref : VersionRef) (rule : FuturesDeliveryRule)
    (month : NaiveDate) (reference : VersionRef) (definition : InstrumentDefinition) (bond : Bond) : Prop := {
  deliverable_other : reference <> futures_contract_ref;
  deliverable_registered : get_version ports scope (vr_id reference) (vr_version reference) = Ok (Some (DefinedInstrument definition));
  deliverable_owned : instrument_owner (definition_instrument definition) = owner;
  deliverable_subtype : definition_subtype definition = Some (SubtypeBond bond);
  deliverable_dates : is_deliverable_by_dates rule (bond_first_issue_date bond) (bond_maturity_date bond) month = Ok true
}.

Lemma eligible_bond_Some scope owner contract rule month reference definition bond :
  eligible_bond ports scope owner contract rule month reference = Ok (Some (definition, bond))
  <-> may_be_delivered scope owner contract rule month reference definition bond.
Proof.
  unfold eligible_bond. split.
  - intros E. case_bool_decide as Er; [done|]. apply bind_Ok in E as (found & Ef & E). destruct found as [[value|?|?|?]|]; try done.
    case_bool_decide as Eo; [|done]. cbn [negb] in E. destruct (definition_subtype value) as [[b|?]|] eqn:Es; try done.
    apply bind_Ok in E as (d & Ed & E). apply map_err_Ok in Ed. destruct d; [|done]. injection E as -> ->. by split.
  - intros [Er Ef Eo Es Ed]. rewrite bool_decide_eq_false_2 by done. rewrite Ef. cbn. rewrite Eo, bool_decide_eq_true_2 by done. cbn.
    by rewrite Es, Ed.
Qed.

Lemma lineage_new_hash id v h : lineage_new id v (Some h) = Ok {| object_id := id; lr_version := v; lr_content_hash := Some h |}.
Proof. by destruct v. Qed.

Lemma basket_candidate_Some scope context reference quote input hashes lineage :
  basket_candidate ports scope context (reference, quote) = Ok (Some (input, hashes, lineage)) ->
  exists definition bond terms price,
    may_be_delivered scope (context_owner context) (object_ref (context_contract context)) (context_rule context) (context_month_first context)
      reference definition bond
    /\ registered_bond_terms bond = Ok terms /\ exact_midpoint quote = Ok price /\ deliverable_input_new input = Ok input
    /\ let hash := definition_content_hash (DefinedInstrument definition) in
       input = {| deliverable_owner := context_owner context; futures_contract := context_contract context;
         deliverable_bond := {| object_ref := reference; object_hash := hash |};
         deliverable_rule_pack := context_rule_pack context; deliverable_snapshot := context_snapshot context;
         deliverable_valuation_at := context_valuation_at context;
         purchase_date := local_trading_date (context_valuation_at context); delivery_month_first := context_month_first context;
         delivery_date := context_delivery_date context; product := context_product context;
         FuturesDelivery.rule := context_rule context; deliverable_terms := terms; spot_clean_price := price;
         futures_clean_price := context_futures_price context; financing_rate := FixedDecimal.ZERO |}
       /\ hashes = [hash; quote_evidence_hash quote]
       /\ lineage = {| object_id := vr_id reference; lr_version := Some (vr_version reference); lr_content_hash := Some hash |}.
Proof.
  unfold basket_candidate. intros E. apply bind_Ok in E as ([[definition bond]|] & Ef & E); [|done]. apply eligible_bond_Some in Ef.
  apply bind_Ok in E as (terms & Et & E). rewrite lineage_new_hash in E. cbn [map_err mbind Result_bind] in E.
  apply bind_Ok in E as (price & Ep & E). apply bind_Ok in E as (i & Ei & [= <- <- <-]). apply map_err_Ok in Ei.
  exists definition, bond, terms, price.
  assert (i = ltac:(match type of Ei with deliverable_input_new ?x = _ => exact x end)) as ->.
  { unfold deliverable_input_new in Ei. res_simp. by destruct (negb _). }
  done.
Qed.

Lemma basket_candidate_of scope context reference quote found definition bond :
  may_be_delivered scope (context_owner context) (object_ref (context_contract context)) (context_rule context) (context_month_first context)
    reference definition bond ->
  basket_candidate ports scope context (reference, quote) = Ok found -> is_Some found.
Proof.
  intros Hm E. unfold basket_candidate in E. apply eligible_bond_Some in Hm. rewrite Hm in E. cbn in E.
  apply bind_Ok in E as (terms & Et & E). apply bind_Ok in E as (price & Ep & E).
  apply bind_Ok in E as (i & Ei & [= <-]). done.
Qed.

(** The delivery rule of a contract: the content of the rule pack that the contract names, which is registered for
    the owner under that name, in effect at the valuation, and of the market and type of the parser, read for the
    product of the contract. *)
Record contract_rule (scope : AccessScope) (owner : OwnerRef) (contract : FuturesContract) (code : string) (valuation_at : MarketTime)
    (rule_pack : MarketRulePack) (product : CgbFuturesProduct) (rule : FuturesDeliveryRule) : Prop := {
  rule_product : delivery_product_code (rule_parser ports) code = Ok product;
  rule_registered : get_version ports scope (vr_id (contract_rule_pack contract)) (vr_version (contract_rule_pack contract))
    = Ok (Some (DefinedRulePack rule_pack));
  rule_named : market_rule_pack_id rule_pack = vr_id (contract_rule_pack contract)
    /\ rule_pack_number rule_pack = vr_version (contract_rule_pack contract);
  rule_owned : rule_pack_owner rule_pack = owner;
  rule_effective : leb (instant (ep_from (effective rule_pack))) (instant valuation_at) = true
    /\ ltb (instant valuation_at) (instant (ep_to (effective rule_pack))) = true;
  rule_read : exists content, rule_pack_content rule_pack = Some content
    /\ digest (content_value content) = rule_pack_content_hash rule_pack
    /\ rule_pack_market rule_pack = delivery_market (rule_parser ports) /\ rule_pack_type rule_pack = delivery_rule_type (rule_parser ports)
    /\ content_type_url content = delivery_type_url (rule_parser ports)
    /\ delivery_parse (rule_parser ports) content product = Ok rule /\ contract_size_in_quote_units rule <> None
}.

Lemma contract_rule_of scope owner contract code valuation_at rule_pack content product rule :
  registered_rule_pack ports scope owner contract = Ok (rule_pack, content) ->
  delivery_product_code (rule_parser ports) code = Ok product ->
  validate_delivery_rule_pack scope {| object_ref := contract_rule_pack contract; object_hash := rule_pack_content_hash rule_pack |}
    valuation_at rule_pack (rule_parser ports) = Ok tt ->
  parse_for_portfolio_risk (rule_parser ports) content product = Ok rule ->
  contract_rule scope owner contract code valuation_at rule_pack product rule.
Proof.
  unfold registered_rule_pack, validate_delivery_rule_pack, parse_for_portfolio_risk. intros Er Ep Ev Ef.
  apply bind_Ok in Er as (found & Eg & Er). apply bind_Ok in Er as (value & ->%ok_or_Ok & Er). destruct value as [|?|pack|?]; try done.
  destruct (negb _) eqn:Eo in Er; [done|]. apply negb_false_iff, bool_decide_eq_true in Eo. apply bind_Ok in Er as (c & Ec%ok_or_Ok & [= -> ->]).
  destruct (_ || _) eqn:En in Ev; [done|]. apply bind_Ok in Ev as ([] & _ & Ev). destruct (negb _) in Ev; [done|].
  destruct (_ || _) eqn:Et in Ev; [done|]. rewrite Ec in Ev. cbn [ok_or mbind Result_bind] in Ev. apply bind_Ok in Ev as ([] & Eh%map_err_Ok & Ev).
  apply fail_if_Ok in Ev. unfold hash_verify in Eh. destruct (negb _) eqn:Ed in Eh; [done|].
  apply bind_Ok in Ef as (r & Epr & Ef). destruct (bool_decide _) eqn:Es in Ef; [done|].
  apply bool_decide_eq_false in Es. injection Ef as ->. cbn [object_ref] in En.
  rewrite !orb_false_iff, ?negb_false_iff, ?bool_decide_eq_true in *. split; try done.
  - by rewrite leb_ltb, (proj1 Et), <- (negb_involutive (ltb _ (instant (ep_to _)))), <- geb_spec, (proj2 Et).
  - exists content. destruct Ev as [[? ?] ?]. by repeat split.
Qed.

(** What a basket was made from: the definition of the contract, its product code and unit of prices, its rule pack
    and product, the snapshot with its source and quotes, and the quote of the contract. *)
Record BasketFacts := {
  facts_definition : InstrumentDefinition; facts_code : string; facts_unit : UnitRef;
  facts_pack : MarketRulePack; facts_product : CgbFuturesProduct;
  facts_snapshot : DataSnapshot; facts_source : VersionRef; facts_quotes : list CanonicalQuote;
  facts_futures_quote : CanonicalQuote
}.

Definition first_of_month (date : NaiveDate) : NaiveDate := {| nd_year := nd_year date; nd_month := nd_month date; nd_day := 1 |}.

(** The latest usable quote of an instrument. *)
Definition quoted (F : BasketFacts) (valuation_at : MarketTime) : VersionRef -> CanonicalQuote -> Prop :=
  is_latest (usable_quote (facts_snapshot F) valuation_at (facts_unit F)) (facts_quotes F).

(** The input of a bond: its registered terms and the midpoint of its quote, with the references, dates, product and
    rule of the contract. *)
Definition basket_input (owner : OwnerRef) (contract_ref : VersionRef) (snapshot_id : Ulid) (valuation_at : MarketTime) (F : BasketFacts)
    (contract : FuturesContract) (rule : FuturesDeliveryRule) (reference : VersionRef) (definition : InstrumentDefinition) (terms : BondTerms)
    (price futures_price : FixedDecimal) : FuturesDeliverableInput :=
  let delivery := local_trading_date (settlement_time contract) in
  {| deliverable_owner := owner;
     futures_contract := {| object_ref := contract_ref; object_hash := definition_content_hash (DefinedInstrument (facts_definition F)) |};
     deliverable_bond := {| object_ref := reference; object_hash := definition_content_hash (DefinedInstrument definition) |};
     deliverable_rule_pack := {| object_ref := contract_rule_pack contract; object_hash := rule_pack_content_hash (facts_pack F) |};
     deliverable_snapshot := {| object_ref := {| vr_id := snapshot_id; vr_version := mk_version 1 |};
                                object_hash := blob_content_hash (facts_snapshot F) |};
     deliverable_valuation_at := valuation_at; purchase_date := local_trading_date valuation_at;
     delivery_month_first := first_of_month delivery; delivery_date := delivery; product := facts_product F; FuturesDelivery.rule := rule;
     deliverable_terms := terms; spot_clean_price := price; futures_clean_price := futures_price; financing_rate := FixedDecimal.ZERO |}.

(** A basket that was made of registered facts: its members, their inputs, and the exact contents of its evidence and
    its lineage. The data source is in the lineage by its version only. *)
Record registered_basket (scope : AccessScope) (owner : OwnerRef) (contract_ref : VersionRef) (snapshot_id : Ulid)
    (valuation_at : MarketTime) (F : BasketFacts) (m : RegisteredFuturesDeliveryMaterialization) : Prop := {
  basket_members : forall reference, reference ∈ map (fun i => object_ref (deliverable_bond i)) (materialized_inputs m) <->
    (exists q, q ∈ facts_quotes F /\ usable_quote (facts_snapshot F) valuation_at (facts_unit F) q /\ cq_instrument q = reference)
    /\ exists definition bond, may_be_delivered scope owner contract_ref (materialized_rule m)
         (first_of_month (local_trading_date (settlement_time (materialized_contract m)))) reference definition bond;
  basket_distinct : NoDup (map (fun i => object_ref (deliverable_bond i)) (materialized_inputs m));
  basket_values : forall input, input ∈ materialized_inputs m -> exists q definition bond terms price futures_price,
    let reference := object_ref (deliverable_bond input) in
    quoted F valuation_at reference q /\ exact_midpoint q = Ok price
    /\ quoted F valuation_at contract_ref (facts_futures_quote F) /\ exact_midpoint (facts_futures_quote F) = Ok futures_price
    /\ may_be_delivered scope owner contract_ref (materialized_rule m)
         (first_of_month (local_trading_date (settlement_time (materialized_contract m)))) reference definition bond
    /\ registered_bond_terms bond = Ok terms
    /\ input = basket_input owner contract_ref snapshot_id valuation_at F (materialized_contract m) (materialized_rule m)
                 reference definition terms price futures_price
    /\ deliverable_input_new input = Ok input;
  basket_evidence : forall h, h ∈ input_evidence_hashes m <->
    h ∈ [definition_content_hash (DefinedInstrument (facts_definition F)); definition_content_hash (DefinedRulePack (facts_pack F));
         blob_content_hash (facts_snapshot F); quote_evidence_hash (facts_futures_quote F)]
    \/ exists input q, input ∈ materialized_inputs m /\ quoted F valuation_at (object_ref (deliverable_bond input)) q
         /\ h ∈ [object_hash (deliverable_bond input); quote_evidence_hash q; deliverable_fingerprint input];
  basket_lineage : forall l, l ∈ materialized_lineage m <->
    l ∈ [{| object_id := vr_id contract_ref; lr_version := Some (vr_version contract_ref);
            lr_content_hash := Some (definition_content_hash (DefinedInstrument (facts_definition F))) |};
         {| object_id := market_rule_pack_id (facts_pack F); lr_version := Some (rule_pack_number (facts_pack F));
            lr_content_hash := Some (rule_pack_content_hash (facts_pack F)) |};
         {| object_id := snapshot_id; lr_version := None; lr_content_hash := Some (blob_content_hash (facts_snapshot F)) |};
         lineage_versioned (vr_id (facts_source F)) (vr_version (facts_source F))]
    \/ exists input, input ∈ materialized_inputs m
         /\ l = {| object_id := vr_id (object_ref (deliverable_bond input)); lr_version := Some (vr_version (object_ref (deliverable_bond input)));
                   lr_content_hash := Some (object_hash (deliverable_bond input)) |};
  basket_source : data_source_ref m = facts_source F /\ materialized_price_type m = ActiveQuote
    /\ price_record_count m = Z.of_nat (List.length (materialized_inputs m)) + 1
}.

Lemma is_latest_unique relevant seen instrument p q :
  is_latest relevant seen instrument p -> is_latest relevant seen instrument q -> p = q.
Proof.
  intros (Sp & Rp & Ip & Lp) (Sq & Rq & Iq & Lq). destruct (Lp q Sq Rq Iq) as [<-|H1']; [done|]. destruct (Lq p Sp Rp Ip) as [->|H2']; [done|].
  rewrite !freshness_cmp in *. exfalso. apply (cmp_lt_irrefl (freshness_key p)). by eapply cmp_lt_trans.
Qed.

Lemma latest_quotes_elem relevant seen quotes :
  latest_quotes relevant seen quotes -> forall reference q, (reference, q) ∈ quotes <-> is_latest relevant seen reference q.
Proof.
  intros [Hwf Hl Ha] reference q. split; [by intros Hq%btree_elem_get; [apply Hl|]|]. intros Hq. destruct (Ha q) as [p Ep]; [by apply Hq..|].
  assert (Eref : cq_instrument q = reference) by apply Hq. rewrite Eref in Ep. rewrite (is_latest_unique _ _ _ _ _ Hq (Hl _ _ Ep)).
  by apply btree_get_elem.
Qed.

Lemma found_members scope context quotes found :
  Forall2 (fun entry f => basket_candidate ports scope context entry = Ok f) quotes found ->
  sublist (map (fun f => object_ref (deliverable_bond f.1.1)) (omap id found)) quotes.*1.
Proof.
  induction 1 as [|[reference quote] f quotes found E _ IH]; [done|]. destruct f as [[[i h] l]|]; cbn; [|by apply sublist_cons].
  apply basket_candidate_Some in E as (d & b & terms & price & _ & _ & _ & _ & -> & _). cbn. by apply sublist_skip.
Qed.

Lemma snapshot_quotes_Ok scope owner id valuation_at knowledge_at snapshot source decoded :
  snapshot_quotes ports scope owner id valuation_at knowledge_at = Ok (snapshot, source, decoded) ->
  snapshot_as_of snapshot = valuation_at /\ snapshot_owner snapshot = owner
  /\ leb (instant (snapshot_visible_at snapshot)) (instant knowledge_at) = true
  /\ exists parquet manifest, read_snapshot ports scope id = Ok (ReadData snapshot parquet manifest)
     /\ decode_quotes ports snapshot parquet manifest = Ok (source, decoded).
Proof.
  unfold snapshot_quotes. intros E. apply bind_Ok in E as ([s parquet manifest|] & Er & E); [|done].
  destruct (_ || _) eqn:Ec in E; [done|]. apply bind_Ok in E as ([src qs] & Ed & E). apply bind_Ok in E as (ds & _ & E).
  destruct (_ || _) in E; [done|]. injection E as <- <- <-. rewrite !orb_false_iff, !negb_false_iff, !bool_decide_eq_true in Ec.
  destruct Ec as [[[[_ Eo] Ea] _] Ek]. rewrite leb_ltb, Ek. eauto 8.
Qed.

Lemma elem_found {A} (x : A) (found : list (option A)) : x ∈ omap id found <-> Some x ∈ found.
Proof. rewrite list_elem_of_omap. split; [by intros (o & Ho & <-)|intros Hx; by exists (Some x)]. Qed.

(** The candidates that were found, seen from the quotes: their inputs, hashes and references. *)
Section found.
Context (scope : AccessScope) (context : BasketContext) (quotes : Quotes).
Context (found : list (option (FuturesDeliverableInput * list ContentHash * LineageRef))).
Context (Hfound : Forall2 (fun entry f => basket_candidate ports scope context entry = Ok f) quotes found).
Context (Hquotes : btree_wf quotes).
Let inputs := map (fun f => f.1.1) (omap id found).

Lemma found_input input :
  input ∈ inputs <-> exists q hashes l, (object_ref (deliverable_bond input), q) ∈ quotes
    /\ basket_candidate ports scope context (object_ref (deliverable_bond input), q) = Ok (Some (input, hashes, l)).
Proof.
  unfold inputs. rewrite list_elem_of_fmap. split.
  - intros ([[i hs] l] & -> & Hf%elem_found). destruct (Forall2_at_right _ _ _ _ Hfound Hf) as ([ref q] & Hq & E). cbn [fst].
    exists q, hs, l. assert (Er : object_ref (deliverable_bond i) = ref) by (by apply basket_candidate_Some in E as (? & ? & ? & ? & _ & _ & _ & _ & -> & _)).
    by rewrite Er.
  - intros (q & hs & l & Hq & E). destruct (Forall2_at_left _ _ _ _ Hfound Hq) as (f & Hf & Ef). exists (input, hs, l).
    split; [done|]. apply elem_found. congruence.
Qed.

Lemma found_entry input q :
  input ∈ inputs -> (object_ref (deliverable_bond input), q) ∈ quotes ->
  exists hashes l, Some (input, hashes, l) ∈ found
    /\ basket_candidate ports scope context (object_ref (deliverable_bond input), q) = Ok (Some (input, hashes, l)).
Proof.
  intros (q' & hs & l & Hq' & E)%found_input Hq. apply btree_elem_get in Hq, Hq'; [|done..]. assert (q' = q) as -> by congruence.
  exists hs, l. split; [|done]. destruct (Forall2_at_left _ _ _ _ Hfound (btree_get_elem _ _ _ Hq)) as (f & Hf & Ef). congruence.
Qed.

Lemma found_hash h :
  h ∈ flat_map (fun f => f.1.2) (omap id found) <-> exists input q, input ∈ inputs /\ (object_ref (deliverable_bond input), q) ∈ quotes
    /\ h ∈ [object_hash (deliverable_bond input); quote_evidence_hash q].
Proof.
  rewrite list_elem_of_In, in_flat_map. split.
  - intros ([[i hs] l] & Hf%list_elem_of_In%elem_found & Hh%list_elem_of_In). cbn [fst snd] in Hh.
    destruct (Forall2_at_right _ _ _ _ Hfound Hf) as ([ref q] & Hq & E).
    assert (Hi : i ∈ inputs) by (apply list_elem_of_fmap; exists (i, hs, l); split; [done|]; by apply elem_found).
    apply basket_candidate_Some in E as (d & b & terms & price & _ & _ & _ & _ & Ei & -> & _). exists i, q. split; [done|].
    by rewrite Ei.
  - intros (input & q & Hi & Hq & Hh). destruct (found_entry input q Hi Hq) as (hs & l & Hf & E).
    apply basket_candidate_Some in E as (d & b & terms & price & _ & _ & _ & _ & Ei & -> & _). eexists (input, _, l).
    split; [by apply list_elem_of_In, elem_found|]. apply list_elem_of_In. cbn [fst snd]. by rewrite Ei in Hh.
Qed.

Lemma found_lineage l :
  l ∈ map snd (omap id found) <-> exists input, input ∈ inputs
    /\ l = {| object_id := vr_id (object_ref (deliverable_bond input)); lr_version := Some (vr_version (object_ref (deliverable_bond input)));
              lr_content_hash := Some (object_hash (deliverable_bond input)) |}.
Proof.
  rewrite list_elem_of_fmap. split.
  - intros ([[i hs] l'] & -> & Hf%elem_found). destruct (Forall2_at_right _ _ _ _ Hfound Hf) as ([ref q] & Hq & E).
    exists i. split; [apply list_elem_of_fmap; exists (i, hs, l'); split; [done|]; by apply elem_found|].
    by apply basket_candidate_Some in E as (d & b & terms & price & _ & _ & _ & _ & -> & _ & ->).
  - intros (input & Hi & ->). destruct (proj1 (found_input input) Hi) as (q & hs & l & Hq & _).
    destruct (found_entry input q Hi Hq) as (hs' & l' & Hf & E).
    exists (input, hs', l'). split; [|by apply elem_found].
    by apply basket_candidate_Some in E as (d & b & terms & price & _ & _ & _ & _ & -> & _ & ->).
Qed.
End found.

Lemma materialize_registered_spec scope owner contract_ref snapshot_id valuation_at knowledge_at m :
  materialize_registered ports scope owner contract_ref snapshot_id valuation_at knowledge_at = Ok m ->
  exists F : BasketFacts,
    registered_contract ports scope owner contract_ref valuation_at
      = Ok (facts_definition F, materialized_contract m, facts_code F, facts_unit F)
    /\ contract_rule scope owner (materialized_contract m) (facts_code F) valuation_at (facts_pack F) (facts_product F) (materialized_rule m)
    /\ snapshot_quotes ports scope owner snapshot_id valuation_at knowledge_at = Ok (facts_snapshot F, facts_source F, facts_quotes F)
    /\ registered_basket scope owner contract_ref snapshot_id valuation_at F m.
Proof.
  unfold materialize_registered. intros E. apply bind_Ok in E as ([] & _ & E). apply bind_Ok in E as ([[[definition contract] code] price_unit] & Ec & E).
  apply bind_Ok in E as ([rule_pack content] & Er & E). apply bind_Ok in E as ([[snapshot source] decoded] & Es & E).
  apply bind_Ok in E as (product & Eproduct & E). apply bind_Ok in E as ([] & Ev & E). apply bind_Ok in E as (rule & Erule & E).
  pose proof (contract_rule_of _ _ _ _ _ _ _ _ _ Er Eproduct Ev Erule) as Hrule. clear Er Eproduct Ev Erule.
  apply bind_Ok in E as (quotes & Eq & E). apply bind_Ok in E as (futures_quote & Ef & E). apply ok_or_Ok in Ef.
  apply bind_Ok in E as (futures_price & Ep & E). destruct (geb _ _) in E; [done|]. apply bind_Ok in E as (one & Eone & E).
  apply map_err_Ok in Eone. injection Eone as <-.
  rewrite !lineage_new_hash in E. cbn [map_err mbind Result_bind] in E. apply bind_Ok in E as (found & Em & E). apply try_map_Ok in Em.
  destruct (bool_decide _) in E; [done|]. apply bind_Ok in E as (count & Ecount & E). apply Ok_inj in E as <-.
  exists {| facts_definition := definition; facts_code := code; facts_unit := price_unit; facts_pack := rule_pack; facts_product := product;
    facts_snapshot := snapshot; facts_source := source; facts_quotes := decoded; facts_futures_quote := futures_quote |}.
  split; [done|]. split; [done|]. split; [done|].
  apply exact_midpoint_quotes_latest in Eq.
  set (context := Build_BasketContext _ _ _ _ _ _ _ _ _ _) in *. set (inputs := map (fun f => f.1.1) (omap id found)).
  assert (Hp : sort_by_key (fun i => object_ref (deliverable_bond i)) inputs ≡ₚ inputs) by (unfold sort_by_key; apply sort_by_perm).
  pose proof (latest_quotes_elem _ _ _ Eq) as Hquoted. destruct Eq as [Hwf Hl Ha].
  split; unfold quoted; cbn [materialized_inputs materialized_rule materialized_contract input_evidence_hashes materialized_lineage data_source_ref
    materialized_price_type price_record_count facts_definition facts_code facts_unit facts_pack facts_product facts_snapshot facts_source
    facts_quotes facts_futures_quote].
  - intros reference. rewrite Hp, list_elem_of_fmap. split.
    + intros (input & -> & (q & hs & l & Hq & E)%(found_input scope context quotes found Em)).
      apply basket_candidate_Some in E as (d & b & terms & price & Hm & _). split; [|by exists d, b].
      apply Hquoted in Hq as (Hs & Hu & Hi & _). by exists q.
    + intros [(q & Hs & Hu & Hi) (d & b & Hm)]. destruct (Ha q Hs Hu) as [q' Eq']. rewrite Hi in Eq'.
      destruct (Forall2_at_left _ _ _ _ Em (btree_get_elem _ _ _ Eq')) as (f & Hf & Ef').
      destruct (basket_candidate_of _ context _ _ _ _ _ Hm Ef') as [[[input h] l] ->].
      apply basket_candidate_Some in Ef' as (? & ? & ? & ? & _ & _ & _ & _ & Ei & _). exists input. split; [by rewrite Ei|].
      apply list_elem_of_fmap. exists (input, h, l). split; [done|]. by apply elem_found.
  - rewrite Hp. unfold inputs. rewrite map_map. eapply sublist_NoDup; [exact (strict_sorted_NoDup _ Hwf)|by eapply found_members].
  - intros input Hi. rewrite Hp in Hi. apply (found_input scope context quotes found Em) in Hi as (q & hs & l & Hq & E).
    apply basket_candidate_Some in E as (d & b & terms & price & Hm & Et & Emid & En & Ei & _).
    exists q, d, b, terms, price, futures_price. split; [by apply Hquoted|]. split; [done|]. split; [by apply Hl|]. split; [done|].
    split; [done|]. split; [done|]. split; [exact Ei|done].
  - intros h. rewrite (canonical_elem _ h), !elem_of_app, (found_hash scope context quotes found Em Hwf), list_elem_of_fmap. fold inputs.
    setoid_rewrite <- Hquoted. split.
    + intros [?|[(input & q & Hi & Hq & Hh)|(input & -> & Hi)]]; [by left|right; exists input, q; split; [by rewrite Hp|]; rewrite !elem_of_cons in *; tauto|right].
      assert (Hi' := Hi). rewrite Hp in Hi'. destruct (proj1 (found_input scope context quotes found Em input) Hi') as (q & _ & _ & Hq & _).
      exists input, q. rewrite !elem_of_cons. tauto.
    + intros [?|(input & q & Hi & Hq & Hh)]; [by left|right]. rewrite !elem_of_cons in Hh. destruct Hh as [->|[->|[->|[]%not_elem_of_nil]]].
      * left. exists input, q. rewrite Hp in Hi. rewrite !elem_of_cons. tauto.
      * left. exists input, q. rewrite Hp in Hi. rewrite !elem_of_cons. tauto.
      * right. by exists input.
  - intros l. unfold sort_by_key at 1. rewrite sort_by_perm, elem_of_app, (found_lineage scope context quotes found Em Hwf). fold inputs.
    setoid_rewrite Hp. destruct (rule_named _ _ _ _ _ _ _ _ Hrule) as [-> ->]. done.
  - split; [done|]. split; [done|]. rewrite Hp. apply ok_or_Ok in Ecount. unfold u64_checked_add, checked in Ecount.
    destruct (in_u64 _) in Ecount; [|done]. by injection Ecount as <-.
Qed.

(** ** Requested baskets *)

Lemma bool_bset_contains {K} `{OrdLaws K} (k : K) s : bset_contains k s = false <-> k ∉ s.
Proof. rewrite <- bset_contains_spec. destruct (bset_contains k s); split; [done|by intros []|by intros _ ?|done]. Qed.

Lemma requested_fold scope owner quotes cs bonds requested :
  bset_wf bonds -> try_fold (requested_step ports scope owner quotes) bonds cs = Ok requested ->
  NoDup (map (fun c => object_ref (binding_bond c)) cs)
  /\ (forall reference, reference ∈ requested <-> reference ∈ bonds \/ reference ∈ map (fun c => object_ref (binding_bond c)) cs)
  /\ (forall reference, reference ∈ map (fun c => object_ref (binding_bond c)) cs -> reference ∉ bonds)
  /\ Forall (fun c => exists bond quote, resolve_bond ports scope (object_ref (binding_bond c)) owner = Ok bond
       /\ validate_registered_bond_terms bond (binding_terms c) = Ok tt
       /\ btree_get (object_ref (binding_bond c)) quotes = Some quote /\ quote_matches quote (binding_price c) = true) cs.
Proof.
  revert bonds. induction cs as [|c cs IH]; intros bonds Hwf E; cbn in E.
  - injection E as <-. split; [constructor|]. split; [intros r; cbn; rewrite elem_of_nil; tauto|]. split; [by intros r ?%not_elem_of_nil|constructor].
  - apply bind_Ok in E as (bonds' & Es & E). unfold requested_step in Es. destruct (bset_contains _ bonds) eqn:Ec in Es; [done|].
    apply bool_bset_contains in Ec. apply bind_Ok in Es as (bond & Eb & Es). apply bind_Ok in Es as ([] & Ev & Es).
    apply bind_Ok in Es as (quote & Eq & Es). apply ok_or_Ok in Eq. destruct (quote_matches _ _) eqn:Em in Es; [|done]. injection Es as <-.
    destruct (IH _ (bset_insert_wf _ _ Hwf) E) as (Hn & Hr & Hf & Hc). cbn [map]. split.
    { constructor; [|done]. intros Hin. apply (Hf _ Hin), bset_insert_elem. by left. }
    split. { intros r. rewrite Hr, bset_insert_elem, elem_of_cons. tauto. }
    split. { intros r [-> |Hin]%elem_of_cons; [done|]. intros Hb. apply (Hf _ Hin), bset_insert_elem. by right. }
    constructor; [by exists bond, quote|done].
Qed.

Lemma eligible_fold scope bindings rule keys eligible acc :
  try_fold (eligible_step ports scope bindings rule) acc keys = Ok eligible ->
  forall reference, reference ∈ eligible <-> reference ∈ acc \/ (reference ∈ keys /\ exists definition bond,
    may_be_delivered scope (bindings_owner bindings) (object_ref (bindings_contract bindings)) rule (bindings_month_first bindings) reference definition bond).
Proof.
  revert acc. induction keys as [|k keys IH]; intros acc E reference; cbn in E.
  - injection E as <-. split; [by left|]. intros [?|[[]%not_elem_of_nil _]]; done.
  - apply bind_Ok in E as (acc' & Es & E). rewrite (IH _ E). unfold eligible_step in Es. apply bind_Ok in Es as (found & Ef & [= <-]).
    rewrite elem_of_cons. destruct found as [[d b]|].
    + rewrite bool_decide_eq_true_2 by done. rewrite bset_insert_elem. apply eligible_bond_Some in Ef. split.
      * intros [[-> |?]|[? ?]]; [right|by left|right; by split; [right|]]. split; [by left|by exists d, b].
      * intros [?|[[-> |?] ?]]; [left; by right|left; by left|by right].
    + rewrite bool_decide_eq_false_2 by (by intros []). split.
      * intros [?|[? ?]]; [by left|right; by split; [right|]].
      * intros [?|[[-> |?] Hm]]; [by left| |by right]. destruct Hm as (d & b & Hm). apply eligible_bond_Some in Hm. congruence.
Qed.

(** A request is answered only when it names exactly the bonds that may be delivered, each with a price that was
    quoted for it. *)
Lemma materialize_requested_spec scope bindings inputs :
  materialize_requested ports scope bindings = Ok inputs ->
  exists snapshot decoded rule, snapshot_as_of snapshot = bindings_valuation_at bindings
    /\ Forall2 (fun c input => deliverable_bond input = binding_bond c /\ deliverable_input_new input = Ok input) (bindings_candidates bindings) inputs
    /\ NoDup (map (fun i => object_ref (deliverable_bond i)) inputs)
    /\ (forall reference, reference ∈ map (fun i => object_ref (deliverable_bond i)) inputs <->
        (exists q, q ∈ decoded /\ usable_quote snapshot (bindings_valuation_at bindings) (bindings_price_unit bindings) q /\ cq_instrument q = reference)
        /\ exists definition bond, may_be_delivered scope (bindings_owner bindings) (object_ref (bindings_contract bindings)) rule
             (bindings_month_first bindings) reference definition bond)
    /\ Forall (fun c => exists q, is_latest (usable_quote snapshot (bindings_valuation_at bindings) (bindings_price_unit bindings)) decoded
         (object_ref (binding_bond c)) q /\ quote_matches q (binding_price c) = true) (bindings_candidates bindings).
Proof.
  unfold materialize_requested. intros E. apply bind_Ok in E as ([] & _ & E). apply bind_Ok in E as (contract & _ & E).
  apply bind_Ok in E as ([snapshot parquet manifest|] & _ & E); [|done]. destruct (_ || _) eqn:Ec in E; [done|].
  rewrite !orb_false_iff, !negb_false_iff, !bool_decide_eq_true in Ec. destruct Ec as [[[[_ _] _] Ea] _].
  apply bind_Ok in E as ([source decoded] & _ & E). apply bind_Ok in E as (quotes & Eq & E). cbn [snd] in Eq.
  apply exact_request_quotes_latest in Eq as [Hwf Hl Hall]. apply bind_Ok in E as (requested & Er & E). apply bind_Ok in E as (rule & _ & E).
  apply bind_Ok in E as (eligible & Ee & E). destruct (negb _) eqn:Ed in E; [done|]. apply negb_false_iff, bool_decide_eq_true in Ed as <-.
  unfold validate_requested_bonds in Er. destruct (bool_decide _) in Er; [done|]. apply bind_Ok in Er as (bonds & Er & Er').
  apply bind_Ok in Er' as (fq & _ & Er'). destruct (negb _) in Er'; [done|]. injection Er' as <-.
  destruct (requested_fold _ _ _ _ _ _ ltac:(constructor) Er) as (Hn & Hr & _ & Hc). apply try_map_Ok in E.
  assert (Hbonds : Forall2 (fun c input => deliverable_bond input = binding_bond c /\ deliverable_input_new input = Ok input) (bindings_candidates bindings) inputs).
  { revert E. apply List.Forall2_impl. intros c i Ei. unfold requested_input in Ei. apply map_err_Ok in Ei.
    assert (i = ltac:(match type of Ei with deliverable_input_new ?x = _ => exact x end)) as ->; [|done].
    unfold deliverable_input_new in Ei. res_simp. by destruct (negb _). }
  assert (Hmap : map (fun i => object_ref (deliverable_bond i)) inputs = map (fun c => object_ref (binding_bond c)) (bindings_candidates bindings)).
  { clear -Hbonds. induction Hbonds as [|c i cs inputs [Eb _] _ IH]; cbn; [done|]. by rewrite Eb, IH. }
  exists snapshot, decoded, rule. split; [done|]. split; [done|]. rewrite Hmap. split; [done|]. split.
  - intros reference. specialize (Hr reference). specialize (eligible_fold _ _ _ _ _ _ Ee reference). rewrite elem_of_nil in Hr. rewrite elem_of_nil.
    intros He. assert (Hk : reference ∈ btree_keys quotes <-> exists q, q ∈ decoded /\ usable_quote snapshot (bindings_valuation_at bindings) (bindings_price_unit bindings) q /\ cq_instrument q = reference).
    { split.
      - intros ([k q] & -> & Hq)%list_elem_of_fmap. apply btree_elem_get in Hq; [|done]. destruct (Hl _ _ Hq) as (? & ? & ? & _). by exists q.
      - intros (q & Hq & Hu & <-). destruct (Hall q Hq Hu) as [q' Hq']. apply btree_get_elem in Hq'. apply list_elem_of_fmap. by exists (cq_instrument q, q'). }
    rewrite <- Hk. tauto.
  - revert Hc. apply List.Forall_impl. intros c (bond & q & _ & _ & Hq & Hm). exists q. split; [by apply Hl|done].
Qed.
End complete.

(** ** Properties *)

(** C39. The basket of a registered contract is complete and looks at nothing it could not know. Its rule is the
    content of the rule pack that the contract names, registered for the owner, in effect at the valuation and of the
    hash it is registered with, read for the product of the contract. Its bonds are exactly the quoted bonds that are
    registered for the owner and that this rule allows to deliver, each of them once. Every price is the exact midpoint
    of the latest quote of its instrument among the quotes of the snapshot that are of the day and in the unit of the
    contract, observed at the latest at the valuation and visible at the latest with the snapshot, which itself was
    visible at the time of knowledge; the terms are the registered ones, the rest of every input is that of the
    contract, and the inputs pass the checks of the domain. The evidence is exactly the hashes of the definitions of
    the contract and the rule pack, of the content of the snapshot, of the quote of the contract, and of the
    definition, the quote and the input of each bond; the lineage is exactly the contract, the rule pack, the snapshot,
    the data source (by version, without a hash) and the bonds. *)
Theorem registered_basket_complete `{Sha256} `{Chrono} `{ChronoTime} `{ChronoColumns} `{ChronoMonths} ports scope owner contract_ref id
    valuation_at knowledge_at m :
  materialize_registered ports scope owner contract_ref id valuation_at knowledge_at = Ok m ->
  exists F : BasketFacts,
    registered_contract ports scope owner contract_ref valuation_at
      = Ok (facts_definition F, materialized_contract m, facts_code F, facts_unit F)
    /\ contract_rule ports scope owner (materialized_contract m) (facts_code F) valuation_at (facts_pack F) (facts_product F)
         (materialized_rule m)
    /\ snapshot_quotes ports scope owner id valuation_at knowledge_at = Ok (facts_snapshot F, facts_source F, facts_quotes F)
    /\ registered_basket ports scope owner contract_ref id valuation_at F m
    /\ forall q, usable_quote (facts_snapshot F) valuation_at (facts_unit F) q ->
       leb (instant (cq_observed_at q)) (instant valuation_at) = true /\ leb (instant (cq_visible_at q)) (instant knowledge_at) = true.
Proof.
  intros E. destruct (materialize_registered_spec _ _ _ _ _ _ _ _ E) as (F & Ec & Er & Es & Hb).
  exists F. split; [done|]. split; [done|]. split; [done|]. split; [done|]. intros q Hq.
  apply snapshot_quotes_Ok in Es as (Ea & _ & Hk & _). apply usable_quote_times in Hq as (Ho & Hv & _). split; [congruence|].
  by eapply leb_trans.
Qed.

(** C40. The bond that is cheapest to deliver is chosen by the numbers of the engine alone: each candidate of a basket
    carries the result of the engine for its own input, in the order of the inputs, no bond occurs twice, and the
    chosen one has the highest implied repo rate, among those the lowest net basis, and among those the smallest
    identity; so the choice does not depend on the order. *)
Theorem cheapest_to_deliver engine inputs b :
  calculate_basket engine inputs = Ok b ->
  map delivery_input (candidates b) = inputs /\ Forall2 (fun input r => engine input = Ok r) inputs (candidates b)
  /\ NoDup (map bond_id (candidates b))
  /\ exists ctd, candidates b !! ctd_index b = Some ctd
     /\ forall j r, candidates b !! j = Some r -> j <> ctd_index b ->
        let rate x := scaled (implied_repo_rate (delivery_measures x)) in
        let basis x := scaled (net_basis (delivery_measures x)) in
        rate r < rate ctd \/ (rate r = rate ctd /\ (basis ctd < basis r \/ (basis ctd = basis r /\ ltb (bond_id ctd) (bond_id r) = true))).
Proof.
  intros E. destruct (calculate_basket_spec _ _ _ E) as (Ei & Ee & Hn & ctd & Ec & Hc). split; [done|]. split; [done|]. split; [done|].
  exists ctd. split; [done|]. intros j r Ej Hne. specialize (Hc j r Ej Hne). unfold cheaper in Hc.
  rewrite orb_true_iff, andb_true_iff, orb_true_iff, andb_true_iff, !Z.ltb_lt, !Z.eqb_eq in Hc.
  destruct Hc as [Hc|[Hc Hd]]; [by left|right]. by split.
Qed.

Section example.
Local Existing Instances sample_sha256 sample_chrono sample_chrono_time.
Local Instance sample_columns : ChronoColumns := {|
  timestamp_micros := fun t => timestamp t * 1000000 + timestamp_subsec_nanos t / 1000;
  from_timestamp_micros := fun m => Some {| timestamp := m / 1000000; timestamp_subsec_nanos := m mod 1000000 * 1000 |};
  date_of_days := fun _ => None
|}.
(** A day past the end of a month is not moved back to it. *)
Local Instance sample_months : ChronoMonths := fun d n =>
  let months := nd_year d * 12 + nd_month d - 1 + n in Some {| nd_year := months / 12; nd_month := months mod 12 + 1; nd_day := nd_day d |}.

Definition shanghai (seconds : Z) (date : NaiveDate) : MarketTime :=
  {| instant := {| timestamp := seconds; timestamp_subsec_nanos := 0 |}; market_timezone := BondAnalytics.MARKET_TIMEZONE; local_trading_date := date |}.
Definition day (y m d : Z) : NaiveDate := {| nd_year := y; nd_month := m; nd_day := d |}.
Definition amount (coefficient : string) : DecimalValue := {| coefficient := coefficient; scale := 0; value_unit := sample_unit |}.

Definition sample_instrument (id : string) (kind : InstrumentKind) : Instrument :=
  {| instrument_id := sample_id id; instrument_version := mk_version 1; instrument_owner := sample_owner; instrument_kind := kind;
     instrument_market := "CFFEX"; symbol := id; currency := sample_unit; instrument_calendar := sample_vref "C" |}.
Definition sample_contract : FuturesContract :=
  {| contract_instrument := sample_vref "F"; last_trade_time := shanghai 900 (day 2026 3 10); expiry_time := shanghai 950 (day 2026 3 11);
     settlement_time := shanghai 990 (day 2026 3 13); contract_multiplier := amount "1"; contract_rule_pack := sample_vref "R";
     contract_product_code := Some "T"%string; contract_price_unit := Some sample_unit |}.
Definition sample_bond (id : string) (issued : NaiveDate) : Bond :=
  {| bond_instrument := sample_vref id; bond_first_issue_date := issued; bond_current_issue_date := issued; bond_maturity_date := day 2034 1 5;
     bond_cumulative_issued_amount := amount "1000"; bond_tax_attributes := Some {| value_added_tax_status := VatExempt; income_tax_status := IncomeExempt |};
     face_value := amount "100";
     pricing_terms := Some {| pricing_coupon_rate := amount "1"; pricing_frequency := BondAnnual; pricing_day_count := BondActActIsma;
                              pricing_business_day := BondFollowing |} |}.
Definition sample_delivery_rule : FuturesDeliveryRule :=
  {| original_term_max_months := 120; residual_min_months := 78; residual_max_months := None; delivery_months := [3; 6; 9; 12];
     nominal_coupon := from_scaled 30000000000; face_quote_basis := from_scaled 100000000000000; accrued_interest_day_count := 1;
     conversion_factor_rounding_places := 4; accrued_interest_rounding_places := 7; annual_day_basis := 365;
     contract_size_in_quote_units := Some 10000 |}.
Definition sample_parser : DeliveryRuleParser :=
  {| delivery_market := FUTURES_MARKET; delivery_rule_type := FUTURES_RULE_TYPE; delivery_type_url := FUTURES_TYPE_URL;
     delivery_product_code := parse_product_code; delivery_parse := fun _ _ => Ok sample_delivery_rule |}.
Definition sample_delivery_pack : MarketRulePack :=
  {| market_rule_pack_id := sample_id "R"; rule_pack_number := mk_version 1; rule_pack_owner := sample_owner; rule_pack_market := FUTURES_MARKET;
     rule_pack_type := FUTURES_RULE_TYPE; rule_pack_source := "exchange";
     effective := {| ep_from := shanghai 0 (day 2026 1 1); ep_to := shanghai 1000 (day 2027 1 1) |}; verification_status := Verified;
     rule_pack_content_hash := digest [x01]; rule_pack_content := Some {| content_type_url := FUTURES_TYPE_URL; content_value := [x01] |} |}.
Definition sample_snapshot : DataSnapshot :=
  {| snapshot_id := sample_id "S"; snapshot_owner := sample_owner; snapshot_visible_at := shanghai 120 (day 2026 1 5);
     snapshot_as_of := shanghai 100 (day 2026 1 5); snapshot_schema_hash := sample_hash x01; snapshot_manifest_hash := sample_hash x02;
     blob_content_hash := sample_hash x03; snapshot_lineage := [sample_lineage] |}.
Definition sample_quote (id : string) (observed bid : Z) : CanonicalQuote :=
  {| cq_instrument := sample_vref id; cq_observed_at := shanghai observed (day 2026 1 5); cq_visible_at := shanghai observed (day 2026 1 5);
     cq_trading_date := day 2026 1 5; cq_bid := Some (from_scaled bid); cq_ask := Some (from_scaled (bid + 2)); cq_unit := sample_unit |}.
Definition sample_access : AccessScope :=
  {| scope_tenant_id := sample_id "T"; scope_actor_id := sample_id "A"; allowed_owner_ids := [sample_id "O"]; scope_fingerprint := sample_hash x01 |}.

(** Two bonds are quoted: one may be delivered, the other was issued too long before it matures. *)
Definition sample_ports : BasketPorts := {|
  get_version := fun _ id _ =>
    if decide (id = sample_id "F") then Ok (Some (DefinedInstrument {| definition_instrument := sample_instrument "F" KindFutures;
                                                                       definition_subtype := Some (SubtypeFutures sample_contract) |}))
    else if decide (id = sample_id "R") then Ok (Some (DefinedRulePack sample_delivery_pack))
    else if decide (id = sample_id "B") then Ok (Some (DefinedInstrument {| definition_instrument := sample_instrument "B" KindBond;
                                                                            definition_subtype := Some (SubtypeBond (sample_bond "B" (day 2025 1 5))) |}))
    else if decide (id = sample_id "D") then Ok (Some (DefinedInstrument {| definition_instrument := sample_instrument "D" KindBond;
                                                                            definition_subtype := Some (SubtypeBond (sample_bond "D" (day 2015 1 5))) |}))
    else Ok None;
  get_data_source := fun _ _ => Ok (Some {| data_source_input := {| data_source_id := sample_id "Q"; data_source_version := mk_version 1;
    data_source_owner := sample_owner; data_source_kind := Postgres; data_source_name := "quotes"; connection_binding := "db"; dataset := "q";
    canonical_schema_id := "ficant.q.v1"; canonical_schema_hash := sample_hash x04 |}; data_source_price_type := Some ActiveQuote |});
  read_snapshot := fun _ _ => Ok (ReadData sample_snapshot [] []);
  decode_quotes := fun _ _ _ => Ok (sample_vref "Q", [sample_quote "F" 90 100; sample_quote "B" 80 99; sample_quote "B" 90 97; sample_quote "B" 110 95; sample_quote "D" 90 98]);
  rule_parser := sample_parser
|}.

Definition sample_materialization : AppResult RegisteredFuturesDeliveryMaterialization :=
  materialize_registered sample_ports sample_access sample_owner (sample_vref "F") (sample_id "S") (shanghai 100 (day 2026 1 5)) (shanghai 130 (day 2026 1 5)).

Example sample_basket :
  ((fun m => map (fun i => (ulid_str (vr_id (object_ref (deliverable_bond i))), scaled (spot_clean_price i))) (materialized_inputs m)) <$> sample_materialization)
  = Ok [(ulid_str (sample_id "B"), 98)].
Proof. vm_compute. reflexivity. Qed.

Lemma registered_basket_complete_witness : exists m F,
  sample_materialization = Ok m
  /\ List.length (materialized_inputs m) = 1%nat
  /\ contract_rule sample_ports sample_access sample_owner sample_contract "T" (shanghai 100 (day 2026 1 5)) (facts_pack F) TenYear
       (materialized_rule m)
  /\ registered_basket sample_ports sample_access sample_owner (sample_vref "F") (sample_id "S") (shanghai 100 (day 2026 1 5)) F m.
Proof.
  assert (V : is_ok sample_materialization = true) by (vm_compute; reflexivity).
  assert (D : (fun m => List.length (materialized_inputs m)) <$> sample_materialization = Ok 1%nat) by (vm_compute; reflexivity).
  destruct sample_materialization as [m|] eqn:E; [|discriminate V]. unfold sample_materialization in E. injection D as D.
  destruct (registered_basket_complete _ _ _ _ _ _ _ _ E) as (F & Ec & Er & _ & Hb & _). exists m, F.
  assert (U : (fun x : InstrumentDefinition * FuturesContract * string * UnitRef => (x.1.1.2, x.1.2))
    <$> registered_contract sample_ports sample_access sample_owner (sample_vref "F") (shanghai 100 (day 2026 1 5)) = Ok (sample_contract, "T"%string))
    by (vm_compute; reflexivity).
  rewrite Ec in U. injection U as Um Uc. rewrite Um, Uc in Er. pose proof (rule_product _ _ _ _ _ _ _ _ _ Er) as Ep.
  injection Ep as Ep. rewrite <- Ep in Er. split; [reflexivity|]. split; [exact D|]. split; [exact Er|exact Hb].
Defined.

Definition sample_deliverable (id : string) : FuturesDeliverableInput :=
  {| deliverable_owner := sample_owner; futures_contract := {| object_ref := sample_vref "F"; object_hash := sample_hash x01 |};
     deliverable_bond := {| object_ref := sample_vref id; object_hash := sample_hash x02 |};
     deliverable_rule_pack := {| object_ref := sample_vref "R"; object_hash := sample_hash x03 |};
     deliverable_snapshot := {| object_ref := sample_vref "S"; object_hash := sample_hash x04 |};
     deliverable_valuation_at := shanghai 100 (day 2026 1 5); purchase_date := day 2026 1 5; delivery_month_first := day 2026 3 1;
     delivery_date := day 2026 3 13; product := TenYear; rule := sample_delivery_rule;
     deliverable_terms := {| first_issue_date := day 2025 1 5; current_issue_date := day 2025 1 5; maturity_date := day 2034 1 5; frequency := Annual;
       day_count := ActActBondIsma; business_day := Following; coupon_rate := ONE; face_amount := ONE; cumulative_issued_amount := ONE; tax_attributes := None |};
     spot_clean_price := ONE; futures_clean_price := ONE; financing_rate := FixedDecimal.ZERO |}.
(** Equal rates: the basis of the bond decides. *)
Definition sample_engine : FuturesDeliveryEngine := fun input => Ok {| delivery_input := input; delivery_measures :=
  let basis := if decide (vr_id (object_ref (deliverable_bond input)) = sample_id "B") then from_scaled 5 else from_scaled 3 in
  {| months_to_next_coupon := 1; remaining_coupon_count := 1; conversion_factor := ONE; purchase_accrued_interest := ONE; delivery_accrued_interest := ONE;
     interim_coupons := ONE; invoice_price := ONE; purchase_dirty_price := ONE; gross_basis := basis; financing_cost := ONE; holding_carry := FixedDecimal.ZERO;
     net_basis := basis; implied_repo_rate := ONE; delivery_profit := from_scaled (- scaled basis) |} |}.

Lemma cheapest_to_deliver_witness :
  exists b ctd, calculate_basket sample_engine [sample_deliverable "B"; sample_deliverable "D"; sample_deliverable "E"] = Ok b
    /\ candidates b !! ctd_index b = Some ctd /\ NoDup (map bond_id (candidates b)) /\ ctd_index b = 1%nat.
Proof.
  set (r := calculate_basket _ _). assert (V : is_ok r = true) by (vm_compute; reflexivity).
  assert (I : ctd_index <$> r = Ok 1%nat) by (vm_compute; reflexivity).
  destruct r as [b|] eqn:E; [|discriminate V]. unfold r in E. injection I as I.
  destruct (cheapest_to_deliver _ _ _ E) as (_ & _ & Hn & ctd & Ec & _). exists b, ctd. split; [reflexivity|]. split; [exact Ec|]. split; [exact Hn|exact I].
Defined.
End example.
