(* ===== verification/Worker.v ===== *)
(** * The worker: configuration, attestation and tasks

    [binaries/ficant-worker/src/lib.rs] without its two loops, which are in [WorkerLoop]: errors, the
    configuration read from the environment ([from_env]) and its validation ([config_validate]), the grammar
    of environment attestations ([canonical_environment_digest]), derived ids ([derived_id]) and the check of
    a claimed task against its persisted identity ([validate_loaded]). *)

From Stdlib Require Import ZArith Lia Strings.String.
From Stdlib Require Import Strings.Byte.
From stdpp Require Import base list option strings numbers sorting.
From S2P Require Import Prelude Machine Collections Primitives Codec Concrete Digits ResearchGraph GraphOrder GraphWiring GraphConstruction RunJournal Runtime Evidence NativeIdentity Writer Cursor DecimalValue NativeRegistry.
Open Scope Z_scope.

(** ** Errors *)

Inductive WorkerStep :=
  LoadStep | BeginStep | ReadInputStep | ExecuteStep | PrepareStep | PromoteStep | RenewStep | CompleteStep | FailStep | MaintenanceStep.

Inductive WorkerError :=
| InvalidWorkerConfiguration (name : string)
| Backend (step : WorkerStep) (retryable : bool)
| InvalidTask (reason : string)
| TimedOut.
Abbreviation WorkerResult := (Result WorkerError).

#[export] Instance WorkerStep_eq_dec : EqDecision WorkerStep.
Proof. solve_decision. Defined.
#[export] Instance WorkerError_eq_dec : EqDecision WorkerError.
Proof. solve_decision. Defined.

Definition worker_retryable (self : WorkerError) : bool :=
  match self with Backend _ true => true | _ => false end.

(** The derived [Debug] and the [Display] texts. *)
Definition debug_step (step : WorkerStep) : string :=
  match step with
  | LoadStep => "Load" | BeginStep => "Begin" | ReadInputStep => "ReadInput" | ExecuteStep => "Execute"
  | PrepareStep => "Prepare" | PromoteStep => "Promote" | RenewStep => "Renew" | CompleteStep => "Complete"
  | FailStep => "Fail" | MaintenanceStep => "Maintenance"
  end.

Definition display_error (self : WorkerError) : string :=
  match self with
  | InvalidWorkerConfiguration name => "invalid worker configuration: " ++ name
  | Backend step retryable =>
      "worker backend failure at " ++ debug_step step ++ " (retryable=" ++ (if retryable then "true" else "false") ++ ")"
  | InvalidTask reason => "invalid claimed task: " ++ reason
  | TimedOut => "native node execution timed out"
  end.

Definition failure_hash `{Sha256} (error : WorkerError) : ContentHash :=
  digest (as_bytes ("ficant/worker-failure/v1:" ++ display_error error)).

(** ** Environment attestations *)

Definition NEWLINE : byte := x0a.
Definition CARRIAGE_RETURN : byte := x0d.
Definition EQUALS : byte := x3d.

(** [str::split] and [str::split_once] at one byte. *)
Fixpoint split_at (stop : byte) (l : list byte) : list (list byte) :=
  match l with
  | [] => [[]]
  | b :: l' =>
      let rest := split_at stop l' in
      if Byte.eqb b stop then [] :: rest
      else match rest with line :: lines => (b :: line) :: lines | [] => [[b]] end
  end.

Fixpoint split_once (stop : byte) (l : list byte) : option (list byte * list byte) :=
  match l with
  | [] => None
  | b :: l' => if Byte.eqb b stop then Some ([], l') else p ← split_once stop l'; Some (b :: p.1, p.2)
  end.

Definition invalid_environment : WorkerError := InvalidWorkerConfiguration "FICANT_WORKER_ENVIRONMENT_ATTESTATION".
Definition ENVIRONMENT_GRAMMAR : string := "ficant.worker.environment.v1".

Definition is_key_byte (index : nat) (b : byte) : bool :=
  is_ascii_lowercase b
  || ((is_ascii_digit b || Byte.eqb b x5f || Byte.eqb b x2d) && negb (index =? 0)%nat).

Definition is_key (key : list byte) : bool := negb (bool_decide (key = [])) && forallb id (imap is_key_byte key).

Definition is_field_byte (b : byte) : bool := byte_in 33 126 b && negb (Byte.eqb b EQUALS).
Definition is_field (value : list byte) : bool := negb (bool_decide (value = [])) && forallb is_field_byte value.

Definition ARCH : list byte := as_bytes "arch".
Definition OS : list byte := as_bytes "os".
Definition PROFILE : list byte := as_bytes "profile".

(** The state of the loop: the key before, the number of lines, and which of the required keys were seen. *)
Definition EnvironmentState : Type := option (list byte) * nat * (bool * bool * bool).

Definition environment_line (st : EnvironmentState) (line : list byte) : WorkerResult EnvironmentState :=
  let '(previous, count, (has_arch, has_os, has_profile)) := st in
  '(key, field_value) ← ok_or (split_once EQUALS line) invalid_environment;
  if negb (is_key key) || negb (is_field field_value) || from_option (fun previous_key => geb previous_key key) false previous
  then Err invalid_environment
  else Ok (Some key, S count,
           (has_arch || bool_decide (key = ARCH), has_os || bool_decide (key = OS), has_profile || bool_decide (key = PROFILE))).

Definition canonical_environment_digest `{Sha256} (value : string) : WorkerResult ContentHash :=
  let bytes := as_bytes value in
  if bool_decide (bytes = []) || Byte.eqb (List.last bytes x00) NEWLINE || existsb (Byte.eqb CARRIAGE_RETURN) bytes
     || negb (is_ascii value) then Err invalid_environment else
  match split_at NEWLINE bytes with
  | first :: lines =>
      if negb (bool_decide (first = as_bytes ENVIRONMENT_GRAMMAR)) then Err invalid_environment else
      '(_, count, (has_arch, has_os, has_profile)) ← try_fold environment_line (None, O, (false, false, false)) lines;
      if (count =? 0)%nat || negb has_arch || negb has_os || negb has_profile then Err invalid_environment
      else Ok (digest bytes)
  | [] => Err invalid_environment
  end.

(** ** The environment of the process *)

Inductive EnvVar := Present (value : string) | NotPresent | NotUnicode.
Class Environment : Type := env_var : string -> EnvVar.

(** What the build provides: the native nodes it was built with and the revision of its sources. *)
Class WorkerBuild : Type := {
  worker_native :: NativeBuild;
  compiled_git_commit_sha : string;
  compiled_git_tree_sha : string
}.

(** [str::parse::<u64>]. *)
Definition parse_u64 (s : string) : option Z :=
  let bytes := as_bytes s in
  let digits := match bytes with b :: rest => if Byte.eqb b PLUS then rest else bytes | [] => bytes end in
  if bool_decide (digits = []) || negb (all_digits digits) then None else checked in_u64 (digits_val digits).

(** Durations are numbers of nanoseconds. *)
Definition from_secs (seconds : Z) : Z := seconds * 1000000000.
Definition from_millis (milliseconds : Z) : Z := milliseconds * 1000000.
Definition from_hours (hours : Z) : Z := from_secs (hours * 3600).
Definition as_secs (duration : Z) : Z := duration / 1000000000.

Section environment.
Context `{Environment}.

Definition required_env (name : string) : WorkerResult string :=
  match env_var name with
  | Present value => if blank_or_padded value then Err (InvalidWorkerConfiguration name) else Ok value
  | _ => Err (InvalidWorkerConfiguration name)
  end.

Definition parse_sha256_attestation (name : string) (value : string) : WorkerResult ContentHash :=
  encoded ← ok_or (strip_prefix (as_bytes "sha256:") (as_bytes value)) (InvalidWorkerConfiguration name);
  if negb (Z.of_nat (List.length encoded) =? 64) then Err (InvalidWorkerConfiguration name) else
  bytes ← ok_or (decode_pairs encoded) (InvalidWorkerConfiguration name);
  map_err (fun _ => InvalidWorkerConfiguration name) (hash_from_bytes bytes).

Definition required_sha256_env (name : string) : WorkerResult ContentHash :=
  value ← required_env name; parse_sha256_attestation name value.

Definition duration_env (name : string) (default : Z) (convert : Z -> Z) : WorkerResult Z :=
  match env_var name with
  | Present value => n ← ok_or (parse_u64 value) (InvalidWorkerConfiguration name); Ok (convert n)
  | NotPresent => Ok (convert default)
  | NotUnicode => Err (InvalidWorkerConfiguration name)
  end.

Definition seconds_env (name : string) (default : Z) : WorkerResult Z := duration_env name default from_secs.
Definition milliseconds_env (name : string) (default : Z) : WorkerResult Z := duration_env name default from_millis.
Definition required_seconds_env (name : string) : WorkerResult Z :=
  value ← required_env name;
  n ← ok_or (parse_u64 value) (InvalidWorkerConfiguration name);
  Ok (from_secs n).
End environment.

(** ** Configuration *)

Record WorkerConfig := {
  database_url : string;
  s3_endpoint : string;
  s3_bucket : string;
  s3_access_key : string;
  s3_secret_key : string;
  worker_id : Ulid;
  code : CodeBinding;
  runtime_image_digest : ContentHash;
  environment_attestation : string;
  native_source_digest : ContentHash;
  lease_duration : Z;
  renew_interval : Z;
  idle_poll_interval : Z;
  node_timeout : Z;
  orphan_grace : Z;
  orphan_interval : Z
}.

Definition is_blank (s : string) : bool := bool_decide (trim s = EmptyString).

(** Durations are not negative: [is_zero] is a comparison with zero. *)
Definition unsafe_durations (self : WorkerConfig) : bool :=
  (lease_duration self =? 0) || (renew_interval self =? 0) || (idle_poll_interval self =? 0) || (node_timeout self =? 0)
  || (orphan_grace self =? 0) || (orphan_interval self =? 0) || (lease_duration self <=? renew_interval self)
  || (from_hours 720 <? orphan_grace self) || (from_hours 24 <? orphan_interval self)
  || (orphan_grace self <? orphan_interval self).

Definition config_validate `{Sha256} `{WorkerBuild} (self : WorkerConfig) : WorkerResult unit :=
  if is_blank (database_url self) || is_blank (s3_endpoint self) || is_blank (s3_bucket self) || is_blank (s3_access_key self)
     || is_blank (s3_secret_key self) then Err (InvalidWorkerConfiguration "worker endpoint") else
  _ ← canonical_environment_digest (environment_attestation self);
  if negb (bool_decide (git_commit_sha (code self) = compiled_git_commit_sha))
     || negb (bool_decide (git_tree_sha (code self) = compiled_git_tree_sha))
  then Err (InvalidWorkerConfiguration "FICANT_CODE_COMMIT_SHA") else
  if negb (bool_decide (Some (native_source_digest self) = native_node_source_digest))
  then Err (InvalidWorkerConfiguration "FICANT_WORKER_NATIVE_SOURCE_DIGEST") else
  if unsafe_durations self then Err (InvalidWorkerConfiguration "worker duration") else Ok tt.

Definition lease_seconds (self : WorkerConfig) : WorkerResult Z :=
  ok_or (checked in_u32 (as_secs (lease_duration self))) (InvalidWorkerConfiguration "FICANT_WORKER_LEASE_SECONDS").

Definition config_environment_digest `{Sha256} (self : WorkerConfig) : WorkerResult ContentHash :=
  canonical_environment_digest (environment_attestation self).

Definition from_env `{UlidCrate} `{Sha256} `{WorkerBuild} `{Environment} : WorkerResult WorkerConfig :=
  commit ← required_env "FICANT_CODE_COMMIT_SHA";
  tree ← required_env "FICANT_CODE_TREE_SHA";
  code ← map_err (fun _ => InvalidWorkerConfiguration "FICANT_CODE_COMMIT_SHA") (code_binding_new commit tree);
  database_url ← required_env "FICANT_WORKER_DATABASE_URL";
  s3_endpoint ← required_env "FICANT_WORKER_S3_ENDPOINT";
  s3_bucket ← required_env "FICANT_WORKER_S3_BUCKET";
  s3_access_key ← required_env "FICANT_WORKER_S3_ACCESS_KEY";
  s3_secret_key ← required_env "FICANT_WORKER_S3_SECRET_KEY";
  id ← required_env "FICANT_WORKER_ID";
  worker_id ← map_err (fun _ => InvalidWorkerConfiguration "FICANT_WORKER_ID") (ulid_new id);
  runtime_image_digest ← required_sha256_env "FICANT_WORKER_RUNTIME_IMAGE_DIGEST";
  environment_attestation ← required_env "FICANT_WORKER_ENVIRONMENT_ATTESTATION";
  native_source_digest ← required_sha256_env "FICANT_WORKER_NATIVE_SOURCE_DIGEST";
  lease_duration ← seconds_env "FICANT_WORKER_LEASE_SECONDS" 60;
  renew_interval ← seconds_env "FICANT_WORKER_RENEW_SECONDS" 20;
  idle_poll_interval ← milliseconds_env "FICANT_WORKER_IDLE_POLL_MS" 500;
  node_timeout ← seconds_env "FICANT_WORKER_NODE_TIMEOUT_SECONDS" 30;
  orphan_grace ← required_seconds_env "FICANT_WORKER_ORPHAN_GRACE_SECONDS";
  orphan_interval ← required_seconds_env "FICANT_WORKER_ORPHAN_INTERVAL_SECONDS";
  let value := {|
    database_url := database_url; s3_endpoint := s3_endpoint; s3_bucket := s3_bucket; s3_access_key := s3_access_key;
    s3_secret_key := s3_secret_key; worker_id := worker_id; code := code; runtime_image_digest := runtime_image_digest;
    environment_attestation := environment_attestation; native_source_digest := native_source_digest;
    lease_duration := lease_duration; renew_interval := renew_interval; idle_poll_interval := idle_poll_interval;
    node_timeout := node_timeout; orphan_grace := orphan_grace; orphan_interval := orphan_interval |} in
  _ ← config_validate value;
  Ok value.

(** ** Derived ids *)

Definition CROCKFORD : list byte := as_bytes "0123456789ABCDEFGHJKMNPQRSTVWXYZ".

(** The loop of [derived_id]: [n] characters of five bits each, most significant first. *)
Fixpoint crockford (n : nat) (value : Z) : list byte :=
  match n with
  | O => []
  | S n => crockford n (Z.shiftr value 5) ++ [nth (Z.to_nat (Z.land value 31)) CROCKFORD x30]
  end.

Definition derived_bytes (domain : list byte) (parts : list (list byte)) : list byte := domain ++ framed parts.

(** [None]: [Ulid::new] refuses the text, and [expect] panics. *)
Definition derived_id `{UlidCrate} `{Sha256} (domain : list byte) (parts : list (list byte)) : option Ulid :=
  let value := from_be_bytes (take 16 (hash_bytes (digest (derived_bytes domain parts)))) in
  match ulid_new (string_of_list_byte (crockford 26 value)) with Ok id => Some id | Err _ => None end.

(** The nonce of a lease: the nanoseconds of the clock and a counter, mixed. *)
Definition monotonic_nonce (nanoseconds counter : Z) : list byte := to_be_bytes 16 (Z.lxor nanoseconds counter).

(** ** Claimed tasks *)

Record ClaimedTask := {
  task_tenant_id : Ulid;
  task_id : Ulid;
  task_run_id : Ulid;
  task_node_id : Ulid;
  task_graph_digest : ContentHash;
  execution_identity_digest : ContentHash;
  planned_artifact_id : Ulid;
  lease_id : Ulid;
  attempt : Z
}.

(** [ports::ExternalInputArtifactBinding] and [ports::StoredExecutionIdentity]. *)
Record ExternalInputArtifactBinding := { bound_input_id : string; bound_artifact_id : Ulid; bound_content_hash : ContentHash }.

Record StoredExecutionIdentity := {
  stored_owner : OwnerRef;
  stored_graph_id : Ulid;
  stored_graph_version : Version;
  stored_execution : ExecutionInstanceIdentity;
  external_input_artifacts : list ExternalInputArtifactBinding
}.

Record LoadedTask := {
  loaded_owner : OwnerRef;
  loaded_run : ExperimentRun.ExperimentRun;
  loaded_graph : ResearchGraph;
  stored_identity : StoredExecutionIdentity
}.

Definition IDENTITY_MISMATCH : WorkerError := InvalidTask "persisted identity or deployment attestation mismatch".

Definition validate_loaded `{Sha256} `{WorkerBuild} (task : ClaimedTask) (loaded : LoadedTask) (config : WorkerConfig)
    : WorkerResult unit :=
  let identity := stored_execution (stored_identity loaded) in
  let persisted := reproducibility identity in
  node ← ok_or (find (fun node => bool_decide (node_id node = task_node_id task)) (nodes (loaded_graph loaded)))
           (InvalidTask "persisted node missing");
  executor ← map_err (fun _ => InvalidTask "native node registry mismatch") (trusted_native_node node);
  if negb (bool_decide (tenant_id (loaded_owner loaded) = task_tenant_id task))
     || negb (bool_decide (graph_digest (loaded_graph loaded) = task_graph_digest task))
     || negb (bool_decide (instance_run_id identity = task_run_id task))
     || negb (bool_decide (instance_digest identity = execution_identity_digest task))
     || bool_decide (rep_subject persisted = None)
     || negb (bool_decide (rep_code persisted = Some (code config)))
     || negb (bool_decide (rep_image persisted = runtime_image_digest config))
  then Err IDENTITY_MISMATCH else
  environment ← config_environment_digest config;
  fail_if (negb (bool_decide (rep_environment persisted = environment))
           || negb (bool_decide (implementation_digest
                <$> find (fun binding => bool_decide (implemented_node binding = task_node_id task)) (rep_implementations persisted)
                = Some (bound_implementation (bound executor))))) IDENTITY_MISMATCH.

(** ** The grammar of attestations *)

(** Lines with newlines between them. *)
Fixpoint join (stop : byte) (lines : list (list byte)) : list byte :=
  match lines with
  | [] => []
  | [line] => line
  | line :: lines => line ++ stop :: join stop lines
  end.

Definition lacks (stop : byte) (l : list byte) : Prop := Forall (fun b => b <> stop) l.

Lemma split_at_lacks stop l : Forall (lacks stop) (split_at stop l).
Proof.
  induction l as [|b l IH]; cbn; [repeat constructor|]. destruct (Byte.eqb b stop) eqn:E; [by constructor; [constructor|]|].
  assert (Hb : b <> stop) by (intros ->; by rewrite (proj2 (byte_eqb_eq stop stop) eq_refl) in E).
  destruct (split_at stop l) as [|line lines]; [by repeat constructor|]. apply Forall_cons in IH as [Hl IH].
  constructor; [by constructor|done].
Qed.

Lemma split_at_nonempty stop l : split_at stop l <> [].
Proof. destruct l as [|b l]; cbn; [done|]. destruct (Byte.eqb b stop); [done|]. by destruct (split_at stop l). Qed.

Lemma join_cons stop line lines : lines <> [] -> join stop (line :: lines) = line ++ stop :: join stop lines.
Proof. by destruct lines. Qed.

Lemma join_split_at stop l : join stop (split_at stop l) = l.
Proof.
  induction l as [|b l IH]; [done|]. cbn [split_at]. destruct (Byte.eqb b stop) eqn:E.
  - apply byte_eqb_eq in E as E; subst b. rewrite join_cons by apply split_at_nonempty. by rewrite IH.
  - destruct (split_at stop l) as [|line lines] eqn:Es; [by apply split_at_nonempty in Es|].
    rewrite <- IH. by destruct lines.
Qed.

Lemma split_at_app stop line l : lacks stop line -> split_at stop (line ++ stop :: l) = line :: split_at stop l.
Proof.
  induction 1 as [|b line Hb _ IH]; cbn.
  - by rewrite (proj2 (byte_eqb_eq stop stop) eq_refl).
  - destruct (Byte.eqb b stop) eqn:E; [by apply byte_eqb_eq in E|]. by rewrite IH.
Qed.

Lemma split_at_one stop line : lacks stop line -> split_at stop line = [line].
Proof.
  induction 1 as [|b line Hb _ IH]; cbn; [done|]. destruct (Byte.eqb b stop) eqn:E; [by apply byte_eqb_eq in E|]. by rewrite IH.
Qed.

Lemma split_at_join stop lines : Forall (lacks stop) lines -> lines <> [] -> split_at stop (join stop lines) = lines.
Proof.
  intros Hl. induction Hl as [|line lines Hline Hl IH]; [done|]. intros _. destruct lines as [|next lines].
  - by apply split_at_one.
  - rewrite join_cons by done. rewrite split_at_app by done. by rewrite IH.
Qed.

Lemma split_once_Some stop l k v : split_once stop l = Some (k, v) <-> l = k ++ stop :: v /\ lacks stop k.
Proof.
  revert k. induction l as [|b l IH]; intros k; cbn.
  - split; [done|]. intros [E _]. by destruct k.
  - destruct (Byte.eqb b stop) eqn:E.
    + apply byte_eqb_eq in E as E; subst b. split; [intros [= <- <-]; split; [done|constructor]|].
      intros [E Hk]. destruct k as [|c k]; [by injection E as ->|]. injection E as <- _. by apply Forall_cons in Hk as [Hk _].
    + assert (Hb : b <> stop) by (intros ->; by rewrite (proj2 (byte_eqb_eq stop stop) eq_refl) in E).
      destruct (split_once stop l) as [[k' v']|] eqn:Es; cbn.
      * split.
        -- intros [= <- <-]. destruct (proj1 (IH k') eq_refl) as [-> Hk]. split; [done|by constructor].
        -- intros [El Hk]. destruct k as [|c k]; [by injection El|]. injection El as -> El. apply Forall_cons in Hk as [_ Hk].
           assert (E' : Some (k', v') = Some (k, v)) by (by apply IH). by injection E' as -> ->.
      * split; [done|]. intros [El Hk]. destruct k as [|c k]; [by injection El|]. injection El as -> El.
        apply Forall_cons in Hk as [_ Hk]. by assert (None = Some (k, v)) by (by apply IH).
Qed.

(** Fields: a key and a value each. *)
Abbreviation EnvironmentField := (list byte * list byte)%type.
Definition field_line (f : EnvironmentField) : list byte := f.1 ++ EQUALS :: f.2.
Definition valid_field (f : EnvironmentField) : Prop := is_key f.1 = true /\ is_field f.2 = true.

(** An environment: valid fields with increasing keys, among them the architecture, the operating system
    and the build profile. *)
Record environment (fields : list EnvironmentField) : Prop := {
  environment_valid : Forall valid_field fields;
  environment_sorted : StronglySorted (fun a b => cmp a b = Lt) (map fst fields);
  environment_required : forall key, key ∈ [ARCH; OS; PROFILE] -> key ∈ map fst fields
}.

Definition attestation (fields : list EnvironmentField) : list byte :=
  join NEWLINE (as_bytes ENVIRONMENT_GRAMMAR :: map field_line fields).

(** The bytes of a line are printable, and those of a key are not "=". *)
Definition is_any_key_byte (b : byte) : bool := is_ascii_lowercase b || is_ascii_digit b || Byte.eqb b x5f || Byte.eqb b x2d.

Lemma is_key_bytes key : is_key key = true -> Forall (fun b => is_any_key_byte b = true) key.
Proof.
  unfold is_key. rewrite andb_true_iff. intros [_ Hk]. revert Hk.
  assert (Hgen : forall f : nat -> byte -> bool, (forall i b, f i b = true -> is_any_key_byte b = true) ->
    forallb id (imap f key) = true -> Forall (fun b => is_any_key_byte b = true) key).
  { induction key as [|b key IH]; intros f Hf; [constructor|]. cbn. rewrite andb_true_iff. intros [Hb Hk].
    constructor; [by apply (Hf O)|]. apply (IH (f ∘ S)); [|done]. intros i c. apply Hf. }
  apply Hgen. intros i b. unfold is_key_byte, is_any_key_byte. rewrite orb_true_iff, andb_true_iff. intros [->|[H _]]; [done|].
  rewrite <- !orb_assoc. rewrite <- orb_assoc in H. by rewrite H, orb_true_r.
Qed.

(** Bytes that stop a line or a key do not occur in them. *)
Lemma key_byte_not b stop : is_any_key_byte b = true -> is_any_key_byte stop = false -> b <> stop.
Proof. by intros Hb Hs ->; rewrite Hb in Hs. Qed.
Lemma field_byte_not b stop : is_field_byte b = true -> is_field_byte stop = false -> b <> stop.
Proof. by intros Hb Hs ->; rewrite Hb in Hs. Qed.

Lemma is_key_lacks key stop : is_key key = true -> is_any_key_byte stop = false -> lacks stop key.
Proof. intros Hk Hs. apply is_key_bytes in Hk. eapply Forall_impl; [exact Hk|]. intros b Hb. by apply (key_byte_not b stop). Qed.

Lemma is_field_lacks value stop : is_field value = true -> is_field_byte stop = false -> lacks stop value.
Proof.
  unfold is_field. rewrite andb_true_iff. intros [_ Hv] Hs. apply Forall_forall. intros b Hb.
  rewrite forallb_forall in Hv. apply (field_byte_not b stop); [|done]. apply Hv. by apply list_elem_of_In.
Qed.

Lemma field_line_lacks f stop :
  valid_field f -> is_any_key_byte stop = false -> is_field_byte stop = false -> stop <> EQUALS -> lacks stop (field_line f).
Proof.
  intros [Hk Hv] Hs Hs' He. unfold field_line, lacks. rewrite Forall_app, Forall_cons. split; [by apply is_key_lacks|].
  split; [by intros <-|by apply is_field_lacks].
Qed.

(** What the loop has seen after some fields. *)
Definition seen (key : list byte) (before : bool) (fields : list EnvironmentField) : bool :=
  before || existsb (fun f => bool_decide (f.1 = key)) fields.

(** A line is taken when it is a field with a later key. *)
Lemma environment_line_Ok previous n flags line st :
  environment_line (previous, n, flags) line = Ok st <->
  exists f, line = field_line f /\ valid_field f /\ (forall q, previous = Some q -> cmp q f.1 = Lt)
    /\ st = (Some f.1, S n, (seen ARCH flags.1.1 [f], seen OS flags.1.2 [f], seen PROFILE flags.2 [f])).
Proof.
  destruct flags as [[a o] p]. unfold environment_line. cbn [fst snd]. split.
  - intros E. apply bind_Ok in E as ([k v] & Es%ok_or_Ok & E). apply split_once_Some in Es as [-> _].
    destruct (negb (is_key k) || _ || _) eqn:Eg in E; [done|]. rewrite !orb_false_iff, !negb_false_iff in Eg. destruct Eg as [[Ek Ev] Ep].
    injection E as <-. exists (k, v). split; [done|]. split; [done|]. split; [|unfold seen; cbn; by rewrite !orb_false_r].
    intros q ->. cbn in Ep. unfold geb in Ep. cbn. by destruct (cmp q k).
  - intros ([k v] & -> & [Hk Hv] & Hq & ->). cbn [fst snd] in *.
    assert (Es : split_once EQUALS (field_line (k, v)) = Some (k, v)) by (apply split_once_Some; split; [done|by apply is_key_lacks]).
    rewrite Es. cbn [ok_or mbind Result_bind]. rewrite Hk, Hv. cbn [negb orb].
    assert (Ep : from_option (fun previous_key => geb previous_key k) false previous = false).
    { destruct previous as [q|]; [|done]. cbn. unfold geb. by rewrite (Hq q eq_refl). }
    rewrite Ep. unfold seen. cbn. by rewrite !orb_false_r.
Qed.

Lemma seen_app key before f fields : seen key (seen key before [f]) fields = seen key before (f :: fields).
Proof. unfold seen. cbn. by rewrite orb_false_r, orb_assoc. Qed.

(** The keys increase, starting after [previous]. *)
Definition increasing (previous : option (list byte)) (fields : list EnvironmentField) : Prop :=
  StronglySorted (fun a b => cmp a b = Lt) (map fst fields) /\ forall q, previous = Some q -> Forall (fun key => cmp q key = Lt) (map fst fields).

Lemma increasing_cons previous f fields :
  increasing previous (f :: fields) <-> (forall q, previous = Some q -> cmp q f.1 = Lt) /\ increasing (Some f.1) fields.
Proof.
  unfold increasing. cbn [map]. split.
  - intros [Hs Hq]. apply StronglySorted_inv in Hs as [Hs Hf]. split; [|split; [done|by intros q [= <-]]].
    intros q Eq. specialize (Hq q Eq). by apply Forall_cons in Hq as [Hq _].
  - intros [Hq [Hs Hf]]. specialize (Hf _ eq_refl). split; [by constructor|]. intros q Eq. apply Forall_cons. split; [by apply Hq|].
    eapply Forall_impl; [exact Hf|]. intros key Hkey. apply (cmp_lt_trans q f.1 key); [by apply Hq|done].
Qed.

Lemma last_cons {A} (a d : A) l : List.last (a :: l) d = List.last l a.
Proof. revert a d. induction l as [|b l IH]; intros a d; [done|]. change (List.last (b :: l) d = List.last (b :: l) a). by rewrite (IH b d), (IH b a). Qed.

Lemma environment_lines lines previous n flags st :
  try_fold environment_line (previous, n, flags) lines = Ok st <->
  exists fields, lines = map field_line fields /\ Forall valid_field fields /\ increasing previous fields
    /\ st = (List.last (map (fun f => Some f.1) fields) previous, (n + List.length fields)%nat,
             (seen ARCH flags.1.1 fields, seen OS flags.1.2 fields, seen PROFILE flags.2 fields)).
Proof.
  revert previous n flags. induction lines as [|line lines IH]; intros previous n flags.
  - cbn. split.
    + intros [= <-]. exists []. split; [done|]. split; [done|]. split; [split; [constructor|by intros]|].
      destruct flags as [[] ?]. unfold seen. cbn. by rewrite !orb_false_r, Nat.add_0_r.
    + intros (fields & E & _ & _ & ->). destruct fields; [|done]. destruct flags as [[] ?]. unfold seen. cbn.
      by rewrite !orb_false_r, Nat.add_0_r.
  - cbn [try_fold]. rewrite bind_Ok. setoid_rewrite environment_line_Ok. split.
    + intros (st' & (f & -> & Hv & Hq & ->) & E). apply IH in E as (fields & -> & Hf & Hi & ->). cbn [fst snd].
      exists (f :: fields). split; [done|]. split; [by constructor|]. split; [by apply increasing_cons|].
      by rewrite !seen_app, Nat.add_succ_comm; cbn [map]; rewrite last_cons.
    + intros ([|f fields] & E & Hf & Hi & ->); [done|]. injection E as -> ->. apply Forall_cons in Hf as [Hv Hf].
      apply increasing_cons in Hi as [Hq Hi]. eexists. split; [by exists f|]. apply IH. exists fields.
      split; [done|]. split; [done|]. split; [done|]. cbn [fst snd map]. by rewrite !seen_app, Nat.add_succ_comm, last_cons.
Qed.

Lemma seen_false key fields : seen key false fields = true <-> key ∈ map fst fields.
Proof.
  unfold seen. cbn. rewrite existsb_exists, list_elem_of_fmap. split.
  - intros (f & Hf & E%bool_decide_eq_true). exists f. split; [done|by apply list_elem_of_In].
  - intros (f & -> & Hf). exists f. split; [by apply list_elem_of_In|by apply bool_decide_eq_true_2].
Qed.

(** An attestation is printable, apart from its newlines. *)
Definition text_byte (b : byte) : bool := byte_in 33 126 b || Byte.eqb b NEWLINE.

Lemma key_text b : is_any_key_byte b = true -> text_byte b = true.
Proof. destruct b; vm_compute; done. Qed.
Lemma field_text b : is_field_byte b = true -> text_byte b = true.
Proof. unfold is_field_byte, text_byte. rewrite andb_true_iff. by intros [-> _]. Qed.

Lemma join_text lines : Forall (Forall (fun b => text_byte b = true)) lines -> Forall (fun b => text_byte b = true) (join NEWLINE lines).
Proof.
  induction 1 as [|line lines Hl Hls IH]; [constructor|]. destruct lines as [|next lines]; [done|]. rewrite join_cons by done.
  apply Forall_app. split; [done|]. by constructor.
Qed.

Lemma field_line_text f : valid_field f -> Forall (fun b => text_byte b = true) (field_line f).
Proof.
  intros [Hk Hv]. unfold field_line. apply Forall_app. split.
  - apply is_key_bytes in Hk. eapply Forall_impl; [exact Hk|]. apply key_text.
  - constructor; [done|]. unfold is_field in Hv. apply andb_true_iff in Hv as [_ Hv]. apply Forall_forall. intros b Hb.
    rewrite forallb_forall in Hv. apply field_text, Hv. by apply list_elem_of_In.
Qed.

Lemma environment_lines_start lines n flags previous :
  try_fold environment_line (None, O, (false, false, false)) lines = Ok (previous, n, flags) /\ (n =? 0)%nat = false
    /\ flags = (true, true, true)
  <-> exists fields, lines = map field_line fields /\ environment fields
        /\ (previous, n, flags) = (List.last (map (fun f => Some f.1) fields) None, List.length fields, (true, true, true)).
Proof.
  rewrite environment_lines. cbn [fst snd Nat.add]. split.
  - intros [(fields & -> & Hf & [Hs _] & [= -> -> Hflags]) [_ ->]]. exists fields. split; [done|]. injection Hflags as Ha Ho Hp.
    split; [|done]. split; [done|done|]. intros key Hkey.
    rewrite !elem_of_cons in Hkey. destruct Hkey as [->|[->|[->|Hkey%not_elem_of_nil]]]; [..|done]; apply seen_false; by unfold seen.
  - intros (fields & -> & [Hf Hs Hr] & [= -> -> ->]). assert (Hs' : forall key, key ∈ [ARCH; OS; PROFILE] -> seen key false fields = true).
    { intros key Hkey. by apply seen_false, Hr. }
    split; [|split; [|done]].
    + exists fields. split; [done|]. split; [done|]. split; [split; [done|by intros]|]. rewrite !Hs' by (rewrite !elem_of_cons; tauto). done.
    + destruct fields as [|f fields]; [|done]. exfalso. apply (not_elem_of_nil ARCH), (Hr ARCH). by left.
Qed.

Lemma attestation_lines fields : environment fields ->
  split_at NEWLINE (attestation fields) = as_bytes ENVIRONMENT_GRAMMAR :: map field_line fields.
Proof.
  intros [Hf _ _]. unfold attestation. apply split_at_join; [|done]. constructor; [by repeat constructor|].
  apply Forall_map. eapply Forall_impl; [exact Hf|]. intros f Hv. by apply field_line_lacks.
Qed.

(** The text of an environment passes the checks on its bytes. *)
Lemma attestation_text fields : environment fields ->
  attestation fields <> [] /\ Byte.eqb (List.last (attestation fields) x00) NEWLINE = false
  /\ existsb (Byte.eqb CARRIAGE_RETURN) (attestation fields) = false /\ forallb is_ascii_byte (attestation fields) = true.
Proof.
  intros He. assert (Ht : Forall (fun b => text_byte b = true) (attestation fields)).
  { unfold attestation. apply join_text. constructor; [by repeat constructor|]. apply Forall_map.
    eapply Forall_impl; [apply He|]. apply field_line_text. }
  split; [|split; [|split]].
  - intros E. pose proof (attestation_lines fields He) as Hl. rewrite E in Hl. cbn in Hl. by injection Hl.
  - destruct (Byte.eqb (List.last (attestation fields) x00) NEWLINE) eqn:E; [|done]. exfalso. apply byte_eqb_eq in E.
    destruct He as [Hf _ Hr]. assert (Hne : fields <> []) by (intros ->; apply (not_elem_of_nil ARCH), (Hr ARCH); by left).
    destruct (exists_last Hne) as (fields' & f & ->). apply Forall_app in Hf as [_ Hf].
    apply Forall_cons in Hf as [[_ Hv] _]. unfold attestation in E. rewrite map_app in E. cbn [map] in E.
    assert (Hlast : forall lines line, List.last line x00 <> NEWLINE -> line <> [] -> List.last (join NEWLINE (lines ++ [line])) x00 <> NEWLINE).
    { clear. intros lines line Hl Hne. induction lines as [|l lines IH]; [done|]. cbn [app]. rewrite join_cons by by destruct lines.
      assert (Hj : join NEWLINE (lines ++ [line]) <> []).
      { destruct lines as [|m lines]; [done|]. cbn [app]. rewrite join_cons by by destruct lines. by destruct m. }
      intros E. apply IH. etransitivity; [|exact E]. destruct (join NEWLINE (lines ++ [line])) as [|b r]; [done|].
      change (l ++ NEWLINE :: b :: r) with (l ++ [NEWLINE] ++ b :: r). rewrite app_assoc. clear. generalize (l ++ [NEWLINE]) as k.
      induction k as [|c k IHk]; [done|]. rewrite IHk. cbn [app]. by destruct k. }
    revert E. change (as_bytes ENVIRONMENT_GRAMMAR :: map field_line fields' ++ [field_line f])
      with ((as_bytes ENVIRONMENT_GRAMMAR :: map field_line fields') ++ [field_line f]). apply Hlast.
    + unfold field_line. unfold is_field in Hv. apply andb_true_iff in Hv as [Hnil Hv].
      apply negb_true_iff, bool_decide_eq_false in Hnil. destruct (exists_last Hnil) as (v & b & E). rewrite E. rewrite E in Hv.
      rewrite app_comm_cons, app_assoc, List.last_last. rewrite forallb_app in Hv. apply andb_true_iff in Hv as [_ Hv]. cbn in Hv.
      apply (field_byte_not b NEWLINE); [|done]. by destruct (is_field_byte b).
    + unfold field_line. by destruct f.1.
  - apply not_true_iff_false. rewrite existsb_exists. intros (b & Hb & E). apply byte_eqb_eq in E as <-.
    rewrite Forall_forall in Ht. specialize (Ht CARRIAGE_RETURN (proj2 (list_elem_of_In _ _) Hb)). discriminate Ht.
  - apply forallb_forall. intros b Hb. rewrite Forall_forall in Ht. specialize (Ht b (proj2 (list_elem_of_In _ _) Hb)).
    revert Ht. clear. destruct b; vm_compute; done.
Qed.

Lemma attestation_inj fields fields' : environment fields -> environment fields' -> attestation fields = attestation fields' -> fields = fields'.
Proof.
  intros He He' E. pose proof (attestation_lines fields He) as Hl. rewrite E, attestation_lines in Hl by done. injection Hl as Hl.
  destruct He as [Hf _ _], He' as [Hf' _ _]. clear E. revert fields' Hf' Hl.
  induction Hf as [|f fields [Hk _] _ IH]; intros [|f' fields'] Hf' Hl; [done|done|done|]. cbn in Hl. injection Hl as Hfl Hl.
  apply Forall_cons in Hf' as [[Hk' _] Hf']. f_equal; [|by apply IH].
  assert (Es : split_once EQUALS (field_line f) = Some f) by (destruct f; apply split_once_Some; split; [done|by apply is_key_lacks]).
  assert (Es' : split_once EQUALS (field_line f') = Some f') by (destruct f'; apply split_once_Some; split; [done|by apply is_key_lacks]).
  rewrite <- Hfl, Es' in Es. by injection Es.
Qed.

Lemma environment_digest_iff `{Sha256} value h :
  canonical_environment_digest value = Ok h <->
  exists fields, environment fields /\ as_bytes value = attestation fields /\ h = digest (as_bytes value).
Proof.
  unfold canonical_environment_digest. split.
  - intros E. destruct (_ || negb (is_ascii value)); [done|].
    destruct (split_at NEWLINE (as_bytes value)) as [|first lines] eqn:Es; [done|].
    destruct (negb (bool_decide _)) eqn:Ef in E; [done|]. apply negb_false_iff, bool_decide_eq_true in Ef as ->.
    apply bind_Ok in E as ([[previous n] [[a o] p]] & Ef & E). destruct (_ || negb p) eqn:Eg in E; [done|]. injection E as <-.
    rewrite !orb_false_iff, !negb_false_iff in Eg. destruct Eg as [[[En ->] ->] ->].
    destruct (proj1 (environment_lines_start lines n (true, true, true) previous) (conj Ef (conj En eq_refl))) as (fields & -> & He & _).
    exists fields. split; [done|]. split; [|done]. unfold attestation. rewrite <- Es. symmetry. apply join_split_at.
  - intros (fields & He & Ev & ->). unfold is_ascii. rewrite Ev. destruct (attestation_text fields He) as (Hne & -> & -> & ->).
    rewrite bool_decide_eq_false_2 by done. cbn [orb negb]. rewrite attestation_lines by done. rewrite bool_decide_eq_true_2 by done. cbn [negb].
    destruct (proj2 (environment_lines_start (map field_line fields) (List.length fields) (true, true, true)
      (List.last (map (fun f => Some f.1) fields) None))) as (Ef & En & _); [by exists fields|].
    rewrite Ef. cbn [mbind Result_bind]. by rewrite En.
Qed.

(** The worker accepts an environment attestation exactly when it is the canonical text of an
    environment - the line that names the grammar, then one line per field, of a lower-case key and a
    printable value, with strictly increasing keys that include the architecture, the operating system and
    the build profile - and its digest stands for that environment: two environments with one digest are
    the same, or SHA-256 collides. *)
Theorem environment_attestation_canonical `{Sha256} :
  (forall value h, canonical_environment_digest value = Ok h <->
     exists fields, environment fields /\ as_bytes value = attestation fields /\ h = digest (as_bytes value))
  /\ (forall value value' fields fields' h, canonical_environment_digest value = Ok h -> canonical_environment_digest value' = Ok h ->
     environment fields -> as_bytes value = attestation fields -> environment fields' -> as_bytes value' = attestation fields' ->
     fields = fields' \/ collision).
Proof.
  split; [intros; apply environment_digest_iff|]. intros value value' fields fields' h E E' He Ev He' Ev'.
  apply environment_digest_iff in E as (_ & _ & _ & ->). apply environment_digest_iff in E' as (_ & _ & _ & E').
  destruct (digest_inj _ _ E') as [Eb|]; [|by right]. left. apply attestation_inj; [done|done|]. by rewrite <- Ev, <- Ev'.
Qed.

(** ** Derived ids are canonical *)

Lemma length_crockford n value : List.length (crockford n value) = n.
Proof. revert value. induction n as [|n IH]; intros value; [done|]. cbn. rewrite length_app, IH. cbn. lia. Qed.

(** What the [ulid] crate documents: 26 upper-case Crockford digits, the first at most 7, are the text of a
    ULID, and that is its canonical text. *)
Class UlidCrateLaws `{UlidCrate} : Prop :=
  ulid_canonical : forall text, List.length (as_bytes text) = 26%nat ->
    Forall (fun b => b ∈ CROCKFORD) (as_bytes text) ->
    (forall b, head (as_bytes text) = Some b -> b ∈ take 8 CROCKFORD) ->
    exists value, ulid_parse text = Some value /\ ulid_to_string value = text.

Lemma crockford_elem value : nth (Z.to_nat (Z.land value 31)) CROCKFORD x30 ∈ CROCKFORD.
Proof.
  apply list_elem_of_In, nth_In. change (List.length CROCKFORD) with 32%nat. change 31 with (Z.ones 5). rewrite Z.land_ones by lia.
  pose proof (Z.mod_pos_bound value (2 ^ 5) ltac:(lia)). lia.
Qed.

Lemma crockford_digits n value : Forall (fun b => b ∈ CROCKFORD) (crockford n value).
Proof.
  revert value. induction n as [|n IH]; intros value; [constructor|]. cbn. apply Forall_app. split; [apply IH|].
  constructor; [apply crockford_elem|constructor].
Qed.

Lemma crockford_head n value : 0 <= value -> head (crockford (S n) value)
  = Some (nth (Z.to_nat (value / 2 ^ (5 * Z.of_nat n) mod 32)) CROCKFORD x30).
Proof.
  revert value. induction n as [|n IH]; intros value Hv.
  - cbn [crockford app head]. change 31 with (Z.ones 5). rewrite Z.land_ones by lia. by rewrite Z.div_1_r.
  - assert (E : crockford (S (S n)) value = crockford (S n) (Z.shiftr value 5) ++ [nth (Z.to_nat (Z.land value 31)) CROCKFORD x30]) by done.
    rewrite E. assert (Hs : Z.shiftr value 5 = value / 2 ^ 5) by (rewrite Z.shiftr_div_pow2; lia). rewrite Hs.
    specialize (IH (value / 2 ^ 5) ltac:(apply Z.div_pos; lia)). rewrite Z.div_div in IH by lia. rewrite <- Z.pow_add_r in IH by lia.
    replace (5 + 5 * Z.of_nat n) with (5 * Z.of_nat (S n)) in IH by lia.
    destruct (crockford (S n) (value / 2 ^ 5)) as [|b l] eqn:El; [|done]. apply (f_equal (@List.length byte)) in El.
    by rewrite length_crockford in El.
Qed.

(** Deriving an id never panics. *)
Lemma derived_id_total `{UlidCrateLaws} `{Sha256Laws} domain parts :
  exists id, derived_id domain parts = Some id /\ wf_ulid id
    /\ as_bytes (ulid_str id) = crockford 26 (from_be_bytes (take 16 (hash_bytes (digest (derived_bytes domain parts))))).
Proof.
  unfold derived_id. set (value := from_be_bytes _). set (text := string_of_list_byte (crockford 26 value)).
  assert (Hb : as_bytes text = crockford 26 value) by apply as_bytes_of_bytes.
  assert (Hr : 0 <= value < 2 ^ 128).
  { unfold value, digest. cbn [hash_bytes]. pose proof (from_be_bytes_range (take 16 (sha256 (derived_bytes domain parts)))) as Hr.
    rewrite length_take, sha256_length in Hr. exact Hr. }
  destruct (ulid_canonical text) as (v & Ep & Et).
  - by rewrite Hb, length_crockford.
  - rewrite Hb. apply crockford_digits.
  - intros b. rewrite Hb, crockford_head by lia. intros [= <-]. apply list_elem_of_In.
    assert (Hq : 0 <= value / 2 ^ (5 * Z.of_nat 25) < 8) by (split; [apply Z.div_pos; lia|apply Z.div_lt_upper_bound; lia]).
    rewrite Z.mod_small by lia. set (q := Z.to_nat (value / 2 ^ (5 * Z.of_nat 25))). assert (Hq' : (q < 8)%nat) by lia. clearbody q.
    do 8 (destruct q as [|q]; [by repeat (first [left; reflexivity|right])|]). lia.
  - assert (En : ulid_new text = Ok (mk_ulid text)).
    { unfold ulid_new. rewrite Ep. cbn [ok_or mbind Result_bind]. unfold str_len. rewrite <- length_as_bytes, Hb, length_crockford, Et.
      rewrite bool_decide_eq_true_2 by done. unfold is_ascii. rewrite Hb.
      assert (Ha : forallb is_ascii_byte (crockford 26 value) = true); [|by rewrite Ha].
      apply forallb_forall. intros b Hin. pose proof (crockford_digits 26 value) as Hd. rewrite Forall_forall in Hd.
      specialize (Hd b (proj2 (list_elem_of_In _ _) Hin)). apply list_elem_of_In in Hd.
      assert (Hc : forallb is_ascii_byte CROCKFORD = true) by reflexivity. rewrite forallb_forall in Hc. by apply Hc. }
    rewrite En. exists (mk_ulid text). split; [done|]. split; [|done]. exact En.
Qed.

(** ** A concrete environment *)

Definition sample_fields : list EnvironmentField :=
  [(ARCH, as_bytes "x86_64"); (OS, as_bytes "linux"); (PROFILE, as_bytes "release")].
Definition sample_attestation : string := string_of_list_byte (attestation sample_fields).

Section example.
Local Existing Instance sample_sha256.

Example sample_attestations :
  is_ok (canonical_environment_digest sample_attestation) = true
  /\ is_ok (canonical_environment_digest (string_of_list_byte (attestation (rev sample_fields)))) = false
  /\ is_ok (canonical_environment_digest (string_of_list_byte (attestation (take 2 sample_fields)))) = false.
Proof. vm_compute. done. Qed.

Lemma environment_attestation_canonical_witness :
  exists h fields, canonical_environment_digest sample_attestation = Ok h /\ environment fields
    /\ as_bytes sample_attestation = attestation fields /\ (fields = fields \/ collision).
Proof.
  assert (V : is_ok (canonical_environment_digest sample_attestation) = true) by (vm_compute; reflexivity). revert V.
  destruct (canonical_environment_digest sample_attestation) as [h|] eqn:E; [|discriminate]. intros _.
  destruct environment_attestation_canonical as [Hiff Hid].
  destruct (proj1 (Hiff _ _) E) as (fields & He & Eb & _). exists h, fields. split; [reflexivity|]. split; [exact He|]. split; [exact Eb|].
  apply (Hid _ _ fields fields h E E He Eb He Eb).
Defined.
End example.
