(* ===== verification/WorkerLoop.v ===== *)
(** * The worker: its loops

    [run_claimed] and [run_worker] of [binaries/ficant-worker/src/lib.rs]. One claimed task is a machine whose
    events are the replies of the backend, the passing of time and the timers that [tokio::select!] waits
    for, in any order ([handle], [run], [step]); [select!] polls its branches in a random order, so that any
    branch that is ready may be the one taken. The loop around it is a function of what each turn
    observes ([worker_turn], [run_worker]). *)

From Stdlib Require Import ZArith Lia Strings.String.
From Stdlib Require Import Strings.Byte.
From stdpp Require Import base list option strings numbers sorting relations.
From S2P Require Import Prelude Machine Collections Primitives Codec Concrete Digits ResearchGraph GraphOrder GraphWiring GraphConstruction RunJournal Runtime Evidence NativeIdentity NativeRegistry Worker.
Open Scope Z_scope.

(** [Instant], as nanoseconds: its sum with a [Duration] panics when the seconds leave [i64]. *)
Definition in_instant (t : Z) : bool := in_range (- 2 ^ 63 * 1000000000) (2 ^ 63 * 1000000000) t.
Definition instant_add (t duration : Z) : option Z := checked in_instant (t + duration).

(** ** One claimed task *)

Section claimed.
Context `{Sha256} `{WorkerBuild}.

(** What the backend's stages hand on: prepared inputs, an executed node, a prepared publication and a
    completion. The loop only passes them from one stage to the next. *)
Context {Inputs Executed Publication Completion : Type}.
Context (config : WorkerConfig) (task : ClaimedTask).

(** The calls of the backend, with the arguments that differ from call to call. *)
Inductive BackendCall :=
| CallLoad
| CallBegin
| CallReadInputs
| CallExecute (inputs : Inputs)
| CallPrepare (execution : Executed)
| CallPromote (publication : Publication)
| CallRenew (seconds : Z)
| CallComplete (completion : Completion)
| CallFail (failure : ContentHash).

(** The future [work]: not polled yet, or waiting for one of its calls. *)
Inductive Work := Unpolled | Reading | Executing | Preparing | Promoting.

Inductive Phase :=
| Loading
| Beginning
| Selecting (work : Work) (deadline next_renewal : Z)
| Renewing (work : Work) (deadline : Z)
| Completing
| Reporting (error : WorkerError)
| Returned (result : WorkerResult unit)
| Panicked.

Record TaskRun := { now : Z; phase : Phase; calls : list BackendCall }.

Inductive Event :=
| Elapse (duration : Z)
| Loaded (reply : WorkerResult LoadedTask)
| Begun (reply : WorkerResult unit)
| WorkPolled
| InputsRead (reply : WorkerResult Inputs)
| NodeExecuted (reply : WorkerResult Executed)
| PublicationPrepared (reply : WorkerResult Publication)
| Promoted (reply : WorkerResult Completion)
| RenewalDue
| Renewed (reply : WorkerResult unit)
| DeadlineReached
| Completed (reply : WorkerResult unit)
| FailureReported (reply : WorkerResult unit).

Definition enter (m : TaskRun) (p : Phase) : TaskRun := {| now := now m; phase := p; calls := calls m |}.
Definition invoke (m : TaskRun) (call : BackendCall) (p : Phase) : TaskRun :=
  {| now := now m; phase := p; calls := calls m ++ [call] |}.

(** After the [select!] loop. *)
Definition conclude (m : TaskRun) (result : WorkerResult Completion) : TaskRun :=
  match result with
  | Ok completion => invoke m (CallComplete completion) Completing
  | Err error =>
      if negb (worker_retryable error) then invoke m (CallFail (failure_hash error)) (Reporting error)
      else enter m (Returned (Err error))
  end.

(** One stage of [work]: its reply starts the next one or ends the loop. *)
Definition stage {A} (m : TaskRun) (reply : WorkerResult A) (call : A -> BackendCall) (next : Work) (deadline next_renewal : Z) : TaskRun :=
  match reply with
  | Ok value => invoke m (call value) (Selecting next deadline next_renewal)
  | Err error => conclude m (Err error)
  end.

(** [None]: the event cannot happen here. *)
Definition handle (m : TaskRun) (e : Event) : option TaskRun :=
  match phase m, e with
  | (Returned _ | Panicked), _ => None
  | _, Elapse duration =>
      if 0 <? duration then Some {| now := now m + duration; phase := phase m; calls := calls m |} else None
  | Loading, Loaded (Err error) => Some (enter m (Returned (Err error)))
  | Loading, Loaded (Ok loaded) =>
      match validate_loaded task loaded config with
      | Ok _ => Some (invoke m CallBegin Beginning)
      | Err error => Some (enter m (Returned (Err error)))
      end
  | Beginning, Begun (Err error) => Some (enter m (Returned (Err error)))
  | Beginning, Begun (Ok _) =>
      match instant_add (now m) (node_timeout config), instant_add (now m) (renew_interval config) with
      | Some deadline, Some next_renewal => Some (enter m (Selecting Unpolled deadline next_renewal))
      | _, _ => Some (enter m Panicked)
      end
  | Selecting Unpolled deadline next_renewal, WorkPolled => Some (invoke m CallReadInputs (Selecting Reading deadline next_renewal))
  | Selecting Reading deadline next_renewal, InputsRead reply => Some (stage m reply CallExecute Executing deadline next_renewal)
  | Selecting Executing deadline next_renewal, NodeExecuted reply => Some (stage m reply CallPrepare Preparing deadline next_renewal)
  | Selecting Preparing deadline next_renewal, PublicationPrepared reply =>
      Some (stage m reply CallPromote Promoting deadline next_renewal)
  | Selecting Promoting _ _, Promoted reply => Some (conclude m reply)
  | Selecting work deadline next_renewal, RenewalDue =>
      if now m <? next_renewal then None else
      match lease_seconds config with
      | Ok seconds => Some (invoke m (CallRenew seconds) (Renewing work deadline))
      | Err error => Some (enter m (Returned (Err error)))
      end
  | Selecting _ deadline _, DeadlineReached => if now m <? deadline then None else Some (conclude m (Err TimedOut))
  | Renewing work deadline, Renewed (Ok _) =>
      match instant_add (now m) (renew_interval config) with
      | Some next_renewal => Some (enter m (Selecting work deadline next_renewal))
      | None => Some (enter m Panicked)
      end
  | Renewing _ _, Renewed (Err error) => Some (conclude m (Err error))
  | Completing, Completed reply => Some (enter m (Returned reply))
  | Reporting error, FailureReported (Ok _) => Some (enter m (Returned (Err error)))
  | Reporting _, FailureReported (Err error) => Some (enter m (Returned (Err error)))
  | _, _ => None
  end.

(** [run_claimed] at an instant, up to its first call. *)
Definition run_claimed (start : Z) : TaskRun :=
  match config_validate config with
  | Ok _ => {| now := start; phase := Loading; calls := [CallLoad] |}
  | Err error => {| now := start; phase := Returned (Err error); calls := [] |}
  end.

Fixpoint run (m : TaskRun) (events : list Event) : option TaskRun :=
  match events with
  | [] => Some m
  | e :: events => m' ← handle m e; run m' events
  end.

Definition step (m m' : TaskRun) : Prop := exists e, handle m e = Some m'.
Definition reachable (start : Z) : TaskRun -> Prop := rtc step (run_claimed start).

(** ** What a claimed task does *)

(** The stages of a task, in their order; a conclusion comes last. *)
Definition stage_number (call : BackendCall) : nat :=
  match call with
  | CallLoad => 0 | CallBegin => 1 | CallReadInputs => 2 | CallExecute _ => 3 | CallPrepare _ => 4 | CallPromote _ => 5
  | CallComplete _ => 6 | CallFail _ => 7 | CallRenew _ => 8
  end.

Definition is_renewal (call : BackendCall) : bool := match call with CallRenew _ => true | _ => false end.
Definition stages (calls : list BackendCall) : list BackendCall := List.filter (fun call => negb (is_renewal call)) calls.
Definition renewals (calls : list BackendCall) : list BackendCall := List.filter is_renewal calls.

Lemma run_app m events e : run m (events ++ [e]) = (m' ← run m events; handle m' e).
Proof.
  revert m. induction events as [|e' events IH]; intros m; cbn.
  - destruct (handle m e); reflexivity.
  - destruct (handle m e') as [m'|]; cbn; [apply IH|done].
Qed.

Lemma run_append m a b m' : run m a = Some m' -> run m (a ++ b) = run m' b.
Proof.
  revert m. induction a as [|e a IH]; intros m; cbn; [by intros [= ->]|]. destruct (handle m e) as [m1|]; [apply IH|done].
Qed.

Lemma stages_app a b : stages (a ++ b) = stages a ++ stages b.
Proof. apply List.filter_app. Qed.
Lemma renewals_app a b : renewals (a ++ b) = renewals a ++ renewals b.
Proof. apply List.filter_app. Qed.

(** The stages a waiting task has called. *)
Definition stage_count (w : Work) : nat :=
  match w with Unpolled => 2 | Reading => 3 | Executing => 4 | Preparing => 5 | Promoting => 6 end.

(** The first [n] stages were called, once each and in order. *)
Definition waits_at (n : nat) (calls : list BackendCall) : Prop := map stage_number (stages calls) = seq 0 n.

Definition completed_by (completion : Completion) (calls : list BackendCall) : Prop :=
  exists before, stages calls = before ++ [CallComplete completion] /\ map stage_number before = seq 0 6.

(** The events that end the loop with an error. *)
Definition failing (e : Event) (error : WorkerError) : Prop :=
  e = InputsRead (Err error) \/ e = NodeExecuted (Err error) \/ e = PublicationPrepared (Err error) \/ e = Promoted (Err error)
  \/ e = Renewed (Err error) \/ (e = DeadlineReached /\ error = TimedOut).

(** An error of the loop that is not retryable was handed to the backend, as the last call. *)
Definition closed_by (events : list Event) (error : WorkerError) (calls : list BackendCall) : Prop :=
  worker_retryable error = false /\ (exists e, e ∈ events /\ failing e error) /\ exists before n, (2 <= n <= 6)%nat
    /\ stages calls = before ++ [CallFail (failure_hash error)] /\ map stage_number before = seq 0 n.

(** The event with which a task returns, after the events before it: the calls that were made by then, and
    the result that this event decides. *)
Inductive settles (before : list Event) (calls : list BackendCall) : Event -> WorkerResult unit -> Prop :=
| not_loaded error : waits_at 1 calls -> settles before calls (Loaded (Err error)) (Err error)
| not_valid loaded error :
    waits_at 1 calls -> validate_loaded task loaded config = Err error -> settles before calls (Loaded (Ok loaded)) (Err error)
| not_begun error : waits_at 2 calls -> settles before calls (Begun (Err error)) (Err error)
| no_lease n error :
    (2 <= n <= 6)%nat -> waits_at n calls -> lease_seconds config = Err error -> settles before calls RenewalDue (Err error)
| may_retry n e error :
    (2 <= n <= 6)%nat -> waits_at n calls -> failing e error -> worker_retryable error = true -> settles before calls e (Err error)
| was_completed completion reply : completed_by completion calls -> settles before calls (Completed reply) reply
| was_reported error : closed_by before error calls -> settles before calls (FailureReported (Ok tt)) (Err error)
| not_reported reported error : closed_by before reported calls -> settles before calls (FailureReported (Err error)) (Err error).

(** The events after which an instant overflows. *)
Definition overflows (m : TaskRun) (e : Event) : Prop :=
  (e = Begun (Ok tt) /\ (instant_add (now m) (node_timeout config) = None \/ instant_add (now m) (renew_interval config) = None))
  \/ (e = Renewed (Ok tt) /\ instant_add (now m) (renew_interval config) = None).

(** The calls that a phase has behind it. *)
Definition behind (events : list Event) (m : TaskRun) : Prop :=
  match phase m with
  | Loading => waits_at 1 (calls m)
  | Beginning => waits_at 2 (calls m)
  | Selecting w _ _ | Renewing w _ => waits_at (stage_count w) (calls m)
  | Completing => exists completion, completed_by completion (calls m)
  | Reporting error => closed_by events error (calls m)
  | Returned result =>
      (events = [] /\ calls m = [] /\ exists error, result = Err error /\ config_validate config = Err error)
      \/ exists before e, events = before ++ [e] /\ settles before (calls m) e result
  | Panicked => (exists n, (n <= 6)%nat /\ waits_at n (calls m)) /\ exists before e, events = before ++ [e] /\ overflows m e
  end.

Lemma waits_more n calls call : waits_at n calls -> stage_number call = n -> (n <= 5)%nat -> waits_at (S n) (calls ++ [call]).
Proof.
  intros Hw <- Hn. unfold waits_at in *. rewrite stages_app, map_app, Hw, seq_S. f_equal.
  unfold stages. destruct call; try reflexivity; cbn in Hn; lia.
Qed.

Lemma waits_renew n calls seconds : waits_at n calls -> waits_at n (calls ++ [CallRenew seconds]).
Proof. intros E. unfold waits_at. by rewrite stages_app, app_nil_r. Qed.

Lemma closed_by_later events e error calls : closed_by events error calls -> closed_by (events ++ [e]) error calls.
Proof. intros (Hr & (x & Hx & Hf) & Hs). split; [done|]. split; [|done]. exists x. split; [apply elem_of_app; by left|done]. Qed.

Lemma returned_by events e m result : settles events (calls m) e result -> behind (events ++ [e]) (enter m (Returned result)).
Proof. intros Hs. right. by exists events, e. Qed.

Lemma behind_conclude events e m w reply :
  waits_at (stage_count w) (calls m) ->
  match reply with Ok _ => w = Promoting | Err error => failing e error end -> behind (events ++ [e]) (conclude m reply).
Proof.
  intros E Hw. assert (Hn : (2 <= stage_count w <= 6)%nat) by (destruct w; cbn; lia). unfold conclude. destruct reply as [completion|error].
  - subst w. cbn. exists completion, (stages (calls m)). by rewrite stages_app.
  - destruct (worker_retryable error) eqn:Er; cbn [negb].
    + apply returned_by. by apply (may_retry _ _ (stage_count w)).
    + cbn. split; [done|]. split; [exists e; split; [apply elem_of_app; right; by apply list_elem_of_singleton|done]|].
      exists (stages (calls m)), (stage_count w). split; [done|]. by rewrite stages_app.
Qed.

Lemma behind_stage {A} events e m w (reply : WorkerResult A) call next deadline next_renewal :
  waits_at (stage_count w) (calls m) -> stage_count next = S (stage_count w) ->
  (forall a, reply = Ok a -> waits_at (S (stage_count w)) (calls m ++ [call a])) ->
  (forall error, reply = Err error -> failing e error) ->
  behind (events ++ [e]) (stage m reply call next deadline next_renewal).
Proof.
  intros Hw Hn Hc He. unfold stage. destruct reply as [a|error].
  - cbn. rewrite Hn. by apply Hc.
  - apply behind_conclude with w; [done|]. by apply He.
Qed.

Lemma behind_elapse events m d : behind events m -> (forall r, phase m <> Returned r) -> phase m <> Panicked ->
  behind (events ++ [Elapse d]) {| now := now m + d; phase := phase m; calls := calls m |}.
Proof.
  unfold behind. cbn [phase calls]. destruct (phase m) as [| |w dl nr|w dl| |er|r|]; try done.
  - intros Hb _ _. by apply closed_by_later.
  - intros _ Hr. by destruct (Hr r).
Qed.

Lemma behind_select events m w dl nr e m' :
  phase m = Selecting w dl nr -> waits_at (stage_count w) (calls m) -> (forall d, e <> Elapse d) -> handle m e = Some m' ->
  behind (events ++ [e]) m'.
Proof.
  intros Ep Hb He Hh. destruct m as [t ph cs]. cbn [phase calls] in Ep, Hb. subst ph. unfold handle in Hh. cbn [phase now calls] in Hh.
  destruct e as [d|reply|reply| |reply|reply|reply|reply| |reply| |reply|reply]; try (destruct w; done); [by destruct (He d)|..].
  - destruct w; try done. apply (inj Some) in Hh as <-. apply (waits_more 2); [done|done|lia].
  - destruct w; try done. apply (inj Some) in Hh as <-. apply (behind_stage _ _ _ Reading); [done|done| |].
    + intros a _. apply (waits_more _ _ _ Hb); [done|cbn; lia].
    + intros error ->. by left.
  - destruct w; try done. apply (inj Some) in Hh as <-. apply (behind_stage _ _ _ Executing); [done|done| |].
    + intros a _. apply (waits_more _ _ _ Hb); [done|cbn; lia].
    + intros error ->. by right; left.
  - destruct w; try done. apply (inj Some) in Hh as <-. apply (behind_stage _ _ _ Preparing); [done|done| |].
    + intros a _. apply (waits_more _ _ _ Hb); [done|cbn; lia].
    + intros error ->. by right; right; left.
  - destruct w; try done. apply (inj Some) in Hh as <-. apply behind_conclude with Promoting; [done|].
    destruct reply as [c|error]; [done|]. by do 3 right; left.
  - assert (E : (if t <? nr then None else
        match lease_seconds config with
        | Ok seconds => Some (invoke {| now := t; phase := Selecting w dl nr; calls := cs |} (CallRenew seconds) (Renewing w dl))
        | Err error => Some (enter {| now := t; phase := Selecting w dl nr; calls := cs |} (Returned (Err error)))
        end) = Some m') by (by destruct w).
    destruct (t <? nr); [done|]. destruct (lease_seconds config) as [s|error] eqn:El; apply (inj Some) in E as <-.
    + by apply waits_renew.
    + apply returned_by. apply (no_lease _ _ (stage_count w)); [destruct w; cbn; lia|done|done].
  - assert (E : (if t <? dl then None else Some (conclude {| now := t; phase := Selecting w dl nr; calls := cs |} (Err TimedOut))) = Some m')
      by (by destruct w).
    destruct (t <? dl); [done|]. apply (inj Some) in E as <-. apply behind_conclude with w; [done|]. by do 5 right.
Qed.

Lemma behind_step events m e m' : behind events m -> handle m e = Some m' -> behind (events ++ [e]) m'.
Proof.
  intros Hb Hh. assert (Hd : (exists d, e = Elapse d) \/ forall d, e <> Elapse d) by (destruct e; naive_solver). destruct Hd as [[d ->]|Hd].
  { assert (E : (forall r, phase m <> Returned r) /\ phase m <> Panicked
      /\ m' = {| now := now m + d; phase := phase m; calls := calls m |}).
    { unfold handle in Hh. destruct (phase m) as [| |[] ? ?|? ?| |?|?|]; try done; destruct (0 <? d); try done; simplify_eq; by split_and!. }
    destruct E as (Hr & Hp & ->). by apply behind_elapse. }
  destruct (phase m) as [| |w dl nr|w dl| |er|r|] eqn:Ep.
  3: { apply (behind_select _ m w dl nr); try done. unfold behind in Hb. by rewrite Ep in Hb. }
  all: unfold behind in Hb; rewrite Ep in Hb; destruct m as [t ph cs]; cbn [phase] in Ep; subst ph; unfold handle in Hh; cbn [phase now calls] in Hb, Hh.
  - destruct e as [d|reply| | | | | | | | | | |]; try done; [by destruct (Hd d)|].
    destruct reply as [loaded|error]; [|apply (inj Some) in Hh as <-; apply returned_by; by apply not_loaded].
    destruct (validate_loaded task loaded config) as [u|error] eqn:Ev; apply (inj Some) in Hh as <-.
    + apply (waits_more 1); [done|done|lia].
    + apply returned_by. by apply not_valid.
  - destruct e as [d| |reply| | | | | | | | | |]; try done; [by destruct (Hd d)|].
    destruct reply as [[]|error]; [|apply (inj Some) in Hh as <-; apply returned_by; by apply not_begun].
    destruct (instant_add t (node_timeout config)) eqn:E1, (instant_add t (renew_interval config)) eqn:E2; apply (inj Some) in Hh as <-;
      [exact Hb|..]; (split; [by exists 2%nat; split; [lia|]|]; eexists _, _; split; [reflexivity|]; left; naive_solver).
  - destruct e as [d| | | | | | | | |reply| | |]; try done; [by destruct (Hd d)|].
    destruct reply as [[]|error].
    + destruct (instant_add t (renew_interval config)) eqn:E1; apply (inj Some) in Hh as <-; [exact Hb|].
      split; [exists (stage_count w); split; [destruct w; cbn; lia|exact Hb]|]. eexists _, _. split; [reflexivity|]. by right.
    + apply (inj Some) in Hh as <-. apply behind_conclude with w; [done|]. by do 4 right; left.
  - destruct e as [d| | | | | | | | | | |reply|]; try done; [by destruct (Hd d)|].
    apply (inj Some) in Hh as <-. destruct Hb as [c Hc]. apply returned_by. by apply (was_completed _ _ c).
  - destruct e as [d| | | | | | | | | | | |reply]; try done; [by destruct (Hd d)|].
    destruct reply as [[]|error]; apply (inj Some) in Hh as <-; apply returned_by; [by apply was_reported|by apply (not_reported _ _ er)].
  - done.
  - done.
Qed.

(** ** Where calls come from *)

(** A call is the answer to an event. *)
Definition answers (call : BackendCall) (e : Event) : Prop :=
  match call with
  | CallLoad => False
  | CallBegin => exists loaded, e = Loaded (Ok loaded) /\ validate_loaded task loaded config = Ok tt
  | CallReadInputs => e = WorkPolled
  | CallExecute inputs => e = InputsRead (Ok inputs)
  | CallPrepare execution => e = NodeExecuted (Ok execution)
  | CallPromote publication => e = PublicationPrepared (Ok publication)
  | CallRenew seconds => e = RenewalDue /\ lease_seconds config = Ok seconds
  | CallComplete completion => e = Promoted (Ok completion)
  | CallFail failure => exists error, worker_retryable error = false /\ failure = failure_hash error /\ failing e error
  end.

Definition grows (m m' : TaskRun) (e : Event) : Prop :=
  calls m' = calls m \/ exists call, calls m' = calls m ++ [call] /\ answers call e.

Lemma grows_conclude m m0 reply e :
  calls m = calls m0 -> match reply with Ok completion => e = Promoted (Ok completion) | Err error => failing e error end ->
  grows m0 (conclude m reply) e.
Proof.
  intros Ec Hr. unfold conclude, grows. destruct reply as [c|error].
  - right. exists (CallComplete c). cbn. by rewrite Ec.
  - destruct (worker_retryable error) eqn:Er; [by left|]. right. exists (CallFail (failure_hash error)). cbn. rewrite Ec. split; [done|].
    by exists error.
Qed.

Lemma grows_stage {A} m (reply : WorkerResult A) call next dl nr e :
  match reply with Ok a => answers (call a) e | Err error => failing e error end -> grows m (stage m reply call next dl nr) e.
Proof.
  intros Hr. unfold stage. destruct reply as [a|error]; [|by apply grows_conclude]. right. by exists (call a).
Qed.

Lemma handle_grows m e m' : handle m e = Some m' -> grows m m' e.
Proof.
  unfold handle. intros Hh. destruct m as [t ph cs]. cbn [phase now calls] in Hh.
  destruct ph as [| |w dl nr|w dl| |er|r|]; [..|done|done]; destruct e as [d|reply|reply| |reply|reply|reply|reply| |reply| |reply|reply];
    try destruct w; try done;
    repeat match goal with
    | Hh : (match ?x with _ => _ end) = Some _ |- _ => destruct x eqn:?; try done
    end;
    apply (inj Some) in Hh as <-;
    first [by left
          |apply grows_stage; destruct reply; unfold failing, answers; tauto
          |apply grows_conclude; [done|]; first [destruct reply; unfold failing; tauto|unfold failing; tauto]
          |right; eexists; split; [reflexivity|]; cbn; try done].
  match goal with u : unit |- _ => destruct u end. by eexists.
Qed.

(** ** The protocol *)

Definition concludes (call : BackendCall) : bool := match call with CallComplete _ | CallFail _ => true | _ => false end.

(** Before a renewal the task has begun, and nothing has been concluded. *)
Definition renewals_inside (calls : list BackendCall) : Prop :=
  forall a seconds b, calls = a ++ CallRenew seconds :: b -> CallBegin ∈ a /\ Forall (fun call => concludes call = false) a.

Lemma waits_begun n calls : (2 <= n <= 6)%nat -> waits_at n calls -> CallBegin ∈ calls /\ Forall (fun call => concludes call = false) calls.
Proof.
  intros Hn E. unfold waits_at in E. assert (Hin : forall call, call ∈ calls -> is_renewal call = true \/ (stage_number call < n)%nat).
  { intros call Hc. destruct (is_renewal call) eqn:Er; [by left|]. right.
    assert (Hs : stage_number call ∈ seq 0 n).
    { rewrite <- E. apply list_elem_of_In, in_map, filter_In. split; [by apply list_elem_of_In|by rewrite Er]. }
    apply list_elem_of_In, in_seq in Hs. lia. }
  split.
  - assert (Hb : In 1%nat (seq 0 n)) by (apply in_seq; lia). rewrite <- E in Hb. apply in_map_iff in Hb as (call & Ec & Hc).
    destruct call; try done. unfold stages in Hc. apply filter_In in Hc as [Hc _]. by apply list_elem_of_In.
  - apply Forall_forall. intros call Hc. destruct (Hin call Hc) as [Hr|Ht]; [by destruct call|]. destruct call; cbn in Ht |- *; (done || lia).
Qed.

Lemma renewals_inside_app events m e m' :
  behind events m -> handle m e = Some m' -> renewals_inside (calls m) -> renewals_inside (calls m').
Proof.
  intros Hb Hh Hr. destruct (handle_grows m e m' Hh) as [->|(call & E & Ha)]; [done|]. intros a seconds b Eq. rewrite E in Eq.
  destruct b as [|c b _] using rev_ind.
  - apply app_inj_tail in Eq as [<- ->]. destruct Ha as [-> _]. unfold handle in Hh.
    destruct (phase m) as [| |w dl nr| | | | |] eqn:Ep; try done. unfold behind in Hb. rewrite Ep in Hb.
    apply (waits_begun (stage_count w)); [destruct w; cbn; lia|done].
  - rewrite app_comm_cons, app_assoc in Eq. apply app_inj_tail in Eq as [Eq _]. by apply (Hr a seconds b).
Qed.

(** What holds after some events of a task whose configuration is valid. *)
Record history (events : list Event) (m : TaskRun) : Prop := {
  history_behind : behind events m;
  history_answers : forall call, call ∈ calls m -> call = CallLoad \/ exists e, e ∈ events /\ answers call e;
  history_renewals : renewals_inside (calls m)
}.

Lemma history_step events m e m' : history events m -> handle m e = Some m' -> history (events ++ [e]) m'.
Proof.
  intros [Hb Ha Hr] Hh. split; [by apply (behind_step events m)| |by apply (renewals_inside_app events m e)].
  intros call Hc. destruct (handle_grows m e m' Hh) as [E|(call' & E & Hans)]; rewrite E in Hc.
  - destruct (Ha call Hc) as [->|(e' & He & Hans)]; [by left|]. right. exists e'. split; [apply elem_of_app; by left|done].
  - apply elem_of_app in Hc as [Hc|Hc%list_elem_of_singleton].
    + destruct (Ha call Hc) as [->|(e' & He & Hans')]; [by left|]. right. exists e'. split; [apply elem_of_app; by left|done].
    + subst call'. right. exists e. split; [apply elem_of_app; right; by apply list_elem_of_singleton|done].
Qed.

Lemma history_run start events m : run (run_claimed start) events = Some m -> history events m.
Proof.
  revert m. induction events as [|e events IH] using rev_ind; intros m E.
  - injection E as <-. unfold run_claimed. destruct (config_validate config) as [u|error] eqn:Ev.
    + split; cbn.
      * done.
      * intros call Hc. apply elem_of_cons in Hc as [->|Hc%not_elem_of_nil]; [by left|done].
      * intros [|c a] s b Eq; [by injection Eq|]. injection Eq as _ Eq. by destruct a.
    + split; cbn.
      * left. split; [done|]. split; [done|]. by exists error.
      * by intros call Hc%not_elem_of_nil.
      * intros a s b Eq. by destruct a.
  - rewrite run_app in E. destruct (run (run_claimed start) events) as [m0|] eqn:E0; [|done]. by apply (history_step events m0 e m (IH m0 eq_refl)).
Qed.

(** The calls so far: some of the stages, or all of them and a completion, or some and a failure. *)
Definition shaped (events : list Event) (calls : list BackendCall) : Prop :=
  (exists n, (n <= 6)%nat /\ waits_at n calls) \/ (exists completion, completed_by completion calls)
  \/ (exists error, closed_by events error calls).

Lemma settles_shaped before e calls result : settles before calls e result -> shaped (before ++ [e]) calls.
Proof.
  destruct 1 as [er Hw|ld er Hw Hv|er Hw|n er Hn Hw Hl|n e er Hn Hw Hf Hr|c reply Hc|er Hc|rp er Hc].
  - left. exists 1%nat. split; [lia|done].
  - left. exists 1%nat. split; [lia|done].
  - left. exists 2%nat. split; [lia|done].
  - left. exists n. split; [lia|done].
  - left. exists n. split; [lia|done].
  - right; left. by exists c.
  - right; right. exists er. by apply closed_by_later.
  - right; right. exists rp. by apply closed_by_later.
Qed.

Lemma behind_shape events m : behind events m -> shaped events (calls m).
Proof.
  unfold behind. destruct (phase m) as [| |w dl nr|w dl| |er|result|].
  - intros Hw. left. exists 1%nat. split; [lia|done].
  - intros Hw. left. exists 2%nat. split; [lia|done].
  - intros Hw. left. exists (stage_count w). split; [destruct w; cbn; lia|done].
  - intros Hw. left. exists (stage_count w). split; [destruct w; cbn; lia|done].
  - intros Hc. by right; left.
  - intros Hc. right; right. by exists er.
  - intros [(-> & -> & _)|(before & e & -> & Hs)]; [left; exists O; split; [lia|done]|by apply settles_shaped in Hs].
  - intros [Hw _]. by left.
Qed.

(** ** Bounded work *)

(** Time does not pass over a timer that the loop waits for. *)
Definition prompt (m : TaskRun) (e : Event) : Prop :=
  match phase m, e with Selecting _ deadline next_renewal, Elapse duration => now m + duration <= Z.min deadline next_renewal | _, _ => True end.

Fixpoint prompt_run (m : TaskRun) (events : list Event) : Prop :=
  match events with
  | [] => True
  | e :: events => prompt m e /\ forall m', handle m e = Some m' -> prompt_run m' events
  end.

Lemma prompt_run_app m m' a b : run m a = Some m' -> prompt_run m a -> prompt_run m' b -> prompt_run m (a ++ b).
Proof.
  revert m. induction a as [|e a IH]; intros m; cbn; [by intros [= ->]|]. destruct (handle m e) as [m1|] eqn:Eh; [|done]. cbn.
  intros E [Hp Ha] Hb. split; [done|]. intros m2 [= <-]. apply IH; [done|by apply Ha|done].
Qed.

(** The same, as a computation. *)
Fixpoint is_prompt (m : TaskRun) (events : list Event) : bool :=
  match events with
  | [] => true
  | e :: events =>
      match phase m, e with
      | Selecting _ deadline next_renewal, Elapse duration => now m + duration <=? Z.min deadline next_renewal
      | _, _ => true
      end && match handle m e with Some m' => is_prompt m' events | None => true end
  end.

Lemma is_prompt_run m events : is_prompt m events = true -> prompt_run m events.
Proof.
  revert m. induction events as [|e events IH]; intros m; [done|]. cbn [is_prompt prompt_run]. rewrite andb_true_iff. intros [Hp He]. split.
  - unfold prompt. destruct (phase m), e; try done. by apply Z.leb_le.
  - intros m' E. rewrite E in He. by apply IH.
Qed.

Definition observed (e : Event) : bool := match e with Elapse _ => false | _ => true end.
Definition renewed (calls : list BackendCall) : Z := Z.of_nat (List.length (renewals calls)).

(** The renewals so far fit into the time for the node, and [n] events were needed to get here. *)
Definition paced (n : Z) (m : TaskRun) : Prop :=
  renewed (calls m) * renew_interval config <= node_timeout config
  /\ match phase m with
     | Loading => n <= 0 /\ renewed (calls m) = 0
     | Beginning => n <= 1 /\ renewed (calls m) = 0
     | Selecting w deadline next_renewal =>
         deadline - node_timeout config + (renewed (calls m) + 1) * renew_interval config <= next_renewal
         /\ (now m <= deadline \/ now m < next_renewal) /\ n <= Z.of_nat (stage_count w) + 2 * renewed (calls m)
     | Renewing w deadline =>
         deadline - node_timeout config + renewed (calls m) * renew_interval config <= now m
         /\ n <= Z.of_nat (stage_count w) + 2 * renewed (calls m) - 1
     | Completing | Reporting _ => n <= 7 + 2 * renewed (calls m)
     | Returned _ | Panicked => n <= 8 + 2 * renewed (calls m)
     end.

Lemma renewed_app calls call : renewed (calls ++ [call]) = renewed calls + (if is_renewal call then 1 else 0).
Proof. unfold renewed. rewrite renewals_app, length_app. unfold renewals at 2. destruct call; cbn; lia. Qed.

Lemma stage_count_le w : 2 <= Z.of_nat (stage_count w) <= 6.
Proof. destruct w; cbn; lia. Qed.

Lemma paced_conclude n m w reply :
  renewed (calls m) * renew_interval config <= node_timeout config -> n <= Z.of_nat (stage_count w) + 2 * renewed (calls m) ->
  paced (n + 1) (conclude m reply).
Proof.
  intros Hr Hn. pose proof (stage_count_le w). unfold conclude, paced.
  destruct reply as [c|error]; [|destruct (worker_retryable error)]; cbn; rewrite ?renewed_app; cbn; lia.
Qed.

Lemma paced_stage {A} n m w (reply : WorkerResult A) call next deadline next_renewal :
  paced n m -> phase m = Selecting w deadline next_renewal -> stage_count next = S (stage_count w) -> (forall a, is_renewal (call a) = false) ->
  paced (n + 1) (stage m reply call next deadline next_renewal).
Proof.
  intros Hp Ep Hn Hc. unfold paced in Hp. rewrite Ep in Hp. destruct Hp as (Hr & Hd & Ht & Hk). unfold stage. destruct reply as [a|error].
  - unfold paced. cbn. rewrite renewed_app, Hc, Z.add_0_r, Hn. lia.
  - by apply paced_conclude with w.
Qed.

Lemma paced_step n m e m' :
  0 < renew_interval config -> prompt m e -> paced n m -> handle m e = Some m' -> paced (n + (if observed e then 1 else 0)) m'.
Proof.
  intros Hi Hprompt Hp Hh. destruct m as [t ph cs]. assert (Hk : 0 <= renewed cs) by (unfold renewed; lia). pose proof Hp as Hp'. unfold paced in Hp'. unfold prompt in Hprompt. unfold handle in Hh.
  cbn [phase now calls] in Hh, Hp', Hprompt.
  destruct ph as [| |w dl nr|w dl| |er|r|]; [..|done|done]; destruct e as [d|reply|reply| |reply|reply|reply|reply| |reply| |reply|reply];
    try (destruct w; done); try done; cbn [observed].
  all: repeat match goal with
    | Hh : (match ?w with _ => _ end) = Some _ |- _ => is_var w; destruct w; try done
    | Hh : (match ?x with _ => _ end) = Some _ |- _ => destruct x eqn:?; try done
    end.
  all: apply (inj Some) in Hh as <-.
  all: try (by apply (paced_stage n _ Reading)); try (by apply (paced_stage n _ Executing)); try (by apply (paced_stage n _ Preparing)).
  all: try (apply (paced_conclude n _ Unpolled); cbn in *; lia); try (apply (paced_conclude n _ Reading); cbn in *; lia);
    try (apply (paced_conclude n _ Executing); cbn in *; lia); try (apply (paced_conclude n _ Preparing); cbn in *; lia);
    try (apply (paced_conclude n _ Promoting); cbn in *; lia).
  all: try (apply (paced_conclude n _ w); cbn in *; lia).
  all: unfold paced; cbn in *; rewrite ?renewed_app; cbn;
    repeat match goal with H : instant_add _ _ = Some _ |- _ => apply checked_Some in H as [_ ->] end;
    repeat match goal with H : (_ <? _) = _ |- _ => first [apply Z.ltb_lt in H|apply Z.ltb_ge in H] end.
  all: try (pose proof (stage_count_le w)); lia.
Qed.

Lemma paced_run m events m' n :
  0 < renew_interval config -> paced n m -> prompt_run m events -> run m events = Some m' ->
  paced (n + Z.of_nat (List.length (List.filter observed events))) m'.
Proof.
  intros Hi. revert m n. induction events as [|e events IH]; intros m n Hp Hpr E.
  - injection E as <-. by rewrite Z.add_0_r.
  - cbn in E. destruct (handle m e) as [m1|] eqn:Eh; [|done]. cbn in E, Hpr. destruct Hpr as [He Hpr].
    specialize (IH m1 _ (paced_step n m e m1 Hi He Hp Eh) (Hpr m1 Eh) E). cbn [List.filter].
    destruct (observed e); [|by rewrite Z.add_0_r in IH]. cbn [List.length].
    by replace (n + Z.of_nat (S (List.length (List.filter observed events)))) with (n + 1 + Z.of_nat (List.length (List.filter observed events))) by lia.
Qed.

Lemma bounded_run start events m :
  0 < renew_interval config -> 0 <= node_timeout config -> prompt_run (run_claimed start) events -> run (run_claimed start) events = Some m ->
  renewed (calls m) <= node_timeout config / renew_interval config
  /\ Z.of_nat (List.length (List.filter observed events)) <= 8 + 2 * (node_timeout config / renew_interval config).
Proof.
  intros Hi Ht Hp E. assert (Hs : paced 0 (run_claimed start)).
  { unfold run_claimed, paced, renewed. destruct (config_validate config); cbn; lia. }
  pose proof (paced_run _ events m 0 Hi Hs Hp E) as [Hr Hb].
  assert (Hd : renewed (calls m) <= node_timeout config / renew_interval config) by (apply Z.div_le_lower_bound; lia).
  split; [done|]. destruct (phase m) as [| |w dl nr|w dl| |er|r|]; try lia; pose proof (stage_count_le w); lia.
Qed.

(** ** The deadline *)

(** The instant at which the backend has begun the task, for events from an instant on. *)
Fixpoint begun_at (t : Z) (events : list Event) : option Z :=
  match events with
  | [] => None
  | Elapse duration :: events => begun_at (t + duration) events
  | Begun (Ok _) :: _ => Some t
  | _ :: events => begun_at t events
  end.

Fixpoint elapsed (events : list Event) : Z :=
  match events with [] => 0 | Elapse duration :: events => duration + elapsed events | _ :: events => elapsed events end.

Definition begins (e : Event) : bool := match e with Begun (Ok _) => true | _ => false end.

Lemma begun_at_snoc t events e :
  begun_at t (events ++ [e]) = match begun_at t events with
                               | Some b => Some b
                               | None => if begins e then Some (t + elapsed events) else None
                               end.
Proof.
  revert t. induction events as [|x events IH]; intros t.
  - rewrite Z.add_0_r. destruct e as [| |[]| | | | | | | | | |]; done.
  - destruct x as [d| |[]| | | | | | | | | |]; cbn; rewrite ?IH; try done. by rewrite Z.add_assoc.
Qed.

Lemma elapsed_snoc events e : elapsed (events ++ [e]) = elapsed events + match e with Elapse d => d | _ => 0 end.
Proof. induction events as [|x events IH]; [destruct e; cbn; lia|]. destruct x; cbn [elapsed app]; rewrite ?IH; lia. Qed.

(** The clock, and where the deadline comes from. *)
Record timed (start : Z) (events : list Event) (m : TaskRun) : Prop := {
  timed_now : now m = start + elapsed events;
  timed_deadline : forall w deadline, (exists next_renewal, phase m = Selecting w deadline next_renewal) \/ phase m = Renewing w deadline ->
    begun_at start events = Some (deadline - node_timeout config);
  timed_not_begun : phase m = Loading \/ phase m = Beginning -> begun_at start events = None;
  timed_late : DeadlineReached ∈ events -> exists b, begun_at start events = Some b /\ b + node_timeout config <= now m
}.

Lemma handle_now m e m' : handle m e = Some m' -> now m' = now m + match e with Elapse d => d | _ => 0 end.
Proof.
  unfold handle. intros Hh. destruct (phase m) as [| |[] ? ?|? ?| |?|?|], e as [d|reply|reply| |reply|reply|reply|reply| |reply| |reply|reply];
    try done;
    repeat match goal with Hh : (match ?x with _ => _ end) = Some _ |- _ => destruct x; try done end;
    apply (inj Some) in Hh as <-; unfold stage, conclude; repeat case_match; cbn; lia.
Qed.

(** The phases of the loop come from the loop, or from the beginning. *)
Lemma handle_phase m e m' : handle m e = Some m' ->
  (forall w deadline, (exists next_renewal, phase m' = Selecting w deadline next_renewal) \/ phase m' = Renewing w deadline ->
     (exists w', (exists next_renewal, phase m = Selecting w' deadline next_renewal) \/ phase m = Renewing w' deadline)
     \/ (phase m = Beginning /\ begins e = true /\ deadline = now m + node_timeout config))
  /\ (phase m' = Loading \/ phase m' = Beginning -> (phase m = Loading \/ phase m = Beginning) /\ begins e = false)
  /\ (e = DeadlineReached -> exists w deadline next_renewal, phase m = Selecting w deadline next_renewal /\ deadline <= now m).
Proof.
  unfold handle. intros Hh. destruct (phase m) as [| |[] dl nr|w dl| |er|r|] eqn:Ep,
      e as [d|reply|reply| |reply|reply|reply|reply| |reply| |reply|reply]; try done;
    repeat match goal with Hh : (match ?x with _ => _ end) = Some _ |- _ => destruct x eqn:?; try done end;
    apply (inj Some) in Hh as <-; unfold stage, conclude; cbn [phase enter invoke];
    repeat match goal with |- context [match ?x with Ok _ => _ | Err _ => _ end] => destruct x end;
    repeat match goal with |- context [if ?x then _ else _] => destruct x end;
    cbn [phase enter invoke now calls];
    repeat match goal with
    | H : (_ <? _) = false |- _ => apply Z.ltb_ge in H
    | H : instant_add _ _ = Some _ |- _ => apply checked_Some in H as [_ ->]
    end; naive_solver.
Qed.

Lemma timed_step start events m e m' : timed start events m -> handle m e = Some m' -> timed start (events ++ [e]) m'.
Proof.
  intros [Hn Hd Hb Hl] Hh. pose proof (handle_now _ _ _ Hh) as Hnow. destruct (handle_phase _ _ _ Hh) as (Hs & Hp & He).
  assert (Hkeep : forall b, begun_at start events = Some b -> begun_at start (events ++ [e]) = Some b).
  { intros b E. by rewrite begun_at_snoc, E. }
  split.
  - rewrite Hnow, elapsed_snoc. lia.
  - intros w dl [(w' & Hw)|(Ep & Ee & ->)]%Hs; [by apply Hkeep, (Hd w')|].
    rewrite begun_at_snoc, Hb, Ee by (by right). f_equal. lia.
  - intros [Hq Ee]%Hp. by rewrite begun_at_snoc, Hb, Ee.
  - assert (He0 : 0 <= match e with Elapse d => d | _ => 0 end).
    { destruct e; try lia. unfold handle in Hh. destruct (phase m) as [| |[] ? ?|? ?| |?|?|]; try done;
        match type of Hh with (if ?c then _ else _) = _ => destruct (Z.ltb_spec 0 duration); [lia|done] end. }
    intros [Hin|Hin%list_elem_of_singleton]%elem_of_app.
    + destruct (Hl Hin) as (b & Eb & Hle). exists b. split; [by apply Hkeep|lia].
    + subst e. destruct (He eq_refl) as (w & dl & nr & Ep & Hle). exists (dl - node_timeout config).
      split; [apply Hkeep, (Hd w); left; by exists nr|]. lia.
Qed.

Lemma timed_run start events m : run (run_claimed start) events = Some m -> timed start events m.
Proof.
  revert m. induction events as [|e events IH] using rev_ind; intros m E.
  - injection E as <-. unfold run_claimed. destruct (config_validate config); split; cbn; try lia; try done; intros; try naive_solver;
      by match goal with H : _ ∈ [] |- _ => apply not_elem_of_nil in H end.
  - rewrite run_app in E. destruct (run (run_claimed start) events) as [m0|] eqn:E0; [|done]. by apply (timed_step start events m0 e m (IH m0 eq_refl)).
Qed.

(** What the loop sees when the work never answers, the lease is renewed and the failure is accepted. *)
Definition silent (e : Event) : Prop :=
  match e with Elapse _ | RenewalDue | DeadlineReached => True | Renewed reply | FailureReported reply => reply = Ok tt | _ => False end.

(** Without an answer of the work the task is failed at its deadline. *)
Lemma times_out seconds w deadline next_renewal t cs :
  lease_seconds config = Ok seconds -> 0 < renew_interval config -> in_instant t = true ->
  in_instant (deadline + renew_interval config) = true ->
  let m := {| now := t; phase := Selecting w deadline next_renewal; calls := cs |} in
  exists rest m', Forall silent rest /\ prompt_run m rest /\ run m rest = Some m' /\ phase m' = Returned (Err TimedOut)
    /\ now m' = Z.max t deadline /\ stages (calls m') = stages cs ++ [CallFail (failure_hash TimedOut)].
Proof.
  intros Hl Hi Ht Hd. remember (Z.to_nat (deadline - Z.max t next_renewal)) as k eqn:Ek.
  revert next_renewal t cs Ht Ek. induction k as [k IH] using lt_wf_ind. intros nr t cs Ht Ek m.
  assert (Hout : forall m1, phase m1 = Selecting w deadline nr -> calls m1 = cs -> deadline <= now m1 ->
    exists m', run m1 [DeadlineReached; FailureReported (Ok tt)] = Some m' /\ phase m' = Returned (Err TimedOut) /\ now m' = now m1
      /\ stages (calls m') = stages cs ++ [CallFail (failure_hash TimedOut)]).
  { intros [t1 ph cs1] Ep Ec Hle. cbn in Ep, Ec, Hle. subst ph cs1. eexists. split.
    - cbn. destruct w; (destruct (Z.ltb_spec t1 deadline); [lia|]); reflexivity.
    - cbn. by rewrite stages_app. }
  destruct (Z.le_gt_cases deadline t) as [Hle|Hgt].
  { destruct (Hout m eq_refl eq_refl Hle) as (m' & Er & Ep & En & Ec). exists [DeadlineReached; FailureReported (Ok tt)], m'.
    split; [by repeat constructor|]. split; [|split; [done|]; split; [done|]; split; [rewrite En; cbn; lia|done]].
    split; [done|]. intros m1 _. split; [by unfold prompt; destruct (phase m1)|done]. }
  destruct (Z.le_gt_cases deadline nr) as [Hn|Hn].
  { set (m1 := {| now := t + (deadline - t); phase := Selecting w deadline nr; calls := cs |}).
    assert (E1 : handle m (Elapse (deadline - t)) = Some m1).
    { unfold handle, m. cbn. destruct w; (destruct (Z.ltb_spec 0 (deadline - t)); [done|lia]). }
    destruct (Hout m1 eq_refl eq_refl ltac:(cbn; lia)) as (m' & Er & Ep & En & Ec).
    exists (Elapse (deadline - t) :: [DeadlineReached; FailureReported (Ok tt)]), m'. split; [by repeat constructor|]. split.
    - split; [cbn; lia|]. intros m2 E2. split; [by unfold prompt; destruct (phase m2)|]. intros m3 _. split; [by unfold prompt; destruct (phase m3)|done].
    - cbn [run]. rewrite E1. cbn [mbind option_bind]. split; [done|]. split; [done|]. split; [rewrite En; cbn; lia|done]. }
  set (t1 := Z.max t nr). set (wait := if t <? nr then [Elapse (nr - t)] else []).
  set (m1 := {| now := t1; phase := Selecting w deadline nr; calls := cs |}).
  set (m2 := {| now := t1; phase := Selecting w deadline (t1 + renew_interval config); calls := cs ++ [CallRenew seconds] |}).
  assert (E1 : run m wait = Some m1 /\ prompt_run m wait).
  { unfold wait, m, m1, t1. destruct (Z.ltb_spec t nr); cbn.
    - split; [|split; [lia|done]]. destruct w; (destruct (Z.ltb_spec 0 (nr - t)); [cbn; do 2 f_equal; lia|lia]).
    - split; [|done]. do 2 f_equal. lia. }
  assert (E2 : run m1 [RenewalDue; Renewed (Ok tt)] = Some m2).
  { assert (Hadd : instant_add t1 (renew_interval config) = Some (t1 + renew_interval config)).
    { apply checked_Some. split; [|done]. unfold in_instant, in_range in *. rewrite !andb_true_iff, !Z.leb_le, !Z.ltb_lt in *. unfold t1. lia. }
    cbn. destruct w; (destruct (Z.ltb_spec t1 nr); [unfold t1 in *; lia|]); rewrite Hl; cbn; rewrite Hadd; reflexivity. }
  destruct (IH (Z.to_nat (deadline - Z.max t1 (t1 + renew_interval config))) ltac:(unfold t1; lia) (t1 + renew_interval config) t1 (cs ++ [CallRenew seconds]))
    as (rest & m' & Hs & Hp & Er & Ep & En & Ec); [|done|].
  { unfold in_instant, in_range in *. rewrite !andb_true_iff, !Z.leb_le, !Z.ltb_lt in *. unfold t1. lia. }
  exists (wait ++ [RenewalDue; Renewed (Ok tt)] ++ rest), m'. split; [|split; [|split; [|split; [done|split]]]].
  - rewrite !Forall_app. split; [unfold wait; destruct (t <? nr); by repeat constructor|]. split; [by repeat constructor|done].
  - apply (prompt_run_app _ m1); [apply E1|apply E1|]. apply (prompt_run_app _ m2); [exact E2| |exact Hp].
    split; [done|]. intros m3 _. split; [by unfold prompt; destruct (phase m3)|done].
  - rewrite (run_append _ _ _ m1), (run_append _ _ _ m2) by (done || apply E1). done.
  - rewrite En. unfold t1. lia.
  - by rewrite Ec, stages_app, app_nil_r.
Qed.

Lemma deadline_run start events m :
  0 < renew_interval config -> run (run_claimed start) events = Some m ->
  (DeadlineReached ∈ events -> exists b, begun_at start events = Some b /\ b + node_timeout config <= now m)
  /\ forall w deadline next_renewal, phase m = Selecting w deadline next_renewal ->
       begun_at start events = Some (deadline - node_timeout config)
       /\ forall seconds, lease_seconds config = Ok seconds -> in_instant (now m) = true -> in_instant (deadline + renew_interval config) = true ->
          exists rest m', Forall silent rest /\ prompt_run m rest /\ run m rest = Some m' /\ phase m' = Returned (Err TimedOut)
            /\ now m' = Z.max (now m) deadline /\ stages (calls m') = stages (calls m) ++ [CallFail (failure_hash TimedOut)].
Proof.
  intros Hi E. destruct (timed_run _ _ _ E) as [_ Hd _ Hl]. split; [done|]. intros w dl nr Ep. split; [apply (Hd w); left; by exists nr|].
  intros seconds Hs Hn Hdl. destruct m as [t ph cs]. cbn in Ep, Hn |- *. subst ph. by apply (times_out seconds).
Qed.
End claimed.

Arguments BackendCall : clear implicits.
Arguments TaskRun : clear implicits.
Arguments Event : clear implicits.

(** ** The worker around it *)

Section worker.
Context `{UlidCrate} `{Sha256} `{WorkerBuild} {Inputs Executed Publication Completion : Type}.
Context (config : WorkerConfig).

(** What one turn of the loop observes: whether the worker drains, the monotonic clock (before and after the
    cleaning of orphans) and the system clock ([None]: before 1970), the
    reply to the cleaning of orphans, the counter of the nonce and the nanoseconds it reads, the reply to the
    claim and, for a claimed task, how its run ends. *)
Record Turn := {
  drained : bool;
  clock : Z;
  clock_after : Z;
  system_clock : option Z;
  maintained : WorkerResult unit;
  nonce_nanoseconds : Z;
  nonce_counter : Z;
  claimed : WorkerResult (option ClaimedTask);
  outcome : WorkerResult unit
}.

Inductive WorkerCall := Maintain (cutoff : Z) | Claim (lease : Ulid) (seconds : Z) | RunTask (task : ClaimedTask).

(** How a turn ends: the loop goes on, sleeps and goes on, returns, or panics. *)
Inductive TurnEnd := Continue | Sleep (duration : Z) | Return (result : WorkerResult unit) | Panic.

Definition lease_of (turn : Turn) : option Ulid :=
  derived_id (as_bytes "ficant/worker-lease/v1")
    [as_bytes (ulid_str (worker_id config)); monotonic_nonce (nonce_nanoseconds turn) (nonce_counter turn)].

(** The seconds before which orphans are cleaned. *)
Definition orphan_cutoff (turn : Turn) : WorkerResult Z :=
  now ← ok_or (system_clock turn) (InvalidWorkerConfiguration "worker system clock");
  cutoff ← (if now <? orphan_grace config then Err (InvalidWorkerConfiguration "worker orphan grace") else Ok (now - orphan_grace config));
  ok_or (checked in_i64 (as_secs cutoff)) (InvalidWorkerConfiguration "worker orphan cutoff").

(** The part of a turn after the cleaning of orphans. *)
Definition claim_turn (turn : Turn) (calls : list WorkerCall) : list WorkerCall * TurnEnd :=
  match lease_of turn with
  | None => (calls, Panic)
  | Some lease =>
  match lease_seconds config with
  | Err error => (calls, Return (Err error))
  | Ok seconds =>
  let calls := calls ++ [Claim lease seconds] in
  match claimed turn with
  | Ok (Some task) =>
      (calls ++ [RunTask task],
       match outcome turn with
       | Err error => if negb (worker_retryable error) then Return (Err error) else Continue
       | Ok _ => Continue
       end)
  | Ok None => (calls, Sleep (idle_poll_interval config))
  | Err error => (calls, if worker_retryable error then Sleep (idle_poll_interval config) else Return (Err error))
  end end end.

(** One turn: the calls it makes, the time of the next maintenance, and its end. *)
Definition worker_turn (next_maintenance : Z) (turn : Turn) : list WorkerCall * Z * TurnEnd :=
  if drained turn then ([], next_maintenance, Return (Ok tt)) else
  if clock turn <? next_maintenance then
    let '(calls, ending) := claim_turn turn [] in (calls, next_maintenance, ending)
  else
    match orphan_cutoff turn with
    | Err error => ([], next_maintenance, Return (Err error))
    | Ok cutoff =>
        let calls := [Maintain cutoff] in
        match maintained turn with
        | Err error => (calls, next_maintenance, Return (Err error))
        | Ok _ =>
            match instant_add (clock_after turn) (orphan_interval config) with
            | None => (calls, next_maintenance, Panic)
            | Some next_maintenance =>
                let '(calls, ending) := claim_turn turn calls in (calls, next_maintenance, ending)
            end
        end
    end.

(** The loop over what the turns observe; [None] at the end: it still runs. *)
Fixpoint worker_loop (next_maintenance : Z) (turns : list Turn) : list WorkerCall * option TurnEnd :=
  match turns with
  | [] => ([], None)
  | turn :: turns =>
      let '(calls, next_maintenance, ending) := worker_turn next_maintenance turn in
      match ending with
      | Continue | Sleep _ => let '(later, final) := worker_loop next_maintenance turns in (calls ++ later, final)
      | _ => (calls, Some ending)
      end
  end.

Definition run_worker (start : Z) (turns : list Turn) : list WorkerCall * option TurnEnd :=
  match config_validate config with
  | Ok _ => worker_loop start turns
  | Err error => ([], Some (Return (Err error)))
  end.

(** The time of the next cleaning of orphans, after a turn that goes on. *)
Definition next_after (next : Z) (turn : Turn) : Z := if clock turn <? next then next else clock_after turn + orphan_interval config.

(** A turn gets past the cleaning of orphans: it is not due, or it was done. *)
Definition cleaned (next : Z) (turn : Turn) : Prop :=
  clock turn < next
  \/ (exists cutoff, orphan_cutoff turn = Ok cutoff) /\ maintained turn = Ok tt
     /\ instant_add (clock_after turn) (orphan_interval config) <> None.

(** What ends a worker with an error, in a turn that does not drain: the cutoff of the orphans, when they are
    due; their cleaning; the lease; a claim, or the claimed task. *)
Definition cause (next : Z) (turn : Turn) (error : WorkerError) : Prop :=
  next <= clock turn /\ orphan_cutoff turn = Err error
  \/ next <= clock turn /\ (exists cutoff, orphan_cutoff turn = Ok cutoff) /\ maintained turn = Err error
  \/ cleaned next turn /\ lease_of turn <> None /\
     (lease_seconds config = Err error
      \/ (exists seconds, lease_seconds config = Ok seconds) /\ worker_retryable error = false
         /\ (claimed turn = Err error \/ exists task, claimed turn = Ok (Some task) /\ outcome turn = Err error)).

(** The calls of a turn: the cleaning of orphans exactly when it is due, then a claim, then the claimed task. *)
Definition turn_calls (next : Z) (turn : Turn) (calls : list WorkerCall) : Prop :=
  exists claim,
    calls = (if negb (drained turn) && (next <=? clock turn)
             then match orphan_cutoff turn with Ok cutoff => [Maintain cutoff] | Err _ => [] end else []) ++ claim
    /\ (claim = [] \/ drained turn = false /\ cleaned next turn /\ exists lease seconds, lease_of turn = Some lease
          /\ lease_seconds config = Ok seconds
          /\ claim = Claim lease seconds :: match claimed turn with Ok (Some task) => [RunTask task] | _ => [] end).

(** How a turn may end. *)
Definition ends (next : Z) (turn : Turn) (ending : TurnEnd) : Prop :=
  match ending with
  | Return (Ok _) => drained turn = true
  | Return (Err error) => drained turn = false /\ cause next turn error
  | Panic => drained turn = false /\
      (next <= clock turn /\ (exists cutoff, orphan_cutoff turn = Ok cutoff) /\ maintained turn = Ok tt
         /\ instant_add (clock_after turn) (orphan_interval config) = None
       \/ cleaned next turn /\ lease_of turn = None)
  | Continue | Sleep _ => drained turn = false /\ forall error, ~ cause next turn error
  end.

Definition claims (calls : list WorkerCall) : Prop := exists lease seconds, Claim lease seconds ∈ calls.

Lemma claim_turn_spec next turn calls : drained turn = false -> cleaned next turn ->
  (clock turn < next \/ (exists cutoff, orphan_cutoff turn = Ok cutoff) /\ maintained turn = Ok tt) ->
  exists claim, (claim_turn turn calls).1 = calls ++ claim /\ ends next turn (claim_turn turn calls).2
    /\ (claim = [] \/ exists lease seconds, lease_of turn = Some lease /\ lease_seconds config = Ok seconds
          /\ claim = Claim lease seconds :: match claimed turn with Ok (Some task) => [RunTask task] | _ => [] end)
    /\ match (claim_turn turn calls).2 with Continue | Sleep _ => claims claim | _ => True end.
Proof.
  intros Hd Hcl Hm.
  assert (Hno : forall error, cause next turn error -> lease_of turn <> None /\ (lease_seconds config = Err error
      \/ (exists seconds, lease_seconds config = Ok seconds) /\ worker_retryable error = false
         /\ (claimed turn = Err error \/ exists task, claimed turn = Ok (Some task) /\ outcome turn = Err error))).
  { intros error [[Hle E]|[(Hle & [c Hc] & E)|(_ & Hc)]]; [| |done];
      destruct Hm as [Hlt|[[c' Hc'] Hm]]; first [lia|congruence]. }
  unfold claim_turn. destruct (lease_of turn) as [lease|] eqn:El.
  2: { exists []. cbn [fst snd]. rewrite app_nil_r. split; [done|]. split; [split; [done|by right]|]. split; [by left|done]. }
  assert (Hcause : forall error, (lease_seconds config = Err error
      \/ (exists seconds, lease_seconds config = Ok seconds) /\ worker_retryable error = false
         /\ (claimed turn = Err error \/ exists task, claimed turn = Ok (Some task) /\ outcome turn = Err error)) -> cause next turn error).
  { intros error Hc. right; right. by rewrite El. }
  destruct (lease_seconds config) as [seconds|error] eqn:Es.
  2: { exists []. cbn [fst snd]. rewrite app_nil_r. split; [done|]. split; [|split; [by left|done]]. split; [done|]. apply Hcause. by left. }
  assert (Hclaim : forall later, claims (Claim lease seconds :: later)) by (intros later; exists lease, seconds; apply elem_of_cons; by left).
  destruct (claimed turn) as [[task|]|error] eqn:Ec; cbn [fst snd].
  - exists [Claim lease seconds; RunTask task]. rewrite <- (assoc_L (++)). split; [done|]. split; [|split; [right; by exists lease, seconds|by repeat case_match]].
    destruct (outcome turn) as [u|error] eqn:Eo.
    + split; [done|]. intros error [_ [Hc|(_ & _ & [Hc|(? & _ & Hc)])]]%Hno; congruence.
    + destruct (worker_retryable error) eqn:Er; cbn [negb].
      * split; [done|]. intros error' [_ [Hc|(_ & Hr & [Hc|(? & _ & Hc)])]]%Hno; congruence.
      * split; [done|]. apply Hcause. right. split; [by exists seconds|]. split; [done|]. right. by exists task.
  - exists [Claim lease seconds]. split; [done|]. split; [|split; [right; by exists lease, seconds|done]].
    split; [done|]. intros error [_ [Hc|(_ & _ & [Hc|(? & Hc & _)])]]%Hno; congruence.
  - exists [Claim lease seconds]. split; [done|]. split; [|split; [right; by exists lease, seconds|by repeat case_match]].
    destruct (worker_retryable error) eqn:Er.
    + split; [done|]. intros error' [_ [Hc|(_ & Hr & [Hc|(? & Hc & _)])]]%Hno; congruence.
    + split; [done|]. apply Hcause. right. split; [by exists seconds|]. split; [done|]. by left.
Qed.

Definition goes_on (ending : TurnEnd) : Prop := match ending with Continue | Sleep _ => True | _ => False end.

Lemma worker_turn_spec next turn calls next' ending :
  worker_turn next turn = (calls, next', ending) ->
  ends next turn ending /\ turn_calls next turn calls /\ (goes_on ending -> next' = next_after next turn /\ claims calls).
Proof.
  unfold worker_turn, turn_calls, next_after. destruct (drained turn) eqn:Ed; cbn [negb andb].
  - intros [= <- <- <-]. split; [done|]. split; [|by intros []]. exists []. split; [done|by left].
  - destruct (Z.ltb_spec (clock turn) next) as [Hlt|Hle].
    + rewrite (proj2 (Z.leb_gt next (clock turn)) Hlt).
      destruct (claim_turn_spec next turn [] Ed (or_introl Hlt) (or_introl Hlt)) as (claim & Ec & He & Hc & Hg).
      destruct (claim_turn turn []) as [calls' e] eqn:Et. intros [= <- <- <-]. cbn in Ec, He, Hg. subst calls'. split; [done|].
      split; [exists claim; split; [done|]; destruct Hc as [->|Hc]; [by left|right; split; [done|]; by split; [left|]]|].
      intros Hgo. split; [done|]. by destruct e.
    + rewrite (proj2 (Z.leb_le next (clock turn)) Hle). destruct (orphan_cutoff turn) as [cutoff|error] eqn:Eo.
      * destruct (maintained turn) as [[]|error] eqn:Em.
        -- destruct (instant_add (clock_after turn) (orphan_interval config)) as [t|] eqn:Ei.
           ++ assert (Hcl : cleaned next turn) by (right; split; [by exists cutoff|]; split; [done|]; by rewrite Ei).
              destruct (claim_turn_spec next turn [Maintain cutoff] Ed Hcl ltac:(right; split; [by exists cutoff|done])) as (claim & Ec & He & Hc & Hg).
              destruct (claim_turn turn [Maintain cutoff]) as [calls' e] eqn:Et. intros [= <- <- <-]. cbn [fst snd] in Ec, He, Hg. subst calls'.
              split; [done|]. split; [exists claim; split; [done|]; destruct Hc as [->|Hc]; [by left|by right]|].
              intros Hgo. split; [by apply checked_Some in Ei as [_ ->]|].
              assert (Hcs : claims claim) by (by destruct e). destruct Hcs as (l & s & Hin). exists l, s. apply elem_of_app. by right.
           ++ intros [= <- <- <-]. split; [|split; [exists []; split; [done|by left]|by intros []]]. split; [done|]. left.
              split; [done|]. split; [by exists cutoff|done].
        -- intros [= <- <- <-]. split; [|split; [exists []; split; [done|by left]|by intros []]]. split; [done|]. right; left.
           split; [done|]. split; [by exists cutoff|done].
      * intros [= <- <- <-]. split; [|split; [exists []; split; [done|by left]|by intros []]]. split; [done|]. by left.
Qed.

(** Turns that go on, with the calls of each, and the times of the next cleaning before and after them. *)
Inductive passes : Z -> list Turn -> list (list WorkerCall) -> Z -> Prop :=
| passes_nil next : passes next [] [] next
| passes_cons next turn turns calls done next' :
    drained turn = false -> (forall error, ~ cause next turn error) -> turn_calls next turn calls -> claims calls ->
    passes (next_after next turn) turns done next' -> passes next (turn :: turns) (calls :: done) next'.

Lemma worker_loop_spec next turns calls ending :
  worker_loop next turns = (calls, ending) ->
  exists before done next' last, passes next before done next' /\ calls = concat done ++ last
    /\ match ending with
       | None => turns = before /\ last = []
       | Some ending => exists turn later, turns = before ++ turn :: later /\ turn_calls next' turn last /\ ends next' turn ending /\ ~ goes_on ending
       end.
Proof.
  revert next calls ending. induction turns as [|turn turns IH]; intros next calls ending E; cbn in E.
  - injection E as <- <-. exists [], [], next, []. split; [constructor|done].
  - destruct (worker_turn next turn) as [[calls1 next1] e1] eqn:Et. destruct (worker_turn_spec _ _ _ _ _ Et) as (He & Hc & Hgo').
    assert (Hgo : goes_on e1 \/ ~ goes_on e1) by (destruct e1; cbn; tauto). destruct Hgo as [Hgo|Hgo].
    + destruct (Hgo' Hgo) as [-> Hcl]. destruct (worker_loop (next_after next turn) turns) as [later final] eqn:El.
      assert (E' : (calls1 ++ later, final) = (calls, ending)) by (destruct e1; done). injection E' as <- <-.
      destruct (IH _ _ _ El) as (bf & dn & next' & last & Hp & -> & Hend).
      exists (turn :: bf), (calls1 :: dn), next', last. cbn [concat]. rewrite <- (assoc_L (++)).
      assert (Hed : drained turn = false /\ forall error, ~ cause next turn error) by (by destruct e1).
      split; [by constructor; try apply Hed|]. split; [done|]. destruct final as [ending|].
      * destruct Hend as (t & l & -> & H1' & H2'). by exists t, l.
      * by destruct Hend as [-> ->].
    + assert (E' : (calls1, Some e1) = (calls, ending)) by (destruct e1; [by destruct Hgo|by destruct Hgo|done|done]). injection E' as <- <-.
      exists [], [], next, calls1. split; [constructor|]. split; [done|]. by exists turn, turns.
Qed.
End worker.

Arguments Turn : clear implicits.

(** ** Properties *)

Section properties.
Context `{UlidCrate} `{Sha256} `{WorkerBuild} {Inputs Executed Publication Completion : Type}.
Context (config : WorkerConfig).

(** What the calls of a task may be after some events, and what its end says of them. *)
Record protocol (task : ClaimedTask) (events : list (Event Inputs Executed Publication Completion))
    (m : TaskRun Inputs Executed Publication Completion) : Prop := {
  protocol_shape : shaped events (calls m);
  protocol_answers : forall call, call ∈ calls m -> call = CallLoad \/ exists e, e ∈ events /\ answers config task call e;
  protocol_renewals : renewals_inside (calls m);
  protocol_result : forall result, phase m = Returned result ->
    (events = [] /\ calls m = [] /\ exists error, result = Err error /\ config_validate config = Err error)
    \/ exists before e, events = before ++ [e] /\ settles config task before (calls m) e result;
  protocol_panic : phase m = Panicked -> exists before e, events = before ++ [e] /\ overflows config m e
}.

Lemma history_protocol task events m : history config task events m -> protocol task events m.
Proof.
  intros [Hb Ha Hr]. split; [by apply (behind_shape config task events)|done|done|..].
  - intros result E. unfold behind in Hb. by rewrite E in Hb.
  - intros E. unfold behind in Hb. rewrite E in Hb. apply Hb.
Qed.

Lemma valid_durations : config_validate config = Ok tt -> 0 <= node_timeout config -> 0 <= renew_interval config -> 0 < renew_interval config.
Proof.
  unfold config_validate. destruct (_ || is_blank _); [done|]. intros E. apply bind_Ok in E as (h & _ & E).
  destruct (_ || _) in E; [done|]. destruct (negb _) in E; [done|]. destruct (unsafe_durations config) eqn:Eu; [done|].
  intros. unfold unsafe_durations in Eu. rewrite !orb_false_iff, !Z.eqb_neq in Eu. lia.
Qed.

Lemma stops_spec start turns calls ending :
  run_worker config start turns = (calls, ending) ->
  (exists error, config_validate config = Err error /\ calls = [] /\ ending = Some (Return (Err error)))
  \/ config_validate config = Ok tt /\ exists before done next last, passes config start before done next /\ calls = concat done ++ last
     /\ match ending with
        | None => turns = before /\ last = []
        | Some ending => exists turn later, turns = before ++ turn :: later /\ turn_calls config next turn last
                           /\ ends config next turn ending /\ ~ goes_on ending
        end.
Proof.
  unfold run_worker. destruct (config_validate config) as [[]|error] eqn:Ev.
  - intros E. right. split; [done|]. by apply worker_loop_spec.
  - intros [= <- <-]. left. by exists error.
Qed.
End properties.

(** C26. Whatever order the replies of the backend, the renewal timer and the deadline come in, a claimed
    task keeps to its protocol: the stages are called once each and in order; each call is the answer to
    the event it needs (the node is started only for a task whose persisted identity matches the
    deployment); the lease is renewed only between the beginning and the conclusion; the task is concluded
    once at most, as completed with the promoted result or as failed with the hash of an error of the loop
    that is not retryable. A task returns by one last event, which decides the result: the reply to its
    completion; the error of loading, validating or beginning, of a lease too long for 32 bits, or of the
    loop when that is retryable; the error of the loop that was reported, once the report is accepted; and
    the error of the report when it is refused, which hides the first one. It panics only when an instant
    overflows. *)
Theorem claimed_task_protocol `{Sha256} `{WorkerBuild} {Inputs Executed Publication Completion : Type} config task start
    (events : list (Event Inputs Executed Publication Completion)) m :
  run config task (run_claimed config start) events = Some m -> protocol config task events m.
Proof. intros E. apply history_protocol. by apply (history_run config task start). Qed.

(** C27. A claimed task is bounded by its deadline, with a valid configuration and as long as time does not
    pass over a timer that the loop waits for. The lease is renewed at most as often as the renewal
    interval fits into the time limit of the node, and at most eight events and two per renewal are
    observed. The deadline is not reached before the time limit has passed since the backend began the
    task. And whenever the loop waits, the task can run to its end without the work: if only the timers
    fire, the lease is renewed and the failure is accepted, the task is reported as failed and returns
    [TimedOut] exactly at the deadline (or at once, when a renewal took longer), which is the beginning plus
    the time limit. *)
Theorem claimed_task_bounded `{Sha256} `{WorkerBuild} {Inputs Executed Publication Completion : Type} config task start
    (events : list (Event Inputs Executed Publication Completion)) m :
  config_validate config = Ok tt -> 0 <= node_timeout config -> 0 <= renew_interval config ->
  prompt_run config task (run_claimed config start) events -> run config task (run_claimed config start) events = Some m ->
  renewed (calls m) <= node_timeout config / renew_interval config
  /\ Z.of_nat (List.length (List.filter observed events)) <= 8 + 2 * (node_timeout config / renew_interval config)
  /\ (DeadlineReached ∈ events -> exists b, begun_at start events = Some b /\ b + node_timeout config <= now m)
  /\ forall w deadline next_renewal, phase m = Selecting w deadline next_renewal ->
       begun_at start events = Some (deadline - node_timeout config)
       /\ forall seconds, lease_seconds config = Ok seconds -> in_instant (now m) = true -> in_instant (deadline + renew_interval config) = true ->
          exists rest m', Forall silent rest /\ prompt_run config task m rest /\ run config task m rest = Some m'
            /\ phase m' = Returned (Err TimedOut) /\ now m' = Z.max (now m) deadline
            /\ stages (calls m') = stages (calls m) ++ [CallFail (failure_hash TimedOut)].
Proof.
  intros Hv Ht Hi Hp E. apply valid_durations in Hv; [|done..].
  destruct (bounded_run config task start events m Hv Ht Hp E) as [Hr Ho]. split; [done|]. split; [done|].
  by apply deadline_run.
Qed.

(** C28. A worker stops for a cause and only then. With an invalid configuration it returns its error
    before any call. Otherwise it goes on as long as no turn drains, panics or has a cause, and stops in the
    first that does: it returns success when it drains, observed between tasks; it panics when the instant of
    the next cleaning overflows or no lease id can be derived; it returns an error exactly when that is the
    error of the cutoff for orphans or of their cleaning, when that is due (retryable or not, other than its
    documentation says), of a lease too long for 32 bits, or a refused claim or a failed task whose error is
    not retryable. The calls of each turn are the cleaning of orphans with the cutoff of its clock exactly
    when it is due, then a claim with the lease derived for the turn, and the run of the claimed task; every
    turn that goes on makes its claim, and after a cleaning the next one is due an interval later. *)
Theorem worker_stops_for_cause `{UlidCrate} `{Sha256} `{WorkerBuild} config start turns calls ending :
  run_worker config start turns = (calls, ending) ->
  (exists error, config_validate config = Err error /\ calls = [] /\ ending = Some (Return (Err error)))
  \/ config_validate config = Ok tt /\ exists before done next last, passes config start before done next /\ calls = concat done ++ last
     /\ match ending with
        | None => turns = before /\ last = []
        | Some ending => exists turn later, turns = before ++ turn :: later /\ turn_calls config next turn last
                           /\ ends config next turn ending /\ ~ goes_on ending
        end.
Proof. apply stops_spec. Qed.

(** ** A concrete worker *)

Section example.
Local Existing Instance sample_sha256.
Local Existing Instance sample_ulid_crate.
Local Existing Instance sample_chrono.
Local Existing Instance sample_chrono_laws.

Definition sample_build : WorkerBuild := {|
  worker_native := sample_native_build; compiled_git_commit_sha := git_commit_sha sample_code; compiled_git_tree_sha := git_tree_sha sample_code
|}.
Local Existing Instance sample_build.

Definition sample_config (lease renew : Z) : WorkerConfig := {|
  database_url := "postgres://db"; s3_endpoint := "https://s3"; s3_bucket := "bucket"; s3_access_key := "key"; s3_secret_key := "secret";
  worker_id := sample_id "W"; code := sample_code; runtime_image_digest := sample_hash x04;
  environment_attestation := sample_attestation; native_source_digest := default (sample_hash x0d) native_node_source_digest;
  lease_duration := from_secs lease; renew_interval := from_secs renew; idle_poll_interval := from_millis 500;
  node_timeout := from_secs 30; orphan_grace := from_hours 1; orphan_interval := from_secs 60
|}.

(** One node with a built-in contract. *)
Definition worker_node : ResearchNode := sample_trusted_node "A" sample_builtin.
Definition worker_graph : ResearchGraph := {|
  graph_id := sample_id "G"; graph_version := mk_version 1; graph_owner := sample_owner; nodes := [worker_node]; edges := [];
  external_inputs := []; external_input_bindings := []; topological_order_field := [sample_id "A"]; graph_digest := sample_hash x0c |}.
Definition worker_implementations : list NodeImplementation :=
  match trusted_native_node worker_node with
  | Ok t => [{| implemented_node := sample_id "A"; implementation_digest := bound_implementation (bound t) |}]
  | Err _ => []
  end.

Definition sample_loaded : LoadedTask := {|
  loaded_owner := sample_owner;
  loaded_run := {|
    ExperimentRun.experiment_run_id := sample_id "R"; ExperimentRun.owner := sample_owner; ExperimentRun.data_snapshot := sample_lineage;
    ExperimentRun.universe_snapshot := sample_lineage; ExperimentRun.rule_packs := [sample_vref "P"];
    ExperimentRun.runtime_image_digest := sample_hash x04; ExperimentRun.parameters_hash := sample_hash x03; ExperimentRun.seed := 42;
    ExperimentRun.state := Running; ExperimentRun.revision := 2; ExperimentRun.lineage := []
  |};
  loaded_graph := worker_graph;
  stored_identity := {|
    stored_owner := sample_owner; stored_graph_id := sample_id "G"; stored_graph_version := mk_version 1;
    stored_execution := {|
      instance_run_id := sample_id "R";
      reproducibility := {|
        rep_external_inputs := rep_external_inputs sample_identity; rep_rule_packs := rep_rule_packs sample_identity;
        rep_data_snapshot := sample_hash x01; rep_universe_snapshot := sample_hash x02;
        rep_graph_digest := graph_digest worker_graph; rep_parameters := sample_hash x03; rep_image := sample_hash x04;
        rep_environment := digest (as_bytes sample_attestation); rep_seed := 42;
        rep_implementations := worker_implementations; rep_subject := Some (sample_input_binding "subject" Subject);
        rep_code := Some sample_code; rep_digest := sample_hash x0e
      |};
      instance_digest := sample_hash x0f
    |};
    external_input_artifacts := []
  |}
|}.

Definition sample_task : ClaimedTask := {|
  task_tenant_id := sample_id "T"; task_id := sample_id "K"; task_run_id := sample_id "R"; task_node_id := sample_id "A";
  task_graph_digest := graph_digest worker_graph; execution_identity_digest := sample_hash x0f;
  planned_artifact_id := sample_id "P"; lease_id := sample_id "N"; attempt := 1
|}.

Example sample_configs :
  is_ok (config_validate (sample_config 60 20)) = true /\ is_ok (config_validate (sample_config 20 20)) = false
  /\ is_ok (validate_loaded sample_task sample_loaded (sample_config 60 20)) = true.
Proof. vm_compute. done. Qed.

Definition sample_start : list (Event unit unit unit unit) := [Loaded (Ok sample_loaded); Begun (Ok tt); WorkPolled; InputsRead (Ok tt)].
(** The lease is renewed while the node runs, and the task completes. *)
Definition successful : list (Event unit unit unit unit) :=
  sample_start ++ [Elapse (from_secs 20); RenewalDue; Renewed (Ok tt); NodeExecuted (Ok tt); PublicationPrepared (Ok tt); Promoted (Ok tt);
    Completed (Ok tt)].
(** The deadline passes while the node runs, and the failure is reported. *)
Definition late : list (Event unit unit unit unit) :=
  sample_start ++ [Elapse (from_secs 20); RenewalDue; Renewed (Ok tt); Elapse (from_secs 10); DeadlineReached; FailureReported (Ok tt)].

Definition sample_run (events : list (Event unit unit unit unit)) : option (TaskRun unit unit unit unit) :=
  run (sample_config 60 20) sample_task (run_claimed (sample_config 60 20) 0) events.

Definition ended (m : TaskRun unit unit unit unit) : option (WorkerResult unit) := match phase m with Returned r => Some r | _ => None end.

Example sample_runs :
  (sample_run successful ≫= ended) = Some (Ok tt) /\ (sample_run late ≫= ended) = Some (Err TimedOut)
  /\ option_map (fun m => map stage_number (calls m)) (sample_run successful) = Some [0; 1; 2; 3; 8; 4; 5; 6]%nat
  /\ option_map (fun m => map stage_number (calls m)) (sample_run late) = Some [0; 1; 2; 3; 8; 7]%nat
  /\ sample_run (sample_start ++ [RenewalDue]) = None /\ sample_run (WorkPolled :: sample_start) = None.
Proof. vm_compute. done. Qed.

Lemma claimed_task_protocol_witness :
  exists m, sample_run successful = Some m /\ protocol (sample_config 60 20) sample_task successful m.
Proof.
  assert (V : bool_decide (is_Some (sample_run successful)) = true) by (vm_compute; reflexivity). revert V.
  destruct (sample_run successful) as [m|] eqn:E; [|discriminate]. intros _. exists m. split; [reflexivity|].
  apply (claimed_task_protocol (sample_config 60 20) sample_task 0 successful m E).
Defined.

Lemma claimed_task_bounded_witness :
  exists m rest m', sample_run sample_start = Some m /\ Forall silent rest
    /\ run (sample_config 60 20) sample_task m rest = Some m' /\ phase m' = Returned (Err TimedOut) /\ now m' = from_secs 30.
Proof.
  assert (V : (fun m => (phase m, now m)) <$> sample_run sample_start = Some (Selecting Executing (from_secs 30) (from_secs 20), 0))
    by (vm_compute; reflexivity).
  destruct (sample_run sample_start) as [m|] eqn:E; [|discriminate]. injection V as Ep En. exists m.
  unfold sample_run in E.
  assert (Hp : prompt_run (sample_config 60 20) sample_task (run_claimed (sample_config 60 20) 0) sample_start)
    by (apply is_prompt_run; vm_compute; reflexivity).
  assert (Hv : config_validate (sample_config 60 20) = Ok tt) by (vm_compute; reflexivity).
  assert (Hl : lease_seconds (sample_config 60 20) = Ok 60) by (vm_compute; reflexivity).
  assert (Hi : in_instant (from_secs 30 + renew_interval (sample_config 60 20)) = true) by (vm_compute; reflexivity).
  assert (Ht : 0 <= node_timeout (sample_config 60 20) /\ 0 <= renew_interval (sample_config 60 20)) by (split; vm_compute; discriminate).
  destruct (claimed_task_bounded (sample_config 60 20) sample_task 0 sample_start m Hv (proj1 Ht) (proj2 Ht) Hp E) as (_ & _ & _ & H).
  destruct (H _ _ _ Ep) as (_ & Hout). rewrite En in Hout. destruct (Hout 60 Hl eq_refl Hi) as (rest & m' & Hs & _ & Er & Er' & Hn & _).
  exists rest, m'. split; [reflexivity|]. split; [exact Hs|]. split; [exact Er|]. split; [exact Er'|]. rewrite Hn. vm_compute. reflexivity.
Defined.

Definition sample_turn (stop : bool) (claim : WorkerResult (option ClaimedTask)) (result : WorkerResult unit) : Turn := {|
  drained := stop; clock := from_secs 5; clock_after := from_secs 6; system_clock := Some (from_hours 400000); maintained := Ok tt;
  nonce_nanoseconds := 1700000000000000000; nonce_counter := 3; claimed := claim; outcome := result
|}.

(** A task that may be retried and a task that completes, then a claim that is refused. *)
Definition sample_turns : list Turn :=
  [sample_turn false (Ok (Some sample_task)) (Err (Backend RenewStep true)); sample_turn false (Ok (Some sample_task)) (Ok tt);
   sample_turn false (Err (Backend LoadStep false)) (Ok tt); sample_turn true (Ok None) (Ok tt)].

Example sample_worker :
  (run_worker (sample_config 60 20) (from_secs 5) sample_turns).2 = Some (Return (Err (Backend LoadStep false)))
  /\ List.length (run_worker (sample_config 60 20) (from_secs 5) sample_turns).1 = 6%nat
  /\ (run_worker (sample_config 60 20) (from_secs 5) [sample_turn false (Ok None) (Ok tt); sample_turn true (Ok None) (Ok tt)]).2 = Some (Return (Ok tt))
  /\ run_worker (sample_config 20 20) 0 sample_turns = ([], Some (Return (Err (InvalidWorkerConfiguration "worker duration")))).
Proof. vm_compute. done. Qed.

Lemma worker_stops_for_cause_witness :
  exists before turn later next, sample_turns = before ++ turn :: later /\ cause (sample_config 60 20) next turn (Backend LoadStep false).
Proof.
  destruct (run_worker (sample_config 60 20) (from_secs 5) sample_turns) as [cs ending] eqn:E.
  assert (V : ending = Some (Return (Err (Backend LoadStep false)))) by (apply (f_equal snd) in E; cbn [snd] in E; rewrite <- E; vm_compute; reflexivity).
  subst ending. destruct (worker_stops_for_cause _ _ _ _ _ E)
    as [(error & Hv & _ & _)|(_ & before & dn & next & last & _ & _ & turn & later & Et & _ & He & _)].
  - exfalso. assert (V : is_ok (config_validate (sample_config 60 20)) = true) by (vm_compute; reflexivity). revert V Hv.
    destruct (config_validate (sample_config 60 20)); discriminate.
  - exists before, turn, later, next. split; [exact Et|apply He].
Defined.

(** The cleaning of orphans ends the worker with an error that may be retried. *)
Lemma retryable_maintenance_stops :
  (run_worker (sample_config 60 20) (from_secs 5)
    [{| drained := false; clock := from_secs 5; clock_after := from_secs 6; system_clock := Some (from_hours 400000);
        maintained := Err (Backend MaintenanceStep true); nonce_nanoseconds := 0; nonce_counter := 0; claimed := Ok None; outcome := Ok tt |}]).2
  = Some (Return (Err (Backend MaintenanceStep true)))
  /\ worker_retryable (Backend MaintenanceStep true) = true.
Proof. vm_compute. done. Qed.

(** A failure that cannot be reported hides the error that caused it. *)
Lemma unreported_failure_hides_cause :
  (sample_run (sample_start ++ [Elapse (from_secs 20); RenewalDue; Renewed (Ok tt); Elapse (from_secs 10); DeadlineReached;
    FailureReported (Err (Backend FailStep true))]) ≫= ended) = Some (Err (Backend FailStep true)).
Proof. vm_compute. done. Qed.
End example.
